(* ===== verification/_CoqProject ===== *)
-Q . S2P
Prelude.v
Archive.v
Qemud.v
Cable.v
VsockState.v
VsockDevice.v
VsockFacts.v
VsockInvariant.v
VsockQueue.v
VsockSnapshot.v
VsockSpec.v
CText.v
Stralloc.v
Misc.v
PathText.v
PathFiles.v
Options.v
StorageCapacity.v
Bootconfig.v
HostSystem.v
AllowList.v
GrpcAuth.v
Jwk.v
GrpcServer.v
Ext4Alloc.v
Ext4Region.v
Ext4Extent.v
Ext4Dir.v
Ext4Geometry.v
Ext4Fixup.v
Ext4FixupRuns.v
Sha1.v
Posix.v
Filelock.v
FilelockShared.v
Connector.v
IniFile.v
AvdConfig.v
Advertisement.v
SocketWaiter.v
Looper.v
HangDetector.v
Ramdisk.v
Fstab.v
Partition.v
Touch.v
VirtioInput.v
KeyTables.v
Keys.v
Battery.v
PortForward.v
Events.v
Hal.v
Physics.v
Inertia.v
Motion.v
Stable.v
Sensors.v
