(* ===== verification/Prelude.v ===== *)
(** * A verified model of the goldfish emulator platform

    This library models the parts of the emulator that carry its own logic,
    translated from the C++ and C sources under [src/], and proves what makes
    them correct.  It has a file per component; this one is the prelude, with
    what the components share: machine integers, bytes and the lemmas on lists,
    bits and bytes.

    ** How the program is put together

    A guest runs in QEMU.  It talks to the emulator through devices; the most
    important is the virtio vsock device, whose streams end in plugs.  A new
    stream ends in a connector, which reads a line naming a device and
    switches the stream to it; from then on the device and the guest exchange
    packets framed by qemud (the sensors, the clipboard, the guest status, the
    boot properties, the fingerprint sensor).  Other devices are QEMU devices of
    their own (the battery, the touch screen).  The user interface and other
    programs reach the devices through gRPC services, whose server asks an
    allow list who may call what.  Around this are the libraries of the
    emulator: ini files, lock files, event loops, partition images, the reader
    of ramdisk images, the command line, the maker of ext4 images.

    ** The files and the code they model

    - [Prelude], [CText]: shared definitions; the functions of the C and C++
      libraries on text.
    - [Archive]: [emulator/libs/archive], the stream format of snapshots.
    - [Qemud]: [emulator/devices/qemud.cpp], packets with a four digit header.
    - [Cable]: [emulator/devices/cable.cpp] and [cable.h], the interface between
      plugs and sockets, a type class in both directions.
    - [VsockState], [VsockDevice], [VsockFacts], [VsockInvariant],
      [VsockQueue], [VsockSnapshot], [VsockSpec]: [emulator/plugin/vsock_goldfish]
      ([vsock.cpp], [vsock_low_level.c]); data, operations, lemmas, invariant
      by rule induction, virtqueues, snapshots and the contract of the device.
    - [Connector]: [emulator/devices/Connector.cpp], [connector_registry.cpp].
    - [IniFile]: [android/files/src/aemu/base/files/IniFile.cpp].
    - [Posix], [Filelock], [FilelockShared]: the lock files of [android/files]
      ([filelock.cpp]) over a model of a POSIX system of several processes:
      one attempt, and attempts of several processes; with the process calls
      of [Command_Posix.cpp].
    - [Stralloc], [Misc], [Options]: the dynamic strings, text helpers and the
      command line options of the emulator ([emulator/cmdline]).
    - [StorageCapacity]: [android/system]'s capacities with their units.
    - [Bootconfig]: [emulator/launcher], the properties behind the ramdisk.
    - [PathText], [PathFiles]: [path.cpp] of [android/files]; path strings, and
      making, copying, loading and deleting over a host of POSIX calls.
    - [HostSystem]: [System.cpp] of [android/system] as it is for Linux, the services
      of the host: environment, directories, sizes, disks, memory.
    - [AvdConfig]: [emulator/config]'s directories, virtual devices, images and
      hardware, over the interface of [System].
    - [AllowList], [GrpcAuth], [Jwk], [GrpcServer]: [emulator/android-grpc], the
      access file, the checks of tokens, the keys in a directory that others
      change, and the builder of the server.
    - [Advertisement]: [emulator/config]'s [emulator_advertisement.cpp], how
      emulators find each other and clear away what the dead left.
    - [Ext4Alloc], [Ext4Region], [Ext4Extent], [Ext4Dir], [Ext4Geometry]:
      [android/ext4_utils]; block groups and their bitmaps, allocations as
      linked regions with their pointers, extents and chunks of the sparse
      file, directory blocks, and the parameters of a file system; [Sha1]: the
      digest that names an image.
    - [Ext4Fixup], [Ext4FixupRuns]: its [ext4fixup.c], which renumbers the inodes
      of an image; the state of the repair in a word of the disk, one pass over
      the tree, and runs that lose power and start again.
    - [SocketWaiter]: [android/sockets]'s waiter over [select].
    - [Looper]: [android/looper/src/android/base/async/DefaultLooper.cpp].
    - [HangDetector]: [emulator/crashreport]'s detector of loopers that hang.
    - [Ramdisk], [Fstab], [Partition]: [android/filesystems/src].
    - [VirtioInput]: the multi touch events of the virtio input device.
    - [Touch], [KeyTables], [Keys]: the input and keyboard parts of
      [emulator/android-grpc/services/emulator-controller].
    - [Battery]: [emulator/plugin/battery/src].
    - [PortForward]: [emulator/plugin/vsock_goldfish/vsock_port_fwd.cpp] and
      [emulator/devices/connection_awaiter.cpp], two threads as step relations.
    - [Events]: [android/event-support], listeners, callbacks, lock order.
    - [Hal]: the clipboard, guest status, boot property and fingerprint devices
      of [emulator/hal].
    - [Physics], [Inertia], [Motion], [Stable], [Sensors]:
      [emulator/hal/sensors]; the physical model, the motion of the device, the
      curves of the motion on real numbers, rest and the discharge of the
      interface between the two, and the sensor device.

    A record of the model has the fields of the class it models, an inductive
    type the constructors of the enumeration, and a definition the name of the
    function, unless the name is taken in Rocq or stands for several functions
    made by a macro.  Locks do not appear in sequential definitions; where
    threads matter ([PortForward], [Events]) there is a step relation at the
    accesses of the shared fields, or a step function over a history of the
    calls of other threads and programs ([HangDetector], [Jwk]).

    ** Conventions

    Bytes are numbers below 256 and a byte string is a list of them.  An unsigned
    integer of width [w] is a [Z] reduced by [wrap w] where the code can leave
    the range, a signed one by [swrap w].  [None] is a failed assertion or
    undefined behaviour (an access outside an object, a dead object, a signed
    overflow), so a theorem that gives [Some] says that it does not happen;
    errors the code reports are values.  The ext4 files have an [outcome] type
    that tells the error that leaves with [longjmp] from undefined behaviour.  What is not under [src/] is an
    argument or a type class with laws: QEMU's queues and key numbers, the line
    an interrupt controller restores with a snapshot ([irq_restore] of
    [Battery]), zlib ([Ramdisk.GzLaws]), the file system of the host
    ([Partition.Backend]), what a buffered file holds back ([hold] of
    [Bootconfig]), the answers of [select] ([SocketWaiter.select_ok]), floating
    point arithmetic and glm ([Inertia.Arith], [Inertia.Glm], [Motion.GlmLaws]),
    and each has an instance in a witness.  Failing calls and short writes are
    given by lists of answers ([oracle] and [taken] of [IniFile.FileSystem]) or
    by the room that is left ([room] of [Bootconfig.out]).

    Fuel: loops whose recursion is not structural take a number of steps, and a
    lemma shows that the number the definition passes is enough:
    [Qemud.packets] and [Qemud.Parser_onReceive] use the length of the input,
    the varint reader of [Archive] ten bytes, the word splitter of [Fstab] the
    length of the text.  The depth [Ext4Fixup] descends to is bounded by the
    height of the tree, which its theorems ask for as a bound on the tree.

    ** What the theorems show

    - Invariants by induction over steps: every reachable vsock device keeps its
      streams and ports consistent and loses no port
      ([VsockSpec.vsock_reachable_ok]), the touch registry its slots, the
      battery its interrupt line, also over snapshots, the sensor device its
      mask and its cache, the forwarder its order and its locks, the physical
      model the meaning of its measurement ids, but for gravity and the ambient
      motion.  A hang is only reported of a looper that was silent for twice its
      timeout, unless it answers in the middle of a check
      ([HangDetector.hang_reported_unanswered]), and is reported when the checks
      come fast enough ([HangDetector.hang_is_reported]).
    - Functional behaviour on every branch: the handshake, data, closing and
      credit of the vsock device, down to when a pass of sending may end; requests
      to the connector; timers of the looper; what a waiter asks [select] and
      makes of its answer ([SocketWaiter.waiter_reports]); commands of the sensors; histories of the guest status device.
    - Refinement and equivalence: the qemud parser against the specification by
      packets for every cutting of the stream; the clipboard independent of
      deliveries, and the connector too for devices that take a stream, though
      it drops a new device's first answer ([Connector.first_answer_is_dropped]); the fstab parser against a table of
      words; the battery's interface against a record of what was set; a
      sensor report against one without the cache.
    - Round trips: varints, packets, ini files in both directions, disk sizes,
      snapshots, cpio archives, UTF-8 and key codes, clipboard texts.
    - Motion: in exact arithmetic a change of position, velocity or rotation
      continues the present motion and ends at its target
      ([Motion.position_reaches], [Motion.velocity_reaches],
      [Stable.rotation_reaches]), and every motion comes to rest
      ([Stable.motion_settles]).
    - Security: a server lets a call through exactly when its policy does
      ([GrpcServer.grpc_server_serves], [GrpcServer.grpc_server_protected],
      [AllowList.allow_list_policy]), the keys it trusts are those in the files
      of its directory once the changes are handled, from the start of the watcher
      on ([Jwk.keys_of_directory]), a lock file admits one process, whatever
      fails but a look at a lock that is held
      ([FilelockShared.filelock_exclusive], [FilelockShared.filelock_blind]), and
      collecting leaves what belongs to running emulators
      ([Advertisement.garbageCollect_keeps_alive]).
    - Termination and bounds: an attempt to lock ends
      ([Filelock.filelock_lock_ends]) and its names fit their allocation
      ([Filelock.filelock_paths]); the parameters of an ext4 file system fit
      their integers ([Ext4Geometry.make_geometry_good]).
    - Images: blocks and inodes are given out once, best fit first, and a file
      put into an ext4 image is read back through its extents
      ([Ext4Extent.file_extents_read_back], [Ext4Dir.directory_read_back]).
      A repair that loses power after any of its writes, any number of times,
      ends with the entries one uninterrupted repair writes, if no directory
      has an unused entry ([Ext4FixupRuns.fixup_survives]).  The boot image is
      the ramdisk with the properties the kernel reads, all of it when the disk
      has room ([Bootconfig.createRamdiskWithBootconfig_boots]).
    - Devices: a device whose files are there is listed and opened by its valid
      name, with its hardware completed ([AvdConfig.listed_avd_opens]), and with the first readable of the images it is
      looked for ([AvdConfig.image_first_readable]).
    - Files: a directory is made with its parents and deleted with its contents
      and nothing else ([PathFiles.path_mkdir_if_needed_made],
      [PathFiles.path_delete_dir_ok]), the loop that adds up its size ends with the
      sum ([HostSystem.recursiveSize_ok]); the digest of pieces is that of the whole
      ([Sha1.sha1_of_pieces]).
    - Safety and errors: no assertion of the vsock device fails, no image file
      is overwritten that must not be, replacing an ini file leaves the old text or
      what the disk took of the new one ([IniFile.writeCommon_safe]), forwarding
      loses, repeats and reorders nothing and goes on while nobody closes
      ([PortForward.portfwd_interleaved]); and where the code does not keep what
      it promises, a theorem shows what it does ([Hal.clipboard_overruns],
      [Events.events_can_deadlock], [PortForward.portfwd_deadlock],
      [IniFile.short_write_is_success], [Bootconfig.fclose_error_ignored],
      [Stable.ambient_motion_changes], [Looper.looper_delete_armed_timer]).

    ** Not modelled

    The gRPC services themselves and their interceptors, the upload of crashes, the
    display and the text of the command line help call libraries (gRPC,
    protobuf, absl, crashpad, QEMU) and have little logic of their own;
    clocks and sleeping in [System.cpp], [CpuAccelerator.cpp] and the socket
    wrappers call the operating system.  [third_party] holds copies of other projects.  Of
    [android/ext4_utils] the indirect blocks, extended attributes, the
    superblock and the writing of whole trees are not modelled. *)

From Stdlib Require Export ZArith Lia List Bool Sorted.
From stdpp Require Export base gmap sets list strings.

#[global] Open Scope Z_scope.

(** ** Machine integers

    A C++ unsigned integer of width [w] is a [Z] in [0, 2^w); arithmetic that
    may leave the range is followed by [wrap w].  Signed values are [Z] in
    [-2^(w-1), 2^(w-1)) and conversions to them go through [swrap]. *)

Definition wrap (w : Z) (z : Z) : Z := z mod 2 ^ w.

Definition swrap (w : Z) (z : Z) : Z :=
  (z + 2 ^ (w - 1)) mod 2 ^ w - 2 ^ (w - 1).

Abbreviation u8 := (wrap 8).
Abbreviation u16 := (wrap 16).
Abbreviation u32 := (wrap 32).
Abbreviation u64 := (wrap 64).
Abbreviation s32 := (swrap 32).
Abbreviation s64 := (swrap 64).

Definition in_u (w z : Z) : Prop := 0 <= z < 2 ^ w.
Definition in_s (w z : Z) : Prop := - 2 ^ (w - 1) <= z < 2 ^ (w - 1).

(** ** Bytes *)

Abbreviation bytes := (list Z).

Definition is_byte (b : Z) : Prop := 0 <= b < 256.

Abbreviation is_bytes := (Forall is_byte).

(** The bytes of a string literal of the source. *)
Definition str (s : string) : bytes :=
  (fun c => Z.of_N (Ascii.N_of_ascii c)) <$> String.list_ascii_of_string s.

(** C++ [size_t] of a container. *)
Definition zlen {A} (l : list A) : Z := Z.of_nat (length l).

(** Little-endian integers: the low [n] bytes of [v], and the value of bytes. *)
Fixpoint le_bytes (n : nat) (v : Z) : bytes :=
  match n with O => [] | S n => v mod 256 :: le_bytes n (v / 256) end.

Fixpoint le_value (bs : bytes) : Z :=
  match bs with [] => 0 | b :: bs => b + 256 * le_value bs end.

(** [memcpy] into an object at an offset; [None] when it does not fit. *)
Definition write_at (pos : Z) (data l : bytes) : option bytes :=
  if pos + zlen data <=? zlen l then
    Some (take (Z.to_nat pos) l ++ data ++ drop (Z.to_nat (pos + zlen data)) l)
  else None.

(** ** Prefix operations on byte strings *)

Fixpoint strip_prefix (p s : bytes) : option bytes :=
  match p, s with
  | [], _ => Some s
  | a :: p', b :: s' => if a =? b then strip_prefix p' s' else None
  | _ :: _, [] => None
  end.

Definition starts_with (p s : bytes) : bool :=
  match strip_prefix p s with Some _ => true | None => false end.

(** The longest prefix whose elements satisfy [f], and what follows it. *)
Fixpoint span {A} (f : A -> bool) (l : list A) : list A * list A :=
  match l with
  | [] => ([], [])
  | x :: l' => if f x then let '(a, b) := span f l' in (x :: a, b) else ([], l)
  end.

(** Everything before the first element equal to [c], and everything after
    it; [None] when [c] does not occur (as [std::find] returning [end]). *)
Fixpoint split_at (c : Z) (l : bytes) : option (bytes * bytes) :=
  match l with
  | [] => None
  | x :: l' =>
      if x =? c then Some ([], l')
      else match split_at c l' with
           | Some (a, b) => Some (x :: a, b)
           | None => None
           end
  end.

(** Equality of byte strings as the boolean test of the source. *)
Fixpoint bytes_eqb (a b : bytes) : bool :=
  match a, b with
  | [], [] => true
  | x :: a', y :: b' => (x =? y) && bytes_eqb a' b'
  | _, _ => false
  end.

(** ** Tactics *)

Ltac destruct_prod :=
  repeat match goal with p : (_ * _)%type |- _ => destruct p end.

(** Case analysis on the boolean integer comparisons of the goal. *)
Ltac case_cmp :=
  repeat match goal with
    | |- context [?a =? ?b] => destruct (Z.eqb_spec a b)
    | |- context [?a <? ?b] => destruct (Z.ltb_spec a b)
    | |- context [?a <=? ?b] => destruct (Z.leb_spec a b)
    end.

Ltac case_cmp_in H :=
  repeat match type of H with
    | context [?a =? ?b] => destruct (Z.eqb_spec a b)
    | context [?a <? ?b] => destruct (Z.ltb_spec a b)
    | context [?a <=? ?b] => destruct (Z.leb_spec a b)
    end.

(** Conjunctions of bounds on closed integers. *)
Ltac by_compute := repeat split; vm_compute; first [reflexivity | discriminate].

(** ** Hint databases *)

Create HintDb gf.
Create Rewrite HintDb gf_simpl.

(** ** Lemmas on machine integers *)

Lemma wrap_range w z : 0 <= w -> in_u w (wrap w z).
Proof. intros. unfold in_u, wrap. apply Z.mod_pos_bound. lia. Qed.

Lemma wrap_small w z : in_u w z -> wrap w z = z.
Proof. unfold in_u, wrap. intros. apply Z.mod_small. lia. Qed.

Lemma wrap_wrap w z : wrap w (wrap w z) = wrap w z.
Proof. unfold wrap. apply Zmod_mod. Qed.

Lemma wrap_add_l w a b : wrap w (wrap w a + b) = wrap w (a + b).
Proof. unfold wrap. rewrite Zplus_mod_idemp_l. done. Qed.

Lemma wrap_sub_r w a b : wrap w (a - wrap w b) = wrap w (a - b).
Proof. unfold wrap. rewrite Zminus_mod_idemp_r. done. Qed.

Lemma wrap_sub_l w a b : wrap w (wrap w a - b) = wrap w (a - b).
Proof. unfold wrap. rewrite Zminus_mod_idemp_l. done. Qed.

Lemma swrap_small w z : 1 <= w -> in_s w z -> swrap w z = z.
Proof.
  unfold in_s, swrap. intros Hw H.
  assert (2 ^ w = 2 * 2 ^ (w - 1)) as E
    by (rewrite <- Z.pow_succ_r by lia; f_equal; lia).
  rewrite Z.mod_small; lia.
Qed.

Lemma swrap_range w z : 1 <= w -> in_s w (swrap w z).
Proof.
  unfold in_s, swrap. intros Hw.
  assert (2 ^ w = 2 * 2 ^ (w - 1)) as E
    by (rewrite <- Z.pow_succ_r by lia; f_equal; lia).
  pose proof (Z.mod_pos_bound (z + 2 ^ (w - 1)) (2 ^ w)). lia.
Qed.

(** Bits at or above the width of a value are clear. *)
Lemma in_u_testbit w z i : in_u w z -> w <= i -> Z.testbit z i = false.
Proof.
  intros [H1 H2] Hi. destruct (decide (z = 0)) as [->|]; [apply Z.bits_0|].
  apply Z.bits_above_log2; [lia|].
  assert (Z.log2 z < w); [|lia]. apply Z.log2_lt_pow2; lia.
Qed.

Lemma in_u_of_bits w z :
  0 <= w -> 0 <= z -> (forall i, w <= i -> Z.testbit z i = false) -> in_u w z.
Proof.
  intros Hw Hz Hb. destruct (decide (z = 0)) as [->|]; [unfold in_u; lia|].
  split; [done|]. apply Z.log2_lt_pow2; [lia|].
  destruct (Z.lt_ge_cases (Z.log2 z) w) as [|Hge]; [done|exfalso].
  specialize (Hb _ Hge). rewrite Z.bit_log2 in Hb by lia. done.
Qed.

Lemma lor_in_u w a b : 0 <= w -> in_u w a -> in_u w b -> in_u w (Z.lor a b).
Proof.
  intros Hw Ha Hb. apply in_u_of_bits; [done|apply Z.lor_nonneg; unfold in_u in *; lia|].
  intros i Hi. by rewrite Z.lor_spec, (in_u_testbit w a), (in_u_testbit w b).
Qed.

Lemma ldiff_in_u w a b : 0 <= w -> in_u w a -> in_u w (Z.ldiff a b).
Proof.
  intros Hw Ha. apply in_u_of_bits; [done|apply Z.ldiff_nonneg; unfold in_u in *; lia|].
  intros i Hi. by rewrite Z.ldiff_spec, (in_u_testbit w a).
Qed.

(** Joining a high part to low bits that do not overlap is an addition. *)
Lemma land_shiftl_disjoint lo hi k :
  0 <= k -> 0 <= lo < 2 ^ k -> Z.land lo (Z.shiftl hi k) = 0.
Proof.
  intros Hk Hlo. apply Z.bits_inj'. intros i Hi.
  rewrite Z.land_spec, Z.bits_0, Z.shiftl_spec by done.
  destruct (Z.lt_ge_cases i k).
  - rewrite (Z.testbit_neg_r hi) by lia. apply andb_false_r.
  - rewrite (in_u_testbit k lo) by (unfold in_u; lia). done.
Qed.

Lemma lor_shiftl_add lo hi k :
  0 <= k -> 0 <= lo < 2 ^ k -> Z.lor lo (Z.shiftl hi k) = lo + hi * 2 ^ k.
Proof.
  intros Hk Hlo. rewrite <- Z.shiftl_mul_pow2, <- Z.add_lor_land by done.
  rewrite land_shiftl_disjoint; lia.
Qed.

Lemma land_ones_mod a k : 0 <= k -> Z.land a (2 ^ k - 1) = a mod 2 ^ k.
Proof. intros. rewrite <- Z.land_ones by done. f_equal. rewrite Z.ones_equiv. lia. Qed.

(** The test [mask & (1 << o)]. *)
Lemma land_bit mask o : 0 <= o -> negb (Z.land mask (Z.shiftl 1 o) =? 0) = Z.testbit mask o.
Proof.
  intros Ho. destruct (Z.testbit mask o) eqn:E.
  - apply negb_true_iff, Z.eqb_neq. intros F. apply (f_equal (fun z => Z.testbit z o)) in F.
    rewrite Z.land_spec, E, Z.bits_0, Z.shiftl_spec, Z.sub_diag in F by done. done.
  - apply negb_false_iff, Z.eqb_eq, Z.bits_inj'. intros i Hi.
    rewrite Z.land_spec, Z.bits_0, Z.shiftl_1_l.
    rewrite Z.pow2_bits_eqb by done. destruct (Z.eqb_spec o i); [subst; by rewrite E|].
    apply andb_false_r.
Qed.

(** ** Lemmas on byte strings *)

Lemma zlen_nonneg {A} (l : list A) : 0 <= zlen l.
Proof. unfold zlen. lia. Qed.

Lemma zlen_app {A} (l k : list A) : zlen (l ++ k) = zlen l + zlen k.
Proof. unfold zlen. rewrite length_app. lia. Qed.

Lemma zlen_cons {A} x (l : list A) : zlen (x :: l) = 1 + zlen l.
Proof. unfold zlen. simpl. lia. Qed.

Lemma zlen_nil {A} : zlen (@nil A) = 0.
Proof. done. Qed.

Lemma filter_true_in {A} (P : A -> Prop) `{!forall x, Decision (P x)} (l : list A) :
  (forall x, x ∈ l -> P x) -> filter P l = l.
Proof.
  induction l as [|x l IH]; intros HP; [done|].
  rewrite filter_cons_True by (apply HP; set_solver). f_equal. apply IH. intros y Hy.
  apply HP. set_solver.
Qed.

Lemma filter_true {A} (P : A -> Prop) `{!forall x, Decision (P x)} (l : list A) :
  (forall x, P x) -> filter P l = l.
Proof. intros HP. by apply filter_true_in. Qed.

Lemma strip_prefix_app p s : strip_prefix p (p ++ s) = Some s.
Proof. induction p as [|a p IH]; simpl; [done|]. by rewrite Z.eqb_refl. Qed.

Lemma strip_prefix_Some p s t : strip_prefix p s = Some t <-> s = p ++ t.
Proof.
  split; [|intros ->; apply strip_prefix_app].
  revert s. induction p as [|a p IH]; intros [|b s] H; simpl in *; try done; try congruence.
  destruct (Z.eqb_spec a b); [|done]. subst. f_equal. by apply IH.
Qed.

Lemma span_app {A} (f : A -> bool) l : fst (span f l) ++ snd (span f l) = l.
Proof.
  induction l as [|x l IH]; simpl; [done|]. destruct (f x); [|done].
  destruct (span f l). simpl in *. by rewrite IH.
Qed.

Lemma span_all {A} (f : A -> bool) l k :
  Forall (fun x => f x = true) l ->
  match k with [] => True | x :: _ => f x = false end ->
  span f (l ++ k) = (l, k).
Proof.
  intros Hl Hk. induction Hl as [|x l Hx Hl IH]; simpl.
  - destruct k as [|y k]; simpl; [done|]. by rewrite Hk.
  - by rewrite Hx, IH.
Qed.

Lemma span_fst_Forall {A} (f : A -> bool) l : Forall (fun x => f x = true) (fst (span f l)).
Proof.
  induction l as [|x l IH]; simpl; [constructor|]. destruct (f x) eqn:E; [|constructor].
  destruct (span f l). simpl in *. by constructor.
Qed.

Lemma span_snd_length {A} (f : A -> bool) l : (length (span f l).2 <= length l)%nat.
Proof. rewrite <- (span_app f l) at 2. rewrite length_app. lia. Qed.

Lemma span_snd_head {A} (f : A -> bool) l :
  match (span f l).2 with [] => True | x :: _ => f x = false end.
Proof.
  induction l as [|x l IH]; cbn; [done|]. destruct (f x) eqn:E; [|done].
  by destruct (span f l).
Qed.

Lemma split_at_Some c l a b :
  split_at c l = Some (a, b) <-> l = a ++ c :: b /\ Forall (fun x => x <> c) a.
Proof.
  split.
  - revert a. induction l as [|x l IH]; intros a H; simpl in *; [done|].
    destruct (Z.eqb_spec x c).
    + inv H; split; [done|constructor].
    + destruct (split_at c l) as [[a' b']|]; inv H.
      destruct (IH a' eq_refl) as [-> ?]. split; [done|by constructor].
  - intros [-> H]. induction H as [|x a Hx Ha IH]; simpl.
    + by rewrite Z.eqb_refl.
    + rewrite (proj2 (Z.eqb_neq x c) Hx). by rewrite IH.
Qed.

Lemma split_at_app c l r : Forall (fun x => x <> c) l -> split_at c (l ++ c :: r) = Some (l, r).
Proof. intros Hl. by apply split_at_Some. Qed.

Lemma split_at_None c l : split_at c l = None <-> Forall (fun x => x <> c) l.
Proof.
  split.
  - induction l as [|x l IH]; simpl; intros H; [constructor|].
    destruct (Z.eqb_spec x c); [done|]. destruct (split_at c l) as [[]|]; [done|].
    constructor; auto.
  - intros H. induction H as [|x a Hx Ha IH]; simpl; [done|].
    rewrite (proj2 (Z.eqb_neq x c) Hx). by rewrite IH.
Qed.

Lemma bytes_eqb_eq a b : bytes_eqb a b = true <-> a = b.
Proof.
  revert b. induction a as [|x a IH]; intros [|y b]; simpl; try done.
  rewrite andb_true_iff, Z.eqb_eq, IH. naive_solver.
Qed.

Lemma bytes_eqb_refl a : bytes_eqb a a = true.
Proof. by apply bytes_eqb_eq. Qed.

Lemma bytes_eqb_spec a b : reflect (a = b) (bytes_eqb a b).
Proof. apply iff_reflect. symmetry. apply bytes_eqb_eq. Qed.

#[export] Hint Resolve wrap_range wrap_small zlen_nonneg bytes_eqb_refl : gf.
#[export] Hint Rewrite @zlen_app @zlen_cons @zlen_nil : gf_simpl.

(** ** Lemmas on little-endian integers and on writing *)

Lemma le_bytes_length n v : length (le_bytes n v) = n.
Proof. revert v. induction n as [|n IH]; intros v; cbn; [done|]. by rewrite IH. Qed.

Lemma le_value_bytes n v : 0 <= v < 2 ^ (8 * Z.of_nat n) -> le_value (le_bytes n v) = v.
Proof.
  revert v. induction n as [|n IH]; intros v Hv; cbn [le_bytes le_value].
  - cbn in Hv. lia.
  - replace (8 * Z.of_nat (S n)) with (8 * Z.of_nat n + 8) in Hv by lia.
    rewrite Z.pow_add_r in Hv by lia. change (2 ^ 8) with 256 in Hv.
    rewrite IH; [pose proof (Z.div_mod v 256); lia|].
    split; [apply Z.div_pos; lia|apply Z.div_lt_upper_bound; lia].
Qed.

Lemma le_bytes_bytes n v : is_bytes (le_bytes n v).
Proof.
  revert v. induction n as [|n IH]; intros v; cbn; constructor; [|done].
  apply Z.mod_pos_bound. lia.
Qed.

Lemma zlen_take {A} n (l : list A) : 0 <= n <= zlen l -> zlen (take (Z.to_nat n) l) = n.
Proof. unfold zlen. intros. rewrite length_take. lia. Qed.

Lemma zlen_replicate {A} n (x : A) : zlen (replicate n x) = Z.of_nat n.
Proof. unfold zlen. by rewrite length_replicate. Qed.

Lemma write_at_length pos data l l' :
  0 <= pos -> write_at pos data l = Some l' -> zlen l' = zlen l.
Proof.
  unfold write_at. intros Hp. destruct (Z.leb_spec (pos + zlen data) (zlen l)) as [H|]; [|done].
  intros [= <-]. unfold zlen in *. rewrite !length_app, length_take, length_drop. lia.
Qed.

Lemma write_at_app a b data :
  zlen data <= zlen b ->
  write_at (zlen a) data (a ++ b) = Some (a ++ data ++ drop (Z.to_nat (zlen data)) b).
Proof.
  intros Hd. unfold write_at. rewrite zlen_app.
  destruct (Z.leb_spec (zlen a + zlen data) (zlen a + zlen b)); [|lia].
  unfold zlen in *. rewrite Nat2Z.id, take_app_length. do 3 f_equal.
  rewrite Z2Nat.inj_add, !Nat2Z.id by lia. apply drop_app_add.
Qed.

(** Writing behind what is written already. *)
Lemma write_at_append done_ data l :
  zlen (done_ ++ data) <= zlen l -> take (length done_) l = done_ ->
  exists l', write_at (zlen done_) data l = Some l' /\ take (length (done_ ++ data)) l' = done_ ++ data /\
    zlen l' = zlen l.
Proof.
  intros Hl Ht. pose proof (zlen_nonneg done_). unfold write_at. rewrite zlen_app in Hl.
  rewrite (proj2 (Z.leb_le _ _)) by lia. eexists. split; [reflexivity|].
  assert (Z.to_nat (zlen done_) = length done_) as E by (unfold zlen; lia).
  split; [by rewrite E, Ht, app_assoc, take_app_length|].
  rewrite !zlen_app. unfold zlen in *. rewrite length_take, length_drop. lia.
Qed.
