(* ===== verification/Archive.v ===== *)
(** * Snapshot archive: the varint/zigzag stream format

    Models [emulator/libs/archive]: the [IReader]/[IWriter] interfaces and
    the functions over them ([Reader.h], [Writer.h]), the zigzag code
    ([zigzag.h]) and [DequeArchive] ([DequeArchive.cpp]).  The interfaces are
    type classes with laws; every function over them is proved against the
    laws, and the deque archive is one instance. *)

From S2P Require Import Prelude.

(** ** The zigzag code ([zigzag.h]); values are 64 bits wide *)

(** [(x >> 63) ^ (x << 1)] on a signed [x], converted to unsigned. *)
Definition zigzag_encode (x : Z) : Z :=
  u64 (Z.lxor (Z.shiftr x 63) (s64 (Z.shiftl x 1))).

(** [(x >> 1) ^ -signed_t(x & 1)] on an unsigned [x], converted to signed. *)
Definition zigzag_decode (x : Z) : Z :=
  s64 (Z.lxor (Z.shiftr x 1) (u64 (- Z.land x 1))).

(** ** The interfaces

    [read r n] is [IReader::read(dst, n)]: the bytes it stored (their number
    is its result) and the reader after the call. *)

Class IReader (R : Type) := {
  read : R -> Z -> bytes * R;
  remaining : R -> bytes;
}.

Class IReaderLaws (R : Type) `{IReader R} := {
  read_bytes : forall r n, 0 <= n -> fst (read r n) = take (Z.to_nat n) (remaining r);
  read_remaining : forall r n, 0 <= n ->
    remaining (snd (read r n)) = drop (Z.to_nat n) (remaining r);
}.

Class IWriter (W : Type) := {
  write : W -> bytes -> W;
  emitted : W -> bytes;
}.

Class IWriterLaws (W : Type) `{IWriter W} := {
  write_emitted : forall w bs, emitted (write w bs) = emitted w ++ bs;
}.

(** ** Writing ([Writer.h]) *)

(** The loop of [operator<<(IWriter&, unsigned_t)]: the buffer it fills.  The
    buffer has ten bytes, so ten iterations are all the code can make. *)
Fixpoint varint_loop (fuel : nat) (x : Z) : bytes :=
  match fuel with
  | O => []
  | S fuel =>
      let high7 := Z.shiftr x 7 in
      let low7 := Z.land x 127 in
      let b := Z.lor low7 (Z.shiftl (Z.b2z (0 <? high7)) 7) in
      if high7 =? 0 then [b] else b :: varint_loop fuel high7
  end.

Definition varint (x : Z) : bytes := varint_loop 10 x.

Definition putUnsigned {W} `{IWriter W} (w : W) (x : Z) : W := write w (varint x).

Definition putSigned {W} `{IWriter W} (w : W) (x : Z) : W :=
  putUnsigned w (zigzag_encode x).

Definition putString {W} `{IWriter W} (w : W) (s : bytes) : W :=
  write (putUnsigned w (zlen s)) s.

(** A [uint8_t] buffer written with its size first, as the savers do. *)
Definition putBuffer {W} `{IWriter W} (w : W) (s : bytes) : W :=
  write (putUnsigned w (zlen s)) s.

(** ** Reading ([Reader.h]) *)

(** The loop of [getUnsigned]; [shift] goes 0, 7, ..., 63, so ten iterations
    reach the exit test. *)
Fixpoint getUnsigned_loop {R} `{IReader R} (fuel : nat) (shift result : Z) (r : R) : Z * R :=
  match fuel with
  | O => (result, r)
  | S fuel =>
      if shift <? 64 then
        match read r 1 with
        | ([b], r) =>
            let result := Z.lor result (u64 (Z.shiftl (Z.land b 127) shift)) in
            if Z.shiftr b 7 =? 0 then (result, r)
            else getUnsigned_loop fuel (shift + 7) result r
        | (_, r) => (result, r)
        end
      else (result, r)
  end.

Definition getUnsigned {R} `{IReader R} (r : R) : Z * R := getUnsigned_loop 10 0 0 r.

Definition getSigned {R} `{IReader R} (r : R) : Z * R :=
  let '(x, r) := getUnsigned r in (zigzag_decode x, r).

(** [getString] returns the empty string when the read comes up short. *)
Definition getString {R} `{IReader R} (r : R) : bytes * R :=
  let '(size, r) := getUnsigned r in
  let '(result, r) := read r size in
  if zlen result =? size then (result, r) else ([], r).

(** ** The deque archive ([DequeArchive.cpp]) *)

Record DequeArchive := { storage : bytes }.

Definition DequeArchive_read (a : DequeArchive) (requestedSize : Z) : bytes * DequeArchive :=
  let size := Z.min requestedSize (zlen (storage a)) in
  (take (Z.to_nat size) (storage a), {| storage := drop (Z.to_nat size) (storage a) |}).

Definition DequeArchive_write (a : DequeArchive) (src : bytes) : DequeArchive :=
  {| storage := storage a ++ src |}.

#[export] Instance DequeArchive_IReader : IReader DequeArchive :=
  { read := DequeArchive_read; remaining := storage }.

#[export] Instance DequeArchive_IWriter : IWriter DequeArchive :=
  { write := DequeArchive_write; emitted := storage }.

(** ** The instances satisfy the laws *)

#[export] Instance DequeArchive_IReaderLaws : IReaderLaws DequeArchive.
Proof.
  split; intros [s] n Hn; cbn -[Z.to_nat zlen].
  all: destruct (Z.min_spec n (zlen s)) as [[? ->]|[? ->]]; [done|].
  all: unfold zlen in *; rewrite Nat2Z.id.
  - rewrite !take_ge; lia || done.
  - rewrite !drop_ge; lia || done.
Qed.

#[export] Instance DequeArchive_IWriterLaws : IWriterLaws DequeArchive.
Proof. split. done. Qed.

(** ** Lemmas *)

Lemma varint_loop_bytes fuel x : 0 <= x -> is_bytes (varint_loop fuel x).
Proof.
  revert x. induction fuel as [|fuel IH]; intros x Hx; simpl; [constructor|].
  assert (is_byte (Z.lor (Z.land x 127) (Z.shiftl (Z.b2z (0 <? Z.shiftr x 7)) 7))).
  { change 127 with (2 ^ 7 - 1). rewrite land_ones_mod by done.
    pose proof (Z.mod_pos_bound x (2 ^ 7)).
    rewrite lor_shiftl_add by lia. unfold is_byte. destruct (0 <? _); simpl; lia. }
  destruct (_ =? 0); constructor; auto. apply IH. rewrite Z.shiftr_nonneg. lia.
Qed.

Lemma varint_bytes x : 0 <= x -> is_bytes (varint x).
Proof. apply varint_loop_bytes. Qed.

Section reading.
Context {R : Type} `{IReaderLaws R}.

Lemma read_app (r : R) a b :
  remaining r = a ++ b -> exists r', read r (zlen a) = (a, r') /\ remaining r' = b.
Proof.
  intros E. exists (snd (read r (zlen a))).
  pose proof (read_bytes r (zlen a) (zlen_nonneg a)) as H1.
  pose proof (read_remaining r (zlen a) (zlen_nonneg a)) as H2.
  unfold zlen in *. rewrite Nat2Z.id, E in *.
  rewrite take_app_length in H1. rewrite drop_app_length in H2.
  destruct (read r _). simpl in *. by subst.
Qed.

Lemma read_1 (r : R) b bs :
  remaining r = b :: bs -> exists r', read r 1 = ([b], r') /\ remaining r' = bs.
Proof. intros E. apply (read_app r [b] bs). done. Qed.

(** One iteration of the reader undoes one iteration of the writer. *)
Lemma getUnsigned_loop_varint fuel x shift result (r : R) rest :
  0 <= shift -> 0 <= result < 2 ^ shift ->
  0 <= x -> x < 2 ^ (64 - shift) -> 64 <= shift + 7 * Z.of_nat fuel -> shift < 64 ->
  remaining r = varint_loop fuel x ++ rest ->
  exists r', getUnsigned_loop fuel shift result r = (result + x * 2 ^ shift, r') /\
    remaining r' = rest.
Proof.
  revert x shift result r. induction fuel as [|fuel IH];
    intros x shift result r Hs Hr Hx Hx2 Hf Hlt E; [lia|].
  cbn [varint_loop getUnsigned_loop] in *.
  rewrite (proj2 (Z.ltb_lt _ _) Hlt).
  assert (Z.land x 127 = x mod 2 ^ 7) as El by (by apply (land_ones_mod x 7)).
  assert (Z.shiftr x 7 = x / 2 ^ 7) as Eh by (by rewrite Z.shiftr_div_pow2).
  rewrite El, Eh in *.
  pose proof (Z.mod_pos_bound x (2 ^ 7)). pose proof (Z.div_mod x (2 ^ 7)).
  assert (0 <= x / 2 ^ 7) by (apply Z.div_pos; lia).
  assert (forall c : bool, Z.land (Z.lor (x mod 2 ^ 7) (Z.shiftl (Z.b2z c) 7)) 127 = x mod 2 ^ 7)
    as Elow.
  { intros c. rewrite lor_shiftl_add by lia. change 127 with (2 ^ 7 - 1).
    rewrite land_ones_mod, Z_mod_plus_full, Z.mod_mod by lia. done. }
  assert (forall c : bool, Z.shiftr (Z.lor (x mod 2 ^ 7) (Z.shiftl (Z.b2z c) 7)) 7 = Z.b2z c)
    as Ehigh.
  { intros c. rewrite lor_shiftl_add by lia.
    rewrite Z.shiftr_div_pow2, Z.div_add, Z.div_small by lia. lia. }
  assert (x mod 2 ^ 7 * 2 ^ shift < 2 ^ 64).
  { apply Z.le_lt_trans with (x * 2 ^ shift); [apply Z.mul_le_mono_nonneg_r; lia|].
    replace (2 ^ 64) with (2 ^ (64 - shift) * 2 ^ shift)
      by (rewrite <- Z.pow_add_r by lia; f_equal; lia).
    apply Z.mul_lt_mono_pos_r; [apply Z.pow_pos_nonneg|]; lia. }
  assert (0 <= x mod 2 ^ 7 * 2 ^ shift) by (apply Z.mul_nonneg_nonneg; [lia|apply Z.pow_nonneg; lia]).
  assert (Z.lor result (u64 (Z.shiftl (x mod 2 ^ 7) shift)) =
          result + x mod 2 ^ 7 * 2 ^ shift) as Ejoin.
  { rewrite wrap_small by (rewrite Z.shiftl_mul_pow2 by lia; unfold in_u; lia).
    by apply lor_shiftl_add. }
  destruct (Z.eqb_spec (x / 2 ^ 7) 0) as [E0|E0].
  - destruct (read_1 r _ _ E) as (r' & -> & Hr').
    rewrite Elow, Ehigh, Ejoin, E0. simpl. exists r'. split; [|done]. f_equal. nia.
  - destruct (read_1 r _ _ E) as (r' & -> & Hr').
    rewrite Elow, Ehigh, Ejoin, (proj2 (Z.ltb_lt _ _)) by lia. simpl.
    assert (shift + 7 < 64).
    { destruct (Z.lt_ge_cases (shift + 7) 64); [done|exfalso].
      assert (2 ^ (64 - shift) <= 2 ^ 7) by (apply Z.pow_le_mono_r; lia). nia. }
    assert (2 ^ (shift + 7) = 2 ^ shift * 2 ^ 7) as Ep by (rewrite Z.pow_add_r; lia).
    destruct (IH (x / 2 ^ 7) (shift + 7) (result + x mod 2 ^ 7 * 2 ^ shift) r') as (r'' & E' & ?);
      [lia| rewrite Ep; nia | lia | | lia | done | done |].
    { apply Z.div_lt_upper_bound; [lia|]. rewrite <- Z.pow_add_r by lia.
      by replace (7 + (64 - (shift + 7))) with (64 - shift) by lia. }
    exists r''. rewrite E'. split; [|done]. f_equal. rewrite Ep. nia.
Qed.

Lemma getUnsigned_app (r : R) x rest :
  in_u 64 x -> remaining r = varint x ++ rest ->
  exists r', getUnsigned r = (x, r') /\ remaining r' = rest.
Proof.
  unfold in_u. intros Hx E.
  destruct (getUnsigned_loop_varint 10 x 0 0 r rest) as (r' & E' & ?); try done; try lia.
  exists r'. unfold getUnsigned. rewrite E'. split; [|done]. f_equal. lia.
Qed.

Lemma getUnsigned_loop_bound fuel shift result (r : R) :
  0 <= shift -> in_u 64 result -> in_u 64 (fst (getUnsigned_loop fuel shift result r)).
Proof.
  revert shift result r. induction fuel as [|fuel IH]; intros shift result r Hs Hr; simpl; [done|].
  destruct (shift <? 64); [|done]. destruct (read r 1) as [[|b [|? ?]] r']; try done.
  assert (in_u 64 (Z.lor result (u64 (Z.shiftl (Z.land b 127) shift)))).
  { apply lor_in_u; [lia|done|]. apply wrap_range. lia. }
  destruct (_ =? 0); [done|]. apply IH; [lia|done].
Qed.

(** The fuel of the loop is enough: past 64 bits of shift the result of the
    loop does not depend on it. *)
Lemma getUnsigned_loop_fuel f1 f2 shift result (r : R) :
  64 <= shift + 7 * Z.of_nat f1 -> 64 <= shift + 7 * Z.of_nat f2 ->
  getUnsigned_loop f1 shift result r = getUnsigned_loop f2 shift result r.
Proof.
  revert f2 shift result r. induction f1 as [|f1 IH]; intros [|f2] shift result r H1 H2; simpl;
    try (rewrite (proj2 (Z.ltb_ge shift 64)) by lia; done); [done|].
  destruct (shift <? 64); [|done]. destruct (read r 1) as [[|b [|? ?]] r']; try done.
  destruct (_ =? 0); [done|]. apply IH; lia.
Qed.

Lemma getString_app (r : R) s rest :
  in_u 64 (zlen s) -> remaining r = varint (zlen s) ++ s ++ rest ->
  exists r', getString r = (s, r') /\ remaining r' = rest.
Proof.
  intros Hs E. unfold getString.
  destruct (getUnsigned_app r (zlen s) (s ++ rest) Hs E) as (r1 & -> & E1).
  destruct (read_app r1 s rest E1) as (r2 & -> & E2).
  rewrite Z.eqb_refl. eauto.
Qed.

End reading.

Lemma varint_loop_length fuel x : (length (varint_loop fuel x) <= fuel)%nat.
Proof.
  revert x. induction fuel as [|fuel IH]; intros x; simpl; [lia|].
  destruct (_ =? 0); simpl; [lia|]. specialize (IH (Z.shiftr x 7)). lia.
Qed.

Lemma lxor_ones a n : 0 <= n -> in_u n a -> Z.lxor a (2 ^ n - 1) = 2 ^ n - 1 - a.
Proof.
  intros Hn Ha. replace (2 ^ n - 1) with (Z.ones n) by (rewrite Z.ones_equiv; lia).
  assert (a + Z.lxor a (Z.ones n) = Z.ones n); [|lia].
  rewrite Z.add_nocarry_lxor.
  - by rewrite <- Z.lxor_assoc, Z.lxor_nilpotent, Z.lxor_0_l.
  - apply Z.bits_inj'. intros i Hi. rewrite Z.land_spec, Z.lxor_spec, Z.bits_0.
    destruct (Z.lt_ge_cases i n).
    + rewrite Z.ones_spec_low by lia. by destruct (Z.testbit a i).
    + by rewrite (in_u_testbit n a).
Qed.

Lemma zigzag_encode_eq x :
  in_s 64 x -> zigzag_encode x = if 0 <=? x then 2 * x else - 2 * x - 1.
Proof.
  unfold in_s, zigzag_encode. intros Hx. change (64 - 1) with 63 in Hx.
  rewrite Z.shiftr_div_pow2, Z.shiftl_mul_pow2 by lia.
  destruct (Z.leb_spec 0 x).
  - rewrite Z.div_small, Z.lxor_0_l by lia. unfold wrap, swrap. change (64 - 1) with 63.
    rewrite Zminus_mod_idemp_l. replace (x * 2 ^ 1 + 2 ^ 63 - 2 ^ 63) with (2 * x) by lia.
    apply Z.mod_small. lia.
  - replace (x / 2 ^ 63) with (-1) by (apply (Z.div_unique x (2 ^ 63) (-1) (x + 2 ^ 63)); lia).
    rewrite Z.lxor_m1_l. unfold wrap, swrap, Z.lnot. change (64 - 1) with 63.
    pose proof (Z.div_mod (x * 2 ^ 1 + 2 ^ 63) (2 ^ 64)) as D.
    set (q := (x * 2 ^ 1 + 2 ^ 63) / 2 ^ 64) in *.
    symmetry. apply Z.mod_unique with q; lia.
Qed.

Lemma zigzag_encode_range x : in_u 64 (zigzag_encode x).
Proof. apply wrap_range. lia. Qed.

Lemma zigzag_decode_encode x : in_s 64 x -> zigzag_decode (zigzag_encode x) = x.
Proof.
  intros Hx. rewrite zigzag_encode_eq by done.
  unfold zigzag_decode. rewrite Z.shiftr_div_pow2 by lia.
  change (Z.land ?a 1) with (Z.land a (2 ^ 1 - 1)). rewrite land_ones_mod by lia.
  destruct (Z.leb_spec 0 x).
  - replace (2 * x) with (x * 2 ^ 1) by lia. rewrite Z.div_mul, Z_mod_mult by lia.
    change (u64 (- 0)) with 0. rewrite Z.lxor_0_r. by apply swrap_small.
  - replace (- 2 * x - 1) with (1 + (- x - 1) * 2 ^ 1) by lia.
    rewrite Z.div_add, Z_mod_plus_full by lia. change (1 / 2 ^ 1 + (- x - 1)) with (- x - 1).
    change (u64 (- (1 mod 2 ^ 1))) with (2 ^ 64 - 1). unfold in_s in Hx.
    rewrite lxor_ones by (unfold in_u; lia). unfold swrap.
    replace (2 ^ 64 - 1 - (- x - 1) + 2 ^ (64 - 1)) with (x + 2 ^ 63 + 1 * 2 ^ 64) by lia.
    rewrite Z_mod_plus_full, Z.mod_small; lia.
Qed.

Lemma getUnsigned_loop_consumes {R} `{IReaderLaws R} fuel shift result (r : R) :
  exists k, (k <= fuel)%nat /\
    remaining (snd (getUnsigned_loop fuel shift result r)) = drop k (remaining r).
Proof.
  revert shift result r. induction fuel as [|fuel IH]; intros shift result r; simpl.
  { exists 0%nat. split; [lia|]. by rewrite drop_0. }
  destruct (shift <? 64); [|exists 0%nat; split; [lia|]; by rewrite drop_0].
  pose proof (read_remaining r 1 ltac:(lia)) as Er.
  pose proof (read_bytes r 1 ltac:(lia)) as Eb.
  destruct (read r 1) as [bs r']. simpl in *. change (Pos.to_nat 1) with 1%nat in *.
  destruct bs as [|b [|? ?]].
  - exists 1%nat. split; [lia|done].
  - destruct (_ =? 0); [exists 1%nat; split; [lia|done]|].
    destruct (IH (shift + 7) (Z.lor result (u64 (Z.shiftl (Z.land b 127) shift))) r')
      as (k & ? & ->).
    exists (S k). split; [lia|]. by rewrite Er, drop_drop.
  - exists 1%nat. split; [lia|done].
Qed.

(** ** Properties *)

(** The reader of unsigned varints undoes the writer at full 64-bit width,
    whatever bytes follow, over any reader and writer that obey the
    interface laws: it returns the number written and leaves the reader
    exactly at the byte after it. *)
Theorem getUnsigned_putUnsigned {W R} `{IWriterLaws W} `{IReaderLaws R}
    (w : W) (r : R) (x : Z) (rest : bytes) :
  in_u 64 x ->
  emitted (putUnsigned w x) ++ rest = emitted w ++ remaining r ->
  exists r', getUnsigned r = (x, r') /\ remaining r' = rest.
Proof.
  intros Hx E. unfold putUnsigned in E. rewrite write_emitted, <- app_assoc in E.
  apply app_inv_head in E. by apply getUnsigned_app.
Qed.

(** Witness: the number 300 between two other bytes of a deque archive. *)
Lemma getUnsigned_putUnsigned_witness :
  in_u 64 300 /\
  exists r', getUnsigned {| storage := [172; 2; 7] |} = (300, r') /\ remaining r' = [7].
Proof.
  split; [unfold in_u; lia|].
  apply (getUnsigned_putUnsigned {| storage := [] |} {| storage := [172; 2; 7] |} 300 [7]).
  - unfold in_u; lia.
  - vm_compute. reflexivity.
Defined.

(** Signed numbers of 64 bits survive the zigzag code and the varint code
    together, negative ones included. *)
Theorem getSigned_putSigned {W R} `{IWriterLaws W} `{IReaderLaws R}
    (w : W) (r : R) (x : Z) (rest : bytes) :
  in_s 64 x ->
  emitted (putSigned w x) ++ rest = emitted w ++ remaining r ->
  exists r', getSigned r = (x, r') /\ remaining r' = rest.
Proof.
  intros Hx E. unfold putSigned, putUnsigned in E.
  rewrite write_emitted, <- app_assoc in E. apply app_inv_head in E.
  destruct (getUnsigned_app r (zigzag_encode x) rest (zigzag_encode_range x) (eq_sym E))
    as (r' & E' & ?).
  exists r'. unfold getSigned. by rewrite E', zigzag_decode_encode.
Qed.

Lemma getSigned_putSigned_witness :
  in_s 64 (-3) /\
  exists r', getSigned {| storage := [5; 9] |} = (-3, r') /\ remaining r' = [9].
Proof.
  split; [unfold in_s; lia|].
  apply (getSigned_putSigned {| storage := [] |} {| storage := [5; 9] |} (-3) [9]).
  - unfold in_s; lia.
  - vm_compute. reflexivity.
Defined.

(** Reading a varint from any input, truncated or malformed, returns a 64-bit
    number and consumes at most ten bytes, a prefix of the input. *)
Theorem getUnsigned_total {R} `{IReaderLaws R} (r : R) :
  in_u 64 (fst (getUnsigned r)) /\
  exists k, (k <= 10)%nat /\ remaining (snd (getUnsigned r)) = drop k (remaining r).
Proof.
  split.
  - apply getUnsigned_loop_bound; unfold in_u; lia.
  - apply getUnsigned_loop_consumes.
Qed.

Lemma getUnsigned_total_witness :
  exists k, (k <= 10)%nat /\
    remaining (snd (getUnsigned {| storage := replicate 12 255 |})) = drop k (replicate 12 255).
Proof. exact (proj2 (getUnsigned_total {| storage := replicate 12 255 |})). Defined.
