(* ===== verification/Qemud.v ===== *)
(** * QEMUD framing

    Models [emulator/devices/qemud.cpp]: the four byte packet header
    ([encodeRequestSize], [decodeRequestSize]), the incremental [Parser] that
    recovers packets from a byte stream delivered in arbitrary pieces, its
    snapshot code and [sendAsync]. *)

From S2P Require Import Prelude.
From S2P Require Import Archive.

Definition kSizeSize : Z := 4.

(** ** The packet header *)

Definition parseHex1 (c : Z) : Z :=
  if (48 <=? c) && (c <=? 57) then c - 48                (* '0'..'9' *)
  else if (65 <=? c) && (c <=? 70) then c - 65 + 10      (* 'A'..'F' *)
  else if (97 <=? c) && (c <=? 102) then c - 97 + 10     (* 'a'..'f' *)
  else 0.

(** [dict[i]] of ["0123456789ABCDEF"]. *)
Definition hexDigit (i : Z) : Z := if i <? 10 then 48 + i else 65 + (i - 10).

(** The four bytes written to [data]; each store truncates to [uint8_t]. *)
Definition encodeRequestSize (size : Z) : bytes :=
  if size <=? 65535 then
    [hexDigit (Z.shiftr size 12);
     hexDigit (Z.land (Z.shiftr size 8) 15);
     hexDigit (Z.land (Z.shiftr size 4) 15);
     hexDigit (Z.land size 15)]
  else
    [u8 (Z.lor 128 (Z.shiftr size 24));
     u8 (Z.shiftr size 16);
     u8 (Z.shiftr size 8);
     u8 size].

(** Only the first four bytes of [data8] are read. *)
Definition decodeRequestSize (data8 : bytes) : Z :=
  match data8 with
  | d0 :: d1 :: d2 :: d3 :: _ =>
      if negb (Z.land d0 128 =? 0) then
        (* 31bit big-endian encoding *)
        Z.lor (Z.lor (Z.lor (Z.shiftl (Z.land d0 127) 24) (Z.shiftl d1 16))
                 (Z.shiftl d2 8)) d3
      else
        (* 16bit hex encoding *)
        Z.lor (Z.lor (Z.lor (Z.shiftl (parseHex1 d0) 12) (Z.shiftl (parseHex1 d1) 8))
                 (Z.shiftl (parseHex1 d2) 4)) (parseHex1 d3)
  | _ => 0
  end.

(** ** The parser

    The sink is a callback with its own state [S]; [mBuffer] is the only state
    of the parser. *)

Record Parser := { mBuffer : bytes }.

Section parser.
Context {S : Type} (mSink : S -> bytes -> bool * S).

(** The inner loop of [onReceive] with an empty buffer: packets that are
    complete in the input go to the sink in place.  Returns the result flag,
    the unconsumed bytes and the sink.  Every round consumes at least the
    four bytes of a header. *)
Fixpoint drainPackets (fuel : nat) (result : bool) (data8 : bytes) (s : S)
    : bool * bytes * S :=
  match fuel with
  | O => (result, data8, s)
  | Datatypes.S fuel =>
      if kSizeSize <=? zlen data8 then
        let requestSize := decodeRequestSize data8 in
        if kSizeSize + requestSize <=? zlen data8 then
          let data8 := drop (Z.to_nat kSizeSize) data8 in
          let '(ok, s) := mSink s (take (Z.to_nat requestSize) data8) in
          drainPackets fuel (if ok then result else false)
            (drop (Z.to_nat requestSize) data8) s
        else (result, data8, s)
      else (result, data8, s)
  end.

(** The outer loop of [onReceive]; [None] when the fuel runs out. *)
Fixpoint onReceive_loop (fuel : nat) (result : bool) (buf data8 : bytes) (s : S)
    : option (bool * bytes * S) :=
  match fuel with
  | O => None
  | Datatypes.S fuel =>
      if zlen data8 =? 0 then Some (result, buf, s)
      else
        let bufSize := zlen buf in
        if bufSize =? 0 then
          (* the unconsumed bytes become the buffer *)
          Some (drainPackets (length data8) result data8 s)
        else if bufSize <? kSizeSize then
          let consume := Z.min (kSizeSize - bufSize) (zlen data8) in
          onReceive_loop fuel result (buf ++ take (Z.to_nat consume) data8)
            (drop (Z.to_nat consume) data8) s
        else if bufSize =? kSizeSize then
          let requestSize := decodeRequestSize buf in
          if requestSize <=? zlen data8 then
            let '(ok, s) := mSink s (take (Z.to_nat requestSize) data8) in
            onReceive_loop fuel (if ok then result else false) []
              (drop (Z.to_nat requestSize) data8) s
          else
            let consume := Z.min requestSize (zlen data8) in
            onReceive_loop fuel result (buf ++ take (Z.to_nat consume) data8)
              (drop (Z.to_nat consume) data8) s
        else
          let requestSize := decodeRequestSize buf in
          let consume := Z.min (kSizeSize + requestSize - bufSize) (zlen data8) in
          let buf := buf ++ take (Z.to_nat consume) data8 in
          let data8 := drop (Z.to_nat consume) data8 in
          if bufSize + consume =? kSizeSize + requestSize then
            let '(ok, s) := mSink s (drop (Z.to_nat kSizeSize) buf) in
            onReceive_loop fuel (if ok then result else false) [] data8 s
          else onReceive_loop fuel result buf data8 s
  end.

(** [Parser::onReceive].  Each round either consumes input or empties a
    non-empty buffer, which the fuel covers. *)
Definition Parser_onReceive (p : Parser) (data : bytes) (s : S)
    : option (bool * Parser * S) :=
  match onReceive_loop (2 * length data + 2) true (mBuffer p) data s with
  | Some (result, buf, s) => Some (result, {| mBuffer := buf |}, s)
  | None => None
  end.

(** Successive deliveries. *)
Fixpoint Parser_onReceive_all (p : Parser) (chunks : list bytes) (s : S)
    : option (bool * Parser * S) :=
  match chunks with
  | [] => Some (true, p, s)
  | c :: chunks =>
      match Parser_onReceive p c s with
      | Some (r1, p, s) =>
          match Parser_onReceive_all p chunks s with
          | Some (r2, p, s) => Some (r1 && r2, p, s)
          | None => None
          end
      | None => None
      end
  end.

End parser.

(** ** Snapshot *)

Definition Parser_saveToSnapshot {W} `{IWriter W} (p : Parser) (w : W) : W :=
  write (putUnsigned w (zlen (mBuffer p))) (mBuffer p).

(** [return reader.read(...)] converts the byte count to [bool].  The bytes
    past a short read keep the zeroes of [resize]. *)
Definition Parser_loadFromSnapshot {R} `{IReader R} (r : R) : bool * Parser * R :=
  let '(size, r) := getUnsigned r in
  let '(bs, r) := read r size in
  (negb (zlen bs =? 0),
   {| mBuffer := bs ++ replicate (Z.to_nat (size - zlen bs)) 0 |}, r).

(** ** Sending: the pieces handed to [ISocket::sendAsync], in order; the size
    goes through a [uint32_t] parameter. *)
Definition qemud_sendAsync (data : bytes) : list bytes :=
  [encodeRequestSize (u32 (zlen data)); data].

(** ** Specification: the packets of a stream

    [packets bs] cuts [bs] into complete packets and a rest; it looks at the
    whole stream at once and knows nothing of deliveries. *)

Fixpoint packets_loop (fuel : nat) (bs : bytes) : list bytes * bytes :=
  match fuel with
  | O => ([], bs)
  | Datatypes.S fuel =>
      if kSizeSize + decodeRequestSize bs <=? zlen bs then
        let n := Z.to_nat (decodeRequestSize bs) in
        let '(ps, rest) := packets_loop fuel (drop n (drop 4 bs)) in
        (take n (drop 4 bs) :: ps, rest)
      else ([], bs)
  end.

Definition packets (bs : bytes) : list bytes * bytes := packets_loop (length bs) bs.

(** Feeding packets to a sink: the conjunction of its answers and its state. *)
Fixpoint feed {S} (mSink : S -> bytes -> bool * S) (ps : list bytes) (s : S) : bool * S :=
  match ps with
  | [] => (true, s)
  | p :: ps =>
      let '(ok, s) := mSink s p in
      let '(oks, s) := feed mSink ps s in
      (ok && oks, s)
  end.

(** A parser between deliveries: its buffer is the start of a packet that is
    not complete, or the bare header of an empty packet. *)
Definition Parser_ok (p : Parser) : Prop :=
  is_bytes (mBuffer p) /\
  (zlen (mBuffer p) < kSizeSize + decodeRequestSize (mBuffer p) \/
   zlen (mBuffer p) = kSizeSize /\ decodeRequestSize (mBuffer p) = 0).

(** ** Lemmas on the header *)

Lemma lor_hi_lo hi lo k : 0 <= k -> 0 <= lo < 2 ^ k -> Z.lor (Z.shiftl hi k) lo = hi * 2 ^ k + lo.
Proof. intros. rewrite Z.lor_comm, lor_shiftl_add by done. lia. Qed.

(** Four digits in base [2^k], most significant first. *)
Lemma lor_digits4 a b c d k :
  0 <= k -> 0 <= b < 2 ^ k -> 0 <= c < 2 ^ k -> 0 <= d < 2 ^ k ->
  Z.lor (Z.lor (Z.lor (Z.shiftl a (3 * k)) (Z.shiftl b (2 * k))) (Z.shiftl c k)) d =
  ((a * 2 ^ k + b) * 2 ^ k + c) * 2 ^ k + d.
Proof.
  intros Hk Hb Hc Hd.
  assert (Z.shiftl a (3 * k) = Z.shiftl (Z.shiftl a k) (2 * k)) as ->.
  { rewrite Z.shiftl_shiftl by lia. by replace (k + 2 * k) with (3 * k) by lia. }
  rewrite <- Z.shiftl_lor, (lor_hi_lo a b k) by done.
  assert (forall z, Z.shiftl z (2 * k) = Z.shiftl (Z.shiftl z k) k) as ->.
  { intros z. rewrite Z.shiftl_shiftl by lia. by replace (k + k) with (2 * k) by lia. }
  by rewrite <- Z.shiftl_lor, !lor_hi_lo.
Qed.

Lemma parseHex1_range c : 0 <= parseHex1 c < 16.
Proof. unfold parseHex1. case_cmp; simpl; lia. Qed.

Lemma parseHex1_hexDigit i : 0 <= i < 16 -> parseHex1 (hexDigit i) = i.
Proof. unfold parseHex1, hexDigit. intros H. case_cmp; simpl; lia. Qed.

Lemma hexDigit_range i : 0 <= i < 16 -> 48 <= hexDigit i <= 70.
Proof. unfold hexDigit. case_cmp; lia. Qed.

Lemma decodeRequestSize_nonneg bs : is_bytes bs -> 0 <= decodeRequestSize bs.
Proof.
  intros H. destruct H as [|d0 ? H0 [|d1 ? H1 [|d2 ? H2 [|d3 ? H3 _]]]]; simpl; try lia.
  unfold is_byte in *. pose proof (parseHex1_range d0). pose proof (parseHex1_range d1).
  pose proof (parseHex1_range d2). pose proof (parseHex1_range d3).
  destruct (Z.land d0 128 =? 0); simpl;
    repeat (apply Z.lor_nonneg; split); try lia; rewrite Z.shiftl_nonneg; try lia;
    apply Z.land_nonneg; lia.
Qed.

Lemma decodeRequestSize_app a b :
  kSizeSize <= zlen a -> decodeRequestSize (a ++ b) = decodeRequestSize a.
Proof.
  unfold kSizeSize, zlen. intros H.
  destruct a as [|d0 [|d1 [|d2 [|d3 a]]]]; simpl in H; try lia. done.
Qed.

Lemma encodeRequestSize_length n : zlen (encodeRequestSize n) = kSizeSize.
Proof. unfold encodeRequestSize. by destruct (n <=? 65535). Qed.

Lemma decode_encode_small n :
  0 <= n <= 65535 -> decodeRequestSize (encodeRequestSize n) = n.
Proof.
  intros Hn. unfold encodeRequestSize. rewrite (proj2 (Z.leb_le _ _)) by lia. simpl.
  change 15 with (2 ^ 4 - 1). rewrite !land_ones_mod, !Z.shiftr_div_pow2 by lia.
  assert (0 <= n / 2 ^ 12 < 16) by (split; [apply Z.div_pos|apply Z.div_lt_upper_bound]; lia).
  pose proof (Z.mod_pos_bound (n / 2 ^ 8) (2 ^ 4)).
  pose proof (Z.mod_pos_bound (n / 2 ^ 4) (2 ^ 4)). pose proof (Z.mod_pos_bound n (2 ^ 4)).
  assert (Z.land (hexDigit (n / 2 ^ 12)) 128 = 0) as ->.
  { apply (Z.bits_inj_iff' _ 0). intros i Hi. rewrite Z.land_spec, Z.bits_0.
    change 128 with (2 ^ 7). rewrite Z.pow2_bits_eqb by lia. destruct (Z.eqb_spec 7 i); [|lia].
    subst. pose proof (hexDigit_range (n / 2 ^ 12)).
    rewrite (in_u_testbit 7); [done| |done]. unfold in_u. lia. }
  simpl. rewrite !parseHex1_hexDigit by lia.
  rewrite (lor_digits4 _ _ _ _ 4) by lia.
  change (2 ^ 12) with (2 ^ 4 * 2 ^ 4 * 2 ^ 4). change (2 ^ 8) with (2 ^ 4 * 2 ^ 4).
  rewrite <- !Z.div_div by lia.
  pose proof (Z.div_mod n (2 ^ 4)). pose proof (Z.div_mod (n / 2 ^ 4) (2 ^ 4)).
  pose proof (Z.div_mod (n / 2 ^ 4 / 2 ^ 4) (2 ^ 4)). lia.
Qed.

Lemma decode_encode_large n :
  65535 < n < 2 ^ 32 -> decodeRequestSize (encodeRequestSize n) = n mod 2 ^ 31.
Proof.
  intros Hn. unfold encodeRequestSize. rewrite (proj2 (Z.leb_gt _ _)) by lia.
  unfold decodeRequestSize. rewrite !Z.shiftr_div_pow2 by lia.
  set (q := n / 2 ^ 24).
  assert (in_u 8 q) as Hq
    by (unfold in_u, q; split; [apply Z.div_pos|apply Z.div_lt_upper_bound]; lia).
  rewrite (wrap_small 8 (Z.lor 128 q)) by (apply lor_in_u; [lia|unfold in_u; lia|done]).
  assert (Z.land (Z.lor 128 q) 127 = q mod 2 ^ 7) as ->.
  { rewrite Z.land_lor_distr_l. change 127 with (2 ^ 7 - 1).
    by rewrite (land_ones_mod q 7). }
  assert (Z.land (Z.lor 128 q) 128 <> 0) as Hbit.
  { intros E. apply (f_equal (fun z => Z.testbit z 7)) in E.
    rewrite Z.land_spec, Z.bits_0, Z.lor_spec in E. done. }
  rewrite (proj2 (Z.eqb_neq _ _) Hbit). simpl. unfold wrap.
  rewrite (lor_digits4 _ _ _ _ 8) by (try apply Z.mod_pos_bound; lia).
  pose proof (Z.div_mod n (2 ^ 8)). pose proof (Z.div_mod (n / 2 ^ 8) (2 ^ 8)).
  pose proof (Z.div_mod (n / 2 ^ 8 / 2 ^ 8) (2 ^ 8)). pose proof (Z.div_mod q (2 ^ 7)).
  pose proof (Z.mod_pos_bound n (2 ^ 8)). pose proof (Z.mod_pos_bound (n / 2 ^ 8) (2 ^ 8)).
  pose proof (Z.mod_pos_bound (n / 2 ^ 8 / 2 ^ 8) (2 ^ 8)). pose proof (Z.mod_pos_bound q (2 ^ 7)).
  assert (q = n / 2 ^ 8 / 2 ^ 8 / 2 ^ 8) as Eq by (rewrite !Z.div_div by lia; done).
  change (2 ^ 16) with (2 ^ 8 * 2 ^ 8). rewrite <- Z.div_div by lia.
  apply Z.mod_unique with (q / 2 ^ 7); lia.
Qed.

Lemma decode_encode n rest :
  0 <= n < 2 ^ 31 -> decodeRequestSize (encodeRequestSize n ++ rest) = n.
Proof.
  intros Hn. rewrite decodeRequestSize_app by (rewrite encodeRequestSize_length; done).
  destruct (Z.le_gt_cases n 65535); [apply decode_encode_small; lia|].
  rewrite decode_encode_large, Z.mod_small; lia.
Qed.

Lemma hexDigit_byte i : 0 <= i < 16 -> is_byte (hexDigit i).
Proof. intros Hi. pose proof (hexDigit_range i Hi). unfold is_byte. lia. Qed.

Lemma encodeRequestSize_bytes n : 0 <= n -> is_bytes (encodeRequestSize n).
Proof.
  intros Hn. unfold encodeRequestSize. destruct (Z.leb_spec n 65535).
  - change 15 with (2 ^ 4 - 1). rewrite !land_ones_mod, !Z.shiftr_div_pow2 by lia.
    assert (0 <= n / 2 ^ 12 < 16) by (split; [apply Z.div_pos|apply Z.div_lt_upper_bound]; lia).
    repeat constructor; apply hexDigit_byte; try done; apply Z.mod_pos_bound; lia.
  - repeat constructor; apply (wrap_range 8); lia.
Qed.

(** ** Lemmas on the specification *)

Lemma packets_loop_fuel f1 f2 bs :
  is_bytes bs -> (length bs <= f1)%nat -> (length bs <= f2)%nat ->
  packets_loop f1 bs = packets_loop f2 bs.
Proof.
  revert f2 bs. induction f1 as [|f1 IH]; intros [|f2] bs Hb H1 H2; simpl; try done.
  1, 2: destruct bs; [done|simpl in *; lia].
  destruct (Z.leb_spec (kSizeSize + decodeRequestSize bs) (zlen bs)) as [Hle|]; [|done].
  pose proof (decodeRequestSize_nonneg bs Hb). unfold kSizeSize, zlen in *.
  rewrite (IH f2); [done|by repeat apply Forall_drop|..]; rewrite !length_drop; lia.
Qed.

(** A complete packet at the head of the stream. *)
Lemma packets_cons hdr payload rest :
  is_bytes (hdr ++ payload ++ rest) ->
  zlen hdr = kSizeSize -> decodeRequestSize hdr = zlen payload ->
  packets (hdr ++ payload ++ rest) =
    (payload :: fst (packets rest), snd (packets rest)).
Proof.
  intros Hb Hh Hd. unfold packets at 1.
  assert (length hdr = 4%nat) as Lh by (unfold zlen, kSizeSize in Hh; lia).
  destruct (length (hdr ++ payload ++ rest)) as [|f] eqn:Ef.
  { rewrite length_app in Ef. lia. }
  cbn [packets_loop].
  rewrite decodeRequestSize_app, Hd by (rewrite Hh; done).
  rewrite (proj2 (Z.leb_le _ _))
    by (rewrite !zlen_app, Hh; pose proof (zlen_nonneg rest); lia).
  rewrite drop_app_length' by done. unfold zlen. rewrite Nat2Z.id, drop_app_length, take_app_length.
  rewrite !length_app in Ef. apply Forall_app in Hb as [_ [_ Hb]%Forall_app].
  rewrite (packets_loop_fuel f (length rest)) by (done || lia).
  change (packets_loop (length rest) rest) with (packets rest). by destruct (packets rest).
Qed.

(** No complete packet. *)
Lemma packets_stuck bs :
  zlen bs < kSizeSize + decodeRequestSize bs -> packets bs = ([], bs).
Proof.
  intros H. unfold packets. destruct bs as [|b bs]; [done|]. cbn [length packets_loop].
  by rewrite (proj2 (Z.leb_gt _ _)).
Qed.

Lemma packets_rest_stuck bs :
  is_bytes bs ->
  let rest := snd (packets bs) in
  is_bytes rest /\ zlen rest < kSizeSize + decodeRequestSize rest.
Proof.
  unfold packets. remember (length bs) as f eqn:Ef. assert (length bs <= f)%nat as Hf by lia.
  clear Ef. revert bs Hf. induction f as [|f IH]; intros bs Hf Hb; simpl.
  { destruct bs; simpl in *; [|lia]. split; [done|]. unfold zlen, kSizeSize. simpl. lia. }
  destruct (Z.leb_spec (kSizeSize + decodeRequestSize bs) (zlen bs)) as [Hle|Hgt]; [|done].
  pose proof (decodeRequestSize_nonneg bs Hb). unfold kSizeSize, zlen in Hle.
  specialize (IH (drop (Z.to_nat (decodeRequestSize bs)) (drop 4 bs))).
  destruct (packets_loop f _) as [ps rest]. simpl in *.
  apply IH; [rewrite !length_drop; lia | by repeat apply Forall_drop].
Qed.

(** A stream that starts with a complete packet. *)
Lemma packet_split a :
  is_bytes a -> kSizeSize + decodeRequestSize a <= zlen a ->
  exists hdr payload rest, a = hdr ++ payload ++ rest /\ zlen hdr = kSizeSize /\
    decodeRequestSize hdr = zlen payload.
Proof.
  intros Ha Hge. pose proof (decodeRequestSize_nonneg a Ha) as Hnn. unfold kSizeSize, zlen in *.
  set (n := Z.to_nat (decodeRequestSize a)).
  assert (length (take 4 a) = 4%nat) as E4 by (rewrite length_take_le; lia).
  exists (take 4 a), (take n (drop 4 a)), (drop n (drop 4 a)). rewrite !take_drop. split_and!; [done|lia|].
  rewrite <- (decodeRequestSize_app (take 4 a) (drop 4 a)), take_drop
    by (unfold zlen, kSizeSize; lia).
  rewrite length_take_le; [lia|]. rewrite length_drop. lia.
Qed.

(** Cutting a stream in two: the packets of the first part, then those of
    what the first part left, followed by the second part. *)
Lemma packets_app a b :
  is_bytes a -> is_bytes b ->
  packets (a ++ b) =
    (fst (packets a) ++ fst (packets (snd (packets a) ++ b)),
     snd (packets (snd (packets a) ++ b))).
Proof.
  remember (length a) as f eqn:Ef. assert (length a <= f)%nat as Hf by lia. clear Ef.
  revert a Hf. induction f as [|f IH]; intros a Hf Ha Hb.
  { destruct a; [|simpl in Hf; lia]. simpl. by destruct (packets b). }
  destruct (Z.lt_ge_cases (zlen a) (kSizeSize + decodeRequestSize a)) as [Hlt|Hge].
  { rewrite (packets_stuck a) by done. simpl. by destruct (packets (a ++ b)). }
  destruct (packet_split a Ha Hge) as (hdr & payload & rest & -> & Eh & Ed).
  assert (is_bytes ((hdr ++ payload ++ rest) ++ b)) as Hab by (by apply Forall_app_2).
  rewrite <- !app_assoc in *. rewrite !packets_cons by done. simpl.
  assert (is_bytes rest) by (apply Forall_app in Ha as [_ [_ ?]%Forall_app]; done).
  rewrite IH; [done| |done..]. rewrite !length_app in Hf. unfold zlen, kSizeSize in Eh. lia.
Qed.

(** A pending buffer stands for the stream it was cut from. *)
Lemma packets_compose a buf ps b :
  is_bytes a -> is_bytes buf -> is_bytes b ->
  packets a = (ps ++ fst (packets buf), snd (packets buf)) ->
  packets (a ++ b) = (ps ++ fst (packets (buf ++ b)), snd (packets (buf ++ b))).
Proof.
  intros Ha Hbuf Hb E. rewrite (packets_app a b), (packets_app buf b), E by done. simpl.
  by rewrite app_assoc.
Qed.

Lemma feed_app {S} (mSink : S -> bytes -> bool * S) ps qs s :
  feed mSink (ps ++ qs) s =
    (fst (feed mSink ps s) && fst (feed mSink qs (snd (feed mSink ps s))),
     snd (feed mSink qs (snd (feed mSink ps s)))).
Proof.
  revert s. induction ps as [|p ps IH]; intros s; simpl; [by destruct (feed mSink qs s)|].
  destruct (mSink s p) as [ok s1]. rewrite IH. destruct (feed mSink ps s1) as [oks s2]. simpl.
  by rewrite andb_assoc.
Qed.

(** ** Lemmas on the parser *)

Section parser_lemmas.
Context {S : Type} (mSink : S -> bytes -> bool * S).

Lemma drainPackets_loop fuel result bs s :
  is_bytes bs ->
  drainPackets mSink fuel result bs s =
    (result && fst (feed mSink (fst (packets_loop fuel bs)) s),
     snd (packets_loop fuel bs),
     snd (feed mSink (fst (packets_loop fuel bs)) s)).
Proof.
  revert result bs s. induction fuel as [|fuel IH]; intros result bs s Hb; simpl.
  { by rewrite andb_true_r. }
  pose proof (decodeRequestSize_nonneg bs Hb).
  destruct (Z.leb_spec kSizeSize (zlen bs)) as [H4|H4].
  2: { rewrite (proj2 (Z.leb_gt _ _)) by lia. simpl. by rewrite andb_true_r. }
  destruct (kSizeSize + decodeRequestSize bs <=? zlen bs); [|simpl; by rewrite andb_true_r].
  change (Z.to_nat kSizeSize) with 4%nat.
  set (n := Z.to_nat (decodeRequestSize bs)).
  destruct (packets_loop fuel (drop n (drop 4 bs))) as [ps rest] eqn:Ep. simpl.
  destruct (mSink s (take n (drop 4 bs))) as [ok s1].
  rewrite IH by (by repeat apply Forall_drop). rewrite Ep. simpl.
  destruct (feed mSink ps s1) as [oks s2]. simpl. by destruct ok, result.
Qed.

(** The outcome of a delivery, in terms of the packets of the stream. *)
Definition delivered (result : bool) (stream : bytes) (s : S) (o : bool * bytes * S) : Prop :=
  let '(result', buf', s') := o in
  Parser_ok {| mBuffer := buf' |} /\
  exists ps, packets stream = (ps ++ fst (packets buf'), snd (packets buf')) /\
             (result', s') = (result && fst (feed mSink ps s), snd (feed mSink ps s)).

(** Handing one more packet to the sink before the rest of the stream. *)
Lemma delivered_cons result payload stream rest s ok s1 o :
  packets stream = (payload :: fst (packets rest), snd (packets rest)) ->
  mSink s payload = (ok, s1) ->
  delivered (if ok then result else false) rest s1 o -> delivered result stream s o.
Proof.
  destruct o as [[result' buf'] s']. intros Es Hs (Hok & ps & Ep & Ef). split; [done|].
  exists (payload :: ps). rewrite Es, Ep. split; [done|].
  cbn [feed]. rewrite Hs. destruct (feed mSink ps s1) as [oks s2]. simpl in *.
  rewrite Ef. by destruct ok, result.
Qed.

(** What the loop guarantees with a given fuel. *)
Definition loop_ok (fuel : nat) : Prop :=
  forall result buf data s,
  Parser_ok {| mBuffer := buf |} -> is_bytes data ->
  (2 * length data + (if (zlen buf =? 0)%Z then 0 else 1) < fuel)%nat ->
  exists o, onReceive_loop mSink fuel result buf data s = Some o /\
            delivered result (buf ++ data) s o.

(** A round that moves [n] bytes of the input to the buffer. *)
Lemma onReceive_grow fuel result buf data s n :
  loop_ok fuel -> is_bytes data -> (0 < n <= length data)%nat ->
  Parser_ok {| mBuffer := buf ++ take n data |} -> (2 * length data < Datatypes.S fuel)%nat ->
  exists o, onReceive_loop mSink fuel result (buf ++ take n data) (drop n data) s = Some o /\
            delivered result (buf ++ data) s o.
Proof.
  intros IH Hd Hn Hok Hf.
  destruct (IH result (buf ++ take n data) (drop n data) s) as (o & -> & Ho); [done| | |].
  - by apply Forall_drop.
  - rewrite length_drop. destruct (_ =? 0)%Z; lia.
  - rewrite <- app_assoc, take_drop in Ho. by exists o.
Qed.

(** A round that hands a packet to the sink and empties the buffer. *)
Lemma onReceive_emit fuel result stream payload rest s :
  loop_ok fuel -> is_bytes rest -> (2 * length rest < fuel)%nat ->
  packets stream = (payload :: fst (packets rest), snd (packets rest)) ->
  exists o, (let '(ok, s1) := mSink s payload in
             onReceive_loop mSink fuel (if ok then result else false) [] rest s1) = Some o /\
            delivered result stream s o.
Proof.
  intros IH Hr Hf Es. destruct (mSink s payload) as [ok s1] eqn:Ek.
  destruct (IH (if ok then result else false) [] rest s1) as (o & -> & Ho).
  - split; [constructor|]. left. unfold zlen, kSizeSize. simpl. lia.
  - done.
  - change (zlen [] =? 0) with true. simpl. lia.
  - exists o. split; [done|]. eapply delivered_cons; [exact Es|exact Ek|exact Ho].
Qed.

(** The buffer completed by [n] bytes of the input is one packet. *)
Lemma packets_buffered buf data n :
  is_bytes buf -> is_bytes data -> 4 <= zlen buf -> (n <= length data)%nat ->
  zlen buf + Z.of_nat n = 4 + decodeRequestSize buf ->
  packets (buf ++ data) =
    (drop 4 (buf ++ take n data) :: fst (packets (drop n data)), snd (packets (drop n data))).
Proof.
  intros Hb Hd H4 Hn E.
  assert (length (take n data) = n) as Ln by (by apply length_take_le).
  assert (buf ++ data = take 4 (buf ++ take n data) ++ drop 4 (buf ++ take n data) ++ drop n data)
    as Ecut by (by rewrite app_assoc, take_drop, <- app_assoc, take_drop).
  rewrite Ecut. apply packets_cons.
  - rewrite <- Ecut. by apply Forall_app_2.
  - unfold zlen, kSizeSize in *. rewrite length_take_le; [done|]. rewrite length_app. lia.
  - assert (take 4 (buf ++ take n data) = take 4 buf) as ->
      by (apply take_app_le; unfold zlen in H4; lia).
    rewrite <- (decodeRequestSize_app (take 4 buf) (drop 4 buf)), take_drop.
    + unfold zlen in *. rewrite length_drop, length_app. lia.
    + unfold zlen, kSizeSize in *. rewrite length_take_le; lia.
Qed.

Lemma Parser_ok_header buf n data :
  is_bytes (buf ++ take n data) -> zlen (buf ++ take n data) <= 4 ->
  Parser_ok {| mBuffer := buf ++ take n data |}.
Proof.
  intros Hb H. split; [done|]. cbn [mBuffer]. pose proof (decodeRequestSize_nonneg _ Hb).
  unfold kSizeSize. lia.
Qed.

Lemma Parser_ok_payload buf n data :
  is_bytes (buf ++ take n data) -> 4 <= zlen buf ->
  zlen (buf ++ take n data) < 4 + decodeRequestSize buf ->
  Parser_ok {| mBuffer := buf ++ take n data |}.
Proof.
  intros Hb H4 H. split; [done|]. left. cbn [mBuffer].
  rewrite decodeRequestSize_app by done. done.
Qed.

Lemma delivered_direct result data s :
  is_bytes data -> delivered result data s (drainPackets mSink (length data) result data s).
Proof.
  intros Hd. rewrite drainPackets_loop by done.
  change (packets_loop (length data) data) with (packets data).
  destruct (packets_rest_stuck data Hd) as [Hrb Hrs].
  split; [by split; [|left]|]. exists (fst (packets data)). split; [|done].
  rewrite (packets_stuck (snd (packets data))) by done. simpl. rewrite app_nil_r.
  by destruct (packets data).
Qed.

Lemma onReceive_loop_delivered fuel : loop_ok fuel.
Proof.
  induction fuel as [|fuel IH]; intros result buf data s Hok Hd Hf; [lia|].
  destruct Hok as [Hb Hok]. cbn [mBuffer] in *. cbn [onReceive_loop].
  destruct (Z.eqb_spec (zlen data) 0) as [E0|E0].
  { destruct data; [|unfold zlen in E0; simpl in E0; lia]. eexists. split; [done|].
    split; [done|]. exists []. rewrite app_nil_r. simpl. rewrite andb_true_r.
    by destruct (packets buf). }
  destruct (Z.eqb_spec (zlen buf) 0) as [B0|B0].
  { destruct buf; [|unfold zlen in B0; simpl in B0; lia]. eexists. split; [done|].
    by apply delivered_direct. }
  pose proof (decodeRequestSize_nonneg buf Hb) as Hnn.
  assert (forall n, is_bytes (buf ++ take n data)) as Hbt
    by (intros n; apply Forall_app_2; [done|by apply Forall_take]).
  assert (forall n, (n <= length data)%nat -> zlen (buf ++ take n data) = zlen buf + Z.of_nat n)
    as Hlt by (intros n ?; unfold zlen; rewrite length_app, length_take_le by lia; lia).
  assert (1 <= length data)%nat by (unfold zlen in E0; lia).
  assert (zlen data = Z.of_nat (length data)) as Ed by done.
  unfold kSizeSize in *.
  destruct (Z.ltb_spec (zlen buf) 4) as [B4|B4]; [|destruct (Z.eqb_spec (zlen buf) 4) as [B4'|B4']].
  - apply onReceive_grow; try done; try lia. apply Parser_ok_header; [done|]. rewrite Hlt; lia.
  - destruct (Z.leb_spec (decodeRequestSize buf) (zlen data)) as [Hr|Hr].
    + apply onReceive_emit; [done|by apply Forall_drop|rewrite length_drop; lia|].
      rewrite (packets_buffered buf data (Z.to_nat (decodeRequestSize buf))) by (done || lia).
      by rewrite drop_app_length' by (unfold zlen in B4'; lia).
    + apply onReceive_grow; try done; try lia. apply Parser_ok_payload; [done|lia|].
      rewrite Hlt; lia.
  - set (consume := Z.min (4 + decodeRequestSize buf - zlen buf) (zlen data)).
    destruct Hok as [Hok|[Hok _]]; [|lia].
    destruct (Z.eqb_spec (zlen buf + consume) (4 + decodeRequestSize buf)) as [Ec|Ec].
    + apply onReceive_emit; [done|by apply Forall_drop|rewrite length_drop; lia|].
      apply packets_buffered; done || lia.
    + apply onReceive_grow; try done; try lia. apply Parser_ok_payload; [done|lia|].
      rewrite Hlt; lia.
Qed.

Lemma Parser_onReceive_delivered p data s :
  Parser_ok p -> is_bytes data ->
  exists r p' s', Parser_onReceive mSink p data s = Some (r, p', s') /\
    delivered true (mBuffer p ++ data) s (r, mBuffer p', s').
Proof.
  destruct p as [buf]. intros Hok Hd. unfold Parser_onReceive. cbn [mBuffer].
  destruct (onReceive_loop_delivered (2 * length data + 2) true buf data s)
    as ([[r buf'] s'] & -> & Ho); [done|done|destruct (_ =? 0)%Z; lia|].
  by exists r, {| mBuffer := buf' |}, s'.
Qed.

Lemma Parser_onReceive_all_delivered chunks p s :
  Parser_ok p -> is_bytes (concat chunks) ->
  exists r p' s', Parser_onReceive_all mSink p chunks s = Some (r, p', s') /\
    delivered true (mBuffer p ++ concat chunks) s (r, mBuffer p', s').
Proof.
  revert p s. induction chunks as [|c chunks IH]; intros [buf] s Hok Hd.
  { exists true, {| mBuffer := buf |}, s. split; [done|]. split; [done|]. exists [].
    simpl. rewrite app_nil_r. by destruct (packets buf). }
  simpl in Hd. apply Forall_app in Hd as [Hc Hcs].
  destruct (Parser_onReceive_delivered {| mBuffer := buf |} c s Hok Hc)
    as (r1 & [buf1] & s1 & E1 & Hok1 & ps1 & Ep1 & Ef1).
  destruct (IH {| mBuffer := buf1 |} s1 Hok1 Hcs) as (r2 & [buf2] & s2 & E2 & Hok2 & ps2 & Ep2 & Ef2).
  cbn [mBuffer concat] in *. exists (r1 && r2), {| mBuffer := buf2 |}, s2.
  cbn [Parser_onReceive_all]. rewrite E1, E2. split; [done|]. split; [done|].
  rewrite app_assoc. exists (ps1 ++ ps2).
  rewrite (packets_compose _ buf1 ps1), Ep2; [|by apply Forall_app_2; [destruct Hok|]
    |by destruct Hok1|done..].
  simpl. split; [by rewrite app_assoc|].
  simpl in *. injection Ef1 as -> ->. injection Ef2 as -> ->. by rewrite feed_app.
Qed.

End parser_lemmas.

(** The stream of a list of messages, as [sendAsync] writes it. *)
Definition sent_stream (msgs : list bytes) : bytes :=
  concat (map (@concat Z) (map qemud_sendAsync msgs)).

Definition sendable (m : bytes) : Prop := is_bytes m /\ 0 < zlen m < 2 ^ 31.

Lemma sent_stream_cons m msgs :
  sendable m -> sent_stream (m :: msgs) = encodeRequestSize (zlen m) ++ m ++ sent_stream msgs.
Proof.
  intros [_ Hm]. unfold sent_stream. simpl. rewrite wrap_small by (unfold in_u; lia).
  by rewrite app_nil_r, <- app_assoc.
Qed.

Lemma sent_stream_concat msgs : concat (concat (map qemud_sendAsync msgs)) = sent_stream msgs.
Proof.
  unfold sent_stream. induction msgs as [|m msgs IH]; [done|]. cbn [map concat].
  by rewrite concat_app, IH.
Qed.

Lemma sent_stream_bytes msgs : Forall sendable msgs -> is_bytes (sent_stream msgs).
Proof.
  induction 1 as [|m msgs Hm _ IH]; [constructor|]. rewrite sent_stream_cons by done.
  apply Forall_app_2; [apply encodeRequestSize_bytes; destruct Hm; lia|].
  apply Forall_app_2; [by destruct Hm|done].
Qed.

Lemma packets_sent_stream msgs : Forall sendable msgs -> packets (sent_stream msgs) = (msgs, []).
Proof.
  induction 1 as [|m msgs Hm Hms IH]; [done|]. rewrite sent_stream_cons by done.
  rewrite packets_cons; [by rewrite IH| |by apply encodeRequestSize_length|].
  - rewrite <- sent_stream_cons by done. apply sent_stream_bytes. by constructor.
  - destruct Hm. rewrite <- (app_nil_r (encodeRequestSize _)). apply decode_encode. lia.
Qed.

Lemma Parser_ok_packets p :
  Parser_ok p ->
  packets (mBuffer p) = ([], mBuffer p) \/
  zlen (mBuffer p) = kSizeSize /\ packets (mBuffer p) = ([[]], []).
Proof.
  destruct p as [buf]. intros [Hb [H|[H4 H0]]]; cbn [mBuffer] in *.
  - left. by apply packets_stuck.
  - right. split; [done|]. rewrite <- (app_nil_r buf), <- (app_nil_r []) at 1.
    by rewrite packets_cons by (try done; by rewrite !app_nil_r).
Qed.

(** ** Properties *)

(** C9: the parser implements the packet specification for every way of
    cutting the stream into deliveries.  It always terminates; the packets
    given to the sink, followed by the packets still in the buffer, are the
    packets of the whole stream, its answer is the conjunction of the sink's
    answers, and the only packet it may hold back is one empty packet whose
    header fills the buffer. *)
Theorem Parser_refines_packets {S} (mSink : S -> bytes -> bool * S) chunks s :
  is_bytes (concat chunks) ->
  exists r p' s' ps,
    Parser_onReceive_all mSink {| mBuffer := [] |} chunks s = Some (r, p', s') /\
    packets (concat chunks) =
      (ps ++ fst (packets (mBuffer p')), snd (packets (mBuffer p'))) /\
    feed mSink ps s = (r, s') /\
    (fst (packets (mBuffer p')) = [] \/
     zlen (mBuffer p') = kSizeSize /\ packets (mBuffer p') = ([[]], [])).
Proof.
  intros Hb.
  destruct (Parser_onReceive_all_delivered mSink chunks {| mBuffer := [] |} s)
    as (r & p' & s' & E & Hok & ps & Ep & Ef); [|done|].
  { split; [constructor|]. left. unfold zlen, kSizeSize. simpl. lia. }
  exists r, p', s', ps. split_and!; [done|done| |].
  - simpl in Ef. rewrite Ef. by destruct (feed mSink ps s).
  - destruct (Parser_ok_packets p' Hok) as [Eq|Eq]; [left; by rewrite Eq|by right].
Qed.

(** A sink that records what it is given and accepts everything. *)
Definition log_sink (log : list bytes) (p : bytes) : bool * list bytes := (true, log ++ [p]).

Lemma Parser_refines_packets_witness :
  is_bytes (concat [[48; 48; 48]; [50; 104]; [105; 48]]) /\
  exists r p' s' ps,
    Parser_onReceive_all log_sink {| mBuffer := [] |} [[48; 48; 48]; [50; 104]; [105; 48]] []
      = Some (r, p', s') /\
    packets (concat [[48; 48; 48]; [50; 104]; [105; 48]]) =
      (ps ++ fst (packets (mBuffer p')), snd (packets (mBuffer p'))) /\
    feed log_sink ps [] = (r, s') /\
    (fst (packets (mBuffer p')) = [] \/
     zlen (mBuffer p') = kSizeSize /\ packets (mBuffer p') = ([[]], [])).
Proof.
  assert (is_bytes (concat [[48; 48; 48]; [50; 104]; [105; 48]])) as H
    by (simpl; repeat constructor; unfold is_byte; lia).
  split; [exact H|]. exact (Parser_refines_packets log_sink _ [] H).
Defined.

(** C10: whatever pieces the transport delivers, the receiver's sink sees exactly
    the messages handed to [sendAsync], in order, and nothing is left in
    the buffer. *)
Theorem Parser_recovers_sent {S} (mSink : S -> bytes -> bool * S) msgs chunks s :
  Forall sendable msgs -> concat chunks = sent_stream msgs ->
  Parser_onReceive_all mSink {| mBuffer := [] |} chunks s =
    Some (fst (feed mSink msgs s), {| mBuffer := [] |}, snd (feed mSink msgs s)).
Proof.
  intros Hm Ec.
  destruct (Parser_onReceive_all_delivered mSink chunks {| mBuffer := [] |} s)
    as (r & [buf] & s' & E & Hok & ps & Ep & Ef).
  { split; [constructor|]. left. unfold zlen, kSizeSize. simpl. lia. }
  { rewrite Ec. by apply sent_stream_bytes. }
  rewrite Ec, app_nil_l, packets_sent_stream in Ep by done. cbn [mBuffer] in *.
  destruct (Parser_ok_packets _ Hok) as [Eb|[_ Eb]]; cbn [mBuffer] in Eb; rewrite Eb in Ep;
    simpl in Ep.
  - rewrite app_nil_r in Ep. injection Ep as -> <-. simpl in Ef. injection Ef as -> ->. by rewrite E.
  - injection Ep as ->. apply Forall_app in Hm as [_ Hm]. apply Forall_inv in Hm as [_ Hm].
    unfold zlen in Hm. simpl in Hm. lia.
Qed.

Lemma Parser_recovers_sent_witness :
  Forall sendable [[104; 105]; [33]] /\
  concat [[48; 48]; [48; 50; 104; 105; 48; 48; 48]; [49; 33]] = sent_stream [[104; 105]; [33]] /\
  Parser_onReceive_all log_sink {| mBuffer := [] |}
      [[48; 48]; [48; 50; 104; 105; 48; 48; 48]; [49; 33]] [] =
    Some (true, {| mBuffer := [] |}, [[104; 105]; [33]]).
Proof.
  assert (Forall sendable [[104; 105]; [33]]) as H.
  { repeat constructor; unfold is_byte, zlen; simpl; lia. }
  split; [exact H|]. split; [vm_compute; reflexivity|].
  apply (Parser_recovers_sent log_sink [[104; 105]; [33]]); [exact H|vm_compute; reflexivity].
Defined.

(** The four byte header carries a size modulo 2^31: every size that fits in
    31 bits is recovered exactly, in the hexadecimal form up to 65535 and in
    the binary form above, and a larger [uint32_t] loses its top bit. *)
Theorem decode_encode_mod n rest :
  in_u 32 n ->
  zlen (encodeRequestSize n) = kSizeSize /\ is_bytes (encodeRequestSize n) /\
  decodeRequestSize (encodeRequestSize n ++ rest) = n mod 2 ^ 31.
Proof.
  unfold in_u. intros Hn. pose proof (encodeRequestSize_length n) as Hl.
  split; [done|]. split; [apply encodeRequestSize_bytes; lia|].
  rewrite decodeRequestSize_app by (rewrite Hl; done).
  destruct (Z.le_gt_cases n 65535); [|apply decode_encode_large; lia].
  rewrite decode_encode_small, Z.mod_small; lia.
Qed.

Lemma decode_encode_mod_witness :
  in_u 32 (2 ^ 31 + 70000) /\
  decodeRequestSize (encodeRequestSize (2 ^ 31 + 70000) ++ []) = 70000.
Proof.
  assert (in_u 32 (2 ^ 31 + 70000)) as H by (unfold in_u; lia).
  split; [exact H|]. rewrite (proj2 (proj2 (decode_encode_mod _ [] H))). reflexivity.
Defined.

(** A saved parser is restored exactly, but the flag that reports success is
    the number of buffered bytes seen as a boolean: restoring a parser with an
    empty buffer is reported as a failure. *)
Theorem Parser_load_save {W R} `{IWriterLaws W} `{IReaderLaws R} (w : W) (r : R) p rest :
  in_u 64 (zlen (mBuffer p)) ->
  emitted (Parser_saveToSnapshot p w) ++ rest = emitted w ++ remaining r ->
  exists r', Parser_loadFromSnapshot r = (negb (zlen (mBuffer p) =? 0), p, r') /\
    remaining r' = rest.
Proof.
  destruct p as [buf]. unfold Parser_saveToSnapshot, Parser_loadFromSnapshot, putUnsigned.
  cbn [mBuffer]. intros Hl E. rewrite !write_emitted, <- !app_assoc in E.
  apply app_inv_head in E.
  destruct (getUnsigned_app r (zlen buf) (buf ++ rest) Hl (eq_sym E)) as (r1 & -> & E1).
  destruct (read_app r1 buf rest E1) as (r2 & -> & E2).
  exists r2. split; [|done]. rewrite Z.sub_diag. simpl. by rewrite app_nil_r.
Qed.

Lemma Parser_load_save_witness :
  exists r', Parser_loadFromSnapshot {| storage := [0; 7] |} = (false, {| mBuffer := [] |}, r') /\
    remaining r' = [7].
Proof.
  apply (Parser_load_save {| storage := [] |} {| storage := [0; 7] |} {| mBuffer := [] |} [7]).
  - unfold in_u, zlen. simpl. lia.
  - vm_compute. reflexivity.
Defined.
