(* ===== verification/Cable.v ===== *)
(** * Cables: plugs, sockets and their snapshot code

    Models [emulator/devices/include/goldfish/devices/cable/cable.h] (the
    interface between a socket manager and its plugs) and
    [emulator/devices/cable.cpp] (the registry of plug loaders, saving and
    loading a plug). *)

From S2P Require Import Prelude.
From S2P Require Import Archive.

(** A socket of the vsock device: guest port, host port ([VsockStreamKey]). *)
Definition skey : Type := Z * Z.

Definition plug_id : Type := Z.

(** ** Plugs and listeners

    Plugs are the clients of a socket manager.  A callback changes their state
    [P] and may call back into the manager; none of those calls invokes a plug
    callback in turn, so they are returned as a list and carried out by the
    manager in order. *)

Inductive client_call :=
  | CSend (k : skey) (data : bytes)              (* ISocket::sendAsync *)
  | CUnplug (k : skey)                           (* ISocket::unplug *)
  | CSwitchPlug (k : skey) (p : plug_id)         (* ISocket::switchPlug *)
  | CSetSniffer (k : skey) (n : Z)               (* ISocket::setDataSniffer *)
  | CConnect (guest : Z) (p : plug_id)           (* vsock::connect *)
  | CListen (host : Z) (listener : Z).           (* vsock::listen *)

Class PlugWorld (P : Type) := {
  plug_onConnect : plug_id -> P -> P * list client_call;
  plug_onReceive : plug_id -> bytes -> P -> bool * P * list client_call;
  plug_onUnplug : plug_id -> P -> P;
  (** a listener returns a plug, or [None] when it hands the socket back *)
  listener_call : Z -> skey -> P -> option plug_id * P;
  sniffer_toSocket : Z -> bytes -> P -> P;
  sniffer_toPlug : Z -> bytes -> P -> P;
  plug_supportsLoading : plug_id -> P -> bool;
  plug_typeId : plug_id -> P -> bytes;
  (** the answer of [saveStateToSnapshot] and what it wrote *)
  plug_saveState : plug_id -> P -> bool * bytes;
}.

(** Plug loaders read from the snapshot themselves. *)
Class PlugLoader (P R : Type) := {
  run_loader : Z -> skey -> R -> P -> option plug_id * R * P;
}.

(** ** The loader registry: [getLoaders()], an [unordered_map] *)

Abbreviation PlugLoadersMap := (gmap bytes Z).

(** [insert(...).second]: an id that is taken is kept. *)
Definition registerPlugLoader (m : PlugLoadersMap) (typeId : bytes) (loader : Z)
    : bool * PlugLoadersMap :=
  match m !! typeId with
  | Some _ => (false, m)
  | None => (true, <[typeId := loader]> m)
  end.

Definition savePlugToSnapshot {P W} `{PlugWorld P} `{IWriter W}
    (plug : plug_id) (world : P) (writer : W) : bool * W :=
  if negb (plug_supportsLoading plug world) then (false, writer)
  else
    let id := plug_typeId plug world in
    if zlen id =? 0 then (false, writer)
    else
      let writer := putString writer id in
      let '(ok, bs) := plug_saveState plug world in
      (ok, write writer bs).

(** [None] stands for the socket handed back. *)
Definition loadPlugFromSnapshot {P R} `{PlugLoader P R} `{IReader R}
    (loaders : PlugLoadersMap) (socket : skey) (reader : R) (world : P)
    : option plug_id * R * P :=
  let '(id, reader) := getString reader in
  if zlen id =? 0 then (None, reader, world)
  else
    match loaders !! id with
    | None => (None, reader, world)
    | Some loader => run_loader loader socket reader world
    end.
