(* ===== verification/VsockState.v ===== *)
(** * The vsock device: its data

    Models the data of [emulator/plugin/vsock_goldfish/vsock.cpp]: the port
    allocator [UniqueIdAllocator], the byte queue [SocketBuffer], the stream
    [VsockStream] and the ordered set of streams, with the operations of each,
    and the interface of the virtqueue transport
    ([vsock_low_level.h]); the plugs are those of [Cable]. *)

From S2P Require Import Prelude.
From S2P Require Import Archive.
From S2P Require Import Cable.

Definition kDynamicPortsStart : Z := 2 ^ 31.

(** [enum virtio_vsock_op] of the virtio specification. *)
Definition OP_INVALID : Z := 0.
Definition OP_REQUEST : Z := 1.
Definition OP_RESPONSE : Z := 2.
Definition OP_RST : Z := 3.
Definition OP_SHUTDOWN : Z := 4.
Definition OP_RW : Z := 5.
Definition OP_CREDIT_UPDATE : Z := 6.
Definition OP_CREDIT_REQUEST : Z := 7.

(** The fields of [struct virtio_vsock_hdr] that the device sets or reads. *)
Record virtio_vsock_hdr := {
  src_port : Z; dst_port : Z; len : Z; op : Z; buf_alloc : Z; fwd_cnt : Z;
}.

(** ** Port ids *)

Module UniqueIdAllocator.

(** [mReturnedIds] is a [std::set] ordered by [std::greater]: largest first. *)
Record t := { mLastId : Z; mReturnedIds : list Z }.

Definition init : t := {| mLastId := 0; mReturnedIds := [] |}.

(** Insertion in a descending set. *)
Fixpoint set_insert (id : Z) (l : list Z) : list Z :=
  match l with
  | [] => [id]
  | x :: l' => if x <? id then id :: l else if x =? id then l else x :: set_insert id l'
  end.

(** [get]: the smallest returned id, else a new one. *)
Definition get (a : t) : Z * t :=
  match last (mReturnedIds a) with
  | Some id => (id, {| mLastId := mLastId a;
                       mReturnedIds := take (length (mReturnedIds a) - 1) (mReturnedIds a) |})
  | None => let id := u32 (mLastId a + 1) in (id, {| mLastId := id; mReturnedIds := [] |})
  end.

(** The [while (true)] of [put]: drop returned ids from the top. *)
Fixpoint shrink (lastId : Z) (l : list Z) : t :=
  match l with
  | id :: l' => if id =? lastId then shrink (u32 (lastId - 1)) l'
                else {| mLastId := lastId; mReturnedIds := l |}
  | [] => {| mLastId := lastId; mReturnedIds := [] |}
  end.

(** [put]; [None] when [assert(id < mLastId)] fails. *)
Definition put (a : t) (id : Z) : option t :=
  if id =? mLastId a then Some (shrink (u32 (mLastId a - 1)) (mReturnedIds a))
  else if id <? mLastId a then
    Some {| mLastId := mLastId a; mReturnedIds := set_insert id (mReturnedIds a) |}
  else None.

Definition reset (a : t) : t := {| mLastId := 0; mReturnedIds := [] |}.

Definition saveToSnapshot {W} `{IWriter W} (a : t) (w : W) : W :=
  fold_left putUnsigned (mReturnedIds a)
    (putUnsigned (putUnsigned w (mLastId a)) (zlen (mReturnedIds a))).

(** The [for (n = getUnsigned(reader); n > 0; --n)] loop. *)
Fixpoint load_ids {R} `{IReader R} (n : nat) (l : list Z) (r : R) : list Z * R :=
  match n with
  | O => (l, r)
  | S n => let '(id, r) := getUnsigned r in load_ids n (set_insert (u32 id) l) r
  end.

Definition loadFromSnapshot {R} `{IReader R} (r : R) : t * R :=
  let '(lastId, r) := getUnsigned r in
  let '(n, r) := getUnsigned r in
  let '(ids, r) := load_ids (Z.to_nat n) [] r in
  ({| mLastId := u32 lastId; mReturnedIds := ids |}, r).

(** The ids handed out and not returned. *)
Definition live (a : t) (id : Z) : Prop := 1 <= id <= mLastId a /\ id ∉ mReturnedIds a.

Definition ok (a : t) : Prop :=
  0 <= mLastId a < 2 ^ 31 /\ StronglySorted (fun x y => y < x) (mReturnedIds a) /\
  Forall (fun id => 1 <= id < mLastId a) (mReturnedIds a).

End UniqueIdAllocator.

(** ** The byte queue from the host to the guest *)

Module SocketBuffer.

Record t := { mBuf : bytes; mConsumed : Z }.

Definition init : t := {| mBuf := []; mConsumed := 0 |}.

Definition append (b : t) (data : bytes) : t :=
  let b := if 0 <? mConsumed b
           then {| mBuf := drop (Z.to_nat (mConsumed b)) (mBuf b); mConsumed := 0 |} else b in
  {| mBuf := mBuf b ++ data; mConsumed := mConsumed b |}.

Definition peek (b : t) : bytes := drop (Z.to_nat (mConsumed b)) (mBuf b).

(** [None] when the assertion [mConsumed + size <= mBuf.size()] fails. *)
Definition consume (b : t) (size : Z) : option t :=
  if mConsumed b + size <=? zlen (mBuf b)
  then Some {| mBuf := mBuf b; mConsumed := mConsumed b + size |} else None.

Definition saveToSnapshot {W} `{IWriter W} (b : t) (w : W) : W :=
  write (putUnsigned w (zlen (peek b))) (peek b).

(** The size goes through a [uint32_t]; the caller ignores the result, 0 when
    all the bytes were read. *)
Definition loadFromSnapshot {R} `{IReader R} (r : R) : Z * t * R :=
  let '(size, r) := getUnsigned r in
  let size := u32 size in
  let '(bs, r) := read r size in
  (if zlen bs =? size then 0 else 1,
   {| mBuf := bs ++ replicate (Z.to_nat (size - zlen bs)) 0; mConsumed := 0 |}, r).

Definition ok (b : t) : Prop := 0 <= mConsumed b <= zlen (mBuf b).

End SocketBuffer.

(** ** Streams *)

Record VsockStream := {
  guestPort : Z;
  hostPort : Z;
  plug : option plug_id;
  dataSniffer : option Z;
  hostToGuestBuf : SocketBuffer.t;
  guestBufAlloc : Z;
  guestFwdCnt : Z;
  hostSentCnt : Z;
  hostFwdCnt : Z;
  sendOpMask : Z;
  isConnected : bool;
}.

Definition stream_key (s : VsockStream) : skey := (guestPort s, hostPort s).

(** [VsockStream(dev, guest, host)] with the member initializers. *)
Definition new_stream (k : skey) : VsockStream :=
  {| guestPort := k.1; hostPort := k.2; plug := None; dataSniffer := None;
     hostToGuestBuf := SocketBuffer.init; guestBufAlloc := 0; guestFwdCnt := 0;
     hostSentCnt := 0; hostFwdCnt := 0; sendOpMask := 0; isConnected := false |}.

Definition set_plug (p : option plug_id) (s : VsockStream) : VsockStream :=
  {| guestPort := guestPort s; hostPort := hostPort s; plug := p;
     dataSniffer := dataSniffer s; hostToGuestBuf := hostToGuestBuf s;
     guestBufAlloc := guestBufAlloc s; guestFwdCnt := guestFwdCnt s;
     hostSentCnt := hostSentCnt s; hostFwdCnt := hostFwdCnt s;
     sendOpMask := sendOpMask s; isConnected := isConnected s |}.

Definition set_sniffer (n : option Z) (s : VsockStream) : VsockStream :=
  {| guestPort := guestPort s; hostPort := hostPort s; plug := plug s;
     dataSniffer := n; hostToGuestBuf := hostToGuestBuf s;
     guestBufAlloc := guestBufAlloc s; guestFwdCnt := guestFwdCnt s;
     hostSentCnt := hostSentCnt s; hostFwdCnt := hostFwdCnt s;
     sendOpMask := sendOpMask s; isConnected := isConnected s |}.

Definition set_buf (b : SocketBuffer.t) (s : VsockStream) : VsockStream :=
  {| guestPort := guestPort s; hostPort := hostPort s; plug := plug s;
     dataSniffer := dataSniffer s; hostToGuestBuf := b;
     guestBufAlloc := guestBufAlloc s; guestFwdCnt := guestFwdCnt s;
     hostSentCnt := hostSentCnt s; hostFwdCnt := hostFwdCnt s;
     sendOpMask := sendOpMask s; isConnected := isConnected s |}.

(** The guest's counters of a received header. *)
Definition set_guest_counters (h : virtio_vsock_hdr) (s : VsockStream) : VsockStream :=
  {| guestPort := guestPort s; hostPort := hostPort s; plug := plug s;
     dataSniffer := dataSniffer s; hostToGuestBuf := hostToGuestBuf s;
     guestBufAlloc := buf_alloc h; guestFwdCnt := fwd_cnt h;
     hostSentCnt := hostSentCnt s; hostFwdCnt := hostFwdCnt s;
     sendOpMask := sendOpMask s; isConnected := isConnected s |}.

Definition set_hostSentCnt (n : Z) (s : VsockStream) : VsockStream :=
  {| guestPort := guestPort s; hostPort := hostPort s; plug := plug s;
     dataSniffer := dataSniffer s; hostToGuestBuf := hostToGuestBuf s;
     guestBufAlloc := guestBufAlloc s; guestFwdCnt := guestFwdCnt s;
     hostSentCnt := n; hostFwdCnt := hostFwdCnt s;
     sendOpMask := sendOpMask s; isConnected := isConnected s |}.

Definition set_hostFwdCnt (n : Z) (s : VsockStream) : VsockStream :=
  {| guestPort := guestPort s; hostPort := hostPort s; plug := plug s;
     dataSniffer := dataSniffer s; hostToGuestBuf := hostToGuestBuf s;
     guestBufAlloc := guestBufAlloc s; guestFwdCnt := guestFwdCnt s;
     hostSentCnt := hostSentCnt s; hostFwdCnt := n;
     sendOpMask := sendOpMask s; isConnected := isConnected s |}.

Definition set_sendOpMask (m : Z) (s : VsockStream) : VsockStream :=
  {| guestPort := guestPort s; hostPort := hostPort s; plug := plug s;
     dataSniffer := dataSniffer s; hostToGuestBuf := hostToGuestBuf s;
     guestBufAlloc := guestBufAlloc s; guestFwdCnt := guestFwdCnt s;
     hostSentCnt := hostSentCnt s; hostFwdCnt := hostFwdCnt s;
     sendOpMask := m; isConnected := isConnected s |}.

Definition set_isConnected (c : bool) (s : VsockStream) : VsockStream :=
  {| guestPort := guestPort s; hostPort := hostPort s; plug := plug s;
     dataSniffer := dataSniffer s; hostToGuestBuf := hostToGuestBuf s;
     guestBufAlloc := guestBufAlloc s; guestFwdCnt := guestFwdCnt s;
     hostSentCnt := hostSentCnt s; hostFwdCnt := hostFwdCnt s;
     sendOpMask := sendOpMask s; isConnected := c |}.

(** [VsockStream::sendOp]: [sendOpMask |= (1U << op)], a [uint8_t]. *)
Definition sendOp (o : Z) (s : VsockStream) : VsockStream :=
  set_sendOpMask (u8 (Z.lor (sendOpMask s) (Z.shiftl 1 o))) s.

(** [VsockStreamComparer]: [std::tie(guestPort, hostPort)] order. *)
Definition key_ltb (a b : skey) : bool :=
  if a.1 <? b.1 then true else if b.1 <? a.1 then false else a.2 <? b.2.

Definition key_eqb (a b : skey) : bool := (a.1 =? b.1) && (a.2 =? b.2).

(** [mStreams], a [std::set] in increasing order. *)
Abbreviation Streams := (list VsockStream).

Fixpoint streams_find (k : skey) (l : Streams) : option VsockStream :=
  match l with
  | [] => None
  | s :: l => if key_eqb (stream_key s) k then Some s else streams_find k l
  end.

(** [emplace]: no change when an equivalent element is there. *)
Fixpoint streams_insert (s : VsockStream) (l : Streams) : Streams :=
  match l with
  | [] => [s]
  | x :: l' => if key_ltb (stream_key s) (stream_key x) then s :: l
               else if key_eqb (stream_key x) (stream_key s) then l
               else x :: streams_insert s l'
  end.

Fixpoint streams_erase (k : skey) (l : Streams) : Streams :=
  match l with
  | [] => []
  | s :: l => if key_eqb (stream_key s) k then l else s :: streams_erase k l
  end.

(** A change made through a reference to the element with key [k]. *)
Fixpoint streams_update (k : skey) (f : VsockStream -> VsockStream) (l : Streams) : Streams :=
  match l with
  | [] => []
  | s :: l => if key_eqb (stream_key s) k then f s :: l else s :: streams_update k f l
  end.

(** ** The virtqueue transport ([vsock_low_level.h])

    [VirtIOVSockSendResult] packs two flags and the number of payload bytes
    taken by the guest's buffers. *)

Definition VirtIOVSockSendNeedNotify (r : Z) : bool := negb (Z.land r 1 =? 0).
Definition VirtIOVSockSendIsVqFull (r : Z) : bool := negb (Z.land r 2 =? 0).
Definition VirtIOVSockSentSize (r : Z) : Z := Z.shiftr r 2.

Definition MakeVirtIOVSockSendResult (vq_full need_notify : bool) (size : Z) : Z :=
  Z.lor (Z.lor (Z.b2z need_notify) (Z.shiftl (Z.b2z vq_full) 1)) (Z.shiftl size 2).

(** [GoldfishVirtIOVSockDevAPI], over the state [Q] of the queue. *)
Class Transport (Q : Type) := {
  sendPacketHostToGuest : Q -> virtio_vsock_hdr -> bytes -> Z * Q;
  haveHostToGuestPackets : Q -> Q;
  (** the packets the guest has been given, oldest first *)
  to_guest : Q -> list (virtio_vsock_hdr * bytes);
  queue_ok : Q -> Prop;
}.

(** [q] is the header [h] up to the payload length. *)
Definition same_packet (h q : virtio_vsock_hdr) : Prop :=
  src_port q = src_port h /\ dst_port q = dst_port h /\ op q = op h /\
  buf_alloc q = buf_alloc h /\ fwd_cnt q = fwd_cnt h.

Class TransportLaws (Q : Type) `{Transport Q} := {
  send_ok : forall q h data, queue_ok q -> queue_ok (snd (sendPacketHostToGuest q h data));
  notify_ok : forall q, queue_ok q -> queue_ok (haveHostToGuestPackets q);
  notify_to_guest : forall q, to_guest (haveHostToGuestPackets q) = to_guest q;
  (** the guest takes a prefix of the payload, all of it unless it has no
      buffer left *)
  send_size : forall q h data, queue_ok q -> len h = zlen data ->
    0 <= VirtIOVSockSentSize (fst (sendPacketHostToGuest q h data)) <= len h;
  send_done : forall q h data, queue_ok q -> len h = zlen data ->
    VirtIOVSockSendIsVqFull (fst (sendPacketHostToGuest q h data)) = false ->
    VirtIOVSockSentSize (fst (sendPacketHostToGuest q h data)) = len h;
  send_packets : forall q h data, queue_ok q -> len h = zlen data ->
    exists ps, to_guest (snd (sendPacketHostToGuest q h data)) = to_guest q ++ ps /\
      Forall (fun p => same_packet h (fst p) /\ len (fst p) = zlen (snd p)) ps /\
      concat (map snd ps) =
        take (Z.to_nat (VirtIOVSockSentSize (fst (sendPacketHostToGuest q h data)))) data;
  (** a packet without payload arrives exactly when the queue was not full *)
  send_control : forall q h, queue_ok q -> len h = 0 ->
    to_guest (snd (sendPacketHostToGuest q h [])) =
      to_guest q ++ (if VirtIOVSockSendIsVqFull (fst (sendPacketHostToGuest q h []))
                     then [] else [(h, [])]);
}.

(** ** Lemmas on the allocator *)

Module UniqueIdAllocatorFacts.
Import UniqueIdAllocator.

Abbreviation descending := (StronglySorted (fun x y : Z => y < x)).

Lemma elem_of_set_insert id l x : x ∈ set_insert id l <-> x = id \/ x ∈ l.
Proof.
  induction l as [|y l IH]; simpl; [set_solver|].
  destruct (Z.ltb_spec y id); [set_solver|]. destruct (Z.eqb_spec y id); set_solver.
Qed.

Lemma set_insert_descending id l : descending l -> descending (set_insert id l).
Proof.
  induction 1 as [|y l Hs IH Hy]; simpl; [by repeat constructor|].
  destruct (Z.ltb_spec y id).
  - constructor; [by constructor|]. constructor; [done|].
    eapply Forall_impl; [exact Hy|]. simpl. lia.
  - destruct (Z.eqb_spec y id); [by constructor|]. constructor; [done|].
    apply Forall_forall. intros x [->|Hx]%elem_of_set_insert; [lia|].
    rewrite Forall_forall in Hy. by apply Hy.
Qed.

Lemma descending_snoc l x :
  descending (l ++ [x]) -> descending l /\ Forall (fun y => x < y) l.
Proof.
  induction l as [|y l IH]; simpl; [by repeat constructor|]. intros H.
  apply StronglySorted_inv in H as [Hs Hy]. destruct (IH Hs) as [Hl Hx].
  apply Forall_app in Hy as [Hy1 Hy2]. split; constructor; try done. by inversion Hy2.
Qed.

Lemma get_ok a :
  ok a -> mLastId a < 2 ^ 31 - 1 ->
  let '(id, a') := get a in
  ok a' /\ ~ live a id /\ 1 <= id < 2 ^ 31 /\ (forall j, live a' j <-> live a j \/ j = id).
Proof.
  destruct a as [n l]. unfold ok, live, get. cbn [mLastId mReturnedIds]. intros (Hn & Hs & Hf) Hlt.
  destruct l as [|x l _] using rev_ind.
  - simpl. rewrite wrap_small by (unfold in_u; lia).
    split_and!; [lia|lia|constructor|constructor|lia|lia|lia|]. intros j.
    pose proof (not_elem_of_nil j). destruct (decide (j = n + 1)); intuition lia.
  - rewrite last_snoc, length_app, Nat.add_sub, take_app_length. simpl.
    apply descending_snoc in Hs as [Hs Hx]. apply Forall_app in Hf as [Hf Hfx].
    apply Forall_inv in Hfx. rewrite Forall_forall in Hx.
    assert (x ∉ l) by (intros Hin; specialize (Hx x Hin); lia).
    split_and!; [lia|lia|done|done|set_solver|lia|lia|]. intros j.
    rewrite elem_of_app, list_elem_of_singleton.
    destruct (decide (j = x)) as [->|]; intuition lia.
Qed.

Lemma shrink_ok n l :
  0 <= n < 2 ^ 31 -> descending l -> Forall (fun id => 1 <= id <= n) l ->
  ok (shrink n l) /\ (forall j, live (shrink n l) j <-> 1 <= j <= n /\ j ∉ l).
Proof.
  intros Hn Hs. revert n Hn. induction Hs as [|x l Hs IH Hx]; intros n Hn Hf; simpl.
  - split; [unfold ok; cbn; split_and!; try lia; constructor|]. intros j. unfold live. simpl. done.
  - apply Forall_cons in Hf as [Hxn Hf]. rewrite Forall_forall in Hx, Hf.
    destruct (Z.eqb_spec x n) as [->|Hne].
    + rewrite wrap_small by (unfold in_u; lia). destruct (IH (n - 1)) as [Hok Hl]; [lia| |].
      { apply Forall_forall. intros y Hy. specialize (Hx y Hy). specialize (Hf y Hy). lia. }
      split; [done|]. intros j. rewrite Hl. split.
      * intros [Hj Hnin]. split; [lia|]. set_solver by lia.
      * intros [Hj Hnin]. split; [|set_solver]. assert (j <> n) by set_solver. lia.
    + split; [|done]. unfold ok. cbn. split_and!; [lia|lia|by constructor; [|apply Forall_forall]|].
      apply Forall_forall. intros y [->|Hy]%elem_of_cons; [lia|].
      specialize (Hx y Hy). specialize (Hf y Hy). lia.
Qed.

Lemma put_ok a id :
  ok a -> live a id ->
  exists a', put a id = Some a' /\ ok a' /\ (forall j, live a' j <-> live a j /\ j <> id).
Proof.
  destruct a as [n l]. unfold put. cbn [mLastId mReturnedIds].
  intros (Hn & Hs & Hf) [Hid Hnin]. cbn [mLastId mReturnedIds] in *.
  destruct (Z.eqb_spec id n) as [->|Hne].
  - eexists. split; [done|]. rewrite wrap_small by (unfold in_u; lia).
    destruct (shrink_ok (n - 1) l) as [Hok Hl]; [lia|done| |].
    { eapply Forall_impl; [exact Hf|]. simpl. lia. }
    split; [done|]. intros j. rewrite Hl. unfold live. simpl.
    split; intros ([? ?] & ?); split_and?; try done; lia.
  - rewrite (proj2 (Z.ltb_lt id n)) by lia. eexists. split; [done|].
    unfold ok, live. cbn. split_and!; [lia|lia|by apply set_insert_descending| |].
    + apply Forall_forall. intros x [->|Hx]%elem_of_set_insert; [lia|].
      rewrite Forall_forall in Hf. by apply Hf.
    + intros j. rewrite elem_of_set_insert. set_solver.
Qed.

(** A returned id is below the last one, so it is reused before a new one. *)
Lemma init_ok : ok init /\ (forall j, ~ live init j).
Proof. split; [unfold ok; cbn; split_and!; try lia; constructor|]. unfold live. simpl. lia. Qed.

End UniqueIdAllocatorFacts.

(** ** Lemmas on the byte queue *)

Module SocketBufferFacts.
Import SocketBuffer.

Lemma peek_append b data : ok b -> peek (append b data) = peek b ++ data /\ ok (append b data).
Proof.
  destruct b as [buf n]. unfold ok, peek, append. cbn. intros Hn.
  destruct (Z.ltb_spec 0 n); cbn.
  - rewrite drop_0. split; [done|]. pose proof (zlen_nonneg (drop (Z.to_nat n) buf ++ data)). lia.
  - assert (n = 0) as -> by lia. rewrite !drop_0. split; [done|].
    pose proof (zlen_nonneg (buf ++ data)). lia.
Qed.

Lemma zlen_peek b : ok b -> zlen (peek b) = zlen (mBuf b) - mConsumed b.
Proof. unfold ok, peek, zlen. rewrite length_drop. lia. Qed.

Lemma consume_peek b n :
  ok b -> 0 <= n <= zlen (peek b) ->
  exists b', consume b n = Some b' /\ ok b' /\ peek b' = drop (Z.to_nat n) (peek b).
Proof.
  intros Hok Hn. rewrite zlen_peek in Hn by done. destruct b as [buf c].
  unfold ok, peek, consume in *. cbn in *.
  rewrite (proj2 (Z.leb_le _ _)) by lia. eexists. split; [done|]. cbn. split; [lia|].
  rewrite drop_drop. f_equal. lia.
Qed.

End SocketBufferFacts.

(** ** Lemmas on the stream set *)

Definition streams_sorted (l : Streams) : Prop :=
  StronglySorted (fun a b => key_ltb (stream_key a) (stream_key b) = true) l.

Lemma key_eqb_eq a b : key_eqb a b = true <-> a = b.
Proof.
  destruct a, b. unfold key_eqb. simpl. rewrite andb_true_iff, !Z.eqb_eq. naive_solver.
Qed.

Lemma key_eqb_spec a b : reflect (a = b) (key_eqb a b).
Proof. apply iff_reflect. symmetry. apply key_eqb_eq. Qed.

Lemma key_ltb_lt a b : key_ltb a b = true <-> a.1 < b.1 \/ a.1 = b.1 /\ a.2 < b.2.
Proof. unfold key_ltb. case_cmp; split; intros; try done; lia. Qed.

Lemma key_ltb_irrefl a : key_ltb a a = false.
Proof. apply not_true_iff_false. rewrite key_ltb_lt. lia. Qed.

Lemma key_ltb_trans a b c : key_ltb a b = true -> key_ltb b c = true -> key_ltb a c = true.
Proof. rewrite !key_ltb_lt. lia. Qed.

Lemma streams_find_Some k l s : streams_find k l = Some s -> s ∈ l /\ stream_key s = k.
Proof.
  induction l as [|x l IH]; simpl; [done|]. destruct (key_eqb_spec (stream_key x) k).
  - intros [= ->]. set_solver.
  - intros H. destruct (IH H). set_solver.
Qed.

Lemma streams_find_key k l s :
  streams_find k l = Some s -> is_Some (streams_find (stream_key s) l).
Proof. intros E. destruct (streams_find_Some _ _ _ E) as [_ ->]. eauto. Qed.

Lemma streams_find_None k l : streams_find k l = None <-> forall s, s ∈ l -> stream_key s <> k.
Proof.
  induction l as [|x l IH]; simpl; [set_solver|]. destruct (key_eqb_spec (stream_key x) k).
  - split; [done|]. intros H. exfalso. apply (H x); set_solver.
  - rewrite IH. set_solver.
Qed.

Lemma streams_sorted_head s l x :
  streams_sorted (s :: l) -> x ∈ l -> stream_key x <> stream_key s.
Proof.
  intros [_ H]%StronglySorted_inv Hx E. rewrite Forall_forall in H. specialize (H x Hx).
  rewrite E, key_ltb_irrefl in H. done.
Qed.

Lemma streams_find_elem k l s :
  streams_sorted l -> s ∈ l -> stream_key s = k -> streams_find k l = Some s.
Proof.
  intros Hs. induction l as [|x l IH]; intros Hin Hk; [set_solver|]. simpl.
  destruct (key_eqb_spec (stream_key x) k) as [E|E].
  - apply elem_of_cons in Hin as [->|Hin]; [done|]. exfalso.
    apply (streams_sorted_head x l s); congruence.
  - apply elem_of_cons in Hin as [->|Hin]; [done|]. apply IH; [|done|done].
    by apply StronglySorted_inv in Hs as [? _].
Qed.

Lemma elem_of_streams_insert s l x :
  streams_find (stream_key s) l = None ->
  x ∈ streams_insert s l <-> x = s \/ x ∈ l.
Proof.
  intros Hf. rewrite streams_find_None in Hf.
  induction l as [|y l IH]; simpl; [set_solver|].
  destruct (key_ltb _ _); [set_solver|].
  destruct (key_eqb_spec (stream_key y) (stream_key s)) as [E|E].
  - exfalso. apply (Hf y); [apply elem_of_cons; by left|done].
  - rewrite !elem_of_cons, IH; [tauto|]. intros z Hz. apply Hf, elem_of_cons. by right.
Qed.

Lemma streams_insert_sorted s l :
  streams_find (stream_key s) l = None -> streams_sorted l -> streams_sorted (streams_insert s l).
Proof.
  intros Hf Hs. induction l as [|y l IH]; simpl; [repeat constructor|].
  apply StronglySorted_inv in Hs as [Hs Hy]. cbn [streams_find] in Hf.
  destruct (key_ltb (stream_key s) (stream_key y)) eqn:E.
  - constructor; [by constructor|]. constructor; [done|]. eapply Forall_impl; [exact Hy|].
    intros x Hx. by eapply key_ltb_trans.
  - destruct (key_eqb_spec (stream_key y) (stream_key s)) as [Ek|Ek]; [done|].
    constructor; [by apply IH|]. apply Forall_forall. intros x.
    rewrite elem_of_streams_insert by done. rewrite Forall_forall in Hy.
    intros [->|Hx]; [|by apply Hy].
    apply not_true_iff_false in E. rewrite key_ltb_lt in *.
    unfold stream_key in *. simpl in *.
    assert (guestPort y <> guestPort s \/ hostPort y <> hostPort s) by
      (destruct (decide (guestPort y = guestPort s)); [right; congruence|by left]). lia.
Qed.

Lemma elem_of_streams_erase k l x :
  streams_sorted l -> x ∈ streams_erase k l <-> x ∈ l /\ stream_key x <> k.
Proof.
  induction l as [|y l IH]; intros Hs; simpl; [set_solver|].
  destruct (key_eqb_spec (stream_key y) k) as [E|E].
  - pose proof (streams_sorted_head y l x Hs). set_solver.
  - apply StronglySorted_inv in Hs as [Hs _]. rewrite !elem_of_cons, (IH Hs). set_solver.
Qed.

Lemma streams_erase_sorted k l : streams_sorted l -> streams_sorted (streams_erase k l).
Proof.
  induction l as [|y l IH]; intros Hs; simpl; [done|].
  destruct (key_eqb (stream_key y) k); [by apply StronglySorted_inv in Hs as [? _]|].
  pose proof Hs as [Hl Hy]%StronglySorted_inv. constructor; [by apply IH|].
  apply Forall_forall. intros x Hx. apply elem_of_streams_erase in Hx as [Hx _]; [|done].
  rewrite Forall_forall in Hy. by apply Hy.
Qed.

(** Updates keep the key. *)
Definition keeps_key (f : VsockStream -> VsockStream) : Prop :=
  forall s, stream_key (f s) = stream_key s.

Lemma streams_erase_update k f l :
  keeps_key f -> streams_erase k (streams_update k f l) = streams_erase k l.
Proof.
  intros Hf. induction l as [|y l IH]; simpl; [done|].
  destruct (key_eqb (stream_key y) k) eqn:E; simpl; [by rewrite Hf, E|by rewrite E, IH].
Qed.

Lemma streams_update_keys k f l :
  keeps_key f -> map stream_key (streams_update k f l) = map stream_key l.
Proof.
  intros Hf. induction l as [|y l IH]; simpl; [done|].
  destruct (key_eqb (stream_key y) k); simpl; [by rewrite Hf|by rewrite IH].
Qed.

Lemma streams_sorted_keys l1 l2 :
  map stream_key l1 = map stream_key l2 -> streams_sorted l1 -> streams_sorted l2.
Proof.
  revert l2. induction l1 as [|x l1 IH]; intros [|y l2] E Hs; try done.
  cbn [map] in E. assert (stream_key x = stream_key y) as E1 by congruence.
  assert (map stream_key l1 = map stream_key l2) as E2 by congruence.
  apply StronglySorted_inv in Hs as [Hs Hx].
  constructor; [by apply IH|]. apply Forall_forall. intros z Hz.
  apply (list_elem_of_fmap_2 stream_key) in Hz. change (stream_key <$> l2) with (map stream_key l2) in Hz.
  rewrite <- E2 in Hz. apply list_elem_of_fmap in Hz as (z' & Ez & Hz').
  rewrite Forall_forall in Hx. rewrite <- E1, Ez. by apply Hx.
Qed.

Lemma elem_of_streams_update k f l x :
  x ∈ streams_update k f l -> x ∈ l \/ exists s, s ∈ l /\ stream_key s = k /\ x = f s.
Proof.
  induction l as [|y l IH]; simpl; [set_solver|].
  destruct (key_eqb_spec (stream_key y) k); set_solver.
Qed.

Lemma streams_find_keys k l1 l2 :
  map stream_key l1 = map stream_key l2 ->
  is_Some (streams_find k l1) <-> is_Some (streams_find k l2).
Proof.
  revert l2. induction l1 as [|x l1 IH]; intros [|y l2] E; try done.
  cbn [map streams_find] in *. assert (stream_key x = stream_key y) as -> by congruence.
  destruct (key_eqb _ _); [|apply IH; congruence].
  split; eauto.
Qed.

Lemma streams_find_update k f l :
  keeps_key f -> streams_find k (streams_update k f l) = f <$> streams_find k l.
Proof.
  intros Hf. induction l as [|y l IH]; simpl; [done|].
  destruct (key_eqb (stream_key y) k) eqn:E; simpl; [by rewrite Hf, E|by rewrite E].
Qed.

Lemma streams_update_length k f l : length (streams_update k f l) = length l.
Proof. induction l as [|y l IH]; cbn; [done|]. destruct (key_eqb _ _); cbn; congruence. Qed.

Lemma streams_insert_length s l : (length (streams_insert s l) <= S (length l))%nat.
Proof.
  induction l as [|y l IH]; cbn; [lia|].
  destruct (key_ltb _ _); [cbn; lia|]. destruct (key_eqb _ _); cbn; lia.
Qed.

Lemma streams_erase_length k l : (length (streams_erase k l) <= length l)%nat.
Proof. induction l as [|y l IH]; cbn; [lia|]. destruct (key_eqb _ _); cbn; lia. Qed.
