(* ===== verification/VsockDevice.v ===== *)
(** * The vsock device: its operations

    Models [GoldfishVirtioVsockDevice] of
    [emulator/plugin/vsock_goldfish/vsock.cpp]: the packets of the guest
    ([onPacketReceiveControl], [onPacketReceiveRw*]), the calls of the plugs
    ([connect], [listen], [sendAsyncImpl], [unplugFromDevice]), sending
    ([sendPacketsLocked]), reset ([setStatus]) and snapshots.  [None] is the
    failure of an assertion or the use of an object that is gone. *)

From S2P Require Import Prelude.
From S2P Require Import Archive.
From S2P Require Import Cable.
From S2P Require Import VsockState.

Definition kHostBufAllocSize : Z := 64 * 1024.

Definition VIRTIO_CONFIG_S_NEEDS_RESET : Z := 64.
Definition VIRTIO_CONFIG_S_FAILED : Z := 128.

Record Dev {Q P : Type} := {
  mQueue : Q;                       (* mQemuDev, mQemuDevApi *)
  mWorld : P;                       (* the plugs, listeners and sniffers *)
  mHostPortListeners : gmap Z Z;
  mSrcPortAllocator : UniqueIdAllocator.t;
  mOrphanPackets : list virtio_vsock_hdr;
  mHostEvents : list Z;
  mStreams : Streams;
}.
Arguments Dev : clear implicits.

(** ** Packets *)

(** [preparePacketHeaderLocked] with explicit fields. *)
Definition preparePacketHeader (srcPort dstPort o hostFwd length : Z) : virtio_vsock_hdr :=
  {| src_port := srcPort; dst_port := dstPort; len := length; op := o;
     buf_alloc := kHostBufAllocSize; fwd_cnt := hostFwd |}.

Definition prepareStreamHeader (s : VsockStream) (o length : Z) : virtio_vsock_hdr :=
  preparePacketHeader (hostPort s) (guestPort s) o (hostFwdCnt s) length.

(** The free space of the guest's buffer: [uint32_t] arithmetic. *)
Definition guestAvailSize (s : VsockStream) : Z :=
  u32 (guestBufAlloc s - u32 (hostSentCnt s - guestFwdCnt s)).

Definition send_ops_order : list Z :=
  [OP_REQUEST; OP_RESPONSE; OP_CREDIT_UPDATE; OP_CREDIT_REQUEST].

Section sending.
Context {Q : Type} `{Transport Q}.

(** [while (!mOrphanPackets.empty())]: the first result is true when the queue
    filled up and the caller returns. *)
Fixpoint send_orphans (q : Q) (orphans : list virtio_vsock_hdr) (needNotify : bool)
    : bool * bool * list virtio_vsock_hdr * Q :=
  match orphans with
  | [] => (false, needNotify, [], q)
  | h :: rest =>
      let '(r, q) := sendPacketHostToGuest q h [] in
      let needNotify := needNotify || VirtIOVSockSendNeedNotify r in
      if VirtIOVSockSendIsVqFull r then (true, needNotify, orphans, q)
      else send_orphans q rest needNotify
  end.

(** [for (const auto op : ops)]: the third result is the local mask. *)
Fixpoint send_ops (q : Q) (s : VsockStream) (ops : list Z) (mask : Z) (needNotify : bool)
    : bool * bool * Z * Q :=
  match ops with
  | [] => (false, needNotify, mask, q)
  | o :: ops =>
      if negb (Z.land mask (Z.shiftl 1 o) =? 0) then
        let '(r, q) := sendPacketHostToGuest q (prepareStreamHeader s o 0) [] in
        let needNotify := needNotify || VirtIOVSockSendNeedNotify r in
        if VirtIOVSockSendIsVqFull r then (true, needNotify, mask, q)
        else send_ops q s ops (Z.ldiff mask (Z.shiftl 1 o)) needNotify
      else send_ops q s ops mask needNotify
  end.

(** [while (guestAvailSize > 0)]; [None] when the fuel runs out or
    [SocketBuffer::consume] fails its assertion. *)
Fixpoint send_data (fuel : nat) (q : Q) (s : VsockStream) (avail : Z) (needNotify : bool)
    : option (bool * bool * VsockStream * Q) :=
  match fuel with
  | O => None
  | S fuel =>
      if 0 <? avail then
        let chunk := SocketBuffer.peek (hostToGuestBuf s) in
        if zlen chunk =? 0 then Some (false, needNotify, s, q)
        else
          let sendSize := Z.min (zlen chunk) avail in
          let '(r, q) := sendPacketHostToGuest q (prepareStreamHeader s OP_RW sendSize)
                           (take (Z.to_nat sendSize) chunk) in
          let sentSize := VirtIOVSockSentSize r in
          match SocketBuffer.consume (hostToGuestBuf s) sentSize with
          | None => None
          | Some buf =>
              let s := set_hostSentCnt (u32 (hostSentCnt s + sentSize)) (set_buf buf s) in
              let needNotify := needNotify || VirtIOVSockSendNeedNotify r in
              if VirtIOVSockSendIsVqFull r then Some (true, needNotify, s, q)
              else send_data fuel q s (u64 (avail - sentSize)) needNotify
          end
      else Some (false, needNotify, s, q)
  end.

(** The body of the loop over the streams. *)
Definition send_stream (q : Q) (s : VsockStream) (needNotify : bool)
    : option (bool * bool * VsockStream * Q) :=
  let avail := guestAvailSize s in
  let mask := Z.lor (sendOpMask s)
                (if avail =? 0 then Z.shiftl 1 OP_CREDIT_REQUEST else 0) in
  if negb (mask =? 0) then
    let '(full, needNotify, mask, q) := send_ops q s send_ops_order mask needNotify in
    if full then Some (true, needNotify, set_sendOpMask (u8 mask) s, q)
    else send_data 3 q (set_sendOpMask 0 s) avail needNotify
  else send_data 3 q s avail needNotify.

Fixpoint send_streams (q : Q) (l : Streams) (needNotify : bool)
    : option (bool * bool * Streams * Q) :=
  match l with
  | [] => Some (false, needNotify, [], q)
  | s :: l =>
      match send_stream q s needNotify with
      | None => None
      | Some (true, needNotify, s, q) => Some (true, needNotify, s :: l, q)
      | Some (false, needNotify, s, q) =>
          match send_streams q l needNotify with
          | None => None
          | Some (full, needNotify, l, q) => Some (full, needNotify, s :: l, q)
          end
      end
  end.

End sending.

Section device.
Context {Q P : Type} `{Transport Q} `{PlugWorld P}.
Abbreviation dev := (Dev Q P).

Definition with_queue (q : Q) (d : dev) : dev :=
  {| mQueue := q; mWorld := mWorld d; mHostPortListeners := mHostPortListeners d;
     mSrcPortAllocator := mSrcPortAllocator d; mOrphanPackets := mOrphanPackets d;
     mHostEvents := mHostEvents d; mStreams := mStreams d |}.

Definition with_world (w : P) (d : dev) : dev :=
  {| mQueue := mQueue d; mWorld := w; mHostPortListeners := mHostPortListeners d;
     mSrcPortAllocator := mSrcPortAllocator d; mOrphanPackets := mOrphanPackets d;
     mHostEvents := mHostEvents d; mStreams := mStreams d |}.

Definition with_listeners (m : gmap Z Z) (d : dev) : dev :=
  {| mQueue := mQueue d; mWorld := mWorld d; mHostPortListeners := m;
     mSrcPortAllocator := mSrcPortAllocator d; mOrphanPackets := mOrphanPackets d;
     mHostEvents := mHostEvents d; mStreams := mStreams d |}.

Definition with_allocator (a : UniqueIdAllocator.t) (d : dev) : dev :=
  {| mQueue := mQueue d; mWorld := mWorld d; mHostPortListeners := mHostPortListeners d;
     mSrcPortAllocator := a; mOrphanPackets := mOrphanPackets d;
     mHostEvents := mHostEvents d; mStreams := mStreams d |}.

Definition with_orphans (l : list virtio_vsock_hdr) (d : dev) : dev :=
  {| mQueue := mQueue d; mWorld := mWorld d; mHostPortListeners := mHostPortListeners d;
     mSrcPortAllocator := mSrcPortAllocator d; mOrphanPackets := l;
     mHostEvents := mHostEvents d; mStreams := mStreams d |}.

Definition with_streams (l : Streams) (d : dev) : dev :=
  {| mQueue := mQueue d; mWorld := mWorld d; mHostPortListeners := mHostPortListeners d;
     mSrcPortAllocator := mSrcPortAllocator d; mOrphanPackets := mOrphanPackets d;
     mHostEvents := mHostEvents d; mStreams := l |}.

Definition with_events (l : list Z) (d : dev) : dev :=
  {| mQueue := mQueue d; mWorld := mWorld d; mHostPortListeners := mHostPortListeners d;
     mSrcPortAllocator := mSrcPortAllocator d; mOrphanPackets := mOrphanPackets d;
     mHostEvents := l; mStreams := mStreams d |}.

Definition update_stream (k : skey) (f : VsockStream -> VsockStream) (d : dev) : dev :=
  with_streams (streams_update k f (mStreams d)) d.

Definition queueOrphan (h : virtio_vsock_hdr) (d : dev) : dev :=
  with_orphans (mOrphanPackets d ++ [h]) d.

(** ** Sending *)

Definition sendPacketsLocked (d : dev) : option (bool * dev) :=
  let '(full, needNotify, orphans, q) := send_orphans (mQueue d) (mOrphanPackets d) false in
  let d := with_queue q (with_orphans orphans d) in
  if full then Some (needNotify, d)
  else
    match send_streams (mQueue d) (mStreams d) needNotify with
    | None => None
    | Some (_, needNotify, streams, q) => Some (needNotify, with_queue q (with_streams streams d))
    end.

Definition sendPackets (d : dev) : option (bool * dev) := sendPacketsLocked d.

Definition sendPacketsAndNotifyLocked (d : dev) : option dev :=
  match sendPacketsLocked d with
  | None => None
  | Some (true, d) => Some (with_queue (haveHostToGuestPackets (mQueue d)) d)
  | Some (false, d) => Some d
  end.

(** [sendEvents] has nothing to send. *)
Definition sendEvents (d : dev) : bool * dev := (false, d).

(** ** Retiring a stream; the caller erases it *)

Definition recycleStreamLocked (s : VsockStream) (callOnUnplug : bool) (o : Z) (d : dev)
    : option dev :=
  d ← (if callOnUnplug then
         p ← plug s; Some (with_world (plug_onUnplug p (mWorld d)) d)
       else Some d);
  let d := if negb (o =? OP_INVALID) then queueOrphan (prepareStreamHeader s o 0) d else d in
  if kDynamicPortsStart <=? hostPort s then
    a ← UniqueIdAllocator.put (mSrcPortAllocator d) (hostPort s - kDynamicPortsStart);
    Some (with_allocator a d)
  else Some d.

Definition recycle_and_erase (s : VsockStream) (o : Z) (d : dev) : option dev :=
  d ← recycleStreamLocked s true o d;
  Some (with_streams (streams_erase (stream_key s) (mStreams d)) d).

(** ** The calls of the plugs *)

Definition connect (guest : Z) (p : plug_id) (d : dev) : option (skey * dev) :=
  let '(id, a) := UniqueIdAllocator.get (mSrcPortAllocator d) in
  let d := with_allocator a d in
  let k := (guest, u32 (id + kDynamicPortsStart)) in
  match streams_find k (mStreams d) with
  | Some _ => None                                  (* assert(inserted) *)
  | None =>
      let s := sendOp OP_REQUEST (set_plug (Some p) (new_stream k)) in
      d ← sendPacketsAndNotifyLocked (with_streams (streams_insert s (mStreams d)) d);
      Some (k, d)
  end.

Definition listen (host : Z) (listener : Z) (d : dev) : bool * dev :=
  match mHostPortListeners d !! host with
  | Some _ => (false, d)
  | None => (true, with_listeners (<[host := listener]> (mHostPortListeners d)) d)
  end.

(** [VsockStream::sendAsync]; the socket must be there. *)
Definition sendAsyncImpl (k : skey) (data : bytes) (d : dev) : option dev :=
  s ← streams_find k (mStreams d);
  if isConnected s then
    let d := match dataSniffer s with
             | Some n => with_world (sniffer_toSocket n data (mWorld d)) d
             | None => d
             end in
    sendPacketsAndNotifyLocked
      (update_stream k (fun s => set_buf (SocketBuffer.append (hostToGuestBuf s) data) s) d)
  else Some d.

Definition unplugFromDevice (s : VsockStream) (d : dev) : option dev :=
  d ← recycleStreamLocked s false OP_SHUTDOWN d;
  sendPacketsAndNotifyLocked (with_streams (streams_erase (stream_key s) (mStreams d)) d).

(** [VsockStream::unplugImpl]: takes the plug out first. *)
Definition unplugImpl (k : skey) (d : dev) : option (plug_id * dev) :=
  s ← streams_find k (mStreams d);
  p ← plug s;
  d ← unplugFromDevice (set_plug None s) d;
  Some (p, d).

Definition switchPlug (k : skey) (p : plug_id) (d : dev) : option dev :=
  s ← streams_find k (mStreams d);
  Some (update_stream k (set_plug (Some p)) d).

Definition setDataSniffer (k : skey) (n : Z) (d : dev) : option dev :=
  s ← streams_find k (mStreams d);
  Some (update_stream k (set_sniffer (Some n)) d).

Definition do_client_call (c : client_call) (d : dev) : option dev :=
  match c with
  | CSend k data => sendAsyncImpl k data d
  | CUnplug k => r ← unplugImpl k d; Some r.2
  | CSwitchPlug k p => switchPlug k p d
  | CSetSniffer k n => setDataSniffer k n d
  | CConnect guest p => r ← connect guest p d; Some r.2
  | CListen host l => Some (listen host l d).2
  end.

Fixpoint do_client_calls (cs : list client_call) (d : dev) : option dev :=
  match cs with
  | [] => Some d
  | c :: cs => d ← do_client_call c d; do_client_calls cs d
  end.

(** [NOT_NULL(stream.plug)->onConnect()] and the calls it makes. *)
Definition call_onConnect (p : plug_id) (d : dev) : option dev :=
  let '(w, cs) := plug_onConnect p (mWorld d) in
  do_client_calls cs (with_world w d).

(** ** Packets from the guest *)

Definition processPacketOpRequestLocked (h : virtio_vsock_hdr) (d : dev) : option (bool * dev) :=
  let host := dst_port h in
  match mHostPortListeners d !! host with
  | Some listener =>
      let k := (src_port h, host) in
      match streams_find k (mStreams d) with
      | None =>
          let d := with_streams (streams_insert (new_stream k) (mStreams d)) d in
          let '(r, w) := listener_call listener k (mWorld d) in
          let d := with_world w d in
          match r with
          | Some p =>
              let d := update_stream k
                (fun s => sendOp OP_RESPONSE (set_isConnected true
                   (set_guest_counters h (set_plug (Some p) s)))) d in
              d ← call_onConnect p d;
              Some (true, d)
          | None => Some (false, with_streams (streams_erase k (mStreams d)) d)
          end
      | Some _ => Some (true, d)                    (* duplicate request *)
      end
  | None => Some (false, d)
  end.

(** The [RST] that answers [request]. *)
Definition queueOrphanReply (request : virtio_vsock_hdr) (o : Z) (d : dev) : dev :=
  queueOrphan (preparePacketHeader (dst_port request) (src_port request) o 0 0) d.

Definition onPacketReceiveControl (h : virtio_vsock_hdr) (d : dev) : option dev :=
  if op h =? OP_REQUEST then
    r ← processPacketOpRequestLocked h d;
    if (r.1 : bool) then Some r.2 else Some (queueOrphanReply h OP_RST r.2)
  else
    let k := (src_port h, dst_port h) in
    match streams_find k (mStreams d) with
    | Some s =>
        let d := update_stream k (set_guest_counters h) d in
        let s := set_guest_counters h s in
        if op h =? OP_RESPONSE then
          let d := update_stream k (set_isConnected true) d in
          p ← plug s; call_onConnect p d
        else if op h =? OP_RST then recycle_and_erase s OP_INVALID d
        else if op h =? OP_SHUTDOWN then recycle_and_erase s OP_SHUTDOWN d
        else if op h =? OP_CREDIT_UPDATE then Some d
        else if op h =? OP_CREDIT_REQUEST then Some (update_stream k (sendOp OP_CREDIT_UPDATE) d)
        else recycle_and_erase s OP_RST d
    | None =>
        if negb (op h =? OP_RST) then Some (queueOrphanReply h OP_RST d) else Some d
    end.

(** The stream of an [OP_RW] packet; the pointer is the stream's key. *)
Definition onPacketReceiveRwStart (h : virtio_vsock_hdr) (d : dev) : option skey * dev :=
  let k := (src_port h, dst_port h) in
  match streams_find k (mStreams d) with
  | Some _ => (Some k, update_stream k (set_guest_counters h) d)
  | None => (None, d)
  end.

(** 0 when the plug took the data.  The counters are updated through the
    reference held across the callback, so the stream must still be there. *)
Definition onPacketReceiveRw (k : skey) (data : bytes) (d : dev) : option (Z * dev) :=
  s ← streams_find k (mStreams d);
  if isConnected s then
    let d := match dataSniffer s with
             | Some n => with_world (sniffer_toPlug n data (mWorld d)) d
             | None => d
             end in
    p ← plug s;
    let '(ok, w, cs) := plug_onReceive p data (mWorld d) in
    d ← do_client_calls cs (with_world w d);
    if (ok : bool) then
      _ ← streams_find k (mStreams d);
      Some (0, update_stream k
        (fun s => sendOp OP_CREDIT_UPDATE (set_hostFwdCnt (u32 (hostFwdCnt s + zlen data)) s)) d)
    else Some (1, d)
  else Some (1, d).

Definition onPacketReceiveRwEnd (k : skey) (eraseStream : Z) (d : dev) : option dev :=
  if negb (eraseStream =? 0) then
    s ← streams_find k (mStreams d);
    recycle_and_erase s OP_SHUTDOWN d
  else Some d.

(** The caller's loop over the pieces of one packet
    ([virtio_vsock_parse_guest_to_host] of [vsock_low_level.c]). *)
Fixpoint receive_rw_pieces (k : skey) (pieces : list bytes) (d : dev) : option (Z * dev) :=
  match pieces with
  | [] => Some (0, d)
  | data :: pieces =>
      if zlen data =? 0 then receive_rw_pieces k pieces d
      else
        r ← onPacketReceiveRw k data d;
        if negb (r.1 =? 0) then Some r else receive_rw_pieces k pieces r.2
  end.

Definition receive_rw (h : virtio_vsock_hdr) (pieces : list bytes) (d : dev) : option dev :=
  match onPacketReceiveRwStart h d with
  | (None, d) => Some d
  | (Some k, d) =>
      r ← receive_rw_pieces k pieces d;
      onPacketReceiveRwEnd k r.1 r.2
  end.

(** ** Reset *)

Fixpoint unplug_all (l : Streams) (w : P) : option P :=
  match l with
  | [] => Some w
  | s :: l => p ← plug s; unplug_all l (plug_onUnplug p w)
  end.

Definition setStatus (status : Z) (d : dev) : option dev :=
  if negb (Z.land status VIRTIO_CONFIG_S_FAILED =? 0) then None
  else if negb (Z.land status VIRTIO_CONFIG_S_NEEDS_RESET =? 0) then
    w ← unplug_all (mStreams d) (mWorld d);
    Some (with_allocator (UniqueIdAllocator.reset (mSrcPortAllocator d))
            (with_orphans [] (with_events [] (with_world w d))))
  else Some d.

End device.
