(* ===== verification/VsockFacts.v ===== *)
(** * The vsock device: lemmas

    What one pass of sending does: the control operations and the data of one
    stream, the passes over the streams and over the orphan packets. *)

From S2P Require Import Prelude.
From S2P Require Import Archive.
From S2P Require Import Cable.
From S2P Require Import VsockState.
From S2P Require Import VsockDevice.

(** ** Definitions used in the statements *)

(** A stream whose fields are in the ranges of their C++ types. *)
Definition stream_ok (s : VsockStream) : Prop :=
  SocketBuffer.ok (hostToGuestBuf s) /\ in_u 32 (guestBufAlloc s) /\ in_u 32 (guestFwdCnt s) /\
  in_u 32 (hostSentCnt s) /\ in_u 32 (hostFwdCnt s) /\ in_u 8 (sendOpMask s).

(** The operations of [ops] whose bit is set in [mask], in order. *)
Definition pending (mask : Z) (ops : list Z) : list Z := filter (fun o => Z.testbit mask o = true) ops.

(** The mask [sendPacketsLocked] works with: a stream without credit asks for
    it. *)
Definition effective_mask (s : VsockStream) : Z :=
  Z.lor (sendOpMask s)
    (if guestAvailSize s =? 0 then Z.shiftl 1 OP_CREDIT_REQUEST else 0).

(** The control packet for an operation of a stream. *)
Definition control_packet (s : VsockStream) (o : Z) : virtio_vsock_hdr * bytes :=
  (prepareStreamHeader s o 0, []).

(** Packets that carry data of the stream [s]. *)
Definition data_packet (s : VsockStream) (p : virtio_vsock_hdr * bytes) : Prop :=
  same_packet (prepareStreamHeader s OP_RW 0) (fst p) /\ len (fst p) = zlen (snd p).

(** What sending on the stream [s] has done when [sent] bytes of its queue
    were taken by the guest. *)
Definition sent_data (s s' : VsockStream) (sent : Z) (ps : list (virtio_vsock_hdr * bytes)) : Prop :=
  Forall (data_packet s) ps /\
  concat (map snd ps) = take (Z.to_nat sent) (SocketBuffer.peek (hostToGuestBuf s)) /\
  SocketBuffer.peek (hostToGuestBuf s') =
    drop (Z.to_nat sent) (SocketBuffer.peek (hostToGuestBuf s)) /\
  0 <= sent <= zlen (SocketBuffer.peek (hostToGuestBuf s)) /\
  hostSentCnt s' = u32 (hostSentCnt s + sent).

(** The fields sending leaves alone. *)
Definition same_stream (s s' : VsockStream) : Prop :=
  guestPort s' = guestPort s /\ hostPort s' = hostPort s /\ plug s' = plug s /\
  dataSniffer s' = dataSniffer s /\ guestBufAlloc s' = guestBufAlloc s /\
  guestFwdCnt s' = guestFwdCnt s /\ hostFwdCnt s' = hostFwdCnt s /\
  isConnected s' = isConnected s.

(** Everything one pass of [sendPacketsLocked] does with a stream: the packets
    [ps] it gave the guest and the stream afterwards. *)
Definition stream_sent (s s' : VsockStream) (ps : list (virtio_vsock_hdr * bytes)) : Prop :=
  exists ctl dat sent,
    ps = map (control_packet s) ctl ++ dat /\
    pending (effective_mask s) send_ops_order = ctl ++ pending (sendOpMask s') send_ops_order /\
    sent_data s s' sent dat /\ sent <= guestAvailSize s /\
    (dat <> [] -> sendOpMask s' = 0).

(** Nothing is left to send: no operation, and of the data what the guest's free space holds is gone. *)
Definition drained (s s' : VsockStream) : Prop :=
  sendOpMask s' = 0 /\
  SocketBuffer.peek (hostToGuestBuf s') = drop (Z.to_nat (guestAvailSize s)) (SocketBuffer.peek (hostToGuestBuf s)).

(** The queue as a packet left it that the guest had no buffers for. *)
Definition refused {Q} `{Transport Q} (q' : Q) : Prop :=
  exists q h data r, sendPacketHostToGuest q h data = (r, q') /\ VirtIOVSockSendIsVqFull r = true.

(** ** Bits of the operation mask *)

Lemma ldiff_bit mask o i :
  0 <= o -> 0 <= i ->
  Z.testbit (Z.ldiff mask (Z.shiftl 1 o)) i = Z.testbit mask i && negb (o =? i).
Proof. intros. by rewrite Z.ldiff_spec, Z.shiftl_1_l, Z.pow2_bits_eqb. Qed.

Lemma pending_ext mask1 mask2 ops :
  (forall o, o ∈ ops -> Z.testbit mask1 o = Z.testbit mask2 o) ->
  pending mask1 ops = pending mask2 ops.
Proof.
  unfold pending. induction ops as [|o ops IH]; intros Heq; [done|].
  rewrite !filter_cons, IH by set_solver. by rewrite Heq by set_solver.
Qed.

Lemma sendOp_mask_ok mask o : in_u 8 (u8 (Z.lor mask (Z.shiftl 1 o))).
Proof. apply wrap_range. lia. Qed.

Lemma guestAvailSize_range s : in_u 32 (guestAvailSize s).
Proof. apply wrap_range. lia. Qed.

Lemma effective_mask_ok s : in_u 8 (sendOpMask s) -> in_u 8 (effective_mask s).
Proof.
  intros H. unfold effective_mask. apply lor_in_u; [lia|done|].
  destruct (guestAvailSize s =? 0); (split; [by vm_compute|reflexivity]).
Qed.

(** ** Sending on one stream *)

Section sending_facts.
Context {Q : Type} `{TransportLaws Q}.

Lemma send_ops_spec (q : Q) s ops mask n :
  queue_ok q -> NoDup ops -> Forall (fun o => 0 <= o) ops -> in_u 8 mask ->
  exists full n' mask' q' ctl,
    send_ops q s ops mask n = (full, n', mask', q') /\ queue_ok q' /\ in_u 8 mask' /\
    to_guest q' = to_guest q ++ map (control_packet s) ctl /\
    pending mask ops = ctl ++ pending mask' ops /\
    (forall i, 0 <= i -> i ∉ ops -> Z.testbit mask' i = Z.testbit mask i) /\
    (full = false -> pending mask' ops = []) /\ (full = true -> refused q').
Proof.
  intros Hq Hnd Hnn. revert q mask n Hq. induction Hnd as [|o ops Ho Hnd IH];
    intros q mask n Hq Hm; cbn [send_ops].
  { exists false, n, mask, q, []. rewrite app_nil_r. done. }
  apply Forall_cons in Hnn as [Ho0 Hnn]. rewrite land_bit by done.
  unfold pending in *. destruct (Z.testbit mask o) eqn:Eb.
  - pose proof (send_control q (prepareStreamHeader s o 0) Hq eq_refl) as Eg.
    pose proof (send_ok q (prepareStreamHeader s o 0) [] Hq) as Hq'.
    destruct (sendPacketHostToGuest q _ []) as [r q1] eqn:Esend. simpl in Eg, Hq'.
    destruct (VirtIOVSockSendIsVqFull r) eqn:Efull.
    + eexists true, _, mask, q1, []. split_and!; try done. intros _. by eexists q, _, _, r.
    + destruct (IH Hnn q1 (Z.ldiff mask (Z.shiftl 1 o)) (n || VirtIOVSockSendNeedNotify r) Hq')
        as (full & n' & mask' & q' & ctl & E & Hq2 & Hm2 & Eg2 & Ep & Hout & Hfull & Href).
      { apply ldiff_in_u; [lia|done]. }
      exists full, n', mask', q', (o :: ctl).
      assert (Z.testbit mask' o = false) as Eo.
      { rewrite Hout, ldiff_bit, Z.eqb_refl by done. apply andb_false_r. }
      rewrite !filter_cons_True, !filter_cons_False by congruence.
      split_and!; [done..| | | | |done].
      * rewrite Eg2, Eg, <- app_assoc. done.
      * simpl. f_equal. rewrite <- Ep. apply pending_ext.
        intros i Hi. rewrite Forall_forall in Hnn. rewrite ldiff_bit by auto. destruct (Z.eqb_spec o i); [congruence|].
        by rewrite andb_true_r.
      * intros i Hi Hin. apply not_elem_of_cons in Hin as [Hio Hin].
        rewrite Hout, ldiff_bit by done. destruct (Z.eqb_spec o i); [congruence|].
        apply andb_true_r.
      * done.
  - destruct (IH Hnn q mask n Hq Hm)
      as (full & n' & mask' & q' & ctl & E & Hq2 & Hm2 & Eg2 & Ep & Hout & Hfull & Href).
    exists full, n', mask', q', ctl.
    assert (Z.testbit mask' o = false) as Eo by (by rewrite Hout).
    rewrite !filter_cons_False by congruence. split_and!; try done.
    intros i Hi Hin. apply not_elem_of_cons in Hin as [Hio Hin]. by apply Hout.
Qed.

Lemma set_same s :
  in_u 32 (hostSentCnt s) ->
  set_hostSentCnt (u32 (hostSentCnt s + 0)) (set_buf (hostToGuestBuf s) s) = s.
Proof. intros Hs. rewrite Z.add_0_r, wrap_small by done. by destruct s. Qed.

(** A stream that has nothing to send, or no credit. *)
Lemma send_data_stop fuel (q : Q) s avail n :
  avail <= 0 \/ SocketBuffer.peek (hostToGuestBuf s) = [] ->
  send_data (S fuel) q s avail n = Some (false, n, s, q).
Proof.
  intros Hs. cbn [send_data]. destruct (Z.ltb_spec 0 avail); [|done].
  destruct Hs as [|Hs]; [lia|]. by rewrite Hs.
Qed.

Lemma send_data_spec fuel (q : Q) s avail n :
  queue_ok q -> SocketBuffer.ok (hostToGuestBuf s) -> in_u 32 (hostSentCnt s) -> in_u 32 avail ->
  exists full n' buf' q' ps sent,
    let s' := set_hostSentCnt (u32 (hostSentCnt s + sent)) (set_buf buf' s) in
    send_data (S (S fuel)) q s avail n = Some (full, n', s', q') /\
    queue_ok q' /\ to_guest q' = to_guest q ++ ps /\ SocketBuffer.ok buf' /\
    sent_data s s' sent ps /\ sent <= avail /\
    (full = false -> sent = Z.min avail (zlen (SocketBuffer.peek (hostToGuestBuf s)))) /\
    (full = true -> refused q').
Proof.
  intros Hq Hb Hc Ha. pose proof (zlen_nonneg (SocketBuffer.peek (hostToGuestBuf s))) as Hnn.
  destruct (decide (avail <= 0 \/ SocketBuffer.peek (hostToGuestBuf s) = [])) as [Hstop|Hgo].
  { exists false, n, (hostToGuestBuf s), q, [], 0.
    rewrite set_same, send_data_stop by done. unfold sent_data.
    rewrite app_nil_r, take_0, drop_0, Z.add_0_r, wrap_small by done.
    split_and!; try done; try lia.
    - unfold in_u in Ha. lia.
    - intros _. destruct Hstop as [|Hstop]; [unfold in_u in Ha; lia|].
      rewrite Hstop. unfold in_u in Ha. unfold zlen. simpl. lia. }
  apply Decidable.not_or in Hgo as [Hav Hpk].
  assert (zlen (SocketBuffer.peek (hostToGuestBuf s)) <> 0) as Hz.
  { unfold zlen. destruct (SocketBuffer.peek _); [done|]. simpl. lia. }
  remember (S fuel) as fuel1 eqn:Ef. cbn [send_data]. rewrite (proj2 (Z.ltb_lt 0 avail)), (proj2 (Z.eqb_neq _ 0) Hz) by lia.
  set (chunk := SocketBuffer.peek (hostToGuestBuf s)) in *.
  set (size := Z.min (zlen chunk) avail).
  assert (zlen (take (Z.to_nat size) chunk) = size) as El.
  { unfold zlen in *. rewrite length_take_le; lia. }
  set (h := prepareStreamHeader s OP_RW size).
  assert (len h = zlen (take (Z.to_nat size) chunk)) as Eh by (by rewrite El).
  pose proof (send_ok q h (take (Z.to_nat size) chunk) Hq) as Hq'.
  pose proof (send_size q h _ Hq Eh) as Hsz. pose proof (send_done q h _ Hq Eh) as Hdn.
  destruct (send_packets q h _ Hq Eh) as (ps & Eg & Hps & Ecat).
  destruct (sendPacketHostToGuest q h _) as [r q1] eqn:Esend. cbn [fst snd] in *.
  rewrite Eh, El in Hsz, Hdn. set (sent := VirtIOVSockSentSize r) in *.
  destruct (SocketBufferFacts.consume_peek (hostToGuestBuf s) sent Hb) as (buf' & -> & Hb' & Epk);
    [fold chunk; lia|].
  rewrite take_take, Nat.min_l in Ecat by lia.
  set (s' := set_hostSentCnt (u32 (hostSentCnt s + sent)) (set_buf buf' s)).
  assert (sent_data s s' sent ps) as Hsent.
  { unfold sent_data. fold chunk. split_and!; try done; try lia. }
  destruct (VirtIOVSockSendIsVqFull r) eqn:Efull.
  - exists true, (n || VirtIOVSockSendNeedNotify r), buf', q1, ps, sent.
    split_and!; try done; [lia|]. intros _. by eexists q, h, _, r.
  - specialize (Hdn eq_refl).
    subst fuel1. rewrite send_data_stop.
    + exists false, (n || VirtIOVSockSendNeedNotify r), buf', q1, ps, sent.
      split_and!; try done; lia.
    + rewrite wrap_small by (unfold in_u in *; lia).
      change (hostToGuestBuf s') with buf'. rewrite Epk. fold chunk. destruct (Z.le_gt_cases avail (zlen chunk)); [left; lia|right].
      apply drop_ge. unfold zlen in *. lia.
Qed.

(** Nothing sent. *)
Lemma sent_data_none s s' :
  hostToGuestBuf s' = hostToGuestBuf s -> hostSentCnt s' = hostSentCnt s ->
  in_u 32 (hostSentCnt s) -> sent_data s s' 0 [].
Proof.
  intros Eb Ec Hc. unfold sent_data. rewrite Eb, Ec, take_0, drop_0, Z.add_0_r, wrap_small by done.
  pose proof (zlen_nonneg (SocketBuffer.peek (hostToGuestBuf s))).
  split_and!; done || lia.
Qed.

(** [send_data] run on the stream with the mask [m]. *)
Lemma send_data_stream (q : Q) s m n :
  queue_ok q -> stream_ok s -> in_u 8 m ->
  exists full n' s' q' dat sent,
    send_data 3 q (set_sendOpMask m s) (guestAvailSize s) n = Some (full, n', s', q') /\
    queue_ok q' /\ stream_ok s' /\ same_stream s s' /\ sendOpMask s' = m /\
    to_guest q' = to_guest q ++ dat /\ sent_data s s' sent dat /\ sent <= guestAvailSize s /\
    (full = false ->
     sent = Z.min (guestAvailSize s) (zlen (SocketBuffer.peek (hostToGuestBuf s)))) /\
    (full = true -> refused q').
Proof.
  intros Hq (Hb & H1 & H2 & H3 & H4 & H5) Hm.
  destruct (send_data_spec 1 q (set_sendOpMask m s) (guestAvailSize s) n)
    as (full & n' & buf' & q' & ps & sent & E & Hq' & Eg & Hb' & Hs & Hle & Hfull & Href);
    [done|done|done|apply guestAvailSize_range|].
  eexists full, n', _, q', ps, sent. split; [exact E|].
  split_and!; try done. unfold stream_ok. split_and!; try done; by apply wrap_range.
Qed.

Lemma sent_all s s' sent dat :
  sendOpMask s' = 0 -> sent_data s s' sent dat ->
  sent = Z.min (guestAvailSize s) (zlen (SocketBuffer.peek (hostToGuestBuf s))) -> drained s s'.
Proof.
  intros Em (_ & _ & Eb & _) ->. split; [done|]. rewrite Eb.
  set (l := SocketBuffer.peek _). destruct (Z.le_gt_cases (guestAvailSize s) (zlen l)).
  - by rewrite Z.min_l by done.
  - rewrite Z.min_r by lia. rewrite !drop_ge; [done|unfold zlen in *; lia..].
Qed.

(** A drained stream that took [sent] bytes used its credit, or its queue is
    empty. *)
Lemma drained_sent s s' sent dat :
  drained s s' -> sent_data s s' sent dat -> sent <= guestAvailSize s ->
  sent = guestAvailSize s \/ SocketBuffer.peek (hostToGuestBuf s') = [].
Proof.
  intros [_ Ed] (_ & _ & Eb & Hr & _) Hle.
  set (l := SocketBuffer.peek (hostToGuestBuf s)) in *. destruct (Z.le_gt_cases (guestAvailSize s) (zlen l)) as [Hc|Hc].
  - left. rewrite Ed in Eb. apply (f_equal length) in Eb. rewrite !length_drop in Eb. unfold zlen in *. lia.
  - right. rewrite Ed, drop_ge; [done|]. unfold zlen in *. lia.
Qed.

Lemma send_stream_spec (q : Q) s n :
  queue_ok q -> stream_ok s ->
  exists full n' s' q' ctl dat sent,
    send_stream q s n = Some (full, n', s', q') /\
    queue_ok q' /\ stream_ok s' /\ same_stream s s' /\
    to_guest q' = to_guest q ++ map (control_packet s) ctl ++ dat /\
    pending (effective_mask s) send_ops_order = ctl ++ pending (sendOpMask s') send_ops_order /\
    sent_data s s' sent dat /\ sent <= guestAvailSize s /\
    (dat <> [] -> sendOpMask s' = 0) /\
    (full = false -> drained s s') /\ (full = true -> refused q').
Proof.
  intros Hq Hs. pose proof Hs as (Hb & H1 & H2 & H3 & H4 & H5).
  unfold send_stream. fold (effective_mask s).
  destruct (Z.eqb_spec (effective_mask s) 0) as [Ez|Ez]; cbn [negb].
  - assert (sendOpMask s = 0) as E0 by (by apply Z.lor_eq_0_iff in Ez as [? _]).
    destruct (send_data_stream q s 0 n Hq Hs)
      as (full & n' & s' & q' & dat & sent & E & Hq' & Hs' & Hsame & Em & Eg & Hd & Hle & Hfull & Href);
      [by split|].
    replace (set_sendOpMask 0 s) with s in E by (rewrite <- E0; by destruct s).
    exists full, n', s', q', [], dat, sent. rewrite Ez, Em. split_and!; try done. intros Hf. by apply (sent_all _ _ sent dat), Hfull.
  - destruct (send_ops_spec q s send_ops_order (effective_mask s) n Hq)
      as (full & n' & mask' & q' & ctl & -> & Hq' & Hm' & Eg & Ep & _ & Hfull & Href).
    { by apply (bool_decide_unpack _). }
    { by repeat constructor. }
    { by apply effective_mask_ok. }
    destruct full.
    + exists true, n', (set_sendOpMask (u8 mask') s), q', ctl, [], 0.
      rewrite app_nil_r. cbn [sendOpMask set_sendOpMask]. rewrite wrap_small by done.
      split_and!; try done.
      * by apply sent_data_none.
      * apply guestAvailSize_range.
    + rewrite (Hfull eq_refl) in Ep.
      destruct (send_data_stream q' s 0 n' Hq' Hs)
        as (full & n2 & s2 & q2 & dat & sent & E & Hq2 & Hs2 & Hsame & Em & Eg2 & Hd & Hle & Hf2 & Href2);
        [by split|].
      exists full, n2, s2, q2, ctl, dat, sent. rewrite Em, Eg2, Eg, <- app_assoc.
      split_and!; try done. intros Hf. by apply (sent_all _ _ sent dat), Hf2.
Qed.

Lemma same_stream_key s s' : same_stream s s' -> stream_key s' = stream_key s.
Proof. intros (E1 & E2 & _). unfold stream_key. congruence. Qed.

Lemma same_stream_refl s : same_stream s s.
Proof. by repeat split. Qed.

(** A pass over the streams: it serves all of them and leaves each of them
    drained, or it stops at the stream [x] whose packet found the queue full,
    the streams before it drained. *)
Definition pass_result (full : bool) (q' : Q) (l1 l1' l2 : Streams) : Prop :=
  (full = false -> l2 = [] /\ Forall2 drained l1 l1') /\
  (full = true -> refused q' /\
     exists a x a' x', l1 = a ++ [x] /\ l1' = a' ++ [x'] /\ Forall2 drained a a').

Lemma pass_result_cons full q' s s' l1 l1' l2 :
  drained s s' -> pass_result full q' l1 l1' l2 -> pass_result full q' (s :: l1) (s' :: l1') l2.
Proof.
  intros Hd [H1 H2]. split; intros Hf.
  - destruct (H1 Hf) as [-> ?]. split; [done|by constructor].
  - destruct (H2 Hf) as (? & a & x & a' & x' & -> & -> & Ha). split; [done|].
    exists (s :: a), x, (s' :: a'), x'. split_and!; [done..|by constructor].
Qed.

Lemma send_streams_spec l (q : Q) n :
  queue_ok q -> Forall stream_ok l ->
  exists full n' l1 l1' l2 pss q',
    l = l1 ++ l2 /\
    send_streams q l n = Some (full, n', l1' ++ l2, q') /\
    queue_ok q' /\ Forall stream_ok (l1' ++ l2) /\ Forall2 same_stream l (l1' ++ l2) /\
    to_guest q' = to_guest q ++ concat pss /\ Forall3 stream_sent l1 l1' pss /\
    pass_result full q' l1 l1' l2.
Proof.
  revert q n. induction l as [|s l IH]; intros q n Hq Hl; cbn [send_streams].
  { exists false, n, [], [], [], [], q. cbn [concat app]. rewrite app_nil_r. split_and!; done || constructor. }
  apply Forall_cons in Hl as [Hs Hl].
  destruct (send_stream_spec q s n Hq Hs)
    as (full & n1 & s' & q1 & ctl & dat & sent & -> & Hq1 & Hs' & Hsame & Eg & Ep & Hd & Hle &
        Hdat & Hfull & Href).
  assert (stream_sent s s' (map (control_packet s) ctl ++ dat)) as Hsent
    by (exists ctl, dat, sent; done).
  destruct full.
  - exists true, n1, [s], [s'], l, [map (control_packet s) ctl ++ dat], q1.
    cbn [concat app]. rewrite app_nil_r. split_and!; try done.
    + by constructor.
    + constructor; [done|]. apply Forall_Forall2_diag, Forall_forall.
      intros. apply same_stream_refl.
    + by repeat constructor.
    + split; [done|]. intros _. split; [auto|]. exists [], s, [], s'. by split_and!.
  - destruct (IH q1 n1 Hq1 Hl)
      as (full & n2 & l1 & l1' & l2 & pss & q2 & -> & E & Hq2 & Hl' & Hsame' & Eg2 & H3 & Hfull2).
    rewrite E.
    exists full, n2, (s :: l1), (s' :: l1'), l2, ((map (control_packet s) ctl ++ dat) :: pss), q2.
    rewrite Eg2, Eg, <- app_assoc.
    split_and!; try done; try by constructor.
    apply pass_result_cons; auto.
Qed.

Lemma send_orphans_spec l (q : Q) n :
  queue_ok q -> Forall (fun h => len h = 0) l ->
  exists full n' l1 l2 q',
    l = l1 ++ l2 /\ send_orphans q l n = (full, n', l2, q') /\ queue_ok q' /\
    to_guest q' = to_guest q ++ map (fun h => (h, [])) l1 /\
    (full = false -> l2 = []) /\ (full = true -> l2 <> [] /\ refused q').
Proof.
  revert q n. induction l as [|h l IH]; intros q n Hq Hl; cbn [send_orphans].
  { exists false, n, [], [], q. cbn [map]. rewrite !app_nil_r. by split_and!. }
  apply Forall_cons in Hl as [Hh Hl].
  pose proof (send_control q h Hq Hh) as Eg. pose proof (send_ok q h [] Hq) as Hq1.
  destruct (sendPacketHostToGuest q h []) as [r q1] eqn:Esend. cbn [fst snd] in *.
  destruct (VirtIOVSockSendIsVqFull r) eqn:Efull.
  - exists true, (n || VirtIOVSockSendNeedNotify r), [], (h :: l), q1.
    rewrite app_nil_r in *. split_and!; try done. intros _. split; [done|]. by exists q, h, [], r.
  - destruct (IH q1 (n || VirtIOVSockSendNeedNotify r) Hq1 Hl)
      as (full & n2 & l1 & l2 & q2 & -> & E & Hq2 & Eg2 & Hf1 & Hf2).
    exists full, n2, (h :: l1), l2, q2. rewrite Eg2, Eg, <- app_assoc. by split_and!.
Qed.

End sending_facts.
