(* ===== verification/VsockInvariant.v ===== *)
(** * The vsock device: its invariant

    The invariant of [VsockDevice.Dev], its preservation by every operation of
    the device, and the step relation of the device with the devices it
    reaches. *)

From S2P Require Import Prelude.
From S2P Require Import Archive.
From S2P Require Import Cable.
From S2P Require Import VsockState.
From S2P Require Import VsockDevice.
From S2P Require Import VsockFacts.

(** ** The device invariant *)

(** Ports the device hands out itself: dynamic host ports are live ids of the
    allocator, no two streams share one, and every live id is the port of a
    stream, so none is lost. *)
Definition ports_ok (a : UniqueIdAllocator.t) (l : Streams) : Prop :=
  UniqueIdAllocator.ok a /\
  (forall s, s ∈ l -> kDynamicPortsStart <= hostPort s ->
     UniqueIdAllocator.live a (hostPort s - kDynamicPortsStart)) /\
  (forall s1 s2, s1 ∈ l -> s2 ∈ l -> kDynamicPortsStart <= hostPort s1 ->
     hostPort s1 = hostPort s2 -> stream_key s1 = stream_key s2) /\
  (forall id, UniqueIdAllocator.live a id -> exists s, s ∈ l /\ hostPort s = id + kDynamicPortsStart).

Definition has_plug (s : VsockStream) : Prop := is_Some (plug s).

Record Dev_ok {Q P} `{Transport Q} (d : Dev Q P) : Prop := {
  ok_queue : queue_ok (mQueue d);
  ok_orphans : Forall (fun h => len h = 0) (mOrphanPackets d);
  ok_sorted : streams_sorted (mStreams d);
  ok_streams : Forall stream_ok (mStreams d);
  ok_plugs : Forall has_plug (mStreams d);
  ok_ports : ports_ok (mSrcPortAllocator d) (mStreams d);
  ok_listeners : forall host l, mHostPortListeners d !! host = Some l -> host < kDynamicPortsStart;
}.

(** The calls a plug makes from a callback: on its sockets, not on the
    device. *)
Definition callback_call (c : client_call) : Prop :=
  match c with
  | CSend _ _ | CUnplug _ | CSwitchPlug _ _ | CSetSniffer _ _ => True
  | CConnect _ _ | CListen _ _ => False
  end.

Class PlugDiscipline (P : Type) `{PlugWorld P} := {
  onConnect_calls : forall p w, Forall callback_call (plug_onConnect p w).2;
  onReceive_calls : forall p bs w, Forall callback_call (plug_onReceive p bs w).2;
}.

(** The calls made from outside a callback: a new port needs a free id, and
    listeners are on static ports. *)
Definition call_allowed {Q P} (d : Dev Q P) (c : client_call) : Prop :=
  match c with
  | CConnect _ _ => UniqueIdAllocator.mLastId (mSrcPortAllocator d) < 2 ^ 31 - 1
  | CListen host _ => host < kDynamicPortsStart
  | _ => True
  end.

(** A header whose fields are in the ranges of their C types. *)
Definition header_ok (h : virtio_vsock_hdr) : Prop :=
  in_u 32 (src_port h) /\ in_u 32 (dst_port h) /\ in_u 32 (buf_alloc h) /\ in_u 32 (fwd_cnt h).

(** One call into the device.  [setStatus] with [NEEDS_RESET] is not a step:
    it resets the port allocator and keeps the streams. *)
Inductive dev_step {Q P} `{Transport Q} `{PlugWorld P} : Dev Q P -> Dev Q P -> Prop :=
  | step_control h d d' :
      header_ok h -> onPacketReceiveControl h d = Some d' -> dev_step d d'
  | step_rw h pieces d d' :
      header_ok h -> receive_rw h pieces d = Some d' -> dev_step d d'
  | step_send n d d' : sendPackets d = Some (n, d') -> dev_step d d'
  | step_call c d d' : call_allowed d c -> do_client_call c d = Some d' -> dev_step d d'
  | step_guest q d : queue_ok q -> dev_step d (with_queue q d).

Inductive dev_reach {Q P} `{Transport Q} `{PlugWorld P} (d0 : Dev Q P) : Dev Q P -> Prop :=
  | reach_init : dev_reach d0 d0
  | reach_step d d' : dev_reach d0 d -> dev_step d d' -> dev_reach d0 d'.

(** The device as constructed, on a queue and a set of plugs. *)
Definition new_device {Q P} (q : Q) (w : P) : Dev Q P :=
  {| mQueue := q; mWorld := w; mHostPortListeners := ∅;
     mSrcPortAllocator := UniqueIdAllocator.init; mOrphanPackets := []; mHostEvents := [];
     mStreams := [] |}.

(** ** Ports *)

Lemma elem_of_same_keys l1 l2 s :
  map stream_key l1 = map stream_key l2 -> s ∈ l1 -> exists s2, s2 ∈ l2 /\ stream_key s2 = stream_key s.
Proof.
  intros E Hs. apply (list_elem_of_fmap_2 stream_key) in Hs. change (stream_key <$> l1) with (map stream_key l1) in Hs.
  rewrite E in Hs. apply list_elem_of_fmap in Hs as (s2 & Es & Hs2). eauto.
Qed.

Lemma ports_ok_keys a l1 l2 :
  map stream_key l1 = map stream_key l2 -> ports_ok a l1 -> ports_ok a l2.
Proof.
  intros E (Ha & Hl & Hu & Hall). pose proof (fun s => elem_of_same_keys l2 l1 s (eq_sym E)) as Hk.
  split_and!; [done| | |].
  - intros s Hs Hp. destruct (Hk s Hs) as (s1 & Hs1 & [= E1 E2]).
    rewrite <- E2 in *. by apply Hl.
  - intros s s' Hs Hs' Hp Ep. destruct (Hk s Hs) as (s1 & Hs1 & [= E1 E2]).
    destruct (Hk s' Hs') as (s2 & Hs2 & [= E3 E4]). unfold stream_key. rewrite <- E1, <- E2, <- E3, <- E4.
    apply (Hu s1 s2); congruence.
  - intros id Hid. destruct (Hall id Hid) as (s & Hs & Ep). destruct (elem_of_same_keys l1 l2 s E Hs) as (s2 & Hs2 & [= _ E2]).
    exists s2. split; [done|]. congruence.
Qed.

(** A stream with a static port goes away. *)
Lemma ports_ok_erase_static a l k :
  streams_sorted l -> k.2 < kDynamicPortsStart -> ports_ok a l -> ports_ok a (streams_erase k l).
Proof.
  intros Hs Hk (Ha & Hl & Hu & Hall). split_and!; [done| | |].
  - intros s [Hin _]%elem_of_streams_erase; [|done]. auto.
  - intros s s' [Hin _]%elem_of_streams_erase [Hin' _]%elem_of_streams_erase; [|done..]. auto.
  - intros id Hid. destruct (Hall id Hid) as (s & Hin & Ep). exists s. split; [|done].
    apply elem_of_streams_erase; [done|]. split; [done|]. intros <-. cbn in Hk. destruct Hid. lia.
Qed.

(** A static port takes part in nothing. *)
Lemma ports_ok_insert_static a s l :
  streams_find (stream_key s) l = None -> hostPort s < kDynamicPortsStart ->
  ports_ok a l -> ports_ok a (streams_insert s l).
Proof.
  intros Hf Hp (Ha & Hl & Hu & Hall). split_and!; [done| | |].
  - intros x Hx%elem_of_streams_insert; [|done]. destruct Hx as [->|]; [lia|auto].
  - intros x y Hx%elem_of_streams_insert Hy%elem_of_streams_insert Hd E; [|done..].
    destruct Hx as [->|Hx], Hy as [->|Hy]; [done|lia|lia|by apply Hu].
  - intros id Hid. destruct (Hall id Hid) as (x & Hx & Ex). exists x. split; [|done]. apply elem_of_streams_insert; [done|by right].
Qed.

(** A fresh port. *)
Lemma ports_ok_connect a l guest id a' :
  ports_ok a l -> UniqueIdAllocator.mLastId a < 2 ^ 31 - 1 -> UniqueIdAllocator.get a = (id, a') ->
  let k := (guest, u32 (id + kDynamicPortsStart)) in
  streams_find k l = None /\
  (forall s, stream_key s = k -> ports_ok a' (streams_insert s l)).
Proof.
  intros (Ha & Hl & Hu & Hall) Hlt E k.
  pose proof (UniqueIdAllocatorFacts.get_ok a Ha Hlt) as Hg. rewrite E in Hg.
  destruct Hg as (Ha' & Hnl & Hid & Hlive).
  assert (k = (guest, id + kDynamicPortsStart)) as Ek.
  { unfold k. rewrite wrap_small; [done|]. unfold in_u, kDynamicPortsStart. lia. }
  assert (forall s, s ∈ l -> hostPort s <> id + kDynamicPortsStart) as Hne.
  { intros s Hs Es. apply Hnl. replace id with (hostPort s - kDynamicPortsStart) by lia.
    apply Hl; [done|lia]. }
  assert (streams_find k l = None) as Hnone.
  { apply streams_find_None. intros s Hs Es. rewrite Ek in Es. apply (Hne s Hs).
    unfold stream_key in Es. congruence. }
  split; [done|]. intros s Es.
  assert (hostPort s = id + kDynamicPortsStart) as Ep
    by (rewrite Ek in Es; unfold stream_key in Es; congruence).
  split_and!; [done| | |].
  - intros x Hx%elem_of_streams_insert Hd; [|congruence]. apply Hlive.
    destruct Hx as [->|Hx]; [right; lia|left; auto].
  - intros x y Hx%elem_of_streams_insert Hy%elem_of_streams_insert Hd Exy; [|congruence..].
    destruct Hx as [->|Hx], Hy as [->|Hy]; [done| | |by apply Hu].
    + destruct (Hne y Hy). lia.
    + destruct (Hne x Hx). lia.
  - intros j [Hj| ->]%Hlive.
    + destruct (Hall j Hj) as (x & Hx & Ex). exists x. split; [|done]. apply elem_of_streams_insert; [congruence|by right].
    + exists s. split; [|done]. apply elem_of_streams_insert; [congruence|by left].
Qed.

(** Returning the port of a stream that goes away. *)
Lemma ports_ok_put a l s :
  streams_sorted l -> ports_ok a l -> s ∈ l -> kDynamicPortsStart <= hostPort s ->
  exists a', UniqueIdAllocator.put a (hostPort s - kDynamicPortsStart) = Some a' /\
    ports_ok a' (streams_erase (stream_key s) l).
Proof.
  intros Hsort (Ha & Hl & Hu & Hall) Hs Hp.
  destruct (UniqueIdAllocatorFacts.put_ok a _ Ha (Hl s Hs Hp)) as (a' & E & Ha' & Hlive).
  exists a'. split; [done|]. split_and!; [done| | |].
  - intros x Hx%elem_of_streams_erase Hd; [|done]. destruct Hx as [Hx Hk]. apply Hlive.
    split; [auto|]. intros Ex. apply Hk. symmetry. apply Hu; [done|done|done|]. lia.
  - intros x y Hx%elem_of_streams_erase Hy%elem_of_streams_erase; [|done..].
    apply Hu; tauto.
  - intros j [Hj Hne]%Hlive. destruct (Hall j Hj) as (x & Hx & Ex). exists x. split; [|done].
    apply elem_of_streams_erase; [done|]. split; [done|]. intros Ek. unfold stream_key in Ek.
    assert (hostPort x = hostPort s) by congruence. lia.
Qed.

(** ** The pieces of the invariant under a change of the streams *)

Section invariant.
Context {Q P : Type} `{TransportLaws Q} `{PlugWorld P}.
Implicit Types d : Dev Q P.

(** A change of one stream through a reference. *)
Definition good_update (f : VsockStream -> VsockStream) : Prop :=
  keeps_key f /\ (forall s, stream_ok s -> stream_ok (f s)) /\
  (forall s, has_plug s -> has_plug (f s)).

Lemma Dev_ok_update d k f : good_update f -> Dev_ok d -> Dev_ok (update_stream k f d).
Proof.
  intros (Hk & Hs & Hp) []. pose proof (streams_update_keys k f (mStreams d) Hk) as E.
  split; cbn; try done.
  - by eapply streams_sorted_keys.
  - apply Forall_forall. rewrite Forall_forall in ok_streams0.
    intros x [Hx|(s & Hx & _ & ->)]%elem_of_streams_update; auto.
  - apply Forall_forall. rewrite Forall_forall in ok_plugs0.
    intros x [Hx|(s & Hx & _ & ->)]%elem_of_streams_update; auto.
  - by eapply ports_ok_keys.
Qed.

Lemma good_set_plug p : good_update (set_plug (Some p)).
Proof. split_and!; [done|done|]. by exists p. Qed.

Lemma good_set_sniffer n : good_update (set_sniffer n).
Proof. done. Qed.

Lemma good_set_isConnected c : good_update (set_isConnected c).
Proof. done. Qed.

Lemma good_set_guest_counters h : header_ok h -> good_update (set_guest_counters h).
Proof.
  intros (_ & _ & H2 & H3). split_and!; [done| |done].
  intros s (? & ? & ? & ? & ? & ?). by split_and!.
Qed.

Lemma good_sendOp o : good_update (sendOp o).
Proof.
  split_and!; [done| |done]. intros s (? & ? & ? & ? & ? & ?).
  unfold stream_ok. split_and!; try done; by apply wrap_range.
Qed.

Lemma good_append data :
  good_update (fun s => set_buf (SocketBuffer.append (hostToGuestBuf s) data) s).
Proof.
  split_and!; [done| |done]. intros s (Hb & ?).
  split; [|done]. by apply SocketBufferFacts.peek_append.
Qed.

Lemma good_set_hostFwdCnt n : good_update (fun s => set_hostFwdCnt (u32 (hostFwdCnt s + n)) s).
Proof.
  split_and!; [done| |done]. intros s (? & ? & ? & ? & ? & ?).
  unfold stream_ok. split_and!; try done; by apply wrap_range.
Qed.

Lemma good_compose f g : good_update f -> good_update g -> good_update (fun s => f (g s)).
Proof.
  intros (Hf1 & Hf2 & Hf3) (Hg1 & Hg2 & Hg3).
  split_and!; [intros s; by rewrite Hf1|by auto|by auto].
Qed.

Lemma Dev_ok_world d w : Dev_ok d -> Dev_ok (with_world w d).
Proof. by intros []. Qed.

Lemma Dev_ok_queueOrphan d h : len h = 0 -> Dev_ok d -> Dev_ok (queueOrphan h d).
Proof. intros Hh []. split; try done. cbn. apply Forall_app. by split; [|constructor]. Qed.

(** ** Sending *)

(** What sending leaves alone, apart from the queues of the streams. *)
Definition same_device (d d' : Dev Q P) : Prop :=
  mWorld d' = mWorld d /\ mHostPortListeners d' = mHostPortListeners d /\
  mSrcPortAllocator d' = mSrcPortAllocator d /\ mHostEvents d' = mHostEvents d /\
  Forall2 same_stream (mStreams d) (mStreams d').

Lemma same_streams_keys l1 l2 : Forall2 same_stream l1 l2 -> map stream_key l1 = map stream_key l2.
Proof.
  induction 1 as [|s1 s2 l1 l2 Hs Hl IH]; simpl; [done|].
  by rewrite IH, (same_stream_key s1 s2).
Qed.

Lemma same_streams_plugs l1 l2 :
  Forall2 same_stream l1 l2 -> Forall has_plug l1 -> Forall has_plug l2.
Proof.
  induction 1 as [|s1 s2 l1 l2 Hs Hl IH]; intros Hp; [done|].
  apply Forall_cons in Hp as [Hp1 Hp]. constructor; [|auto].
  unfold has_plug in *. destruct Hs as (_ & _ & E & _). congruence.
Qed.

(** Sending always completes, and what it did. *)
(** How a pass of sending ends: everything is sent, or at the packet the
    guest had no buffers for, an orphan or a packet of the stream [x], with
    the orphans and streams before it sent. *)
Definition pass_ends (d' : Dev Q P) (l1 l1' l2 : Streams) : Prop :=
  (mOrphanPackets d' = [] /\ l2 = [] /\ Forall2 drained l1 l1') \/
  (refused (mQueue d') /\
   (mOrphanPackets d' <> [] \/
    exists a x a' x', l1 = a ++ [x] /\ l1' = a' ++ [x'] /\ Forall2 drained a a')).

Lemma sendPacketsLocked_spec d :
  Dev_ok d ->
  exists n d' o1 l1 l1' l2 pss,
    sendPacketsLocked d = Some (n, d') /\ Dev_ok d' /\ same_device d d' /\
    mOrphanPackets d = o1 ++ mOrphanPackets d' /\
    mStreams d = l1 ++ l2 /\ mStreams d' = l1' ++ l2 /\
    to_guest (mQueue d') = to_guest (mQueue d) ++ map (fun h => (h, [])) o1 ++ concat pss /\
    Forall3 stream_sent l1 l1' pss /\ (mOrphanPackets d' <> [] -> l1 = []) /\ pass_ends d' l1 l1' l2.
Proof.
  intros Hd. pose proof Hd as []. unfold sendPacketsLocked.
  destruct (send_orphans_spec (mOrphanPackets d) (mQueue d) false)
    as (full & n1 & o1 & o2 & q1 & Eo & -> & Hq1 & Eg & Hf1 & Hf2); [done|done|].
  rewrite Eo in ok_orphans0. apply Forall_app in ok_orphans0 as [_ Ho2].
  destruct full.
  - exists n1, (with_queue q1 (with_orphans o2 d)), o1, [], [], (mStreams d), [].
    cbn [concat]. rewrite app_nil_r. split_and!; try done.
    + unfold same_device. cbn. split_and!; try done. apply Forall_Forall2_diag, Forall_forall.
      intros. apply same_stream_refl.
    + constructor.
    + right. destruct (Hf2 eq_refl). split; [done|by left].
  - destruct (send_streams_spec (mStreams d) q1 n1 Hq1 ok_streams0)
      as (full & n2 & l1 & l1' & l2 & pss & q2 & El & E & Hq2 & Hl' & Hsame & Eg2 & H3 & Hr1 & Hr2).
    cbn. rewrite E.
    exists n2, (with_queue q2 (with_streams (l1' ++ l2) (with_queue q1 (with_orphans o2 d)))),
      o1, l1, l1', l2, pss.
    cbn. rewrite Eg2, Eg, <- app_assoc. split_and!; try done.
    + pose proof (same_streams_keys _ _ Hsame) as Ek. split; cbn; try done.
      * by eapply streams_sorted_keys.
      * by eapply same_streams_plugs.
      * by eapply ports_ok_keys.
    + by rewrite (Hf1 eq_refl).
    + destruct full; [right; destruct (Hr2 eq_refl); split; [done|by right]|left; destruct (Hr1 eq_refl)]. split_and!; try done. by apply Hf1.
Qed.

Lemma sendPacketsAndNotifyLocked_ok d :
  Dev_ok d -> exists d', sendPacketsAndNotifyLocked d = Some d' /\ Dev_ok d' /\ same_device d d'.
Proof.
  intros Hd. unfold sendPacketsAndNotifyLocked.
  destruct (sendPacketsLocked_spec d Hd) as (n & d' & _ & _ & _ & _ & _ & -> & Hd' & Hs & _).
  destruct n; eexists; (split; [done|split; [|exact Hs]]); [|done].
  destruct Hd'. split; try done. cbn. by apply notify_ok.
Qed.

(** ** Retiring a stream *)

(** What the allocator has after a stream went away. *)
Definition port_freed (s : VsockStream) (a a' : UniqueIdAllocator.t) : Prop :=
  forall id, UniqueIdAllocator.live a' id <-> UniqueIdAllocator.live a id /\ id + kDynamicPortsStart <> hostPort s.

Lemma port_put d s s0 :
  Dev_ok d -> s0 ∈ mStreams d -> stream_key s0 = stream_key s ->
  exists a', (if kDynamicPortsStart <=? hostPort s
              then a ← UniqueIdAllocator.put (mSrcPortAllocator d) (hostPort s - kDynamicPortsStart); Some (with_allocator a d)
              else Some d) = Some (with_allocator a' d) /\
    ports_ok a' (streams_erase (stream_key s) (mStreams d)) /\ port_freed s (mSrcPortAllocator d) a'.
Proof.
  intros Hd Hs0 Ek. pose proof Hd as [_ _ Hsort _ _ Hp _]. assert (hostPort s0 = hostPort s) as Eh by (unfold stream_key in Ek; congruence).
  destruct (Z.leb_spec kDynamicPortsStart (hostPort s)) as [Hle|Hlt].
  - pose proof (ports_ok_put _ _ s0 Hsort Hp Hs0) as (a' & Ea & Hpo); [lia|]. rewrite Eh in Ea. rewrite Ea, Ek in *. cbn [mbind option_bind].
    exists a'. split_and!; [done|done|]. destruct Hp as (Ha & Hl & _). assert (UniqueIdAllocator.live (mSrcPortAllocator d) (hostPort s - kDynamicPortsStart)) as Hlive.
    { rewrite <- Eh. apply Hl; [done|lia]. }
    destruct (UniqueIdAllocatorFacts.put_ok _ _ Ha Hlive) as (a2 & E2 & _ & Hall). rewrite Ea in E2. injection E2 as <-.
    intros id. rewrite Hall. split; intros [? ?]; split; try done; lia.
  - exists (mSrcPortAllocator d). split_and!; [by destruct d|by apply ports_ok_erase_static|].
    intros id. split; [|tauto]. intros Hid. split; [done|]. destruct Hid. lia.
Qed.

(** [s] is the stream with its key as found or with counters updated. *)
Lemma recycle_spec d s callOnUnplug o :
  Dev_ok d -> is_Some (streams_find (stream_key s) (mStreams d)) ->
  (callOnUnplug = true -> has_plug s) ->
  exists d', recycleStreamLocked s callOnUnplug o d = Some d' /\
    Dev_ok (with_streams (streams_erase (stream_key s) (mStreams d)) d') /\
    mStreams d' = mStreams d /\ mQueue d' = mQueue d /\ mHostPortListeners d' = mHostPortListeners d /\
    mOrphanPackets d' = mOrphanPackets d ++
      (if o =? OP_INVALID then [] else [prepareStreamHeader s o 0]) /\
    mWorld d' = (match plug s with Some p => if callOnUnplug then plug_onUnplug p (mWorld d) else mWorld d | None => mWorld d end) /\
    port_freed s (mSrcPortAllocator d) (mSrcPortAllocator d').
Proof.
  intros Hd [s0 [Hs0 Ek]%streams_find_Some] Hp. unfold recycleStreamLocked.
  set (w := match plug s with Some p => if callOnUnplug then plug_onUnplug p (mWorld d) else mWorld d | None => mWorld d end).
  assert ((if callOnUnplug then p ← plug s; Some (with_world (plug_onUnplug p (mWorld d)) d) else Some d) = Some (with_world w d)) as ->.
  { unfold w. destruct callOnUnplug; [destruct (Hp eq_refl) as [p ->]; done|]. destruct d. by destruct (plug s). }
  cbn [mbind option_bind]. set (d2 := if negb (o =? OP_INVALID) then _ else _).
  assert (Dev_ok d2 /\ mOrphanPackets d2 = mOrphanPackets d ++ (if o =? OP_INVALID then [] else [prepareStreamHeader s o 0])) as [Hd2 Eo].
  { unfold d2. destruct (o =? OP_INVALID); cbn [negb]; [rewrite app_nil_r; split; [by apply Dev_ok_world|done]|].
    split; [by apply Dev_ok_queueOrphan, Dev_ok_world|done]. }
  assert (mStreams d2 = mStreams d /\ mSrcPortAllocator d2 = mSrcPortAllocator d /\ mQueue d2 = mQueue d /\ mHostPortListeners d2 = mHostPortListeners d /\
    mWorld d2 = w) as (Es & Ea & Eq & El & Ew) by (unfold d2; by destruct (negb _)).
  clearbody d2 w. destruct (port_put d2 s s0 Hd2) as (a' & -> & Hpo & Hfree); [by rewrite Es|done|].
  exists (with_allocator a' d2). rewrite Ea in Hfree. split_and!; try done. rewrite <- Es.
  destruct Hd2. split; cbn; try done; [by apply streams_erase_sorted|..]; apply Forall_forall; intros x [Hx _]%elem_of_streams_erase; try done;
    [rewrite Forall_forall in ok_streams0|rewrite Forall_forall in ok_plugs0]; auto.
Qed.

Lemma recycle_and_erase_spec d s o p :
  Dev_ok d -> is_Some (streams_find (stream_key s) (mStreams d)) -> plug s = Some p ->
  exists d', recycle_and_erase s o d = Some d' /\ Dev_ok d' /\
    mStreams d' = streams_erase (stream_key s) (mStreams d) /\ mQueue d' = mQueue d /\ mHostPortListeners d' = mHostPortListeners d /\
    mOrphanPackets d' = mOrphanPackets d ++
      (if o =? OP_INVALID then [] else [prepareStreamHeader s o 0]) /\
    mWorld d' = plug_onUnplug p (mWorld d) /\ port_freed s (mSrcPortAllocator d) (mSrcPortAllocator d').
Proof.
  intros Hd Hs Hp. unfold recycle_and_erase.
  destruct (recycle_spec d s true o Hd Hs) as (d' & -> & Hd' & Es & Eq & El & Eo & Ew & Hf); [by exists p|].
  rewrite Hp in Ew. cbn. eexists. split; [done|]. rewrite Es. done.
Qed.

(** ** The calls of the plugs *)

Lemma find_has_plug d k s : Dev_ok d -> streams_find k (mStreams d) = Some s -> has_plug s.
Proof.
  intros [] [Hs _]%streams_find_Some. rewrite Forall_forall in ok_plugs0. auto.
Qed.

Lemma Dev_ok_insert d s a :
  Dev_ok d -> streams_find (stream_key s) (mStreams d) = None -> stream_ok s -> has_plug s ->
  ports_ok a (streams_insert s (mStreams d)) ->
  Dev_ok (with_allocator a (with_streams (streams_insert s (mStreams d)) d)).
Proof.
  intros [] Hf Hs Hp Ha. split; cbn; try done.
  - by apply streams_insert_sorted.
  - apply Forall_forall. rewrite Forall_forall in ok_streams0.
    intros x Hx%elem_of_streams_insert; [|done]. destruct Hx as [->|]; auto.
  - apply Forall_forall. rewrite Forall_forall in ok_plugs0.
    intros x Hx%elem_of_streams_insert; [|done]. destruct Hx as [->|]; auto.
Qed.

Lemma new_stream_ok k : stream_ok (new_stream k).
Proof. unfold stream_ok. cbn. split_and!; done. Qed.

Lemma connect_ok d guest p :
  Dev_ok d -> call_allowed d (CConnect guest p) ->
  exists k d', connect guest p d = Some (k, d') /\ Dev_ok d' /\
    streams_find k (mStreams d) = None /\ is_Some (streams_find k (mStreams d')).
Proof.
  intros Hd Hlt. unfold connect. cbn in Hlt.
  destruct (UniqueIdAllocator.get (mSrcPortAllocator d)) as [id a] eqn:E.
  destruct (ports_ok_connect _ _ guest _ _ (ok_ports d Hd) Hlt E) as [Hnone Hp].
  set (k := (guest, u32 (id + kDynamicPortsStart))) in *. clearbody k.
  cbn [mStreams with_allocator]. rewrite Hnone.
  set (s := sendOp OP_REQUEST (set_plug (Some p) (new_stream k))).
  assert (stream_key s = k) as Ek by (by destruct k).
  assert (Dev_ok (with_allocator a (with_streams (streams_insert s (mStreams d)) d))) as Hd1.
  { apply Dev_ok_insert; [done|congruence| |by exists p|by apply Hp].
    apply good_sendOp, good_set_plug, new_stream_ok. }
  change (with_streams (streams_insert s (mStreams d)) (with_allocator a d))
    with (with_allocator a (with_streams (streams_insert s (mStreams d)) d)).
  destruct (sendPacketsAndNotifyLocked_ok _ Hd1) as (d' & -> & Hd' & _ & _ & _ & _ & Hsame).
  cbn. exists k, d'. split_and!; try done.
  eapply streams_find_keys; [symmetry; by eapply same_streams_keys|]. cbn.
  exists s. eapply streams_find_elem; [|apply elem_of_streams_insert; [congruence|by left]|done].
  apply streams_insert_sorted; [congruence|apply Hd].
Qed.

Lemma do_client_call_ok d c d' :
  Dev_ok d -> call_allowed d c -> do_client_call c d = Some d' -> Dev_ok d'.
Proof.
  intros Hd Hc. destruct c as [k data|k|k p|k n|guest p|host l]; cbn.
  - unfold sendAsyncImpl. destruct (streams_find k (mStreams d)) as [s|] eqn:E; [|done]. cbn.
    destruct (isConnected s); [|congruence].
    set (d1 := match dataSniffer s with Some _ => _ | None => d end).
    assert (Dev_ok d1) as Hd1 by (unfold d1; destruct (dataSniffer s); [by apply Dev_ok_world|done]).
    clearbody d1. intros E2.
    destruct (sendPacketsAndNotifyLocked_ok _ (Dev_ok_update d1 k _ (good_append data) Hd1))
      as (d2 & E3 & Hd2 & _). congruence.
  - unfold unplugImpl. destruct (streams_find k (mStreams d)) as [s|] eqn:E; [|done].
    cbn [mbind option_bind].
    destruct (plug s) as [p|] eqn:Ep; [|done]. cbn [mbind option_bind]. unfold unplugFromDevice.
    pose proof (streams_find_Some _ _ _ E) as [Hin Ek].
    destruct (recycle_spec d (set_plug None s) false OP_SHUTDOWN Hd) as (d1 & -> & Hd1 & Es & _);
      [exact (streams_find_key _ _ _ E)|done|].
    cbn. rewrite Es. destruct (sendPacketsAndNotifyLocked_ok _ Hd1) as (d2 & -> & Hd2 & _).
    cbn. congruence.
  - unfold switchPlug. destruct (streams_find k (mStreams d)); [|done]. cbn.
    intros [= <-]. apply Dev_ok_update; [apply good_set_plug|done].
  - unfold setDataSniffer. destruct (streams_find k (mStreams d)); [|done]. cbn.
    intros [= <-]. apply Dev_ok_update; [apply good_set_sniffer|done].
  - destruct (connect_ok d guest p Hd Hc) as (k & d1 & -> & Hd1 & _). cbn. congruence.
  - intros [= <-]. unfold listen. destruct (_ !! host); [done|]. cbn in Hc.
    destruct Hd. split; try done. cbn. intros h l'.
    destruct (decide (h = host)) as [->|]; [done|]. rewrite lookup_insert_ne by done. apply ok_listeners0.
Qed.

Lemma do_client_calls_ok cs d d' :
  Dev_ok d -> Forall callback_call cs -> do_client_calls cs d = Some d' -> Dev_ok d'.
Proof.
  intros Hd Hcs. revert d Hd. induction Hcs as [|c cs Hc Hcs IH]; intros d Hd; cbn;
    [congruence|].
  destruct (do_client_call c d) as [d1|] eqn:E; [|done]. cbn. apply IH.
  apply (do_client_call_ok d c); [done| |done]. by destruct c.
Qed.

(** ** Packets from the guest *)

Context `{!PlugDiscipline P}.

Lemma call_onConnect_ok p d d' : Dev_ok d -> call_onConnect p d = Some d' -> Dev_ok d'.
Proof.
  intros Hd. unfold call_onConnect. pose proof (onConnect_calls p (mWorld d)) as Hc.
  destruct (plug_onConnect p (mWorld d)) as [w cs]. apply do_client_calls_ok; [|done].
  by apply Dev_ok_world.
Qed.

Lemma streams_update_insert k f s l :
  keeps_key f -> stream_key s = k -> streams_find k l = None ->
  streams_update k f (streams_insert s l) = streams_insert (f s) l.
Proof.
  intros Hk <- Hf. pose proof (Hk s) as E. induction l as [|x l IH]; cbn.
  - by rewrite (proj2 (key_eqb_eq _ _)).
  - cbn in Hf. destruct (key_eqb (stream_key x) (stream_key s)) eqn:Ex; [done|].
    rewrite E. destruct (key_ltb _ _) eqn:El; cbn.
    + by rewrite (proj2 (key_eqb_eq _ _)).
    + rewrite Ex. by rewrite IH.
Qed.

Lemma streams_erase_insert s l :
  streams_find (stream_key s) l = None -> streams_erase (stream_key s) (streams_insert s l) = l.
Proof.
  induction l as [|x l IH]; cbn; intros Hf.
  - by rewrite (proj2 (key_eqb_eq _ _)).
  - destruct (key_eqb (stream_key x) (stream_key s)) eqn:Ex; [done|].
    destruct (key_ltb _ _); cbn; [by rewrite (proj2 (key_eqb_eq _ _))|]. rewrite Ex. by rewrite IH.
Qed.

(** What a connection request does, up to the plug's [onConnect]. *)
Definition accepted (h : virtio_vsock_hdr) (p : plug_id) : VsockStream :=
  sendOp OP_RESPONSE (set_isConnected true (set_guest_counters h
    (set_plug (Some p) (new_stream (src_port h, dst_port h))))).

Definition with_accepted (h : virtio_vsock_hdr) (p : plug_id) (w : P) d : Dev Q P :=
  with_world w (with_streams (streams_insert (accepted h p) (mStreams d)) d).

Lemma processPacketOpRequestLocked_eq h d :
  processPacketOpRequestLocked h d =
  match mHostPortListeners d !! dst_port h with
  | None => Some (false, d)
  | Some listener =>
      match streams_find (src_port h, dst_port h) (mStreams d) with
      | Some _ => Some (true, d)
      | None =>
          match listener_call listener (src_port h, dst_port h) (mWorld d) with
          | (Some p, w) => d ← call_onConnect p (with_accepted h p w d); Some (true, d)
          | (None, w) => Some (false, with_world w d)
          end
      end
  end.
Proof.
  unfold processPacketOpRequestLocked. destruct (mHostPortListeners d !! dst_port h); [|done].
  destruct (streams_find _ _) eqn:Ef; [done|]. cbn [mWorld with_streams].
  destruct (listener_call _ _ _) as [[p|] w].
  - unfold update_stream, with_accepted. cbn.
    by rewrite streams_update_insert.
  - pose proof (streams_erase_insert (new_stream (src_port h, dst_port h)) (mStreams d) Ef) as E.
    change (stream_key (new_stream _)) with (src_port h, dst_port h) in E.
    cbn. rewrite E. by destruct d.
Qed.

Lemma Dev_ok_accepted h p w d :
  Dev_ok d -> header_ok h -> dst_port h < kDynamicPortsStart ->
  streams_find (src_port h, dst_port h) (mStreams d) = None -> Dev_ok (with_accepted h p w d).
Proof.
  intros Hd Hh Hp Hf. apply (Dev_ok_world _ w).
  assert (Dev_ok (with_allocator (mSrcPortAllocator d)
    (with_streams (streams_insert (accepted h p) (mStreams d)) d))) as Hi; [|by destruct Hi].
  apply Dev_ok_insert; [done|done| |by exists p|].
  - by apply good_sendOp, good_set_isConnected, good_set_guest_counters, good_set_plug, new_stream_ok.
  - apply ports_ok_insert_static; [done|done|]. by destruct Hd.
Qed.

Lemma queueOrphanReply_ok h o d : Dev_ok d -> Dev_ok (queueOrphanReply h o d).
Proof. by apply Dev_ok_queueOrphan. Qed.

Lemma processPacketOpRequestLocked_ok h d b d' :
  Dev_ok d -> header_ok h -> processPacketOpRequestLocked h d = Some (b, d') -> Dev_ok d'.
Proof.
  intros Hd Hh. rewrite processPacketOpRequestLocked_eq.
  destruct (mHostPortListeners d !! dst_port h) as [l|] eqn:El; [|congruence].
  destruct (streams_find _ _) eqn:Ef; [congruence|].
  destruct (listener_call _ _ _) as [[p|] w]; [|intros [= _ <-]; by apply Dev_ok_world].
  destruct (call_onConnect p _) as [d1|] eqn:E; [|done]. intros [= _ <-].
  eapply call_onConnect_ok; [|exact E]. apply Dev_ok_accepted; [done..| |done].
  by eapply ok_listeners.
Qed.

Lemma update_find d k f s :
  keeps_key f -> streams_find k (mStreams d) = Some s ->
  streams_find k (mStreams (update_stream k f d)) = Some (f s).
Proof. intros Hf E. cbn. by rewrite streams_find_update, E. Qed.

Lemma onPacketReceiveControl_ok h d d' :
  Dev_ok d -> header_ok h -> onPacketReceiveControl h d = Some d' -> Dev_ok d'.
Proof.
  intros Hd Hh. unfold onPacketReceiveControl. destruct (op h =? OP_REQUEST).
  { destruct (processPacketOpRequestLocked h d) as [[b d1]|] eqn:E; [|done]. cbn.
    apply processPacketOpRequestLocked_ok in E; [|done..].
    destruct b; intros [= <-]; [done|by apply queueOrphanReply_ok]. }
  set (k := (src_port h, dst_port h)).
  destruct (streams_find k (mStreams d)) as [s|] eqn:Ef.
  2:{ destruct (negb _); intros [= <-]; [by apply queueOrphanReply_ok|done]. }
  pose proof (good_set_guest_counters h Hh) as Hg.
  pose proof (Dev_ok_update d k _ Hg Hd) as Hd1.
  pose proof (update_find d k (set_guest_counters h) s ltac:(done) Ef) as Ef1.
  pose proof (find_has_plug _ _ _ Hd1 Ef1) as Hp.
  pose proof (streams_find_Some _ _ _ Ef1) as [_ Ek].
  set (d1 := update_stream k (set_guest_counters h) d) in *. clearbody d1.
  set (s1 := set_guest_counters h s) in *.
  assert (forall o, recycle_and_erase s1 o d1 = Some d' -> Dev_ok d') as Hrec.
  { intros o E. destruct Hp as [p Hp]. destruct (recycle_and_erase_spec d1 s1 o p Hd1) as (d2 & E2 & Hd2 & _);
      [exact (streams_find_key _ _ _ Ef1)|done|]. congruence. }
  destruct (op h =? OP_RESPONSE).
  { destruct (plug s1) as [p|]; cbn [mbind option_bind]; [|discriminate]. apply call_onConnect_ok.
    apply Dev_ok_update; [apply good_set_isConnected|done]. }
  destruct (op h =? OP_RST); [apply Hrec|]. destruct (op h =? OP_SHUTDOWN); [apply Hrec|].
  destruct (op h =? OP_CREDIT_UPDATE); [congruence|].
  destruct (op h =? OP_CREDIT_REQUEST); [|apply Hrec].
  intros [= <-]. apply Dev_ok_update; [apply good_sendOp|done].
Qed.

Lemma onPacketReceiveRw_ok k data d n d' :
  Dev_ok d -> onPacketReceiveRw k data d = Some (n, d') -> Dev_ok d'.
Proof.
  intros Hd. unfold onPacketReceiveRw. destruct (streams_find k (mStreams d)) as [s|]; [|done].
  cbn [mbind option_bind]. destruct (isConnected s); [|congruence].
  set (d1 := match dataSniffer s with Some _ => _ | None => d end).
  assert (Dev_ok d1) as Hd1 by (unfold d1; destruct (dataSniffer s); [by apply Dev_ok_world|done]).
  clearbody d1. destruct (plug s) as [p|]; [|done]. cbn [mbind option_bind].
  pose proof (onReceive_calls p data (mWorld d1)) as Hc.
  destruct (plug_onReceive p data (mWorld d1)) as [[ok w] cs].
  destruct (do_client_calls cs _) as [d2|] eqn:E; [|done]. cbn [mbind option_bind].
  apply do_client_calls_ok in E; [|by apply Dev_ok_world|done].
  destruct ok; [|congruence]. destruct (streams_find k (mStreams d2)); [|done].
  intros [= _ <-]. apply Dev_ok_update; [|done].
  apply (good_compose (sendOp OP_CREDIT_UPDATE)); [apply good_sendOp|apply good_set_hostFwdCnt].
Qed.

Lemma receive_rw_pieces_ok k pieces d n d' :
  Dev_ok d -> receive_rw_pieces k pieces d = Some (n, d') -> Dev_ok d'.
Proof.
  revert d. induction pieces as [|data pieces IH]; intros d Hd; cbn; [congruence|].
  destruct (_ =? 0); [by apply IH|].
  destruct (onPacketReceiveRw k data d) as [[m d1]|] eqn:E; [|done]. cbn.
  apply onPacketReceiveRw_ok in E; [|done]. destruct (negb _); [congruence|by apply IH].
Qed.

Lemma receive_rw_ok h pieces d d' :
  Dev_ok d -> header_ok h -> receive_rw h pieces d = Some d' -> Dev_ok d'.
Proof.
  intros Hd Hh. unfold receive_rw, onPacketReceiveRwStart.
  set (k := (src_port h, dst_port h)).
  destruct (streams_find k (mStreams d)); [|congruence].
  pose proof (Dev_ok_update d k _ (good_set_guest_counters h Hh) Hd) as Hd1.
  destruct (receive_rw_pieces k pieces _) as [[n d1]|] eqn:E; [|done].
  apply receive_rw_pieces_ok in E; [|done]. cbn. unfold onPacketReceiveRwEnd.
  destruct (negb _); [|congruence].
  destruct (streams_find k (mStreams d1)) as [s|] eqn:Ef; [|done]. cbn [mbind option_bind].
  pose proof (streams_find_Some _ _ _ Ef) as [_ Ek].
  destruct (find_has_plug _ _ _ E Ef) as [p Hp]. destruct (recycle_and_erase_spec d1 s OP_SHUTDOWN p E) as (d2 & -> & Hd2 & _);
    [exact (streams_find_key _ _ _ Ef)|done|]. congruence.
Qed.

(** ** Steps *)

Lemma dev_step_ok d d' : Dev_ok d -> dev_step d d' -> Dev_ok d'.
Proof.
  intros Hd Hs. inversion Hs; subst.
  - by eapply onPacketReceiveControl_ok.
  - by eapply receive_rw_ok.
  - destruct (sendPacketsLocked_spec d Hd) as (m & d1 & ? & ? & ? & ? & ? & E & Hd1 & _).
    unfold sendPackets in *. congruence.
  - by eapply do_client_call_ok.
  - by destruct Hd.
Qed.

Lemma dev_reach_ok d0 d : Dev_ok d0 -> dev_reach d0 d -> Dev_ok d.
Proof. intros H0'. induction 1; [done|]. by eapply dev_step_ok. Qed.

(** A new device has no streams, so no port is taken. *)
Lemma new_device_ok (q : Q) (w : P) : queue_ok q -> Dev_ok (new_device q w).
Proof.
  intros Hq. split; cbn; try done; try constructor.
  - apply UniqueIdAllocatorFacts.init_ok.
  - split_and!; [set_solver|set_solver|]. intros id Hid. by apply UniqueIdAllocatorFacts.init_ok in Hid.
Qed.

End invariant.
