(* ===== verification/VsockQueue.v ===== *)
(** * The vsock device: the virtqueues

    Models [emulator/plugin/vsock_goldfish/vsock_low_level.c]: the packets
    the device puts into the buffers of the guest
    ([virtio_vsock_send_packet_host_to_guest], the implementation of
    [VsockState.Transport]) and the parsing of the packets of the guest
    ([virtio_vsock_parse_guest_to_host]).  QEMU's queue is the list of the
    sizes of the buffers it will hand out. *)

From S2P Require Import Prelude.
From S2P Require Import Archive.
From S2P Require Import Cable.
From S2P Require Import VsockState.
From S2P Require Import VsockDevice.

(** [sizeof(struct virtio_vsock_hdr)] of the virtio specification. *)
Definition sizeof_hdr : Z := 44.

Definition VMADDR_CID_HOST : Z := 2.
Definition VIRTIO_VSOCK_TYPE_STREAM : Z := 1.

(** The host to guest queue: the sizes of the guest's buffers, the packets
    written so far, and how often the guest was notified. *)
Record VirtQueue := {
  vq_bufs : list Z;
  vq_sent : list (virtio_vsock_hdr * bytes);
  vq_notified : Z;
}.

Definition with_len (n : Z) (h : virtio_vsock_hdr) : virtio_vsock_hdr :=
  {| src_port := src_port h; dst_port := dst_port h; len := n; op := op h;
     buf_alloc := buf_alloc h; fwd_cnt := fwd_cnt h |}.

(** The [do ... while (data8_size)] loop: a buffer too small for a header goes
    back empty, and [continue] jumps to the loop's condition. *)
Fixpoint send_loop (bufs : list Z) (h : virtio_vsock_hdr) (data8 : bytes)
    (sent : list (virtio_vsock_hdr * bytes)) (need_notify : bool) (bytes_sent : Z)
    : bool * bool * Z * list Z * list (virtio_vsock_hdr * bytes) :=
  match bufs with
  | [] => (true, need_notify, bytes_sent, [], sent)
  | e_size :: bufs =>
      if e_size <? sizeof_hdr then
        if zlen data8 =? 0 then (false, true, bytes_sent, bufs, sent)
        else send_loop bufs h data8 sent true bytes_sent
      else
        let chunk := Z.min (zlen data8) (e_size - sizeof_hdr) in
        let sent := sent ++ [(with_len chunk h, take (Z.to_nat chunk) data8)] in
        let data8 := drop (Z.to_nat chunk) data8 in
        let bytes_sent := bytes_sent + chunk in
        if zlen data8 =? 0 then (false, true, bytes_sent, bufs, sent)
        else send_loop bufs h data8 sent true bytes_sent
  end.

(** The result is an [unsigned]: the size is shifted into its upper bits. *)
Definition virtio_vsock_send_packet_host_to_guest
    (vq : VirtQueue) (h : virtio_vsock_hdr) (data : bytes) : Z * VirtQueue :=
  let '(full, need_notify, bytes_sent, bufs, sent) :=
    send_loop (vq_bufs vq) h (take (Z.to_nat (len h)) data) (vq_sent vq) false 0 in
  (u32 (MakeVirtIOVSockSendResult full need_notify bytes_sent),
   {| vq_bufs := bufs; vq_sent := sent; vq_notified := vq_notified vq |}).

Definition virtio_vsock_have_host_to_guest_packets (vq : VirtQueue) : VirtQueue :=
  {| vq_bufs := vq_bufs vq; vq_sent := vq_sent vq; vq_notified := vq_notified vq + 1 |}.

(** Every buffer holds a header, and all of them together hold less than
    2^30 bytes. *)
Definition bufs_ok (bufs : list Z) : Prop :=
  Forall (fun e => sizeof_hdr <= e) bufs /\ foldr Z.add 0 bufs < 2 ^ 30.

#[export] Instance VirtQueue_Transport : Transport VirtQueue := {
  sendPacketHostToGuest := virtio_vsock_send_packet_host_to_guest;
  haveHostToGuestPackets := virtio_vsock_have_host_to_guest_packets;
  to_guest := vq_sent;
  queue_ok vq := bufs_ok (vq_bufs vq);
}.

(** ** Packets from the guest *)

(** The pieces of the payload: the scatter list without the first [offset]
    bytes, up to [size] bytes. *)
Fixpoint iov_pieces (size offset : Z) (iovec : list bytes) : list bytes :=
  match iovec with
  | [] => []
  | v :: iovec =>
      if size =? 0 then []
      else
        let skip_size := Z.min offset (zlen v) in
        let data_size := Z.min size (zlen v - skip_size) in
        let rest := iov_pieces (size - data_size) (offset - skip_size) iovec in
        if 0 <? data_size
        then take (Z.to_nat data_size) (drop (Z.to_nat skip_size) v) :: rest
        else rest
  end.

(** The fields of the header that only this layer looks at. *)
Record hdr_ids := { src_cid : Z; dst_cid : Z; hdr_type : Z }.

Section parse.
Context {Q P : Type} `{Transport Q} `{PlugWorld P}.
(** The layout of the header. *)
Context (decode : bytes -> hdr_ids * virtio_vsock_hdr).

(** [virtio_vsock_parse_guest_to_host]; [None] as in [VsockDevice]. *)
Definition virtio_vsock_parse_guest_to_host (guest_cid : Z) (iovec : list bytes) (d : Dev Q P)
    : option (Dev Q P) :=
  let packet := concat iovec in
  if zlen packet <? sizeof_hdr then Some d
  else
    let '(ids, h) := decode (take (Z.to_nat sizeof_hdr) packet) in
    if zlen packet <? sizeof_hdr + len h then Some d
    else if negb (hdr_type ids =? VIRTIO_VSOCK_TYPE_STREAM) then Some d
    else if negb (dst_cid ids =? VMADDR_CID_HOST) then Some d
    else if negb (src_cid ids =? guest_cid) then Some d
    else if negb (op h =? OP_RW) then onPacketReceiveControl h d
    else receive_rw h (iov_pieces (len h) sizeof_hdr iovec) d.

End parse.

(** ** The queue keeps its promises *)

Lemma zlen_drop {A} n (l : list A) : 0 <= n <= zlen l -> zlen (drop (Z.to_nat n) l) = zlen l - n.
Proof. unfold zlen. intros. rewrite length_drop. lia. Qed.

Lemma foldr_add_nonneg bufs :
  Forall (fun e => sizeof_hdr <= e) bufs -> 0 <= foldr Z.add 0 bufs.
Proof. unfold sizeof_hdr. induction 1; simpl; lia. Qed.

Lemma send_loop_spec bufs h data8 sent n b :
  bufs_ok bufs ->
  exists full n' k bufs' ps,
    send_loop bufs h data8 sent n b = (full, n', b + k, bufs', sent ++ ps) /\
    bufs_ok bufs' /\ 0 <= k <= zlen data8 /\ k <= foldr Z.add 0 bufs /\
    (full = false -> k = zlen data8) /\
    Forall (fun p => same_packet h (fst p) /\ len (fst p) = zlen (snd p)) ps /\
    concat (map snd ps) = take (Z.to_nat k) data8 /\
    (data8 = [] -> ps = if full then [] else [(with_len 0 h, [])]).
Proof.
  intros [Hf Hsum]. revert data8 sent n b. induction Hf as [|e bufs He Hf IH];
    intros data8 sent n b; pose proof (zlen_nonneg data8).
  { exists true, n, 0, [], []. rewrite app_nil_r, Z.add_0_r. simpl. rewrite take_0.
    split_and!; try done; try lia. }
  simpl in Hsum. pose proof (foldr_add_nonneg bufs Hf). unfold sizeof_hdr in He.
  cbn [send_loop foldr]. rewrite (proj2 (Z.ltb_ge e sizeof_hdr)) by (unfold sizeof_hdr; lia).
  set (c := Z.min (zlen data8) (e - sizeof_hdr)).
  assert (0 <= c <= zlen data8 /\ c <= e) as [Hc Hce] by (unfold c, sizeof_hdr; lia).
  rewrite zlen_drop by lia.
  set (p := (with_len c h, take (Z.to_nat c) data8)).
  assert (same_packet h (fst p) /\ len (fst p) = zlen (snd p)) as Hp
    by (split; [done|cbn; by rewrite zlen_take]).
  destruct (Z.eqb_spec (zlen data8 - c) 0) as [E|E].
  - exists false, true, c, bufs, [p]. cbn [map concat snd p]. rewrite app_nil_r.
    split_and!; try done; try lia; [split; [done|lia]|by constructor|]. intros ->. unfold p.
    assert (c = 0) as Ec by (unfold zlen in *; simpl in *; lia). by rewrite Ec.
  - destruct (IH ltac:(lia) (drop (Z.to_nat c) data8) (sent ++ [p]) true (b + c))
      as (full & n' & k & bufs' & ps & -> & Hok & Hk & Hks & Hd & Hps & Ecat & _).
    rewrite zlen_drop in * by lia.
    exists full, n', (c + k), bufs', (p :: ps). cbn [map concat snd p].
    rewrite Ecat, <- app_assoc, Z.add_assoc.
    split_and!; try done; try lia; [intros; rewrite Hd by done; lia|by constructor| |].
    + rewrite <- (take_drop (Z.to_nat c) data8) at 3.
      rewrite take_app, length_take_le by (unfold zlen in *; lia).
      rewrite (take_ge (take _ _)) by (rewrite length_take_le; unfold zlen in *; lia).
      do 2 f_equal. lia.
    + intros ->. unfold c, zlen, sizeof_hdr in *. simpl in *. lia.
Qed.

Lemma MakeVirtIOVSockSendResult_bits full n k :
  0 <= k < 2 ^ 30 ->
  let r := u32 (MakeVirtIOVSockSendResult full n k) in
  VirtIOVSockSendIsVqFull r = full /\ VirtIOVSockSendNeedNotify r = n /\ VirtIOVSockSentSize r = k.
Proof.
  intros Hk r.
  assert (r = Z.b2z n + 2 * Z.b2z full + 4 * k) as ->.
  { unfold r, MakeVirtIOVSockSendResult.
    rewrite (lor_shiftl_add (Z.b2z n) (Z.b2z full) 1) by (destruct n; simpl; lia).
    rewrite lor_shiftl_add by (destruct n, full; simpl; lia).
    rewrite wrap_small; destruct n, full; unfold in_u; simpl Z.b2z; lia. }
  unfold VirtIOVSockSendIsVqFull, VirtIOVSockSendNeedNotify, VirtIOVSockSentSize.
  split_and!.
  - change (Z.land ?x 2) with (Z.land x (Z.shiftl 1 1)). rewrite land_bit, Z.testbit_odd, Z.shiftr_div_pow2 by lia.
    replace (_ / 2 ^ 1) with (Z.b2z full + 2 * k)
      by (apply Z.div_unique with (Z.b2z n); destruct n, full; simpl; lia).
    rewrite Z.odd_add_mul_2. by destruct full.
  - change (Z.land ?x 1) with (Z.land x (2 ^ 1 - 1)). rewrite land_ones_mod by lia.
    replace (_ mod 2 ^ 1) with (Z.b2z n); [by destruct n|].
    apply Z.mod_unique with (Z.b2z full + 2 * k); destruct n, full; simpl; lia.
  - rewrite Z.shiftr_div_pow2 by lia. symmetry. 
    apply Z.div_unique with (Z.b2z n + 2 * Z.b2z full); destruct n, full; simpl; lia.
Qed.

Lemma send_packet_spec vq h data :
  bufs_ok (vq_bufs vq) ->
  exists full n k bufs ps,
    virtio_vsock_send_packet_host_to_guest vq h data =
      (u32 (MakeVirtIOVSockSendResult full n k),
       {| vq_bufs := bufs; vq_sent := vq_sent vq ++ ps; vq_notified := vq_notified vq |}) /\
    bufs_ok bufs /\ 0 <= k < 2 ^ 30 /\
    (len h = zlen data -> 0 <= k <= len h /\ (full = false -> k = len h) /\
      Forall (fun p => same_packet h (fst p) /\ len (fst p) = zlen (snd p)) ps /\
      concat (map snd ps) = take (Z.to_nat k) data) /\
    (len h = 0 -> data = [] -> ps = if full then [] else [(h, [])]).
Proof.
  intros Hq. unfold virtio_vsock_send_packet_host_to_guest.
  destruct (send_loop_spec (vq_bufs vq) h (take (Z.to_nat (len h)) data) (vq_sent vq) false 0 Hq)
    as (full & n & k & bufs & ps & -> & Hok & Hk & Hks & Hd & Hps & Ecat & Hnil).
  destruct Hq as [_ Hsum]. exists full, n, k, bufs, ps.
  split_and!; try done; try lia.
  - intros El. rewrite (take_ge data) in * by (unfold zlen in El; lia).
    rewrite <- El in *. done.
  - intros El ->. rewrite Hnil by (by rewrite take_nil). destruct full; [done|].
    do 2 f_equal. destruct h. unfold with_len. cbn in *. congruence.
Qed.

Ltac destruct_send q h data Hq :=
  cbn [sendPacketHostToGuest to_guest queue_ok VirtQueue_Transport];
  let full := fresh "full" in let n := fresh "n" in let k := fresh "k" in
  let bufs := fresh "bufs" in let Hk := fresh "Hk" in
  destruct (send_packet_spec q h data Hq) as (full & n & k & bufs & ps & -> & Hok & Hk & H1 & H2);
  cbn [fst snd vq_sent vq_bufs];
  destruct (MakeVirtIOVSockSendResult_bits full n k Hk) as (Efull & _ & Esize);
  rewrite ?Efull, ?Esize; clear Efull Esize.

#[export] Instance VirtQueue_TransportLaws : TransportLaws VirtQueue.
Proof.
  split; try done.
  - intros q h data Hq. by destruct_send q h data Hq.
  - intros q h data Hq El. destruct_send q h data Hq. apply H1 in El. tauto.
  - intros q h data Hq El. destruct_send q h data Hq. apply H1 in El. tauto.
  - intros q h data Hq El. destruct_send q h data Hq. 
    destruct (H1 El) as (_ & _ & Hps & Ecat). by exists ps.
  - intros q h Hq El. destruct_send q h (@nil Z) Hq. by rewrite (H2 El eq_refl).
Qed.
