(* ===== verification/VsockSnapshot.v ===== *)
(** * The vsock device: snapshots

    Models [GoldfishVirtioVsockDevice::saveToSnapshot] and
    [loadFromSnapshot] of [emulator/plugin/vsock_goldfish/vsock.cpp].  The
    archive is any writer and reader of [Archive]; the handlers of the parent
    device ([setParentStateSnapshotHandlers]) are an interface. *)

From S2P Require Import Prelude.
From S2P Require Import Archive.
From S2P Require Import Cable.
From S2P Require Import VsockState.
From S2P Require Import VsockDevice.

(** [mParentStateSave] and [mParentStateLoad]; [None] when they are not set.
    They return zero on success. *)
Class ParentState (P W R : Type) := {
  mParentStateSave : option (P -> W -> Z * W);
  mParentStateLoad : option (P -> R -> Z * P * R);
}.

Section save.
Context {Q P W R : Type} `{Transport Q} `{PlugWorld P} `{IWriter W} `{!ParentState P W R}.

Definition save_orphan (w : W) (h : virtio_vsock_hdr) : W :=
  let w := putUnsigned w (src_port h) in
  let w := putUnsigned w (dst_port h) in
  let w := putUnsigned w (op h) in
  let w := putUnsigned w (buf_alloc h) in
  putUnsigned w (fwd_cnt h).

(** The body of the loop over the streams: 0 to go on, 1 to return; [None]
    when an assertion fails. *)
Definition save_stream (s : VsockStream) (world : P) (w : W) : option (Z * W) :=
  let w := putUnsigned w (guestPort s) in
  let w := putUnsigned w (hostPort s) in
  let w := putUnsigned w (hostFwdCnt s) in
  p ← plug s;
  let supportsLoading := plug_supportsLoading p world in
  let w := putUnsigned w (Z.b2z supportsLoading) in
  if supportsLoading then
    match dataSniffer s with
    | Some _ => None
    | None =>
        let flags := Z.lor (Z.b2z (isConnected s)) (sendOpMask s) in
        let w := putUnsigned w (guestBufAlloc s) in
        let w := putUnsigned w (guestFwdCnt s) in
        let w := putUnsigned w (hostSentCnt s) in
        let w := putUnsigned w flags in
        let w := SocketBuffer.saveToSnapshot (hostToGuestBuf s) w in
        let '(ok, w) := savePlugToSnapshot p world w in
        Some (if ok then 0 else 1, w)
    end
  else Some (0, w).

Fixpoint save_streams (l : Streams) (world : P) (w : W) : option (Z * W) :=
  match l with
  | [] => Some (0, w)
  | s :: l =>
      r ← save_stream s world w;
      if negb (r.1 =? 0) then Some r else save_streams l world r.2
  end.

Definition saveToSnapshot (d : Dev Q P) (w : W) : option (Z * W) :=
  let '(r, w) := match mParentStateSave (R := R) with
                 | Some save => save (mWorld d) w
                 | None => (0, w)
                 end in
  if negb (r =? 0) then Some (r, w)
  else
    let w := UniqueIdAllocator.saveToSnapshot (mSrcPortAllocator d) w in
    let w := fold_left save_orphan (mOrphanPackets d)
               (putUnsigned w (zlen (mOrphanPackets d))) in
    save_streams (mStreams d) (mWorld d) (putUnsigned w (zlen (mStreams d))).

End save.

Section load.
Context {Q P W R : Type} `{Transport Q} `{PlugWorld P} `{PlugLoader P R} `{IReader R}
  `{!ParentState P W R}.
Context (loaders : PlugLoadersMap).

(** Orphan packets do not carry data. *)
Definition load_orphan (r : R) : virtio_vsock_hdr * R :=
  let '(src, r) := getUnsigned r in
  let '(dst, r) := getUnsigned r in
  let '(o, r) := getUnsigned r in
  let '(alloc, r) := getUnsigned r in
  let '(fwd, r) := getUnsigned r in
  ({| src_port := u32 src; dst_port := u32 dst; len := 0; op := u16 o;
      buf_alloc := u32 alloc; fwd_cnt := u32 fwd |}, r).

Fixpoint load_orphans (n : nat) (l : list virtio_vsock_hdr) (r : R)
    : list virtio_vsock_hdr * R :=
  match n with
  | O => (l, r)
  | S n => let '(h, r) := load_orphan r in load_orphans n (l ++ [h]) r
  end.

(** The state of a stream that supports loading, read into the stream [s]
    just emplaced; the result of [hostToGuestBuf.loadFromSnapshot] is
    ignored. *)
Definition load_stream_state (s : VsockStream) (hostFwd : Z) (r : R) : VsockStream * R :=
  let '(alloc, r) := getUnsigned r in
  let '(fwd, r) := getUnsigned r in
  let '(sent, r) := getUnsigned r in
  let '(flags, r) := getUnsigned r in
  let flags := u8 flags in
  let '(_, buf, r) := SocketBuffer.loadFromSnapshot r in
  ({| guestPort := guestPort s; hostPort := hostPort s; plug := plug s;
      dataSniffer := dataSniffer s; hostToGuestBuf := buf;
      guestBufAlloc := u32 alloc; guestFwdCnt := u32 fwd;
      hostSentCnt := u32 sent; hostFwdCnt := hostFwd;
      sendOpMask := u8 (Z.ldiff flags 1);
      isConnected := negb (Z.land flags 1 =? 0) |}, r).

(** The loop over the saved streams.  [Some code] is a [return] from inside
    the loop: a stream that supports loading always returns, with [true]
    when its plug was loaded. *)
Fixpoint load_streams (n : nat) (d : Dev Q P) (r : R) : option Z * Dev Q P * R :=
  match n with
  | O => (None, d, r)
  | S n =>
      let '(guest, r) := getUnsigned r in
      let '(host, r) := getUnsigned r in
      let '(hostFwd, r) := getUnsigned r in
      let '(supports, r) := getUnsigned r in
      let guest := u32 guest in
      let host := u32 host in
      let hostFwd := u32 hostFwd in
      if negb (supports =? 0) then
        let k := (guest, host) in
        match streams_find k (mStreams d) with
        | Some _ => (Some 1, d, r)
        | None =>
            let '(s, r) := load_stream_state (new_stream k) hostFwd r in
            let d := with_streams (streams_insert s (mStreams d)) d in
            let '(p, r, w) := loadPlugFromSnapshot loaders k r (mWorld d) in
            let d := with_world w d in
            match p with
            | Some p => (Some 1, update_stream k (set_plug (Some p)) d, r)  (* return true *)
            | None => (Some 1, with_streams (streams_erase k (mStreams d)) d, r)
            end
        end
      else
        load_streams n
          (queueOrphan (preparePacketHeader host guest OP_RST hostFwd 0) d) r
  end.

Definition loadFromSnapshot (d : Dev Q P) (r : R) : option (Z * Dev Q P * R) :=
  let '(code, w, r) := match mParentStateLoad (W := W) with
                       | Some load => load (mWorld d) r
                       | None => (0, mWorld d, r)
                       end in
  let d := with_world w d in
  if negb (code =? 0) then Some (code, d, r)
  else
    let '(a, r) := UniqueIdAllocator.loadFromSnapshot r in
    let d := with_allocator a d in
    let '(n, r) := getUnsigned r in
    let '(orphans, r) := load_orphans (Z.to_nat n) [] r in
    let d := with_orphans orphans d in
    let '(n, r) := getUnsigned r in
    let '(ret, d, r) := load_streams (Z.to_nat n) (with_streams [] d) r in
    match ret with
    | Some code => Some (code, d, r)
    | None => d ← sendPacketsAndNotifyLocked d; Some (0, d, r)
    end.

End load.

(** ** Lemmas: what is written is what is read *)

Definition alloc_bytes (a : UniqueIdAllocator.t) : bytes :=
  varint (UniqueIdAllocator.mLastId a) ++ varint (zlen (UniqueIdAllocator.mReturnedIds a)) ++
  concat (map varint (UniqueIdAllocator.mReturnedIds a)).

Definition orphan_bytes (h : virtio_vsock_hdr) : bytes :=
  varint (src_port h) ++ varint (dst_port h) ++ varint (op h) ++ varint (buf_alloc h) ++
  varint (fwd_cnt h).

(** A stream whose plug does not support loading. *)
Definition stream_bytes (s : VsockStream) : bytes :=
  varint (guestPort s) ++ varint (hostPort s) ++ varint (hostFwdCnt s) ++ varint 0.

Definition orphan_ok (h : virtio_vsock_hdr) : Prop :=
  in_u 32 (src_port h) /\ in_u 32 (dst_port h) /\ len h = 0 /\ in_u 16 (op h) /\
  in_u 32 (buf_alloc h) /\ in_u 32 (fwd_cnt h).

Definition stream_ports_ok (s : VsockStream) : Prop :=
  in_u 32 (guestPort s) /\ in_u 32 (hostPort s) /\ in_u 32 (hostFwdCnt s).

(** The packet that tells the guest a stream did not survive. *)
Definition stream_rst (s : VsockStream) : virtio_vsock_hdr :=
  preparePacketHeader (hostPort s) (guestPort s) OP_RST (hostFwdCnt s) 0.

Lemma in_u_weaken v w z : 0 <= v <= w -> in_u v z -> in_u w z.
Proof.
  unfold in_u. intros Hv Hz. pose proof (Z.pow_le_mono_r 2 v w). lia.
Qed.

Section writing.
Context {W : Type} `{IWriterLaws W}.

Lemma emitted_putUnsigned w x : emitted (putUnsigned w x) = emitted w ++ varint x.
Proof. apply write_emitted. Qed.

Lemma emitted_fold_putUnsigned l w :
  emitted (fold_left putUnsigned l w) = emitted w ++ concat (map varint l).
Proof.
  revert w. induction l as [|x l IH]; intros w; cbn; [by rewrite app_nil_r|].
  by rewrite IH, emitted_putUnsigned, app_assoc.
Qed.

Lemma emitted_allocator a w :
  emitted (UniqueIdAllocator.saveToSnapshot a w) = emitted w ++ alloc_bytes a.
Proof.
  unfold UniqueIdAllocator.saveToSnapshot, alloc_bytes.
  by rewrite emitted_fold_putUnsigned, !emitted_putUnsigned, <- !app_assoc.
Qed.

Lemma emitted_orphans l w :
  emitted (fold_left save_orphan l w) = emitted w ++ concat (map orphan_bytes l).
Proof.
  revert w. induction l as [|h l IH]; intros w; cbn; [by rewrite app_nil_r|].
  rewrite IH. unfold save_orphan, orphan_bytes.
  by rewrite !emitted_putUnsigned, <- !app_assoc.
Qed.

Context {P : Type} `{PlugWorld P}.

Lemma save_streams_unloadable l (world : P) w :
  Forall (fun s => exists p, plug s = Some p /\ plug_supportsLoading p world = false) l ->
  exists w', save_streams l world w = Some (0, w') /\
    emitted w' = emitted w ++ concat (map stream_bytes l).
Proof.
  intros Hl. revert w. induction Hl as [|s l (p & Hp & Hs) Hl IH]; intros w; cbn.
  { exists w. by rewrite app_nil_r. }
  unfold save_stream. rewrite Hp. cbn [mbind option_bind]. rewrite Hs. cbn [mbind option_bind].
  set (w1 := putUnsigned _ (Z.b2z false)). change (negb ((0, w1).1 =? 0)) with false. cbv iota.
  destruct (IH w1) as (w' & E & Ew). exists w'. split; [exact E|]. rewrite Ew. unfold w1, stream_bytes.
  by rewrite !emitted_putUnsigned, <- !app_assoc.
Qed.

End writing.

Section reading.
Context {R : Type} `{IReaderLaws R}.

Lemma load_ids_app ids : forall l (r : R) rest,
  Forall (fun id => in_u 32 id) ids -> UniqueIdAllocatorFacts.descending (l ++ ids) ->
  remaining r = concat (map varint ids) ++ rest ->
  exists r', UniqueIdAllocator.load_ids (length ids) l r = (l ++ ids, r') /\ remaining r' = rest.
Proof.
  induction ids as [|id ids IH]; intros l r rest Hids Hd E;
    cbn [length UniqueIdAllocator.load_ids].
  { exists r. by rewrite app_nil_r. }
  apply Forall_cons in Hids as [Hid Hids]. cbn in E. rewrite <- app_assoc in E.
  destruct (getUnsigned_app r id _ (in_u_weaken 32 64 id ltac:(lia) Hid) E) as (r1 & -> & E1).
  rewrite wrap_small by done.
  replace (UniqueIdAllocator.set_insert id l) with (l ++ [id]).
  { destruct (IH (l ++ [id]) r1 rest Hids) as (r2 & E2 & ?); [by rewrite <- app_assoc|done|].
    exists r2. rewrite E2, <- app_assoc. done. }
  clear -Hd. induction l as [|x l IH]; cbn; [done|].
  pose proof Hd as [Hd' Hx]%StronglySorted_inv.
  apply Forall_app in Hx as [_ Hx]. apply Forall_inv in Hx.
  rewrite (proj2 (Z.ltb_ge _ _)), (proj2 (Z.eqb_neq _ _)) by lia. by rewrite IH.
Qed.

Lemma load_allocator_app a (r : R) rest :
  UniqueIdAllocator.ok a -> zlen (UniqueIdAllocator.mReturnedIds a) < 2 ^ 32 ->
  remaining r = alloc_bytes a ++ rest ->
  exists r', UniqueIdAllocator.loadFromSnapshot r = (a, r') /\ remaining r' = rest.
Proof.
  destruct a as [n ids]. unfold UniqueIdAllocator.ok, alloc_bytes, UniqueIdAllocator.loadFromSnapshot.
  cbn [UniqueIdAllocator.mLastId UniqueIdAllocator.mReturnedIds]. intros (Hn & Hs & Hf) Hlen E. rewrite <- !app_assoc in E.
  pose proof (zlen_nonneg ids).
  destruct (getUnsigned_app r n _ ltac:(unfold in_u; lia) E) as (r1 & -> & E1).
  destruct (getUnsigned_app r1 (zlen ids) _ ltac:(unfold in_u; lia) E1) as (r2 & -> & E2).
  unfold zlen. rewrite Nat2Z.id.
  destruct (load_ids_app ids [] r2 rest) as (r3 & -> & E3); [|done|done|].
  { eapply Forall_impl; [exact Hf|]. unfold in_u. simpl. lia. }
  rewrite wrap_small by (unfold in_u; lia). by exists r3.
Qed.

Lemma load_orphans_app hs : forall l (r : R) rest,
  Forall orphan_ok hs -> remaining r = concat (map orphan_bytes hs) ++ rest ->
  exists r', load_orphans (length hs) l r = (l ++ hs, r') /\ remaining r' = rest.
Proof.
  induction hs as [|h hs IH]; intros l r rest Hhs E; cbn [length load_orphans].
  { exists r. by rewrite app_nil_r. }
  apply Forall_cons in Hhs as [(H1 & H2 & H3 & H4 & H5 & H6) Hhs].
  cbn in E. unfold orphan_bytes in E. rewrite <- !app_assoc in E.
  assert (forall w z, w = 16 \/ w = 32 -> in_u w z -> in_u 64 z) as Hw.
  { intros w z Hw. apply in_u_weaken. lia. }
  unfold load_orphan.
  destruct (getUnsigned_app r _ _ (Hw 32 _ ltac:(tauto) H1) E) as (r1 & -> & E1).
  destruct (getUnsigned_app r1 _ _ (Hw 32 _ ltac:(tauto) H2) E1) as (r2 & -> & E2).
  destruct (getUnsigned_app r2 _ _ (Hw 16 _ ltac:(tauto) H4) E2) as (r3 & -> & E3).
  destruct (getUnsigned_app r3 _ _ (Hw 32 _ ltac:(tauto) H5) E3) as (r4 & -> & E4).
  destruct (getUnsigned_app r4 _ _ (Hw 32 _ ltac:(tauto) H6) E4) as (r5 & -> & E5).
  rewrite !wrap_small by done. destruct h; cbn in H3 |- *. subst.
  match goal with |- context [load_orphans _ (l ++ [?h']) r5] =>
    destruct (IH (l ++ [h']) r5 rest Hhs E5) as (r6 & -> & E6)
  end. rewrite <- app_assoc. by exists r6.
Qed.

Context {Q P : Type} `{PlugWorld P} `{PlugLoader P R} (loaders : PlugLoadersMap).

Lemma load_streams_app l : forall (d : Dev Q P) (r : R) rest,
  Forall stream_ports_ok l -> remaining r = concat (map stream_bytes l) ++ rest ->
  exists r', load_streams loaders (length l) d r =
      (None, with_orphans (mOrphanPackets d ++ map stream_rst l) d, r') /\ remaining r' = rest.
Proof.
  induction l as [|s l IH]; intros d r rest Hl E; cbn [length load_streams map].
  { exists r. rewrite app_nil_r. by destruct d. }
  apply Forall_cons in Hl as [(H1' & H2' & H3') Hl].
  cbn in E. unfold stream_bytes in E. rewrite <- !app_assoc in E.
  pose proof (in_u_weaken 32 64) as Hw.
  destruct (getUnsigned_app r _ _ (Hw _ ltac:(lia) H1') E) as (r1 & -> & E1).
  destruct (getUnsigned_app r1 _ _ (Hw _ ltac:(lia) H2') E1) as (r2 & -> & E2).
  destruct (getUnsigned_app r2 _ _ (Hw _ ltac:(lia) H3') E2) as (r3 & -> & E3).
  destruct (getUnsigned_app r3 0 _ ltac:(by_compute) E3) as (r4 & -> & E4).
  rewrite !wrap_small by done. cbn [negb Z.eqb].
  destruct (IH (queueOrphan (stream_rst s) d) r4 rest Hl E4) as (r5 & E5 & E6).
  exists r5. split; [|done]. unfold stream_rst in E5 at 1. rewrite E5. cbn.
  by rewrite <- app_assoc.
Qed.

End reading.
