(* ===== verification/VsockSpec.v ===== *)
(** * The vsock device: its properties

    The contract of the device: ports, the byte queue, sending under the
    guest's credit, the handshake, data from the guest, the invariant of every
    reachable device, and what reset and snapshots do.  The device of the
    witnesses runs on the queue of [VsockQueue] with one recording plug. *)

From S2P Require Import Prelude.
From S2P Require Import Archive.
From S2P Require Import Cable.
From S2P Require Import VsockState.
From S2P Require Import VsockDevice.
From S2P Require Import VsockFacts.
From S2P Require Import VsockInvariant.
From S2P Require Import VsockQueue.
From S2P Require Import VsockSnapshot.

(** ** Specifications *)

(** The operations of a [SocketBuffer], and the queue of bytes they stand
    for. *)
Inductive buf_op := BAppend (data : bytes) | BConsume (n : Z).

Fixpoint run_buf (ops : list buf_op) (b : SocketBuffer.t) : option SocketBuffer.t :=
  match ops with
  | [] => Some b
  | BAppend data :: ops => run_buf ops (SocketBuffer.append b data)
  | BConsume n :: ops => b ← SocketBuffer.consume b n; run_buf ops b
  end.

Fixpoint run_fifo (ops : list buf_op) (q : bytes) : option bytes :=
  match ops with
  | [] => Some q
  | BAppend data :: ops => run_fifo ops (q ++ data)
  | BConsume n :: ops =>
      if n <=? zlen q then run_fifo ops (drop (Z.to_nat n) q) else None
  end.

Definition op_nonneg (o : buf_op) : Prop :=
  match o with BAppend _ => True | BConsume n => 0 <= n end.

(** A call on a socket that is there, and that keeps it. *)
Definition live_call (k0 : skey) (l : Streams) (c : client_call) : Prop :=
  match c with
  | CSend k _ | CSwitchPlug k _ | CSetSniffer k _ => k = k0 \/ is_Some (streams_find k l)
  | _ => False
  end.

(** The world after a plug took the pieces, none of which is empty. *)
Definition deliver {P} (recv : bytes -> P -> P) (pieces : list bytes) (w : P) : P :=
  fold_left (fun w data => if zlen data =? 0 then w else recv data w) pieces w.

Definition total (pieces : list bytes) : Z := zlen (concat pieces).

(** ** A concrete device for the witnesses *)

Module Demo.

(** What happened to the plugs, newest first. *)
Inductive event := EConnect (p : plug_id) | EData (p : plug_id) (data : bytes) | EUnplug (p : plug_id).

(** Listener 7 accepts with plug 7, other listeners refuse; plug 7 greets the
    guest when its socket connects.  Plugs 8 and above support loading. *)
#[global] Instance world : PlugWorld (list event) := {
  plug_onConnect p w :=
    (EConnect p :: w, if p =? 7 then [CSend (1024, 5000) (str "hello")] else []);
  plug_onReceive p data w := (true, EData p data :: w, []);
  plug_onUnplug p w := EUnplug p :: w;
  listener_call l k w := (if l =? 7 then Some 7 else None, w);
  sniffer_toSocket n data w := w;
  sniffer_toPlug n data w := w;
  plug_supportsLoading p w := 8 <=? p;
  plug_typeId p w := str "demo";
  plug_saveState p w := (true, []);
}.

#[global] Instance discipline : PlugDiscipline (list event).
Proof. split; intros p; intros; cbn; [destruct (p =? 7)|]; by repeat constructor. Qed.

#[global] Instance loader : PlugLoader (list event) DequeArchive := {
  run_loader l k r w := (Some l, r, w);
}.

#[global] Instance parent : ParentState (list event) DequeArchive DequeArchive := {
  mParentStateSave := None; mParentStateLoad := None;
}.

Definition queue (bufs : list Z) : VirtQueue :=
  {| vq_bufs := bufs; vq_sent := []; vq_notified := 0 |}.

(** A device with listener 7 on port 5000. *)
Definition dev0 : Dev VirtQueue (list event) :=
  (listen 5000 7 (new_device (queue [48; 48; 200; 200]) [])).2.

Definition hdr (src dst o : Z) : virtio_vsock_hdr :=
  {| src_port := src; dst_port := dst; len := 0; op := o; buf_alloc := 3; fwd_cnt := 0 |}.

(** The guest connects from its port 1024. *)
Definition dev1 : option (Dev VirtQueue (list event)) :=
  onPacketReceiveControl (hdr 1024 5000 OP_REQUEST) dev0.

End Demo.

Example Demo_dev1 :
  (fun d => (vq_sent (mQueue d), SocketBuffer.peek <$> (hostToGuestBuf <$> mStreams d), mWorld d))
    <$> Demo.dev1 =
  Some ([(preparePacketHeader 5000 1024 OP_RESPONSE 0 0, []);
         (preparePacketHeader 5000 1024 OP_RW 0 3, str "hel")],
        [str "lo"], [Demo.EConnect 7]).
Proof. vm_compute. reflexivity. Qed.

(** ** Lemmas *)

Section live_calls.
Context {Q P : Type} `{TransportLaws Q} `{PlugWorld P}.
Implicit Types d : Dev Q P.

(** The sockets of the device and their plugs. *)
Definition same_sockets d d' : Prop := map stream_key (mStreams d) = map stream_key (mStreams d').

Lemma live_call_same k0 d d' c :
  same_sockets d d' -> live_call k0 (mStreams d) c -> live_call k0 (mStreams d') c.
Proof.
  intros E. destruct c; cbn; try done; (intros [->|Hk]; [by left|right]);
    by apply (streams_find_keys _ _ _ E).
Qed.

Lemma update_same_sockets d k f : keeps_key f -> same_sockets d (update_stream k f d).
Proof. intros Hf. unfold same_sockets. cbn. by rewrite streams_update_keys. Qed.

Lemma live_call_total k0 d c :
  Dev_ok d -> is_Some (streams_find k0 (mStreams d)) -> live_call k0 (mStreams d) c ->
  exists d', do_client_call c d = Some d' /\ Dev_ok d' /\ same_sockets d d'.
Proof.
  intros Hd H0k Hc.
  assert (match c with CSend k _ | CSwitchPlug k _ | CSetSniffer k _ =>
    is_Some (streams_find k (mStreams d)) | _ => False end) as Hk.
  { destruct c; cbn in Hc; try done; by destruct Hc as [->|]. }
  destruct c as [k data|k|k p|k n|guest p|host l]; try done; destruct Hk as [s Hk]; cbn.
  - unfold sendAsyncImpl. rewrite Hk. cbn [mbind option_bind].
    destruct (isConnected s); [|by exists d].
    set (d1 := match dataSniffer s with Some _ => _ | None => d end).
    assert (Dev_ok d1 /\ mStreams d1 = mStreams d) as [Hd1 Es]
      by (unfold d1; destruct (dataSniffer s); [split; [by apply Dev_ok_world|done]|done]).
    destruct (sendPacketsAndNotifyLocked_ok _ (Dev_ok_update d1 k _ (good_append data) Hd1))
      as (d2 & -> & Hd2 & _ & _ & _ & _ & Hsame). exists d2. split_and!; [done..|].
    apply same_streams_keys in Hsame. unfold same_sockets. rewrite <- Hsame. cbn.
    by rewrite streams_update_keys, Es.
  - unfold switchPlug. rewrite Hk. eexists. split_and!; [done| |by apply update_same_sockets].
    apply Dev_ok_update; [apply good_set_plug|done].
  - unfold setDataSniffer. rewrite Hk. eexists. split_and!; [done| |by apply update_same_sockets].
    apply Dev_ok_update; [apply good_set_sniffer|done].
Qed.

Lemma live_calls_total k0 cs d :
  Dev_ok d -> is_Some (streams_find k0 (mStreams d)) ->
  Forall (live_call k0 (mStreams d)) cs ->
  exists d', do_client_calls cs d = Some d' /\ Dev_ok d' /\ same_sockets d d'.
Proof.
  revert d. induction cs as [|c cs IH]; intros d Hd H0k Hcs; [by exists d|].
  apply Forall_cons in Hcs as [Hc Hcs]. cbn.
  destruct (live_call_total k0 d c Hd H0k Hc) as (d1 & -> & Hd1 & E1). cbn [mbind option_bind].
  destruct (IH d1 Hd1) as (d2 & -> & Hd2 & E2).
  - by apply (streams_find_keys _ _ _ E1).
  - eapply Forall_impl; [exact Hcs|]. intros c'. by apply live_call_same.
  - exists d2. split_and!; [done..|]. unfold same_sockets in *. congruence.
Qed.

Lemma call_onConnect_total k0 p d :
  Dev_ok d -> is_Some (streams_find k0 (mStreams d)) ->
  (forall w, Forall (live_call k0 (mStreams d)) (plug_onConnect p w).2) ->
  is_Some (call_onConnect p d).
Proof.
  intros Hd Hk Hc. unfold call_onConnect. specialize (Hc (mWorld d)).
  destruct (plug_onConnect p (mWorld d)) as [w cs].
  destruct (live_calls_total k0 cs (with_world w d)) as (d' & E & _); [|done|done|by rewrite E].
  by apply Dev_ok_world.
Qed.

End live_calls.

Lemma sendOp_bit o s : 0 <= o < 8 -> Z.testbit (sendOpMask (sendOp o s)) o = true.
Proof.
  intros Ho. cbn. unfold wrap. rewrite Z.mod_pow2_bits_low by lia.
  rewrite Z.lor_spec, Z.shiftl_1_l, Z.pow2_bits_true by lia. apply orb_true_r.
Qed.

(** Bytes the plug takes, piece by piece. *)
Section deliver_facts.
Context {Q P : Type} `{Transport Q} `{PlugWorld P}.
Implicit Types d : Dev Q P.

Lemma receive_rw_pieces_quiet p recv k pieces d s :
  (forall data w, plug_onReceive p data w = (true, recv data w, [])) ->
  streams_find k (mStreams d) = Some s -> isConnected s = true -> dataSniffer s = None ->
  plug s = Some p -> in_u 32 (hostFwdCnt s) ->
  exists d' s', receive_rw_pieces k pieces d = Some (0, d') /\
    mWorld d' = deliver recv pieces (mWorld d) /\
    streams_find k (mStreams d') = Some s' /\ same_sockets d d' /\
    hostFwdCnt s' = u32 (hostFwdCnt s + total pieces) /\
    hostToGuestBuf s' = hostToGuestBuf s /\ plug s' = plug s /\
    (Z.testbit (sendOpMask s) OP_CREDIT_UPDATE = true \/ total pieces <> 0 ->
     Z.testbit (sendOpMask s') OP_CREDIT_UPDATE = true).
Proof.
  intros Hrecv. revert d s. induction pieces as [|data pieces IH]; intros d s Hf Hc Hn Hp Hw.
  { exists d, s. unfold total. cbn. rewrite Z.add_0_r, wrap_small by done. split_and!; try done. by intros [|]. }
  cbn [receive_rw_pieces]. unfold deliver, total. cbn [fold_left concat].
  destruct (Z.eqb_spec (zlen data) 0) as [E0|E0].
  { destruct (IH d s Hf Hc Hn Hp Hw) as (d' & s' & IHs). exists d', s'.
    unfold total in *. by rewrite zlen_app, E0, Z.add_0_l. }
  unfold onPacketReceiveRw. rewrite Hf. cbn [mbind option_bind]. rewrite Hc, Hn, Hp.
  cbn [mbind option_bind]. rewrite Hrecv. cbn [do_client_calls mbind option_bind].
  cbn [mStreams with_world]. rewrite Hf. cbn [mbind option_bind fst snd negb Z.eqb].
  set (f := fun s0 : VsockStream => _).
  set (d1 := update_stream k f (with_world (recv data (mWorld d)) d)).
  assert (keeps_key f) as Hk by done.
  destruct (IH d1 (f s)) as (d' & s' & -> & Ew & Ef & Es & Eh & Eb & Epl & Em); [|done..| |].
  { by apply update_find. }
  { by apply wrap_range. }
  exists d', s'. split_and!; try done.
  - unfold same_sockets in *. rewrite <- Es. cbn. by rewrite streams_update_keys.
  - rewrite Eh. cbn. rewrite wrap_add_l. unfold total. rewrite zlen_app. f_equal. lia.
  - by rewrite Epl.
  - intros _. apply Em. left. by apply sendOp_bit.
Qed.

End deliver_facts.

Lemma run_buf_fifo ops b q :
  Forall op_nonneg ops -> SocketBuffer.ok b -> SocketBuffer.peek b = q ->
  SocketBuffer.peek <$> run_buf ops b = run_fifo ops q.
Proof.
  intros Hops. revert b q. induction Hops as [|o ops Ho Hops IH]; intros b q Hb Hq; cbn.
  { by rewrite Hq. }
  destruct o as [data|n].
  - destruct (SocketBufferFacts.peek_append b data Hb) as [Hp Hok]. apply IH; [done|congruence].
  - cbn in Ho. destruct (Z.leb_spec n (zlen q)).
    + destruct (SocketBufferFacts.consume_peek b n Hb) as (b' & -> & Hb' & Hp); [by subst|].
      apply IH; [done|congruence].
    + unfold SocketBuffer.consume. subst q. rewrite SocketBufferFacts.zlen_peek in H by done.
      by rewrite (proj2 (Z.leb_gt _ _)) by lia.
Qed.

(** A stream that used its whole credit has none left. *)
Lemma guestAvailSize_used s s' :
  same_stream s s' -> hostSentCnt s' = u32 (hostSentCnt s + guestAvailSize s) ->
  guestAvailSize s' = 0.
Proof.
  intros (_ & _ & _ & _ & Ea & Ef & _) Ec. unfold guestAvailSize at 1. rewrite Ea, Ef, Ec.
  rewrite wrap_sub_l, wrap_sub_r. unfold guestAvailSize. rewrite wrap_sub_r.
  replace (_ - (_ + _ - _)) with
    (guestBufAlloc s - (hostSentCnt s - guestFwdCnt s) -
     u32 (guestBufAlloc s - (hostSentCnt s - guestFwdCnt s))) by lia.
  rewrite wrap_sub_r, Z.sub_diag. done.
Qed.

Lemma iov_pieces_concat size offset iovec :
  0 <= size -> 0 <= offset ->
  concat (iov_pieces size offset iovec) =
  take (Z.to_nat size) (drop (Z.to_nat offset) (concat iovec)).
Proof.
  revert size offset. induction iovec as [|v iovec IH]; intros size offset Hs Ho; cbn.
  { by rewrite drop_nil, take_nil. }
  destruct (Z.eqb_spec size 0) as [->|Hz]; [done|].
  pose proof (zlen_nonneg v) as Hv. set (k := Z.min offset (zlen v)).
  set (n := Z.min size (zlen v - k)).
  assert (0 <= k <= zlen v /\ k <= offset /\ 0 <= n <= size) as (Hk & Hko & Hn)
    by (unfold k, n; lia).
  rewrite drop_app, take_app.
  assert (take (Z.to_nat n) (drop (Z.to_nat k) v) =
          take (Z.to_nat size) (drop (Z.to_nat offset) v)) as Ehead.
  { destruct (Z.le_gt_cases offset (zlen v)).
    - replace k with offset in * by (unfold k; lia).
      destruct (Z.le_gt_cases size (zlen v - offset)).
      + by replace n with size by (unfold n; lia).
      + rewrite !take_ge; [done|rewrite length_drop; unfold zlen in *; lia..].
    - replace k with (zlen v) in * by (unfold k; lia).
      rewrite !drop_ge by (unfold zlen in *; lia). by rewrite !take_nil. }
  assert (concat (iov_pieces (size - n) (offset - k) iovec) =
          take (Z.to_nat size - length (drop (Z.to_nat offset) v))
            (drop (Z.to_nat offset - length v) (concat iovec))) as Etail.
  { rewrite IH by lia. unfold zlen in *. rewrite length_drop. f_equal; [|f_equal]; lia. }
  rewrite <- Ehead, <- Etail. destruct (Z.ltb_spec 0 n); [done|].
  by replace n with 0 by lia.
Qed.

Lemma Demo_dev0_ok : Dev_ok Demo.dev0.
Proof.
  apply (do_client_call_ok (new_device (Demo.queue [48; 48; 200; 200]) []) (CListen 5000 7));
    [apply new_device_ok|reflexivity..].
  split; [by repeat constructor|reflexivity].
Qed.

(** The device after the guest's connection: one connected stream, two bytes
    left to send. *)
Lemma Demo_dev1_ok : exists d, Demo.dev1 = Some d /\ Dev_ok d.
Proof.
  destruct Demo.dev1 as [d|] eqn:E; [|by vm_compute in E]. exists d. split; [done|].
  apply (onPacketReceiveControl_ok (Demo.hdr 1024 5000 OP_REQUEST) Demo.dev0);
    [apply Demo_dev0_ok| |exact E].
  unfold header_ok, in_u. cbn. lia.
Qed.

(** ** The device invariant *)

(** C1: every device reached from a new one through packets of the guest,
    sending, and calls of the plugs (a reset of the device and the loading of
    a snapshot are not among these steps) satisfies the invariant: the
    streams are sorted by their key and have a plug, their counters and
    buffers are in range, and the dynamic host ports in use are exactly the
    ids the port allocator has handed out, each used by one stream, so no
    port is lost. *)
Theorem vsock_reachable_ok {Q P} `{TransportLaws Q} `{PlugWorld P} `{!PlugDiscipline P}
    (q : Q) (w : P) (d : Dev Q P) :
  queue_ok q -> dev_reach (new_device q w) d -> Dev_ok d.
Proof. intros Hq. apply dev_reach_ok, new_device_ok, Hq. Qed.

Lemma vsock_reachable_ok_witness :
  exists d, Demo.dev1 = Some d /\ Dev_ok d.
Proof.
  destruct Demo.dev1 as [d|] eqn:E; [|by vm_compute in E]. exists d. split; [done|].
  apply (vsock_reachable_ok (Demo.queue [48; 48; 200; 200]) ([] : list Demo.event)).
  - split; [by repeat constructor|reflexivity].
  - eapply reach_step; [eapply reach_step; [apply reach_init|]|].
    + apply (step_call (CListen 5000 7)); [reflexivity|reflexivity].
    + apply (step_control (Demo.hdr 1024 5000 OP_REQUEST)); [|exact E].
      unfold header_ok, in_u. cbn. lia.
Defined.

(** C4: a control packet of the guest never makes the device fail an
    assertion or use a stream that is gone, when the plugs' [onConnect] calls
    stay on sockets that are there. *)
Theorem vsock_control_total {Q P} `{TransportLaws Q} `{PlugWorld P} (h : virtio_vsock_hdr)
    (d : Dev Q P) :
  Dev_ok d -> header_ok h ->
  (forall p w, Forall (live_call (src_port h, dst_port h) (mStreams d)) (plug_onConnect p w).2) ->
  is_Some (onPacketReceiveControl h d).
Proof.
  intros Hd Hh Hc. unfold onPacketReceiveControl. destruct (op h =? OP_REQUEST).
  - assert (is_Some (processPacketOpRequestLocked h d)) as [[b d1] ->]; [|by destruct b; eexists].
    rewrite processPacketOpRequestLocked_eq.
    destruct (mHostPortListeners d !! dst_port h) as [l|] eqn:El; [|by eexists].
    destruct (streams_find _ _) eqn:Ef; [by eexists|].
    destruct (listener_call _ _ _) as [[p|] w]; [|by eexists].
    pose proof (Dev_ok_accepted h p w d Hd Hh (ok_listeners d Hd _ _ El) Ef) as Ha.
    assert (forall k, k = (src_port h, dst_port h) \/ is_Some (streams_find k (mStreams d)) ->
              is_Some (streams_find k (mStreams (with_accepted h p w d)))) as Hk.
    { intros k Hk. cbn.
      assert (exists s, s ∈ streams_insert (accepted h p) (mStreams d) /\ stream_key s = k)
        as (s & Hs & <-).
      { destruct Hk as [->|[s Hs]].
        - exists (accepted h p). split; [apply elem_of_streams_insert; [done|by left]|done].
        - apply streams_find_Some in Hs as [Hs ?]. exists s.
          split; [apply elem_of_streams_insert; [done|by right]|done]. }
      exists s. apply streams_find_elem; [apply Ha|done|done]. }
    destruct (call_onConnect_total (src_port h, dst_port h) p _ Ha) as [d1 ->]; [auto| |by eexists].
    intros w'. eapply Forall_impl; [apply Hc|]. intros c Hlc. destruct c; cbn in *; auto.
  - destruct (streams_find _ _) as [s|] eqn:Ef; [|by destruct (negb _); eexists].
    pose proof (find_has_plug _ _ _ Hd Ef) as [p Hp].
    pose proof (Dev_ok_update d (src_port h, dst_port h) _ (good_set_guest_counters h Hh) Hd) as Hd1.
    pose proof (update_find d _ (set_guest_counters h) s ltac:(done) Ef) as Ef1.
    set (d1 := update_stream _ _ d) in *.
    assert (forall o, is_Some (recycle_and_erase (set_guest_counters h s) o d1)) as Hrec.
    { intros o. destruct (recycle_and_erase_spec d1 (set_guest_counters h s) o p Hd1)
        as (d2 & -> & _); [exact (streams_find_key _ _ _ Ef1)|done|by eexists]. }
    change (plug (set_guest_counters h s)) with (plug s). rewrite Hp.
    destruct (op h =? OP_RESPONSE); [|by repeat case_match; eauto].
    cbn [mbind option_bind]. apply (call_onConnect_total (src_port h, dst_port h)).
    + apply Dev_ok_update; [apply good_set_isConnected|done].
    + cbn. rewrite !streams_find_update by done. rewrite Ef. by eexists.
    + intros w. eapply Forall_impl; [apply Hc|]. intros c. apply live_call_same.
      unfold same_sockets, d1. cbn. by rewrite !streams_update_keys.
Qed.

Lemma vsock_control_total_witness :
  is_Some (onPacketReceiveControl (Demo.hdr 1024 5000 OP_REQUEST) Demo.dev0).
Proof.
  apply vsock_control_total.
  - apply Demo_dev0_ok.
  - unfold header_ok, in_u. cbn. lia.
  - intros p w. cbn. destruct (p =? 7); repeat constructor.
Defined.

(** ** Sending *)

(** C3: one pass of sending always completes on a well formed device.  The
    RST and SHUTDOWN packets of retired streams leave in the order they were
    queued and before anything else; then the streams [l1] are served in key
    order, and what the guest receives is exactly the concatenation of what
    each stream sent.  The pass ends when no orphan is left and every stream
    is drained (no operation pending, all the data the guest's credit allows
    gone), or at a packet the guest had no buffers for, and then everything
    before that packet's stream is drained. *)
Theorem vsock_send_pass {Q P} `{TransportLaws Q} `{PlugWorld P} (d : Dev Q P) :
  Dev_ok d ->
  exists n d' o1 l1 l1' l2 pss,
    sendPackets d = Some (n, d') /\ Dev_ok d' /\
    mOrphanPackets d = o1 ++ mOrphanPackets d' /\
    mStreams d = l1 ++ l2 /\ mStreams d' = l1' ++ l2 /\
    to_guest (mQueue d') = to_guest (mQueue d) ++ map (fun h => (h, [])) o1 ++ concat pss /\
    Forall3 stream_sent l1 l1' pss /\ (mOrphanPackets d' <> [] -> l1 = []) /\
    ((mOrphanPackets d' = [] /\ l2 = [] /\ Forall2 drained l1 l1') \/
     (refused (mQueue d') /\
      (mOrphanPackets d' <> [] \/
       exists a x a' x', l1 = a ++ [x] /\ l1' = a' ++ [x'] /\ Forall2 drained a a'))).
Proof.
  intros Hd. destruct (sendPacketsLocked_spec d Hd)
    as (n & d' & o1 & l1 & l1' & l2 & pss & E & Hd' & _ & Hspec).
  exists n, d', o1, l1, l1', l2, pss. done.
Qed.

Lemma vsock_send_pass_witness :
  exists n d', sendPackets (queueOrphan (Demo.hdr 5000 1024 OP_RST) Demo.dev0) = Some (n, d') /\
    mOrphanPackets d' = [] /\
    vq_sent (mQueue d') = [(Demo.hdr 5000 1024 OP_RST, [])].
Proof.
  destruct (vsock_send_pass (queueOrphan (Demo.hdr 5000 1024 OP_RST) Demo.dev0))
    as (n & d' & o1 & l1 & l1' & l2 & pss & E & _).
  - apply Dev_ok_queueOrphan; [reflexivity|apply Demo_dev0_ok].
  - exists n, d'. vm_compute in E. injection E as <- <-. split_and!; vm_compute; reflexivity.
Defined.

(** C2: what one stream sends respects the guest's credit: the data packets
    carry a prefix of the queue no longer than the guest's free space, the
    rest of the queue stays, and the count of sent bytes advances by exactly
    that much; every control operation that left the mask was sent exactly
    once, in the order of [ops], before any data. *)
Theorem vsock_stream_credit {Q} `{TransportLaws Q} (q : Q) (s : VsockStream) (n : bool) :
  queue_ok q -> stream_ok s ->
  exists full n' s' q' ctl dat,
    send_stream q s n = Some (full, n', s', q') /\ stream_ok s' /\ same_stream s s' /\
    to_guest q' = to_guest q ++ map (control_packet s) ctl ++ dat /\
    pending (effective_mask s) send_ops_order = ctl ++ pending (sendOpMask s') send_ops_order /\
    Forall (data_packet s) dat /\
    SocketBuffer.peek (hostToGuestBuf s) =
      concat (map snd dat) ++ SocketBuffer.peek (hostToGuestBuf s') /\
    zlen (concat (map snd dat)) <= guestAvailSize s /\
    hostSentCnt s' = u32 (hostSentCnt s + zlen (concat (map snd dat))) /\
    (full = false -> sendOpMask s' = 0 /\
      (guestAvailSize s' = 0 \/ SocketBuffer.peek (hostToGuestBuf s') = [])).
Proof.
  intros Hq Hs. destruct (send_stream_spec q s n Hq Hs)
    as (full & n' & s' & q' & ctl & dat & sent & E & Hq' & Hs' & Hsame & Eg & Ep &
        Hsd & Hle & _ & Hfull & _).
  pose proof Hsd as (Hd & Ecat & Epk & Hsent & Ecnt).
  assert (zlen (concat (map snd dat)) = sent) as El by (rewrite Ecat; by apply zlen_take).
  exists full, n', s', q', ctl, dat. rewrite El. split_and!; try done.
  - by rewrite Ecat, Epk, take_drop.
  - intros Hf. split; [apply (Hfull Hf)|].
    destruct (drained_sent s s' sent dat (Hfull Hf) Hsd Hle) as [E1|E1]; [left|by right].
    apply (guestAvailSize_used s); [done|]. by rewrite Ecnt, E1.
Qed.

Lemma vsock_stream_credit_witness :
  let s := set_guest_counters (Demo.hdr 1024 5000 OP_RW)
    (set_buf (SocketBuffer.append SocketBuffer.init (str "hello")) (new_stream (1024, 5000))) in
  exists s' q', send_stream (Demo.queue [48; 48]) s false = Some (false, true, s', q') /\
    SocketBuffer.peek (hostToGuestBuf s') = str "lo" /\ guestAvailSize s' = 0.
Proof.
  intros s.
  destruct (vsock_stream_credit (Demo.queue [48; 48]) s false)
    as (full & n' & s' & q' & ctl & dat & E & _).
  - split; [by repeat constructor|reflexivity].
  - by_compute.
  - exists s', q'. vm_compute in E. injection E as <- <- <- <-. split_and!; vm_compute; reflexivity.
Defined.

(** The queue of bytes to the guest behaves as a first-in first-out
    queue under any sequence of appends and consumes, whatever the lazy
    trimming of its consumed prefix; consuming more than it holds fails the
    assertion and nothing else does. *)
Theorem SocketBuffer_refines_fifo (ops : list buf_op) :
  Forall op_nonneg ops ->
  SocketBuffer.peek <$> run_buf ops SocketBuffer.init = run_fifo ops [].
Proof. intros Hops. by apply run_buf_fifo. Qed.

Lemma SocketBuffer_refines_fifo_witness :
  SocketBuffer.peek <$>
    run_buf [BAppend (str "ab"); BConsume 1; BAppend (str "c"); BConsume 2; BAppend (str "d")]
      SocketBuffer.init = Some (str "d").
Proof.
  rewrite (SocketBuffer_refines_fifo
    [BAppend (str "ab"); BConsume 1; BAppend (str "c"); BConsume 2; BAppend (str "d")]);
    [reflexivity|]. repeat constructor; by_compute.
Defined.

(** ** Ports *)

(** [UniqueIdAllocator::get] hands out an id that is not live and makes
    exactly it live; [put] of a live id passes its assertion and makes
    exactly it free; getting and putting back restores the set of live ids. *)
Theorem UniqueIdAllocator_get_put (a : UniqueIdAllocator.t) :
  UniqueIdAllocator.ok a -> UniqueIdAllocator.mLastId a < 2 ^ 31 - 1 ->
  let '(id, a1) := UniqueIdAllocator.get a in
  1 <= id < 2 ^ 31 /\ ~ UniqueIdAllocator.live a id /\ UniqueIdAllocator.ok a1 /\
  (forall j, UniqueIdAllocator.live a1 j <-> UniqueIdAllocator.live a j \/ j = id) /\
  forall k, UniqueIdAllocator.live a1 k ->
    exists a2, UniqueIdAllocator.put a1 k = Some a2 /\ UniqueIdAllocator.ok a2 /\
      (forall j, UniqueIdAllocator.live a2 j <->
        (UniqueIdAllocator.live a j \/ j = id) /\ j <> k).
Proof.
  intros Ha Hlt. pose proof (UniqueIdAllocatorFacts.get_ok a Ha Hlt) as Hg.
  destruct (UniqueIdAllocator.get a) as [id a1]. destruct Hg as (Ha1 & Hnl & Hid & Hl).
  split_and!; try done; try lia. intros k Hk.
  destruct (UniqueIdAllocatorFacts.put_ok a1 k Ha1 Hk) as (a2 & E & Ha2 & Hl2).
  exists a2. split_and!; [done..|]. intros j. by rewrite Hl2, Hl.
Qed.

Lemma UniqueIdAllocator_get_put_witness :
  exists a2, UniqueIdAllocator.put (UniqueIdAllocator.get UniqueIdAllocator.init).2 1 = Some a2 /\
    UniqueIdAllocator.ok a2.
Proof.
  pose proof (UniqueIdAllocator_get_put UniqueIdAllocator.init) as Hg.
  destruct Hg as (_ & _ & _ & _ & Hput).
  - apply UniqueIdAllocatorFacts.init_ok.
  - reflexivity.
  - destruct (Hput 1) as (a2 & E & Hok & _).
    + split; [by_compute|]. apply not_elem_of_nil.
    + exists a2. by split.
Defined.

(** ** Connections *)

(** C6: a connection request of the guest.  Without a listener on the port,
    or when the listener refuses, the answer is an RST and no stream is
    left; a repeated request changes nothing; an accepted request leaves a
    connected stream with the listener's plug, the guest's counters and a
    RESPONSE to send, and the plug is told. *)
Theorem vsock_request {Q P} `{Transport Q} `{PlugWorld P} (h : virtio_vsock_hdr) (d : Dev Q P) :
  op h = OP_REQUEST ->
  onPacketReceiveControl h d =
  match mHostPortListeners d !! dst_port h with
  | None => Some (queueOrphanReply h OP_RST d)
  | Some listener =>
      match streams_find (src_port h, dst_port h) (mStreams d) with
      | Some _ => Some d
      | None =>
          match listener_call listener (src_port h, dst_port h) (mWorld d) with
          | (None, w) => Some (queueOrphanReply h OP_RST (with_world w d))
          | (Some p, w) => call_onConnect p (with_accepted h p w d)
          end
      end
  end /\
  forall p, stream_key (accepted h p) = (src_port h, dst_port h) /\
    plug (accepted h p) = Some p /\ isConnected (accepted h p) = true /\
    guestAvailSize (accepted h p) = u32 (buf_alloc h - u32 (0 - fwd_cnt h)) /\
    pending (sendOpMask (accepted h p)) send_ops_order = [OP_RESPONSE].
Proof.
  intros Ho. split; [|intros p; by split_and!].
  unfold onPacketReceiveControl. rewrite Ho, processPacketOpRequestLocked_eq. cbn [Z.eqb OP_REQUEST].
  destruct (mHostPortListeners d !! dst_port h); [|done].
  destruct (streams_find _ _); [done|]. destruct (listener_call _ _ _) as [[p|] w]; [|done].
  change (OP_REQUEST =? OP_REQUEST) with true. cbv iota.
  by destruct (call_onConnect p _).
Qed.

Lemma vsock_request_witness :
  onPacketReceiveControl (Demo.hdr 1024 9999 OP_REQUEST) Demo.dev0 =
    Some (queueOrphan (preparePacketHeader 9999 1024 OP_RST 0 0) Demo.dev0).
Proof.
  destruct (vsock_request (Demo.hdr 1024 9999 OP_REQUEST) Demo.dev0 eq_refl) as [E _].
  rewrite E. vm_compute. reflexivity.
Defined.

(** A control packet other than a request for a stream that is not there
    is answered with exactly one RST to its sender, except an RST, which is
    never answered; nothing else changes. *)
Theorem vsock_unknown_stream {Q P} `{Transport Q} `{PlugWorld P} (h : virtio_vsock_hdr)
    (d : Dev Q P) :
  op h <> OP_REQUEST -> streams_find (src_port h, dst_port h) (mStreams d) = None ->
  onPacketReceiveControl h d =
    Some (if op h =? OP_RST then d
          else with_orphans (mOrphanPackets d ++
                 [{| src_port := dst_port h; dst_port := src_port h; len := 0; op := OP_RST;
                     buf_alloc := kHostBufAllocSize; fwd_cnt := 0 |}]) d).
Proof.
  intros Ho Hf. unfold onPacketReceiveControl. rewrite (proj2 (Z.eqb_neq _ _) Ho), Hf.
  by destruct (op h =? OP_RST).
Qed.

Lemma vsock_unknown_stream_witness :
  onPacketReceiveControl (Demo.hdr 1 2 OP_RST) Demo.dev0 = Some Demo.dev0.
Proof.
  exact (vsock_unknown_stream (Demo.hdr 1 2 OP_RST) Demo.dev0 ltac:(discriminate) eq_refl).
Defined.

(** A stream found by a packet, retired after the packet's counters were
    taken over. *)
Lemma retire_stream {Q P} `{TransportLaws Q} `{PlugWorld P} (h : virtio_vsock_hdr) (d : Dev Q P)
    (s : VsockStream) (p : plug_id) (o : Z) :
  Dev_ok d -> header_ok h -> streams_find (src_port h, dst_port h) (mStreams d) = Some s -> plug s = Some p ->
  exists d', recycle_and_erase (set_guest_counters h s) o
      (update_stream (src_port h, dst_port h) (set_guest_counters h) d) = Some d' /\ Dev_ok d' /\
    streams_find (src_port h, dst_port h) (mStreams d') = None /\
    mStreams d' = streams_erase (src_port h, dst_port h) (mStreams d) /\
    plug s = Some p /\ mWorld d' = plug_onUnplug p (mWorld d) /\
    port_freed s (mSrcPortAllocator d) (mSrcPortAllocator d') /\
    mQueue d' = mQueue d /\ mHostPortListeners d' = mHostPortListeners d /\
    mOrphanPackets d' = mOrphanPackets d ++ (if o =? OP_INVALID then [] else [prepareStreamHeader s o 0]).
Proof.
  intros Hd Hh Hf Hp.
  pose proof (Dev_ok_update d (src_port h, dst_port h) _ (good_set_guest_counters h Hh) Hd) as Hd1.
  pose proof (update_find d _ (set_guest_counters h) s ltac:(done) Hf) as Hf1.
  set (d1 := update_stream _ _ d) in *. pose proof Hf1 as [_ Ek]%streams_find_Some.
  destruct (recycle_and_erase_spec d1 (set_guest_counters h s) o p Hd1)
    as (d2 & E & Hd2 & Es & Eq & El & Eo & Ew & Ep); [exact (streams_find_key _ _ _ Hf1)|done|].
  rewrite Ek in Es. exists d2. split_and!; try done.
  - apply streams_find_None. rewrite Es. intros x Hx%elem_of_streams_erase; [tauto|apply Hd1].
  - rewrite Es. unfold d1. cbn. by apply streams_erase_update.
Qed.

(** C7: RST and SHUTDOWN of the guest retire the stream: it is gone and the
    other streams, the queue and the listeners are as they were, its plug [p]
    was told ([onUnplug], and nothing else of the world changed), its dynamic
    port is free again and no other port is; RST is not answered and SHUTDOWN
    is answered with one SHUTDOWN; an operation the device does not know
    retires the stream with an RST. *)
Theorem vsock_close {Q P} `{TransportLaws Q} `{PlugWorld P} (h : virtio_vsock_hdr) (d : Dev Q P)
    (s : VsockStream) :
  Dev_ok d -> header_ok h -> streams_find (src_port h, dst_port h) (mStreams d) = Some s ->
  op h <> OP_REQUEST -> op h <> OP_RESPONSE -> op h <> OP_CREDIT_UPDATE ->
  op h <> OP_CREDIT_REQUEST ->
  exists d' p, onPacketReceiveControl h d = Some d' /\ Dev_ok d' /\
    streams_find (src_port h, dst_port h) (mStreams d') = None /\
    mStreams d' = streams_erase (src_port h, dst_port h) (mStreams d) /\
    plug s = Some p /\ mWorld d' = plug_onUnplug p (mWorld d) /\
    port_freed s (mSrcPortAllocator d) (mSrcPortAllocator d') /\
    mQueue d' = mQueue d /\ mHostPortListeners d' = mHostPortListeners d /\
    mOrphanPackets d' = mOrphanPackets d ++
      (if op h =? OP_RST then []
       else [prepareStreamHeader s (if op h =? OP_SHUTDOWN then OP_SHUTDOWN else OP_RST) 0]).
Proof.
  intros Hd Hh Hf N1 N2 N3 N4. unfold onPacketReceiveControl.
  rewrite (proj2 (Z.eqb_neq _ _) N1), (proj2 (Z.eqb_neq _ _) N2), (proj2 (Z.eqb_neq _ _) N3),
    (proj2 (Z.eqb_neq _ _) N4), Hf.
  destruct (find_has_plug _ _ _ Hd Hf) as [p Hp]. pose proof (retire_stream h d s p) as Hrec.
  destruct (Z.eqb_spec (op h) OP_RST) as [E|E]; [destruct (Hrec OP_INVALID) as (d' & Hd'); try done; by exists d', p|].
  destruct (Z.eqb_spec (op h) OP_SHUTDOWN);
    [destruct (Hrec OP_SHUTDOWN) as (d' & Hd')|destruct (Hrec OP_RST) as (d' & Hd')]; try done; by exists d', p.
Qed.

Lemma vsock_close_witness :
  exists d d', Demo.dev1 = Some d /\
    onPacketReceiveControl (Demo.hdr 1024 5000 OP_SHUTDOWN) d = Some d' /\
    streams_find (1024, 5000) (mStreams d') = None.
Proof.
  destruct Demo_dev1_ok as (d & E & Hd).
  destruct (streams_find (1024, 5000) (mStreams d)) as [s|] eqn:Ef.
  2:{ vm_compute in E. injection E as <-. vm_compute in Ef. discriminate. }
  destruct (vsock_close (Demo.hdr 1024 5000 OP_SHUTDOWN) d s) as (d' & p & E' & _ & Hn & _);
    [exact Hd|by_compute|exact Ef|discriminate..|].
  exists d, d'. done.
Defined.

(** ** Data from the guest *)

(** C5: a data packet of the guest for a connected stream, however it is
    scattered over the guest's buffers, reaches the stream's plug as
    consecutive non-empty pieces whose concatenation is exactly the payload;
    the count of bytes forwarded advances by the payload's size and a credit
    update is scheduled. *)
Theorem vsock_guest_data {Q P} `{Transport Q} `{PlugWorld P}
    (decode : bytes -> hdr_ids * virtio_vsock_hdr) (cid : Z) (iovec : list bytes)
    (d : Dev Q P) (ids : hdr_ids) (h : virtio_vsock_hdr) (payload rest : bytes)
    (s : VsockStream) (p : plug_id) (recv : bytes -> P -> P) :
  decode (take 44 (concat iovec)) = (ids, h) ->
  ids = {| src_cid := cid; dst_cid := VMADDR_CID_HOST; hdr_type := VIRTIO_VSOCK_TYPE_STREAM |} ->
  op h = OP_RW -> 44 <= zlen (concat iovec) ->
  drop 44 (concat iovec) = payload ++ rest -> len h = zlen payload ->
  streams_find (src_port h, dst_port h) (mStreams d) = Some s ->
  isConnected s = true -> dataSniffer s = None -> plug s = Some p -> in_u 32 (hostFwdCnt s) ->
  (forall data w, plug_onReceive p data w = (true, recv data w, [])) ->
  exists d' s' pieces,
    virtio_vsock_parse_guest_to_host decode cid iovec d = Some d' /\
    concat pieces = payload /\ mWorld d' = deliver recv pieces (mWorld d) /\
    streams_find (src_port h, dst_port h) (mStreams d') = Some s' /\
    hostFwdCnt s' = u32 (hostFwdCnt s + zlen payload) /\
    (payload <> [] -> Z.testbit (sendOpMask s') OP_CREDIT_UPDATE = true).
Proof.
  intros Edec -> Ho Hlen Epay El Hf Hc Hn Hp Hw Hrecv.
  unfold virtio_vsock_parse_guest_to_host. change (Z.to_nat sizeof_hdr) with 44%nat.
  rewrite Edec. rewrite (proj2 (Z.ltb_ge _ _)) by (unfold sizeof_hdr; lia).
  assert (zlen (concat iovec) = 44 + zlen payload + zlen rest) as Etot.
  { rewrite <- (take_drop 44 (concat iovec)), Epay, !zlen_app. unfold zlen in *.
    rewrite length_take. lia. }
  pose proof (zlen_nonneg rest). pose proof (zlen_nonneg payload).
  rewrite (proj2 (Z.ltb_ge _ _)) by (unfold sizeof_hdr; lia).
  cbn [hdr_type dst_cid src_cid]. rewrite !Z.eqb_refl, Ho. cbn [negb Z.eqb Pos.eqb OP_RW].
  change (OP_RW =? OP_RW) with true. cbv iota. cbn [negb].
  unfold receive_rw, onPacketReceiveRwStart. rewrite Hf.
  set (pieces := iov_pieces (len h) sizeof_hdr iovec).
  assert (concat pieces = payload) as Epieces.
  { unfold pieces. rewrite iov_pieces_concat by (unfold sizeof_hdr; lia).
    change (Z.to_nat sizeof_hdr) with 44%nat. rewrite Epay, El. unfold zlen.
    by rewrite Nat2Z.id, take_app_length. }
  destruct (receive_rw_pieces_quiet p recv (src_port h, dst_port h) pieces
      (update_stream (src_port h, dst_port h) (set_guest_counters h) d) (set_guest_counters h s))
    as (d' & s' & -> & Ew & Ef & _ & Ec & _ & _ & Em); try done.
  { by apply update_find. }
  exists d', s', pieces. unfold total in *. rewrite Epieces in *.
  split_and!; try done. intros Hne. apply Em. right. unfold zlen. by destruct payload.
Qed.

Lemma vsock_guest_data_witness :
  let ids := {| src_cid := 3; dst_cid := 2; hdr_type := 1 |} in
  let h := {| src_port := 1024; dst_port := 5000; len := 5; op := OP_RW; buf_alloc := 3; fwd_cnt := 0 |} in
  let iovec := [replicate 44 0 ++ str "ab"; []; str "cde"] in
  exists d d' pieces, Demo.dev1 = Some d /\
    virtio_vsock_parse_guest_to_host (fun _ => (ids, h)) 3 iovec d = Some d' /\
    concat pieces = str "abcde" /\
    mWorld d' = deliver (fun data w => Demo.EData 7 data :: w) pieces [Demo.EConnect 7].
Proof.
  intros ids h iovec. destruct Demo_dev1_ok as (d & E & _).
  pose proof E as Ed. vm_compute in Ed. injection Ed as Ed.
  destruct (streams_find (1024, 5000) (mStreams d)) as [s|] eqn:Ef;
    [|rewrite <- Ed in Ef; vm_compute in Ef; discriminate].
  pose proof Ef as Es. rewrite <- Ed in Es. vm_compute in Es. injection Es as Es.
  destruct (vsock_guest_data (fun _ => (ids, h)) 3 iovec d ids h (str "abcde") [] s 7
    (fun data w => Demo.EData 7 data :: w)) as (d' & s' & pieces & E' & Ep & Ew & _);
    try reflexivity; try exact Ef; try (rewrite <- Es; first [reflexivity | by_compute]).
  - vm_compute. discriminate.
  - exists d, d', pieces. split_and!; try done. by rewrite Ew, <- Ed.
Defined.

(** ** Buffers of the guest *)

(** A guest buffer smaller than a packet header loses a control packet:
    the loop's [continue] evaluates [while (data8_size)], which is zero, so
    the send is reported as done, with room left and nothing delivered. *)
Theorem vsock_small_buffer_drops_control (vq : VirtQueue) (h : virtio_vsock_hdr) (e : Z)
    (bufs : list Z) :
  vq_bufs vq = e :: bufs -> e < sizeof_hdr -> len h = 0 ->
  let '(r, vq') := virtio_vsock_send_packet_host_to_guest vq h [] in
  VirtIOVSockSendIsVqFull r = false /\ VirtIOVSockSentSize r = len h /\
  vq_sent vq' = vq_sent vq /\ vq_bufs vq' = bufs.
Proof.
  intros Eb He El. unfold virtio_vsock_send_packet_host_to_guest. rewrite Eb, El. cbn [send_loop].
  change (take (Z.to_nat 0) []) with (@nil Z).
  rewrite (proj2 (Z.ltb_lt e sizeof_hdr)) by done. cbn [Z.eqb zlen length Z.of_nat].
  split_and!; reflexivity.
Qed.

Lemma vsock_small_buffer_drops_control_witness :
  vq_sent (virtio_vsock_send_packet_host_to_guest (Demo.queue [40; 100])
    (Demo.hdr 5000 1024 OP_RST) []).2 = [].
Proof.
  pose proof (vsock_small_buffer_drops_control (Demo.queue [40; 100])
    (Demo.hdr 5000 1024 OP_RST) 40 [100] eq_refl ltac:(reflexivity) eq_refl) as Hd.
  destruct (virtio_vsock_send_packet_host_to_guest _ _ _) as [r vq'].
  destruct Hd as (_ & _ & E & _). exact E.
Defined.

(** ** Reset *)

(** A reset by the guest ([NEEDS_RESET]) tells every plug and forgets the
    orphan packets and the ports in use, but the streams stay in the set:
    while a stream on the first dynamic port is left, the next connection to
    its guest port fails the assertion that it is new. *)
Theorem vsock_reset_keeps_streams {Q P} `{Transport Q} `{PlugWorld P} (status : Z) (d : Dev Q P) :
  Forall has_plug (mStreams d) ->
  Z.land status VIRTIO_CONFIG_S_FAILED = 0 ->
  Z.land status VIRTIO_CONFIG_S_NEEDS_RESET <> 0 ->
  exists d', setStatus status d = Some d' /\ mStreams d' = mStreams d /\
    mOrphanPackets d' = [] /\ mSrcPortAllocator d' = UniqueIdAllocator.init /\
    forall guest p, is_Some (streams_find (guest, kDynamicPortsStart + 1) (mStreams d)) ->
      connect guest p d' = None.
Proof.
  intros Hp Hf Hr. unfold setStatus. rewrite Hf, (proj2 (Z.eqb_neq _ 0) Hr). cbn [negb Z.eqb].
  assert (forall w, is_Some (unplug_all (mStreams d) w)) as Hu.
  { induction Hp as [|s l [p Es] Hl IH]; intros w; [by eexists|]. cbn. rewrite Es. apply IH. }
  destruct (Hu (mWorld d)) as [w ->]. cbn [mbind option_bind].
  eexists. split_and!; [reflexivity..|]. intros guest p [s Es].
  unfold connect. cbn -[kDynamicPortsStart streams_find Z.add Z.pow].
  change (u32 (u32 (0 + 1) + kDynamicPortsStart)) with (kDynamicPortsStart + 1).
  by rewrite Es.
Qed.

Lemma vsock_reset_keeps_streams_witness :
  exists k d d', connect 77 3 Demo.dev0 = Some (k, d) /\
    setStatus VIRTIO_CONFIG_S_NEEDS_RESET d = Some d' /\ connect 77 3 d' = None.
Proof.
  destruct (connect 77 3 Demo.dev0) as [[k d]|] eqn:E; [|vm_compute in E; discriminate].
  destruct (vsock_reset_keeps_streams VIRTIO_CONFIG_S_NEEDS_RESET d) as (d' & E' & _ & _ & _ & Hc).
  - vm_compute in E. injection E as <- <-. repeat constructor. by exists 3.
  - reflexivity.
  - discriminate.
  - exists k, d, d'. split_and!; [reflexivity|exact E'|]. apply Hc.
    vm_compute in E. injection E as <- <-. vm_compute. by eexists.
Defined.

(** ** Snapshots *)

(** C8: saving a device none of whose plugs supports loading and loading it
    into any device restores the port allocator and the orphan packets,
    leaves no stream, and queues for the guest one RST per stream that did
    not survive, in key order, before anything is sent. *)
Theorem vsock_snapshot_roundtrip {Q P W R} `{Transport Q} `{PlugWorld P} `{IWriterLaws W}
    `{IReaderLaws R} `{PlugLoader P R} `{!ParentState P W R} (loaders : PlugLoadersMap)
    (d d0 : Dev Q P) (w : W) (r : R) (rest : bytes) :
  mParentStateSave (R := R) = None -> mParentStateLoad (W := W) = None ->
  UniqueIdAllocator.ok (mSrcPortAllocator d) ->
  zlen (UniqueIdAllocator.mReturnedIds (mSrcPortAllocator d)) < 2 ^ 32 ->
  Forall orphan_ok (mOrphanPackets d) -> zlen (mOrphanPackets d) < 2 ^ 64 ->
  Forall stream_ports_ok (mStreams d) -> zlen (mStreams d) < 2 ^ 64 ->
  Forall (fun s => exists p, plug s = Some p /\ plug_supportsLoading p (mWorld d) = false)
    (mStreams d) ->
  exists w', saveToSnapshot d w = Some (0, w') /\
    (emitted w' ++ rest = emitted w ++ remaining r ->
     exists r', remaining r' = rest /\
       loadFromSnapshot loaders d0 r =
         d1 ← sendPacketsAndNotifyLocked
           (with_orphans (mOrphanPackets d ++ map stream_rst (mStreams d))
             (with_streams [] (with_allocator (mSrcPortAllocator d) d0)));
         Some (0, d1, r')).
Proof.
  intros Hps Hpl Ha Hids Hor Hol Hst Hsl Hun. unfold saveToSnapshot. rewrite Hps.
  cbn [negb Z.eqb].
  match goal with |- context [save_streams (mStreams d) (mWorld d) ?w0] =>
    destruct (save_streams_unloadable (mStreams d) (mWorld d) w0 Hun) as (w' & -> & Ew) end.
  exists w'. split; [done|]. intros E. rewrite Ew in E.
  rewrite emitted_putUnsigned, emitted_orphans, emitted_putUnsigned, emitted_allocator in E.
  rewrite <- !app_assoc in E. apply app_inv_head in E. symmetry in E.
  pose proof (zlen_nonneg (mOrphanPackets d)). pose proof (zlen_nonneg (mStreams d)).
  unfold loadFromSnapshot. rewrite Hpl. cbn [negb Z.eqb].
  destruct (load_allocator_app _ r _ Ha Hids E) as (r1 & -> & E1).
  destruct (getUnsigned_app r1 (zlen (mOrphanPackets d)) _ ltac:(unfold in_u; lia) E1) as (r2 & -> & E2).
  unfold zlen at 1. rewrite Nat2Z.id.
  destruct (load_orphans_app _ [] r2 _ Hor E2) as (r3 & -> & E3).
  destruct (getUnsigned_app r3 (zlen (mStreams d)) _ ltac:(unfold in_u; lia) E3) as (r4 & -> & E4).
  unfold zlen at 1. rewrite Nat2Z.id.
  match goal with |- context [load_streams loaders _ ?d2 r4] =>
    destruct (load_streams_app loaders (mStreams d) d2 r4 rest Hst E4) as (r5 & -> & E5) end.
  exists r5. split; [done|]. by destruct d0.
Qed.

Lemma vsock_snapshot_roundtrip_witness :
  exists d w' d1 r', Demo.dev1 = Some d /\
    saveToSnapshot d {| storage := [] |} = Some (0, w') /\
    loadFromSnapshot ∅ (new_device (Demo.queue []) []) w' = Some (0, d1, r') /\
    mOrphanPackets d1 = [preparePacketHeader 5000 1024 OP_RST 0 0].
Proof.
  destruct Demo_dev1_ok as (d & E & Hd). pose proof E as Ed.
  vm_compute in Ed. injection Ed as Ed.
  destruct (saveToSnapshot d {| storage := [] |}) as [[c w']|] eqn:Es;
    [|rewrite <- Ed in Es; vm_compute in Es; discriminate].
  destruct (vsock_snapshot_roundtrip ∅ d (new_device (Demo.queue []) []) {| storage := [] |} w' [])
    as (w2 & Ew & Hload).
  - reflexivity.
  - reflexivity.
  - apply Hd.
  - rewrite <- Ed. reflexivity.
  - rewrite <- Ed. constructor.
  - rewrite <- Ed. reflexivity.
  - rewrite <- Ed. repeat constructor; by_compute.
  - rewrite <- Ed. reflexivity.
  - rewrite <- Ed. repeat constructor. exists 7. split; reflexivity.
  - rewrite Es in Ew. injection Ew as -> ->. destruct Hload as (r' & _ & Hl).
    + cbn. by rewrite app_nil_r.
    + exists d, w2. rewrite Hl, <- Ed. vm_compute. eexists _, _. split_and!; try reflexivity.
      rewrite <- Es, <- Ed. vm_compute. reflexivity.
Defined.

(** A snapshot whose first stream supports loading is never loaded with
    success: whether the plug loads or not, the load reports failure ([return
    true] where 0 is success) and the streams after it are not read. *)
Theorem vsock_snapshot_loadable_fails {Q P R : Type} `{PlugWorld P} `{PlugLoader P R} `{IReader R}
    (loaders : PlugLoadersMap) (n : nat) (d : Dev Q P) (r : R) :
  (getUnsigned (getUnsigned (getUnsigned (getUnsigned r).2).2).2).1 <> 0 ->
  exists d' r', load_streams loaders (S n) d r = (Some 1, d', r') /\
    (length (mStreams d') <= S (length (mStreams d)))%nat.
Proof.
  cbn [load_streams]. destruct (getUnsigned r) as [guest r1]. cbn [snd].
  destruct (getUnsigned r1) as [host r2]. cbn [snd].
  destruct (getUnsigned r2) as [fwd r3]. cbn [snd].
  destruct (getUnsigned r3) as [supports r4]. cbn [fst]. intros Hs.
  rewrite (proj2 (Z.eqb_neq _ 0) Hs). cbn [negb].
  set (k := (u32 guest, u32 host)).
  destruct (streams_find k (mStreams d)) eqn:Ef; [eexists _, _; split; [done|lia]|].
  destruct (load_stream_state (new_stream k) (u32 fwd) r4) as [s r5] eqn:Es.
  pose proof (streams_insert_length s (mStreams d)) as Hi.
  destruct (loadPlugFromSnapshot _ _ _ _) as [[[p|] r6] w]; eexists _, _; (split; [reflexivity|]); cbn.
  - by rewrite streams_update_length.
  - pose proof (streams_erase_length k (streams_insert s (mStreams d))). lia.
Qed.

Lemma vsock_snapshot_loadable_fails_witness :
  exists d w, connect 77 8 (new_device (Demo.queue [48]) []) = Some d /\
    saveToSnapshot d.2 {| storage := [] |} = Some (0, w) /\
    exists d' r',
      load_streams (Q := VirtQueue) {[str "demo" := 8]} 1 (new_device (Demo.queue []) [])
        {| storage := drop 4 (storage w) |} = (Some 1, d', r').
Proof.
  destruct (connect 77 8 (new_device (Demo.queue [48]) [])) as [d|] eqn:E;
    [|vm_compute in E; discriminate].
  destruct (saveToSnapshot d.2 {| storage := [] |}) as [[c w]|] eqn:Es;
    [|vm_compute in E; injection E as <-; vm_compute in Es; discriminate].
  vm_compute in E. injection E as <-. vm_compute in Es. injection Es as <- <-.
  eexists _, _. split; [reflexivity|]. split; [reflexivity|].
  match goal with |- exists _ _, load_streams ?m _ ?d ?r = _ =>
    destruct (vsock_snapshot_loadable_fails m 0 d r) as (d' & r' & El & _) end.
  - vm_compute. discriminate.
  - exists d', r'. exact El.
Defined.
