(* ===== verification/CText.v ===== *)
(** * C text functions

    The functions of the C and C++ standard libraries that the modelled code
    uses on text: [strtol] and [strtoll], [std::to_string], [strncmp] and
    [strncasecmp], [std::getline], the comparison of strings.  A C string is a byte list; what follows
    its end reads as the terminator, zero. *)

From S2P Require Import Prelude.

(** ** Characters *)

(** The value of a byte read as a [char], which is signed. *)
Definition as_char (b : Z) : Z := if b <? 128 then b else b - 256.

Definition is_space (c : Z) : bool := (c =? 32) || ((9 <=? c) && (c <=? 13)).
Definition is_digit (c : Z) : bool := (48 <=? c) && (c <=? 57).

(** [tolower] in the C locale. *)
Definition tolower (c : Z) : Z := if (65 <=? c) && (c <=? 90) then c + 32 else c.

(** The characters of a [char*] up to its terminator. *)
Definition c_str (s : bytes) : bytes := fst (span (fun c => negb (c =? 0)) s).

(** The character a pointer into a C string sees. *)
Definition head0 (s : bytes) : Z := match s with [] => 0 | c :: _ => c end.

(** ** Comparison: [strncmp(a, b, n) == 0] *)

Fixpoint strncmp_by (norm : Z -> Z) (a b : bytes) (n : nat) {struct n} : bool :=
  match n with
  | O => true
  | S n =>
      match a, b with
      | x :: a, y :: b => (norm x =? norm y) && ((x =? 0) || strncmp_by norm a b n)
      | [], y :: _ => y =? 0
      | x :: _, [] => x =? 0
      | [], [] => true
      end
  end.

Definition strncmp_eq : bytes -> bytes -> nat -> bool := strncmp_by id.
Definition strncasecmp_eq : bytes -> bytes -> nat -> bool := strncmp_by tolower.

(** ** Numbers *)

(** The value of a string of digits. *)
Definition digits_value (ds : bytes) : Z := fold_left (fun acc c => acc * 10 + (c - 48)) ds 0.

(** [strtoll(s, &end, 10)] with [errno] cleared before: the value clipped to
    64 bits, whether [errno] was set, and what [end] points at. *)
Definition strtoll (s : bytes) : Z * bool * bytes :=
  let s1 := snd (span is_space s) in
  let '(neg, s2) := match s1 with
                    | c :: s2 => if c =? 45 then (true, s2) else if c =? 43 then (false, s2)
                                 else (false, s1)
                    | [] => (false, [])
                    end in
  let '(ds, rest) := span is_digit s2 in
  if zlen ds =? 0 then (0, false, s)
  else
    let v := if neg then - digits_value ds else digits_value ds in
    if v <? - 2 ^ 63 then (- 2 ^ 63, true, rest)
    else if 2 ^ 63 - 1 <? v then (2 ^ 63 - 1, true, rest)
    else (v, false, rest).

Fixpoint dec_loop (fuel : nat) (n : Z) : bytes :=
  match fuel with
  | O => []
  | S fuel => if n <? 10 then [48 + n] else dec_loop fuel (n / 10) ++ [48 + n mod 10]
  end.

(** [std::to_string] of an integer. *)
Definition to_string (n : Z) : bytes :=
  if n <? 0 then 45 :: dec_loop (Z.to_nat (Z.log2 (- n)) + 1) (- n)
  else dec_loop (Z.to_nat (Z.log2 n) + 1) n.

(** ** Lines: the [std::getline] loop *)

Fixpoint getlines (line : bytes) (s : bytes) : list bytes :=
  match s with
  | [] => if zlen line =? 0 then [] else [line]
  | c :: s => if c =? 10 then line :: getlines [] s else getlines (line ++ [c]) s
  end.

(** ** The order of [std::string] and of path names *)

Fixpoint bytes_le (a b : bytes) : Prop :=
  match a, b with
  | [], _ => True
  | _ :: _, [] => False
  | x :: a, y :: b => x < y \/ (x = y /\ bytes_le a b)
  end.
#[export] Instance bytes_le_dec : RelDecision bytes_le.
Proof.
  intros a. induction a as [|x a IH]; intros [|y b]; unfold Decision; cbn [bytes_le]; [left; exact I..|right; tauto|].
  destruct (decide (x < y)); [left; by left|]. destruct (decide (x = y)) as [->|]; [|right; tauto].
  destruct (IH b); [left; by right|right; intros [|[_ ?]]; [lia|done]].
Defined.

(** ** Lemmas *)

Lemma c_str_id s : Forall (fun c => c <> 0) s -> c_str s = s.
Proof.
  intros Hs. unfold c_str. pose proof (span_all (fun c => negb (c =? 0)) s []) as E.
  rewrite app_nil_r in E. rewrite E; [done| |done].
  eapply Forall_impl; [exact Hs|]. intros c Hc. cbn. by rewrite (proj2 (Z.eqb_neq _ _) Hc).
Qed.

(** A C string. *)
Definition c_string (s : bytes) : Prop := Forall (fun c => c <> 0) s.

Lemma strncmp_eq_spec a b :
  c_string a -> c_string b ->
  strncmp_eq a b (length a) = true <-> exists t, b = a ++ t.
Proof.
  intros Ha. revert b. induction Ha as [|x a Hx Ha IH]; intros b Hb; cbn; [split; eauto|].
  destruct b as [|y b].
  - split; [intros E%Z.eqb_eq; done|intros [t E]; done].
  - apply Forall_cons in Hb as [Hy Hb]. unfold strncmp_eq in IH.
    rewrite andb_true_iff, orb_true_iff, (IH b Hb), !Z.eqb_eq. unfold id. split.
    + intros [-> [?|[t ->]]]; [done|]. by exists t.
    + intros [t [= -> ->]]. split; [done|]. right. by exists t.
Qed.

Lemma digits_value_snoc ds c : digits_value (ds ++ [c]) = digits_value ds * 10 + (c - 48).
Proof. unfold digits_value. by rewrite fold_left_app. Qed.

Lemma digits_value_nonneg ds : Forall (fun c => is_digit c = true) ds -> 0 <= digits_value ds.
Proof.
  induction ds as [|c ds IH] using rev_ind; intros Hd; [done|].
  apply Forall_app in Hd as [Hd Hc]. apply Forall_inv in Hc. specialize (IH Hd).
  rewrite digits_value_snoc. unfold is_digit in Hc.
  apply andb_true_iff in Hc as [?%Z.leb_le ?%Z.leb_le]. lia.
Qed.

Lemma dec_loop_spec fuel n :
  0 <= n -> n < 2 ^ Z.of_nat fuel ->
  Forall (fun c => is_digit c = true) (dec_loop fuel n) /\ digits_value (dec_loop fuel n) = n /\
  (0 < fuel -> dec_loop fuel n <> [])%nat.
Proof.
  revert n. induction fuel as [|fuel IH]; intros n Hn Hf; cbn [dec_loop].
  { change (2 ^ Z.of_nat 0) with 1 in Hf. assert (n = 0) as -> by lia. split_and!; [constructor|done|lia]. }
  destruct (Z.ltb_spec n 10).
  - split_and!; [|unfold digits_value; cbn; lia|done]. repeat constructor.
    unfold is_digit. rewrite !(proj2 (Z.leb_le _ _)) by lia. done.
  - pose proof (Z.mod_pos_bound n 10). pose proof (Z.div_mod n 10).
    destruct (IH (n / 10)) as (Hd & Hv & _); [apply Z.div_pos; lia| |].
    { rewrite Nat2Z.inj_succ, Z.pow_succ_r in Hf by lia. apply Z.div_lt_upper_bound; lia. }
    split_and!.
    + apply Forall_app. split; [done|]. repeat constructor.
      unfold is_digit. rewrite !(proj2 (Z.leb_le _ _)) by lia. done.
    + rewrite digits_value_snoc, Hv. lia.
    + intros _ E. by apply app_nil in E as [_ ?].
Qed.

Lemma to_string_nonneg n :
  0 <= n -> Forall (fun c => is_digit c = true) (to_string n) /\ digits_value (to_string n) = n /\
  to_string n <> [].
Proof.
  intros Hn. unfold to_string. rewrite (proj2 (Z.ltb_ge n 0)) by done.
  destruct (dec_loop_spec (Z.to_nat (Z.log2 n) + 1) n Hn) as (Hd & Hv & Hne).
  - destruct (decide (n = 0)) as [->|]; [done|].
    destruct (Z.log2_spec n ltac:(lia)) as [_ Hl]. pose proof (Z.log2_nonneg n).
    rewrite Nat2Z.inj_add, Z2Nat.id by lia. change (Z.of_nat 1) with 1.
    by replace (Z.log2 n + 1) with (Z.succ (Z.log2 n)) by lia.
  - split_and!; [done|done|]. apply Hne. lia.
Qed.

Lemma is_digit_not_space c : is_digit c = true -> is_space c = false /\ c <> 45 /\ c <> 43.
Proof.
  unfold is_digit, is_space. intros [H1%Z.leb_le H2%Z.leb_le]%andb_true_iff.
  rewrite (proj2 (Z.eqb_neq c 32)), (proj2 (Z.leb_gt c 13)) by lia.
  split; [by rewrite andb_false_r|lia].
Qed.

(** [strtoll] undoes [to_string] on what fits, and reports what does not. *)
Lemma strtoll_digits ds rest :
  Forall (fun c => is_digit c = true) ds -> ds <> [] ->
  match rest with [] => True | c :: _ => is_digit c = false end ->
  strtoll (ds ++ rest) =
  if digits_value ds <? 2 ^ 63 then (digits_value ds, false, rest)
  else (2 ^ 63 - 1, true, rest).
Proof.
  intros Hd Hne Hr. unfold strtoll. destruct ds as [|c ds]; [done|].
  pose proof (is_digit_not_space c (Forall_inv Hd)) as (Hsp & Hm & Hp).
  assert (span is_space ((c :: ds) ++ rest) = ([], (c :: ds) ++ rest)) as ->
    by (cbn; by rewrite Hsp).
  cbn [snd app]. rewrite (proj2 (Z.eqb_neq _ _) Hm), (proj2 (Z.eqb_neq _ _) Hp).
  change (c :: ds ++ rest) with ((c :: ds) ++ rest). rewrite (span_all is_digit (c :: ds) rest Hd Hr).
  rewrite (proj2 (Z.eqb_neq (zlen (c :: ds)) 0)) by (rewrite zlen_cons; pose proof (zlen_nonneg ds); lia).
  pose proof (digits_value_nonneg _ Hd). set (v := digits_value (c :: ds)) in *.
  rewrite (proj2 (Z.ltb_ge v _)) by lia.
  destruct (Z.ltb_spec (2 ^ 63 - 1) v), (Z.ltb_spec v (2 ^ 63)); try lia; done.
Qed.

Lemma strtoll_to_string n rest :
  0 <= n -> match rest with [] => True | c :: _ => is_digit c = false end ->
  strtoll (to_string n ++ rest) =
  if n <? 2 ^ 63 then (n, false, rest) else (2 ^ 63 - 1, true, rest).
Proof.
  intros Hn Hr. destruct (to_string_nonneg n Hn) as (Hd & Hv & Hne).
  rewrite strtoll_digits by done. by rewrite Hv.
Qed.

Lemma strtoll_to_string_neg n :
  n < 0 -> - 2 ^ 63 <= n -> strtoll (to_string n) = (n, false, []).
Proof.
  intros Hn Hb. unfold to_string. rewrite (proj2 (Z.ltb_lt n 0)) by done.
  assert (to_string (- n) = dec_loop (Z.to_nat (Z.log2 (- n)) + 1) (- n)) as <-
    by (unfold to_string; by rewrite (proj2 (Z.ltb_ge (- n) 0)) by lia).
  destruct (to_string_nonneg (- n) ltac:(lia)) as (Hd & Hv & Hne).
  unfold strtoll. cbn [span is_space Z.eqb orb andb Z.leb Z.compare Pos.compare snd].
  change (is_space 45) with false. cbn [snd]. change (45 =? 45) with true. cbv iota.
  pose proof (span_all is_digit (to_string (- n)) [] Hd I) as E. rewrite app_nil_r in E. rewrite E.
  rewrite (proj2 (Z.eqb_neq (zlen (to_string (- n))) 0)).
  2:{ destruct (to_string (- n)); [done|]. rewrite zlen_cons. pose proof (zlen_nonneg l). lia. }
  rewrite Hv. rewrite (proj2 (Z.ltb_ge _ _)), (proj2 (Z.ltb_ge _ _)) by lia.
  by replace (- - n) with n by lia.
Qed.

(** Lines written out are read back. *)
Lemma getlines_line line cur s :
  Forall (fun c => c <> 10) line -> getlines cur (line ++ 10 :: s) = (cur ++ line) :: getlines [] s.
Proof.
  intros Hl. revert cur. induction Hl as [|c line Hc Hl IH]; intros cur; cbn.
  - by rewrite app_nil_r.
  - rewrite (proj2 (Z.eqb_neq _ _) Hc), IH. by rewrite <- app_assoc.
Qed.

Lemma getlines_concat ls :
  Forall (Forall (fun c => c <> 10)) ls ->
  getlines [] (concat (map (fun l => l ++ [10]) ls)) = ls.
Proof.
  induction 1 as [|l ls Hl Hls IH]; [done|]. cbn [map concat].
  rewrite <- app_assoc. cbn [app]. by rewrite getlines_line, IH.
Qed.

(** The text of a number: its bytes, and a bound of its length. *)
Lemma dec_loop_length fuel n : (length (dec_loop fuel n) <= fuel)%nat.
Proof.
  revert n. induction fuel as [|fuel IH]; intros n; cbn [dec_loop]; [done|].
  destruct (n <? 10); [cbn; lia|]. rewrite length_app. cbn. specialize (IH (n / 10)). lia.
Qed.

Lemma digits_bytes ds : Forall (fun c => is_digit c = true) ds -> is_bytes ds.
Proof.
  intros H. eapply Forall_impl; [exact H|]. unfold is_digit, is_byte. intros c Hc.
  apply andb_true_iff in Hc as [H1%Z.leb_le H2%Z.leb_le]. lia.
Qed.

Lemma to_string_bytes n : is_bytes (to_string n).
Proof.
  destruct (Z.lt_ge_cases n 0) as [Hn|Hn].
  - destruct (to_string_nonneg (- n) ltac:(lia)) as (H & _).
    unfold to_string in *. rewrite (proj2 (Z.ltb_lt n 0)) by done.
    rewrite (proj2 (Z.ltb_ge (- n) 0)) in H by lia.
    constructor; [unfold is_byte; lia|]. by apply digits_bytes.
  - apply digits_bytes. by apply to_string_nonneg.
Qed.

Lemma to_string_length n w : 0 <= w -> - 2 ^ w < n < 2 ^ w -> zlen (to_string n) <= w + 2.
Proof.
  intros Hw Hn. assert (forall m, 0 <= m < 2 ^ w -> (Z.to_nat (Z.log2 m) + 1 <= Z.to_nat w + 1)%nat) as Hl.
  { intros m Hm. assert (Z.log2 m <= w); [|lia].
    destruct (decide (m = 0)) as [->|]; [change (Z.log2 0) with 0; lia|].
    apply Z.lt_le_incl, Z.log2_lt_pow2; lia. }
  unfold to_string. destruct (Z.ltb_spec n 0).
  - rewrite zlen_cons. unfold zlen. pose proof (dec_loop_length (Z.to_nat (Z.log2 (- n)) + 1) (- n)).
    specialize (Hl (- n) ltac:(lia)). lia.
  - unfold zlen. pose proof (dec_loop_length (Z.to_nat (Z.log2 n) + 1) n). specialize (Hl n ltac:(lia)). lia.
Qed.

(** The number of decimal digits. *)
Lemma dec_loop_digits fuel n k : 0 <= n < 10 ^ k -> 1 <= k -> zlen (dec_loop fuel n) <= k.
Proof.
  revert n k. induction fuel as [|fuel IH]; intros n k Hn Hk; cbn [dec_loop]; [rewrite zlen_nil; lia|].
  destruct (Z.ltb_spec n 10); [rewrite zlen_cons, zlen_nil; lia|].
  rewrite zlen_app, zlen_cons, zlen_nil.
  assert (k <> 1) by (intros ->; change (10 ^ 1) with 10 in Hn; lia).
  assert (zlen (dec_loop fuel (n / 10)) <= k - 1); [|lia].
  apply IH; [|lia]. split; [apply Z.div_pos; lia|]. apply Z.div_lt_upper_bound; [lia|].
  replace (10 * 10 ^ (k - 1)) with (10 ^ k); [lia|].
  rewrite <- (Z.pow_1_r 10) at 2. rewrite <- Z.pow_add_r by lia. f_equal. lia.
Qed.

Lemma to_string_digits n k : 0 <= n < 10 ^ k -> 1 <= k -> zlen (to_string n) <= k.
Proof.
  intros Hn Hk. unfold to_string. rewrite (proj2 (Z.ltb_ge n 0)) by lia. by apply dec_loop_digits.
Qed.

Lemma to_string_int64 n : - 2 ^ 63 <= n < 2 ^ 63 -> zlen (to_string n) <= 20.
Proof.
  intros Hn. unfold to_string. destruct (Z.ltb_spec n 0).
  - rewrite zlen_cons. assert (zlen (dec_loop (Z.to_nat (Z.log2 (- n)) + 1) (- n)) <= 19); [|lia].
    apply dec_loop_digits; lia.
  - assert (zlen (dec_loop (Z.to_nat (Z.log2 n) + 1) n) <= 19); [|lia]. apply dec_loop_digits; lia.
Qed.
