(* ===== verification/Stralloc.v ===== *)
(** * Dynamic strings

    Models [emulator/cmdline/src/android/utils/stralloc.cpp] and the temporary
    strings of [misc.cpp]: a buffer with its capacity and its length in 32 bit
    unsigned integers.  The specification is a list of bytes. *)

From S2P Require Import Prelude CText.

(** ** The object

    The buffer has as many bytes as were allocated. *)

Record stralloc_t := { s : bytes; n : Z; a : Z }.

Definition STRALLOC_INIT : stralloc_t := {| s := []; n := 0; a := 0 |}.

(** The string. *)
Definition content (st : stralloc_t) : bytes := take (Z.to_nat (n st)) (s st).

Definition UINT_MAX : Z := 2 ^ 32 - 1.

Definition stralloc_reset (_ : stralloc_t) : stralloc_t := STRALLOC_INIT.

(** The loop that finds the new capacity; [fuel] bounds its rounds. *)
Fixpoint grow (fuel : nat) (new_max len : Z) : Z :=
  match fuel with
  | O => new_max
  | S fuel =>
      if new_max <? len then
        let new_max2 := u32 (new_max + Z.shiftr new_max 1 + 16) in
        grow fuel (if new_max2 <? new_max then UINT_MAX else new_max2) len
      else new_max
  end.

(** What [realloc] adds has arbitrary contents. *)
Section junk.
Context (junk : Z).

Definition realloc (size : Z) (buf : bytes) : bytes :=
  take (Z.to_nat size) buf ++ replicate (Z.to_nat (size - zlen buf)) junk.

Definition stralloc_ready (len : Z) (st : stralloc_t) : stralloc_t :=
  let new_max := grow (Z.to_nat len) (a st) len in
  {| s := realloc new_max (s st); n := n st; a := new_max |}.

(** [None] is [exit(1)]. *)
Definition stralloc_readyplus (len : Z) (st : stralloc_t) : option stralloc_t :=
  let len2 := u32 (n st + len) in
  if len2 <? n st then None else Some (stralloc_ready len2 st).

(** [memcpy(s->s + at, from, len)] and the new length. *)
Definition put (at_ : Z) (from : bytes) (len : Z) (st : stralloc_t) : option stralloc_t :=
  buf ← write_at at_ from (s st);
  Some {| s := buf; n := len; a := a st |}.

Definition stralloc_copy (from st : stralloc_t) : option stralloc_t :=
  put 0 (content from) (n from) (stralloc_ready (n from) st).

Definition stralloc_add_bytes (from : bytes) (st : stralloc_t) : option stralloc_t :=
  st ← stralloc_readyplus (zlen from) st;
  put (n st) from (u32 (n st + zlen from)) st.

Definition stralloc_append (from st : stralloc_t) : option stralloc_t :=
  st ← stralloc_readyplus (n from) st;
  put (n st) (content from) (u32 (n st + n from)) st.

(** The first byte of the [int], which is its low byte. *)
Definition stralloc_add_c (c : Z) (st : stralloc_t) : option stralloc_t :=
  stralloc_add_bytes [c mod 256] st.

Definition stralloc_add_str (str : bytes) (st : stralloc_t) : option stralloc_t :=
  stralloc_add_bytes (c_str str) st.

(** The pointer returned is the buffer, which ends in a terminator now. *)
Definition stralloc_cstr (st : stralloc_t) : option stralloc_t :=
  st ← stralloc_readyplus 1 st;
  put (n st) [0] (n st) st.

Definition is_blank (c : Z) : bool := (c =? 32) || (c =? 9).

Definition stralloc_lstrip (st : stralloc_t) : option stralloc_t :=
  let count := zlen (fst (span is_blank (content st))) in
  if 0 <? count then put 0 (drop (Z.to_nat count) (content st)) (n st - count) st else Some st.

(** The length without the blanks at the end. *)
Fixpoint rstrip_len (count : nat) (buf : bytes) : Z :=
  match count with
  | O => 0
  | S c => match buf !! c with
           | Some x => if is_blank x then rstrip_len c buf else Z.of_nat count
           | None => Z.of_nat count
           end
  end.

(** [count] is an [int]. *)
Definition stralloc_rstrip (st : stralloc_t) : stralloc_t :=
  let count := s32 (n st) in
  {| s := s st; n := if 0 <? count then rstrip_len (Z.to_nat count) (s st) else u32 count; a := a st |}.

Definition stralloc_strip (st : stralloc_t) : option stralloc_t := stralloc_lstrip (stralloc_rstrip st).

(** [vsnprintf] of a text: what fits is written, with a terminator, and the
    length of the whole text is answered. *)
Definition vsnprintf (text : bytes) (st : stralloc_t) : option (bytes * Z) :=
  buf ← write_at 0 (take (Z.to_nat (a st - 1)) text ++ [0]) (s st);
  Some (buf, zlen text).

(** One round of the loop of [stralloc_formatv]: [inr] leaves it. *)
Definition format_round (text : bytes) (st : stralloc_t) : option (stralloc_t + stralloc_t) :=
  '(buf, len) ← vsnprintf text st;
  let st := {| s := buf; n := n st; a := a st |} in
  if len <? a st then Some (inr {| s := buf; n := len; a := a st |})
  else Some (inl (stralloc_ready (len + 1) st)).

Fixpoint format_loop (fuel : nat) (text : bytes) (st : stralloc_t) : option stralloc_t :=
  match fuel with
  | O => None
  | S fuel =>
      r ← format_round text st;
      match r with inl st => format_loop fuel text st | inr st => Some st end
  end.

Definition stralloc_formatv (text : bytes) (st : stralloc_t) : option stralloc_t :=
  format_loop 2 text (stralloc_ready 10 (stralloc_reset st)).

Definition stralloc_add_formatv (text : bytes) (st : stralloc_t) : option stralloc_t :=
  s2 ← stralloc_formatv text STRALLOC_INIT;
  stralloc_append s2 st.

Definition hexdigits : bytes := str "0123456789abcdef".
Definition hex_char (d : Z) : Z := default 0 (hexdigits !! Z.to_nat (Z.land d 15)).

(** The text of [\\x%02x]. *)
Definition hex_escape (c : Z) : bytes := [92; 120; hex_char (Z.shiftr c 4); hex_char c].

Definition quote_byte (c : Z) (st : stralloc_t) : option stralloc_t :=
  if c =? 92 then stralloc_add_str [92; 92] st
  else if (32 <=? c) && (c <? 128) then stralloc_add_c c st
  else if c =? 10 then stralloc_add_str [92; 110] st
  else if c =? 9 then stralloc_add_str [92; 116] st
  else if c =? 13 then stralloc_add_str [92; 114] st
  else stralloc_add_formatv (hex_escape c) st.

Fixpoint stralloc_add_quote_bytes (from : bytes) (st : stralloc_t) : option stralloc_t :=
  match from with
  | [] => Some st
  | c :: from => st ← quote_byte c st; stralloc_add_quote_bytes from st
  end.

(** The digits of [value], the lowest last. *)
Fixpoint hex_text (num_digits : nat) (value : Z) : bytes :=
  match num_digits with O => [] | S k => hex_text k (Z.shiftr value 4) ++ [hex_char value] end.

Definition stralloc_add_hex (value num_digits : Z) (st : stralloc_t) : option stralloc_t :=
  if num_digits <=? 0 then Some st
  else
    st ← stralloc_readyplus num_digits st;
    put (n st) (hex_text (Z.to_nat num_digits) value) (u32 (n st + num_digits)) st.

Fixpoint add_hex_bytes (p : bytes) (st : stralloc_t) : option stralloc_t :=
  match p with
  | [] => Some st
  | c :: p => st ← stralloc_add_c 32 st; st ← stralloc_add_hex c 2 st; add_hex_bytes p st
  end.

Definition printable (c : Z) : Z := if (c <? 32) || (127 <? c) then 46 else c.

(** One line of the dump. *)
Definition hexdump_line (prefix p : bytes) (st : stralloc_t) : option stralloc_t :=
  let count := zlen p in
  st ← stralloc_add_bytes prefix st;
  st ← stralloc_add_hex (head0 p) 2 st;
  st ← add_hex_bytes (tail p) st;
  let count2 := 4 + 3 * (16 - count) in
  st ← stralloc_readyplus count2 st;
  st ← put (n st) (replicate (Z.to_nat count2) 32) (u32 (n st + count2)) st;
  st ← stralloc_readyplus (count + 1) st;
  put (n st) ((printable <$> p) ++ [10]) (u32 (n st + (count + 1))) st.

Fixpoint hexdump_loop (fuel : nat) (prefix p : bytes) (st : stralloc_t) : option stralloc_t :=
  match fuel with
  | O => Some st
  | S fuel =>
      if zlen p <=? 0 then Some st
      else st ← hexdump_line prefix (take 16 p) st; hexdump_loop fuel prefix (drop 16 p) st
  end.

Definition stralloc_add_hexdump (base prefix : bytes) (st : stralloc_t) : option stralloc_t :=
  hexdump_loop (length base) (c_str prefix) base st.

(** [%-*s]: blanks after the text up to the width. *)
Definition pad (width : Z) (str : bytes) : bytes :=
  c_str str ++ replicate (Z.to_nat (width - zlen (c_str str))) 32.

(** The width of a column. *)
Definition tabular_maxw (strings : list bytes) : Z :=
  fold_left (fun maxw str => if maxw <? zlen (c_str str) then zlen (c_str str) else maxw) strings 0 + 2.

(** The columns of row [r]. *)
Fixpoint tabular_row (fuel : nat) (strings : list bytes) (maxw ncols nrows r c : Z) (out : stralloc_t)
    : option stralloc_t :=
  match fuel with
  | O => Some out
  | S fuel =>
      if c <? ncols then
        let index := c * nrows + r in
        if zlen strings <=? index then Some out
        else
          str ← strings !! Z.to_nat index;
          out ← stralloc_add_formatv (pad maxw str) out;
          tabular_row fuel strings maxw ncols nrows r (c + 1) out
      else Some out
  end.

Fixpoint tabular_rows (fuel : nat) (strings : list bytes) (prefix : bytes) (maxw ncols nrows r : Z)
    (out : stralloc_t) : option stralloc_t :=
  match fuel with
  | O => Some out
  | S fuel =>
      if r <? nrows then
        out ← stralloc_add_str prefix out;
        out ← tabular_row (Z.to_nat ncols) strings maxw ncols nrows r 0 out;
        out ← stralloc_add_str [10] out;
        tabular_rows fuel strings prefix maxw ncols nrows (r + 1) out
      else Some out
  end.

(** [None] is the division by zero of a width smaller than a column. *)
Definition stralloc_tabular (strings : list bytes) (prefix : bytes) (width : Z) (out : stralloc_t)
    : option stralloc_t :=
  let maxw := tabular_maxw strings in
  let ncols := Z.quot width maxw in
  if ncols =? 0 then None
  else
    let nrows := Z.quot (zlen strings + ncols - 1) ncols in
    tabular_rows (Z.to_nat nrows) strings prefix maxw ncols nrows 0 out.
End junk.

(** ** The representation *)

Record wf (st : stralloc_t) : Prop := {
  wf_n : 0 <= n st <= a st;
  wf_a : a st <= UINT_MAX;
  wf_s : zlen (s st) = a st;
}.

Lemma content_length st : wf st -> zlen (content st) = n st.
Proof. intros [Hn _ Hs]. apply zlen_take. lia. Qed.

Lemma wf_init : wf STRALLOC_INIT.
Proof. constructor; cbn; unfold UINT_MAX; lia || done. Qed.

Lemma grow_ok fuel m len :
  0 <= m <= UINT_MAX -> len <= UINT_MAX -> len - m <= Z.of_nat fuel ->
  len <= grow fuel m len /\ m <= grow fuel m len <= UINT_MAX.
Proof.
  revert m. induction fuel as [|fuel IH]; intros m Hm Hlen Hf; cbn [grow]; [lia|].
  destruct (Z.ltb_spec m len) as [Hlt|]; [|lia].
  rewrite Z.shiftr_div_pow2 by lia. change (2 ^ 1) with 2. unfold UINT_MAX in *.
  pose proof (Z.div_pos m 2 ltac:(lia) ltac:(lia)).
  pose proof (Z.mul_div_le m 2 ltac:(lia)).
  set (v := m + m / 2 + 16). set (v2 := u32 v).
  assert (v2 < m \/ m + 16 <= v2 <= 2 ^ 32 - 1) as Hv.
  { unfold v2, wrap. destruct (Z.lt_ge_cases v (2 ^ 32)).
    - right. rewrite Z.mod_small; unfold v; lia.
    - left. replace v with (v - 2 ^ 32 + 1 * 2 ^ 32) by lia. rewrite Z_mod_plus_full, Z.mod_small; unfold v in *; lia. }
  destruct (Z.ltb_spec v2 m).
  - destruct (IH (2 ^ 32 - 1)); lia.
  - destruct (IH v2); lia.
Qed.

Section refine.
Context (junk : Z).

Lemma ready_ok len st :
  wf st -> 0 <= len <= UINT_MAX ->
  wf (stralloc_ready junk len st) /\ content (stralloc_ready junk len st) = content st /\
  len <= a (stralloc_ready junk len st) /\ n (stralloc_ready junk len st) = n st.
Proof.
  intros [Hn Ha Hs] Hl. destruct (grow_ok (Z.to_nat len) (a st) len) as [H1 H2]; [lia|lia|lia|].
  unfold stralloc_ready. set (m := grow _ _ _) in *.
  assert (take (Z.to_nat m) (s st) = s st) as Et by (apply take_ge; unfold zlen in Hs; lia).
  split_and!; cbn; [|unfold content; cbn; unfold realloc; rewrite Et| |]; try lia.
  - constructor; cbn; [lia|lia|]. unfold realloc. rewrite Et, zlen_app. unfold zlen at 2.
    rewrite length_replicate. lia.
  - rewrite take_app_le; [done|]. unfold zlen in Hs. lia.
Qed.

Lemma readyplus_ok len st :
  wf st -> 0 <= len -> n st + len <= UINT_MAX ->
  exists st', stralloc_readyplus junk len st = Some st' /\ wf st' /\ content st' = content st /\
    n st' = n st /\ n st + len <= a st'.
Proof.
  intros Hw Hl Hmax. unfold stralloc_readyplus. pose proof (wf_n _ Hw).
  rewrite wrap_small by (unfold in_u, UINT_MAX in *; lia).
  destruct (Z.ltb_spec (n st + len) (n st)); [lia|].
  destruct (ready_ok (n st + len) st) as (H1 & H2 & H3 & H4); [done|lia|]. eauto 10.
Qed.

(** Growing by too much leaves the program. *)
Lemma readyplus_exit len st :
  wf st -> 0 <= len <= UINT_MAX -> UINT_MAX < n st + len -> stralloc_readyplus junk len st = None.
Proof.
  intros Hw Hl Hmax. unfold stralloc_readyplus, UINT_MAX in *. pose proof (wf_n _ Hw). pose proof (wf_a _ Hw).
  unfold UINT_MAX in *. unfold wrap.
  replace (n st + len) with (n st + len - 2 ^ 32 + 1 * 2 ^ 32) by lia.
  rewrite Z_mod_plus_full, Z.mod_small by lia. destruct (Z.ltb_spec (n st + len - 2 ^ 32) (n st)); [done|lia].
Qed.

Lemma put_end from st :
  wf st -> n st + zlen from <= a st ->
  exists st', put (n st) from (u32 (n st + zlen from)) st = Some st' /\ wf st' /\
    content st' = content st ++ from /\ a st' = a st.
Proof.
  intros Hw Hf. pose proof (wf_n _ Hw). pose proof (wf_a _ Hw) as Ha. pose proof (wf_s _ Hw) as Hs.
  pose proof (zlen_nonneg from). unfold UINT_MAX in Ha. unfold put, write_at.
  rewrite wrap_small by (unfold in_u; lia). rewrite Hs.
  destruct (Z.leb_spec (n st + zlen from) (a st)); [|lia]. cbn. eexists. split; [done|].
  fold (content st). pose proof (content_length st Hw) as Hc.
  assert (zlen (content st ++ from ++ drop (Z.to_nat (n st + zlen from)) (s st)) = a st) as Hz.
  { rewrite !zlen_app, Hc. unfold zlen in *. rewrite length_drop. lia. }
  split_and!; [constructor; cbn; unfold UINT_MAX; lia| |done].
  unfold content at 1. cbn. rewrite app_assoc. apply take_app_length'.
  rewrite length_app. unfold zlen in *. lia.
Qed.

Lemma add_bytes_ok from st :
  wf st -> n st + zlen from <= UINT_MAX ->
  exists st', stralloc_add_bytes junk from st = Some st' /\ wf st' /\ content st' = content st ++ from.
Proof.
  intros Hw Hf. pose proof (zlen_nonneg from). unfold stralloc_add_bytes.
  destruct (readyplus_ok (zlen from) st) as (st1 & -> & H1 & H2 & H3 & H4); [done|lia|done|]. cbn.
  destruct (put_end from st1) as (st2 & E & H5 & H6 & _); [done|lia|]. rewrite E.
  exists st2. by rewrite H6, H2.
Qed.

Lemma reset_ok st : wf (stralloc_reset st) /\ content (stralloc_reset st) = [].
Proof. split; [apply wf_init|done]. Qed.

Lemma append_ok from st :
  wf from -> wf st -> n st + n from <= UINT_MAX ->
  exists st', stralloc_append junk from st = Some st' /\ wf st' /\ content st' = content st ++ content from.
Proof.
  intros Hfr Hw Hf. pose proof (wf_n _ Hfr). unfold stralloc_append.
  destruct (readyplus_ok (n from) st) as (st1 & -> & H1 & H2 & H3 & H4); [done|lia|done|]. cbn.
  pose proof (content_length from Hfr) as Hc.
  destruct (put_end (content from) st1) as (st2 & E & H5 & H6 & _); [done|lia|]. rewrite Hc in E. rewrite E.
  exists st2. by rewrite H6, H2.
Qed.

Lemma copy_ok from st :
  wf from -> wf st ->
  exists st', stralloc_copy junk from st = Some st' /\ wf st' /\ content st' = content from.
Proof.
  intros Hfr Hw. pose proof (wf_n _ Hfr). pose proof (wf_a _ Hfr). unfold stralloc_copy.
  destruct (ready_ok (n from) st) as (H1 & _ & H3 & _); [done|lia|].
  set (st1 := stralloc_ready junk (n from) st) in *. pose proof (content_length from Hfr) as Hc.
  set (st0 := {| s := s st1; n := 0; a := a st1 |}).
  assert (wf st0) as Hw0 by (destruct H1 as [G1 G2 G3]; constructor; [change (0 <= 0 <= a st1); lia|exact G2|exact G3]).
  destruct (put_end (content from) st0) as (st2 & E & H5 & H6 & _); [done|change (0 + zlen (content from) <= a st1); lia|].
  exists st2. split_and!; [|done|done]. rewrite <- E. unfold put. cbn. unfold UINT_MAX in *.
  rewrite Hc, wrap_small by (unfold in_u; lia). done.
Qed.

Lemma cstr_ok st :
  wf st -> n st < UINT_MAX ->
  exists st', stralloc_cstr junk st = Some st' /\ wf st' /\ content st' = content st /\
    take (S (length (content st))) (s st') = content st ++ [0].
Proof.
  intros Hw Hn. unfold stralloc_cstr.
  destruct (readyplus_ok 1 st) as (st1 & -> & H1 & H2 & H3 & H4); [done|lia|lia|]. cbn.
  destruct (put_end [0] st1) as (st2 & E & H5 & H6 & Ha); [done|cbn; unfold zlen; cbn; lia|].
  unfold put in E |- *. destruct (write_at (n st1) [0] (s st1)) as [buf|]; [|done]. cbn in E |- *.
  injection E as <-. pose proof (content_length st1 H1) as Hc1.
  assert (Hn2 : n st1 + zlen [0] = n st1 + 1) by done. unfold content in H6. cbn in H6.
  pose proof (wf_n _ H5) as Hn5. cbn in Hn5. rewrite Hn2 in *. pose proof (wf_a _ H1). unfold UINT_MAX in *.
  pose proof (wf_n _ H1). rewrite wrap_small in * by (unfold in_u; lia).
  replace (Z.to_nat (n st1 + 1)) with (S (length (content st1))) in H6 by (unfold zlen in Hc1; lia).
  fold (content st1) in H6.
  eexists. split; [done|]. split_and!.
  - destruct H5 as [? ? ?]. constructor; cbn in *; lia || done.
  - rewrite <- H2. unfold content at 1. cbn [n s]. apply (f_equal (take (length (content st1)))) in H6.
    rewrite take_take, take_app_length in H6. replace (Z.to_nat (n st1)) with (length (content st1)) by (unfold zlen in Hc1; lia).
    by replace (length (content st1) `min` S (length (content st1)))%nat with (length (content st1)) in H6 by lia.
  - cbn. by rewrite <- H2.
Qed.

(** *** Stripping *)

Definition rstrip (l : bytes) : bytes := rev (snd (span is_blank (rev l))).
Definition lstrip (l : bytes) : bytes := snd (span is_blank l).

Lemma lstrip_ok st :
  wf st -> exists st', stralloc_lstrip st = Some st' /\ wf st' /\ content st' = lstrip (content st).
Proof.
  intros Hw. unfold stralloc_lstrip. pose proof (span_app is_blank (content st)) as E.
  set (p := fst (span is_blank (content st))) in *. change (snd (span is_blank (content st))) with (lstrip (content st)) in E.
  pose proof (content_length st Hw) as Hc. pose proof (wf_n _ Hw). pose proof (zlen_nonneg p).
  assert (drop (Z.to_nat (zlen p)) (content st) = lstrip (content st)) as Hd
    by (replace (content st) with (p ++ lstrip (content st)) at 1; unfold zlen; rewrite Nat2Z.id; apply drop_app_length).
  destruct (Z.ltb_spec 0 (zlen p)).
  2: { exists st. split; [done|]. split; [done|]. rewrite <- Hd. by replace (zlen p) with 0 by lia. }
  rewrite Hd. assert (zlen (lstrip (content st)) = n st - zlen p) as Hl
    by (rewrite <- Hc; replace (content st) with (p ++ lstrip (content st)) at 2; rewrite zlen_app; lia).
  set (st0 := {| s := s st; n := 0; a := a st |}). pose proof (zlen_nonneg (lstrip (content st))).
  assert (wf st0) as Hw0 by (destruct Hw as [G1 G2 G3]; constructor; [cbn; lia|exact G2|exact G3]).
  destruct (put_end (lstrip (content st)) st0) as (st2 & E2 & H5 & H6 & _); [done|change (0 + zlen (lstrip (content st)) <= a st); lia|].
  exists st2. split_and!; [|done|done]. rewrite <- E2. unfold put. cbn. pose proof (wf_a _ Hw).
  unfold UINT_MAX in *. rewrite Hl, wrap_small by (unfold in_u; lia). done.
Qed.

Lemma rstrip_len_spec k (l : bytes) :
  (k <= length l)%nat ->
  0 <= rstrip_len k l <= Z.of_nat k /\ take (Z.to_nat (rstrip_len k l)) l = rstrip (take k l).
Proof.
  unfold rstrip. induction k as [|k IH]; intros Hk; [split; [cbn; lia|done]|]. cbn [rstrip_len].
  destruct (lookup_lt_is_Some_2 l k) as [x Hx]; [lia|]. rewrite Hx.
  rewrite (take_S_r _ _ _ Hx), rev_app_distr. cbn [rev app span].
  destruct (is_blank x).
  - destruct IH as [H1 H2]; [lia|]. split; [lia|]. rewrite H2. by destruct (span is_blank (rev (take k l))).
  - split; [lia|]. rewrite Nat2Z.id, (take_S_r _ _ _ Hx). cbn [snd rev]. by rewrite rev_involutive.
Qed.

Lemma rstrip_ok st :
  wf st -> n st < 2 ^ 31 -> wf (stralloc_rstrip st) /\ content (stralloc_rstrip st) = rstrip (content st).
Proof.
  intros Hw Hn. pose proof (wf_n _ Hw). pose proof (wf_s _ Hw) as Hs. unfold stralloc_rstrip.
  rewrite swrap_small by (unfold in_s; lia).
  destruct (rstrip_len_spec (Z.to_nat (n st)) (s st)) as [H1 H2]; [unfold zlen in Hs; lia|].
  destruct Hw as [_ Ha _]. destruct (Z.ltb_spec 0 (n st)) as [Hp|Hp].
  - split; [constructor; cbn; lia || done|]. unfold content. cbn. by rewrite H2.
  - assert (n st = 0) as E by lia. rewrite E in *. cbn. split; [constructor; cbn; lia || done|].
    unfold content. by rewrite E.
Qed.

(** *** Formatting *)

Lemma format_round_fits text st :
  wf st -> zlen text < a st ->
  exists st', format_round junk text st = Some (inr st') /\ wf st' /\ content st' = text.
Proof.
  intros [Hn Ha Hs] Hlt. unfold format_round, vsnprintf.
  rewrite take_ge by (unfold zlen in Hlt; lia). unfold write_at. rewrite Hs, zlen_app. change (zlen [0]) with 1.
  destruct (Z.leb_spec (0 + (zlen text + 1)) (a st)); [|lia]. cbn [mbind option_bind a n s].
  destruct (Z.ltb_spec (zlen text) (a st)); [|lia]. eexists. split; [done|].
  change (take (Z.to_nat 0) (s st)) with (@nil Z). cbn [app].
  pose proof (zlen_nonneg text). split.
  - constructor; cbn [s n a]; [lia|exact Ha|]. rewrite !zlen_app. change (zlen [0]) with 1.
    unfold zlen in *. rewrite length_drop. lia.
  - unfold content. cbn [s n]. rewrite <- app_assoc. unfold zlen. rewrite Nat2Z.id. apply take_app_length.
Qed.

(** What does not fit is written as far as it does, and there is room for it then. *)
Lemma format_round_grows text st :
  wf st -> 0 < a st <= zlen text ->
  exists st2, format_round junk text st = Some (inl (stralloc_ready junk (zlen text + 1) st2)) /\ wf st2.
Proof.
  intros [Hn Ha Hs] Hlt. unfold format_round, vsnprintf.
  set (w := take (Z.to_nat (a st - 1)) text ++ [0]).
  assert (zlen w = a st) as Hwl by (unfold w; rewrite zlen_app, zlen_take by lia; change (zlen [0]) with 1; lia).
  unfold write_at. rewrite Hs, Hwl. destruct (Z.leb_spec (0 + a st) (a st)); [|lia]. cbn [mbind option_bind a n s].
  destruct (Z.ltb_spec (zlen text) (a st)); [lia|]. eexists. split; [done|].
  change (take (Z.to_nat 0) (s st)) with (@nil Z). cbn [app]. constructor; cbn [s n a]; [exact Hn|exact Ha|].
  rewrite zlen_app, Hwl. unfold zlen. rewrite length_drop. unfold zlen in Hs. lia.
Qed.

Definition INT_MAX : Z := 2 ^ 31 - 1.

(** Two rounds are enough. *)
Lemma format_ok text st :
  zlen text < INT_MAX -> exists st', stralloc_formatv junk text st = Some st' /\ wf st' /\ content st' = text.
Proof.
  intros Ht. pose proof (zlen_nonneg text). unfold stralloc_formatv, INT_MAX in *.
  destruct (ready_ok 10 STRALLOC_INIT) as (H1 & _ & H2 & _); [apply wf_init|unfold UINT_MAX; lia|].
  change (stralloc_reset st) with STRALLOC_INIT. set (st1 := stralloc_ready junk 10 STRALLOC_INIT) in *.
  cbn [format_loop]. destruct (Z.lt_ge_cases (zlen text) (a st1)) as [Hlt|Hge].
  - destruct (format_round_fits text st1 H1 Hlt) as (st' & -> & Hw & Hc). cbn. eauto.
  - destruct (format_round_grows text st1 H1) as (st2 & -> & Hw2); [lia|]. cbn [mbind option_bind].
    destruct (ready_ok (zlen text + 1) st2) as (Hw4 & _ & Ha4 & _); [done|unfold UINT_MAX; lia|].
    destruct (format_round_fits text _ Hw4) as (st' & -> & Hw & Hc); [lia|]. cbn. eauto.
Qed.

Lemma add_format_ok text st :
  wf st -> zlen text < INT_MAX -> n st + zlen text <= UINT_MAX ->
  exists st', stralloc_add_formatv junk text st = Some st' /\ wf st' /\ content st' = content st ++ text.
Proof.
  intros Hw Ht Hl. unfold stralloc_add_formatv.
  destruct (format_ok text STRALLOC_INIT) as (s2 & -> & H2 & Hc2); [lia|]. cbn [mbind option_bind].
  destruct (append_ok s2 st) as (st' & E & Hw' & Hc'); [done|done| |].
  - rewrite <- (content_length s2 H2), Hc2. lia.
  - exists st'. by rewrite E, Hc', Hc2.
Qed.

(** *** Operations that add to the end

    Most operations add a text that does not depend on what is there; they
    compose. *)

Definition appends (f : stralloc_t -> option stralloc_t) (text : bytes) : Prop :=
  forall st, wf st -> n st + zlen text <= UINT_MAX ->
  exists st', f st = Some st' /\ wf st' /\ content st' = content st ++ text.

Lemma appends_nil : appends Some [].
Proof. intros st Hw _. exists st. by rewrite app_nil_r. Qed.

Lemma appends_bind f g t1 t2 :
  appends f t1 -> appends g t2 -> appends (fun st => st ← f st; g st) (t1 ++ t2).
Proof.
  intros Hf Hg st Hw Hl. rewrite zlen_app in Hl. pose proof (zlen_nonneg t2).
  destruct (Hf st) as (st1 & -> & H1 & C1); [done|lia|]. cbn [mbind option_bind].
  assert (n st1 = n st + zlen t1) as N1 by (by rewrite <- !content_length, C1, zlen_app).
  destruct (Hg st1) as (st2 & -> & H2 & C2); [done|lia|]. exists st2. by rewrite C2, C1, <- app_assoc.
Qed.

Lemma appends_bytes from : appends (stralloc_add_bytes junk from) from.
Proof. intros st Hw Hl. by apply add_bytes_ok. Qed.

Lemma appends_put from len :
  zlen from = len -> appends (fun st => st ← stralloc_readyplus junk len st; put (n st) from (u32 (n st + len)) st) from.
Proof. intros <-. apply appends_bytes. Qed.

Lemma appends_format text : zlen text < INT_MAX -> appends (stralloc_add_formatv junk text) text.
Proof. intros Ht st Hw Hl. by apply add_format_ok. Qed.

Lemma appends_c c : 0 <= c < 256 -> appends (stralloc_add_c junk c) [c].
Proof. intros Hc. unfold stralloc_add_c. rewrite Z.mod_small by lia. apply appends_bytes. Qed.

(** *** Quoting and hexadecimal text *)

Lemma hex_text_length k v : zlen (hex_text k v) = Z.of_nat k.
Proof.
  revert v. induction k as [|k IH]; intros v; [done|]. cbn [hex_text]. rewrite zlen_app, IH.
  change (zlen [hex_char v]) with 1. lia.
Qed.

Lemma appends_hex v k : appends (stralloc_add_hex junk v k) (hex_text (Z.to_nat k) v).
Proof.
  unfold stralloc_add_hex. destruct (Z.leb_spec k 0).
  { replace (Z.to_nat k) with O by lia. apply appends_nil. }
  apply appends_put. rewrite hex_text_length. lia.
Qed.

(** What one byte becomes in a quoted text. *)
Definition quote_char (c : Z) : bytes :=
  if c =? 92 then [92; 92]
  else if (32 <=? c) && (c <? 128) then [c]
  else if c =? 10 then [92; 110] else if c =? 9 then [92; 116] else if c =? 13 then [92; 114]
  else hex_escape c.

Definition quote (l : bytes) : bytes := l ≫= quote_char.

Lemma appends_quote_byte c : is_byte c -> appends (quote_byte junk c) (quote_char c).
Proof.
  intros Hc. unfold quote_byte, quote_char.
  destruct (c =? 92); [apply appends_bytes|].
  destruct ((32 <=? c) && (c <? 128)); [by apply appends_c|].
  destruct (c =? 10); [apply appends_bytes|]. destruct (c =? 9); [apply appends_bytes|].
  destruct (c =? 13); [apply appends_bytes|]. by apply appends_format.
Qed.

Lemma appends_quote from : Forall is_byte from -> appends (stralloc_add_quote_bytes junk from) (quote from).
Proof.
  intros Hb. induction Hb as [|c from Hc Hb IH]; [apply appends_nil|].
  apply (appends_bind (quote_byte junk c) (stralloc_add_quote_bytes junk from)); [by apply appends_quote_byte|done].
Qed.

(** One line of a dump: the bytes in hexadecimal, blanks up to the column of the
    text, the text, a newline. *)
Definition dump_line (prefix p : bytes) : bytes :=
  prefix ++ hex_text 2 (head0 p) ++ (tail p ≫= fun c => 32 :: hex_text 2 c)
  ++ replicate (Z.to_nat (4 + 3 * (16 - zlen p))) 32 ++ (printable <$> p) ++ [10].

Fixpoint dump (fuel : nat) (prefix p : bytes) : bytes :=
  match fuel with
  | O => []
  | S fuel => if zlen p <=? 0 then [] else dump_line prefix (take 16 p) ++ dump fuel prefix (drop 16 p)
  end.

Lemma appends_hex_bytes p : appends (add_hex_bytes junk p) (p ≫= fun c => 32 :: hex_text 2 c).
Proof.
  induction p as [|c p IH]; [apply appends_nil|]. rewrite bind_cons.
  apply (appends_bind (stralloc_add_c junk 32)
           (fun st => st ← stralloc_add_hex junk c 2 st; add_hex_bytes junk p st) [32]); [by apply appends_c|].
  apply appends_bind; [apply appends_hex|done].
Qed.

Lemma appends_line prefix p : zlen p <= 16 -> appends (hexdump_line junk prefix p) (dump_line prefix p).
Proof.
  intros Hp. unfold dump_line. apply appends_bind; [apply appends_bytes|]. apply appends_bind; [apply appends_hex|].
  apply appends_bind; [apply appends_hex_bytes|].
  set (count2 := 4 + 3 * (16 - zlen p)).
  assert (zlen (replicate (Z.to_nat count2) 32) = count2) as Hc
    by (unfold zlen at 1; rewrite length_replicate; unfold count2; lia).
  intros st Hw Hl. pose proof (appends_put (replicate (Z.to_nat count2) 32) count2 Hc) as H1.
  assert (zlen ((printable <$> p) ++ [10]) = zlen p + 1) as Hc2
    by (rewrite zlen_app; unfold zlen; rewrite length_fmap; done).
  pose proof (appends_put _ _ Hc2) as H2.
  destruct (appends_bind _ _ _ _ H1 H2 st Hw Hl) as (st' & E & Hw' & Hc').
  exists st'. split; [|done]. rewrite <- E. by destruct (stralloc_readyplus junk count2 st).
Qed.

Lemma appends_dump fuel prefix p : appends (hexdump_loop junk fuel prefix p) (dump fuel prefix p).
Proof.
  revert p. induction fuel as [|fuel IH]; intros p; cbn [hexdump_loop dump]; [apply appends_nil|].
  destruct (zlen p <=? 0); [apply appends_nil|].
  apply appends_bind; [apply appends_line|apply IH]. unfold zlen. rewrite length_take. lia.
Qed.

(** *** Tables *)

(** The strings of row [r] of [nrows]: every [nrows]-th one. *)
Definition row_indices (count ncols nrows r : nat) : list nat :=
  filter (fun i => (i < count)%nat) ((fun c => c * nrows + r)%nat <$> seq 0 ncols).

Definition row_text (strings : list bytes) (prefix : bytes) (maxw : Z) (ncols nrows r : nat) : bytes :=
  c_str prefix
  ++ (row_indices (length strings) ncols nrows r ≫= fun i => pad maxw (default [] (strings !! i)))
  ++ [10].

Lemma pad_short maxw str : 0 <= maxw < INT_MAX -> zlen (c_str str) <= maxw -> zlen (pad maxw str) < INT_MAX.
Proof.
  intros Hm Hs. unfold pad. rewrite zlen_app. unfold zlen at 2. rewrite length_replicate.
  pose proof (zlen_nonneg (c_str str)). lia.
Qed.

Lemma filter_beyond count nrows r c k :
  (count <= c * nrows + r)%nat ->
  filter (fun i => (i < count)%nat) ((fun c => c * nrows + r)%nat <$> seq c k) = [].
Proof.
  intros Hc. revert c Hc. induction k as [|k IH]; intros c Hc; [done|].
  cbn [seq]. rewrite fmap_cons, filter_cons. destruct (decide _); [lia|]. apply IH. lia.
Qed.

Lemma appends_row strings maxw ncols nrows r c fuel :
  0 <= maxw < INT_MAX -> (forall str, str ∈ strings -> zlen (c_str str) <= maxw) ->
  (c + fuel = ncols)%nat ->
  appends (tabular_row junk fuel strings maxw (Z.of_nat ncols) (Z.of_nat nrows) (Z.of_nat r) (Z.of_nat c))
    (filter (fun i => (i < length strings)%nat) ((fun c => c * nrows + r)%nat <$> seq c fuel)
     ≫= fun i => pad maxw (default [] (strings !! i))).
Proof.
  intros Hm Hs. revert c. induction fuel as [|fuel IH]; intros c Hc; [apply appends_nil|].
  cbn [tabular_row]. destruct (Z.ltb_spec (Z.of_nat c) (Z.of_nat ncols)); [|lia].
  unfold zlen at 1. destruct (Z.leb_spec (Z.of_nat (length strings)) (Z.of_nat c * Z.of_nat nrows + Z.of_nat r)).
  { rewrite filter_beyond by lia. apply appends_nil. }
  cbn [seq]. rewrite fmap_cons, filter_cons. destruct (decide _) as [Hlt|]; [|lia].
  replace (Z.to_nat (Z.of_nat c * Z.of_nat nrows + Z.of_nat r)) with (c * nrows + r)%nat by lia.
  destruct (lookup_lt_is_Some_2 strings _ Hlt) as [str Hstr]. rewrite bind_cons, Hstr. cbn [mbind option_bind default id].
  apply appends_bind.
  - apply appends_format, pad_short; [done|]. apply Hs. by eapply list_elem_of_lookup_2.
  - replace (Z.of_nat c + 1) with (Z.of_nat (S c)) by lia. apply IH. lia.
Qed.

Lemma appends_rows strings prefix maxw ncols nrows r fuel :
  0 <= maxw < INT_MAX -> (forall str, str ∈ strings -> zlen (c_str str) <= maxw) ->
  (r + fuel = nrows)%nat ->
  appends (tabular_rows junk fuel strings prefix maxw (Z.of_nat ncols) (Z.of_nat nrows) (Z.of_nat r))
    (seq r fuel ≫= row_text strings prefix maxw ncols nrows).
Proof.
  intros Hm Hs. revert r. induction fuel as [|fuel IH]; intros r Hr; [apply appends_nil|].
  cbn [tabular_rows seq]. rewrite bind_cons. destruct (Z.ltb_spec (Z.of_nat r) (Z.of_nat nrows)); [|lia].
  unfold row_text at 1. rewrite <- !app_assoc.
  apply appends_bind; [apply appends_bytes|]. apply appends_bind.
  { rewrite Nat2Z.id. by apply (appends_row strings maxw ncols nrows r 0 ncols). }
  apply appends_bind; [apply appends_bytes|].
  replace (Z.of_nat r + 1) with (Z.of_nat (S r)) by lia. apply IH. lia.
Qed.
End refine.

Lemma maxw_spec strings m :
  let m' := fold_left (fun maxw str => if maxw <? zlen (c_str str) then zlen (c_str str) else maxw) strings m in
  m <= m' /\ (forall str, str ∈ strings -> zlen (c_str str) <= m').
Proof.
  revert m. induction strings as [|str strings IH]; intros m; cbn [fold_left].
  { split; [lia|]. intros ? []%not_elem_of_nil. }
  destruct (Z.ltb_spec m (zlen (c_str str))).
  - destruct (IH (zlen (c_str str))) as [H1 H2]. split; [lia|]. intros ? [->|?]%elem_of_cons; [done|by apply H2].
  - destruct (IH m) as [H1 H2]. split; [lia|]. intros ? [->|?]%elem_of_cons; [lia|by apply H2].
Qed.

Lemma row_col_mod nrows c r : (r < nrows)%nat -> ((c * nrows + r) mod nrows = r)%nat.
Proof. intros Hr. rewrite Nat.add_comm, Nat.Div0.mod_add. by apply Nat.mod_small. Qed.

(** Every string is in the table once. *)
Lemma rows_permutation count ncols nrows :
  (0 < nrows)%nat -> (count <= ncols * nrows)%nat ->
  (seq 0 nrows ≫= row_indices count ncols nrows) ≡ₚ seq 0 count.
Proof.
  intros Hr Hc. apply NoDup_Permutation.
  - apply NoDup_bind.
    + intros r1 r2 i [_ H1]%elem_of_seq [_ H2]%elem_of_seq Hi1 Hi2. unfold row_indices in Hi1, Hi2.
      apply list_elem_of_filter in Hi1 as [_ (c1 & -> & _)%list_elem_of_fmap].
      apply list_elem_of_filter in Hi2 as [_ (c2 & E & _)%list_elem_of_fmap].
      apply (f_equal (fun i => i mod nrows)%nat) in E. rewrite !row_col_mod in E by lia. done.
    + intros r _. apply NoDup_filter, NoDup_fmap_2_strong; [|apply NoDup_seq]. intros c1 c2 _ _ E. nia.
    + apply NoDup_seq.
  - apply NoDup_seq.
  - intros i. rewrite list_elem_of_bind, elem_of_seq. split.
    + intros (r & Hi & _). apply list_elem_of_filter in Hi as [? _]. lia.
    + intros [_ Hi]. exists (i mod nrows)%nat. split.
      * apply list_elem_of_filter. split; [lia|]. apply list_elem_of_fmap. exists (i / nrows)%nat.
        split; [rewrite Nat.mul_comm; apply Nat.div_mod; lia|]. apply elem_of_seq. split; [lia|].
        apply Nat.Div0.div_lt_upper_bound. lia.
      * apply elem_of_seq. split; [lia|]. apply Nat.mod_upper_bound. lia.
Qed.

(** ** The specification: a list of bytes *)

Inductive op :=
  | Reset | Copy (from : stralloc_t) | Append (from : stralloc_t)
  | AddBytes (from : bytes) | AddC (c : Z) | AddStr (str : bytes) | AddFormat (text : bytes)
  | AddQuote (from : bytes) | AddHex (value num_digits : Z) | AddHexdump (base prefix : bytes)
  | Cstr | Lstrip | Rstrip | Strip.

Definition do_op (junk : Z) (o : op) (st : stralloc_t) : option stralloc_t :=
  match o with
  | Reset => Some (stralloc_reset st)
  | Copy from => stralloc_copy junk from st
  | Append from => stralloc_append junk from st
  | AddBytes from => stralloc_add_bytes junk from st
  | AddC c => stralloc_add_c junk c st
  | AddStr str => stralloc_add_str junk str st
  | AddFormat text => stralloc_add_formatv junk text st
  | AddQuote from => stralloc_add_quote_bytes junk from st
  | AddHex value num_digits => stralloc_add_hex junk value num_digits st
  | AddHexdump base prefix => stralloc_add_hexdump junk base prefix st
  | Cstr => stralloc_cstr junk st
  | Lstrip => stralloc_lstrip st
  | Rstrip => Some (stralloc_rstrip st)
  | Strip => stralloc_strip st
  end.

Definition spec_op (o : op) (l : bytes) : bytes :=
  match o with
  | Reset => []
  | Copy from => content from
  | Append from => l ++ content from
  | AddBytes from => l ++ from
  | AddC c => l ++ [c]
  | AddStr str => l ++ c_str str
  | AddFormat text => l ++ text
  | AddQuote from => l ++ quote from
  | AddHex value num_digits => l ++ hex_text (Z.to_nat num_digits) value
  | AddHexdump base prefix => l ++ dump (length base) (c_str prefix) base
  | Cstr => l
  | Lstrip => lstrip l
  | Rstrip => rstrip l
  | Strip => lstrip (rstrip l)
  end.

(** The arguments are what the C types hold. *)
Definition op_ok (o : op) : Prop :=
  match o with
  | Copy from | Append from => wf from
  | AddC c => is_byte c
  | AddQuote from => Forall is_byte from
  | _ => True
  end.

Fixpoint run_ops (junk : Z) (ops : list op) (st : stralloc_t) : option stralloc_t :=
  match ops with [] => Some st | o :: ops => st ← do_op junk o st; run_ops junk ops st end.

Definition spec_ops (ops : list op) (l : bytes) : bytes := fold_left (fun l o => spec_op o l) ops l.

(** No string on the way is as long as the largest [int]. *)
Fixpoint fits (ops : list op) (l : bytes) : Prop :=
  match ops with [] => True | o :: ops => zlen (spec_op o l) < INT_MAX /\ fits ops (spec_op o l) end.

Lemma appends_use f st text :
  appends f text -> wf st -> zlen (content st ++ text) < INT_MAX ->
  exists st', f st = Some st' /\ wf st' /\ content st' = content st ++ text.
Proof.
  intros Hf Hw Hl. apply Hf; [done|]. rewrite zlen_app, content_length in Hl by done. unfold UINT_MAX, INT_MAX in *. lia.
Qed.

Lemma do_op_ok junk o st :
  op_ok o -> wf st -> zlen (content st) < INT_MAX -> zlen (spec_op o (content st)) < INT_MAX ->
  exists st', do_op junk o st = Some st' /\ wf st' /\ content st' = spec_op o (content st).
Proof.
  intros Ho Hw Hc Hl. pose proof (zlen_nonneg (content st)). rewrite content_length in Hc by done.
  destruct o; cbn [do_op spec_op op_ok] in *.
  - eexists. split; [done|]. apply reset_ok.
  - by apply copy_ok.
  - rewrite zlen_app, !content_length in Hl by done. apply append_ok; [done|done|]. unfold UINT_MAX, INT_MAX in *. lia.
  - apply appends_use; [apply appends_bytes|done|done].
  - apply appends_use; [by apply appends_c|done|done].
  - apply appends_use; [apply appends_bytes|done|done].
  - apply appends_use; [apply appends_format|done|done]. rewrite zlen_app in Hl. lia.
  - apply appends_use; [by apply appends_quote|done|done].
  - apply appends_use; [apply appends_hex|done|done].
  - apply appends_use; [apply appends_dump|done|done].
  - destruct (cstr_ok junk st) as (st' & ? & ? & ? & _); [done|unfold UINT_MAX, INT_MAX in *; lia|eauto].
  - by apply lstrip_ok.
  - eexists. split; [done|]. apply rstrip_ok; [done|]. unfold INT_MAX in Hc. lia.
  - destruct (rstrip_ok st) as [H1 H2]; [done|unfold INT_MAX in Hc; lia|]. rewrite <- H2. by apply lstrip_ok.
Qed.

(** A history of operations on a dynamic string leaves the string the same
    operations on a list of bytes make, whatever the allocator's memory holds, as
    long as no string on the way reaches [INT_MAX] bytes: growth, copies and the
    two passes of formatting neither lose nor add a byte, and the length never
    exceeds the capacity. *)
Theorem stralloc_history junk ops :
  Forall op_ok ops -> fits ops [] ->
  exists st, run_ops junk ops STRALLOC_INIT = Some st /\ wf st /\ content st = spec_ops ops [].
Proof.
  intros Hops. change (@nil Z) with (content STRALLOC_INIT). pose proof wf_init as Hw.
  assert (zlen (content STRALLOC_INIT) < INT_MAX) as Hl by done. revert Hw Hl.
  generalize STRALLOC_INIT. induction Hops as [|o ops Ho Hops IH]; intros st Hw Hl Hf; [by exists st|].
  destruct Hf as [Hf1 Hf2]. destruct (do_op_ok junk o st) as (st1 & E & H1 & C1); [done..|].
  cbn [run_ops]. rewrite E. cbn [mbind option_bind]. rewrite <- C1 in Hf1, Hf2.
  destruct (IH st1) as (st2 & -> & H2 & C2); [done..|]. exists st2. rewrite C2, C1. done.
Qed.

Definition sample_ops : list op :=
  [AddStr (str "  ab"); AddC 10; AddQuote [7; 92; 65]; AddHex 48879 4; AddFormat (str "a long formatted text ");
   Lstrip; Cstr; Rstrip; AddHexdump (str "0123456789abcdefXY") [62]].

Lemma stralloc_history_witness :
  exists st, run_ops 170 sample_ops STRALLOC_INIT = Some st /\ wf st /\ content st = spec_ops sample_ops [].
Proof.
  apply (stralloc_history 170 sample_ops).
  - repeat constructor; cbn; lia.
  - vm_compute. repeat split.
Defined.

(** ** Tables *)

(** A table whose columns fit its width is made of rows whose strings, read row
    after row, are all the strings, each once; columns are read downwards.  A
    width smaller than the widest string and its two blanks is a division by
    zero. *)
Theorem stralloc_tabular_spec junk strings prefix width st :
  wf st -> 0 <= width < INT_MAX -> tabular_maxw strings < INT_MAX -> 0 < zlen strings < 2 ^ 30 ->
  let ncols := Z.to_nat (width / tabular_maxw strings) in
  let nrows := Z.to_nat ((zlen strings + Z.of_nat ncols - 1) / Z.of_nat ncols) in
  let text := seq 0 nrows ≫= row_text strings prefix (tabular_maxw strings) ncols nrows in
  (width < tabular_maxw strings -> stralloc_tabular junk strings prefix width st = None) /\
  (tabular_maxw strings <= width -> n st + zlen text <= UINT_MAX ->
   (seq 0 nrows ≫= row_indices (length strings) ncols nrows) ≡ₚ seq 0 (length strings) /\
   exists st', stralloc_tabular junk strings prefix width st = Some st' /\ wf st' /\
     content st' = content st ++ text).
Proof.
  intros Hw Hwidth Hmax Hcount ncols nrows text. destruct (maxw_spec strings 0) as [Hm Hs].
  fold (tabular_maxw strings) in *. set (maxw := tabular_maxw strings) in *.
  assert (2 <= maxw /\ forall str, str ∈ strings -> zlen (c_str str) <= maxw) as [Hm2 Hs2].
  { split; [unfold maxw, tabular_maxw; lia|]. intros str Hstr. specialize (Hs str Hstr).
    unfold maxw, tabular_maxw. lia. }
  unfold stralloc_tabular. fold maxw. rewrite Z.quot_div_nonneg by lia. split.
  { intros Hlt. by rewrite Z.div_small by lia. }
  intros Hle Hlen. assert (1 <= width / maxw) as Hc by (apply Z.div_le_lower_bound; lia).
  assert (Z.of_nat ncols = width / maxw) as Hnc by (unfold ncols; lia).
  destruct (Z.eqb_spec (width / maxw) 0); [lia|]. rewrite <- Hnc in *. rewrite Z.quot_div_nonneg by lia.
  pose proof (Z.mul_succ_div_gt (zlen strings + Z.of_nat ncols - 1) (Z.of_nat ncols) ltac:(lia)) as Hgt.
  assert (1 <= (zlen strings + Z.of_nat ncols - 1) / Z.of_nat ncols) as Hr
    by (apply Z.div_le_lower_bound; lia).
  assert (Z.of_nat nrows = (zlen strings + Z.of_nat ncols - 1) / Z.of_nat ncols) as Hnr by (unfold nrows; lia).
  rewrite <- Hnr in *. split.
  - apply rows_permutation; [lia|]. unfold zlen in *. nia.
  - rewrite Nat2Z.id. apply (appends_rows junk strings prefix maxw ncols nrows 0 nrows); [lia|done|done|done|done].
Qed.

Lemma stralloc_tabular_spec_witness :
  let strings := [str "one"; str "two"; str "three"; str "four"; str "five"] in
  (seq 0 3 ≫= row_indices 5 2 3) ≡ₚ seq 0 5 /\
  exists st, stralloc_tabular 0 strings [32] 20 STRALLOC_INIT = Some st /\ wf st /\
    content st = str " one    four   " ++ [10] ++ str " two    five   " ++ [10] ++ str " three  " ++ [10].
Proof.
  intros strings.
  destruct (stralloc_tabular_spec 0 strings [32] 20 STRALLOC_INIT) as [_ H];
    [apply wf_init|unfold INT_MAX; lia|by vm_compute|by vm_compute|].
  apply H; by vm_compute.
Defined.
