(* ===== verification/Misc.v ===== *)
(** * Text helpers of the command line

    Models [emulator/cmdline/src/android/utils/misc.cpp]: tables on the output,
    character translation, the ring of temporary strings, quoted text,
    hexadecimal numbers and the values of [name=value] words. *)

From S2P Require Import Prelude CText Stralloc.

(** ** Tables *)

(** The columns of a row, printed. *)
Fixpoint print_row (fuel : nat) (strings : list bytes) (maxw ncols nrows r c : Z) : option bytes :=
  match fuel with
  | O => Some []
  | S fuel =>
      if c <? ncols then
        let index := c * nrows + r in
        if zlen strings <=? index then Some []
        else
          str ← strings !! Z.to_nat index;
          rest ← print_row fuel strings maxw ncols nrows r (c + 1);
          Some (pad maxw str ++ rest)
      else Some []
  end.

Fixpoint print_rows (fuel : nat) (strings : list bytes) (prefix : bytes) (maxw ncols nrows r : Z) : option bytes :=
  match fuel with
  | O => Some []
  | S fuel =>
      if r <? nrows then
        row ← print_row (Z.to_nat ncols) strings maxw ncols nrows r 0;
        rest ← print_rows fuel strings prefix maxw ncols nrows (r + 1);
        Some (c_str prefix ++ row ++ [10] ++ rest)
      else Some []
  end.

(** What is printed; [None] is the division by zero. *)
Definition print_tabular (strings : list bytes) (prefix : bytes) (width : Z) : option bytes :=
  let maxw := tabular_maxw strings in
  let ncols := Z.quot width maxw in
  if ncols =? 0 then None
  else
    let nrows := Z.quot (zlen strings + ncols - 1) ncols in
    print_rows (Z.to_nat nrows) strings prefix maxw ncols nrows 0.

(** ** Character translation *)

(** The loop over [strchr] of a C string in a buffer. *)
Fixpoint string_translate_char (buf : bytes) (from to : Z) : bytes :=
  match buf with
  | [] => []
  | c :: rest =>
      if c =? from then to :: string_translate_char rest from to
      else if c =? 0 then buf
      else c :: string_translate_char rest from to
  end.

(** [None] is a copy of 4 GB into a buffer of no bytes. *)
Definition buffer_translate_char_with_len (buff : bytes) (buffLen : Z) (src : bytes) (srcLen fromChar toChar : Z)
    : option bytes :=
  let srcLen := if buffLen <=? srcLen then u32 (buffLen - 1) else srcLen in
  buff ← write_at 0 (take (Z.to_nat srcLen) src) buff;
  buff ← write_at srcLen [0] buff;
  Some (string_translate_char buff fromChar toChar).

Definition buffer_translate_char (buff : bytes) (buffLen : Z) (src : bytes) (fromChar toChar : Z) : option bytes :=
  buffer_translate_char_with_len buff buffLen (c_str src ++ [0]) (zlen (c_str src)) fromChar toChar.

(** ** Temporary strings: the sizes of the buffers and the next slot *)

Definition MAX_TEMP_STRINGS : Z := 16.

Record temp_ring := { sizes : list Z; temp_string_n : Z }.

Definition ring0 : temp_ring := {| sizes := replicate 16 0; temp_string_n := 0 |}.

(** The slot whose buffer is returned. *)
Definition tempstr_get (size : Z) (r : temp_ring) : option (Z * temp_ring) :=
  let t := temp_string_n r in
  let next := if MAX_TEMP_STRINGS <=? t + 1 then 0 else t + 1 in
  let size := s32 (size + 1) in
  old ← sizes r !! Z.to_nat t;
  let sizes := if old <? size then <[Z.to_nat t := size]> (sizes r) else sizes r in
  Some (t, {| sizes := sizes; temp_string_n := next |}).

(** The slot and its text, without the terminator. *)
Definition stralloc_to_tempstr (st : stralloc_t) (r : temp_ring) : option (Z * bytes * temp_ring) :=
  '(slot, r) ← tempstr_get (s32 (n st)) r;
  Some (slot, content st, r).

Definition tempstr_format (junk : Z) (text : bytes) (r : temp_ring) : option (Z * bytes * temp_ring) :=
  st ← stralloc_formatv junk text STRALLOC_INIT;
  stralloc_to_tempstr st r.

Definition quote_bytes (junk : Z) (b : bytes) (r : temp_ring) : option (Z * bytes * temp_ring) :=
  st ← stralloc_add_quote_bytes junk b STRALLOC_INIT;
  stralloc_to_tempstr st r.

Definition quote_str (junk : Z) (s : bytes) (r : temp_ring) : option (Z * bytes * temp_ring) :=
  quote_bytes junk (c_str s) r.

(** ** Hexadecimal numbers *)

Definition hexdigit (c : Z) : Z :=
  let d := u32 (c - 48) in
  if d <? 10 then d
  else
    let d := u32 (c - 97) in
    if d <? 6 then d + 10
    else
      let d := u32 (c - 65) in
      if d <? 6 then d + 10 else -1.

Fixpoint hex2int_loop (hex : bytes) (result : Z) : Z :=
  match hex with
  | [] => result
  | x :: hex =>
      let c := hexdigit x in
      if c <? 0 then -1 else hex2int_loop hex (s32 (Z.lor (Z.shiftl result 4) c))
  end.

(** The first [len] bytes; the caller has that many. *)
Definition hex2int (hex : bytes) (len : Z) : Z := hex2int_loop (take (Z.to_nat len) hex) 0.

Fixpoint int2hex (len : nat) (val : Z) : bytes :=
  match len with
  | O => []
  | S k => default 0 (hexdigits !! Z.to_nat (Z.land (Z.shiftr val (Z.of_nat k * 4)) 15)) :: int2hex k val
  end.

(** ** Numbers and [name=value] words *)

Definition INT_MIN : Z := - 2 ^ 31.
Definition LONG_MAX : Z := 2 ^ 63 - 1.

(** [strtoi(nptr, NULL, 10)]: the number, and whether [errno] is set. *)
Definition strtoi (nptr : bytes) : Z * bool :=
  let '(val, err, _) := strtoll (c_str nptr) in
  if err : bool then (if val =? LONG_MAX then INT_MAX else INT_MIN, true)
  else if val =? s32 val then (s32 val, false)
  else (if 0 <? val then INT_MAX else INT_MIN, true).

(** A pointer into a C string: the character before it, if there is one, and the
    characters from it on. *)
Definition ptr : Type := option Z * bytes.

Fixpoint strstr (prev : option Z) (s name : bytes) : option ptr :=
  if starts_with name s then Some (prev, s)
  else match s with [] => None | c :: s => strstr (Some c) s name end.

(** The loop that looks for [name=] from [par_start]; [fuel] bounds its rounds. *)
Fixpoint find_name (fuel : nat) (name : bytes) (par_start : option ptr) : option ptr :=
  match fuel, par_start with
  | S fuel, Some (prev, s) =>
      if zlen s <? zlen name then None
      else if (match prev with None => true | Some c => c =? 32 end)
              && (head0 (drop (length name) s) =? 61) then Some (prev, s)
      else match s with
           | [] => None
           | c :: s => find_name fuel name (strstr (Some c) s name)
           end
  | _, _ => None
  end.

(** The result, and what is written to [value]. *)
Definition get_token_value (params name : bytes) (val_size : Z) : Z * option bytes :=
  let params := c_str params in
  let name := c_str name in
  match find_name (S (length params)) name (strstr None params name) with
  | None => (-1, None)
  | Some (_, s) =>
      let v := fst (span (fun c => negb (c =? 32)) (drop (S (length name)) s)) in
      if zlen v + 1 <=? val_size then (0, Some (v ++ [0])) else (zlen v + 1, None)
  end.

(** Memory is there. *)
Definition get_token_value_alloc (params name : bytes) : Z * option bytes :=
  let val_size := fst (get_token_value params name 0) in
  if val_size <? 0 then (val_size, None)
  else
    let '(res, value) := get_token_value params name val_size in
    if negb (res =? 0) then (res, None) else (res, value).

(** The result, and the number written to [*value]. *)
Definition get_token_value_int (params name : bytes) : Z * option Z :=
  match get_token_value params name 64 with
  | (0, Some val_str) =>
      let '(v, err) := strtoi val_str in
      if err : bool then (-2, Some v) else (0, Some v)
  | _ => (-1, None)
  end.

(** ** The two tables are the same *)

Lemma print_row_appends junk strings maxw ncols nrows r c fuel text :
  0 <= maxw < INT_MAX -> (forall str, str ∈ strings -> zlen (c_str str) <= maxw) ->
  print_row fuel strings maxw ncols nrows r c = Some text ->
  appends (tabular_row junk fuel strings maxw ncols nrows r c) text.
Proof.
  intros Hm Hs. revert c text. induction fuel as [|fuel IH]; intros c text E; cbn [print_row tabular_row] in *.
  { injection E as <-. apply appends_nil. }
  destruct (c <? ncols); [|injection E as <-; apply appends_nil].
  destruct (zlen strings <=? c * nrows + r); [injection E as <-; apply appends_nil|].
  destruct (strings !! Z.to_nat (c * nrows + r)) as [str|] eqn:Hstr; [|done]. cbn [mbind option_bind] in *.
  destruct (print_row fuel strings maxw ncols nrows r (c + 1)) as [rest|] eqn:Hrest; [|done].
  injection E as <-. apply appends_bind; [|by apply IH].
  apply appends_format, pad_short; [done|]. apply Hs. by eapply list_elem_of_lookup_2.
Qed.

Lemma print_rows_appends junk strings prefix maxw ncols nrows r fuel text :
  0 <= maxw < INT_MAX -> (forall str, str ∈ strings -> zlen (c_str str) <= maxw) ->
  print_rows fuel strings prefix maxw ncols nrows r = Some text ->
  appends (tabular_rows junk fuel strings prefix maxw ncols nrows r) text.
Proof.
  intros Hm Hs. revert r text. induction fuel as [|fuel IH]; intros r text E; cbn [print_rows tabular_rows] in *.
  { injection E as <-. apply appends_nil. }
  destruct (r <? nrows); [|injection E as <-; apply appends_nil].
  destruct (print_row _ _ _ _ _ _ _) as [row|] eqn:Hrow; [|done]. cbn [mbind option_bind] in *.
  destruct (print_rows _ _ _ _ _ _ _) as [rest|] eqn:Hrest; [|done].
  injection E as <-. apply appends_bind; [apply appends_bytes|].
  apply appends_bind; [by eapply print_row_appends|]. apply (appends_bind _ _ [10]); [apply appends_bytes|by apply IH].
Qed.

(** What [print_tabular] prints is what [stralloc_tabular] adds. *)
Theorem print_tabular_same junk strings prefix width text st :
  tabular_maxw strings < INT_MAX -> print_tabular strings prefix width = Some text ->
  wf st -> n st + zlen text <= UINT_MAX ->
  exists st', stralloc_tabular junk strings prefix width st = Some st' /\ wf st' /\ content st' = content st ++ text.
Proof.
  intros Hm E. revert st. unfold print_tabular, stralloc_tabular in *. destruct (_ =? 0); [done|].
  destruct (maxw_spec strings 0) as [H1 H2].
  apply (print_rows_appends junk) in E; [exact E|unfold tabular_maxw in *; lia|].
  intros str Hstr. specialize (H2 str Hstr). unfold tabular_maxw. lia.
Qed.

Lemma print_tabular_same_witness :
  exists st, stralloc_tabular 0 [str "a"; str "b"; str "c"] [] 7 STRALLOC_INIT = Some st /\ wf st /\
    content st = str "a  c  " ++ [10] ++ str "b  " ++ [10].
Proof.
  apply (print_tabular_same 0 [str "a"; str "b"; str "c"] [] 7 (str "a  c  " ++ [10] ++ str "b  " ++ [10]) STRALLOC_INIT);
    [by vm_compute|done|apply wf_init|by vm_compute].
Defined.

(** ** Character translation *)

Lemma translate_app buf rest from to :
  Forall (fun c => c <> 0) buf -> from <> 0 ->
  string_translate_char (buf ++ 0 :: rest) from to = ((fun c => if c =? from then to else c) <$> buf) ++ 0 :: rest.
Proof.
  intros Hb Hf. induction Hb as [|c buf Hc Hb IH]; cbn [app string_translate_char fmap list_fmap].
  - by destruct (Z.eqb_spec 0 from).
  - destruct (c =? from); [by rewrite IH|]. destruct (Z.eqb_spec c 0); [done|]. by rewrite IH.
Qed.

Lemma c_str_app buf rest : Forall (fun c => c <> 0) buf -> c_str (buf ++ 0 :: rest) = buf.
Proof.
  intros Hb. unfold c_str. rewrite span_all; [done| |done]. eapply Forall_impl; [exact Hb|].
  intros c Hc. cbn. by rewrite (proj2 (Z.eqb_neq c 0) Hc).
Qed.

(** A translated copy stays in its buffer: it is the source as far as it fits
    with a terminator, each [fromChar] replaced.  A buffer of no bytes is
    overrun. *)
Theorem buffer_translate_char_bounds buff src fromChar toChar :
  c_string src -> fromChar <> 0 -> toChar <> 0 -> zlen buff < 2 ^ 32 ->
  (0 < zlen buff -> exists buff', buffer_translate_char buff (zlen buff) src fromChar toChar = Some buff' /\
     zlen buff' = zlen buff /\
     c_str buff' = ((fun c => if c =? fromChar then toChar else c) <$> take (Z.to_nat (zlen buff - 1)) src)) /\
  buffer_translate_char [] 0 src fromChar toChar = None.
Proof.
  intros Hs Hf Ht Hlen. unfold buffer_translate_char, buffer_translate_char_with_len. rewrite c_str_id by done.
  pose proof (zlen_nonneg src). split.
  2: { destruct (Z.leb_spec 0 (zlen src)); [|lia]. destruct (write_at 0 _ []) as [b|] eqn:E; [|done].
       apply write_at_length in E; [|done]. cbn [mbind option_bind]. unfold write_at.
       change (u32 (0 - 1)) with (2 ^ 32 - 1). rewrite E. done. }
  intros Hpos. set (d := take (Z.to_nat (zlen buff - 1)) src).
  assert ((if zlen buff <=? zlen src then u32 (zlen buff - 1) else zlen src) = zlen d
          /\ take (Z.to_nat (zlen d)) (src ++ [0]) = d /\ zlen d + 1 <= zlen buff) as (-> & -> & Hd).
  { unfold d. destruct (Z.leb_spec (zlen buff) (zlen src)).
    - rewrite wrap_small by (unfold in_u; lia). rewrite zlen_take by lia.
      split_and!; [done| |lia]. apply take_app_le. unfold zlen in *. lia.
    - rewrite take_ge by (unfold zlen in *; lia). split_and!; [done| |lia].
      unfold zlen. rewrite Nat2Z.id. apply take_app_length. }
  destruct (write_at_append [] d buff) as (b1 & E1 & T1 & L1); [cbn; lia|done|].
  change (zlen []) with 0 in E1. rewrite E1. cbn [mbind option_bind app] in *.
  destruct (write_at_append d [0] b1) as (b2 & E2 & T2 & L2); [rewrite zlen_app; change (zlen [0]) with 1; lia|done|].
  rewrite E2. cbn [mbind option_bind]. eexists. split; [done|].
  rewrite <- (take_drop (length (d ++ [0])) b2), T2, <- app_assoc. cbn [app].
  assert (Forall (fun c => c <> 0) d) as Hd0 by by apply Forall_take.
  rewrite translate_app by done. split.
  - rewrite <- L1, <- L2. rewrite <- (take_drop (length (d ++ [0])) b2) at 2. rewrite T2, <- app_assoc.
    unfold zlen. rewrite !length_app, length_fmap. done.
  - apply c_str_app, Forall_fmap. eapply Forall_impl; [exact Hd0|]. intros c Hc. cbn. by destruct (c =? fromChar).
Qed.

Lemma buffer_translate_char_bounds_witness :
  exists buff, buffer_translate_char (replicate 6 7) 6 (str "a.b.c.d") 46 95 = Some buff /\ zlen buff = 6 /\
    c_str buff = str "a_b_c".
Proof.
  apply (buffer_translate_char_bounds (replicate 6 7) (str "a.b.c.d") 46 95); [|done..].
  repeat constructor; done.
Defined.

(** ** Temporary strings *)

(** The slots of a sequence of calls. *)
Fixpoint tempstr_calls (szs : list Z) (r : temp_ring) : option (list Z * temp_ring) :=
  match szs with
  | [] => Some ([], r)
  | size :: szs => '(slot, r) ← tempstr_get size r; '(slots, r) ← tempstr_calls szs r; Some (slot :: slots, r)
  end.

Definition ring_ok (r : temp_ring) : Prop := length (sizes r) = 16%nat /\ 0 <= temp_string_n r < 16.

Lemma tempstr_get_ok size r :
  ring_ok r -> 0 <= size < INT_MAX ->
  exists r', tempstr_get size r = Some (temp_string_n r, r') /\ ring_ok r' /\
    temp_string_n r' = (temp_string_n r + 1) mod 16 /\
    (exists b, sizes r' !! Z.to_nat (temp_string_n r) = Some b /\ size + 1 <= b) /\
    (forall k b, sizes r !! k = Some b -> exists b', sizes r' !! k = Some b' /\ b <= b').
Proof.
  intros [Hl Hn] Hs. unfold tempstr_get, MAX_TEMP_STRINGS, INT_MAX in *. set (t := temp_string_n r) in *.
  destruct (lookup_lt_is_Some_2 (sizes r) (Z.to_nat t)) as [old Hold]; [lia|].
  rewrite Hold. cbn [mbind option_bind]. rewrite swrap_small by (unfold in_s; lia).
  assert ((if 16 <=? t + 1 then 0 else t + 1) = (t + 1) mod 16) as ->.
  { destruct (Z.leb_spec 16 (t + 1)); [|rewrite Z.mod_small; lia].
    replace (t + 1) with 16 by lia. done. }
  pose proof (Z.mod_pos_bound (t + 1) 16 ltac:(lia)).
  eexists. split; [done|]. unfold ring_ok. cbn [sizes temp_string_n].
  destruct (Z.ltb_spec old (size + 1)).
  - rewrite length_insert. split_and!; [done|lia|lia|done| |].
    + exists (size + 1). rewrite list_lookup_insert_eq by lia. split; [done|lia].
    + intros k b Hk. destruct (decide (k = Z.to_nat t)) as [->|].
      * rewrite list_lookup_insert_eq by lia. eexists. split; [done|]. simplify_eq. lia.
      * rewrite list_lookup_insert_ne by done. eauto with lia.
  - split_and!; [done|lia|lia|done| |].
    + exists old. split; [done|lia].
    + eauto with lia.
Qed.

Lemma tempstr_calls_ok szs r :
  ring_ok r -> Forall (fun size => 0 <= size < INT_MAX) szs ->
  exists slots r', tempstr_calls szs r = Some (slots, r') /\ ring_ok r' /\ length slots = length szs /\
    (forall i slot, slots !! i = Some slot -> slot = (temp_string_n r + Z.of_nat i) mod 16) /\
    (forall k b, sizes r !! k = Some b -> exists b', sizes r' !! k = Some b' /\ b <= b') /\
    (forall i slot size, slots !! i = Some slot -> szs !! i = Some size ->
       exists b, sizes r' !! Z.to_nat slot = Some b /\ size + 1 <= b).
Proof.
  intros Hr Hs. revert r Hr. induction Hs as [|size szs Hsz Hs IH]; intros r Hr.
  { exists [], r. split_and!; try done. intros k b Hk. exists b. split; [done|lia]. }
  destruct (tempstr_get_ok size r Hr Hsz) as (r1 & E1 & H1 & N1 & (b1 & B1 & L1) & M1).
  destruct (IH r1 H1) as (slots & r2 & E2 & H2 & Hlen & Hslots & M2 & Hcap).
  exists (temp_string_n r :: slots), r2. cbn [tempstr_calls]. rewrite E1. cbn [mbind option_bind]. rewrite E2.
  split_and!; [done|done|cbn; lia| | |].
  - intros [|i] slot Hi; cbn in Hi.
    + injection Hi as <-. destruct Hr as [_ Hr]. rewrite Z.mod_small; lia.
    + rewrite (Hslots i slot Hi), N1, Zplus_mod_idemp_l. f_equal. lia.
  - intros k b Hk. destruct (M1 k b Hk) as (b' & Hk' & ?). destruct (M2 k b' Hk') as (b2 & ? & ?).
    exists b2. split; [done|lia].
  - intros [|i] slot sz Hi Hsz'; cbn in Hi, Hsz'; [|by eapply Hcap].
    simplify_eq. destruct (M2 _ _ B1) as (b2 & ? & ?). exists b2. split; [done|lia].
Qed.

Lemma ring0_ok : ring_ok ring0.
Proof. split; [done|cbn; lia]. Qed.

(** Sixteen temporary strings are alive at once: a buffer is given again only
    sixteen calls later, and each is large enough for its text and the
    terminator, whatever sizes were asked for before. *)
Theorem temp_strings_alive szs :
  Forall (fun size => 0 <= size < INT_MAX) szs ->
  exists slots r, tempstr_calls szs ring0 = Some (slots, r) /\ length slots = length szs /\
    (forall i j a b, slots !! i = Some a -> slots !! j = Some b -> (i < j < i + 16)%nat -> a <> b) /\
    (forall i slot size, slots !! i = Some slot -> szs !! i = Some size ->
       exists b, sizes r !! Z.to_nat slot = Some b /\ size + 1 <= b).
Proof.
  intros Hs. destruct (tempstr_calls_ok szs ring0 ring0_ok Hs) as (slots & r & E & _ & Hlen & Hslots & _ & Hcap).
  exists slots, r. split_and!; [done|done| |done].
  intros i j a b Ha Hb Hij. rewrite (Hslots i a Ha), (Hslots j b Hb). cbn [temp_string_n ring0]. intros E2.
  pose proof (Z.div_mod (0 + Z.of_nat i) 16 ltac:(lia)). pose proof (Z.div_mod (0 + Z.of_nat j) 16 ltac:(lia)). lia.
Qed.

Lemma temp_strings_alive_witness :
  exists slots r, tempstr_calls [3; 100; 7] ring0 = Some (slots, r) /\ length slots = 3%nat.
Proof.
  destruct (temp_strings_alive [3; 100; 7]) as (slots & r & H & Hl & _); [repeat constructor; unfold INT_MAX; lia|].
  by exists slots, r.
Defined.

(** ** Hexadecimal numbers *)

Lemma hexdigit_char d : 0 <= d < 16 -> hexdigit (default 0 (hexdigits !! Z.to_nat d)) = d.
Proof.
  intros Hd.
  assert (forallb (fun d => hexdigit (default 0 (hexdigits !! Z.to_nat d)) =? d) (seqZ 0 16) = true) as H
    by (vm_compute; done).
  rewrite forallb_forall in H. apply Z.eqb_eq, H, list_elem_of_In, elem_of_seqZ. lia.
Qed.

Lemma nibble_range v k : 0 <= Z.land (Z.shiftr v k) 15 < 16.
Proof. change 15 with (Z.ones 4). rewrite Z.land_ones by lia. apply Z.mod_pos_bound. lia. Qed.

Lemma shift_or result c :
  0 <= result -> 0 <= c < 16 -> Z.lor (Z.shiftl result 4) c = result * 16 + c.
Proof.
  intros Hr Hc. rewrite Z.shiftl_mul_pow2 by lia. change (2 ^ 4) with 16.
  assert (Z.land (result * 16) c = 0) as E.
  { apply Z.bits_inj'. intros i Hi. rewrite Z.land_spec, Z.bits_0. change 16 with (2 ^ 4).
    rewrite Z.mul_pow2_bits by lia. destruct (Z.lt_ge_cases i 4); [by rewrite Z.testbit_neg_r by lia|].
    rewrite (Z.bits_above_log2 c), andb_false_r; [done|lia|].
    destruct (Z.eq_dec c 0) as [->|]; [cbn; lia|]. apply Z.log2_lt_pow2; [lia|].
    apply Z.lt_le_trans with (2 ^ 4); [lia|]. apply Z.pow_le_mono_r; lia. }
  rewrite <- Z.lxor_lor, <- Z.add_nocarry_lxor by done. lia.
Qed.

Lemma hex2int_loop_int2hex k val result :
  0 <= result -> 0 <= val -> result * 16 ^ Z.of_nat k + val mod 16 ^ Z.of_nat k < 2 ^ 31 ->
  hex2int_loop (int2hex k val) result = result * 16 ^ Z.of_nat k + val mod 16 ^ Z.of_nat k.
Proof.
  revert result. induction k as [|k IH]; intros result Hr Hv Hlt.
  { cbn. rewrite Z.mod_1_r. lia. }
  cbn [int2hex hex2int_loop]. set (d := Z.land (Z.shiftr val (Z.of_nat k * 4)) 15).
  pose proof (nibble_range val (Z.of_nat k * 4)) as Hd. fold d in Hd. rewrite hexdigit_char by done.
  destruct (Z.ltb_spec d 0); [lia|]. rewrite shift_or by lia.
  assert (0 < 16 ^ Z.of_nat k) as Hp by (apply Z.pow_pos_nonneg; lia).
  assert (val mod 16 ^ Z.of_nat (S k) = d * 16 ^ Z.of_nat k + val mod 16 ^ Z.of_nat k) as Hm.
  { unfold d. change 15 with (Z.ones 4). rewrite Z.land_ones, Z.shiftr_div_pow2 by lia.
    replace (2 ^ (Z.of_nat k * 4)) with (16 ^ Z.of_nat k)
      by (rewrite Z.mul_comm, Z.pow_mul_r by lia; done).
    replace (16 ^ Z.of_nat (S k)) with (16 ^ Z.of_nat k * 16)
      by (rewrite Nat2Z.inj_succ, Z.pow_succ_r by lia; lia).
    rewrite Z.rem_mul_r by lia. change (2 ^ 4) with 16. lia. }
  rewrite Hm in *. replace (16 ^ Z.of_nat (S k)) with (16 * 16 ^ Z.of_nat k) in *
    by (rewrite Nat2Z.inj_succ, Z.pow_succ_r by lia; lia).
  pose proof (Z.mod_pos_bound val (16 ^ Z.of_nat k) Hp).
  rewrite swrap_small by (unfold in_s; nia). rewrite IH; nia.
Qed.

Lemma int2hex_length k val : length (int2hex k val) = k.
Proof. induction k as [|k IH]; [done|]. cbn. by rewrite IH. Qed.

Lemma hex2int_int2hex_digits k val :
  0 <= val < 16 ^ Z.of_nat k -> val < 2 ^ 31 -> hex2int (int2hex k val) (Z.of_nat k) = val.
Proof.
  intros Hv Hi. unfold hex2int. rewrite take_ge by (rewrite int2hex_length; lia).
  rewrite hex2int_loop_int2hex; rewrite ?(Z.mod_small val) by lia; lia.
Qed.

(** A number printed with [int2hex] in [k] digits is read back by [hex2int],
    when it fits the digits and an [int]. *)
Theorem hex2int_int2hex k val :
  0 <= val < 16 ^ Z.of_nat k -> val < 2 ^ 31 -> hex2int (int2hex k val) (Z.of_nat k) = val.
Proof. apply hex2int_int2hex_digits. Qed.

Lemma hex2int_int2hex_witness : hex2int (int2hex 4 48879) 4 = 48879.
Proof. apply (hex2int_int2hex 4 48879); [split; [lia|by vm_compute]|lia]. Defined.

(** ** Quoted text *)

(** A reader of quoted text. *)
Fixpoint unquote (l : bytes) : bytes :=
  match l with
  | 92 :: 92 :: l => 92 :: unquote l
  | 92 :: 110 :: l => 10 :: unquote l
  | 92 :: 116 :: l => 9 :: unquote l
  | 92 :: 114 :: l => 13 :: unquote l
  | 92 :: 120 :: a :: b :: l => hex2int [a; b] 2 :: unquote l
  | c :: l => c :: unquote l
  | [] => []
  end.

Lemma hex_escape_value c : is_byte c -> hex2int [hex_char (Z.shiftr c 4); hex_char c] 2 = c.
Proof.
  intros Hc. change [hex_char (Z.shiftr c 4); hex_char c] with (int2hex 2 c).
  apply (hex2int_int2hex_digits 2); [exact Hc|unfold is_byte in Hc; lia].
Qed.

Lemma unquote_char c t : is_byte c -> unquote (quote_char c ++ t) = c :: unquote t.
Proof.
  intros Hc. unfold quote_char.
  destruct (Z.eqb_spec c 92) as [->|H92]; [done|].
  destruct ((32 <=? c) && (c <? 128)) eqn:Hp.
  { cbn [app unquote]. destruct c as [|p|p]; try done.
    do 7 (destruct p as [p|p|]; try done). }
  destruct (Z.eqb_spec c 10) as [->|]; [done|]. destruct (Z.eqb_spec c 9) as [->|]; [done|].
  destruct (Z.eqb_spec c 13) as [->|]; [done|]. unfold hex_escape. cbn [app unquote]. by rewrite hex_escape_value.
Qed.

Lemma unquote_quote b : Forall is_byte b -> unquote (quote b) = b.
Proof.
  induction 1 as [|c b Hc Hb IH]; [done|]. change (quote (c :: b)) with (quote_char c ++ quote b).
  by rewrite unquote_char, IH.
Qed.

(** The text [quote_bytes] makes of any bytes is made of printable characters and
    determines the bytes. *)
Theorem quote_bytes_roundtrip junk b r :
  Forall is_byte b -> zlen (quote b) < INT_MAX -> ring_ok r ->
  exists slot text r', quote_bytes junk b r = Some (slot, text, r') /\
    unquote text = b /\ Forall (fun c => 32 <= c < 128) text.
Proof.
  intros Hb Hl Hr. unfold quote_bytes. unfold INT_MAX in *.
  destruct (appends_quote junk b Hb STRALLOC_INIT) as (st & -> & Hw & Hc);
    [apply wf_init|cbn; unfold UINT_MAX; lia|].
  cbn [mbind option_bind]. change (content STRALLOC_INIT ++ quote b) with (quote b) in Hc.
  pose proof (content_length st Hw) as Hn. rewrite Hc in Hn. pose proof (zlen_nonneg (quote b)).
  unfold stralloc_to_tempstr. rewrite swrap_small by (unfold in_s; lia).
  destruct (tempstr_get_ok (n st) r Hr) as (r' & -> & _); [unfold INT_MAX; lia|]. cbn [mbind option_bind].
  eexists _, _, _. split; [done|]. rewrite Hc. split; [by apply unquote_quote|].
  clear -Hb. apply Forall_bind. eapply Forall_impl; [exact Hb|]. intros c Hc. unfold compose, quote_char.
  assert (forall d, 32 <= hex_char d < 128) as Hhex.
  { intros d. unfold hex_char. pose proof (nibble_range d 0) as Hd. rewrite Z.shiftr_0_r in Hd.
    assert (forallb (fun d => (32 <=? default 0 (hexdigits !! Z.to_nat d)) &&
      (default 0 (hexdigits !! Z.to_nat d) <? 128)) (seqZ 0 16) = true) as H by (vm_compute; done).
    rewrite forallb_forall in H. specialize (H (Z.land d 15)).
    rewrite andb_true_iff, Z.leb_le, Z.ltb_lt in H. apply H, list_elem_of_In, elem_of_seqZ. lia. }
  pose proof (Hhex (Z.shiftr c 4)). pose proof (Hhex c).
  assert ((32 <=? c) && (c <? 128) = true -> 32 <= c < 128) as Hp by (rewrite andb_true_iff, Z.leb_le, Z.ltb_lt; done).
  unfold hex_escape. destruct (c =? 92), ((32 <=? c) && (c <? 128)), (c =? 10), (c =? 9), (c =? 13);
    repeat first [apply Forall_nil_2|apply Forall_cons_2]; auto; (lia || by apply Hp).
Qed.

Lemma quote_bytes_roundtrip_witness :
  exists slot text r', quote_bytes 170 [0; 10; 92; 65; 255] ring0 = Some (slot, text, r') /\
    unquote text = [0; 10; 92; 65; 255] /\ Forall (fun c => 32 <= c < 128) text.
Proof.
  apply (quote_bytes_roundtrip 170 [0; 10; 92; 65; 255] ring0);
    [repeat constructor; unfold is_byte; lia|by vm_compute|apply ring0_ok].
Defined.

(** ** The value of a word *)

(** The words of a line, which single blanks separate. *)
Fixpoint words_loop (fuel : nat) (s : bytes) : list bytes :=
  match fuel with
  | O => []
  | S fuel =>
      match split_at 32 s with
      | Some (w, s) => w :: words_loop fuel s
      | None => [s]
      end
  end.
Definition words (s : bytes) : list bytes := words_loop (S (length s)) s.

(** The value of the first word [name=value]. *)
Fixpoint first_value (name : bytes) (ws : list bytes) : option bytes :=
  match ws with
  | [] => None
  | w :: ws => match strip_prefix (name ++ [61]) w with Some v => Some v | None => first_value name ws end
  end.

(** The same by looking at every position. *)
Fixpoint scan (name : bytes) (start : bool) (s : bytes) : option bytes :=
  match (if start then strip_prefix (name ++ [61]) s else None) with
  | Some v => Some (fst (span (fun c => negb (c =? 32)) v))
  | None => match s with [] => None | c :: s => scan name (c =? 32) s end
  end.

Section words.
Context (name : bytes) (Hblank : Forall (fun c => c <> 32) name).

Definition at_start (prev : option Z) : bool := match prev with None => true | Some c => c =? 32 end.

Definition value_at (p : ptr) : bytes := fst (span (fun c => negb (c =? 32)) (drop (S (length name)) (snd p))).

Lemma strip_name s :
  c_string s ->
  strip_prefix (name ++ [61]) s =
  (if starts_with name s && (head0 (drop (length name) s) =? 61) then Some (drop (S (length name)) s) else None).
Proof.
  intros Hs. destruct (strip_prefix (name ++ [61]) s) as [v|] eqn:E.
  - apply strip_prefix_Some in E as ->. rewrite <- app_assoc. unfold starts_with. rewrite strip_prefix_app.
    rewrite drop_app_length. cbn [head0 app]. rewrite Z.eqb_refl. cbn [andb].
    replace (S (length name)) with (length (name ++ [61])) by (rewrite length_app; cbn; lia).
    by rewrite (cons_middle 61 name v), app_assoc, drop_app_length.
  - unfold starts_with. destruct (strip_prefix name s) as [t|] eqn:E2; [|done].
    apply strip_prefix_Some in E2 as ->. rewrite drop_app_length. destruct t as [|c t]; [done|]. cbn [head0].
    destruct (Z.eqb_spec c 61) as [->|]; [|done].
    change (name ++ 61 :: t) with (name ++ [61] ++ t) in E. by rewrite app_assoc, strip_prefix_app in E.
Qed.

(** Jumping from one occurrence of the name to the next finds what looking at
    every position finds. *)
Lemma find_name_scan fuel prev s :
  c_string s -> (length s < fuel)%nat ->
  value_at <$> find_name fuel name (strstr prev s name) = scan name (at_start prev) s.
Proof.
  intros Hs. revert fuel prev. induction Hs as [|c s Hc Hs IH]; intros fuel prev Hf.
  - cbn [strstr scan]. pose proof (strip_name [] ltac:(constructor)) as E. rewrite drop_nil in E. cbn [head0] in E.
    rewrite andb_false_r in E. rewrite E. destruct fuel as [|fuel]; [lia|].
    destruct (starts_with name []); [|by destruct (at_start prev)].
    cbn [find_name]. rewrite drop_nil. cbn [head0]. rewrite andb_false_r. destruct (_ <? _), (at_start prev); done.
  - cbn [scan]. rewrite (strip_name (c :: s)) by by constructor.
    destruct fuel as [|fuel]; [cbn in Hf; lia|]. cbn [length] in Hf.
    change (strstr prev (c :: s) name)
      with (if starts_with name (c :: s) then Some (prev, c :: s) else strstr (Some c) s name).
    destruct (starts_with name (c :: s)) eqn:Hp; cbn [andb].
    + change (find_name (S fuel) name (Some (prev, c :: s)))
        with (if zlen (c :: s) <? zlen name then None
              else if at_start prev && (head0 (drop (length name) (c :: s)) =? 61) then Some (prev, c :: s)
              else find_name fuel name (strstr (Some c) s name)).
      assert ((zlen (c :: s) <? zlen name) = false) as ->.
      { unfold starts_with in Hp. destruct (strip_prefix name (c :: s)) as [t|] eqn:Et; [|done].
        apply strip_prefix_Some in Et as ->. rewrite zlen_app. pose proof (zlen_nonneg t). apply Z.ltb_ge. lia. }
      destruct (at_start prev); cbn [andb].
      * destruct (head0 _ =? 61); [done|]. apply (IH fuel (Some c)). lia.
      * apply (IH fuel (Some c)). lia.
    + destruct (at_start prev); apply (IH (S fuel) (Some c)); lia.
Qed.

Lemma scan_skip w s : Forall (fun c => c <> 32) w -> scan name false (w ++ 32 :: s) = scan name true s.
Proof.
  induction 1 as [|c w Hc Hw IH]; [done|]. cbn [app scan].
  by replace (c =? 32) with false by (symmetry; by apply Z.eqb_neq).
Qed.

Lemma scan_end w : Forall (fun c => c <> 32) w -> scan name false w = None.
Proof.
  induction 1 as [|c w Hc Hw IH]; [done|]. cbn [scan].
  by replace (c =? 32) with false by (symmetry; by apply Z.eqb_neq).
Qed.

Lemma span_blank v s : Forall (fun c => c <> 32) v -> fst (span (fun c => negb (c =? 32)) (v ++ 32 :: s)) = v.
Proof.
  intros Hv. rewrite span_all; [done| |done]. eapply Forall_impl; [exact Hv|]. intros c Hc. cbn.
  by rewrite (proj2 (Z.eqb_neq c 32) Hc).
Qed.

Lemma span_blank_end v : Forall (fun c => c <> 32) v -> fst (span (fun c => negb (c =? 32)) v) = v.
Proof.
  intros Hv. rewrite <- (app_nil_r v) at 1. rewrite span_all; [done| |done]. eapply Forall_impl; [exact Hv|].
  intros c Hc. cbn. by rewrite (proj2 (Z.eqb_neq c 32) Hc).
Qed.

(** A prefix without blanks lies in the first word. *)
Lemma prefix_in_word p w s :
  Forall (fun c => c <> 32) p ->
  strip_prefix p (w ++ 32 :: s) = (fun v => v ++ 32 :: s) <$> strip_prefix p w.
Proof.
  intros Hp. revert w. induction Hp as [|c p Hc Hp IH]; intros w; [done|].
  destruct w as [|x w]; cbn [app strip_prefix].
  - by replace (c =? 32) with false by (symmetry; by apply Z.eqb_neq).
  - destruct (c =? x); [apply IH|done].
Qed.

Lemma scan_words fuel s : (length s < fuel)%nat -> scan name true s = first_value name (words_loop fuel s).
Proof.
  assert (Forall (fun c => c <> 32) (name ++ [61])) as Hp by (apply Forall_app; split; [done|by repeat constructor]).
  revert s. induction fuel as [|fuel IH]; intros s Hf; [lia|]. cbn [words_loop].
  destruct (split_at 32 s) as [[w s']|] eqn:E.
  - apply split_at_Some in E as [-> Hw]. cbn [first_value]. rewrite length_app in Hf. cbn [length] in Hf.
    rewrite <- (IH s') by lia. pose proof (prefix_in_word (name ++ [61]) w s' Hp) as E.
    destruct (strip_prefix (name ++ [61]) w) as [v|] eqn:Ew; cbn in E.
    + apply strip_prefix_Some in Ew as ->. apply Forall_app in Hw as [_ Hv].
      destruct ((name ++ [61]) ++ v) as [|c w] eqn:Ec; [by destruct name|]. cbn [app scan] in *.
      rewrite E. by rewrite span_blank.
    + destruct Hw as [|c w Hc Hw].
      * cbn [app scan] in *. by rewrite E.
      * cbn [app scan] in *. rewrite E. replace (c =? 32) with false by (symmetry; by apply Z.eqb_neq).
        by apply scan_skip.
  - apply split_at_None in E. cbn [first_value]. destruct (strip_prefix (name ++ [61]) s) as [v|] eqn:Es.
    + pose proof Es as Es'. apply strip_prefix_Some in Es'. destruct s as [|c s]; [by destruct name|].
      cbn [scan]. rewrite Es, span_blank_end; [done|]. rewrite Es', !Forall_app in E. apply E.
    + destruct E as [|c w Hc Hw]; cbn [scan]; rewrite Es; [done|].
      replace (c =? 32) with false by (symmetry; by apply Z.eqb_neq). by apply scan_end.
Qed.
End words.

(** [get_token_value] finds the first word [name=value] of the line and no other
    place where the name occurs (the end of a longer name, a value); it tells the
    size the value needs when the buffer is too small, so that
    [get_token_value_alloc] gets the whole value. *)
Theorem get_token_value_first params name val_size :
  c_string params -> c_string name -> Forall (fun c => c <> 32) name ->
  get_token_value params name val_size =
    (match first_value name (words params) with
     | None => (-1, None)
     | Some v => if zlen v + 1 <=? val_size then (0, Some (v ++ [0])) else (zlen v + 1, None)
     end) /\
  get_token_value_alloc params name =
    (match first_value name (words params) with None => (-1, None) | Some v => (0, Some (v ++ [0])) end).
Proof.
  intros Hp Hn Hb.
  assert (forall size, get_token_value params name size =
    match first_value name (words params) with
    | None => (-1, None)
    | Some v => if zlen v + 1 <=? size then (0, Some (v ++ [0])) else (zlen v + 1, None)
    end) as H.
  { intros size. unfold get_token_value. rewrite !c_str_id by done.
    pose proof (find_name_scan name (S (length params)) None params Hp ltac:(lia)) as E.
    cbn [at_start] in E. rewrite (scan_words name Hb (S (length params))) in E by lia.
    change (words_loop (S (length params)) params) with (words params) in E.
    destruct (find_name _ _ _) as [[prev s]|]; cbn [fmap option_fmap option_map] in E; rewrite <- E; done. }
  split; [apply H|]. unfold get_token_value_alloc. rewrite !H.
  destruct (first_value name (words params)) as [v|]; [|done]. pose proof (zlen_nonneg v).
  destruct (Z.leb_spec (zlen v + 1) 0); [lia|]. cbn [fst]. destruct (Z.ltb_spec (zlen v + 1) 0); [lia|].
  by rewrite Z.leb_refl.
Qed.

Lemma get_token_value_first_witness :
  get_token_value (str "pname=1 name2=5 x=name=7 name=abc name=z") (str "name") 4 = (0, Some (str "abc" ++ [0])).
Proof.
  destruct (get_token_value_first (str "pname=1 name2=5 x=name=7 name=abc name=z") (str "name") 4) as [H _];
    [repeat constructor; done|repeat constructor; done|repeat constructor; done|].
  rewrite H. reflexivity.
Defined.
