(* ===== verification/PathText.v ===== *)
(** * Paths as text

    Models the functions on path strings of [path.cpp] of [android/files]:
    [path_parent], [path_escape_path], [path_unescape_path] and
    [path_search_exec]; the separator is that of POSIX hosts. *)

From S2P Require Import Prelude CText.

(** ** [path_parent] *)

Definition ispathsep (c : Z) : bool := c =? 47.

(** [while (end > path && ispathsep(end[-1])) end--]; positions are offsets from the start of the path. *)
Fixpoint trim_seps (path : bytes) (end_ : nat) : nat :=
  match end_ with
  | O => O
  | S e => if ispathsep (nth e path 0) then trim_seps path e else end_
  end.

(** [while (base > path && !ispathsep(base[-1])) base--]. *)
Fixpoint find_base (path : bytes) (base : nat) : nat :=
  match base with
  | O => O
  | S b => if negb (ispathsep (nth b path 0)) then find_base path b else base
  end.

(** The inner option is the result, [None] for a null pointer; the outer one is [None] when the fuel is used up. *)
Fixpoint parent_loop (fuel : nat) (path : bytes) (end_ : nat) (levels : Z) : option (option bytes) :=
  match fuel with
  | O => None
  | S fuel =>
      if 0 <? levels then
        let end_ := trim_seps path end_ in
        let base := find_base path end_ in
        if (base =? 0)%nat then
          if (end_ =? base + 1)%nat && (nth base path 0 =? 46) && (levels =? 1) then Some (Some [46; 46]) else Some None
        else if (end_ =? base + 1)%nat && (nth base path 0 =? 46) then parent_loop fuel path (base - 1) levels
        else if (end_ =? base + 2)%nat && (nth base path 0 =? 46) && (nth (base + 1) path 0 =? 46)
        then parent_loop fuel path (base - 1) (levels + 1)
        else parent_loop fuel path (base - 1) (levels - 1)
      else Some (Some (take end_ path))
  end.

Definition path_parent (path : bytes) (levels : Z) : option (option bytes) :=
  parent_loop (S (length path)) path (length path) levels.

(** ** [path_escape_path] and [path_unescape_path] *)

Definition escape_char (c : Z) : bytes :=
  if c =? 61 then [37; 69] else if c =? 44 then [37; 67] else if c =? 37 then [37; 80] else [c].

(** The loop that fills the allocation: [None] is a store past its end. *)
Fixpoint escape_loop (src ret : bytes) (dst : Z) : option bytes :=
  match src with
  | [] => write_at dst [0] ret
  | c :: src => ret ← write_at dst (escape_char c) ret; escape_loop src ret (dst + zlen (escape_char c))
  end.

(** An allocation of [n] bytes holds [junk n]. *)
Definition path_escape_path (junk : Z -> bytes) (src : bytes) : option bytes :=
  escape_loop src (junk (2 * zlen src + 1)) 0.

(** In place: [src] and [dst] are offsets into the same buffer. *)
Fixpoint unescape_loop (fuel : nat) (buf : bytes) (src dst : nat) : option bytes :=
  match fuel with
  | O => None
  | S fuel =>
      c ← buf !! src;
      if c =? 0 then write_at (Z.of_nat dst) [0] buf
      else if negb (c =? 37) then
        buf ← write_at (Z.of_nat dst) [c] buf; unescape_loop fuel buf (S src) (S dst)
      else
        c ← buf !! S src;
        if c =? 67 then buf ← write_at (Z.of_nat dst) [44] buf; unescape_loop fuel buf (S (S src)) (S dst)
        else if c =? 69 then buf ← write_at (Z.of_nat dst) [61] buf; unescape_loop fuel buf (S (S src)) (S dst)
        else if c =? 80 then buf ← write_at (Z.of_nat dst) [37] buf; unescape_loop fuel buf (S (S src)) (S dst)
        else unescape_loop fuel buf (S src) dst
  end.

Definition path_unescape_path (buf : bytes) : option bytes := unescape_loop (S (length buf)) buf 0 0.

(** ** [path_search_exec] *)

(** What [snprintf] leaves in a buffer of [size] bytes for this text. *)
Definition snprintf_text (size : Z) (text : bytes) : bytes := take (Z.to_nat (size - 1)) text.

Definition PATH_MAX : Z := 4096.

Section search.
Context (path_exists path_can_exec : bytes -> bool).

(** The search through what is left of the system path. *)
Fixpoint search_items (fuel : nat) (p filename : bytes) : option (option bytes) :=
  match fuel with
  | O => None
  | S fuel =>
      match p with
      | [] => Some None
      | _ =>
          let item := fst (span (fun c => negb (c =? 58)) p) in
          let temp := snprintf_text PATH_MAX (item ++ [47] ++ filename) in
          if (0 <? zlen item) && (path_exists temp && path_can_exec temp) then Some (Some temp)
          else
            let p := drop (length item) p in
            search_items fuel (match p with c :: p' => if c =? 58 then p' else p | [] => [] end) filename
      end
  end.

(** [sysPath] is the environment's [PATH], if there is one. *)
Definition path_search_exec (sysPath : option bytes) (filename : bytes) : option (option bytes) :=
  if existsb (fun c => c =? 47) filename
  then Some (if path_exists filename then Some filename else None)
  else
    match sysPath with
    | None | Some [] => Some None
    | Some p => search_items (S (length p)) p filename
    end.
End search.

(** ** What they mean *)

(** The pieces between separators. *)
Fixpoint pieces (c : Z) (s : bytes) : list bytes :=
  match s with
  | [] => [[]]
  | x :: s =>
      if x =? c then [] :: pieces c s
      else match pieces c s with [] => [[x]] | w :: ws => (x :: w) :: ws end
  end.

(** Following the names of a path down from a directory, the last name first: [.] stays, [..] goes back, and
    [None] is a climb above where the walk began. *)
Definition walk_step (at_ : option (list bytes)) (name : bytes) : option (list bytes) :=
  names ← at_;
  if bytes_eqb name [] || bytes_eqb name [46] then Some names
  else if bytes_eqb name [46; 46] then match names with [] => None | _ :: names => Some names end
  else Some (name :: names).

Definition walk_from (st : list bytes) (s : bytes) : option (list bytes) := foldl walk_step (Some st) (pieces 47 s).
Definition walk (s : bytes) : option (list bytes) := walk_from [] s.

(** The text of a path from which the characters with a meaning elsewhere are escaped. *)
Definition escape (s : bytes) : bytes := concat (map escape_char s).
Fixpoint unescape (s : bytes) : bytes :=
  match s with
  | [] => []
  | c :: s =>
      if negb (c =? 37) then c :: unescape s
      else match s with
           | [] => []
           | d :: s' =>
               if d =? 67 then 44 :: unescape s'
               else if d =? 69 then 61 :: unescape s'
               else if d =? 80 then 37 :: unescape s'
               else unescape s
           end
  end.

Example parent1 : path_parent (str "/a/b/c/../d") 2 = Some (Some (str "/a")). Proof. vm_compute. reflexivity. Qed.
Example parent2 : path_parent (str "a") 1 = Some None. Proof. vm_compute. reflexivity. Qed.
Example parent3 : path_parent (str "/a") 1 = Some (Some []). Proof. vm_compute. reflexivity. Qed.
Example escape1 : path_escape_path (fun n => replicate (Z.to_nat n) 7) (str "a=,%b") = Some (str "a%E%C%Pb" ++ [0;7;7]). Proof. vm_compute. reflexivity. Qed.
Example unescape1 : path_unescape_path (str "a%E%%Zb" ++ [0;9]) = Some (str "a=Zb" ++ [0; 90; 98;0;9]). Proof. vm_compute. reflexivity. Qed.

(** ** The pieces of a text *)

Lemma pieces_nonempty c s : exists w ws, pieces c s = w :: ws.
Proof. induction s as [|x s IH]; cbn; [by eexists _, _|]. destruct (x =? c); [by eexists _, _|]. destruct IH as (w & ws & ->). by eexists _, _. Qed.

Lemma pieces_app c a b : pieces c (a ++ c :: b) = pieces c a ++ pieces c b.
Proof.
  induction a as [|x a IH]; cbn; [by rewrite Z.eqb_refl|]. destruct (x =? c); [by rewrite IH|].
  rewrite IH. destruct (pieces_nonempty c a) as (w & ws & ->). done.
Qed.

Lemma pieces_word c w : Forall (fun x => x <> c) w -> pieces c w = [w].
Proof. induction 1 as [|x w Hx _ IH]; cbn; [done|]. rewrite (proj2 (Z.eqb_neq x c)) by done. by rewrite IH. Qed.

Lemma pieces_cons c w s : Forall (fun x => x <> c) w -> pieces c (w ++ c :: s) = w :: pieces c s.
Proof. intros. by rewrite pieces_app, pieces_word. Qed.

(** ** The parent *)

Lemma walk_none l : foldl walk_step None l = None.
Proof. by induction l. Qed.

(** A rest of a path: nothing, or a separator and more. *)
Definition tail_ok (t : bytes) : Prop := t = [] \/ exists s, t = 47 :: s.

Lemma walk_from_sep st s : walk_from st (47 :: s) = walk_from st s.
Proof. done. Qed.

Lemma walk_from_name st name t :
  tail_ok t -> Forall (fun x => x <> 47) name ->
  walk_from st (name ++ t) = match walk_step (Some st) name with Some st' => walk_from st' t | None => None end.
Proof.
  intros [->|[s ->]] Hn; unfold walk_from.
  - rewrite app_nil_r, pieces_word by done. cbn [foldl pieces]. by destruct (walk_step (Some st) name).
  - rewrite pieces_cons by done. cbn [foldl]. change (pieces 47 (47 :: s)) with ([] :: pieces 47 s). cbn [foldl].
    destruct (walk_step (Some st) name); [done|]. apply walk_none.
Qed.

Lemma find_base_spec p t :
  exists q name, p = q ++ name /\ find_base (p ++ t) (length p) = length q /\ Forall (fun x => x <> 47) name /\
    (q = [] \/ exists q', q = q' ++ [47]).
Proof.
  revert t. induction p as [|c p IH] using rev_ind; intros t; [by exists [], []; auto|].
  rewrite length_app, Nat.add_comm. cbn [length Nat.add find_base]. rewrite <- app_assoc. rewrite app_nth2, Nat.sub_diag by lia. cbn [app nth].
  unfold ispathsep. destruct (Z.eqb_spec c 47) as [->|Hc]; cbn [negb].
  - exists (p ++ [47]), []. split_and!; [by rewrite app_nil_r|rewrite length_app; cbn; lia|done|]. right. by exists p.
  - destruct (IH (c :: t)) as (q & name & -> & E & Hn & Hq). exists q, (name ++ [c]). split_and!; [by rewrite app_assoc|exact E| |done].
    apply Forall_app. split; [done|]. by constructor.
Qed.

(** The rest of a path leads down as many levels. *)
Definition leads_down (levels : Z) (s : bytes) : Prop := exists names, walk s = Some names /\ zlen names = levels.

(** The state of the loop: what is left of the levels to climb, before the rest [t]. *)
Definition climbed (levels k : Z) (t : bytes) : Prop :=
  forall st, zlen st = k -> exists names, walk_from st t = Some names /\ zlen names = levels.

(** Two walks along the same path change the depth by the same amount. *)
Lemma foldl_depth l st st' names names' :
  foldl walk_step (Some st) l = Some names -> foldl walk_step (Some st') l = Some names' ->
  zlen names - zlen st = zlen names' - zlen st'.
Proof.
  revert st st'. induction l as [|w l IH]; intros st st' H H'; cbn [foldl] in *; [injection H as <-; injection H' as <-; lia|].
  unfold walk_step in H at 2. unfold walk_step in H' at 2. cbn [mbind option_bind] in *.
  destruct (bytes_eqb w [] || bytes_eqb w [46]); [by eapply IH|]. destruct (bytes_eqb w [46; 46]).
  - destruct st as [|x st], st' as [|x' st']; try (rewrite walk_none in *; done).
    specialize (IH _ _ H H'). rewrite !zlen_cons. lia.
  - specialize (IH _ _ H H'). rewrite !zlen_cons in IH. lia.
Qed.

Lemma climbed_not levels k t : climbed levels k t -> 0 < k -> ~ leads_down levels t.
Proof.
  intros H Hk (names & E & L). destruct (H (replicate (Z.to_nat k) [])) as (names' & E' & L'); [rewrite zlen_replicate; lia|].
  pose proof (foldl_depth _ _ _ _ _ E E') as D. rewrite zlen_replicate, zlen_nil in D. lia.
Qed.

(** A component before the rest. *)
Lemma climbed_name levels k name t :
  tail_ok t -> Forall (fun x => x <> 47) name -> name <> [] -> 0 <= k -> climbed levels k t ->
  climbed levels (if bytes_eqb name [46] then k else if bytes_eqb name [46; 46] then k + 1 else k - 1) (name ++ t).
Proof.
  intros Ht Hn Hne Hk H st Hst. rewrite walk_from_name by done. unfold walk_step. cbn [mbind option_bind].
  destruct (bytes_eqb_spec name []) as [->|_]; [done|]. cbn [orb].
  destruct (bytes_eqb name [46]); [by apply H|]. destruct (bytes_eqb name [46; 46]).
  - destruct st as [|x st]; [rewrite zlen_nil in Hst; lia|]. apply H. rewrite zlen_cons in Hst. lia.
  - apply H. rewrite zlen_cons. lia.
Qed.

Lemma climbed_sep levels k t : climbed levels k t -> climbed levels k (47 :: t).
Proof. done. Qed.

(** How the code compares the component with [.] and [..]. *)
Lemma is_dot q name t :
  name <> [] ->
  ((length (q ++ name) =? length q + 1)%nat && (nth (length q) ((q ++ name) ++ t) 0 =? 46)) = bytes_eqb name [46].
Proof.
  intros Hn. rewrite <- app_assoc, app_nth2, Nat.sub_diag, length_app by lia. destruct name as [|a [|b name]]; [done| |].
  - cbn. rewrite Nat.eqb_refl. cbn. rewrite andb_true_r. done.
  - rewrite (proj2 (Nat.eqb_neq _ _)) by (cbn; lia). cbn [andb]. symmetry. destruct (bytes_eqb_spec (a :: b :: name) [46]); [done|done].
Qed.

Lemma is_dotdot q name t :
  name <> [] ->
  ((length (q ++ name) =? length q + 2)%nat && (nth (length q) ((q ++ name) ++ t) 0 =? 46) && (nth (length q + 1) ((q ++ name) ++ t) 0 =? 46)) =
    bytes_eqb name [46; 46].
Proof.
  intros Hn. rewrite <- app_assoc, (app_nth2 q _ 0 (n := length q)), (app_nth2 q _ 0 (n := length q + 1)), Nat.sub_diag, length_app by lia.
  replace (length q + 1 - length q)%nat with 1%nat by lia.
  destruct name as [|a [|b [|c name]]]; [done| | |].
  - rewrite (proj2 (Nat.eqb_neq _ _)) by (cbn; lia). cbn [andb]. cbn. by destruct (a =? 46).
  - rewrite (proj2 (Nat.eqb_eq _ _)) by (cbn; lia). cbn. by destruct (a =? 46), (b =? 46).
  - rewrite (proj2 (Nat.eqb_neq _ _)) by (cbn; lia). cbn [andb]. symmetry. destruct (bytes_eqb_spec (a :: b :: c :: name) [46; 46]); done.
Qed.

(** A result of the search is good: it is the path before a rest that leads down as many levels, and no longer
    result is; a lone [.] at the start of the path has its parent above. *)
Definition parent_of (path : bytes) (levels : Z) (r : option bytes) : Prop :=
  let above := exists t, path = 46 :: t /\ tail_ok t /\ leads_down (levels - 1) t in
  match r with
  | Some r =>
      (exists s, path = r ++ 47 :: s /\ leads_down levels s /\
        forall r' s', path = r' ++ 47 :: s' -> leads_down levels s' -> (length r' <= length r)%nat) \/
      (r = [46; 46] /\ above)
  | None => (forall r s, path = r ++ 47 :: s -> ~ leads_down levels s) /\ ~ above
  end.
Lemma leads_down_sep levels s : leads_down levels (47 :: s) <-> leads_down levels s.
Proof. done. Qed.

(** What holds while the loop climbs: [p] is the path up to [end], and [k] levels are left. *)
Record climbing (path : bytes) (levels : Z) (p t : bytes) (k : Z) : Prop := {
  cl_path : path = p ++ t;
  cl_tail : tail_ok t;
  cl_climbed : climbed levels k t;
  cl_below : climbed (levels - 1) (k - 1) t;
  cl_not : forall r s, path = r ++ 47 :: s -> (length p <= length r)%nat -> ~ leads_down levels s;
}.

Lemma climbing_sep path levels q t k : climbing path levels (q ++ [47]) t k -> 0 < k -> climbing path levels q (47 :: t) k.
Proof.
  intros [E Ht Hc Hb Hn] Hk. split; [by rewrite E, <- app_assoc|right; by eexists|by apply climbed_sep..|].
  intros r s Er Hr. destruct (decide (length q = length r)) as [Hq|].
  - rewrite E, <- app_assoc in Er. apply app_inj_1 in Er as [_ Er]; [|done]. injection Er as <-. by apply (climbed_not levels k).
  - apply (Hn r s Er). rewrite length_app. cbn. lia.
Qed.

Lemma climbing_trim path levels p t k :
  climbing path levels p t k -> 0 < k ->
  exists p' t', trim_seps path (length p) = length p' /\ climbing path levels p' t' k /\ (length p' <= length p)%nat /\
    (p' = [] \/ exists q c, p' = q ++ [c] /\ c <> 47).
Proof.
  intros H Hk. revert t H. induction p as [|c p IH] using rev_ind; intros t H; [exists [], t; auto|].
  rewrite length_app, Nat.add_comm. cbn [length Nat.add trim_seps].
  assert (nth (length p) path 0 = c) as -> by (rewrite (cl_path _ _ _ _ _ H), <- app_assoc, app_nth2, Nat.sub_diag by lia; done).
  unfold ispathsep. destruct (Z.eqb_spec c 47) as [->|Hc].
  - destruct (IH (47 :: t)) as (p' & t' & E & H' & Hl & Hp); [by apply climbing_sep|]. exists p', t'. split_and!; [done..|lia|done].
  - exists (p ++ [c]), t. split_and!; [rewrite length_app; cbn; lia|done|rewrite length_app; cbn; lia|]. right. by exists p, c.
Qed.

Lemma climbing_name path levels q name t k :
  climbing path levels ((q ++ [47]) ++ name) t k -> Forall (fun x => x <> 47) name -> name <> [] -> 0 < k ->
  let k' := if bytes_eqb name [46] then k else if bytes_eqb name [46; 46] then k + 1 else k - 1 in
  (0 < k' -> climbing path levels q (47 :: name ++ t) k') /\ (k' = 0 -> parent_of path levels (Some q)).
Proof.
  intros [E Ht Hc Hb Hn] Hw Hne Hk k'. pose proof (climbed_name levels k name t Ht Hw Hne ltac:(lia) Hc) as Hc'. fold k' in Hc'.
  pose proof (climbed_name (levels - 1) (k - 1) name t Ht Hw Hne ltac:(lia) Hb) as Hb'.
  replace (if bytes_eqb name [46] then k - 1 else if bytes_eqb name [46; 46] then k - 1 + 1 else k - 1 - 1) with (k' - 1) in Hb'
    by (unfold k'; destruct (bytes_eqb name [46]), (bytes_eqb name [46; 46]); lia).
  assert (path = q ++ 47 :: name ++ t) as Ep by (rewrite E, <- !app_assoc; done).
  assert (forall r s, path = r ++ 47 :: s -> (length q < length r)%nat -> ~ leads_down levels s) as Hlong.
  { intros r s Er Hr. apply (Hn r s Er). destruct (decide (length r < length ((q ++ [47%Z]) ++ name))%nat) as [Hlt|]; [|lia]. exfalso.
    assert (path !! length r = Some 47) as L by (rewrite Er, lookup_app_r, Nat.sub_diag by lia; done).
    rewrite E, lookup_app_l in L by done. rewrite !length_app in Hlt. cbn [length] in Hlt.
    rewrite lookup_app_r in L by (rewrite length_app; cbn; lia). by apply (Forall_lookup_1 _ _ _ _ Hw) in L. }
  split; intros Hk'.
  - split; [done|right; by eexists|by apply climbed_sep..|]. intros r s Er Hr. destruct (decide (length q = length r)) as [Hq|]; [|apply (Hlong r s Er); lia].
    rewrite Ep in Er. apply app_inj_1 in Er as [_ Er]; [|done]. injection Er as <-. by apply (climbed_not levels k').
  - rewrite Hk' in Hc'. left. exists (name ++ t). split_and!; [done|by apply (Hc' [])|].
    intros r s Er Hd. destruct (decide (length r <= length q)%nat); [done|]. exfalso. apply (Hlong r s Er); [lia|done].
Qed.

(** The first component: there is no separator before it. *)
Lemma climbing_first path levels name t k :
  climbing path levels name t k -> Forall (fun x => x <> 47) name -> 0 < k ->
  parent_of path levels (if bytes_eqb name [46] && (k =? 1) then Some [46; 46] else None).
Proof.
  intros [E Ht Hc Hb Hn] Hw Hk.
  assert (forall r s, path = r ++ 47 :: s -> ~ leads_down levels s) as Hno.
  { intros r s Er. apply (Hn r s Er). destruct (decide (length r < length name)%nat) as [Hlt|]; [|lia]. exfalso.
    assert (path !! length r = Some 47) as L by (rewrite Er, lookup_app_r, Nat.sub_diag by lia; done).
    rewrite E, lookup_app_l in L by done. by apply (Forall_lookup_1 _ _ _ _ Hw) in L. }
  destruct (bytes_eqb_spec name [46]) as [->|Hd]; cbn [andb].
  - destruct (Z.eqb_spec k 1) as [->|Hk1].
    + right. split; [done|]. exists t. split_and!; [done|done|]. by apply (Hb []).
    + split; [done|]. intros (t' & E' & Ht' & Hd). rewrite E in E'. injection E' as <-.
      by apply (climbed_not (levels - 1) (k - 1) t Hb); [lia|].
  - split; [done|]. intros (t' & E' & Ht' & _). rewrite E in E'. destruct name as [|a name]; [cbn in E'; subst; destruct Ht as [|[? ?]]; done|].
    injection E' as -> E'. destruct name as [|b name]; [done|]. destruct Ht' as [->|[s ->]]; [done|]. injection E' as -> _.
    apply Forall_cons in Hw as [_ Hw]. by apply Forall_cons in Hw as [? _].
Qed.

Lemma parent_loop_spec fuel path levels p t k :
  climbing path levels p t k -> 0 < k -> (length p < fuel)%nat ->
  exists r, parent_loop fuel path (length p) k = Some r /\ parent_of path levels r.
Proof.
  revert p t k. induction fuel as [|fuel IH]; intros p t k H Hk Hf; [lia|].
  cbn [parent_loop]. rewrite (proj2 (Z.ltb_lt 0 k)) by lia. cbn zeta.
  destruct (climbing_trim _ _ _ _ _ H Hk) as (p' & t' & -> & H' & Hl & Hp). clear H.
  rewrite (cl_path _ _ _ _ _ H'). destruct (find_base_spec p' t') as (q & name & -> & -> & Hw & Hq).
  rewrite <- (cl_path _ _ _ _ _ H').
  assert (name = [] -> q = []) as Hne.
  { intros ->. destruct Hq as [|[q' ->]]; [done|]. destruct Hp as [Hp|(q'' & c & Hp & Hc)]; [by destruct q'|].
    rewrite app_nil_r in Hp. by apply app_inj_tail in Hp as [_ <-]. }
  destruct Hq as [->|[q' ->]].
  - cbn [length Nat.eqb app] in *. pose proof (climbing_first _ _ _ _ _ H' Hw Hk) as Hr. eexists. split; [|exact Hr].
    rewrite (cl_path _ _ _ _ _ H'). destruct name as [|a name].
    + cbn. done.
    + pose proof (is_dot [] (a :: name) t' ltac:(done)) as Hd. cbn [app length Nat.add] in Hd |- *. rewrite Hd. by destruct (_ && _).
  - assert (name <> []) as Hn by (intros ->; specialize (Hne eq_refl); by destruct q').
    destruct (climbing_name _ _ _ _ _ _ H' Hw Hn Hk) as [Hgo Hstop].
    rewrite (cl_path _ _ _ _ _ H'), is_dot, is_dotdot, <- (cl_path _ _ _ _ _ H') by done.
    assert (length q' < length p)%nat as Hlt by (revert Hl; rewrite !length_app; cbn; lia). rewrite length_app. cbn [length].
    rewrite (proj2 (Nat.eqb_neq _ 0)) by lia. replace (length q' + 1 - 1)%nat with (length q') by lia.
    revert Hgo Hstop. destruct (bytes_eqb name [46]); [intros Hgo _; apply (IH _ _ _ (Hgo ltac:(lia))); lia|].
    destruct (bytes_eqb name [46; 46]); intros Hgo Hstop; [apply (IH _ _ _ (Hgo ltac:(lia))); lia|].
    destruct (decide (k = 1)) as [->|]; [|apply (IH _ _ _ (Hgo ltac:(lia))); lia].
    specialize (Hstop ltac:(lia)). destruct fuel; [lia|]. cbn. eexists. split; [done|].
    replace (take (length q') path) with q'; [done|]. rewrite (cl_path _ _ _ _ _ H'), <- !app_assoc. by rewrite take_app_length.
Qed.

(** The parent so many levels up: the part of the path before a separator behind which the path leads down as many
    levels, of several the longest; the directory above for a lone dot; nothing when there is no such part. *)
Theorem path_parent_ok path levels :
  exists r, path_parent path levels = Some r /\ if 0 <? levels then parent_of path levels r else r = Some path.
Proof.
  unfold path_parent. destruct (Z.ltb_spec 0 levels) as [Hl|Hl].
  - apply (parent_loop_spec _ _ _ _ []); [|done|lia]. split; [by rewrite app_nil_r|by left| | |].
    + intros st Hst. by exists st.
    + intros st Hst. by exists st.
    + intros r s E Hr. apply (f_equal length) in E. rewrite length_app in E. cbn in E. lia.
  - cbn [parent_loop]. rewrite (proj2 (Z.ltb_ge 0 levels)) by lia. eexists. split; [done|]. by rewrite firstn_all.
Qed.

(** ** Escaping *)

Lemma escape_char_length c : 1 <= zlen (escape_char c) <= 2.
Proof. unfold escape_char. unfold zlen. destruct (c =? 61), (c =? 44), (c =? 37); cbn; lia. Qed.

Lemma escape_loop_ok src done_ rest :
  (2 * length src + 1 <= length rest)%nat ->
  exists rest', escape_loop src (done_ ++ rest) (zlen done_) = Some (done_ ++ escape src ++ 0 :: rest').
Proof.
  revert done_ rest. induction src as [|c src IH]; intros done_ rest Hl; cbn [escape_loop].
  - destruct rest as [|x rest]; [cbn in Hl; lia|]. rewrite write_at_app by (unfold zlen; cbn; lia). exists rest. done.
  - cbn [length] in Hl. pose proof (escape_char_length c) as He.
    rewrite write_at_app by (unfold zlen in *; lia). cbn [mbind option_bind]. rewrite app_assoc, <- zlen_app.
    destruct (IH (done_ ++ escape_char c) (drop (Z.to_nat (zlen (escape_char c))) rest)) as (rest' & E);
      [rewrite length_drop; unfold zlen in *; lia|].
    exists rest'. rewrite E. unfold escape. cbn [map concat]. by rewrite <- !app_assoc.
Qed.

(** The escaped text fits into the allocation, whatever the text. *)
Lemma path_escape_path_ok junk src :
  (forall n, 0 <= n -> zlen (junk n) = n) -> exists rest, path_escape_path junk src = Some (escape src ++ 0 :: rest).
Proof.
  intros Hj. unfold path_escape_path. apply (escape_loop_ok src [] (junk (2 * zlen src + 1))).
  pose proof (zlen_nonneg src). specialize (Hj (2 * zlen src + 1) ltac:(lia)). unfold zlen in *. lia.
Qed.

(** A step that stores a character behind those already there, over what has been read. *)
Lemma store_over done_ x mid rest :
  mid <> [] -> write_at (Z.of_nat (length done_)) [x] (done_ ++ mid ++ rest) = Some ((done_ ++ [x]) ++ tail mid ++ rest).
Proof.
  intros Hm. destruct mid as [|y mid]; [done|]. rewrite (write_at_app done_) by (rewrite !zlen_app, zlen_cons; pose proof (zlen_nonneg mid); pose proof (zlen_nonneg rest); unfold zlen in *; cbn [length]; lia).
  cbn [zlen length tail app]. by rewrite <- app_assoc.
Qed.

(** The loop in place: [done_] is written, [mid] is read but not yet written over, [s] is still to read. *)
Lemma unescape_loop_ok fuel done_ mid s rest :
  Forall (fun c => c <> 0) s -> (length s < fuel)%nat ->
  exists rest', unescape_loop fuel (done_ ++ mid ++ s ++ 0 :: rest) (length (done_ ++ mid)) (length done_) =
    Some (done_ ++ unescape s ++ 0 :: rest').
Proof.
  revert done_ mid s. induction fuel as [|fuel IH]; intros done_ mid s Hs Hf; [lia|].
  assert (forall x y s, Forall (fun c => c <> 0) s -> (length s < fuel)%nat -> exists rest',
     (buf ← write_at (Z.of_nat (length done_)) [x] (done_ ++ mid ++ y ++ s ++ 0 :: rest);
      unescape_loop fuel buf (length (done_ ++ mid ++ y)) (S (length done_))) = Some (done_ ++ (x :: unescape s) ++ 0 :: rest') \/ y = []) as Hstore.
  { intros x y s' Hs' Hf'. destruct (decide (y = [])) as [|Hy]; [by exists []; right|].
    destruct (IH (done_ ++ [x]) (tail (mid ++ y)) s' Hs' Hf') as (rest' & E). exists rest'. left.
    rewrite (app_assoc mid), store_over by (by destruct mid). cbn [mbind option_bind].
    replace (S (length done_)) with (length (done_ ++ [x])) by (rewrite length_app; cbn; lia).
    replace (length (done_ ++ mid ++ y)) with (length ((done_ ++ [x]) ++ tail (mid ++ y))).
    - rewrite E. by rewrite <- !app_assoc.
    - destruct (mid ++ y) eqn:Ey; [by destruct mid|]. rewrite !length_app. cbn. lia. }
  cbn [unescape_loop].
  assert ((done_ ++ mid ++ s ++ 0 :: rest) !! length (done_ ++ mid) = Some (head0 s)) as ->
    by (rewrite app_assoc, lookup_app_r, Nat.sub_diag by lia; by destruct s).
  destruct s as [|c s].
  - cbn [app head0 mbind option_bind]. change (0 =? 0) with true. cbn iota.
    destruct mid as [|y mid].
    + cbn [app]. rewrite (write_at_app done_) by (unfold zlen; cbn; lia). by exists rest.
    + rewrite store_over by done. exists (mid ++ 0 :: rest). by rewrite <- app_assoc.
  - apply Forall_cons in Hs as [Hc Hs]. cbn [length] in Hf. cbn [app head0 mbind option_bind unescape]. rewrite (proj2 (Z.eqb_neq c 0)) by done.
    assert (length (done_ ++ mid ++ [c]) = S (length (done_ ++ mid))) as El1 by (rewrite !length_app; cbn; lia).
    destruct (negb (c =? 37)).
    + destruct (Hstore c [c] s Hs ltac:(lia)) as (rest' & [E|]); [|done]. exists rest'. rewrite El1 in E. exact E.
    + assert ((done_ ++ mid ++ c :: s ++ 0 :: rest) !! S (length (done_ ++ mid)) = Some (head0 s)) as ->.
      { rewrite app_assoc, lookup_app_r by lia. replace (S (length (done_ ++ mid)) - length (done_ ++ mid))%nat with 1%nat by lia. by destruct s. }
      cbn [mbind option_bind]. destruct s as [|d s].
      * cbn [head0]. change (0 =? 67) with false. change (0 =? 69) with false. change (0 =? 80) with false. cbn iota.
        destruct (IH done_ (mid ++ [c]) [] (Forall_nil_2 _) ltac:(cbn; lia)) as (rest' & E). exists rest'.
        rewrite <- (app_assoc mid [c]), El1 in E. exact E.
      * cbn [head0 length] in *. pose proof Hs as Hds. apply Forall_cons in Hs as [Hd Hs].
        assert (S (S (length (done_ ++ mid))) = length (done_ ++ mid ++ [c; d])) as El by (rewrite !length_app; cbn; lia).
        destruct (d =? 67); [rewrite El; destruct (Hstore 44 [c; d] s Hs ltac:(lia)) as (rest' & [E|]); [by exists rest'|done]|].
        destruct (d =? 69); [rewrite El; destruct (Hstore 61 [c; d] s Hs ltac:(lia)) as (rest' & [E|]); [by exists rest'|done]|].
        destruct (d =? 80); [rewrite El; destruct (Hstore 37 [c; d] s Hs ltac:(lia)) as (rest' & [E|]); [by exists rest'|done]|].
        destruct (IH done_ (mid ++ [c]) (d :: s) Hds ltac:(cbn; lia)) as (rest' & E). exists rest'.
        rewrite <- (app_assoc mid [c]), El1 in E. exact E.
Qed.

Lemma path_unescape_path_ok s rest :
  c_string s -> exists rest', path_unescape_path (s ++ 0 :: rest) = Some (unescape s ++ 0 :: rest').
Proof.
  intros Hs. apply (unescape_loop_ok (S (length (s ++ 0 :: rest))) [] [] s rest Hs). rewrite length_app. lia.
Qed.

Lemma unescape_escape s : unescape (escape s) = s.
Proof.
  induction s as [|c s IH]; [done|]. unfold escape in *. cbn [map concat]. unfold escape_char at 1.
  destruct (Z.eqb_spec c 61) as [->|]; [cbn; by rewrite IH|]. destruct (Z.eqb_spec c 44) as [->|]; [cbn; by rewrite IH|].
  destruct (Z.eqb_spec c 37) as [->|]; [cbn; by rewrite IH|]. cbn [app unescape]. rewrite (proj2 (Z.eqb_neq c 37)) by done. cbn [negb]. by rewrite IH.
Qed.

Lemma escape_clean s : c_string s -> Forall (fun c => c <> 0 /\ c <> 44 /\ c <> 61) (escape s).
Proof.
  unfold escape. induction 1 as [|c s Hc _ IH]; cbn [map concat]; [constructor|]. apply Forall_app. split; [|exact IH].
  unfold escape_char. destruct (Z.eqb_spec c 61); [repeat constructor; lia|]. destruct (Z.eqb_spec c 44); [repeat constructor; lia|].
  destruct (Z.eqb_spec c 37); repeat constructor; lia.
Qed.

Lemma unescape_c_string s : c_string s -> c_string (unescape s).
Proof.
  unfold c_string. remember (length s) as n eqn:En. revert s En. induction n as [n IH] using lt_wf_ind. intros s -> H.
  destruct s as [|c s]; [done|]. apply Forall_cons in H as [Hc H]. cbn [unescape].
  destruct (negb (c =? 37)); [constructor; [done|]; eapply IH; [|done|done]; cbn; lia|].
  destruct s as [|d s]; [done|]. pose proof H as Hds. apply Forall_cons in H as [Hd H].
  destruct (d =? 67); [constructor; [done|]; eapply IH; [|done|done]; cbn; lia|].
  destruct (d =? 69); [constructor; [done|]; eapply IH; [|done|done]; cbn; lia|].
  destruct (d =? 80); [constructor; [done|]; eapply IH; [|done|done]; cbn; lia|].
  eapply IH; [|done|done]. cbn. lia.
Qed.

Lemma c_str_terminated s rest : c_string s -> c_str (s ++ 0 :: rest) = s.
Proof. unfold c_str, c_string. induction 1 as [|c s Hc _ IH]; cbn; [done|]. rewrite (proj2 (Z.eqb_neq c 0)) by done. cbn. destruct (span _ _) eqn:E. cbn in *. by rewrite IH. Qed.

(** The escaped path fits into its allocation, has no comma and no equal sign, and decoding it in its own memory,
    without a store outside of it, gives the path back. *)
Theorem path_escape_unescape junk src :
  (forall n, 0 <= n -> zlen (junk n) = n) -> c_string src ->
  exists buf buf', path_escape_path junk src = Some buf /\ Forall (fun c => c <> 44 /\ c <> 61) (c_str buf) /\
    path_unescape_path buf = Some buf' /\ c_str buf' = src.
Proof.
  intros Hj Hs. destruct (path_escape_path_ok junk src Hj) as (rest & E). pose proof (escape_clean src Hs) as Hc.
  assert (c_string (escape src)) as He by (eapply Forall_impl; [exact Hc|]; by intros c [? _]).
  destruct (path_unescape_path_ok (escape src) rest He) as (rest' & E'). rewrite unescape_escape in E'.
  exists (escape src ++ 0 :: rest), (src ++ 0 :: rest'). split_and!; [done| |done|by apply c_str_terminated].
  rewrite c_str_terminated by done. eapply Forall_impl; [exact Hc|]. by intros c [_ ?].
Qed.

Lemma path_escape_unescape_witness :
  exists buf buf', path_escape_path (fun n => replicate (Z.to_nat n) 7) (str "a=,%b") = Some buf /\ Forall (fun c => c <> 44 /\ c <> 61) (c_str buf) /\
    path_unescape_path buf = Some buf' /\ c_str buf' = str "a=,%b".
Proof.
  apply path_escape_unescape.
  - intros n Hn. unfold zlen. rewrite length_replicate. lia.
  - vm_compute. repeat constructor; discriminate.
Defined.

(** ** The search *)

Section search.
Context (path_exists path_can_exec : bytes -> bool) (filename : bytes).

(** The files to look at, in order: one for each item of the system path that is not empty. *)
Definition candidates (sysPath : bytes) : list bytes :=
  map (fun item => snprintf_text PATH_MAX (item ++ [47] ++ filename)) (List.filter (fun item => 0 <? zlen item) (pieces 58 sysPath)).

Definition runnable (file : bytes) : bool := path_exists file && path_can_exec file.

Lemma pieces_span c s :
  pieces c s = fst (span (fun x => negb (x =? c)) s) ::
    match snd (span (fun x => negb (x =? c)) s) with [] => [] | _ :: s => pieces c s end.
Proof.
  induction s as [|x s IH]; [done|]. cbn [pieces span]. destruct (x =? c); [done|]. cbn [negb].
  destruct (span _ s) as [a b] eqn:E. cbn [fst snd] in *. by rewrite IH.
Qed.

Lemma search_items_ok fuel p :
  (length p < fuel)%nat -> search_items path_exists path_can_exec fuel p filename = Some (List.find runnable (candidates p)).
Proof.
  revert p. induction fuel as [|fuel IH]; intros p Hf; [lia|]. cbn [search_items].
  destruct p as [|c p]; [done|]. remember (c :: p) as q eqn:Eq. cbn zeta.
  unfold candidates. rewrite (pieces_span 58 q). pose proof (span_app (fun x => negb (x =? 58)) q) as Hq.
  pose proof (span_snd_head (fun x => negb (x =? 58)) q) as Hh.
  destruct (span (fun x => negb (x =? 58)) q) as [item rest] eqn:E. cbn [fst snd] in *.
  assert (drop (length item) q = rest) as -> by (rewrite <- Hq; apply drop_app_length).
  assert (length q = length item + length rest)%nat as Hlen by (rewrite <- Hq; apply length_app).
  assert (match rest with c :: p' => if c =? 58 then p' else rest | [] => [] end = match rest with [] => [] | _ :: s => s end) as ->.
  { destruct rest as [|x rest]; [done|]. by destruct (x =? 58). }
  cbn [List.filter]. destruct (Z.ltb_spec 0 (zlen item)) as [Hi|Hi]; cbn [andb map List.find].
  - fold (runnable (snprintf_text PATH_MAX (item ++ [47] ++ filename))). destruct (runnable _); [done|].
    rewrite IH; [|unfold zlen in Hi; destruct rest; cbn in *; lia]. by destruct rest.
  - assert (item = []) as -> by (destruct item; [done|rewrite zlen_cons in Hi; pose proof (zlen_nonneg item); lia]).
    rewrite IH; [by destruct rest|]. destruct rest; [by subst|]. cbn in *. lia.
Qed.

(** The program: the name itself when it has a separator, if there is such a file; otherwise the first file of the
    system path that is there and can be run. *)
Theorem path_search_exec_ok sysPath :
  path_search_exec path_exists path_can_exec sysPath filename =
    Some (if existsb (fun c => c =? 47) filename then (if path_exists filename then Some filename else None)
          else List.find runnable (candidates (default [] sysPath))).
Proof.
  unfold path_search_exec. destruct (existsb _ filename); [done|].
  destruct sysPath as [[|c p]|]; [done| |done]. by rewrite search_items_ok by lia.
Qed.
End search.
