(* ===== verification/PathFiles.v ===== *)
(** * Files and directories

    Models the operations of [path.cpp], [path_system.cpp] and [dirscanner.cpp] of
    [android/files] on files and directories, with the queries of [System.cpp] they
    go through: making a directory and those above it, copying files and
    directories, loading a file, deleting a directory with all that is in it.  The
    host is an interface, its answers those of POSIX; [HANDLE_EINTR] repeats a call
    that was interrupted, so that [EINTR] is no answer. *)

From stdpp Require Import sorting.
From S2P Require Import Prelude CText PathText.

(** ** The host *)

Definition ENOENT : Z := 2.
Definition EIO : Z := 5.
Definition ENOTDIR : Z := 20.
Definition EINVAL : Z := 22.

Inductive kind := REG | DIR | OTHER.
#[export] Instance kind_eq_dec : EqDecision kind.
Proof. solve_decision. Defined.

Record stat := Stat { st_kind : kind; st_dev : Z; st_ino : Z; st_size : Z }.

Inductive access_mode := F_OK | R_OK | W_OK | X_OK.

(** A call that fails answers the error: [inr] of [stat], [Some] of the calls that answer nothing else; the others
    answer -1, here [None].  [lseek_end] is the size of the file, [write] has the count beside the data. *)
Class Host (W : Type) := {
  access : W -> bytes -> access_mode -> option Z;
  stat_of : W -> bytes -> stat + Z;
  readdir : W -> bytes -> list bytes;
  mkdir : bytes -> Z -> W -> option Z * W;
  unlink : bytes -> W -> option Z * W;
  rmdir : bytes -> W -> option Z * W;
  creat : bytes -> W -> option Z * W;
  open : bytes -> W -> option Z * W;
  read : Z -> Z -> W -> option bytes * W;
  write : Z -> bytes -> Z -> W -> Z * W;
  lseek_end : Z -> W -> Z * W;
  lseek_set : Z -> W -> Z * W;
  close : Z -> W -> W;
}.

(** A status: 0, or -1 with [errno]. *)
Abbreviation status := (option Z).
Definition success : status := None.

(** What [std::filesystem] makes of a directory and a name below it. *)
Definition fs_join (dir name : bytes) : bytes :=
  match last dir with
  | Some c => if c =? 47 then dir ++ name else dir ++ 47 :: name
  | None => name
  end.

Section host.
Context {W : Type} `{!Host W}.

(** ** Queries *)

Definition path_exists (w : W) (path : bytes) : bool :=
  negb (bytes_eqb path []) && match access w path F_OK with None => true | Some e => negb (e =? ENOENT) end.
Definition path_is_kind (k : kind) (w : W) (path : bytes) : bool :=
  negb (bytes_eqb path []) && match stat_of w path with inl st => bool_decide (st_kind st = k) | inr _ => false end.
Definition path_is_regular := path_is_kind REG.
Definition path_is_dir := path_is_kind DIR.
Definition path_can (m : access_mode) (w : W) (path : bytes) : bool :=
  negb (bytes_eqb path []) && match access w path m with None => true | Some _ => false end.
Definition path_can_read := path_can R_OK.
Definition path_can_write := path_can W_OK.
Definition path_can_exec := path_can X_OK.

(** [opendir] that fails gives no entries. *)
Definition scanDirInternal (w : W) (dirPath : bytes) : list bytes :=
  if bytes_eqb dirPath [] then []
  else merge_sort bytes_le (List.filter (fun name => negb (bytes_eqb name [46]) && negb (bytes_eqb name [46; 46])) (readdir w dirPath)).

Definition path_get_size (w : W) (path : bytes) : Z + Z :=
  match stat_of w path with inl st => inl (st_size st) | inr e => inr e end.

Definition path_is_same (w : W) (left_ right_ : bytes) : bool + Z :=
  match stat_of w left_ with
  | inr e => if (e =? ENOENT) || (e =? ENOTDIR) then inl false else inr e
  | inl leftStat =>
      match stat_of w right_ with
      | inr e => if (e =? ENOENT) || (e =? ENOTDIR) then inl false else inr e
      | inl rightStat => inl ((st_dev leftStat =? st_dev rightStat) && (st_ino leftStat =? st_ino rightStat))
      end
  end.

(** ** Making a directory *)

(** The loops at the ends of the path in the buffer. *)
Fixpoint back_while (f : Z -> bool) (path : bytes) (len : nat) : nat :=
  match len with O => O | S l => if f (nth l path 0) then back_while f path l else len end.

(** [None] is a store outside of the buffer, or that the fuel is used up. *)
Fixpoint path_mkdir_recursive (fuel : nat) (path : bytes) (len : nat) (mode : Z) (w : W) : option (bytes * (status * W)) :=
  match fuel with
  | O => None
  | S fuel =>
      let len := back_while ispathsep path len in
      match len with
      | O => Some (path, (Some ENOENT, w))
      | S l =>
          let len2 := back_while (fun c => negb (ispathsep c)) path l in
          '(path, (ret, w)) ←
            (match len2 with
             | O => Some (path, (success, w))
             | S _ =>
                 old_c ← path !! len2;
                 path ← write_at (Z.of_nat len2) [0] path;
                 '(path, (ret, w)) ←
                   (if negb (path_exists w (c_str path)) then path_mkdir_recursive fuel path len2 mode w
                    else Some (path, (success, w)));
                 path ← write_at (Z.of_nat len2) [old_c] path;
                 Some (path, (ret, w))
             end);
          match ret with
          | Some e => Some (path, (Some e, w))
          | None =>
              old_c ← path !! len;
              path ← write_at (Z.of_nat len) [0] path;
              let '(ret, w) := mkdir (c_str path) mode w in
              path ← write_at (Z.of_nat len) [old_c] path;
              Some (path, (ret, w))
          end
      end
  end.

Definition MAX_PATH : Z := PATH_MAX.

(** [temp] is what the array on the stack holds. *)
Definition path_mkdir_if_needed (temp path : bytes) (mode : Z) (w : W) : option (status * W) :=
  if path_exists w path then Some (success, w)
  else
    let '(ret, w) := mkdir path mode w in
    if bool_decide (ret = Some ENOENT) then
      if MAX_PATH - 1 <? zlen path then Some (Some EINVAL, w)
      else
        temp ← write_at 0 path temp;
        temp ← write_at (zlen path) [0] temp;
        '(_, r) ← path_mkdir_recursive (S (length path)) temp (length path) mode w;
        Some r
    else Some (ret, w).

(** ** Copying *)

Definition path_empty_file (path : bytes) (w : W) : Z * W :=
  let '(fd, w) := creat path w in
  match fd with Some fd => (0, close fd w) | None => (-1, w) end.

(** A round of the loop: [inl] goes round again, [inr] leaves. *)
Definition copy_round (BufferSize fs fd : Z) (w : W) : W + W :=
  let '(data, w) := read fs BufferSize w in
  let '(data, n) := match data with Some data => (data, zlen data) | None => ([], -1) end in
  if n =? 0 then inr w
  else
    let '(written, w) := write fd data n w in
    if negb (written =? n) then inr w else inl w.

Fixpoint copy_loop (fuel : nat) (BufferSize fs fd : Z) (w : W) : option W :=
  match fuel with
  | O => None
  | S fuel => match copy_round BufferSize fs fd w with inr w => Some w | inl w => copy_loop fuel BufferSize fs fd w end
  end.

Definition close_if (fd : option Z) (w : W) : W := match fd with Some fd => close fd w | None => w end.

Definition path_copy_file_impl (fuel : nat) (BufferSize : Z) (dest source : bytes) (w : W) : option (Z * W) :=
  let '(fd, w) := creat dest w in
  let '(fs, w) := open source w in
  '(result, w) ←
    match fs, fd with
    | Some fs, Some fd => w ← copy_loop fuel BufferSize fs fd w; Some (0, w)
    | _, _ => Some (-1, w)
    end;
  Some (result, close_if fd (close_if fs w)).

Definition path_copy_file (fuel : nat) (dest source : bytes) (w : W) : option (Z * W) :=
  match path_is_same w source dest with
  | inr _ => Some (-1, w)
  | inl true => Some (0, w)
  | inl false =>
      match access w source R_OK with
      | Some _ =>
          match access w source F_OK with
          | None => Some (-1, snd (path_empty_file dest w))
          | Some _ => Some (-1, w)
          end
      | None => path_copy_file_impl fuel 65536 dest source w
      end
  end.

Definition path_copy_file_safe (fuel : nat) (dest source : bytes) (w : W) : option (Z * W) :=
  match path_is_same w source dest with
  | inr _ => Some (-1, w)
  | inl true => Some (0, w)
  | inl false => path_copy_file_impl fuel 1024 dest source w
  end.

(** ** Loading *)

(** The text with its terminator, and the size stored when a pointer for it is given; [junk] is what [malloc] gives. *)
Definition path_load_file (junk : Z -> option bytes) (fn : bytes) (w : W) : option (option bytes) * Z * W :=
  let '(fd, w) := open fn w in
  match fd with
  | None => (Some None, 0, w)
  | Some fd =>
      let '(sz, w) := lseek_end fd w in
      let sz := s32 sz in
      if sz <? 0 then (Some None, 0, close fd w)
      else
        let '(pos, w) := lseek_set fd w in
        if negb (pos =? 0) then (Some None, sz, close fd w)
        else
          match junk (s32 (sz + 1)) with
          | None => (Some None, sz, close fd w)
          | Some data =>
              let '(got, w) := read fd sz w in
              match got with
              | None => (Some None, sz, close fd w)
              | Some got =>
                  if negb (zlen got =? sz) then (Some None, sz, close fd w)
                  else (data ← write_at 0 got data; data ← write_at sz [0] data; Some (Some data), sz, close fd w)
              end
          end
  end.

(** ** Deleting *)

Definition path_delete_file (path : bytes) (w : W) : status * W := unlink path w.

(** The first error of the two. *)
Definition first_error (a b : status) : status := match a with Some _ => a | None => b end.

Section delete.
Context (path_delete_dir : bytes -> W -> option (status * W)).
Fixpoint delete_entries (path : bytes) (names : list bytes) (fullRes : status) (w : W) : option (status * W) :=
  match names with
  | [] => Some (fullRes, w)
  | name :: names =>
      let name := fs_join path name in
      '(res, w) ← (if path_is_dir w name then path_delete_dir name w else Some (path_delete_file name w));
      delete_entries path names (first_error fullRes res) w
  end.
End delete.

Fixpoint path_delete_dir (fuel : nat) (path : bytes) (w : W) : option (status * W) :=
  match fuel with
  | O => None
  | S fuel =>
      '(contentsDeleteStatus, w) ← delete_entries (path_delete_dir fuel) path (scanDirInternal w path) success w;
      let '(res, w) := rmdir path w in
      Some (first_error contentsDeleteStatus res, w)
  end.

Definition path_delete_dir_contents (fuel : nat) (path : bytes) (w : W) : option (status * W) :=
  delete_entries (path_delete_dir fuel) path (scanDirInternal w path) success w.

Definition path_dir_has_files (w : W) (path : bytes) : bool :=
  path_is_dir w path && negb (bool_decide (scanDirInternal w path = [])).

(** ** Copying a directory

    [join] is that of the library's path utilities, [temp] the array of every call that makes a directory. *)

Section copy.
Context (join : bytes -> bytes -> bytes) (temp : bytes) (skip : option (list bytes)).
Context (path_copy_dir : bytes -> bytes -> W -> option (Z * W)) (fuel : nat).
Fixpoint copy_entries (dst src : bytes) (names : list bytes) (w : W) : option (Z * W) :=
  match names with
  | [] => Some (0, w)
  | baseName :: names =>
      if existsb (bytes_eqb baseName) (default [] skip) then copy_entries dst src names w
      else
        let fullDstName := join dst baseName in
        let fullSrcName := join src baseName in
        '(res, w) ← (if path_is_dir w fullSrcName then path_copy_dir fullDstName fullSrcName w
                      else path_copy_file fuel fullDstName fullSrcName w);
        if res <? 0 then Some (-1, w) else copy_entries dst src names w
  end.
End copy.

(** Without a set of names to skip, and with one: [Some None] is the null pointer. *)
Fixpoint copy_dir (fuel : nat) (join : bytes -> bytes -> bytes) (temp : bytes) (skip : option (option (list bytes)))
    (dst src : bytes) (w : W) : option (Z * W) :=
  match fuel with
  | O => None
  | S fuel =>
      match path_is_same w src dst with
      | inr _ => Some (-1, w)
      | inl true => Some (0, w)
      | inl false =>
          match skip with
          | Some None => Some (-1, w)
          | _ =>
              let names := scanDirInternal w src in
              '(ret, w) ← path_mkdir_if_needed temp dst 511 w;
              match ret with
              | Some _ => Some (-1, w)
              | None => copy_entries join (skip ≫= id) (copy_dir fuel join temp skip) fuel dst src names w
              end
          end
      end
  end.

Definition path_copy_dir (fuel : nat) (join : bytes -> bytes -> bytes) (temp dst src : bytes) (w : W) : option (Z * W) :=
  copy_dir fuel join temp None dst src w.
Definition path_copy_dir_ex (fuel : nat) (join : bytes -> bytes -> bytes) (temp dst src : bytes) (pSkipSet : option (list bytes))
    (w : W) : option (Z * W) :=
  copy_dir fuel join temp (Some pSkipSet) dst src w.
End host.

(** ** Making a directory: the directories that are missing, the topmost first *)

Definition trim (p : bytes) : bytes := take (back_while ispathsep p (length p)) p.
(** The directory a path is in, with the separators behind it. *)
Definition up (p : bytes) : bytes :=
  let t := trim p in take (back_while (fun c => negb (ispathsep c)) t (length t - 1)) t.

Fixpoint missing (fuel : nat) (ex : bytes -> bool) (p : bytes) : option (list bytes) :=
  match fuel with
  | O => None
  | S fuel =>
      match trim p with
      | [] => None
      | _ => match up p with
             | [] => Some [trim p]
             | _ => if ex (up p) then Some [trim p] else l ← missing fuel ex (up p); Some (l ++ [trim p])
             end
      end
  end.

(** Directories made one after the other, until one cannot be made. *)
Fixpoint create_all `{!Host W} (mode : Z) (l : list bytes) (w : W) : status * W :=
  match l with
  | [] => (success, w)
  | p :: l => let '(ret, w) := mkdir p mode w in match ret with Some e => (Some e, w) | None => create_all mode l w end
  end.

Lemma create_all_app `{!Host W} mode l l' (w : W) :
  create_all mode (l ++ l') w =
    (let '(ret, w) := create_all mode l w in match ret with Some e => (Some e, w) | None => create_all mode l' w end).
Proof.
  revert w. induction l as [|p l IH]; intros w; cbn; [done|]. destruct (mkdir p mode w) as [[e|] w1]; [done|]. apply IH.
Qed.

Lemma back_while_le f p n : (back_while f p n <= n)%nat.
Proof. induction n as [|n IH]; cbn; [lia|]. destruct (f _); lia. Qed.

Lemma back_while_take f p n k : (n <= k)%nat -> back_while f (take k p) n = back_while f p n.
Proof.
  induction n as [|n IH]; cbn; [done|]. intros. rewrite nth_firstn. destruct (Nat.ltb_spec n k); [|lia]. by rewrite IH by lia.
Qed.

Lemma trim_take p len : (len <= length p)%nat -> trim (take len p) = take (back_while ispathsep p len) p.
Proof.
  intros Hl. unfold trim. rewrite length_take, Nat.min_l, back_while_take by lia. rewrite take_take, Nat.min_l by apply back_while_le. done.
Qed.

Lemma up_take p len l : (len <= length p)%nat -> back_while ispathsep p len = S l ->
  up (take len p) = take (back_while (fun c => negb (ispathsep c)) p l) p.
Proof.
  intros Hl E. unfold up. rewrite trim_take, E by done. pose proof (back_while_le ispathsep p len). rewrite length_take, Nat.min_l by lia.
  replace (S l - 1)%nat with l by lia. rewrite back_while_take by lia. rewrite take_take, Nat.min_l; [done|].
  pose proof (back_while_le (fun c => negb (ispathsep c)) p l). lia.
Qed.

Lemma write_zero (p : bytes) n : (n < length p)%nat ->
  write_at (Z.of_nat n) [0] p = Some (take n p ++ 0 :: drop (S n) p).
Proof.
  intros Hn. rewrite <- (take_drop n p) at 1. replace (Z.of_nat n) with (zlen (take n p)) by (unfold zlen; rewrite length_take; lia).
  rewrite write_at_app by (unfold zlen; rewrite length_drop; cbn; lia). cbn [zlen length app]. do 3 f_equal. rewrite drop_drop. f_equal. change (zlen [0]) with 1. lia.
Qed.

Lemma write_back (p : bytes) n c : p !! n = Some c -> write_at (Z.of_nat n) [c] (take n p ++ 0 :: drop (S n) p) = Some p.
Proof.
  intros Hc. pose proof (lookup_lt_Some _ _ _ Hc). replace (Z.of_nat n) with (zlen (take n p)) by (unfold zlen; rewrite length_take; lia).
  rewrite write_at_app by (rewrite zlen_cons; pose proof (zlen_nonneg (drop (S n) p)); unfold zlen; cbn; lia).
  cbn [zlen length app]. change (drop (Z.to_nat (Z.of_nat 1)) (0 :: drop (S n) p)) with (drop (S n) p). f_equal. by apply take_drop_middle.
Qed.

Lemma path_mkdir_recursive_ok `{!Host W} fuel path len mode (w : W) :
  (len < length path)%nat -> (len < fuel)%nat -> c_string (take len path) ->
  path_mkdir_recursive fuel path len mode w =
    Some (path, match missing fuel (path_exists w) (take len path) with
                | None => (Some ENOENT, w)
                | Some l => create_all mode l w
                end).
Proof.
  revert path len w. induction fuel as [|fuel IH]; intros path len w Hl Hf Hc; [lia|]. cbn [path_mkdir_recursive missing].
  rewrite trim_take by lia. pose proof (back_while_le ispathsep path len) as Hb.
  destruct (back_while ispathsep path len) as [|l] eqn:E; [done|]. rewrite (up_take path len l) by (done || lia).
  pose proof (back_while_le (fun c => negb (ispathsep c)) path l) as Hb2. set (len2 := back_while _ path l) in *.
  assert (exists c, path !! S l = Some c) as (c & Ec) by (apply lookup_lt_is_Some; lia).
  assert (forall n, (n <= len)%nat -> c_string (take n path)) as Hcs.
  { intros n Hn. rewrite <- (Nat.min_l n len) by lia. rewrite <- take_take. by apply Forall_take. }
  assert (forall n, (n <= len)%nat -> c_str (take n path ++ 0 :: drop (S n) path) = take n path) as Hstr
    by (intros n Hn; apply c_str_terminated, Hcs, Hn).
  assert (forall w : W, (old_c ← path !! S l; path' ← write_at (Z.of_nat (S l)) [0] path;
     let '(ret, w) := mkdir (c_str path') mode w in path' ← write_at (Z.of_nat (S l)) [old_c] path'; Some (path', (ret, w))) =
     Some (path, create_all mode [take (S l) path] w)) as Hmk.
  { intros w1. rewrite Ec. cbn [mbind option_bind]. rewrite write_zero by lia. cbn [mbind option_bind]. rewrite Hstr by lia. cbn [create_all].
    destruct (mkdir _ mode w1) as [ret w2]. rewrite (write_back _ _ _ Ec). cbn [mbind option_bind]. by destruct ret. }
  assert (take (S l) path <> []) as Hne by (intros Ht; apply (f_equal length) in Ht; rewrite length_take, length_nil in Ht; lia).
  destruct (take (S l) path) as [|x xs] eqn:Ex; [done|]. clear Hne.
  destruct len2 as [|m] eqn:Em.
  - cbn [take mbind option_bind]. rewrite Hmk. done.
  - assert (exists c, path !! S m = Some c) as (c2 & Ec2) by (apply lookup_lt_is_Some; lia).
    rewrite Ec2. cbn [mbind option_bind]. rewrite write_zero by lia. cbn [mbind option_bind]. rewrite Hstr by lia.
    destruct (take (S m) path) as [|y ys] eqn:Ey; [apply (f_equal length) in Ey; rewrite length_take, length_nil in Ey; lia|]. rewrite <- Ey in *.
    destruct (path_exists w (take (S m) path)); cbn [negb].
    + cbn [mbind option_bind]. rewrite (write_back _ _ _ Ec2). cbn [mbind option_bind]. rewrite Hmk. done.
    + rewrite IH.
      * rewrite take_app_length' by (rewrite length_take; lia). cbn [mbind option_bind].
        destruct (missing fuel (path_exists w) (take (S m) path)) as [l'|]; cbn [mbind option_bind].
        -- rewrite create_all_app. destruct (create_all mode l' w) as [[e|] w1]; rewrite (write_back _ _ _ Ec2); cbn [mbind option_bind]; [done|].
           rewrite Hmk. done.
        -- rewrite (write_back _ _ _ Ec2). done.
      * rewrite length_app, length_take, length_cons, length_drop. lia.
      * lia.
      * rewrite take_app_length' by (rewrite length_take; lia). apply Hcs. lia.
Qed.

Lemma path_mkdir_if_needed_spec `{!Host W} temp path mode (w : W) :
  zlen temp = MAX_PATH -> c_string path ->
  path_mkdir_if_needed temp path mode w = Some (
    if path_exists w path then (success, w)
    else let '(ret, w) := mkdir path mode w in
         if bool_decide (ret = Some ENOENT) then
           if MAX_PATH - 1 <? zlen path then (Some EINVAL, w)
           else match missing (S (length path)) (path_exists w) path with
                | None => (Some ENOENT, w)
                | Some l => create_all mode l w
                end
         else (ret, w)).
Proof.
  intros Ht Hc. unfold path_mkdir_if_needed. destruct (path_exists w path); [done|]. destruct (mkdir path mode w) as [ret w1].
  destruct (bool_decide (ret = Some ENOENT)); [|done]. destruct (Z.ltb_spec (MAX_PATH - 1) (zlen path)); [done|].
  rewrite (write_at_app [] temp) by lia. cbn [app mbind option_bind]. unfold zlen in *. rewrite Nat2Z.id.
  assert (length (drop (length path) temp) <> 0)%nat as Hd by (rewrite length_drop; lia).
  destruct (drop (length path) temp) as [|x rest] eqn:Ed; [done|].
  rewrite (write_at_app path) by (unfold zlen; cbn; lia). cbn [mbind option_bind].
  rewrite path_mkdir_recursive_ok; rewrite ?take_app_length; [done| |lia|done].
  rewrite length_app. cbn. lia.
Qed.

(** ** When nothing is in the way, the directory is made *)

(** A name that stands for an entry of its own. *)
Definition plain (name : bytes) : Prop := name <> [46] /\ name <> [46; 46].
Definition clean (p : bytes) : Prop := Forall plain (pieces 47 p).

(** [q] is a path that goes on below [p]. *)
Definition below (p q : bytes) : Prop := exists s, q = p ++ 47 :: s /\ clean s /\ trim s <> [].

(** What hosts do about directories, for paths through which no links lead. *)
Class Directories (W : Type) `{!Host W} := {
  exists_sep (w : W) p k : p <> [] -> path_exists w (p ++ replicate k 47) = path_exists w p;
  mkdir_made (w w' : W) p mode : mkdir p mode w = (success, w') -> path_exists w' p = true;
  mkdir_below (w w' : W) p q mode : mkdir p mode w = (success, w') -> below p q -> path_exists w' q = path_exists w q;
  mkdir_no_parent (w : W) p mode :
    up p <> [] -> path_exists w p = false -> path_exists w (up p) = false -> mkdir p mode w = (Some ENOENT, w);
}.

Lemma back_while_spec f (p t : bytes) :
  exists q r, p = q ++ r /\ back_while f (p ++ t) (length p) = length q /\ Forall (fun c => f c = true) r /\
    (q = [] \/ exists q' c, q = q' ++ [c] /\ f c = false).
Proof.
  revert t. induction p as [|c p IH] using rev_ind; intros t; [by exists [], []; auto|].
  rewrite length_app, Nat.add_comm. cbn [length Nat.add back_while]. rewrite <- app_assoc, app_nth2, Nat.sub_diag by lia. cbn [app nth].
  destruct (f c) eqn:Ef.
  - destruct (IH (c :: t)) as (q & r & -> & E & Hr & Hq). exists q, (r ++ [c]). split_and!; [by rewrite app_assoc|exact E| |done].
    apply Forall_app. split; [done|by constructor].
  - exists (p ++ [c]), []. split_and!; [by rewrite app_nil_r|rewrite length_app; cbn; lia|done|]. right. by exists p, c.
Qed.

Lemma all_seps r : Forall (fun c => ispathsep c = true) r -> r = replicate (length r) 47.
Proof. induction 1 as [|c r Hc _ IH]; cbn; [done|]. apply Z.eqb_eq in Hc. subst c. by f_equal. Qed.

Lemma trim_spec p :
  exists k, p = trim p ++ replicate k 47 /\ (trim p = [] \/ exists q c, trim p = q ++ [c] /\ c <> 47).
Proof.
  destruct (back_while_spec ispathsep p []) as (q & r & E & Hb & Hr & Hq). rewrite app_nil_r in Hb.
  assert (trim p = q) as -> by (unfold trim; rewrite Hb, E; apply take_app_length).
  exists (length r). split; [by rewrite <- all_seps|]. destruct Hq as [|(q' & c & -> & Hc)]; [by left|].
  right. exists q', c. split; [done|]. by apply Z.eqb_neq in Hc.
Qed.

Lemma up_spec p :
  trim p <> [] -> exists leaf, trim p = up p ++ leaf /\ leaf <> [] /\ Forall (fun c => c <> 47) leaf /\
    (up p = [] \/ exists q, up p = q ++ [47]).
Proof.
  intros Ht. destruct (trim_spec p) as (k & _ & [|(q & c & E & Hc)]); [done|]. unfold up. rewrite E, length_app. cbn [length].
  replace (length q + 1 - 1)%nat with (length q) by lia.
  destruct (back_while_spec (fun c => negb (ispathsep c)) q [c]) as (a & b & Eq & Hb & Hr & Ha). rewrite Hb, Eq, <- app_assoc, take_app_length.
  exists (b ++ [c]). split_and!; [done|by destruct b| |].
  - apply Forall_app. split; [|by constructor]. eapply Forall_impl; [exact Hr|]. intros x Hx. apply negb_true_iff, Z.eqb_neq in Hx. done.
  - destruct Ha as [|(q' & x & -> & Hx)]; [by left|]. right. exists q'. apply negb_false_iff, Z.eqb_eq in Hx. by subst.
Qed.

Lemma clean_app a b : clean (a ++ 47 :: b) <-> clean a /\ clean b.
Proof. unfold clean. rewrite pieces_app. apply Forall_app. Qed.

Lemma clean_seps k s : clean (replicate k 47 ++ s) <-> clean s.
Proof. induction k as [|k IH]; [done|]. cbn [replicate app]. change (47 :: replicate k 47 ++ s) with ([] ++ 47 :: replicate k 47 ++ s).
  rewrite clean_app, IH. split; [by intros [_ ?]|]. intros. split; [|done]. by repeat constructor. Qed.

Lemma clean_trim p : clean p -> clean (trim p).
Proof.
  intros H. destruct (trim_spec p) as (k & E & _). destruct k as [|k]; [by rewrite app_nil_r in E; rewrite <- E|].
  rewrite E in H. cbn [replicate] in H. by apply clean_app in H as [? _].
Qed.

Lemma below_trans a b c : below a b -> below b c -> below a c.
Proof.
  intros (s & -> & Hs & Hts) (s' & -> & Hs' & Hts'). exists (s ++ 47 :: s'). split_and!; [by rewrite <- app_assoc|by apply clean_app|].
  destruct (trim_spec (s ++ 47 :: s')) as (k & E & _). intros Hn. rewrite Hn in E. cbn [app] in E.
  destruct (trim_spec s') as (k' & E' & [|(q & c & Eq & Hc)]); [done|]. rewrite E', Eq in E.
  assert (c ∈ replicate k 47) as Hin by (rewrite <- E; set_solver). apply elem_of_replicate in Hin as [? _]. done.
Qed.

(** A directory is below the one it is in. *)
Lemma below_up p : clean p -> trim p <> [] -> trim (up p) <> [] -> below (trim (up p)) (trim p).
Proof.
  intros Hc Ht Hu. destruct (up_spec p Ht) as (leaf & E & Hl & Hn & [Hup|[q Hup]]); [by rewrite Hup in Hu|].
  destruct (trim_spec (up p)) as (k & Ek & [|(r & c & Er & Hcn)]); [done|].
  destruct k as [|k].
  { rewrite app_nil_r, Er, Hup in Ek. apply app_inj_tail in Ek as [_ Ek]. congruence. }
  exists (replicate k 47 ++ leaf). assert (trim p = trim (up p) ++ 47 :: replicate k 47 ++ leaf) as Et.
  { rewrite E at 1. rewrite Ek at 1. by rewrite <- app_assoc. }
  split; [done|]. apply clean_trim in Hc. rewrite Et in Hc. apply clean_app in Hc as [_ Hc]. split; [done|].
  intros Hnil. destruct (trim_spec (replicate k 47 ++ leaf)) as (j & Ej & _). rewrite Hnil in Ej. cbn [app] in Ej.
  destruct leaf as [|x leaf]; [done|]. assert (x ∈ replicate j 47) as Hin by (rewrite <- Ej; set_solver).
  apply elem_of_replicate in Hin as [-> _]. by apply Forall_cons in Hn as [? _].
Qed.

Section making.
Context {W : Type} `{!Host W, !Directories W}.
(** Nothing but a missing parent keeps a directory from being made, and the root is there. *)
Context (roomy : forall (w : W) p mode, trim p <> [] -> path_exists w p = false -> up p = [] \/ path_exists w (up p) = true ->
  exists w', mkdir p mode w = (success, w')).
Context (root : forall (w : W) k, path_exists w (replicate (S k) 47) = true).

Lemma exists_trim (w : W) p : trim p <> [] -> path_exists w p = path_exists w (trim p).
Proof. intros Hp. destruct (trim_spec p) as (k & E & _). rewrite E at 1. by apply exists_sep. Qed.

Lemma trim_trim p : trim (trim p) = trim p.
Proof.
  destruct (trim_spec p) as (k & _ & [E|(q & c & E & Hc)]); rewrite E; [done|]. unfold trim. rewrite length_app, Nat.add_comm. cbn [length Nat.add back_while].
  rewrite app_nth2, Nat.sub_diag by lia. cbn [nth]. unfold ispathsep. rewrite (proj2 (Z.eqb_neq c 47)) by done.
  replace (S (length q)) with (length (q ++ [c])) by (rewrite length_app; cbn; lia). by rewrite firstn_all.
Qed.

Lemma up_trim p : up (trim p) = up p.
Proof. unfold up. by rewrite trim_trim. Qed.

Lemma create_ok fuel p mode (w : W) :
  (length p < fuel)%nat -> clean p -> trim p <> [] -> path_exists w p = false ->
  exists l w', missing fuel (path_exists w) p = Some l /\ create_all mode l w = (success, w') /\ path_exists w' (trim p) = true /\
    forall q, below (trim p) q -> path_exists w' q = path_exists w q.
Proof.
  revert p. induction fuel as [|fuel IH]; intros p Hf Hc Ht Hx; [lia|]. cbn [missing].
  destruct (trim p) as [|a t] eqn:Et; [done|]. rewrite <- Et in *. clear a t Et.
  assert (trim (trim p) <> []) as Htt by by rewrite trim_trim.
  assert (path_exists w (trim p) = false) as Hxt by by rewrite <- exists_trim.
  destruct (up p) as [|a u] eqn:Eu.
  { destruct (roomy w (trim p) mode Htt Hxt) as (w' & E); [left; by rewrite up_trim|]. exists [trim p], w'.
    cbn [create_all]. rewrite E. split_and!; [done..|by eapply mkdir_made|]. intros q Hq. by eapply mkdir_below. }
  rewrite <- Eu in *. assert (up p <> []) as Hu by (by rewrite Eu). clear a u Eu.
  destruct (path_exists w (up p)) eqn:Ex.
  { destruct (roomy w (trim p) mode Htt Hxt) as (w' & E); [right; by rewrite up_trim|]. exists [trim p], w'.
    cbn [create_all]. rewrite E. split_and!; [done..|by eapply mkdir_made|]. intros q Hq. by eapply mkdir_below. }
  assert (trim (up p) <> []) as Htu.
  { intros E. destruct (trim_spec (up p)) as (k & Ek & _). rewrite E in Ek. cbn [app] in Ek. destruct k as [|k]; [done|].
    rewrite Ek in Ex. by rewrite root in Ex. }
  destruct (up_spec p Ht) as (leaf & El & Hl & _ & _). destruct (trim_spec p) as (k & Ek & _).
  assert (length (up p) < fuel)%nat as Hlen.
  { apply (f_equal length) in Ek, El. rewrite length_app in Ek, El. destruct leaf; [done|]. cbn [length] in El. lia. }
  pose proof (below_up p Hc Ht Htu) as Hb.
  assert (clean (up p)) as Hcu.
  { destruct (up_spec p Ht) as (leaf' & E1 & _ & _ & [|(q & Eq)]); [done|]. apply clean_trim in Hc. rewrite E1, Eq, <- app_assoc in Hc.
    apply clean_app in Hc as [Hc _]. rewrite Eq. apply clean_app. split; [done|]. by repeat constructor. }
  destruct (IH (up p) Hlen Hcu Htu Ex) as (l & w1 & -> & E1 & Hup & Hfar). cbn [mbind option_bind].
  assert (path_exists w1 (trim p) = false) as Hx1 by by rewrite Hfar.
  destruct (roomy w1 (trim p) mode Htt Hx1) as (w2 & E2).
  { right. rewrite up_trim. by rewrite exists_trim. }
  exists (l ++ [trim p]), w2. split_and!; [done| |by eapply mkdir_made|].
  - rewrite create_all_app, E1. cbn [create_all]. by rewrite E2.
  - intros q Hq. rewrite (mkdir_below w1 w2 (trim p) q mode E2 Hq). apply Hfar. by eapply below_trans.
Qed.

(** A path that fits, without [.] and [..], is made with every directory above it that is missing. *)
Theorem path_mkdir_if_needed_made temp path mode w :
  zlen temp = MAX_PATH -> zlen path < MAX_PATH -> c_string path -> clean path -> trim path <> [] ->
  exists w', path_mkdir_if_needed temp path mode w = Some (success, w') /\ path_exists w' path = true.
Proof.
  intros Ht Hz Hc Hcl Hn. rewrite path_mkdir_if_needed_spec by done. destruct (path_exists w path) eqn:Ex; [by exists w|].
  assert (up path = [] \/ path_exists w (up path) = true \/ (up path <> [] /\ path_exists w (up path) = false)) as Hcase.
  { destruct (decide (up path = [])); [by left|]. destruct (path_exists w (up path)); auto. }
  destruct Hcase as [Hu|[Hu|[Hu Hxu]]].
  1, 2: destruct (roomy w path mode Hn Ex ltac:(auto)) as (w' & E); rewrite E; rewrite bool_decide_eq_false_2 by done; exists w'; split; [done|by eapply mkdir_made].
  rewrite (mkdir_no_parent w path mode Hu Ex Hxu), bool_decide_eq_true_2 by done. rewrite (proj2 (Z.ltb_ge _ _)) by lia.
  destruct (create_ok (S (length path)) path mode w ltac:(lia) Hcl Hn Ex) as (l & w' & -> & E & Hx' & _).
  exists w'. split; [by rewrite E|]. by rewrite exists_trim.
Qed.
End making.

(** ** A host of directories only, on which the laws hold *)

Definition comps (p : bytes) : list bytes := List.filter (fun n => negb (bytes_eqb n [])) (pieces 47 p).

Definition dir_there (w : list (list bytes)) (c : list bytes) : bool := bool_decide (c = []) || bool_decide (c ∈ w).

Definition EEXIST : Z := 17.

#[export] Instance dirs_host : Host (list (list bytes)) := {
  access w p _ := if dir_there w (comps p) then None else Some ENOENT;
  stat_of w p := if dir_there w (comps p) then inl (Stat DIR 0 0 0) else inr ENOENT;
  readdir _ _ := [];
  mkdir p _ w :=
    if dir_there w (comps p) then (Some EEXIST, w)
    else if dir_there w (removelast (comps p)) then (None, comps p :: w) else (Some ENOENT, w);
  unlink _ w := (Some EIO, w);
  rmdir _ w := (Some EIO, w);
  creat _ w := (None, w);
  open _ w := (None, w);
  read _ _ w := (None, w);
  write _ _ _ w := (-1, w);
  lseek_end _ w := (-1, w);
  lseek_set _ w := (-1, w);
  close _ w := w;
}.

Lemma comps_app a b : comps (a ++ 47 :: b) = comps a ++ comps b.
Proof. unfold comps. by rewrite pieces_app, List.filter_app. Qed.

Lemma comps_seps p k : comps (p ++ replicate k 47) = comps p.
Proof.
  induction k as [|k IH]; [by rewrite app_nil_r|]. rewrite replicate_S_end, app_assoc. rewrite comps_app, IH. apply app_nil_r.
Qed.

Lemma comps_word n : n <> [] -> Forall (fun c => c <> 47) n -> comps n = [n].
Proof. intros Hn H. unfold comps. rewrite pieces_word by done. cbn. by destruct n. Qed.

Lemma comps_up p : trim p <> [] -> exists leaf, comps p = comps (up p) ++ [leaf].
Proof.
  intros Ht. destruct (trim_spec p) as (k & E & _). destruct (up_spec p Ht) as (leaf & El & Hl & Hn & Hup). exists leaf.
  rewrite E at 1. rewrite comps_seps, El at 1. destruct Hup as [->|(q & ->)]; [by rewrite comps_word|].
  rewrite <- app_assoc. cbn [app]. rewrite !comps_app, (comps_word leaf) by done. by rewrite app_nil_r.
Qed.

Lemma comps_nonempty p : trim p <> [] -> comps p <> [].
Proof. intros Ht. destruct (comps_up p Ht) as (leaf & ->). by destruct (comps (up p)). Qed.

Lemma dir_there_cons w c d : dir_there (c :: w) d = bool_decide (d = c) || dir_there w d.
Proof.
  unfold dir_there. destruct (decide (d = c)) as [->|Hc].
  - rewrite (bool_decide_eq_true_2 (c = c)), (bool_decide_eq_true_2 (c ∈ c :: w)) by set_solver. by rewrite orb_true_r.
  - rewrite (bool_decide_eq_false_2 (d = c)) by done. cbn [orb]. f_equal. apply bool_decide_ext. set_solver.
Qed.

Lemma dirs_exists (w : list (list bytes)) p : path_exists w p = negb (bytes_eqb p []) && dir_there w (comps p).
Proof. unfold path_exists. cbn. by destruct (dir_there w (comps p)). Qed.

#[export] Instance dirs_laws : Directories (list (list bytes)).
Proof.
  split.
  - intros w p k Hp. rewrite !dirs_exists, comps_seps. destruct p; [done|]. done.
  - intros w w' p mode. unfold success. cbn. destruct (dir_there w (comps p)) eqn:E; [done|]. destruct (dir_there w (removelast (comps p))); [|done]. intros [= <-].
    rewrite dirs_exists, dir_there_cons, bool_decide_eq_true_2 by done. destruct p; [|done].
    unfold dir_there in E. by rewrite bool_decide_eq_true_2 in E.
  - intros w w' p q mode. unfold success. cbn. destruct (dir_there w (comps p)) eqn:E; [done|]. destruct (dir_there w (removelast (comps p))); [|done]. intros [= <-].
    intros (s & -> & _ & Hs). rewrite !dirs_exists, dir_there_cons, bool_decide_eq_false_2; [done|].
    rewrite comps_app. apply comps_nonempty in Hs. intros H. apply (f_equal length) in H. rewrite length_app in H. destruct (comps s); [done|]. cbn in H. lia.
  - intros w p mode Hu. rewrite !dirs_exists. cbn. assert (trim p <> []) as Ht by (intros H; apply Hu; unfold up; by rewrite H).
    destruct (comps_up p Ht) as (leaf & E). rewrite E, removelast_last.
    destruct (bytes_eqb_spec p []) as [->|_]; [done|]. cbn [negb andb]. intros ->. destruct (bytes_eqb_spec (up p) []); [done|]. cbn [negb andb]. by intros ->.
Qed.

Lemma path_mkdir_if_needed_made_witness :
  exists w', path_mkdir_if_needed (replicate 4096 7) (str "/data//avd/x/") 511 ([[str "data"]] : list (list bytes)) = Some (success, w') /\
    path_exists w' (str "/data//avd/x/") = true.
Proof.
  apply path_mkdir_if_needed_made.
  - intros w p mode Ht Hx Hu. rewrite !dirs_exists in *. cbn. destruct (comps_up p Ht) as (leaf & E). rewrite E, removelast_last in *.
    destruct (bytes_eqb_spec p []) as [->|_]; [done|]. cbn [negb andb] in Hx. rewrite Hx.
    destruct Hu as [->|Hu]; [by eexists|]. apply andb_true_iff in Hu as [_ ->]. by eexists.
  - intros w k. rewrite dirs_exists, (comps_seps [] (S k) : comps (replicate (S k) 47) = comps []). done.
  - by vm_compute.
  - by vm_compute.
  - vm_compute. repeat constructor; discriminate.
  - vm_compute. repeat constructor; discriminate.
  - vm_compute. discriminate.
Defined.


(** ** Copying a file

    [rest] is what is still to be read from the descriptor [fs], [put] what was written to [fd]. *)

Section copying.
Context {W : Type} `{!Host W} (fs fd : Z) (rest put : W -> bytes).
Context (read_some : forall (w : W) n d w', 0 < n -> read fs n w = (Some d, w') ->
  rest w = d ++ rest w' /\ zlen d <= n /\ (d = [] -> rest w = []) /\ put w' = put w).
Context (write_some : forall (w : W) d k w', write fd d (zlen d) w = (k, w') ->
  -1 <= k <= zlen d /\ put w' = put w ++ take (Z.to_nat k) d /\ rest w' = rest w).

(** Reading does not fail: the loop ends, and what it wrote is the start of what was there to read; all of it when
    no write falls short. *)
Lemma copy_loop_ok fuel B w :
  0 < B -> (forall w n, exists d w', read fs n w = (Some d, w')) -> (length (rest w) < fuel)%nat ->
  exists w' copied left_, copy_loop fuel B fs fd w = Some w' /\ rest w = copied ++ left_ /\ put w' = put w ++ copied /\
    ((forall w d, fst (write fd d (zlen d) w) = zlen d) -> left_ = []).
Proof.
  intros HB Hread. revert w. induction fuel as [|fuel IH]; intros w Hf; [lia|]. cbn [copy_loop]. unfold copy_round.
  destruct (Hread w B) as (d & w1 & E). rewrite E. destruct (read_some _ _ _ _ HB E) as (Hr & Hd & Hend & Hp).
  destruct (Z.eqb_spec (zlen d) 0) as [Hz|Hz].
  - assert (d = []) as -> by (destruct d; [done|rewrite zlen_cons in Hz; pose proof (zlen_nonneg d); lia]).
    exists w1, [], []. split_and!; [done|by apply Hend|by rewrite Hp, app_nil_r|done].
  - destruct (write fd d (zlen d) w1) as [k w2] eqn:Ew. destruct (write_some _ _ _ _ Ew) as (Hk & Hp2 & Hr2).
    destruct (Z.eqb_spec k (zlen d)) as [->|Hne]; cbn [negb].
    + destruct (IH w2) as (w' & copied & left_ & -> & Hr' & Hp' & Hall).
      { rewrite Hr2. rewrite Hr, length_app in Hf. unfold zlen in Hz. lia. }
      exists w', (d ++ copied), left_. rewrite Hp', Hp2, Hp. replace (Z.to_nat (zlen d)) with (length d) by (unfold zlen; lia).
      rewrite firstn_all. split_and!; [done|by rewrite Hr, <- app_assoc, <- Hr', Hr2|by rewrite app_assoc|done].
    + exists w2, (take (Z.to_nat k) d), (drop (Z.to_nat k) d ++ rest w1). rewrite Hp2, Hp. split_and!; [done| |done|].
      * rewrite Hr, app_assoc, take_drop. done.
      * intros Hall. specialize (Hall w1 d). rewrite Ew in Hall. done.
Qed.

(** The status is 0 as soon as both files are open: also when a write falls short or fails. *)
Theorem path_copy_file_impl_ok B dest source (w w1 w2 : W) :
  0 < B -> (forall w n, exists d w', read fs n w = (Some d, w')) ->
  creat dest w = (Some fd, w1) -> open source w1 = (Some fs, w2) ->
  exists w3 copied left_,
    path_copy_file_impl (S (length (rest w2))) B dest source w = Some (0, close fd (close fs w3)) /\
    rest w2 = copied ++ left_ /\ put w3 = put w2 ++ copied /\
    ((forall w d, fst (write fd d (zlen d) w) = zlen d) -> left_ = []).
Proof.
  intros HB Hread Ec Eo. destruct (copy_loop_ok (S (length (rest w2))) B w2 HB Hread) as (w3 & copied & left_ & E & H); [lia|].
  exists w3, copied, left_. split; [|exact H]. unfold path_copy_file_impl. rewrite Ec, Eo, E. done.
Qed.
End copying.

(** A file that cannot be read is copied for ever: the failed read counts as -1 bytes, and so does the write of -1
    bytes, which is taken for a success. *)
Theorem path_copy_file_hangs {W} `{!Host W} B dest source fs fd (w w1 w2 : W) :
  creat dest w = (Some fd, w1) -> open source w1 = (Some fs, w2) ->
  (forall w, fst (read fs B w) = None) -> (forall w, fst (write fd [] (-1) w) = -1) ->
  forall fuel, path_copy_file_impl fuel B dest source w = None.
Proof.
  intros Ec Eo Hr Hw fuel. unfold path_copy_file_impl. rewrite Ec, Eo.
  assert (copy_loop fuel B fs fd w2 = None) as ->; [|done].
  clear -Hr Hw. revert w2. induction fuel as [|fuel IH]; intros w; [done|]. cbn [copy_loop]. unfold copy_round.
  specialize (Hr w). destruct (read fs B w) as [d w1]. cbn in Hr. subst d. change (-1 =? 0) with false. cbn iota.
  specialize (Hw w1). destruct (write fd [] (-1) w1) as [k w2]. cbn in Hw. subst k. cbn. apply IH.
Qed.

(** A host with one file to read, which may be [broken], one to write, and a disk of [room] bytes. *)
Record streams := Streams { to_read : bytes; written : bytes; room : nat }.

Definition streams_host (broken : bool) : Host streams := {|
  access _ _ _ := None;
  stat_of _ _ := inr ENOENT;
  readdir _ _ := [];
  mkdir _ _ w := (Some EEXIST, w);
  unlink _ w := (Some ENOENT, w);
  rmdir _ w := (Some ENOENT, w);
  creat _ w := (Some 4, w);
  open _ w := (Some 3, w);
  read _ n w :=
    if broken then (None, w)
    else (Some (take (Z.to_nat n) (to_read w)), Streams (drop (Z.to_nat n) (to_read w)) (written w) (room w));
  write _ data n w :=
    if n <? 0 then (-1, w)
    else let d := take (room w - length (written w)) data in (zlen d, Streams (to_read w) (written w ++ d) (room w));
  lseek_end _ w := (zlen (to_read w), w);
  lseek_set _ w := (0, w);
  close _ w := w;
|}.

(** A copy on a disk that is full: the status is 0. *)
Lemma path_copy_file_impl_ok_witness :
  exists w3 copied left_,
    @path_copy_file_impl streams (streams_host false) 6 2 (str "new") (str "old") (Streams [1; 2; 3; 4; 5] [] 3) = Some (0, w3) /\
    [1; 2; 3; 4; 5] = copied ++ left_ /\ written w3 = copied /\
    ((forall w d, fst (@write streams (streams_host false) 4 d (zlen d) w) = zlen d) -> left_ = []).
Proof.
  apply (@path_copy_file_impl_ok streams (streams_host false) 3 4 to_read written) with (w1 := Streams [1; 2; 3; 4; 5] [] 3) (w2 := Streams [1; 2; 3; 4; 5] [] 3).
  - intros w n d w' Hn. cbn. intros [= <- <-]. cbn. split_and!; [by rewrite take_drop| | |done].
    + unfold zlen. rewrite length_take. lia.
    + intros H. destruct (to_read w); [done|]. destruct (Z.to_nat n) eqn:E; [lia|done].
  - intros w d k w'. cbn. destruct (Z.ltb_spec (zlen d) 0) as [Hz|_]; [pose proof (zlen_nonneg d); lia|]. intros [= <- <-]. cbn.
    unfold zlen. rewrite length_take. split_and!; [lia..| |done]. f_equal. rewrite Nat2Z.id. rewrite <- take_take. by rewrite firstn_all.
  - lia.
  - intros w n. by eexists _, _.
  - done.
  - done.
Defined.

Lemma path_copy_file_hangs_witness fuel :
  @path_copy_file_impl streams (streams_host true) fuel 1024 (str "new") (str "old") (Streams [1] [] 9) = None.
Proof. by apply (@path_copy_file_hangs streams (streams_host true) 1024 _ _ 3 4 _ (Streams [1] [] 9) (Streams [1] [] 9)). Qed.

(** ** Deleting a directory *)

#[warnings="-register-all"] Inductive tree := Leaf | Node (entries : list (bytes * tree)).

Section tree_ind'.
  Variable P : tree -> Prop.
  Hypothesis leaf : P Leaf.
  Hypothesis node : forall l, Forall (fun e => P (snd e)) l -> P (Node l).
Fixpoint tree_ind' (t : tree) : P t :=
  match t with
  | Leaf => leaf
  | Node l => node l ((fix go l : Forall (fun e => P (snd e)) l :=
                         match l with [] => Forall_nil_2 _ | e :: l => Forall_cons_2 _ e l (tree_ind' (snd e)) (go l) end) l)
  end.
End tree_ind'.

(** The calls that delete a tree: what is in a directory before the directory. *)
Inductive deletion := Unlink (path : bytes) | Rmdir (path : bytes).
Fixpoint deletions (path : bytes) (t : tree) : list deletion :=
  match t with
  | Leaf => [Unlink path]
  | Node l => concat (map (fun e => deletions (fs_join path (fst e)) (snd e)) l) ++ [Rmdir path]
  end.

Section deleting.
Context {W : Type} `{!Host W}.

(** What is found in a directory, through the queries of the host: [None] when it is deeper than the fuel. *)
Fixpoint seen (fuel : nat) (w : W) (path : bytes) : option tree :=
  match fuel with
  | O => None
  | S fuel =>
      l ← mapM (fun name => let full := fs_join path name in
                  t ← (if path_is_dir w full then seen fuel w full else Some Leaf); Some (name, t)) (scanDirInternal w path);
      Some (Node l)
  end.

(** All the calls, and the first error. *)
Fixpoint perform (l : list deletion) (w : W) : status * W :=
  match l with
  | [] => (success, w)
  | d :: l =>
      let '(ret, w) := match d with Unlink p => unlink p w | Rmdir p => rmdir p w end in
      let '(ret', w) := perform l w in (first_error ret ret', w)
  end.

Lemma perform_app l l' w :
  perform (l ++ l') w = (let '(a, w) := perform l w in let '(b, w) := perform l' w in (first_error a b, w)).
Proof.
  revert w. induction l as [|d l IH]; intros w; cbn [perform app].
  - by destruct (perform l' w).
  - destruct (match d with Unlink p => unlink p w | Rmdir p => rmdir p w end) as [r w1]. rewrite IH.
    destruct (perform l w1) as [a w2]. destruct (perform l' w2) as [b w3]. by destruct r.
Qed.

(** Two paths that part ways in a directory. *)
Definition name_ok (n : bytes) : Prop := n <> [] /\ Forall (fun c => c <> 47) n /\ plain n.
Definition under (p q : bytes) : Prop := exists s, q = p ++ s /\ tail_ok s /\ clean s.
Definition apart (p q : bytes) : Prop :=
  exists d n n', name_ok n /\ name_ok n' /\ n <> n' /\ under (fs_join d n) p /\ under (fs_join d n') q.

(** What is at a path. *)
Definition same_at (w w' : W) (q : bytes) : Prop := path_is_dir w' q = path_is_dir w q /\ readdir w' q = readdir w q.

(** A directory's entries are names, each once; deleting a file or directory changes nothing elsewhere: no link
    leads from one place to another. *)
Class Deleting := {
  readdir_names (w : W) p : NoDup (readdir w p) /\ Forall (fun n => n <> [] /\ Forall (fun c => c <> 47) n) (readdir w p);
  unlink_apart (w : W) p q : apart p q -> same_at w (snd (unlink p w)) q;
  rmdir_apart (w : W) p q : apart p q -> same_at w (snd (rmdir p w)) q;
}.
Context `{!Deleting}.

Lemma scan_names w p : NoDup (scanDirInternal w p) /\ Forall name_ok (scanDirInternal w p).
Proof.
  unfold scanDirInternal. destruct (bytes_eqb p []); [split; constructor|]. destruct (readdir_names w p) as [Hd Hn].
  set (l := List.filter _ _). pose proof (merge_sort_Permutation bytes_le l) as HP. rewrite HP. split.
  - unfold l. clear -Hd. induction Hd as [|x l Hx _ IH]; cbn; [constructor|]. destruct (_ && _); [|done]. constructor; [|done].
    intros Hin. apply Hx. apply list_elem_of_In in Hin. apply filter_In in Hin as [Hin _]. by apply list_elem_of_In.
  - apply Forall_forall. intros n Hin. apply list_elem_of_In, filter_In in Hin as [Hin Hf]. apply list_elem_of_In in Hin.
    rewrite Forall_forall in Hn. destruct (Hn n Hin). apply andb_true_iff in Hf as [Hd1 Hd2]. split_and!; [done..|].
    split; intros ->; by cbn in *.
Qed.

(** A path that ends in a name. *)
Definition solid (p : bytes) : Prop := exists q c, p = q ++ [c] /\ c <> 47.

Lemma join_solid p n : solid p -> fs_join p n = p ++ 47 :: n.
Proof. intros (q & c & -> & Hc). unfold fs_join. rewrite last_snoc. by rewrite (proj2 (Z.eqb_neq c 47)). Qed.

Lemma solid_app p n : name_ok n -> solid (p ++ n).
Proof.
  intros (Hn & Hs & _). destruct (exists_last Hn) as (q & c & ->). exists (p ++ q), c. rewrite <- app_assoc. split; [done|].
  apply Forall_app in Hs as [_ Hs]. by apply Forall_cons in Hs as [? _].
Qed.

Lemma solid_join p n : name_ok n -> solid (fs_join p n).
Proof.
  intros Hn. unfold fs_join. destruct (last p) as [c|]; [destruct (c =? 47)|].
  - by apply solid_app.
  - change (p ++ 47 :: n) with (p ++ [47] ++ n). rewrite app_assoc. by apply solid_app.
  - by apply (solid_app []).
Qed.

Lemma clean_name n : name_ok n -> clean n.
Proof. intros (_ & Hs & Hp). unfold clean. rewrite pieces_word by done. by apply Forall_singleton. Qed.

Lemma under_refl p : under p p.
Proof. exists []. rewrite app_nil_r. split_and!; [done|by left|]. by repeat constructor. Qed.

Lemma under_join p n q : solid p -> name_ok n -> under (fs_join p n) q -> under p q.
Proof.
  intros Hp Hn (s & -> & Ht & Hc). rewrite join_solid by done. exists (47 :: n ++ s). rewrite <- app_assoc. split_and!; [done|right; by eexists|].
  change (47 :: n ++ s) with ([] ++ 47 :: n ++ s). apply clean_app. split; [by repeat constructor|].
  destruct Ht as [->|(s' & ->)]; [rewrite app_nil_r; by apply clean_name|]. apply clean_app. split; [by apply clean_name|].
  change (47 :: s') with ([] ++ 47 :: s') in Hc. by apply clean_app in Hc as [_ Hc].
Qed.

Lemma scan_same w w' p : same_at w w' p -> scanDirInternal w' p = scanDirInternal w p.
Proof. intros [_ E]. unfold scanDirInternal. by rewrite E. Qed.

(** What is found in a directory depends on what is under it only. *)
Lemma seen_same fuel w w' p : solid p -> (forall q, under p q -> same_at w w' q) -> seen fuel w' p = seen fuel w p.
Proof.
  revert p. induction fuel as [|fuel IH]; intros p Hp Hq; [done|]. cbn [seen].
  rewrite (scan_same w w' p) by apply Hq, under_refl. destruct (scan_names w p) as [_ Hn].
  erewrite Forall_mapM_ext; [done|]. eapply Forall_impl; [exact Hn|]. intros n Hname. cbn.
  assert (forall q, under (fs_join p n) q -> same_at w w' q) as Hq' by (intros q Hu; apply Hq; by eapply under_join).
  rewrite (IH (fs_join p n)) by (done || by apply solid_join). by destruct (Hq' _ (under_refl _)) as [-> _].
Qed.

Definition path_of (d : deletion) : bytes := match d with Unlink p | Rmdir p => p end.

Lemma seen_under fuel w p t : solid p -> seen fuel w p = Some t -> Forall (fun d => under p (path_of d)) (deletions p t).
Proof.
  revert p t. induction fuel as [|fuel IH]; intros p t Hp E; [done|]. cbn [seen] in E. apply bind_Some in E as (l & E & [= <-]).
  cbn [deletions]. apply Forall_app. split; [|constructor; [apply under_refl|constructor]]. apply Forall_concat, Forall_map.
  destruct (scan_names w p) as [_ Hn]. apply mapM_Some in E. apply Forall_forall. intros [n t] Hin. cbn.
  apply list_elem_of_lookup in Hin as [i Hi]. destruct (Forall2_lookup_r _ _ _ _ _ E Hi) as (n' & Hn' & Et).
  cbn in Et. apply bind_Some in Et as (t' & Et & [= -> ->]). pose proof (Forall_lookup_1 _ _ _ _ Hn Hn') as Hname.
  apply (Forall_impl (fun d => under (fs_join p n) (path_of d))); [|intros d Hd; by apply (under_join p n)].
  destruct (path_is_dir w (fs_join p n)).
  - by apply IH; [apply solid_join|].
  - injection Et as <-. cbn [deletions]. constructor; [apply under_refl|constructor].
Qed.

(** The calls under one name change nothing under another. *)
Lemma perform_apart l w d n n' :
  name_ok n -> name_ok n' -> n <> n' -> Forall (fun x => under (fs_join d n) (path_of x)) l ->
  forall q, under (fs_join d n') q -> same_at w (snd (perform l w)) q.
Proof.
  intros Hn Hn' Hne Hl q Hq. revert w. induction Hl as [|x l Hx _ IH]; intros w; cbn [perform]; [done|].
  assert (apart (path_of x) q) as Ha by (by exists d, n, n').
  assert (same_at w (snd (match x with Unlink p => unlink p w | Rmdir p => rmdir p w end)) q) as [H1 H2].
  { destruct x; cbn in Ha; [by apply unlink_apart|by apply rmdir_apart]. }
  destruct (match x with Unlink p => unlink p w | Rmdir p => rmdir p w end) as [r w1]. cbn [snd] in *.
  destruct (IH w1) as [H3 H4]. destruct (perform l w1) as [r' w2]. cbn [snd] in *. split; congruence.
Qed.

Lemma first_error_assoc a b c : first_error (first_error a b) c = first_error a (first_error b c).
Proof. by destruct a. Qed.

(** The entries are deleted one after the other, as they were found. *)
Lemma delete_entries_ok fuel path names l fullRes w :
  (forall p w t, solid p -> seen fuel w p = Some t -> path_delete_dir fuel p w = Some (perform (deletions p t) w)) ->
  NoDup names -> Forall name_ok names ->
  mapM (fun name => let full := fs_join path name in
          t ← (if path_is_dir w full then seen fuel w full else Some Leaf); Some (name, t)) names = Some l ->
  delete_entries (path_delete_dir fuel) path names fullRes w =
    Some (let '(ret, w) := perform (concat (map (fun e => deletions (fs_join path (fst e)) (snd e)) l)) w in (first_error fullRes ret, w)).
Proof.
  intros Hdir Hd Hn. revert fullRes w l. induction Hn as [|n names Hname Hnames IH]; intros fullRes w l E; cbn [mapM delete_entries] in *.
  - injection E as <-. cbn. by destruct fullRes.
  - apply bind_Some in E as ([n' t] & E & El). apply bind_Some in E as (t' & Et & [= -> ->]). apply bind_Some in El as (l' & El & [= <-]).
    cbn [map concat fst snd]. rewrite perform_app.
    assert (Forall (fun d => under (fs_join path n') (path_of d)) (deletions (fs_join path n') t)) as Hu.
    { destruct (path_is_dir w (fs_join path n')); [by eapply seen_under; [apply solid_join|]|].
      injection Et as <-. constructor; [apply under_refl|constructor]. }
    assert ((if path_is_dir w (fs_join path n') then path_delete_dir fuel (fs_join path n') w else Some (path_delete_file (fs_join path n') w)) =
      Some (perform (deletions (fs_join path n') t) w)) as ->.
    { destruct (path_is_dir w (fs_join path n')); [by apply Hdir; [apply solid_join|]|]. injection Et as <-. cbn. unfold path_delete_file.
      by destruct (unlink _ w) as [[]]. }
    apply NoDup_cons in Hd as [Hin Hd].
    pose proof (fun n2 Hn2 Hne => perform_apart (deletions (fs_join path n') t) w path n' n2 Hname Hn2 Hne Hu) as Hfar.
    destruct (perform (deletions (fs_join path n') t) w) as [r1 w1]. cbn [snd mbind option_bind] in *.
    rewrite (IH Hd (first_error fullRes r1) w1 l').
    + destruct (perform (concat _) w1) as [r2 w2]. by rewrite first_error_assoc.
    + rewrite <- El. apply Forall_mapM_ext. apply Forall_forall. intros m Hm. cbn.
      rewrite Forall_forall in Hnames. assert (n' <> m) as Hne by (intros ->; done).
      rewrite (seen_same fuel w w1 (fs_join path m)) by (apply Hfar || apply solid_join; auto).
      destruct (Hfar m (Hnames m Hm) Hne _ (under_refl _)) as [-> _]. done.
Qed.

(** C33: A directory is deleted with everything that was found in it and nothing else, what is in a directory before the
    directory, going on after an error; the status is the first error. *)
Theorem path_delete_dir_ok fuel path w t :
  seen fuel w path = Some t -> path_delete_dir fuel path w = Some (perform (deletions path t) w).
Proof.
  revert path w t. induction fuel as [|fuel IH]; intros path w t E; [done|]. cbn [seen path_delete_dir] in *.
  apply bind_Some in E as (l & E & [= <-]). destruct (scan_names w path) as [Hd Hn].
  rewrite (delete_entries_ok fuel path _ l) by (intros; auto). cbn [deletions]. rewrite perform_app.
  destruct (perform (concat _) w) as [r w1]. cbn [mbind option_bind perform]. destruct (rmdir path w1) as [r' w2]. by destruct r'.
Qed.
End deleting.

(** A host of names without links: every file and directory with the names that lead to it. *)
Definition plain_files : Type := list (list bytes * bool).

Definition node_at (w : plain_files) (c : list bytes) : option bool := snd <$> List.find (fun e => bool_decide (fst e = c)) w.
Definition children (w : plain_files) (c : list bytes) : list bytes :=
  remove_dups (omap (fun e => match last (fst e) with
    | Some n => if bool_decide (removelast (fst e) = c) && bool_decide (n <> [] /\ Forall (fun x => x <> 47) n) then Some n else None
    | None => None end) w).
Definition without (w : plain_files) (c : list bytes) : plain_files := List.filter (fun e => negb (bool_decide (fst e = c))) w.

#[export] Instance plain_host : Host plain_files := {
  access w p _ := match node_at w (comps p) with Some _ => None | None => Some ENOENT end;
  stat_of w p := match node_at w (comps p) with Some d => inl (Stat (if d then DIR else REG) 0 0 0) | None => inr ENOENT end;
  readdir w p := children w (comps p);
  mkdir p _ w := (Some EEXIST, w);
  unlink p w := match node_at w (comps p) with Some false => (None, without w (comps p)) | _ => (Some ENOENT, w) end;
  rmdir p w := match node_at w (comps p) with
    | Some true => if bool_decide (children w (comps p) = []) then (None, without w (comps p)) else (Some 39, w)
    | _ => (Some ENOENT, w)
    end;
  creat _ w := (None, w);
  open _ w := (None, w);
  read _ _ w := (None, w);
  write _ _ _ w := (-1, w);
  lseek_end _ w := (-1, w);
  lseek_set _ w := (-1, w);
  close _ w := w;
}.

Lemma comps_join d n : name_ok n -> comps (fs_join d n) = comps d ++ [n].
Proof.
  intros (Hn & Hs & _). unfold fs_join. destruct (last d) as [c|] eqn:El.
  - destruct (Z.eqb_spec c 47) as [->|]; [|by rewrite comps_app, (comps_word n)].
    apply last_Some in El as (d' & ->). rewrite <- app_assoc. cbn [app]. rewrite !comps_app, (comps_word n) by done. by rewrite app_nil_r.
  - apply last_None in El as ->. by rewrite (comps_word n).
Qed.

Lemma comps_under d n q : name_ok n -> under (fs_join d n) q -> exists s, comps q = comps d ++ n :: s.
Proof.
  intros Hn (s & -> & [->|(s' & ->)] & _).
  - exists []. by rewrite app_nil_r, comps_join.
  - exists (comps s'). rewrite comps_app, comps_join by done. by rewrite <- app_assoc.
Qed.

Lemma apart_comps p q : apart p q -> comps p <> comps q /\ removelast (comps p) <> comps q.
Proof.
  intros (d & n & n' & Hn & Hn' & Hne & Hp & Hq). destruct (comps_under _ _ _ Hn Hp) as (s & ->). destruct (comps_under _ _ _ Hn' Hq) as (s' & ->).
  split.
  - intros E. apply app_inv_head in E. congruence.
  - rewrite removelast_app by done. destruct s as [|x s].
    + cbn. rewrite app_nil_r. intros E. apply (f_equal length) in E. rewrite length_app in E. cbn in E. lia.
    + cbn [removelast]. intros E. apply app_inv_head in E. congruence.
Qed.

Lemma without_node w c c' : c <> c' -> node_at (without w c) c' = node_at w c'.
Proof.
  intros Hc. unfold node_at, without. f_equal. induction w as [|[e b] w IH]; [done|]. cbn.
  destruct (decide (e = c)) as [->|].
  - rewrite bool_decide_eq_true_2 by done. cbn [negb]. rewrite (bool_decide_eq_false_2 (c = c')) by done. done.
  - rewrite bool_decide_eq_false_2 by done. cbn. by rewrite IH.
Qed.

Lemma without_children w c c' : removelast c <> c' -> children (without w c) c' = children w c'.
Proof.
  intros Hc. unfold children, without. f_equal. induction w as [|[e b] w IH]; [done|]. cbn.
  destruct (decide (e = c)) as [->|].
  - rewrite bool_decide_eq_true_2 by done. cbn [negb]. rewrite IH. destruct (last c); [|done]. by rewrite (bool_decide_eq_false_2 (removelast c = c')).
  - rewrite bool_decide_eq_false_2 by done. cbn. by rewrite IH.
Qed.

Lemma without_same (w : plain_files) p q : apart p q -> same_at w (without w (comps p)) q.
Proof.
  intros Ha. destruct (apart_comps p q Ha) as [H1 H2]. split; [|by apply without_children]. unfold path_is_dir, path_is_kind. f_equal. cbn. by rewrite without_node.
Qed.

#[export] Instance plain_deleting : Deleting (W := plain_files).
Proof.
  split.
  - intros w p. split; [apply NoDup_remove_dups|]. apply Forall_forall. intros n Hn. cbn in Hn. unfold children in Hn.
    apply elem_of_remove_dups, list_elem_of_omap in Hn as ([e b] & _ & Hn). cbn in Hn. destruct (last e); [|done].
    destruct (bool_decide (removelast e = comps p)); [|done]. cbn [andb] in Hn. case_bool_decide as Hb; [|done]. by injection Hn as <-.
  - intros w p q Ha. cbn. destruct (node_at w (comps p)) as [[]|]; [done| |done]. by apply without_same.
  - intros w p q Ha. cbn. destruct (node_at w (comps p)) as [[]|]; [|done..]. case_bool_decide; [|done]. by apply without_same.
Qed.

Definition some_files : plain_files :=
  [([str "avd"], true); ([str "avd"; str "x.lock"], false); ([str "avd"; str "snap"], true); ([str "avd"; str "snap"; str "ram"], false); ([str "keep"], false)].

Lemma path_delete_dir_ok_witness :
  path_delete_dir 5 (str "/avd") some_files = Some (success, [([str "keep"], false)]).
Proof.
  rewrite (path_delete_dir_ok 5 (str "/avd") some_files (Node [(str "snap", Node [(str "ram", Leaf)]); (str "x.lock", Leaf)])) by (vm_compute; reflexivity).
  vm_compute. reflexivity.
Defined.

(** ** Symbolic links are followed

    A host where [/avd/l] is a link to the directory [/keep]; the state is the files that are left. *)
Definition real (p : bytes) : bytes := match strip_prefix (str "/avd/l") p with Some s => str "/keep" ++ s | None => p end.

Definition linked_host : Host (list bytes) := {|
  access _ _ _ := None;
  stat_of w p :=
    if bytes_eqb (real p) (str "/avd") || bytes_eqb (real p) (str "/keep") then inl (Stat DIR 0 0 0)
    else if existsb (bytes_eqb (real p)) w then inl (Stat REG 0 0 0) else inr ENOENT;
  readdir w p :=
    if bytes_eqb (real p) (str "/avd") then [str "l"]
    else omap (fun f => strip_prefix (real p ++ [47]) f) w;
  mkdir _ _ w := (Some EEXIST, w);
  unlink p w := if existsb (bytes_eqb (real p)) w then (None, List.filter (fun f => negb (bytes_eqb (real p) f)) w) else (Some ENOENT, w);
  rmdir p w := if bytes_eqb p (str "/avd/l") then (Some ENOTDIR, w) else (Some 39, w);
  creat _ w := (None, w);
  open _ w := (None, w);
  read _ _ w := (None, w);
  write _ _ _ w := (-1, w);
  lseek_end _ w := (-1, w);
  lseek_set _ w := (-1, w);
  close _ w := w;
|}.

(** Deleting the directory deletes the files of the directory the link leads to, and not the link. *)
Theorem path_delete_dir_follows_links :
  @path_delete_dir (list bytes) linked_host 5 (str "/avd") [str "/keep/photo"; str "/keep/notes"] = Some (Some ENOTDIR, []).
Proof. vm_compute. reflexivity. Qed.

(** ** Loading a file

    The size is cut to an [int]: a file whose size has higher bits is loaded up to the rest. *)
Theorem path_load_file_ok {W} `{!Host W} junk fn (w w1 w2 w3 w4 : W) fd size data buf :
  open fn w = (Some fd, w1) -> lseek_end fd w1 = (size, w2) -> lseek_set fd w2 = (0, w3) -> read fd (zlen data) w3 = (Some data, w4) ->
  s32 size = zlen data -> zlen data < 2 ^ 31 - 1 -> junk (zlen data + 1) = Some buf -> zlen buf = zlen data + 1 ->
  path_load_file junk fn w = (Some (Some (data ++ [0])), zlen data, close fd w4).
Proof.
  intros Eo El Es Er Esz Hsz Ej Hb. unfold path_load_file. rewrite Eo, El, Esz. pose proof (zlen_nonneg data) as Hd.
  rewrite (proj2 (Z.ltb_ge _ _)) by lia. rewrite Es. change (negb (0 =? 0)) with false. cbn iota.
  rewrite (swrap_small 32 (zlen data + 1)) by (unfold in_s; lia). rewrite Ej, Er, Z.eqb_refl. cbn [negb].
  rewrite (write_at_app [] buf) by lia. cbn [app mbind option_bind].
  replace (Z.to_nat (zlen data)) with (length data) by (unfold zlen; lia).
  assert (length (drop (length data) buf) = 1%nat) as Hl by (rewrite length_drop; unfold zlen in *; lia).
  destruct (drop (length data) buf) as [|x [|]]; try done. rewrite (write_at_app data) by done. done.
Qed.
