(* ===== verification/Options.v ===== *)
(** * Command line options

    Models [emulator/cmdline/src/android/cmdline-option.cpp] with the tables of
    [cmdline-options.h] (as compiled for Linux): the options of the emulator,
    the debug tags, the ports and the options of the user mode network. *)

From S2P Require Import Prelude CText Stralloc Misc.

(** ** The options *)

Inductive opt_type := OPTION_IS_FLAG | OPTION_IS_PARAM | OPTION_IS_LIST.

#[export] Instance opt_type_eq : EqDecision opt_type.
Proof. solve_decision. Defined.

(** A name of the table, which is also a field of the options, and its type. *)
Record OptionInfo := { name : bytes; var_type : opt_type }.

Definition flag (n : string) : OptionInfo := {| name := str n; var_type := OPTION_IS_FLAG |}.
Definition param (n : string) : OptionInfo := {| name := str n; var_type := OPTION_IS_PARAM |}.
Definition list_ (n : string) : OptionInfo := {| name := str n; var_type := OPTION_IS_LIST |}.

Definition option_keys : list OptionInfo :=
  [flag "list_avds"; param "sysdir"; param "system"; param "vendor"; flag "writable_system"; flag "delay_adb";
   param "datadir"; param "kernel"; param "ramdisk"; param "image"; param "initdata"; param "data";
   param "encryption_key"; param "logcat_output"; param "partition_size"; param "cache"; param "cache_size";
   flag "no_cache"; flag "nocache"; param "sdcard"; param "quit_after_boot"; param "qemu_top_dir";
   param "monitor_adb"; param "snapstorage"; flag "no_snapstorage"; param "snapshot"; flag "no_snapshot";
   flag "no_snapshot_save"; flag "no_snapshot_load"; flag "force_snapshot_load"; flag "qcow2_for_userdata";
   flag "snapshot_list"; flag "no_snapshot_update_time"; flag "wipe_data"; param "avd"; param "avd_arch";
   param "skindir"; param "skin"; flag "no_skin"; flag "noskin"; param "memory"; param "ui_only"; param "id";
   param "cores"; param "accel"; flag "no_accel"; flag "ranchu"; param "engine"; param "netspeed"; param "netdelay";
   flag "netfast"; param "code_profile"; flag "show_kernel"; flag "shell"; flag "no_jni"; flag "nojni";
   flag "dalvik_vm_checkjni"; param "logcat"; flag "log_nofilter"; flag "log_detailed"; flag "use_system_libs";
   param "stdouterr_file"; flag "no_qt"; flag "no_audio"; flag "noaudio"; param "audio"; param "radio"; param "port";
   param "ports"; param "modem_simulator_port"; param "onion"; param "onion_alpha"; param "onion_rotation";
   param "dpi_device"; param "scale"; param "wifi_client_port"; param "wifi_server_port"; param "http_proxy";
   param "timezone"; param "change_language"; param "change_country"; param "change_locale"; param "dns_server";
   param "net_tap"; param "net_socket"; param "net_tap_script_up"; param "net_tap_script_down"; param "cpu_delay";
   flag "no_boot_anim"; flag "no_window"; flag "qt_hide_window"; flag "no_sim"; flag "lowram"; flag "version";
   flag "no_passive_gps"; param "gnss_file_path"; param "gnss_grpc_port"; flag "virtio_console"; flag "read_only";
   param "is_restart"; param "report_console"; param "gps"; param "shell_serial"; param "tcpdump"; param "bootchart";
   param "charmap"; param "studio_params"; list_ "prop"; param "shared_net_id"; param "nand_limits"; param "gpu";
   flag "use_host_vulkan"; param "vsync_rate"; param "camera_back"; param "camera_front"; flag "webcam_list";
   list_ "virtualscene_poster"; param "screen"; param "selinux"; list_ "unix_pipe"; flag "fixed_scale";
   flag "wait_for_debugger"; flag "skip_adb_auth"; flag "metrics_to_console"; flag "metrics_collection";
   param "metrics_to_file"; flag "no_metrics"; flag "detect_image_hang"; list_ "feature"; param "icc_profile";
   param "sim_access_rules_file"; param "phone_number"; param "acpi_config"; flag "fuchsia"; param "window_size";
   flag "allow_host_audio"; flag "restart_when_stalled"; param "perf_stat"; flag "share_vid"; param "grpc";
   param "grpc_tls_key"; param "grpc_tls_cer"; param "grpc_tls_ca"; flag "grpc_use_token"; flag "grpc_use_jwt";
   param "grpc_allowlist"; param "idle_grpc_timeout"; param "waterfall"; flag "grpc_ui";
   param "packet_streamer_endpoint"; param "netsim_args"; param "multidisplay"; param "google_maps_key";
   flag "no_location_ui"; flag "use_keycode_forwarding"; param "record_session"; flag "legacy_fake_camera";
   flag "camera_hq_edge"; flag "no_direct_adb"; param "check_snapshot_loadable"; flag "no_hidpi_scaling";
   flag "no_mouse_reposition"; flag "guest_angle"; list_ "usb_passthrough"; list_ "append_userspace_opt";
   param "save_path"; flag "no_nested_warnings"; param "wifi_tap"; param "wifi_tap_script_up";
   param "wifi_tap_script_down"; param "wifi_socket"; param "wifi_user_mode_options";
   param "network_user_mode_options"; param "adb_path"; flag "hotplug_multi_display"; flag "xts";
   param "wifi_mac_address"; flag "no_ethernet"; param "android_serialno"; param "vmodule"].

(** The fields: flags that are set, strings, lists of strings (the head of the
    linked list first) and [verbose]. *)
Record AndroidOptions := {
  flags : gset (list Z);
  params : gmap (list Z) (list Z);
  lists : gmap (list Z) (list (list Z));
  verbose : bool;
}.

Definition no_options : AndroidOptions := {| flags := ∅; params := ∅; lists := ∅; verbose := false |}.

Definition set_flag (n : list Z) (o : AndroidOptions) : AndroidOptions :=
  {| flags := {[n]} ∪ flags o; params := params o; lists := lists o; verbose := verbose o |}.
Definition set_param (n v : list Z) (o : AndroidOptions) : AndroidOptions :=
  {| flags := flags o; params := <[n := v]> (params o); lists := lists o; verbose := verbose o |}.
Definition set_list (n : list Z) (l : list (list Z)) (o : AndroidOptions) : AndroidOptions :=
  {| flags := flags o; params := params o; lists := <[n := l]> (lists o); verbose := verbose o |}.
Definition set_verbose (o : AndroidOptions) : AndroidOptions :=
  {| flags := flags o; params := params o; lists := lists o; verbose := true |}.

(** How parsing ends: with the arguments that are left, with [-1], or by leaving
    the program. *)
Inductive parsed := Parsed (args : list bytes) (opt : AndroidOptions) | ParseError (opt : AndroidOptions) | Exit.

Section parse.
(** The buffer for the name, as the stack has it. *)
Context (arg2_tab : bytes).

Definition arg2 (arg : bytes) : bytes :=
  match buffer_translate_char arg2_tab 64 arg 45 95 with Some buf => c_str buf | None => [] end.

Definition find_option (n : bytes) : option OptionInfo := List.find (fun oo => bytes_eqb (name oo) n) option_keys.

(** The loop over the arguments. *)
Fixpoint parse_loop (args : list bytes) (opt : AndroidOptions) {struct args} : parsed :=
  match args with
  | [] => Parsed [] opt
  | a :: aread =>
      if head0 a =? 64 then parse_loop aread (set_param (str "avd") (tail a) opt)
      else if negb (head0 a =? 45) then Parsed args opt
      else if existsb (Z.eqb 95) (tail a) then Parsed args opt
      else
        let '(opt, arg) := if bytes_eqb (tail a) (str "verbose") then (set_verbose opt, str "debug-init")
                           else (opt, tail a) in
        if bytes_eqb arg (str "debug") then
          match aread with [] => ParseError opt | _ :: aread => parse_loop aread opt end
        else if starts_with (str "debug-") arg then parse_loop aread opt
        else
          match find_option (arg2 arg) with
          | None => Parsed args opt
          | Some oo =>
              match var_type oo, aread with
              | OPTION_IS_FLAG, _ => parse_loop aread (set_flag (name oo) opt)
              | _, [] => Exit
              | OPTION_IS_PARAM, v :: aread => parse_loop aread (set_param (name oo) v opt)
              | OPTION_IS_LIST, v :: aread =>
                  parse_loop aread (set_list (name oo) (v :: default [] (lists opt !! name oo)) opt)
              end
          end
  end.

(** The loop that turns a list round. *)
Fixpoint reverse_loop (prev cur : list (list Z)) : list (list Z) :=
  match cur with [] => prev | p :: next => reverse_loop (p :: prev) next end.

Definition reverse_lists (o : AndroidOptions) : AndroidOptions :=
  {| flags := flags o; params := params o; lists := reverse_loop [] <$> lists o; verbose := verbose o |}.

Definition android_parse_options (args : list bytes) : parsed :=
  match parse_loop args no_options with Parsed args o => Parsed args (reverse_lists o) | r => r end.
End parse.

(** ** Debug tags *)

(** The table has its end only. *)
Definition debug_tags : list (bytes * Z) := [].

Definition is_tag_equal (tag to_ : bytes) : bool := bytes_eqb tag to_.

(** One tag, from [x] to [y]. *)
Definition debug_tag (parse_as_suffix : bool) (x : bytes) : bool :=
  if 1 <? zlen x then
    let x := if negb parse_as_suffix && (head0 x =? 45) then tail x
             else if starts_with (str "no-") x then drop 3 x else x in
    if is_tag_equal x (str "all") then true
    else
      let temp := (fun c => if c =? 45 then 95 else c) <$> take 31 x in
      match List.find (fun t => is_tag_equal temp (fst t)) debug_tags with
      | Some (_, flag) => negb (Z.shiftl 1 flag =? 0)
      | None => false
      end
  else false.

Fixpoint debug_loop (fuel : nat) (parse_as_suffix : bool) (x : bytes) (result : bool) : bool :=
  match fuel, x with
  | O, _ | _, [] => result
  | S fuel, _ =>
      let '(tag, y) := if parse_as_suffix then (x, []) else span (fun c => negb (c =? 44)) x in
      debug_loop fuel parse_as_suffix (tail y) (result || debug_tag parse_as_suffix tag)
  end.

(** A null pointer is [None]. *)
Definition android_parse_debug_tags_option (opt : option bytes) (parse_as_suffix : bool) : bool :=
  match opt with None => false | Some x => debug_loop (length x) parse_as_suffix x false end.

(** ** Ports *)

(** The digit of a character in a base. *)
Definition base_digit (base c : Z) : bool := let d := hexdigit c in (0 <=? d) && (d <? base).

(** [strtol(s, &end, 0)] with [errno] cleared before. *)
Definition strtol0 (s : bytes) : Z * bool * bytes :=
  let s1 := snd (span is_space s) in
  let '(neg, s2) := match s1 with
                    | c :: s2 => if c =? 45 then (true, s2) else if c =? 43 then (false, s2) else (false, s1)
                    | [] => (false, [])
                    end in
  let '(base, s3) := match s2 with
                     | 48 :: x :: d :: s3 =>
                         if ((x =? 120) || (x =? 88)) && base_digit 16 d then (16, d :: s3) else (8, s2)
                     | 48 :: _ => (8, s2)
                     | _ => (10, s2)
                     end in
  let '(ds, rest) := span (base_digit base) s3 in
  if zlen ds =? 0 then (0, false, s)
  else
    let v := fold_left (fun acc c => acc * base + hexdigit c) ds 0 in
    let v := if neg : bool then - v else v in
    if v <? - 2 ^ 63 then (- 2 ^ 63, true, rest)
    else if 2 ^ 63 - 1 <? v then (2 ^ 63 - 1, true, rest)
    else (v, false, rest).

Definition UINT16_MAX : Z := 65535.

Section ports.
(** Constants of the host library. *)
Context (ANDROID_CONSOLE_BASEPORT MAX_ANDROID_EMULATORS : Z).

Definition android_validate_ports (console_port adb_port : Z) : bool :=
  let lower_bound := ANDROID_CONSOLE_BASEPORT + 1 in
  let upper_bound := lower_bound + (MAX_ANDROID_EMULATORS - 1) * 2 + 1 in
  if (adb_port <? lower_bound) || (upper_bound <? adb_port) then false
  else if Z.rem adb_port 2 =? 0 then false
  else true.
End ports.

(** The port of a whole string. *)
Definition one_port (port_string : bytes) : option Z :=
  let '(v, err, end_) := strtol0 (c_str port_string) in
  let port := s32 v in
  if negb (zlen end_ =? 0) || err || (port <? 1) || (UINT16_MAX <? port) then None else Some port.

(** The console port and the adb port; a null pointer is [None]. *)
Definition android_parse_port_option (port_string : option bytes) : option (Z * Z) :=
  s ← port_string;
  console_port ← one_port s;
  Some (console_port, console_port + 1).

Definition android_parse_ports_option (ports_string : option bytes) : option (Z * Z) :=
  s ← ports_string;
  let '(v1, _, comma_location) := strtol0 (c_str s) in
  let first_port := s32 v1 in
  if negb (head0 comma_location =? 44) || (first_port <? 1) || (UINT16_MAX <? first_port) then None
  else
    let '(v2, _, end_) := strtol0 (tail comma_location) in
    let second_port := s32 v2 in
    if negb (zlen end_ =? 0) || (second_port <? 1) || (UINT16_MAX <? second_port) then None
    else if first_port =? second_port then None
    else Some (first_port, second_port).

Definition modem_simulator_parse_port_option (port_string : option bytes) : option Z :=
  s ← port_string; one_port s.

(** ** The options of the user mode network *)

Definition kUserModeNetworkingOpts : list bytes :=
  str <$> ["ipv4"; "ipv6"; "dhcpstart"; "host"; "net"; "restrict"; "ipv6-host"; "ipv6-net"; "hostname"; "tftp";
           "bootfile"; "hostfwd"; "guestfwd"; "ipv6-hostfwd"; "ipv6-dns"; "ipv6-prefix"; "ipv6-prefixlen"]%string.

(** The loop over [std::getline] with a comma; nothing follows a comma at the end. *)
Fixpoint comma_lines (fuel : nat) (s : bytes) : list bytes :=
  match fuel, s with
  | O, _ | _, [] => []
  | S fuel, _ => match split_at 44 s with Some (line, s) => line :: comma_lines fuel s | None => [s] end
  end.

Definition valid_line (line : bytes) : bool :=
  match split_at 61 line with
  | None => false
  | Some (config, value) =>
      if zlen value =? 0 then false
      else existsb (fun opt => bytes_eqb (c_str config) opt) kUserModeNetworkingOpts
  end.

Definition android_validate_user_mode_networking_option (opt : bytes) : bool :=
  forallb valid_line (comma_lines (length (c_str opt)) (c_str opt)).

(** ** The names *)

Definition undash (l : bytes) : bytes := (fun c => if c =? 45 then 95 else c) <$> l.
Definition dash (l : bytes) : bytes := (fun c => if c =? 95 then 45 else c) <$> l.

(** What every name of the table is: it fits the buffer, it has neither a dash nor
    a terminator and is not taken for a debug option. *)
Definition name_ok (n : bytes) : bool :=
  (zlen n <? 63) && forallb (fun c => negb (c =? 45) && negb (c =? 0)) n
  && negb (bytes_eqb (dash n) (str "verbose")) && negb (bytes_eqb (dash n) (str "debug"))
  && negb (starts_with (str "debug-") (dash n)).

Lemma names_ok : forallb (fun oo => name_ok (name oo)) option_keys = true.
Proof. vm_compute. reflexivity. Qed.

Lemma names_found :
  forallb (fun oo => match find_option (name oo) with
                     | Some oo' => bytes_eqb (name oo) (name oo') && bool_decide (var_type oo = var_type oo')
                     | None => false
                     end) option_keys = true.
Proof. vm_compute. reflexivity. Qed.

Lemma find_option_name n oo : find_option n = Some oo -> name oo = n /\ oo ∈ option_keys.
Proof.
  unfold find_option. intros [H1 H2]%List.find_some. apply bytes_eqb_eq in H2.
  split; [done|by apply list_elem_of_In].
Qed.

Lemma find_option_in oo : oo ∈ option_keys -> find_option (name oo) = Some oo.
Proof.
  intros Hin. pose proof names_found as H. rewrite forallb_forall in H. specialize (H oo).
  rewrite <- list_elem_of_In in H. specialize (H Hin). destruct (find_option (name oo)) as [oo'|]; [|done].
  apply andb_true_iff in H as [H1%bytes_eqb_eq H2%bool_decide_eq_true].
  destruct oo, oo'. cbn in *. by subst.
Qed.

Lemma dash_undash l : existsb (Z.eqb 95) l = false -> dash (undash l) = l.
Proof.
  induction l as [|c l IH]; [done|]. cbn [existsb]. intros [H1 H2]%orb_false_iff.
  cbn. f_equal; [|by apply IH]. apply Z.eqb_neq in H1. destruct (Z.eqb_spec c 45) as [->|]; [done|].
  by destruct (Z.eqb_spec c 95) as [->|].
Qed.

Lemma undash_dash l : forallb (fun c => negb (c =? 45) && negb (c =? 0)) l = true -> undash (dash l) = l.
Proof.
  induction l as [|c l IH]; [done|]. cbn [forallb]. intros [[H1 _]%andb_true_iff H2]%andb_true_iff.
  cbn. f_equal; [|by apply IH]. destruct (Z.eqb_spec c 95) as [->|]; [done|]. by destruct (c =? 45).
Qed.

Lemma dash_no_underscore l : existsb (Z.eqb 95) (dash l) = false.
Proof.
  induction l as [|c l IH]; [done|]. cbn [dash fmap list_fmap existsb]. apply orb_false_iff. split; [|exact IH].
  destruct (Z.eqb_spec c 95); [done|]. by apply Z.eqb_neq.
Qed.

Lemma dash_c_string l : forallb (fun c => negb (c =? 45) && negb (c =? 0)) l = true -> c_string (dash l).
Proof.
  rewrite forallb_forall. intros H. apply Forall_fmap, Forall_forall. intros c Hc%list_elem_of_In%H. cbn.
  apply andb_true_iff in Hc as [_ Hc%negb_true_iff%Z.eqb_neq]. by destruct (c =? 95).
Qed.

(** ** The grammar of the command line

    What stands on the command line before the rest. *)

Inductive item :=
  | IAvd (n : bytes) | IVerbose | IDebug (tags : bytes) | IDebugTag (tag : bytes)
  | IFlag (n : bytes) | IParam (n v : bytes) | IList (n v : bytes).

Definition render (i : item) : list bytes :=
  match i with
  | IAvd n => [64 :: n]
  | IVerbose => [45 :: str "verbose"]
  | IDebug tags => [45 :: str "debug"; tags]
  | IDebugTag tag => [45 :: str "debug-" ++ tag]
  | IFlag n => [45 :: dash n]
  | IParam n v | IList n v => [45 :: dash n; v]
  end.

Definition in_table (n : bytes) (k : opt_type) : Prop := {| name := n; var_type := k |} ∈ option_keys.

Definition item_ok (i : item) : Prop :=
  match i with
  | IDebugTag tag => existsb (Z.eqb 95) tag = false
  | IFlag n => in_table n OPTION_IS_FLAG
  | IParam n _ => in_table n OPTION_IS_PARAM
  | IList n _ => in_table n OPTION_IS_LIST
  | _ => True
  end.

(** The options they give: the last string of a name stands, lists keep the order. *)
Definition apply_item (o : AndroidOptions) (i : item) : AndroidOptions :=
  match i with
  | IAvd n => set_param (str "avd") n o
  | IVerbose => set_verbose o
  | IDebug _ | IDebugTag _ => o
  | IFlag n => set_flag n o
  | IParam n v => set_param n v o
  | IList n v => set_list n (default [] (lists o !! n) ++ [v]) o
  end.

Definition options_of (items : list item) : AndroidOptions := fold_left apply_item items no_options.

(** An argument that ends the options: not an option, an option with an
    underscore, or an unknown one. *)
Definition stops (args : list bytes) : Prop :=
  match args with
  | [] => True
  | a :: _ =>
      head0 a <> 64 /\
      (head0 a <> 45 \/ existsb (Z.eqb 95) (tail a) = true \/
       (tail a <> str "verbose" /\ tail a <> str "debug" /\ starts_with (str "debug-") (tail a) = false /\
        find_option (undash (tail a)) = None))
  end.

Section grammar.
Context (tab : bytes) (Htab : zlen tab = 64).

(** The buffer does not matter: a name that is cut off is in no table. *)
Lemma find_arg2 arg : c_string arg -> find_option (arg2 tab arg) = find_option (undash arg).
Proof.
  intros Ha. unfold arg2.
  destruct (buffer_translate_char_bounds tab arg 45 95) as [H _]; [done|done|done|lia|].
  destruct H as (buf & E & _ & Hc); [lia|]. rewrite Htab in E, Hc. rewrite E, Hc.
  change (Z.to_nat (64 - 1)) with 63%nat. fold (undash (take 63 arg)).
  destruct (Nat.le_gt_cases (length arg) 63) as [|Hlong]; [by rewrite take_ge by done|].
  assert (forall n, (63 <= length n)%nat -> find_option n = None) as Hnone.
  { intros n Hn. destruct (find_option n) as [oo|] eqn:Ef; [|done]. apply find_option_name in Ef as [<- Hin].
    pose proof names_ok as H. rewrite forallb_forall in H. specialize (H oo ltac:(by apply list_elem_of_In)).
    unfold name_ok in H. rewrite !andb_true_iff in H. destruct H as [[[[H%Z.ltb_lt _] _] _] _].
    unfold zlen in H. lia. }
  rewrite !Hnone; [done| |]; unfold undash; rewrite length_fmap, ?length_take; lia.
Qed.

(** One item as the code takes it: lists grow at the head. *)
Definition push_item (o : AndroidOptions) (i : item) : AndroidOptions :=
  match i with
  | IList n v => set_list n (v :: default [] (lists o !! n)) o
  | _ => apply_item o i
  end.

Lemma name_facts oo :
  oo ∈ option_keys ->
  find_option (arg2 tab (dash (name oo))) = Some oo /\
  bytes_eqb (dash (name oo)) (str "verbose") = false /\ bytes_eqb (dash (name oo)) (str "debug") = false /\
  starts_with (str "debug-") (dash (name oo)) = false.
Proof.
  intros Hin. pose proof names_ok as H. rewrite forallb_forall in H. specialize (H oo ltac:(by apply list_elem_of_In)).
  unfold name_ok in H. rewrite !andb_true_iff, !negb_true_iff in H. destruct H as [[[[_ H1] H2] H3] H4].
  split_and!; [|done|done|done]. rewrite find_arg2 by by apply dash_c_string.
  rewrite undash_dash by done. by apply find_option_in.
Qed.

Lemma loop_item i rest o :
  item_ok i -> parse_loop tab (render i ++ rest) o = parse_loop tab rest (push_item o i).
Proof.
  destruct i as [n| |tags|tag|n|n v|n v]; cbn [render app item_ok]; intros Hi; [done|done|done| |..].
  - cbn [parse_loop]. change (head0 (45 :: str "debug-" ++ tag)) with 45. cbn [Z.eqb negb tail Pos.eqb].
    destruct (existsb (Z.eqb 95) (str "debug-" ++ tag)) eqn:E.
    { rewrite existsb_app in E. change (existsb (Z.eqb 95) (str "debug-")) with false in E. by rewrite Hi in E. }
    change (bytes_eqb (str "debug-" ++ tag) (str "verbose")) with false. cbn iota.
    change (bytes_eqb (str "debug-" ++ tag) (str "debug")) with false. cbn iota.
    unfold starts_with. rewrite strip_prefix_app. done.
  - unfold in_table in Hi. pose proof (name_facts _ Hi) as (H1 & H2 & H3 & H4). cbn [name] in *.
    cbn [parse_loop]. change (head0 (45 :: dash n)) with 45. cbn [Z.eqb negb tail Pos.eqb].
    by rewrite dash_no_underscore, H2, H3, H4, H1.
  - unfold in_table in Hi. pose proof (name_facts _ Hi) as (H1 & H2 & H3 & H4). cbn [name] in *.
    cbn [parse_loop]. change (head0 (45 :: dash n)) with 45. cbn [Z.eqb negb tail Pos.eqb].
    by rewrite dash_no_underscore, H2, H3, H4, H1.
  - unfold in_table in Hi. pose proof (name_facts _ Hi) as (H1 & H2 & H3 & H4). cbn [name] in *.
    cbn [parse_loop]. change (head0 (45 :: dash n)) with 45. cbn [Z.eqb negb tail Pos.eqb].
    by rewrite dash_no_underscore, H2, H3, H4, H1.
Qed.

Lemma loop_stops args o : Forall c_string args -> stops args -> parse_loop tab args o = Parsed args o.
Proof.
  intros Hc Hs. destruct Hc as [|a args Ha Hc]; [done|]. destruct Hs as [H64 Hs]. cbn [parse_loop].
  rewrite (proj2 (Z.eqb_neq _ _) H64). destruct (Z.eqb_spec (head0 a) 45) as [H45|]; [|done]. cbn [negb].
  destruct Hs as [?|Hs]; [done|]. destruct (existsb (Z.eqb 95) (tail a)); [done|].
  destruct Hs as [?|(H1 & H2 & H3 & H4)]; [done|].
  destruct (bytes_eqb (tail a) (str "verbose")) eqn:E1; [by apply bytes_eqb_eq in E1|].
  destruct (bytes_eqb (tail a) (str "debug")) eqn:E2; [by apply bytes_eqb_eq in E2|].
  rewrite H3, find_arg2, H4; [done|]. destruct Ha; [constructor|done].
Qed.

Lemma loop_items items rest o :
  Forall item_ok items -> parse_loop tab ((items ≫= render) ++ rest) o = parse_loop tab rest (fold_left push_item items o).
Proof.
  intros Hi. revert o. induction Hi as [|i items Hi Hs IH]; intros o; [done|].
  rewrite bind_cons, <- app_assoc, loop_item by done. apply IH.
Qed.

(** The other direction: an argument is the head of an item, or stops. *)
Lemma loop_inv k args o rest o' :
  (length args <= k)%nat -> Forall c_string args -> parse_loop tab args o = Parsed rest o' ->
  exists items, Forall item_ok items /\ args = (items ≫= render) ++ rest /\ stops rest /\
    o' = fold_left push_item items o.
Proof.
  revert args o. induction k as [|k IH]; intros args o Hk Hc E.
  { destruct args; [|cbn in Hk; lia]. injection E as <- <-. exists []. by split_and!. }
  assert (forall i args', (length args' <= k)%nat -> Forall c_string args' -> item_ok i -> args = render i ++ args' ->
    parse_loop tab args' (push_item o i) = Parsed rest o' ->
    exists items, Forall item_ok items /\ args = (items ≫= render) ++ rest /\ stops rest /\
      o' = fold_left push_item items o) as Hitem.
  { intros i args' Hk' Hc' Hi -> E'. destruct (IH _ _ Hk' Hc' E') as (items & H1 & -> & H3 & ->).
    exists (i :: items). split_and!; [by constructor|by rewrite bind_cons, app_assoc|done|done]. }
  assert (forall args', args = args' -> stops args -> Parsed args' o = Parsed rest o' ->
    exists items, Forall item_ok items /\ args = (items ≫= render) ++ rest /\ stops rest /\
      o' = fold_left push_item items o) as Hstop.
  { intros args' <- Hs [= <- <-]. exists []. by split_and!. }
  destruct Hc as [|a aread Ha Hc]; [by eapply (Hstop [])|]. cbn [parse_loop] in E. cbn [length] in Hk.
  destruct (Z.eqb_spec (head0 a) 64) as [H64|H64].
  { destruct a as [|x a]; [done|]. cbn in H64. subst x. eapply (Hitem (IAvd a)); [..|exact E]; [lia|done|done|done]. }
  destruct (Z.eqb_spec (head0 a) 45) as [H45|H45]; cbn [negb] in E.
  2: { eapply Hstop; [done| |exact E]. split; [done|by left]. }
  destruct a as [|x a]; [done|]. cbn in H45. subst x. apply Forall_cons in Ha as [_ Ha].
  cbn [tail] in E. destruct (existsb (Z.eqb 95) a) eqn:Hu.
  { eapply Hstop; [done| |exact E]. split; [done|]. right. by left. }
  destruct (bytes_eqb a (str "verbose")) eqn:Hv.
  { apply bytes_eqb_eq in Hv as ->. eapply (Hitem IVerbose); [..|exact E]; [lia|done|done|done]. }
  destruct (bytes_eqb a (str "debug")) eqn:Hd.
  { apply bytes_eqb_eq in Hd as ->. destruct aread as [|tags aread]; [done|]. apply Forall_cons in Hc as [_ Hc].
    cbn [length] in Hk. eapply (Hitem (IDebug tags)); [..|exact E]; [lia|done|done|done]. }
  destruct (starts_with (str "debug-") a) eqn:Ht.
  { unfold starts_with in Ht. destruct (strip_prefix (str "debug-") a) as [tag|] eqn:Es; [|done].
    apply strip_prefix_Some in Es as ->. rewrite existsb_app in Hu. apply orb_false_iff in Hu as [_ Hu].
    eapply (Hitem (IDebugTag tag)); [..|exact E]; [lia|done|done|done]. }
  rewrite find_arg2 in E by done. destruct (find_option (undash a)) as [oo|] eqn:Hf.
  2: { eapply Hstop; [done| |exact E]. split; [done|]. right. right. cbn [tail].
       split_and!; [| |done|done]; intros ->; [by rewrite bytes_eqb_refl in Hv|by rewrite bytes_eqb_refl in Hd]. }
  apply find_option_name in Hf as [Hn Hin]. destruct oo as [n k0]. cbn [name var_type] in *.
  assert (45 :: a = 45 :: dash n) as Ea by (by rewrite Hn, dash_undash). rewrite Ea in *.
  destruct k0; [|destruct aread as [|v aread]; [done|]; apply Forall_cons in Hc as [_ Hc]; cbn [length] in Hk..].
  - eapply (Hitem (IFlag n)); [..|exact E]; [lia|done|done|done].
  - eapply (Hitem (IParam n v)); [..|exact E]; [lia|done|done|done].
  - eapply (Hitem (IList n v)); [..|exact E]; [lia|done|done|done].
Qed.

Lemma reverse_loop_rev prev cur : reverse_loop prev cur = rev cur ++ prev.
Proof. revert prev. induction cur as [|p cur IH]; intros prev; [done|]. cbn. by rewrite IH, <- app_assoc. Qed.

Lemma reverse_push o i : reverse_lists (push_item o i) = apply_item (reverse_lists o) i.
Proof.
  destruct i as [n| |tags|tag|n|n v|n v]; try done. unfold reverse_lists. cbn [push_item apply_item].
  unfold set_list. cbn [flags params lists verbose]. f_equal. rewrite fmap_insert. f_equal.
  rewrite lookup_fmap, reverse_loop_rev. destruct (lists o !! n) as [l|]; [|done]. cbn.
  by rewrite reverse_loop_rev, !app_nil_r.
Qed.

Lemma reverse_items items : reverse_lists (fold_left push_item items no_options) = options_of items.
Proof.
  unfold options_of. change no_options with (reverse_lists no_options) at 2. generalize no_options.
  induction items as [|i items IH]; intros o; [done|]. cbn [fold_left]. by rewrite IH, reverse_push.
Qed.
End grammar.

(** C26: The command line is a list of items and a rest: any list of items, written
    out before arguments that stop the options, is read as the options the items
    give and leaves the rest untouched; and whatever is read is such a list.  The
    parser neither loses, reorders nor invents an argument. *)
Theorem android_parse_options_grammar tab args rest o :
  zlen tab = 64 -> Forall c_string args ->
  android_parse_options tab args = Parsed rest o <->
  exists items, Forall item_ok items /\ args = (items ≫= render) ++ rest /\ stops rest /\ o = options_of items.
Proof.
  intros Htab Hc. unfold android_parse_options. split.
  - destruct (parse_loop tab args no_options) as [args' o'| |] eqn:E; [|done|done]. intros [= -> <-].
    destruct (loop_inv tab Htab (length args) args no_options rest o') as (items & H1 & H2 & H3 & ->); [done|done|done|].
    exists items. split_and!; [done..|]. apply reverse_items.
  - intros (items & Hi & -> & Hs & ->). apply Forall_app in Hc as [_ Hc].
    rewrite (loop_items tab Htab), (loop_stops tab Htab) by done. by rewrite reverse_items.
Qed.

Definition sample_args : list bytes :=
  str <$> ["@pixel"; "-no-window"; "-prop"; "a=1"; "-port"; "5556"; "-prop"; "b=2"; "-verbose"; "-debug"; "all";
           "-gpu"; "host"; "-bad_name"; "-no-sim"]%string.

Lemma android_parse_options_grammar_witness :
  exists items, Forall item_ok items /\ sample_args = (items ≫= render) ++ (str <$> ["-bad_name"; "-no-sim"]%string) /\
    lists (options_of items) !! str "prop" = Some [str "a=1"; str "b=2"].
Proof.
  destruct (android_parse_options (replicate 64 170) sample_args) as [rest o| |] eqn:E; [|by vm_compute in E..].
  assert (rest = (str <$> ["-bad_name"; "-no-sim"]%string) /\ lists o !! str "prop" = Some [str "a=1"; str "b=2"])
    as [-> Hl] by (vm_compute in E; injection E as <- <-; by vm_compute).
  apply android_parse_options_grammar in E as (items & H1 & H2 & _ & ->);
    [|done|repeat constructor; done]. exists items. by split_and!.
Defined.

(** ** Ports *)

Lemma dec_loop_head fuel n : 1 <= n < 2 ^ Z.of_nat fuel -> head0 (dec_loop fuel n) <> 48.
Proof.
  revert n. induction fuel as [|fuel IH]; intros n Hn; [cbn in Hn; lia|]. cbn [dec_loop].
  destruct (Z.ltb_spec n 10); [cbn; lia|].
  assert (1 <= n / 10 < 2 ^ Z.of_nat fuel) as Hd.
  { split; [apply Z.div_le_lower_bound; lia|]. apply Z.div_lt_upper_bound; [lia|].
    rewrite Nat2Z.inj_succ, Z.pow_succ_r in Hn by lia. lia. }
  specialize (IH (n / 10) Hd). destruct (dec_loop_spec fuel (n / 10)) as (_ & _ & Hne); [lia|lia|].
  destruct fuel as [|fuel]; [cbn in Hd; lia|]. specialize (Hne ltac:(lia)).
  destruct (dec_loop (S fuel) (n / 10)); [done|exact IH].
Qed.

Lemma to_string_head n : 1 <= n -> head0 (to_string n) <> 48.
Proof.
  intros Hn. unfold to_string. rewrite (proj2 (Z.ltb_ge n 0)) by lia. apply dec_loop_head. split; [lia|].
  pose proof (Z.log2_spec n ltac:(lia)). pose proof (Z.log2_nonneg n).
  replace (Z.of_nat (Z.to_nat (Z.log2 n) + 1)) with (Z.succ (Z.log2 n)) by lia. lia.
Qed.

Lemma digit_value c : is_digit c = true -> hexdigit c = c - 48 /\ base_digit 10 c = true.
Proof.
  unfold is_digit. intros [H1%Z.leb_le H2%Z.leb_le]%andb_true_iff.
  assert (hexdigit c = c - 48) as E.
  { unfold hexdigit. rewrite wrap_small by (unfold in_u; lia). by rewrite (proj2 (Z.ltb_lt _ _)) by lia. }
  split; [done|]. unfold base_digit. rewrite E, (proj2 (Z.leb_le 0 _)), (proj2 (Z.ltb_lt _ _)) by lia. done.
Qed.

Lemma digits_value_hex ds a :
  Forall (fun c => is_digit c = true) ds ->
  fold_left (fun acc c => acc * 10 + hexdigit c) ds a = fold_left (fun acc c => acc * 10 + (c - 48)) ds a.
Proof.
  intros Hd. revert a. induction Hd as [|c ds Hc Hd IH]; intros a; [done|]. cbn [fold_left].
  by rewrite (proj1 (digit_value c Hc)), IH.
Qed.

Lemma strtol0_to_string n rest :
  1 <= n < 2 ^ 63 -> match rest with [] => True | c :: _ => base_digit 10 c = false end ->
  strtol0 (to_string n ++ rest) = (n, false, rest).
Proof.
  intros Hn Hr. destruct (to_string_nonneg n) as (Hd & Hv & Hne); [lia|]. pose proof (to_string_head n ltac:(lia)) as Hh.
  destruct (to_string n) as [|c ds]; [done|]. cbn [head0] in Hh. pose proof (Forall_inv Hd) as Hc.
  destruct (is_digit_not_space c Hc) as (Hs & H45 & H43). unfold strtol0. cbn [app span]. rewrite Hs. cbn [snd].
  rewrite (proj2 (Z.eqb_neq _ _) H45), (proj2 (Z.eqb_neq _ _) H43).
  assert ((match c :: ds ++ rest with
           | 48 :: x :: d :: s3 =>
               if ((x =? 120) || (x =? 88)) && base_digit 16 d then (16, d :: s3) else (8, c :: ds ++ rest)
           | 48 :: _ => (8, c :: ds ++ rest)
           | _ => (10, c :: ds ++ rest)
           end) = (10, c :: ds ++ rest)) as ->.
  { destruct c as [|p|p]; try done. do 6 (destruct p as [p|p|]; try done). }
  change (c :: ds ++ rest) with ((c :: ds) ++ rest). rewrite span_all; [| |done].
  2: { eapply Forall_impl; [exact Hd|]. intros x Hx. by apply digit_value. }
  rewrite zlen_cons. pose proof (zlen_nonneg ds). rewrite (proj2 (Z.eqb_neq _ _)) by lia.
  rewrite digits_value_hex by done. fold (digits_value (c :: ds)). rewrite Hv. cbv iota.
  rewrite (proj2 (Z.ltb_ge n _)), (proj2 (Z.ltb_ge _ n)) by lia. done.
Qed.

Lemma to_string_c_string n : 0 <= n -> c_string (to_string n).
Proof.
  intros Hn. destruct (to_string_nonneg n Hn) as (Hd & _). eapply Forall_impl; [exact Hd|].
  intros c Hc ->. done.
Qed.

(** The ports that are accepted: what is written for ports in the range is read
    as the ports, and no other number comes out, but for the adb port behind the
    last console port, which is one too large. *)
Theorem port_options_range p q :
  (1 <= p <= UINT16_MAX -> android_parse_port_option (Some (to_string p)) = Some (p, p + 1)) /\
  (1 <= p <= UINT16_MAX -> 1 <= q <= UINT16_MAX ->
   android_parse_ports_option (Some (to_string p ++ 44 :: to_string q)) = if p =? q then None else Some (p, q)) /\
  (forall s, android_parse_port_option (Some s) = Some (p, q) -> 1 <= p <= UINT16_MAX /\ q = p + 1) /\
  (forall s, android_parse_ports_option (Some s) = Some (p, q) ->
     1 <= p <= UINT16_MAX /\ 1 <= q <= UINT16_MAX /\ p <> q).
Proof.
  unfold UINT16_MAX. split_and!.
  - intros Hp. cbn [android_parse_port_option mbind option_bind]. unfold one_port.
    rewrite c_str_id by (apply to_string_c_string; lia).
    rewrite <- (app_nil_r (to_string p)), strtol0_to_string by lia || done.
    rewrite swrap_small by (unfold in_s; lia). unfold UINT16_MAX.
    rewrite (proj2 (Z.ltb_ge p 1)), (proj2 (Z.ltb_ge _ p)) by lia. done.
  - intros Hp Hq. cbn [android_parse_ports_option mbind option_bind].
    rewrite c_str_id by (apply Forall_app; split; [|constructor; [done|]]; apply to_string_c_string; lia).
    rewrite strtol0_to_string by lia || done. rewrite swrap_small by (unfold in_s; lia). unfold UINT16_MAX.
    rewrite (proj2 (Z.ltb_ge p 1)), (proj2 (Z.ltb_ge _ p)) by lia. cbn [head0 Z.eqb Pos.eqb negb orb tail].
    rewrite <- (app_nil_r (to_string q)), strtol0_to_string by lia || done.
    rewrite swrap_small by (unfold in_s; lia).
    rewrite (proj2 (Z.ltb_ge q 1)), (proj2 (Z.ltb_ge _ q)) by lia. done.
  - intros s. cbn [android_parse_port_option mbind option_bind]. unfold one_port, UINT16_MAX.
    destruct (strtol0 (c_str s)) as [[v err] e]. destruct (negb _ || err); [done|].
    cbn [orb]. destruct (Z.ltb_spec (s32 v) 1), (Z.ltb_spec 65535 (s32 v)); try done. intros [= <- <-]. lia.
  - intros s. cbn [android_parse_ports_option mbind option_bind]. unfold UINT16_MAX.
    destruct (strtol0 (c_str s)) as [[v err] e]. destruct (negb _); [done|]. cbn [orb].
    destruct (Z.ltb_spec (s32 v) 1), (Z.ltb_spec 65535 (s32 v)); try done. cbn [orb].
    destruct (strtol0 (tail e)) as [[v2 err2] e2]. destruct (negb _); [done|]. cbn [orb].
    destruct (Z.ltb_spec (s32 v2) 1), (Z.ltb_spec 65535 (s32 v2)); try done. cbn [orb].
    destruct (Z.eqb_spec (s32 v) (s32 v2)); [done|]. intros [= <- <-]. lia.
Qed.

(** A number whose low 32 bits are a port is taken for the port, and the adb port
    of the last port is no port. *)
Theorem port_option_truncates :
  android_parse_port_option (Some (str "4294967297")) = Some (1, 2) /\
  android_parse_ports_option (Some (str "4294972850,0x115b3")) = None /\
  android_parse_ports_option (Some (str "4294972850,0x1000015b3")) = Some (5554, 5555) /\
  android_parse_port_option (Some (str "65535")) = Some (65535, 65536).
Proof. vm_compute. repeat split. Qed.



(** ** The user mode network *)

Fixpoint join_commas (ls : list bytes) : bytes :=
  match ls with [] => [] | [l] => l | l :: ls => l ++ 44 :: join_commas ls end.

Lemma comma_lines_join fuel ls :
  Forall (fun l => Forall (fun c => c <> 44) l /\ l <> []) ls -> (length (join_commas ls) <= fuel)%nat ->
  comma_lines fuel (join_commas ls) = ls.
Proof.
  intros Hl. revert fuel. induction Hl as [|l ls [Hc Hne] Hl IH]; intros fuel Hf; [by destruct fuel|].
  destruct ls as [|l2 ls].
  - cbn [join_commas] in *. destruct l as [|c l]; [done|]. destruct fuel as [|fuel]; [cbn in Hf; lia|].
    cbn [comma_lines]. by rewrite (proj2 (split_at_None _ _) Hc).
  - change (join_commas (l :: l2 :: ls)) with (l ++ 44 :: join_commas (l2 :: ls)) in *.
    rewrite length_app in Hf. cbn [length] in Hf. destruct fuel as [|fuel]; [lia|].
    destruct (l ++ 44 :: join_commas (l2 :: ls)) as [|c r] eqn:E; [by destruct l|].
    cbn [comma_lines]. rewrite <- E, split_at_app by done. by rewrite IH by lia.
Qed.

Lemma valid_line_spec line :
  c_string line ->
  valid_line line = true <-> exists k v, line = k ++ 61 :: v /\ k ∈ kUserModeNetworkingOpts /\ v <> [].
Proof.
  intros Hl. unfold valid_line. split.
  - destruct (split_at 61 line) as [[k v]|] eqn:E; [|done]. apply split_at_Some in E as [-> Hk].
    apply Forall_app in Hl as [Hk0 _]. destruct v as [|c v]; [done|].
    destruct (_ =? 0); [done|]. rewrite existsb_exists. intros (opt & Hin & Heq%bytes_eqb_eq).
    rewrite c_str_id in Heq by done. subst opt. exists k, (c :: v). split_and!; [done| |done]. by apply list_elem_of_In.
  - intros (k & v & -> & Hk & Hv).
    assert (Forall (fun c => c <> 61) k) as H61.
    { assert (forallb (forallb (fun c => negb (c =? 61))) kUserModeNetworkingOpts = true) as H by (vm_compute; done).
      rewrite forallb_forall in H. specialize (H k ltac:(by apply list_elem_of_In)). apply Forall_forall.
      intros c Hc. rewrite forallb_forall in H. specialize (H c ltac:(by apply list_elem_of_In)).
      by apply negb_true_iff, Z.eqb_neq in H. }
    rewrite split_at_app by done. destruct v as [|c v]; [done|]. rewrite zlen_cons. pose proof (zlen_nonneg v).
    rewrite (proj2 (Z.eqb_neq _ _)) by lia. apply existsb_exists. exists k. split; [by apply list_elem_of_In|].
    apply Forall_app in Hl as [Hl _]. rewrite c_str_id by done. apply bytes_eqb_refl.
Qed.

(** A network option is valid when each of its parts between commas sets one of
    the permitted names to a value that is not empty. *)
Theorem network_option_valid ls :
  Forall (fun l => c_string l /\ Forall (fun c => c <> 44) l /\ l <> []) ls ->
  android_validate_user_mode_networking_option (join_commas ls) = true <->
  Forall (fun line => exists k v, line = k ++ 61 :: v /\ k ∈ kUserModeNetworkingOpts /\ v <> []) ls.
Proof.
  intros Hl. unfold android_validate_user_mode_networking_option.
  assert (c_string (join_commas ls)) as Hc.
  { clear -Hl. induction Hl as [|l ls [Hc _] Hl IH]; [constructor|]. destruct ls as [|l2 ls]; [done|].
    change (c_string (l ++ 44 :: join_commas (l2 :: ls))). apply Forall_app. split; [done|]. by constructor. }
  rewrite c_str_id, comma_lines_join by (done || (eapply Forall_impl; [exact Hl|]; by intros l (_ & ? & ?))).
  rewrite forallb_forall, Forall_forall. split; intros H line Hin.
  - apply valid_line_spec; [|by apply H, list_elem_of_In]. rewrite Forall_forall in Hl. by apply Hl.
  - apply list_elem_of_In in Hin. apply valid_line_spec; [|by apply H]. rewrite Forall_forall in Hl. by apply Hl.
Qed.

Lemma network_option_valid_witness :
  android_validate_user_mode_networking_option (str "ipv6=off,host=10.4.4.7") = true.
Proof.
  apply (network_option_valid [str "ipv6=off"; str "host=10.4.4.7"]).
  - repeat constructor; done.
  - constructor; [exists (str "ipv6"), (str "off")|constructor; [exists (str "host"), (str "10.4.4.7")|constructor]];
      (split; [done|]; split; [by apply (bool_decide_unpack _); vm_compute|done]).
Defined.
