(* ===== verification/StorageCapacity.v ===== *)
(** * Storage capacities

    Models [android/system]'s [storage_capacity.h] and [storage_capacity.cpp]: sizes
    of files and disks in 64 bit unsigned integers, their arithmetic, parsing and
    printing. *)

From S2P Require Import Prelude CText.

(** A capacity is its number of bytes. *)
Abbreviation capacity := Z.

Inductive Unit_ := B | KiB | MiB | GiB | TiB.

Definition StorageCapacity (bytes : Z) (unit : Unit_) : capacity :=
  match unit with
  | B => bytes
  | KiB => u64 (bytes * 1024)
  | MiB => u64 (bytes * 1024 * 1024)
  | GiB => u64 (bytes * 1024 * 1024 * 1024)
  | TiB => u64 (bytes * 1024 * 1024 * 1024 * 1024)
  end.

(** [None] is the division by zero. *)
Definition align (c a : capacity) : option capacity :=
  if a =? 0 then None else Some (u64 (u64 (c + a - 1) / a * a)).

Definition cap_mul (c scalar : Z) : capacity := u64 (c * scalar).
Definition cap_add (c rhs : capacity) : capacity := u64 (c + rhs).
Definition cap_sub (c rhs : capacity) : capacity := u64 (c - rhs).
Definition to_int (c : capacity) : Z := s32 c.
Definition to_long (c : capacity) : Z := s64 c.

(** ** Parsing *)

Inductive parse_error := InvalidNumber | OutOfRange | UnknownLabel.

(** [std::from_chars] of an unsigned 64 bit number in base 10. *)
Definition from_chars (s : bytes) : Z * bytes + parse_error :=
  let '(ds, rest) := span is_digit s in
  if zlen ds =? 0 then inr InvalidNumber
  else if 2 ^ 64 <=? digits_value ds then inr OutOfRange
  else inl (digits_value ds, rest).

(** The factor of a letter. *)
Definition label (c : Z) : option Z :=
  if (c =? 107) || (c =? 75) then Some 1024
  else if (c =? 109) || (c =? 77) then Some (1024 * 1024)
  else if (c =? 103) || (c =? 71) then Some (1024 * 1024 * 1024)
  else if (c =? 116) || (c =? 84) then Some (1024 * 1024 * 1024 * 1024)
  else None.

Definition parseFromString (s : bytes) : Z + parse_error :=
  match from_chars s with
  | inr e => inr e
  | inl (result, []) => inl result
  | inl (result, c :: _) => match label c with Some k => inl (u64 (result * k)) | None => inr UnknownLabel end
  end.

Definition parse (s : bytes) : capacity + parse_error := parseFromString s.

(** ** Printing

    The number of bytes is converted to a [double]; divisions by powers of two are
    exact; [%.2f] rounds to the nearest hundredth, ties to even. *)

(** [n / d] rounded to an integer, ties to even. *)
Definition round_even (n d : Z) : Z :=
  let q := n / d in
  let r := n mod d in
  if 2 * r <? d then q else if d <? 2 * r then q + 1 else if Z.even q then q else q + 1.

(** The nearest number with 53 bits. *)
Definition to_double (n : Z) : Z :=
  let e := Z.max 0 (Z.log2 n - 52) in
  round_even n (2 ^ e) * 2 ^ e.

(** Two digits. *)
Definition two_digits (n : Z) : bytes := [48 + n / 10; 48 + n mod 10].

Definition hundredths (h : Z) : bytes := to_string (h / 100) ++ [46] ++ two_digits (h mod 100).

Definition string (c : capacity) : bytes :=
  let value := to_double c in
  if 2 ^ 40 <=? value then hundredths (round_even (value * 100) (2 ^ 40)) ++ str " TiB"
  else if 2 ^ 30 <=? value then hundredths (round_even (value * 100) (2 ^ 30)) ++ str " GiB"
  else if 2 ^ 20 <=? value then hundredths (round_even (value * 100) (2 ^ 20)) ++ str " MiB"
  else if 2 ^ 10 <=? value then hundredths (round_even (value * 100) (2 ^ 10)) ++ str " KiB"
  else to_string value ++ str " B".

(** ** What parsing gives *)

Definition digits (s : bytes) : Prop := Forall (fun c => is_digit c = true) s.

Lemma from_chars_digits ds rest :
  digits ds -> ds <> [] -> match rest with [] => True | c :: _ => is_digit c = false end ->
  from_chars (ds ++ rest) = if 2 ^ 64 <=? digits_value ds then inr OutOfRange else inl (digits_value ds, rest).
Proof.
  intros Hd Hne Hr. unfold from_chars. rewrite span_all by done. destruct ds as [|c ds]; [done|].
  rewrite zlen_cons. pose proof (zlen_nonneg ds). rewrite (proj2 (Z.eqb_neq _ _)) by lia. done.
Qed.

Lemma label_not_digit c k : label c = Some k -> is_digit c = false.
Proof.
  unfold label, is_digit. intros H. apply andb_false_iff. right. apply Z.leb_gt.
  repeat (case_match; [rewrite orb_true_iff, !Z.eqb_eq in *; lia|]). done.
Qed.

(** The size written with a letter is read as the product, whatever follows the
    letter, as long as the product fits 64 bits: a larger one is reduced without
    an error.  A number that does not fit is refused. *)
Theorem parse_number n c k rest :
  0 <= n ->
  parse (to_string n) = (if 2 ^ 64 <=? n then inr OutOfRange else inl n) /\
  (label c = Some k ->
   parse (to_string n ++ c :: rest) = if 2 ^ 64 <=? n then inr OutOfRange else inl (u64 (n * k))).
Proof.
  intros Hn. destruct (to_string_nonneg n Hn) as (Hd & Hv & Hne). unfold parse, parseFromString. split.
  - rewrite <- (app_nil_r (to_string n)), from_chars_digits, Hv by done. by destruct (2 ^ 64 <=? n).
  - intros Hk. rewrite from_chars_digits, Hv; [|done|done|by eapply label_not_digit].
    destruct (2 ^ 64 <=? n); [done|]. by rewrite Hk.
Qed.

Lemma parse_number_witness :
  parse (to_string 8 ++ 107 :: str "b") = inl 8192 /\ parse (to_string 16777216 ++ [116]) = inl 0.
Proof.
  split.
  - rewrite (proj2 (parse_number 8 107 1024 (str "b") ltac:(lia)) eq_refl). reflexivity.
  - rewrite (proj2 (parse_number 16777216 116 (1024 * 1024 * 1024 * 1024) [] ltac:(lia)) eq_refl). reflexivity.
Defined.

(** ** Alignment *)

(** Aligning gives the least multiple that is large enough, while it fits. *)
Theorem align_least c a :
  0 <= c -> 0 < a -> c + a - 1 < 2 ^ 64 ->
  exists r, align c a = Some r /\ (a | r) /\ c <= r < c + a /\ forall m, (a | m) -> c <= m -> r <= m.
Proof.
  intros Hc Ha Hmax. unfold align. rewrite (proj2 (Z.eqb_neq a 0)) by lia.
  rewrite (wrap_small _ (c + a - 1)) by (unfold in_u; lia).
  pose proof (Z.mul_div_le (c + a - 1) a Ha). pose proof (Z.mul_succ_div_gt (c + a - 1) a Ha).
  assert (0 <= (c + a - 1) / a) by (apply Z.div_pos; lia).
  exists ((c + a - 1) / a * a). rewrite wrap_small by (unfold in_u; nia).
  split; [done|]. split; [by apply Z.divide_factor_r|]. split; [nia|].
  intros m [q ->] Hm. apply Z.mul_le_mono_nonneg_r; [lia|].
  apply Z.lt_succ_r. apply Z.div_lt_upper_bound; [lia|]. nia.
Qed.

Lemma align_least_witness :
  exists r, align 1500 1024 = Some r /\ (1024 | r) /\ 1500 <= r < 1500 + 1024 /\ forall m, (1024 | m) -> 1500 <= m -> r <= m.
Proof. apply (align_least 1500 1024); lia. Defined.

(** ** Printing *)

Lemma round_even_near n d : 0 < d -> 2 * Z.abs (round_even n d * d - n) <= d.
Proof.
  intros Hd. unfold round_even. pose proof (Z.div_mod n d ltac:(lia)). pose proof (Z.mod_pos_bound n d Hd).
  destruct (Z.ltb_spec (2 * (n mod d)) d); [nia|]. destruct (Z.ltb_spec d (2 * (n mod d))); [nia|].
  destruct (Z.even (n / d)); nia.
Qed.

Lemma to_double_exact n : 0 <= n < 2 ^ 53 -> to_double n = n.
Proof.
  intros Hn. unfold to_double. assert (Z.log2 n < 53) as Hl.
  { destruct (Z.eq_dec n 0) as [->|]; [done|]. apply Z.log2_lt_pow2; lia. }
  replace (Z.max 0 (Z.log2 n - 52)) with 0 by lia. change (2 ^ 0) with 1. unfold round_even.
  rewrite Z.div_1_r, Z.mod_1_r. change (2 * 0 <? 1) with true. cbv iota. lia.
Qed.

(** The unit and the number of hundredths a capacity is printed with. *)
Definition shown (c : capacity) : option (Z * Unit_) :=
  if 2 ^ 40 <=? c then Some (round_even (c * 100) (2 ^ 40), TiB)
  else if 2 ^ 30 <=? c then Some (round_even (c * 100) (2 ^ 30), GiB)
  else if 2 ^ 20 <=? c then Some (round_even (c * 100) (2 ^ 20), MiB)
  else if 2 ^ 10 <=? c then Some (round_even (c * 100) (2 ^ 10), KiB)
  else None.

Definition unit_size (u : Unit_) : Z :=
  match u with B => 1 | KiB => 2 ^ 10 | MiB => 2 ^ 20 | GiB => 2 ^ 30 | TiB => 2 ^ 40 end.
Definition unit_name (u : Unit_) : bytes :=
  match u with B => str " B" | KiB => str " KiB" | MiB => str " MiB" | GiB => str " GiB" | TiB => str " TiB" end.

(** Below 2^53 bytes the text is the exact number of bytes or the number of
    hundredths of the unit nearest to it, and the number shown is at least one
    unit. *)
Theorem string_nearest c :
  0 <= c < 2 ^ 53 ->
  string c = (match shown c with Some (h, u) => hundredths h ++ unit_name u | None => to_string c ++ str " B" end) /\
  (match shown c with
   | Some (h, u) => 2 * Z.abs (h * unit_size u - c * 100) <= unit_size u /\ 100 <= h
   | None => c < 1024
   end).
Proof.
  intros Hc. unfold string, shown. rewrite to_double_exact by done. split.
  { repeat case_match; congruence || done. }
  assert (forall u, 2 ^ 10 <= unit_size u -> unit_size u <= c ->
    2 * Z.abs (round_even (c * 100) (unit_size u) * unit_size u - c * 100) <= unit_size u /\
    100 <= round_even (c * 100) (unit_size u)) as H.
  { intros u Hu Hle. pose proof (round_even_near (c * 100) (unit_size u) ltac:(lia)) as Hn. split; [done|]. nia. }
  destruct (Z.leb_spec (2 ^ 40) c); [by apply (H TiB)|]. destruct (Z.leb_spec (2 ^ 30) c); [by apply (H GiB)|].
  destruct (Z.leb_spec (2 ^ 20) c); [by apply (H MiB)|]. destruct (Z.leb_spec (2 ^ 10) c); [by apply (H KiB)|].
  lia.
Qed.

Lemma string_nearest_witness : string 1536 = str "1.50 KiB" /\ string 1048575 = str "1024.00 KiB".
Proof.
  destruct (string_nearest 1536 ltac:(lia)) as [H1 _]. destruct (string_nearest 1048575 ltac:(lia)) as [H2 _].
  split; [rewrite H1|rewrite H2]; vm_compute; reflexivity.
Defined.
