(* ===== verification/Bootconfig.v ===== *)
(** * The boot configuration of the guest

    Models [emulator/launcher/src/android/goldfish/bootconfig.cpp] and the
    parameters of [devices/initrd_device.cpp]: the ramdisk image with the boot
    configuration behind it.  The specification is how the kernel of the guest
    takes it from the end of the image (Documentation/admin-guide/bootconfig). *)

From S2P Require Import Prelude CText.

(** ** The blob *)

Definition kBootconfigMagic : bytes := str "#BOOTCONFIG" ++ [10].
Definition kBootconfigAlign : Z := 4.

Definition host2le32 (v32 : Z) : bytes :=
  [v32 mod 256; Z.shiftr v32 8 mod 256; Z.shiftr v32 16 mod 256; Z.shiftr v32 24 mod 256].

Fixpoint flatten_lines (bootconfig : list (bytes * bytes)) : bytes :=
  match bootconfig with
  | [] => []
  | (k, v) :: bootconfig => k ++ [61; 34] ++ v ++ [34; 10] ++ flatten_lines bootconfig
  end.

Definition flattenBootconfig (bootconfig : list (bytes * bytes)) : bytes := flatten_lines bootconfig ++ [0].

(** The sum of the bytes; each is a [char] made unsigned again. *)
Definition csum (blob : bytes) : Z := fold_left (fun z c => u32 (z + c)) blob 0.

Definition pad_blob (srcSize : Z) (blob : bytes) : bytes :=
  let unaligned := u64 (srcSize + zlen blob) mod kBootconfigAlign in
  if unaligned =? 0 then blob else blob ++ replicate (Z.to_nat (kBootconfigAlign - unaligned)) 43.

Definition buildBootconfigBlob (srcSize : Z) (bootconfig : list (bytes * bytes)) : bytes :=
  let blob := pad_blob srcSize (flattenBootconfig bootconfig) in
  blob ++ host2le32 (u32 (zlen blob)) ++ host2le32 (csum blob) ++ kBootconfigMagic.

(** ** The files

    A source is what the calls of [fread] give, one after the other, and the error
    flag at its end.  A destination is a stream over a disk with room for a
    number of bytes; [buffered] was taken by [fwrite] and not yet given to the
    disk. *)

Record out := { written : bytes; buffered : bytes; room : Z }.

Definition opened (r : Z) : out := {| written := []; buffered := []; room := r |}.

(** Giving bytes to the disk, which takes what it has room for; the flag is
    false when it does not take all. *)
Definition to_disk (data : bytes) (dst : out) : bool * out :=
  let k := Z.min (zlen data) (Z.max 0 (room dst)) in
  (k =? zlen data,
   {| written := written dst ++ take (Z.to_nat k) data; buffered := []; room := room dst - k |}).

Section files.
(** The error flag of a file after a short write, and how many of the bytes it
    has the library holds back in its buffer when [fwrite] returns. *)
Context (ferror : Z) (hold : bytes -> Z).

(** The number of bytes taken: all of them, or those the disk had room for
    behind the ones held back before. *)
Definition fwrite (data : bytes) (dst : out) : Z * out :=
  if zlen data =? 0 then (0, dst)
  else
    let all := buffered dst ++ data in
    let k := Z.to_nat (zlen all - hold all) in
    let '(ok, dst') := to_disk (take k all) dst in
    if ok then (zlen data, {| written := written dst'; buffered := drop k all; room := room dst' |})
    else (Z.max 0 (room dst - zlen (buffered dst)), dst').

(** Zero when the rest reaches the disk. *)
Definition fclose (dst : out) : Z * out :=
  let '(ok, dst) := to_disk (buffered dst) dst in (if ok then 0 else -1, dst).

Fixpoint copyFile (chunks : list bytes) (src_error sz : Z) (dst : out) : Z * Z * out :=
  match chunks with
  | [] => (src_error, sz, dst)
  | chunk :: chunks =>
      let '(szW, dst) := fwrite chunk dst in
      if zlen chunk =? szW then copyFile chunks src_error (u64 (sz + zlen chunk)) dst
      else (ferror, sz, dst)
  end.

Definition appendBootconfig (srcSize : Z) (bootconfig : list (bytes * bytes)) (dst : out) : Z * out :=
  let blob := buildBootconfigBlob srcSize bootconfig in
  let '(szW, dst) := fwrite blob dst in
  if zlen blob =? szW then (0, dst) else (ferror, dst).

(** A file that cannot be opened is [None].  The files are closed by their
    deleters, which drop what [fclose] returns. *)
Definition createRamdiskWithBootconfig (src : option (list bytes * Z)) (dst : option out)
    (bootconfig : list (bytes * bytes)) : Z * option out :=
  match src, dst with
  | None, _ => (1, None)
  | Some _, None => (1, None)
  | Some (chunks, src_error), Some dst =>
      let '(code, dst) :=
        let '(err, sz, dst) := copyFile chunks src_error 0 dst in
        if negb (err =? 0) then (err, dst) else appendBootconfig sz bootconfig dst in
      (code, Some (snd (fclose dst)))
  end.
End files.

(** ** The kernel *)

(** The configuration at the end of the image: the magic, the checksum and the size
    before it, and the bytes they speak of. *)
Definition kernel_bootconfig (initrd : bytes) : option bytes :=
  let hdr := zlen initrd - 20 in
  if hdr <? 0 then None
  else
    let tail := drop (Z.to_nat hdr) initrd in
    let size := le_value (take 4 tail) in
    if negb (bytes_eqb (drop 8 tail) kBootconfigMagic) then None
    else if hdr <? size then None
    else
      let data := take (Z.to_nat size) (drop (Z.to_nat (hdr - size)) initrd) in
      if csum data =? le_value (take 4 (drop 4 tail)) then Some data else None.

(** The text up to its terminator, as lines [key="value"]. *)
Fixpoint kernel_parse (fuel : nat) (s : bytes) : option (list (bytes * bytes)) :=
  match fuel, s with
  | _, 0 :: _ => Some []
  | S fuel, _ =>
      match split_at 61 s with
      | Some (k, 34 :: s) =>
          match split_at 34 s with
          | Some (v, 10 :: s) => kvs ← kernel_parse fuel s; Some ((k, v) :: kvs)
          | _ => None
          end
      | _ => None
      end
  | _, _ => None
  end.

(** ** Lemmas *)

Lemma host2le32_value v : in_u 32 v -> le_value (host2le32 v) = v.
Proof.
  intros Hv. assert (host2le32 v = le_bytes 4 v) as ->.
  { unfold host2le32. rewrite !Z.shiftr_div_pow2 by lia.
    change (2 ^ 16) with (2 ^ 8 * 2 ^ 8). change (2 ^ 24) with (2 ^ 8 * 2 ^ 8 * 2 ^ 8).
    by rewrite <- !Z.div_div by lia. }
  by apply le_value_bytes.
Qed.

Lemma csum_range blob : 0 <= csum blob < 2 ^ 32.
Proof.
  unfold csum. assert (forall z, 0 <= z < 2 ^ 32 -> 0 <= fold_left (fun z c => u32 (z + c)) blob z < 2 ^ 32) as H.
  { induction blob as [|c blob IH]; intros z Hz; [done|]. cbn [fold_left]. apply IH. unfold wrap. by apply Z.mod_pos_bound. }
  apply H. lia.
Qed.

Lemma flatten_zlen bootconfig : 0 < zlen (flattenBootconfig bootconfig).
Proof. unfold flattenBootconfig. rewrite zlen_app. pose proof (zlen_nonneg (flatten_lines bootconfig)). change (zlen [0]) with 1. lia. Qed.

(** The padding: at most three bytes behind the text. *)
Lemma pad_blob_spec srcSize blob :
  0 <= srcSize -> srcSize + zlen blob < 2 ^ 64 ->
  exists k, (k < 4)%nat /\ pad_blob srcSize blob = blob ++ replicate k 43 /\
    (srcSize + zlen (pad_blob srcSize blob)) mod 4 = 0.
Proof.
  intros Hs Hb. pose proof (zlen_nonneg blob). unfold pad_blob, kBootconfigAlign.
  rewrite wrap_small by (unfold in_u; lia). set (m := (srcSize + zlen blob) mod 4).
  pose proof (Z.mod_pos_bound (srcSize + zlen blob) 4 ltac:(lia)) as Hm. fold m in Hm.
  destruct (Z.eqb_spec m 0) as [E|Hne].
  - exists 0%nat. split; [lia|]. by rewrite app_nil_r.
  - exists (Z.to_nat (4 - m)). split; [lia|]. split; [done|]. rewrite zlen_app, zlen_replicate, Z2Nat.id by lia.
    replace (srcSize + (zlen blob + (4 - m))) with ((srcSize + zlen blob - m) + 1 * 4) by lia.
    rewrite Z_mod_plus_full. unfold m. by rewrite Zminus_mod, Zmod_mod, Z.sub_diag.
Qed.

Lemma kernel_bootconfig_blob src blob :
  zlen blob < 2 ^ 32 ->
  kernel_bootconfig (src ++ blob ++ host2le32 (u32 (zlen blob)) ++ host2le32 (csum blob) ++ kBootconfigMagic) = Some blob.
Proof.
  intros Hb. pose proof (zlen_nonneg blob). pose proof (zlen_nonneg src). rewrite wrap_small by (unfold in_u; lia).
  set (tl := host2le32 (zlen blob) ++ host2le32 (csum blob) ++ kBootconfigMagic).
  assert (zlen tl = 20) as Htl by done.
  unfold kernel_bootconfig. rewrite app_assoc, (zlen_app (src ++ blob)), Htl.
  replace (zlen (src ++ blob) + 20 - 20) with (zlen (src ++ blob)) by lia.
  pose proof (zlen_nonneg (src ++ blob)). rewrite (proj2 (Z.ltb_ge _ _)) by lia.
  assert (drop (Z.to_nat (zlen (src ++ blob))) ((src ++ blob) ++ tl) = tl) as ->
    by (unfold zlen; rewrite Nat2Z.id; apply drop_app_length).
  change (take 4 tl) with (host2le32 (zlen blob)). change (take 4 (drop 4 tl)) with (host2le32 (csum blob)).
  change (drop 8 tl) with kBootconfigMagic. rewrite bytes_eqb_refl. cbn [negb].
  rewrite !host2le32_value by (unfold in_u; lia || apply csum_range).
  rewrite zlen_app in *. rewrite (proj2 (Z.ltb_ge _ _)) by lia.
  replace (zlen src + zlen blob - zlen blob) with (zlen src) by lia.
  assert (take (Z.to_nat (zlen blob)) (drop (Z.to_nat (zlen src)) ((src ++ blob) ++ tl)) = blob) as ->.
  { unfold zlen. rewrite !Nat2Z.id, <- app_assoc, drop_app_length. apply take_app_length. }
  by rewrite Z.eqb_refl.
Qed.

(** What can be written as it is: keys without an equals sign, values without a
    quote. *)
Definition plain_pair (kv : bytes * bytes) : Prop :=
  Forall (fun c => c <> 61 /\ c <> 0) (fst kv) /\ Forall (fun c => c <> 34) (snd kv).

Lemma kernel_parse_flat fuel bootconfig rest :
  Forall plain_pair bootconfig -> (length bootconfig < fuel)%nat ->
  kernel_parse fuel (flatten_lines bootconfig ++ 0 :: rest) = Some bootconfig.
Proof.
  intros Hp. revert fuel. induction Hp as [|[k v] bootconfig [Hk Hv] Hp IH]; intros fuel Hf.
  - by destruct fuel.
  - destruct fuel as [|fuel]; [lia|]. cbn [length] in Hf. cbn [flatten_lines fst snd] in *.
    rewrite <- !app_assoc. cbn [app].
    assert (forall s, kernel_parse (S fuel) (k ++ 61 :: 34 :: s) =
      match split_at 34 s with
      | Some (v, 10 :: s) => kvs ← kernel_parse fuel s; Some ((k, v) :: kvs)
      | _ => None
      end) as E.
    { intros s. assert (split_at 61 (k ++ 61 :: 34 :: s) = Some (k, 34 :: s)) as Es
        by (apply split_at_app; eapply Forall_impl; [exact Hk|]; by intros c [? _]).
      destruct k as [|c k]; cbn [app] in *; cbn [kernel_parse]; rewrite Es; [done|].
      apply Forall_cons in Hk as [[_ H0] _]. by destruct c. }
    rewrite E, split_at_app by done. rewrite IH by lia. done.
Qed.

(** ** The image *)

Lemma to_disk_fits data dst :
  zlen data <= room dst ->
  to_disk data dst = (true, {| written := written dst ++ data; buffered := []; room := room dst - zlen data |}).
Proof.
  intros Hle. unfold to_disk. pose proof (zlen_nonneg data). rewrite Z.min_l by lia.
  rewrite Z.eqb_refl. unfold zlen at 1. by rewrite Nat2Z.id, firstn_all.
Qed.

Lemma to_disk_short data dst : 0 <= room dst < zlen data -> fst (to_disk data dst) = false.
Proof. intros Hr. unfold to_disk. cbn [fst]. apply Z.eqb_neq. lia. Qed.

(** What a stream has been given: on the disk and in the buffer. *)
Definition given (dst : out) : bytes := written dst ++ buffered dst.
(** The size of the disk. *)
Definition disk_size (dst : out) : Z := zlen (written dst) + room dst.
Lemma opened_size r : disk_size (opened r) = r.
Proof. done. Qed.

Section image.
Context (ferror : Z) (Hferror : ferror <> 0).
Context (hold : bytes -> Z) (Hhold : forall b, 0 <= hold b <= zlen b).

(** [fwrite] takes everything, or there is no room for all that was given. *)
Lemma fwrite_spec data dst :
  0 <= room dst ->
  let '(k, dst') := fwrite hold data dst in
  (k = zlen data /\ given dst' = given dst ++ data /\ disk_size dst' = disk_size dst /\ 0 <= room dst') \/
  (k <> zlen data /\ disk_size dst < zlen (given dst ++ data)).
Proof.
  intros Hr. unfold fwrite, given, disk_size. destruct (Z.eqb_spec (zlen data) 0) as [E|E].
  { left. destruct data; [|by rewrite zlen_cons in E; pose proof (zlen_nonneg data); lia]. by rewrite app_nil_r. }
  set (all := buffered dst ++ data). pose proof (Hhold all) as Hh. set (k := Z.to_nat _).
  assert (zlen (take k all) = zlen all - hold all) as Ek by (unfold k; unfold zlen in *; rewrite length_take; lia).
  destruct (Z.le_gt_cases (zlen (take k all)) (room dst)) as [Hle|Hgt].
  - rewrite to_disk_fits by done. cbn [written buffered room]. left. rewrite <- !app_assoc, take_drop.
    split_and!; [done|done|rewrite zlen_app; lia|lia].
  - pose proof (to_disk_short (take k all) dst ltac:(lia)) as Es. destruct (to_disk _ dst) as [ok dst'].
    cbn in Es. subst ok. right. rewrite <- app_assoc. fold all. rewrite zlen_app. unfold all in *. rewrite zlen_app in *.
    pose proof (zlen_nonneg data). split; lia.
Qed.

Lemma fclose_spec dst :
  0 <= room dst ->
  let '(r, dst') := fclose dst in
  written dst' `prefix_of` given dst /\ (written dst' = given dst <-> zlen (given dst) <= disk_size dst) /\
  (r = 0 <-> zlen (given dst) <= disk_size dst).
Proof.
  intros Hr. unfold fclose, given, disk_size. rewrite zlen_app.
  destruct (Z.le_gt_cases (zlen (buffered dst)) (room dst)) as [Hle|Hgt].
  - rewrite to_disk_fits by done. cbn. split_and!; [done|split; [lia|done]|split; [lia|done]].
  - pose proof (to_disk_short (buffered dst) dst ltac:(lia)) as Es. unfold to_disk in *. cbn [fst] in Es. rewrite Es. cbn.
    split_and!; [apply prefix_app; eexists; symmetry; apply take_drop| |split; lia].
    split; [|lia]. intros E%app_inv_head. apply (f_equal zlen) in E. unfold zlen in *. rewrite length_take in E. lia.
Qed.

(** The whole source is given, or an error is reported. *)
Lemma copyFile_spec chunks e sz dst :
  0 <= sz -> sz + zlen (concat chunks) < 2 ^ 64 -> 0 <= room dst ->
  let '(err, sz', dst') := copyFile ferror hold chunks e sz dst in
  (err = e /\ sz' = sz + zlen (concat chunks) /\ given dst' = given dst ++ concat chunks /\
   disk_size dst' = disk_size dst /\ 0 <= room dst') \/
  (err <> 0 /\ disk_size dst < zlen (given dst ++ concat chunks)).
Proof.
  revert sz dst. induction chunks as [|chunk chunks IH]; intros sz dst Hsz Hlt Hr; cbn [copyFile concat].
  - left. by rewrite zlen_nil, app_nil_r, Z.add_0_r.
  - cbn [concat] in Hlt. rewrite zlen_app in Hlt. pose proof (zlen_nonneg chunk). pose proof (zlen_nonneg (concat chunks)).
    pose proof (fwrite_spec chunk dst Hr) as Hf. destruct (fwrite hold chunk dst) as [k dst1].
    destruct Hf as [(-> & Eg & Es & Hr1)|[Hk Hno]].
    + rewrite Z.eqb_refl, wrap_small by (unfold in_u; lia). specialize (IH (sz + zlen chunk) dst1).
      destruct (copyFile ferror hold chunks e (sz + zlen chunk) dst1) as [[err sz'] dst'].
      rewrite app_assoc, <- Eg, <- Es, zlen_app. destruct IH as [(-> & -> & H3)|H4]; [lia|lia|lia| |by right].
      left. split_and!; [done|lia|apply H3..].
    + rewrite (proj2 (Z.eqb_neq _ _)) by congruence. right. split; [done|].
      rewrite app_assoc, zlen_app. lia.
Qed.

Lemma create_spec chunks e r bootconfig :
  zlen (concat chunks) < 2 ^ 63 -> 0 <= r ->
  let image := concat chunks ++ buildBootconfigBlob (zlen (concat chunks)) bootconfig in
  exists code img, createRamdiskWithBootconfig ferror hold (Some (chunks, e)) (Some (opened r)) bootconfig
      = (code, Some img) /\
    (e = 0 -> zlen image <= r -> code = 0) /\
    (code = 0 -> e = 0 /\ written img `prefix_of` image /\ (written img = image <-> zlen image <= r)).
Proof.
  intros Hsrc Hr image. unfold createRamdiskWithBootconfig. pose proof (zlen_nonneg (concat chunks)).
  pose proof (copyFile_spec chunks e 0 (opened r) ltac:(lia) ltac:(lia) Hr) as Hcopy.
  destruct (copyFile _ _ _ _ _ _) as [[err sz] dst]. rewrite opened_size in Hcopy.
  change (given (opened r)) with (@nil Z) in Hcopy. cbn [app] in Hcopy. unfold image. rewrite zlen_app.
  set (blob := buildBootconfigBlob _ _). pose proof (zlen_nonneg blob).
  destruct Hcopy as [(-> & -> & Eg & Es & Hr1)|[He Hno]].
  2: { rewrite (proj2 (Z.eqb_neq err 0)) by done. cbn [negb]. eexists _, _. split; [done|]. split; [lia|done]. }
  rewrite Z.add_0_l. destruct (Z.eqb_spec e 0) as [->|He]; cbn [negb].
  2: { eexists _, _. split; [done|]. split; done. }
  unfold appendBootconfig. fold blob. pose proof (fwrite_spec blob dst Hr1) as Hf.
  destruct (fwrite hold blob dst) as [szW dst1]. destruct Hf as [(-> & Eg1 & Es1 & Hr2)|[Hk Hno]].
  - rewrite Z.eqb_refl. eexists _, _. split; [done|]. split; [done|]. intros _. split; [done|].
    pose proof (fclose_spec dst1 Hr2) as Hc. destruct (fclose dst1) as [rc dst2]. cbn [snd].
    rewrite Eg1, Eg, Es1, Es, zlen_app in Hc.
    destruct Hc as (Hp & Hw & _). by split.
  - rewrite (proj2 (Z.eqb_neq _ _)) by congruence. eexists _, _. split; [done|]. split; [|done].
    intros _ Hle. exfalso. rewrite Es, Eg, zlen_app in Hno. lia.
Qed.

(** C30: Making the image succeeds when the source can be read to its end and the
    disk has room, and only when it was read to its end and [fwrite] took all
    of the ramdisk and of the configuration behind it.  Since the result of
    [fclose] is dropped, the file may then be cut short: it is a prefix of the
    image, all of it exactly when the disk has room.  The image is the ramdisk
    followed by a configuration that is aligned to four bytes, that the kernel
    finds with the right size and checksum, and that it reads as the very
    pairs, when no name has an equals sign or a zero byte and no value a
    double quote (see [flattenBootconfig_quote]). *)
Theorem createRamdiskWithBootconfig_boots chunks e r bootconfig :
  Forall plain_pair bootconfig -> zlen (flattenBootconfig bootconfig) + 3 < 2 ^ 32 ->
  zlen (concat chunks) < 2 ^ 63 -> 0 <= r ->
  let image := concat chunks ++ buildBootconfigBlob (zlen (concat chunks)) bootconfig in
  (exists code img, createRamdiskWithBootconfig ferror hold (Some (chunks, e)) (Some (opened r)) bootconfig
      = (code, Some img) /\
    (e = 0 -> zlen image <= r -> code = 0) /\
    (code = 0 -> e = 0 /\ written img `prefix_of` image /\ (written img = image <-> zlen image <= r))) /\
  exists data, kernel_bootconfig image = Some data /\
    kernel_parse (S (length bootconfig)) data = Some bootconfig /\
    (zlen (concat chunks) + zlen data) mod 4 = 0.
Proof.
  intros Hp Hflat Hsrc Hr image. split; [by apply create_spec|]. unfold image, buildBootconfigBlob.
  pose proof (zlen_nonneg (concat chunks)). pose proof (flatten_zlen bootconfig).
  destruct (pad_blob_spec (zlen (concat chunks)) (flattenBootconfig bootconfig)) as (k & Hk & Epad & Halign); [done|lia|].
  eexists. rewrite kernel_bootconfig_blob; [split_and!; [done| |exact Halign]|].
  - rewrite Epad. unfold flattenBootconfig. rewrite <- app_assoc. apply kernel_parse_flat; [done|lia].
  - rewrite Epad, zlen_app, zlen_replicate. lia.
Qed.
End image.

Lemma hold_all_ok (b : bytes) : 0 <= zlen b <= zlen b.
Proof. split; [apply zlen_nonneg|done]. Qed.

(** Everything is held back until the file is closed. *)
Lemma createRamdiskWithBootconfig_boots_witness :
  exists code img, createRamdiskWithBootconfig 5 zlen (Some ([str "0707"; str "01..."], 0))
      (Some (opened 1000)) [(str "androidboot.qemu", str "1"); (str "a.b", [])] = (code, Some img) /\
    code = 0 /\
    exists data, kernel_bootconfig (written img) = Some data /\
      kernel_parse 3 data = Some [(str "androidboot.qemu", str "1"); (str "a.b", [])].
Proof.
  destruct (createRamdiskWithBootconfig_boots 5 ltac:(lia) zlen hold_all_ok [str "0707"; str "01..."] 0 1000
    [(str "androidboot.qemu", str "1"); (str "a.b", [])]) as [(code & img & E & H0 & H1) (data & Hk & Hp & _)];
    [repeat constructor; done|by vm_compute|by vm_compute|lia|].
  assert (code = 0) as Hc by (apply H0; by vm_compute).
  exists code, img. split; [exact E|]. split; [exact Hc|]. destruct (H1 Hc) as (_ & _ & Hw).
  exists data. rewrite (proj2 Hw); [|by vm_compute]. split; [exact Hk|exact Hp].
Defined.

(** The disk is full when the file is closed: success is reported, and the
    kernel finds nothing. *)
Example fclose_error_ignored :
  match createRamdiskWithBootconfig 5 zlen (Some ([str "0707"], 0)) (Some (opened 10)) [(str "a", str "1")] with
  | (code, Some img) => code = 0 /\ zlen (written img) = 10 /\ kernel_bootconfig (written img) = None
  | _ => False
  end.
Proof. vm_compute. split_and!; reflexivity. Qed.

(** A quote in a value is not escaped: the kernel does not take the text. *)
Theorem flattenBootconfig_quote :
  kernel_parse 3 (flattenBootconfig [(str "androidboot.qemu.avd_name", [97; 34; 98]); (str "a", str "1")]) = None.
Proof. vm_compute. reflexivity. Qed.

(** ** The parameters of the guest *)

(** The fields of the hardware configuration that are used. *)
Record HardwareConfig := {
  hw_cpu_arch : bytes; hw_lcd_vsync : Z; hw_gltransport : bytes; hw_gltransport_drawFlushInterval : Z;
  vm_heapSize : Z; display_settings_xml : bytes; avd_name : bytes; hw_lcd_circular : bool;
}.

Definition opt_param (c : bool) (k : string) (v : bytes) : list (bytes * bytes) := if c then [(str k, v)] else [].

(** [name=value] or a name alone. *)
Definition split_param (p : bytes) : bytes * bytes :=
  match split_at 61 p with Some (k, v) => (k, v) | None => (p, []) end.

Definition nonempty (s : bytes) : bool := negb (zlen s =? 0).

(** [adb_key] is the public key, if there is one. *)
Definition getUserspaceBootProperties (targetArch serialno : bytes) (bootPropOpenglesVersion : Z)
    (verifiedBootParameters : list bytes) (hw : HardwareConfig) (guest_angle : bool) (adb_key : option bytes)
    : list (bytes * bytes) :=
  let isX86ish := bytes_eqb targetArch (str "x86") || bytes_eqb targetArch (str "x86_64") in
  [(str "qemu.logcat_filter", str "*:V"); (str "androidboot.qemu", str "1"); (str "androidboot.hardware", str "ranchu")]
  ++ opt_param (nonempty serialno) "androidboot.serialno" serialno
  ++ opt_param guest_angle "androidboot.hardwareegl" (str "angle")
  ++ [(str "androidboot.hardware.vulkan", str "ranchu");
      (str "androidboot.qemu.cpuvulkan.version", to_string 0x402000);
      (str "androidboot.qemu.settings.system.screen_off_timeout", str "2147483647");
      (str "androidboot.veritymode", str "enforcing");
      (str "androidboot.qemu.vsync", to_string (u32 (hw_lcd_vsync hw)));
      (str "androidboot.qemu.gltransport.name", hw_gltransport hw);
      (str "androidboot.hardware.gltransport", hw_gltransport hw);
      (str "androidboot.qemu.gltransport.drawFlushInterval", to_string (u32 (hw_gltransport_drawFlushInterval hw)));
      (str "androidboot.opengles.version", to_string bootPropOpenglesVersion);
      (str "androidboot.debug.hwui.renderer", str "skiagl");
      (str "androidboot.logcat", str "*:V")]
  ++ match adb_key with Some key => [(str "androidboot.qemu.adb.pubkey", key)] | None => [] end
  ++ opt_param (0 <? vm_heapSize hw) "androidboot.dalvik.vm.heapsize" (to_string (vm_heapSize hw) ++ str "m")
  ++ [(str "androidboot.qemu.camera_protocol_ver", str "1")]
  ++ opt_param isX86ish "androidboot.android_dt_dir" (str "/sys/bus/platform/devices/ANDR0001:00/properties/android/")
  ++ (split_param <$> verifiedBootParameters)
  ++ opt_param (nonempty (display_settings_xml hw)) "androidboot.qemu.display.settings.xml" (display_settings_xml hw)
  ++ [(str "androidboot.qemu.virtiowifi", str "1"); (str "androidboot.qemu.hwcodec.avcdec", str "2");
      (str "androidboot.qemu.hwcodec.hevcdec", str "2"); (str "androidboot.qemu.hwcodec.vpxdec", str "2");
      (str "androidboot.qemu.avd_name", avd_name hw)]
  ++ opt_param (hw_lcd_circular hw) "androidboot.emulator.circular" (str "1").

Inductive CpuArchitecture := kX86 | kArm.

Definition getDynamicPartitionBootDevice (arch : CpuArchitecture) : bytes :=
  match arch with kX86 => str "pci0000:00/0000:00:03.0" | kArm => str "a003e00.virtio_mmio" end.

Definition getVerifiedBootparams (arch : CpuArchitecture) : list bytes :=
  [str "androidboot.boot_devices=" ++ getDynamicPartitionBootDevice arch;
   str "androidboot.verifiedbootstate=orange"].

(** [Initrd::initialize]: whether the image could be made, and the image. *)
Definition Initrd_initialize (ferror : Z) (hold : bytes -> Z) (src : option (list bytes * Z)) (dst : option out) (arch : CpuArchitecture)
    (name : bytes) (hw : HardwareConfig) (guest_angle : bool) (adb_key : option bytes) : bool * option out :=
  let properties := getUserspaceBootProperties (hw_cpu_arch hw) name (Z.lor (Z.shiftl 2 16) 0)
                      (getVerifiedBootparams arch) hw guest_angle adb_key in
  let '(code, img) := createRamdiskWithBootconfig ferror hold src dst properties in
  (code =? 0, img).

Definition boot_properties (arch : CpuArchitecture) (name : bytes) (hw : HardwareConfig) (guest_angle : bool)
    (adb_key : option bytes) : list (bytes * bytes) :=
  getUserspaceBootProperties (hw_cpu_arch hw) name (Z.lor (Z.shiftl 2 16) 0) (getVerifiedBootparams arch) hw guest_angle adb_key.

Lemma fst_opt_param c k v : fst <$> opt_param c k v = if c then [str k] else [].
Proof. by destruct c. Qed.

(** The names are literals, so that only the conditions decide which there are. *)
Definition boot_names (serial angle key heap x86 xml circular : bool) (arch : CpuArchitecture) : list bytes :=
  fst <$> (getUserspaceBootProperties (if x86 then str "x86" else []) (if serial then [0] else []) 0
    (getVerifiedBootparams arch)
    {| hw_cpu_arch := []; hw_lcd_vsync := 0; hw_gltransport := []; hw_gltransport_drawFlushInterval := 0;
       vm_heapSize := if heap then 1 else 0; display_settings_xml := if xml then [0] else []; avd_name := [];
       hw_lcd_circular := circular |} angle (if key then Some [] else None)).

Lemma boot_properties_names arch name hw guest_angle adb_key :
  fst <$> boot_properties arch name hw guest_angle adb_key =
  boot_names (nonempty name) guest_angle (match adb_key with Some _ => true | None => false end) (0 <? vm_heapSize hw)
    (bytes_eqb (hw_cpu_arch hw) (str "x86") || bytes_eqb (hw_cpu_arch hw) (str "x86_64"))
    (nonempty (display_settings_xml hw)) (hw_lcd_circular hw) arch.
Proof.
  unfold boot_names, boot_properties, getUserspaceBootProperties. rewrite !fmap_app, !fst_opt_param.
  cbn [vm_heapSize display_settings_xml hw_lcd_circular].
  set (x86 := bytes_eqb _ _ || bytes_eqb _ _).
  f_equal. f_equal; [by destruct (nonempty name)|]. f_equal. f_equal. f_equal; [by destruct adb_key|].
  f_equal; [by destruct (0 <? vm_heapSize hw)|]. f_equal. f_equal; [by destruct x86|]. f_equal.
  f_equal. by destruct (nonempty (display_settings_xml hw)).
Qed.

Fixpoint nodupb (l : list bytes) : bool :=
  match l with [] => true | x :: l => negb (existsb (bytes_eqb x) l) && nodupb l end.

Lemma nodupb_NoDup l : nodupb l = true -> NoDup l.
Proof.
  induction l as [|x l IH]; cbn; [constructor|]. intros [H1%negb_true_iff H2]%andb_true_iff.
  constructor; [|by apply IH]. intros Hin. apply not_true_iff_false in H1. apply H1, existsb_exists.
  exists x. split; [by apply list_elem_of_In|apply bytes_eqb_refl].
Qed.

Definition names_good (names : list bytes) : bool :=
  nodupb names && forallb (forallb (fun c => negb (c =? 61) && negb (c =? 0))) names.

Lemma boot_names_good a b c d e f g arch : names_good (boot_names a b c d e f g arch) = true.
Proof. destruct a, b, c, d, e, f, g, arch; vm_compute; reflexivity. Qed.

Lemma names_good_spec (kvs : list (bytes * bytes)) :
  names_good (fst <$> kvs) = true ->
  NoDup (fst <$> kvs) /\ Forall (fun kv => Forall (fun c => c <> 61 /\ c <> 0) (fst kv)) kvs.
Proof.
  intros [H1%nodupb_NoDup H2]%andb_true_iff. split; [done|].
  apply Forall_forall. intros kv Hkv. rewrite forallb_forall in H2.
  specialize (H2 (fst kv)). rewrite forallb_forall in H2. apply Forall_forall. intros c Hc.
  specialize (H2 ltac:(apply list_elem_of_In, list_elem_of_fmap; eauto) c ltac:(by apply list_elem_of_In)).
  by apply andb_true_iff in H2 as [?%negb_true_iff%Z.eqb_neq ?%negb_true_iff%Z.eqb_neq].
Qed.

(** Whatever the configuration is, no parameter is given twice and every name can
    be written as it is. *)
Theorem boot_properties_names_distinct arch name hw guest_angle adb_key :
  NoDup (fst <$> boot_properties arch name hw guest_angle adb_key) /\
  Forall (fun kv => Forall (fun c => c <> 61 /\ c <> 0) (fst kv)) (boot_properties arch name hw guest_angle adb_key).
Proof. apply names_good_spec. rewrite boot_properties_names. apply boot_names_good. Qed.
