(* ===== verification/HostSystem.v ===== *)
(** * The services of the host

    Models [System.cpp] of [android/system] as it is built for Linux: the environment, the
    directories of the program, what is at a path and how large it is, which file system and
    which kind of disk it is on, the memory in use.  The calls to the kernel and the C library
    are those of [PathFiles.Host] and of the class [HostCalls]. *)

From stdpp Require Import sorting.
From S2P Require Import Prelude CText PathText StorageCapacity PathFiles.

(** ** The calls of the host *)

Class HostCalls (W : Type) `{!Host W} := {
  getenv : W -> bytes -> option bytes;
  setenv : bytes -> bytes -> W -> W; (* overwrites *)
  unsetenv : bytes -> W -> W;
  lstat_link : W -> bytes -> bool; (* [lstat] finds a symbolic link *)
  st_mtim : W -> bytes -> option (Z * Z); (* seconds and nanoseconds, if [stat] succeeds *)
  contents : W -> bytes -> option bytes; (* what an [ifstream] reads, if it opens *)
  statvfs : W -> bytes -> option (Z * Z); (* f_frsize and f_bavail *)
  exe_link : W -> option bytes; (* what [readlink] finds at /proc/self/exe *)
  getcwd : W -> option bytes;
  pw_dir : W -> option bytes; (* the home directory of the password database *)
  remove_file : bytes -> W -> bool * W;
}.

(** ** Text *)

(** The words of a line, as [>>] reads them into strings. *)
Fixpoint words (cur s : bytes) : list bytes :=
  match s with
  | [] => if zlen cur =? 0 then [] else [cur]
  | c :: s => if is_space c then (if zlen cur =? 0 then words [] s else cur :: words [] s) else words (cur ++ [c]) s
  end.

(** [sscanf]'s conversion to an unsigned number of width [w]. *)
Definition scan_unsigned (w : Z) (s : bytes) : option (Z * bytes) :=
  let s := snd (span is_space s) in
  let '(neg, s) := match s with
                   | c :: s' => if c =? 45 then (true, s') else if c =? 43 then (false, s') else (false, s)
                   | [] => (false, [])
                   end in
  let '(ds, rest) := span is_digit s in
  if zlen ds =? 0 then None
  else
    let v := digits_value ds in
    Some (wrap w (if 2 ^ 64 <=? v then 2 ^ 64 - 1 else if neg : bool then - v else v), rest).

(** [strrchr(s, '/')]: what is before and after the last separator. *)
Definition last_sep (s : bytes) : option (bytes * bytes) :=
  match split_at 47 (rev s) with Some (after, before) => Some (rev before, rev after) | None => None end.

Definition parseBooleanValue (value : bytes) (def : bool) : bool :=
  if bool_decide (value ∈ [str "1"; str "y"; str "yes"; str "Y"; str "YES"]) then true
  else if bool_decide (value ∈ [str "0"; str "n"; str "no"; str "N"; str "NO"]) then false
  else def.

(** [found || approxMatch ? a : b] is [(found || approxMatch) ? a : b]. *)
Fixpoint contains_at (haystack needle : bytes) : bool :=
  starts_with needle haystack || match haystack with [] => false | _ :: rest => contains_at rest needle end.

Definition sMultiStringMatch (haystack : bytes) (needles : list bytes) (approxMatch : bool) : bool :=
  foldl (fun found needle => if found || approxMatch then contains_at haystack needle else bytes_eqb haystack needle) false needles.

(** ** Permissions *)

(** [std::filesystem::perms] has the bits of POSIX. *)
Definition octalModeToPerms (octalMode : Z) : Z :=
  let bit b := if Z.land octalMode b =? 0 then 0 else b in
  foldl Z.lor 0 [bit 256; bit 128; bit 64; bit 32; bit 16; bit 8; bit 4; bit 2; bit 1].

(** ** Memory *)

Record MemUsage := { resident : Z; resident_max : Z; virt : Z; virt_max : Z; total_phys_memory : Z; avail_phys_memory : Z; total_page_file : Z }.

(** A line that begins with the name and a number of kilobytes. *)
Definition scan_kb (name line : bytes) : option Z :=
  rest ← strip_prefix name line; v ← scan_unsigned 64 rest; Some (u64 (fst v * 1024)).

(** The chain of [sscanf]s: the first name that fits sets its field. *)
Fixpoint first_kb (fields : list (bytes * (Z -> MemUsage -> MemUsage))) (line : bytes) (res : MemUsage) : MemUsage :=
  match fields with
  | [] => res
  | (name, set) :: fields => match scan_kb name line with Some v => set v res | None => first_kb fields line res end
  end.

Definition set_resident v r := {| resident := v; resident_max := resident_max r; virt := virt r; virt_max := virt_max r;
  total_phys_memory := total_phys_memory r; avail_phys_memory := avail_phys_memory r; total_page_file := total_page_file r |}.
Definition set_resident_max v r := {| resident := resident r; resident_max := v; virt := virt r; virt_max := virt_max r;
  total_phys_memory := total_phys_memory r; avail_phys_memory := avail_phys_memory r; total_page_file := total_page_file r |}.
Definition set_virt v r := {| resident := resident r; resident_max := resident_max r; virt := v; virt_max := virt_max r;
  total_phys_memory := total_phys_memory r; avail_phys_memory := avail_phys_memory r; total_page_file := total_page_file r |}.
Definition set_virt_max v r := {| resident := resident r; resident_max := resident_max r; virt := virt r; virt_max := v;
  total_phys_memory := total_phys_memory r; avail_phys_memory := avail_phys_memory r; total_page_file := total_page_file r |}.
Definition set_total_phys_memory v r := {| resident := resident r; resident_max := resident_max r; virt := virt r; virt_max := virt_max r;
  total_phys_memory := v; avail_phys_memory := avail_phys_memory r; total_page_file := total_page_file r |}.
Definition set_avail_phys_memory v r := {| resident := resident r; resident_max := resident_max r; virt := virt r; virt_max := virt_max r;
  total_phys_memory := total_phys_memory r; avail_phys_memory := v; total_page_file := total_page_file r |}.
Definition set_total_page_file v r := {| resident := resident r; resident_max := resident_max r; virt := virt r; virt_max := virt_max r;
  total_phys_memory := total_phys_memory r; avail_phys_memory := avail_phys_memory r; total_page_file := v |}.

Definition status_fields := [(str "VmRSS:", set_resident); (str "VmHWM:", set_resident_max); (str "VmSize:", set_virt); (str "VmPeak:", set_virt_max)].
Definition meminfo_fields := [(str "MemTotal:", set_total_phys_memory); (str "MemAvailable:", set_avail_phys_memory); (str "SwapTotal:", set_total_page_file)].
Definition no_usage := {| resident := 0; resident_max := 0; virt := 0; virt_max := 0; total_phys_memory := 0; avail_phys_memory := 0; total_page_file := 0 |}.

(** ** Paths of [std::filesystem] *)

Definition path_div (a b : bytes) : bytes := match b with c :: _ => if c =? 47 then b else fs_join a b | [] => fs_join a b end.

(** What [begin] and [end] of a path go over. *)
Definition components (p : bytes) : list bytes :=
  let names := List.filter (fun n => negb (bytes_eqb n [])) (pieces 47 p) in
  (if starts_with [47] p then [[47]] else []) ++ names ++
  (match last p, names with Some c, _ :: _ => if c =? 47 then [[]] else [] | _, _ => [] end).

Fixpoint list_prefix (dir path : list bytes) : bool :=
  match dir, path with
  | [], _ => true
  | p :: dir, q :: path => bytes_eqb p q && list_prefix dir path
  | _ :: _, [] => false
  end.

Inductive DiskKind := Hdd | Ssd.

(** Bytes of a file from a position; what is past its end is left as it was. *)
Definition read_bytes (text : bytes) (pos : nat) (array : bytes) : bytes :=
  let got := take (length array) (drop pos text) in got ++ drop (length got) array.

(** What [System] caches. *)
Record HostSystem := { mProgramDir : bytes; mLauncherDir : bytes; mHomeDir : bytes }.

Section host_system.
Context {W : Type} `{!Host W, !HostCalls W}.

(** ** The environment *)

Definition getEnvironmentVariable (w : W) (varname : bytes) : bytes := default [] (getenv w (c_str varname)).
Definition setEnvironmentVariable (varname varvalue : bytes) (w : W) : W :=
  match varvalue with [] => unsetenv (c_str varname) w | _ => setenv (c_str varname) (c_str varvalue) w end.
Definition envGet := getEnvironmentVariable.
Definition envSet := setEnvironmentVariable.
Definition envTest (w : W) (varname : bytes) : bool :=
  match getenv w (c_str varname) with Some (_ :: _) => true | _ => false end.

Definition isRemoteSession (w : W) : option bytes :=
  if envTest w (str "NX_TEMP") then Some (str "NX")
  else if envTest w (str "CHROME_REMOTE_DESKTOP_SESSION") then Some (str "Chrome Remote Desktop")
  else if negb (bytes_eqb (envGet w (str "SSH_CONNECTION")) []) && negb (bytes_eqb (envGet w (str "SSH_CLIENT")) []) then
    if 2 <? zlen (envGet w (str "DISPLAY")) then Some (str "X11 Forwarding") else None
  else None.

Definition getEnableCrashReporting (w : W) : bool :=
  match envGet w (str "ANDROID_EMU_ENABLE_CRASH_REPORTING") with [] => true | v => parseBooleanValue (c_str v) true end.

Definition kLibrarySearchListEnvVarName : bytes := str "LD_LIBRARY_PATH".
Definition addLibrarySearchDir (path : bytes) (w : W) : W :=
  let libSearchPath := envGet w kLibrarySearchListEnvVarName in
  envSet kLibrarySearchListEnvVarName (match libSearchPath with [] => path | _ => path ++ 58 :: libSearchPath end) w.

(** ** The directories of the program *)

(** The buffer has 1024 bytes; a link that fills it is not used. *)
Definition getProgramDirectoryFromPlatform (w : W) : bytes :=
  match exe_link w with
  | Some path =>
      if (0 <? zlen path) && (zlen path <? 1024) then
        match last_sep (c_str path) with Some (dir, _) => dir | None => [] end
      else []
  | None => []
  end.

Definition getProgramDirectory (w : W) (s : HostSystem) : bytes * HostSystem :=
  let dir := match mProgramDir s with [] => getProgramDirectoryFromPlatform w | d => d end in
  (dir, {| mProgramDir := dir; mLauncherDir := mLauncherDir s; mHomeDir := mHomeDir s |}).

Definition getCurrentDirectory (w : W) : bytes := default [] (getcwd w).

Definition getLauncherDirectory (w : W) (s : HostSystem) : bytes * HostSystem :=
  let dir := match mLauncherDir s with [] => envGet w (str "ANDROID_EMULATOR_LAUNCHER_DIR") | d => d end in
  (dir, {| mProgramDir := mProgramDir s; mLauncherDir := dir; mHomeDir := mHomeDir s |}).

(** A HOME that is set but empty is taken as it is. *)
Definition getHomeDirectory (w : W) (s : HostSystem) : bytes * HostSystem :=
  let dir := match mHomeDir s with
             | [] => match getenv w (str "HOME") with Some home => home | None => default [] (pw_dir w) end
             | d => d
             end in
  (dir, {| mProgramDir := mProgramDir s; mLauncherDir := mLauncherDir s; mHomeDir := dir |}).

Definition kExe : bytes := [].
Definition bazel_search : list bytes := [str "bazel-bin/external/qemu"; str "bazel-bin/hardware/generic/goldfish/third_party/sparse"].

Definition findBundledExecutable (programName : bytes) (w : W) (s : HostSystem) : bytes * HostSystem :=
  let executableName := programName ++ kExe in
  let '(dir, s) := getLauncherDirectory w s in
  if path_is_regular w (path_div dir executableName) then (path_div dir executableName, s)
  else
    let '(dir, s) := getLauncherDirectory w s in
    let executablePath := path_div (path_div dir (str "bin")) executableName in
    if path_is_regular w executablePath then (executablePath, s)
    else
      match envGet w (str "BUILD_WORKSPACE_DIRECTORY") with
      | [] => ([], s)
      | root =>
          match List.find (path_is_regular w) (map (fun o => path_div (path_div root o) executableName) bazel_search) with
          | Some possible_exe => (possible_exe, s)
          | None => ([], s)
          end
      end.

(** [getOsName]: the output of [lsb_release -d], [None] when it took more than a second.  Text that is too short
    throws [std::out_of_range], the result [None]. *)
Definition strip_whitespace (s : bytes) : bytes := snd (span is_space (rev (snd (span is_space (rev s))))).
Definition getOsName (out : option bytes) (lastSuccessfulValue : bytes) : option (bytes * bytes) :=
  match lastSuccessfulValue with
  | _ :: _ => Some (lastSuccessfulValue, lastSuccessfulValue)
  | [] =>
      match out with
      | None => Some (str "Unknown OS", [])
      | Some text =>
          if zlen text <? 12 then None
          else let name := strip_whitespace (drop 12 text) in Some (name, name)
      end
  end.

(** ** What is at a path *)

(** [scanDirEntries]: the names, or the whole paths. *)
Definition scanDirEntries (w : W) (dirPath : bytes) (fullPath : bool) : list bytes :=
  let result := scanDirInternal w dirPath in
  if fullPath then map (path_div dirPath) result else result.

Definition pathIsLinkInternal (w : W) (path : bytes) : bool := lstat_link w path.

Definition readSomeBytes (w : W) (path array : bytes) (pos size : Z) : option bytes :=
  if (size <=? 0) || negb (path_can_read w path) then None
  else match contents w path with Some text => Some (read_bytes text (Z.to_nat pos) array) | None => None end.

Definition pathIsExt4Internal (w : W) (path : bytes) : bool :=
  match readSomeBytes w path [0; 0] 1080 2 with
  | Some magic => (nth 0 magic 0 =? 83) && (nth 1 magic 0 =? 239)
  | None => false
  end.

Definition pathIsQcow2Internal (w : W) (path : bytes) : bool :=
  match readSomeBytes w path [0; 0; 0; 0] 0 4 with
  | Some magic => (nth 0 magic 0 =? 81) && (nth 1 magic 0 =? 70) && (nth 2 magic 0 =? 73) && (nth 3 magic 0 =? 251)
  | None => false
  end.

(** The directories where an ext4 file system is mounted. *)
Definition get_all_ext4_mount_dirs (w : W) : list bytes :=
  omap (fun line => let ws := words [] line in if bytes_eqb (nth 2 ws []) (str "ext4") then Some (nth 1 ws []) else None)
    (getlines [] (default [] (contents w (str "/proc/self/mounts")))).

(** [fs::absolute]; [None] throws. *)
Definition absolute (w : W) (p : bytes) : option bytes :=
  match p with [] => None | c :: _ => if c =? 47 then Some p else cwd ← getcwd w; Some (path_div cwd p) end.

Definition dir_contains_path (w : W) (path dir : bytes) : option bool :=
  absolute_path ← absolute w path; absolute_dir ← absolute w dir;
  Some (list_prefix (components absolute_dir) (components absolute_path)).

(** The loop over the mounts: the directory of the mount is the first argument. *)
Fixpoint any_mount (w : W) (path : bytes) (mount_dirs : list bytes) : option bool :=
  match mount_dirs with
  | [] => Some false
  | dir :: mount_dirs => b ← dir_contains_path w dir path; if b : bool then Some true else any_mount w path mount_dirs
  end.
Definition pathFileSystemIsExt4Internal (w : W) (path : bytes) : option bool := any_mount w (c_str path) (get_all_ext4_mount_dirs w).

Definition deleteFileInternal (path : bytes) (w : W) : bool * W :=
  if path_is_regular w path then remove_file path w else (false, w).

(** ** Sizes *)

Definition pathFileSizeInternal (w : W) (path : bytes) : option capacity :=
  match path with
  | [] => None
  | _ => match stat_of w path with
         | inl st => if bool_decide (st_kind st = REG) then Some (u64 (st_size st)) else None
         | inr _ => None
         end
  end.

(** The loop over the list of files still to look at; [None] when the fuel is used up. *)
Fixpoint recursiveSize_loop (fuel : nat) (w : W) (fileList : list bytes) (totalSize : capacity) : option capacity :=
  match fuel with
  | O => None
  | S fuel =>
      match last fileList with
      | None => Some totalSize
      | Some currentPath =>
          let fileList := removelast fileList in
          if path_is_regular w currentPath || pathIsLinkInternal w currentPath then
            recursiveSize_loop fuel w fileList
              (match pathFileSizeInternal w currentPath with Some theSize => cap_add totalSize theSize | None => totalSize end)
          else if path_is_dir w currentPath then
            recursiveSize_loop fuel w (fileList ++ map (path_div currentPath) (scanDirInternal w currentPath)) totalSize
          else recursiveSize_loop fuel w fileList totalSize
      end
  end.
Definition recursiveSizeInternal (fuel : nat) (w : W) (path : bytes) : option capacity := recursiveSize_loop fuel w [path] 0.

Definition pathFreeSpaceInternal (w : W) (path : bytes) : option capacity :=
  match statvfs w path with Some (f_frsize, f_bavail) => Some (cap_mul (u64 f_frsize) f_bavail) | None => None end.

Definition kDiskPressureLimit : capacity := StorageCapacity 2 MiB.
Definition isUnderDiskPressure (w : W) (path : bytes) : bool * option capacity :=
  match pathFreeSpaceInternal w path with
  | Some availableSpace => if availableSpace <? kDiskPressureLimit then (true, Some availableSpace) else (false, None)
  | None => (false, None)
  end.

Definition pathModificationTimeInternal (w : W) (path : bytes) : option Z :=
  match st_mtim w path with Some (sec, nsec) => Some (sec * 1000000 + nsec / 1000) | None => None end.

(** ** Memory *)

Definition getMemUsage (w : W) : MemUsage :=
  match contents w (str "/proc/self/status") with
  | None => no_usage
  | Some status =>
      let res := foldl (fun res line => first_kb status_fields line res) no_usage (getlines [] status) in
      match contents w (str "/proc/meminfo") with
      | None => res
      | Some meminfo => foldl (fun res line => first_kb meminfo_fields line res) res (getlines [] meminfo)
      end
  end.

Definition freeRamMb (w : W) : capacity := StorageCapacity (avail_phys_memory (getMemUsage w)) B.
Definition kMemoryPressureLimit : capacity := StorageCapacity 513 MiB.
Definition isUnderMemoryPressure (w : W) : bool * capacity := (freeRamMb w <? kMemoryPressureLimit, freeRamMb w).

(** ** Disks *)

Definition dev_major (dev : Z) : Z := Z.lor (Z.land (Z.shiftr dev 8) 4095) (Z.land (Z.shiftr dev 32) (2 ^ 32 - 4096)).
Definition dev_minor (dev : Z) : Z := Z.lor (Z.land dev 255) (Z.land (Z.shiftr dev 12) (2 ^ 32 - 256)).

(** A line of /proc/partitions: its numbers and the name. *)
Definition partition_line (line : bytes) : option (Z * Z * bytes) :=
  maj ← scan_unsigned 32 line; min ← scan_unsigned 32 (snd maj); blocks ← scan_unsigned 64 (snd min);
  let name := take 1023 (fst (span (fun c => negb (is_space c)) (snd (span is_space (snd blocks))))) in
  match name with [] => None | _ => Some (fst maj, fst min, name) end.

(** The loop over the lines: the name of the device and the names up to it. *)
Fixpoint find_partition (lines : list bytes) (maj min : Z) (devices : list bytes) : bytes * list bytes :=
  match lines with
  | [] => ([], devices)
  | line :: lines =>
      match partition_line line with
      | Some (curMaj, curMin, name) =>
          if (curMaj =? maj) && (curMin =? min) then (name, name :: devices) else find_partition lines maj min (name :: devices)
      | None => find_partition lines maj min devices
      end
  end.

Definition disk_of (w : W) (st : stat) : option DiskKind :=
  match contents w (str "/proc/partitions") with
  | None => None
  | Some text =>
      let maj := dev_major (st_dev st) in
      let '(devName, devices) := find_partition (getlines [] text) maj (dev_minor (st_dev st)) [] in
      match devName with
      | [] => None
      | _ =>
          let devName := if maj =? 8 then take (back_while is_digit devName (length devName)) devName else devName in
          if (maj =? 8) && negb (bool_decide (devName ∈ devices)) then None
          else
            match contents w (str "/sys/block/" ++ devName ++ str "/queue/rotational") with
            | None => None
            | Some text =>
                match snd (span is_space text) with
                | c :: _ => if c =? 48 then Some Ssd else if c =? 49 then Some Hdd else None
                | [] => None
                end
            end
      end
  end.

Definition diskKindInternal (w : W) (path : bytes) : option DiskKind :=
  match stat_of w path with inl st => disk_of w st | inr _ => None end.
End host_system.

(** ** Permissions keep the lower nine bits *)

Lemma perm_bit m k : 0 <= k -> (if Z.land m (2 ^ k) =? 0 then 0 else 2 ^ k) = Z.land m (2 ^ k).
Proof.
  intros Hk. assert (Z.land m (2 ^ k) = if Z.testbit m k then 2 ^ k else 0) as ->.
  { apply Z.bits_inj'. intros i Hi. rewrite Z.land_spec, Z.pow2_bits_eqb by done. destruct (Z.eqb_spec k i) as [->|Hne].
    - rewrite andb_true_r. destruct (Z.testbit m i) eqn:E; [by rewrite Z.pow2_bits_true|by rewrite Z.bits_0].
    - rewrite andb_false_r. destruct (Z.testbit m k); [by rewrite Z.pow2_bits_false by done|by rewrite Z.bits_0]. }
  destruct (Z.testbit m k); [|done]. by destruct (Z.eqb_spec (2 ^ k) 0) as [->|].
Qed.

Theorem octalModeToPerms_ok octalMode : octalModeToPerms octalMode = Z.land octalMode 511.
Proof.
  unfold octalModeToPerms. cbn [foldl].
  rewrite (perm_bit _ 8), (perm_bit _ 7), (perm_bit _ 6), (perm_bit _ 5), (perm_bit _ 4), (perm_bit _ 3), (perm_bit _ 2), (perm_bit _ 1), (perm_bit _ 0) by done.
  by rewrite Z.lor_0_l, <- !Z.land_lor_distr_r.
Qed.

(** ** The size of a tree *)

Section sizes.
Context {W : Type} `{!Host W, !HostCalls W} (w : W).

(** A path and all that is under it; links are not followed.  [None] when it is deeper than [depth]. *)
Fixpoint paths_under (depth : nat) (path : bytes) : option (list bytes) :=
  match depth with
  | O => None
  | S depth =>
      if negb (path_is_regular w path || pathIsLinkInternal w path) && path_is_dir w path
      then l ← mapM (fun name => paths_under depth (path_div path name)) (scanDirInternal w path); Some (path :: concat l)
      else Some [path]
  end.

Definition size_at (path : bytes) : Z := default 0 (pathFileSizeInternal w path).
Definition sum_sizes (l : list bytes) : Z := foldr Z.add 0 (map size_at l).

Lemma sum_sizes_app l l' : sum_sizes (l ++ l') = sum_sizes l + sum_sizes l'.
Proof. unfold sum_sizes. rewrite map_app. induction (map size_at l) as [|x xs IH]; cbn [app foldr]; [done|]. rewrite IH. lia. Qed.

Lemma size_at_dir path : path_is_dir w path = true -> size_at path = 0.
Proof.
  unfold path_is_dir, path_is_kind, size_at, pathFileSizeInternal. destruct path as [|c path]; [done|].
  intros H. apply andb_true_iff in H as [_ H]. destruct (stat_of w (c :: path)) as [st|]; [|done].
  apply bool_decide_eq_true in H. by rewrite bool_decide_eq_false_2 by (rewrite H; done).
Qed.

Lemma size_at_special path : path_is_regular w path = false -> size_at path = 0.
Proof.
  unfold path_is_regular, path_is_kind, size_at, pathFileSizeInternal. destruct path as [|c path]; [done|]. cbn [bytes_eqb negb andb].
  intros H. destruct (stat_of w (c :: path)) as [st|]; [|done]. by rewrite H.
Qed.

(** The list of files still to look at, with what is under each. *)
Definition pending (fileList : list bytes) (under : list (list bytes)) : Prop :=
  Forall2 (fun p l => exists depth, paths_under depth p = Some l) fileList under.

Lemma cap_add_sizes total p l : u64 (cap_add total (size_at p) + sum_sizes l) = u64 (total + (sum_sizes l + sum_sizes [p])).
Proof. unfold cap_add. rewrite wrap_add_l. f_equal. unfold sum_sizes at 3. cbn. lia. Qed.

Lemma recursiveSize_loop_ok fuel fileList under total :
  in_u 64 total -> pending fileList under -> (length (concat under) < fuel)%nat ->
  recursiveSize_loop fuel w fileList total = Some (u64 (total + sum_sizes (concat under))).
Proof.
  revert fileList under total. induction fuel as [|fuel IH]; intros fileList under total Ht Hp Hf; [lia|]. cbn [recursiveSize_loop].
  destruct fileList as [|p fl _] using rev_ind.
  { inversion Hp. subst. cbn. by rewrite Z.add_0_r, wrap_small. }
  rewrite last_snoc, removelast_last. apply Forall2_app_inv_l in Hp as (us & ul & Hus & Hul & ->).
  apply Forall2_cons_inv_l in Hul as (l & ul' & (depth & Hl) & Hnil & ->). inversion Hnil. subst ul'.
  rewrite concat_app in *. cbn [concat] in *. rewrite app_nil_r in *. rewrite length_app in Hf. rewrite sum_sizes_app.
  destruct depth as [|depth]; [done|]. cbn [paths_under] in Hl.
  destruct (path_is_regular w p || pathIsLinkInternal w p) eqn:Efile; cbn [negb andb] in Hl.
  - injection Hl as <-. cbn [length] in Hf. rewrite <- cap_add_sizes. unfold size_at at 1.
    destruct (pathFileSizeInternal w p) as [sz|]; cbn [default].
    + apply IH; [by apply wrap_range|done|lia].
    + unfold cap_add. rewrite Z.add_0_r, (wrap_small 64 total) by done. apply IH; [done..|lia].
  - destruct (path_is_dir w p) eqn:Edir.
    + apply bind_Some in Hl as (ls & Hls & [= <-]). cbn [length] in Hf.
      rewrite (IH _ (us ++ ls) total Ht); [| |rewrite concat_app, length_app; lia].
      * rewrite concat_app, sum_sizes_app. do 2 f_equal. unfold sum_sizes at 4. cbn [map foldr]. rewrite size_at_dir by done. unfold sum_sizes. lia.
      * apply Forall2_app; [done|]. apply Forall2_fmap_l. apply mapM_Some in Hls. eapply Forall2_impl; [exact Hls|]. intros n l' Hl'. by exists depth.
    + injection Hl as <-. cbn [length] in Hf. unfold sum_sizes at 2. cbn [map foldr].
      apply orb_false_iff in Efile as [Ereg _]. rewrite size_at_special, !Z.add_0_r by done. apply IH; [done..|lia].
Qed.

(** The size of a path is the sum, in 64 bits, of the sizes of the files at and under it, each once; links to
    directories are not followed.  The loop needs one round for every path it finds, and ends. *)
Theorem recursiveSize_ok depth path l fuel :
  paths_under depth path = Some l -> (length l < fuel)%nat ->
  recursiveSizeInternal fuel w path = Some (u64 (sum_sizes l)).
Proof.
  intros Hl Hf. unfold recursiveSizeInternal. rewrite (recursiveSize_loop_ok fuel [path] [l] 0).
  - cbn [concat]. by rewrite app_nil_r.
  - by split.
  - constructor; [by exists depth|constructor].
  - cbn [concat]. by rewrite app_nil_r.
Qed.
End sizes.

(** ** The environment, and where programs are found *)

(** What POSIX says of [setenv] and [unsetenv] for a name without an equals sign that is not empty. *)
Class Environment (W : Type) `{!Host W, !HostCalls W} := {
  getenv_setenv (w : W) n v m : n <> [] -> Forall (fun c => c <> 61) n ->
    getenv (setenv n v w) m = if bytes_eqb m n then Some v else getenv w m;
  getenv_unsetenv (w : W) n m : n <> [] -> Forall (fun c => c <> 61) n ->
    getenv (unsetenv n w) m = if bytes_eqb m n then None else getenv w m;
}.

Section environment.
Context {W : Type} `{!Host W, !HostCalls W, !Environment W}.

(** What is set is found, and unsetting is setting to nothing; nothing else changes. *)
Theorem envGet_envSet (w : W) n v m :
  c_str n <> [] -> Forall (fun c => c <> 61) (c_str n) -> c_string v ->
  envGet (envSet n v w) m = if bytes_eqb (c_str m) (c_str n) then v else envGet w m.
Proof.
  intros Hn He Hv. unfold envGet, envSet, getEnvironmentVariable, setEnvironmentVariable. destruct v as [|c v].
  - rewrite getenv_unsetenv by done. by destruct (bytes_eqb _ _).
  - rewrite getenv_setenv by done. destruct (bytes_eqb _ _); [|done]. cbn [default]. by rewrite c_str_id.
Qed.

(** A library directory is searched before those that were there. *)
Lemma addLibrarySearchDir_ok (w : W) path :
  c_string path -> c_string (envGet w kLibrarySearchListEnvVarName) ->
  envGet (addLibrarySearchDir path w) kLibrarySearchListEnvVarName =
    match envGet w kLibrarySearchListEnvVarName with [] => path | old => path ++ 58 :: old end.
Proof.
  intros Hp Ho. unfold addLibrarySearchDir.
  rewrite envGet_envSet; [rewrite bytes_eqb_refl; by destruct (envGet w _)|by vm_compute|by vm_compute; repeat constructor|].
  destruct (envGet w _) as [|c old]; [done|]. apply Forall_app. split; [done|]. by constructor.
Qed.
End environment.

Section programs.
Context {W : Type} `{!Host W, !HostCalls W}.

(** Once known, the directory of the launcher is not read from the environment again. *)
Lemma getLauncherDirectory_cached (w w' : W) s dir s' :
  getLauncherDirectory w s = (dir, s') -> dir <> [] -> getLauncherDirectory w' s' = (dir, s').
Proof. unfold getLauncherDirectory. intros [= <- <-] Hd. cbn. by destruct (match mLauncherDir s with [] => _ | d => d end). Qed.

(** Where a program is looked for, in this order. *)
Definition program_candidates (w : W) (s : HostSystem) (name : bytes) : list bytes :=
  let dir := fst (getLauncherDirectory w s) in
  [path_div dir name; path_div (path_div dir (str "bin")) name] ++
  match envGet w (str "BUILD_WORKSPACE_DIRECTORY") with [] => [] | root => map (fun o => path_div (path_div root o) name) bazel_search end.

Lemma getLauncherDirectory_again (w : W) s : getLauncherDirectory w (snd (getLauncherDirectory w s)) = getLauncherDirectory w s.
Proof.
  unfold getLauncherDirectory. cbn [fst snd mLauncherDir mProgramDir mHomeDir]. destruct (mLauncherDir s); [|done].
  by destruct (envGet w (str "ANDROID_EMULATOR_LAUNCHER_DIR")).
Qed.

Theorem findBundledExecutable_ok (w : W) s name :
  fst (findBundledExecutable name w s) = default [] (List.find (path_is_regular w) (program_candidates w s name)).
Proof.
  unfold findBundledExecutable, program_candidates. unfold kExe. rewrite app_nil_r.
  pose proof (getLauncherDirectory_again w s) as E. destruct (getLauncherDirectory w s) as [dir s1]. cbn [fst snd app List.find] in *.
  destruct (path_is_regular w (path_div dir name)); [done|]. rewrite E. cbn [List.find].
  destruct (path_is_regular w (path_div (path_div dir (str "bin")) name)); [done|].
  destruct (envGet w _) as [|c root]; [done|]. by destruct (List.find _ _).
Qed.

(** ** Which file system *)

(** A path counts as being on ext4 when an ext4 file system is mounted at it or under it; where the path itself lies
    does not matter. *)
Theorem pathFileSystemIsExt4_ok (w : W) path :
  starts_with [47] (c_str path) = true -> Forall (fun d => starts_with [47] d = true) (get_all_ext4_mount_dirs w) ->
  pathFileSystemIsExt4Internal w path =
    Some (existsb (fun d => list_prefix (components (c_str path)) (components d)) (get_all_ext4_mount_dirs w)).
Proof.
  intros Hp Hd. assert (forall p, starts_with [47] p = true -> absolute w p = Some p) as Habs.
  { intros [|c p]; [done|]. unfold starts_with, absolute. cbn [strip_prefix]. rewrite (Z.eqb_sym 47 c). by destruct (c =? 47). }
  unfold pathFileSystemIsExt4Internal. induction Hd as [|d ds Hd _ IH]; cbn [any_mount existsb]; [done|].
  unfold dir_contains_path. rewrite !Habs by done. cbn [mbind option_bind]. by destruct (list_prefix _ _).
Qed.
End programs.

(** ** A small host *)

Record small_host := { things : list (bytes * (kind * bool * Z)); env : gmap bytes bytes; texts : gmap bytes bytes }.

Definition thing_at (w : small_host) (p : bytes) : option (kind * bool * Z) := snd <$> List.find (fun e => bytes_eqb (fst e) p) (things w).

#[export] Instance small_host_calls : Host small_host := {
  access w p _ := match thing_at w p with Some _ => None | None => Some ENOENT end;
  stat_of w p := match thing_at w p with Some (k, _, size) => inl (Stat k 0 0 size) | None => inr ENOENT end;
  readdir w p := omap (fun e => match strip_prefix (p ++ [47]) (fst e) with
      Some n => if bool_decide (Forall (fun c => c <> 47) n) then Some n else None | None => None end) (things w);
  mkdir _ _ w := (Some EIO, w); unlink _ w := (Some EIO, w); rmdir _ w := (Some EIO, w); creat _ w := (None, w);
  open _ w := (None, w); read _ _ w := (None, w); write _ _ _ w := (-1, w); lseek_end _ w := (-1, w);
  lseek_set _ w := (-1, w); close _ w := w;
}.

#[export] Instance small_more_calls : HostCalls small_host := {
  getenv w n := env w !! n;
  setenv n v w := {| things := things w; env := <[n := v]> (env w); texts := texts w |};
  unsetenv n w := {| things := things w; env := delete n (env w); texts := texts w |};
  lstat_link w p := match thing_at w p with Some (_, link, _) => link | None => false end;
  st_mtim _ _ := None; contents w p := texts w !! p; statvfs _ _ := None; exe_link _ := None; getcwd _ := None;
  pw_dir _ := None; remove_file _ w := (false, w);
}.

#[export] Instance small_environment : Environment small_host.
Proof.
  split; intros w n v; [intros m|revert v; intros m]; intros _ _; cbn;
    (destruct (bytes_eqb m n) eqn:E; [apply bytes_eqb_eq in E as ->; by rewrite ?lookup_insert_eq, ?lookup_delete_eq|]);
    rewrite ?lookup_insert_ne, ?lookup_delete_ne; try done; intros ->; by rewrite bytes_eqb_refl in E.
Qed.

Definition small : small_host := {|
  things := [(str "/a", (DIR, false, 4096)); (str "/a/x", (REG, false, 2 ^ 63)); (str "/a/b", (DIR, false, 4096));
             (str "/a/b/y", (REG, false, 2 ^ 63)); (str "/a/b/z", (REG, true, 7)); (str "/a/l", (DIR, true, 4096))];
  env := {[str "HOME" := str "/home/me"]};
  texts := <[str "/proc/self/mounts" := str "/dev/sda1 / ext4 rw 0 0" ++ [10]]> ∅ |}.

(** Two files whose sizes overflow together; the link to a directory counts nothing. *)
Lemma recursiveSize_ok_witness : recursiveSizeInternal 7 small (str "/a") = Some 7.
Proof.
  rewrite (recursiveSize_ok small 4 (str "/a") (map str ["/a"; "/a/b"; "/a/b/y"; "/a/b/z"; "/a/l"; "/a/x"]%string) 7).
  - vm_compute. reflexivity.
  - vm_compute. reflexivity.
  - apply Nat.ltb_lt. reflexivity.
Defined.

Lemma envGet_envSet_witness : envGet (envSet (str "A") (str "b") small) (str "A") = str "b".
Proof. refine (envGet_envSet small (str "A") (str "b") (str "A") _ _ _); [done|by repeat constructor|by repeat constructor]. Defined.

(** A file on the root file system, which is ext4, is said not to be. *)
Lemma pathFileSystemIsExt4_ok_witness :
  pathFileSystemIsExt4Internal small (str "/") = Some true /\ pathFileSystemIsExt4Internal small (str "/a/x") = Some false.
Proof.
  split; [rewrite (pathFileSystemIsExt4_ok small (str "/"))|rewrite (pathFileSystemIsExt4_ok small (str "/a/x"))];
    try reflexivity; vm_compute; repeat constructor.
Defined.

(** Without [lsb_release] the name of the system is asked of an empty text, and throws. *)
Example getOsName_throws : getOsName (Some []) [] = None.
Proof. reflexivity. Qed.

(** An exact match of one word is lost when another follows that the text does not contain. *)
Example match_lost : sMultiStringMatch (str "qemu") [str "qemu"; str "emulator"] false = false.
Proof. reflexivity. Qed.

(** Memory, as the kernel prints it. *)
Example getMemUsage_reads :
  let w := {| things := []; env := ∅; texts :=
    <[str "/proc/self/status" := str "Name:	emulator" ++ [10] ++ str "VmPeak:	  2000 kB" ++ [10] ++ str "VmRSS:	  1024 kB" ++ [10]]>
    (<[str "/proc/meminfo" := str "MemTotal:  16000000 kB" ++ [10] ++ str "MemAvailable:  500000 kB" ++ [10]]> ∅) |} in
  resident (getMemUsage w) = 1048576 /\ virt_max (getMemUsage w) = 2048000 /\ isUnderMemoryPressure w = (true, 512000000).
Proof. vm_compute. done. Qed.
