(* ===== verification/AllowList.v ===== *)
(** * The list of allowed gRPC methods

    Models [emulator/android-grpc/security]'s [AllowList.cpp] and [AllowList.h]: who
    may call which method, with a cache of the answers.  The regular expressions
    (RE2) and the reader of JSON are arguments. *)

From S2P Require Import Prelude.

(** ** The list *)

(** [None], [Green], [Yellow]. *)
Inductive AllowGroup := NoAuth | Green | Yellow.

#[export] Instance AllowGroup_eq : EqDecision AllowGroup.
Proof. solve_decision. Defined.

Definition UNPROTECTED : list Z := str "__everyone__".
Definition MAX_URI_CACHE : Z := 256.

(** A cache has a set of paths for each issuer of each group; an entry that is not
    there is empty. *)
Abbreviation cache := (AllowGroup -> list Z -> list (list Z)).

Definition with_set (c : cache) (color : AllowGroup) (iss : list Z) (s : list (list Z)) : cache :=
  fun g i => if decide (g = color /\ i = iss) then s else c g i.

(** [insert] of a path, with the random number for the element that makes room. *)
Definition cache_insert (rand : Z) (c : cache) (color : AllowGroup) (iss path : list Z) : cache :=
  let set := c color iss in
  let set := if MAX_URI_CACHE <=? zlen set then
               take (Z.to_nat (rand mod zlen set)) set ++ drop (S (Z.to_nat (rand mod zlen set))) set
             else set in
  with_set c color iss (if bool_decide (path ∈ set) then set else path :: set).

Section list.
Context {regex : Type} (FullMatch : list Z -> regex -> bool).

Abbreviation SecurityMap := (AllowGroup -> gmap (list Z) (list regex)).

Record CachingAllowList := { mSecurityMap : SecurityMap; mRejectionCache : cache; mAcceptCache : cache }.

Definition new_allow_list (m : SecurityMap) : CachingAllowList :=
  {| mSecurityMap := m; mRejectionCache := fun _ _ => []; mAcceptCache := fun _ _ => [] |}.

(** [isAllowed] with a group, under the lock. *)
Definition isAllowedGroup (rand : Z) (color : AllowGroup) (sub path : list Z) (l : CachingAllowList)
    : bool * CachingAllowList :=
  match mSecurityMap l color !! sub with
  | None => (false, l)
  | Some regexes =>
      if bool_decide (path ∈ mRejectionCache l color sub) then (false, l)
      else if bool_decide (path ∈ mAcceptCache l color sub) then (true, l)
      else if existsb (FullMatch path) regexes then
        (true, {| mSecurityMap := mSecurityMap l; mRejectionCache := mRejectionCache l;
                  mAcceptCache := cache_insert rand (mAcceptCache l) color sub path |})
      else
        (false, {| mSecurityMap := mSecurityMap l;
                   mRejectionCache := cache_insert rand (mRejectionCache l) color sub path;
                   mAcceptCache := mAcceptCache l |})
  end.

Definition requiresAuthentication (rand : Z) (path : list Z) (l : CachingAllowList) : bool * CachingAllowList :=
  let '(b, l) := isAllowedGroup rand NoAuth UNPROTECTED path l in (negb b, l).
Definition isAllowed (rand : Z) (sub path : list Z) (l : CachingAllowList) : bool * CachingAllowList :=
  isAllowedGroup rand Green sub path l.
Definition isProtected (rand : Z) (sub path : list Z) (l : CachingAllowList) : bool * CachingAllowList :=
  isAllowedGroup rand Yellow sub path l.

(** [!isAllowed && !isProtected]: the second is asked when the first refuses. *)
Definition isRed (rand1 rand2 : Z) (sub path : list Z) (l : CachingAllowList) : bool * CachingAllowList :=
  let '(b, l) := isAllowed rand1 sub path l in
  if b : bool then (false, l) else let '(b, l) := isProtected rand2 sub path l in (negb b, l).

(** ** The policy: what the lists say, without a cache *)

Definition policy (m : SecurityMap) (color : AllowGroup) (sub path : list Z) : bool :=
  match m color !! sub with Some regexes => existsb (FullMatch path) regexes | None => false end.

(** ** Histories *)

Inductive query := RequiresAuthentication (path : list Z) | IsAllowed (sub path : list Z)
  | IsProtected (sub path : list Z) | IsRed (sub path : list Z).

Definition answer (rand1 rand2 : Z) (q : query) (l : CachingAllowList) : bool * CachingAllowList :=
  match q with
  | RequiresAuthentication path => requiresAuthentication rand1 path l
  | IsAllowed sub path => isAllowed rand1 sub path l
  | IsProtected sub path => isProtected rand1 sub path l
  | IsRed sub path => isRed rand1 rand2 sub path l
  end.

Definition policy_answer (m : SecurityMap) (q : query) : bool :=
  match q with
  | RequiresAuthentication path => negb (policy m NoAuth UNPROTECTED path)
  | IsAllowed sub path => policy m Green sub path
  | IsProtected sub path => policy m Yellow sub path
  | IsRed sub path => negb (policy m Green sub path) && negb (policy m Yellow sub path)
  end.

Fixpoint answers (qs : list (query * (Z * Z))) (l : CachingAllowList) : list bool * CachingAllowList :=
  match qs with
  | [] => ([], l)
  | (q, (r1, r2)) :: qs =>
      let '(b, l) := answer r1 r2 q l in
      let '(bs, l) := answers qs l in
      (b :: bs, l)
  end.

(** ** The invariant: the caches know nothing wrong and stay small *)

Record cache_ok (m : SecurityMap) (want : bool) (c : cache) : Prop := {
  co_right color sub path : path ∈ c color sub -> policy m color sub path = want;
  co_size color sub : zlen (c color sub) <= MAX_URI_CACHE;
}.

Record list_ok (m : SecurityMap) (l : CachingAllowList) : Prop := {
  lo_map : mSecurityMap l = m;
  lo_reject : cache_ok m false (mRejectionCache l);
  lo_accept : cache_ok m true (mAcceptCache l);
}.

Lemma cache_insert_ok m want rand c color sub path :
  cache_ok m want c -> policy m color sub path = want -> cache_ok m want (cache_insert rand c color sub path).
Proof.
  intros [Hr Hs] Hp. unfold cache_insert. set (set := c color sub).
  set (set' := if MAX_URI_CACHE <=? zlen set then _ else set).
  assert (zlen set' < MAX_URI_CACHE /\ forall p, p ∈ set' -> p ∈ set) as [Hlen Hsub].
  { unfold set'. pose proof (Hs color sub) as Hmax. fold set in Hmax. unfold MAX_URI_CACHE in *.
    destruct (Z.leb_spec 256 (zlen set)) as [Hfull|]; [|split; [lia|done]].
    assert (0 <= rand mod zlen set < zlen set) as Hi by (apply Z.mod_pos_bound; lia).
    split.
    - rewrite zlen_app. unfold zlen in *. rewrite length_take, length_drop. lia.
    - intros p [(i & Hi' & _)%elem_of_take|Hp']%elem_of_app; [by eapply list_elem_of_lookup_2|].
      by eapply subseteq_drop. }
  constructor; intros color' sub'; [intros path'|]; unfold with_set; destruct (decide (color' = color /\ sub' = sub)) as [[-> ->]|].
  - case_bool_decide; [intros Hin; apply Hr; by apply Hsub|].
    intros [->|Hin]%elem_of_cons; [done|]. apply Hr. by apply Hsub.
  - apply Hr.
  - case_bool_decide; [lia|]. rewrite zlen_cons. lia.
  - apply Hs.
Qed.

Lemma isAllowedGroup_ok m rand color sub path l :
  list_ok m l ->
  fst (isAllowedGroup rand color sub path l) = policy m color sub path /\
  list_ok m (snd (isAllowedGroup rand color sub path l)).
Proof.
  intros Hl. pose proof Hl as [Hm Hr Ha]. unfold isAllowedGroup. rewrite Hm.
  destruct (m color !! sub) as [regexes|] eqn:E; [|unfold policy; by rewrite E].
  assert (policy m color sub path = existsb (FullMatch path) regexes) as Hp by (unfold policy; by rewrite E).
  case_bool_decide as H1; [split; [symmetry; by apply (co_right _ _ _ Hr)|done]|].
  case_bool_decide as H2; [split; [symmetry; by apply (co_right _ _ _ Ha)|done]|].
  destruct (existsb (FullMatch path) regexes) eqn:Ee; cbn [fst snd]; (split; [congruence|]);
    constructor; cbn; try done; by apply cache_insert_ok.
Qed.

Lemma answer_ok m r1 r2 q l :
  list_ok m l -> fst (answer r1 r2 q l) = policy_answer m q /\ list_ok m (snd (answer r1 r2 q l)).
Proof.
  intros Hl. destruct q as [path|sub path|sub path|sub path]; cbn [answer policy_answer].
  - unfold requiresAuthentication. destruct (isAllowedGroup_ok m r1 NoAuth UNPROTECTED path l Hl) as [H1 H2].
    destruct (isAllowedGroup _ _ _ _ l). cbn in *. by rewrite H1.
  - by apply isAllowedGroup_ok.
  - by apply isAllowedGroup_ok.
  - unfold isRed. destruct (isAllowedGroup_ok m r1 Green sub path l Hl) as [H1 H2]. unfold isAllowed.
    destruct (isAllowedGroup r1 Green sub path l) as [[|] l1]; cbn in *; [by rewrite <- H1|].
    destruct (isAllowedGroup_ok m r2 Yellow sub path l1 H2) as [H3 H4]. unfold isProtected.
    destruct (isAllowedGroup r2 Yellow sub path l1) as [b l2]. cbn in *. by rewrite <- H1, H3.
Qed.

Lemma new_allow_list_ok m : list_ok m (new_allow_list m).
Proof. constructor; [done| |]; constructor; by (intros ??? []%not_elem_of_nil || done). Qed.

(** C29: However often the list is asked, in whatever order, and whatever elements are
    thrown out of the caches, the answers are those of the policy, and no cache
    holds more than 256 paths. *)
Theorem allow_list_policy m qs :
  fst (answers qs (new_allow_list m)) = map (fun q => policy_answer m (fst q)) qs /\
  list_ok m (snd (answers qs (new_allow_list m))).
Proof.
  generalize (new_allow_list_ok m). generalize (new_allow_list m).
  induction qs as [|[q [r1 r2]] qs IH]; intros l Hl; [done|]. cbn [answers map fst].
  destruct (answer_ok m r1 r2 q l Hl) as [H1 H2]. destruct (answer r1 r2 q l) as [b l1]. cbn in H1, H2.
  destruct (IH l1 H2) as [H3 H4]. destruct (answers qs l1) as [bs l2]. cbn in *. by rewrite H1, H3.
Qed.
End list.

(** A list with a rule for the methods below [/a.]. *)
Definition prefix_match (path : list Z) (regex : list Z) : bool := starts_with regex path.
Definition sample_map : AllowGroup -> gmap (list Z) (list (list Z)) :=
  fun g => match g with Green => {[str "studio" := [str "/a."]]} | _ => ∅ end.

Example allow_list_sample :
  fst (answers prefix_match
    [(IsAllowed (str "studio") (str "/a.x"), (0, 0)); (IsRed (str "studio") (str "/b"), (0, 0));
     (IsAllowed (str "studio") (str "/a.x"), (0, 0)); (RequiresAuthentication (str "/a.x"), (0, 0))]
    (new_allow_list sample_map)) = [true; true; true; true].
Proof. vm_compute. reflexivity. Qed.

(** ** Reading the list

    JSON values; the order and repetition of fields is that of the reader, which
    keeps one value per name. *)

#[warnings="-register-all"]
Inductive json :=
  | JNull | JPrimitive | JString (s : list Z) | JArray (l : list json) | JObject (fields : list (list Z * json)).

(** What a range-based loop over a value runs through. *)
Definition elements (j : json) : list json :=
  match j with
  | JNull => []
  | JArray l => l
  | JObject fields => snd <$> fields
  | JPrimitive | JString _ => [j]
  end.

Definition field (j : json) (n : list Z) : option json :=
  match j with JObject fields => snd <$> List.find (fun f => bytes_eqb (fst f) n) fields | _ => None end.
Definition count (j : json) (n : list Z) : bool := match field j n with Some _ => true | None => false end.

Section read.
Context {regex : Type}.
(** A regular expression that is not valid is [None]. *)
Context (compile : list Z -> option regex).

Abbreviation SecurityMap := (AllowGroup -> gmap (list Z) (list regex)).

(** [None] is the exception of a value that is not a string. *)
Definition get_string (j : json) : option (list Z) := match j with JString s => Some s | _ => None end.

Fixpoint parse_regexes (es : list json) : option (list regex) :=
  match es with
  | [] => Some []
  | e :: es =>
      expr ← get_string e;
      access ← parse_regexes es;
      Some (match compile expr with Some re => re :: access | None => access end)
  end.

Definition parseAccessList (j : json) : option (list regex) := parse_regexes (elements j).

Definition set_access (color : AllowGroup) (iss : list Z) (l : list regex) (m : SecurityMap) : SecurityMap :=
  fun g => if decide (g = color) then <[iss := l]> (m g) else m g.

(** A list of a group in an entry, when the entry has it. *)
Definition set_from (color : AllowGroup) (n : string) (iss : list Z) (entry : json) (m : SecurityMap) : option SecurityMap :=
  match field entry (str n) with
  | Some j => l ← parseAccessList j; Some (set_access color iss l m)
  | None => Some m
  end.

(** One entry of the allowlist. *)
Definition parse_entry (entry : json) (m : SecurityMap) : option SecurityMap :=
  match field entry (str "iss") with
  | None => Some m
  | Some j =>
      if negb (count entry (str "allowed")) && negb (count entry (str "protected")) then Some m
      else
        iss ← get_string j;
        if bytes_eqb iss UNPROTECTED then Some m
        else m ← set_from Green "allowed" iss entry m; set_from Yellow "protected" iss entry m
  end.

Fixpoint parse_entries (es : list json) (m : SecurityMap) : option SecurityMap :=
  match es with [] => Some m | e :: es => m ← parse_entry e m; parse_entries es m end.

(** An allow list that denies everything, or the one of the file. *)
Inductive AllowList := DisableAccess | Caching (l : @CachingAllowList regex).

(** A text that is not JSON is [None]. *)
Definition parseJsonObject (jsonObject : option json) : option AllowList :=
  match jsonObject with
  | None => Some DisableAccess
  | Some j =>
      m ← (match field j (str "unprotected") with
           | Some u => l ← parseAccessList u; Some (set_access NoAuth UNPROTECTED l (fun _ => ∅))
           | None => Some (fun _ => ∅)
           end);
      m ← (match field j (str "allowlist") with
           | Some entries => parse_entries (elements entries) m
           | None => Some m
           end);
      Some (Caching (new_allow_list m))
  end.

(** *** What the file says: the last entry of an issuer counts *)

Definition entry_list (n : string) (iss : list Z) (entry : json) : option (list regex) :=
  match field entry (str "iss") with
  | Some (JString i) => if bytes_eqb i iss then field entry (str n) ≫= parseAccessList else None
  | _ => None
  end.

Fixpoint last_list (n : string) (iss : list Z) (es : list json) : option (list regex) :=
  match es with
  | [] => None
  | e :: es => match last_list n iss es with Some l => Some l | None => entry_list n iss e end
  end.

Definition allowlist_entries (j : json) : list json :=
  match field j (str "allowlist") with Some entries => elements entries | None => [] end.

Definition group_name (color : AllowGroup) : string := match color with Yellow => "protected" | _ => "allowed" end.

Lemma set_from_spec color n iss entry m m' g sub :
  set_from color n iss entry m = Some m' ->
  m' g !! sub = if decide (g = color /\ sub = iss) then
                  match field entry (str n) ≫= parseAccessList with Some l => Some l | None => m g !! sub end
                else m g !! sub.
Proof.
  unfold set_from. destruct (field entry (str n)) as [j|]; cbn [mbind option_bind];
    [|intros [= <-]; by destruct (decide _)].
  destruct (parseAccessList j) as [l|]; [|done]. intros [= <-]. unfold set_access.
  destruct (decide (g = color)) as [->|], (decide _) as [[? ->]|Hn]; try done; try naive_solver.
  - by rewrite lookup_insert_eq.
  - rewrite lookup_insert_ne; [done|naive_solver].
Qed.

Lemma parse_entry_spec entry m m' color sub :
  parse_entry entry m = Some m' -> color <> NoAuth -> sub <> UNPROTECTED ->
  m' color !! sub = match entry_list (group_name color) sub entry with Some l => Some l | None => m color !! sub end.
Proof.
  unfold parse_entry, entry_list. intros E Hc Hsub. destruct (field entry (str "iss")) as [j|]; [|by injection E as <-].
  destruct (negb (count entry (str "allowed")) && negb (count entry (str "protected"))) eqn:Hno.
  { injection E as <-. apply andb_true_iff in Hno as [H1%negb_true_iff H2%negb_true_iff]. unfold count in *.
    destruct j as [| |i| |]; try done. destruct (bytes_eqb i sub); [|done].
    destruct color; [done|cbn [group_name]..];
      [destruct (field entry (str "allowed"))|destruct (field entry (str "protected"))]; done. }
  destruct j as [| |i| |]; cbn [get_string mbind option_bind] in E; try done.
  destruct (bytes_eqb_spec i UNPROTECTED) as [->|Hi].
  { injection E as <-. destruct (bytes_eqb_spec UNPROTECTED sub) as [<-|]; [done|done]. }
  destruct (set_from Green "allowed" i entry m) as [m1|] eqn:E1; [|done]. cbn [mbind option_bind] in E.
  rewrite (set_from_spec _ _ _ _ _ _ color sub E), (set_from_spec _ _ _ _ _ _ color sub E1).
  destruct (bytes_eqb_spec i sub) as [->|Hne].
  - destruct color; [done|..]; cbn [group_name];
      (destruct (decide _) as [[? _]|Hn1]; [|try naive_solver]);
      (destruct (decide _) as [[? _]|Hn2]; [|try naive_solver]); try done; try naive_solver.
  - destruct (decide _) as [[_ ->]|]; [done|]. destruct (decide _) as [[_ ->]|]; done.
Qed.

Lemma parse_entry_reserved entry m m' :
  parse_entry entry m = Some m' ->
  m' NoAuth = m NoAuth /\ (forall color, color <> NoAuth -> m' color !! UNPROTECTED = m color !! UNPROTECTED).
Proof.
  unfold parse_entry. destruct (field entry (str "iss")) as [j|]; [|by intros [= <-]].
  destruct (_ && _); [by intros [= <-]|]. destruct (get_string j) as [i|]; [|done]. cbn [mbind option_bind].
  destruct (bytes_eqb_spec i UNPROTECTED) as [->|Hi]; [by intros [= <-]|].
  destruct (set_from Green "allowed" i entry m) as [m1|] eqn:E1; [|done]. cbn [mbind option_bind]. intros E2. split.
  - apply map_eq. intros k. rewrite (set_from_spec _ _ _ _ _ _ NoAuth k E2), (set_from_spec _ _ _ _ _ _ NoAuth k E1).
    by rewrite !decide_False by (by intros []).
  - intros color Hc. rewrite (set_from_spec _ _ _ _ _ _ color UNPROTECTED E2), (set_from_spec _ _ _ _ _ _ color UNPROTECTED E1).
    by rewrite !decide_False by (by intros [_ <-]).
Qed.

Lemma parse_entries_spec es m m' :
  parse_entries es m = Some m' ->
  m' NoAuth = m NoAuth /\
  (forall color, color <> NoAuth -> m' color !! UNPROTECTED = m color !! UNPROTECTED) /\
  (forall color sub, color <> NoAuth -> sub <> UNPROTECTED ->
     m' color !! sub = match last_list (group_name color) sub es with Some l => Some l | None => m color !! sub end).
Proof.
  revert m. induction es as [|e es IH]; intros m E; cbn [parse_entries] in E; [by injection E as <-|].
  destruct (parse_entry e m) as [m1|] eqn:E1; [|done]. cbn [mbind option_bind] in E.
  destruct (IH m1 E) as (H1 & H2 & H3). destruct (parse_entry_reserved _ _ _ E1) as [R1 R2]. split_and!.
  - congruence.
  - intros color Hc. by rewrite H2, R2.
  - intros color sub Hc Hsub. rewrite H3 by done. cbn [last_list]. destruct (last_list _ _ es); [done|].
    by apply parse_entry_spec.
Qed.

(** The caches of a list that was just read are empty. *)
Lemma parseJsonObject_fresh j a :
  parseJsonObject j = Some a ->
  match a with DisableAccess => True | Caching l => l = new_allow_list (mSecurityMap l) end.
Proof.
  unfold parseJsonObject. destruct j as [j|]; [|by intros [= <-]].
  destruct (match field j (str "unprotected") with Some _ => _ | None => _ end) as [m|]; [|done].
  cbn [mbind option_bind]. destruct (match field j (str "allowlist") with Some _ => _ | None => _ end) as [m'|]; [|done].
  by intros [= <-].
Qed.

(** What the file says is the policy: the unprotected methods for everyone, and for
    an issuer the lists of the last entry that names it; the name that stands for
    everyone is nobody's.  A text that is not JSON denies everything. *)
Theorem parse_allow_list j a :
  parseJsonObject j = Some a ->
  match j with
  | None => a = DisableAccess
  | Some j =>
      exists m, a = Caching (new_allow_list m) /\
        m NoAuth !! UNPROTECTED = field j (str "unprotected") ≫= parseAccessList /\
        (forall color, color <> NoAuth -> m color !! UNPROTECTED = None) /\
        (forall color sub, color <> NoAuth -> sub <> UNPROTECTED ->
           m color !! sub = last_list (group_name color) sub (allowlist_entries j))
  end.
Proof.
  destruct j as [j|]; cbn [parseJsonObject]; [|by intros [= <-]]. unfold allowlist_entries. intros E.
  assert (exists m0, (match field j (str "unprotected") with
     | Some u => l ← parseAccessList u; Some (set_access NoAuth UNPROTECTED l (fun _ => ∅))
     | None => Some (fun _ => ∅)
     end) = Some m0 /\ m0 NoAuth !! UNPROTECTED = field j (str "unprotected") ≫= parseAccessList /\
     forall color, color <> NoAuth -> m0 color = ∅) as (m0 & E0 & H0 & H1).
  { destruct (field j (str "unprotected")) as [u|]; cbn [mbind option_bind] in *; [|by eexists].
    destruct (parseAccessList u) as [l|]; [|done]. eexists. split; [done|]. unfold set_access. split.
    - by rewrite decide_True, lookup_insert_eq by done.
    - intros color Hc. by rewrite decide_False by done. }
  rewrite E0 in E. cbn [mbind option_bind] in E.
  destruct (field j (str "allowlist")) as [entries|].
  - destruct (parse_entries (elements entries) m0) as [m1|] eqn:E1; [|done]. injection E as <-.
    destruct (parse_entries_spec _ _ _ E1) as (R1 & R2 & R3). exists m1. split_and!; [done|by rewrite R1| |].
    + intros color Hc. by rewrite R2, H1, lookup_empty by done.
    + intros color sub Hc Hsub. rewrite R3, H1, lookup_empty by done. by destruct (last_list _ _ _).
  - injection E as <-. exists m0. split_and!; [done|done| |]; intros; by rewrite H1, lookup_empty.
Qed.
End read.

Definition sample_json : json :=
  JObject [(str "unprotected", JArray [JString (str "/health.")]);
           (str "allowlist", JArray [
              JObject [(str "iss", JString (str "studio")); (str "allowed", JArray [JString (str "/a.")])];
              JObject [(str "iss", JString UNPROTECTED); (str "allowed", JArray [JString (str "/")])];
              JObject [(str "iss", JString (str "studio")); (str "protected", JArray [JString (str "/b.")])]])].

Lemma parse_allow_list_witness :
  exists m, parseJsonObject Some (Some sample_json) = Some (Caching (new_allow_list m)) /\
    m Green !! str "studio" = Some [str "/a."] /\ m Yellow !! str "studio" = Some [str "/b."] /\
    m Green !! UNPROTECTED = None.
Proof.
  assert ((match parseJsonObject Some (Some sample_json) with Some _ => true | None => false end) = true) as Hs
    by (vm_compute; reflexivity).
  destruct (parseJsonObject Some (Some sample_json)) as [a|] eqn:E; [|discriminate].
  destruct (parse_allow_list Some (Some sample_json) a E) as (m & -> & _ & H2 & H3). exists m.
  split; [done|]. rewrite !H3, H2 by done. split; [|split]; vm_compute; reflexivity.
Defined.
