(* ===== verification/GrpcAuth.v ===== *)
(** * Authentication of gRPC calls

    Models [emulator/android-grpc/security]'s [BasicTokenAuth.cpp] and
    [JwtTokenAuth.cpp], who decide on every call.  Tink's verification of signed tokens is an
    argument. *)

From S2P Require Import Prelude CText AllowList.

(** ** Statuses *)

(** [Tink] stands for an error of the library. *)
Inductive status := OK | INTERNAL | UNAUTHENTICATED | PERMISSION_DENIED | Tink.

#[export] Instance status_eq : EqDecision status.
Proof. solve_decision. Defined.

Definition DEFAULT_BEARER : bytes := str "Bearer ".
Definition DEFAULT_HEADER : bytes := str "authorization".
Definition PATH : bytes := str ":path".

(** The claims of a verified token; a claim that is missing or of another type is
    [None]. *)
Record jwt := { GetIssuer : option (list Z); GetAudiences : option (list (list Z)) }.

Section auth.
Context {regex keyset : Type} (FullMatch : list Z -> regex -> bool).
(** Tink: the primitive of a key set may fail; a token may not verify. *)
Context (VerifyAndDecode : keyset -> list Z -> option jwt).

(** Random numbers for the caches during one call. *)
Abbreviation rands := (nat -> Z).

(** The allow list: one that denies everything, or a caching one. *)
Definition al_requires (r : rands) (path : list Z) (a : @AllowList regex) : bool * @AllowList regex :=
  match a with
  | DisableAccess => (true, a)
  | Caching l => let '(b, l) := requiresAuthentication FullMatch (r 0%nat) path l in (b, Caching l)
  end.
Definition al_isAllowed (r : rands) (sub path : list Z) (a : @AllowList regex) : bool * @AllowList regex :=
  match a with
  | DisableAccess => (false, a)
  | Caching l => let '(b, l) := isAllowed FullMatch (r 1%nat) sub path l in (b, Caching l)
  end.
Definition al_isRed (r : rands) (sub path : list Z) (a : @AllowList regex) : bool * @AllowList regex :=
  match a with
  | DisableAccess => (true, a)
  | Caching l => let '(b, l) := isRed FullMatch (r 2%nat) (r 3%nat) sub path l in (b, Caching l)
  end.

(** ** The validators *)

Inductive validator :=
  | StaticTokenAuth (mStaticToken mIssuer : list Z)
  | JwtTokenAuth (mActiveKeyset : option keyset).

Definition new_StaticTokenAuth (token iss : list Z) : validator := StaticTokenAuth (DEFAULT_BEARER ++ token) iss.

Definition count_dots (token : list Z) : Z := zlen (filter (fun c => c = 46) token).

Definition canHandleToken (v : validator) (token : list Z) : bool :=
  match v with
  | StaticTokenAuth mStaticToken _ => bytes_eqb token mStaticToken
  | JwtTokenAuth _ => if zlen token <=? zlen DEFAULT_BEARER then false else count_dots token =? 2
  end.

(** [JwtTokenAuth::isTokenValid] for a verified token. *)
Definition jwt_valid (r : rands) (path : list Z) (t : jwt) (a : @AllowList regex) : status * @AllowList regex :=
  match GetIssuer t with
  | None => (UNAUTHENTICATED, a)
  | Some iss =>
      let '(b, a) := al_isAllowed r iss path a in
      if b : bool then (OK, a)
      else
        let '(red, a) := al_isRed r iss path a in
        if red : bool then (PERMISSION_DENIED, a)
        else
          match GetAudiences t with
          | None => (PERMISSION_DENIED, a)
          | Some audiences => if existsb (bytes_eqb path) audiences then (OK, a) else (PERMISSION_DENIED, a)
          end
  end.

Definition isTokenValid (r : rands) (v : validator) (path token : list Z) (a : @AllowList regex) : status * @AllowList regex :=
  match v with
  | StaticTokenAuth _ mIssuer =>
      if negb (canHandleToken v token) then (UNAUTHENTICATED, a)
      else
        let '(red, a) := al_isRed r mIssuer path a in
        if red : bool then (PERMISSION_DENIED, a) else (OK, a)
  | JwtTokenAuth mActiveKeyset =>
      let offset := zlen DEFAULT_BEARER in
      if zlen token <=? offset then (UNAUTHENTICATED, a)
      else
        match mActiveKeyset with
        | None => (UNAUTHENTICATED, a)
        | Some keys =>
            match VerifyAndDecode keys (drop (Z.to_nat offset) token) with
            | None => (Tink, a)
            | Some t => jwt_valid r path t a
            end
        end
  end.

(** [AnyTokenAuth]. *)
Definition any_canHandleToken (mValidators : list validator) (token : list Z) : bool :=
  match mValidators with [] => true | _ => existsb (fun v => canHandleToken v token) mValidators end.

Definition any_isTokenValid (r : rands) (mValidators : list validator) (path token : list Z) (a : @AllowList regex)
    : status * @AllowList regex :=
  match mValidators with
  | [] => (OK, a)
  | _ => match List.find (fun v => canHandleToken v token) mValidators with
         | Some v => isTokenValid r v path token a
         | None => (INTERNAL, a)
         end
  end.

(** ** A call: the metadata of the client, as the library hands them over *)

Abbreviation metadata := (list (list Z * list Z)).

Definition find_meta (m : metadata) (k : list Z) : option (list Z) :=
  snd <$> List.find (fun kv => bytes_eqb (fst kv) k) m.

(** [BasicTokenAuth::Process] of [AnyTokenAuth]. *)
Definition Process (r : rands) (mValidators : list validator) (auth_metadata : metadata) (a : @AllowList regex)
    : status * @AllowList regex :=
  match find_meta auth_metadata PATH with
  | None => (INTERNAL, a)
  | Some uri =>
      let '(req, a) := al_requires r uri a in
      if negb req then (OK, a)
      else
        match find_meta auth_metadata DEFAULT_HEADER with
        | None => (UNAUTHENTICATED, a)
        | Some token =>
            if negb (any_canHandleToken mValidators token) then (UNAUTHENTICATED, a)
            else any_isTokenValid r mValidators uri token a
        end
  end.

(** Calls in the order in which they take the lock of the list; the validators may
    change between calls, as key files come and go. *)
Fixpoint process_all (calls : list (rands * list validator * metadata)) (a : @AllowList regex)
    : list status * @AllowList regex :=
  match calls with
  | [] => ([], a)
  | (r, vs, m) :: calls =>
      let '(s, a) := Process r vs m a in
      let '(ss, a) := process_all calls a in
      (s :: ss, a)
  end.

(** ** The policy, without state *)

Definition al_policy (m : option (AllowGroup -> gmap (list Z) (list regex))) (color : AllowGroup) (sub path : list Z) : bool :=
  match m with Some m => policy FullMatch m color sub path | None => false end.

Section policy.
Context (m : option (AllowGroup -> gmap (list Z) (list regex))).

(** What a validator lets through. *)
Definition accepts (v : validator) (path token : list Z) : Prop :=
  match v with
  | StaticTokenAuth t iss => token = t /\ (al_policy m Green iss path = true \/ al_policy m Yellow iss path = true)
  | JwtTokenAuth keys =>
      exists ks t iss, keys = Some ks /\ VerifyAndDecode ks (drop 7 token) = Some t /\ GetIssuer t = Some iss /\
        (al_policy m Green iss path = true \/
         al_policy m Yellow iss path = true /\ exists auds, GetAudiences t = Some auds /\ path ∈ auds)
  end.

(** Who gets in: everyone, to an unprotected method; else who has a token that the
    first validator that takes the token accepts for the method. *)
Definition authorised (vs : list validator) (md : metadata) : Prop :=
  exists path, find_meta md PATH = Some path /\
    (al_policy m NoAuth UNPROTECTED path = true \/
     exists token, find_meta md DEFAULT_HEADER = Some token /\
       (vs = [] \/
        exists v, List.find (fun v => canHandleToken v token) vs = Some v /\ accepts v path token)).

(** An allow list object with the policy. *)
Definition al_ok (a : @AllowList regex) : Prop :=
  match m, a with
  | None, DisableAccess => True
  | Some m, Caching l => list_ok FullMatch m l
  | _, _ => False
  end.

Lemma al_requires_ok r path a :
  al_ok a -> fst (al_requires r path a) = negb (al_policy m NoAuth UNPROTECTED path) /\ al_ok (snd (al_requires r path a)).
Proof.
  unfold al_ok, al_requires, al_policy. intros H. destruct m as [m'|], a as [|l]; try done.
  destruct (answer_ok FullMatch m' (r 0%nat) 0 (RequiresAuthentication path) l H) as [H1 H2]. cbn in H1, H2.
  by destruct (requiresAuthentication FullMatch (r 0%nat) path l).
Qed.

Lemma al_isAllowed_ok r sub path a :
  al_ok a -> fst (al_isAllowed r sub path a) = al_policy m Green sub path /\ al_ok (snd (al_isAllowed r sub path a)).
Proof.
  unfold al_ok, al_isAllowed, al_policy. intros H. destruct m as [m'|], a as [|l]; try done.
  destruct (answer_ok FullMatch m' (r 1%nat) 0 (IsAllowed sub path) l H) as [H1 H2]. cbn in H1, H2.
  by destruct (isAllowed FullMatch (r 1%nat) sub path l).
Qed.

Lemma al_isRed_ok r sub path a :
  al_ok a ->
  fst (al_isRed r sub path a) = negb (al_policy m Green sub path) && negb (al_policy m Yellow sub path) /\
  al_ok (snd (al_isRed r sub path a)).
Proof.
  unfold al_ok, al_isRed, al_policy. intros H. destruct m as [m'|], a as [|l]; try done.
  destruct (answer_ok FullMatch m' (r 2%nat) (r 3%nat) (IsRed sub path) l H) as [H1 H2]. cbn [answer policy_answer] in H1, H2.
  by destruct (isRed FullMatch (r 2%nat) (r 3%nat) sub path l).
Qed.

Lemma existsb_bytes p l : existsb (bytes_eqb p) l = true <-> p ∈ l.
Proof.
  rewrite existsb_exists. split.
  - intros (x & Hin & ->%bytes_eqb_eq). by apply list_elem_of_In.
  - intros Hin. exists p. split; [by apply list_elem_of_In|apply bytes_eqb_refl].
Qed.

Lemma jwt_valid_ok r path t a :
  al_ok a ->
  (fst (jwt_valid r path t a) = OK <->
     exists iss, GetIssuer t = Some iss /\
       (al_policy m Green iss path = true \/
        al_policy m Yellow iss path = true /\ exists auds, GetAudiences t = Some auds /\ path ∈ auds)) /\
  al_ok (snd (jwt_valid r path t a)).
Proof.
  intros Ha. unfold jwt_valid. destruct (GetIssuer t) as [iss|]; [|split; [split; [done|naive_solver]|done]].
  destruct (al_isAllowed_ok r iss path a Ha) as [H1 H2]. destruct (al_isAllowed r iss path a) as [b a1]. cbn in H1, H2.
  destruct b; [split; [naive_solver|done]|].
  destruct (al_isRed_ok r iss path a1 H2) as [H3 H4]. destruct (al_isRed r iss path a1) as [red a2]. cbn in H3, H4.
  rewrite <- H1 in H3. cbn [negb andb] in H3. destruct (al_policy m Yellow iss path) eqn:Hy; cbn [negb] in H3; subst red.
  2: { split; [|done]. split; [done|]. intros (i & [= <-] & [?|[? _]]); congruence. }
  destruct (GetAudiences t) as [auds|]; [|split; [split; [done|]|done]; intros (i & [= <-] & [?|(_ & ? & ? & _)]); congruence].
  destruct (existsb (bytes_eqb path) auds) eqn:Hin; (split; [|done]).
  - apply existsb_bytes in Hin. naive_solver.
  - split; [done|]. intros (i & [= <-] & [?|(_ & ? & [= <-] & Hp)]); [congruence|].
    apply existsb_bytes in Hp. congruence.
Qed.

Lemma isTokenValid_ok r v path token a :
  al_ok a -> canHandleToken v token = true ->
  (fst (isTokenValid r v path token a) = OK <-> accepts v path token) /\ al_ok (snd (isTokenValid r v path token a)).
Proof.
  intros Ha Hc. destruct v as [t iss|keys]; cbn [isTokenValid accepts].
  - rewrite Hc. cbn [negb]. cbn in Hc. apply bytes_eqb_eq in Hc as ->.
    destruct (al_isRed_ok r iss path a Ha) as [H1 H2]. destruct (al_isRed r iss path a) as [red a1]. cbn in H1, H2. subst red.
    destruct (al_policy m Green iss path), (al_policy m Yellow iss path); cbn; (split; [|done]); naive_solver.
  - unfold canHandleToken in Hc. change (zlen DEFAULT_BEARER) with 7 in *. destruct (zlen token <=? 7); [discriminate|].
    change (Z.to_nat 7) with 7%nat. destruct keys as [ks|]; [|split; [split; [discriminate|naive_solver]|exact Ha]].
    destruct (VerifyAndDecode ks (drop 7 token)) as [t|] eqn:E; [|split; [split; [discriminate|]|exact Ha]; intros (? & ? & ? & [= <-] & ? & _); congruence].
    destruct (jwt_valid_ok r path t a Ha) as [H1 H2]. split; [|done]. rewrite H1. naive_solver.
Qed.

Lemma Process_ok r vs md a :
  al_ok a -> (fst (Process r vs md a) = OK <-> authorised vs md) /\ al_ok (snd (Process r vs md a)).
Proof.
  intros Ha. unfold Process, authorised. generalize (find_meta md DEFAULT_HEADER). intros header.
  destruct (find_meta md PATH) as [path|].
  2: { split; [|exact Ha]. split; [discriminate|]. intros (? & ? & _). discriminate. }
  destruct (al_requires_ok r path a Ha) as [H1 H2]. destruct (al_requires r path a) as [req a1]. cbn [fst snd] in H1, H2. subst req.
  destruct (al_policy m NoAuth UNPROTECTED path) eqn:Hno; cbn [negb].
  { split; [idtac|exact H2]. split; [|reflexivity]. intros _. exists path. auto. }
  destruct header as [token|].
  2: { split; [|done]. split; [done|]. intros (p & [= <-] & [?|(? & ? & _)]); congruence. }
  destruct vs as [|v0 vs].
  { split; [idtac|exact H2]. split; [|reflexivity]. intros _. exists path. split; [done|]. right. exists token. auto. }
  set (l := v0 :: vs).
  change (any_canHandleToken l token) with (existsb (fun v => canHandleToken v token) l).
  change (any_isTokenValid r l path token a1) with
    (match List.find (fun v => canHandleToken v token) l with
     | Some v => isTokenValid r v path token a1 | None => (INTERNAL, a1) end).
  destruct (List.find (fun v => canHandleToken v token) l) as [v|] eqn:Hf.
  - apply List.find_some in Hf as Hf'. destruct Hf' as [Hin Hcan].
    assert (existsb (fun v => canHandleToken v token) l = true) as -> by (apply existsb_exists; eauto). cbn [negb].
    destruct (isTokenValid_ok r v path token a1 H2 Hcan) as [H3 H4]. split; [|done]. rewrite H3. split.
    + intros Hacc. exists path. split; [done|]. right. exists token. split; [done|]. right. eauto.
    + intros (p & [= <-] & [?|(t & [= <-] & [?|(v' & E & Hacc)])]); [congruence|done|]. rewrite Hf in E. by injection E as <-.
  - assert (existsb (fun v => canHandleToken v token) l = false) as ->.
    { apply not_true_iff_false. intros (v & Hin & Hv)%existsb_exists. by rewrite (List.find_none _ _ Hf v Hin) in Hv. }
    cbn [negb]. split; [|done]. split; [done|].
    intros (p & [= <-] & [?|(t & [= <-] & [?|(v' & E & _)])]); [congruence|discriminate|rewrite Hf in E; discriminate].
Qed.

(** Calls are let through exactly by the policy, whatever calls came before them:
    a method that is unprotected, or a token that is the static one with the method
    on a list of its issuer, or a signed one whose issuer has the method on its
    green list, or on its yellow list with the method among the audiences. *)
Lemma process_all_ok calls a :
  al_ok a ->
  Forall2 (fun call s => s = OK <-> authorised (snd (fst call)) (snd call)) calls (fst (process_all calls a)).
Proof.
  revert a. induction calls as [|[[r vs] md] calls IH]; intros a Ha; cbn [process_all]; [constructor|].
  destruct (Process_ok r vs md a Ha) as [H1 H2]. destruct (Process r vs md a) as [s a1]. cbn in H1, H2.
  specialize (IH a1 H2). destruct (process_all calls a1) as [ss a2]. by constructor.
Qed.
End policy.
End auth.
