(* ===== verification/Jwk.v ===== *)
(** * The keys in a directory

    Models [JwkKeyLoader.cpp] and [JwkDirectoryObserver.cpp] of [emulator/android-grpc],
    the watcher of [FileSystemWatcherPosix.cpp] and the callback of [JwtTokenAuth.cpp]:
    every provider of keys puts a file into a directory; what is there is loaded, changes
    are followed, and the keys that are active are given to the validator of tokens and
    written next to the others.  Other programs change the directory at any time, also
    while the observer sleeps.  JSON and Tink's key sets are interfaces. *)

From stdpp Require Import sorting.
From S2P Require Import Prelude CText.

Abbreviation path := bytes.

(** ** JSON and Tink *)

(** Keys, key sets; [json::accept]; the conversions of Tink; the "keys" of the text of a set, and the text of a set of keys. *)
Class Tink (K H : Type) := {
  accept : bytes -> bool;
  JwkSetToPublicKeysetHandle : bytes -> option H;
  JwkSetFromPublicKeysetHandle : H -> option bytes;
  keys_array : bytes -> list K;
  combined : list K -> bytes;
}.

(** The keys a file can stand for: those of a set that was converted both ways. *)
Definition genuine {K H} `{Tink K H} (keys : list K) : Prop :=
  exists s h j, JwkSetToPublicKeysetHandle s = Some h /\ JwkSetFromPublicKeysetHandle h = Some j /\ keys_array j = keys.

(** A set is converted key by key: genuine keys together are a set again, of these keys. *)
Class TinkLaws (K H : Type) `{Tink K H} := {
  handle_keys : H -> list K;
  combined_converts : forall l, l <> [] -> Forall genuine l ->
    exists h, JwkSetToPublicKeysetHandle (combined (concat l)) = Some h /\ handle_keys h ≡ₚ concat l;
}.

(** ** The directory *)

(** [opens]: whether it can be opened; [fails]: whether reading it fails; [kept]: whether it cannot be deleted. *)
Record file := { text : bytes; canRead : bool; opens : bool; fails : bool; kept : bool }.

Definition plain (s : bytes) : file := {| text := s; canRead := true; opens := true; fails := false; kept := false |}.

Inductive WatcherChangeType := Created | Changed | Deleted.

(** The files, whether the directory is watched, and the changes that were not handled yet. *)
Record dir := { files : gmap path file; watched : bool; pending : list (WatcherChangeType * path) }.

Definition report (c : WatcherChangeType) (p : path) (d : dir) (fs : gmap path file) : dir :=
  {| files := fs; watched := watched d; pending := if watched d then pending d ++ [(c, p)] else pending d |}.

Definition write_file (p : path) (f : file) (d : dir) : dir :=
  report (match files d !! p with Some _ => Changed | None => Created end) p d (<[p := f]> (files d)).

Definition remove_file (p : path) (d : dir) : dir :=
  match files d !! p with Some _ => report Deleted p d (delete p (files d)) | None => d end.

(** [System::deleteFile]. *)
Definition deleteFile (p : path) (d : dir) : dir :=
  match files d !! p with Some f => if kept f then d else remove_file p d | None => d end.

(** [System::scanDirEntries]: the files in order. *)
Definition scanDirEntries (d : dir) : list path := merge_sort bytes_le (elements (dom (files d))).

(** What other programs do. *)
Inductive action := Write (p : path) (f : file) | Remove (p : path).
Definition act (a : action) (d : dir) : dir := match a with Write p f => write_file p f d | Remove p => remove_file p d end.
Definition acts (l : list action) (d : dir) : dir := foldl (fun d a => act a d) d l.

(** ** The loader of keys *)

Inductive status := OkStatus | NotFound | Unavailable | PermissionDenied | Internal.

Definition MAX_JWK_SIZE : Z := 8 * 1024.

Section observer.
Context {K H : Type} `{Tink K H}.

(** Reading a file that is there. *)
Definition read_text (f : file) : bytes + status :=
  if negb (canRead f) then inr NotFound
  else
    let fileSize := if opens f then zlen (text f) else -1 in
    if fileSize =? 0 then inr Unavailable
    else if negb (opens f) then inr Unavailable
    else if MAX_JWK_SIZE <? fileSize then inr PermissionDenied
    else if fails f then inr Internal
    else inl (text f).

Definition readFile (fname : path) (d : dir) : bytes + status :=
  match files d !! fname with None => inr NotFound | Some f => read_text f end.

Abbreviation keymap := (gmap path (list K)).

(** [add] of a text: the keys it gives. *)
Definition add_text (jsonString : bytes) : list K + status :=
  match JwkSetToPublicKeysetHandle jsonString with
  | None => inr Internal
  | Some handle =>
      match JwkSetFromPublicKeysetHandle handle with
      | None => inr Internal
      | Some jsonSnippet => inl (keys_array jsonSnippet)
      end
  end.

Definition parse_text (r : bytes + status) : list K + status :=
  match r with
  | inr s => inr s
  | inl jsonString => if accept jsonString then add_text jsonString else inr Internal
  end.

Definition add (toAdd : path) (d : dir) (m : keymap) : status * keymap :=
  match parse_text (readFile toAdd d) with
  | inr s => (s, m)
  | inl keys => (OkStatus, <[toAdd := keys]> m)
  end.

Definition remove (toRemove : path) (m : keymap) : status * keymap :=
  match m !! toRemove with None => (NotFound, m) | Some _ => (OkStatus, delete toRemove m) end.

(** The order of a hash map is any. *)
Context (order : keymap -> list (path * list K)).

Definition activeKeysetAsString (m : keymap) : bytes := combined (concat (order m).*2).
Definition activeKeySet (m : keymap) : option H := JwkSetToPublicKeysetHandle (activeKeysetAsString m).

(** ** The observer *)

(** [mWatcher]: null, or whether it is running.  [naps]: what other programs do in the next sleeps. *)
Record observer := {
  mLoadedKeys : keymap;
  mRunning : bool;
  mWatcher : option bool;
  mActiveKeyset : option H;
  jwkDir : dir;
  naps : list (list action);
}.

Definition with_keys (m : keymap) (o : observer) : observer :=
  {| mLoadedKeys := m; mRunning := mRunning o; mWatcher := mWatcher o; mActiveKeyset := mActiveKeyset o; jwkDir := jwkDir o; naps := naps o |}.
Definition with_running (r : bool) (w : option bool) (o : observer) : observer :=
  {| mLoadedKeys := mLoadedKeys o; mRunning := r; mWatcher := w; mActiveKeyset := mActiveKeyset o; jwkDir := jwkDir o; naps := naps o |}.
Definition with_dir (d : dir) (n : list (list action)) (o : observer) : observer :=
  {| mLoadedKeys := mLoadedKeys o; mRunning := mRunning o; mWatcher := mWatcher o; mActiveKeyset := mActiveKeyset o; jwkDir := d; naps := n |}.
Definition with_active (h : option H) (o : observer) : observer :=
  {| mLoadedKeys := mLoadedKeys o; mRunning := mRunning o; mWatcher := mWatcher o; mActiveKeyset := h; jwkDir := jwkDir o; naps := naps o |}.

Definition on_dir (f : dir -> dir) (o : observer) : observer := with_dir (f (jwkDir o)) (naps o) o.

Definition sleep (o : observer) : observer := with_dir (acts (default [] (head (naps o))) (jwkDir o)) (tail (naps o)) o.

(** The attempts: [more] of them when the file stays empty. *)
Fixpoint add_attempts (more : nat) (toAdd : path) (o : observer) : status * observer :=
  let '(s, m) := add toAdd (jwkDir o) (mLoadedKeys o) in
  let o := with_keys m o in
  match s with
  | Unavailable => let o := sleep o in match more with O => (s, o) | S more => add_attempts more toAdd o end
  | _ => (s, o)
  end.

Definition addWithRetryForEmpty (toAdd : path) (retries : Z) (o : observer) : status * observer :=
  add_attempts (Z.to_nat (retries - 1)) toAdd o.

Definition scan_entry (o : observer) (p : path) : observer :=
  let '(s, m) := add p (jwkDir o) (mLoadedKeys o) in
  match s with OkStatus => with_keys m o | _ => on_dir (deleteFile p) (with_keys m o) end.

Definition scanJwkPath (o : observer) : observer := foldl scan_entry (with_keys ∅ o) (scanDirEntries (jwkDir o)).

(** The filter of the observer and the file the callback writes, if any. *)
Context (mPathFilter : path -> bool) (mJwksLoadedPath : path).

(** [JwtTokenAuth::updateKeysetHandle]. *)
Definition updateKeysetHandle (incomingHandle : option H) (o : observer) : observer :=
  let o := with_active incomingHandle o in
  match mJwksLoadedPath with
  | [] => o
  | _ => on_dir (write_file mJwksLoadedPath (plain (default (str "{" ++ [34] ++ str "keys" ++ [34] ++ str ": []}") (incomingHandle ≫= JwkSetFromPublicKeysetHandle)))) o
  end.

Definition notify (o : observer) : bool * observer :=
  if decide (mLoadedKeys o = ∅) then (true, updateKeysetHandle None o)
  else match activeKeySet (mLoadedKeys o) with
       | Some keyset => (true, updateKeysetHandle (Some keyset) o)
       | None => (false, o)
       end.

Definition notifyKeysetUpdated (o : observer) : observer :=
  let '(notified, o) := notify o in if notified then o else (notify (scanJwkPath o)).2.

Definition fileChangeHandler (change : WatcherChangeType) (p : path) (o : observer) : observer :=
  if negb (mPathFilter p) then o
  else
    match change with
    | Created | Changed =>
        let '(s, o) := addWithRetryForEmpty p 8 o in
        match s with OkStatus => notifyKeysetUpdated o | _ => on_dir (deleteFile p) o end
    | Deleted =>
        let '(s, m) := remove p (mLoadedKeys o) in
        match s with OkStatus => notifyKeysetUpdated (with_keys m o) | _ => o end
    end.

Definition watch (o : observer) : observer :=
  on_dir (fun d => {| files := files d; watched := true; pending := pending d |}) (with_running (mRunning o) (Some true) o).

(** Scanning, then watching; [gap] is what happens between them.  With the value returned. *)
Definition start (gap : list action) (o : observer) : bool * observer :=
  if mRunning o then (false, o)
  else
    let o := with_running true (mWatcher o) o in
    let o := notifyKeysetUpdated (scanJwkPath o) in
    let o := on_dir (acts gap) o in
    match mWatcher o with
    | None => (false, o)
    | Some true => (false, o)
    | Some false => (true, watch o)
    end.

(** The watcher is stopped when the observer is not running; without a watcher that is a null pointer. *)
Definition stop (o : observer) : option observer :=
  if mRunning o then Some (with_keys ∅ (with_running false (mWatcher o) o))
  else match mWatcher o with
       | None => None
       | Some _ => Some (with_keys ∅ (on_dir (fun d => {| files := files d; watched := false; pending := [] |}) (with_running false (Some false) o)))
       end.

(** The thread of the watcher takes the next change. *)
Definition handle_next (o : observer) : observer :=
  match mWatcher o, pending (jwkDir o) with
  | Some true, (change, p) :: rest =>
      fileChangeHandler change p (on_dir (fun d => {| files := files d; watched := watched d; pending := rest |}) o)
  | _, _ => o
  end.

Inductive event := Other (a : action) | Handle.
Definition step (o : observer) (e : event) : observer := match e with Other a => on_dir (act a) o | Handle => handle_next o end.

(** An observer of a directory that exists, before it is started. *)
Definition new_observer (fs : gmap path file) (naps : list (list action)) : observer :=
  {| mLoadedKeys := ∅; mRunning := false; mWatcher := Some false; mActiveKeyset := None;
     jwkDir := {| files := fs; watched := false; pending := [] |}; naps := naps |}.
End observer.

(** ** What a directory stands for *)

Section consistent.
Context {K H : Type} `{TinkLaws K H}.
Context (order : gmap path (list K) -> list (path * list K)) (order_ok : forall m, order m ≡ₚ map_to_list m).
Context (mPathFilter : path -> bool) (mJwksLoadedPath : path) (filter_loaded : mPathFilter mJwksLoadedPath = false).

Abbreviation observer := (@observer K H).

(** The keys of a file, when it can be loaded. *)
Definition valid (f : file) : option (list K) := match parse_text (read_text f) with inl keys => Some keys | inr _ => None end.

Lemma valid_genuine f keys : valid f = Some keys -> genuine keys.
Proof.
  unfold valid, parse_text, add_text. intros E. repeat (case_match; try done). simplify_eq. by do 3 eexists.
Qed.

Lemma add_ok (p : path) (d : dir) (m : gmap path (list K)) :
  match files d !! p ≫= valid with
  | Some keys => add p d m = (OkStatus, <[p := keys]> m)
  | None => (add p d m).1 <> OkStatus /\ (add p d m).2 = m
  end.
Proof.
  unfold add, readFile, valid. destruct (files d !! p) as [f|]; cbn; [|done].
  destruct (parse_text (read_text f)) as [keys|s] eqn:E; [done|]. split; [|done]. cbn. intros ->.
  revert E. unfold parse_text, read_text, add_text. repeat case_match; intros; simplify_eq.
Qed.

(** What is loaded of a file is what it holds, and it holds keys. *)
Definition loaded (p : path) (o : observer) : Prop :=
  mLoadedKeys o !! p = files (jwkDir o) !! p ≫= valid /\ forall f, files (jwkDir o) !! p = Some f -> is_Some (valid f).

(** The last change of a file that was not handled yet. *)
Definition last_change (p : path) (l : list (WatcherChangeType * path)) : option WatcherChangeType :=
  last (omap (fun '(c, q) => if decide (q = p) then Some c else None) l).

Lemma last_change_snoc p l c q : last_change p (l ++ [(c, q)]) = if decide (q = p) then Some c else last_change p l.
Proof.
  unfold last_change. rewrite omap_app. cbn. destruct (decide (q = p)); [by rewrite last_snoc|by rewrite app_nil_r].
Qed.

Lemma last_change_cons p l c q :
  last_change p ((c, q) :: l) = match last_change p l with Some c => Some c | None => if decide (q = p) then Some c else None end.
Proof.
  unfold last_change. cbn. destruct (decide (q = p)); [|by destruct (last _)]. rewrite last_cons. by destruct (last _).
Qed.

Lemma last_change_none p l : (forall c, (c, p) ∉ l) -> last_change p l = None.
Proof.
  induction l as [|[c q] l IH]; intros Hl; [done|]. rewrite last_change_cons, IH by set_solver. rewrite decide_False; [done|].
  intros ->. apply (Hl c). by left.
Qed.

(** A change that waits tells whether the file is there; without one [Q] holds. *)
Definition told_or (Q : Prop) (p : path) (d : dir) : Prop :=
  match last_change p (pending d) with Some c => c = Deleted <-> files d !! p = None | None => Q end.

Definition none_kept (d : dir) : Prop := forall (p : path) f, files d !! p = Some f -> kept f = false.
Definition plain_action (a : action) : Prop := match a with Write _ f => kept f = false | Remove _ => True end.

(** Directories that changed under a watcher. *)
Definition changed (d d' : dir) : Prop :=
  watched d' = true /\ none_kept d' /\ forall (Q Q' : Prop) p,
    told_or Q p d -> (Q -> files d' !! p = files d !! p -> Q') -> told_or Q' p d'.

Lemma changed_refl d : watched d = true -> none_kept d -> changed d d.
Proof. intros Hw Hk. split_and!; [done|done|]. unfold told_or. intros Q Q' p. case_match; auto. Qed.

Lemma changed_trans d1 d2 d3 : changed d1 d2 -> changed d2 d3 -> changed d1 d3.
Proof.
  intros (_ & _ & H12) (Hw & Hk & H23). split_and!; [done|done|]. intros Q Q' p Hq HQ.
  apply (H23 (Q /\ files d2 !! p = files d1 !! p) Q' p).
  - apply (H12 Q); auto.
  - intros [HQ1 E] E'. apply HQ; [done|congruence].
Qed.

Lemma write_changed p f d : watched d = true -> none_kept d -> kept f = false -> changed d (write_file p f d).
Proof.
  intros Hw Hk Hf. unfold write_file, report. split_and!; [done| |]; cbn.
  - intros q g. cbn. rewrite lookup_insert_Some. intros [[_ <-]|[_ Hq]]; [done|by apply Hk in Hq].
  - intros Q Q' q Ht HQ. unfold told_or in *. cbn in *. rewrite Hw, last_change_snoc. destruct (decide (p = q)) as [->|Hne].
    + rewrite lookup_insert_eq. by destruct (files d !! q).
    + rewrite !lookup_insert_ne in * by done. case_match; auto.
Qed.

Lemma remove_changed p d : watched d = true -> none_kept d -> changed d (remove_file p d).
Proof.
  intros Hw Hk. unfold remove_file. destruct (files d !! p) as [f|] eqn:E; [|by apply changed_refl]. unfold report. split_and!; [done| |]; cbn.
  - intros q g. cbn. rewrite lookup_delete_Some. intros [_ Hq]. by apply Hk in Hq.
  - intros Q Q' q Ht HQ. unfold told_or in *. cbn in *. rewrite Hw, last_change_snoc. destruct (decide (p = q)) as [->|Hne].
    + by rewrite lookup_delete_eq.
    + rewrite !lookup_delete_ne in * by done. case_match; auto.
Qed.

Lemma acts_changed l d : Forall plain_action l -> watched d = true -> none_kept d -> changed d (acts l d).
Proof.
  intros Hl. revert d. induction Hl as [|a l Ha Hl IH]; intros d Hw Hk; [by apply changed_refl|]. cbn.
  assert (changed d (act a d)) as Hc by (destruct a; [by apply write_changed|by apply remove_changed]).
  eapply changed_trans; [exact Hc|]. apply IH; apply Hc.
Qed.

Lemma deleteFile_changed (p : path) d : watched d = true -> none_kept d -> changed d (deleteFile p d).
Proof.
  intros Hw Hk. unfold deleteFile. destruct (files d !! p) as [f|] eqn:E; [|by apply changed_refl].
  rewrite (Hk p f E). by apply remove_changed.
Qed.

(** Deleting tells that the file is gone, when it was there. *)
Lemma deleteFile_told Q (p : path) d : watched d = true -> none_kept d -> told_or (is_Some (files d !! p)) p d -> told_or Q p (deleteFile p d).
Proof.
  intros Hw Hk Ht. unfold deleteFile. destruct (files d !! p) as [f|] eqn:E.
  - rewrite (Hk p f E). unfold remove_file. rewrite E. unfold told_or, report. cbn. rewrite Hw, last_change_snoc, decide_True by done.
    by rewrite lookup_delete_eq.
  - unfold told_or in *. case_match; [done|]. by apply is_Some_None in Ht.
Qed.

(** ** The invariant of a started observer *)

(** The active set is that of what is loaded. *)
Definition active_ok (o : observer) : Prop :=
  if decide (mLoadedKeys o = ∅) then mActiveKeyset o = None
  else exists h, mActiveKeyset o = Some h /\ handle_keys h ≡ₚ concat (map_to_list (mLoadedKeys o)).*2.

(** What the handler of a change needs and keeps. *)
Record running (o : observer) : Prop := {
  run_watched : watched (jwkDir o) = true;
  run_watcher : mWatcher o = Some true;
  run_kept : none_kept (jwkDir o);
  run_naps : Forall (Forall plain_action) (naps o);
  run_filter : forall p, mPathFilter p = false -> mLoadedKeys o !! p = None;
  run_genuine : forall (p : path) keys, mLoadedKeys o !! p = Some keys -> genuine keys;
}.

Definition told_but (p : path) (o : observer) : Prop :=
  forall q, q <> p -> mPathFilter q = true -> told_or (loaded q o) q (jwkDir o).
Definition told_all (o : observer) : Prop := forall q, mPathFilter q = true -> told_or (loaded q o) q (jwkDir o).

Record consistent (o : observer) : Prop := {
  con_running : running o;
  con_told : told_all o;
  con_active : active_ok o;
}.

(** Only the directory changed, and the sleeps to come. *)
Definition dir_changed (o o' : observer) : Prop :=
  changed (jwkDir o) (jwkDir o') /\ mLoadedKeys o' = mLoadedKeys o /\ mActiveKeyset o' = mActiveKeyset o /\ mWatcher o' = mWatcher o /\
  Forall (Forall plain_action) (naps o').

Lemma loaded_dir p (o o' : observer) :
  mLoadedKeys o' = mLoadedKeys o -> loaded p o -> files (jwkDir o') !! p = files (jwkDir o) !! p -> loaded p o'.
Proof. unfold loaded. by intros -> Hl ->. Qed.

Lemma dir_changed_running o o' : running o -> dir_changed o o' -> running o'.
Proof.
  intros Hr ((Hw & Hk & _) & Em & Ea & Ew & Hn). split; rewrite ?Em, ?Ew; try done; apply Hr.
Qed.

Lemma dir_changed_told o o' (P : path -> Prop) :
  dir_changed o o' -> (forall q, P q -> told_or (loaded q o) q (jwkDir o)) -> forall q, P q -> told_or (loaded q o') q (jwkDir o').
Proof.
  intros ((_ & _ & Hc) & Em & _) Hq q Hp. apply (Hc (loaded q o)); [by apply Hq|]. by apply loaded_dir.
Qed.

Lemma dir_changed_told_but p o o' : dir_changed o o' -> told_but p o -> told_but p o'.
Proof.
  intros Hd Hq q Hp Hf. revert q Hp Hf. assert (forall q, q <> p /\ mPathFilter q = true -> told_or (loaded q o') q (jwkDir o')) as HH; [|auto].
  apply (dir_changed_told o o' _ Hd). intros q [??]. by apply Hq.
Qed.

Lemma sleep_changed o : running o -> dir_changed o (sleep o).
Proof.
  intros Hr. unfold sleep. split_and!; try done.
  - cbn. apply acts_changed; [|apply Hr|apply Hr]. pose proof (run_naps o Hr) as Hn. by destruct Hn.
  - cbn. pose proof (run_naps o Hr) as Hn. by destruct Hn.
Qed.

Lemma with_keys_id (o : observer) : with_keys (mLoadedKeys o) o = o.
Proof. by destruct o. Qed.

(** What loading a file stands for, once its keys are loaded. *)
Lemma loaded_insert (p : path) keys (o : observer) : files (jwkDir o) !! p ≫= valid = Some keys -> loaded p (with_keys (<[p := keys]> (mLoadedKeys o)) o).
Proof.
  intros E. split; cbn; [by rewrite lookup_insert_eq|]. intros f Ef. rewrite Ef in E. by exists keys.
Qed.

Lemma add_one p o s m :
  running o -> told_but p o -> told_or (is_Some (files (jwkDir o) !! p)) p (jwkDir o) -> mPathFilter p = true ->
  add p (jwkDir o) (mLoadedKeys o) = (s, m) ->
  match s with OkStatus => running (with_keys m o) /\ told_all (with_keys m o) | _ => with_keys m o = o end.
Proof.
  intros Hr Hb Ht Hf Ea. pose proof (add_ok p (jwkDir o) (mLoadedKeys o)) as Hadd. rewrite Ea in Hadd.
  destruct (files (jwkDir o) !! p ≫= valid) as [keys|] eqn:E.
  - simplify_eq. split.
    + split; cbn; try apply Hr.
      * intros q Hq. rewrite lookup_insert_ne by congruence. by apply Hr.
      * intros q ks. rewrite lookup_insert_Some. intros [[<- <-]|[_ Hq]]; [|by eapply run_genuine].
        apply bind_Some in E as (f & _ & E). by eapply valid_genuine.
    + intros q Hq. destruct (decide (q = p)) as [->|Hne].
      * unfold told_or in *. cbn. case_match; [done|]. by apply loaded_insert.
      * pose proof (Hb q Hne Hq) as Hqt. unfold told_or, loaded in *. cbn. case_match; [done|]. by rewrite lookup_insert_ne.
  - cbn in Hadd. destruct Hadd as [Hs ->]. rewrite with_keys_id. by destruct s.
Qed.

(** Loading the file whose change is handled, with sleeps in between. *)
Lemma add_attempts_ok more p (o0 : observer) :
  running o0 -> told_but p o0 -> told_or (is_Some (files (jwkDir o0) !! p)) p (jwkDir o0) -> mPathFilter p = true ->
  let '(s, o0') := add_attempts more p o0 in
  mActiveKeyset o0' = mActiveKeyset o0 /\ running o0' /\
  match s with
  | OkStatus => told_all o0'
  | _ => mLoadedKeys o0' = mLoadedKeys o0 /\ told_but p o0' /\ told_or (is_Some (files (jwkDir o0') !! p)) p (jwkDir o0')
  end.
Proof.
  assert (forall o o', running o -> told_but p o -> told_or (is_Some (files (jwkDir o) !! p)) p (jwkDir o) -> dir_changed o o' ->
    running o' /\ told_but p o' /\ told_or (is_Some (files (jwkDir o') !! p)) p (jwkDir o')) as Hmove.
  { intros o o' Hr Hb Ht Hd. split_and!; [by eapply dir_changed_running|by eapply dir_changed_told_but|].
    destruct Hd as ((_ & _ & Hc) & _). apply (Hc _ _ p Ht). by intros ? ->. }
  revert o0. induction more as [|more IH]; intros o Hr Hb Ht Hf; cbn [add_attempts];
    destruct (add p (jwkDir o) (mLoadedKeys o)) as [s m] eqn:Ea; pose proof (add_one p o s m Hr Hb Ht Hf Ea) as Hone;
    destruct s; try (rewrite Hone; by split_and!); try (destruct Hone; by split_and!); rewrite Hone.
  - pose proof (sleep_changed o Hr) as Hd. destruct (Hmove o _ Hr Hb Ht Hd) as (? & ? & ?). split_and!; try done; apply Hd.
  - pose proof (sleep_changed o Hr) as Hd. destruct (Hmove o _ Hr Hb Ht Hd) as (Hr' & Hb' & Ht'). specialize (IH (sleep o) Hr' Hb' Ht' Hf).
    destruct (add_attempts more p (sleep o)) as [s' o']. destruct IH as (Ea' & Hro & IH). split_and!; [|done|by destruct s'].
    rewrite Ea'. apply Hd.
Qed.

(** ** Telling the validator *)

Lemma callback_changed h o : running o -> dir_changed (with_active h o) (updateKeysetHandle mJwksLoadedPath h o).
Proof.
  intros Hr. unfold updateKeysetHandle. destruct mJwksLoadedPath as [|x q] eqn:E.
  - split_and!; try done; [|apply Hr]. apply changed_refl; apply Hr.
  - split_and!; try done; [|apply Hr]. apply write_changed; [apply Hr|apply Hr|done].
Qed.

(** Genuine keys can be told. *)
Lemma notify_ok o :
  (forall (p : path) keys, mLoadedKeys o !! p = Some keys -> genuine keys) ->
  exists h, notify order mJwksLoadedPath o = (true, updateKeysetHandle mJwksLoadedPath h o) /\ active_ok (with_active h o).
Proof.
  intros Hg. unfold notify, active_ok. cbn. destruct (decide (mLoadedKeys o = ∅)) as [He|Hne]; [by exists None|].
  destruct (combined_converts (order (mLoadedKeys o)).*2) as (h & E & Hh).
  - intros E. apply fmap_nil_inv in E. apply Hne. apply map_to_list_empty_iff. apply Permutation_nil_r. by rewrite <- order_ok, E.
  - apply Forall_forall. intros ks ([p ks'] & -> & Hin)%list_elem_of_fmap. rewrite order_ok in Hin. apply elem_of_map_to_list in Hin. by eapply Hg.
  - exists (Some h). unfold activeKeySet, activeKeysetAsString. rewrite E. split; [done|]. exists h. split; [done|]. rewrite Hh.
    by rewrite order_ok.
Qed.

Lemma notifyKeysetUpdated_ok o : running o -> told_all o -> consistent (notifyKeysetUpdated order mJwksLoadedPath o).
Proof.
  intros Hr Ht. unfold notifyKeysetUpdated. destruct (notify_ok o (run_genuine o Hr)) as (h & -> & Ha).
  pose proof (callback_changed h o Hr) as Hd. assert (running (with_active h o)) as Hr' by (split; apply Hr).
  split; [by eapply dir_changed_running| |].
  { exact (dir_changed_told _ _ (fun q => mPathFilter q = true) Hd Ht). }
  destruct Hd as (_ & Em & Ea & _). unfold active_ok in *. by rewrite Em, Ea.
Qed.

(** ** Handling a change *)

Lemma told_or_pop (Q : Prop) c p q (d : dir) rest :
  pending d = (c, p) :: rest -> told_or Q q d ->
  told_or (if decide (p = q) then c = Deleted <-> files d !! q = None else Q) q {| files := files d; watched := watched d; pending := rest |}.
Proof.
  unfold told_or. cbn. intros ->. rewrite last_change_cons. destruct (last_change q rest); [done|]. by case_decide.
Qed.

Lemma told_or_impl (Q Q' : Prop) p d : (Q -> Q') -> told_or Q p d -> told_or Q' p d.
Proof. unfold told_or. case_match; auto. Qed.

Lemma handle_next_consistent o : consistent o -> consistent (handle_next order mPathFilter mJwksLoadedPath o).
Proof.
  intros [Hr Ht Ha]. unfold handle_next. rewrite (run_watcher o Hr). destruct (pending (jwkDir o)) as [|[c p] rest] eqn:Ep; [done|].
  set (o1 := on_dir _ o). assert (running o1) as Hr1 by (split; apply Hr).
  assert (forall q, mPathFilter q = true -> told_or (if decide (p = q) then c = Deleted <-> files (jwkDir o1) !! q = None else loaded q o1) q (jwkDir o1)) as Ht1.
  { intros q Hq. apply (told_or_pop _ _ _ _ _ _ Ep). by apply Ht. }
  assert (active_ok o1) as Ha1 by done. clearbody o1. clear Hr Ht Ha Ep.
  unfold fileChangeHandler. destruct (mPathFilter p) eqn:Hf; cbn [negb].
  2: { split; [done| |done]. intros q Hq. specialize (Ht1 q Hq). rewrite decide_False in Ht1 by congruence. done. }
  assert (told_but p o1) as Hb by (intros q Hne Hq; specialize (Ht1 q Hq); by rewrite decide_False in Ht1 by congruence).
  specialize (Ht1 p Hf). rewrite decide_True in Ht1 by done.
  assert (c <> Deleted -> consistent (let '(s, o) := addWithRetryForEmpty p 8 o1 in
    match s with OkStatus => notifyKeysetUpdated order mJwksLoadedPath o | _ => on_dir (deleteFile p) o end)) as Hadd.
  { intros Hc. pose proof (add_attempts_ok (Z.to_nat (8 - 1)) p o1 Hr1 Hb) as Hat. unfold addWithRetryForEmpty.
    destruct (add_attempts _ p o1) as [s o']. destruct Hat as (Ea & Hr' & Hs); [|done|].
    { eapply told_or_impl; [|exact Ht1]. intros Hiff. apply not_eq_None_Some. naive_solver. }
    assert (s = OkStatus \/ mLoadedKeys o' = mLoadedKeys o1 /\ told_but p o' /\ told_or (is_Some (files (jwkDir o') !! p)) p (jwkDir o')) as Hss
      by (destruct s; [by left|by right..]).
    destruct Hss as [->|(Em & Hb' & Hp)]; [by apply notifyKeysetUpdated_ok|].
    assert (consistent (on_dir (deleteFile p) o')); [|by destruct s; [apply notifyKeysetUpdated_ok|..]].
    assert (dir_changed o' (on_dir (deleteFile p) o')) as Hd by (split_and!; try done; [apply deleteFile_changed; apply Hr'|apply Hr']).
    split; [by eapply dir_changed_running| |].
    - intros q Hq. destruct (decide (q = p)) as [->|Hne]; [by apply deleteFile_told; [apply Hr'|apply Hr'|]|].
      by apply (dir_changed_told_but p o').
    - unfold active_ok in *. cbn. by rewrite Em, Ea. }
  destruct c; [by apply Hadd|by apply Hadd|]. clear Hadd. unfold remove. destruct (mLoadedKeys o1 !! p) as [keys|] eqn:El.
  - apply notifyKeysetUpdated_ok.
    + split; cbn; try apply Hr1.
      * intros q Hq. rewrite lookup_delete_ne by congruence. by apply Hr1.
      * intros q ks. rewrite lookup_delete_Some. intros [_ Hq]. by eapply run_genuine.
    + intros q Hq. destruct (decide (q = p)) as [->|Hne].
      * eapply told_or_impl; [|exact Ht1]. intros [Habs _]. specialize (Habs eq_refl). split; cbn; rewrite Habs; [by rewrite lookup_delete_eq|done].
      * eapply told_or_impl; [|by apply (Hb q)]. unfold loaded. cbn. by rewrite lookup_delete_ne.
  - split; [done| |done]. intros q Hq. destruct (decide (q = p)) as [->|Hne]; [|by apply Hb].
    eapply told_or_impl; [|exact Ht1]. intros [Habs _]. specialize (Habs eq_refl). split; rewrite Habs; [by rewrite El|done].
Qed.

Definition plain_event (e : event) : Prop := match e with Other a => plain_action a | Handle => True end.

Lemma step_consistent o e : plain_event e -> consistent o -> consistent (step order mPathFilter mJwksLoadedPath o e).
Proof.
  destruct e as [a|]; cbn; intros Ha; [|apply handle_next_consistent]. intros [Hr Ht Hc].
  assert (dir_changed o (on_dir (act a) o)) as Hd.
  { split_and!; try done; [|apply Hr]. destruct a; [by apply write_changed; [apply Hr|apply Hr|]|by apply remove_changed; apply Hr]. }
  split; [by eapply dir_changed_running| |done]. exact (dir_changed_told _ _ (fun q => mPathFilter q = true) Hd Ht).
Qed.

(** ** The scan *)

Lemma scan_entry_other p q (o : observer) :
  q <> p -> mLoadedKeys (scan_entry o p) !! q = mLoadedKeys o !! q /\ files (jwkDir (scan_entry o p)) !! q = files (jwkDir o) !! q.
Proof.
  intros Hne. unfold scan_entry. pose proof (add_ok p (jwkDir o) (mLoadedKeys o)) as Ha. destruct (add p (jwkDir o) (mLoadedKeys o)) as [s m].
  assert (m !! q = mLoadedKeys o !! q) as Em.
  { destruct (_ ≫= _); [simplify_eq; by rewrite lookup_insert_ne|cbn in Ha; by destruct Ha as [_ ->]]. }
  assert (files (deleteFile p (jwkDir o)) !! q = files (jwkDir o) !! q) as Ed.
  { unfold deleteFile, remove_file, report. destruct (files (jwkDir o) !! p) as [f|]; [|done]. destruct (kept f); [done|]. cbn. by rewrite lookup_delete_ne. }
  by destruct s.
Qed.

Lemma scan_entry_this p (o : observer) : mLoadedKeys o !! p = None -> none_kept (jwkDir o) -> loaded p (scan_entry o p).
Proof.
  intros Hn Hk. unfold scan_entry, loaded. pose proof (add_ok p (jwkDir o) (mLoadedKeys o)) as Ha. destruct (add p (jwkDir o) (mLoadedKeys o)) as [s m].
  destruct (files (jwkDir o) !! p ≫= valid) as [keys|] eqn:E.
  - simplify_eq. by apply loaded_insert.
  - cbn in Ha. destruct Ha as [Hs ->]. assert (files (deleteFile p (jwkDir o)) !! p = None) as Ed.
    { unfold deleteFile, remove_file, report. destruct (files (jwkDir o) !! p) as [f|] eqn:Ef; [|done]. rewrite (Hk p f Ef). cbn. by rewrite lookup_delete_eq. }
    destruct s; cbn; try done; rewrite Ed; by split.
Qed.

(** What a scan keeps of the rest. *)
Lemma scan_entry_rest p (o : observer) :
  watched (jwkDir o) = false -> pending (jwkDir o) = [] -> none_kept (jwkDir o) ->
  let o' := scan_entry o p in
  watched (jwkDir o') = false /\ pending (jwkDir o') = [] /\ none_kept (jwkDir o') /\ naps o' = naps o /\ mWatcher o' = mWatcher o /\
  mRunning o' = mRunning o.
Proof.
  intros Hw Hp Hk. unfold scan_entry. destruct (add p (jwkDir o) (mLoadedKeys o)) as [s m].
  assert (watched (deleteFile p (jwkDir o)) = false /\ pending (deleteFile p (jwkDir o)) = [] /\ none_kept (deleteFile p (jwkDir o))) as (? & ? & ?).
  { unfold deleteFile, remove_file, report. destruct (files (jwkDir o) !! p) as [f|]; [|done]. destruct (kept f); [done|].
    cbn. rewrite Hw. split_and!; [done|done|].
    intros q g. cbn. rewrite lookup_delete_Some. intros [_ Hq]. by eapply Hk. }
  by destruct s.
Qed.

Lemma scan_ok l (o : observer) :
  NoDup l -> watched (jwkDir o) = false -> pending (jwkDir o) = [] -> none_kept (jwkDir o) -> (forall p, p ∈ l -> mLoadedKeys o !! p = None) ->
  let o' := foldl scan_entry o l in
  (watched (jwkDir o') = false /\ pending (jwkDir o') = [] /\ none_kept (jwkDir o') /\ naps o' = naps o /\ mWatcher o' = mWatcher o /\
   mRunning o' = mRunning o) /\
  (forall p, p ∈ l -> loaded p o') /\
  (forall p, p ∉ l -> mLoadedKeys o' !! p = mLoadedKeys o !! p /\ files (jwkDir o') !! p = files (jwkDir o) !! p).
Proof.
  revert o. induction l as [|p l IH]; intros o Hl Hw Hp Hk Hn; cbn [foldl]; [split_and!; try done; by intros ? ?%not_elem_of_nil|].
  apply NoDup_cons in Hl as [Hpl Hl]. destruct (scan_entry_rest p o Hw Hp Hk) as (Hw1 & Hp1 & Hk1 & En & Ew & Er).
  destruct (IH (scan_entry o p) Hl Hw1 Hp1 Hk1) as ((? & ? & ? & ? & ? & ?) & Hin & Hout).
  { intros q Hq. rewrite (proj1 (scan_entry_other p q o ltac:(intros ->; done))). apply Hn. by right. }
  split_and!; try done; try congruence.
  - intros q [->|Hq]%elem_of_cons; [|by apply Hin]. destruct (Hout p Hpl) as [E1 E2]. destruct (scan_entry_this p o) as [Hthis1 Hthis2]; [apply Hn; by left|done|].
    split; rewrite E2; [by rewrite E1|done].
  - intros q [Hqp Hq]%not_elem_of_cons. destruct (Hout q Hq) as [-> ->]. by apply scan_entry_other.
Qed.

Lemma elem_of_scanDirEntries (p : path) d : p ∈ scanDirEntries d <-> is_Some (files d !! p).
Proof.
  unfold scanDirEntries. rewrite merge_sort_Permutation, elem_of_elements. apply elem_of_dom.
Qed.

(** Nothing loaded and nothing watched: what a scan of files that pass the filter leaves. *)
Lemma start_consistent fs nps :
  (forall (p : path) f, fs !! p = Some f -> kept f = false /\ mPathFilter p = true) -> Forall (Forall plain_action) nps ->
  let '(started, o) := start order mJwksLoadedPath [] (new_observer fs nps) in started = true /\ consistent o.
Proof.
  intros Hfs Hnaps. unfold start, scanJwkPath. cbn [mRunning new_observer]. set (o0 := with_keys ∅ _).
  assert (none_kept (jwkDir o0)) as Hk by (intros p f Hf; by eapply Hfs).
  destruct (scan_ok (scanDirEntries (jwkDir o0)) o0) as ((Hw1 & Hp1 & Hk1 & En & Ew & Er) & Hin & Hout); try done.
  { unfold scanDirEntries. rewrite merge_sort_Permutation. apply NoDup_elements. }
  change (jwkDir (with_running true (mWatcher (new_observer fs nps)) (new_observer fs nps))) with (jwkDir o0).
  set (o1 := foldl _ _ _) in *. clearbody o1.
  assert (forall p, loaded p o1) as Hl.
  { intros p. destruct (decide (p ∈ scanDirEntries (jwkDir o0))) as [Hp|Hp]; [by apply Hin|]. destruct (Hout p Hp) as [E1 E2].
    rewrite elem_of_scanDirEntries in Hp. apply eq_None_not_Some in Hp. split; rewrite E2, Hp; [by rewrite E1|done]. }
  assert (forall (p : path) keys, mLoadedKeys o1 !! p = Some keys -> genuine keys) as Hg.
  { intros p keys Hp. rewrite (proj1 (Hl p)) in Hp. apply bind_Some in Hp as (f & _ & Hp). by eapply valid_genuine. }
  unfold notifyKeysetUpdated. destruct (notify_ok o1 Hg) as (h & -> & Ha). set (o2 := updateKeysetHandle _ _ _).
  assert (mLoadedKeys o2 = mLoadedKeys o1 /\ mActiveKeyset o2 = h /\ mWatcher o2 = Some false /\ naps o2 = nps /\ pending (jwkDir o2) = [] /\
    none_kept (jwkDir o2) /\ forall p, mPathFilter p = true -> files (jwkDir o2) !! p = files (jwkDir o1) !! p) as (E1 & E2 & E3 & E4 & E5 & E6 & E7).
  { unfold o2, updateKeysetHandle. destruct mJwksLoadedPath as [|x q] eqn:Eq; cbn; split_and!; rewrite ?Hw1; try done.
    - intros p f. cbn. rewrite lookup_insert_Some. intros [[_ <-]|[_ Hf]]; [done|by eapply Hk1].
    - intros p Hpf. rewrite lookup_insert_ne by congruence. done. }
  cbn [mWatcher on_dir with_dir]. rewrite E3. split; [done|].
  assert (forall p, mPathFilter p = false -> mLoadedKeys o1 !! p = None) as Hnf.
  { intros p Hp. destruct (decide (p ∈ scanDirEntries (jwkDir o0))) as [Hin'|Hp']; [|by rewrite (proj1 (Hout p Hp'))].
    apply elem_of_scanDirEntries in Hin' as [f Hf]. apply Hfs in Hf as [_ ?]. congruence. }
  split.
  - split; cbn; rewrite ?E1; try done. by rewrite E4.
  - intros p Hp. unfold told_or. cbn. rewrite E5. cbn. unfold loaded. cbn. rewrite E1, E7 by done. apply Hl.
  - unfold active_ok in *. cbn in *. by rewrite E1, E2.
Qed.

Lemma run_consistent es o : Forall plain_event es -> consistent o -> consistent (foldl (step order mPathFilter mJwksLoadedPath) o es).
Proof.
  intros Hes. revert o. induction Hes as [|e es He Hes IH]; intros o Ho; cbn; [done|]. by apply IH, step_consistent.
Qed.

(** C37: However other programs write and remove files once the watcher is started, also while the observer sleeps,
    and however the changes are delayed: once the changes of the files of keys are handled, what is loaded is what
    these files hold, all of them hold keys, and the set given to the validator is of exactly these keys.  This asks
    that nothing is written between the scan and the start of the watcher ([written_in_the_gap] shows a file missed
    then), that the files found at the start pass the filter, which the scan does not ask
    ([unfiltered_key_stays]), and that every file can be deleted, as one without keys is. *)
Theorem keys_of_directory fs nps es :
  (forall (p : path) f, fs !! p = Some f -> kept f = false /\ mPathFilter p = true) ->
  Forall (Forall plain_action) nps -> Forall plain_event es ->
  let '(started, o0) := start order mJwksLoadedPath [] (new_observer fs nps) in
  let o := foldl (step order mPathFilter mJwksLoadedPath) o0 es in
  started = true /\
  ((forall c p, (c, p) ∈ pending (jwkDir o) -> mPathFilter p = false) ->
    (forall p, mPathFilter p = true -> mLoadedKeys o !! p = files (jwkDir o) !! p ≫= valid /\ forall f, files (jwkDir o) !! p = Some f -> is_Some (valid f)) /\
    (forall p, mPathFilter p = false -> mLoadedKeys o !! p = None) /\
    match mActiveKeyset o with
    | None => mLoadedKeys o = ∅
    | Some h => handle_keys h ≡ₚ concat (map_to_list (mLoadedKeys o)).*2
    end).
Proof.
  intros Hfs Hn Hes. pose proof (start_consistent fs nps Hfs Hn) as Hs. destruct (start _ _ _ _) as [started o0]. destruct Hs as [-> Hc].
  split; [done|]. intros Hp. pose proof (run_consistent es o0 Hes Hc) as [Hr Ht Ha]. set (o := foldl _ _ _) in *. clearbody o.
  split_and!; [|apply Hr|].
  - intros p Hf. specialize (Ht p Hf). unfold told_or in Ht. rewrite last_change_none in Ht; [exact Ht|].
    intros c Hin. apply Hp in Hin. congruence.
  - unfold active_ok in Ha. case_decide; [by rewrite Ha|]. by destruct Ha as (h & -> & Ha).
Qed.
End consistent.

(** ** A concrete Tink *)

(** Keys are bytes; a set is the text of its keys, and any text but the empty one is a set. *)
#[local] Instance toy_tink : Tink Z bytes := {
  accept := fun _ => true;
  JwkSetToPublicKeysetHandle := fun s => if decide (s = []) then None else Some s;
  JwkSetFromPublicKeysetHandle := Some;
  keys_array := fun s => s;
  combined := fun keys => keys;
}.

#[local] Instance toy_laws : TinkLaws Z bytes.
Proof.
  refine {| handle_keys := fun h : bytes => h |}.
  intros l Hl Hg. exists (concat l). split; [|done]. cbn. rewrite decide_False; [done|]. destruct Hg as [|keys l (s & h & j & Hs & Hh & Hk) Hg]; [done|].
  cbn in *. case_decide; [done|]. simplify_eq. by intros [? _]%app_nil.
Defined.

Definition toy_filter (p : path) : bool := negb (bool_decide (p = str "active.jwk")).
Definition toy_files : gmap path file := <[str "a.jwk" := plain [1; 2]]> (<[str "b.jwk" := plain [3]]> ∅).
Definition toy_events : list event :=
  [Other (Write (str "a.jwk") (plain [])); Handle; Handle; Other (Write (str "c.jwk") (plain [4])); Handle; Handle; Handle].
Definition toy_start (gap : list action) : bool * @observer Z bytes :=
  start map_to_list (str "active.jwk") gap (new_observer toy_files [[]; [Remove (str "a.jwk")]]).
Definition toy_run (es : list event) (o : @observer Z bytes) : @observer Z bytes := foldl (step map_to_list toy_filter (str "active.jwk")) o es.

(** Two providers; one empties its file and deletes it while the observer sleeps, a third one appears. *)
Example keys_of_directory_witness :
  let '(started, o0) := toy_start [] in
  let o := toy_run toy_events o0 in
  started = true /\ mLoadedKeys o !! str "a.jwk" = None /\ mLoadedKeys o !! str "c.jwk" = Some [4] /\
  match mActiveKeyset o with None => mLoadedKeys o = ∅ | Some h => h ≡ₚ concat (map_to_list (mLoadedKeys o)).*2 end.
Proof.
  assert (forallb (fun '(_, p) => negb (toy_filter p)) (pending (jwkDir (toy_run toy_events (toy_start []).2))) = true) as Hp by (vm_compute; reflexivity).
  assert (files (jwkDir (toy_run toy_events (toy_start []).2)) !! str "a.jwk" = None /\
    files (jwkDir (toy_run toy_events (toy_start []).2)) !! str "c.jwk" = Some (plain [4])) as [Ea Ec] by (split; vm_compute; reflexivity).
  pose proof (keys_of_directory map_to_list (fun m => reflexivity _) toy_filter (str "active.jwk") eq_refl
    toy_files [[]; [Remove (str "a.jwk")]] toy_events) as Ht. fold (toy_start []) in Ht.
  destruct (toy_start []) as [started o0]. fold (toy_run toy_events o0) in Ht. cbn [snd] in *. destruct Ht as [-> Ht].
  - intros p f. unfold toy_files. rewrite !lookup_insert_Some, lookup_empty. intros [[<- <-]|[_ [[<- <-]|[_ Hx]]]]; done.
  - repeat constructor.
  - repeat constructor.
  - split; [done|]. destruct Ht as (Hl & _ & Hact).
    { intros c p Hin. rewrite forallb_forall in Hp. specialize (Hp (c, p)). apply list_elem_of_In in Hin. apply Hp in Hin. by apply negb_true_iff. }
    split_and!; [rewrite (proj1 (Hl (str "a.jwk") eq_refl)), Ea; done|rewrite (proj1 (Hl (str "c.jwk") eq_refl)), Ec; done|exact Hact].
Defined.

(** ** Keys that stay *)

(** A file written between the scan and the start of the watcher is not loaded, and no change of it waits. *)
Example written_in_the_gap :
  let o := (toy_start [Write (str "c.jwk") (plain [4])]).2 in
  files (jwkDir o) !! str "c.jwk" = Some (plain [4]) /\ mLoadedKeys o !! str "c.jwk" = None /\ pending (jwkDir o) = [].
Proof. vm_compute. done. Qed.

(** The scan does not ask the filter: a file it does not accept is loaded, and its keys stay when it is deleted. *)
Example unfiltered_key_stays :
  let o := (start (H := bytes) map_to_list (str "active.jwk") [] (new_observer (<[str "active.jwk" := plain [9]]> ∅) [])).2 in
  let o := toy_run [Other (Remove (str "active.jwk")); Handle; Handle; Handle] o in
  pending (jwkDir o) = [] /\ files (jwkDir o) !! str "active.jwk" = None /\ mActiveKeyset o = Some [9].
Proof. vm_compute. done. Qed.

(** Stopping an observer that runs does not stop its watcher: a file that comes later is loaded and told. *)
Example stopped_still_watches :
  match stop (toy_start []).2 with
  | Some o => (mRunning o, mWatcher o, mActiveKeyset (toy_run [Other (Write (str "c.jwk") (plain [4])); Handle; Handle] o)) = (false, Some true, Some [4])
  | None => False
  end.
Proof. vm_compute. reflexivity. Qed.

(** A file that cannot be deleted and no longer holds keys leaves the old ones active. *)
Example kept_file_keeps_keys :
  let bad := {| text := []; canRead := false; opens := true; fails := false; kept := true |} in
  let o := toy_run [Other (Write (str "a.jwk") bad); Handle; Handle; Handle] (toy_start []).2 in
  pending (jwkDir o) = [] /\ mLoadedKeys o !! str "a.jwk" = Some [1; 2].
Proof. vm_compute. done. Qed.
