(* ===== verification/GrpcServer.v ===== *)
(** * The gRPC server of the emulator

    Models the [Builder] of [emulator/android-grpc/services-stack]'s
    [GrpcServices.cpp]: what was asked for decides on the credentials, who is
    asked about a call, the services and the address.  Files, sockets and the
    library that starts the server are arguments; services are numbers. *)

From S2P Require Import Prelude CText AllowList GrpcAuth.

Inductive Security := Insecure | Tls | Local_.
Inductive IpMode := Ipv4 | Ipv6.

#[export] Instance Security_eq : EqDecision Security.
Proof. solve_decision. Defined.

Definition auth_None : Z := 0.
Definition auth_StaticToken : Z := 1.
Definition auth_JwtToken : Z := 2.

(** A validator of the processor: the static token, or the directory and the file of
    signed tokens' keys. *)
Inductive auth := AuthStatic (token iss : list Z) | AuthJwt (dir loaded : list Z).

(** Credentials of the library, and the processor they were given. *)
Inductive cred_kind := SslServer (key cert : list Z) (ca : option (list Z)) | LocalTcp | InsecureServer.
Record credentials := { kind : cred_kind; processor : option (list auth) }.

Record Builder := {
  mPort : Z;
  mTimeout : Z;
  mServices : list Z;
  mSecureServices : list Z;
  mSecurity : Security;
  mCredentials : option credentials;
  mBindAddress : list Z;
  mCertfile : list Z;
  mAuthToken : list Z;
  mJwkPath : list Z;
  mJwkLoadedPath : list Z;
  mEmulatorAccessPath : list Z;
  mAuthMode : Z;
  mValid : bool;
  mVerbose : bool;
  mLogging : bool;
  mCaCerts : bool;
  mIpMode : IpMode;
}.

Definition str_localhost : list Z := str "localhost".
Definition str_v6 : list Z := str "[::1]".
Definition str_v4 : list Z := str "127.0.0.1".

Section host.
(** Files: whether a path exists, can be read, and the text; reading may fail in the
    middle. *)
Context (pathExists pathCanRead : list Z -> bool) (read_file : list Z -> bool * list Z).
(** The port a listening socket got, if it could be opened. *)
Context (tcp4 tcp6 : Z -> option Z).

Definition new_Builder (accessPath : list Z) : Builder :=
  {| mPort := -1; mTimeout := 0; mServices := []; mSecureServices := []; mSecurity := Insecure; mCredentials := None;
     mBindAddress := str_v4; mCertfile := []; mAuthToken := []; mJwkPath := []; mJwkLoadedPath := [];
     mEmulatorAccessPath := accessPath; mAuthMode := auth_None; mValid := true; mVerbose := false; mLogging := true;
     mCaCerts := false; mIpMode := Ipv4 |}.

(** The text of the file, and [mValid] afterwards. *)
Definition readSecrets (fname : option (list Z)) (valid : bool) : list Z * bool :=
  match fname with
  | None => ([], false)
  | Some fname =>
      if negb (pathExists fname) then ([], false)
      else
        let '(fail, contents) := read_file fname in
        (contents, if fail : bool then false else match contents with [] => true | _ => valid end)
  end.

Definition withService (service : option Z) (b : Builder) : Builder :=
  {| mPort := mPort b; mTimeout := mTimeout b; mServices := mServices b ++ option_list service;
     mSecureServices := mSecureServices b; mSecurity := mSecurity b; mCredentials := mCredentials b;
     mBindAddress := mBindAddress b; mCertfile := mCertfile b; mAuthToken := mAuthToken b;
     mJwkPath := mJwkPath b; mJwkLoadedPath := mJwkLoadedPath b;
     mEmulatorAccessPath := mEmulatorAccessPath b; mAuthMode := mAuthMode b; mValid := mValid b;
     mVerbose := mVerbose b; mLogging := mLogging b; mCaCerts := mCaCerts b; mIpMode := mIpMode b |}.

Definition withSecureService (service : option Z) (b : Builder) : Builder :=
  {| mPort := mPort b; mTimeout := mTimeout b; mServices := mServices b;
     mSecureServices := mSecureServices b ++ option_list service; mSecurity := mSecurity b;
     mCredentials := mCredentials b; mBindAddress := mBindAddress b; mCertfile := mCertfile b;
     mAuthToken := mAuthToken b; mJwkPath := mJwkPath b; mJwkLoadedPath := mJwkLoadedPath b;
     mEmulatorAccessPath := mEmulatorAccessPath b; mAuthMode := mAuthMode b; mValid := mValid b;
     mVerbose := mVerbose b; mLogging := mLogging b; mCaCerts := mCaCerts b; mIpMode := mIpMode b |}.

Definition withAuthToken (token : list Z) (b : Builder) : Builder :=
  {| mPort := mPort b; mTimeout := mTimeout b; mServices := mServices b;
     mSecureServices := mSecureServices b; mSecurity := mSecurity b; mCredentials := mCredentials b;
     mBindAddress := mBindAddress b; mCertfile := mCertfile b; mAuthToken := token; mJwkPath := mJwkPath b;
     mJwkLoadedPath := mJwkLoadedPath b; mEmulatorAccessPath := mEmulatorAccessPath b;
     mAuthMode := Z.lor (mAuthMode b) auth_StaticToken;
     mValid := match token with [] => false | _ => true end; mVerbose := mVerbose b; mLogging := mLogging b;
     mCaCerts := mCaCerts b; mIpMode := mIpMode b |}.

Definition withJwtAuthDiscoveryDir (jwks jwkLoadedPath : list Z) (b : Builder) : Builder :=
  {| mPort := mPort b; mTimeout := mTimeout b; mServices := mServices b;
     mSecureServices := mSecureServices b; mSecurity := mSecurity b; mCredentials := mCredentials b;
     mBindAddress := mBindAddress b; mCertfile := mCertfile b; mAuthToken := mAuthToken b; mJwkPath := jwks;
     mJwkLoadedPath := jwkLoadedPath; mEmulatorAccessPath := mEmulatorAccessPath b;
     mAuthMode := Z.lor (mAuthMode b) auth_JwtToken; mValid := pathExists jwks && pathCanRead jwks;
     mVerbose := mVerbose b; mLogging := mLogging b; mCaCerts := mCaCerts b; mIpMode := mIpMode b |}.

Definition withCertAndKey (certfile privateKeyFile caFile : option (list Z)) (b : Builder) : Builder :=
  match certfile, privateKeyFile with
  | Some cf, Some kf =>
      let '(key, valid) := readSecrets (Some kf) (mValid b) in
      let '(cert, valid) := readSecrets (Some cf) valid in
      let '(ca, valid, caCerts) :=
        match caFile with
        | Some f => let '(ca, valid) := readSecrets (Some f) valid in (Some ca, valid, true)
        | None => (None, valid, mCaCerts b)
        end in
  {| mPort := mPort b; mTimeout := mTimeout b; mServices := mServices b;
     mSecureServices := mSecureServices b; mSecurity := Tls;
     mCredentials := Some {| kind := SslServer key cert ca; processor := None |};
     mBindAddress := mBindAddress b; mCertfile := cf; mAuthToken := mAuthToken b; mJwkPath := mJwkPath b;
     mJwkLoadedPath := mJwkLoadedPath b; mEmulatorAccessPath := mEmulatorAccessPath b;
     mAuthMode := mAuthMode b; mValid := valid; mVerbose := mVerbose b; mLogging := mLogging b;
     mCaCerts := caCerts; mIpMode := mIpMode b |}
  | _, _ => b
  end.

Definition withVerboseLogging (verbose : bool) (b : Builder) : Builder :=
  {| mPort := mPort b; mTimeout := mTimeout b; mServices := mServices b;
     mSecureServices := mSecureServices b; mSecurity := mSecurity b; mCredentials := mCredentials b;
     mBindAddress := mBindAddress b; mCertfile := mCertfile b; mAuthToken := mAuthToken b;
     mJwkPath := mJwkPath b; mJwkLoadedPath := mJwkLoadedPath b;
     mEmulatorAccessPath := mEmulatorAccessPath b; mAuthMode := mAuthMode b; mValid := mValid b;
     mVerbose := verbose; mLogging := mLogging b; mCaCerts := mCaCerts b; mIpMode := mIpMode b |}.

Definition withAddress (address : list Z) (b : Builder) : Builder :=
  {| mPort := mPort b; mTimeout := mTimeout b; mServices := mServices b;
     mSecureServices := mSecureServices b; mSecurity := mSecurity b; mCredentials := mCredentials b;
     mBindAddress := address; mCertfile := mCertfile b; mAuthToken := mAuthToken b; mJwkPath := mJwkPath b;
     mJwkLoadedPath := mJwkLoadedPath b; mEmulatorAccessPath := mEmulatorAccessPath b;
     mAuthMode := mAuthMode b; mValid := mValid b; mVerbose := mVerbose b; mLogging := mLogging b;
     mCaCerts := mCaCerts b; mIpMode := mIpMode b |}.

Definition withIdleTimeout (timeout : Z) (b : Builder) : Builder :=
  {| mPort := mPort b; mTimeout := timeout; mServices := mServices b; mSecureServices := mSecureServices b;
     mSecurity := mSecurity b; mCredentials := mCredentials b; mBindAddress := mBindAddress b;
     mCertfile := mCertfile b; mAuthToken := mAuthToken b; mJwkPath := mJwkPath b;
     mJwkLoadedPath := mJwkLoadedPath b; mEmulatorAccessPath := mEmulatorAccessPath b;
     mAuthMode := mAuthMode b; mValid := mValid b; mVerbose := mVerbose b; mLogging := mLogging b;
     mCaCerts := mCaCerts b; mIpMode := mIpMode b |}.

Definition withLogging (logging : bool) (b : Builder) : Builder :=
  {| mPort := mPort b; mTimeout := mTimeout b; mServices := mServices b;
     mSecureServices := mSecureServices b; mSecurity := mSecurity b; mCredentials := mCredentials b;
     mBindAddress := mBindAddress b; mCertfile := mCertfile b; mAuthToken := mAuthToken b;
     mJwkPath := mJwkPath b; mJwkLoadedPath := mJwkLoadedPath b;
     mEmulatorAccessPath := mEmulatorAccessPath b; mAuthMode := mAuthMode b; mValid := mValid b;
     mVerbose := mVerbose b; mLogging := logging; mCaCerts := mCaCerts b; mIpMode := mIpMode b |}.

Definition withAllowList (path : option (list Z)) (b : Builder) : Builder :=
  {| mPort := mPort b; mTimeout := mTimeout b; mServices := mServices b;
     mSecureServices := mSecureServices b; mSecurity := mSecurity b; mCredentials := mCredentials b;
     mBindAddress := mBindAddress b; mCertfile := mCertfile b; mAuthToken := mAuthToken b;
     mJwkPath := mJwkPath b; mJwkLoadedPath := mJwkLoadedPath b;
     mEmulatorAccessPath := default (mEmulatorAccessPath b) path; mAuthMode := mAuthMode b;
     mValid := mValid b; mVerbose := mVerbose b; mLogging := mLogging b; mCaCerts := mCaCerts b;
     mIpMode := mIpMode b |}.

Definition set_port (port : Z) (m : IpMode) (b : Builder) : Builder :=
  {| mPort := port; mTimeout := mTimeout b; mServices := mServices b; mSecureServices := mSecureServices b;
     mSecurity := mSecurity b; mCredentials := mCredentials b; mBindAddress := mBindAddress b;
     mCertfile := mCertfile b; mAuthToken := mAuthToken b; mJwkPath := mJwkPath b;
     mJwkLoadedPath := mJwkLoadedPath b; mEmulatorAccessPath := mEmulatorAccessPath b;
     mAuthMode := mAuthMode b; mValid := mValid b; mVerbose := mVerbose b; mLogging := mLogging b;
     mCaCerts := mCaCerts b; mIpMode := m |}.

(** The loop of [withPortRange], [n] ports from [port] on. *)
Fixpoint find_port (n : nat) (port : Z) : option (Z * IpMode) :=
  match n with
  | 0%nat => None
  | S n =>
      match tcp4 port with
      | Some p => Some (p, Ipv4)
      | None => match tcp6 port with Some p => Some (p, Ipv6) | None => find_port n (port + 1) end
      end
  end.

Definition withPortRange (start end_ : Z) (b : Builder) : Builder :=
  match find_port (Z.to_nat (end_ - start)) start with Some (p, m) => set_port p m b | None => b end.

(** ** Building the server *)

Context {regex : Type}.
(** The access file: [None] when it cannot be opened, [Some None] when it is not
    JSON; the expressions. *)
Context (read_json : list Z -> option (option json)) (compile : list Z -> option regex).
(** [BuildAndStart]. *)
Context (start_ok : list Z -> cred_kind -> bool).

(** An exception of the reader is [None]. *)
Definition loadAllowlist (path : list Z) : option (@AllowList regex) :=
  match read_json path with None => Some DisableAccess | Some j => parseJsonObject compile j end.

Record server := {
  address : list Z;
  creds : credentials;
  services : list Z;
  required_headers : list (list Z * list Z);
  interceptors : list (option Z);  (* [None] logs, [Some t] watches for idleness *)
  allowList : @AllowList regex;
}.

Inductive built := Null | Throws | Server (s : server).

Definition choose_credentials (b : Builder) : credentials * Security :=
  match mCredentials b with
  | Some c => (c, mSecurity b)
  | None =>
      if bytes_eqb (mBindAddress b) str_localhost || bytes_eqb (mBindAddress b) str_v6
      then ({| kind := LocalTcp; processor := None |}, Local_)
      else ({| kind := InsecureServer; processor := None |}, Insecure)
  end.

(** The validators, in the order in which they are asked, and the headers the
    clients are told to send. *)
Definition token_auths (b : Builder) : list auth :=
  match mAuthToken b with [] => [] | t => [AuthStatic (DEFAULT_BEARER ++ t) (str "android-studio")] end.
Definition any_auths (b : Builder) : list auth :=
  token_auths b ++ match mJwkPath b with [] => [] | p => [AuthJwt p (mJwkLoadedPath b)] end.
Definition headers (b : Builder) : list (list Z * list Z) :=
  match mAuthToken b with [] => [] | t => [(DEFAULT_HEADER, DEFAULT_BEARER ++ t)] end.

Definition wants_auth (b : Builder) : bool :=
  negb (bytes_eqb (mAuthToken b) []) || negb (bytes_eqb (mJwkPath b) []).

(** Credentials, their security and the address once tokens are taken care of. *)
Definition protect (b : Builder) : credentials * Security * list Z :=
  let '(c, sec) := choose_credentials b in
  if wants_auth b then
    let '(c, sec, bind) := if decide (sec = Insecure) then ({| kind := LocalTcp; processor := None |}, Local_, str_v6)
                           else (c, sec, mBindAddress b) in
    ({| kind := kind c; processor := Some (any_auths b) |}, sec, bind)
  else (c, sec, mBindAddress b).

Definition translate_loopback (bind : list Z) (m : IpMode) : list Z :=
  if bytes_eqb bind str_v6 || bytes_eqb bind str_v4 || bytes_eqb bind str_localhost
  then match m with Ipv4 => str_v4 | Ipv6 => str_v6 end
  else bind.

Definition build (b : Builder) : built :=
  if mPort b =? -1 then Null
  else if negb (mValid b) then Null
  else
    match loadAllowlist (mEmulatorAccessPath b) with
    | None => Throws
    | Some al =>
        let '(c, sec, bind) := protect b in
        let server_address := translate_loopback bind (mIpMode b) ++ str ":" ++ to_string (mPort b) in
        let services := mServices b ++ (if bool_decide (sec = Tls) && mCaCerts b then mSecureServices b else []) in
        let creators := (if mLogging b then [None] else []) ++ (if 0 <? mTimeout b then [Some (mTimeout b)] else []) in
        if negb (start_ok server_address (kind c)) then Null
        else
          Server {| address := server_address; creds := c; services := services; required_headers := headers b;
                    interceptors := creators; allowList := al |}
    end.

(** What is asked of a builder, in any order. *)
Inductive request :=
  | Service (s : option Z) | SecureService (s : option Z) | Token (t : list Z) | Jwks (dir loaded : list Z)
  | CertAndKey (cert key ca : option (list Z)) | Verbose (v : bool) | Address (a : list Z) | IdleTimeout (t : Z)
  | Logging (l : bool) | PortRange (s e : Z) | Allow (p : option (list Z)).

Definition ask (r : request) : Builder -> Builder :=
  match r with
  | Service s => withService s
  | SecureService s => withSecureService s
  | Token t => withAuthToken t
  | Jwks d l => withJwtAuthDiscoveryDir d l
  | CertAndKey c k ca => withCertAndKey c k ca
  | Verbose v => withVerboseLogging v
  | Address a => withAddress a
  | IdleTimeout t => withIdleTimeout t
  | Logging l => withLogging l
  | PortRange s e => withPortRange s e
  | Allow p => withAllowList p
  end.

Definition ask_all (rs : list request) (b : Builder) : Builder := fold_left (fun b r => ask r b) rs b.

(** ** What was asked for *)

Definition asked {A} (f : request -> option A) (rs : list request) : list A := omap f rs.
Definition latest {A} (f : request -> option A) (rs : list request) : option A := last (asked f rs).

Definition token_asked (rs : list request) : list Z :=
  default [] (latest (fun r => match r with Token t => Some t | _ => None end) rs).
Definition jwks_asked (rs : list request) : list Z * list Z :=
  default ([], []) (latest (fun r => match r with Jwks d l => Some (d, l) | _ => None end) rs).
Definition as_tls (r : request) : option (list Z * list Z * option (list Z)) :=
  match r with CertAndKey (Some c) (Some k) ca => Some (c, k, ca) | _ => None end.
Definition services_asked (rs : list request) : list Z :=
  asked (fun r => match r with Service s => s | _ => None end) rs.
Definition secure_asked (rs : list request) : list Z :=
  asked (fun r => match r with SecureService s => s | _ => None end) rs.
Definition ca_asked (rs : list request) : bool :=
  existsb (fun c => match c.2 with Some _ => true | None => false end) (asked as_tls rs).

Definition text (f : list Z) : list Z := fst (readSecrets (Some f) true).
Definition tls_kind (c : list Z * list Z * option (list Z)) : cred_kind :=
  let '(cert, key, ca) := c in SslServer (text key) (text cert) (text <$> ca).

Lemma readSecrets_text f v : fst (readSecrets (Some f) v) = text f.
Proof. unfold text, readSecrets. destruct (negb _); [done|]. by destruct (read_file f). Qed.

(** The builder after a history of requests. *)
Record history_ok (rs : list request) (b : Builder) : Prop := {
  ho_token : mAuthToken b = token_asked rs;
  ho_jwks : (mJwkPath b, mJwkLoadedPath b) = jwks_asked rs;
  ho_services : mServices b = services_asked rs;
  ho_secure : mSecureServices b = secure_asked rs;
  ho_ca : mCaCerts b = ca_asked rs;
  ho_creds : mCredentials b = (fun c => {| kind := tls_kind c; processor := None |}) <$> latest as_tls rs;
  ho_security : mSecurity b = match latest as_tls rs with Some _ => Tls | None => Insecure end;
}.

Lemma asked_snoc {A} (f : request -> option A) rs r : asked f (rs ++ [r]) = asked f rs ++ option_list (f r).
Proof. unfold asked. rewrite omap_app. cbn. by destruct (f r). Qed.

Lemma latest_snoc {A} (f : request -> option A) rs r :
  latest f (rs ++ [r]) = match f r with Some x => Some x | None => latest f rs end.
Proof. unfold latest. rewrite asked_snoc. destruct (f r); cbn; [apply last_snoc|by rewrite app_nil_r]. Qed.

Lemma ask_all_ok rs p : history_ok rs (ask_all rs (new_Builder p)).
Proof.
  induction rs as [|r rs IH] using rev_ind; [done|].
  unfold ask_all in *. rewrite fold_left_app. cbn [fold_left].
  destruct (fold_left _ rs _) as [po ti se ss sec cr ba ce at_ jp jl ea am va ve lo ca ip].
  destruct IH as [H1 H2 H3 H4 H5 H6 H7]. cbn in H1, H2, H3, H4, H5, H6, H7.
  unfold ca_asked, token_asked, jwks_asked, services_asked, secure_asked in *.
  constructor; unfold ca_asked, token_asked, jwks_asked, services_asked, secure_asked;
    rewrite ?latest_snoc, ?asked_snoc, ?existsb_app;
    destruct r as [s|s|t|d l|c k a|v|a|t|l|s e|q]; cbn [ask as_tls option_list];
    try (unfold withPortRange; destruct (find_port _ s) as [[? ?]|]);
    try (destruct c as [c|], k as [k|]); cbn [option_list];
    try (unfold withCertAndKey; rewrite (surjective_pairing (readSecrets (Some k) _)), (surjective_pairing (readSecrets (Some c) _)), !readSecrets_text; destruct a as [a|]; [rewrite (surjective_pairing (readSecrets (Some a) _)), readSecrets_text|]);
    cbn; rewrite ?app_nil_r, ?orb_false_r, ?orb_true_r; try done; try congruence.
Qed.

(** ** What protects the server *)

Lemma wants_auth_auths b : wants_auth b = false <-> any_auths b = [].
Proof.
  unfold wants_auth, any_auths, token_auths. destruct (mAuthToken b), (mJwkPath b); cbn; split; done.
Qed.

Lemma translate_loopback_local bind m :
  bind = str_localhost \/ bind = str_v6 \/ bind = str_v4 -> translate_loopback bind m ∈ [str_v4; str_v6].
Proof. intros [->|[->| ->]]; destruct m; vm_compute; [left|right;left|left|right;left|left|right;left]. Qed.

Lemma build_server b s :
  build b = Server s ->
  mPort b <> -1 /\ mValid b = true /\ loadAllowlist (mEmulatorAccessPath b) = Some (allowList s) /\
  let '(c, sec, bind) := protect b in
  creds s = c /\ address s = translate_loopback bind (mIpMode b) ++ str ":" ++ to_string (mPort b) /\
  services s = mServices b ++ (if bool_decide (sec = Tls) && mCaCerts b then mSecureServices b else []).
Proof.
  unfold build. destruct (mPort b =? -1) eqn:Hp; [done|]. apply Z.eqb_neq in Hp.
  destruct (mValid b); [|done]. cbn [negb]. destruct (loadAllowlist _) as [al|]; [|done].
  destruct (protect b) as [[c sec] bind]. destruct (start_ok _ _); [|done]. cbn [negb]. by intros [= <-].
Qed.

(** Who gets tokens checked, and how the bytes travel. *)
Definition auths_asked (rs : list request) : list auth :=
  (match token_asked rs with [] => [] | t => [AuthStatic (DEFAULT_BEARER ++ t) (str "android-studio")] end) ++
  (match fst (jwks_asked rs) with [] => [] | p => [AuthJwt p (snd (jwks_asked rs))] end).

Lemma auths_asked_ok rs b : history_ok rs b -> any_auths b = auths_asked rs.
Proof.
  intros H. unfold any_auths, token_auths, auths_asked. rewrite (ho_token _ _ H), <- (ho_jwks _ _ H). done.
Qed.

Lemma protect_asked rs b :
  history_ok rs b ->
  let '(c, sec, bind) := protect b in
  processor c = (match auths_asked rs with [] => None | l => Some l end) /\
  match latest as_tls rs with
  | Some t => kind c = tls_kind t /\ sec = Tls
  | None =>
      sec <> Tls /\
      (kind c = LocalTcp /\ (bind = str_localhost \/ bind = str_v6) \/ kind c = InsecureServer /\ auths_asked rs = [])
  end.
Proof.
  intros H. rewrite <- (auths_asked_ok rs b H). unfold protect, choose_credentials.
  rewrite (ho_creds _ _ H), (ho_security _ _ H).
  destruct (wants_auth b) eqn:Hw.
  - assert (any_auths b <> []) as Hne by (intros E; apply wants_auth_auths in E; congruence).
    destruct (latest as_tls rs) as [t|]; cbn [fmap option_fmap option_map].
    { cbn. destruct (any_auths b); done. }
    destruct (bytes_eqb (mBindAddress b) str_localhost || bytes_eqb (mBindAddress b) str_v6) eqn:Hb.
    + cbn. split; [by destruct (any_auths b)|]. split; [done|]. left. split; [done|].
      apply orb_true_iff in Hb as [Hb|Hb]; apply bytes_eqb_eq in Hb; auto.
    + cbn. split; [by destruct (any_auths b)|]. split; [done|]. left. auto.
  - apply wants_auth_auths in Hw. rewrite Hw. destruct (latest as_tls rs) as [t|]; cbn [fmap option_fmap option_map]; [done|].
    destruct (bytes_eqb (mBindAddress b) str_localhost || bytes_eqb (mBindAddress b) str_v6) eqn:Hb; cbn.
    + split; [done|]. split; [done|]. left. split; [done|].
      apply orb_true_iff in Hb as [Hb|Hb]; apply bytes_eqb_eq in Hb; auto.
    + auto.
Qed.

(** A server that starts checks every token that was asked for last, the static one
    first; it speaks TLS with the texts of the files when a certificate and a key
    were named, and else, as soon as tokens are checked, it listens on the loopback
    device only and takes local connections.  The services for trusted clients are
    there only with TLS, and only if an authority for clients was named. *)
Theorem grpc_server_protected rs p s :
  let b := ask_all rs (new_Builder p) in
  build b = Server s ->
  processor (creds s) = (match auths_asked rs with [] => None | l => Some l end) /\
  match latest as_tls rs with
  | Some t => kind (creds s) = tls_kind t
  | None =>
      kind (creds s) = LocalTcp /\
        (exists host, host ∈ [str_v4; str_v6] /\ address s = host ++ str ":" ++ to_string (mPort b)) \/
      kind (creds s) = InsecureServer /\ auths_asked rs = []
  end /\
  services s =
    services_asked rs ++ (match latest as_tls rs with Some _ => if ca_asked rs then secure_asked rs else [] | None => [] end).
Proof.
  intros b Hs. pose proof (ask_all_ok rs p) as H. fold b in H. destruct (build_server b s Hs) as (_ & _ & _ & Hb).
  pose proof (protect_asked rs b H) as Hc. destruct (protect b) as [[c sec] bind].
  destruct Hb as (-> & Ha & ->), Hc as [Hp Hc]. rewrite (ho_services _ _ H), (ho_secure _ _ H), (ho_ca _ _ H).
  split; [done|]. destruct (latest as_tls rs) as [t|].
  - destruct Hc as [Hk ->]. by rewrite bool_decide_true.
  - destruct Hc as [Hsec Hc]. rewrite bool_decide_false by done. split; [|done].
    destruct Hc as [[Hk Hbind]|Hc]; [left|by right]. split; [done|]. eexists. split; [|exact Ha].
    apply translate_loopback_local. tauto.
Qed.

(** A port in the range is taken, the first on which a socket of either kind can
    listen; without one nothing is built. *)
Lemma find_port_spec n port :
  match find_port n port with
  | Some (p, m) =>
      exists i, port <= i < port + Z.of_nat n /\ (match m with Ipv4 => tcp4 i | Ipv6 => tcp6 i end) = Some p /\
        (m = Ipv6 -> tcp4 i = None) /\ (forall j, port <= j < i -> tcp4 j = None /\ tcp6 j = None)
  | None => forall j, port <= j < port + Z.of_nat n -> tcp4 j = None /\ tcp6 j = None
  end.
Proof.
  revert port. induction n as [|n IH]; intros port; cbn [find_port]; [lia|].
  destruct (tcp4 port) as [p|] eqn:H4; [exists port; repeat split; try done; lia|].
  destruct (tcp6 port) as [p|] eqn:H6; [exists port; repeat split; try done; lia|].
  specialize (IH (port + 1)). destruct (find_port n (port + 1)) as [[p m]|].
  - destruct IH as (i & Hi & Hp & Hm & Hj). exists i. split; [lia|]. split; [done|]. split; [done|].
    intros j Hjr. destruct (decide (j = port)) as [->|]; [done|]. apply Hj. lia.
  - intros j Hjr. destruct (decide (j = port)) as [->|]; [done|]. apply IH. lia.
Qed.

(** ** Calls to a server *)

Context {keyset : Type} (FullMatch : list Z -> regex -> bool) (VerifyAndDecode : keyset -> list Z -> option jwt).

(** The validator of the library's processor; [keys] are those of the directory at the
    time. *)
Definition validator_of (keys : option keyset) (a : auth) : @validator keyset :=
  match a with AuthStatic token iss => StaticTokenAuth token iss | AuthJwt _ _ => JwtTokenAuth keys end.

(** Calls one after the other: random numbers for the caches, the keys at the time, the
    metadata.  Without a processor nobody is asked. *)
Definition serve (s : server) (calls : list ((nat -> Z) * option keyset * list (list Z * list Z)))
    : list status * @AllowList regex :=
  match processor (creds s) with
  | None => (map (fun _ => OK) calls, allowList s)
  | Some l =>
      process_all FullMatch VerifyAndDecode (map (fun c => (c.1.1, map (validator_of c.1.2) l, c.2)) calls) (allowList s)
  end.

Definition policy_of (a : @AllowList regex) : option (AllowGroup -> gmap (list Z) (list regex)) :=
  match a with DisableAccess => None | Caching l => Some (mSecurityMap l) end.

Lemma loadAllowlist_ok path a : loadAllowlist path = Some a -> al_ok FullMatch (policy_of a) a.
Proof.
  unfold loadAllowlist. destruct (read_json path) as [j|]; [|by intros [= <-]].
  intros Hj. apply parseJsonObject_fresh in Hj. destruct a as [|l]; [done|]. cbn in *. rewrite Hj at 2.
  apply new_allow_list_ok.
Qed.

(** C28: A server that was asked to check tokens lets a call through exactly when the policy
    of the access file does, for the tokens it was asked to take, whatever calls came
    before; one that was not lets every call through. *)
Theorem grpc_server_serves rs p s calls :
  build (ask_all rs (new_Builder p)) = Server s ->
  loadAllowlist (mEmulatorAccessPath (ask_all rs (new_Builder p))) = Some (allowList s) /\
  Forall2 (fun c st => st = OK <->
             auths_asked rs = [] \/
             authorised FullMatch VerifyAndDecode (policy_of (allowList s))
               (map (validator_of c.1.2) (auths_asked rs)) c.2)
    calls (fst (serve s calls)).
Proof.
  intros Hs. pose proof (ask_all_ok rs p) as H. destruct (build_server _ s Hs) as (_ & _ & Hl & Hb). split; [done|].
  pose proof (protect_asked rs _ H) as Hc. destruct (protect _) as [[c sec] bind]. destruct Hb as (Hcr & _ & _), Hc as [Hp _].
  unfold serve. rewrite Hcr, Hp. destruct (auths_asked rs) as [|a l].
  - cbn. clear. induction calls; cbn; constructor; auto. split; auto.
  - pose proof (process_all_ok FullMatch VerifyAndDecode (policy_of (allowList s))
      (map (fun c => (c.1.1, map (validator_of c.1.2) (a :: l), c.2)) calls) (allowList s) (loadAllowlist_ok _ _ Hl)) as HF.
    apply Forall2_fmap_l in HF. eapply Forall2_impl; [exact HF|]. cbn. intros call st ->. split; [auto|]. by intros [?|?].
Qed.
End host.

(** ** A concrete server

    The files exist, the key is ["KEY"], the first port is taken. *)
Definition sample_read (f : list Z) : bool * list Z := (false, if bytes_eqb f (str "k") then str "KEY" else f).
Definition sample_tcp4 (p : Z) : option Z := if p =? 8554 then None else Some p.
Definition sample_tcp6 (p : Z) : option Z := None.
Definition sample_json_file (f : list Z) : option (option json) := Some (Some sample_json).
Definition sample_requests : list request :=
  [Token (str "secret"); Jwks (str "dir") (str "active"); PortRange 8554 8600; Service (Some 1); SecureService (Some 2)].

Abbreviation sample_build rs :=
  (build sample_json_file Some (fun _ _ => true)
    (ask_all (fun _ => true) (fun _ => true) sample_read sample_tcp4 sample_tcp6 rs (new_Builder (str "access")))).

Lemma grpc_server_protected_witness :
  exists s, sample_build sample_requests = Server s /\
    processor (creds s) = Some [AuthStatic (str "Bearer secret") (str "android-studio"); AuthJwt (str "dir") (str "active")] /\
    address s = str "127.0.0.1:8555" /\ services s = [1].
Proof.
  assert ((match sample_build sample_requests with
           | Server s => bytes_eqb (address s) (str "127.0.0.1:8555")
           | _ => false end) = true) as Hv by (vm_compute; reflexivity).
  destruct (sample_build sample_requests) as [| |s] eqn:E; [discriminate|discriminate|].
  pose proof (grpc_server_protected (fun _ => true) (fun _ => true) sample_read sample_tcp4 sample_tcp6 sample_json_file Some
    (fun _ _ => true) sample_requests (str "access") s E) as H.
  exists s. split; [reflexivity|]. split; [exact (proj1 H)|]. split; [by apply bytes_eqb_eq in Hv|].
  exact (proj2 (proj2 H)).
Defined.

(** A signed token that every key set verifies, of the issuer ["studio"]. *)
Definition sample_verify (_ : unit) (_ : list Z) : option jwt :=
  Some {| GetIssuer := Some (str "studio"); GetAudiences := None |}.

Lemma grpc_server_serves_witness :
  exists s, sample_build sample_requests = Server s /\
    authorised prefix_match sample_verify (policy_of (allowList s))
      (map (validator_of (Some tt)) (auths_asked sample_requests))
      [(PATH, str "/a.x"); (DEFAULT_HEADER, str "Bearer h.p.s")].
Proof.
  set (call := (fun _ : nat => 0, Some tt, [(PATH, str "/a.x"); (DEFAULT_HEADER, str "Bearer h.p.s")])).
  assert ((match sample_build sample_requests with
           | Server s => bool_decide (fst (serve prefix_match sample_verify s [call]) = [OK])
           | _ => false end) = true) as Hv by (vm_compute; reflexivity).
  destruct (sample_build sample_requests) as [| |s] eqn:E; [discriminate|discriminate|].
  apply bool_decide_eq_true in Hv. exists s. split; [reflexivity|].
  pose proof (grpc_server_serves (fun _ => true) (fun _ => true) sample_read sample_tcp4 sample_tcp6 sample_json_file Some
    (fun _ _ => true) prefix_match sample_verify sample_requests (str "access") s [call] E) as [_ H].
  rewrite Hv in H. apply Forall2_cons in H as [H _]. destruct (proj1 H eq_refl) as [H0|H0]; [discriminate H0|exact H0].
Defined.

(** A key that cannot be read is forgotten when a token is asked for after it: the
    server starts, with no key. *)
Lemma grpc_unreadable_key_forgotten :
  let rs := [CertAndKey (Some (str "cert")) (Some (str "key")) None; Token (str "secret"); PortRange 8554 8600] in
  exists s, build sample_json_file Some (fun _ _ => true)
    (ask_all (fun f => bytes_eqb f (str "cert")) (fun _ => true) sample_read sample_tcp4 sample_tcp6 rs (new_Builder (str "access")))
    = Server s /\ kind (creds s) = SslServer [] (str "cert") None.
Proof.
  cbv zeta. set (b := build _ _ _ _).
  assert ((match b with Server s => match kind (creds s) with SslServer [] c None => bytes_eqb c (str "cert") | _ => false end
           | _ => false end) = true) as Hv by (vm_compute; reflexivity).
  destruct b as [| |s]; [discriminate|discriminate|]. exists s. split; [reflexivity|].
  destruct (kind (creds s)) as [[|] c [|]| |]; try discriminate. by apply bytes_eqb_eq in Hv as ->.
Qed.

(** An authority that was named for an earlier certificate opens the services for
    trusted clients, although the certificate in force checks no clients. *)
Lemma grpc_stale_authority :
  let rs := [CertAndKey (Some (str "c")) (Some (str "k")) (Some (str "ca")); CertAndKey (Some (str "c")) (Some (str "k")) None;
             PortRange 8554 8600; SecureService (Some 2)] in
  exists s, sample_build rs = Server s /\ kind (creds s) = SslServer (str "KEY") (str "c") None /\ services s = [2].
Proof.
  cbv zeta. set (b := sample_build _).
  assert ((match b with
           | Server s => bool_decide (services s = [2]) && match kind (creds s) with
                         | SslServer k c None => bytes_eqb k (str "KEY") && bytes_eqb c (str "c") | _ => false end
           | _ => false end) = true) as Hv by (vm_compute; reflexivity).
  destruct b as [| |s]; [discriminate|discriminate|]. exists s. split; [reflexivity|].
  apply andb_true_iff in Hv as [->%bool_decide_eq_true Hv].
  destruct (kind (creds s)) as [k c [|]| |]; try discriminate.
  apply andb_true_iff in Hv as [->%bytes_eqb_eq ->%bytes_eqb_eq]. split; reflexivity.
Qed.
