(* ===== verification/Ext4Alloc.v ===== *)
(** * Block groups and the allocation of blocks and inodes

    Models the allocator of [android/ext4_utils]'s [allocate.c]: the bitmaps of a
    block group, how a group starts, and how blocks and inodes are taken from
    the groups.  The parameters of the file system, [info] and [aux_info], are
    a record; Ext4Geometry.v computes them. *)

From S2P Require Import Prelude.

(** ** Outcomes

    [error] leaves everything with [longjmp], as [force] is not set; an access
    outside an object or through a null pointer has no outcome. *)

Inductive outcome (A : Type) := Done (a : A) | Error | Undefined.
Arguments Done {_} a. Arguments Error {_}. Arguments Undefined {_}.

#[export] Instance outcome_bind : MBind outcome := fun A B k m =>
  match m with Done a => k a | Error => Error | Undefined => Undefined end.

(** What an optional object gives: it is there, or the access is undefined. *)
Definition get {A} (o : option A) : outcome A := match o with Some a => Done a | None => Undefined end.

Definition EXT4_ALLOCATE_FAILED : Z := 4294967295.
Definition EXT4_BG_INODE_UNINIT : Z := 1.

(** ** The parameters of the file system *)

Record geometry := {
  block_size : Z;
  blocks_per_group : Z;
  inodes_per_group : Z;
  inode_size : Z;
  bg_desc_reserve_blocks : Z;
  sparse_super : bool;
  first_data_block : Z;
  len_blocks : Z;
  inode_table_blocks : Z;
  groups : Z;
  bg_desc_blocks : Z;
}.

(** [is_power_of]: the loop divides [a] as long as it is larger than [b]. *)
Fixpoint is_power_of_loop (fuel : nat) (a b : Z) : bool :=
  match fuel with
  | O => false
  | S fuel => if b <? a then if Z.rem a b =? 0 then is_power_of_loop fuel (Z.quot a b) b else false else a =? b
  end.
Definition is_power_of (a b : Z) : bool := is_power_of_loop (S (Z.to_nat a)) a b.

Definition ext4_bg_has_super_block (g : geometry) (bg : Z) : bool :=
  if negb (sparse_super g) then true
  else if (bg =? 0) || (bg =? 1) then true
  else is_power_of bg 3 || is_power_of bg 5 || is_power_of bg 7.

(** ** A block group *)

Record block_group_info := {
  first_block : Z;
  header_blocks : Z;
  data_blocks_used : Z;
  has_superblock : bool;
  block_bitmap : list Z;
  inode_bitmap : list Z;
  inode_table : bool;  (* whether its memory was allocated *)
  free_blocks : Z;
  first_free_block : Z;
  free_inodes : Z;
  first_free_inode : Z;
  flags : Z;
  used_dirs : Z;
}.

(** ** Bitmaps *)

(** Whether the bit was set before, and the bitmap afterwards. *)
Definition bitmap_set_bit (bitmap : list Z) (bit : Z) : outcome (bool * list Z) :=
  b ← get (bitmap !! Z.to_nat (bit / 8));
  if negb (Z.land b (Z.shiftl 1 (bit mod 8)) =? 0) then Done (true, bitmap)
  else Done (false, <[Z.to_nat (bit / 8) := Z.lor b (Z.shiftl 1 (bit mod 8))]> bitmap).

Definition bitmap_set_8_bits (bitmap : list Z) (bit : Z) : outcome (Z * list Z) :=
  b ← get (bitmap !! Z.to_nat (bit / 8));
  Done (b, <[Z.to_nat (bit / 8) := 255]> bitmap).

Definition bitmap_clear_bit (bitmap : list Z) (bit : Z) : outcome (list Z) :=
  b ← get (bitmap !! Z.to_nat (bit / 8));
  Done (<[Z.to_nat (bit / 8) := Z.ldiff b (Z.shiftl 1 (bit mod 8))]> bitmap).

(** The three loops of [reserve_blocks]; each gives the counter, the block and the
    bitmap.  A bit that is set already is an error. *)
Fixpoint reserve_unaligned (fuel : nat) (num i block : Z) (bm : list Z) : outcome (Z * Z * list Z) :=
  match fuel with
  | O => Done (i, block, bm)
  | S fuel =>
      if (i <? num) && negb (block mod 8 =? 0) then
        '(was, bm) ← bitmap_set_bit bm block;
        if was : bool then Error else reserve_unaligned fuel num (i + 1) (block + 1) bm
      else Done (i, block, bm)
  end.

Fixpoint reserve_bytes (fuel : nat) (num i block : Z) (bm : list Z) : outcome (Z * Z * list Z) :=
  match fuel with
  | O => Done (i, block, bm)
  | S fuel =>
      if i + 8 <=? Z.ldiff num 7 then
        '(was, bm) ← bitmap_set_8_bits bm block;
        if negb (was =? 0) then Error else reserve_bytes fuel num (i + 8) (block + 8) bm
      else Done (i, block, bm)
  end.

Fixpoint reserve_rest (fuel : nat) (num i block : Z) (bm : list Z) : outcome (list Z) :=
  match fuel with
  | O => Done bm
  | S fuel =>
      if i <? num then
        '(was, bm) ← bitmap_set_bit bm block;
        if was : bool then Error else reserve_rest fuel num (i + 1) (block + 1) bm
      else Done bm
  end.

Definition reserve_bits (start num : Z) (bm : list Z) : outcome (list Z) :=
  let fuel := S (Z.to_nat num) in
  '(i, block, bm) ← reserve_unaligned fuel num 0 start bm;
  '(i, block, bm) ← reserve_bytes fuel num i block bm;
  reserve_rest fuel num i block bm.

(** A group with another bitmap and other counts of blocks. *)
Definition with_blocks (bg : block_group_info) (bm : list Z) (free ff : Z) : block_group_info :=
  {| first_block := first_block bg; header_blocks := header_blocks bg; data_blocks_used := data_blocks_used bg;
     has_superblock := has_superblock bg; block_bitmap := bm; inode_bitmap := inode_bitmap bg;
     inode_table := inode_table bg; free_blocks := free; first_free_block := ff; free_inodes := free_inodes bg;
     first_free_inode := first_free_inode bg; flags := flags bg; used_dirs := used_dirs bg |}.

(** The result -1 or 0, and the group. *)
Definition reserve_blocks (bg : block_group_info) (start num : Z) : outcome (Z * block_group_info) :=
  if free_blocks bg <? num then Done (-1, bg)
  else
    bm ← reserve_bits start num (block_bitmap bg);
    Done (0, with_blocks bg bm (free_blocks bg - num)
               (if start =? first_free_block bg then u32 (start + num) else first_free_block bg)).

(** [free_blocks], from the last block before the first free one downwards. *)
Fixpoint clear_down (n : nat) (block : Z) (bm : list Z) : outcome (list Z) :=
  match n with
  | O => Done bm
  | S n => bm ← bitmap_clear_bit bm block; clear_down n (u32 (block - 1)) bm
  end.

Definition free_last_blocks (bg : block_group_info) (num_blocks : Z) : outcome block_group_info :=
  bm ← clear_down (Z.to_nat num_blocks) (u32 (first_free_block bg - 1)) (block_bitmap bg);
  Done (with_blocks bg bm (u32 (free_blocks bg + num_blocks)) (u32 (first_free_block bg - num_blocks))).

Section geometry.
Context (g : geometry).

Definition zeroes (n : Z) : list Z := replicate (Z.to_nat n) 0.

(** A group before its blocks are reserved. *)
Definition fresh_bg (i : Z) : block_group_info :=
  let sb := ext4_bg_has_super_block g i in
  {| first_block := u32 (first_data_block g + i * blocks_per_group g);
     header_blocks := 2 + inode_table_blocks g + (if sb then 1 + bg_desc_blocks g + bg_desc_reserve_blocks g else 0);
     data_blocks_used := 0; has_superblock := sb;
     block_bitmap := zeroes (block_size g); inode_bitmap := zeroes (block_size g); inode_table := false;
     free_blocks := blocks_per_group g; first_free_block := 0;
     free_inodes := inodes_per_group g; first_free_inode := 1; flags := EXT4_BG_INODE_UNINIT; used_dirs := 0 |}.

(** Where the two bitmaps of a group are written: behind the copies of the superblock and
    of the descriptors. *)
Definition bitmaps_block (i : Z) : Z :=
  let block := first_block (fresh_bg i) in
  if has_superblock (fresh_bg i) then u32 (block + (1 + bg_desc_blocks g + bg_desc_reserve_blocks g)) else block.

(** The group, and the block for which the sparse file is told its bitmaps. *)
Definition init_bg (i : Z) : outcome (block_group_info * Z) :=
  let bg := fresh_bg i in
  let block := bitmaps_block i in
  '(r, bg) ← reserve_blocks bg (first_free_block bg) (header_blocks bg);
  if r <? 0 then Error
  else
    if len_blocks g <? u32 (first_block bg + blocks_per_group g) then
      let overrun := u32 (u32 (first_block bg + blocks_per_group g) - len_blocks g) in
      '(_, bg) ← reserve_blocks bg (u32 (blocks_per_group g - overrun)) overrun; Done (bg, block)
    else Done (bg, block).

Fixpoint init_bgs (n : nat) (i : Z) : outcome (list block_group_info * list Z) :=
  match n with
  | O => Done ([], [])
  | S n => '(bg, block) ← init_bg i; '(bgs, blocks) ← init_bgs n (i + 1); Done (bg :: bgs, block :: blocks)
  end.

Definition block_allocator_init : outcome (list block_group_info * list Z) := init_bgs (Z.to_nat (groups g)) 0.

(** ** Taking blocks *)

Definition add_data_blocks (bg : block_group_info) (len : Z) : block_group_info :=
  {| first_block := first_block bg; header_blocks := header_blocks bg; data_blocks_used := data_blocks_used bg + len;
     has_superblock := has_superblock bg; block_bitmap := block_bitmap bg; inode_bitmap := inode_bitmap bg;
     inode_table := inode_table bg; free_blocks := free_blocks bg; first_free_block := first_free_block bg;
     free_inodes := free_inodes bg; first_free_inode := first_free_inode bg; flags := flags bg; used_dirs := used_dirs bg |}.

Definition ext4_allocate_blocks_from_block_group (bgs : list block_group_info) (len bg_num : Z)
    : outcome (Z * list block_group_info) :=
  bg ← get (bgs !! Z.to_nat bg_num);
  if free_blocks bg <? len then Done (EXT4_ALLOCATE_FAILED, bgs)
  else
    let block := first_free_block bg in
    '(r, bg) ← reserve_blocks bg (first_free_block bg) len;
    if r <? 0 then Error
    else Done (u32 (first_block bg + block), <[Z.to_nat bg_num := add_data_blocks bg len]> bgs).

Fixpoint allocate_block_from (n : nat) (i : Z) (bgs : list block_group_info) : outcome (Z * list block_group_info) :=
  match n with
  | O => Done (EXT4_ALLOCATE_FAILED, bgs)
  | S n =>
      '(block, bgs) ← ext4_allocate_blocks_from_block_group bgs 1 i;
      if block =? EXT4_ALLOCATE_FAILED then allocate_block_from n (i + 1) bgs else Done (block, bgs)
  end.
Definition allocate_block (bgs : list block_group_info) : outcome (Z * list block_group_info) :=
  allocate_block_from (Z.to_nat (groups g)) 0 bgs.

(** The group that fits best, and its number of free blocks. *)
Fixpoint find_best (len i : Z) (bgs : list block_group_info) (found_bg found_bg_len : Z) : Z * Z :=
  match bgs with
  | [] => (found_bg, found_bg_len)
  | bg :: bgs =>
      let bg_len := free_blocks bg in
      if ((len <=? bg_len) && ((found_bg_len =? 0) || (bg_len <? found_bg_len))) ||
         ((found_bg_len <? len) && (found_bg_len <? bg_len))
      then find_best len (i + 1) bgs i bg_len
      else find_best len (i + 1) bgs found_bg found_bg_len
  end.

(** A piece of an allocation: its group, block and length. *)
Record piece := { p_bg : Z; p_block : Z; p_len : Z }.

Definition ext4_allocate_best_fit_partial (bgs : list block_group_info) (len : Z)
    : outcome (piece * list block_group_info) :=
  let '(found_bg, found_bg_len) := find_best len 0 bgs 0 0 in
  if found_bg_len =? 0 then Error
  else
    let allocate_len := Z.min len found_bg_len in
    '(block, bgs) ← ext4_allocate_blocks_from_block_group bgs allocate_len found_bg;
    if block =? EXT4_ALLOCATE_FAILED then Error
    else Done ({| p_bg := found_bg; p_block := block; p_len := allocate_len |}, bgs).

(** ** Inodes *)

Fixpoint set_inode_bits (n : nat) (inode : Z) (bm : list Z) : outcome (list Z) :=
  match n with
  | O => Done bm
  | S n =>
      b ← get (bm !! Z.to_nat (inode / 8));
      set_inode_bits n (u32 (inode + 1)) (<[Z.to_nat (inode / 8) := Z.lor b (Z.shiftl 1 (inode mod 8))]> bm)
  end.

Definition reserve_inodes (bgs : list block_group_info) (bg_num num : Z) : outcome (Z * list block_group_info) :=
  bg ← get (bgs !! Z.to_nat bg_num);
  if free_inodes bg <? num then Done (EXT4_ALLOCATE_FAILED, bgs)
  else
    bm ← set_inode_bits (Z.to_nat num) (u32 (first_free_inode bg - 1)) (inode_bitmap bg);
    Done (first_free_inode bg,
      <[Z.to_nat bg_num :=
        {| first_block := first_block bg; header_blocks := header_blocks bg; data_blocks_used := data_blocks_used bg;
           has_superblock := has_superblock bg; block_bitmap := block_bitmap bg; inode_bitmap := bm;
           inode_table := inode_table bg; free_blocks := free_blocks bg; first_free_block := first_free_block bg;
           free_inodes := u32 (free_inodes bg - num); first_free_inode := u32 (first_free_inode bg + num);
           flags := flags bg; used_dirs := used_dirs bg |}]> bgs).

Fixpoint allocate_inode_from (n : nat) (bg : Z) (bgs : list block_group_info) : outcome (Z * list block_group_info) :=
  match n with
  | O => Done (EXT4_ALLOCATE_FAILED, bgs)
  | S n =>
      '(inode, bgs) ← reserve_inodes bgs bg 1;
      if inode =? EXT4_ALLOCATE_FAILED then allocate_inode_from n (bg + 1) bgs
      else Done (u32 (bg * inodes_per_group g + inode), bgs)
  end.
Definition allocate_inode (bgs : list block_group_info) : outcome (Z * list block_group_info) :=
  allocate_inode_from (Z.to_nat (groups g)) 0 bgs.

(** [allocate_bg_inode_table]: the group with its table in memory and, when the
    memory is new, the block where it is to be written. *)
Definition allocate_bg_inode_table (bg : block_group_info) : option Z * block_group_info :=
  if inode_table bg then (None, bg)
  else
    (Some (u32 (first_block bg + 2 + (if has_superblock bg then bg_desc_blocks g + bg_desc_reserve_blocks g + 1 else 0))),
     {| first_block := first_block bg; header_blocks := header_blocks bg; data_blocks_used := data_blocks_used bg;
        has_superblock := has_superblock bg; block_bitmap := block_bitmap bg; inode_bitmap := inode_bitmap bg;
        inode_table := true; free_blocks := free_blocks bg; first_free_block := first_free_block bg;
        free_inodes := free_inodes bg; first_free_inode := first_free_inode bg;
        flags := Z.ldiff (flags bg) EXT4_BG_INODE_UNINIT; used_dirs := used_dirs bg |}).

(** The group and the place of an inode, and the table to be written, if it is new. *)
Definition get_inode (bgs : list block_group_info) (inode : Z)
    : outcome (Z * Z * option Z * list block_group_info) :=
  let inode := u32 (inode - 1) in
  let bg_num := inode / inodes_per_group g in
  bg ← get (bgs !! Z.to_nat bg_num);
  let '(table, bg) := allocate_bg_inode_table bg in
  Done (bg_num, inode mod inodes_per_group g, table, <[Z.to_nat bg_num := bg]> bgs).

Definition add_directory (bgs : list block_group_info) (inode : Z) : outcome (list block_group_info) :=
  let bg_num := u32 (inode - 1) / inodes_per_group g in
  bg ← get (bgs !! Z.to_nat bg_num);
  Done (<[Z.to_nat bg_num :=
        {| first_block := first_block bg; header_blocks := header_blocks bg; data_blocks_used := data_blocks_used bg;
           has_superblock := has_superblock bg; block_bitmap := block_bitmap bg; inode_bitmap := inode_bitmap bg;
           inode_table := inode_table bg; free_blocks := free_blocks bg; first_free_block := first_free_block bg;
           free_inodes := free_inodes bg; first_free_inode := first_free_inode bg; flags := flags bg;
           used_dirs := u16 (used_dirs bg + 1) |}]> bgs).
End geometry.

(** ** Bits of a bitmap *)

Definition bit (bm : list Z) (k : Z) : bool :=
  match bm !! Z.to_nat (k / 8) with Some b => Z.testbit b (k mod 8) | None => false end.

(** [bm'] is [bm] with [n] more bits from [a] on. *)
Record marked (bm : list Z) (a n : Z) (bm' : list Z) : Prop := {
  mk_len : length bm' = length bm;
  mk_bytes : is_bytes bm -> is_bytes bm';
  mk_bits : forall k, 0 <= k -> bit bm' k = bit bm k || ((a <=? k) && (k <? a + n));
}.

Lemma marked_none bm a : marked bm a 0 bm.
Proof.
  constructor; [done|done|]. intros k Hk. destruct (Z.leb_spec a k), (Z.ltb_spec k (a + 0)); try lia;
    by rewrite orb_false_r.
Qed.

Lemma marked_trans bm a n m bm1 bm2 :
  0 <= n -> 0 <= m -> marked bm a n bm1 -> marked bm1 (a + n) m bm2 -> marked bm a (n + m) bm2.
Proof.
  intros Hn Hm [L1 B1 K1] [L2 B2 K2]. constructor; [congruence|auto|]. intros k Hk. rewrite K2, K1 by done.
  rewrite <- orb_assoc. f_equal. case_cmp; lia.
Qed.

(** The byte of a bit, and what a change of a byte does to the bits. *)
Lemma byte_of bm k : 0 <= k < 8 * zlen bm -> exists b, bm !! Z.to_nat (k / 8) = Some b /\ bit bm k = Z.testbit b (k mod 8).
Proof.
  intros Hk. unfold bit, zlen in *.
  destruct (lookup_lt_is_Some_2 bm (Z.to_nat (k / 8))) as [b Hb].
  { apply Nat2Z.inj_lt. rewrite Z2Nat.id by (apply Z.div_pos; lia). apply Z.div_lt_upper_bound; lia. }
  exists b. by rewrite Hb.
Qed.

Lemma bit_insert bm j v b k :
  0 <= k -> 0 <= j -> bm !! Z.to_nat (j / 8) = Some b ->
  bit (<[Z.to_nat (j / 8) := v]> bm) k = if k / 8 =? j / 8 then Z.testbit v (k mod 8) else bit bm k.
Proof.
  intros Hk Hj Hb. unfold bit. pose proof (Z.div_pos k 8 Hk ltac:(lia)). pose proof (Z.div_pos j 8 Hj ltac:(lia)).
  destruct (Z.eqb_spec (k / 8) (j / 8)) as [->|Hne].
  - rewrite list_lookup_insert_eq; [done|]. by eapply lookup_lt_Some.
  - rewrite list_lookup_insert_ne; [done|]. lia.
Qed.

Lemma same_bit k j : k / 8 = j / 8 -> (k =? j) = (k mod 8 =? j mod 8).
Proof.
  intros E. pose proof (Z.div_mod k 8 ltac:(lia)). pose proof (Z.div_mod j 8 ltac:(lia)). case_cmp; lia.
Qed.

Lemma testbit_shiftl_1 j k : 0 <= j -> 0 <= k -> Z.testbit (Z.shiftl 1 j) k = (k =? j).
Proof. intros. rewrite Z.shiftl_1_l, Z.pow2_bits_eqb by done. apply Z.eqb_sym. Qed.

Lemma bitmap_set_bit_spec bm j :
  0 <= j < 8 * zlen bm ->
  exists bm', bitmap_set_bit bm j = Done (bit bm j, bm') /\ (bit bm j = false -> marked bm j 1 bm').
Proof.
  intros Hj. destruct (byte_of bm j Hj) as (b & Hb & E). unfold bitmap_set_bit. rewrite Hb. cbn [get mbind outcome_bind].
  pose proof (Z.mod_pos_bound j 8 ltac:(lia)). rewrite land_bit by lia. rewrite E.
  destruct (Z.testbit b (j mod 8)) eqn:Eb; [by exists bm|]. eexists. split; [done|]. intros _.
  constructor; [apply length_insert| |].
  - intros Hbm. apply Forall_insert; [done|]. assert (is_byte b) as Hbb by (by eapply Forall_lookup_1 in Hbm).
    unfold is_byte. change 256 with (2 ^ 8). apply (lor_in_u 8); [lia|done|]. unfold in_u.
    rewrite Z.shiftl_1_l. split; [apply Z.pow_nonneg; lia|apply Z.pow_lt_mono_r; lia].
  - intros k Hk. rewrite (bit_insert _ _ _ b) by (done || lia). pose proof (Z.mod_pos_bound k 8 ltac:(lia)).
    replace ((j <=? k) && (k <? j + 1)) with (k =? j) by (case_cmp; lia).
    destruct (Z.eqb_spec (k / 8) (j / 8)) as [Ek|Ek].
    + rewrite Z.lor_spec, testbit_shiftl_1, (same_bit k j Ek) by lia. f_equal. unfold bit. by rewrite Ek, Hb.
    + destruct (Z.eqb_spec k j) as [->|]; [done|]. by rewrite orb_false_r.
Qed.

Lemma byte_zero b : is_byte b -> (forall i, 0 <= i < 8 -> Z.testbit b i = false) -> b = 0.
Proof.
  intros Hb Hz. apply Z.bits_inj'. intros i Hi. rewrite Z.bits_0. destruct (decide (i < 8)); [apply Hz; lia|].
  apply (in_u_testbit 8); [unfold is_byte, in_u in *; lia|lia].
Qed.

Lemma bitmap_set_8_bits_spec bm j :
  0 <= j -> j + 8 <= 8 * zlen bm -> j mod 8 = 0 -> is_bytes bm -> (forall k, j <= k < j + 8 -> bit bm k = false) ->
  exists bm', bitmap_set_8_bits bm j = Done (0, bm') /\ marked bm j 8 bm'.
Proof.
  intros Hj Hl Hm Hbm Hz. destruct (byte_of bm j ltac:(lia)) as (b & Hb & E). unfold bitmap_set_8_bits.
  rewrite Hb. cbn [get mbind outcome_bind]. assert (is_byte b) as Hbb by (by eapply Forall_lookup_1 in Hbm).
  assert (forall i, 0 <= i < 8 -> (j + i) / 8 = j / 8 /\ (j + i) mod 8 = i) as Hi.
  { intros i Hi. Z.to_euclidean_division_equations. lia. }
  assert (b = 0) as ->.
  { apply byte_zero; [done|]. intros i Hi'. specialize (Hz (j + i) ltac:(lia)). unfold bit in Hz.
    destruct (Hi i Hi') as [E1 E2]. by rewrite E1, E2, Hb in Hz. }
  eexists. split; [done|]. constructor; [apply length_insert| |].
  - intros _. apply Forall_insert; [done|]. unfold is_byte. lia.
  - intros k Hk. rewrite (bit_insert _ _ _ 0) by (done || lia). pose proof (Z.mod_pos_bound k 8 ltac:(lia)).
    pose proof (Z.div_mod k 8 ltac:(lia)). pose proof (Z.div_mod j 8 ltac:(lia)).
    destruct (Z.eqb_spec (k / 8) (j / 8)) as [Ek|Ek].
    + replace ((j <=? k) && (k <? j + 8)) with true by (case_cmp; lia). rewrite orb_true_r.
      change 255 with (Z.ones 8). rewrite Z.testbit_ones_nonneg by lia. apply Z.ltb_lt. lia.
    + replace ((j <=? k) && (k <? j + 8)) with false by (case_cmp; try lia; exfalso; apply Ek; Z.to_euclidean_division_equations; lia).
      by rewrite orb_false_r.
Qed.

(** ** Reserving a run of clear bits *)

Definition clear_range (bm : list Z) (a n : Z) : Prop := forall k, a <= k < a + n -> bit bm k = false.

Lemma marked_clear bm a n bm' b m :
  marked bm a n bm' -> 0 <= b -> a + n <= b -> clear_range bm b m -> clear_range bm' b m.
Proof.
  intros Hm Ha Hb Hc k Hk. rewrite (mk_bits _ _ _ _ Hm) by lia. rewrite Hc by done. case_cmp; try lia; done.
Qed.

Lemma set_next bm block n :
  is_bytes bm -> 0 <= block -> block + n <= 8 * zlen bm -> 0 < n -> clear_range bm block n ->
  exists bm1, bitmap_set_bit bm block = Done (false, bm1) /\ marked bm block 1 bm1 /\ is_bytes bm1 /\
    zlen bm1 = zlen bm /\ clear_range bm1 (block + 1) (n - 1).
Proof.
  intros Hbm H0 Hl Hn Hc. destruct (bitmap_set_bit_spec bm block) as (bm1 & E & Hm); [lia|].
  rewrite Hc in E, Hm by lia. specialize (Hm eq_refl). exists bm1. split; [done|]. split; [done|].
  split; [by apply (mk_bytes _ _ _ _ Hm)|]. split; [by unfold zlen; rewrite (mk_len _ _ _ _ Hm)|].
  apply (marked_clear bm block 1); [done|lia|lia|]. intros k Hk. apply Hc. lia.
Qed.

Lemma reserve_unaligned_spec fuel num i block bm :
  is_bytes bm -> 0 <= block -> 0 <= i <= num -> block + (num - i) <= 8 * zlen bm -> clear_range bm block (num - i) ->
  num - i < Z.of_nat fuel ->
  exists n bm', reserve_unaligned fuel num i block bm = Done (i + n, block + n, bm') /\ marked bm block n bm' /\
    0 <= n /\ i + n <= num /\ (i + n = num \/ (block + n) mod 8 = 0).
Proof.
  revert i block bm. induction fuel as [|fuel IH]; intros i block bm Hbm H0 Hi Hl Hc Hf; [lia|].
  cbn [reserve_unaligned]. destruct (Z.ltb_spec i num); [destruct (Z.eqb_spec (block mod 8) 0)|]; cbn [negb andb].
  1,3: exists 0, bm; rewrite !Z.add_0_r; split_and!; [done|apply marked_none|lia|lia|lia].
  destruct (set_next bm block (num - i) Hbm) as (bm1 & E & Hm & Hb1 & L1 & Hc1); [lia..|done|].
  rewrite E. cbn [mbind outcome_bind].
  destruct (IH (i + 1) (block + 1) bm1) as (d & bm' & E' & Hm' & Hd & Hin & Hend); try (done || lia).
  { by replace (num - (i + 1)) with (num - i - 1) by lia. }
  exists (1 + d), bm'. rewrite E', !Z.add_assoc. split; [done|].
  split; [apply (marked_trans bm block 1 d bm1); (done || lia)|]. lia.
Qed.

Lemma reserve_bytes_spec fuel num i block bm :
  is_bytes bm -> 0 <= block -> 0 <= i <= num -> block + (num - i) <= 8 * zlen bm -> clear_range bm block (num - i) ->
  (i = num \/ block mod 8 = 0) -> num - i < Z.of_nat fuel ->
  exists n bm', reserve_bytes fuel num i block bm = Done (i + n, block + n, bm') /\ marked bm block n bm' /\
    0 <= n /\ i + n <= num.
Proof.
  revert i block bm. induction fuel as [|fuel IH]; intros i block bm Hbm H0 Hi Hl Hc Ha Hf; [lia|].
  cbn [reserve_bytes]. assert (Z.ldiff num 7 <= num) as Hd.
  { change 7 with (Z.ones 3). rewrite Z.ldiff_ones_r, Z.shiftr_div_pow2, Z.shiftl_mul_pow2 by lia.
    change (2 ^ 3) with 8. Z.to_euclidean_division_equations. lia. }
  destruct (Z.leb_spec (i + 8) (Z.ldiff num 7)).
  2: { exists 0, bm. rewrite !Z.add_0_r. split_and!; [done|apply marked_none|lia|lia]. }
  destruct (bitmap_set_8_bits_spec bm block) as (bm1 & E & Hm); [done|lia|lia|done|intros k Hk; apply Hc; lia|].
  rewrite E. cbn [mbind outcome_bind]. change (negb (0 =? 0)) with false. cbv iota.
  destruct (IH (i + 8) (block + 8) bm1) as (d & bm' & E' & Hm' & Hd' & Hin); try lia.
  { by apply (mk_bytes _ _ _ _ Hm). } { unfold zlen in *. rewrite (mk_len _ _ _ _ Hm). lia. }
  { apply (marked_clear bm block 8); [done|lia|lia|]. intros k Hk. apply Hc. lia. }
  { right. destruct Ha; [lia|]. Z.to_euclidean_division_equations. lia. }
  exists (8 + d), bm'. rewrite E', !Z.add_assoc. split; [done|].
  split; [apply (marked_trans bm block 8 d bm1); (done || lia)|]. lia.
Qed.

Lemma reserve_rest_spec fuel num i block bm :
  is_bytes bm -> 0 <= block -> 0 <= i <= num -> block + (num - i) <= 8 * zlen bm -> clear_range bm block (num - i) ->
  num - i < Z.of_nat fuel ->
  exists bm', reserve_rest fuel num i block bm = Done bm' /\ marked bm block (num - i) bm'.
Proof.
  revert i block bm. induction fuel as [|fuel IH]; intros i block bm Hbm H0 Hi Hl Hc Hf; [lia|].
  cbn [reserve_rest]. destruct (Z.ltb_spec i num).
  2: { exists bm. replace (num - i) with 0 by lia. split; [done|apply marked_none]. }
  destruct (set_next bm block (num - i) Hbm) as (bm1 & E & Hm & Hb1 & L1 & Hc1); [lia..|done|].
  rewrite E. cbn [mbind outcome_bind].
  destruct (IH (i + 1) (block + 1) bm1) as (bm' & E' & Hm'); try (done || lia).
  { by replace (num - (i + 1)) with (num - i - 1) by lia. }
  exists bm'. rewrite E'. split; [done|]. replace (num - i) with (1 + (num - (i + 1))) by lia.
  apply (marked_trans bm block 1 _ bm1); (done || lia).
Qed.

Lemma reserve_bits_spec start num bm :
  is_bytes bm -> 0 <= start -> 0 <= num -> start + num <= 8 * zlen bm -> clear_range bm start num ->
  exists bm', reserve_bits start num bm = Done bm' /\ marked bm start num bm'.
Proof.
  intros Hbm Hs Hn Hl Hc. unfold reserve_bits.
  destruct (reserve_unaligned_spec (S (Z.to_nat num)) num 0 start bm) as (n & bm1 & -> & M1 & N1 & L1 & A1);
    rewrite ?Z.sub_0_r; try (done || lia). rewrite Z.add_0_l in *. cbn [mbind outcome_bind].
  assert (forall bm', marked bm start n bm' -> is_bytes bm' /\ zlen bm' = zlen bm /\ clear_range bm' (start + n) (num - n)) as Hafter.
  { intros bm' M. split; [by apply (mk_bytes _ _ _ _ M)|]. split; [by unfold zlen; rewrite (mk_len _ _ _ _ M)|].
    apply (marked_clear bm start n); [done|lia|lia|]. intros k Hk. apply Hc. lia. }
  destruct (Hafter bm1 M1) as (B1 & Z1 & C1).
  destruct (reserve_bytes_spec (S (Z.to_nat num)) num n (start + n) bm1) as (m & bm2 & -> & M2 & N2 & L2); try (done || lia).
  cbn [mbind outcome_bind].
  assert (marked bm start (n + m) bm2) as M12 by (apply (marked_trans bm start n m bm1); done).
  destruct (reserve_rest_spec (S (Z.to_nat num)) num (n + m) (start + n + m) bm2) as (bm3 & -> & M3); try lia.
  { by apply (mk_bytes _ _ _ _ M12). } { unfold zlen in *. rewrite (mk_len _ _ _ _ M12). lia. }
  { apply (marked_clear bm start (n + m)); [done|lia|lia|]. intros k Hk. apply Hc. lia. }
  exists bm3. split; [done|]. replace num with (n + m + (num - (n + m))) by lia.
  apply (marked_trans bm start _ _ bm2); [lia|lia|done|]. by rewrite Z.add_assoc.
Qed.

(** ** Returning the last blocks *)

Lemma bitmap_clear_bit_spec bm j :
  is_bytes bm -> 0 <= j < 8 * zlen bm ->
  exists bm', bitmap_clear_bit bm j = Done bm' /\ length bm' = length bm /\ is_bytes bm' /\
    forall k, 0 <= k -> bit bm' k = bit bm k && negb (k =? j).
Proof.
  intros Hbm Hj. destruct (byte_of bm j Hj) as (b & Hb & _). unfold bitmap_clear_bit. rewrite Hb. cbn [get mbind outcome_bind].
  pose proof (Z.mod_pos_bound j 8 ltac:(lia)). assert (is_byte b) as Hbb by (by eapply Forall_lookup_1 in Hbm).
  eexists. split; [done|]. split; [apply length_insert|]. split.
  - apply Forall_insert; [done|]. unfold is_byte. change 256 with (2 ^ 8). by apply (ldiff_in_u 8).
  - intros k Hk. rewrite (bit_insert _ _ _ b) by (done || lia). pose proof (Z.mod_pos_bound k 8 ltac:(lia)).
    destruct (Z.eqb_spec (k / 8) (j / 8)) as [Ek|Ek].
    + rewrite Z.ldiff_spec, testbit_shiftl_1, (same_bit k j Ek) by lia. f_equal. unfold bit. by rewrite Ek, Hb.
    + destruct (Z.eqb_spec k j) as [->|]; [done|]. by rewrite andb_true_r.
Qed.

Lemma clear_down_spec n block bm :
  is_bytes bm -> Z.of_nat n - 1 <= block < 2 ^ 32 -> block < 8 * zlen bm ->
  exists bm', clear_down n block bm = Done bm' /\ length bm' = length bm /\ is_bytes bm' /\
    forall k, 0 <= k -> bit bm' k = bit bm k && negb ((block - Z.of_nat n <? k) && (k <=? block)).
Proof.
  revert block bm. induction n as [|n IH]; intros block bm Hbm Hb Hl; cbn [clear_down].
  - exists bm. split_and!; [done|done|done|]. intros k Hk.
    replace ((block - Z.of_nat 0 <? k) && (k <=? block)) with false by (case_cmp; lia). by rewrite andb_true_r.
  - destruct (bitmap_clear_bit_spec bm block Hbm) as (bm1 & -> & L1 & B1 & K1); [lia|]. cbn [mbind outcome_bind].
    destruct n as [|n].
    { exists bm1. split_and!; [done|done|done|]. intros k Hk. rewrite K1 by done. do 2 f_equal. case_cmp; lia. }
    rewrite wrap_small by (unfold in_u; lia).
    destruct (IH (block - 1) bm1 B1) as (bm2 & -> & L2 & B2 & K2); [lia|unfold zlen in *; lia|].
    exists bm2. split; [done|]. split; [congruence|]. split; [done|]. intros k Hk.
    rewrite K2, K1, <- andb_assoc by done. f_equal. rewrite <- negb_orb. f_equal. case_cmp; lia.
Qed.

(** ** Well-formed groups *)

Definition bg_start (g : geometry) (i : Z) : Z := first_data_block g + i * blocks_per_group g.
Definition group_size (g : geometry) (i : Z) : Z := Z.min (blocks_per_group g) (len_blocks g - bg_start g i).
Definition header_size (g : geometry) (i : Z) : Z :=
  2 + inode_table_blocks g + (if ext4_bg_has_super_block g i then 1 + bg_desc_blocks g + bg_desc_reserve_blocks g else 0).

Record geometry_ok (g : geometry) : Prop := {
  go_bpg : 0 < blocks_per_group g <= 8 * block_size g;
  go_ipg : 0 < inodes_per_group g <= 8 * block_size g;
  go_counts : 0 <= inode_table_blocks g /\ 0 <= bg_desc_blocks g /\ 0 <= bg_desc_reserve_blocks g;
  go_first : 0 <= first_data_block g;
  go_groups : 0 < groups g;
  go_cover : len_blocks g <= bg_start g (groups g);
  go_header : forall i, 0 <= i < groups g -> header_size g i <= group_size g i;
  go_len : len_blocks g + blocks_per_group g < 2 ^ 32;
  go_inodes : groups g * inodes_per_group g < EXT4_ALLOCATE_FAILED;
}.

(** The group [i]: blocks are used up to the first free one, and from the end of the
    file system on; inodes up to the first free one. *)
Record bg_ok (g : geometry) (i : Z) (bg : block_group_info) : Prop := {
  bo_first : first_block bg = bg_start g i;
  bo_super : has_superblock bg = ext4_bg_has_super_block g i;
  bo_len : zlen (block_bitmap bg) = block_size g;
  bo_bytes : is_bytes (block_bitmap bg);
  bo_ff : header_size g i <= first_free_block bg <= blocks_per_group g;
  bo_bits : forall k, 0 <= k < blocks_per_group g ->
    bit (block_bitmap bg) k = (k <? first_free_block bg) || (group_size g i <=? k);
  bo_free : free_blocks bg = Z.max 0 (group_size g i - first_free_block bg);
  bo_ilen : zlen (inode_bitmap bg) = block_size g;
  bo_ibytes : is_bytes (inode_bitmap bg);
  bo_ffi : 1 <= first_free_inode bg <= inodes_per_group g + 1;
  bo_ibits : forall k, 0 <= k < 8 * block_size g -> bit (inode_bitmap bg) k = (k <? first_free_inode bg - 1);
  bo_ifree : free_inodes bg = inodes_per_group g - (first_free_inode bg - 1);
}.

Lemma zeroes_zlen n : 0 <= n -> zlen (zeroes n) = n.
Proof. intros. unfold zlen, zeroes. rewrite length_replicate. lia. Qed.

Lemma zeroes_bytes n : is_bytes (zeroes n).
Proof. apply Forall_replicate. unfold is_byte. lia. Qed.

Lemma bit_zeroes n k : bit (zeroes n) k = false.
Proof.
  unfold bit, zeroes. destruct (replicate _ _ !! _) as [b|] eqn:E; [|done].
  apply lookup_replicate_1 in E as [-> _]. apply Z.bits_0.
Qed.

Lemma geometry_start g i : geometry_ok g -> 0 <= i < groups g -> 0 <= bg_start g i < len_blocks g.
Proof.
  intros G Hi. pose proof (go_header g G i Hi). pose proof (go_bpg g G). pose proof (go_first g G).
  pose proof (go_counts g G). unfold header_size, group_size, bg_start in *.
  destruct (ext4_bg_has_super_block g i); split; nia || lia.
Qed.

Lemma init_bg_ok g i : geometry_ok g -> 0 <= i < groups g -> exists bg, init_bg g i = Done (bg, bitmaps_block g i) /\ bg_ok g i bg.
Proof.
  intros G Hi. pose proof (geometry_start g i G Hi) as Hs. pose proof (go_header g G i Hi) as Hh.
  destruct (go_bpg g G) as [P1 P2], (go_counts g G) as (P3 & P4 & P5). pose proof (go_len g G) as P6. pose proof (go_ipg g G) as P7.
  assert (0 <= header_size g i) as P8 by (unfold header_size; destruct (ext4_bg_has_super_block g i); lia).
  assert (header_size g i <= group_size g i <= blocks_per_group g) as P9 by (unfold group_size in *; lia).
  unfold init_bg, reserve_blocks. cbn [fresh_bg free_blocks first_free_block header_blocks block_bitmap first_block].
  change (2 + inode_table_blocks g + _) with (header_size g i). change (first_data_block g + i * blocks_per_group g) with (bg_start g i).
  rewrite (proj2 (Z.ltb_ge _ _)) by lia.
  destruct (reserve_bits_spec 0 (header_size g i) (zeroes (block_size g))) as (bm & -> & M);
    [apply zeroes_bytes|lia|lia|rewrite zeroes_zlen; lia|intros k Hk; apply bit_zeroes|].
  cbn [mbind outcome_bind]. change (0 <? 0) with false. cbv iota.
  change (0 =? 0) with true. cbv iota. change (first_block (with_blocks ?a ?b ?c ?d)) with (first_block a).
  change (first_block (fresh_bg g i)) with (u32 (bg_start g i)). rewrite (wrap_small 32 (bg_start g i)) by (unfold in_u; lia).
  rewrite (wrap_small 32 (bg_start g i + _)) by (unfold in_u; lia).
  assert (forall k, 0 <= k -> bit bm k = (k <? header_size g i)) as K.
  { intros k Hk. rewrite (mk_bits _ _ _ _ M), bit_zeroes by done. case_cmp; lia || done. }
  assert (zlen bm = block_size g) as Lbm by (unfold zlen; rewrite (mk_len _ _ _ _ M); apply zeroes_zlen; lia).
  assert (is_bytes bm) as Bbm by (apply (mk_bytes _ _ _ _ M), zeroes_bytes).
  assert (forall bm' free ff, zlen bm' = block_size g -> is_bytes bm' -> header_size g i <= ff <= blocks_per_group g ->
    (forall k, 0 <= k < blocks_per_group g -> bit bm' k = (k <? ff) || (group_size g i <=? k)) ->
    free = Z.max 0 (group_size g i - ff) -> bg_ok g i (with_blocks (fresh_bg g i) bm' free ff)) as Hok.
  { intros bm' free ff A1 A2 A3 A4 A5. constructor; cbn; try done.
    - rewrite wrap_small; [done|]. unfold in_u, bg_start in *. lia.
    - apply zeroes_zlen. lia. - apply zeroes_bytes. - lia.
    - intros k Hk. rewrite bit_zeroes. case_cmp; lia. - lia. }
  destruct (Z.ltb_spec (len_blocks g) (bg_start g i + blocks_per_group g)) as [Ho|Ho].
  - set (over := u32 (bg_start g i + blocks_per_group g - len_blocks g)).
    assert (over = blocks_per_group g - group_size g i) as Eo
      by (unfold over; rewrite wrap_small; unfold in_u, group_size in *; lia).
    rewrite Eo. replace (blocks_per_group g - (blocks_per_group g - group_size g i)) with (group_size g i) by lia.
    rewrite (wrap_small 32 (group_size g i)) by (unfold in_u; lia).
    cbn [with_blocks free_blocks block_bitmap first_free_block]. rewrite (proj2 (Z.ltb_ge _ _)) by lia.
    destruct (reserve_bits_spec (group_size g i) (blocks_per_group g - group_size g i) bm) as (bm' & -> & M');
      [done|lia|lia|lia| |].
    { intros k Hk. rewrite K by lia. apply Z.ltb_ge. lia. }
    cbn [mbind outcome_bind]. eexists. split; [done|].
    rewrite (wrap_small 32 (0 + header_size g i)) by (unfold in_u; lia).
    rewrite (wrap_small 32 (group_size g i + _)) by (unfold in_u; lia).
    change (with_blocks (with_blocks (fresh_bg g i) ?a ?b ?c) ?x ?y ?z) with (with_blocks (fresh_bg g i) x y z).
    apply Hok.
    + unfold zlen in *. by rewrite (mk_len _ _ _ _ M').
    + by apply (mk_bytes _ _ _ _ M').
    + case_cmp; lia.
    + intros k Hk. rewrite (mk_bits _ _ _ _ M'), K by lia. case_cmp; lia || done.
    + case_cmp; lia.
  - eexists. split; [done|]. rewrite (wrap_small 32 (0 + header_size g i)) by (unfold in_u; lia).
    apply Hok; [done|done|lia| |unfold group_size in *; lia].
    intros k Hk. rewrite K by lia. unfold group_size in *. case_cmp; lia || done.
Qed.

(** ** The groups together *)

Record bgs_ok (g : geometry) (bgs : list block_group_info) : Prop := {
  bs_len : zlen bgs = groups g;
  bs_ok : forall i bg, bgs !! i = Some bg -> bg_ok g (Z.of_nat i) bg;
}.

Lemma init_bgs_ok g n i :
  geometry_ok g -> 0 <= i -> i + Z.of_nat n <= groups g ->
  exists bgs, init_bgs g n i = Done (bgs, map (bitmaps_block g) (seqZ i (Z.of_nat n))) /\ length bgs = n /\ forall k bg, bgs !! k = Some bg -> bg_ok g (i + Z.of_nat k) bg.
Proof.
  intros G. revert i. induction n as [|n IH]; intros i Hi Hn; cbn [init_bgs]; [by exists []|].
  rewrite seqZ_cons by lia. replace (Z.pred (Z.of_nat (S n))) with (Z.of_nat n) by lia. rewrite <- Z.add_1_r.
  destruct (init_bg_ok g i G) as (bg & -> & Hbg); [lia|]. cbn [mbind outcome_bind].
  destruct (IH (i + 1)) as (bgs & -> & L & Hk); [lia|lia|]. cbn [mbind outcome_bind]. exists (bg :: bgs).
  split; [done|]. split; [by cbn; rewrite L|]. intros [|k] b E; cbn in E.
  - injection E as <-. by rewrite Z.add_0_r.
  - replace (i + Z.of_nat (S k)) with (i + 1 + Z.of_nat k) by lia. by apply Hk.
Qed.

Lemma block_allocator_init_ok g :
  geometry_ok g -> exists bgs, block_allocator_init g = Done (bgs, map (bitmaps_block g) (seqZ 0 (groups g))) /\ bgs_ok g bgs.
Proof.
  intros G. pose proof (go_groups g G). unfold block_allocator_init.
  destruct (init_bgs_ok g (Z.to_nat (groups g)) 0 G) as (bgs & -> & L & Hk); [lia|lia|]. exists bgs. split; [by rewrite Z2Nat.id by lia|].
  constructor; [unfold zlen; lia|]. intros i bg E. apply Hk in E. by rewrite Z.add_0_l in E.
Qed.

(** The bitmaps lie in the header of their group, before the inode table. *)
Lemma bitmaps_in_header g i :
  geometry_ok g -> 0 <= i < groups g ->
  bg_start g i <= bitmaps_block g i /\ bitmaps_block g i + 2 + inode_table_blocks g = bg_start g i + header_size g i.
Proof.
  intros G Hi. pose proof (geometry_start g i G Hi) as Hs. pose proof (go_header g G i Hi) as Hh. pose proof (go_counts g G).
  pose proof (go_len g G). pose proof (go_bpg g G). unfold bitmaps_block. cbn [fresh_bg has_superblock first_block].
  change (first_data_block g + i * blocks_per_group g) with (bg_start g i). rewrite (wrap_small 32 (bg_start g i)) by (unfold in_u; lia).
  unfold header_size, group_size in *. destruct (ext4_bg_has_super_block g i); [rewrite wrap_small by (unfold in_u; lia)|]; lia.
Qed.

(** Whether a block of the file system is used. *)
Definition block_used (g : geometry) (bgs : list block_group_info) (b : Z) : bool :=
  match bgs !! Z.to_nat ((b - first_data_block g) / blocks_per_group g) with
  | Some bg => bit (block_bitmap bg) ((b - first_data_block g) mod blocks_per_group g)
  | None => true
  end.

Definition in_fs (g : geometry) (b : Z) : Prop := first_data_block g <= b < len_blocks g.

Lemma block_used_in_group g bgs i bg k :
  geometry_ok g -> bgs !! i = Some bg -> 0 <= k < blocks_per_group g ->
  block_used g bgs (bg_start g (Z.of_nat i) + k) = bit (block_bitmap bg) k.
Proof.
  intros G E Hk. unfold block_used, bg_start.
  replace (first_data_block g + Z.of_nat i * blocks_per_group g + k - first_data_block g)
    with (k + Z.of_nat i * blocks_per_group g) by lia.
  rewrite Z.div_add, Z.div_small, Z_mod_plus_full, Z.mod_small, Z.add_0_l, Nat2Z.id by lia. by rewrite E.
Qed.

(** A block of one group is in no run of another. *)
Lemma other_group g i j a n k :
  0 < blocks_per_group g -> i <> j -> 0 <= a -> a + n <= blocks_per_group g -> 0 <= k < blocks_per_group g ->
  (bg_start g i + a <=? bg_start g j + k) && (bg_start g j + k <? bg_start g i + a + n) = false.
Proof.
  intros P Hij Ha Hn Hk. unfold bg_start. apply andb_false_iff. rewrite Z.leb_gt, Z.ltb_ge.
  destruct (Z.lt_trichotomy i j) as [H|[H|H]]; [|done|].
  - assert ((i + 1) * blocks_per_group g <= j * blocks_per_group g) by (apply Z.mul_le_mono_nonneg_r; lia). lia.
  - assert ((j + 1) * blocks_per_group g <= i * blocks_per_group g) by (apply Z.mul_le_mono_nonneg_r; lia). lia.
Qed.

(** The group of a block. *)
Lemma group_of g bgs b :
  geometry_ok g -> bgs_ok g bgs -> in_fs g b ->
  exists i bg k, bgs !! i = Some bg /\ 0 <= k < group_size g (Z.of_nat i) /\ b = bg_start g (Z.of_nat i) + k.
Proof.
  intros G B [Hb1 Hb2]. pose proof (go_cover g G) as Hb3. pose proof (go_bpg g G) as [P1 _]. set (q := (b - first_data_block g) / blocks_per_group g).
  assert (0 <= q < groups g) as Hq.
  { unfold q. split; [apply Z.div_pos; lia|]. apply Z.div_lt_upper_bound; [lia|]. unfold bg_start in Hb3. lia. }
  pose proof (bs_len _ _ B) as HL. unfold zlen in HL. destruct (lookup_lt_is_Some_2 bgs (Z.to_nat q)) as [bg Hbg]; [lia|].
  exists (Z.to_nat q), bg, ((b - first_data_block g) mod blocks_per_group g).
  pose proof (Z.mod_pos_bound (b - first_data_block g) (blocks_per_group g) P1).
  pose proof (Z.div_mod (b - first_data_block g) (blocks_per_group g) ltac:(lia)). fold q in H0.
  rewrite Z2Nat.id by lia. split; [done|]. unfold group_size, bg_start. nia.
Qed.

(** What a group says of inodes and tables. *)
Definition inode_view (bg : block_group_info) : list Z * bool * Z * Z * Z * Z :=
  (inode_bitmap bg, inode_table bg, free_inodes bg, first_free_inode bg, flags bg, used_dirs bg).

Definition total_free (bgs : list block_group_info) : Z := foldr (fun bg n => free_blocks bg + n) 0 bgs.

Lemma total_free_insert bgs i bg bg' :
  bgs !! i = Some bg -> total_free (<[i := bg']> bgs) = total_free bgs - free_blocks bg + free_blocks bg'.
Proof.
  revert i. induction bgs as [|b bgs IH]; intros [|i] E; cbn in *; [done|done|injection E as ->; lia|].
  unfold total_free in IH. rewrite IH by done. lia.
Qed.

Lemma total_free_nonneg g bgs : bgs_ok g bgs -> 0 <= total_free bgs.
Proof.
  intros B. assert (forall bg, bg ∈ bgs -> 0 <= free_blocks bg) as H.
  { intros bg [i Hi]%list_elem_of_lookup. rewrite (bo_free _ _ _ (bs_ok _ _ B _ _ Hi)). lia. }
  clear B. induction bgs as [|b bgs IH]; cbn; [lia|]. pose proof (H b ltac:(set_solver)).
  unfold total_free in IH. specialize (IH ltac:(set_solver)). lia.
Qed.

Lemma map_insert_same {A B} (f : A -> B) (l : list A) i x y : l !! i = Some x -> f y = f x -> map f (<[i := y]> l) = map f l.
Proof.
  intros E Hf. change (f <$> <[i := y]> l = f <$> l). rewrite list_fmap_insert, Hf. apply list_insert_id.
  by rewrite list_lookup_fmap, E.
Qed.

(** Exactly the blocks of a run become used, which were free before. *)
Record takes (g : geometry) (bgs : list block_group_info) (b n : Z) (bgs' : list block_group_info) : Prop := {
  tk_ok : bgs_ok g bgs';
  tk_in : first_data_block g <= b /\ b + n <= len_blocks g;
  tk_free : forall x, b <= x < b + n -> block_used g bgs x = false;
  tk_used : forall x, in_fs g x ->
    block_used g bgs' x = block_used g bgs x || ((b <=? x) && (x <? b + n));
  tk_inodes : map inode_view bgs' = map inode_view bgs;
  tk_total : total_free bgs' = total_free bgs - n;
}.

Lemma allocate_from_group_ok g bgs len i bg :
  geometry_ok g -> bgs_ok g bgs -> bgs !! i = Some bg -> 0 < len <= free_blocks bg ->
  exists bgs', ext4_allocate_blocks_from_block_group bgs len (Z.of_nat i)
      = Done (bg_start g (Z.of_nat i) + first_free_block bg, bgs') /\
    takes g bgs (bg_start g (Z.of_nat i) + first_free_block bg) len bgs' /\
    exists bg', bgs' = <[i := bg']> bgs /\ first_block bg' = first_block bg /\
      first_free_block bg' = first_free_block bg + len /\ free_blocks bg' = free_blocks bg - len.
Proof.
  intros G B E Hl. pose proof (bs_ok _ _ B _ _ E) as H. unfold ext4_allocate_blocks_from_block_group, reserve_blocks.
  rewrite Nat2Z.id, E. cbn [get mbind outcome_bind]. rewrite (proj2 (Z.ltb_ge _ _)) by lia.
  assert (0 <= Z.of_nat i < groups g) as Hi.
  { split; [lia|]. rewrite <- (bs_len _ _ B). unfold zlen. apply lookup_lt_Some in E. lia. }
  pose proof (geometry_start g _ G Hi) as Hs. pose proof (go_len g G). pose proof (go_bpg g G). pose proof (go_header g G _ Hi) as Hh.
  pose proof (bo_ff _ _ _ H) as Hff. pose proof (bo_free _ _ _ H) as Hfr. pose proof (go_first g G).
  assert (0 <= header_size g (Z.of_nat i)) as Hh0.
  { pose proof (go_counts g G). unfold header_size. destruct (ext4_bg_has_super_block g (Z.of_nat i)); lia. }
  assert (first_free_block bg + len <= group_size g (Z.of_nat i)) as Hfit by lia.
  assert (first_data_block g <= bg_start g (Z.of_nat i)) as Hfirst by (unfold bg_start; nia).
  assert (group_size g (Z.of_nat i) <= blocks_per_group g) as Hgs by (unfold group_size; lia).
  destruct (reserve_bits_spec (first_free_block bg) len (block_bitmap bg)) as (bm & -> & M);
    [apply H|lia|lia|rewrite (bo_len _ _ _ H); lia|intros k Hk; rewrite (bo_bits _ _ _ H) by lia; case_cmp; lia || done|].
  cbn [mbind outcome_bind]. change (0 <? 0) with false. cbv iota.
  change (first_block (with_blocks ?a ?b ?c ?d)) with (first_block a).
  rewrite Z.eqb_refl, (bo_first _ _ _ H), !wrap_small by (unfold in_u, group_size in *; lia).
  eexists. split; [done|].
  assert (bg_ok g (Z.of_nat i) (add_data_blocks (with_blocks bg bm (free_blocks bg - len) (first_free_block bg + len)) len)) as H'.
  { destruct H. constructor; cbn; try done; try lia.
    - unfold zlen in *. by rewrite (mk_len _ _ _ _ M).
    - by apply (mk_bytes _ _ _ _ M).
    - intros k Hk. rewrite (mk_bits _ _ _ _ M), bo_bits0 by lia. case_cmp; lia || done. }
  split; [|eexists; split; [reflexivity|]; cbn; rewrite (bo_first _ _ _ H); auto].
  constructor.
  - constructor; [unfold zlen; rewrite length_insert; apply (bs_len _ _ B)|]. intros j b Hj.
    destruct (decide (i = j)) as [<-|Hij].
    + rewrite list_lookup_insert_eq in Hj by (by eapply lookup_lt_Some). by injection Hj as <-.
    + rewrite list_lookup_insert_ne in Hj by done. by apply (bs_ok _ _ B).
  - unfold group_size in *. lia.
  - intros x Hx. replace x with (bg_start g (Z.of_nat i) + (x - bg_start g (Z.of_nat i))) by lia.
    rewrite (block_used_in_group g bgs i bg) by (done || lia). rewrite (bo_bits _ _ _ H) by lia. case_cmp; lia || done.
  - intros x Hx. destruct (group_of g bgs x G B Hx) as (j & b & k & Hj & Hk & ->).
    rewrite (block_used_in_group g bgs j b) by (done || unfold group_size in *; lia).
    destruct (decide (j = i)) as [->|Hij].
    + rewrite E in Hj. injection Hj as <-. rewrite (block_used_in_group g _ i _ k G (list_lookup_insert_eq _ _ _ (lookup_lt_Some _ _ _ E)))
        by (unfold group_size in *; lia).
      cbn. rewrite (mk_bits _ _ _ _ M) by lia. f_equal. case_cmp; lia.
    + rewrite (block_used_in_group g _ j b k G);
        [|by rewrite list_lookup_insert_ne|unfold group_size in *; lia].
      rewrite other_group by (unfold group_size in *; lia). by rewrite orb_false_r.
  - by apply (map_insert_same _ _ _ bg).
  - rewrite (total_free_insert _ _ bg) by done. cbn. lia.
Qed.

(** ** The best fit *)

Definition free_of (bgs : list block_group_info) : list Z := map free_blocks bgs.

(** The group found: nothing is free, or the smallest group that is large enough, or
    the largest of groups that are all too small. *)
Definition best (len : Z) (frees : list Z) (bg n : Z) : Prop :=
  (n = 0 /\ Forall (fun f => f = 0) frees) \/
  (0 < n /\ frees !! Z.to_nat bg = Some n /\ 0 <= bg /\
   (if len <=? n then Forall (fun f => len <= f -> n <= f) frees else Forall (fun f => f <= n) frees)).

Lemma find_best_spec len seen bgs bg n :
  0 < len -> Forall (fun f => 0 <= f) (seen ++ free_of bgs) -> best len seen bg n ->
  let '(bg', n') := find_best len (zlen seen) bgs bg n in best len (seen ++ free_of bgs) bg' n'.
Proof.
  intros Hl. revert seen bg n. induction bgs as [|b bgs IH]; intros seen bg n Hnn Hb; cbn [find_best free_of map].
  { by rewrite app_nil_r. }
  cbn [free_of map] in Hnn. apply Forall_app in Hnn as Hnn'. destruct Hnn' as [Hs Hr]. apply Forall_cons in Hr as [Hf Hr].
  assert (forall bg1 n1, best len (seen ++ [free_blocks b]) bg1 n1 ->
    let '(bg', n') := find_best len (zlen seen + 1) bgs bg1 n1 in best len (seen ++ free_blocks b :: free_of bgs) bg' n') as Hgo.
  { intros bg1 n1 H1. specialize (IH (seen ++ [free_blocks b]) bg1 n1). rewrite zlen_app in IH.
    change (zlen [free_blocks b]) with 1 in IH. rewrite <- app_assoc in IH. by apply IH. }
  change (map free_blocks bgs) with (free_of bgs).
  set (f := free_blocks b) in *.
  assert (forall P : Z -> Prop, Forall P seen -> P f -> Forall P (seen ++ [f])) as Hsnoc
    by (intros P H1 H2; apply Forall_app; split; [done|by constructor]).
  destruct (((len <=? f) && ((n =? 0) || (f <? n))) || ((n <? len) && (n <? f))) eqn:C; apply Hgo.
  - right. assert (0 <= n) as Hn by (destruct Hb as [[-> _]|[? _]]; lia).
    split; [revert C; case_cmp; intros; (lia || done)|]. unfold zlen. rewrite Nat2Z.id, lookup_app_r, Nat.sub_diag by lia.
    split; [done|]. split; [lia|]. destruct Hb as [[-> H0]|(H0 & H1 & H2 & H3)].
    + destruct (Z.leb_spec len f); apply Hsnoc; try lia;
        (eapply Forall_impl; [exact H0|]); cbn; intros x ->; lia.
    + revert C H3. destruct (Z.leb_spec len f), (Z.leb_spec len n); case_cmp; intros C F; try done; try lia;
        apply Hsnoc; try lia; (eapply Forall_impl; [exact F|]); cbn; lia.
  - destruct Hb as [[-> H0]|(H0 & H1 & H2 & H3)]; [left|right].
    + split; [done|]. apply Hsnoc; [done|]. apply Forall_app in Hnn as [_ Hnn]. inv Hnn. revert C. case_cmp; intros; (lia || done).
    + split; [done|]. split; [by apply lookup_app_l_Some|]. split; [done|].
      revert C H3. destruct (Z.leb_spec len n); case_cmp; intros C F; try done; apply Hsnoc; try done; lia.
Qed.

Lemma free_of_nonneg g bgs : bgs_ok g bgs -> Forall (fun f => 0 <= f) (free_of bgs).
Proof.
  intros B. apply Forall_lookup_2. intros i f E. unfold free_of in E.
  change (map free_blocks bgs) with (free_blocks <$> bgs) in E. apply list_lookup_fmap_Some in E as (bg & -> & Hbg).
  rewrite (bo_free _ _ _ (bs_ok _ _ B _ _ Hbg)). lia.
Qed.

Lemma total_free_zero bgs : Forall (fun f => f = 0) (free_of bgs) -> total_free bgs = 0.
Proof. induction bgs as [|b bgs IH]; cbn; [done|]. intros H. inv H. unfold total_free in IH. rewrite IH by done. lia. Qed.

(** A piece is what its group gives next. *)
Record piece_of (bgs : list block_group_info) (p : piece) (bgs' : list block_group_info) (bg bg' : block_group_info) : Prop := {
  po_nonneg : 0 <= p_bg p;
  po_bg : bgs !! Z.to_nat (p_bg p) = Some bg;
  po_bgs : bgs' = <[Z.to_nat (p_bg p) := bg']> bgs;
  po_block : p_block p = first_block bg + first_free_block bg;
  po_first : first_block bg' = first_block bg;
  po_ff : first_free_block bg' = first_free_block bg + p_len p;
  po_free : free_blocks bg' = free_blocks bg - p_len p;
  po_len : 0 < p_len p <= free_blocks bg;
}.

Lemma best_fit_partial_ok g bgs len :
  geometry_ok g -> bgs_ok g bgs -> 0 < len ->
  if total_free bgs =? 0 then ext4_allocate_best_fit_partial bgs len = Error
  else exists p bgs' n, ext4_allocate_best_fit_partial bgs len = Done (p, bgs') /\
    takes g bgs (p_block p) (p_len p) bgs' /\ best len (free_of bgs) (p_bg p) n /\ p_len p = Z.min len n /\ 0 < n /\
    exists bg bg', piece_of bgs p bgs' bg bg' /\ free_blocks bg = n.
Proof.
  intros G B Hl. unfold ext4_allocate_best_fit_partial.
  pose proof (find_best_spec len [] bgs 0 0 Hl (free_of_nonneg g bgs B)) as H. change (zlen []) with 0 in H. cbn [app] in H.
  specialize (H (or_introl (conj eq_refl (Forall_nil_2 _)))). destruct (find_best len 0 bgs 0 0) as [bg n].
  destruct H as [[-> H0]|(H0 & H1 & H2 & H3)].
  { by rewrite (total_free_zero _ H0). }
  assert (total_free bgs <> 0) as Ht.
  { intros E. clear H3. assert (forall f, f ∈ free_of bgs -> f = 0) as Hz; [|by apply list_elem_of_lookup_2, Hz in H1; lia].
    pose proof (free_of_nonneg g bgs B) as Hnn. clear -E Hnn. induction bgs as [|b bgs IH]; intros f Hf; cbn in *; [set_solver|].
    inv Hnn. assert (0 <= total_free bgs).
    { clear -H2. induction bgs as [|b bgs IH]; cbn in *; [lia|]. inv H2. specialize (IH H3). unfold total_free in IH. lia. }
    unfold total_free in *. apply elem_of_cons in Hf as [->|Hf]; [lia|]. apply IH; [lia|done|done]. }
  rewrite (proj2 (Z.eqb_neq _ _) Ht), (proj2 (Z.eqb_neq n 0)) by lia.
  pose proof H1 as E. unfold free_of in E. change (map free_blocks bgs) with (free_blocks <$> bgs) in E.
  apply list_lookup_fmap_Some in E as (b & -> & Hb).
  destruct (allocate_from_group_ok g bgs (Z.min len (free_blocks b)) (Z.to_nat bg) b G B Hb) as (bgs' & E & T & b' & Eb & F1 & F2 & F3); [lia|].
  rewrite Z2Nat.id in E, T by done. rewrite E. cbn [mbind outcome_bind].
  destruct (Z.eqb_spec (bg_start g bg + first_free_block b) EXT4_ALLOCATE_FAILED) as [Ef|_].
  { pose proof (tk_in _ _ _ _ _ T). pose proof (go_len g G). pose proof (go_bpg g G). unfold EXT4_ALLOCATE_FAILED in Ef. lia. }
  do 3 eexists. split; [done|]. cbn. split; [exact T|]. split; [right; done|]. split; [done|].
  split; [done|]. exists b, b'. split; [|done]. constructor; cbn; try done.
  - rewrite (bo_first _ _ _ (bs_ok _ _ B _ _ Hb)). by rewrite Z2Nat.id.
  - lia.
Qed.

(** Returning blocks: exactly the last run becomes free. *)
Lemma free_last_ok g bgs i bg n :
  geometry_ok g -> bgs_ok g bgs -> bgs !! i = Some bg -> 0 < n -> header_size g (Z.of_nat i) + n <= first_free_block bg ->
  first_free_block bg <= group_size g (Z.of_nat i) ->
  exists bg', free_last_blocks bg n = Done bg' /\ bgs_ok g (<[i := bg']> bgs) /\
    (forall x, in_fs g x ->
      block_used g (<[i := bg']> bgs) x = block_used g bgs x &&
        negb ((first_block bg + first_free_block bg - n <=? x) && (x <? first_block bg + first_free_block bg))) /\
    map inode_view (<[i := bg']> bgs) = map inode_view bgs /\
    total_free (<[i := bg']> bgs) = total_free bgs + n.
Proof.
  intros G B E Hn Hh Hff. pose proof (bs_ok _ _ B _ _ E) as H. unfold free_last_blocks.
  pose proof (go_bpg g G) as Hb. pose proof (go_len g G) as Hlen. pose proof (bo_len _ _ _ H) as HL. pose proof (bo_ff _ _ _ H) as Hff'.
  assert (0 <= header_size g (Z.of_nat i)) as Hh0.
  { pose proof (go_counts g G). unfold header_size. destruct (ext4_bg_has_super_block g (Z.of_nat i)); lia. }
  assert (0 <= Z.of_nat i < groups g) as Hi.
  { split; [lia|]. rewrite <- (bs_len _ _ B). unfold zlen. apply lookup_lt_Some in E. lia. }
  pose proof (geometry_start g _ G Hi) as Hs. pose proof (bo_free _ _ _ H) as Hfr.
  rewrite (wrap_small 32 (first_free_block bg - 1)) by (unfold in_u; lia).
  destruct (clear_down_spec (Z.to_nat n) (first_free_block bg - 1) (block_bitmap bg)) as (bm & -> & L & Bb & K);
    [apply H|lia|lia|]. cbn [mbind outcome_bind]. rewrite Z2Nat.id in K by lia.
  eexists. split; [done|]. rewrite !wrap_small by (unfold in_u, group_size in *; lia).
  set (bg' := with_blocks bg bm _ _).
  assert (bg_ok g (Z.of_nat i) bg') as H'.
  { destruct H. constructor; cbn; try done; try lia.
    - unfold zlen in *. lia.
    - intros k Hk. rewrite K, bo_bits0 by lia. case_cmp; lia || done. }
  split_and!.
  - constructor; [unfold zlen; rewrite length_insert; apply (bs_len _ _ B)|]. intros j b Hj.
    destruct (decide (i = j)) as [<-|Hij].
    + rewrite list_lookup_insert_eq in Hj by (by eapply lookup_lt_Some). by injection Hj as <-.
    + rewrite list_lookup_insert_ne in Hj by done. by apply (bs_ok _ _ B).
  - intros x Hx. destruct (group_of g bgs x G B Hx) as (j & b & k & Hj & Hk & ->). rewrite (bo_first _ _ _ H).
    rewrite (block_used_in_group g bgs j b) by (done || unfold group_size in *; lia).
    destruct (decide (j = i)) as [->|Hij].
    + rewrite E in Hj. injection Hj as <-. rewrite (block_used_in_group g _ i _ k G (list_lookup_insert_eq _ _ _ (lookup_lt_Some _ _ _ E)))
        by (unfold group_size in *; lia).
      cbn. rewrite K by lia. do 2 f_equal. case_cmp; lia.
    + rewrite (block_used_in_group g _ j b k G);
        [|by rewrite list_lookup_insert_ne|unfold group_size in *; lia].
      replace (bg_start g (Z.of_nat i) + first_free_block bg) with (bg_start g (Z.of_nat i) + (first_free_block bg - n) + n) by lia.
      replace (bg_start g (Z.of_nat i) + (first_free_block bg - n) + n - n) with (bg_start g (Z.of_nat i) + (first_free_block bg - n)) by lia.
      rewrite other_group by (unfold group_size in *; lia). by rewrite andb_true_r.
  - by apply (map_insert_same _ _ _ bg).
  - rewrite (total_free_insert _ _ bg) by done. cbn. lia.
Qed.

(** ** Inodes *)

Definition total_inodes (bgs : list block_group_info) : Z := foldr (fun bg n => free_inodes bg + n) 0 bgs.

(** Whether an inode of the file system is used. *)
Definition inode_used (g : geometry) (bgs : list block_group_info) (ino : Z) : bool :=
  match bgs !! Z.to_nat ((ino - 1) / inodes_per_group g) with
  | Some bg => bit (inode_bitmap bg) ((ino - 1) mod inodes_per_group g)
  | None => true
  end.

Definition block_view (bg : block_group_info) : list Z * Z * Z := (block_bitmap bg, free_blocks bg, first_free_block bg).

(** Exactly a run of inodes becomes used, which were free before. *)
Record takes_inodes (g : geometry) (bgs : list block_group_info) (ino n : Z) (bgs' : list block_group_info) : Prop := {
  ti_ok : bgs_ok g bgs';
  ti_in : 1 <= ino /\ ino + n <= groups g * inodes_per_group g + 1;
  ti_free : forall x, ino <= x < ino + n -> inode_used g bgs x = false;
  ti_used : forall x, 1 <= x <= groups g * inodes_per_group g ->
    inode_used g bgs' x = inode_used g bgs x || ((ino <=? x) && (x <? ino + n));
  ti_blocks : map block_view bgs' = map block_view bgs;
  ti_tables : map inode_table bgs' = map inode_table bgs;
}.

Lemma set_inode_bits_spec n k bm :
  is_bytes bm -> 0 <= k -> k + Z.of_nat n <= 8 * zlen bm -> 8 * zlen bm < 2 ^ 32 ->
  exists bm', set_inode_bits n k bm = Done bm' /\ length bm' = length bm /\ is_bytes bm' /\
    forall j, 0 <= j -> bit bm' j = bit bm j || ((k <=? j) && (j <? k + Z.of_nat n)).
Proof.
  revert k bm. induction n as [|n IH]; intros k bm Hbm Hk Hl Hs; cbn [set_inode_bits].
  - exists bm. split_and!; [done|done|done|]. intros j Hj. replace (_ && _) with false by (case_cmp; lia). by rewrite orb_false_r.
  - destruct (byte_of bm k) as (b & Hb & _); [lia|]. rewrite Hb. cbn [get mbind outcome_bind].
    assert (is_byte b) as Hbb by (by eapply Forall_lookup_1 in Hbm). pose proof (Z.mod_pos_bound k 8 ltac:(lia)).
    set (bm1 := <[Z.to_nat (k / 8) := _]> bm).
    assert (length bm1 = length bm) as L1 by apply length_insert.
    assert (is_bytes bm1) as B1.
    { apply Forall_insert; [done|]. unfold is_byte. change 256 with (2 ^ 8). apply (lor_in_u 8); [lia|done|].
      unfold in_u. rewrite Z.shiftl_1_l. split; [apply Z.pow_nonneg; lia|apply Z.pow_lt_mono_r; lia]. }
    rewrite wrap_small by (unfold in_u; lia).
    destruct (IH (k + 1) bm1 B1) as (bm2 & -> & L2 & B2 & K2); [lia|unfold zlen in *; lia|unfold zlen in *; lia|].
    exists bm2. split; [done|]. split; [congruence|]. split; [done|]. intros j Hj. rewrite K2 by done.
    unfold bm1. rewrite (bit_insert _ _ _ b) by (done || lia). pose proof (Z.mod_pos_bound j 8 ltac:(lia)).
    assert (bit bm j || ((k <=? j) && (j <? k + Z.of_nat (S n))) =
            bit bm j || (j =? k) || ((k + 1 <=? j) && (j <? k + 1 + Z.of_nat n))) as ->
      by (rewrite <- orb_assoc; f_equal; case_cmp; lia).
    f_equal. destruct (Z.eqb_spec (j / 8) (k / 8)) as [Ej|Ej].
    + rewrite Z.lor_spec, testbit_shiftl_1, (same_bit j k Ej) by lia. f_equal. unfold bit. by rewrite Ej, Hb.
    + destruct (Z.eqb_spec j k) as [->|]; [done|]. by rewrite orb_false_r.
Qed.

Lemma reserve_inodes_ok g bgs i bg num :
  geometry_ok g -> bgs_ok g bgs -> bgs !! i = Some bg -> 0 < num <= free_inodes bg -> 8 * block_size g < 2 ^ 32 ->
  exists bgs', reserve_inodes bgs (Z.of_nat i) num = Done (first_free_inode bg, bgs') /\
    takes_inodes g bgs (Z.of_nat i * inodes_per_group g + first_free_inode bg) num bgs'.
Proof.
  intros G B E Hn Hbs. pose proof (bs_ok _ _ B _ _ E) as H. unfold reserve_inodes. rewrite Nat2Z.id, E. cbn [get mbind outcome_bind].
  rewrite (proj2 (Z.ltb_ge _ _)) by lia.
  pose proof (bo_ffi _ _ _ H) as Hf. pose proof (bo_ifree _ _ _ H) as Hfr. pose proof (bo_ilen _ _ _ H) as Hil.
  pose proof (go_ipg g G) as Hi. pose proof (lookup_lt_Some _ _ _ E) as Hlt. pose proof (bs_len _ _ B) as HL. unfold zlen in HL.
  rewrite (wrap_small 32 (first_free_inode bg - 1)) by (unfold in_u; lia).
  destruct (set_inode_bits_spec (Z.to_nat num) (first_free_inode bg - 1) (inode_bitmap bg)) as (bm & -> & L & Bb & K);
    [apply H|lia|lia|lia|]. cbn [mbind outcome_bind]. rewrite Z2Nat.id in K by lia.
  eexists. split; [done|]. rewrite !wrap_small by (unfold in_u; lia).
  set (bg' := Build_block_group_info _ _ _ _ _ _ _ _ _ _ _ _ _).
  assert (bg_ok g (Z.of_nat i) bg') as H'.
  { destruct H. constructor; cbn; try done; try lia.
    - unfold zlen in *. lia.
    - intros k Hk. rewrite K, bo_ibits0 by lia. case_cmp; lia || done. }
  assert (forall x b, 1 <= x -> bgs !! Z.to_nat ((x - 1) / inodes_per_group g) = Some b ->
     inode_used g bgs x = bit (inode_bitmap b) ((x - 1) mod inodes_per_group g)) as Hu.
  { intros x b Hx Hb. unfold inode_used. by rewrite Hb. }
  constructor.
  - constructor; [unfold zlen; rewrite length_insert; lia|]. intros j b Hj. destruct (decide (i = j)) as [<-|Hij].
    + rewrite list_lookup_insert_eq in Hj by done. by injection Hj as <-.
    + rewrite list_lookup_insert_ne in Hj by done. by apply (bs_ok _ _ B).
  - nia.
  - intros x Hx. assert ((x - 1) / inodes_per_group g = Z.of_nat i /\ (x - 1) mod inodes_per_group g = x - 1 - Z.of_nat i * inodes_per_group g) as [D M].
    { assert (x - 1 = (x - 1 - Z.of_nat i * inodes_per_group g) + Z.of_nat i * inodes_per_group g) as -> by lia.
      rewrite Z.div_add, Z_mod_plus_full, Z.div_small, Z.mod_small by lia. lia. }
    unfold inode_used. rewrite D, M, Nat2Z.id, E, (bo_ibits _ _ _ H) by lia. apply Z.ltb_ge. lia.
  - intros x Hx. set (q := (x - 1) / inodes_per_group g). pose proof (Z.div_mod (x - 1) (inodes_per_group g) ltac:(lia)) as D. fold q in D.
    pose proof (Z.mod_pos_bound (x - 1) (inodes_per_group g) ltac:(lia)) as M.
    assert (0 <= q) as Hq by (apply Z.div_pos; lia).
    unfold inode_used. fold q. destruct (decide (q = Z.of_nat i)) as [Eq|Nq].
    + rewrite Eq, Nat2Z.id, list_lookup_insert_eq, E by done. cbn. rewrite K by lia. f_equal. case_cmp; lia.
    + rewrite list_lookup_insert_ne by lia.
      replace (_ && _) with false; [by rewrite orb_false_r|]. symmetry. apply andb_false_iff. rewrite Z.leb_gt, Z.ltb_ge. nia.
  - by apply (map_insert_same _ _ _ bg).
  - by apply (map_insert_same _ _ _ bg).
Qed.

Lemma allocate_inode_from_ok g bgs n i :
  geometry_ok g -> bgs_ok g bgs -> 8 * block_size g < 2 ^ 32 -> (i + n = length bgs)%nat ->
  (allocate_inode_from g n (Z.of_nat i) bgs = Done (EXT4_ALLOCATE_FAILED, bgs) /\
   forall j bg, (i <= j)%nat -> bgs !! j = Some bg -> free_inodes bg = 0) \/
  exists ino bgs', allocate_inode_from g n (Z.of_nat i) bgs = Done (ino, bgs') /\ ino <> EXT4_ALLOCATE_FAILED /\
    takes_inodes g bgs ino 1 bgs'.
Proof.
  intros G B Hs. pose proof (go_ipg g G) as Hi. pose proof (go_inodes g G) as Hmax. pose proof (bs_len _ _ B) as HL. unfold zlen in HL.
  revert i. induction n as [|n IH]; intros i Hin; cbn [allocate_inode_from].
  { left. split; [done|]. intros j bg Hj E. apply lookup_lt_Some in E. lia. }
  destruct (lookup_lt_is_Some_2 bgs i) as [bg E]; [lia|]. pose proof (bs_ok _ _ B _ _ E) as H.
  pose proof (bo_ffi _ _ _ H) as Hf. pose proof (bo_ifree _ _ _ H) as Hfr.
  destruct (decide (free_inodes bg = 0)) as [H0|H0].
  - assert (reserve_inodes bgs (Z.of_nat i) 1 = Done (EXT4_ALLOCATE_FAILED, bgs)) as ->.
    { unfold reserve_inodes. rewrite Nat2Z.id, E. cbn [get mbind outcome_bind]. by rewrite (proj2 (Z.ltb_lt _ _)) by lia. }
    cbn [mbind outcome_bind]. rewrite Z.eqb_refl. replace (Z.of_nat i + 1) with (Z.of_nat (S i)) by lia.
    destruct (IH (S i) ltac:(lia)) as [[-> Hall]|Hsome]; [|right; exact Hsome]. left. split; [done|]. intros j b Hj Hb.
    destruct (decide (j = i)) as [->|]; [congruence|]. apply (Hall j b); [lia|done].
  - destruct (reserve_inodes_ok g bgs i bg 1 G B E ltac:(lia) Hs) as (bgs' & -> & T). cbn [mbind outcome_bind].
    pose proof (ti_in _ _ _ _ _ T) as Hti.
    rewrite (proj2 (Z.eqb_neq _ _)) by nia. right. do 2 eexists. split; [done|].
    rewrite wrap_small by (unfold in_u, EXT4_ALLOCATE_FAILED in *; nia). split; [nia|exact T].
Qed.

Lemma allocate_inode_ok g bgs :
  geometry_ok g -> bgs_ok g bgs -> 8 * block_size g < 2 ^ 32 ->
  (allocate_inode g bgs = Done (EXT4_ALLOCATE_FAILED, bgs) /\ forall j bg, bgs !! j = Some bg -> free_inodes bg = 0) \/
  exists ino bgs', allocate_inode g bgs = Done (ino, bgs') /\ ino <> EXT4_ALLOCATE_FAILED /\ takes_inodes g bgs ino 1 bgs'.
Proof.
  intros G B Hs. unfold allocate_inode. pose proof (bs_len _ _ B) as HL. unfold zlen in HL.
  destruct (allocate_inode_from_ok g bgs (Z.to_nat (groups g)) 0 G B Hs ltac:(lia)) as [[H1 H2]|H]; [left|by right].
  split; [done|]. intros j bg. apply H2. lia.
Qed.
