(* ===== verification/Ext4Region.v ===== *)
(** * Allocations: lists of regions

    Models the second half of [allocate.c] of [android/ext4_utils]: the linked lists
    of regions of an allocation with their iterators, as the pointers are.  An
    allocation owns its nodes, an address is an index into them; following more
    links than there are nodes has no outcome. *)

From S2P Require Import Prelude Ext4Alloc.

Record region := { r_block : Z; r_len : Z; r_bg : Z; r_next : option nat; r_prev : option nat }.

Record region_list := { l_first : option nat; l_last : option nat; l_iter : option nat; l_partial : Z }.

Record block_allocation := { nodes : list region; a_list : region_list; oob_list : region_list }.

Definition no_regions : region_list := {| l_first := None; l_last := None; l_iter := None; l_partial := 0 |}.
Definition create_allocation : block_allocation := {| nodes := []; a_list := no_regions; oob_list := no_regions |}.

Definition node (ns : list region) (a : nat) : outcome region := get (ns !! a).
Definition set_next (ns : list region) (a : nat) (n : option nat) : outcome (list region) :=
  r ← node ns a;
  Done (<[a := {| r_block := r_block r; r_len := r_len r; r_bg := r_bg r; r_next := n; r_prev := r_prev r |}]> ns).
Definition set_prev (ns : list region) (a : nat) (p : option nat) : outcome (list region) :=
  r ← node ns a;
  Done (<[a := {| r_block := r_block r; r_len := r_len r; r_bg := r_bg r; r_next := r_next r; r_prev := p |}]> ns).
Definition set_len (ns : list region) (a : nat) (n : Z) : outcome (list region) :=
  r ← node ns a;
  Done (<[a := {| r_block := r_block r; r_len := n; r_bg := r_bg r; r_next := r_next r; r_prev := r_prev r |}]> ns).

Definition with_iter (l : region_list) (it : option nat) (p : Z) : region_list :=
  {| l_first := l_first l; l_last := l_last l; l_iter := it; l_partial := p |}.

Definition same (a : option nat) (b : nat) : bool := match a with Some a => Nat.eqb a b | None => false end.

Definition region_list_remove (ns : list region) (l : region_list) (reg : nat) : outcome (list region * region_list) :=
  r ← node ns reg;
  ns ← match r_prev r with Some p => set_next ns p (r_next r) | None => Done ns end;
  ns ← match r_next r with Some n => set_prev ns n (r_prev r) | None => Done ns end;
  let l := {| l_first := if same (l_first l) reg then r_next r else l_first l;
              l_last := if same (l_last l) reg then r_prev r else l_last l;
              l_iter := l_iter l; l_partial := l_partial l |} in
  ns ← set_next ns reg None;
  ns ← set_prev ns reg None;
  Done (ns, l).

Definition region_list_append (ns : list region) (l : region_list) (reg : nat) : outcome (list region * region_list) :=
  '(ns, l) ← match l_first l with
    | None =>
        ns ← set_prev ns reg None;
        Done (ns, {| l_first := Some reg; l_last := Some reg; l_iter := Some reg; l_partial := 0 |})
    | Some _ =>
        last ← get (l_last l);
        ns ← set_next ns last (Some reg);
        ns ← set_prev ns reg (Some last);
        Done (ns, {| l_first := l_first l; l_last := Some reg; l_iter := l_iter l; l_partial := l_partial l |})
    end;
  ns ← set_next ns reg None;
  Done (ns, l).

Definition append_region (a : block_allocation) (block len bg_num : Z) : outcome block_allocation :=
  let reg := length (nodes a) in
  '(ns, l) ← region_list_append
    (nodes a ++ [{| r_block := block; r_len := len; r_bg := bg_num; r_next := None; r_prev := None |}]) (a_list a) reg;
  Done {| nodes := ns; a_list := l; oob_list := oob_list a |}.

(** ** Allocating *)

(** The loop of [ext4_allocate_best_fit]; [fuel] is the number of blocks. *)
Fixpoint best_fit_loop (fuel : nat) (bgs : list block_group_info) (len : Z) (first_reg prev_reg : option nat) (ns : list region)
    : outcome (option nat * list region * list block_group_info) :=
  match fuel with
  | O => Done (first_reg, ns, bgs)
  | S fuel =>
      if 0 <? len then
        '(p, bgs) ← ext4_allocate_best_fit_partial bgs len;
        let reg := length ns in
        ns ← match prev_reg with
             | Some prev => set_next ns prev (Some reg)
             | None => Done ns
             end;
        best_fit_loop fuel bgs (len - p_len p) (match first_reg with Some f => Some f | None => Some reg end) (Some reg)
          (ns ++ [{| r_block := p_block p; r_len := p_len p; r_bg := p_bg p; r_next := None; r_prev := prev_reg |}])
      else Done (first_reg, ns, bgs)
  end.

Definition ext4_allocate_best_fit (bgs : list block_group_info) (len : Z) (ns : list region)
    : outcome (option nat * list region * list block_group_info) :=
  best_fit_loop (Z.to_nat len) bgs len None None ns.

(** No regions are [NULL]. *)
Definition allocate_blocks (bgs : list block_group_info) (len : Z) : outcome (option block_allocation * list block_group_info) :=
  '(reg, ns, bgs) ← ext4_allocate_best_fit bgs len [];
  match reg with
  | None => Done (None, bgs)
  | Some reg =>
      Done (Some {| nodes := ns; a_list := {| l_first := Some reg; l_last := Some reg; l_iter := Some reg; l_partial := 0 |};
                    oob_list := no_regions |}, bgs)
  end.

Definition append_oob_allocation (bgs : list block_group_info) (a : block_allocation) (len : Z)
    : outcome (Z * block_allocation * list block_group_info) :=
  '(reg, ns, bgs) ← ext4_allocate_best_fit bgs len (nodes a);
  match reg with
  | None => Error
  | Some reg =>
      (* appending a region cuts off what follows it, so the loop ends *)
      '(ns, l) ← region_list_append ns (oob_list a) reg;
      Done (0, {| nodes := ns; a_list := a_list a; oob_list := l |}, bgs)
  end.

(** ** Walking *)

Fixpoint count_from (fuel : nat) (ns : list region) (reg : option nat) : outcome Z :=
  match reg with
  | None => Done 0
  | Some a =>
      match fuel with
      | O => Undefined
      | S fuel => r ← node ns a; n ← count_from fuel ns (r_next r); Done (1 + n)
      end
  end.
Definition block_allocation_num_regions (a : block_allocation) : outcome Z :=
  count_from (length (nodes a)) (nodes a) (l_first (a_list a)).

Fixpoint sum_from (fuel : nat) (ns : list region) (reg : option nat) : outcome Z :=
  match reg with
  | None => Done 0
  | Some a =>
      match fuel with
      | O => Undefined
      | S fuel => r ← node ns a; n ← sum_from fuel ns (r_next r); Done (r_len r + n)
      end
  end.
Definition block_allocation_len (a : block_allocation) : outcome Z :=
  sum_from (length (nodes a)) (nodes a) (l_first (a_list a)).

Fixpoint block_from (fuel : nat) (ns : list region) (reg : option nat) (block : Z) : outcome Z :=
  match reg with
  | None => Done EXT4_ALLOCATE_FAILED
  | Some a =>
      match fuel with
      | O => Undefined
      | S fuel =>
          r ← node ns a;
          if block <? r_len r then Done (u32 (r_block r + block)) else block_from fuel ns (r_next r) (block - r_len r)
      end
  end.
Definition get_block (a : block_allocation) (block : Z) : outcome Z :=
  block_from (length (nodes a)) (nodes a) (l_iter (a_list a)) (u32 (block + l_partial (a_list a))).
Definition get_oob_block (a : block_allocation) (block : Z) : outcome Z :=
  block_from (length (nodes a)) (nodes a) (l_iter (oob_list a)) (u32 (block + l_partial (oob_list a))).

(** The block and length. *)
Definition get_region (a : block_allocation) : outcome (Z * Z) :=
  it ← get (l_iter (a_list a));
  r ← node (nodes a) it;
  Done (r_block r, u32 (r_len r - l_partial (a_list a))).

Definition get_next_region (a : block_allocation) : outcome block_allocation :=
  it ← get (l_iter (a_list a));
  r ← node (nodes a) it;
  Done {| nodes := nodes a; a_list := with_iter (a_list a) (r_next r) 0; oob_list := oob_list a |}.

Definition last_region (a : block_allocation) : bool := match l_iter (a_list a) with None => true | Some _ => false end.

Definition rewind_alloc (a : block_allocation) : block_allocation :=
  {| nodes := nodes a; a_list := with_iter (a_list a) (l_first (a_list a)) 0; oob_list := oob_list a |}.

(** ** Returning and splitting *)

Fixpoint reduce_loop (fuel : nat) (bgs : list block_group_info) (a : block_allocation) (len : Z)
    : outcome (block_allocation * list block_group_info) :=
  match fuel with
  | O => Done (a, bgs)
  | S fuel =>
      if len =? 0 then Done (a, bgs)
      else
        last ← get (l_last (a_list a));
        r ← node (nodes a) last;
        bg ← get (bgs !! Z.to_nat (r_bg r));
        if len <? r_len r then
          bg ← free_last_blocks bg len;
          ns ← set_len (nodes a) last (r_len r - len);
          Done ({| nodes := ns; a_list := a_list a; oob_list := oob_list a |}, <[Z.to_nat (r_bg r) := bg]> bgs)
        else
          bg ← free_last_blocks bg (r_len r);
          let bgs := <[Z.to_nat (r_bg r) := bg]> bgs in
          match r_prev r with
          | Some reg =>
              (* [list.last] keeps pointing to the freed region *)
              ns ← set_next (nodes a) reg None;
              if len - r_len r =? 0
              then Done ({| nodes := ns; a_list := a_list a; oob_list := oob_list a |}, bgs)
              else Undefined
          | None =>
              reduce_loop fuel bgs {| nodes := nodes a; a_list := no_regions; oob_list := oob_list a |} (len - r_len r)
          end
  end.
Definition reduce_allocation (bgs : list block_group_info) (a : block_allocation) (len : Z)
    : outcome (block_allocation * list block_group_info) :=
  reduce_loop (S (length (nodes a))) bgs a len.

(** The region and what is left of the length. *)
Fixpoint split_walk (fuel : nat) (ns : list region) (reg : option nat) (len : Z) : outcome (option nat * Z) :=
  match reg with
  | None => Done (None, len)
  | Some a =>
      match fuel with
      | O => Undefined
      | S fuel =>
          r ← node ns a;
          if r_len r <=? len then split_walk fuel ns (r_next r) (len - r_len r) else Done (Some a, len)
      end
  end.

Definition do_split_allocation (a : block_allocation) (len : Z) : outcome (option nat * block_allocation) :=
  '(reg, len) ← split_walk (length (nodes a)) (nodes a) (l_iter (a_list a)) len;
  if 0 <? len then
    match reg with
    | None => Done (None, a)
    | Some reg =>
        r ← node (nodes a) reg;
        let new := length (nodes a) in
        let ns := nodes a ++ [{| r_block := u32 (r_block r + len); r_len := r_len r - len; r_bg := r_bg r;
                                 r_next := r_next r; r_prev := Some reg |}] in
        ns ← set_next ns reg (Some new);
        ns ← set_len ns reg len;
        Done (l_iter (a_list a),
              {| nodes := ns; a_list := with_iter (a_list a) (Some new) (l_partial (a_list a)); oob_list := oob_list a |})
    end
  else Done (reg, a).

Definition split_allocation (a : block_allocation) (len : Z) : outcome (option nat * block_allocation) :=
  '(_, a) ← do_split_allocation a (l_partial (a_list a));
  '(middle, a) ← do_split_allocation a len;
  Done (middle, {| nodes := nodes a; a_list := with_iter (a_list a) (l_iter (a_list a)) 0; oob_list := oob_list a |}).

Fixpoint move_oob (fuel : nat) (a : block_allocation) (oob : option nat) : outcome block_allocation :=
  match oob with
  | None => Done a
  | Some o =>
      if same (l_iter (a_list a)) o then Done a
      else
        match fuel with
        | O => Undefined
        | S fuel =>
            r ← node (nodes a) o;
            '(ns, l) ← region_list_remove (nodes a) (a_list a) o;
            '(ns, ol) ← region_list_append ns (oob_list a) o;
            move_oob fuel {| nodes := ns; a_list := l; oob_list := ol |} (r_next r)
        end
  end.

Definition reserve_oob_blocks (a : block_allocation) (blocks : Z) : outcome (Z * block_allocation) :=
  '(oob, a) ← split_allocation a blocks;
  match oob with
  | None => Done (-1, a)
  | Some _ => a ← move_oob (S (length (nodes a))) a oob; Done (0, a)
  end.

(** ** Moving the iterator *)

(** [iter] itself is not moved when a region is passed. *)
Fixpoint advance_loop (fuel : nat) (ns : list region) (reg : option nat) (partial blocks : Z) : outcome (Z * Z) :=
  match reg with
  | None => Done (if 0 <? blocks then -1 else 0, partial)
  | Some a =>
      if 0 <? blocks then
        match fuel with
        | O => Undefined
        | S fuel =>
            r ← node ns a;
            if partial + blocks <? r_len r then Done (0, partial + blocks)
            else advance_loop fuel ns (r_next r) 0 (blocks - (r_len r - partial))
        end
      else Done (0, partial)
  end.
Definition advance_list_ptr (ns : list region) (l : region_list) (blocks : Z) : outcome (Z * region_list) :=
  '(res, partial) ← advance_loop (length ns) ns (l_iter l) (l_partial l) blocks;
  Done (res, with_iter l (l_iter l) partial).
Definition advance_blocks (a : block_allocation) (blocks : Z) : outcome (Z * block_allocation) :=
  '(res, l) ← advance_list_ptr (nodes a) (a_list a) blocks;
  Done (res, {| nodes := nodes a; a_list := l; oob_list := oob_list a |}).
Definition advance_oob_blocks (a : block_allocation) (blocks : Z) : outcome (Z * block_allocation) :=
  '(res, l) ← advance_list_ptr (nodes a) (oob_list a) blocks;
  Done (res, {| nodes := nodes a; a_list := a_list a; oob_list := l |}).

(** ** The regions of an allocation *)

(** The nodes made for a list of pieces, from an address on. *)
Fixpoint mk_nodes (a : nat) (prev : option nat) (ps : list piece) : list region :=
  match ps with
  | [] => []
  | p :: ps =>
      {| r_block := p_block p; r_len := p_len p; r_bg := p_bg p;
         r_next := match ps with [] => None | _ => Some (S a) end; r_prev := prev |} :: mk_nodes (S a) (Some a) ps
  end.

Lemma mk_nodes_length a prev ps : length (mk_nodes a prev ps) = length ps.
Proof. revert a prev. induction ps as [|p ps IH]; intros a prev; cbn; [done|]. by rewrite IH. Qed.

Lemma mk_nodes_snoc a prev ps p q :
  mk_nodes a prev (ps ++ [p; q]) =
  <[(length ps)%nat := {| r_block := p_block p; r_len := p_len p; r_bg := p_bg p; r_next := Some (a + S (length ps))%nat;
                          r_prev := match ps with [] => prev | _ => Some (a + length ps - 1)%nat end |}]>
    (mk_nodes a prev (ps ++ [p])) ++
  [{| r_block := p_block q; r_len := p_len q; r_bg := p_bg q; r_next := None; r_prev := Some (a + length ps)%nat |}].
Proof.
  revert a prev. induction ps as [|x ps IH]; intros a prev; cbn.
  - by rewrite Nat.add_0_r, Nat.add_1_r.
  - rewrite IH. replace (S a + S (length ps))%nat with (a + S (S (length ps)))%nat by lia.
    replace (S a + length ps)%nat with (a + S (length ps))%nat by lia.
    replace (a + S (length ps) - 1)%nat with (a + length ps)%nat by lia.
    destruct ps as [|y ps]; cbn; [by rewrite !Nat.add_0_r|].
    replace (a + S (S (length ps)) - 1)%nat with (a + S (length ps))%nat by lia. done.
Qed.

Lemma mk_nodes_last a prev ps p :
  mk_nodes a prev (ps ++ [p]) !! length ps =
  Some {| r_block := p_block p; r_len := p_len p; r_bg := p_bg p; r_next := None;
          r_prev := match ps with [] => prev | _ => Some (a + length ps - 1)%nat end |}.
Proof.
  revert a prev. induction ps as [|x ps IH]; intros a prev; cbn; [done|]. rewrite IH. do 2 f_equal.
  destruct ps as [|y ps]; cbn; f_equal; lia.
Qed.

(** Pieces taken one after the other; all but the last exhaust their groups. *)
Inductive taken (g : geometry) : list block_group_info -> list piece -> list block_group_info -> Prop :=
  | taken_nil bgs : taken g bgs [] bgs
  | taken_cons bgs p bgs1 ps bgs2 bg bg' :
      takes g bgs (p_block p) (p_len p) bgs1 -> piece_of bgs p bgs1 bg bg' ->
      (ps <> [] -> p_len p = free_blocks bg) ->
      taken g bgs1 ps bgs2 -> taken g bgs (p :: ps) bgs2.

Definition pieces_len (ps : list piece) : Z := foldr (fun p n => p_len p + n) 0 ps.

Lemma pieces_len_app ps qs : pieces_len (ps ++ qs) = pieces_len ps + pieces_len qs.
Proof. induction ps as [|p ps IH]; [done|]. change (pieces_len ((p :: ps) ++ qs)) with (p_len p + pieces_len (ps ++ qs)). rewrite IH. unfold pieces_len. cbn. lia. Qed.

(** What the groups of an allocation's start hold at most in one piece. *)
Definition largest (bgs : list block_group_info) : Z := foldr (fun bg n => Z.max (free_blocks bg) n) 0 bgs.

Lemma largest_bound bgs bg : bg ∈ bgs -> free_blocks bg <= largest bgs.
Proof.
  induction bgs as [|b bgs IH]; intros H; [set_solver|]. apply elem_of_cons in H as [->|H]; cbn; [lia|].
  specialize (IH H). unfold largest in *. lia.
Qed.

Lemma largest_le bgs n : 0 <= n -> Forall (fun f => f <= n) (free_of bgs) -> largest bgs <= n.
Proof.
  intros Hn H. induction bgs as [|b bgs IH]; cbn in *; [done|]. inv H. specialize (IH H3). unfold largest in IH. lia.
Qed.

Lemma taken_inv g bgs p ps bgs2 :
  taken g bgs (p :: ps) bgs2 ->
  exists bgs1 bg bg', takes g bgs (p_block p) (p_len p) bgs1 /\ piece_of bgs p bgs1 bg bg' /\
    (ps <> [] -> p_len p = free_blocks bg) /\ taken g bgs1 ps bgs2.
Proof. intros H. inversion H; subst. eauto 10. Qed.

Lemma taken_len g bgs ps bgs' : taken g bgs ps bgs' -> 0 <= pieces_len ps /\ (ps <> [] -> 0 < pieces_len ps).
Proof.
  induction 1 as [|bgs p bgs1 ps bgs2 bg bg' T P _ HT [IH _]]; [done|]. pose proof (po_len _ _ _ _ _ P).
  unfold pieces_len in *. cbn. lia.
Qed.

(** The first and the last address of nodes made from [a] on. *)
Definition first_made (a : nat) (qs : list piece) : option nat := match qs with [] => None | _ => Some a end.
Definition last_made (a : nat) (qs : list piece) : option nat := match qs with [] => None | _ => Some (a + length qs - 1)%nat end.

Lemma first_made_app a qs q ps : first_made a (qs ++ q :: ps) = Some a.
Proof. by destruct qs. Qed.
Lemma last_made_snoc a qs q : last_made a (qs ++ [q]) = Some (a + length qs)%nat.
Proof. unfold last_made. destruct (qs ++ [q]) eqn:E; [by destruct qs|]. rewrite <- E, length_app. cbn. f_equal. lia. Qed.

(** Linking one more node. *)
Lemma link_node (ns0 : list region) qs p :
  exists ns1, (match last_made (length ns0) qs with
      | Some prev => set_next (ns0 ++ mk_nodes (length ns0) None qs) prev (Some (length (ns0 ++ mk_nodes (length ns0) None qs)))
      | None => Done (ns0 ++ mk_nodes (length ns0) None qs) end) = Done ns1 /\
    ns1 ++ [{| r_block := p_block p; r_len := p_len p; r_bg := p_bg p; r_next := None; r_prev := last_made (length ns0) qs |}]
    = ns0 ++ mk_nodes (length ns0) None (qs ++ [p]).
Proof.
  destruct qs as [|q qs _] using rev_ind; cbn [last_made app mk_nodes].
  { exists (ns0 ++ []). split; [done|]. by rewrite app_nil_r. }
  rewrite last_made_snoc. unfold set_next, node.
  rewrite lookup_app_r, Nat.add_comm, Nat.add_sub by lia. rewrite mk_nodes_last. cbn [get mbind outcome_bind].
  eexists. split; [done|]. rewrite <- (app_assoc qs). change ([q] ++ [p]) with [q; p]. rewrite mk_nodes_snoc.
  rewrite Nat.add_comm, insert_app_r, <- app_assoc, length_app, mk_nodes_length, length_app. cbn [length].
  by rewrite (Nat.add_1_r (length qs)).
Qed.

Lemma best_fit_loop_ok g fuel bgs len ns0 qs :
  geometry_ok g -> bgs_ok g bgs -> 0 <= len <= total_free bgs -> len <= Z.of_nat fuel ->
  exists ps bgs',
    best_fit_loop fuel bgs len (first_made (length ns0) qs) (last_made (length ns0) qs) (ns0 ++ mk_nodes (length ns0) None qs)
    = Done (first_made (length ns0) (qs ++ ps), ns0 ++ mk_nodes (length ns0) None (qs ++ ps), bgs') /\
    taken g bgs ps bgs' /\ bgs_ok g bgs' /\ pieces_len ps = len /\
    (match ps with [] => True | p :: _ => Z.min len (largest bgs) <= p_len p end).
Proof.
  intros G. revert bgs len qs. induction fuel as [|fuel IH]; intros bgs len qs B Hl Hf; cbn [best_fit_loop].
  { exists [], bgs. rewrite app_nil_r. split_and!; [done|constructor|done|cbn; lia|done]. }
  destruct (Z.ltb_spec 0 len) as [H0|H0].
  2: { exists [], bgs. rewrite app_nil_r. split_and!; [done|constructor|done|cbn; lia|done]. }
  pose proof (best_fit_partial_ok g bgs len G B H0) as Hp. rewrite (proj2 (Z.eqb_neq (total_free bgs) 0)) in Hp by lia.
  destruct Hp as (p & bgs1 & n & -> & T & Hbest & Hmin & Hn & bg & bg' & P & Hfree). cbn [mbind outcome_bind].
  destruct (link_node ns0 qs p) as (ns1 & -> & Hns1). cbn [mbind outcome_bind].
  pose proof (po_len _ _ _ _ _ P) as Hpl. pose proof (tk_total _ _ _ _ _ T) as Ht.
  destruct (IH bgs1 (len - p_len p) (qs ++ [p])) as (ps & bgs2 & E & HT & B2 & Hlen & _); [apply T|lia|lia|].
  exists (p :: ps), bgs2. rewrite <- app_assoc in E. cbn [app] in E.
  split; [|split_and!].
  - rewrite Hns1, length_app, mk_nodes_length. rewrite last_made_snoc in E. rewrite <- E.
    destruct qs as [|q qs]; cbn [first_made app length]; [by rewrite Nat.add_0_r|done].
  - econstructor; [done|done| |done]. intros Hps. destruct (taken_len _ _ _ _ HT) as [_ Hpos]. specialize (Hpos Hps). lia.
  - done.
  - unfold pieces_len in *. cbn. lia.
  - destruct Hbest as [[-> _]|(_ & _ & _ & Hb)]; [lia|]. destruct (Z.leb_spec len n); [lia|].
    pose proof (largest_le bgs n ltac:(lia) Hb). lia.
Qed.

Definition piece_blocks (p : piece) : list Z := seqZ (p_block p) (p_len p).
Definition blocks_of (ps : list piece) : list Z := concat (map piece_blocks ps).

Lemma blocks_of_length ps g bgs bgs' : taken g bgs ps bgs' -> zlen (blocks_of ps) = pieces_len ps.
Proof.
  induction 1 as [|bgs p bgs1 ps bgs2 bg bg' T P _ HT IH]; [done|]. pose proof (po_len _ _ _ _ _ P).
  unfold blocks_of, pieces_len in *. cbn. rewrite zlen_app, IH. unfold zlen, piece_blocks. rewrite length_seqZ. lia.
Qed.

(** Exactly the blocks of the pieces become used; they were free before, and none
    is taken twice. *)
Lemma taken_blocks g bgs ps bgs' :
  geometry_ok g -> taken g bgs ps bgs' -> bgs_ok g bgs ->
  bgs_ok g bgs' /\
  (forall x, x ∈ blocks_of ps -> in_fs g x /\ block_used g bgs x = false) /\
  NoDup (blocks_of ps) /\
  (forall x, in_fs g x -> block_used g bgs' x = block_used g bgs x || bool_decide (x ∈ blocks_of ps)) /\
  map inode_view bgs' = map inode_view bgs /\ total_free bgs' = total_free bgs - pieces_len ps.
Proof.
  intros G. induction 1 as [|bgs p bgs1 ps bgs2 bg bg' T P _ HT IH]; intros B.
  - split_and!; [done|set_solver|constructor| |done|cbn; lia]. intros x Hx. cbn. by rewrite orb_false_r.
  - destruct (IH (tk_ok _ _ _ _ _ T)) as (B2 & F & N & U & I & Tot).
    pose proof (tk_in _ _ _ _ _ T) as Hin. pose proof (po_len _ _ _ _ _ P) as Hl.
    assert (forall x, x ∈ piece_blocks p <-> p_block p <= x < p_block p + p_len p) as Hp
      by (intros x; unfold piece_blocks; rewrite elem_of_seqZ; lia).
    assert (blocks_of (p :: ps) = piece_blocks p ++ blocks_of ps) as -> by done.
    assert (forall x, x ∈ blocks_of ps -> x ∉ piece_blocks p) as Hd.
    { intros x Hx Hx'. destruct (F x Hx) as [Hf Hu]. rewrite (tk_used _ _ _ _ _ T) in Hu by done.
      apply orb_false_iff in Hu as [_ Hu]. apply Hp in Hx'. revert Hu. case_cmp; lia || done. }
    split_and!.
    + done.
    + intros x [Hx|Hx]%elem_of_app.
      * apply Hp in Hx. split; [unfold in_fs; lia|by apply (tk_free _ _ _ _ _ T)].
      * destruct (F x Hx) as [Hf Hu]. split; [done|]. rewrite (tk_used _ _ _ _ _ T) in Hu by done.
        by apply orb_false_iff in Hu as [Hu _].
    + apply NoDup_app. split; [apply NoDup_seqZ|]. split; [|done]. intros x H1 H2. by apply (Hd x).
    + intros x Hx. rewrite U, (tk_used _ _ _ _ _ T), <- orb_assoc by done. f_equal.
      destruct (bool_decide_reflect (x ∈ blocks_of ps)), (bool_decide_reflect (x ∈ piece_blocks p ++ blocks_of ps)) as [i|i];
        rewrite ?orb_true_r, ?orb_false_r; try done.
      * exfalso. apply i. set_solver.
      * apply elem_of_app in i as [i|i]; [|done]. apply Hp in i. case_cmp; lia.
      * assert (x ∉ piece_blocks p) as Hn by set_solver. rewrite Hp in Hn. case_cmp; lia.
    + by rewrite I, (tk_inodes _ _ _ _ _ T).
    + rewrite Tot, (tk_total _ _ _ _ _ T). unfold pieces_len. cbn. lia.
Qed.

Lemma allocate_blocks_ok g bgs len :
  geometry_ok g -> bgs_ok g bgs -> 0 < len <= total_free bgs ->
  exists ps bgs', allocate_blocks bgs len =
      Done (Some {| nodes := mk_nodes 0 None ps;
                    a_list := {| l_first := Some 0%nat; l_last := Some 0%nat; l_iter := Some 0%nat; l_partial := 0 |};
                    oob_list := no_regions |}, bgs') /\
    taken g bgs ps bgs' /\ pieces_len ps = len /\
    (match ps with [] => False | p :: _ => Z.min len (largest bgs) <= p_len p end).
Proof.
  intros G B Hl. unfold allocate_blocks, ext4_allocate_best_fit.
  destruct (best_fit_loop_ok g (Z.to_nat len) bgs len [] [] G B ltac:(lia) ltac:(lia)) as (ps & bgs' & E & T & _ & L & M).
  cbn [first_made last_made length app mk_nodes] in E. rewrite E. cbn [mbind outcome_bind].
  destruct ps as [|p ps]; [cbn in L; lia|]. cbn [first_made]. exists (p :: ps), bgs'. done.
Qed.

(** Without enough free blocks there is an error. *)
Lemma best_fit_loop_full g fuel bgs len f pr ns :
  geometry_ok g -> bgs_ok g bgs -> total_free bgs < len -> len <= Z.of_nat fuel ->
  (match pr with Some q => (q < length ns)%nat | None => True end) -> best_fit_loop fuel bgs len f pr ns = Error.
Proof.
  intros G. revert bgs len f pr ns. induction fuel as [|fuel IH]; intros bgs len f pr ns B Hl Hf Hpr;
    pose proof (total_free_nonneg g bgs B); [lia|].
  cbn [best_fit_loop]. rewrite (proj2 (Z.ltb_lt _ _)) by lia.
  pose proof (best_fit_partial_ok g bgs len G B ltac:(lia)) as Hp. destruct (total_free bgs =? 0); [by rewrite Hp|].
  destruct Hp as (p & bgs1 & n & -> & T & _ & _ & _ & bg & bg' & P & _). cbn [mbind outcome_bind].
  pose proof (tk_total _ _ _ _ _ T). pose proof (po_len _ _ _ _ _ P).
  assert (exists ns1, (match pr with Some prev => set_next ns prev (Some (length ns)) | None => Done ns end) = Done ns1 /\
    length ns1 = length ns) as (ns1 & -> & L1).
  { destruct pr as [q|]; [|by exists ns]. unfold set_next, node. destruct (lookup_lt_is_Some_2 ns q Hpr) as [r ->].
    cbn [get mbind outcome_bind]. eexists. split; [done|apply length_insert]. }
  cbn [mbind outcome_bind]. apply IH; [apply T|lia|lia|]. rewrite length_app, L1. cbn. lia.
Qed.

Lemma allocate_blocks_full g bgs len :
  geometry_ok g -> bgs_ok g bgs -> total_free bgs < len -> allocate_blocks bgs len = Error.
Proof.
  intros G B Hl. unfold allocate_blocks, ext4_allocate_best_fit.
  rewrite (best_fit_loop_full g) by (done || pose proof (total_free_nonneg g bgs B); lia). done.
Qed.

(** ** Walking the pieces *)

(** From an address on the nodes are the pieces. *)
Fixpoint chain (ns : list region) (a : option nat) (ps : list piece) : Prop :=
  match ps with
  | [] => a = None
  | p :: ps => exists i r, a = Some i /\ ns !! i = Some r /\ r_block r = p_block p /\ r_len r = p_len p /\ chain ns (r_next r) ps
  end.

Lemma chain_mk ns0 prev ps ns1 : chain (ns0 ++ mk_nodes (length ns0) prev ps ++ ns1) (first_made (length ns0) ps) ps.
Proof.
  revert ns0 prev. induction ps as [|p ps IH]; intros ns0 prev; cbn [chain mk_nodes first_made]; [done|].
  do 2 eexists. split; [done|]. split; [rewrite lookup_app_r, Nat.sub_diag by lia; done|]. split; [done|]. split; [done|].
  cbn [r_next]. specialize (IH (ns0 ++ [{| r_block := p_block p; r_len := p_len p; r_bg := p_bg p;
     r_next := match ps with [] => None | _ => Some (S (length ns0)) end; r_prev := prev |}]) (Some (length ns0))).
  rewrite length_app, Nat.add_1_r, <- app_assoc in IH. exact IH.
Qed.

Lemma chain_mk_all ps : chain (mk_nodes 0 None ps) (first_made 0 ps) ps.
Proof. pose proof (chain_mk [] None ps []) as H. by rewrite app_nil_r in H. Qed.

(** A change of nodes that are not in the chain. *)
Lemma chain_agree ns ns' a ps :
  chain ns a ps -> (forall i r, ns !! i = Some r -> exists r', ns' !! i = Some r' /\ r_block r' = r_block r /\
    r_len r' = r_len r /\ r_next r' = r_next r) -> chain ns' a ps.
Proof.
  intros H Hns. revert a H. induction ps as [|p ps IH]; intros a H; [done|].
  destruct H as (i & r & -> & Hi & H1 & H2 & H3). destruct (Hns i r Hi) as (r' & Hr' & A & B & C).
  exists i, r'. rewrite A, B, C. split_and!; auto.
Qed.

Lemma count_chain ns a ps fuel : chain ns a ps -> (length ps <= fuel)%nat -> count_from fuel ns a = Done (zlen ps).
Proof.
  revert a fuel. induction ps as [|p ps IH]; intros a fuel H Hf; [cbn in H; subst; by destruct fuel|].
  destruct H as (i & r & -> & Hi & _ & _ & H). destruct fuel as [|fuel]; [cbn in Hf; lia|]. cbn [count_from].
  unfold node. rewrite Hi. cbn [get mbind outcome_bind]. rewrite (IH _ fuel H) by (cbn in Hf; lia). cbn [mbind outcome_bind].
  by rewrite zlen_cons.
Qed.

Lemma sum_chain ns a ps fuel : chain ns a ps -> (length ps <= fuel)%nat -> sum_from fuel ns a = Done (pieces_len ps).
Proof.
  revert a fuel. induction ps as [|p ps IH]; intros a fuel H Hf; [cbn in H; subst; by destruct fuel|].
  destruct H as (i & r & -> & Hi & _ & E & H). destruct fuel as [|fuel]; [cbn in Hf; lia|]. cbn [sum_from].
  unfold node. rewrite Hi. cbn [get mbind outcome_bind]. rewrite (IH _ fuel H) by (cbn in Hf; lia). cbn [mbind outcome_bind].
  by rewrite E.
Qed.

(** The block asked for is that of the list of blocks. *)
Lemma block_chain ns a ps fuel k :
  chain ns a ps -> (length ps <= fuel)%nat -> 0 <= k -> (forall p, p ∈ ps -> 0 < p_len p /\ 0 <= p_block p /\ p_block p + p_len p < 2 ^ 32) ->
  block_from fuel ns a k = Done (default EXT4_ALLOCATE_FAILED (blocks_of ps !! Z.to_nat k)).
Proof.
  intros H Hf Hk Hp. revert a fuel k H Hf Hk. induction ps as [|p ps IH]; intros a fuel k H Hf Hk; [cbn in H; subst; by destruct fuel|].
  destruct H as (i & r & -> & Hi & E1 & E2 & H). destruct fuel as [|fuel]; [cbn in Hf; lia|]. cbn [block_from].
  unfold node. rewrite Hi. cbn [get mbind outcome_bind]. rewrite E1, E2.
  destruct (Hp p ltac:(set_solver)) as (P1 & P2 & P3).
  change (blocks_of (p :: ps)) with (piece_blocks p ++ blocks_of ps). unfold piece_blocks.
  destruct (Z.ltb_spec k (p_len p)).
  - rewrite lookup_app_l by (rewrite length_seqZ; lia). rewrite lookup_seqZ_lt by lia. cbn. rewrite Z2Nat.id by lia.
    by rewrite wrap_small by (unfold in_u; lia).
  - rewrite lookup_app_r by (rewrite length_seqZ; lia). rewrite length_seqZ.
    rewrite (IH ltac:(set_solver) _ fuel _ H) by (cbn in Hf; lia). do 3 f_equal. lia.
Qed.

(** ** One block less, and one block aside *)

Definition alloc_of (ps : list piece) : block_allocation :=
  {| nodes := mk_nodes 0 None ps;
     a_list := {| l_first := Some 0%nat; l_last := Some 0%nat; l_iter := Some 0%nat; l_partial := 0 |};
     oob_list := no_regions |}.

(** A piece without its last, or without its first block. *)
Definition shorter (p : piece) : piece := {| p_bg := p_bg p; p_block := p_block p; p_len := p_len p - 1 |}.
Definition later (p : piece) : piece := {| p_bg := p_bg p; p_block := p_block p + 1; p_len := p_len p - 1 |}.

(** A full group is left alone. *)
Lemma taken_keeps g bgs ps bgs' i b :
  taken g bgs ps bgs' -> bgs !! i = Some b -> free_blocks b = 0 -> bgs' !! i = Some b.
Proof.
  induction 1 as [|bgs p bgs1 ps bgs2 bg bg' T P _ HT IH]; intros E F; [done|]. apply IH; [|done].
  pose proof (po_len _ _ _ _ _ P). pose proof (po_bg _ _ _ _ _ P) as Hbg. rewrite (po_bgs _ _ _ _ _ P).
  rewrite list_lookup_insert_ne; [done|]. intros Eq. rewrite Eq, E in Hbg. injection Hbg as ->. lia.
Qed.

(** The first piece is still the last of its group. *)
Lemma taken_first g bgs p ps bgs' :
  geometry_ok g -> bgs_ok g bgs -> taken g bgs (p :: ps) bgs' ->
  exists bg, bgs' !! Z.to_nat (p_bg p) = Some bg /\ 0 <= p_bg p /\ first_block bg + first_free_block bg = p_block p + p_len p /\
    header_size g (p_bg p) + p_len p <= first_free_block bg <= group_size g (p_bg p).
Proof.
  intros G B HT. apply taken_inv in HT as (bgs1 & bg & bg' & T & P & Hex & HT').
  pose proof (po_bgs _ _ _ _ _ P) as E. pose proof (po_bg _ _ _ _ _ P) as Ebg. pose proof (po_nonneg _ _ _ _ _ P) as Hn.
  assert (bgs1 !! Z.to_nat (p_bg p) = Some bg') as E1.
  { rewrite E, list_lookup_insert_eq; [done|]. by eapply lookup_lt_Some. }
  exists bg'. split.
  - destruct ps as [|q ps]; [by inv HT'|]. apply (taken_keeps g bgs1 (q :: ps)); [done|done|].
    rewrite (po_free _ _ _ _ _ P), Hex; [lia|done].
  - rewrite (po_first _ _ _ _ _ P), (po_ff _ _ _ _ _ P), (po_block _ _ _ _ _ P). split; [done|]. split; [lia|].
    pose proof (bo_ff _ _ _ (bs_ok _ _ B _ _ Ebg)) as F1. pose proof (bo_free _ _ _ (bs_ok _ _ B _ _ Ebg)) as F2.
    rewrite Z2Nat.id in F1, F2 by done. pose proof (po_len _ _ _ _ _ P). lia.
Qed.

Lemma blocks_shorter p ps x :
  0 < p_len p -> NoDup (blocks_of (p :: ps)) ->
  (x ∈ blocks_of (p :: ps) <-> x ∈ blocks_of (shorter p :: ps) \/ x = p_block p + p_len p - 1) /\
  (p_block p + p_len p - 1) ∉ blocks_of (shorter p :: ps).
Proof.
  intros Hl Hn. change (blocks_of (p :: ps)) with (piece_blocks p ++ blocks_of ps) in *.
  change (blocks_of (shorter p :: ps)) with (piece_blocks (shorter p) ++ blocks_of ps).
  unfold piece_blocks in *. cbn. apply NoDup_app in Hn as (_ & Hd & _).
  split; [rewrite !elem_of_app, !elem_of_seqZ|rewrite elem_of_app, elem_of_seqZ].
  - destruct (decide (x ∈ blocks_of ps)); [tauto|]. intuition lia.
  - intros [?|Hin]; [lia|]. apply (Hd (p_block p + p_len p - 1)); [rewrite elem_of_seqZ; lia|done].
Qed.

(** The last block of the first piece is returned. *)
Lemma reduce_one g bgs p ps bgs' :
  geometry_ok g -> bgs_ok g bgs -> taken g bgs (p :: ps) bgs' -> 2 <= p_len p ->
  exists bgs'', reduce_allocation bgs' (alloc_of (p :: ps)) 1 = Done (alloc_of (shorter p :: ps), bgs'') /\
    bgs_ok g bgs'' /\
    (forall x, in_fs g x -> block_used g bgs'' x = block_used g bgs x || bool_decide (x ∈ blocks_of (shorter p :: ps))) /\
    map inode_view bgs'' = map inode_view bgs /\ total_free bgs'' = total_free bgs - pieces_len (p :: ps) + 1.
Proof.
  intros G B T Hl. destruct (taken_blocks g _ _ _ G T B) as (B' & F & N & U & I & Tot).
  destruct (taken_first g bgs p ps bgs' G B T) as (bg & Ebg & Hn & Hend & Hff).
  destruct (free_last_ok g bgs' (Z.to_nat (p_bg p)) bg 1 G B' Ebg) as (bg' & E & B'' & U' & I' & Tot');
    [lia|rewrite Z2Nat.id by done; lia|rewrite Z2Nat.id by done; lia|].
  exists (<[Z.to_nat (p_bg p) := bg']> bgs'). split.
  - unfold reduce_allocation, alloc_of. cbn [nodes a_list l_last reduce_loop mk_nodes].
    change (1 =? 0) with false. cbv iota. cbn [get mbind outcome_bind node lookup list_lookup r_bg r_len]. rewrite Ebg.
    cbn [get mbind outcome_bind]. rewrite (proj2 (Z.ltb_lt _ _)) by lia. rewrite E. cbn. done.
  - split; [done|]. split; [|split; [by rewrite I'|by rewrite Tot', Tot]].
    destruct (blocks_shorter p ps 0 ltac:(lia) N) as [_ Hout].
    intros x Hx. rewrite U', U, Hend by done. destruct (blocks_shorter p ps x ltac:(lia) N) as [Hin _].
    replace ((p_block p + p_len p - 1 <=? x) && (x <? p_block p + p_len p)) with (x =? p_block p + p_len p - 1) by (case_cmp; lia).
    destruct (Z.eqb_spec x (p_block p + p_len p - 1)) as [->|Hne]; cbn [negb].
    + rewrite andb_false_r, bool_decide_false by done. rewrite orb_false_r. symmetry. apply F. apply Hin. by right.
    + rewrite andb_true_r. f_equal. apply bool_decide_ext. rewrite Hin. tauto.
Qed.

Lemma insert_snoc {A} (l : list A) x y : <[length l := y]> (l ++ [x]) = l ++ [y].
Proof. induction l as [|a l IH]; cbn; [done|]. by f_equal. Qed.
Lemma lookup_snoc {A} (l : list A) x : (l ++ [x]) !! length l = Some x.
Proof. induction l as [|a l IH]; cbn; done. Qed.

Lemma move_one k r ms new :
  r_prev r = None -> r_next r = Some (S (length ms)) ->
  move_oob (S (S k)) {| nodes := r :: ms ++ [new];
      a_list := {| l_first := Some 0%nat; l_last := Some 0%nat; l_iter := Some (S (length ms)); l_partial := 0 |};
      oob_list := no_regions |} (Some 0%nat)
  = Done {| nodes := {| r_block := r_block r; r_len := r_len r; r_bg := r_bg r; r_next := None; r_prev := None |} ::
                     ms ++ [{| r_block := r_block new; r_len := r_len new; r_bg := r_bg new; r_next := r_next new; r_prev := None |}];
            a_list := {| l_first := Some (S (length ms)); l_last := None; l_iter := Some (S (length ms)); l_partial := 0 |};
            oob_list := {| l_first := Some 0%nat; l_last := Some 0%nat; l_iter := Some 0%nat; l_partial := 0 |} |}.
Proof.
  intros Hp Hn.
  assert (set_prev (r :: ms ++ [new]) (S (length ms)) None =
    Done (r :: ms ++ [{| r_block := r_block new; r_len := r_len new; r_bg := r_bg new; r_next := r_next new; r_prev := None |}])) as E.
  { unfold set_prev, node. change ((r :: ms ++ [new]) !! S (length ms)) with ((ms ++ [new]) !! length ms).
    rewrite lookup_snoc. cbn [get mbind outcome_bind]. change (<[S ?n := ?x]> (?y :: ?l)) with (y :: <[n := x]> l).
    by rewrite insert_snoc. }
  assert (region_list_remove (r :: ms ++ [new])
      {| l_first := Some 0%nat; l_last := Some 0%nat; l_iter := Some (S (length ms)); l_partial := 0 |} 0 =
    Done ({| r_block := r_block r; r_len := r_len r; r_bg := r_bg r; r_next := None; r_prev := None |} ::
            ms ++ [{| r_block := r_block new; r_len := r_len new; r_bg := r_bg new; r_next := r_next new; r_prev := None |}],
          {| l_first := Some (S (length ms)); l_last := None; l_iter := Some (S (length ms)); l_partial := 0 |})) as E2.
  { unfold region_list_remove. unfold node at 1. cbn [lookup list_lookup get mbind outcome_bind]. rewrite Hp, Hn.
    cbn [mbind outcome_bind]. rewrite E. reflexivity. }
  cbn [move_oob nodes a_list l_iter same Nat.eqb oob_list]. change (node (r :: ms ++ [new]) 0) with (Done r).
  cbn [mbind outcome_bind]. rewrite E2. cbn [mbind outcome_bind]. rewrite Hn. cbn. by rewrite Nat.eqb_refl.
Qed.

(** The first block of the first piece is put aside. *)
Lemma reserve_one p ps :
  2 <= p_len p -> 0 <= p_block p -> p_block p + 1 < 2 ^ 32 ->
  exists a, reserve_oob_blocks (alloc_of (p :: ps)) 1 = Done (0, a) /\
    chain (nodes a) (l_iter (a_list a)) (later p :: ps) /\ l_first (a_list a) = l_iter (a_list a) /\ l_partial (a_list a) = 0 /\
    get_oob_block a 0 = Done (p_block p) /\ (length (p :: ps) <= length (nodes a))%nat.
Proof.
  intros Hl Hb Hw. unfold reserve_oob_blocks, split_allocation, alloc_of.
  set (a0 := {| nodes := _ |}).
  assert (do_split_allocation a0 0 = Done (Some 0%nat, a0)) as E0.
  { unfold do_split_allocation, a0. cbn [nodes a_list l_iter mk_nodes length split_walk node get lookup list_lookup mbind outcome_bind r_len].
    rewrite (proj2 (Z.leb_gt _ _)) by lia. done. }
  change (l_partial (a_list a0)) with 0. rewrite E0. cbn [mbind outcome_bind].
  set (r := {| r_block := p_block p; r_len := 1; r_bg := p_bg p; r_next := Some (S (length ps)); r_prev := None |}).
  set (new := {| r_block := u32 (p_block p + 1); r_len := p_len p - 1; r_bg := p_bg p;
                 r_next := match ps with [] => None | _ => Some 1%nat end; r_prev := Some 0%nat |}).
  assert (do_split_allocation a0 1 = Done (Some 0%nat,
    {| nodes := r :: mk_nodes 1 (Some 0%nat) ps ++ [new];
       a_list := {| l_first := Some 0%nat; l_last := Some 0%nat; l_iter := Some (S (length ps)); l_partial := 0 |};
       oob_list := no_regions |})) as E1.
  { unfold do_split_allocation, a0. cbn [nodes a_list l_iter mk_nodes length split_walk node get lookup list_lookup mbind outcome_bind r_len].
    rewrite (proj2 (Z.leb_gt _ _)) by lia. cbn. by rewrite mk_nodes_length. }
  rewrite E1. cbn [mbind outcome_bind]. clear E0 E1 a0.
  cbn [nodes a_list oob_list length with_iter l_first l_last l_iter]. rewrite length_app, mk_nodes_length. cbn [length].
  pose proof (mk_nodes_length 1 (Some 0%nat) ps) as Hms.
  pose proof (move_one (S (length ps)) r (mk_nodes 1 (Some 0%nat) ps) new) as Hmove. rewrite Hms in Hmove.
  replace (length ps + 1)%nat with (S (length ps)) by lia. change (with_iter ?l ?i ?q) with {| l_first := l_first l; l_last := l_last l; l_iter := i; l_partial := q |}. cbn [l_first l_last]. rewrite Hmove by done. cbn [mbind outcome_bind].
  eexists. split; [done|]. cbn [nodes a_list l_iter l_first l_partial chain oob_list].
  split; [|split; [done|split; [done|split]]].
  - do 2 eexists. split; [done|]. split; [cbn; rewrite <- Hms; apply lookup_snoc|]. cbn.
    rewrite wrap_small by (unfold in_u; lia). split; [done|]. split; [done|].
    pose proof (chain_mk [{| r_block := p_block p; r_len := 1; r_bg := p_bg p; r_next := None; r_prev := None |}] (Some 0%nat) ps
      [{| r_block := p_block p + 1; r_len := p_len p - 1; r_bg := p_bg p;
          r_next := match ps with [] => None | _ => Some 1%nat end; r_prev := None |}]) as Hc.
    cbn [length app] in Hc. destruct ps; exact Hc.
  - unfold get_oob_block. cbn [nodes oob_list l_iter l_partial]. rewrite wrap_small by (unfold in_u; lia). cbn.
    change (0 + 0 <? 1) with true. cbv iota. rewrite wrap_small by (unfold in_u; lia). f_equal. lia.
  - cbn [length]. rewrite length_app, Hms. cbn. lia.
Qed.

(** ** At most one piece for a group *)

Definition groups_free (bgs : list block_group_info) : Z := foldr (fun bg n => (if 0 <? free_blocks bg then 1 else 0) + n) 0 bgs.

Lemma groups_free_insert bgs i bg bg' :
  bgs !! i = Some bg ->
  groups_free (<[i := bg']> bgs) =
    groups_free bgs - (if 0 <? free_blocks bg then 1 else 0) + (if 0 <? free_blocks bg' then 1 else 0).
Proof.
  revert i. induction bgs as [|b bgs IH]; intros [|i] E; cbn in *; [done|done|injection E as ->; lia|].
  unfold groups_free in IH. rewrite IH by done. lia.
Qed.

Lemma groups_free_bound bgs : 0 <= groups_free bgs <= zlen bgs.
Proof.
  induction bgs as [|b bgs IH]; [done|]. rewrite zlen_cons. unfold groups_free in *. cbn. destruct (0 <? free_blocks b); lia.
Qed.

Lemma taken_count g bgs ps bgs' : taken g bgs ps bgs' -> zlen ps <= groups_free bgs.
Proof.
  induction 1 as [|bgs p bgs1 ps bgs2 bg bg' T P Hex HT IH]; [apply groups_free_bound|]. rewrite zlen_cons.
  pose proof (po_len _ _ _ _ _ P) as Hl. pose proof (po_free _ _ _ _ _ P) as Hf. rewrite (po_bgs _ _ _ _ _ P) in IH.
  rewrite (groups_free_insert _ _ bg) in IH by apply P. rewrite (proj2 (Z.ltb_lt 0 (free_blocks bg))) in IH by lia.
  destruct ps as [|q ps].
  - pose proof (groups_free_bound (<[Z.to_nat (p_bg p) := with_blocks bg [] 0 0]> bgs)) as Hb.
    rewrite (groups_free_insert _ _ bg) in Hb by apply P. rewrite (proj2 (Z.ltb_lt 0 (free_blocks bg))) in Hb by lia.
    cbn [with_blocks free_blocks] in Hb. change (0 <? 0) with false in Hb. cbv iota in Hb. change (zlen []) with 0. lia.
  - rewrite (proj2 (Z.ltb_ge 0 (free_blocks bg'))) in IH; [lia|]. rewrite Hf, Hex by done. lia.
Qed.
