(* ===== verification/Ext4Extent.v ===== *)
(** * Extents

    Models [extent.c] of [android/ext4_utils]: blocks for the bytes of a file, the
    extents of its inode, and the chunks of the sparse file that fill the blocks.
    The sparse file is a library's; a chunk is what it is told. *)

From S2P Require Import Prelude Ext4Alloc Ext4Region.

(** Where the bytes of a chunk come from: a buffer in memory or a file of the host. *)
Inductive source := Buffer (id : nat) | FileData (name : list Z).

Record chunk := { c_src : source; c_off : Z; c_len : Z; c_block : Z }.

(** The groups, the buffers made so far, and the chunks told so far. *)
Record image := { im_bgs : list block_group_info; im_bufs : list (list Z); im_chunks : list chunk }.

Definition with_bgs (im : image) (bgs : list block_group_info) : image :=
  {| im_bgs := bgs; im_bufs := im_bufs im; im_chunks := im_chunks im |}.
Definition add_chunk (im : image) (c : chunk) : image :=
  {| im_bgs := im_bgs im; im_bufs := im_bufs im; im_chunks := im_chunks im ++ [c] |}.
(** A new buffer, and its number. *)
Definition new_buffer (im : image) (b : list Z) : nat * image :=
  (length (im_bufs im), {| im_bgs := im_bgs im; im_bufs := im_bufs im ++ [b]; im_chunks := im_chunks im |}).

Record ext4_inode := {
  i_mode : Z; i_uid : Z; i_size_lo : Z; i_atime : Z; i_ctime : Z; i_mtime : Z; i_gid : Z; i_links_count : Z;
  i_blocks_lo : Z; i_flags : Z; i_block : list Z; i_size_high : Z; i_blocks_high : Z;
}.

Definition EXT4_EXT_MAGIC : Z := 62218.
Definition EXT4_EXTENTS_FL : Z := 524288.

Definition DIV_ROUND_UP (x y : Z) : Z := (x + y - 1) / y.

(** [ext4_extent_header], [ext4_extent] and [ext4_extent_idx] in memory. *)
Definition extent_header (entries max depth : Z) : list Z :=
  le_bytes 2 EXT4_EXT_MAGIC ++ le_bytes 2 entries ++ le_bytes 2 max ++ le_bytes 2 depth ++ le_bytes 4 0.
Definition extent_entry (file_block len start : Z) : list Z :=
  le_bytes 4 file_block ++ le_bytes 2 len ++ le_bytes 2 0 ++ le_bytes 4 start.
Definition extent_idx (file_block leaf : Z) : list Z :=
  le_bytes 4 file_block ++ le_bytes 4 leaf ++ le_bytes 2 0 ++ le_bytes 2 0.

Section extents.
Context (g : geometry).

(** The loop that writes an extent for every region. *)
Fixpoint write_extents (fuel : nat) (a : block_allocation) (mem : list Z) (off file_block : Z)
    : outcome (block_allocation * list Z) :=
  if last_region a then Done (a, mem)
  else
    match fuel with
    | O => Undefined
    | S fuel =>
        '(region_block, region_len) ← get_region a;
        mem ← get (write_at off (extent_entry file_block region_len region_block) mem);
        a ← get_next_region a;
        write_extents fuel a mem (off + 12) (u32 (file_block + region_len))
    end.

(** The blocks of [do_inode_allocate_extents], one more than are needed: the number of
    regions, and the block for the extents when they do not fit into the inode. *)
Definition extents_blocks (block_len : Z) (im : image) : outcome (block_allocation * Z * Z * image) :=
  '(alloc, bgs) ← allocate_blocks (im_bgs im) (u32 (block_len + 1));
  match alloc with
  | None => Error
  | Some alloc =>
      allocation_len ← block_allocation_num_regions alloc;
      if allocation_len <=? 3 then
        '(alloc, bgs) ← reduce_allocation bgs alloc 1; Done (alloc, allocation_len, 0, with_bgs im bgs)
      else
        '(_, alloc) ← reserve_oob_blocks alloc 1;
        extent_block ← get_oob_block alloc 0; Done (alloc, allocation_len, extent_block, with_bgs im bgs)
  end.

(** The extents, in the inode or in a buffer of their own. *)
Definition extents_write (alloc : block_allocation) (allocation_len extent_block : Z) (i_block : list Z) (im : image)
    : outcome (block_allocation * list Z * image) :=
  if extent_block =? 0 then
    mem ← get (write_at 0 (extent_header allocation_len 3 0) i_block);
    '(alloc, mem) ← write_extents (S (length (nodes alloc))) alloc mem 12 0;
    Done (alloc, mem, im)
  else
    mem ← get (write_at 0 (extent_header 1 3 1 ++ extent_idx 0 extent_block) i_block);
    if swrap 32 (block_size g - 1) <? allocation_len then Error
    else
      data ← get (write_at 0 (extent_header allocation_len ((block_size g - 12) / 12) 0) (zeroes (block_size g)));
      '(alloc, data) ← write_extents (S (length (nodes alloc))) alloc data 12 0;
      let '(id, im) := new_buffer im data in
      Done (alloc, mem, add_chunk im {| c_src := Buffer id; c_off := 0; c_len := block_size g; c_block := extent_block |}).

Definition do_inode_allocate_extents (inode : ext4_inode) (len : Z) (im : image)
    : outcome (block_allocation * ext4_inode * image) :=
  let block_len := u32 (u64 (len + block_size g - 1) / block_size g) in
  '(alloc, allocation_len, extent_block, im) ← extents_blocks block_len im;
  '(alloc, i_block, im) ← extents_write alloc allocation_len extent_block (i_block inode) im;
  let block_len := if extent_block =? 0 then block_len else u32 (block_len + 1) in
  let blocks := u64 (block_len * block_size g) / 512 in
  Done (rewind_alloc alloc,
    {| i_mode := i_mode inode; i_uid := i_uid inode; i_size_lo := u32 len; i_atime := i_atime inode; i_ctime := i_ctime inode;
       i_mtime := i_mtime inode; i_gid := i_gid inode; i_links_count := i_links_count inode; i_blocks_lo := u32 blocks;
       i_flags := Z.lor (i_flags inode) EXT4_EXTENTS_FL; i_block := i_block; i_size_high := u32 (Z.shiftr len 32);
       i_blocks_high := u16 (Z.shiftr blocks 32) |}, im).

(** [extent_create_backing] and [extent_create_backing_file]: a chunk for every region. *)
Fixpoint back_regions (fuel : nat) (src : source) (a : block_allocation) (off backing_len : Z) (im : image)
    : outcome (block_allocation * image) :=
  if 0 <? backing_len then
    match fuel with
    | O => Undefined
    | S fuel =>
        '(region_block, region_len) ← get_region a;
        let len := u32 (Z.min (u32 (region_len * block_size g)) backing_len) in
        a ← get_next_region a;
        back_regions fuel src a (off + len) (backing_len - len)
          (add_chunk im {| c_src := src; c_off := off; c_len := len; c_block := region_block |})
    end
  else Done (a, im).

Definition extent_create_backing (a : block_allocation) (backing_len : Z) (im : image) : outcome (nat * block_allocation * image) :=
  let '(id, im) := new_buffer im (zeroes backing_len) in
  '(a, im) ← back_regions (S (length (nodes a))) (Buffer id) a 0 backing_len im;
  Done (id, a, im).

Definition extent_create_backing_file (a : block_allocation) (backing_len : Z) (filename : list Z) (im : image)
    : outcome (block_allocation * image) :=
  back_regions (S (length (nodes a))) (FileData filename) a 0 backing_len im.

(** The buffer of the data, if there is any. *)
Definition inode_allocate_data_extents (inode : ext4_inode) (len backing_len : Z) (im : image)
    : outcome (option nat * ext4_inode * image) :=
  '(a, inode, im) ← do_inode_allocate_extents inode len im;
  if backing_len =? 0 then Done (None, inode, im)
  else '(id, _, im) ← extent_create_backing a backing_len im; Done (Some id, inode, im).

Definition inode_allocate_file_extents (inode : ext4_inode) (len : Z) (filename : list Z) (im : image)
    : outcome (ext4_inode * image) :=
  '(a, inode, im) ← do_inode_allocate_extents inode len im;
  '(_, im) ← extent_create_backing_file a len filename im;
  Done (inode, im).

Definition inode_allocate_extents (inode : ext4_inode) (len : Z) (im : image) : outcome (ext4_inode * image) :=
  '(_, inode, im) ← do_inode_allocate_extents inode len im; Done (inode, im).
End extents.

(** ** Reading extents, as a kernel does *)

Definition field16 (b : list Z) (off : nat) : Z := le_value (take 2 (drop off b)).
Definition field32 (b : list Z) (off : nat) : Z := le_value (take 4 (drop off b)).

(** The extents of a node: the first block in the file, the length and the first block
    on the disk. *)
Fixpoint read_entries (n off : nat) (b : list Z) : list (Z * Z * Z) :=
  match n with
  | O => []
  | S n => (field32 b off, field16 b (off + 4), field32 b (off + 8) + field16 b (off + 6) * 2 ^ 32) :: read_entries n (off + 12) b
  end.

Definition find_extent (es : list (Z * Z * Z)) (fb : Z) : option Z :=
  match List.find (fun e => (e.1.1 <=? fb) && (fb <? e.1.1 + e.1.2)) es with
  | Some e => Some (e.2 + (fb - e.1.1))
  | None => None
  end.

Definition node_entries (b : list Z) : option (list (Z * Z * Z)) :=
  if field16 b 0 =? EXT4_EXT_MAGIC then Some (read_entries (Z.to_nat (field16 b 2)) 12 b) else None.

(** The block of the disk that holds a block of the file; [read] gives a block. *)
Definition ext4_find_block (read : Z -> list Z) (i_block : list Z) (fb : Z) : option Z :=
  if field16 i_block 6 =? 0 then es ← node_entries i_block; find_extent es fb
  else
    (* one index: the leaf of all blocks *)
    if (field16 i_block 0 =? EXT4_EXT_MAGIC) && (field16 i_block 2 =? 1) && (field16 i_block 6 =? 1) && (field32 i_block 12 <=? fb) then
      let leaf := read (field32 i_block 16 + field16 i_block 20 * 2 ^ 32) in
      if field16 leaf 6 =? 0 then es ← node_entries leaf; find_extent es fb else None
    else None.

(** ** What is written *)

Fixpoint enc_extents (fb : Z) (ps : list piece) : list Z :=
  match ps with
  | [] => []
  | p :: ps => extent_entry fb (p_len p) (p_block p) ++ enc_extents (fb + p_len p) ps
  end.

Lemma extent_entry_zlen fb n s : zlen (extent_entry fb n s) = 12.
Proof. unfold extent_entry, zlen. rewrite !length_app, !le_bytes_length. done. Qed.
Lemma extent_header_zlen e m d : zlen (extent_header e m d) = 12.
Proof. unfold extent_header, zlen. rewrite !length_app, !le_bytes_length. done. Qed.
Lemma extent_idx_zlen f l : zlen (extent_idx f l) = 12.
Proof. unfold extent_idx, zlen. rewrite !length_app, !le_bytes_length. done. Qed.
Lemma enc_extents_zlen fb ps : zlen (enc_extents fb ps) = 12 * zlen ps.
Proof.
  revert fb. induction ps as [|p ps IH]; intros fb; [done|]. cbn [enc_extents].
  rewrite zlen_app, extent_entry_zlen, IH, zlen_cons. lia.
Qed.

(** The iterator is at the start of pieces. *)
Definition at_pieces (a : block_allocation) (ps : list piece) : Prop :=
  chain (nodes a) (l_iter (a_list a)) ps /\ l_partial (a_list a) = 0.

(** Pieces whose numbers fit. *)
Definition pieces_fit (ps : list piece) : Prop :=
  Forall (fun p => 0 < p_len p < 2 ^ 16 /\ 0 <= p_block p /\ p_block p + p_len p < 2 ^ 32) ps.

Lemma region_step a p ps :
  at_pieces a (p :: ps) -> 0 <= p_len p < 2 ^ 32 ->
  last_region a = false /\ get_region a = Done (p_block p, p_len p) /\
  exists a', get_next_region a = Done a' /\ at_pieces a' ps /\ nodes a' = nodes a /\ l_first (a_list a') = l_first (a_list a).
Proof.
  intros [(i & r & Ei & Hi & E1 & E2 & H) Hp] Hl. unfold last_region, get_region, get_next_region, node. rewrite Ei.
  cbn [get mbind outcome_bind]. rewrite Hi. cbn [get mbind outcome_bind]. rewrite E1, E2, Hp, Z.sub_0_r, wrap_small by (unfold in_u; lia).
  split; [done|]. split; [done|]. eexists. split; [done|]. done.
Qed.

Lemma write_extents_ok fuel a ps pre rest fb :
  at_pieces a ps -> pieces_fit ps -> (length ps < fuel)%nat -> 12 * zlen ps <= zlen rest -> 0 <= fb ->
  fb + pieces_len ps < 2 ^ 32 ->
  exists a', write_extents fuel a (pre ++ rest) (zlen pre) fb =
      Done (a', pre ++ enc_extents fb ps ++ drop (12 * length ps) rest) /\
    nodes a' = nodes a /\ l_first (a_list a') = l_first (a_list a).
Proof.
  revert fuel a pre rest fb. induction ps as [|p ps IH]; intros fuel a pre rest fb Ha Hf Hfuel Hr Hfb Hlen.
  { exists a. destruct Ha as [Hc _]. cbn in Hc. destruct fuel as [|fuel]; [lia|]. cbn [write_extents].
    unfold last_region. rewrite Hc. done. }
  destruct fuel as [|fuel]; [cbn in Hfuel; lia|]. cbn [write_extents].
  apply Forall_cons in Hf as [Hp Hf]. destruct (region_step a p ps Ha ltac:(lia)) as (-> & -> & a' & E & Ha' & N & F).
  cbn [mbind outcome_bind]. rewrite zlen_cons in Hr.
  rewrite write_at_app by (rewrite extent_entry_zlen; pose proof (zlen_nonneg ps); lia). cbn [get mbind outcome_bind].
  rewrite E. cbn [mbind outcome_bind]. rewrite extent_entry_zlen.
  assert (0 <= pieces_len ps) as Hpl.
  { clear -Hf. induction Hf; unfold pieces_len in *; cbn; lia. }
  assert (pieces_len (p :: ps) = p_len p + pieces_len ps) as Epl by done.
  rewrite wrap_small by (unfold in_u; lia). change (Z.to_nat 12) with 12%nat.
  destruct (IH fuel a' (pre ++ extent_entry fb (p_len p) (p_block p)) (drop 12 rest) (fb + p_len p) Ha' Hf) as (a2 & E2 & N2 & F2);
    [cbn in Hfuel; lia|unfold zlen in *; rewrite length_drop; lia|lia|lia|].
  rewrite zlen_app, extent_entry_zlen in E2. rewrite (app_assoc pre), E2. exists a2.
  split; [|split; congruence]. cbn [enc_extents length]. rewrite <- !app_assoc, drop_drop.
  by replace (12 + 12 * length ps)%nat with (12 * S (length ps))%nat by lia.
Qed.

Lemma take_le n v (rest : list Z) : take n (le_bytes n v ++ rest) = le_bytes n v.
Proof. by rewrite take_app_length' by (by rewrite le_bytes_length). Qed.
Lemma drop_le n v (rest : list Z) : drop n (le_bytes n v ++ rest) = rest.
Proof. by rewrite drop_app_length' by (by rewrite le_bytes_length). Qed.

(** Fields that lie one after the other. *)
Lemma field_at (n : nat) v b off rest :
  drop off b = le_bytes n v ++ rest -> 0 <= v < 2 ^ (8 * Z.of_nat n) ->
  le_value (take n (drop off b)) = v /\ drop (off + n) b = rest.
Proof.
  intros H Hv. rewrite <- drop_drop, H, take_le, drop_le. split; [|done]. by apply le_value_bytes.
Qed.

Lemma entry_fields b off fb n s rest :
  drop off b = extent_entry fb n s ++ rest -> 0 <= fb < 2 ^ 32 -> 0 <= n < 2 ^ 16 -> 0 <= s < 2 ^ 32 ->
  field32 b off = fb /\ field16 b (off + 4) = n /\ field16 b (off + 6) = 0 /\ field32 b (off + 8) = s /\ drop (off + 12) b = rest.
Proof.
  unfold extent_entry, field16, field32. rewrite <- !app_assoc. intros H Hfb Hn Hs.
  destruct (field_at 4 _ _ _ _ H) as [-> H1]; [done|]. destruct (field_at 2 _ _ _ _ H1) as [-> H2]; [done|].
  replace (off + 4 + 2)%nat with (off + 6)%nat in H2 by lia. destruct (field_at 2 _ _ _ _ H2) as [-> H3]; [done|].
  replace (off + 6 + 2)%nat with (off + 8)%nat in H3 by lia. destruct (field_at 4 _ _ _ _ H3) as [-> H4]; [done|].
  by replace (off + 8 + 4)%nat with (off + 12)%nat in H4 by lia.
Qed.

Lemma header_fields b e m d rest :
  b = extent_header e m d ++ rest -> 0 <= e < 2 ^ 16 -> 0 <= m < 2 ^ 16 -> 0 <= d < 2 ^ 16 ->
  field16 b 0 = EXT4_EXT_MAGIC /\ field16 b 2 = e /\ field16 b 6 = d /\ drop 12 b = rest.
Proof.
  unfold extent_header, field16. rewrite <- !app_assoc. intros H He Hm Hd. change b with (drop 0 b) in H.
  destruct (field_at 2 _ _ _ _ H) as [-> H1]; [done|]. cbn [Nat.add] in H1.
  destruct (field_at 2 _ _ _ _ H1) as [-> H2]; [done|]. cbn [Nat.add] in H2.
  destruct (field_at 2 _ _ _ _ H2) as [_ H3]; [done|]. cbn [Nat.add] in H3.
  destruct (field_at 2 _ _ _ _ H3) as [-> H4]; [done|]. cbn [Nat.add] in H4.
  destruct (field_at 4 _ _ _ _ H4) as [_ H5]; [done|]. done.
Qed.

Fixpoint entries_of (fb : Z) (ps : list piece) : list (Z * Z * Z) :=
  match ps with [] => [] | p :: ps => (fb, p_len p, p_block p) :: entries_of (fb + p_len p) ps end.

Lemma pieces_len_nonneg ps : pieces_fit ps -> 0 <= pieces_len ps.
Proof. induction 1; unfold pieces_len in *; cbn; lia. Qed.

Lemma read_entries_ok ps fb off b rest :
  drop off b = enc_extents fb ps ++ rest -> pieces_fit ps -> 0 <= fb -> fb + pieces_len ps < 2 ^ 32 ->
  read_entries (length ps) off b = entries_of fb ps.
Proof.
  revert fb off. induction ps as [|p ps IH]; intros fb off H Hf Hfb Hl; [done|]. cbn [enc_extents length read_entries entries_of] in *.
  apply Forall_cons in Hf as [Hp Hf]. pose proof (pieces_len_nonneg ps Hf).
  assert (pieces_len (p :: ps) = p_len p + pieces_len ps) as E by done. rewrite <- app_assoc in H.
  destruct (entry_fields _ _ _ _ _ _ H) as (-> & -> & -> & -> & H1); [lia|lia|lia|].
  rewrite Z.mul_0_l, Z.add_0_r. f_equal. apply IH; [exact H1|done|lia|lia].
Qed.

Lemma find_extent_ok ps fb k :
  pieces_fit ps -> fb <= k < fb + pieces_len ps -> find_extent (entries_of fb ps) k = blocks_of ps !! Z.to_nat (k - fb).
Proof.
  revert fb. induction ps as [|p ps IH]; intros fb Hf Hk; [cbn in Hk; lia|]. apply Forall_cons in Hf as [Hp Hf].
  assert (pieces_len (p :: ps) = p_len p + pieces_len ps) as E by done.
  change (blocks_of (p :: ps)) with (piece_blocks p ++ blocks_of ps). unfold piece_blocks.
  unfold find_extent in *. cbn [entries_of List.find fst snd].
  destruct (Z.leb_spec fb k), (Z.ltb_spec k (fb + p_len p)); cbn [andb]; try lia.
  - rewrite lookup_app_l by (rewrite length_seqZ; lia). rewrite lookup_seqZ_lt by lia. f_equal. cbn. lia.
  - rewrite lookup_app_r by (rewrite length_seqZ; lia). rewrite length_seqZ, IH by (done || lia). f_equal. lia.
Qed.

(** A node with its header and its extents is read as the blocks of the pieces. *)
Lemma node_ok b m ps rest k :
  b = extent_header (zlen ps) m 0 ++ enc_extents 0 ps ++ rest -> pieces_fit ps -> zlen ps < 2 ^ 16 -> 0 <= m < 2 ^ 16 ->
  pieces_len ps < 2 ^ 32 -> 0 <= k < pieces_len ps ->
  field16 b 6 = 0 /\ (es ← node_entries b; find_extent es k) = blocks_of ps !! Z.to_nat k.
Proof.
  intros Hb Hf Hn Hm Hl Hk. pose proof (zlen_nonneg ps).
  destruct (header_fields _ _ _ _ _ Hb) as (H1 & H2 & H3 & H4); [lia|done|done|]. split; [done|].
  unfold node_entries. rewrite H1, Z.eqb_refl, H2. cbn [mbind option_bind]. unfold zlen. rewrite Nat2Z.id.
  rewrite (read_entries_ok ps 0 12 b rest H4) by (done || lia). rewrite find_extent_ok by (done || lia). by rewrite Z.sub_0_r.
Qed.

(** ** What the blocks of the image hold *)

Section reading.
Context (g : geometry) (host : list Z -> list Z).

Definition covers (c : chunk) (b : Z) : bool :=
  (c_block c <=? b) && (b <? c_block c + DIV_ROUND_UP (c_len c) (block_size g)).

Definition source_bytes (im : image) (s : source) : list Z :=
  match s with Buffer id => default [] (im_bufs im !! id) | FileData name => host name end.

(** What a block holds of a chunk; the last one of a chunk is padded. *)
Definition chunk_bytes (im : image) (c : chunk) (b : Z) : list Z :=
  let off := (b - c_block c) * block_size g in
  let n := Z.min (block_size g) (c_len c - off) in
  take (Z.to_nat n) (drop (Z.to_nat (c_off c + off)) (source_bytes im (c_src c))) ++ zeroes (block_size g - n).

Definition read_block (im : image) (b : Z) : list Z :=
  match List.find (fun c => covers c b) (im_chunks im) with
  | Some c => chunk_bytes im c b
  | None => zeroes (block_size g)
  end.

(** Chunks fill blocks that are used, from buffers that are there. *)
Definition chunks_ok (im : image) : Prop :=
  forall c, c ∈ im_chunks im ->
    (forall b, covers c b = true -> in_fs g b /\ block_used g (im_bgs im) b = true) /\
    (match c_src c with Buffer id => (id < length (im_bufs im))%nat | FileData _ => True end).

Lemma find_app {A} (f : A -> bool) l1 l2 :
  List.find f (l1 ++ l2) = match List.find f l1 with Some x => Some x | None => List.find f l2 end.
Proof. induction l1 as [|x l1 IH]; cbn; [done|]. destruct (f x); [done|apply IH]. Qed.

Lemma chunk_bytes_bufs im im' c b :
  (forall id, (id < length (im_bufs im))%nat -> im_bufs im' !! id = im_bufs im !! id) ->
  (match c_src c with Buffer id => (id < length (im_bufs im))%nat | FileData _ => True end) ->
  chunk_bytes im' c b = chunk_bytes im c b.
Proof. intros H Hc. unfold chunk_bytes, source_bytes. destruct (c_src c) as [id|]; [by rewrite H|done]. Qed.

(** A block that no new chunk covers holds what it held. *)
Lemma read_block_same im im' cs b :
  chunks_ok im -> im_chunks im' = im_chunks im ++ cs ->
  (forall id, (id < length (im_bufs im))%nat -> im_bufs im' !! id = im_bufs im !! id) ->
  (forall c, c ∈ cs -> covers c b = false) -> read_block im' b = read_block im b.
Proof.
  intros Hok Hc Hb Hn. unfold read_block. rewrite Hc, find_app.
  destruct (List.find _ (im_chunks im)) as [c|] eqn:E.
  - apply List.find_some in E as [Hin _]. apply chunk_bytes_bufs; [done|]. apply (Hok c). by apply list_elem_of_In.
  - destruct (List.find (fun c => covers c b) cs) as [c|] eqn:E2; [|done]. apply List.find_some in E2 as [Hin Hcov].
    rewrite Hn in Hcov; [done|by apply list_elem_of_In].
Qed.

(** A block that was free is read from the new chunks. *)
Lemma read_block_new im im' cs b :
  chunks_ok im -> im_chunks im' = im_chunks im ++ cs -> block_used g (im_bgs im) b = false ->
  read_block im' b = match List.find (fun c => covers c b) cs with
                     | Some c => chunk_bytes im' c b | None => zeroes (block_size g) end.
Proof.
  intros Hok Hc Hf. unfold read_block. rewrite Hc, find_app.
  destruct (List.find _ (im_chunks im)) as [c|] eqn:E; [|done].
  apply List.find_some in E as [Hin Hcov]. apply list_elem_of_In in Hin. destruct (Hok c Hin) as [Hu _].
  destruct (Hu b Hcov) as [_ Hu2]. congruence.
Qed.

Lemma div_round_up_mul n b : 0 < b -> DIV_ROUND_UP (n * b) b = n.
Proof. intros Hb. unfold DIV_ROUND_UP. replace (n * b + b - 1) with (b - 1 + n * b) by lia.
  rewrite Z.div_add by lia. rewrite Z.div_small by lia. lia. Qed.

Lemma div_round_up_lt k n b : 0 < b -> k < DIV_ROUND_UP n b <-> k * b < n.
Proof. intros Hb. unfold DIV_ROUND_UP. pose proof (Z.div_mod (n + b - 1) b ltac:(lia)). pose proof (Z.mod_pos_bound (n + b - 1) b ltac:(lia)). nia. Qed.

Lemma div_round_up_le k n b : 0 < b -> DIV_ROUND_UP n b <= k <-> n <= k * b.
Proof. intros Hb. pose proof (div_round_up_lt k n b Hb). lia. Qed.

Lemma covers_iff c b : 0 < block_size g ->
  covers c b = true <-> c_block c <= b /\ (b - c_block c) * block_size g < c_len c.
Proof.
  intros Hb. unfold covers. rewrite andb_true_iff, Z.leb_le, Z.ltb_lt. pose proof (div_round_up_lt (b - c_block c) (c_len c) _ Hb). lia.
Qed.

(** ** The chunks of a file *)

Fixpoint file_chunks (src : source) (off backing_len : Z) (ps : list piece) : list chunk :=
  match ps with
  | [] => []
  | p :: ps =>
      if 0 <? backing_len then
        let len := Z.min (p_len p * block_size g) backing_len in
        {| c_src := src; c_off := off; c_len := len; c_block := p_block p |} :: file_chunks src (off + len) (backing_len - len) ps
      else []
  end.

Definition add_chunks (im : image) (cs : list chunk) : image :=
  {| im_bgs := im_bgs im; im_bufs := im_bufs im; im_chunks := im_chunks im ++ cs |}.

Lemma file_chunks_done src off n ps : n <= 0 -> file_chunks src off n ps = [].
Proof. intros Hn. destruct ps as [|p ps]; [done|]. cbn. by rewrite (proj2 (Z.ltb_ge _ _)) by lia. Qed.

Lemma add_chunks_nil im : add_chunks im [] = im.
Proof. unfold add_chunks. rewrite app_nil_r. by destruct im. Qed.

Lemma back_regions_ok fuel src a off n im ps :
  at_pieces a ps -> Forall (fun p => 0 < p_len p /\ p_len p * block_size g < 2 ^ 32) ps -> 0 < block_size g ->
  (length ps < fuel)%nat -> n <= pieces_len ps * block_size g ->
  exists a', back_regions g fuel src a off n im = Done (a', add_chunks im (file_chunks src off n ps)).
Proof.
  revert fuel a off n im. induction ps as [|p ps IH]; intros fuel a off n im Ha Hf Hb Hfuel Hn.
  - cbn in Hn. exists a. destruct fuel; cbn [back_regions]; rewrite (proj2 (Z.ltb_ge _ _)) by lia; by rewrite add_chunks_nil.
  - destruct fuel as [|fuel]; [cbn in Hfuel; lia|]. cbn [back_regions file_chunks].
    destruct (Z.ltb_spec 0 n) as [H0|H0]; [|exists a; by rewrite add_chunks_nil].
    apply Forall_cons in Hf as [[Hp1 Hp2] Hf]. destruct (region_step a p ps Ha ltac:(nia)) as (_ & -> & a' & E & Ha' & _).
    cbn [mbind outcome_bind]. rewrite E. cbn [mbind outcome_bind].
    rewrite (wrap_small 32 (p_len p * block_size g)), wrap_small by (unfold in_u; nia).
    set (len := Z.min (p_len p * block_size g) n). set (c := {| c_src := src |}).
    assert (pieces_len (p :: ps) = p_len p + pieces_len ps) as Epl by done.
    destruct (decide (len = n)) as [El|Nl].
    + exists a'. rewrite El, Z.sub_diag, file_chunks_done by lia. destruct fuel; done.
    + destruct (IH fuel a' (off + len) (n - len) (add_chunk im c) Ha' Hf Hb) as (a2 & E2); [cbn in Hfuel; lia|nia|].
      exists a2. rewrite E2. unfold add_chunks, add_chunk. cbn. by rewrite <- app_assoc.
Qed.

Lemma blocks_of_cons p ps : blocks_of (p :: ps) = piece_blocks p ++ blocks_of ps.
Proof. done. Qed.
Lemma elem_piece p x : x ∈ piece_blocks p <-> p_block p <= x < p_block p + p_len p.
Proof. unfold piece_blocks. rewrite elem_of_seqZ. lia. Qed.

(** The chunks cover blocks of the pieces only. *)
Lemma file_chunks_covers src off n ps c b :
  0 < block_size g -> Forall (fun p => 0 < p_len p) ps ->
  c ∈ file_chunks src off n ps -> c_src c = src /\ (covers c b = true -> b ∈ blocks_of ps).
Proof.
  intros Hb. revert off n. induction ps as [|p ps IH]; intros off n Hp Hc; cbn in Hc; [set_solver|].
  apply Forall_cons in Hp as [Hp Hps]. destruct (Z.ltb_spec 0 n); [|set_solver]. rewrite blocks_of_cons.
  apply elem_of_cons in Hc as [->|Hc].
  - split; [done|]. intros Hcov%covers_iff; [|done]. cbn in Hcov. apply elem_of_app. left. apply elem_piece. nia.
  - destruct (IH _ _ Hps Hc) as [H1 H2]. split; [done|]. intros Hcov. apply elem_of_app. right. auto.
Qed.

(** Block [k] of the file is the [k]-th of the pieces, and holds its bytes. *)
Lemma file_chunks_read im src off n ps k b :
  0 < block_size g -> Forall (fun p => 0 < p_len p) ps -> NoDup (blocks_of ps) -> 0 <= k -> k * block_size g < n ->
  blocks_of ps !! Z.to_nat k = Some b ->
  exists c, List.find (fun c => covers c b) (file_chunks src off n ps) = Some c /\
    chunk_bytes im c b =
      (let m := Z.min (block_size g) (n - k * block_size g) in
       take (Z.to_nat m) (drop (Z.to_nat (off + k * block_size g)) (source_bytes im src)) ++ zeroes (block_size g - m)).
Proof.
  intros Hb. revert off n k. induction ps as [|p ps IH]; intros off n k Hp Hnd Hk Hkn E; [done|].
  apply Forall_cons in Hp as [Hp Hps]. rewrite blocks_of_cons in Hnd, E. apply NoDup_app in Hnd as (_ & Hdis & Hnd).
  cbn [file_chunks]. rewrite (proj2 (Z.ltb_lt 0 n)) by nia.
  set (len := Z.min (p_len p * block_size g) n). set (c := {| c_src := src |}).
  assert (length (piece_blocks p) = Z.to_nat (p_len p)) as Lp by apply length_seqZ.
  destruct (Z.ltb_spec k (p_len p)) as [Hlt|Hge].
  - rewrite lookup_app_l in E by lia. unfold piece_blocks in E. rewrite lookup_seqZ_lt in E by lia. injection E as <-.
    rewrite Z2Nat.id by done. cbn [List.find].
    assert (covers c (p_block p + k) = true) as -> by (apply covers_iff; [done|]; cbn; unfold len; nia).
    exists c. split; [done|]. unfold chunk_bytes. cbn [c c_block c_len c_off c_src].
    replace (p_block p + k - p_block p) with k by lia.
    assert (Z.min (block_size g) (len - k * block_size g) = Z.min (block_size g) (n - k * block_size g)) as Em by (unfold len; nia).
    by rewrite Em.
  - rewrite lookup_app_r, Lp in E by lia.
    assert (b ∉ piece_blocks p) as Hnb.
    { intros Hin. apply (Hdis b Hin). eapply list_elem_of_lookup_2, E. }
    cbn [List.find]. assert (covers c b = false) as ->.
    { apply not_true_is_false. intros Hcov%covers_iff; [|done]. cbn in Hcov. apply Hnb, elem_piece. unfold len in Hcov. nia. }
    assert (len = p_len p * block_size g) as El by (unfold len; nia).
    destruct (IH (off + len) (n - len) (k - p_len p)) as (c' & Hc' & Hr); [done|done|lia|nia| |].
    { rewrite <- E. f_equal. lia. }
    exists c'. split; [done|]. rewrite Hr, El. cbv zeta.
    replace (n - p_len p * block_size g - (k - p_len p) * block_size g) with (n - k * block_size g) by lia.
    by replace (off + p_len p * block_size g + (k - p_len p) * block_size g) with (off + k * block_size g) by lia.
Qed.
End reading.

(** ** Blocks for a file *)

Lemma pieces_blocks_zlen ps : Forall (fun p => 0 <= p_len p) ps -> zlen (blocks_of ps) = pieces_len ps.
Proof.
  induction 1 as [|p ps Hp _ IH]; [done|]. rewrite blocks_of_cons, zlen_app, IH. unfold zlen, piece_blocks.
  rewrite length_seqZ. unfold pieces_len. cbn. lia.
Qed.

(** The pieces an allocation takes lie in the file system, after a group's header, each
    in one group. *)
Definition piece_ok (g : geometry) (p : piece) : Prop :=
  0 < p_len p <= blocks_per_group g /\ 2 <= p_block p /\ p_block p + p_len p <= len_blocks g.

Lemma taken_pieces g bgs ps bgs' :
  geometry_ok g -> bgs_ok g bgs -> taken g bgs ps bgs' -> Forall (piece_ok g) ps.
Proof.
  intros G B T. induction T as [|bgs p bgs1 ps bgs2 bg bg' T P _ HT IH]; [done|].
  constructor; [|apply IH, T]. pose proof (bs_ok _ _ B _ _ (po_bg _ _ _ _ _ P)) as H.
  pose proof (po_nonneg _ _ _ _ _ P). rewrite Z2Nat.id in H by done. pose proof (po_len _ _ _ _ _ P).
  pose proof (tk_in _ _ _ _ _ T). pose proof (po_block _ _ _ _ _ P) as Eb. rewrite (bo_first _ _ _ H) in Eb.
  pose proof (bo_free _ _ _ H). pose proof (bo_ff _ _ _ H). pose proof (go_counts g G). pose proof (go_first g G).
  pose proof (go_bpg g G).
  unfold piece_ok, header_size, group_size, bg_start in *. destruct (ext4_bg_has_super_block g (p_bg p)); nia.
Qed.

(** The blocks of a file: those of its pieces, and perhaps one for the extents. *)
Definition new_blocks (leaf : Z) (ps : list piece) : list Z := (if leaf =? 0 then [] else [leaf]) ++ blocks_of ps.

(** [im'] has a file of [n] blocks more than [im]. *)
Record blocks_made (g : geometry) (im : image) (n leaf : Z) (ps : list piece) (bgs' : list block_group_info) : Prop := {
  bm_ok : bgs_ok g bgs';
  bm_len : pieces_len ps = n;
  bm_pieces : Forall (piece_ok g) ps;
  bm_free : forall x, x ∈ new_blocks leaf ps -> in_fs g x /\ block_used g (im_bgs im) x = false;
  bm_nodup : NoDup (new_blocks leaf ps);
  bm_used : forall x, in_fs g x ->
    block_used g bgs' x = block_used g (im_bgs im) x || bool_decide (x ∈ new_blocks leaf ps);
  bm_inodes : map inode_view bgs' = map inode_view (im_bgs im);
  bm_total : total_free bgs' = total_free (im_bgs im) - n - (if leaf =? 0 then 0 else 1);
}.

Lemma blocks_later p ps : 2 <= p_len p -> blocks_of (p :: ps) = p_block p :: blocks_of (later p :: ps).
Proof.
  intros Hl. rewrite !blocks_of_cons. unfold piece_blocks. cbn [later p_len p_block].
  rewrite (seqZ_cons (p_block p)) by lia. by rewrite Z.sub_1_r, Z.add_1_r.
Qed.

Lemma extents_blocks_ok g im n :
  geometry_ok g -> bgs_ok g (im_bgs im) -> 0 < n -> n + 1 <= total_free (im_bgs im) -> n + 1 < 2 ^ 32 ->
  2 <= largest (im_bgs im) ->
  exists a ps leaf bgs', extents_blocks n im = Done (a, zlen ps, leaf, with_bgs im bgs') /\
    blocks_made g im n leaf ps bgs' /\ at_pieces a ps /\ l_first (a_list a) = l_iter (a_list a) /\
    (length ps <= length (nodes a))%nat /\ zlen ps <= groups g /\ (leaf = 0 -> zlen ps <= 3) /\ 0 <= leaf < 2 ^ 32.
Proof.
  intros G B Hn Ht Hw Hlarge. unfold extents_blocks. rewrite wrap_small by (unfold in_u; lia).
  destruct (allocate_blocks_ok g (im_bgs im) (n + 1) G B ltac:(lia)) as (ps & bgs1 & -> & T & L & M). cbn [mbind outcome_bind].
  destruct ps as [|p ps]; [done|]. change {| nodes := _; a_list := _ |} with (alloc_of (p :: ps)).
  assert (2 <= p_len p) as Hp by lia. pose proof (taken_pieces g _ _ _ G B T) as HP.
  destruct (taken_blocks g _ _ _ G T B) as (B1 & F & N & U & I & Tot).
  assert (zlen (p :: ps) <= groups g) as Hgr.
  { pose proof (taken_count _ _ _ _ T). pose proof (groups_free_bound (im_bgs im)). pose proof (bs_len _ _ B). lia. }
  unfold block_allocation_num_regions. cbn [alloc_of nodes a_list l_first].
  rewrite (count_chain _ _ _ _ (chain_mk_all (p :: ps))) by (by rewrite mk_nodes_length). cbn [mbind outcome_bind].
  pose proof (Forall_inv HP) as [P1 [P2 P3]]. pose proof (go_len g G).
  pose proof (go_bpg g G).
  destruct (Z.leb_spec (zlen (p :: ps)) 3) as [H3|H3].
  - destruct (reduce_one g _ p ps _ G B T Hp) as (bgs2 & -> & B2 & U2 & I2 & T2). cbn [mbind outcome_bind].
    exists (alloc_of (shorter p :: ps)), (shorter p :: ps), 0, bgs2. rewrite !zlen_cons in *.
    destruct (blocks_shorter p ps 0 ltac:(lia) N) as [_ Hout].
    split; [done|]. split; [|split_and!; try done; try lia].
    + assert (pieces_len (p :: ps) = p_len p + pieces_len ps) as E by done.
      assert (pieces_len (shorter p :: ps) = p_len p - 1 + pieces_len ps) as E' by done.
      assert (forall x, x ∈ blocks_of (shorter p :: ps) -> x ∈ blocks_of (p :: ps)) as Hsub.
      { intros x Hx. destruct (blocks_shorter p ps x ltac:(lia) N) as [-> _]. by left. }
      constructor; [done|lia| |intros x Hx; by apply F, Hsub| |done|done|change (0 =? 0) with true; cbv iota; lia].
      * inv HP. constructor; [unfold piece_ok; cbn; lia|done].
      * change (NoDup (blocks_of (shorter p :: ps))). rewrite blocks_of_cons in *.
        apply NoDup_app in N as (_ & Hd & N). apply NoDup_app. split; [apply NoDup_seqZ|]. split; [|done].
        intros x Hx. apply Hd. apply elem_piece. apply elem_piece in Hx. cbn in Hx. lia.
    + split; [apply (chain_mk_all (shorter p :: ps))|done].
    + cbn [alloc_of nodes]. by rewrite mk_nodes_length.
  - destruct (reserve_one p ps Hp) as (a & -> & C & F1 & F2 & Hoob & Hlen); [lia|lia|]. cbn [mbind outcome_bind].
    rewrite Hoob. cbn [mbind outcome_bind]. exists a, (later p :: ps), (p_block p), bgs1. rewrite !zlen_cons in *.
    split; [done|]. split; [|split_and!; done || lia].
    assert (pieces_len (p :: ps) = p_len p + pieces_len ps) as E by done.
    assert (pieces_len (later p :: ps) = p_len p - 1 + pieces_len ps) as E' by done.
    assert (new_blocks (p_block p) (later p :: ps) = blocks_of (p :: ps)) as Eb.
    { unfold new_blocks. rewrite (proj2 (Z.eqb_neq _ _)) by lia. by rewrite (blocks_later p). }
    constructor; rewrite ?Eb; try done; try lia.
    + inv HP. constructor; [unfold piece_ok; cbn; lia|done].
    + rewrite (proj2 (Z.eqb_neq _ _)) by lia. lia.
Qed.

(** The image with a block of extents, if there is one. *)
Definition leaf_image (g : geometry) (im : image) (leaf : Z) (data : list Z) : image :=
  if leaf =? 0 then im
  else {| im_bgs := im_bgs im; im_bufs := im_bufs im ++ [data];
          im_chunks := im_chunks im ++ [{| c_src := Buffer (length (im_bufs im)); c_off := 0; c_len := block_size g; c_block := leaf |}] |}.

Lemma write_header (hdr mem : list Z) :
  zlen hdr <= zlen mem -> write_at 0 hdr mem = Some (hdr ++ drop (Z.to_nat (zlen hdr)) mem).
Proof. intros H. apply (write_at_app [] mem hdr). done. Qed.

Lemma extents_write_ok g a ps leaf ib im :
  at_pieces a ps -> pieces_fit ps -> (length ps <= length (nodes a))%nat -> pieces_len ps < 2 ^ 32 ->
  zlen ib = 60 -> (leaf = 0 -> zlen ps <= 3) -> 0 <= leaf < 2 ^ 32 ->
  12 * zlen ps + 12 <= block_size g <= 4096 ->
  exists a' mem data, extents_write g a (zlen ps) leaf ib im = Done (a', mem, leaf_image g im leaf data) /\
    nodes a' = nodes a /\ l_first (a_list a') = l_first (a_list a) /\ zlen mem = 60 /\ zlen data = block_size g /\
    forall read k, (leaf <> 0 -> read leaf = data) -> 0 <= k < pieces_len ps ->
      ext4_find_block read mem k = blocks_of ps !! Z.to_nat k.
Proof.
  intros Ha Hf Hn Hl Hib H3 Hleaf Hbs. unfold extents_write. pose proof (zlen_nonneg ps) as Hps.
  destruct (Z.eqb_spec leaf 0) as [->|Hne].
  - rewrite write_header by (rewrite extent_header_zlen; lia). cbn [get mbind outcome_bind].
    rewrite extent_header_zlen. change (Z.to_nat 12) with 12%nat.
    set (hdr := extent_header (zlen ps) 3 0). assert (zlen hdr = 12) as Eh by apply extent_header_zlen.
    assert (zlen (drop 12 ib) = 48) as Hd by (unfold zlen in *; rewrite length_drop; lia).
    destruct (write_extents_ok (S (length (nodes a))) a ps hdr (drop 12 ib) 0 Ha Hf) as (a' & E & N & F); [lia|lia|lia|lia|].
    rewrite Eh in E. rewrite E.
    cbn [mbind outcome_bind]. do 2 eexists. exists (zeroes (block_size g)). split; [done|]. split; [done|]. split; [done|].
    split; [|split; [apply zeroes_zlen; lia|]].
    + rewrite !zlen_app, enc_extents_zlen. unfold hdr. rewrite extent_header_zlen. unfold zlen in *. rewrite !length_drop in *. lia.
    + intros read k _ Hk. destruct (node_ok (hdr ++ enc_extents 0 ps ++ drop (12 * length ps) (drop 12 ib)) 3 ps _ k eq_refl Hf) as [H6 Hr]; [lia|lia|lia|lia|].
      unfold ext4_find_block. fold hdr in H6, Hr. by rewrite H6.
  - rewrite (write_header (extent_header 1 3 1 ++ extent_idx 0 leaf)) by (rewrite zlen_app, extent_header_zlen, extent_idx_zlen; lia). cbn [get mbind outcome_bind].
    rewrite zlen_app, extent_header_zlen, extent_idx_zlen. change (Z.to_nat (12 + 12)) with 24%nat.
    assert ((swrap 32 (block_size g - 1) <? zlen ps) = false) as ->.
    { rewrite swrap_small by (unfold in_s; lia). apply Z.ltb_ge. lia. }
    rewrite write_header by (rewrite extent_header_zlen, zeroes_zlen; lia). cbn [get mbind outcome_bind].
    rewrite extent_header_zlen. change (Z.to_nat 12) with 12%nat.
    set (m := (block_size g - 12) / 12). assert (0 <= m < 2 ^ 16) as Hm.
    { unfold m. split; [apply Z.div_pos; lia|]. apply Z.div_lt_upper_bound; lia. }
    set (hdr := extent_header (zlen ps) m 0). assert (zlen hdr = 12) as Eh by apply extent_header_zlen.
    set (z := drop 12 (zeroes (block_size g))).
    assert (zlen z = block_size g - 12) as Hz.
    { pose proof (zeroes_zlen (block_size g) ltac:(lia)). unfold z, zlen in *. rewrite length_drop. lia. }
    destruct (write_extents_ok (S (length (nodes a))) a ps hdr z 0 Ha Hf) as (a' & E & N & F); [lia|lia|lia|lia|].
    rewrite Eh in E. rewrite E.
    cbn [mbind outcome_bind new_buffer]. do 2 eexists. exists (hdr ++ enc_extents 0 ps ++ drop (12 * length ps) z).
    split; [unfold leaf_image; by rewrite (proj2 (Z.eqb_neq _ _)) by done|]. split; [done|]. split; [done|]. split; [|split].
    + unfold zlen in *. rewrite !length_app, length_drop. pose proof (extent_header_zlen 1 3 1). pose proof (extent_idx_zlen 0 leaf).
      unfold zlen in *. lia.
    + rewrite !zlen_app, enc_extents_zlen. unfold hdr. rewrite extent_header_zlen. unfold zlen in *. rewrite length_drop. lia.
    + intros read k Hread Hk. destruct (node_ok (hdr ++ enc_extents 0 ps ++ drop (12 * length ps) z) m ps _ k eq_refl Hf) as [H6 Hr]; [lia|lia|lia|lia|]. fold hdr in H6, Hr.
      unfold ext4_find_block. rewrite <- app_assoc.
      destruct (header_fields (extent_header 1 3 1 ++ extent_idx 0 leaf ++ drop 24 ib) 1 3 1 _ eq_refl) as (M1 & M2 & M3 & M4); [lia|lia|lia|]. rewrite M1, M2, M3.
      change (1 =? 0) with false. change (1 =? 1) with true. rewrite Z.eqb_refl. cbn [andb].
      unfold extent_idx in M4 |- *. rewrite <- !app_assoc in M4 |- *. unfold field32, field16.
      destruct (field_at 4 _ _ _ _ M4) as [-> M5]; [lia|]. cbn [Nat.add] in M5. destruct (field_at 4 _ _ _ _ M5) as [-> M6]; [lia|].
      cbn [Nat.add] in M6. destruct (field_at 2 _ _ _ _ M6) as [-> _]; [lia|].
      rewrite (proj2 (Z.leb_le _ _)) by lia. rewrite Z.mul_0_l, Z.add_0_r, Hread by done. unfold field16 in H6. by rewrite H6.
Qed.

(** ** An image with a file more *)

Definition leaf_chunks (g : geometry) (id : nat) (leaf : Z) : list chunk :=
  if leaf =? 0 then [] else [{| c_src := Buffer id; c_off := 0; c_len := block_size g; c_block := leaf |}].

(** [im'] has the chunks of a file of [blen] bytes of [src], in the pieces and the leaf. *)
Record file_added (g : geometry) (im : image) (leaf : Z) (ps : list piece) (data : list Z) (src : source) (blen : Z) (im' : image) : Prop := {
  fa_chunks : im_chunks im' = im_chunks im ++ leaf_chunks g (length (im_bufs im)) leaf ++ file_chunks g src 0 blen ps;
  fa_bufs : forall id, (id < length (im_bufs im))%nat -> im_bufs im' !! id = im_bufs im !! id;
  fa_leaf : leaf <> 0 -> im_bufs im' !! length (im_bufs im) = Some data;
  fa_src : match src with Buffer id => (id < length (im_bufs im'))%nat | FileData _ => True end;
}.

Lemma bs_pos g : geometry_ok g -> 0 < block_size g.
Proof. intros G. pose proof (go_bpg g G). lia. Qed.

Section added.
Context (g : geometry) (host : list Z -> list Z) (G : geometry_ok g).
Context (im im' : image) (n leaf : Z) (ps : list piece) (data : list Z) (src : source) (blen : Z).
Context (C : chunks_ok g im) (M : blocks_made g im n leaf ps (im_bgs im')) (A : file_added g im leaf ps data src blen im').
Context (Hd : zlen data = block_size g) (Hleaf : 0 <= leaf).

Lemma pieces_pos : Forall (fun p => 0 < p_len p) ps.
Proof. eapply Forall_impl; [apply (bm_pieces _ _ _ _ _ _ M)|]. intros p [? _]. lia. Qed.

Lemma leaf_covers c b : c ∈ leaf_chunks g (length (im_bufs im)) leaf -> covers g c b = true -> b = leaf /\ leaf <> 0.
Proof.
  unfold leaf_chunks. destruct (Z.eqb_spec leaf 0) as [|Hne]; [set_solver|]. intros ->%list_elem_of_singleton Hc.
  apply covers_iff in Hc; [|apply (bs_pos g G)]. cbn in Hc. pose proof (bs_pos g G). split; [nia|done].
Qed.

Lemma new_chunk_covers c b :
  c ∈ leaf_chunks g (length (im_bufs im)) leaf ++ file_chunks g src 0 blen ps -> covers g c b = true -> b ∈ new_blocks leaf ps.
Proof.
  unfold new_blocks. intros [Hc|Hc]%elem_of_app Hcov; apply elem_of_app.
  - destruct (leaf_covers c b Hc Hcov) as [-> Hne]. left. rewrite (proj2 (Z.eqb_neq _ _)) by done. set_solver.
  - right. by apply (file_chunks_covers g src 0 blen ps c b (bs_pos g G) pieces_pos Hc).
Qed.

Lemma added_used b : in_fs g b -> block_used g (im_bgs im) b = true ->
  block_used g (im_bgs im') b = true /\ read_block g host im' b = read_block g host im b.
Proof.
  intros Hin Hu. split; [by rewrite (bm_used _ _ _ _ _ _ M), Hu|].
  apply (read_block_same g host im im' _ b C (fa_chunks _ _ _ _ _ _ _ _ A) (fa_bufs _ _ _ _ _ _ _ _ A)).
  intros c Hc. apply not_true_is_false. intros Hcov. destruct (bm_free _ _ _ _ _ _ M b) as [_ Hf]; [|congruence].
  by apply (new_chunk_covers c).
Qed.

Lemma added_chunks_ok : chunks_ok g im'.
Proof.
  intros c Hc. rewrite (fa_chunks _ _ _ _ _ _ _ _ A) in Hc. apply elem_of_app in Hc as [Hc|Hc].
  - destruct (C c Hc) as [H1 H2]. split.
    + intros b Hb. destruct (H1 b Hb) as [Hin Hu]. split; [done|]. rewrite (bm_used _ _ _ _ _ _ M), Hu by done. done.
    + destruct (c_src c) as [id|]; [|done]. apply (lookup_lt_is_Some_1 (im_bufs im')).
      rewrite (fa_bufs _ _ _ _ _ _ _ _ A) by done. by apply lookup_lt_is_Some_2.
  - split.
    + intros b Hb. pose proof (new_chunk_covers c b Hc Hb) as Hn. destruct (bm_free _ _ _ _ _ _ M b Hn) as [Hin _].
      split; [done|]. rewrite (bm_used _ _ _ _ _ _ M) by done. rewrite bool_decide_true by done. apply orb_true_r.
    + apply elem_of_app in Hc as [Hc|Hc].
      * unfold leaf_chunks in Hc. destruct (Z.eqb_spec leaf 0) as [|Hne]; [set_solver|]. apply list_elem_of_singleton in Hc as ->. cbn.
        apply (lookup_lt_is_Some_1 (im_bufs im')). by rewrite (fa_leaf _ _ _ _ _ _ _ _ A).
      * destruct (file_chunks_covers g src 0 blen ps c 0 (bs_pos g G) pieces_pos Hc) as [-> _]. apply (fa_src _ _ _ _ _ _ _ _ A).
Qed.

Lemma added_leaf : leaf <> 0 -> read_block g host im' leaf = data.
Proof.
  intros Hne. destruct (bm_free _ _ _ _ _ _ M leaf) as [_ Hf].
  { unfold new_blocks. rewrite (proj2 (Z.eqb_neq _ _)) by done. set_solver. }
  rewrite (read_block_new g host im im' _ leaf C (fa_chunks _ _ _ _ _ _ _ _ A) Hf). unfold leaf_chunks.
  rewrite (proj2 (Z.eqb_neq _ _)) by done. cbn [app List.find]. pose proof (bs_pos g G) as Hb.
  set (c := {| c_src := _ |}). assert (covers g c leaf = true) as -> by (apply covers_iff; [done|]; cbn; lia).
  unfold chunk_bytes, source_bytes. cbn. rewrite (fa_leaf _ _ _ _ _ _ _ _ A) by done. cbn.
  rewrite Z.sub_diag, Z.mul_0_l, Z.sub_0_r, Z.min_id, Z.sub_diag. cbn. rewrite drop_0, app_nil_r. apply take_ge. unfold zlen in Hd. lia.
Qed.

Lemma added_block k b :
  0 <= k -> k * block_size g < blen -> blocks_of ps !! Z.to_nat k = Some b ->
  read_block g host im' b =
    (let m := Z.min (block_size g) (blen - k * block_size g) in
     take (Z.to_nat m) (drop (Z.to_nat (k * block_size g)) (source_bytes host im' src)) ++ zeroes (block_size g - m)).
Proof.
  intros Hk Hkb E. pose proof (list_elem_of_lookup_2 _ _ _ E) as Hin.
  pose proof (bm_nodup _ _ _ _ _ _ M) as Hnd. unfold new_blocks in Hnd.
  assert (b ∈ new_blocks leaf ps) as Hn by (apply elem_of_app; by right).
  destruct (bm_free _ _ _ _ _ _ M b Hn) as [_ Hf].
  rewrite (read_block_new g host im im' _ b C (fa_chunks _ _ _ _ _ _ _ _ A) Hf), find_app.
  destruct (List.find _ (leaf_chunks _ _ _)) as [c|] eqn:Ec.
  - apply List.find_some in Ec as [Hc Hcov]. apply list_elem_of_In in Hc. destruct (leaf_covers c b Hc Hcov) as [-> Hne].
    rewrite (proj2 (Z.eqb_neq _ _)) in Hnd by done. apply NoDup_cons in Hnd as [Hnd _]. done.
  - assert (NoDup (blocks_of ps)) as Hnd2 by (apply NoDup_app in Hnd; tauto).
    destruct (file_chunks_read g host im' src 0 blen ps k b (bs_pos g G) pieces_pos Hnd2 Hk Hkb E) as (c & -> & ->). done.
Qed.
End added.

(** ** Files *)

(** What the limits of a file are: it fits into the free blocks, with one to spare, and
    its extents into a block. *)
Record file_fits (g : geometry) (im : image) (inode : ext4_inode) (len : Z) : Prop := {
  ff_geometry : geometry_ok g;
  ff_groups : bgs_ok g (im_bgs im);
  ff_chunks : chunks_ok g im;
  ff_extents : 12 * groups g + 12 <= block_size g <= 4096;
  ff_inode : zlen (i_block inode) = 60;
  ff_len : 0 < len < 2 ^ 63;
  ff_room : DIV_ROUND_UP len (block_size g) + 1 <= total_free (im_bgs im);
  ff_width : DIV_ROUND_UP len (block_size g) + 1 < 2 ^ 32;
  ff_large : 2 <= largest (im_bgs im);
}.

Lemma do_inode_ok g inode len im :
  file_fits g im inode len ->
  exists a inode' ps leaf bgs' data,
    do_inode_allocate_extents g inode len im = Done (a, inode', leaf_image g (with_bgs im bgs') leaf data) /\
    blocks_made g im (DIV_ROUND_UP len (block_size g)) leaf ps bgs' /\ at_pieces a ps /\ (length ps <= length (nodes a))%nat /\
    zlen data = block_size g /\ 0 <= leaf /\
    i_size_lo inode' + i_size_high inode' * 2 ^ 32 = len /\ zlen (i_block inode') = 60 /\
    forall read k, (leaf <> 0 -> read leaf = data) -> 0 <= k < DIV_ROUND_UP len (block_size g) ->
      ext4_find_block read (i_block inode') k = blocks_of ps !! Z.to_nat k.
Proof.
  intros [G B C He Hi Hl Hr Hw Hla]. unfold do_inode_allocate_extents.
  set (n := DIV_ROUND_UP len (block_size g)) in *.
  pose proof (bs_pos g G) as Hb. assert (0 < n) as Hn. { apply (proj2 (div_round_up_lt 0 len (block_size g) Hb)). lia. }
  assert (u32 (u64 (len + block_size g - 1) / block_size g) = n) as ->.
  { rewrite (wrap_small 64) by (unfold in_u; lia). apply wrap_small. unfold in_u. unfold n, DIV_ROUND_UP in *. lia. }
  destruct (extents_blocks_ok g im n G B Hn Hr Hw Hla) as (a & ps & leaf & bgs' & -> & M & Ha & F & L & Hg & H3 & Hleaf).
  cbn [mbind outcome_bind]. pose proof (bm_len _ _ _ _ _ _ M) as Hlen. pose proof (go_len g G). pose proof (go_bpg g G).
  assert (pieces_fit ps) as Hf.
  { eapply Forall_impl; [apply (bm_pieces _ _ _ _ _ _ M)|]. intros p (P1 & P2 & P3). lia. }
  destruct (extents_write_ok g a ps leaf (i_block inode) (with_bgs im bgs') Ha Hf L) as (a' & mem & data & -> & N & F' & Hm & Hd & Hread);
    [lia|done|done|done|lia|]. cbn [mbind outcome_bind].
  do 2 eexists. exists ps, leaf, bgs', data. split; [done|]. split; [done|]. cbn [i_size_lo i_size_high i_block].
  destruct Ha as [Hc Hp]. split; [split; [|done]|].
  { cbn [rewind_alloc nodes a_list with_iter l_iter]. by rewrite N, F', F. }
  split; [cbn [rewind_alloc nodes]; by rewrite N|]. split; [done|]. split; [lia|]. split; [|split; [done|]].
  - rewrite (wrap_small 32 (Z.shiftr len 32)); [|unfold in_u; rewrite Z.shiftr_div_pow2 by lia].
    + rewrite Z.shiftr_div_pow2 by lia. unfold wrap. pose proof (Z.div_mod len (2 ^ 32) ltac:(lia)). lia.
    + split; [apply Z.div_pos; lia|apply Z.div_lt_upper_bound; lia].
  - intros read k Hk1 Hk2. apply Hread; [done|lia].
Qed.

Lemma leaf_image_fields g im leaf data :
  im_bgs (leaf_image g im leaf data) = im_bgs im /\
  im_chunks (leaf_image g im leaf data) = im_chunks im ++ leaf_chunks g (length (im_bufs im)) leaf /\
  (forall id, (id < length (im_bufs im))%nat -> im_bufs (leaf_image g im leaf data) !! id = im_bufs im !! id) /\
  (leaf <> 0 -> im_bufs (leaf_image g im leaf data) !! length (im_bufs im) = Some data).
Proof.
  unfold leaf_image, leaf_chunks. destruct (Z.eqb_spec leaf 0) as [->|Hne]; cbn.
  - split_and!; [done|by rewrite app_nil_r|done|done].
  - split_and!; [done|done| |].
    + intros id Hid. by apply lookup_app_l.
    + intros _. by rewrite lookup_app_r, Nat.sub_diag.
Qed.

Lemma pieces_back g ps n leaf im bgs' :
  geometry_ok g -> block_size g <= 4096 -> blocks_made g im n leaf ps bgs' ->
  Forall (fun p => 0 < p_len p /\ p_len p * block_size g < 2 ^ 32) ps.
Proof.
  intros G Hb M. eapply Forall_impl; [apply (bm_pieces _ _ _ _ _ _ M)|]. intros p (P1 & _). pose proof (go_bpg g G). nia.
Qed.

(** C32: A file of the host that is put into the image is read from it by the extents of
    its inode: a block of the file is a block of the file system that was free, and holds the
    bytes of the file, the last one padded with zeroes.  Every block used before stays used
    and holds what it held, and the image stays one whose chunks fill used blocks. *)
Theorem file_extents_read_back g host inode len filename im :
  file_fits g im inode len ->
  exists inode' im', inode_allocate_file_extents g inode len filename im = Done (inode', im') /\
    bgs_ok g (im_bgs im') /\ chunks_ok g im' /\
    i_size_lo inode' + i_size_high inode' * 2 ^ 32 = len /\
    (forall k, 0 <= k -> k * block_size g < len ->
       exists b, ext4_find_block (read_block g host im') (i_block inode') k = Some b /\
         in_fs g b /\ block_used g (im_bgs im) b = false /\
         let m := Z.min (block_size g) (len - k * block_size g) in
         read_block g host im' b =
           take (Z.to_nat m) (drop (Z.to_nat (k * block_size g)) (host filename)) ++ zeroes (block_size g - m)) /\
    (forall b, in_fs g b -> block_used g (im_bgs im) b = true ->
       block_used g (im_bgs im') b = true /\ read_block g host im' b = read_block g host im b).
Proof.
  intros H. destruct (do_inode_ok g inode len im H) as (a & inode' & ps & leaf & bgs' & data & E & M & Ha & L & Hd & Hleaf & Hsz & _ & Hread).
  destruct H as [G B C He Hi Hl Hr Hw Hla]. pose proof (bs_pos g G) as Hb.
  unfold inode_allocate_file_extents, extent_create_backing_file. rewrite E. cbn [mbind outcome_bind].
  pose proof (bm_len _ _ _ _ _ _ M) as Hlen. pose proof (div_round_up_le (pieces_len ps) len (block_size g) Hb) as Hup.
  destruct (back_regions_ok g (S (length (nodes a))) (FileData filename) a 0 len (leaf_image g (with_bgs im bgs') leaf data) ps Ha)
    as (a' & ->); [apply (pieces_back g ps _ leaf im bgs' G ltac:(lia) M)|done|lia|lia|]. cbn [mbind outcome_bind].
  set (im' := add_chunks _ _). destruct (leaf_image_fields g (with_bgs im bgs') leaf data) as (F1 & F2 & F3 & F4).
  assert (file_added g im leaf ps data (FileData filename) len im') as A.
  { constructor; [|exact F3|exact F4|done]. cbn. rewrite F2. by rewrite <- app_assoc. }
  assert (im_bgs im' = bgs') as Eb by exact F1. rewrite <- Eb in M.
  exists inode', im'. split; [done|]. split; [rewrite Eb in M |- *; apply (bm_ok _ _ _ _ _ _ M)|].
  split; [by eapply added_chunks_ok|]. split; [done|]. split.
  - intros k Hk Hkl. pose proof (div_round_up_lt k len _ Hb) as Hkn.
    assert (exists b, blocks_of ps !! Z.to_nat k = Some b) as [b Hbk].
    { apply lookup_lt_is_Some_2. pose proof (pieces_blocks_zlen ps) as Hz. unfold zlen in Hz.
      rewrite <- (Nat2Z.id (length _)), Hz by (eapply Forall_impl; [apply (bm_pieces _ _ _ _ _ _ M)|]; intros p [? _]; lia). lia. }
    exists b. split; [rewrite Hread; [done| |lia]|].
    + intros Hne. by eapply added_leaf.
    + assert (b ∈ new_blocks leaf ps) as Hin by (apply elem_of_app; right; eapply list_elem_of_lookup_2, Hbk).
      destruct (bm_free _ _ _ _ _ _ M b Hin) as [H1 H2]. split; [done|]. split; [done|].
      erewrite added_block; try eassumption; done.
  - intros b Hin Hu. by eapply added_used.
Qed.

(** A file system of four groups, where a file of fifty blocks takes four regions, so that
    its extents have a block of their own. *)
Definition sample_geometry : geometry :=
  {| block_size := 64; blocks_per_group := 20; inodes_per_group := 8; inode_size := 256; bg_desc_reserve_blocks := 0;
     sparse_super := true; first_data_block := 0; len_blocks := 80; inode_table_blocks := 2; groups := 4; bg_desc_blocks := 1 |}.

Definition sample_image : image :=
  {| im_bgs := match block_allocator_init sample_geometry with Done (bgs, _) => bgs | _ => [] end; im_bufs := []; im_chunks := [] |}.

Definition sample_inode : ext4_inode :=
  {| i_mode := 0; i_uid := 0; i_size_lo := 0; i_atime := 0; i_ctime := 0; i_mtime := 0; i_gid := 0; i_links_count := 0;
     i_blocks_lo := 0; i_flags := 0; i_block := zeroes 60; i_size_high := 0; i_blocks_high := 0 |}.

Lemma sample_geometry_ok : geometry_ok sample_geometry.
Proof.
  constructor; try (cbn; lia); try by vm_compute. intros i Hi. cbn in Hi.
  assert (i = 0 \/ i = 1 \/ i = 2 \/ i = 3) as [->|[->|[->| ->]]] by lia; by vm_compute.
Qed.

Lemma sample_groups_ok : bgs_ok sample_geometry (im_bgs sample_image).
Proof. cbn [sample_image im_bgs]. by destruct (block_allocator_init_ok sample_geometry sample_geometry_ok) as (bgs & -> & H). Qed.

Lemma file_extents_read_back_witness :
  file_fits sample_geometry sample_image sample_inode 3200 /\
  exists inode' im',
    inode_allocate_file_extents sample_geometry sample_inode 3200 [102] sample_image = Done (inode', im') /\
    (exists b, ext4_find_block (read_block sample_geometry (fun _ => replicate 3200 7) im') (i_block inode') 49 = Some b /\
       read_block sample_geometry (fun _ => replicate 3200 7) im' b = replicate 64 7).
Proof.
  assert (file_fits sample_geometry sample_image sample_inode 3200) as H.
  { constructor; [apply sample_geometry_ok|apply sample_groups_ok|intros c Hc; by apply not_elem_of_nil in Hc| | | | | |];
      by vm_compute. }
  split; [exact H|].
  destruct (file_extents_read_back sample_geometry (fun _ => replicate 3200 7) sample_inode 3200 [102] sample_image H)
    as (inode' & im' & E & _ & _ & _ & K & _).
  exists inode', im'. split; [exact E|]. destruct (K 49) as (b & Hb & _ & _ & Hr); [lia|by vm_compute|].
  exists b. split; [exact Hb|]. rewrite Hr. by vm_compute.
Defined.
