(* ===== verification/Ext4Dir.v ===== *)
(** * Directories

    Models the directory blocks of [contents.c] of [android/ext4_utils]: the size of a
    directory, its entries one after the other in a buffer, none across the end of a block,
    and the inode numbers filled in later through pointers. *)

From S2P Require Import Prelude Ext4Alloc Ext4Region Ext4Extent.

Definition EXT4_FT_REG_FILE : Z := 1.
Definition EXT4_FT_DIR : Z := 2.
Definition EXT4_FT_SYMLINK : Z := 7.

Definition ALIGN (x y : Z) : Z := y * DIV_ROUND_UP x y.

(** What [make_directory] uses of a [struct dentry]. *)
Record dentry := { filename : list Z; file_type : Z }.

Section dirs.
Context (bs : Z).

Fixpoint dentry_size_from (len : Z) (dentries : list dentry) : Z :=
  match dentries with
  | [] => len
  | d :: ds =>
      let dentry_len := 8 + ALIGN (zlen (filename d)) 4 in
      let len := if bs <? len mod bs + dentry_len then u32 (len + (bs - len mod bs)) else len in
      dentry_size_from (u32 (len + dentry_len)) ds
  end.
Definition dentry_size (dentries : list dentry) : Z := dentry_size_from 24 dentries.

(** The data, the offset behind the new entry, and the place of the entry. *)
Definition add_dentry (data : list Z) (offset : Z) (prev : option Z) (inode : Z) (name : list Z) (file_type : Z)
    : outcome (list Z * Z * Z) :=
  let name_len := u8 (zlen name) in
  let rec_len := u16 (8 + ALIGN name_len 4) in
  let start_block := offset / bs in
  let end_block := u32 (offset + rec_len - 1) / bs in
  '(data, offset) ←
    (if start_block =? end_block then Done (data, offset)
     else
       match prev with
       | None => Error
       | Some p =>
           data ← get (write_at (p + 4)
             (le_bytes 2 (u16 (field16 data (Z.to_nat (p + 4)) + u32 (u32 (end_block * bs) - offset)))) data);
           Done (data, u32 (end_block * bs))
       end);
  data ← get (write_at offset
    (le_bytes 4 inode ++ le_bytes 2 rec_len ++ [name_len; file_type] ++ take (Z.to_nat name_len) name) data);
  Done (data, u32 (offset + rec_len), offset).

(** The loop of [make_directory] over the entries: the data, the offset, the last entry
    and the places of all. *)
Fixpoint add_dentries (len : Z) (data : list Z) (offset : Z) (prev : Z) (dentries : list dentry)
    : outcome (list Z * Z * Z * list Z) :=
  match dentries with
  | [] => Done (data, offset, prev, [])
  | d :: ds =>
      '(data, offset, p) ← add_dentry data offset (Some prev) 0 (filename d) (file_type d);
      if (len <? offset) || ((offset =? len) && negb (match ds with [] => true | _ => false end)) then Error
      else
        '(data, offset, prev, ps) ← add_dentries len data offset p ds;
        Done (data, offset, prev, p :: ps)
  end.

(** The buffer of a directory, which starts with zeroes. *)
Definition fill_directory (len inode_num dir_inode_num : Z) (dentries : list dentry) (data : list Z)
    : outcome (list Z * list Z) :=
  '(data, offset, p) ← add_dentry data 0 None inode_num [46] EXT4_FT_DIR;
  '(data, offset, p) ← add_dentry data offset (Some p) dir_inode_num [46; 46] EXT4_FT_DIR;
  '(data, offset, p, ps) ← add_dentries len data offset p dentries;
  data ← get (write_at (p + 4) (le_bytes 2 (u16 (field16 data (Z.to_nat (p + 4)) + u32 (len - offset)))) data);
  Done (data, ps).

(** [*dentries[i].inode = inode]. *)
Definition set_dentry_inode (data : list Z) (p inode : Z) : outcome (list Z) := get (write_at p (le_bytes 4 inode) data).

(** ** Reading a directory, as a kernel does *)

(** The entries in use, or nothing when a record is not sound. *)
Fixpoint read_dir (fuel : nat) (data : list Z) (pos : Z) : option (list (Z * Z * list Z)) :=
  if pos =? zlen data then Some []
  else
    match fuel with
    | O => None
    | S fuel =>
        let b := drop (Z.to_nat pos) data in
        let rec_len := field16 b 4 in
        let name_len := nth 6 b 0 in
        if (12 <=? rec_len) && (rec_len mod 4 =? 0) && (8 + name_len <=? rec_len) && (pos mod bs + rec_len <=? bs) && (pos + rec_len <=? zlen data) then
          match read_dir fuel data (pos + rec_len) with
          | Some es =>
              Some (if field32 b 0 =? 0 then es
                    else (field32 b 0, nth 7 b 0, take (Z.to_nat name_len) (drop 8 b)) :: es)
          | None => None
          end
        else None
    end.

Definition list_dir (data : list Z) : option (list (Z * Z * list Z)) := read_dir (S (length data)) data 0.

(** ** Records *)

Record dent := { d_ino : Z; d_rec : Z; d_type : Z; d_name : list Z }.

Definition enc_dent (d : dent) : list Z :=
  le_bytes 4 (d_ino d) ++ le_bytes 2 (d_rec d) ++ [zlen (d_name d); d_type d] ++ d_name d ++
  zeroes (d_rec d - 8 - zlen (d_name d)).
Definition enc_dents (ds : list dent) : list Z := concat (map enc_dent ds).
Definition dents_len (ds : list dent) : Z := foldr (fun d n => d_rec d + n) 0 ds.

Record dent_ok (d : dent) : Prop := {
  dk_ino : 0 <= d_ino d < 2 ^ 32;
  dk_name : 0 < zlen (d_name d) < 256;
  dk_rec : 8 + zlen (d_name d) <= d_rec d < 2 ^ 16;
  dk_align : (d_rec d) mod 4 = 0;
}.

(** Records that start at an offset and do not cross the end of a block. *)
Fixpoint dents_ok (pos : Z) (ds : list dent) : Prop :=
  match ds with
  | [] => True
  | d :: ds => dent_ok d /\ pos mod bs + d_rec d <= bs /\ dents_ok (pos + d_rec d) ds
  end.
End dirs.

(** ** Records and offsets *)

Lemma enc_dent_zlen d : dent_ok d -> zlen (enc_dent d) = d_rec d.
Proof.
  intros H. pose proof (dk_rec _ H). unfold enc_dent. rewrite !zlen_app, zeroes_zlen by lia.
  unfold zlen at 1 2 3. rewrite !le_bytes_length. cbn. lia.
Qed.

Lemma enc_dents_app a b : enc_dents (a ++ b) = enc_dents a ++ enc_dents b.
Proof. unfold enc_dents. by rewrite map_app, concat_app. Qed.
Lemma enc_dents_one d : enc_dents [d] = enc_dent d.
Proof. unfold enc_dents. cbn [map concat]. apply app_nil_r. Qed.
Lemma enc_dents_cons d ds : enc_dents (d :: ds) = enc_dent d ++ enc_dents ds.
Proof. done. Qed.
Lemma dents_len_cons d ds : dents_len (d :: ds) = d_rec d + dents_len ds.
Proof. done. Qed.
Lemma dents_len_app a b : dents_len (a ++ b) = dents_len a + dents_len b.
Proof. induction a as [|d a IH]; [done|]. unfold dents_len in *. cbn. rewrite IH. lia. Qed.

Lemma dents_ok_app bs pos a b : dents_ok bs pos (a ++ b) <-> dents_ok bs pos a /\ dents_ok bs (pos + dents_len a) b.
Proof.
  revert pos. induction a as [|d a IH]; intros pos; cbn [app dents_ok].
  - unfold dents_len. cbn. rewrite Z.add_0_r. tauto.
  - rewrite IH, dents_len_cons, Z.add_assoc. tauto.
Qed.

Lemma dents_facts bs pos ds :
  dents_ok bs pos ds -> zlen (enc_dents ds) = dents_len ds /\ dents_len ds mod 4 = 0 /\ 12 * zlen ds <= dents_len ds.
Proof.
  revert pos. induction ds as [|d ds IH]; intros pos H; [done|]. destruct H as (H & _ & Hs).
  destruct (IH _ Hs) as (L & A & M). rewrite enc_dents_cons, dents_len_cons, zlen_app, enc_dent_zlen, L, zlen_cons by done.
  pose proof (dk_rec _ H). pose proof (dk_name _ H). pose proof (dk_align _ H). split; [done|]. split; [|].
  - rewrite Z.add_mod, dk_align, A by done. done.
  - pose proof (Z.div_mod (d_rec d) 4 ltac:(lia)). lia.
Qed.

Lemma zeroes_app a b : 0 <= a -> 0 <= b -> zeroes a ++ zeroes b = zeroes (a + b).
Proof. intros Ha Hb. unfold zeroes. rewrite <- replicate_add. f_equal. lia. Qed.
Lemma zeroes_drop n k : 0 <= k -> drop (Z.to_nat k) (zeroes n) = zeroes (n - k).
Proof. intros Hk. unfold zeroes. rewrite drop_replicate. f_equal. lia. Qed.

Definition with_rec (d : dent) (r : Z) : dent := {| d_ino := d_ino d; d_rec := r; d_type := d_type d; d_name := d_name d |}.
Definition with_ino (d : dent) (i : Z) : dent := {| d_ino := i; d_rec := d_rec d; d_type := d_type d; d_name := d_name d |}.

Lemma field_dent pre d rest :
  dent_ok d ->
  field32 (drop (Z.to_nat (zlen pre)) (pre ++ enc_dent d ++ rest)) 0 = d_ino d /\
  field16 (pre ++ enc_dent d ++ rest) (Z.to_nat (zlen pre + 4)) = d_rec d /\
  field16 (drop (Z.to_nat (zlen pre)) (pre ++ enc_dent d ++ rest)) 4 = d_rec d /\
  nth 6 (drop (Z.to_nat (zlen pre)) (pre ++ enc_dent d ++ rest)) 0 = zlen (d_name d) /\
  nth 7 (drop (Z.to_nat (zlen pre)) (pre ++ enc_dent d ++ rest)) 0 = d_type d /\
  take (Z.to_nat (zlen (d_name d))) (drop 8 (drop (Z.to_nat (zlen pre)) (pre ++ enc_dent d ++ rest))) = d_name d.
Proof.
  intros H. assert (forall n, drop (Z.to_nat (zlen pre) + n) (pre ++ enc_dent d ++ rest) = drop n (enc_dent d ++ rest)) as Hd.
  { intros n. unfold zlen. rewrite Nat2Z.id, <- drop_drop, drop_app_length. done. }
  pose proof (Hd 0%nat) as H0. rewrite Nat.add_0_r, drop_0 in H0. rewrite H0.
  unfold field16, field32. replace (Z.to_nat (zlen pre + 4)) with (Z.to_nat (zlen pre) + 4)%nat by (unfold zlen; lia). rewrite Hd.
  clear Hd H0. unfold enc_dent. rewrite <- !app_assoc. pose proof (dk_ino _ H). pose proof (dk_rec _ H). pose proof (zlen_nonneg (d_name d)).
  set (m := le_bytes 4 (d_ino d) ++ _).
  destruct (field_at 4 (d_ino d) m 0 _ eq_refl) as [-> M1]; [done|]. cbn [Nat.add] in M1.
  destruct (field_at 2 (d_rec d) m 4 _ M1) as [-> M2]; [lia|]. cbn [Nat.add] in M2.
  split; [done|]. split; [done|]. split; [done|].
  assert (forall n, nth (6 + n) m 0 = nth n (drop 6 m) 0) as Hn.
  { intros n. rewrite <- (firstn_skipn 6 m) at 1. rewrite app_nth2; rewrite length_firstn; [|unfold m; rewrite !length_app, !le_bytes_length; lia].
    f_equal. unfold m. rewrite !length_app, !le_bytes_length. lia. }
  pose proof (Hn 0%nat) as H6. pose proof (Hn 1%nat) as H7. cbn [Nat.add] in H6, H7.
  rewrite H6, H7, M2. split; [done|]. split; [done|].
  replace (drop 8 m) with (drop 2 (drop 6 m)) by (by rewrite drop_drop). rewrite M2. cbn [app drop]. rewrite drop_0. unfold zlen. by rewrite Nat2Z.id, take_app_length.
Qed.

(** Making the last record longer, over zeroes. *)
Lemma patch_rec init l n r :
  zlen (enc_dents init) = dents_len init -> dent_ok l -> dent_ok (with_rec l r) -> d_rec l <= r <= d_rec l + n ->
  write_at (dents_len init + 4) (le_bytes 2 r) (enc_dents (init ++ [l]) ++ zeroes n)
  = Some (enc_dents (init ++ [with_rec l r]) ++ zeroes (n - (r - d_rec l))).
Proof.
  intros Hi Hl Hr Hrn. rewrite !enc_dents_app, !enc_dents_one. unfold enc_dent at 1. rewrite <- !app_assoc, (app_assoc (enc_dents init)).
  replace (dents_len init + 4) with (zlen (enc_dents init ++ le_bytes 4 (d_ino l)))
    by (rewrite zlen_app, Hi; unfold zlen; by rewrite le_bytes_length).
  rewrite write_at_app by (unfold zlen; rewrite !length_app, !le_bytes_length; lia).
  f_equal. unfold enc_dent. cbn [with_rec d_ino d_rec d_type d_name]. rewrite <- !app_assoc. do 3 f_equal.
  unfold zlen at 1. rewrite !le_bytes_length, Nat2Z.id, drop_app_length' by (by rewrite le_bytes_length). do 2 f_equal.
  pose proof (dk_rec _ Hl). rewrite !zeroes_app by lia. f_equal. lia.
Qed.

(** Writing a record over zeroes. *)
Lemma write_dent ds n d rl :
  zlen (enc_dents ds) = dents_len ds -> dent_ok d -> d_rec d = rl -> rl <= n ->
  write_at (dents_len ds) (le_bytes 4 (d_ino d) ++ le_bytes 2 rl ++ [zlen (d_name d); d_type d] ++ d_name d) (enc_dents ds ++ zeroes n)
  = Some (enc_dents (ds ++ [d]) ++ zeroes (n - rl)).
Proof.
  intros Hds Hd <- Hn. rewrite <- Hds. pose proof (dk_rec _ Hd).
  set (w := le_bytes 4 (d_ino d) ++ _).
  assert (zlen w = 8 + zlen (d_name d)) as Lw by (unfold w; rewrite !zlen_app; unfold zlen at 1 2 3; rewrite !le_bytes_length; cbn; lia).
  pose proof (zlen_nonneg (d_name d)). rewrite write_at_app by (rewrite zeroes_zlen; lia). f_equal.
  rewrite Lw, zeroes_drop by (pose proof (zlen_nonneg (d_name d)); lia). rewrite enc_dents_app, enc_dents_one.
  unfold enc_dent. rewrite <- !app_assoc. unfold w. rewrite <- !app_assoc. do 5 f_equal. rewrite zeroes_app by lia. f_equal. lia.
Qed.

(** ** Adding entries *)

Definition rec_of (name : list Z) : Z := 8 + ALIGN (zlen name) 4.

Lemma rec_of_facts name : 0 < zlen name < 256 -> 8 + zlen name <= rec_of name <= 264 /\ 12 <= rec_of name /\ rec_of name mod 4 = 0.
Proof.
  intros Hn. unfold rec_of, ALIGN, DIV_ROUND_UP. pose proof (Z.div_mod (zlen name + 4 - 1) 4 ltac:(lia)).
  pose proof (Z.mod_pos_bound (zlen name + 4 - 1) 4 ltac:(lia)). split; [lia|]. split; [lia|].
  rewrite Z.add_mod by lia. rewrite Z.mul_comm, Z_mod_mult. done.
Qed.

Section adding.
Context (bs : Z) (Hbs : 264 <= bs <= 4096) (Hbs4 : bs mod 4 = 0).

(** The rest of a block from an offset inside it. *)
Lemma same_block off n : 0 <= off -> 0 < n <= bs -> (off / bs =? (off + n - 1) / bs) = (off mod bs + n <=? bs).
Proof.
  intros Ho Hn. pose proof (Z.div_mod off bs ltac:(lia)) as D. pose proof (Z.mod_pos_bound off bs ltac:(lia)).
  destruct (Z.leb_spec (off mod bs + n) bs).
  - apply Z.eqb_eq. apply (Z.div_unique _ _ _ (off mod bs + n - 1)); [lia|]. lia.
  - apply Z.eqb_neq. assert ((off + n - 1) / bs = off / bs + 1) as ->; [|lia].
    symmetry. apply (Z.div_unique _ _ _ (off mod bs + n - 1 - bs)); [lia|]. lia.
Qed.

Lemma next_block off n : 0 <= off -> 0 < n <= bs -> bs < off mod bs + n -> (off + n - 1) / bs * bs = off + (bs - off mod bs).
Proof.
  intros Ho Hn Hc. pose proof (Z.div_mod off bs ltac:(lia)) as D. pose proof (Z.mod_pos_bound off bs ltac:(lia)).
  assert ((off + n - 1) / bs = off / bs + 1) as ->; [|lia].
  symmetry. apply (Z.div_unique _ _ _ (off mod bs + n - 1 - bs)); [lia|]. lia.
Qed.

(** Where the last record of a list ends in its block. *)
Lemma last_end pos r : 0 <= pos -> 0 < r -> pos mod bs + r <= bs -> (pos + r) mod bs <> 0 -> (pos + r) mod bs = pos mod bs + r.
Proof.
  intros Hp Hr H Hne. pose proof (Z.div_mod pos bs ltac:(lia)) as D. pose proof (Z.mod_pos_bound pos bs ltac:(lia)).
  destruct (decide (pos mod bs + r = bs)) as [E|E].
  - exfalso. apply Hne. replace (pos + r) with (0 + (pos / bs + 1) * bs) by lia. rewrite Z_mod_plus_full. apply Z.mod_0_l. lia.
  - symmetry. apply (Z.mod_unique _ _ (pos / bs)); [left; lia|lia].
Qed.

(** A last record may take the rest of its block. *)
Lemma pad_last init l r :
  dents_ok bs 0 (init ++ [l]) -> dents_len (init ++ [l]) mod bs <> 0 ->
  r = d_rec l + (bs - dents_len (init ++ [l]) mod bs) ->
  dents_ok bs 0 (init ++ [with_rec l r]) /\ dents_len (init ++ [with_rec l r]) mod bs = 0.
Proof.
  rewrite !dents_ok_app, !dents_len_app, Z.add_0_l. change (dents_len [l]) with (d_rec l + 0). rewrite Z.add_0_r.
  change (dents_len [with_rec l r]) with (r + 0). rewrite Z.add_0_r. intros [Hi (Hl & Hc & _)] Hne Er.
  destruct (dents_facts bs 0 init Hi) as (_ & A & M). pose proof (zlen_nonneg init). pose proof (dk_rec _ Hl). pose proof (dk_name _ Hl).
  pose proof (last_end (dents_len init) (d_rec l) ltac:(lia) ltac:(lia) Hc Hne) as E.
  assert (r = bs - dents_len init mod bs) as Er' by lia.
  pose proof (Z.div_mod (dents_len init) bs ltac:(lia)) as D. pose proof (Z.mod_pos_bound (dents_len init) bs ltac:(lia)).
  split.
  - split; [done|]. cbn [dents_ok with_rec d_rec]. split; [|split; [lia|done]]. destruct Hl. constructor; cbn; [done|done|lia|].
    rewrite Er', Zminus_mod, Hbs4, Z.mod_mod_divide, A by (by apply Z.mod_divide). done.
  - rewrite Er'. replace (dents_len init + (bs - dents_len init mod bs)) with (0 + (dents_len init / bs + 1) * bs) by lia.
    rewrite Z_mod_plus_full. apply Z.mod_0_l. lia.
Qed.

Definition new_dent (ino : Z) (name : list Z) (type : Z) : dent := {| d_ino := ino; d_rec := rec_of name; d_type := type; d_name := name |}.

Lemma new_dent_ok ino name type : 0 <= ino < 2 ^ 32 -> 0 < zlen name < 256 -> dent_ok (new_dent ino name type).
Proof. intros Hi Hn. pose proof (rec_of_facts name Hn) as (H1 & H2 & H3). constructor; cbn; [done|done|lia|done]. Qed.

(** The last record before the new one: lengthened when the new one would cross the end of
    the block. *)
Definition pad_before (off n : Z) (l : dent) : dent :=
  if off mod bs + n <=? bs then l else with_rec l (d_rec l + (bs - off mod bs)).

Lemma pad_before_len init l n :
  dents_len (init ++ [pad_before (dents_len (init ++ [l])) n l]) =
  dents_len (init ++ [l]) +
    (if bs <? dents_len (init ++ [l]) mod bs + n then bs - dents_len (init ++ [l]) mod bs else 0).
Proof.
  assert (forall x, dents_len (init ++ [x]) = dents_len init + d_rec x) as Hl
    by (intros x; rewrite dents_len_app; unfold dents_len; cbn; lia).
  rewrite (Hl l). set (off := dents_len init + d_rec l). rewrite Hl. unfold pad_before.
  destruct (Z.leb_spec (off mod bs + n) bs), (Z.ltb_spec bs (off mod bs + n)); cbn; lia.
Qed.

Lemma add_dentry_ok init l n ino name type :
  dents_ok bs 0 (init ++ [l]) -> 0 <= ino < 2 ^ 32 -> 0 < zlen name < 256 ->
  let off := dents_len (init ++ [l]) in let l' := pad_before off (rec_of name) l in
  let init' := init ++ [l'] in let off' := dents_len init' + rec_of name in
  off' <= off + n -> off + n < 2 ^ 32 - 4096 ->
  add_dentry bs (enc_dents (init ++ [l]) ++ zeroes n) off (Some (dents_len init)) ino name type =
    Done (enc_dents (init' ++ [new_dent ino name type]) ++ zeroes (n - (off' - off)), off', dents_len init') /\
  dents_ok bs 0 (init' ++ [new_dent ino name type]) /\ off' = dents_len (init' ++ [new_dent ino name type]).
Proof.
  intros H Hino Hname off l' init' off' Hfit Hw.
  pose proof (rec_of_facts name Hname) as (R1 & R2 & R3). pose proof (new_dent_ok ino name type Hino Hname) as Hnew.
  destruct (dents_facts bs 0 _ H) as (L0 & A0 & M0). pose proof (zlen_nonneg (init ++ [l])).
  pose proof (Z.mod_pos_bound off bs ltac:(lia)) as Hmod.
  assert (off' = dents_len (init' ++ [new_dent ino name type])) as Eoff by (rewrite dents_len_app, dents_len_cons; unfold off'; cbn [new_dent d_rec]; change (dents_len []) with 0; lia).
  assert (dents_len init' = off + (if bs <? off mod bs + rec_of name then bs - off mod bs else 0)) as Ei by apply pad_before_len.
  assert (dents_ok bs 0 init' /\ dents_len init' mod bs + rec_of name <= bs) as [Hi' Hc'].
  { rewrite Ei. unfold init', l', pad_before. destruct (Z.leb_spec (off mod bs + rec_of name) bs), (Z.ltb_spec bs (off mod bs + rec_of name)); try lia.
    - rewrite Z.add_0_r. done.
    - destruct (pad_last init l (d_rec l + (bs - off mod bs)) H) as [P1 P2]; [fold off; lia|done|].
      split; [done|]. replace (off + (bs - off mod bs)) with (0 + (off / bs + 1) * bs) by (pose proof (Z.div_mod off bs ltac:(lia)); lia).
      rewrite Z_mod_plus_full, Z.mod_0_l by lia. lia. }
  assert (dents_ok bs 0 (init' ++ [new_dent ino name type])) as Hok.
  { rewrite dents_ok_app, Z.add_0_l. split; [done|]. cbn. done. }
  assert (off <= dents_len init') as Hge by (rewrite Ei; destruct (bs <? off mod bs + rec_of name); lia).
  assert (0 <= off) as Hoff by (unfold off; lia). split; [|done]. unfold add_dentry. fold off.
  rewrite (wrap_small 8 (zlen name)) by (unfold in_u; lia). change (8 + ALIGN (zlen name) 4) with (rec_of name).
  rewrite (wrap_small 16 (rec_of name)) by (unfold in_u; lia).
  rewrite (wrap_small 32 (off + rec_of name - 1)) by (unfold in_u; unfold off' in *; lia).
  rewrite same_block by lia.
  assert (forall ds m, zlen (enc_dents ds) = dents_len ds -> rec_of name <= m -> 
    write_at (dents_len ds) (le_bytes 4 ino ++ le_bytes 2 (rec_of name) ++ [zlen name; type] ++ take (Z.to_nat (zlen name)) name) (enc_dents ds ++ zeroes m)
    = Some (enc_dents (ds ++ [new_dent ino name type]) ++ zeroes (m - rec_of name))) as Hwrite.
  { intros ds m Hds Hm. rewrite (take_ge name) by (unfold zlen; lia).
    apply (write_dent ds m (new_dent ino name type) (rec_of name) Hds Hnew); [done|lia]. }
  pose proof (dents_facts bs 0 _ Hi') as (L' & _ & _). unfold init', l', pad_before in *.
  destruct (Z.leb_spec (off mod bs + rec_of name) bs) as [Hle|Hgt], (Z.ltb_spec bs (off mod bs + rec_of name)); try lia; cbn [mbind outcome_bind].
  - change (write_at off) with (write_at (dents_len (init ++ [l]))). rewrite Hwrite by (done || unfold off' in *; lia). cbn [get mbind outcome_bind]. rewrite wrap_small by (unfold in_u; unfold off' in *; lia).
    unfold off'. fold off. by replace (n - rec_of name) with (n - (off + rec_of name - off)) by lia.
  - set (r := d_rec l + (bs - off mod bs)) in *. rewrite next_block by lia.
    rewrite (wrap_small 32 (off + (bs - off mod bs))) by (unfold in_u; unfold off' in *; lia).
    replace (off + (bs - off mod bs) - off) with (bs - off mod bs) by lia.
    rewrite (wrap_small 32 (bs - _)) by (unfold in_u; lia).
    rewrite dents_ok_app in H, Hi'. destruct H as [Hin (Hl & _)]. destruct Hi' as [_ (Hl' & _)].
    destruct (dents_facts bs 0 _ Hin) as (Lin & _).
    destruct (field_dent (enc_dents init) l (zeroes n) Hl) as (_ & E2 & _).
    rewrite <- (enc_dents_one l), app_assoc, <- enc_dents_app, Lin in E2. rewrite E2. fold r.
    pose proof (dk_rec _ Hl'). cbn [with_rec d_rec d_name] in *. rewrite (wrap_small 16 r) by (unfold in_u; pose proof (zlen_nonneg (d_name l)); lia).
    assert (bs - off mod bs + rec_of name <= n) as Hpad by (unfold off' in Hfit; lia).
    assert (r - d_rec l = bs - off mod bs) as Er by (unfold r; lia).
    rewrite (patch_rec init l n r Lin Hl Hl') by lia. cbn [get mbind outcome_bind].
    rewrite <- Ei. rewrite Hwrite by (done || lia). cbn [get mbind outcome_bind].
    rewrite wrap_small by (unfold in_u; unfold off' in *; lia). unfold off'.
    by replace (n - (r - d_rec l) - rec_of name) with (n - (dents_len (init ++ [with_rec l r]) + rec_of name - off)) by lia.
Qed.

(** ** All entries *)

Definition view (d : dent) : Z * Z * list Z := (d_ino d, d_type d, d_name d).
Definition entry_view (d : dentry) : Z * Z * list Z := (0, file_type d, filename d).
Definition name_ok (d : dentry) : Prop := 0 < zlen (filename d) < 256.

(** The size, without the width of its integer. *)
Fixpoint dir_size (off : Z) (ds : list dentry) : Z :=
  match ds with
  | [] => off
  | d :: ds =>
      dir_size (off + (if bs <? off mod bs + rec_of (filename d) then bs - off mod bs else 0) + rec_of (filename d)) ds
  end.

Lemma dir_size_ge off ds : Forall name_ok ds -> 0 <= off -> off + 12 * zlen ds <= dir_size off ds.
Proof.
  intros H. revert off. induction H as [|d ds Hd _ IH]; intros off Ho; cbn [dir_size]; [unfold zlen; cbn; lia|].
  destruct (rec_of_facts _ Hd) as (R1 & R2 & _). rewrite zlen_cons. pose proof (Z.mod_pos_bound off bs ltac:(lia)).
  destruct (bs <? off mod bs + rec_of (filename d));
    (etransitivity; [|apply IH; lia]); lia.
Qed.

Lemma dentry_size_dir off ds :
  Forall name_ok ds -> 0 <= off -> dir_size off ds < 2 ^ 32 -> dentry_size_from bs off ds = dir_size off ds.
Proof.
  intros H. revert off. induction H as [|d ds Hd Hds IH]; intros off Ho Hl; cbn [dir_size dentry_size_from] in *; [done|].
  destruct (rec_of_facts _ Hd) as (R1 & R2 & _). change (8 + ALIGN (zlen (filename d)) 4) with (rec_of (filename d)).
  pose proof (Z.mod_pos_bound off bs ltac:(lia)).
  pose proof (zlen_nonneg ds). destruct (Z.ltb_spec bs (off mod bs + rec_of (filename d))).
  - pose proof (dir_size_ge (off + (bs - off mod bs) + rec_of (filename d)) ds Hds ltac:(lia)).
    rewrite (wrap_small 32 (off + (bs - off mod bs))), wrap_small by (unfold in_u; lia). apply IH; lia.
  - rewrite Z.add_0_r in *. pose proof (dir_size_ge (off + rec_of (filename d)) ds Hds ltac:(lia)).
    rewrite !wrap_small by (unfold in_u; lia). apply IH; lia.
Qed.

Lemma view_with_rec d r : view (with_rec d r) = view d.
Proof. done. Qed.

Lemma view_pad off n l : view (pad_before off n l) = view l.
Proof. unfold pad_before. by destruct (off mod bs + n <=? bs). Qed.

Lemma add_dentries_ok len ds init l :
  Forall name_ok ds -> dents_ok bs 0 (init ++ [l]) -> dir_size (dents_len (init ++ [l])) ds <= len -> len < 2 ^ 32 - 4096 ->
  exists init' l' ps,
    add_dentries bs len (enc_dents (init ++ [l]) ++ zeroes (len - dents_len (init ++ [l]))) (dents_len (init ++ [l])) (dents_len init) ds
    = Done (enc_dents (init' ++ [l']) ++ zeroes (len - dents_len (init' ++ [l'])), dents_len (init' ++ [l']), dents_len init', ps) /\
    dents_ok bs 0 (init' ++ [l']) /\ dents_len (init' ++ [l']) = dir_size (dents_len (init ++ [l])) ds /\
    map view (init' ++ [l']) = map view (init ++ [l]) ++ map entry_view ds /\
    (exists t, init' ++ [l'] = init ++ t) /\ length ps = length ds /\
    forall k p, ps !! k = Some p -> p = dents_len (take (S (length init) + k) (init' ++ [l'])).
Proof.
  intros Hds. revert init l. induction Hds as [|d ds Hd Hds IH]; intros init l H Hl Hw; cbn [add_dentries dir_size] in *.
  { exists init, l, []. split; [done|]. split; [done|]. split; [done|]. split; [by rewrite app_nil_r|].
    split; [by exists [l]|]. split; [done|]. intros k p Hk. done. }
  pose proof (dents_facts bs 0 _ H) as (L0 & A0 & M0). pose proof (zlen_nonneg (init ++ [l])).
  set (off := dents_len (init ++ [l])) in *. set (l1 := pad_before off (rec_of (filename d)) l).
  pose proof (pad_before_len init l (rec_of (filename d))) as Ep. fold off l1 in Ep.
  pose proof (Z.mod_pos_bound off bs ltac:(lia)). destruct (rec_of_facts _ Hd) as (R1 & R2 & _).
  set (pad := if bs <? off mod bs + rec_of (filename d) then bs - off mod bs else 0) in *.
  assert (0 <= pad) as Hpad by (unfold pad; destruct (bs <? _); lia).
  pose proof (dir_size_ge (off + pad + rec_of (filename d)) ds Hds ltac:(lia)) as Hge. pose proof (zlen_nonneg ds).
  destruct (add_dentry_ok init l (len - off) 0 (filename d) (file_type d) H ltac:(lia) Hd) as (E & Hok & Eoff); [fold off l1; lia|fold off; lia|].
  fold off l1 in E, Hok, Eoff. rewrite E. cbn [mbind outcome_bind]. clear E.
  set (n := new_dent 0 (filename d) (file_type d)) in *. rewrite Eoff in *. rewrite Ep in Eoff.
  rewrite (proj2 (Z.ltb_ge _ _)) by lia. cbn [orb].
  replace ((dents_len ((init ++ [l1]) ++ [n]) =? len) && negb match ds with [] => true | _ => false end) with false.
  2: { destruct ds as [|d2 ds]; [by rewrite andb_false_r|]. rewrite zlen_cons in Hge. symmetry. apply andb_false_iff. left. apply Z.eqb_neq.
       pose proof (zlen_nonneg ds). lia. }
  cbv iota. replace (len - off - (dents_len ((init ++ [l1]) ++ [n]) - off)) with (len - dents_len ((init ++ [l1]) ++ [n])) by lia.
  rewrite Eoff in Hl |- *.
  destruct (IH (init ++ [l1]) n Hok Hl Hw) as (init' & l' & ps & -> & Hok' & El & Ev & (t & Et) & Lp & Hp). cbn [mbind outcome_bind].
  exists init', l', (dents_len (init ++ [l1]) :: ps). split; [done|]. split; [done|]. split; [done|]. split; [|split; [|split]].
  - rewrite Ev, !map_app, <- !app_assoc. f_equal. cbn [map]. by replace (view l1) with (view l) by (symmetry; apply view_pad).
  - exists ([l1] ++ t). by rewrite Et, <- app_assoc.
  - cbn. by rewrite Lp.
  - intros [|k] p Hk; cbn in Hk.
    + injection Hk as <-. rewrite Et, Nat.add_0_r. f_equal. rewrite take_app_length'; [done|]. rewrite length_app. cbn. lia.
    + rewrite (Hp k p Hk). do 2 f_equal. rewrite length_app. cbn. lia.
Qed.
End adding.

(** ** Reading records *)

(** The entries in use. *)
Definition live (ds : list dent) : list (Z * Z * list Z) := map view (filter (fun d => d_ino d <> 0) ds).

Lemma read_dir_ok bs ds fuel pre :
  0 < bs -> dents_ok bs (zlen pre) ds -> (length ds < fuel)%nat ->
  read_dir bs fuel (pre ++ enc_dents ds) (zlen pre) = Some (live ds).
Proof.
  intros Hbs. revert fuel pre. induction ds as [|d ds IH]; intros fuel pre H Hf; (destruct fuel as [|fuel]; [cbn in Hf; lia|]); cbn [read_dir].
  - unfold enc_dents. cbn [map concat]. by rewrite app_nil_r, Z.eqb_refl.
  - destruct H as (Hd & Hc & Hs). pose proof (enc_dent_zlen d Hd) as Ld. pose proof (dk_rec _ Hd) as Hr. pose proof (dk_name _ Hd) as Hn.
    destruct (dents_facts _ _ _ Hs) as (L & A & M). pose proof (zlen_nonneg ds). rewrite enc_dents_cons, !zlen_app, Ld.
    rewrite (proj2 (Z.eqb_neq _ _)) by lia.
    destruct (field_dent pre d (enc_dents ds) Hd) as (E1 & _ & E3 & E4 & E5 & E6). rewrite E1, E3, E4, E5, E6.
    pose proof (dk_align _ Hd) as Ha. pose proof (Z.div_mod (d_rec d) 4 ltac:(lia)).
    match goal with |- context[if ?c then _ else _] => replace c with true
      by (symmetry; rewrite !andb_true_iff, !Z.leb_le, Z.eqb_eq; lia) end.
    rewrite (app_assoc pre). replace (zlen pre + d_rec d) with (zlen (pre ++ enc_dent d)) by (rewrite zlen_app, Ld; done).
    rewrite IH; [|by rewrite zlen_app, Ld|cbn in Hf; lia]. unfold live.
    destruct (Z.eqb_spec (d_ino d) 0) as [E0|E0]; [by rewrite filter_cons_False by lia|by rewrite filter_cons_True].
Qed.

(** ** Filling in inode numbers *)

Lemma set_ino_ok init d tail n i :
  zlen (enc_dents init) = dents_len init -> 
  set_dentry_inode (enc_dents (init ++ d :: tail) ++ n) (dents_len init) i = Done (enc_dents (init ++ with_ino d i :: tail) ++ n).
Proof.
  intros Hi. unfold set_dentry_inode. rewrite !enc_dents_app, !enc_dents_cons. unfold enc_dent at 1. rewrite <- !app_assoc, <- Hi.
  rewrite write_at_app by (unfold zlen; rewrite !length_app, !le_bytes_length; lia). cbn [get]. unfold enc_dent. rewrite <- !app_assoc.
  unfold zlen. rewrite !le_bytes_length, Nat2Z.id, drop_app_length' by (by rewrite le_bytes_length). done.
Qed.

(** Every inode is filled in at its place. *)
Fixpoint set_inodes (data : list Z) (ps inodes : list Z) : outcome (list Z) :=
  match ps, inodes with
  | p :: ps, i :: inodes => data ← set_dentry_inode data p i; set_inodes data ps inodes
  | _, _ => Done data
  end.

Fixpoint with_inos (ds : list dent) (inos : list Z) : list dent :=
  match ds, inos with d :: ds, i :: inos => with_ino d i :: with_inos ds inos | ds, _ => ds end.

Lemma dents_ok_with_ino bs pos a d b i : 0 <= i < 2 ^ 32 -> dents_ok bs pos (a ++ d :: b) -> dents_ok bs pos (a ++ with_ino d i :: b).
Proof.
  intros Hi. rewrite !dents_ok_app. cbn [dents_ok with_ino d_rec]. intros (H1 & Hd & H2). split; [done|]. split; [|done].
  destruct Hd. constructor; done.
Qed.

Lemma dents_len_take n a b : map d_rec a = map d_rec b -> dents_len (take n a) = dents_len (take n b).
Proof.
  revert a b. induction n as [|n IH]; intros [|x a] [|y b] H; try done. injection H as E H. cbn [take].
  by rewrite !dents_len_cons, E, (IH a b H).
Qed.

Lemma set_inodes_ok bs init tail ps inos :
  dents_ok bs 0 (init ++ tail) -> Forall (fun i => 0 <= i < 2 ^ 32) inos -> length inos = length tail -> length ps = length tail ->
  (forall k p, ps !! k = Some p -> p = dents_len (take (length init + k) (init ++ tail))) ->
  set_inodes (enc_dents (init ++ tail)) ps inos = Done (enc_dents (init ++ with_inos tail inos)) /\
  dents_ok bs 0 (init ++ with_inos tail inos).
Proof.
  revert init ps inos. induction tail as [|d tail IH]; intros init ps inos H Hi Li Lp Hp.
  { destruct ps; done. }
  destruct ps as [|p ps]; [done|]. destruct inos as [|i inos]; [done|]. inv Hi. cbn [set_inodes with_inos].
  rewrite (Hp 0%nat p eq_refl), Nat.add_0_r, take_app_length.
  assert (zlen (enc_dents init) = dents_len init) as Hz by (rewrite dents_ok_app in H; apply (dents_facts bs 0), H).
  pose proof (set_ino_ok init d tail [] i Hz) as E. rewrite !app_nil_r in E. rewrite E. cbn [mbind outcome_bind].
  assert (forall x, init ++ x :: tail = (init ++ [x]) ++ tail) as Ea by (intros; by rewrite <- app_assoc). rewrite Ea.
  assert (init ++ with_ino d i :: with_inos tail inos = (init ++ [with_ino d i]) ++ with_inos tail inos) as -> by (by rewrite <- app_assoc).
  apply IH; [rewrite <- Ea; by apply dents_ok_with_ino|done|cbn in Li; lia|cbn in Lp; lia|].
  intros k q Hk. rewrite (Hp (S k) q Hk). rewrite length_app. cbn [length].
  replace (length init + S k)%nat with (length init + 1 + k)%nat by lia.
  rewrite <- (Ea (with_ino d i)). apply dents_len_take. by rewrite !map_app.
Qed.

(** ** A whole directory *)

Section directory.
Context (bs : Z) (Hbs : 264 <= bs <= 4096) (Hbs4 : bs mod 4 = 0).

Lemma add_first len ino :
  24 <= len < 2 ^ 32 - 4096 -> 0 <= ino < 2 ^ 32 ->
  add_dentry bs (zeroes len) 0 None ino [46] EXT4_FT_DIR =
    Done (enc_dents [new_dent ino [46] EXT4_FT_DIR] ++ zeroes (len - 12), 12, 0).
Proof.
  intros Hl Hi. unfold add_dentry. change (u16 (8 + ALIGN (u8 (zlen [46])) 4)) with 12. change (u8 (zlen [46])) with 1.
  change (u32 (0 + 12 - 1)) with 11. rewrite (Z.div_small 0), (Z.div_small 11) by lia. cbn [Z.eqb mbind outcome_bind].
  change (take (Z.to_nat 1) [46]) with [46].
  assert (write_at 0 (le_bytes 4 ino ++ le_bytes 2 12 ++ [1; EXT4_FT_DIR] ++ [46]) (zeroes len) =
    Some (enc_dents [new_dent ino [46] EXT4_FT_DIR] ++ zeroes (len - 12))) as ->; [|done].
  apply (write_dent [] len (new_dent ino [46] EXT4_FT_DIR) 12); [done|by apply new_dent_ok|done|lia].
Qed.

Lemma rest_of_block off len :
  off <= len < off + bs -> len mod bs = 0 -> len <> off -> off mod bs <> 0 /\ len - off = bs - off mod bs.
Proof.
  intros Hl Hm Hne. pose proof (Z.div_mod off bs ltac:(lia)). pose proof (Z.div_mod len bs ltac:(lia)) as D. rewrite Hm in D.
  pose proof (Z.mod_pos_bound off bs ltac:(lia)). set (p := len / bs) in *. set (q := off / bs) in *.
  assert (p = q + 1) as -> by nia. lia.
Qed.

Lemma fill_directory_ok len ino dir ds :
  Forall name_ok ds -> dir_size bs 24 ds <= len < 2 ^ 32 - 4096 -> len - dir_size bs 24 ds < bs -> len mod bs = 0 ->
  0 <= ino < 2 ^ 32 -> 0 <= dir < 2 ^ 32 ->
  exists final ps, fill_directory bs len ino dir ds (zeroes len) = Done (enc_dents final, ps) /\
    dents_ok bs 0 final /\ dents_len final = len /\
    map view final = [(ino, EXT4_FT_DIR, [46]); (dir, EXT4_FT_DIR, [46; 46])] ++ map entry_view ds /\
    length ps = length ds /\ forall k p, ps !! k = Some p -> p = dents_len (take (2 + k) final).
Proof.
  intros Hds Hl Hlast Hm Hi Hd. unfold fill_directory. pose proof (dir_size_ge bs Hbs 24 ds Hds ltac:(lia)). pose proof (zlen_nonneg ds).
  rewrite add_first by lia. cbn [mbind outcome_bind].
  set (dot := new_dent ino [46] EXT4_FT_DIR).
  assert (dents_ok bs 0 ([] ++ [dot])) as Hdot.
  { cbn [app dents_ok]. rewrite Z.mod_0_l by lia. split; [apply new_dent_ok; [done|by vm_compute]|]. split; [change (d_rec dot) with 12; lia|done]. }
  destruct (add_dentry_ok bs Hbs Hbs4 [] dot (len - 12) dir [46; 46] EXT4_FT_DIR Hdot Hd ltac:(by vm_compute)) as (E1 & Hok1 & Eoff1).
  { unfold pad_before. change (dents_len ([] ++ [dot])) with 12. change (rec_of [46; 46]) with 12. rewrite Z.mod_small by lia.
    rewrite (proj2 (Z.leb_le _ _)) by lia. change (dents_len ([] ++ [dot])) with 12. lia. }
  { change (dents_len ([] ++ [dot])) with 12. lia. }
  assert (pad_before bs (dents_len ([] ++ [dot])) (rec_of [46; 46]) dot = dot) as Ep.
  { unfold pad_before. change (dents_len ([] ++ [dot])) with 12. change (rec_of [46; 46]) with 12. rewrite Z.mod_small by lia.
    by rewrite (proj2 (Z.leb_le _ _)) by lia. }
  rewrite Ep in E1, Hok1. change (dents_len ([] ++ [dot])) with 12 in E1. change (dents_len []) with 0 in E1. change ([] ++ [dot]) with [dot] in E1, Hok1.
  rewrite E1. cbn [mbind outcome_bind]. change (12 + rec_of [46; 46]) with 24. change (24 - 12) with 12. replace (len - 12 - 12) with (len - 24) by lia.
  set (dotdot := new_dent dir [46; 46] EXT4_FT_DIR) in *.
  destruct (add_dentries_ok bs Hbs Hbs4 len ds [dot] dotdot Hds Hok1) as (init & l & ps & E2 & Hok2 & El & Ev & (t & Et) & Lp & Hp);
    [change (dents_len ([dot] ++ [dotdot])) with 24; lia|lia|].
  change (dents_len ([dot] ++ [dotdot])) with 24 in *. change (dents_len [dot]) with 12 in E2. rewrite E2. cbn [mbind outcome_bind]. clear E1 E2.
  assert (dents_ok bs 0 init) as Hin by (rewrite dents_ok_app in Hok2; apply Hok2).
  assert (dent_ok l) as Hlast' by (rewrite dents_ok_app in Hok2; apply Hok2).
  destruct (dents_facts bs 0 init Hin) as (Lin & _ & Min). pose proof (zlen_nonneg init).
  set (off := dents_len (init ++ [l])) in *.
  destruct (field_dent (enc_dents init) l (zeroes (len - off)) Hlast') as (_ & F & _).
  rewrite <- (enc_dents_one l), app_assoc, <- enc_dents_app, Lin in F. rewrite F. clear F.
  set (r := d_rec l + (len - off)).
  assert (dents_ok bs 0 (init ++ [with_rec l r]) /\ dents_len (init ++ [with_rec l r]) = len) as [Hok3 Elen].
  { assert (dents_len (init ++ [with_rec l r]) = len) as Elen.
    { assert (off = dents_len init + (d_rec l + 0)) as Eo by apply dents_len_app.
      rewrite dents_len_app. change (dents_len [with_rec l r]) with (r + 0). assert (r = d_rec l + (len - off)) by done. lia. }
    split; [|exact Elen]. destruct (decide (len = off)) as [E|E].
    - assert (with_rec l r = l) as -> by (unfold r; rewrite E, Z.sub_diag, Z.add_0_r; by destruct l). done.
    - destruct (rest_of_block off len ltac:(lia) Hm E) as [Hne Er]. apply pad_last; [done|done|done|done|fold off; unfold r; lia]. }
  assert (dent_ok (with_rec l r)) as Hr by (rewrite dents_ok_app in Hok3; apply Hok3).
  assert (d_rec (with_rec l r) = r) as Err by done. pose proof (dk_rec _ Hr) as Hrr. rewrite Err in Hrr. pose proof (zlen_nonneg (d_name (with_rec l r))).
  rewrite (wrap_small 32 (len - off)) by (unfold in_u; lia). fold r. rewrite (wrap_small 16 r) by (unfold in_u; lia).
  rewrite (patch_rec init l (len - off) r Lin Hlast' Hr) by (unfold r; lia). cbn [get mbind outcome_bind].
  replace (len - off - (r - d_rec l)) with 0 by (unfold r; lia). change (zeroes 0) with (@nil Z). rewrite app_nil_r.
  exists (init ++ [with_rec l r]), ps. split; [done|]. split; [done|]. split; [done|]. split; [|split; [done|]].
  - rewrite map_app in Ev |- *. exact Ev.
  - intros k p Hk. rewrite (Hp k p Hk). destruct (decide (S (length [dot]) + k <= length init)%nat) as [Hle|Hgt].
    + change (S (length [dot])) with 2%nat in *. by rewrite !take_app_le by lia.
    + exfalso. apply lookup_lt_Some in Hk. assert (length (map view (init ++ [l])) = length (map view ([dot] ++ [dotdot]) ++ map entry_view ds)) as HL by (by rewrite Ev).
      rewrite length_app, !length_map, !length_app in HL. cbn [length] in *. lia.
Qed.
End directory.

(** ** Listing a directory *)

Lemma live_all ds : Forall (fun d => d_ino d <> 0) ds -> live ds = map view ds.
Proof.
  intros H. unfold live. f_equal. induction H as [|d ds Hd _ IH]; [done|]. by rewrite filter_cons_True, IH.
Qed.

Lemma views_with_inos ds es inos :
  map view ds = map entry_view es -> length inos = length es ->
  map view (with_inos ds inos) = zip_with (fun e i => (i, file_type e, filename e)) es inos.
Proof.
  revert es inos. induction ds as [|d ds IH]; intros [|e es] [|i inos] H L; try done. injection H as E1 E2 E3 H. cbn [with_inos map zip_with].
  rewrite (IH es inos H) by (cbn in L; lia). f_equal. unfold view. cbn. by rewrite E2, E3.
Qed.

Lemma with_inos_nonzero ds inos :
  length inos = length ds -> Forall (fun i => 0 < i < 2 ^ 32) inos -> Forall (fun d => d_ino d <> 0) (with_inos ds inos).
Proof.
  revert inos. induction ds as [|d ds IH]; intros [|i inos] L H; try done. inv H. cbn [with_inos]. constructor; [cbn; lia|].
  apply IH; [cbn in L; lia|done].
Qed.

Lemma map_rec_len ds inos : dents_len (with_inos ds inos) = dents_len ds.
Proof. revert inos. induction ds as [|d ds IH]; intros [|i inos]; try done. cbn [with_inos]. by rewrite !dents_len_cons, IH. Qed.

(** The length of a directory with these entries, as [make_directory] computes it. *)
Definition directory_len (bs : Z) (ds : list dentry) : Z := DIV_ROUND_UP (dentry_size bs ds) bs * bs.

(** C31: The buffer that [make_directory] fills has exactly its length, and when the inode numbers are written through the
    pointers it kept, a kernel reads the directory itself, its parent and then the entries, in order,
    with their names, types and inodes. *)
Theorem directory_read_back bs ino dir ds inos :
  264 <= bs <= 4096 -> bs mod 4 = 0 -> Forall name_ok ds -> dir_size bs 24 ds < 2 ^ 31 ->
  0 < ino < 2 ^ 32 -> 0 < dir < 2 ^ 32 -> Forall (fun i => 0 < i < 2 ^ 32) inos -> length inos = length ds ->
  exists data ps data',
    fill_directory bs (directory_len bs ds) ino dir ds (zeroes (directory_len bs ds)) = Done (data, ps) /\
    set_inodes data ps inos = Done data' /\ zlen data' = directory_len bs ds /\
    list_dir bs data' = Some ((ino, EXT4_FT_DIR, [46]) :: (dir, EXT4_FT_DIR, [46; 46]) ::
      zip_with (fun e i => (i, file_type e, filename e)) ds inos).
Proof.
  intros Hbs Hbs4 Hds Hsz Hino Hdir Hinos Hl. pose proof (dir_size_ge bs Hbs 24 ds Hds ltac:(lia)) as Hge. pose proof (zlen_nonneg ds).
  unfold directory_len, dentry_size. rewrite (dentry_size_dir bs Hbs 24 ds Hds) by lia. set (n := dir_size bs 24 ds) in *.
  set (len := DIV_ROUND_UP n bs * bs).
  assert (n <= len < n + bs) as Hlen.
  { pose proof (div_round_up_le (DIV_ROUND_UP n bs) n bs ltac:(lia)). pose proof (div_round_up_lt (DIV_ROUND_UP n bs - 1) n bs ltac:(lia)). unfold len. lia. }
  assert (len mod bs = 0) as Hm by (apply Z_mod_mult).
  destruct (fill_directory_ok bs Hbs Hbs4 len ino dir ds Hds) as (final & ps & E & Hok & El & Ev & Lp & Hp); fold n; try lia.
  destruct final as [|d1 [|d2 es]]; try done. injection Ev as V1 V2 V3 W1 W2 W3 Ev.
  assert (length es = length ds) as Les by (rewrite <- (length_map view es), Ev; apply length_map).
  destruct (set_inodes_ok bs [d1; d2] es ps inos Hok) as [E2 Hok2]; [eapply Forall_impl; [exact Hinos|]; cbn; lia|lia|lia|exact Hp|].
  exists (enc_dents (d1 :: d2 :: es)), ps, (enc_dents ([d1; d2] ++ with_inos es inos)).
  split; [exact E|]. split; [exact E2|]. destruct (dents_facts bs 0 _ Hok2) as (L & _ & Mlen). rewrite L.
  split. { rewrite dents_len_app, map_rec_len, <- dents_len_app. exact El. }
  unfold list_dir. pose proof (read_dir_ok bs _ (S (length (enc_dents ([d1; d2] ++ with_inos es inos)))) [] ltac:(lia) Hok2) as R.
  cbn [app] in R. change (zlen []) with 0 in R. cbn [app]. rewrite R by (unfold zlen in *; cbn [app] in *; lia).
  rewrite live_all.
  - cbn [map]. rewrite (views_with_inos es ds inos Ev Hl). unfold view at 1 2. by rewrite V1, V2, V3, W1, W2, W3.
  - constructor; [lia|]. constructor; [lia|]. apply with_inos_nonzero; [lia|done].
Qed.

(** Two entries in blocks of 264 bytes, the second of which starts a new block. *)
Lemma directory_read_back_witness :
  exists data ps data',
    fill_directory 264 (directory_len 264 [{| filename := replicate 200 97; file_type := 1 |}; {| filename := [98; 99]; file_type := 2 |};
      {| filename := replicate 100 98; file_type := 1 |}]) 2 2
      [{| filename := replicate 200 97; file_type := 1 |}; {| filename := [98; 99]; file_type := 2 |}; {| filename := replicate 100 98; file_type := 1 |}]
      (zeroes 528) = Done (data, ps) /\
    set_inodes data ps [12; 13; 14] = Done data' /\ zlen data' = 528 /\
    list_dir 264 data' = Some [(2, 2, [46]); (2, 2, [46; 46]); (12, 1, replicate 200 97); (13, 2, [98; 99]); (14, 1, replicate 100 98)].
Proof.
  destruct (directory_read_back 264 2 2 [{| filename := replicate 200 97; file_type := 1 |}; {| filename := [98; 99]; file_type := 2 |};
    {| filename := replicate 100 98; file_type := 1 |}] [12; 13; 14]) as (data & ps & data' & E1 & E2 & E3 & E4);
    [lia|done|repeat constructor|by vm_compute|lia|lia|repeat constructor|done|].
  exists data, ps, data'. split; [exact E1|]. split; [exact E2|]. split; [exact E3|exact E4].
Defined.
