(* ===== verification/Ext4Geometry.v ===== *)
(** * The parameters of a file system

    Models how [make_ext4fs.c] and [ext4_utils.c] of [android/ext4_utils] compute the
    parameters of a file system from its length, and shows that they are the parameters
    that the allocator needs. *)

From S2P Require Import Prelude Ext4Alloc Ext4Region Ext4Extent Ext4Dir.

Record fs_info := {
  f_len : Z;
  f_block_size : Z;
  f_blocks_per_group : Z;
  f_inodes_per_group : Z;
  f_inode_size : Z;
  f_inodes : Z;
  f_journal_blocks : Z;
  f_bg_desc_reserve_blocks : Z;
  f_no_journal : bool;
}.

(** [sizeof (struct ext2_group_desc)]. *)
Definition group_desc_size : Z := 32.

Definition compute_block_size : Z := 4096.

Definition compute_journal_blocks (info : fs_info) : Z :=
  let journal_blocks := u32 (DIV_ROUND_UP (f_len info) (f_block_size info) / 64) in
  let journal_blocks := if journal_blocks <? 1024 then 1024 else journal_blocks in
  if 32768 <? journal_blocks then 32768 else journal_blocks.

Definition compute_blocks_per_group (info : fs_info) : Z := u32 (f_block_size info * 8).

Definition compute_inodes (info : fs_info) : Z := u32 (DIV_ROUND_UP (f_len info) (f_block_size info) / 4).

(** The inodes of a group, and the number of all inodes. *)
Definition compute_inodes_per_group (info : fs_info) : Z * Z :=
  let blocks := u32 (DIV_ROUND_UP (f_len info) (f_block_size info)) in
  let block_groups := u32 (blocks + f_blocks_per_group info - 1) / f_blocks_per_group info in
  let inodes := u32 (f_inodes info + block_groups - 1) / block_groups in
  let per_block := f_block_size info / f_inode_size info in
  let inodes := u32 (per_block * (u32 (inodes + per_block - 1) / per_block)) in
  (inodes, u32 (inodes * block_groups)).

Definition compute_bg_desc_reserve_blocks (info : fs_info) : Z :=
  let blocks := u32 (DIV_ROUND_UP (f_len info) (f_block_size info)) in
  let block_groups := u32 (blocks + f_blocks_per_group info - 1) / f_blocks_per_group info in
  let bg_desc_blocks := u32 (DIV_ROUND_UP (block_groups * group_desc_size) (f_block_size info)) in
  let reserve := u32 (DIV_ROUND_UP (u32 (block_groups * 1024) * group_desc_size) (f_block_size info) - bg_desc_blocks) in
  if f_block_size info / 4 <? reserve then f_block_size info / 4 else reserve.

(** [make_ext4fs_from_dir] clears [info] and sets the length; [make_ext4fs_internal]
    computes the rest.  [file_size] is what [get_file_size] gives. *)
Definition make_info (len file_size : Z) : option fs_info :=
  let len := if len <=? 0 then file_size else len in
  if len <=? 0 then None
  else
    let info := {| f_len := Z.ldiff len (compute_block_size - 1); f_block_size := compute_block_size; f_blocks_per_group := 0;
                   f_inodes_per_group := 0; f_inode_size := 0; f_inodes := 0; f_journal_blocks := 0;
                   f_bg_desc_reserve_blocks := 0; f_no_journal := false |} in
    let journal := compute_journal_blocks info in
    let bpg := compute_blocks_per_group info in
    let inodes := compute_inodes info in
    let info := {| f_len := f_len info; f_block_size := f_block_size info; f_blocks_per_group := bpg;
                   f_inodes_per_group := 0; f_inode_size := 256; f_inodes := inodes; f_journal_blocks := journal;
                   f_bg_desc_reserve_blocks := 0; f_no_journal := false |} in
    let '(ipg, inodes) := compute_inodes_per_group info in
    let reserve := compute_bg_desc_reserve_blocks info in
    Some {| f_len := f_len info; f_block_size := f_block_size info; f_blocks_per_group := bpg; f_inodes_per_group := ipg;
            f_inode_size := 256; f_inodes := inodes; f_journal_blocks := journal; f_bg_desc_reserve_blocks := reserve;
            f_no_journal := false |}.

(** [ext4_create_fs_aux_info]: the last group is left out when its header does not fit. *)
Definition ext4_create_fs_aux_info (info : fs_info) : geometry :=
  let first_data_block := if 1024 <? f_block_size info then 0 else 1 in
  let len_blocks := f_len info / f_block_size info in
  let inode_table_blocks := u32 (f_inodes_per_group info * f_inode_size info + f_block_size info - 1) / f_block_size info in
  let groups := u32 ((len_blocks - first_data_block + f_blocks_per_group info - 1) / f_blocks_per_group info) in
  let bg_desc_blocks := u32 (DIV_ROUND_UP (groups * group_desc_size) (f_block_size info)) in
  let g := fun groups len_blocks =>
    {| block_size := f_block_size info; blocks_per_group := f_blocks_per_group info; inodes_per_group := f_inodes_per_group info;
       inode_size := f_inode_size info; bg_desc_reserve_blocks := f_bg_desc_reserve_blocks info; sparse_super := true;
       first_data_block := first_data_block; len_blocks := len_blocks; inode_table_blocks := inode_table_blocks;
       groups := groups; bg_desc_blocks := bg_desc_blocks |} in
  let last_group_size := u32 (len_blocks mod f_blocks_per_group info) in
  let last_header_size := 2 + inode_table_blocks +
    (if ext4_bg_has_super_block (g groups len_blocks) (u32 (groups - 1)) then 1 + bg_desc_blocks + f_bg_desc_reserve_blocks info else 0) in
  if (0 <? last_group_size) && (last_group_size <? last_header_size)
  then g (u32 (groups - 1)) (len_blocks - last_group_size)
  else g groups len_blocks.

(** ** The parameters are good *)

Section good.
Context (len : Z) (Hlen : 65536 <= len < 2 ^ 43).

Let B := len / 4096.
Let n := (B + 32767) / 32768.

Lemma blocks_range : 16 <= B < 2 ^ 31 /\ Z.ldiff len 4095 = B * 4096.
Proof.
  unfold B. split; [split; [apply Z.div_le_lower_bound; lia|apply Z.div_lt_upper_bound; lia]|].
  replace 4095 with (Z.ones 12) by done. rewrite Z.ldiff_ones_r, Z.shiftr_div_pow2, Z.shiftl_mul_pow2 by lia. done.
Qed.

Lemma groups_range : 1 <= n <= 65536 /\ 32768 * (n - 1) < B <= 32768 * n.
Proof.
  pose proof blocks_range. unfold n. pose proof (Z.div_mod (B + 32767) 32768 ltac:(lia)). pose proof (Z.mod_pos_bound (B + 32767) 32768 ltac:(lia)).
  set (q := (B + 32767) / 32768) in *. lia.
Qed.

(** The inodes of a group: a quarter of its blocks, to full blocks of inodes. *)
Definition good_ipg : Z := 16 * ((((B / 4) + n - 1) / n + 15) / 16).

Lemma good_ipg_range : 16 <= good_ipg <= 8192 /\ (n = 1 -> good_ipg <= B / 4 + 15) /\ good_ipg mod 16 = 0.
Proof.
  pose proof blocks_range. pose proof groups_range. unfold good_ipg.
  pose proof (Z.div_mod B 4 ltac:(lia)). pose proof (Z.mod_pos_bound B 4 ltac:(lia)). set (i := B / 4) in *.
  pose proof (Z.div_mod (i + n - 1) n ltac:(lia)). pose proof (Z.mod_pos_bound (i + n - 1) n ltac:(lia)). set (q := (i + n - 1) / n) in *.
  pose proof (Z.div_mod (q + 15) 16 ltac:(lia)). pose proof (Z.mod_pos_bound (q + 15) 16 ltac:(lia)). set (r := (q + 15) / 16) in *.
  assert (1 <= q) by nia. assert (q <= 8192) by nia. split; [lia|]. split.
  - intros E. assert (q = i) by nia. lia.
  - rewrite Z.mul_comm. apply Z_mod_mult.
Qed.

Definition good_desc : Z := (n * 32 + 4095) / 4096.
Definition good_reserve : Z := Z.min 1024 (n * 8 - good_desc).

Lemma good_desc_range : 1 <= good_desc <= 512 /\ 0 <= good_reserve <= 1024 /\ (n = 1 -> good_desc = 1 /\ good_reserve = 7) /\ 0 < good_reserve.
Proof.
  pose proof groups_range. unfold good_reserve, good_desc. pose proof (Z.div_mod (n * 32 + 4095) 4096 ltac:(lia)).
  pose proof (Z.mod_pos_bound (n * 32 + 4095) 4096 ltac:(lia)). set (d := (n * 32 + 4095) / 4096) in *.
  split; [lia|]. split; [lia|]. split; [|lia]. intros ->. lia.
Qed.

Lemma make_info_good fsz :
  make_info len fsz =
  Some {| f_len := B * 4096; f_block_size := 4096; f_blocks_per_group := 32768; f_inodes_per_group := good_ipg; f_inode_size := 256;
          f_inodes := good_ipg * n; f_journal_blocks := Z.min 32768 (Z.max 1024 (B / 64)); f_bg_desc_reserve_blocks := good_reserve;
          f_no_journal := false |}.
Proof.
  pose proof blocks_range as [HB EB]. pose proof groups_range as [Hn1 Hn2]. pose proof good_ipg_range as [Hi _]. pose proof good_desc_range as (Hd & Hr & _).
  unfold make_info. rewrite (proj2 (Z.leb_gt len 0)) by lia. rewrite (proj2 (Z.leb_gt len 0)) by lia.
  change (compute_block_size - 1) with 4095. rewrite EB.
  assert (DIV_ROUND_UP (B * 4096) 4096 = B) as E1 by (apply div_round_up_mul; lia).
  unfold compute_journal_blocks, compute_blocks_per_group, compute_inodes, compute_inodes_per_group, compute_bg_desc_reserve_blocks.
  cbn [f_len f_block_size f_blocks_per_group f_inode_size f_inodes]. change compute_block_size with 4096. rewrite E1.
  change (u32 (4096 * 8)) with 32768. change (4096 / 256) with 16. change (4096 / 4) with 1024.
  assert (0 <= B / 4 < 2 ^ 30) as H4 by (split; [apply Z.div_pos; lia|apply Z.div_lt_upper_bound; lia]).
  assert (0 <= B / 64 < 2 ^ 25) as H64 by (split; [apply Z.div_pos; lia|apply Z.div_lt_upper_bound; lia]).
  rewrite (wrap_small 32 (B / 64)), (wrap_small 32 (B / 4)), (wrap_small 32 B) by (unfold in_u; lia).
  replace (B + 32768 - 1) with (B + 32767) by lia. rewrite (wrap_small 32 (B + 32767)) by (unfold in_u; lia). fold n.
  rewrite (wrap_small 32 (B / 4 + n - 1)) by (unfold in_u; lia).
  assert (0 <= (B / 4 + n - 1) / n <= 8192 + 16) as Hq.
  { unfold good_ipg in Hi. pose proof (Z.div_mod ((B / 4 + n - 1) / n + 15) 16 ltac:(lia)).
    pose proof (Z.mod_pos_bound ((B / 4 + n - 1) / n + 15) 16 ltac:(lia)). lia. }
  replace ((B / 4 + n - 1) / n + 16 - 1) with ((B / 4 + n - 1) / n + 15) by lia.
  rewrite (wrap_small 32 ((B / 4 + n - 1) / n + 15)) by (unfold in_u; lia). fold good_ipg.
  rewrite (wrap_small 32 good_ipg), (wrap_small 32 (good_ipg * n)) by (unfold in_u; nia).
  unfold DIV_ROUND_UP, group_desc_size. replace (n * 32 + 4096 - 1) with (n * 32 + 4095) by lia. fold good_desc.
  rewrite (wrap_small 32 (n * 1024)) by (unfold in_u; lia).
  assert ((n * 1024 * 32 + 4096 - 1) / 4096 = n * 8) as ->.
  { symmetry. apply (Z.div_unique _ _ _ 4095); lia. }
  rewrite (wrap_small 32 good_desc) by (unfold in_u; lia). rewrite (wrap_small 32 (n * 8 - good_desc)) by (unfold in_u, good_reserve in *; lia).
  assert ((if 1024 <? n * 8 - good_desc then 1024 else n * 8 - good_desc) = good_reserve) as ->
    by (unfold good_reserve; destruct (Z.ltb_spec 1024 (n * 8 - good_desc)); lia).
  set (j := if 32768 <? _ then _ else _). assert (j = Z.min 32768 (Z.max 1024 (B / 64))) as ->; [|done]. unfold j.
  destruct (Z.ltb_spec (B / 64) 1024); [change (32768 <? 1024) with false; cbv iota; lia|].
  destruct (Z.ltb_spec 32768 (B / 64)); lia.
Qed.

(** The last group is left out when it is partial and too small for its header. *)
Definition good_header (i : Z) : Z :=
  2 + good_ipg / 16 +
  (if (i =? 0) || (i =? 1) || (is_power_of i 3 || is_power_of i 5 || is_power_of i 7) then 1 + good_desc + good_reserve else 0).

Definition good_geometry (groups len_blocks : Z) : geometry :=
  {| block_size := 4096; blocks_per_group := 32768; inodes_per_group := good_ipg; inode_size := 256;
     bg_desc_reserve_blocks := good_reserve; sparse_super := true; first_data_block := 0; len_blocks := len_blocks;
     inode_table_blocks := good_ipg / 16; groups := groups; bg_desc_blocks := good_desc |}.

Lemma good_header_size i groups lb : header_size (good_geometry groups lb) i = good_header i.
Proof.
  unfold header_size, good_header, ext4_bg_has_super_block. cbn. by destruct ((i =? 0) || (i =? 1)), (is_power_of i 3 || is_power_of i 5 || is_power_of i 7).
Qed.

Lemma good_header_range i : 3 <= good_header i <= 2051 /\ (n = 1 -> good_header i <= 12 + B / 64).
Proof.
  pose proof blocks_range as [HB _]. pose proof good_ipg_range as (Hi & Hi1 & Him). pose proof good_desc_range as (Hd & Hr & Hd1 & _).
  pose proof (Z.div_mod good_ipg 16 ltac:(lia)). pose proof (Z.div_mod B 4 ltac:(lia)). pose proof (Z.div_mod B 64 ltac:(lia)).
  pose proof (Z.mod_pos_bound B 4 ltac:(lia)). pose proof (Z.mod_pos_bound B 64 ltac:(lia)).
  unfold good_header. destruct ((i =? 0) || (i =? 1) || _); split; intros; try specialize (Hi1 ltac:(done)); try specialize (Hd1 ltac:(done)); lia.
Qed.

Lemma aux_info_good fsz info :
  make_info len fsz = Some info ->
  exists groups lb, ext4_create_fs_aux_info info = good_geometry groups lb /\ 1 <= groups <= n /\ n <= groups + 1 /\ (n = 1 -> groups = 1 /\ lb = B) /\
    32768 * (groups - 1) + good_header (groups - 1) <= lb <= 32768 * groups /\ lb <= B.
Proof.
  rewrite make_info_good. intros [= <-]. pose proof blocks_range as [HB _]. pose proof groups_range as [Hn1 Hn2].
  pose proof good_ipg_range as (Hi & _ & Him). pose proof good_desc_range as (Hd & Hr & _). pose proof (Z.div_mod good_ipg 16 ltac:(lia)) as Dip.
  unfold ext4_create_fs_aux_info. cbn [f_len f_block_size f_blocks_per_group f_inodes_per_group f_inode_size f_bg_desc_reserve_blocks].
  change (1024 <? 4096) with true. cbv iota. rewrite Z.div_mul, Z.sub_0_r by done.
  assert (u32 (good_ipg * 256 + 4096 - 1) / 4096 = good_ipg / 16) as ->.
  { rewrite wrap_small by (unfold in_u; lia). symmetry. apply (Z.div_unique _ _ _ 4095); lia. }
  replace (B + 32768 - 1) with (B + 32767) by lia. fold n. rewrite (wrap_small 32 n) by (unfold in_u; lia).
  unfold DIV_ROUND_UP, group_desc_size. replace (n * 32 + 4096 - 1) with (n * 32 + 4095) by lia. fold good_desc.
  rewrite (wrap_small 32 good_desc), (wrap_small 32 (n - 1)) by (unfold in_u; lia).
  change {| block_size := 4096; blocks_per_group := 32768; inodes_per_group := good_ipg; inode_size := 256;
     bg_desc_reserve_blocks := good_reserve; sparse_super := true; first_data_block := 0; len_blocks := ?lb;
     inode_table_blocks := good_ipg / 16; groups := ?gr; bg_desc_blocks := good_desc |} with (good_geometry gr lb).
  set (m := u32 (B mod 32768)).
  assert (0 <= B mod 32768 < 32768) as Hm by (apply Z.mod_pos_bound; lia).
  assert (m = B mod 32768) as Em by (unfold m; apply wrap_small; unfold in_u; lia).
  pose proof (Z.div_mod B 32768 ltac:(lia)) as DB. set (q := B / 32768) in *.
  assert (m = 0 /\ n = q \/ 0 < m /\ n = q + 1) as Hnq by lia.
  pose proof (good_header_size (n - 1) n B) as Hh. unfold header_size in Hh. cbn [good_geometry inode_table_blocks bg_desc_blocks bg_desc_reserve_blocks] in Hh.
  rewrite Hh. pose proof (good_header_range (n - 1)) as [Hr1 Hr2]. pose proof (good_header_range (n - 1 - 1)) as [Hr3 _].
  destruct (Z.ltb_spec 0 m), (Z.ltb_spec m (good_header (n - 1))); cbn [andb].
  - exists (n - 1), (B - m). destruct (decide (n = 1)) as [E1|N1].
    { exfalso. specialize (Hr2 E1). pose proof (Z.div_mod B 64 ltac:(lia)). pose proof (Z.mod_pos_bound B 64 ltac:(lia)). lia. }
    split; [done|]. split; [lia|]. split; [lia|]. split; [lia|]. lia.
  - exists n, B. split; [done|]. split; [lia|]. split; [lia|]. split; [lia|]. lia.
  - exists n, B. split; [done|]. split; [lia|]. split; [lia|]. split; [lia|]. lia.
  - exists n, B. split; [done|]. split; [lia|]. split; [lia|]. split; [lia|]. lia.
Qed.

End good.

(** What the length gives are parameters with which the allocator works: every group has
    room for its header, the groups cover the blocks, and the counts fit their integers. *)
Theorem make_geometry_good len fsz info :
  65536 <= len < 2 ^ 43 -> make_info len fsz = Some info ->
  geometry_ok (ext4_create_fs_aux_info info) /\
  block_size (ext4_create_fs_aux_info info) = 4096 /\
  len_blocks (ext4_create_fs_aux_info info) * 4096 <= len /\
  1024 <= f_journal_blocks info <= 32768.
Proof.
  intros Hlen E. destruct (aux_info_good len Hlen fsz info E) as (gr & lb & -> & Hg & Hgn & _ & Hlb & HlbB).
  rewrite (make_info_good len Hlen) in E. injection E as <-. cbn [f_journal_blocks].
  pose proof (blocks_range len Hlen) as [HB _]. pose proof (groups_range len Hlen) as [Hn1 Hn2].
  pose proof (good_ipg_range len Hlen) as (Hi & _ & Him). pose proof (good_desc_range len Hlen) as (Hd & Hr & _).
  pose proof (Z.div_mod (good_ipg len) 16 ltac:(lia)) as Dip. pose proof (good_header_range len Hlen) as Hh.
  split; [|split; [done|split; [cbn; pose proof (Z.div_mod len 4096 ltac:(lia)); pose proof (Z.mod_pos_bound len 4096 ltac:(lia)); lia|lia]]].
  constructor; cbn; try lia.
  - unfold bg_start. cbn. lia.
  - intros i Hi'. rewrite good_header_size by done. unfold group_size, bg_start. cbn. destruct (Hh i) as [Hh1 _], (Hh (gr - 1)) as [Hh2 _].
    destruct (decide (i = gr - 1)) as [->|]; lia.
  - unfold EXT4_ALLOCATE_FAILED. nia.
Qed.

Lemma make_geometry_good_witness :
  65536 <= 64 * 1024 * 1024 < 2 ^ 43 /\ exists info, make_info (64 * 1024 * 1024) 0 = Some info /\
    geometry_ok (ext4_create_fs_aux_info info) /\ len_blocks (ext4_create_fs_aux_info info) * 4096 <= 64 * 1024 * 1024.
Proof.
  split; [lia|]. eexists. split; [vm_compute; reflexivity|].
  destruct (make_geometry_good (64 * 1024 * 1024) 0 _ ltac:(lia) ltac:(vm_compute; reflexivity)) as (H1 & _ & H2 & _). split; [exact H1|exact H2].
Defined.
