(* ===== verification/Ext4Fixup.v ===== *)
(** * Repairing the inode numbers of a file system

    Models [ext4fixup.c] of [android/ext4_utils]: file systems whose inodes per group do
    not fill their blocks are given a number that does, so every inode number in every
    directory changes.  The tool may be interrupted at any write: numbers are first
    marked, then updated, and a word at the start of the disk tells where it was.  The
    disk is given by its directory blocks (as entries), the other blocks that are read
    (extents, indirect blocks, bitmaps), the inodes at their places and the superblocks.
    The stops that the tool has for its own tests are left out: any write may be the last. *)

From S2P Require Import Prelude Ext4Alloc.

(** ** What is on the disk *)

Record dirent := { d_inode : Z; rec_len : Z; file_type : Z; d_name : bytes }.

Record extent := { ee_block : Z; ee_len : Z; ee_start_hi : Z; ee_start_lo : Z }.
(** A node of an extent tree: its header, and what follows it read as extents or as indices. *)
Record extent_node := { eh_magic : Z; eh_depth : Z; eh_extents : list extent; eh_indices : list (Z * Z) }.

Record ext4_inode := {
  is_directory : bool; (* S_ISDIR(i_mode) *)
  i_flags : Z;
  i_blocks_lo : Z;
  i_block : list Z; (* as block numbers *)
  i_extents : extent_node; (* the same bytes as a node *)
}.

(** Blocks that are not of directories. *)
Inductive other_block := Node (n : extent_node) | Indirect (l : list Z) | Bitmap (bm : list Z).

Record ext4_super_block := {
  s_inodes_count : Z;
  s_free_inodes_count : Z;
  s_inodes_per_group : Z;
  s_desc_size : Z;
  s_block_group_nr : Z;
  s_feature_incompat : Z;
}.

Record group_desc := { bg_inode_bitmap : Z; bg_free_inodes_count : Z }.

Record disk := {
  magic : Z; (* the word at the start *)
  sb : ext4_super_block;
  bg_desc : list group_desc;
  dirs : gmap Z (list dirent);
  others : gmap Z other_block;
  inodes : gmap (Z * Z) ext4_inode; (* by group and place in it *)
  backups : gmap Z (ext4_super_block * list group_desc);
}.

Definition with_magic (m : Z) (d : disk) : disk :=
  {| magic := m; sb := sb d; bg_desc := bg_desc d; dirs := dirs d; others := others d; inodes := inodes d; backups := backups d |}.
Definition with_sb (s : ext4_super_block) (d : disk) : disk :=
  {| magic := magic d; sb := s; bg_desc := bg_desc d; dirs := dirs d; others := others d; inodes := inodes d; backups := backups d |}.
Definition with_bg_desc (b : list group_desc) (d : disk) : disk :=
  {| magic := magic d; sb := sb d; bg_desc := b; dirs := dirs d; others := others d; inodes := inodes d; backups := backups d |}.
Definition with_dir (b : Z) (es : list dirent) (d : disk) : disk :=
  {| magic := magic d; sb := sb d; bg_desc := bg_desc d; dirs := <[b := es]> (dirs d); others := others d; inodes := inodes d; backups := backups d |}.
Definition with_other (b : Z) (o : other_block) (d : disk) : disk :=
  {| magic := magic d; sb := sb d; bg_desc := bg_desc d; dirs := dirs d; others := <[b := o]> (others d); inodes := inodes d; backups := backups d |}.
Definition with_backup (i : Z) (s : ext4_super_block * list group_desc) (d : disk) : disk :=
  {| magic := magic d; sb := sb d; bg_desc := bg_desc d; dirs := dirs d; others := others d; inodes := inodes d; backups := <[i := s]> (backups d) |}.

(** ** A run that may be interrupted

    [budget]: how many writes there will be before the power fails.  [mem_desc]: the
    group descriptors in memory; [no_write_state]: what stands for the magic word
    when nothing is written. *)

Record world := { on_disk : disk; budget : nat; mem_desc : list group_desc; no_write_state : Z }.

Inductive result (A : Type) := Ok (a : A) | Crashed | Failed | Undef.
Arguments Ok {_} a. Arguments Crashed {_}. Arguments Failed {_}. Arguments Undef {_}.

Definition M (A : Type) : Type := world -> result A * world.

Definition ret {A} (a : A) : M A := fun w => (Ok a, w).
Definition fail {A} : M A := fun w => (Failed, w).
Definition undef {A} : M A := fun w => (Undef, w).
#[export] Instance M_bind : MBind M := fun A B k m w =>
  match m w with
  | (Ok a, w) => k a w
  | (Crashed, w) => (Crashed, w)
  | (Failed, w) => (Failed, w)
  | (Undef, w) => (Undef, w)
  end.

Definition read {A} (f : disk -> A) : M A := fun w => (Ok (f (on_disk w)), w).
Definition access {A} (o : option A) : M A := match o with Some a => ret a | None => undef end.

(** One write. *)
Definition write (f : disk -> disk) : M unit := fun w =>
  match budget w with
  | O => (Crashed, w)
  | S b => (Ok tt, {| on_disk := f (on_disk w); budget := b; mem_desc := mem_desc w; no_write_state := no_write_state w |})
  end.

Definition memory : M (list group_desc) := fun w => (Ok (mem_desc w), w).
Definition set_memory (m : list group_desc) : M unit := fun w =>
  (Ok tt, {| on_disk := on_disk w; budget := budget w; mem_desc := m; no_write_state := no_write_state w |}).
Definition set_no_write_state (s : Z) : M unit := fun w =>
  (Ok tt, {| on_disk := on_disk w; budget := budget w; mem_desc := mem_desc w; no_write_state := s |}).

Inductive pass := SANITY_CHECK_PASS | MARK_INODE_NUMS | UPDATE_INODE_NUMS.

Definition INODE_BLOCK_SIZE : Z := 512.
Definition EXT4_NDIR_BLOCKS : Z := 12.
Definition EXT4_EXTENTS_FL : Z := 524288.
Definition EXT4_EXT_MAGIC : Z := 62218.
Definition EXT4_FT_UNKNOWN : Z := 0.
Definition FT_DIR : Z := 2.
Definition high_bit : Z := 2 ^ 31.

(** Reading, setting and clearing the mark. *)
Definition marked_num (i : Z) : bool := negb (Z.land i high_bit =? 0).
Definition mark_num (i : Z) : Z := Z.lor i high_bit.
Definition clear_num (i : Z) : Z := Z.land i (high_bit - 1).

Section filesystem.
(** The parameters read from the superblock; [inodes_per_group] among them is the old number. *)
Context (info : geometry).

(** [ALIGN(info.inodes_per_group, info.block_size / info.inode_size)]. *)
Definition new_inodes_per_group : Z :=
  let y := block_size info / inode_size info in y * ((inodes_per_group info + y - 1) / y).

Definition compute_new_inum (old_inum : Z) : Z :=
  let group := u32 (old_inum - 1) / inodes_per_group info in
  let offset := u32 (old_inum - 1) mod inodes_per_group info in
  u32 (group * new_inodes_per_group + offset + 1).

(** An inode of a group that does not exist is read through a descriptor behind the table. *)
Definition read_inode (inum : Z) : M ext4_inode :=
  let bg_num := u32 (inum - 1) / inodes_per_group info in
  let bg_offset := u32 (inum - 1) mod inodes_per_group info in
  m ← read inodes; access (m !! (bg_num, bg_offset)).

Definition read_dir_block (b : Z) : M (list dirent) := m ← read dirs; access (m !! b).
Definition read_other (b : Z) : M other_block := m ← read others; access (m !! b).

Definition write_dir_block (no_write : bool) (b : Z) (es : list dirent) : M unit := if no_write then ret tt else write (with_dir b es).
Definition write_other (no_write : bool) (b : Z) (o : other_block) : M unit := if no_write then ret tt else write (with_other b o).

(** ** The blocks of a directory *)

(** The list has [num_blocks + 1] places; writing behind them is undefined. *)
Definition put (num_blocks i b : Z) (l : gmap Z Z) : option (gmap Z Z) :=
  if (0 <=? i) && (i <=? num_blocks) then Some (<[i := b]> l) else None.

Fixpoint puts (num_blocks i : Z) (bs : list Z) (l : gmap Z Z) : option (gmap Z Z) :=
  match bs with [] => Some l | b :: bs => l ← put num_blocks i b l; puts num_blocks (i + 1) bs l end.

Definition sectors_per_block : Z := block_size info / INODE_BLOCK_SIZE.

(** With whether there are more. *)
Definition get_direct_blocks (num_blocks : Z) (ino : ext4_inode) : M (bool * gmap Z Z) :=
  let n := i_blocks_lo ino / sectors_per_block in
  let direct := take (Z.to_nat (Z.min n EXT4_NDIR_BLOCKS)) (i_block ino) in
  l ← access (puts num_blocks 0 direct ∅); ret (EXT4_NDIR_BLOCKS <? n, l).

Definition get_indirect_blocks (num_blocks : Z) (ino : ext4_inode) (l : gmap Z Z) : M (gmap Z Z) :=
  b ← access (i_block ino !! Z.to_nat EXT4_NDIR_BLOCKS);
  o ← read_other b;
  match o with
  | Indirect bs =>
      let n := i_blocks_lo ino / sectors_per_block - EXT4_NDIR_BLOCKS in
      if zlen bs <? n then undef else access (puts num_blocks EXT4_NDIR_BLOCKS (take (Z.to_nat n) bs) l)
  | _ => undef
  end.

Definition get_block_list_indirect (num_blocks : Z) (ino : ext4_inode) : M (gmap Z Z) :=
  '(more, l) ← get_direct_blocks num_blocks ino;
  if (more : bool) then get_indirect_blocks num_blocks ino l else ret l.

Fixpoint get_extents (num_blocks : Z) (es : list extent) (l : gmap Z Z) : option (gmap Z Z) :=
  match es with
  | [] => Some l
  | e :: es =>
      let fs_block_num := Z.lor (Z.shiftl (ee_start_hi e) 32) (ee_start_lo e) in
      l ← puts num_blocks (ee_block e) (seqZ fs_block_num (ee_len e)) l; get_extents num_blocks es l
  end.
Definition get_extent_ents (num_blocks : Z) (n : extent_node) (l : gmap Z Z) : M (gmap Z Z) :=
  if negb (eh_depth n =? 0) then fail else access (get_extents num_blocks (eh_extents n) l).

(** The recursion through the indices; [fuel] bounds the depth of the tree. *)
Fixpoint get_extent_idx (fuel : nat) (num_blocks : Z) (n : extent_node) (l : gmap Z Z) : M (gmap Z Z) :=
  match fuel with
  | O => undef
  | S fuel =>
      if eh_depth n =? 0 then fail
      else
        (fix go (indices : list (Z * Z)) (l : gmap Z Z) : M (gmap Z Z) :=
           match indices with
           | [] => ret l
           | (hi, lo) :: indices =>
               o ← read_other (Z.lor (Z.shiftl hi 32) lo);
               match o with
               | Node n' =>
                   l ← (if eh_depth n' =? 0 then get_extent_ents num_blocks n' l else get_extent_idx fuel num_blocks n' l);
                   go indices l
               | _ => undef
               end
           end) (eh_indices n) l
  end.

Definition get_block_list_extents (fuel : nat) (num_blocks : Z) (ino : ext4_inode) : M (gmap Z Z) :=
  let extent_hdr := i_extents ino in
  if negb (eh_magic extent_hdr =? EXT4_EXT_MAGIC) then fail
  else if eh_depth extent_hdr =? 0 then get_extent_ents num_blocks extent_hdr ∅
  else get_extent_idx fuel num_blocks extent_hdr ∅.

(** The first [n] places of the list; one that was not filled in is undefined. *)
Definition listed (n : Z) (l : gmap Z Z) : option (list Z) := mapM (fun i => l !! i) (seqZ 0 n).

Definition block_list (fuel : nat) (num_blocks : Z) (ino : ext4_inode) : M (list Z) :=
  l ← (if negb (Z.land (i_flags ino) EXT4_EXTENTS_FL =? 0) then get_block_list_extents fuel num_blocks ino
       else if block_size info / 4 + EXT4_NDIR_BLOCKS <? num_blocks then fail
       else get_block_list_indirect num_blocks ino);
  access (listed num_blocks l).

(** ** The entries of a directory *)

Definition is_entry_dir (e : dirent) (mode : pass) : M bool :=
  if file_type e =? FT_DIR then ret true
  else if file_type e =? EXT4_FT_UNKNOWN then
    match mode with
    | UPDATE_INODE_NUMS => if negb (marked_num (d_inode e)) then ret false else ino ← read_inode (clear_num (d_inode e)); ret (is_directory ino)
    | _ => ino ← read_inode (clear_num (d_inode e)); ret (is_directory ino)
    end
  else ret false.

Definition with_inode (i : Z) (e : dirent) : dirent := {| d_inode := i; rec_len := rec_len e; file_type := file_type e; d_name := d_name e |}.
Definition with_rec_len (n : Z) (e : dirent) : dirent := {| d_inode := d_inode e; rec_len := n; file_type := file_type e; d_name := d_name e |}.

Definition process_entry (mode : pass) (e : dirent) : dirent :=
  match mode with
  | SANITY_CHECK_PASS => e
  | MARK_INODE_NUMS => with_inode (mark_num (d_inode e)) e
  | UPDATE_INODE_NUMS => if marked_num (d_inode e) then with_inode (compute_new_inum (clear_num (d_inode e))) e else e
  end.

Definition self_or_parent (name : bytes) : bool := bool_decide (name = [46]) || bool_decide (name = [46; 46]).

(** Whether an entry that is a directory is descended into. *)
Definition visits (mode : pass) (e : dirent) : bool :=
  negb (self_or_parent (d_name e)) && match mode with UPDATE_INODE_NUMS => marked_num (d_inode e) | _ => true end.

(** A last entry that is too short is given the rest of the block, but not while marking. *)
Definition fixes_length (mode : pass) (leftover_space : Z) : bool :=
  match mode with MARK_INODE_NUMS => false | _ => leftover_space <=? 8 end.

(** The entries of one block, from offset [o] on; [rest]: the bytes of the blocks after it; [done_]: the entries
    before, the last one first.  With whether the walk goes on to the next block.  What is behind the entries is
    zeros, where the walk ends like at an entry without inode; an entry of no length is never left. *)
Section walk.
Context (mode : pass) (visit : dirent -> M unit).

Fixpoint walk (es : list dirent) (o rest : Z) (done_ : list dirent) : M (list dirent * bool) :=
  let leftover_space := block_size info - o + rest in
  if leftover_space <=? 0 then ret (rev done_ ++ es, false)
  else if o =? block_size info then ret (rev done_ ++ es, true)
  else if block_size info <? o then undef
  else
    match fixes_length mode leftover_space, done_ with
    | true, prev :: before => ret (rev (with_rec_len (u16 (rec_len prev + leftover_space)) prev :: before) ++ es, false)
    | _, _ =>
        match es with
        | [] => ret (rev done_, false)
        | e :: es' =>
            if d_inode e =? 0 then ret (rev done_ ++ es, false)
            else if rec_len e <=? 0 then undef
            else
              is_dir ← is_entry_dir e mode;
              _ ← (if (is_dir : bool) && visits mode e then visit e else ret tt);
              walk es' (o + rec_len e) rest (process_entry mode e :: done_)
        end
    end.

(** The blocks of the buffer, one after the other. *)
Fixpoint walk_blocks (bs : list (list dirent)) : M (list (list dirent)) :=
  match bs with
  | [] => ret []
  | es :: bs =>
      '(es, on) ← walk es 0 (block_size info * zlen bs) [];
      if (on : bool) then bs ← walk_blocks bs; ret (es :: bs) else ret (es :: bs)
  end.
End walk.

Fixpoint read_dir_blocks (bl : list Z) : M (list (list dirent)) :=
  match bl with [] => ret [] | b :: bl => es ← read_dir_block b; bs ← read_dir_blocks bl; ret (es :: bs) end.

Fixpoint write_dir_blocks (no_write : bool) (bl : list Z) (bs : list (list dirent)) : M unit :=
  match bl, bs with
  | b :: bl, es :: bs => _ ← write_dir_block no_write b es; write_dir_blocks no_write bl bs
  | _, _ => ret tt
  end.

(** [recurse_dir]; [fuel] bounds the depth of the directories and of the extent trees. *)
Fixpoint recurse_dir (fuel : nat) (no_write : bool) (ino : ext4_inode) (dirsize : Z) (mode : pass) : M unit :=
  match fuel with
  | O => undef
  | S fuel =>
      if negb (dirsize mod block_size info =? 0) then fail
      else
        let num_blocks := dirsize / block_size info in
        bl ← block_list fuel num_blocks ino;
        dirbuf ← read_dir_blocks bl;
        dirbuf ← walk_blocks mode
          (fun e =>
             tmp_inode ← read_inode (clear_num (d_inode e));
             if negb (is_directory tmp_inode) then fail
             else recurse_dir fuel no_write tmp_inode (i_blocks_lo tmp_inode * INODE_BLOCK_SIZE) mode) dirbuf;
        write_dir_blocks no_write bl dirbuf
  end.

(** ** The superblocks *)

Definition set_low_bit (s : ext4_super_block) : ext4_super_block :=
  {| s_inodes_count := s_inodes_count s; s_free_inodes_count := s_free_inodes_count s; s_inodes_per_group := s_inodes_per_group s;
     s_desc_size := Z.lor (s_desc_size s) 1; s_block_group_nr := s_block_group_nr s; s_feature_incompat := s_feature_incompat s |}.
Definition clear_low_bit (s : ext4_super_block) : ext4_super_block :=
  {| s_inodes_count := s_inodes_count s; s_free_inodes_count := s_free_inodes_count s; s_inodes_per_group := s_inodes_per_group s;
     s_desc_size := Z.ldiff (s_desc_size s) 1; s_block_group_nr := s_block_group_nr s; s_feature_incompat := s_feature_incompat s |}.

Definition STATE_UNSET : Z := 0.
Definition STATE_MARKING_INUMS : Z := 1.
Definition STATE_UPDATING_INUMS : Z := 2.
Definition STATE_UPDATING_SB : Z := 3.
Definition MAGIC_STATE_MARKING_INUMS : Z := 8070473712544404754.
Definition MAGIC_STATE_UPDATING_INUMS : Z := 6998896264233570595.
Definition MAGIC_STATE_UPDATING_SB : Z := 1576665938627232887.

Definition state_of (magic : Z) : Z :=
  if magic =? MAGIC_STATE_MARKING_INUMS then STATE_MARKING_INUMS
  else if magic =? MAGIC_STATE_UPDATING_INUMS then STATE_UPDATING_INUMS
  else if magic =? MAGIC_STATE_UPDATING_SB then STATE_UPDATING_SB
  else STATE_UNSET.
Definition magic_of (state : Z) : Z :=
  if state =? STATE_MARKING_INUMS then MAGIC_STATE_MARKING_INUMS
  else if state =? STATE_UPDATING_INUMS then MAGIC_STATE_UPDATING_INUMS
  else if state =? STATE_UPDATING_SB then MAGIC_STATE_UPDATING_SB
  else 0.

Definition get_fs_fixup_state (no_write : bool) : M Z :=
  if no_write then (fun w => (Ok (no_write_state w), w)) else m ← read magic; ret (state_of m).

Definition set_fs_fixup_state (no_write : bool) (state : Z) : M unit :=
  if no_write then set_no_write_state state
  else
    let m := magic_of state in
    _ ← write (with_magic m);
    s ← read sb;
    write (with_sb (if m =? 0 then clear_low_bit s else set_low_bit s)).

(** The bits of new inodes are cleared: the bitmap, and whether it changed. *)
Fixpoint clear_bits (n : nat) (i : Z) (bm : list Z) (updated : bool) : option (list Z * bool) :=
  match n with
  | O => Some (bm, updated)
  | S n =>
      x ← bm !! Z.to_nat (i / 8);
      if Z.testbit x (i mod 8) then clear_bits n (i + 1) (<[Z.to_nat (i / 8) := Z.clearbit x (i mod 8)]> bm) true
      else clear_bits n (i + 1) bm updated
  end.

Definition check_inode_bitmap (no_write : bool) (g : group_desc) : M unit :=
  o ← read_other (bg_inode_bitmap g);
  match o with
  | Bitmap bm =>
      '(bm, updated) ← access (clear_bits (Z.to_nat (new_inodes_per_group - inodes_per_group info)) (inodes_per_group info) bm false);
      if (updated : bool) then write_other no_write (bg_inode_bitmap g) (Bitmap bm) else ret tt
  | _ => undef
  end.

Definition more_free (n : Z) (g : group_desc) : group_desc :=
  {| bg_inode_bitmap := bg_inode_bitmap g; bg_free_inodes_count := u16 (bg_free_inodes_count g + n) |}.

(** The free inodes of each group from [i] on, and its bitmap. *)
Fixpoint update_groups (n : nat) (no_write updating : bool) (more i : Z) : M unit :=
  match n with
  | O => ret tt
  | S n =>
      m ← memory;
      g ← access (m !! Z.to_nat i);
      let g := if updating then more_free more g else g in
      _ ← set_memory (<[Z.to_nat i := g]> m);
      _ ← check_inode_bitmap no_write g;
      update_groups n no_write updating more (i + 1)
  end.

Definition with_nr (i : Z) (s : ext4_super_block) : ext4_super_block :=
  {| s_inodes_count := s_inodes_count s; s_free_inodes_count := s_free_inodes_count s; s_inodes_per_group := s_inodes_per_group s;
     s_desc_size := s_desc_size s; s_block_group_nr := i; s_feature_incompat := s_feature_incompat s |}.

(** The superblock and the descriptors of group [i]: the primary ones or a backup. *)
Definition write_group (no_write : bool) (i : Z) (s : ext4_super_block) (m : list group_desc) : M unit :=
  if no_write then ret tt
  else if i =? 0 then _ ← write (with_sb s); write (with_bg_desc m)
  else _ ← write (fun d => with_backup i (s, default [] (snd <$> (backups d !! i))) d); write (with_backup i (s, m)).

Fixpoint write_groups (n : nat) (no_write : bool) (i : Z) (s : ext4_super_block) : M unit :=
  match n with
  | O => ret tt
  | S n =>
      if ext4_bg_has_super_block info i then
        let s := with_nr i s in
        let s := if i =? 0 then s else clear_low_bit s in
        m ← memory;
        _ ← write_group no_write i s m;
        write_groups n no_write (i + 1) s
      else write_groups n no_write (i + 1) s
  end.

Definition update_superblocks_and_bg_desc (no_write : bool) (state : Z) : M unit :=
  s ← read sb;
  let num_block_groups := (len_blocks info + blocks_per_group info - 1) / blocks_per_group info in
  let more := u32 (new_inodes_per_group - s_inodes_per_group s) in
  let total_new_inodes := u32 (num_block_groups * more) in
  _ ← update_groups (Z.to_nat num_block_groups) no_write (state =? STATE_UPDATING_SB) more 0;
  if negb (u32 (s_inodes_count s + total_new_inodes) =? u32 (new_inodes_per_group * num_block_groups)) then fail
  else if negb (new_inodes_per_group mod (block_size info / inode_size info) =? 0) then fail
  else
    write_groups (Z.to_nat (groups info)) no_write 0
      {| s_inodes_count := u32 (s_inodes_count s + total_new_inodes); s_free_inodes_count := u32 (s_free_inodes_count s + total_new_inodes);
         s_inodes_per_group := new_inodes_per_group; s_desc_size := s_desc_size s; s_block_group_nr := s_block_group_nr s;
         s_feature_incompat := s_feature_incompat s |}.

(** ** The whole run *)

(** The phases in order, each when the state says so. *)
Definition phase_superblocks (no_write : bool) : M unit :=
  state ← get_fs_fixup_state no_write;
  if state =? STATE_UPDATING_SB then
    _ ← update_superblocks_and_bg_desc no_write STATE_UPDATING_SB;
    set_fs_fixup_state no_write STATE_UNSET
  else ret tt.

Definition phase_update (fuel : nat) (no_write : bool) (root_inode : ext4_inode) (dirsize : Z) : M unit :=
  state ← get_fs_fixup_state no_write;
  _ ← (if state =? STATE_UPDATING_INUMS then
         _ ← recurse_dir fuel no_write root_inode dirsize UPDATE_INODE_NUMS;
         set_fs_fixup_state no_write STATE_UPDATING_SB
       else ret tt);
  phase_superblocks no_write.

Definition phase_mark (fuel : nat) (no_write : bool) (root_inode : ext4_inode) (dirsize : Z) : M unit :=
  state ← get_fs_fixup_state no_write;
  _ ← (if state =? STATE_MARKING_INUMS then
         _ ← recurse_dir fuel no_write root_inode dirsize MARK_INODE_NUMS;
         set_fs_fixup_state no_write STATE_UPDATING_INUMS
       else ret tt);
  phase_update fuel no_write root_inode dirsize.

(** The run after the parameters were read; the first phase checks without writing. *)
Definition fixup (fuel : nat) (no_write : bool) : M unit :=
  root_inode ← read_inode 2;
  if negb (is_directory root_inode) then fail
  else
    let dirsize := i_blocks_lo root_inode * INODE_BLOCK_SIZE in
    state ← get_fs_fixup_state no_write;
    _ ← (if state =? STATE_UNSET then
           _ ← recurse_dir fuel true root_inode dirsize SANITY_CHECK_PASS;
           _ ← update_superblocks_and_bg_desc true STATE_UNSET;
           set_fs_fixup_state no_write STATE_MARKING_INUMS
         else ret tt);
    phase_mark fuel no_write root_inode dirsize.
End filesystem.

Definition EXT4_FEATURE_INCOMPAT_RECOVER : Z := 4.
Definition EXT4_FEATURE_INCOMPAT_FILETYPE : Z := 2.
Definition group_desc_size : Z := 32.

(** What [read_ext] refuses. *)
Definition refused (s : ext4_super_block) : bool :=
  negb (Z.land (s_feature_incompat s) EXT4_FEATURE_INCOMPAT_RECOVER =? 0) ||
  (negb (Z.ldiff (s_desc_size s) 1 =? group_desc_size) && negb (Z.ldiff (s_desc_size s) 1 =? 0)) ||
  (Z.land (s_feature_incompat s) EXT4_FEATURE_INCOMPAT_FILETYPE =? 0).

(** The parameters with the number of inodes the superblock has. *)
Definition with_inodes (n : Z) (g : geometry) : geometry :=
  {| block_size := block_size g; blocks_per_group := blocks_per_group g; inodes_per_group := n; inode_size := inode_size g;
     bg_desc_reserve_blocks := bg_desc_reserve_blocks g; sparse_super := sparse_super g; first_data_block := first_data_block g;
     len_blocks := len_blocks g; inode_table_blocks := inode_table_blocks g; groups := groups g; bg_desc_blocks := bg_desc_blocks g |}.

(** One run of the tool on a disk, up to [budget] writes. *)
Definition ext4fixup (g : geometry) (fuel budget : nat) (d : disk) : result unit * disk :=
  if refused (sb d) then (Failed, d)
  else
    let '(r, w) := fixup (with_inodes (s_inodes_per_group (sb d)) g) fuel false
      {| on_disk := d; budget := budget; mem_desc := bg_desc d; no_write_state := STATE_UNSET |} in (r, on_disk w).

(** ** Trees of directories *)

(** A directory: its blocks, and their entries with the directories they lead to. *)
Inductive tree := Dir (l : list (Z * list (dirent * option tree))).
Abbreviation entry := (dirent * option tree)%type.

(** The blocks of a tree. *)
Fixpoint footprint (n : nat) (t : tree) : list Z :=
  match n, t with
  | S n, Dir l => l.*1 ++ concat (map (fun bes => concat (map (fun es : entry => match snd es with Some t => footprint n t | None => [] end) (snd bes))) l)
  | O, _ => []
  end.

Definition sub_blocks (n : nat) (s : entry) : list Z := match snd s with Some t => footprint n t | None => [] end.
Definition block_subs (n : nat) (es : list entry) : list Z := concat (map (sub_blocks n) es).
Definition subs (n : nat) (l : list (Z * list entry)) : list Z := concat (map (fun bes => block_subs n (snd bes)) l).

Lemma footprint_S n l : footprint (S n) (Dir l) = l.*1 ++ subs n l.
Proof. done. Qed.

Lemma elem_of_concat {X} (x : X) ls : x ∈ concat ls <-> exists l, l ∈ ls /\ x ∈ l.
Proof. rewrite list_elem_of_In, in_concat. setoid_rewrite list_elem_of_In. done. Qed.

Lemma elem_of_block_subs n es s b : s ∈ es -> b ∈ sub_blocks n s -> b ∈ block_subs n es.
Proof. intros Hs Hb. apply elem_of_concat. exists (sub_blocks n s). split; [|done]. apply list_elem_of_fmap. by exists s. Qed.

Lemma elem_of_subs n l bes s b : bes ∈ l -> s ∈ snd bes -> b ∈ sub_blocks n s -> b ∈ subs n l.
Proof.
  intros Hbes Hs Hb. apply elem_of_concat. exists (block_subs n (snd bes)). split; [|by eapply elem_of_block_subs].
  apply list_elem_of_fmap. by exists bes.
Qed.

Lemma Forall2_impl_in_l {X Y} (P Q : X -> Y -> Prop) l k :
  Forall2 P l k -> (forall x y, x ∈ l -> P x y -> Q x y) -> Forall2 Q l k.
Proof. induction 1; intros Himp; constructor; [apply Himp; [by left|done]|]. apply IHForall2. intros ? ? ?. apply Himp. by right. Qed.

(** What a run of the directories leaves alone. *)
Definition others_of (w : world) :=
  (magic (on_disk w), sb (on_disk w), bg_desc (on_disk w), others (on_disk w), inodes (on_disk w), backups (on_disk w), mem_desc w, no_write_state w).

Record kept (X : list Z) (w w' : world) : Prop := {
  kept_dirs : forall b, b ∉ X -> dirs (on_disk w') !! b = dirs (on_disk w) !! b;
  kept_others : others_of w' = others_of w;
}.

Lemma kept_refl X w : kept X w w.
Proof. done. Qed.

Lemma kept_trans X Y Z0 w1 w2 w3 : X ⊆ Z0 -> Y ⊆ Z0 -> kept X w1 w2 -> kept Y w2 w3 -> kept Z0 w1 w3.
Proof.
  intros HX HY [Hd1 Ho1] [Hd2 Ho2]. split; [|congruence]. intros b Hb. rewrite Hd2, Hd1; [done|set_solver..].
Qed.

Lemma kept_weaken X Y w w' : X ⊆ Y -> kept X w w' -> kept Y w w'.
Proof. intros H [Hd Ho]. split; [|done]. intros b Hb. apply Hd. set_solver. Qed.

Section pass.
Context (info : geometry) (mode : pass) (no_write : bool).
(** What an entry is before and after the pass, and what is read of inodes and of other blocks. *)
Context (A B : dirent -> dirent) (all_inodes : gmap (Z * Z) ext4_inode) (all_others : gmap Z other_block).

(** Every block that is no bitmap is as it was. *)
Definition is_bitmap (o : other_block) : bool := match o with Bitmap _ => true | _ => false end.
Definition reads_as (m : gmap Z other_block) : Prop := forall b o, all_others !! b = Some o -> is_bitmap o = false -> m !! b = Some o.

Definition place (inum : Z) : Z * Z := (u32 (inum - 1) / inodes_per_group info, u32 (inum - 1) mod inodes_per_group info).

(** Whether an entry is of a directory. *)
Definition dir_entry (e : dirent) : option bool :=
  if file_type e =? FT_DIR then Some true
  else if file_type e =? EXT4_FT_UNKNOWN then is_directory <$> (all_inodes !! place (d_inode e)) else Some false.

Definition block_length (es : list entry) : Z := foldr (fun s n => rec_len (fst s) + n) 0 es.

(** The tree is that of the directory of an inode: its blocks are those of its block list, entries fill their blocks. *)
Fixpoint fits (n : nat) (t : tree) (ino : ext4_inode) : Prop :=
  match n, t with
  | S n, Dir l =>
      i_blocks_lo ino * INODE_BLOCK_SIZE = block_size info * zlen l /\
      (forall w, reads_as (others (on_disk w)) -> block_list info n (zlen l) ino w = (Ok l.*1, w)) /\
      Forall (fun bes : Z * list entry => block_length (snd bes) = block_size info /\
        Forall (fun s : entry =>
          12 <= rec_len (fst s) /\
          match snd s with
          | Some t => dir_entry (fst s) = Some true /\ self_or_parent (d_name (fst s)) = false /\
              exists child, all_inodes !! place (d_inode (fst s)) = Some child /\ is_directory child = true /\ fits n t child
          | None => exists b, dir_entry (fst s) = Some b /\ (b = true -> self_or_parent (d_name (fst s)) = true)
          end) (snd bes)) l
  | O, _ => False
  end.

(** Every entry is as before the pass or as after it, the latter only when all below is as after it; [fin]: all are. *)
Fixpoint state (n : nat) (fin : bool) (d : disk) (t : tree) : Prop :=
  match n, t with
  | S n, Dir l =>
      Forall (fun bes : Z * list entry => exists xs, dirs d !! fst bes = Some xs /\
        Forall2 (fun (s : entry) x =>
          (x = B (fst s) /\ match snd s with Some t => state n true d t | None => True end) \/
          (fin = false /\ x = A (fst s) /\ match snd s with Some t => state n false d t | None => True end)) (snd bes) xs) l
  | O, _ => True
  end.

Definition sub_state (n : nat) (fin : bool) (d : disk) (s : entry) : Prop := match snd s with Some t => state n fin d t | None => True end.
Definition entry_state (n : nat) (fin : bool) (d : disk) (s : entry) (x : dirent) : Prop :=
  (x = B (fst s) /\ sub_state n true d s) \/ (fin = false /\ x = A (fst s) /\ sub_state n false d s).
Definition block_state (n : nat) (fin : bool) (d : disk) (bes : Z * list entry) : Prop :=
  exists xs, dirs d !! fst bes = Some xs /\ Forall2 (entry_state n fin d) (snd bes) xs.

Lemma state_S n fin d l : state (S n) fin d (Dir l) = Forall (block_state n fin d) l.
Proof. done. Qed.

(** A pass works when it makes [B e] of both, and sees in both where the entry leads, unless it skips it. *)
Record sees (e x : dirent) : Prop := {
  sees_len : rec_len x = rec_len e;
  sees_type : file_type x = file_type e;
  sees_name : d_name x = d_name e;
  sees_inode : d_inode x <> 0;
  sees_process : process_entry info mode x = B e;
}.

Definition follows (e x : dirent) : Prop :=
  clear_num (d_inode x) = d_inode e /\ (mode = UPDATE_INODE_NUMS -> marked_num (d_inode x) = true).
Definition skips (x : dirent) : Prop := mode = UPDATE_INODE_NUMS /\ marked_num (d_inode x) = false.

Definition pass_ok (e : dirent) : Prop :=
  (sees e (A e) /\ follows e (A e)) /\ (sees e (B e) /\ (follows e (B e) \/ skips (B e))) /\ (no_write = true -> A e = B e).

Fixpoint all_entries (n : nat) (P : dirent -> Prop) (t : tree) : Prop :=
  match n, t with
  | S n, Dir l => Forall (fun bes : Z * list entry => Forall (fun s : entry => P (fst s) /\
      match snd s with Some t => all_entries n P t | None => True end) (snd bes)) l
  | O, _ => True
  end.

Lemma state_weaken n d t : state n true d t -> state n false d t.
Proof.
  revert t. induction n as [|n IH]; intros [l]; [done|]. rewrite !state_S. intros Hl. eapply Forall_impl; [exact Hl|]. intros bes (xs & E & Hx). exists xs. split; [done|].
  eapply Forall2_impl; [exact Hx|]. intros s x [[-> H]|[? _]]; [by left|done].
Qed.

Lemma sub_state_weaken n d s fin : sub_state n true d s -> sub_state n fin d s.
Proof. unfold sub_state. destruct (snd s), fin; try done. apply state_weaken. Qed.

Lemma state_kept n fin t w w' X : kept X w w' -> (forall b, b ∈ footprint n t -> b ∉ X) -> state n fin (on_disk w) t -> state n fin (on_disk w') t.
Proof.
  intros Hk. revert t fin. induction n as [|n IH]; intros [l] fin; [done|]. rewrite footprint_S, !state_S. intros HX.
  rewrite !Forall_forall. intros Hs bes Hin. destruct (Hs bes Hin) as (xs & E & Hx). exists xs. split.
  - rewrite (kept_dirs X w w' Hk); [done|]. apply HX. apply elem_of_app. left. apply list_elem_of_fmap. by exists bes.
  - apply (Forall2_impl_in_l _ _ _ _ Hx). intros s x Hs'. assert (forall f, sub_state n f (on_disk w) s -> sub_state n f (on_disk w') s) as Hsub.
    { intros f. unfold sub_state. destruct (snd s) as [t|] eqn:Es; [|done]. apply IH. intros b Hb. apply HX. apply elem_of_app. right.
      apply (elem_of_subs n l bes s); [done|done|]. unfold sub_blocks. by rewrite Es. }
    intros [[-> Hb]|(-> & -> & Ha)]; [left|right]; auto.
Qed.

(** ** Runs that end or crash *)

(** The run ends with [Q], or it crashes with [C] because fewer than [cost] writes were left. *)
Definition runs {X} (cost : nat) (m : M X) (w : world) (Q : X -> world -> Prop) (C : world -> Prop) : Prop :=
  match m w with
  | (Ok a, w') => Q a w' /\ (budget w <= budget w' + cost)%nat
  | (Crashed, w') => C w' /\ (budget w < cost)%nat
  | _ => False
  end.

Lemma runs_ret {X} (a : X) w (Q : X -> world -> Prop) C : Q a w -> runs 0 (ret a) w Q C.
Proof. intros H. cbn. split; [done|lia]. Qed.

Lemma bind_run {X Y} (m : M X) (k : X -> M Y) w :
  (m ≫= k) w = match m w with (Ok a, w) => k a w | (Crashed, w) => (Crashed, w) | (Failed, w) => (Failed, w) | (Undef, w) => (Undef, w) end.
Proof. done. Qed.

Lemma runs_seq {X Y} c1 c2 c (m : M X) (k : X -> M Y) w Q1 (Q : Y -> world -> Prop) (C1 C : world -> Prop) :
  runs c1 m w Q1 C1 -> (c1 + c2 <= c)%nat -> (forall w', C1 w' -> C w') -> (forall a w1, Q1 a w1 -> runs c2 (k a) w1 Q C) -> runs c (m ≫= k) w Q C.
Proof.
  intros Hm Hc HC Hk. unfold runs in *. rewrite bind_run. destruct (m w) as [[a| | |] w1]; try done.
  - destruct Hm as [H1 H2]. specialize (Hk a w1 H1). destruct (k a w1) as [[b| | |] w2]; try done; destruct Hk; (split; [done|lia]).
  - destruct Hm as [H1 H2]. split; [by apply HC|lia].
Qed.

Lemma runs_pure {X Y} (m : M X) a c (k : X -> M Y) w Q C : m w = (Ok a, w) -> runs c (k a) w Q C -> runs c (m ≫= k) w Q C.
Proof. intros E. unfold runs. by rewrite bind_run, E. Qed.

Lemma runs_mono {X} c c' (m : M X) w (Q Q' : X -> world -> Prop) (C C' : world -> Prop) :
  runs c m w Q C -> (c <= c')%nat -> (forall a w', Q a w' -> Q' a w') -> (forall w', C w' -> C' w') -> runs c' m w Q' C'.
Proof.
  unfold runs. intros H Hc HQ HC. destruct (m w) as [[a| | |] w1]; try done; destruct H as [H1 H2]; split; auto; lia.
Qed.

(** The inodes and the other blocks are those of the tree. *)
Definition env (w : world) : Prop := reads_as (others (on_disk w)) /\ inodes (on_disk w) = all_inodes.

Lemma env_kept X w w' : kept X w w' -> env w -> env w'.
Proof. intros [_ Ho] [H1 H2]. unfold others_of in Ho. assert (others (on_disk w') = others (on_disk w) /\ inodes (on_disk w') = inodes (on_disk w)) as [E1 E2] by (split; congruence).
  split; [by rewrite E1|by rewrite E2]. Qed.

(** ** The walk over a block *)

Definition entry_ok (n : nat) (s : entry) : Prop :=
  12 <= rec_len (fst s) /\ pass_ok (fst s) /\
  match snd s with
  | Some t => dir_entry (fst s) = Some true /\ self_or_parent (d_name (fst s)) = false /\ all_entries n pass_ok t /\
      exists child, all_inodes !! place (d_inode (fst s)) = Some child /\ is_directory child = true /\ fits n t child
  | None => exists b, dir_entry (fst s) = Some b /\ (b = true -> self_or_parent (d_name (fst s)) = true)
  end.

Lemma is_entry_dir_ok e x w :
  env w -> sees e x -> follows e x \/ skips x -> is_Some (dir_entry e) ->
  exists b, is_entry_dir info x mode w = (Ok b, w) /\ (follows e x -> dir_entry e = Some b) /\ (skips x -> visits mode x = false).
Proof.
  intros [_ Hi] Hs Hfs [b Hb]. unfold is_entry_dir, dir_entry in *. rewrite (sees_type e x Hs) in *.
  assert (skips x -> visits mode x = false) as Hskip by (intros [-> Hm]; unfold visits; by rewrite Hm, andb_false_r).
  destruct (file_type e =? FT_DIR); [exists true; by split_and!|]. destruct (file_type e =? EXT4_FT_UNKNOWN); [|exists false; by split_and!].
  apply fmap_Some in Hb as (ino & Hino & ->).
  assert (follows e x -> (ino0 ← read_inode info (clear_num (d_inode x)); ret (is_directory ino0)) w = (Ok (is_directory ino), w)) as Hread.
  { intros [-> _]. unfold read_inode, read. rewrite !bind_run. rewrite Hi. fold (place (d_inode e)). by rewrite Hino. }
  destruct Hfs as [Hf|[Hmode Hm]].
  - exists (is_directory ino). rewrite Hino. split_and!; try done. pose proof (proj2 Hf) as Hmk. destruct mode; [by apply Hread..|].
    rewrite Hmk by done. by apply Hread.
  - exists false. rewrite Hmode, Hm. split_and!; try done; [|by rewrite <- Hmode]. intros [_ Hf]. rewrite Hf in Hm by done. done.
Qed.

(** What visiting the directory of an entry does. *)
Definition visit_ok (n : nat) (visit : dirent -> M unit) : Prop :=
  forall e t child x fin w, all_inodes !! place (d_inode e) = Some child -> is_directory child = true -> fits n t child -> all_entries n pass_ok t ->
    NoDup (footprint n t) -> follows e x -> env w -> state n fin (on_disk w) t ->
    runs (length (footprint n t)) (visit x) w (fun _ w' => kept (footprint n t) w w' /\ state n true (on_disk w') t)
      (fun w' => kept (footprint n t) w w' /\ state n fin (on_disk w') t).

Lemma visit_entry n visit s x fin w :
  visit_ok n visit -> entry_ok n s -> NoDup (sub_blocks n s) -> env w -> entry_state n fin (on_disk w) s x ->
  exists b, is_entry_dir info x mode w = (Ok b, w) /\ sees (fst s) x /\
    runs (length (sub_blocks n s)) (if b && visits mode x then visit x else ret tt) w
      (fun _ w' => kept (sub_blocks n s) w w' /\ sub_state n true (on_disk w') s)
      (fun w' => kept (sub_blocks n s) w w' /\ entry_state n fin (on_disk w') s x).
Proof.
  intros Hvisit (Hlen & (HA & HB & _) & Hsub) Hnd Henv Hst. destruct s as [e [t|]]; cbn [fst snd sub_blocks] in *.
  - destruct Hsub as (Hdir & Hname & Hall & child & Hchild & Hcd & Hfits).
    assert (exists f, sees e x /\ (follows e x \/ skips x /\ f = true) /\ state n f (on_disk w) t /\
      forall w', state n f (on_disk w') t -> entry_state n fin (on_disk w') (e, Some t) x) as (f & Hsees & Hfol & Hs & Hback).
    { destruct Hst as [[-> Hs]|(-> & -> & Hs)].
      - exists true. split_and!; [apply HB|destruct HB as [_ [?|?]]; [by left|by right]|done|]. intros w' H'. left. done.
      - exists false. split_and!; [apply HA|left; apply HA|done|]. intros w' H'. right. done. }
    destruct (is_entry_dir_ok e x w Henv Hsees) as (b & Eb & Hbf & Hbs); [naive_solver|by rewrite Hdir|]. exists b. split; [done|]. split; [done|].
    destruct Hfol as [Hf|[Hsk ->]].
    + specialize (Hbf Hf). rewrite Hdir in Hbf. simplify_eq. assert (visits mode x = true) as ->.
      { unfold visits. rewrite (sees_name e x Hsees), Hname. cbn. destruct mode eqn:Em; [done|done|]. by apply Hf. }
      eapply runs_mono; [by eapply (Hvisit e t child x f w)|done|done|]. intros w' [Hk Hs']. split; [done|by apply Hback].
    + rewrite (Hbs Hsk), andb_false_r. eapply runs_mono; [apply (runs_ret tt w (fun _ w' => w' = w) (fun _ => False)); done|lia| |done].
      intros _ w' ->. split; [apply kept_refl|done].
  - destruct Hsub as (b0 & Hdir & Hname). assert (sees e x /\ (follows e x \/ skips x)) as [Hsees Hfol].
    { destruct Hst as [[-> _]|(_ & -> & _)]; [by destruct HB|]. split; [apply HA|left; apply HA]. }
    destruct (is_entry_dir_ok e x w Henv Hsees Hfol) as (b & Eb & Hbf & Hbs); [by rewrite Hdir|]. exists b. split; [done|]. split; [done|].
    assert (b && visits mode x = false) as ->.
    { destruct Hfol as [Hf|Hsk]; [|by rewrite (Hbs Hsk), andb_false_r]. specialize (Hbf Hf). rewrite Hdir in Hbf. simplify_eq.
      destruct b; [|done]. unfold visits. rewrite (sees_name e x Hsees), Hname by done. done. }
    eapply runs_mono; [apply (runs_ret tt w (fun _ w' => w' = w) (fun _ => False)); done|lia| |done]. intros _ w' ->. split; [apply kept_refl|done].
Qed.

Lemma sub_state_kept n fin s w w' X :
  kept X w w' -> (forall b, b ∈ sub_blocks n s -> b ∉ X) -> sub_state n fin (on_disk w) s -> sub_state n fin (on_disk w') s.
Proof. unfold sub_state, sub_blocks. destruct (snd s); [|done]. apply state_kept. Qed.

Lemma entry_state_kept n fin s x w w' X :
  kept X w w' -> (forall b, b ∈ sub_blocks n s -> b ∉ X) -> entry_state n fin (on_disk w) s x -> entry_state n fin (on_disk w') s x.
Proof. intros Hk HX [[-> H]|(-> & -> & H)]; [left|right]; split_and!; try done; by eapply sub_state_kept. Qed.

Lemma entries_kept n fin es xs w w' X :
  kept X w w' -> (forall b, b ∈ block_subs n es -> b ∉ X) -> Forall2 (entry_state n fin (on_disk w)) es xs -> Forall2 (entry_state n fin (on_disk w')) es xs.
Proof.
  intros Hk HX H. apply (Forall2_impl_in_l _ _ _ _ H). intros s x Hs. apply (entry_state_kept _ _ _ _ w w' X Hk).
  intros b Hb. apply HX. by eapply elem_of_block_subs.
Qed.

Lemma NoDup_app_parts {X} (l k : list X) : NoDup (l ++ k) -> NoDup l /\ NoDup k /\ (forall x, x ∈ k -> x ∉ l).
Proof. intros (H1 & H2 & H3)%NoDup_app. split_and!; [done|done|]. intros x Hk Hl. by apply (H2 x). Qed.

Lemma block_length_nonneg es : Forall (fun s : entry => 12 <= rec_len (fst s)) es -> 0 <= block_length es.
Proof. unfold block_length. induction 1; cbn; lia. Qed.

Lemma entry_ok_len n es : Forall (entry_ok n) es -> Forall (fun s : entry => 12 <= rec_len (fst s)) es.
Proof. intros H. eapply Forall_impl; [exact H|]. by intros s [? _]. Qed.

(** Walking over a block makes of each entry what it is after the pass, after the directories below. *)
Lemma walk_ok n visit fin : visit_ok n visit -> forall es xs o rest done_ w,
  Forall (entry_ok n) es -> NoDup (block_subs n es) -> env w -> Forall2 (entry_state n fin (on_disk w)) es xs ->
  o + block_length es = block_size info -> 0 <= o -> 0 <= rest ->
  runs (length (block_subs n es)) (walk info mode visit xs o rest done_) w
    (fun r w' => r = (rev done_ ++ map B es.*1, 0 <? rest) /\ kept (block_subs n es) w w' /\ Forall (sub_state n true (on_disk w')) es)
    (fun w' => kept (block_subs n es) w w' /\ Forall2 (entry_state n fin (on_disk w')) es xs).
Proof.
  intros Hvisit es. induction es as [|s es IH]; intros xs o rest done_ w Hok Hnd Henv Hst Ho Ho0 Hrest.
  - inversion Hst; subst. cbn [walk block_length foldr] in *. replace o with (block_size info) by (unfold block_length in Ho; cbn in Ho; lia).
    rewrite Z.sub_diag, Z.add_0_l, Z.eqb_refl. destruct (Z.ltb_spec 0 rest) as [Hr|Hr].
    + rewrite (proj2 (Z.leb_gt _ _)) by lia. apply runs_ret. split_and!; [done|apply kept_refl|constructor].
    + rewrite (proj2 (Z.leb_le _ _)) by lia. apply runs_ret. split_and!; [done|apply kept_refl|constructor].
  - apply Forall2_cons_inv_l in Hst as (x & xs' & Hx & Hst & ->). apply Forall_cons in Hok as [Hs Hok].
    change (block_subs n (s :: es)) with (sub_blocks n s ++ block_subs n es) in *. apply NoDup_app_parts in Hnd as (Hnd1 & Hnd2 & Hdisj).
    change (block_length (s :: es)) with (rec_len (fst s) + block_length es) in Ho.
    pose proof (block_length_nonneg es (entry_ok_len n es Hok)) as Hlen0. pose proof (proj1 Hs) as Hlen.
    destruct (visit_entry n visit s x fin w Hvisit Hs Hnd1 Henv Hx) as (b & Eb & Hsees & Hrun).
    cbn [walk]. rewrite (proj2 (Z.leb_gt (block_size info - o + rest) 0)), (proj2 (Z.eqb_neq o _)), (proj2 (Z.ltb_ge (block_size info) o)) by lia.
    assert (fixes_length mode (block_size info - o + rest) = false) as -> by (unfold fixes_length; destruct mode; try done; apply Z.leb_gt; lia).
    rewrite (proj2 (Z.eqb_neq (d_inode x) 0)) by apply Hsees. rewrite (sees_len _ _ Hsees), (proj2 (Z.leb_gt (rec_len (fst s)) 0)) by lia.
    eapply runs_pure; [exact Eb|]. rewrite length_app. eapply runs_seq; [exact Hrun|reflexivity| |].
    + intros w' [Hk Hs']. split; [eapply kept_weaken; [|exact Hk]; set_solver|]. constructor; [done|]. eapply entries_kept; [exact Hk| |done]. auto.
    + intros _ w1 [Hk Hs1]. rewrite (sees_process _ _ Hsees).
      assert (forall w', kept (block_subs n es) w1 w' -> kept (sub_blocks n s ++ block_subs n es) w w' /\ sub_state n true (on_disk w') s) as Hboth.
      { intros w' Hk'. split; [eapply kept_trans; [| |exact Hk|exact Hk']; set_solver|]. eapply sub_state_kept; [exact Hk'| |done].
        intros b0 Hb Hb'. by apply (Hdisj b0). }
      eapply runs_mono; [apply (IH xs' (o + rec_len (fst s)) rest (B (fst s) :: done_) w1 Hok Hnd2)|lia| |].
      * by eapply env_kept.
      * eapply entries_kept; [exact Hk| |done]. auto.
      * lia.
      * lia.
      * done.
      * intros r w' (-> & Hk' & Hall). destruct (Hboth w' Hk') as [H1 H2]. split_and!; [|done|by constructor]. cbn [rev map fmap list_fmap].
        by rewrite <- app_assoc.
      * intros w' [Hk' Hall]. destruct (Hboth w' Hk') as [H1 H2]. split; [done|]. constructor; [|done].
        destruct Hx as [[-> _]|(-> & -> & _)]; [by left|right]. split_and!; [done|done|by apply sub_state_weaken].
Qed.

(** ** The walk over a directory and its writing *)

Definition after (bes : Z * list entry) : list dirent := map B (snd bes).*1.
Definition subs_done (n : nat) (d : disk) (bes : Z * list entry) : Prop := Forall (sub_state n true d) (snd bes).
Definition block_ok (n : nat) (bes : Z * list entry) : Prop := block_length (snd bes) = block_size info /\ Forall (entry_ok n) (snd bes).

Lemma subs_done_kept n bes w w' X :
  kept X w w' -> (forall b, b ∈ block_subs n (snd bes) -> b ∉ X) -> subs_done n (on_disk w) bes -> subs_done n (on_disk w') bes.
Proof.
  intros Hk HX. unfold subs_done. rewrite !Forall_forall. intros H s Hs. eapply sub_state_kept; [exact Hk| |by apply H].
  intros b Hb. apply HX. by eapply elem_of_block_subs.
Qed.

Lemma elem_of_subs_block n l bes b : bes ∈ l -> b ∈ block_subs n (snd bes) -> b ∈ subs n l.
Proof. intros Hbes Hb. apply elem_of_concat. exists (block_subs n (snd bes)). split; [|done]. apply list_elem_of_fmap. by exists bes. Qed.

Lemma walk_blocks_ok n visit fin : visit_ok n visit -> forall l xss w,
  Forall (block_ok n) l -> NoDup (subs n l) -> env w -> 0 < block_size info ->
  Forall2 (fun bes xs => Forall2 (entry_state n fin (on_disk w)) (snd bes) xs) l xss ->
  runs (length (subs n l)) (walk_blocks info mode visit xss) w
    (fun r w' => r = map after l /\ kept (subs n l) w w' /\ Forall (subs_done n (on_disk w')) l)
    (fun w' => kept (subs n l) w w' /\ Forall2 (fun bes xs => Forall2 (entry_state n fin (on_disk w')) (snd bes) xs) l xss).
Proof.
  intros Hvisit l. induction l as [|bes l IH]; intros xss w Hok Hnd Henv Hbs Hst.
  - inversion Hst; subst. apply runs_ret. split_and!; [done|apply kept_refl|constructor].
  - apply Forall2_cons_inv_l in Hst as (xs & xss' & Hx & Hst & ->). apply Forall_cons in Hok as [[Hlen Hes] Hok].
    change (subs n (bes :: l)) with (block_subs n (snd bes) ++ subs n l) in *. apply NoDup_app_parts in Hnd as (Hnd1 & Hnd2 & Hdisj).
    assert (forall w w', kept (block_subs n (snd bes)) w w' ->
      Forall2 (fun bes xs => Forall2 (entry_state n fin (on_disk w)) (snd bes) xs) l xss' ->
      Forall2 (fun bes xs => Forall2 (entry_state n fin (on_disk w')) (snd bes) xs) l xss') as Htail.
    { intros v v' Hk H. apply (Forall2_impl_in_l _ _ _ _ H). intros bes' ys Hin. apply (entries_kept _ _ _ _ _ _ _ Hk).
      intros b Hb. apply Hdisj. by eapply elem_of_subs_block. }
    cbn [walk_blocks]. rewrite length_app. assert (0 <= zlen xss') as Hz by (unfold zlen; lia).
    eapply runs_seq; [apply (walk_ok n visit fin Hvisit (snd bes) xs 0 (block_size info * zlen xss') [] w); try done; nia|reflexivity| |].
    + intros w' [Hk Hs]. split; [eapply kept_weaken; [|exact Hk]; set_solver|]. constructor; [done|]. by eapply Htail.
    + intros r w1 (-> & Hk & Hdone). cbn [rev app]. specialize (Htail w w1 Hk Hst).
      assert (forall w', kept (subs n l) w1 w' ->
        kept (block_subs n (snd bes) ++ subs n l) w w' /\ subs_done n (on_disk w') bes) as Hboth.
      { intros w' Hk'. split; [eapply kept_trans; [| |exact Hk|exact Hk']; set_solver|]. eapply subs_done_kept; [exact Hk'| |done].
        intros b0 Hb Hb'. by apply (Hdisj b0). }
      destruct (Z.ltb_spec 0 (block_size info * zlen xss')) as [Hmore|Hlast].
      * eapply (runs_seq (length (subs n l)) 0); [apply (IH xss' w1); try done; by eapply env_kept|lia| |].
        -- intros w' [Hk' Hs]. destruct (Hboth w' Hk') as [H1 H2]. split; [done|]. constructor; [|done].
           apply (Forall2_impl_in_l _ _ _ _ Hx). intros s x Hs' [[-> _]|(-> & -> & _)]; unfold subs_done in H2; rewrite Forall_forall in H2;
             [left; split; [done|by apply H2]|right; split_and!; [done|done|by apply sub_state_weaken, H2]].
        -- intros r w2 (-> & Hk' & Hall). destruct (Hboth w2 Hk') as [H1 H2]. apply runs_ret. split_and!; [done|done|by constructor].
      * assert (xss' = []) as -> by (destruct xss'; [done|]; unfold zlen in Hlast; cbn [length] in Hlast; nia). inversion Hst; subst.
        eapply runs_mono; [apply (runs_ret _ w1 (fun a w' => a = [map B (snd bes).*1] /\ w' = w1) (fun _ => False)); done|lia| |done].
        intros a w' [-> ->]. destruct (Hboth w1 (kept_refl _ _)) as [H1 H2]. split_and!; [done|done|by repeat constructor].
Qed.

Lemma write_ok l w :
  NoDup l.*1 -> (no_write = true -> Forall (fun bes => dirs (on_disk w) !! fst bes = Some (after bes)) l) ->
  runs (length l) (write_dir_blocks no_write l.*1 (map after l)) w
    (fun _ w' => kept l.*1 w w' /\ Forall (fun bes => dirs (on_disk w') !! fst bes = Some (after bes)) l)
    (fun w' => kept l.*1 w w' /\ Forall (fun bes => dirs (on_disk w') !! fst bes = dirs (on_disk w) !! fst bes \/ dirs (on_disk w') !! fst bes = Some (after bes)) l).
Proof.
  destruct no_write.
  - intros _ Hsame. specialize (Hsame eq_refl). assert (write_dir_blocks true l.*1 (map after l) w = (Ok tt, w)) as E.
    { clear Hsame. induction l as [|bes l IH]; [done|]. cbn. unfold write_dir_block. rewrite bind_run. apply IH. }
    unfold runs. rewrite E. split; [split; [apply kept_refl|done]|lia].
  - intros Hnd _. revert w. induction l as [|bes l IH]; intros w; [apply runs_ret; split; [apply kept_refl|constructor]|].
    cbn [fmap list_fmap map write_dir_blocks] in *. apply NoDup_cons in Hnd as [Hb Hnd].
    eapply (runs_seq 1 (length l) _ _ _ _ (fun _ w' => kept [fst bes] w w' /\ dirs (on_disk w') !! fst bes = Some (after bes)) _ (fun w' => w' = w)).
    + unfold write_dir_block, runs, write. destruct (budget w) as [|k] eqn:Ek; [split; [done|lia]|]. split; [|cbn; lia]. split; [|cbn; by rewrite lookup_insert_eq].
      split; [|done]. intros b0 Hb0. cbn. rewrite lookup_insert_ne; [done|]. set_solver.
    + cbn [length]. lia.
    + intros w' ->. split; [apply kept_refl|]. rewrite Forall_forall. auto.
    + intros _ w1 [Hk E]. eapply runs_mono; [by apply IH|done| |].
      * intros _ w2 [Hk2 Hl]. split; [eapply kept_trans; [| |exact Hk|exact Hk2]; set_solver|]. constructor; [|done].
        by rewrite (kept_dirs _ _ _ Hk2).
      * intros w2 [Hk2 Hl]. split; [eapply kept_trans; [| |exact Hk|exact Hk2]; set_solver|]. constructor.
        -- right. by rewrite (kept_dirs _ _ _ Hk2).
        -- rewrite Forall_forall in *. intros bes' Hin. rewrite <- (kept_dirs _ _ _ Hk (fst bes')); [by apply Hl|].
           intros Eb%list_elem_of_singleton. apply Hb. apply list_elem_of_fmap. by exists bes'.
Qed.

(** ** The whole pass over a tree *)

Lemma read_dir_blocks_ok n fin l w :
  Forall (block_state n fin (on_disk w)) l ->
  exists xss, read_dir_blocks l.*1 w = (Ok xss, w) /\ Forall2 (fun bes xs => dirs (on_disk w) !! fst bes = Some xs /\ Forall2 (entry_state n fin (on_disk w)) (snd bes) xs) l xss.
Proof.
  induction 1 as [|bes l (xs & E & Hx) Hl (xss & Er & IH)]; [by exists []|]. exists (xs :: xss). split; [|by constructor].
  change ((bes :: l).*1) with (fst bes :: l.*1). cbn [read_dir_blocks]. rewrite bind_run. unfold read_dir_block, read at 1. rewrite bind_run, E. cbn [access ret].
  by rewrite bind_run, Er.
Qed.

Lemma fits_block_ok n t ino l : t = Dir l -> fits (S n) t ino -> all_entries (S n) pass_ok t -> Forall (block_ok n) l.
Proof.
  intros -> (_ & _ & Hl) Hall. cbn [all_entries] in Hall. rewrite !Forall_forall in *. intros bes Hin. destruct (Hl bes Hin) as [Hlen Hes].
  specialize (Hall bes Hin). split; [done|]. rewrite !Forall_forall in *. intros s Hs. destruct (Hes s Hs) as [H12 Hsub]. destruct (Hall s Hs) as [Hp Ht].
  split_and!; [done|done|]. destruct (snd s) as [t|]; [|done]. destruct Hsub as (? & ? & ?). split_and!; done.
Qed.

Lemma after_entries n fin d es : Forall (sub_state n true d) es -> Forall2 (entry_state n fin d) es (map B es.*1).
Proof. induction 1 as [|s es Hs Hes IH]; [constructor|]. constructor; [by left|done]. Qed.

Lemma entries_done n fin d d' es xs : Forall (sub_state n true d') es -> Forall2 (entry_state n fin d) es xs -> Forall2 (entry_state n fin d') es xs.
Proof.
  intros Hd H. rewrite Forall_forall in Hd. apply (Forall2_impl_in_l _ _ _ _ H). intros s x Hs [[-> _]|(-> & -> & _)].
  - left. auto.
  - right. split_and!; [done|done|]. apply sub_state_weaken. auto.
Qed.

Lemma same_entries n fin d es xs :
  Forall (entry_ok n) es -> no_write = true -> Forall2 (entry_state n fin d) es xs -> xs = map B es.*1.
Proof.
  intros Hok Hn H. induction H as [|s x es xs Hx H IH]; [done|]. apply Forall_cons in Hok as [(_ & (_ & _ & HAB) & _) Hok]. cbn. f_equal; [|by apply IH].
  destruct Hx as [[-> _]|(_ & -> & _)]; [done|by apply HAB].
Qed.

(** Passing over a tree that is partly as after the pass already leaves all of it so, and a crash leaves
    every entry as before or as after the pass, the latter only when all below is. *)
Lemma recurse_ok n : 0 < block_size info -> forall t ino fin w,
  fits n t ino -> all_entries n pass_ok t -> NoDup (footprint n t) -> env w -> state n fin (on_disk w) t ->
  runs (length (footprint n t)) (recurse_dir info n no_write ino (i_blocks_lo ino * INODE_BLOCK_SIZE) mode) w
    (fun _ w' => kept (footprint n t) w w' /\ state n true (on_disk w') t)
    (fun w' => kept (footprint n t) w w' /\ state n fin (on_disk w') t).
Proof.
  intros Hbs. induction n as [|n IH]; intros t ino fin w Hfits Hall Hnd Henv Hst; [done|].
  set (visit := fun e : dirent => tmp_inode ← read_inode info (clear_num (d_inode e));
    if negb (is_directory tmp_inode) then fail else recurse_dir info n no_write tmp_inode (i_blocks_lo tmp_inode * INODE_BLOCK_SIZE) mode).
  assert (visit_ok n visit) as Hvisit.
  { intros e t' child x f v Hc Hcd Hf Ha Hn Hfol Hv Hs. unfold visit. eapply (runs_pure _ child).
    - unfold read_inode, read. rewrite bind_run, (proj1 Hfol), (proj2 Hv). fold (place (d_inode e)). by rewrite Hc.
    - rewrite Hcd. by apply IH. }
  destruct t as [l]. pose proof (fits_block_ok n (Dir l) ino l eq_refl Hfits Hall) as Hok. destruct Hfits as (Hsize & Hlist & _).
  rewrite footprint_S in *. rewrite state_S in Hst. apply NoDup_app_parts in Hnd as (Hnd1 & Hnd2 & Hdisj).
  cbn [recurse_dir]. rewrite Hsize, Z.mul_comm, Z.mod_mul, Z.div_mul by lia. cbn [negb Z.eqb]. fold visit.
  eapply runs_pure; [apply Hlist, Henv|]. destruct (read_dir_blocks_ok n fin l w Hst) as (xss & Er & Hx). eapply runs_pure; [exact Er|].
  assert (forall v v', kept (subs n l) v v' -> forall bes, bes ∈ l -> dirs (on_disk v') !! fst bes = dirs (on_disk v) !! fst bes) as Hown.
  { intros v v' Hk bes Hin. apply (kept_dirs _ _ _ Hk). intros Hb. apply (Hdisj _ Hb). apply list_elem_of_fmap. by exists bes. }
  rewrite length_app, length_fmap. eapply (runs_seq (length (subs n l)) (length l)).
  - apply (walk_blocks_ok n visit fin Hvisit l xss w Hok Hnd2 Henv Hbs). apply (Forall2_impl _ _ _ _ Hx). by intros ? ? [_ ?].
  - lia.
  - intros w' [Hk Hs]. split; [eapply kept_weaken; [|exact Hk]; set_solver|]. rewrite state_S, Forall_forall. intros bes Hin.
    apply list_elem_of_lookup in Hin as [i Hi]. destruct (Forall2_lookup_l _ _ _ _ _ Hx Hi) as (xs & Hxi & E & _).
    exists xs. rewrite (Hown w w' Hk) by by eapply list_elem_of_lookup_2. split; [done|].
    by apply (Forall2_lookup_lr _ _ _ _ _ _ Hs Hi Hxi).
  - intros r w1 (-> & Hk & Hdone).
    assert (forall w', kept l.*1 w1 w' -> Forall (subs_done n (on_disk w')) l) as Hsubs.
    { intros w' Hk'. rewrite Forall_forall in *. intros bes Hin. eapply subs_done_kept; [exact Hk'| |by apply Hdone].
      intros b Hb. apply Hdisj. by eapply elem_of_subs_block. }
    assert (forall w', kept l.*1 w1 w' -> kept (l.*1 ++ subs n l) w w') as Hall'.
    { intros w' Hk'. eapply kept_trans; [| |exact Hk|exact Hk']; set_solver. }
    rewrite Forall_forall in Hst, Hok, Hdone. eapply runs_mono; [apply (write_ok l w1 Hnd1)|done| |].
    + intros Hn. apply Forall_forall. intros bes Hin. rewrite (Hown w w1 Hk bes Hin). destruct (Hst bes Hin) as (xs & -> & Hxs). f_equal.
      eapply same_entries; [|done|exact Hxs]. by apply Hok.
    + intros _ w' [Hk' Hl]. split; [by apply Hall'|]. rewrite state_S. specialize (Hsubs w' Hk'). rewrite Forall_forall in *. intros bes Hin.
      exists (after bes). split; [by apply Hl|]. apply after_entries. by apply Hsubs.
    + intros w' [Hk' Hl]. split; [by apply Hall'|]. rewrite state_S. specialize (Hsubs w' Hk'). rewrite Forall_forall in *. intros bes Hin.
      destruct (Hl bes Hin) as [E|E].
      * destruct (Hst bes Hin) as (xs & E0 & Hxs). exists xs. split; [by rewrite E, (Hown w w1 Hk bes Hin)|]. eapply entries_done; [by apply Hsubs|done].
      * exists (after bes). split; [done|]. apply after_entries. by apply Hsubs.
Qed.
End pass.

(** ** The three passes *)

Section numbers.
Context (info : geometry).

Definition marked (e : dirent) : dirent := with_inode (mark_num (d_inode e)) e.
Definition renumbered (e : dirent) : dirent := with_inode (compute_new_inum info (d_inode e)) e.

(** Numbers that leave room for the mark, before and after. *)
Definition good_num (e : dirent) : Prop :=
  0 < d_inode e < high_bit /\
  (d_inode e - 1) / inodes_per_group info * new_inodes_per_group info + (d_inode e - 1) mod inodes_per_group info + 1 < high_bit.

Lemma compute_good e : 0 < inodes_per_group info -> 0 < new_inodes_per_group info -> good_num e ->
  compute_new_inum info (d_inode e) = (d_inode e - 1) / inodes_per_group info * new_inodes_per_group info + (d_inode e - 1) mod inodes_per_group info + 1 /\
  0 < compute_new_inum info (d_inode e) < high_bit.
Proof.
  intros Hi Hn [H1 H2]. unfold compute_new_inum, wrap, high_bit in *. rewrite (Z.mod_small (d_inode e - 1) (2 ^ 32)) by lia.
  pose proof (Z.div_pos (d_inode e - 1) (inodes_per_group info) ltac:(lia) ltac:(lia)). pose proof (Z.mod_pos_bound (d_inode e - 1) (inodes_per_group info) ltac:(lia)).
  rewrite Z.mod_small by nia. split; [done|nia].
Qed.

Lemma clear_num_id i : 0 <= i < high_bit -> clear_num i = i.
Proof. intros H. unfold clear_num, high_bit in *. change (2 ^ 31 - 1) with (Z.ones 31). rewrite Z.land_ones by lia. by apply Z.mod_small. Qed.

Lemma marked_num_small i : 0 <= i < high_bit -> marked_num i = false.
Proof.
  intros H. unfold marked_num, high_bit in *. apply negb_false_iff, Z.eqb_eq. apply Z.bits_inj'. intros n Hn.
  rewrite Z.land_spec, Z.pow2_bits_eqb, Z.bits_0 by lia. destruct (Z.eqb_spec 31 n) as [<-|]; [|apply andb_false_r].
  rewrite (proj2 (Z.testbit_false i 31 ltac:(lia))); [done|]. by rewrite Z.div_small by lia.
Qed.

Lemma mark_num_add i : 0 <= i < high_bit -> mark_num i = i + high_bit.
Proof.
  intros H. unfold mark_num. rewrite Z.add_nocarry_lxor, <- Z.lxor_lor; [done|..]; pose proof (marked_num_small i H) as Hm; unfold marked_num in Hm;
    by apply negb_false_iff, Z.eqb_eq in Hm.
Qed.

Lemma marked_mark_num i : 0 <= i < high_bit -> marked_num (mark_num i) = true /\ clear_num (mark_num i) = i /\ mark_num (mark_num i) = mark_num i /\ mark_num i <> 0.
Proof.
  intros H. split_and!.
  - unfold marked_num, mark_num. rewrite Z.land_lor_distr_l, Z.land_diag. apply negb_true_iff, Z.eqb_neq. intros [_ E]%Z.lor_eq_0_iff. done.
  - rewrite mark_num_add by done. unfold clear_num, high_bit in *. change (2 ^ 31 - 1) with (Z.ones 31). rewrite Z.land_ones by lia.
    rewrite <- (Z.mul_1_l (2 ^ 31)), Z.mod_add by lia. by apply Z.mod_small.
  - unfold mark_num. by rewrite <- Z.lor_assoc, Z.lor_diag.
  - rewrite mark_num_add by done. unfold high_bit in *. lia.
Qed.

Context (old_pos : 0 < inodes_per_group info) (new_pos : 0 < new_inodes_per_group info).

Lemma sanity_pass_ok e : good_num e -> pass_ok info SANITY_CHECK_PASS true id id e.
Proof.
  intros [H1 H2]. unfold pass_ok, id. assert (sees info SANITY_CHECK_PASS id e e) as Hs by (split; try done; lia).
  assert (follows SANITY_CHECK_PASS e e) as Hf by (split; [apply clear_num_id; lia|done]). split_and!; auto.
Qed.

Lemma mark_pass_ok e : good_num e -> pass_ok info MARK_INODE_NUMS false id marked e.
Proof.
  intros [H1 H2]. destruct (marked_mark_num (d_inode e)) as (Hm & Hc & Hmm & H0); [lia|]. unfold pass_ok, id. split_and!; try done.
  - split; try done; lia.
  - split; [apply clear_num_id; lia|done].
  - split; try done. unfold process_entry, marked, with_inode. cbn. by rewrite Hmm.
  - left. split; [done|done].
Qed.

Lemma update_pass_ok e : good_num e -> pass_ok info UPDATE_INODE_NUMS false marked renumbered e.
Proof.
  intros Hg. destruct (compute_good e old_pos new_pos Hg) as [_ H2]. destruct Hg as [H1 _]. destruct (marked_mark_num (d_inode e)) as (Hm & Hc & Hmm & H0); [lia|]. unfold pass_ok. split_and!; try done.
  - split; try done. unfold process_entry, marked, renumbered, with_inode. cbn. by rewrite Hm, Hc.
  - split; try done; cbn; [lia|]. unfold process_entry, renumbered, with_inode. cbn. by rewrite marked_num_small by lia.
  - right. split; [done|]. cbn. apply marked_num_small. lia.
Qed.
End numbers.
