(* ===== verification/Ext4FixupRuns.v ===== *)
(** * Interrupted repairs

    The whole run of [ext4fixup.c] over Ext4Fixup.v: the phases with their states, the
    superblocks and bitmaps, and what a run leaves wherever it is interrupted: a disk
    from which the next run goes on, to the same end. *)

From S2P Require Import Prelude Ext4Alloc Ext4Fixup.

(** ** Trees with other numbers *)

Fixpoint map_tree (n : nat) (f : dirent -> dirent) (t : tree) : tree :=
  match n, t with
  | S n, Dir l => Dir (map (fun bes : Z * list entry => (fst bes, map (fun s : entry => (f (fst s), option_map (map_tree n f) (snd s))) (snd bes))) l)
  | O, _ => t
  end.

Lemma footprint_map n f t : footprint n (map_tree n f t) = footprint n t.
Proof.
  revert t. induction n as [|n IH]; intros [l]; [done|]. cbn [map_tree]. rewrite !footprint_S. f_equal.
  - rewrite <- list_fmap_compose. by apply list_fmap_ext.
  - unfold subs. rewrite map_map. f_equal. apply map_ext. intros [b es]. unfold block_subs. cbn [snd fst]. rewrite map_map. f_equal. apply map_ext.
    intros [e [t|]]; unfold sub_blocks; cbn; [apply IH|done].
Qed.

Lemma all_entries_impl n (P Q : dirent -> Prop) t : (forall e, P e -> Q e) -> all_entries n P t -> all_entries n Q t.
Proof.
  intros HPQ. revert t. induction n as [|n IH]; intros [l]; [done|]. cbn [all_entries]. intros Hl. eapply Forall_impl; [exact Hl|].
  intros bes Hes. eapply Forall_impl; [exact Hes|]. intros [e [t|]] [H1 H2]; cbn in *; auto.
Qed.

Lemma all_entries_map n (P Q : dirent -> Prop) f t : (forall e, P e -> Q (f e)) -> all_entries n P t -> all_entries n Q (map_tree n f t).
Proof.
  intros HPQ. revert t. induction n as [|n IH]; intros [l]; [done|]. cbn [all_entries map_tree]. intros Hl. apply Forall_map.
  eapply Forall_impl; [exact Hl|]. intros [b es] Hes. cbn in *. apply Forall_map. eapply Forall_impl; [exact Hes|].
  intros [e [t|]] [H1 H2]; cbn in *; auto.
Qed.

(** What is complete after one pass can be where the next one starts, for a tree of the same blocks. *)
Lemma state_map n (A B A' B' : dirent -> dirent) (P : dirent -> Prop) f d t :
  (forall e, P e -> B' (f e) = B e) -> all_entries n P t -> state A B n true d t -> state A' B' n true d (map_tree n f t).
Proof.
  intros Hf. revert t. induction n as [|n IH]; intros [l]; [done|]. cbn [map_tree all_entries]. rewrite !state_S. intros Hall Hst.
  apply Forall_map. rewrite Forall_forall in *. intros [b es] Hin. specialize (Hall _ Hin). destruct (Hst _ Hin) as (xs & E & Hx). exists xs. split; [done|].
  cbn [snd] in *. clear E Hin. induction Hx as [|s x es xs [[-> Hs]|[? _]] Hx IHx]; [constructor| |done]. apply Forall_cons in Hall as [[Hp Ht] Hall].
  cbn [map]. constructor; [|by apply IHx]. left. cbn [fst]. split; [by rewrite Hf|]. unfold sub_state in *. destruct s as [e [t|]]; cbn in *; [by apply IH|done].
Qed.

(** ... and the start of the next one. *)
Lemma state_next n (A B C : dirent -> dirent) d t : state A B n true d t -> state B C n false d t.
Proof.
  revert t. induction n as [|n IH]; intros [l]; [done|]. rewrite !state_S. intros Hst. eapply Forall_impl; [exact Hst|]. intros bes (xs & E & Hx).
  exists xs. split; [done|]. eapply Forall2_impl; [exact Hx|]. intros s x [[-> Hs]|[? _]]; [|done]. right. split_and!; [done|done|].
  unfold sub_state in *. destruct (snd s); [by apply IH|done].
Qed.

Lemma state_dirs n (A B : dirent -> dirent) fin d d' t : dirs d' = dirs d -> state A B n fin d t -> state A B n fin d' t.
Proof.
  intros Hd. revert fin t. induction n as [|n IH]; intros fin [l]; [done|]. rewrite !state_S. intros Hst. eapply Forall_impl; [exact Hst|].
  intros bes (xs & E & Hx). exists xs. split; [by rewrite Hd|]. eapply Forall2_impl; [exact Hx|]. unfold entry_state, sub_state.
  intros s x [[-> Hs]|(-> & -> & Hs)]; [left|right]; (split_and!; [done..|]); destruct (snd s); auto.
Qed.

Lemma state_done n (A A' B : dirent -> dirent) d t : state A B n true d t -> state A' B n true d t.
Proof.
  revert t. induction n as [|n IH]; intros [l]; [done|]. rewrite !state_S. intros Hst. eapply Forall_impl; [exact Hst|]. intros bes (xs & E & Hx).
  exists xs. split; [done|]. eapply Forall2_impl; [exact Hx|]. intros s x [[-> Hs]|[? _]]; [|done]. left. split; [done|].
  unfold sub_state in *. destruct (snd s); [by apply IH|done].
Qed.

(** ** The low bit of the descriptor size *)

Lemma ldiff_twice x : Z.ldiff (Z.ldiff x 1) 1 = Z.ldiff x 1.
Proof. apply Z.bits_inj'. intros n Hn. rewrite !Z.ldiff_spec. by destruct (Z.testbit x n), (Z.testbit 1 n). Qed.

Lemma ldiff_lor x : Z.ldiff (Z.lor x 1) 1 = Z.ldiff x 1.
Proof. apply Z.bits_inj'. intros n Hn. rewrite !Z.ldiff_spec, Z.lor_spec. by destruct (Z.testbit x n), (Z.testbit 1 n). Qed.

Lemma refused_set_low s : refused (set_low_bit s) = refused s.
Proof. unfold refused. cbn. by rewrite ldiff_lor. Qed.
Lemma refused_clear_low s : refused (clear_low_bit s) = refused s.
Proof. unfold refused. cbn. by rewrite ldiff_twice. Qed.

(** ** One number of inodes per group *)

Section filesystem.
Context (g : geometry).
Context (inodes_per_block_pos : 0 < block_size g / inode_size g) (block_size_pos : 0 < block_size g) (groups_pos : 0 < groups g).

Definition group_count : Z := (len_blocks g + blocks_per_group g - 1) / blocks_per_group g.
Definition aligned (ipg : Z) : Z := new_inodes_per_group (with_inodes ipg g).

Lemma aligned_spec ipg : 0 < ipg -> ipg <= aligned ipg /\ aligned (aligned ipg) = aligned ipg /\ aligned ipg mod (block_size g / inode_size g) = 0.
Proof.
  intros Hi. unfold aligned, new_inodes_per_group. cbn. set (y := block_size g / inode_size g) in *. clearbody y.
  set (q := (ipg + y - 1) / y). assert (ipg <= y * q) as Hq by (pose proof (Z.div_mod (ipg + y - 1) y ltac:(lia)); pose proof (Z.mod_pos_bound (ipg + y - 1) y ltac:(lia)); unfold q; nia).
  split_and!; [done| |by rewrite Z.mul_comm, Z.mod_mul by lia]. f_equal. replace (y * q + y - 1) with (q * y + (y - 1)) by lia.
  rewrite Z.div_add_l by lia. rewrite (Z.div_small (y - 1)) by lia. lia.
Qed.

(** A superblock that has a number of inodes per group. *)
Record sb_ok (ipg : Z) (s : ext4_super_block) : Prop := {
  sb_ipg : s_inodes_per_group s = ipg;
  sb_count : s_inodes_count s = u32 (ipg * group_count);
  sb_accepted : refused s = false;
}.

Lemma sb_ok_set_low ipg s : sb_ok ipg s -> sb_ok ipg (set_low_bit s).
Proof. intros [H1 H2 H3]. split; [done|done|by rewrite refused_set_low]. Qed.
Lemma sb_ok_clear_low ipg s : sb_ok ipg s -> sb_ok ipg (clear_low_bit s).
Proof. intros [H1 H2 H3]. split; [done|done|by rewrite refused_clear_low]. Qed.
Lemma sb_ok_nr ipg i s : sb_ok ipg s -> sb_ok ipg (with_nr i s).
Proof. intros [H1 H2 H3]. by split. Qed.

(** The new count of inodes is the one the tool checks for. *)
Lemma count_updated a b : u32 (u32 (a * group_count) + u32 (group_count * u32 (b - a))) = u32 (b * group_count).
Proof.
  unfold wrap. rewrite <- Zplus_mod, Zplus_mod, Zmult_mod_idemp_r, <- Zplus_mod. f_equal. lia.
Qed.

(** ** The bitmaps *)

(** Every group has a bitmap with room for [k] inodes. *)
Definition bitmap_there (k : Z) (m : gmap Z other_block) (b : Z) : Prop := exists bm, m !! b = Some (Bitmap bm) /\ k <= 8 * zlen bm.

Lemma clear_bits_ok c i bm u :
  0 <= i -> i + Z.of_nat c <= 8 * zlen bm -> exists bm' u', clear_bits c i bm u = Some (bm', u') /\ length bm' = length bm.
Proof.
  revert i bm u. induction c as [|c IH]; intros i bm u Hi Hc; [by exists bm, u|]. cbn [clear_bits].
  destruct (lookup_lt_is_Some_2 bm (Z.to_nat (i / 8))) as [x Hx].
  { unfold zlen in Hc. pose proof (Z.div_mod i 8). pose proof (Z.mod_pos_bound i 8). lia. }
  rewrite Hx. cbn [mbind option_bind]. destruct (Z.testbit x (i mod 8)).
  - destruct (IH (i + 1) (<[Z.to_nat (i / 8) := Z.clearbit x (i mod 8)]> bm) true) as (bm' & u' & E & Hl); [lia|unfold zlen in *; rewrite length_insert; lia|].
    exists bm', u'. split; [done|]. by rewrite Hl, length_insert.
  - apply IH; lia.
Qed.

(** ** What the update of the superblocks may change *)

Section superblocks.
Context (all_others : gmap Z other_block) (ipg : Z) (ipg_pos : 0 < ipg).
Abbreviation info := (with_inodes ipg g).

Definition bitmaps_ok (m : gmap Z other_block) (l : list group_desc) : Prop :=
  Forall (bitmap_there (aligned ipg) m) (fmap bg_inode_bitmap l) /\ (Z.to_nat group_count <= length l)%nat.

Record sb_rel (no_write : bool) (w w' : world) : Prop := {
  rel_written : no_write = true -> on_disk w' = on_disk w;
  rel_dirs : dirs (on_disk w') = dirs (on_disk w);
  rel_magic : magic (on_disk w') = magic (on_disk w);
  rel_inodes : inodes (on_disk w') = inodes (on_disk w);
  rel_others : reads_as all_others (others (on_disk w)) -> reads_as all_others (others (on_disk w'));
  rel_mem : fmap bg_inode_bitmap (mem_desc w') = fmap bg_inode_bitmap (mem_desc w);
  rel_desc : fmap bg_inode_bitmap (bg_desc (on_disk w')) = fmap bg_inode_bitmap (bg_desc (on_disk w)) \/
             fmap bg_inode_bitmap (bg_desc (on_disk w')) = fmap bg_inode_bitmap (mem_desc w);
  rel_bitmaps : forall b, bitmap_there (aligned ipg) (others (on_disk w)) b -> bitmap_there (aligned ipg) (others (on_disk w')) b;
  rel_sb : sb (on_disk w') = sb (on_disk w) \/ sb_ok (aligned ipg) (sb (on_disk w'));
}.

Lemma sb_rel_refl nw w : sb_rel nw w w.
Proof. split; auto. Qed.

Lemma sb_rel_trans nw w1 w2 w3 : sb_rel nw w1 w2 -> sb_rel nw w2 w3 -> sb_rel nw w1 w3.
Proof.
  intros [] []. split; auto; try congruence.
  - intros Hn. rewrite rel_written1, rel_written0 by done. done.
  - destruct rel_desc1; [destruct rel_desc0|]; [left|right|right]; congruence.
  - destruct rel_sb1; [destruct rel_sb0|]; [left; congruence|right; congruence|by right].
Qed.

(** A step that only relates the worlds. *)
Definition steps {X} (c : nat) (nw : bool) (m : M X) (w : world) (Q : X -> world -> Prop) : Prop :=
  runs c m w (fun a w' => sb_rel nw w w' /\ Q a w') (fun w' => sb_rel nw w w').

Lemma steps_bind {X Y} c1 c2 c nw (m : M X) (k : X -> M Y) w Q1 Q :
  steps c1 nw m w Q1 -> (c1 + c2 <= c)%nat -> (forall a w1, sb_rel nw w w1 -> Q1 a w1 -> steps c2 nw (k a) w1 Q) -> steps c nw (m ≫= k) w Q.
Proof.
  intros Hm Hc Hk. eapply runs_seq; [exact Hm|exact Hc|done|]. intros a w1 [Hr H1]. eapply runs_mono; [by apply Hk|done| |].
  - intros b w2 [Hr2 H2]. split; [by eapply sb_rel_trans|done].
  - intros w2 Hr2. by eapply sb_rel_trans.
Qed.

Lemma steps_pure {X Y} c nw (m : M X) a (k : X -> M Y) w Q : m w = (Ok a, w) -> steps c nw (k a) w Q -> steps c nw (m ≫= k) w Q.
Proof. apply runs_pure. Qed.

Lemma steps_ret {X} c nw (a : X) w (Q : X -> world -> Prop) : Q a w -> steps c nw (ret a) w Q.
Proof. intros H. unfold steps, runs. cbn. split; [split; [apply sb_rel_refl|done]|lia]. Qed.

Lemma steps_write nw f w (Q : unit -> world -> Prop) :
  (forall b, sb_rel nw w {| on_disk := f (on_disk w); budget := b; mem_desc := mem_desc w; no_write_state := no_write_state w |}) ->
  (forall w', on_disk w' = f (on_disk w) -> mem_desc w' = mem_desc w -> Q tt w') -> steps 1 nw (write f) w Q.
Proof.
  intros Hf HQ. unfold steps, runs, write. destruct (budget w) as [|b] eqn:Eb; [split; [apply sb_rel_refl|lia]|].
  split; [split; [apply Hf|by apply HQ]|cbn; lia].
Qed.

Lemma check_inode_bitmap_ok nw gd w :
  bitmap_there (aligned ipg) (others (on_disk w)) (bg_inode_bitmap gd) -> steps 1 nw (check_inode_bitmap info nw gd) w (fun _ _ => True).
Proof.
  intros (bm & Hbm & Hlen). unfold check_inode_bitmap. eapply steps_pure; [unfold read_other, read; rewrite bind_run, Hbm; reflexivity|].
  destruct (aligned_spec ipg ipg_pos) as (Hge & _ & _). change (new_inodes_per_group info) with (aligned ipg). change (inodes_per_group info) with ipg.
  destruct (clear_bits_ok (Z.to_nat (aligned ipg - ipg)) ipg bm false) as (bm' & u & E & Hl); [lia|lia|].
  eapply steps_pure; [rewrite E; reflexivity|]. destruct u; [|by apply steps_ret].
  unfold write_other. destruct nw; [by apply steps_ret|]. apply steps_write; [|done]. intros b. split; auto; try done; cbn.
  - intros Hr b0 o Ho Hn. rewrite lookup_insert_ne; [by apply Hr|]. intros <-. specialize (Hr _ _ Ho Hn). rewrite Hr in Hbm. by simplify_eq.
  - intros b0 (bm0 & Hb0 & Hl0). destruct (decide (bg_inode_bitmap gd = b0)) as [<-|Hne].
    + exists bm'. rewrite lookup_insert_eq. rewrite Hbm in Hb0. simplify_eq. split; [done|]. unfold zlen in *. by rewrite Hl.
    + exists bm0. by rewrite lookup_insert_ne.
Qed.

Lemma update_groups_ok c nw updating more i w :
  0 <= i -> (Z.to_nat i + c <= length (mem_desc w))%nat ->
  Forall (bitmap_there (aligned ipg) (others (on_disk w))) (fmap bg_inode_bitmap (mem_desc w)) ->
  steps c nw (update_groups info c nw updating more i) w (fun _ _ => True).
Proof.
  revert i w. induction c as [|c IH]; intros i w Hi Hc Hb; [by apply steps_ret|]. cbn [update_groups].
  eapply steps_pure; [reflexivity|]. destruct (lookup_lt_is_Some_2 (mem_desc w) (Z.to_nat i) ltac:(lia)) as [gd Hgd].
  eapply steps_pure; [rewrite Hgd; reflexivity|]. set (gd' := if updating then more_free more gd else gd).
  assert (bg_inode_bitmap gd' = bg_inode_bitmap gd) as Eg by (unfold gd'; by destruct updating).
  assert (fmap bg_inode_bitmap (<[Z.to_nat i := gd']> (mem_desc w)) = fmap bg_inode_bitmap (mem_desc w)) as Em.
  { rewrite list_fmap_insert, Eg. apply list_insert_id. by rewrite list_lookup_fmap, Hgd. }
  assert (bitmap_there (aligned ipg) (others (on_disk w)) (bg_inode_bitmap gd')) as Hthere.
  { rewrite Eg. rewrite Forall_forall in Hb. apply Hb. apply list_elem_of_fmap. exists gd. split; [done|]. by eapply list_elem_of_lookup_2. }
  eapply (steps_bind 0 (S c)); [|lia|].
  - instantiate (1 := fun _ w' => on_disk w' = on_disk w /\ fmap bg_inode_bitmap (mem_desc w') = fmap bg_inode_bitmap (mem_desc w) /\
      length (mem_desc w') = length (mem_desc w)). unfold steps, runs, set_memory. split; [|cbn; lia].
    split; [split; auto; try done|]. split_and!; [done|done|apply length_insert].
  - intros _ w1 _ (Ed & Em1 & El). eapply (steps_bind 1 c); [apply check_inode_bitmap_ok; by rewrite Ed|lia|].
    intros _ w2 Hr _. apply IH; [lia| |].
    + pose proof (f_equal length (rel_mem _ _ _ Hr)) as Hl2. rewrite !length_fmap in Hl2. rewrite Hl2, El. lia.
    + rewrite (rel_mem _ _ _ Hr), Em1. eapply Forall_impl; [exact Hb|]. intros b. rewrite <- Ed. apply (rel_bitmaps _ _ _ Hr).
Qed.

Lemma write_group_ok nw i s w :
  sb_ok (aligned ipg) s ->
  steps 2 nw (write_group nw i s (mem_desc w)) w (fun _ w' => nw = false -> i = 0 -> sb_ok (aligned ipg) (sb (on_disk w'))).
Proof.
  intros Hs. unfold write_group. destruct nw; [by apply steps_ret|]. destruct (Z.eqb_spec i 0) as [->|Hi].
  - eapply (steps_bind 1 1); [apply (steps_write false _ _ (fun _ w' => sb (on_disk w') = s /\ mem_desc w' = mem_desc w))|lia|].
    + intros b. split; auto; done.
    + intros w' -> ->. done.
    + intros _ w1 _ [E1 E2]. apply steps_write.
      * intros b. split; auto; try done. right. by rewrite <- E2.
      * intros w' -> _ _ _. cbn. by rewrite E1.
  - eapply (steps_bind 1 1); [apply (steps_write false _ _ (fun _ _ => True)); [|done]|lia|].
    + intros b. split; auto; done.
    + intros _ w1 _ _. apply steps_write; [|done]. intros b. split; auto; done.
Qed.

Lemma has_super_first : ext4_bg_has_super_block info 0 = true.
Proof. unfold ext4_bg_has_super_block. by destruct (sparse_super info). Qed.

Lemma write_groups_ok c nw i s w :
  sb_ok (aligned ipg) s -> 0 <= i ->
  steps (2 * c) nw (write_groups info c nw i s) w (fun _ w' => nw = false -> i = 0 -> (0 < c)%nat -> sb_ok (aligned ipg) (sb (on_disk w'))).
Proof.
  revert i s w. induction c as [|c IH]; intros i s w Hs Hi; [apply steps_ret; lia|]. cbn [write_groups].
  destruct (ext4_bg_has_super_block info i) eqn:Esup.
  - set (s' := if i =? 0 then with_nr i s else clear_low_bit (with_nr i s)).
    assert (sb_ok (aligned ipg) s') as Hs' by (unfold s'; destruct (i =? 0); [|apply sb_ok_clear_low]; by apply sb_ok_nr).
    eapply steps_pure; [reflexivity|]. eapply (steps_bind 2 (2 * c)); [by apply write_group_ok|lia|].
    intros [] w1 Hr1 H1. eapply runs_mono; [apply (IH (i + 1) s' w1 Hs'); lia|done| |done].
    intros _ w2 [Hr2 _]. split; [done|]. intros Hn Hi0 _. destruct (rel_sb _ _ _ Hr2) as [->|?]; [by apply H1|done].
  - destruct (decide (i = 0)) as [->|Hne]; [by rewrite has_super_first in Esup|].
    eapply runs_mono; [apply (IH (i + 1) s w Hs); lia|lia| |done]. intros _ w' [Hr _]. split; [done|]. by intros _ ?.
Qed.

(** The update of the superblocks: nothing but superblocks, descriptors and bitmaps changes, and the primary
    superblock ends with the new number. *)
Lemma update_superblocks_ok nw st w :
  sb_ok ipg (sb (on_disk w)) -> Forall (bitmap_there (aligned ipg) (others (on_disk w))) (fmap bg_inode_bitmap (mem_desc w)) ->
  (Z.to_nat group_count <= length (mem_desc w))%nat ->
  steps (Z.to_nat group_count + 2 * Z.to_nat (groups g)) nw (update_superblocks_and_bg_desc info nw st) w
    (fun _ w' => nw = false -> sb_ok (aligned ipg) (sb (on_disk w'))).
Proof.
  intros Hsb Hb Hl. destruct (aligned_spec ipg ipg_pos) as (_ & _ & Hmod). unfold update_superblocks_and_bg_desc.
  eapply steps_pure; [reflexivity|]. change (len_blocks info + blocks_per_group info - 1) with (len_blocks g + blocks_per_group g - 1).
  change (blocks_per_group info) with (blocks_per_group g). fold group_count. change (new_inodes_per_group info) with (aligned ipg).
  change (block_size info / inode_size info) with (block_size g / inode_size g).
  eapply (steps_bind (Z.to_nat group_count)); [by apply update_groups_ok; [|lia|]|reflexivity|]. intros _ w1 Hr1 _.
  rewrite (sb_ipg _ _ Hsb), (sb_count _ _ Hsb), count_updated, Z.eqb_refl, Hmod, Z.eqb_refl. cbn [negb].
  eapply runs_mono; [apply write_groups_ok; [|lia]|done| |done].
  - split; cbn; [done| |apply Hsb]. done.
  - intros _ w' [Hr H]. split; [done|]. intros Hn. apply H; [done|done|]. change (groups info) with (groups g). lia.
Qed.
End superblocks.

(** ** Where a disk can be between two runs *)

Section epochs.
Context (n : nat) (all_inodes : gmap (Z * Z) ext4_inode) (all_others : gmap Z other_block) (all_dirs : gmap Z (list dirent)) (root : ext4_inode).
Context (root_there : all_inodes !! (0, 1) = Some root) (root_dir : is_directory root = true).

(** A tree of directories with numbers for some count of inodes per group: every entry is used, and no block is in
    the tree twice. *)
Record epoch_ok (ipg : Z) (t : tree) : Prop := {
  ep_ipg : 2 <= ipg;
  ep_fits : fits (with_inodes ipg g) all_inodes all_others n t root;
  ep_good : all_entries n (good_num (with_inodes ipg g)) t;
  ep_nodup : NoDup (footprint n t);
}.

Definition renumber (ipg : Z) (t : tree) : tree := map_tree n (renumbered (with_inodes ipg g)) t.

Record common (ipg : Z) (d : disk) : Prop := {
  com_sb : sb_ok ipg (sb d);
  com_others : reads_as all_others (others d);
  com_inodes : inodes d = all_inodes;
  com_bitmaps : bitmaps_ok ipg (others d) (bg_desc d);
}.

Inductive phase := Unset | Marking | Updating | Superblocks.
#[local] Instance phase_eq_dec : EqDecision phase.
Proof. solve_decision. Defined.
Definition code (p : phase) : Z := match p with Unset => 0 | Marking => 1 | Updating => 2 | Superblocks => 3 end.

Definition dirs_at (p : phase) (ipg : Z) (t : tree) (d : disk) : Prop :=
  match p with
  | Unset => state id id n true d t
  | Marking => state id marked n false d t
  | Updating => state marked (renumbered (with_inodes ipg g)) n false d t
  | Superblocks => state marked (renumbered (with_inodes ipg g)) n true d t
  end.

Record at_phase (p : phase) (ipg : Z) (t : tree) (d : disk) : Prop := {
  at_state : state_of (magic d) = code p;
  at_dirs : dirs_at p ipg t d;
  at_common : common ipg d;
  at_rest : forall b, b ∉ footprint n t -> dirs d !! b = all_dirs !! b;
}.

(** A run was interrupted before or after the new number of inodes was in the superblock. *)
Definition resumable (ipg : Z) (t : tree) (d : disk) : Prop :=
  (exists p, at_phase p ipg t d) \/ (exists p, at_phase p (aligned ipg) (renumber ipg t) d).

(** All is done: every entry has its new number, and the file system can be mounted. *)
Definition repaired (ipg : Z) (t : tree) (d : disk) : Prop :=
  at_phase Unset (aligned ipg) (renumber ipg t) d /\ magic d = 0 /\ Z.testbit (s_desc_size (sb d)) 0 = false.

Lemma renumbered_place ipg e : 0 < ipg -> good_num (with_inodes ipg g) e ->
  place (with_inodes (aligned ipg) g) (d_inode (renumbered (with_inodes ipg g) e)) = place (with_inodes ipg g) (d_inode e) /\
  good_num (with_inodes (aligned ipg) g) (renumbered (with_inodes ipg g) e) /\
  renumbered (with_inodes (aligned ipg) g) (renumbered (with_inodes ipg g) e) = renumbered (with_inodes ipg g) e.
Proof.
  intros Hi Hg. destruct (aligned_spec ipg Hi) as (Hge & Hal & _).
  destruct (compute_good (with_inodes ipg g) e Hi) as [Ec Hr]; [change (0 < aligned ipg); lia|done|]. destruct Hg as [H1 H2].
  cbn [d_inode renumbered with_inode]. change (inodes_per_group (with_inodes ipg g)) with ipg in *. change (new_inodes_per_group (with_inodes ipg g)) with (aligned ipg) in *.
  pose proof (Z.div_pos (d_inode e - 1) ipg ltac:(lia) ltac:(lia)) as Hq. pose proof (Z.mod_pos_bound (d_inode e - 1) ipg ltac:(lia)) as Hm.
  set (q := (d_inode e - 1) / ipg) in *. set (r := (d_inode e - 1) mod ipg) in *. set (i := compute_new_inum (with_inodes ipg g) (d_inode e)) in *.
  assert ((i - 1) / aligned ipg = q /\ (i - 1) mod aligned ipg = r) as [Eq Er].
  { rewrite Ec. replace (q * aligned ipg + r + 1 - 1) with (q * aligned ipg + r) by lia. split.
    - rewrite Z.div_add_l, Z.div_small by lia. lia.
    - rewrite Z.add_comm, Z.mod_add, Z.mod_small by lia. done. }
  assert (good_num (with_inodes (aligned ipg) g) (renumbered (with_inodes ipg g) e)) as Hgood.
  { split; cbn [d_inode renumbered with_inode]; fold i; [done|].
    change (inodes_per_group (with_inodes (aligned ipg) g)) with (aligned ipg). change (new_inodes_per_group (with_inodes (aligned ipg) g)) with (aligned (aligned ipg)).
    rewrite Hal, Eq, Er. lia. }
  split_and!; [|done|].
  - unfold place. change (inodes_per_group (with_inodes (aligned ipg) g)) with (aligned ipg). change (inodes_per_group (with_inodes ipg g)) with ipg.
    cbn [d_inode renumbered with_inode]. fold i. unfold wrap, high_bit in *. rewrite (Z.mod_small (i - 1)), (Z.mod_small (d_inode e - 1) (2 ^ 32)) by lia.
    by rewrite Eq, Er.
  - destruct (compute_good (with_inodes (aligned ipg) g) _ ltac:(cbn; lia) ltac:(change (0 < aligned (aligned ipg)); lia) Hgood) as [Ec' _].
    unfold renumbered, with_inode in *. cbn [d_inode rec_len file_type d_name] in *. f_equal. fold i in Ec' |- *. rewrite Ec'.
    change (inodes_per_group (with_inodes (aligned ipg) g)) with (aligned ipg). change (new_inodes_per_group (with_inodes (aligned ipg) g)) with (aligned (aligned ipg)).
    rewrite Hal, Eq, Er. lia.
Qed.

Lemma fits_renumber ipg k t ino : 0 < ipg -> all_entries k (good_num (with_inodes ipg g)) t ->
  fits (with_inodes ipg g) all_inodes all_others k t ino ->
  fits (with_inodes (aligned ipg) g) all_inodes all_others k (map_tree k (renumbered (with_inodes ipg g)) t) ino.
Proof.
  intros Hi. revert t ino. induction k as [|k IH]; intros [l] ino; [done|]. cbn [all_entries map_tree fits]. intros Hall (Hsize & Hlist & Hl).
  assert ((map (fun bes : Z * list entry => (fst bes, map (fun s : entry => (renumbered (with_inodes ipg g) (fst s), option_map (map_tree k (renumbered (with_inodes ipg g))) (snd s))) (snd bes))) l).*1 = l.*1) as E1.
  { rewrite <- list_fmap_compose. by apply list_fmap_ext. }
  rewrite E1. assert (forall X Y (f : X -> Y) (m : list X), zlen (map f m) = zlen m) as Ez by (intros; unfold zlen; by rewrite length_map). rewrite Ez.
  split; [done|]. split; [exact Hlist|]. apply Forall_map. rewrite Forall_forall in *. intros [b es] Hin. specialize (Hall _ Hin). destruct (Hl _ Hin) as [Hlen Hes].
  cbn [fst snd] in *. split.
  - etrans; [|exact Hlen]. clear. unfold block_length. induction es as [|s es IHes]; [done|]. cbn. by rewrite IHes.
  - apply Forall_map. rewrite Forall_forall in *. intros [e sub] Hs. destruct (Hall _ Hs) as [Hg Ht]. destruct (Hes _ Hs) as [H12 Hsub]. cbn [fst snd option_map] in *.
    destruct (renumbered_place ipg e Hi Hg) as (Hp & _ & _). split; [done|].
    assert (dir_entry (with_inodes (aligned ipg) g) all_inodes (renumbered (with_inodes ipg g) e) = dir_entry (with_inodes ipg g) all_inodes e) as Ed
      by (unfold dir_entry; by rewrite Hp). rewrite Ed, Hp. destruct sub as [t|]; cbn [option_map]; [|done].
    destruct Hsub as (? & ? & child & ? & ? & ?). split_and!; [done|done|]. exists child. split_and!; auto.
Qed.

Lemma epoch_next ipg t : epoch_ok ipg t -> epoch_ok (aligned ipg) (renumber ipg t).
Proof.
  intros [Hi Hf Hg Hn]. destruct (aligned_spec ipg ltac:(lia)) as (Hge & _ & _). split; [lia| | |].
  - by apply fits_renumber; [lia|..].
  - eapply all_entries_map; [|exact Hg]. intros e He. by apply renumbered_place; [lia|].
  - unfold renumber. by rewrite footprint_map.
Qed.

(** ** One run *)

Section run.
Context (ipg : Z) (t : tree) (epoch : epoch_ok ipg t).
Abbreviation info := (with_inodes ipg g).

Definition mem_ok (w : world) : Prop := fmap bg_inode_bitmap (mem_desc w) = fmap bg_inode_bitmap (bg_desc (on_disk w)).
Definition at_world (p : phase) (w : world) : Prop := at_phase p ipg t (on_disk w) /\ mem_ok w.
Definition crash (w : world) : Prop := resumable ipg t (on_disk w).

Lemma ipg_pos : 0 < ipg.
Proof. pose proof (ep_ipg _ _ epoch). lia. Qed.

Lemma at_world_crash p w : at_world p w -> crash w.
Proof. intros [H _]. left. by exists p. Qed.

(** What is read of a world does not change with its directories, its state and the low bit. *)
Lemma common_with ipg0 d d' :
  common ipg0 d -> sb_ok ipg0 (sb d') -> others d' = others d -> inodes d' = inodes d -> bg_desc d' = bg_desc d -> common ipg0 d'.
Proof. intros [H1 H2 H3 H4] Hs Ho Hi Hb. split; [done|by rewrite Ho|congruence|by rewrite Ho, Hb]. Qed.

Lemma dirs_at_with p ipg0 t0 d d' : dirs d' = dirs d -> dirs_at p ipg0 t0 d -> dirs_at p ipg0 t0 d'.
Proof. intros E. destruct p; by apply state_dirs. Qed.

Lemma state_of_code p : state_of (magic_of (code p)) = code p.
Proof. by destruct p. Qed.

Lemma set_state_ok p p' w :
  p' <> Unset -> at_world p w -> dirs_at p' ipg t (on_disk w) ->
  runs 2 (set_fs_fixup_state false (code p')) w (fun _ w' => at_world p' w') crash.
Proof.
  intros Hp [Hat Hmem] Hd. unfold set_fs_fixup_state.
  assert ((magic_of (code p') =? 0) = false) as -> by (by destruct p').
  eapply (runs_seq 1 1 _ _ _ _ (fun _ w' => at_world p' w') _ crash).
  - unfold runs, write. destruct (budget w); [split; [by eapply at_world_crash|lia]|]. split; [|cbn; lia]. split; [|done].
    split; [apply state_of_code|by eapply dirs_at_with; [|exact Hd]| |apply Hat]. by eapply common_with; [apply Hat|apply (com_sb _ _ (at_common _ _ _ _ Hat))|..].
  - lia.
  - done.
  - intros _ w1 [Hat1 Hmem1]. eapply runs_pure; [reflexivity|]. unfold runs, write. destruct (budget w1); [split; [by eapply at_world_crash|lia]|].
    split; [|cbn; lia]. split; [|done]. split; [apply Hat1|by eapply dirs_at_with; [|apply Hat1]| |apply Hat1].
    eapply common_with; [apply Hat1| |done..]. apply sb_ok_set_low. apply (at_common _ _ _ _ Hat1).
Qed.

(** A pass over the directories, from a disk where it is under way. *)
Lemma pass_run p mode nw (A B : dirent -> dirent) fin w :
  (forall e, good_num info e -> pass_ok info mode nw A B e) ->
  at_world p w -> state A B n fin (on_disk w) t -> (forall d, state A B n fin d t -> dirs_at p ipg t d) ->
  runs (length (footprint n t)) (recurse_dir info n nw root (i_blocks_lo root * INODE_BLOCK_SIZE) mode) w
    (fun _ w' => at_world p w' /\ state A B n true (on_disk w') t) crash.
Proof.
  intros Hpass [Hat Hmem] Hst Hdirs. pose proof (at_common _ _ _ _ Hat) as Hcom.
  assert (forall f w', kept (footprint n t) w w' -> state A B n f (on_disk w') t -> (f = true \/ f = fin) -> at_world p w') as Hback.
  { intros f w' [Hkd Hk] Hs Hf. unfold others_of in Hk. injection Hk as Em Esb Eb Eo Ei _ Emem _.
    split; [|unfold mem_ok in *; by rewrite Emem, Eb]. split; [rewrite Em; apply Hat| | |intros b Hb0; rewrite Hkd by done; by apply Hat].
    - apply Hdirs. destruct Hf as [Hf|Hf]; subst f; [|done]. destruct fin; [done|by apply state_weaken].
    - eapply common_with; [exact Hcom| |done..]. rewrite Esb. apply Hcom. }
  eapply runs_mono; [apply (recurse_ok info mode nw A B all_inodes all_others n block_size_pos t root fin w)|done| |].
  - apply epoch.
  - eapply all_entries_impl; [exact Hpass|]. apply epoch.
  - apply epoch.
  - split; apply Hcom.
  - done.
  - intros _ w' [Hk Hs]. split; [|done]. by apply (Hback true); [| |left].
  - intros w' [Hk Hs]. eapply at_world_crash. by apply (Hback fin); [| |right].
Qed.

(** ** The last phase *)

Lemma superblocks_renumbered d : state marked (renumbered info) n true d t ->
  dirs_at Superblocks (aligned ipg) (renumber ipg t) d /\ dirs_at Unset (aligned ipg) (renumber ipg t) d.
Proof.
  intros Hs. pose proof (ep_good _ _ epoch) as Hg. split; cbn.
  - eapply state_map; [|exact Hg|exact Hs]. intros e He. by apply renumbered_place; [apply ipg_pos|].
  - eapply state_map; [|exact Hg|exact Hs]. done.
Qed.

Lemma bitmaps_next m l : bitmaps_ok ipg m l -> bitmaps_ok (aligned ipg) m l.
Proof. unfold bitmaps_ok. destruct (aligned_spec ipg ipg_pos) as (_ & -> & _). done. Qed.

(** What the update of the superblocks leaves, at any point. *)
Lemma superblocks_rel w w' :
  at_world Superblocks w -> sb_rel all_others ipg false w w' ->
  state_of (magic (on_disk w')) = code Superblocks /\ state marked (renumbered info) n true (on_disk w') t /\ reads_as all_others (others (on_disk w')) /\
  inodes (on_disk w') = all_inodes /\ bitmaps_ok ipg (others (on_disk w')) (bg_desc (on_disk w')) /\ mem_ok w' /\
  (sb_ok ipg (sb (on_disk w')) \/ sb_ok (aligned ipg) (sb (on_disk w'))) /\
  forall b, b ∉ footprint n t -> dirs (on_disk w') !! b = all_dirs !! b.
Proof.
  intros [[Hstate Hdirs [Hsb Ho Hi Hb] Hrest] Hmem] [H1 H2 H3 H4 H5 H6 H7 H8 H9].
  assert (fmap bg_inode_bitmap (bg_desc (on_disk w')) = fmap bg_inode_bitmap (bg_desc (on_disk w))) as Hd by (unfold mem_ok in Hmem; destruct H7; congruence).
  split_and!; [congruence|by eapply state_dirs|auto|congruence| | | |by rewrite H2].
  - destruct Hb as [Hall Hlen]. split.
    + rewrite Hd. eapply Forall_impl; [exact Hall|]. auto.
    + apply (f_equal length) in Hd. rewrite !length_fmap in Hd. by rewrite Hd.
  - unfold mem_ok in *. congruence.
  - destruct H9 as [->|?]; auto.
Qed.

Lemma superblocks_crash w w' : at_world Superblocks w -> sb_rel all_others ipg false w w' -> crash w'.
Proof.
  intros Hat Hrel. destruct (superblocks_rel w w' Hat Hrel) as (Hst & Hs & Ho & Hi & Hb & _ & [Hsb|Hsb] & Hrest).
  - left. exists Superblocks. by split.
  - right. exists Superblocks. split; [done|by apply superblocks_renumbered| |by unfold renumber; rewrite footprint_map]. split; [done|done|done|by apply bitmaps_next].
Qed.

Definition superblock_writes : nat := Z.to_nat group_count + 2 * Z.to_nat (groups g).

Lemma get_state_run p w : at_world p w -> get_fs_fixup_state false w = (Ok (code p), w).
Proof. intros [Hat _]. unfold get_fs_fixup_state, read. rewrite bind_run, (at_state _ _ _ _ Hat). done. Qed.

Lemma phase_superblocks_ok w :
  at_world Superblocks w -> runs (superblock_writes + 2) (phase_superblocks info false) w (fun _ w' => repaired ipg t (on_disk w')) crash.
Proof.
  intros Hat. unfold phase_superblocks. eapply runs_pure; [by apply get_state_run|]. change (code Superblocks =? STATE_UPDATING_SB) with true. cbn [andb].
  destruct Hat as [Hp Hmem]. pose proof (at_common _ _ _ _ Hp) as Hcom. destruct (com_bitmaps _ _ Hcom) as [Hb Hlen].
  eapply (runs_seq superblock_writes 2); [apply (update_superblocks_ok all_others ipg ipg_pos false STATE_UPDATING_SB w); [apply Hcom| |]|done| |].
  - by rewrite Hmem.
  - apply (f_equal length) in Hmem. rewrite !length_fmap in Hmem. by rewrite Hmem.
  - intros w' Hr. by apply (superblocks_crash w).
  - intros _ w1 [Hr Hdone]. specialize (Hdone eq_refl). destruct (superblocks_rel w w1 (conj Hp Hmem) Hr) as (Hst & Hs & Ho & Hi & Hb1 & Hm1 & _ & Hrest).
    destruct (superblocks_renumbered _ Hs) as [_ Hunset]. apply bitmaps_next in Hb1. unfold set_fs_fixup_state. cbn [negb].
    assert (common (aligned ipg) (on_disk w1)) as Hcom1 by by split.
    eapply (runs_seq 1 1 _ _ _ _ (fun _ w' => at_phase Unset (aligned ipg) (renumber ipg t) (on_disk w') /\ magic (on_disk w') = 0)); [|lia| |].
    + unfold runs, write. destruct (budget w1); [split; [by apply (superblocks_crash w)|lia]|]. split; [|cbn; lia]. split; [|done].
      split; [done|by eapply dirs_at_with; [|exact Hunset]| |by unfold renumber; rewrite footprint_map]. by eapply common_with; [exact Hcom1|..].
    + intros w' Hc. exact Hc.
    + intros _ w2 [Hat2 Hm2]. eapply runs_pure; [reflexivity|]. unfold runs, write.
      destruct (budget w2); [split; [right; by exists Unset|lia]|]. split; [|cbn; lia]. split_and!; [|done|].
      * split; [apply Hat2|eapply dirs_at_with; [|apply Hat2]; done| |apply Hat2]. eapply common_with; [apply Hat2| |done..]. apply sb_ok_clear_low. apply (at_common _ _ _ _ Hat2).
      * change (Z.testbit (Z.ldiff (s_desc_size (sb (on_disk w2))) 1) 0 = false). by rewrite Z.ldiff_spec, andb_false_r.
Qed.

(** ** The phases before *)

Definition update_writes : nat := length (footprint n t) + 2 + (superblock_writes + 2).

Lemma phase_update_ok w : at_world Updating w \/ at_world Superblocks w ->
  runs update_writes (phase_update info n false root (i_blocks_lo root * INODE_BLOCK_SIZE)) w (fun _ w' => repaired ipg t (on_disk w')) crash.
Proof.
  intros [Hat|Hat]; unfold phase_update; (eapply runs_pure; [by apply get_state_run|]).
  - change (code Updating =? STATE_UPDATING_INUMS) with true. cbn [andb].
    eapply (runs_seq (length (footprint n t) + 2) (superblock_writes + 2) _ _ _ _ (fun _ w' => at_world Superblocks w') _ crash);
      [|unfold update_writes; lia|done|intros _ w1; apply phase_superblocks_ok].
    eapply (runs_seq (length (footprint n t)) 2); [eapply (pass_run Updating _ false marked (renumbered info) false); [|exact Hat|apply Hat|done]|done|done|].
    + intros e. apply update_pass_ok; [apply ipg_pos|]. change (0 < aligned ipg). pose proof (aligned_spec ipg ipg_pos). pose proof ipg_pos. lia.
    + intros _ w1 [Hat1 Hs1]. by apply (set_state_ok Updating Superblocks).
  - change (code Superblocks =? STATE_UPDATING_INUMS) with false. cbn [andb].
    eapply runs_pure; [reflexivity|]. eapply runs_mono; [by apply phase_superblocks_ok|unfold update_writes; lia|done|done].
Qed.

Definition mark_writes : nat := length (footprint n t) + 2 + update_writes.

Lemma phase_mark_ok w : at_world Marking w \/ at_world Updating w \/ at_world Superblocks w ->
  runs mark_writes (phase_mark info n false root (i_blocks_lo root * INODE_BLOCK_SIZE)) w (fun _ w' => repaired ipg t (on_disk w')) crash.
Proof.
  intros [Hat|Hat].
  - unfold phase_mark. eapply runs_pure; [by apply get_state_run|]. change (code Marking =? STATE_MARKING_INUMS) with true. cbn [andb].
    eapply (runs_seq (length (footprint n t) + 2) update_writes _ _ _ _ (fun _ w' => at_world Updating w') _ crash);
      [|done|done|intros _ w1 ?; apply phase_update_ok; by left].
    eapply (runs_seq (length (footprint n t)) 2); [eapply (pass_run Marking _ false id marked false); [|exact Hat|apply Hat|done]|done|done|].
    + intros e. apply mark_pass_ok.
    + intros _ w1 [Hat1 Hs1]. apply (set_state_ok Marking Updating); [done|done|]. eapply state_next. exact Hs1.
  - assert (exists p, at_world p w /\ (code p =? STATE_MARKING_INUMS) = false) as (p & Hp & Hc) by (destruct Hat as [Hat|Hat]; [by exists Updating|by exists Superblocks]).
    unfold phase_mark. eapply runs_pure; [by apply get_state_run|]. rewrite Hc.
    eapply runs_pure; [reflexivity|]. eapply runs_mono; [by apply phase_update_ok|unfold mark_writes; lia|done|done].
Qed.

(** The most writes a run makes. *)
Definition most_writes : nat := 2 + mark_writes.

Lemma fixup_ok p w : at_world p w -> runs (superblock_writes + length (footprint n t) + most_writes) (fixup info n false) w (fun _ w' => repaired ipg t (on_disk w')) crash.
Proof.
  intros Hat. unfold fixup. eapply (runs_pure _ root).
  { unfold read_inode, read. rewrite bind_run. rewrite (com_inodes _ _ (at_common _ _ _ _ (proj1 Hat))).
    pose proof (ep_ipg _ _ epoch). change (u32 (2 - 1)) with 1. change (inodes_per_group info) with ipg. rewrite Z.div_small, Z.mod_small by lia. by rewrite root_there. }
  rewrite root_dir. cbn [negb]. eapply runs_pure; [by apply get_state_run|].
  destruct (decide (p = Unset)) as [->|Hp].
  - change (code Unset =? STATE_UNSET) with true. cbn [andb].
    eapply (runs_seq (superblock_writes + length (footprint n t) + 2) mark_writes _ _ _ _ (fun _ w' => at_world Marking w') _ crash);
      [|unfold most_writes; lia|done|intros _ w1 ?; apply phase_mark_ok; by left].
    eapply (runs_seq (length (footprint n t)) (superblock_writes + 2)); [eapply (pass_run Unset _ true id id true); [|exact Hat|apply Hat|done]|lia|done|].
    { intros e. apply sanity_pass_ok. }
    intros _ w1 [Hat1 Hs1]. pose proof (at_common _ _ _ _ (proj1 Hat1)) as Hcom. destruct (com_bitmaps _ _ Hcom) as [Hb Hlen].
    pose proof (proj2 Hat1) as Hmem.
    assert (forall w', sb_rel all_others ipg true w1 w' -> at_world Unset w') as Hsame.
    { intros w' [H1 _ _ _ _ H6 _ _ _]. specialize (H1 eq_refl). split; [rewrite H1; apply Hat1|]. unfold mem_ok in *. congruence. }
    eapply (runs_seq superblock_writes 2); [apply (update_superblocks_ok all_others ipg ipg_pos true STATE_UNSET w1); [apply Hcom| |]|done| |].
    + by rewrite Hmem.
    + apply (f_equal length) in Hmem. rewrite !length_fmap in Hmem. by rewrite Hmem.
    + intros w' Hr. eapply at_world_crash. by apply Hsame.
    + intros _ w2 [Hr _]. pose proof (Hsame w2 Hr) as Hat2. apply (set_state_ok Unset Marking); [done|done|]. eapply state_next. apply Hat2.
  - assert ((code p =? STATE_UNSET) = false) as -> by (by destruct p). eapply runs_pure; [reflexivity|].
    eapply runs_mono; [apply phase_mark_ok|unfold most_writes; lia|done|done]. destruct p; auto. done.
Qed.

(** The most writes a run makes, and what it leaves. *)
Definition writes_needed : nat := superblock_writes + length (footprint n t) + most_writes.

Lemma run_ok p budget d : at_phase p ipg t d ->
  let '(r, d') := ext4fixup g n budget d in
  (r = Ok tt /\ repaired ipg t d') \/ (r = Crashed /\ resumable ipg t d' /\ (budget < writes_needed)%nat).
Proof.
  intros Hat. unfold ext4fixup. rewrite (sb_accepted _ _ (com_sb _ _ (at_common _ _ _ _ Hat))), (sb_ipg _ _ (com_sb _ _ (at_common _ _ _ _ Hat))).
  set (w := {| on_disk := d |}). assert (at_world p w) as Hw by by split. pose proof (fixup_ok p w Hw) as Hrun. unfold runs in Hrun.
  destruct (fixup info n false w) as [[[]| | |] w']; try done.
  - left. by destruct Hrun.
  - right. destruct Hrun as [Hc Hb]. done.
Qed.
End run.

(** Runs one after the other, each interrupted after some writes or not. *)
Definition runs_of (budgets : list nat) (d : disk) : disk := foldl (fun d b => (ext4fixup g n b d).2) d budgets.

(** Numbers that are right already stay. *)
Lemma map_tree_id k (f : dirent -> dirent) (P : dirent -> Prop) t : (forall e, P e -> f e = e) -> all_entries k P t -> map_tree k f t = t.
Proof.
  intros Hf. revert t. induction k as [|k IH]; intros [l]; [done|]. cbn [all_entries map_tree]. intros Hall. f_equal.
  induction Hall as [|[b es] l Hes _ IHl]; [done|]. cbn [map fst snd] in *. f_equal; [|done]. f_equal. clear IHl.
  induction Hes as [|[e [t|]] es [He Ht] _ IHes]; [done|..]; cbn [map fst snd option_map] in *; rewrite IHes, Hf by done; [by rewrite IH|done].
Qed.

Lemma renumber_twice ipg t : epoch_ok ipg t -> renumber (aligned ipg) (renumber ipg t) = renumber ipg t.
Proof.
  intros He. unfold renumber. eapply (map_tree_id _ _ (fun e => renumbered (with_inodes (aligned ipg) g) e = e)); [done|].
  eapply all_entries_map; [|apply (ep_good _ _ He)]. intros e Hg. by apply renumbered_place; [apply (ipg_pos ipg t)|].
Qed.

Lemma aligned_twice ipg t : epoch_ok ipg t -> aligned (aligned ipg) = aligned ipg.
Proof. intros He. apply (aligned_spec ipg (ipg_pos ipg t He)). Qed.

Lemma writes_renumber ipg t : writes_needed (renumber ipg t) = writes_needed t.
Proof. unfold writes_needed, most_writes, mark_writes, update_writes, renumber. by rewrite footprint_map. Qed.

Lemma resumable_next ipg t d : epoch_ok ipg t -> resumable (aligned ipg) (renumber ipg t) d -> resumable ipg t d.
Proof.
  intros He Hr. right. unfold resumable in Hr. rewrite (renumber_twice ipg t He), (aligned_twice ipg t He) in Hr. by destruct Hr.
Qed.

(** From wherever it was interrupted, a run ends or is interrupted there again. *)
Lemma resumable_run ipg t budget d : epoch_ok ipg t -> resumable ipg t d ->
  let '(r, d') := ext4fixup g n budget d in
  resumable ipg t d' /\ ((r = Ok tt /\ repaired ipg t d') \/ (r = Crashed /\ (budget < writes_needed t)%nat)).
Proof.
  intros He [[p Hp]|[p Hp]].
  - pose proof (run_ok ipg t He p budget d Hp) as Hrun. destruct (ext4fixup g n budget d) as [r d'].
    destruct Hrun as [[-> Hr]|(-> & Hr & Hb)]; [|by split; [|right]]. split; [right; exists Unset; apply Hr|by left].
  - pose proof (run_ok _ _ (epoch_next ipg t He) p budget d Hp) as Hrun. destruct (ext4fixup g n budget d) as [r d'].
    destruct Hrun as [[-> Hr]|(-> & Hr & Hb)].
    + unfold repaired in Hr. rewrite (renumber_twice ipg t He), (aligned_twice ipg t He) in Hr. split; [right; exists Unset; apply Hr|by left].
    + split; [by apply resumable_next|]. right. by rewrite writes_renumber in Hb.
Qed.

Lemma lookup_map {X Y} (f : X -> Y) l i : map f l !! i = f <$> l !! i.
Proof. apply list_lookup_fmap. Qed.

(** The blocks of a tree with their entries. *)
Fixpoint blocks (k : nat) (t : tree) : list (Z * list dirent) :=
  match k, t with
  | S k, Dir l => map (fun bes : Z * list entry => (fst bes, (snd bes).*1)) l ++
      concat (map (fun bes : Z * list entry => concat (map (fun s : entry => match snd s with Some t => blocks k t | None => [] end) (snd bes))) l)
  | O, _ => []
  end.

Lemma blocks_renumbered k f A d t b es :
  state A id k true d (map_tree k f t) -> (b, es) ∈ blocks k t -> dirs d !! b = Some (map f es).
Proof.
  revert t. induction k as [|k IH]; intros [l] Hst Hb; [by apply not_elem_of_nil in Hb|]. cbn [map_tree blocks] in *. rewrite state_S in Hst.
  apply elem_of_app in Hb as [Hb|Hb].
  - apply list_elem_of_fmap in Hb as ([b' es'] & [= -> ->] & Hin). rewrite Forall_map, Forall_forall in Hst. destruct (Hst _ Hin) as (xs & E & Hx).
    cbn [fst snd] in *. rewrite E. f_equal. clear E Hin Hst IH. revert xs Hx. induction es' as [|s es' IHes]; intros xs Hx; [by inversion Hx|].
    cbn [map] in Hx. apply Forall2_cons_inv_l in Hx as (x & xs' & Hx0 & Hx & ->). cbn. f_equal; [by destruct Hx0 as [[-> _]|[? _]]|by apply IHes].
  - apply elem_of_concat in Hb as (bs & Hbs & Hb). apply list_elem_of_fmap in Hbs as ([b' es'] & -> & Hin).
    apply elem_of_concat in Hb as (bs & Hbs & Hb). apply list_elem_of_fmap in Hbs as ([e [t|]] & -> & Hs); [|by apply not_elem_of_nil in Hb].
    rewrite Forall_map, Forall_forall in Hst. destruct (Hst _ Hin) as (xs & _ & Hx). cbn [fst snd] in *. apply (IH t); [|done].
    apply list_elem_of_lookup in Hs as [i Hi]. destruct (Forall2_lookup_l _ _ _ i (f e, Some (map_tree k f t)) Hx) as (x & _ & Hx0); [by rewrite lookup_map, Hi|].
    by destruct Hx0 as [[_ Hsub]|[? _]].
Qed.

(** C38: On a disk whose directories are a tree without unused entries: whatever interrupted runs came before, one that
    is given enough writes ends, every entry of every directory has the new number of its inode, once, no other
    directory block has changed, and the superblock has the new number of inodes per group and can be mounted.
    An unused entry, of inode number 0, ends the walk over its block, and those after it keep their old
    numbers: [entries_after_unused_are_left]; [epoch_ok] asks of every entry a number above 0 that, like its new
    one, leaves the high bit free. *)
Theorem fixup_survives ipg t d budgets budget :
  epoch_ok ipg t -> at_phase Unset ipg t d -> (writes_needed t <= budget)%nat ->
  exists d', ext4fixup g n budget (runs_of budgets d) = (Ok tt, d') /\
    (forall b es, (b, es) ∈ blocks n t -> dirs d' !! b = Some (map (renumbered (with_inodes ipg g)) es)) /\
    (forall b, b ∉ footprint n t -> dirs d' !! b = all_dirs !! b) /\
    sb_ok (aligned ipg) (sb d') /\ magic d' = 0 /\ Z.testbit (s_desc_size (sb d')) 0 = false.
Proof.
  intros He Hat Hb. assert (resumable ipg t (runs_of budgets d)) as Hr.
  { assert (resumable ipg t d) as Hd by (left; by exists Unset). clear Hat. revert d Hd. unfold runs_of.
    induction budgets as [|k budgets IH]; intros d Hd; [done|]. cbn [foldl]. apply IH. pose proof (resumable_run ipg t k d He Hd) as Hrun.
    destruct (ext4fixup g n k d) as [r d']. apply Hrun. }
  pose proof (resumable_run ipg t budget _ He Hr) as Hrun. destruct (ext4fixup g n budget (runs_of budgets d)) as [r d'].
  destruct Hrun as [_ [[-> (Hend & Hm & Hbit)]|[_ Hlt]]]; [|lia]. exists d'. split; [done|]. split_and!; try done.
  - intros b es. apply (blocks_renumbered n _ id). apply Hend.
  - intros b Hout. apply Hend. unfold renumber. by rewrite footprint_map.
  - apply Hend.
Qed.
End epochs.
End filesystem.

(** ** A small file system *)

Module Small.

(** Two groups of 20 inodes, of which 8 fit a block: there will be 24. *)
Definition parameters : geometry :=
  {| block_size := 1024; blocks_per_group := 100; inodes_per_group := 20; inode_size := 128; bg_desc_reserve_blocks := 0; sparse_super := true;
     first_data_block := 1; len_blocks := 200; inode_table_blocks := 3; groups := 2; bg_desc_blocks := 1 |}.

Definition no_node : extent_node := {| eh_magic := 0; eh_depth := 0; eh_extents := []; eh_indices := [] |}.
Definition dir_inode (b : Z) : ext4_inode := {| is_directory := true; i_flags := 0; i_blocks_lo := 2; i_block := [b]; i_extents := no_node |}.
Definition entry_of (inode len type : Z) (name : bytes) : dirent := {| d_inode := inode; rec_len := len; file_type := type; d_name := name |}.

(** The root with one directory, inode 22, and a file in it, inode 23; both are in the second group. *)
Definition root_entries : list dirent := [entry_of 2 12 2 [46]; entry_of 2 12 2 [46; 46]; entry_of 22 1000 2 (str "sub")].
Definition sub_entries : list dirent := [entry_of 22 12 2 [46]; entry_of 2 12 2 [46; 46]; entry_of 23 1000 1 (str "file")].
Definition sub_tree : tree := Dir [(150, map (fun e => (e, None)) sub_entries)].
Definition root_tree : tree :=
  Dir [(50, [(entry_of 2 12 2 [46], None); (entry_of 2 12 2 [46; 46], None); (entry_of 22 1000 2 (str "sub"), Some sub_tree)])].

Definition superblock : ext4_super_block :=
  {| s_inodes_count := 40; s_free_inodes_count := 10; s_inodes_per_group := 20; s_desc_size := 32; s_block_group_nr := 0; s_feature_incompat := 2 |}.

Definition image (root_entries : list dirent) : disk :=
  {| magic := 0; sb := superblock; bg_desc := [{| bg_inode_bitmap := 10; bg_free_inodes_count := 5 |}; {| bg_inode_bitmap := 110; bg_free_inodes_count := 5 |}];
     dirs := <[50 := root_entries]> (<[150 := sub_entries]> ∅);
     others := <[10 := Bitmap (replicate 128 0)]> (<[110 := Bitmap (replicate 128 0)]> ∅);
     inodes := <[(0, 1) := dir_inode 50]> (<[(1, 1) := dir_inode 150]> ∅); backups := ∅ |}.
Definition start : disk := image root_entries.

Lemma list_of_dir b w : block_list parameters 1 1 (dir_inode b) w = (Ok [b], w).
Proof. reflexivity. Qed.

Lemma epoch : epoch_ok parameters 3 (inodes start) (others start) (dir_inode 50) 20 root_tree.
Proof.
  split; [done| | |].
  - cbn. split_and!; [done|done|]. repeat constructor; cbn; try done; try lia; try (eexists; split; done).
    exists (dir_inode 150). split_and!; [done|done|done|done|]. repeat constructor; cbn; try done; try lia; try (eexists; split; done).
  - cbn. repeat constructor; cbn; try done.
  - cbn. repeat constructor; set_solver.
Qed.

Lemma fresh : at_phase parameters 3 (inodes start) (others start) (dirs start) Unset 20 root_tree start.
Proof.
  split; [done| | |done].
  - cbn. constructor; [|constructor]. exists root_entries. split; [reflexivity|].
    do 2 (constructor; [left; split; [reflexivity|exact I]|]). constructor; [left; split; [reflexivity|]|constructor].
    constructor; [|constructor]. exists sub_entries. split; [reflexivity|].
    do 3 (constructor; [left; split; [reflexivity|exact I]|]). constructor.
  - split; [by split|by intros b o Ho _|done|]. split; [|apply Nat.leb_le; reflexivity]. repeat constructor; eexists; (split; [reflexivity|]); done.
Qed.
End Small.

(** After runs that are cut off after 5, 9 and 2 writes one that ends leaves the new numbers 26 and 27. *)
Example fixup_survives_witness :
  exists d', ext4fixup Small.parameters 3 100 (runs_of Small.parameters 3 [5; 9; 2]%nat Small.start) = (Ok tt, d') /\
    d_inode <$> default [] (dirs d' !! 150) = [26; 2; 27].
Proof.
  destruct (fixup_survives Small.parameters ltac:(done) ltac:(done) ltac:(done) 3 (inodes Small.start) (others Small.start) (dirs Small.start) (Small.dir_inode 50)
    eq_refl eq_refl 20 Small.root_tree Small.start [5; 9; 2]%nat 100 Small.epoch Small.fresh) as (d' & E & Hb & _).
  - apply Nat.leb_le. vm_compute. reflexivity.
  - exists d'. split; [exact E|]. rewrite (Hb 150 Small.sub_entries); [reflexivity|]. right. left.
Defined.

(** ** What an interruption can cost *)

(** The superblock is written before the descriptors: interrupted between the two, the new free inodes are never counted. *)
Example free_inodes_lost :
  map bg_free_inodes_count (bg_desc (runs_of Small.parameters 3 [100]%nat Small.start)) = [9; 9] /\
  map bg_free_inodes_count (bg_desc (runs_of Small.parameters 3 [11; 100]%nat Small.start)) = [5; 5].
Proof. split; vm_compute; reflexivity. Qed.

(** The word is written before the low bit: interrupted between the two, the next run marks numbers on a disk that can be mounted. *)
Example marked_and_mountable :
  let d := runs_of Small.parameters 3 [1; 1]%nat Small.start in
  Z.testbit (s_desc_size (sb d)) 0 = false /\ existsb (fun e => marked_num (d_inode e)) (default [] (dirs d !! 150)) = true.
Proof. split; vm_compute; reflexivity. Qed.

(** An entry that is not used ends the walk, although others follow it: they keep their old numbers. *)
Example entries_after_unused_are_left :
  let d := Small.image [Small.entry_of 2 12 2 [46]; Small.entry_of 2 12 2 [46; 46]; Small.entry_of 0 500 0 []; Small.entry_of 22 500 2 (str "sub")] in
  let d' := runs_of Small.parameters 3 [100]%nat d in
  magic d' = 0 /\ s_inodes_per_group (sb d') = 24 /\ d_inode <$> default [] (dirs d' !! 50) = [2; 2; 0; 22] /\ d_inode <$> default [] (dirs d' !! 150) = [22; 2; 23].
Proof. split_and!; vm_compute; reflexivity. Qed.
