(* ===== verification/Sha1.v ===== *)
(** * SHA-1

    Models [sha1.c] of [android/ext4_utils]: the block function with its sixteen words
    expanded in place and its rotating registers, the context that takes a message
    in pieces, and the padding; and shows that they compute the secure hash of the
    standard.  [generate_uuid] of [uuid.c] makes an identifier of it. *)

From S2P Require Import Prelude.

(** ** The block function *)

Definition rol (value bits : Z) : Z := Z.lor (u32 (Z.shiftl value bits)) (Z.shiftr value (32 - bits)).

(** [CHAR64LONG16]: sixteen little-endian words. *)
Definition word (l : list Z) (i : nat) : Z := nth i l 0.
Fixpoint load (n : nat) (c : list Z) : list Z :=
  match n with O => [] | S n => le_value (take 4 c) :: load n (drop 4 c) end.

(** The word, and the block in which it is stored. *)
Definition blk0 (l : list Z) (i : nat) : Z * list Z :=
  let w := Z.lor (Z.land (rol (word l i) 24) 4278255360) (Z.land (rol (word l i) 8) 16711935) in (w, <[i := w]> l).
Definition blk (l : list Z) (i : nat) : Z * list Z :=
  let w := rol (Z.lxor (Z.lxor (Z.lxor (word l (Nat.land (i + 13) 15)) (word l (Nat.land (i + 8) 15)))
                          (word l (Nat.land (i + 2) 15))) (word l (Nat.land i 15))) 1 in
  (w, <[Nat.land i 15 := w]> l).

(** The macros [R0] to [R4]: their function, constant and expansion. *)
Inductive round := R0 | R1 | R2 | R3 | R4.

Definition round_f (r : round) (w x y : Z) : Z :=
  match r with
  | R0 | R1 => Z.lxor (Z.land w (Z.lxor x y)) y
  | R2 | R4 => Z.lxor (Z.lxor w x) y
  | R3 => Z.lor (Z.land (Z.lor w x) y) (Z.land w x)
  end.
Definition round_k (r : round) : Z :=
  match r with R0 | R1 => 1518500249 | R2 => 1859775393 | R3 => 2400959708 | R4 => 3395469782 end.
Definition round_blk (r : round) : list Z -> nat -> Z * list Z := match r with R0 => blk0 | _ => blk end.

(** A round on the registers with these numbers: [z] and [w] change. *)
Definition do_round (r : round) (v w x y z i : nat) (st : list Z * list Z) : list Z * list Z :=
  let '(regs, block) := st in
  let '(b, block) := round_blk r block i in
  let regs := <[z := u32 (nth z regs 0 + (round_f r (nth w regs 0) (nth x regs 0) (nth y regs 0) + b + round_k r + rol (nth v regs 0) 5))]> regs in
  (<[w := rol (nth w regs 0) 30]> regs, block).

(** The unrolled sequence: which macro, and which registers, the line [i] has. *)
Definition line_round (i : nat) : round :=
  if (i <? 16)%nat then R0 else if (i <? 20)%nat then R1 else if (i <? 40)%nat then R2 else if (i <? 60)%nat then R3 else R4.
Definition do_line (i : nat) (st : list Z * list Z) : list Z * list Z :=
  match (i mod 5)%nat with
  | O => do_round (line_round i) 0 1 2 3 4 i st
  | 1%nat => do_round (line_round i) 4 0 1 2 3 i st
  | 2%nat => do_round (line_round i) 3 4 0 1 2 i st
  | 3%nat => do_round (line_round i) 2 3 4 0 1 i st
  | _ => do_round (line_round i) 1 2 3 4 0 i st
  end.

Definition SHA1Transform (state buffer : list Z) : list Z :=
  let '(regs, _) := fold_left (fun st i => do_line i st) (seq 0 80) (state, load 16 buffer) in
  zip_with (fun s v => u32 (s + v)) state regs.

(** ** The context *)

Record SHA1_CTX := { state : list Z; count0 : Z; count1 : Z; buffer : list Z }.

(** What the memory of the context held before is [old]. *)
Definition SHA1Init (old : list Z) : SHA1_CTX :=
  {| state := [1732584193; 4023233417; 2562383102; 271733878; 3285377520]; count0 := 0; count1 := 0; buffer := old |}.

(** [for (; i + 63 < len; i += 64) SHA1Transform(...)]. *)
Fixpoint transform_all (fuel : nat) (st data : list Z) (i len : Z) : list Z * Z :=
  match fuel with
  | O => (st, i)
  | S fuel =>
      if u32 (i + 63) <? len
      then transform_all fuel (SHA1Transform st (take 64 (drop (Z.to_nat i) data))) data (u32 (i + 64)) len
      else (st, i)
  end.

(** The length is that of the data; [None] is a copy past the end of the buffer. *)
Definition SHA1Update (context : SHA1_CTX) (data : list Z) : option SHA1_CTX :=
  let len := zlen data in
  let j := count0 context in
  let c0 := u32 (j + u32 (Z.shiftl len 3)) in
  let c1 := if c0 <? j then u32 (count1 context + (Z.shiftr len 29 + 1)) else count1 context in
  let j := Z.land (Z.shiftr j 3) 63 in
  if 63 <? u32 (j + len) then
    let i := 64 - j in
    buf ← write_at j (take (Z.to_nat i) data) (buffer context);
    let st := SHA1Transform (state context) buf in
    let '(st, i) := transform_all (S (length data)) st data i len in
    buf ← write_at 0 (drop (Z.to_nat i) data) buf;
    Some {| state := st; count0 := c0; count1 := c1; buffer := buf |}
  else
    buf ← write_at j data (buffer context);
    Some {| state := state context; count0 := c0; count1 := c1; buffer := buf |}.

Definition byte_of_word (w : Z) (i : nat) : Z := Z.land (Z.shiftr w ((3 - Z.of_nat i) * 8)) 255.

Fixpoint pad_zeroes (fuel : nat) (context : SHA1_CTX) : option SHA1_CTX :=
  match fuel with
  | O => None
  | S fuel =>
      if negb (Z.land (count0 context) 504 =? 448)
      then context ← SHA1Update context [0]; pad_zeroes fuel context
      else Some context
  end.

Definition SHA1Final (context : SHA1_CTX) : option (list Z) :=
  let finalcount := map (fun i => byte_of_word (if (4 <=? i)%nat then count0 context else count1 context) (Nat.land i 3)) (seq 0 8) in
  context ← SHA1Update context [128];
  context ← pad_zeroes 64 context;
  context ← SHA1Update context finalcount;
  Some (map (fun i => byte_of_word (nth (i / 4) (state context) 0) (Nat.land i 3)) (seq 0 20)).

(** ** The standard *)

Definition Ch (x y z : Z) : Z := Z.lxor (Z.land x y) (Z.land (Z.lnot x) z).
Definition Parity (x y z : Z) : Z := Z.lxor (Z.lxor x y) z.
Definition Maj (x y z : Z) : Z := Z.lxor (Z.lxor (Z.land x y) (Z.land x z)) (Z.land y z).

Definition f_t (t : nat) : Z -> Z -> Z -> Z :=
  if (t <? 20)%nat then Ch else if (t <? 40)%nat then Parity else if (t <? 60)%nat then Maj else Parity.
Definition K_t (t : nat) : Z :=
  if (t <? 20)%nat then 0x5a827999 else if (t <? 40)%nat then 0x6ed9eba1 else if (t <? 60)%nat then 0x8f1bbcdc else 0xca62c1d6.

Definition ROTL (n x : Z) : Z := Z.lor (u32 (Z.shiftl x n)) (Z.shiftr x (32 - n)).

Fixpoint be_value (l : list Z) : Z := match l with [] => 0 | b :: l => b * 2 ^ (8 * zlen l) + be_value l end.
Fixpoint be_bytes (n : nat) (v : Z) : list Z := match n with O => [] | S n => (v / 2 ^ (8 * Z.of_nat n)) mod 256 :: be_bytes n v end.

(** The first [n] words of the message schedule. *)
Fixpoint schedule (M : list Z) (n : nat) : list Z :=
  match n with
  | O => []
  | S n =>
      let ws := schedule M n in
      ws ++ [if (n <? 16)%nat then be_value (take 4 (drop (4 * n) M))
             else ROTL 1 (Z.lxor (Z.lxor (Z.lxor (nth (n - 3) ws 0) (nth (n - 8) ws 0)) (nth (n - 14) ws 0)) (nth (n - 16) ws 0))]
  end.
Definition W (M : list Z) (t : nat) : Z := nth t (schedule M (S t)) 0.

Definition step (M : list Z) (t : nat) (s : Z * Z * Z * Z * Z) : Z * Z * Z * Z * Z :=
  let '(a, b, c, d, e) := s in
  (u32 (ROTL 5 a + f_t t b c d + e + K_t t + W M t), a, ROTL 30 b, c, d).

Definition compress (H M : list Z) : list Z :=
  match H with
  | [a; b; c; d; e] =>
      let '(a', b', c', d', e') := fold_left (fun s t => step M t s) (seq 0 80) (a, b, c, d, e) in
      [u32 (a + a'); u32 (b + b'); u32 (c + c'); u32 (d + d'); u32 (e + e')]
  | _ => H
  end.

Fixpoint absorb (n : nat) (H m : list Z) : list Z :=
  match n with O => H | S n => absorb n (compress H (take 64 m)) (drop 64 m) end.

(** The message, a one bit, zeroes up to 56 bytes modulo 64, and its length in bits. *)
Definition pad (m : list Z) : list Z :=
  m ++ [128] ++ replicate (Z.to_nat ((55 - zlen m) mod 64)) 0 ++ be_bytes 8 (8 * zlen m).

Definition sha1 (m : list Z) : list Z :=
  let H := absorb (length (pad m) / 64) [0x67452301; 0xefcdab89; 0x98badcfe; 0x10325476; 0xc3d2e1f0] (pad m) in
  concat (map (be_bytes 4) H).

(** The whole of what a user does with the pieces of a message. *)
Definition SHA1_pieces (old : list Z) (pieces : list (list Z)) : option (list Z) :=
  ctx ← foldl (fun c p => c ← c; SHA1Update c p) (Some (SHA1Init old)) pieces;
  SHA1Final ctx.

(** ** The identifier of a name *)

(** [ntohl] and [ntohs] of a little-endian machine, for a word of [n] bytes. *)
Definition ntoh (n : nat) (v : Z) : Z := le_value (rev (le_bytes n v)).

Definition sha1_hash (old namespace name : list Z) : option (list Z) := SHA1_pieces old [namespace; name].

(** The [struct uuid] over the first sixteen bytes of a digest, and what the memory holds when its fields are set. *)
Definition uuid_of (digest : list Z) : list Z :=
  let time_low := ntoh 4 (le_value (take 4 digest)) in
  let time_mid := ntoh 2 (le_value (take 2 (drop 4 digest))) in
  let time_hi_and_version := ntoh 2 (le_value (take 2 (drop 6 digest))) in
  let time_hi_and_version := Z.land time_hi_and_version 4095 in
  let time_hi_and_version := Z.lor time_hi_and_version (Z.shiftl 5 12) in
  let clk_seq_hi_res := Z.land (nth 8 digest 0) (Z.lnot (Z.shiftl 1 6)) in
  let clk_seq_hi_res := Z.lor clk_seq_hi_res (Z.shiftl 1 7) in
  le_bytes 4 time_low ++ le_bytes 2 time_mid ++ le_bytes 2 time_hi_and_version ++ clk_seq_hi_res :: drop 9 (take 16 digest).

Definition generate_uuid (old namespace name : list Z) : option (list Z) :=
  digest ← sha1_hash old namespace name; Some (uuid_of digest).

Example sha1_abc : sha1 (str "abc") = [0xa9;0x99;0x3e;0x36;0x47;0x06;0x81;0x6a;0xba;0x3e;0x25;0x71;0x78;0x50;0xc2;0x6c;0x9c;0xd0;0xd8;0x9d].
Proof. vm_compute. reflexivity. Qed.
Example pieces_abc : SHA1_pieces (replicate 64 5) [str "a"; str "bc"] = Some (sha1 (str "abc")).
Proof. vm_compute. reflexivity. Qed.

(** ** Words and bytes *)

Lemma rol_ROTL v n : rol v n = ROTL n v.
Proof. done. Qed.

Lemma is_byte_testbit b i : is_byte b -> 8 <= i -> Z.testbit b i = false.
Proof. intros Hb Hi. apply (in_u_testbit 8); [exact Hb|done]. Qed.

(** A byte below more significant bits. *)
Lemma testbit_byte b v i : is_byte b -> 0 <= i -> Z.testbit (b + 256 * v) i = if i <? 8 then Z.testbit b i else Z.testbit v (i - 8).
Proof.
  intros Hb Hi. unfold is_byte in Hb. destruct (Z.ltb_spec i 8).
  - rewrite <- (Z.mod_pow2_bits_low (b + 256 * v) 8) by lia. f_equal. change 256 with (2 ^ 8).
    rewrite (Z.mul_comm (2 ^ 8)), Z_mod_plus_full. by apply Z.mod_small.
  - replace i with (i - 8 + 8) at 1 by lia. rewrite <- Z.div_pow2_bits by lia. f_equal. change (2 ^ 8) with 256.
    rewrite (Z.mul_comm 256), Z.div_add by lia. rewrite Z.div_small by lia. lia.
Qed.

Lemma testbit_u32_shiftl v n i : 0 <= n -> 0 <= i -> Z.testbit (u32 (Z.shiftl v n)) i = (i <? 32) && Z.testbit v (i - n).
Proof.
  intros Hn Hi. unfold wrap. destruct (Z.ltb_spec i 32).
  - by rewrite Z.mod_pow2_bits_low, Z.shiftl_spec by lia.
  - by rewrite Z.mod_pow2_bits_high by lia.
Qed.

(** The bytes of a word, least significant first, as bits. *)
Lemma testbit_le4 b0 b1 b2 b3 i :
  is_byte b0 -> is_byte b1 -> is_byte b2 -> is_byte b3 -> 0 <= i ->
  Z.testbit (le_value [b0; b1; b2; b3]) i =
    if i <? 8 then Z.testbit b0 i else if i <? 16 then Z.testbit b1 (i - 8) else if i <? 24 then Z.testbit b2 (i - 16)
    else Z.testbit b3 (i - 24).
Proof.
  intros H0 H1 H2 H3 Hi. cbn [le_value]. rewrite testbit_byte by done. destruct (Z.ltb_spec i 8); [done|].
  rewrite testbit_byte by (done || lia). destruct (Z.ltb_spec (i - 8) 8), (Z.ltb_spec i 16); try lia; [done|].
  rewrite testbit_byte by (done || lia). replace (i - 8 - 8) with (i - 16) by lia.
  destruct (Z.ltb_spec (i - 16) 8), (Z.ltb_spec i 24); try lia; [done|].
  rewrite testbit_byte by (done || lia). replace (i - 16 - 8) with (i - 24) by lia.
  destruct (Z.ltb_spec (i - 24) 8); [done|]. rewrite Z.testbit_0_l. symmetry. apply is_byte_testbit; [done|lia].
Qed.

Lemma be_le4 b0 b1 b2 b3 : be_value [b0; b1; b2; b3] = le_value [b3; b2; b1; b0].
Proof.
  cbn [be_value le_value]. change (2 ^ (8 * zlen [b1; b2; b3])) with 16777216. change (2 ^ (8 * zlen [b2; b3])) with 65536.
  change (2 ^ (8 * zlen [b3])) with 256. change (2 ^ (8 * zlen [])) with 1. lia.
Qed.

Ltac split_ltb :=
  repeat (match goal with |- context[?a <? ?b] => destruct (Z.ltb_spec a b); try lia
                        | |- context[?a <=? ?b] => destruct (Z.leb_spec a b); try lia end; cbn [andb orb]).

Lemma testbit_mask k i : 0 <= k -> Z.testbit (Z.shiftl (Z.ones 8) k) i = (k <=? i) && (i <? k + 8).
Proof.
  intros Hk. destruct (Z.ltb_spec i 0).
  - rewrite Z.testbit_neg_r by done. split_ltb; done.
  - rewrite Z.shiftl_spec, Z.testbit_ones by lia. split_ltb; done.
Qed.

(** [blk0] turns the word around. *)
Lemma swap_word b0 b1 b2 b3 :
  is_byte b0 -> is_byte b1 -> is_byte b2 -> is_byte b3 ->
  Z.lor (Z.land (rol (le_value [b0; b1; b2; b3]) 24) 4278255360) (Z.land (rol (le_value [b0; b1; b2; b3]) 8) 16711935)
  = be_value [b0; b1; b2; b3].
Proof.
  intros H0 H1 H2 H3. rewrite be_le4. set (x := le_value [b0; b1; b2; b3]). set (y := le_value [b3; b2; b1; b0]).
  change 4278255360 with (Z.lor (Z.shiftl (Z.ones 8) 8) (Z.shiftl (Z.ones 8) 24)).
  change 16711935 with (Z.lor (Z.shiftl (Z.ones 8) 0) (Z.shiftl (Z.ones 8) 16)).
  assert (forall k, 32 <= k -> Z.testbit x k = false) as Hx.
  { intros k Hk. unfold x. rewrite testbit_le4 by (done || lia). split_ltb. apply is_byte_testbit; [done|lia]. }
  apply Z.bits_inj'. intros i Hi. unfold rol.
  rewrite Z.lor_spec, !Z.land_spec, !Z.lor_spec, !testbit_u32_shiftl, !Z.shiftr_spec, !testbit_mask by lia.
  change (32 - 24) with 8. change (32 - 8) with 24. cbn [Z.add].
  assert (forall k, 0 <= k < 32 -> Z.testbit x k = if k <? 8 then Z.testbit b0 k else if k <? 16 then Z.testbit b1 (k - 8)
     else if k <? 24 then Z.testbit b2 (k - 16) else Z.testbit b3 (k - 24)) as Hx2 by (intros k Hk; apply testbit_le4; done || lia).
  unfold y. rewrite (testbit_le4 b3 b2 b1 b0) by done.
  assert (0 <= i < 8 \/ 8 <= i < 16 \/ 16 <= i < 24 \/ 24 <= i < 32 \/ 32 <= i) as [Hc|[Hc|[Hc|[Hc|Hc]]]] by lia; split_ltb;
    rewrite ?andb_false_r, ?andb_true_r, ?orb_false_r; cbn [orb].
  - rewrite (Z.testbit_neg_r x) by lia. rewrite Hx2 by lia. split_ltb. f_equal. lia.
  - rewrite (Z.testbit_neg_r x) by lia. rewrite Hx2 by lia. split_ltb. f_equal. lia.
  - rewrite (Hx (i + 24)) by lia. rewrite Hx2, orb_false_r by lia. split_ltb. f_equal. lia.
  - rewrite (Hx (i + 8)) by lia. rewrite Hx2, orb_false_r by lia. by split_ltb.
  - symmetry. apply is_byte_testbit; [done|lia].
Qed.

(** ** The functions of the rounds *)

Ltac by_bits :=
  apply Z.bits_inj'; let i := fresh in let Hi := fresh in intros i Hi;
  rewrite ?Z.lxor_spec, ?Z.lor_spec, ?Z.land_spec, ?Z.lnot_spec, ?Z.lxor_spec, ?Z.lor_spec, ?Z.land_spec by done;
  repeat match goal with |- context[Z.testbit ?x i] => destruct (Z.testbit x i) end; done.

Lemma round_Ch w x y : Z.lxor (Z.land w (Z.lxor x y)) y = Ch w x y.
Proof. unfold Ch. by_bits. Qed.
Lemma round_Maj w x y : Z.lor (Z.land (Z.lor w x) y) (Z.land w x) = Maj w x y.
Proof. unfold Maj. by_bits. Qed.

Lemma line_f t w x y : round_f (line_round t) w x y = f_t t w x y.
Proof.
  unfold line_round, f_t. destruct (Nat.ltb_spec t 16), (Nat.ltb_spec t 20); try lia; [apply round_Ch|apply round_Ch|].
  destruct (Nat.ltb_spec t 40); [done|]. destruct (Nat.ltb_spec t 60); [apply round_Maj|done].
Qed.
Lemma line_k t : round_k (line_round t) = K_t t.
Proof.
  unfold line_round, K_t. destruct (Nat.ltb_spec t 16), (Nat.ltb_spec t 20); try lia; [done|done|].
  destruct (Nat.ltb_spec t 40); [done|]. by destruct (Nat.ltb_spec t 60).
Qed.

(** ** The schedule *)

Lemma schedule_length M n : length (schedule M n) = n.
Proof. induction n as [|n IH]; [done|]. cbn. rewrite length_app, IH. cbn. lia. Qed.

Lemma schedule_nth M n t : (t < n)%nat -> nth t (schedule M n) 0 = W M t.
Proof.
  induction n as [|n IH]; intros Ht; [lia|]. cbn [schedule]. destruct (decide (t = n)) as [->|Hne].
  - done.
  - rewrite app_nth1 by (rewrite schedule_length; lia). apply IH. lia.
Qed.

Lemma W_eq M t :
  W M t = if (t <? 16)%nat then be_value (take 4 (drop (4 * t) M))
          else ROTL 1 (Z.lxor (Z.lxor (Z.lxor (W M (t - 3)) (W M (t - 8))) (W M (t - 14))) (W M (t - 16))).
Proof.
  unfold W at 1. cbn [schedule]. rewrite app_nth2; rewrite schedule_length; [|lia]. rewrite Nat.sub_diag. cbn [nth].
  destruct (Nat.ltb_spec t 16); [done|]. by rewrite !schedule_nth by lia.
Qed.

Lemma load_nth n i c : (i < n)%nat -> word (load n c) i = le_value (take 4 (drop (4 * i) c)).
Proof.
  revert i c. induction n as [|n IH]; intros i c Hi; [lia|]. unfold word in *. cbn [load]. destruct i as [|i]; [done|]. cbn [nth].
  rewrite IH, drop_drop by lia. do 3 f_equal. lia.
Qed.

Lemma load_length n c : length (load n c) = n.
Proof. revert c. induction n as [|n IH]; intros c; [done|]. cbn. by rewrite IH. Qed.

(** The sixteen words before the line [t]: the last ones of the schedule, and the words of
    the block that were not expanded yet. *)
Definition block_at (M : list Z) (t : nat) (l : list Z) : Prop :=
  length l = 16%nat /\
  (forall i, (t <= i < 16)%nat -> word l i = le_value (take 4 (drop (4 * i) M))) /\
  (forall i, (i < t)%nat -> (t <= i + 16)%nat -> word l (i mod 16) = W M i).

Lemma land_15 n : Nat.land n 15 = (n mod 16)%nat.
Proof. apply (Nat.land_ones n 4). Qed.

Lemma word_insert l i j w : (i < length l)%nat -> word (<[i := w]> l) j = if decide (i = j) then w else word l j.
Proof.
  intros Hi. unfold word. rewrite !nth_lookup. destruct (decide (i = j)) as [<-|Hne].
  - by rewrite list_lookup_insert_eq.
  - by rewrite list_lookup_insert_ne.
Qed.

Lemma take4_bytes M i : is_bytes M -> (4 * i + 4 <= length M)%nat ->
  exists b0 b1 b2 b3, take 4 (drop (4 * i) M) = [b0; b1; b2; b3] /\ is_byte b0 /\ is_byte b1 /\ is_byte b2 /\ is_byte b3.
Proof.
  intros HM Hl. assert (length (take 4 (drop (4 * i) M)) = 4%nat) as L by (rewrite length_take, length_drop; lia).
  assert (is_bytes (take 4 (drop (4 * i) M))) as B by (apply Forall_take, Forall_drop, HM).
  destruct (take 4 (drop (4 * i) M)) as [|b0 [|b1 [|b2 [|b3 [|b4 r]]]]]; cbn in L; try lia.
  exists b0, b1, b2, b3. inv B. inv H2. inv H4. inv H5. done.
Qed.

(** The line [t] uses the word [t] of the schedule. *)
Lemma blk_ok M t l :
  is_bytes M -> length M = 64%nat -> block_at M t l ->
  exists l', round_blk (line_round t) l t = (W M t, l') /\ block_at M (S t) l'.
Proof.
  intros HM HL (Hl & Hlo & Hhi).
  assert (forall l', (forall j, (j < 16)%nat -> word l' j = if decide ((t mod 16)%nat = j) then W M t else word l j) -> length l' = 16%nat ->
    block_at M (S t) l') as Hnext.
  { intros l' H' L'. split; [done|]. split.
    - intros i Hi. rewrite H', decide_False; [apply Hlo; lia| |lia]. rewrite Nat.mod_small by lia. lia.
    - intros i Hi1 Hi2. pose proof (Nat.mod_upper_bound i 16 ltac:(lia)). rewrite H' by done. destruct (decide (t mod 16 = i mod 16)%nat) as [E|E].
      + assert (i = t) as ->; [|done]. pose proof (Nat.div_mod_eq i 16). pose proof (Nat.div_mod_eq t 16). lia.
      + apply Hhi; [|lia]. assert (i <> t) by congruence. lia. }
  unfold round_blk, line_round. destruct (Nat.ltb_spec t 16) as [Ht|Ht].
  - unfold blk0. rewrite Hlo by lia. destruct (take4_bytes M t HM ltac:(lia)) as (b0 & b1 & b2 & b3 & E & B0 & B1 & B2 & B3).
    rewrite E, swap_word by done. assert (W M t = be_value [b0; b1; b2; b3]) as EW.
    { rewrite W_eq, (proj2 (Nat.ltb_lt _ _)) by done. by rewrite E. }
    rewrite <- EW. eexists. split; [done|]. apply Hnext; [|by rewrite length_insert]. intros j Hj.
    rewrite word_insert by lia. by rewrite Nat.mod_small by lia.
  - assert (blk l t = (W M t, <[(t mod 16)%nat := W M t]> l)) as Eb.
    { unfold blk. rewrite !land_15. 
      assert (forall k, (k <= 16)%nat -> (0 < k)%nat -> ((t + (16 - k)) mod 16 = (t - k) mod 16)%nat) as Hm.
      { intros k Hk1 Hk2. replace (t + (16 - k))%nat with (t - k + 1 * 16)%nat by lia. by rewrite Nat.Div0.mod_add. }
      pose proof (Hm 3%nat ltac:(lia) ltac:(lia)) as M3. pose proof (Hm 8%nat ltac:(lia) ltac:(lia)) as M8. pose proof (Hm 14%nat ltac:(lia) ltac:(lia)) as M14.
      cbn [Nat.sub] in M3, M8, M14. rewrite M3, M8, M14. rewrite !Hhi by lia.
      assert (t mod 16 = (t - 16) mod 16)%nat as Em.
      { rewrite <- (Nat.Div0.mod_add (t - 16) 1 16). f_equal. lia. }
      rewrite Em, Hhi, <- Em by lia. rewrite (W_eq M t), (proj2 (Nat.ltb_ge t 16)) by done. done. }
    exists (<[(t mod 16)%nat := W M t]> l). split; [by destruct (t <? 20)%nat, (t <? 40)%nat, (t <? 60)%nat|].
    apply Hnext; [|by rewrite length_insert]. intros j Hj. pose proof (Nat.mod_upper_bound t 16 ltac:(lia)). by rewrite word_insert by lia.
Qed.

(** ** The block function computes the standard's *)

(** The registers before the line [t]: their names move on by one with every line. *)
Definition regs_at (t : nat) (s : Z * Z * Z * Z * Z) : list Z :=
  let '(a, b, c, d, e) := s in
  match (t mod 5)%nat with
  | O => [a; b; c; d; e]
  | 1%nat => [b; c; d; e; a]
  | 2%nat => [c; d; e; a; b]
  | 3%nat => [d; e; a; b; c]
  | _ => [e; a; b; c; d]
  end.

Lemma line_ok M t l s :
  is_bytes M -> length M = 64%nat -> block_at M t l ->
  exists l', do_line t (regs_at t s, l) = (regs_at (S t) (step M t s), l') /\ block_at M (S t) l'.
Proof.
  intros HM HL Hb. destruct (blk_ok M t l HM HL Hb) as (l' & Ebl & Hb'). exists l'. split; [|done].
  destruct s as [[[[a b] c] d] e].
  assert (forall v w x y z, u32 (z + (round_f (line_round t) w x y + W M t + round_k (line_round t) + rol v 5)) =
    u32 (ROTL 5 v + f_t t w x y + z + K_t t + W M t)) as Hz.
  { intros. rewrite line_f, line_k, rol_ROTL. f_equal. lia. }
  unfold do_line, regs_at. cbn [step]. pose proof (Nat.mod_upper_bound t 5 ltac:(lia)) as Ht. pose proof (Nat.div_mod_eq t 5) as D.
  assert (S t mod 5 = if t mod 5 =? 4 then 0 else S (t mod 5))%nat as ->.
  { destruct (Nat.eqb_spec (t mod 5) 4) as [E|E].
    - replace (S t) with (0 + (t / 5 + 1) * 5)%nat by lia. by rewrite Nat.Div0.mod_add.
    - symmetry. apply (Nat.mod_unique _ _ (t / 5)); lia. }
  destruct (t mod 5)%nat as [|[|[|[|[|n]]]]]; try lia; cbn [Nat.eqb]; unfold do_round; rewrite Ebl;
    cbn [nth insert list_insert]; rewrite Hz; by rewrite !rol_ROTL.
Qed.

Lemma lines_ok M n l s :
  is_bytes M -> length M = 64%nat -> block_at M 0 l ->
  exists l', fold_left (fun st i => do_line i st) (seq 0 n) (regs_at 0 s, l) =
      (regs_at n (fold_left (fun s t => step M t s) (seq 0 n) s), l') /\ block_at M n l'.
Proof.
  intros HM HL Hb. induction n as [|n IH]; [by exists l|]. rewrite seq_S, !fold_left_app. cbn [fold_left Nat.add].
  destruct IH as (l1 & -> & H1). apply (line_ok M n l1 _ HM HL H1).
Qed.

Definition is_state (H : list Z) : Prop := length H = 5%nat /\ Forall (in_u 32) H.

(** The block function is the compression of the standard. *)
Lemma transform_compress H M :
  is_bytes M -> length M = 64%nat -> is_state H -> SHA1Transform H M = compress H M.
Proof.
  intros HM HL [L5 _]. destruct H as [|a [|b [|c [|d [|e [|]]]]]]; try done.
  assert (block_at M 0 (load 16 M)) as Hb.
  { split; [apply load_length|]. split; [|lia]. intros i Hi. apply load_nth. lia. }
  destruct (lines_ok M 80 (load 16 M) (a, b, c, d, e) HM HL Hb) as (l' & E & _).
  unfold SHA1Transform, compress. change [a; b; c; d; e] with (regs_at 0 (a, b, c, d, e)) at 1. rewrite E.
  destruct (fold_left (fun s t => step M t s) (seq 0 80) (a, b, c, d, e)) as [[[[a' b'] c'] d'] e']. done.
Qed.

Lemma compress_state H M : is_state H -> is_state (compress H M).
Proof.
  intros [L5 HF]. destruct H as [|a [|b [|c [|d [|e [|]]]]]]; try done. unfold compress.
  destruct (fold_left _ _ _) as [[[[a' b'] c'] d'] e']. split; [done|].
  repeat constructor; apply wrap_range; lia.
Qed.

Lemma absorb_state n H m : is_state H -> is_state (absorb n H m).
Proof. revert H m. induction n as [|n IH]; intros H m Hs; [done|]. cbn. by apply IH, compress_state. Qed.

(** ** A message in pieces *)

Definition IV : list Z := [1732584193; 4023233417; 2562383102; 271733878; 3285377520].

Lemma IV_state : is_state IV.
Proof. split; [done|]. repeat (apply Forall_cons; split; [unfold in_u; lia|]). done. Qed.

Lemma absorb_more n k H m : absorb (n + k) H m = absorb k (absorb n H m) (drop (64 * n) m).
Proof.
  revert H m. induction n as [|n IH]; intros H m; [by rewrite drop_0|]. cbn [absorb Nat.add]. rewrite IH, drop_drop. do 2 f_equal. lia.
Qed.

Lemma absorb_prefix n H m m' : (64 * n <= length m)%nat -> absorb n H (m ++ m') = absorb n H m.
Proof.
  revert H m. induction n as [|n IH]; intros H m Hl; [done|]. cbn [absorb]. rewrite take_app_le, drop_app_le by lia.
  apply IH. rewrite length_drop. lia.
Qed.

(** The context after a message: the state of its full blocks, the rest in the buffer, and
    the number of its bits. *)
Record holds (ctx : SHA1_CTX) (m : list Z) : Prop := {
  h_state : state ctx = absorb (length m / 64) IV m;
  h_count : count0 ctx + 2 ^ 32 * count1 ctx = 8 * zlen m;
  h_c0 : in_u 32 (count0 ctx);
  h_c1 : in_u 32 (count1 ctx);
  h_buffer : length (buffer ctx) = 64%nat;
  h_bytes : is_bytes m;
  h_rest : take (length m mod 64) (buffer ctx) = drop (64 * (length m / 64)) m;
}.

Lemma holds_init old : length old = 64%nat -> holds (SHA1Init old) [].
Proof. intros L. constructor; try done. Qed.

(** Where the next byte goes. *)
Lemma holds_offset ctx m : holds ctx m -> Z.land (Z.shiftr (count0 ctx) 3) 63 = Z.of_nat (length m mod 64).
Proof.
  intros H. pose proof (h_count _ _ H) as Hc. change 63 with (2 ^ 6 - 1). rewrite land_ones_mod, Z.shiftr_div_pow2 by lia. change (2 ^ 3) with 8. change (2 ^ 6) with 64.
  assert (count0 ctx / 8 = zlen m - 2 ^ 29 * count1 ctx) as ->.
  { symmetry. apply (Z.div_unique _ _ _ 0); lia. }
  replace (zlen m - 2 ^ 29 * count1 ctx) with (zlen m + - (2 ^ 23 * count1 ctx) * 64) by lia. rewrite Z_mod_plus_full.
  unfold zlen. by rewrite Nat2Z.inj_mod.
Qed.

Lemma transform_all_ok q fuel st data i :
  is_bytes data -> is_state st -> zlen data < 2 ^ 29 -> (q < fuel)%nat ->
  (i + 64 * q <= length data < i + 64 * q + 64)%nat ->
  transform_all fuel st data (Z.of_nat i) (zlen data) = (absorb q st (drop i data), Z.of_nat (i + 64 * q)).
Proof.
  intros HB. revert q st i. induction fuel as [|fuel IH]; intros q st i Hs Hd Hq Hl; [lia|]. cbn [transform_all]. unfold zlen in *.
  rewrite wrap_small by (unfold in_u; lia). destruct q as [|q].
  - rewrite (proj2 (Z.ltb_ge _ _)) by lia. cbn [absorb]. f_equal. lia.
  - rewrite (proj2 (Z.ltb_lt _ _)) by lia. rewrite wrap_small by (unfold in_u; lia). rewrite Nat2Z.id.
    rewrite transform_compress; [|apply Forall_take, Forall_drop, HB|rewrite length_take, length_drop; lia|done].
    replace (Z.of_nat i + 64) with (Z.of_nat (i + 64)) by lia. rewrite (IH q) by (done || lia || by apply compress_state).
    cbn [absorb]. rewrite drop_drop. f_equal. lia.
Qed.

Lemma update_count j c1 len n :
  in_u 32 j -> in_u 32 c1 -> 0 <= len < 2 ^ 29 -> j + 2 ^ 32 * c1 = 8 * n -> n + len < 2 ^ 61 ->
  let c0' := u32 (j + u32 (Z.shiftl len 3)) in
  let c1' := if c0' <? j then u32 (c1 + (Z.shiftr len 29 + 1)) else c1 in
  c0' + 2 ^ 32 * c1' = 8 * (n + len) /\ in_u 32 c0' /\ in_u 32 c1'.
Proof.
  unfold in_u. intros Hj Hc Hl Hn Hw. rewrite Z.shiftl_mul_pow2, Z.shiftr_div_pow2 by lia. change (2 ^ 3) with 8.
  rewrite (Z.div_small len) by lia. rewrite (wrap_small 32 (len * 8)) by (unfold in_u; lia).
  destruct (Z.ltb_spec (j + len * 8) (2 ^ 32)) as [Hs|Hs].
  - rewrite wrap_small by (unfold in_u; lia). rewrite (proj2 (Z.ltb_ge _ _)) by lia. lia.
  - assert (u32 (j + len * 8) = j + len * 8 - 2 ^ 32) as ->.
    { unfold wrap. rewrite <- (Z_mod_plus_full _ (-1)). apply Z.mod_small. lia. }
    rewrite (proj2 (Z.ltb_lt _ _)) by lia. rewrite wrap_small by (unfold in_u; lia). lia.
Qed.

(** Taking a piece of a message. *)
Lemma update_ok ctx m data :
  holds ctx m -> is_bytes data -> zlen data < 2 ^ 29 -> zlen m + zlen data < 2 ^ 61 ->
  exists ctx', SHA1Update ctx data = Some ctx' /\ holds ctx' (m ++ data).
Proof.
  intros H HB Hd Hw. pose proof (holds_offset ctx m H) as Hoff. unfold SHA1Update. rewrite Hoff.
  destruct (update_count (count0 ctx) (count1 ctx) (zlen data) (zlen m)) as (Hc & H0 & H1);
    [apply H|apply H|pose proof (zlen_nonneg data); lia|apply H|done|]. cbv zeta in Hc, H0, H1.
  set (c0 := u32 (count0 ctx + _)) in *. set (c1 := if c0 <? count0 ctx then _ else _) in *.
  pose proof (h_buffer _ _ H) as Lb. pose proof (h_rest _ _ H) as Hr. pose proof (h_state _ _ H) as Hs. pose proof (h_bytes _ _ H) as Hm.
  pose proof (Nat.mod_upper_bound (length m) 64 ltac:(lia)) as Hlt. pose proof (Nat.div_mod_eq (length m) 64) as D.
  set (r := (length m mod 64)%nat) in *. set (n := (length m / 64)%nat) in *. set (rest := drop (64 * n) m) in *.
  assert (length rest = r) as Lrest by (unfold rest; rewrite length_drop; lia).
  assert (buffer ctx = rest ++ drop r (buffer ctx)) as Eb by (rewrite <- Hr; symmetry; apply take_drop).
  assert (zlen rest = Z.of_nat r) as Zr by (unfold zlen; lia).
  assert (is_bytes rest) as Brest by (apply Forall_drop, Hm).
  assert (absorb n IV (m ++ data) = state ctx) as Ha by (rewrite Hs; apply absorb_prefix; lia).
  assert (drop (64 * n) (m ++ data) = rest ++ data) as Hdrop by (unfold rest; apply drop_app_le; lia).
  rewrite wrap_small by (unfold in_u; unfold zlen in *; lia).
  destruct (Z.ltb_spec 63 (Z.of_nat r + zlen data)) as [Hfull|Hpart].
  - replace (Z.to_nat (64 - Z.of_nat r)) with (64 - r)%nat by lia.
    assert (length (take (64 - r) data) = (64 - r)%nat) as Lt by (rewrite length_take; unfold zlen in *; lia).
    assert (write_at (Z.of_nat r) (take (64 - r) data) (buffer ctx) = Some (rest ++ take (64 - r) data)) as ->.
    { rewrite Eb at 1. rewrite <- Zr. rewrite write_at_app by (unfold zlen; rewrite Lt, length_drop; lia). f_equal. f_equal.
      rewrite drop_ge; [by rewrite app_nil_r|]. rewrite length_drop. unfold zlen. lia. }
    cbn [mbind option_bind].
    rewrite transform_compress; [|apply Forall_app; split; [done|by apply Forall_take]|rewrite length_app; lia|rewrite Hs; apply absorb_state, IV_state].
    set (q := ((length data - (64 - r)) / 64)%nat). pose proof (Nat.div_mod_eq (length data - (64 - r)) 64) as Dq. fold q in Dq.
    pose proof (Nat.mod_upper_bound (length data - (64 - r)) 64 ltac:(lia)) as Hmq.
    replace (64 - Z.of_nat r) with (Z.of_nat (64 - r)) by lia.
    rewrite (transform_all_ok q) by (done || unfold zlen in *; lia || apply compress_state; rewrite Hs; apply absorb_state, IV_state).
    rewrite Nat2Z.id. set (i := (64 - r + 64 * q)%nat). assert (i = 64 - r + 64 * q)%nat as Ei by done. assert (i <= length data < i + 64)%nat as Hi by (unfold zlen in *; lia).
    pose proof (write_at_app [] (rest ++ take (64 - r) data) (drop i data)) as Hw0. cbn [app] in Hw0. change (zlen []) with 0 in Hw0.
    rewrite Hw0 by (unfold zlen; rewrite length_drop, length_app; unfold zlen in *; lia). cbn [mbind option_bind].
    eexists. split; [done|].
    assert (length (m ++ data) / 64 = n + S q /\ length (m ++ data) mod 64 = length (drop i data))%nat as [Ediv Emod].
    { rewrite length_app, length_drop. unfold zlen in *. split; [symmetry; apply (Nat.div_unique _ _ _ (length data - i))|symmetry; apply (Nat.mod_unique _ _ (n + S q))]; lia. }
    constructor; cbn [state count0 count1 buffer].
    + rewrite Ediv, absorb_more, Ha, Hdrop. cbn [absorb]. rewrite take_app, drop_app, Lrest, (take_ge rest), (drop_ge rest) by lia. done.
    + by rewrite zlen_app.
    + done. + done.
    + rewrite !length_app, !length_drop, length_app. unfold zlen in *. rewrite length_drop. lia.
    + by apply Forall_app.
    + rewrite Emod, take_app_length, Ediv. replace (64 * (n + S q))%nat with (64 * n + (r + i))%nat by lia.
      rewrite <- drop_drop, Hdrop, drop_app, Lrest, (drop_ge rest) by lia. cbn [app]. f_equal. lia.
  - assert (write_at (Z.of_nat r) data (buffer ctx) = Some (rest ++ data ++ drop (length data) (drop r (buffer ctx)))) as ->.
    { rewrite Eb at 1. rewrite <- Zr. rewrite write_at_app by (unfold zlen in *; rewrite length_drop; lia). unfold zlen. by rewrite Nat2Z.id. }
    cbn [mbind option_bind]. eexists. split; [done|].
    assert (length (m ++ data) / 64 = n /\ length (m ++ data) mod 64 = r + length data)%nat as [Ediv Emod].
    { rewrite length_app. unfold zlen in *. split; [symmetry; apply (Nat.div_unique _ _ _ (r + length data))|symmetry; apply (Nat.mod_unique _ _ n)]; lia. }
    constructor; cbn [state count0 count1 buffer].
    + by rewrite Ediv, Ha.
    + by rewrite zlen_app.
    + done. + done.
    + rewrite !length_app, !length_drop. unfold zlen in *. lia.
    + by apply Forall_app.
    + rewrite Emod, Ediv, Hdrop, app_assoc, take_app_length' by (rewrite length_app; lia). done.
Qed.

(** ** The padding and the digest *)

Lemma land_504 x : Z.land x 504 = 8 * Z.land (Z.shiftr x 3) 63.
Proof.
  rewrite Z.mul_comm. change 8 with (2 ^ 3). rewrite <- Z.shiftl_mul_pow2, Z.shiftl_land by lia. change (Z.shiftl 63 3) with 504.
  rewrite <- Z.ldiff_ones_r by lia. change (Z.ones 3) with 7. rewrite Z.ldiff_land, <- Z.land_assoc. done.
Qed.

Lemma holds_504 ctx m : holds ctx m -> negb (Z.land (count0 ctx) 504 =? 448) = negb (length m mod 64 =? 56)%nat.
Proof.
  intros H. rewrite land_504, (holds_offset ctx m H). f_equal.
  destruct (Z.eqb_spec (8 * Z.of_nat (length m mod 64)) 448), (Nat.eqb_spec (length m mod 64) 56); lia || done.
Qed.

Lemma pad_zeroes_ok k fuel ctx m :
  holds ctx m -> (k < fuel)%nat -> zlen m + Z.of_nat k < 2 ^ 61 ->
  ((length m + k) mod 64 = 56)%nat -> (forall j, (j < k)%nat -> ((length m + j) mod 64 <> 56)%nat) ->
  exists ctx', pad_zeroes fuel ctx = Some ctx' /\ holds ctx' (m ++ replicate k 0).
Proof.
  revert k ctx m. induction fuel as [|fuel IH]; intros k ctx m H Hk Hw Hz Hn; [lia|]. cbn [pad_zeroes]. rewrite (holds_504 ctx m H).
  destruct k as [|k].
  - rewrite Nat.add_0_r in Hz. rewrite Hz. exists ctx. split; [done|]. by rewrite app_nil_r.
  - specialize (Hn 0%nat ltac:(lia)) as H0. rewrite Nat.add_0_r in H0. rewrite (proj2 (Nat.eqb_neq _ _)) by done. cbn [negb].
    destruct (update_ok ctx m [0] H) as (c & -> & Hc); [by repeat constructor|done|change (zlen [0]) with 1; lia|].
    cbn [mbind option_bind]. destruct (IH k c (m ++ [0]) Hc) as (c' & E & Hc'); [lia|rewrite zlen_app; change (zlen [0]) with 1; lia| | |].
    + rewrite length_app. cbn [length]. by replace (length m + 1 + k)%nat with (length m + S k)%nat by lia.
    + intros j Hj. rewrite length_app. cbn [length]. replace (length m + 1 + j)%nat with (length m + S j)%nat by lia. apply Hn. lia.
    + exists c'. split; [exact E|]. by rewrite <- app_assoc in Hc'.
Qed.

Lemma byte_of_word_div w i : (i < 4)%nat -> byte_of_word w i = (w / 2 ^ (8 * (3 - Z.of_nat i))) mod 256.
Proof.
  intros Hi. unfold byte_of_word. change 255 with (2 ^ 8 - 1). rewrite land_ones_mod, Z.shiftr_div_pow2 by lia.
  by rewrite (Z.mul_comm _ 8).
Qed.

Lemma div_high a b k : 0 <= k -> 0 <= a < 2 ^ 32 -> (a + 2 ^ 32 * b) / 2 ^ (32 + k) = b / 2 ^ k.
Proof.
  intros Hk Ha. rewrite Z.pow_add_r, <- Z.div_div by lia. f_equal. rewrite Z.mul_comm, Z.div_add, Z.div_small by lia. lia.
Qed.

Lemma div_low a b k : 0 <= k <= 24 -> ((a + 2 ^ 32 * b) / 2 ^ k) mod 256 = (a / 2 ^ k) mod 256.
Proof.
  intros Hk. replace (2 ^ 32 * b) with (2 ^ (24 - k) * b * 256 * 2 ^ k).
  - rewrite Z.div_add by lia. by rewrite Z_mod_plus_full.
  - replace (2 ^ 32) with (2 ^ (24 - k) * 256 * 2 ^ k); [lia|]. change 256 with (2 ^ 8). rewrite <- !Z.pow_add_r by lia. f_equal. lia.
Qed.

(** The bits counted, as the eight last bytes. *)
Lemma finalcount_ok c0 c1 :
  in_u 32 c0 -> map (fun i => byte_of_word (if (4 <=? i)%nat then c0 else c1) (Nat.land i 3)) (seq 0 8) = be_bytes 8 (c0 + 2 ^ 32 * c1).
Proof.
  intros H0. cbn [seq map Nat.leb]. change (Nat.land 0 3) with 0%nat. change (Nat.land 1 3) with 1%nat. change (Nat.land 2 3) with 2%nat.
  change (Nat.land 3 3) with 3%nat. change (Nat.land 4 3) with 0%nat. change (Nat.land 5 3) with 1%nat. change (Nat.land 6 3) with 2%nat.
  change (Nat.land 7 3) with 3%nat. rewrite !byte_of_word_div by lia. cbn [be_bytes]. set (n := c0 + 2 ^ 32 * c1).
  assert (forall i j, (j < 4)%nat -> i = j -> (c1 / 2 ^ (8 * (3 - Z.of_nat (3 - i)))) mod 256 = (n / 2 ^ (8 * Z.of_nat (4 + j))) mod 256) as Hhigh.
  { intros i j Hj ->. replace (8 * (3 - Z.of_nat (3 - j))) with (8 * Z.of_nat j) by lia.
    rewrite <- (div_high c0 c1 (8 * Z.of_nat j)) by (done || lia). fold n. do 3 f_equal. lia. }
  assert (forall i j, (j < 4)%nat -> i = j -> (c0 / 2 ^ (8 * (3 - Z.of_nat (3 - i)))) mod 256 = (n / 2 ^ (8 * Z.of_nat j)) mod 256) as Hlow.
  { intros i j Hj ->. unfold n. rewrite (div_low c0 c1) by lia. do 2 f_equal. f_equal. lia. }
  apply (f_equal2 cons (Hhigh 3%nat 3%nat ltac:(lia) eq_refl)), (f_equal2 cons (Hhigh 2%nat 2%nat ltac:(lia) eq_refl)),
    (f_equal2 cons (Hhigh 1%nat 1%nat ltac:(lia) eq_refl)), (f_equal2 cons (Hhigh 0%nat 0%nat ltac:(lia) eq_refl)),
    (f_equal2 cons (Hlow 3%nat 3%nat ltac:(lia) eq_refl)), (f_equal2 cons (Hlow 2%nat 2%nat ltac:(lia) eq_refl)),
    (f_equal2 cons (Hlow 1%nat 1%nat ltac:(lia) eq_refl)), (f_equal2 cons (Hlow 0%nat 0%nat ltac:(lia) eq_refl)). done.
Qed.

Lemma digest_ok st :
  is_state st -> map (fun i => byte_of_word (nth (i / 4) st 0) (Nat.land i 3)) (seq 0 20) = concat (map (be_bytes 4) st).
Proof.
  intros [L5 _]. destruct st as [|a [|b [|c [|d [|e [|]]]]]]; try done.
  assert (forall w, be_bytes 4 w = [byte_of_word w 0; byte_of_word w 1; byte_of_word w 2; byte_of_word w 3]) as Hb
    by (intros w; rewrite !byte_of_word_div by lia; done).
  cbn [map concat]. rewrite !Hb. done.
Qed.

Lemma final_ok ctx m : holds ctx m -> zlen m < 2 ^ 60 -> SHA1Final ctx = Some (sha1 m).
Proof.
  intros H Hw. unfold SHA1Final.
  destruct (update_ok ctx m [128] H) as (c1 & -> & H1); [by repeat constructor|done|change (zlen [128]) with 1; lia|]. cbn [mbind option_bind].
  set (k := Z.to_nat ((55 - zlen m) mod 64)). pose proof (Z.mod_pos_bound (55 - zlen m) 64 ltac:(lia)) as Hk.
  pose proof (Z.div_mod (55 - zlen m) 64 ltac:(lia)) as Dk. pose proof (zlen_nonneg m) as Hm.
  assert (forall j : nat, ((length (m ++ [128%Z]) + j) mod 64 = 56)%nat -> (j <= k)%nat -> j = k) as Huniq.
  { intros j Hj Hle. rewrite length_app in Hj. cbn [length] in Hj. pose proof (Nat.div_mod_eq (length m + 1 + j) 64) as Dj. unfold zlen in *.
    assert (Z.of_nat j = (55 - Z.of_nat (length m)) mod 64); [|lia].
    apply (Z.mod_unique _ _ (- Z.of_nat ((length m + 1 + j) / 64))); lia. }
  destruct (pad_zeroes_ok k 64 c1 (m ++ [128]) H1) as (c2 & -> & H2).
  - lia.
  - rewrite zlen_app. change (zlen [128]) with 1. lia.
  - rewrite length_app. cbn [length]. unfold zlen in *.
    apply Nat2Z.inj. rewrite Nat2Z.inj_mod. symmetry. apply (Z.mod_unique _ _ (- ((55 - Z.of_nat (length m)) / 64))); lia.
  - intros j Hj E. specialize (Huniq j E ltac:(lia)). lia.
  - cbn [mbind option_bind]. rewrite (finalcount_ok (count0 ctx) (count1 ctx)) by apply H. rewrite (h_count _ _ H).
    assert (is_bytes (be_bytes 8 (8 * zlen m))) as HB by (cbn; repeat (constructor; [apply Z.mod_pos_bound; lia|]); done).
    destruct (update_ok c2 _ (be_bytes 8 (8 * zlen m)) H2 HB) as (c3 & -> & H3); [done| |].
    { rewrite zlen_app, zlen_app, zlen_replicate. change (zlen [128]) with 1. change (zlen (be_bytes 8 _)) with 8. lia. }
    cbn [mbind option_bind]. f_equal.
    assert (((m ++ [128]) ++ replicate k 0) ++ be_bytes 8 (8 * zlen m) = pad m) as Ep by (unfold pad; by rewrite <- !app_assoc).
    rewrite Ep in H3. pose proof (h_state _ _ H3) as Hs. unfold sha1. change [_; _; _; _; _] with IV. rewrite <- Hs.
    apply digest_ok. rewrite Hs. apply absorb_state, IV_state.
Qed.

(** Whatever pieces a message comes in, each of less than half a gigabyte, the digest is the secure hash of the
    standard of the whole message, and no copy leaves the buffer. *)
Theorem sha1_of_pieces old pieces :
  length old = 64%nat -> Forall (fun p => is_bytes p /\ zlen p < 2 ^ 29) pieces -> zlen (concat pieces) < 2 ^ 60 ->
  SHA1_pieces old pieces = Some (sha1 (concat pieces)).
Proof.
  intros Lo Hp Hw. unfold SHA1_pieces.
  assert (forall m ctx, holds ctx m -> zlen (m ++ concat pieces) < 2 ^ 60 ->
    exists ctx', foldl (fun c p => c ← c; SHA1Update c p) (Some ctx) pieces = Some ctx' /\ holds ctx' (m ++ concat pieces)) as Hall.
  { clear Hw. induction Hp as [|p ps [Hb Hl] _ IH]; intros m ctx H Hw; cbn [foldl concat] in *.
    - exists ctx. by rewrite app_nil_r.
    - rewrite app_assoc in Hw |- *. pose proof (zlen_nonneg (concat ps)). rewrite zlen_app in Hw.
      destruct (update_ok ctx m p H Hb Hl) as (c & E & Hc); [rewrite <- zlen_app; lia|].
      cbn [mbind option_bind]. rewrite E. apply IH; [done|]. rewrite zlen_app. lia. }
  destruct (Hall [] (SHA1Init old) (holds_init old Lo) Hw) as (ctx & -> & H). cbn [mbind option_bind].
  by apply final_ok.
Qed.

Lemma sha1_of_pieces_witness :
  SHA1_pieces (replicate 64 0) [str "abcdbcdecdefdefgefghfghighijhijkijk"; str "ljklmklmnlmnomnopnopq"] =
    Some [0x84;0x98;0x3e;0x44;0x1c;0x3b;0xd2;0x6e;0xba;0xae;0x4a;0xa1;0xf9;0x51;0x29;0xe5;0xe5;0x46;0x70;0xf1].
Proof.
  rewrite sha1_of_pieces.
  - by vm_compute.
  - done.
  - repeat (apply Forall_cons; split; [split; [repeat (apply Forall_cons; split; [unfold is_byte; vm_compute; split; done|]); apply Forall_nil_2|by vm_compute]|]).
    apply Forall_nil_2.
  - by vm_compute.
Defined.

(** ** The identifier *)

Lemma sha1_length m : zlen m < 2 ^ 60 -> is_bytes (sha1 m) /\ length (sha1 m) = 20%nat.
Proof.
  intros Hm. assert (is_state (absorb (length (pad m) / 64) IV (pad m))) as [L5 _] by apply absorb_state, IV_state.
  unfold sha1. change [_; _; _; _; _] with IV. set (st := absorb _ _ _) in *. clearbody st.
  destruct st as [|a [|b [|c [|d [|e [|]]]]]]; try done. cbn [map concat app be_bytes].
  split; [|done]. repeat (apply Forall_cons; split; [apply Z.mod_pos_bound; lia|]). apply Forall_nil_2.
Qed.

Lemma version_ok x : Z.lor (Z.land x 4095) (Z.shiftl 5 12) = 5 * 2 ^ 12 + x mod 4096.
Proof.
  change 4095 with (2 ^ 12 - 1). rewrite land_ones_mod, lor_shiftl_add by (try apply Z.mod_pos_bound; lia). change (2 ^ 12) with 4096. lia.
Qed.

Lemma variant_ok b : is_byte b -> let c := Z.lor (Z.land b (Z.lnot (Z.shiftl 1 6))) (Z.shiftl 1 7) in is_byte c /\ Z.shiftr c 6 = 2.
Proof.
  intros Hb c.
  assert (forallb (fun n => let c := Z.lor (Z.land (Z.of_nat n) (Z.lnot (Z.shiftl 1 6))) (Z.shiftl 1 7) in
    (0 <=? c) && (c <? 256) && (Z.shiftr c 6 =? 2)) (seq 0 256) = true) as HF by (vm_compute; reflexivity).
  rewrite forallb_forall in HF. unfold is_byte in *. specialize (HF (Z.to_nat b)). rewrite in_seq in HF. specialize (HF ltac:(lia)).
  rewrite Z2Nat.id in HF by lia. fold c in HF. cbn zeta in HF. lia.
Qed.

Lemma uuid_of_ok d :
  is_bytes d -> length d = 20%nat -> let u := uuid_of d in
  length u = 16%nat /\ is_bytes u /\ Z.shiftr (le_value (take 2 (drop 6 u))) 12 = 5 /\ Z.shiftr (nth 8 u 0) 6 = 2.
Proof.
  intros B L u. subst u. unfold uuid_of. rewrite version_ok.
  destruct (variant_ok (nth 8 d 0)) as [Bc Vc]; [apply Forall_nth; [done|lia]|].
  set (c := Z.lor _ (Z.shiftl 1 7)) in *. clearbody c.
  set (hi := ntoh 2 (le_value (take 2 (drop 6 d)))). pose proof (Z.mod_pos_bound hi 4096 ltac:(lia)) as Hh.
  set (low := ntoh 4 _). set (mid := ntoh 2 (le_value (take 2 (drop 4 d)))). clearbody low mid.
  set (v := 5 * 2 ^ 12 + hi mod 4096). assert (0 <= v < 2 ^ 16) as Hv by lia.
  assert (Z.shiftr v 12 = 5) as Sv by (rewrite Z.shiftr_div_pow2 by lia; unfold v; rewrite Z.div_add_l by lia; change 4096 with (2 ^ 12) in *; rewrite Z.div_small by lia; lia).
  clearbody v. split_and!.
  - rewrite !length_app, !le_bytes_length. cbn [length]. rewrite length_drop, length_take. lia.
  - repeat (apply Forall_app; split; [apply le_bytes_bytes|]). constructor; [done|]. by apply Forall_drop, Forall_take.
  - change (take 2 (drop 6 _)) with (le_bytes 2 v). rewrite le_value_bytes; [done|]. lia.
  - exact Vc.
Qed.

(** The identifier of a name in a name space: that of the digest of both together, of sixteen bytes, of version five
    and of the variant of the RFC. *)
Theorem generate_uuid_ok old namespace name :
  length old = 64%nat -> is_bytes namespace -> is_bytes name -> zlen namespace < 2 ^ 29 -> zlen name < 2 ^ 29 ->
  exists u, generate_uuid old namespace name = Some u /\ u = uuid_of (sha1 (namespace ++ name)) /\
    length u = 16%nat /\ is_bytes u /\ Z.shiftr (le_value (take 2 (drop 6 u))) 12 = 5 /\ Z.shiftr (nth 8 u 0) 6 = 2.
Proof.
  intros Lo Bs Bn Ls Ln. pose proof (zlen_nonneg name). pose proof (zlen_nonneg namespace).
  assert (zlen (concat [namespace; name]) < 2 ^ 60) as Hw by (cbn [concat]; rewrite app_nil_r, zlen_app; lia).
  unfold generate_uuid, sha1_hash. rewrite sha1_of_pieces; [|done|repeat constructor; done|done].
  cbn [mbind option_bind]. cbn [concat]. rewrite app_nil_r. eexists. split; [done|]. split; [done|].
  cbn [concat] in Hw. rewrite app_nil_r in Hw. destruct (sha1_length _ Hw) as [B L]. revert B L. generalize (sha1 (namespace ++ name)).
  intros d B L. apply uuid_of_ok; done.
Qed.
