(* ===== verification/Posix.v ===== *)
(** * Programs over system calls

    The code that talks to the operating system is written as a program over
    system calls: [Call c k] makes the call [c] and goes on with its answer,
    [Iter] is a loop that runs its body until the body leaves it.  A program can
    be run against a system given as a function ([run]), or be one of several
    that share the state of a kernel; for these there is a small logic of
    rely and guarantee ([Gsafe]).

    Calls are those of POSIX that the modelled files make; a call whose result
    the code does not look at answers [tt].  [HANDLE_EINTR] repeats a call that
    was interrupted, so [EINTR] is no answer. *)

From Stdlib Require Import FunctionalExtensionality.
From S2P Require Import Prelude.

(** ** Calls and answers *)

Inductive errno := ENOENT | EEXIST | EPERM | ESRCH | EACCES | EOTHER.

#[export] Instance errno_eq_dec : EqDecision errno.
Proof. solve_decision. Defined.

(** The fields of [struct stat] the code reads; times are in seconds. *)
Record stat := Stat { S_ISDIR : bool; st_atime : Z; st_mtime : Z }.

Inductive call :=
  | Mkstemp (template : bytes)
  | Write (fd : Z) (data : bytes)
  | Close (fd : Z)
  | Lstat (path : bytes)
  | Fstat (fd : Z)
  | Open (path : bytes)
  | Read (fd : Z) (count : Z)
  | Link (oldpath newpath : bytes)
  | Unlink (path : bytes)
  | Rmdir (path : bytes)
  | Time
  | SystemClock
  | Getpid
  | Kill (pid : Z)
  | Waitpid (pid : Z)
  | SleepMs (ms : Z).

(** [Mkstemp] answers what its argument has become and the descriptor,
    [SystemClock] is in nanoseconds, [Kill] sends the signal 0. *)
Definition ans (c : call) : Type :=
  match c with
  | Mkstemp _ => bytes * option Z
  | Write _ _ => option Z
  | Close _ | SleepMs _ => unit
  | Lstat _ | Fstat _ => option stat
  | Open _ => option Z
  | Read _ _ => option bytes
  | Link _ _ | Unlink _ | Rmdir _ => bool
  | Time | SystemClock | Getpid => Z
  | Kill _ => option errno
  | Waitpid _ => bool
  end.

(** ** Programs *)

Inductive prog (A : Type) : Type :=
  | Ret (a : A)
  | Call (c : call) (k : ans c -> prog A)
  | Iter (T B : Type) (body : T -> prog (T + B)) (s : T) (k : B -> prog A).

Arguments Ret {A} a.
Arguments Call {A} c k.
Arguments Iter {A T B} body s k.

Fixpoint bind {A B} (m : prog A) (f : A -> prog B) : prog B :=
  match m with
  | Ret a => f a
  | Call c k => Call c (fun a => bind (k a) f)
  | Iter body s k => Iter body s (fun b => bind (k b) f)
  end.

Definition call_ (c : call) : prog (ans c) := Call c Ret.

Declare Scope prog_scope.
Delimit Scope prog_scope with prog.
Notation "'let!' x ':=' m 'in' f" := (bind m (fun x => f))
  (at level 10, x pattern, m at level 100, f at level 200) : prog_scope.
Notation "m ;; f" := (bind m (fun _ => f)) (at level 100, f at level 200, right associativity) : prog_scope.
#[global] Open Scope prog_scope.

(** A loop: the body answers [inl] to go round again, [inr] to leave. *)
Definition loop {T B} (body : T -> prog (T + B)) (s : T) : prog B := Iter body s Ret.

(** What a loop does when it goes round. *)
Definition unfold_iter {A T B} (body : T -> prog (T + B)) (s : T) (k : B -> prog A) : prog A :=
  bind (body s) (fun r => match r with inl s => Iter body s k | inr b => k b end).

Lemma bind_ret {A} (m : prog A) : bind m Ret = m.
Proof.
  induction m as [|A c k IH|A T B body _ s k IH]; cbn; [done|f_equal..];
    apply functional_extensionality; intros x; apply IH.
Qed.

Lemma bind_bind {A B C} (m : prog A) (f : A -> prog B) (g : B -> prog C) :
  bind (bind m f) g = bind m (fun a => bind (f a) g).
Proof.
  induction m as [|A c k IH|A T D body _ s k IH]; cbn; [done|f_equal..];
    apply functional_extensionality; intros x; apply IH.
Qed.

Lemma unfold_iter_bind {A B T D} (body : T -> prog (T + D)) s (k : D -> prog A) (f : A -> prog B) :
  unfold_iter body s (fun d => bind (k d) f) = bind (unfold_iter body s k) f.
Proof.
  unfold unfold_iter. rewrite bind_bind. f_equal.
  apply functional_extensionality. by intros [s'|d].
Qed.

(** ** Running a program on a system

    A system is a state and a function that answers calls.  [run] stops with
    [None] when the fuel, spent on calls and on rounds of loops, is used up. *)

Class System (W : Type) := sys : forall c : call, W -> ans c * W.

Section run.
Context {W : Type} `{!System W}.

Fixpoint run (fuel : nat) {A} (m : prog A) (w : W) : option (A * W) :=
  match fuel with
  | O => None
  | S fuel =>
      match m with
      | Ret a => Some (a, w)
      | Call c k => let '(a, w) := sys c w in run fuel (k a) w
      | Iter body s k => run fuel (unfold_iter body s k) w
      end
  end.

(** The run as a relation. *)
Inductive runs {A} : prog A -> W -> A -> W -> Prop :=
  | runs_ret a w : runs (Ret a) w a w
  | runs_call c k w a w' : runs (k (fst (sys c w))) (snd (sys c w)) a w' -> runs (Call c k) w a w'
  | runs_iter T B (body : T -> prog (T + B)) s k w a w' :
      runs (unfold_iter body s k) w a w' -> runs (Iter body s k) w a w'.

Lemma runs_run {A} (m : prog A) w a w' :
  runs m w a w' -> exists fuel, run fuel m w = Some (a, w').
Proof.
  induction 1 as [a w|c k w a w' _ [n IH]|T B body s k w a w' _ [n IH]].
  - by exists 1%nat.
  - exists (S n). cbn. by destruct (sys c w).
  - by exists (S n).
Qed.

Lemma run_runs fuel {A} (m : prog A) w a w' : run fuel m w = Some (a, w') -> runs m w a w'.
Proof.
  revert m w. induction fuel as [|n IH]; intros m w E; [done|].
  destruct m as [x|c k|T B body s k]; cbn in E.
  - injection E as -> ->. constructor.
  - constructor. destruct (sys c w) eqn:Es. cbn. by apply IH.
  - constructor. by apply IH.
Qed.

Lemma runs_bind {A B} (m : prog A) (f : A -> prog B) w a w1 b w2 :
  runs m w a w1 -> runs (f a) w1 b w2 -> runs (bind m f) w b w2.
Proof.
  intros H. induction H as [a w|c k w a w' _ IH|T D body s k w a w' _ IH]; intros Hf; cbn.
  - done.
  - constructor. auto.
  - constructor. rewrite unfold_iter_bind. auto.
Qed.

Lemma run_bind_inv n {A B} (m : prog A) (f : A -> prog B) w b w2 :
  run n (bind m f) w = Some (b, w2) ->
  exists n' a w1, (n' <= n)%nat /\ runs m w a w1 /\ run n' (f a) w1 = Some (b, w2).
Proof.
  revert m w. induction n as [|n IH]; intros m w E; [done|].
  destruct m as [x|c k|T D body s k].
  - exists (S n), x, w. split_and!; [done|constructor|done].
  - cbn in E. destruct (sys c w) as [a w1] eqn:Es. destruct (IH _ _ E) as (n' & x & w3 & Hn & H1 & H2).
    exists n', x, w3. split_and!; [lia|constructor; by rewrite Es|done].
  - cbn in E. rewrite unfold_iter_bind in E. destruct (IH _ _ E) as (n' & x & w3 & Hn & H1 & H2).
    exists n', x, w3. split_and!; [lia|by constructor|done].
Qed.

Lemma runs_bind_inv {A B} (m : prog A) (f : A -> prog B) w b w2 :
  runs (bind m f) w b w2 -> exists a w1, runs m w a w1 /\ runs (f a) w1 b w2.
Proof.
  intros (n & E)%runs_run. apply run_bind_inv in E as (n' & a & w1 & _ & H & E).
  exists a, w1. split; [done|by eapply run_runs].
Qed.

Lemma runs_call_inv {A} c (k : ans c -> prog A) w a w' :
  runs (bind (call_ c) k) w a w' -> runs (k (fst (sys c w))) (snd (sys c w)) a w'.
Proof.
  intros ([|n] & E)%runs_run; [done|]. cbn in E. destruct (sys c w). by eapply run_runs.
Qed.

Lemma runs_ret_inv {A} (a b : A) w w' : runs (Ret a) w b w' -> a = b /\ w = w'.
Proof. intros ([|n] & E)%runs_run; cbn in E; by simplify_eq. Qed.

(** [ends m w Q]: the run of [m] from [w] ends, in a result of [Q]. *)
Definition ends {A} (m : prog A) (w : W) (Q : A -> W -> Prop) : Prop :=
  exists a w', runs m w a w' /\ Q a w'.

Lemma ends_ret {A} (a : A) w (Q : A -> W -> Prop) : Q a w -> ends (Ret a) w Q.
Proof. intros. exists a, w. split; [constructor|done]. Qed.

Lemma ends_call {A} c (k : ans c -> prog A) w Q :
  ends (k (fst (sys c w))) (snd (sys c w)) Q -> ends (Call c k) w Q.
Proof. intros (a & w' & H & HQ). exists a, w'. split; [by constructor|done]. Qed.

Lemma ends_bind {A B} (m : prog A) (f : A -> prog B) w Q R :
  ends m w R -> (forall a w', R a w' -> ends (f a) w' Q) -> ends (bind m f) w Q.
Proof.
  intros (a & w1 & H & HR) Hf. destruct (Hf _ _ HR) as (b & w2 & H2 & HQ).
  exists b, w2. split; [by eapply runs_bind|done].
Qed.

Lemma ends_mono {A} (m : prog A) w (Q R : A -> W -> Prop) :
  ends m w Q -> (forall a w', Q a w' -> R a w') -> ends m w R.
Proof. intros (a & w' & H & HQ) HR. exists a, w'. auto. Qed.

Lemma ends_round {A T B} (body : T -> prog (T + B)) st (k : B -> prog A) w Q R :
  ends (body st) w R ->
  (forall r w', R r w' -> ends (match r with inl st => Iter body st k | inr b => k b end) w' Q) ->
  ends (Iter body st k) w Q.
Proof.
  intros Hb Hk. destruct (ends_bind _ _ _ _ _ Hb Hk) as (a & w' & H & HQ).
  exists a, w'. split; [by constructor|done].
Qed.

(** The run is unique. *)
Lemma runs_det {A} (m : prog A) w a w1 b w2 : runs m w a w1 -> runs m w b w2 -> a = b /\ w1 = w2.
Proof.
  intros (n1 & E1)%runs_run (n2 & E2)%runs_run.
  revert m w n2 E1 E2. induction n1 as [|n1 IH]; intros m w [|n2] E1 E2; [done..|].
  destruct m as [x|c k|T B body s k]; cbn in *; [by simplify_eq| |by eapply IH].
  destruct (sys c w). by eapply IH.
Qed.

(** A loop that no round leaves does not end. *)
Lemma loop_diverges {T B} (body : T -> prog (T + B)) (J : T -> W -> Prop) st w :
  (forall st w, J st w -> ends (body st) w (fun r w' => exists st', r = inl st' /\ J st' w')) ->
  J st w -> forall b w', ~ runs (loop body st) w b w'.
Proof.
  intros Hbody HJ b w' (n & E)%runs_run. revert st w HJ E.
  induction n as [n IH] using lt_wf_ind; intros st w HJ E. destruct n as [|n]; [done|].
  cbn in E. apply run_bind_inv in E as (n' & r & w1 & Hn & Hr & E).
  destruct (Hbody _ _ HJ) as (r' & w1' & Hr' & st' & -> & HJ').
  destruct (runs_det _ _ _ _ _ _ Hr Hr') as [-> ->]. eapply (IH n'); [lia|exact HJ'|exact E].
Qed.

(** A loop ends when a measure of its state decreases in every round. *)
Lemma ends_loop {T B} (body : T -> prog (T + B)) (J : T -> W -> Prop) (mu : T -> W -> nat)
    (Q : B -> W -> Prop) s w :
  (forall s w, J s w -> ends (body s) w (fun r w' =>
     match r with inl s' => J s' w' /\ (mu s' w' < mu s w)%nat | inr b => Q b w' end)) ->
  J s w -> ends (loop body s) w Q.
Proof.
  intros Hbody. remember (mu s w) as n eqn:En. revert s w En.
  induction n as [n IH] using lt_wf_ind; intros s w -> HJ.
  assert (ends (unfold_iter body s Ret) w Q) as (a & w' & H & HQ).
  { eapply ends_bind; [by apply Hbody|]. intros [s'|b] w'; cbn.
    - intros [HJ' Hlt]. by eapply (IH _ Hlt).
    - apply ends_ret. }
  exists a, w'. split; [by constructor|done].
Qed.
End run.

(** ** Laws of a system

    Time does not go back, and a sleep lasts as long as it says.  [lost] bounds
    how often [lstat] may still fail, for code that tries again until it does
    not. *)

Class Timed (W : Type) `{!System W} := {
  clock : W -> Z;
  lost : W -> nat;
  clock_mono c w : clock w <= clock (snd (sys c w));
  clock_read w : fst (sys SystemClock w) = clock w;
  clock_sleep ms w : clock w + ms * 1000000 <= clock (snd (sys (SleepMs ms) w));
  lost_mono c w : (lost (snd (sys c w)) <= lost w)%nat;
  lost_lstat p w : fst (sys (Lstat p) w) = None -> (lost (snd (sys (Lstat p) w)) < lost w)%nat;
}.

(** ** Traces: a system that remembers calls and answers, the last one first *)

Definition event : Type := {c : call & ans c}.

Definition traced (W : Type) : Type := W * list event.

#[export] Instance traced_system (W : Type) `{!System W} : System (traced W) :=
  fun c '(w, tr) => let '(a, w) := sys c w in (a, (w, existT c a :: tr)).

#[export] Program Instance traced_timed (W : Type) `{!System W, !Timed W} : Timed (traced W) := {
  clock := fun w => clock (fst w);
  lost := fun w => lost (fst w);
}.
Next Obligation. intros W ?? c [w tr]. cbn. pose proof (clock_mono c w). by destruct (sys c w). Qed.
Next Obligation. intros W ?? [w tr]. cbn. pose proof (clock_read w). by destruct (sys SystemClock w). Qed.
Next Obligation.
  intros W ?? ms [w tr]. cbn. pose proof (clock_sleep ms w). by destruct (sys (SleepMs ms) w).
Qed.
Next Obligation. intros W ?? c [w tr]. cbn. pose proof (lost_mono c w). by destruct (sys c w). Qed.
Next Obligation.
  intros W ?? p [w tr]. cbn. pose proof (lost_lstat p w). by destruct (sys (Lstat p) w).
Qed.

(** ** Rely and guarantee

    A program runs beside others on a shared state [G].  [exec c g a g'] is a
    step of this program's call, [rely] what the others may do between its
    steps, and [guar] what it promises of its own.  [Gsafe Q m g]: from [g] on,
    every step of [m] keeps the promise and a result satisfies [Q] when it is
    there. *)

Section logic.
Context {G : Type} (exec : forall c, G -> ans c -> G -> Prop) (rely guar : G -> G -> Prop).

Definition closed {A} (Q : A -> G -> Prop) (I : prog A -> G -> Prop) : Prop :=
  forall m g, I m g ->
    (forall g', rely g g' -> I m g') /\
    match m with
    | Ret a => Q a g
    | Call c k => forall a g', exec c g a g' -> guar g g' /\ I (k a) g'
    | Iter body s k => I (unfold_iter body s k) g
    end.

Definition Gsafe {A} (Q : A -> G -> Prop) (m : prog A) (g : G) : Prop :=
  exists I, I m g /\ closed Q I.

Lemma Gsafe_closed {A} (Q : A -> G -> Prop) : closed Q (Gsafe Q).
Proof.
  intros m g (I & Hm & HI). destruct (HI _ _ Hm) as [Hr Hs].
  split; [intros g' Hg; exists I; auto|].
  destruct m as [a|c k|T B body s k]; [done| |by exists I].
  intros a g' He. destruct (Hs _ _ He). split; [done|by exists I].
Qed.

Lemma Gsafe_rely {A} (Q : A -> G -> Prop) m g g' : Gsafe Q m g -> rely g g' -> Gsafe Q m g'.
Proof. intros H. apply (Gsafe_closed _ _ _ H). Qed.

Lemma Gsafe_call_inv {A} (Q : A -> G -> Prop) c k g a g' :
  Gsafe Q (Call c k) g -> exec c g a g' -> guar g g' /\ Gsafe Q (k a) g'.
Proof. intros H. apply (Gsafe_closed _ _ _ H). Qed.

Lemma Gsafe_iter_inv {A T B} (Q : A -> G -> Prop) (body : T -> prog (T + B)) s k g :
  Gsafe Q (Iter body s k) g -> Gsafe Q (unfold_iter body s k) g.
Proof. intros H. apply (Gsafe_closed _ _ _ H). Qed.

Lemma Gsafe_ret_inv {A} (Q : A -> G -> Prop) a g : Gsafe Q (Ret a) g -> Q a g.
Proof. intros H. apply (Gsafe_closed _ _ _ H). Qed.

(** An assertion the others keep. *)
Definition stable (P : G -> Prop) : Prop := forall g g', P g -> rely g g' -> P g'.

Lemma Gsafe_ret {A} (Q : A -> G -> Prop) a g : stable (Q a) -> Q a g -> Gsafe Q (Ret a) g.
Proof.
  intros Hs HQ. exists (fun m g => m = Ret a /\ Q a g). split; [done|].
  intros m g' [-> HQ']. split; [eauto|done].
Qed.

Lemma Gsafe_call {A} (P : G -> Prop) (Q : A -> G -> Prop) c k g :
  stable P -> P g ->
  (forall g a g', P g -> exec c g a g' -> guar g g' /\ Gsafe Q (k a) g') ->
  Gsafe Q (Call c k) g.
Proof.
  intros Hs HP Hk.
  exists (fun m g => (m = Call c k /\ P g) \/ Gsafe Q m g). split; [by left|].
  intros m g' [[-> HP']|HG].
  - split; [by left; eauto|]. intros a g'' He. destruct (Hk _ _ _ HP' He). auto.
  - destruct (Gsafe_closed _ _ _ HG) as [Hr Hm]. split; [by right; auto|].
    destruct m; [done| |by right]. intros a' g'' He. destruct (Hm _ _ He). auto.
Qed.

Lemma Gsafe_bind {A B} (R : A -> G -> Prop) (Q : B -> G -> Prop) m f g :
  Gsafe R m g -> (forall a g, R a g -> Gsafe Q (f a) g) -> Gsafe Q (bind m f) g.
Proof.
  intros Hm Hf.
  exists (fun m' g => (exists m, m' = bind m f /\ Gsafe R m g) \/ Gsafe Q m' g).
  split; [by left; exists m|].
  intros m' g' [(m0 & -> & HG)|HG].
  - pose proof (Gsafe_closed _ _ _ HG) as [Hr Hs]. split; [by left; eauto|].
    destruct m0 as [a|c k|T D body s k]; cbn.
    + specialize (Hf _ _ Hs). destruct (Gsafe_closed _ _ _ Hf) as [_ Hs'].
      destruct (f a); [done| |by right]. intros a' g'' He. destruct (Hs' _ _ He). auto.
    + intros a g'' He. destruct (Hs _ _ He). split; [done|]. left. by exists (k a).
    + left. exists (unfold_iter body s k). by rewrite unfold_iter_bind.
  - destruct (Gsafe_closed _ _ _ HG) as [Hr Hs]. split; [by right; auto|].
    destruct m'; [done| |by right]. intros a' g'' He. destruct (Hs _ _ He). auto.
Qed.

Lemma Gsafe_mono {A} (R Q : A -> G -> Prop) m g :
  Gsafe R m g -> (forall a g, R a g -> Q a g) -> Gsafe Q m g.
Proof.
  intros (I & HI & Hc) HQ. exists I. split; [done|]. intros m' g' H.
  destruct (Hc _ _ H) as [Hr Hm]. split; [done|]. destruct m'; auto.
Qed.

(** A loop with an invariant. *)
Lemma Gsafe_loop {T B} (J : T -> G -> Prop) (Q : B -> G -> Prop) body s g :
  (forall s, stable (J s)) -> (forall b, stable (Q b)) ->
  (forall s g, J s g ->
     Gsafe (fun r g => match r with inl s => J s g | inr b => Q b g end) (body s) g) ->
  J s g -> Gsafe Q (loop body s) g.
Proof.
  intros HJ HQ Hbody Hs. set (R := fun r g => match r with inl s => J s g | inr b => Q b g end).
  set (f := fun r : T + B => match r with inl s => Iter body s Ret | inr b => Ret b end).
  exists (fun m g => (exists s, m = Iter body s Ret /\ J s g) \/
                     (exists m0, m = bind m0 f /\ Gsafe R m0 g)).
  split; [left; by exists s|].
  intros m g' [(s' & -> & Hs')|(m0 & -> & HG)].
  - split; [intros g'' Hr; left; exists s'; split; [done|by eapply HJ]|].
    right. exists (body s'). split; [done|by apply Hbody].
  - pose proof (Gsafe_closed _ _ _ HG) as [Hr Hm]. split; [intros; right; exists m0; auto|].
    destruct m0 as [[s'|b]|c k|T' D body' s' k]; cbn.
    + right. exists (body s'). split; [done|]. by apply Hbody.
    + done.
    + intros a g'' He. destruct (Hm _ _ He). split; [done|]. right. by exists (k a).
    + right. exists (unfold_iter body' s' k). by rewrite unfold_iter_bind.
Qed.
End logic.
