(* ===== verification/Filelock.v ===== *)
(** * Lock files

    Models the POSIX part of [android/files/src/android/utils/filelock.cpp] and
    what it uses of [Command_Posix.cpp] (whether a process lives, waiting for
    its end).  An attempt ([filelock_lock]) is a program over system calls; the
    list of the locks of the process is explicit state.  Here are the theorems
    about one attempt on any system; [FilelockShared] has several processes
    that share the files. *)

From S2P Require Import Prelude CText Posix.

(** ** Processes *)

Definition ns_per_ms : Z := 1000000.

(** [exited] is whether [mProcessExit] has a value. *)
Definition getExitCode (pid : Z) (exited : bool) : prog bool :=
  if exited then Ret true else call_ (Waitpid pid).

Definition isAlive (pid : Z) (exited : bool) : prog (bool * bool) :=
  let! exited := getExitCode pid exited in
  let! r := call_ (Kill pid) in
  Ret (bool_decide (r = None), exited).

(** One round of the loop: [inr] leaves it. *)
Definition wait_round (pid wait_until : Z) (exited : bool) : prog (bool + unit) :=
  let! now := call_ SystemClock in
  if now <? wait_until then
    let! (alive, exited) := isAlive pid exited in
    if alive then
      let! _ := call_ (SleepMs 10) in
      Ret (inl exited)
    else Ret (inr tt)
  else Ret (inr tt).

(** [true] is [std::future_status::ready]. *)
Definition wait_for_kernel (pid timeout_duration : Z) : prog bool :=
  if pid =? -1 then Ret true
  else
    let! now := call_ SystemClock in
    let wait_until := now + timeout_duration * ns_per_ms in
    let! _ := loop (wait_round pid wait_until) false in
    let! now := call_ SystemClock in
    Ret (now <? wait_until).

(** ** The lock file *)

Definition LOCK_NAME : bytes := str ".lock".
Definition TEMP_NAME : bytes := str ".tmp-XXXXXX".
Definition WIN_PIDFILE_NAME : bytes := str "pid".

Definition atoi (s : bytes) : Z := s32 (fst (fst (strtoll s))).

(** [snprintf] into the eight bytes of [pid], and [strlen(pid) + 1] of them. *)
Definition pid_text (pid : Z) : bytes := take 7 (to_string pid) ++ [0].

Inductive Freshness := FRESHNESS_UNKNOWN | FRESHNESS_FRESH | FRESHNESS_STALE.

#[export] Instance Freshness_eq_dec : EqDecision Freshness.
Proof. solve_decision. Defined.

(** What is read of the lock file: [lockpid], [now] and [st.st_mtime]. *)
Definition read_lock (lock : bytes) : prog (Z * Z * Z) :=
  let! now := call_ Time in
  let mtime := now - 120 in
  let! lockfd := call_ (Open lock) in
  match lockfd with
  | None => Ret (0, now, mtime)
  | Some fd =>
      let! buf := call_ (Read fd 15) in
      let lockpid := atoi (c_str (default [] buf)) in
      let! st := call_ (Fstat fd) in
      let! _ := call_ (Close fd) in
      Ret match st with
          | Some st => (lockpid, st_atime st, st_mtime st)
          | None => (lockpid, now, mtime)
          end
  end.

(** The verdict of a living process, and whether the call has waited. *)
Definition check_pid (lockpid sleep_duration_ms : Z) : prog (Freshness * bool) :=
  if 0 <? lockpid then
    let! r := call_ (Kill lockpid) in
    if bool_decide (r = None) || bool_decide (r = Some EPERM) then
      let! ready := wait_for_kernel lockpid sleep_duration_ms in
      Ret (if ready then FRESHNESS_STALE else FRESHNESS_FRESH, true)
    else if bool_decide (r = Some ESRCH) then Ret (FRESHNESS_STALE, false)
    else Ret (FRESHNESS_UNKNOWN, false)
  else Ret (FRESHNESS_UNKNOWN, false).

Definition freshness (lock : bytes) (sleep_duration_ms : Z) : prog (Freshness * bool) :=
  let! (lockpid, now, mtime) := read_lock lock in
  let! (fresh, slept) := check_pid lockpid sleep_duration_ms in
  Ret (match fresh with
       | FRESHNESS_UNKNOWN => if mtime + 60 <=? now then FRESHNESS_STALE else FRESHNESS_FRESH
       | _ => fresh
       end, slept).

Definition kSleepDurationMsIncrement : Z := 50.

(** [int] addition; [None] on overflow. *)
Definition int_add (a b : Z) : option Z :=
  if (- 2 ^ 31 <=? a + b) && (a + b <? 2 ^ 31) then Some (a + b) else None.

(** The end of a round: the timeout and the next duration. *)
Definition next_wait (timeout sleep_duration_ms : Z) : option (Z * Z) :=
  match (if 0 <? sleep_duration_ms then int_add timeout (- sleep_duration_ms) else Some timeout) with
  | Some timeout =>
      match int_add sleep_duration_ms kSleepDurationMsIncrement with
      | Some d => Some (timeout, Z.min timeout d)
      | None => None
      end
  | None => None
  end.

(** One round over [timeout] and [sleep_duration_ms].  It leaves the loop with
    [Some true] when the lock is taken and [Some false] when the attempt has
    failed; [None] is an overflow of [int]. *)
Definition lock_round (lock temp : bytes) '(timeout, sleep_duration_ms) :
    prog ((Z * Z) + option bool) :=
  let! linked := call_ (Link temp lock) in
  if linked then
    let! _ := call_ (Unlink temp) in
    Ret (inr (Some true))
  else
    let! st := call_ (Lstat lock) in
    match st with
    | None => Ret (inl (timeout, sleep_duration_ms))
    | Some st =>
        if S_ISDIR st then
          let! _ := call_ (Unlink (lock ++ str "/" ++ WIN_PIDFILE_NAME)) in
          let! _ := call_ (Rmdir lock) in
          Ret (inr (Some false))
        else
          let! (fresh, slept) := freshness lock sleep_duration_ms in
          let! _ := if bool_decide (fresh = FRESHNESS_STALE) then call_ (Unlink lock) else Ret true in
          if timeout =? 0 then Ret (inr (Some false))
          else
            match next_wait timeout sleep_duration_ms with
            | Some next =>
                let! _ := if (0 <? sleep_duration_ms) && negb slept
                          then call_ (SleepMs sleep_duration_ms) else Ret tt in
                Ret (inl next)
            | None => Ret (inr None)
            end
    end.

(** The label [Fail]. *)
Definition lock_fail (temp : bytes) : prog (option bool) :=
  let! _ := call_ (Unlink temp) in
  Ret (Some false).

Definition filelock_lock (lock template : bytes) (timeout : Z) : prog (option bool) :=
  let! (temp, fd) := call_ (Mkstemp template) in
  match fd with
  | None => lock_fail temp
  | Some fd =>
      let! pid := call_ Getpid in
      let! written := call_ (Write fd (pid_text pid)) in
      let! _ := call_ (Close fd) in
      match written with
      | None => lock_fail temp
      | Some _ =>
          let! st := call_ (Lstat temp) in
          match st with
          | None => lock_fail temp
          | Some _ =>
              let! locked := loop (lock_round lock temp) (timeout, 0) in
              match locked with
              | Some true => Ret (Some true)
              | Some false => lock_fail temp
              | None => Ret None
              end
          end
      end
  end.

(** ** The names of the files

    [filelock_create_timeout] puts the three names into one allocation, whose
    contents [garbage] are arbitrary. *)

Definition strcat (at_ : Z) (s buf : bytes) : option bytes :=
  write_at (at_ + zlen (c_str (drop (Z.to_nat at_) buf))) (s ++ [0]) buf.

(** [snprintf(buf + at, size, "%s%s", a, b)]. *)
Definition snprintf2 (at_ size : Z) (a b buf : bytes) : option bytes :=
  write_at at_ (take (Z.to_nat (size - 1)) (a ++ b) ++ [0]) buf.

Definition lock_len (file : bytes) : Z := zlen file + (zlen LOCK_NAME + 1).
Definition temp_len (file : bytes) : Z := zlen file + (zlen TEMP_NAME + 1).
Definition paths_len (file : bytes) : Z := s32 (zlen file + lock_len file + temp_len file + 3).

(** The offsets of [lock->lock] and [lock->temp]. *)
Definition lock_off (file : bytes) : Z := zlen file + 1.
Definition temp_off (file : bytes) : Z := lock_off file + lock_len file + 1.

Definition string_at (at_ : Z) (buf : bytes) : bytes := c_str (drop (Z.to_nat at_) buf).

Definition make_paths (file garbage : bytes) : option bytes :=
  paths ← write_at 0 (file ++ [0]) garbage;
  paths ← write_at (lock_off file) (file ++ [0]) paths;
  paths ← strcat (lock_off file) LOCK_NAME paths;
  snprintf2 (temp_off file) (temp_len file) (string_at 0 paths) TEMP_NAME paths.

(** ** The locks of the process

    A [FileLock] object has the number of its allocation; [all_filelocks] is the
    list from its head on.  [None] is the use of an object that is gone. *)

Record FileLock := { fl_file : bytes; fl_lock : bytes; locked : bool }.

Record Locks := {
  is_exiting : bool;
  all_filelocks : list Z;
  objects : gmap Z FileLock;
  next_object : Z;
}.

Definition with_objects (f : gmap Z FileLock -> gmap Z FileLock) (l : Locks) : Locks :=
  {| is_exiting := is_exiting l; all_filelocks := all_filelocks l;
     objects := f (objects l); next_object := next_object l |}.

Definition filelock_release (id : Z) (l : Locks) : prog (option Locks) :=
  match objects l !! id with
  | None => Ret None
  | Some lock =>
      if locked lock then
        let! _ := call_ (Unlink (fl_lock lock)) in
        Ret (Some (with_objects <[id := {| fl_file := []; fl_lock := []; locked := false |}]> l))
      else Ret (Some l)
  end.

Fixpoint release_all (ids : list Z) (l : Locks) : prog (option Locks) :=
  match ids with
  | [] => Ret (Some l)
  | id :: ids =>
      let! l := filelock_release id l in
      match l with
      | Some l => release_all ids (with_objects (delete id) l)
      | None => Ret None
      end
  end.

Definition filelock_atexit (l : Locks) : prog (option Locks) :=
  let! l := if is_exiting l then Ret (Some l) else release_all (all_filelocks l) l in
  Ret (l ← l; Some {| is_exiting := true; all_filelocks := all_filelocks l;
                      objects := objects l; next_object := next_object l |}).

(** The result is the lock, [Some None] for a null pointer. *)
Definition filelock_create_timeout (file : bytes) (timeout : Z) (l : Locks) :
    prog (option (option Z * Locks)) :=
  let id := next_object l in
  let l := {| is_exiting := is_exiting l; all_filelocks := all_filelocks l;
              objects := objects l; next_object := next_object l + 1 |} in
  let lock := file ++ LOCK_NAME in
  let! r := filelock_lock lock (file ++ TEMP_NAME) timeout in
  match r with
  | None => Ret None
  | Some false => Ret (Some (None, l))
  | Some true =>
      let l := with_objects <[id := {| fl_file := file; fl_lock := lock; locked := true |}]> l in
      if is_exiting l then
        let! l := filelock_release id l in
        Ret (l ← l; Some (None, with_objects (delete id) l))
      else
        Ret (Some (Some id,
          {| is_exiting := false; all_filelocks := id :: all_filelocks l;
             objects := objects l; next_object := next_object l |}))
  end.

Definition filelock_create (file : bytes) (l : Locks) : prog (option (option Z * Locks)) :=
  filelock_create_timeout file 0 l.

(** ** Lemmas on the names *)

Lemma string_at_app a s b : c_string s -> string_at (zlen a) (a ++ s ++ 0 :: b) = s.
Proof.
  intros Hs. unfold string_at, zlen. rewrite Nat2Z.id, drop_app_length. unfold c_str.
  rewrite (span_all _ s (0 :: b)); [done| |done].
  eapply Forall_impl; [exact Hs|]. intros c Hc. cbn. by rewrite (proj2 (Z.eqb_neq _ _) Hc).
Qed.

Lemma zlen_snoc {A} (l : list A) x : zlen (l ++ [x]) = zlen l + 1.
Proof. rewrite zlen_app. done. Qed.

Lemma drop_zlen_sub (l : bytes) n : 0 <= n <= zlen l -> zlen (drop (Z.to_nat n) l) = zlen l - n.
Proof. intros. unfold zlen in *. rewrite length_drop. lia. Qed.

Lemma strcat_app a s t rest :
  c_string s -> zlen t <= zlen rest ->
  strcat (zlen a) t (a ++ s ++ 0 :: rest) = Some (a ++ s ++ t ++ 0 :: drop (length t) rest).
Proof.
  intros Hs Ht. unfold strcat. change (c_str (drop (Z.to_nat (zlen a)) ?b)) with (string_at (zlen a) b).
  rewrite string_at_app by done.
  rewrite <- (zlen_app a s), app_assoc, write_at_app
    by (rewrite zlen_app, !zlen_cons, zlen_nil; lia).
  replace (Z.to_nat (zlen (t ++ [0]))) with (S (length t))
    by (rewrite zlen_app, zlen_cons, zlen_nil; unfold zlen; lia).
  cbn [drop]. by rewrite <- !app_assoc.
Qed.

(** C25: Making the names of a lock file never writes outside the allocation of
    [paths_len] bytes, and the three pointers are then terminated strings:
    the file, the file with [.lock] and the template of the temporary file. *)
Theorem filelock_paths file garbage :
  c_string file -> 3 * zlen file + 21 < 2 ^ 31 -> zlen garbage = paths_len file ->
  exists paths, make_paths file garbage = Some paths /\
    string_at 0 paths = file /\
    string_at (lock_off file) paths = file ++ LOCK_NAME /\
    string_at (temp_off file) paths = file ++ TEMP_NAME.
Proof.
  intros Hf Hlen Hg. pose proof (zlen_nonneg file).
  assert (zlen garbage = 3 * zlen file + 21) as Hz.
  { rewrite Hg. unfold paths_len, lock_len, temp_len. change (zlen LOCK_NAME) with 5.
    change (zlen TEMP_NAME) with 11. rewrite swrap_small; unfold in_s; lia. }
  assert (c_string LOCK_NAME) as HL by (repeat (constructor; [discriminate|]); constructor).
  assert (c_string TEMP_NAME) as HT by (repeat (constructor; [discriminate|]); constructor).
  clear Hg. unfold make_paths.
  set (g1 := drop (Z.to_nat (zlen (file ++ [0]))) garbage).
  assert (write_at 0 (file ++ [0]) garbage = Some ((file ++ [0]) ++ g1)) as ->
    by (apply (write_at_app [] garbage); rewrite zlen_snoc; lia).
  cbn [mbind option_bind].
  assert (zlen g1 = 2 * zlen file + 20) as Hg1
    by (unfold g1; rewrite drop_zlen_sub; rewrite zlen_snoc; lia).
  assert (lock_off file = zlen (file ++ [0])) as EL
    by (unfold lock_off; rewrite zlen_snoc; lia).
  rewrite EL, write_at_app by (rewrite zlen_snoc; lia). cbn [mbind option_bind].
  set (g2 := drop (Z.to_nat (zlen (file ++ [0]))) g1).
  assert (zlen g2 = zlen file + 19) as Hg2
    by (unfold g2; rewrite drop_zlen_sub; rewrite zlen_snoc; lia).
  rewrite <- (app_assoc file [0] g2). cbn [app].
  rewrite strcat_app by (done || (change (zlen LOCK_NAME) with 5; lia)). cbn [mbind option_bind].
  set (g3 := drop (length LOCK_NAME) g2).
  assert (zlen g3 = zlen file + 14) as Hg3
    by (unfold g3; change (length LOCK_NAME) with (Z.to_nat 5); rewrite drop_zlen_sub; lia).
  destruct g3 as [|x g3]; [rewrite zlen_nil in Hg3; lia|]. rewrite zlen_cons in Hg3.
  assert (forall b, string_at 0 ((file ++ [0]) ++ b) = file) as E0.
  { intros b. rewrite <- app_assoc. apply (string_at_app []); done. }
  rewrite E0.
  set (pre := (file ++ [0]) ++ (file ++ LOCK_NAME) ++ [0; x]).
  assert ((file ++ [0]) ++ file ++ LOCK_NAME ++ 0 :: x :: g3 = pre ++ g3) as ->
    by (unfold pre; by rewrite <- !app_assoc).
  assert (zlen pre = temp_off file) as Ep.
  { unfold pre, temp_off, lock_off, lock_len. rewrite !zlen_app, !zlen_cons, !zlen_nil. lia. }
  unfold snprintf2. rewrite <- Ep.
  assert (zlen (file ++ TEMP_NAME) = temp_len file - 1) as Et
    by (rewrite zlen_app; unfold temp_len; lia).
  rewrite take_ge by (rewrite <- Et; unfold zlen; lia).
  rewrite write_at_app
    by (rewrite zlen_app, Et, zlen_cons, zlen_nil; unfold temp_len; change (zlen TEMP_NAME) with 11; lia).
  set (g4 := drop _ g3). eexists. split; [done|]. unfold pre.
  assert (c_string (file ++ LOCK_NAME)) by (by apply Forall_app).
  assert (c_string (file ++ TEMP_NAME)) by (by apply Forall_app).
  split_and!.
  - etransitivity; [|apply (E0 ((file ++ LOCK_NAME) ++ 0 :: x :: (file ++ TEMP_NAME) ++ 0 :: g4))].
    f_equal. unfold pre. by rewrite <- !app_assoc.
  - etransitivity; [|apply (string_at_app (file ++ [0]) _ (x :: (file ++ TEMP_NAME) ++ 0 :: g4)); done].
    f_equal. by rewrite <- !app_assoc.
  - etransitivity; [|apply (string_at_app pre _ g4); done].
    f_equal. unfold pre. by rewrite <- !app_assoc.
Qed.

(** ** An attempt ends *)

Definition is_link (c : call) : bool := match c with Link _ _ => true | _ => false end.

(** A successful [link] to the lock file. *)
Definition link_ok (lock : bytes) (e : event) : bool :=
  match e with
  | existT c a =>
      match c return ans c -> bool with
      | Link _ newpath => fun linked => linked && bytes_eqb newpath lock
      | _ => fun _ => false
      end a
  end.

Definition linked (lock : bytes) (tr : list event) : bool := existsb (link_ok lock) tr.

Section ends.
Context {W : Type} `{!System W, !Timed W} (lock : bytes).

(** Time has passed and the lock has not been taken meanwhile. *)
Definition later (s s' : traced W) : Prop :=
  clock s <= clock s' /\ (lost s' <= lost s)%nat /\ linked lock (snd s') = linked lock (snd s).

Lemma later_refl s : later s s.
Proof. split_and!; lia || done. Qed.

Lemma later_trans s1 s2 s3 : later s1 s2 -> later s2 s3 -> later s1 s3.
Proof. intros (?&?&?) (?&?&?). split_and!; [lia|lia|congruence]. Qed.

Lemma sys_traced c s :
  sys c s = (fst (sys c (fst s)), (snd (sys c (fst s)), existT c (fst (sys c (fst s))) :: snd s)).
Proof. destruct s as [w tr]. cbn. by destruct (sys c w). Qed.

Lemma later_call c s : is_link c = false -> later s (snd (sys c s)).
Proof.
  intros Hc. split_and!; [apply clock_mono|apply lost_mono|].
  rewrite sys_traced. destruct c; cbn in *; done.
Qed.

Lemma ends_quiet {A} c (k : ans c -> prog A) s0 s Q :
  is_link c = false -> later s0 s -> (forall a s', later s0 s' -> ends (k a) s' Q) ->
  ends (bind (call_ c) k) s Q.
Proof. intros Hc Hs Hk. apply ends_call, Hk. eapply later_trans; [exact Hs|by apply later_call]. Qed.

#[local] Hint Resolve later_refl : core.

(** Steps through calls of which only the passing of time matters. *)
Ltac quiet :=
  repeat (first
    [ eapply ends_ret; cbn
    | eapply ends_quiet; [reflexivity|eassumption || apply later_refl|intros] ]).

Lemma isAlive_ends pid exited s : ends (isAlive pid exited) s (fun _ s' => later s s').
Proof.
  unfold isAlive, getExitCode. destruct exited; cbn [bind].
  - quiet. done.
  - eapply (ends_quiet _ _ s); [done..|]. intros ex s1 H1. quiet. done.
Qed.

Lemma wait_for_kernel_ends pid d s :
  ends (wait_for_kernel pid d) s (fun _ s' => later s s').
Proof.
  unfold wait_for_kernel. destruct (pid =? -1); [by apply ends_ret|].
  eapply (ends_quiet _ _ s); [done..|]. intros now s1 H1. cbv zeta.
  set (until := now + d * ns_per_ms).
  eapply (ends_bind _ _ _ _ (fun _ s' => later s s')).
  - apply (ends_loop _ (fun _ s' => later s s') (fun _ s' => Z.to_nat (until - clock s'))); [|done].
    intros exited s2 H2. unfold wait_round. apply ends_call. cbn beta. rewrite clock_read. cbn [bind].
    assert (later s (snd (sys SystemClock s2))) as H3
      by (eapply later_trans; [exact H2|by apply later_call]).
    destruct (Z.ltb_spec (clock s2) until) as [Hlt|]; [|by apply ends_ret].
    set (s3 := snd (sys SystemClock s2)) in *.
    assert (clock s2 <= clock s3) by apply clock_mono.
    eapply ends_bind; [apply isAlive_ends|]. intros [[] ex] s4 H4; cbn beta iota;
      [|apply ends_ret; by eapply later_trans].
    apply ends_call, ends_ret. pose proof (clock_sleep 10 s4). destruct H4 as (? & ? & ?).
    split; [|lia]. eapply later_trans; [exact H3|]. eapply later_trans; [|by apply later_call].
    by split_and!.
  - intros [] s2 H2. eapply ends_quiet; [done|exact H2|]. intros. by apply ends_ret.
Qed.

Lemma freshness_ends d s : ends (freshness lock d) s (fun _ s' => later s s').
Proof.
  unfold freshness.
  eapply (ends_bind _ _ _ _ (fun _ s' => later s s')).
  { unfold read_lock. eapply (ends_quiet _ _ s); [done..|]. intros now s1 H1. cbv zeta.
    eapply ends_quiet; [done|exact H1|]. intros [fd|] s2 H2; [|by apply ends_ret].
    quiet. done. }
  intros [[lockpid now] mtime] s1 H1.
  eapply (ends_bind _ _ _ _ (fun _ s' => later s s')); [|by intros [[] ?] s2 H2; apply ends_ret].
  unfold check_pid. destruct (0 <? lockpid); [|by apply ends_ret].
  eapply ends_quiet; [done|exact H1|]. intros r s2 H2.
  destruct (_ || _).
  - eapply ends_bind; [apply wait_for_kernel_ends|]. intros ready s3 H3.
    apply ends_ret. by eapply later_trans.
  - case_bool_decide; by apply ends_ret.
Qed.

(** The durations: they grow by fifty up to what is left of the timeout [t0]. *)
Definition wait_ok (t0 : Z) '((timeout, d) : Z * Z) : Prop :=
  0 <= d <= timeout /\
  exists k, 0 <= k /\ (d = 50 * k \/ d = timeout /\ d <= 50 * k) /\ 25 * (k * (k - 1)) <= t0 - timeout.

Definition rounds '((timeout, d) : Z * Z) : nat := Z.to_nat (2 * timeout + (if d =? 0 then 1 else 0)).

Lemma int_add_ok a b : - 2 ^ 31 <= a + b < 2 ^ 31 -> int_add a b = Some (a + b).
Proof.
  intros. unfold int_add. by rewrite (proj2 (Z.leb_le _ _)), (proj2 (Z.ltb_lt _ _)) by lia.
Qed.

Lemma next_wait_ok t0 timeout d :
  t0 < 2 ^ 31 -> wait_ok t0 (timeout, d) -> timeout <> 0 ->
  exists next, next_wait timeout d = Some next /\ wait_ok t0 next /\
    (rounds next < rounds (timeout, d))%nat /\ fst next = timeout - d.
Proof.
  intros Ht0 [Hd (k & Hk & Hc & Hs)] Ht.
  assert (0 <= k * (k - 1)) by (destruct (decide (k = 0)); nia).
  assert (d <= 50 * k) by lia.
  assert (k < 10000).
  { destruct (Z.lt_ge_cases k 10000); [done|]. assert (10000 * 9999 <= k * (k - 1)) by nia. lia. }
  exists (timeout - d, Z.min (timeout - d) (d + 50)). split_and!.
  - unfold next_wait, kSleepDurationMsIncrement. rewrite (int_add_ok d 50) by lia.
    destruct (Z.ltb_spec 0 d).
    + by rewrite int_add_ok by lia.
    + replace (timeout - d) with timeout by lia. done.
  - split; [lia|]. destruct Hc as [->|[-> _]].
    + exists (k + 1). split_and!; [lia|lia|nia].
    + exists 0. lia.
  - unfold rounds. destruct (Z.eqb_spec d 0), (Z.eqb_spec (Z.min (timeout - d) (d + 50)) 0); lia.
  - done.
Qed.

(** The last call was [unlink(temp)]. *)
Definition unlinked_last (temp : bytes) (tr : list event) : Prop :=
  exists a tr', tr = existT (Unlink temp) a :: tr'.

Lemma linked_snoc c s :
  is_link c = false -> linked lock (snd (snd (sys c s))) = linked lock (snd s).
Proof. intros Hc. apply (later_call c s Hc). Qed.

Lemma unlink_last p s : unlinked_last p (snd (snd (sys (Unlink p) s))).
Proof. rewrite sys_traced. by eexists _, _. Qed.

Lemma link_call temp s :
  linked lock (snd (snd (sys (Link temp lock) s))) =
  fst (sys (Link temp lock) s) || linked lock (snd s).
Proof.
  rewrite sys_traced. cbn. f_equal. by rewrite bytes_eqb_refl, andb_true_r.
Qed.

(** A round: it ends, either with the outcome or nearer to the end. *)
Definition round_post (t0 : Z) (temp : bytes) (st : Z * Z) (s s' : traced W)
    (r : (Z * Z) + option bool) : Prop :=
  match r with
  | inl next => later s s' /\ wait_ok t0 next /\
      (next = st /\ (lost s' < lost s)%nat \/ (rounds next < rounds st)%nat)
  | inr b => exists ok, b = Some ok /\ linked lock (snd s') = ok /\
      (ok = true -> unlinked_last temp (snd s'))
  end.

Lemma lock_round_ends t0 temp st s :
  t0 < 2 ^ 31 -> wait_ok t0 st -> linked lock (snd s) = false ->
  ends (lock_round lock temp st) s (fun r s' => round_post t0 temp st s s' r).
Proof.
  intros Ht0 Hst Hs. destruct st as [timeout d]. unfold lock_round. apply ends_call.
  pose proof (link_call temp s) as Hl.
  pose proof (clock_mono (Link temp lock) s). pose proof (lost_mono (Link temp lock) s).
  set (s1 := snd (sys (Link temp lock) s)) in *.
  destruct (fst (sys (Link temp lock) s)); cbn [orb bind] in *.
  { apply ends_call, ends_ret. exists true. split_and!; [done| |intros _; apply unlink_last].
    by rewrite linked_snoc. }
  assert (later s s1) as H1 by (split_and!; [done|done|congruence]).
  apply ends_call. pose proof (lost_lstat lock s1) as Hlost.
  assert (later s (snd (sys (Lstat lock) s1))) as H2
    by (eapply later_trans; [exact H1|by apply later_call]).
  set (s2 := snd (sys (Lstat lock) s1)) in *.
  destruct (fst (sys (Lstat lock) s1)) as [st|]; cbn [bind].
  2: { apply ends_ret. split_and!; [done|done|]. left. split; [done|]. by eapply Nat.lt_le_trans; [apply Hlost|apply H1]. }
  assert (forall s', later s s' -> round_post t0 temp (timeout, d) s s' (inr (Some false))) as Hfail.
  { intros s' (_ & _ & E). exists false. split_and!; [done|congruence|done]. }
  destruct (S_ISDIR st).
  { eapply ends_quiet; [done|exact H2|]. intros. quiet. by apply Hfail. }
  eapply ends_bind; [apply freshness_ends|]. intros [fresh slept] s3 H3.
  assert (later s s3) as H3' by by eapply later_trans.
  eapply (ends_bind _ _ _ _ (fun _ s' => later s s')).
  { case_bool_decide; [|by apply ends_ret]. apply ends_call, ends_ret.
    eapply later_trans; [exact H3'|by apply later_call]. }
  intros _ s4 H4. destruct (Z.eqb_spec timeout 0); [apply ends_ret; by apply Hfail|].
  destruct (next_wait_ok t0 timeout d) as (next & -> & Hn & Hr & _); [done..|].
  assert (forall s', later s s' -> round_post t0 temp (timeout, d) s s' (inl next)) as Hgo
    by (intros; split_and!; auto).
  destruct (_ && _); quiet; by apply Hgo.
Qed.
Definition lock_post (temp : bytes) (r : option bool) (s : traced W) : Prop :=
  exists ok, r = Some ok /\ linked lock (snd s) = ok /\ unlinked_last temp (snd s).

Lemma lock_ends template timeout (s : traced W) :
  0 <= timeout < 2 ^ 31 -> linked lock (snd s) = false ->
  ends (filelock_lock lock template timeout) s
    (lock_post (fst (fst (sys (Mkstemp template) (fst s))))).
Proof.
  intros Ht Hs. set (temp := fst (fst (sys (Mkstemp template) (fst s)))).
  assert (forall s', later s s' -> ends (lock_fail temp) s' (lock_post temp)) as Hfail.
  { intros s' H. apply ends_call, ends_ret. exists false. split_and!; [done| |apply unlink_last].
    destruct H as (_ & _ & E). rewrite linked_snoc by done. by rewrite E. }
  unfold filelock_lock. apply ends_call.
  assert (later s (snd (sys (Mkstemp template) s))) as H1 by by apply later_call.
  assert (fst (fst (sys (Mkstemp template) s)) = temp) as Et by by rewrite sys_traced.
  destruct (fst (sys (Mkstemp template) s)) as [temp' [fd|]]; cbn in Et; subst temp'; [|by apply Hfail].
  eapply ends_quiet; [done|exact H1|]. intros pid s2 H2. cbv zeta.
  eapply ends_quiet; [done|exact H2|]. intros written s3 H3.
  eapply ends_quiet; [done|exact H3|]. intros _ s4 H4.
  destruct written; [|by apply Hfail].
  eapply ends_quiet; [done|exact H4|]. intros [st|] s5 H5; [|by apply Hfail].
  eapply (ends_bind _ _ _ _ (fun b s' => exists ok, b = Some ok /\ linked lock (snd s') = ok /\
            (ok = true -> unlinked_last temp (snd s')))).
  - apply (ends_loop _ (fun st s' => wait_ok timeout st /\ later s s')
             (fun st s' => rounds st + lost s')%nat).
    + intros st' s' [Hw H']. eapply ends_mono.
      { apply (lock_round_ends timeout); [lia|done|]. destruct H' as (_ & _ & E). by rewrite E. }
      intros [next|b] s'' Hp; unfold round_post in Hp; [|done]. destruct Hp as (Hl & Hn & Hc).
      split; [split; [done|by eapply later_trans]|]. destruct Hl as (_ & ? & _).
      destruct Hc as [[-> ?]|?]; lia.
    + split; [|done]. split; [lia|]. exists 0. lia.
  - intros b s' (ok & -> & E & Hl). destruct ok; [apply ends_ret; exists true; auto|].
    apply ends_call, ends_ret. exists false. split_and!; [done| |apply unlink_last].
    by rewrite linked_snoc.
Qed.
End ends.

(** C24: An attempt with a timeout ends on every system whose clock goes on and
    whose [lstat] does not fail for ever, and no [int] of it overflows.  It
    reports the lock taken exactly when it has linked the lock file, and the
    last thing it does is to remove its temporary file. *)
Theorem filelock_lock_ends {W} `{!System W, !Timed W} lock template timeout w :
  0 <= timeout < 2 ^ 31 ->
  exists r tr w', runs (filelock_lock lock template timeout) ((w, []) : traced W) (Some r) (w', tr) /\
    r = linked lock tr /\ unlinked_last (fst (fst (sys (Mkstemp template) w))) tr.
Proof.
  intros Ht. destruct (lock_ends lock template timeout (w, [])) as (r & [w' tr] & Hr & ok & -> & E & Hl);
    [done|done|]. exists ok, tr, w'. split_and!; [done|by symmetry|done].
Qed.

(** ** A lock that is held *)

Lemma atoi_pid_text pid : 0 < pid < 10 ^ 7 -> atoi (c_str (pid_text pid)) = pid.
Proof.
  intros Hp. unfold pid_text.
  assert (zlen (to_string pid) <= 7) as Hl by (apply to_string_digits; lia).
  rewrite take_ge by (unfold zlen in Hl; lia).
  assert (c_str (to_string pid ++ [0]) = to_string pid) as ->.
  { unfold c_str. rewrite (span_all _ (to_string pid) [0]); [done| |done].
    destruct (to_string_nonneg pid) as [Hd _]; [lia|]. eapply Forall_impl; [exact Hd|].
    intros c Hc. unfold is_digit in Hc. cbn beta in *.
    apply andb_true_iff in Hc as [?%Z.leb_le _]. by rewrite (proj2 (Z.eqb_neq _ _)) by lia. }
  unfold atoi. rewrite <- (app_nil_r (to_string pid)), strtoll_to_string by (done || lia).
  destruct (Z.ltb_spec pid (2 ^ 63)); [|lia]. apply swrap_small; unfold in_s; cbn; lia.
Qed.

(** The lock file of a process that lives and may be signalled; [template] makes
    the temporary file [temp], which can be made. *)
Class Held (W : Type) `{!System W} (lock template temp : bytes) (pid : Z) := {
  held : W -> Prop;
  held_call c w : c <> Unlink lock -> held w -> held (snd (sys c w));
  held_link t w : held w -> fst (sys (Link t lock) w) = false;
  held_lstat w : held w -> exists st, fst (sys (Lstat lock) w) = Some st /\ S_ISDIR st = false;
  held_read w : held w -> exists fd, fst (sys (Open lock) w) = Some fd /\
    fst (sys (Read fd 15) (snd (sys (Open lock) w))) = Some (pid_text pid);
  held_kill w : held w -> fst (sys (Kill pid) w) = None;
  held_setup w : held w -> (exists fd, fst (sys (Mkstemp template) w) = (temp, Some fd)) /\
    (forall fd data, is_Some (fst (sys (Write fd data) w))) /\ is_Some (fst (sys (Lstat temp) w));
}.

Section held.
Context {W : Type} `{!System W, !Timed W} (lock template temp : bytes) (pid : Z).
Context `{!Held W lock template temp pid}.
Context (pid_ok : 0 < pid < 10 ^ 7) (temp_lock : temp <> lock).

(** The lock is still held and the clock has reached [t]. *)
Definition held_at (t : Z) (w : W) : Prop := held w /\ t <= clock w.

Lemma held_at_call t c w : c <> Unlink lock -> held_at t w -> held_at t (snd (sys c w)).
Proof. intros Hc [Hh Ht]. split; [by apply held_call|]. pose proof (clock_mono c w). lia. Qed.

Lemma ends_held {A} c (k : ans c -> prog A) t w Q :
  c <> Unlink lock -> held_at t w ->
  (forall a w', fst (sys c w) = a -> held_at t w' -> ends (k a) w' Q) -> ends (bind (call_ c) k) w Q.
Proof. intros Hc Hw Hk. apply ends_call. eapply Hk; [done|by apply held_at_call]. Qed.

Lemma wait_held d t w :
  held_at t w ->
  ends (wait_for_kernel pid d) w (fun ready w' => ready = false /\ held_at (t + d * ns_per_ms) w' /\ held_at t w').
Proof.
  intros Hw. unfold wait_for_kernel. destruct (Z.eqb_spec pid (-1)); [lia|].
  eapply (ends_held _ _ t); [done|done|]. intros now w1 Hnow H1. rewrite clock_read in Hnow. cbv zeta.
  set (until := now + d * ns_per_ms). destruct Hw as [_ Hw].
  eapply (ends_bind _ _ _ _ (fun _ => held_at (Z.max t until))).
  - apply (ends_loop _ (fun _ => held_at t) (fun _ w => Z.to_nat (until - clock w))); [|done].
    intros exited w2 H2. apply ends_call. cbn beta. rewrite clock_read.
    destruct (Z.ltb_spec (clock w2) until) as [Hlt|Hge].
    2: { apply ends_ret. pose proof (clock_mono SystemClock w2).
         destruct (held_at_call t SystemClock w2) as [? ?]; [done..|]. split; [done|lia]. }
    pose proof (clock_mono SystemClock w2).
    destruct (held_at_call t SystemClock w2 ltac:(done) H2) as [Hh3 Ht3].
    set (w3 := snd (sys SystemClock w2)) in *.
    eapply (ends_bind _ _ _ _ (fun (r : bool * bool) w => fst r = true /\ held_at (clock w3) w)).
    { assert (held_at (clock w3) w3) as H3 by (by split).
      assert (forall ex w4, held_at (clock w3) w4 ->
        ends (bind (call_ (Kill pid)) (fun r => Ret (bool_decide (r = None), ex))) w4
          (fun (r : bool * bool) w => fst r = true /\ held_at (clock w3) w)) as Hkill.
      { intros ex w4 H4. eapply ends_held; [done|exact H4|]. intros r w5 Hr H5.
        rewrite held_kill in Hr by apply H4. subst r. by apply ends_ret. }
      unfold isAlive, getExitCode. destruct exited; [by apply Hkill|].
      eapply ends_held; [done|exact H3|]. intros ex w4 _ H4. by apply Hkill. }
    intros [alive ex] w4 [E H4]. cbn in E. subst alive. apply ends_call, ends_ret.
    pose proof (clock_sleep 10 w4). destruct H4 as [Hh4 Ht4].
    split; [split; [by apply held_call|]|]; lia.
  - intros _ w2 H2. apply ends_call, ends_ret. rewrite clock_read. destruct H2 as [Hh2 Hc2].
    pose proof (clock_mono SystemClock w2).
    assert (held (snd (sys SystemClock w2))) by (apply held_call; done).
    split_and!; [apply Z.ltb_ge; lia| |]; (split; [done|]); lia.
Qed.

Lemma freshness_held d t w :
  held_at t w ->
  ends (freshness lock d) w (fun r w' => r = (FRESHNESS_FRESH, true) /\
    held_at (t + d * ns_per_ms) w' /\ held_at t w').
Proof.
  intros Hw. unfold freshness.
  eapply (ends_bind _ _ _ _ (fun (r : Z * Z * Z) w => fst (fst r) = pid /\ held_at t w)).
  { unfold read_lock. eapply ends_held; [done|exact Hw|]. intros now w1 _ H1. cbv zeta.
    destruct (held_read w1 (proj1 H1)) as (fd & Ho & Hr). apply ends_call. rewrite Ho.
    assert (held_at t (snd (sys (Open lock) w1))) as H2 by by apply held_at_call.
    eapply ends_held; [done|exact H2|]. intros buf w3 Hbuf H3. rewrite Hr in Hbuf. subst buf.
    cbv zeta. cbn [from_option id]. rewrite atoi_pid_text by done.
    eapply ends_held; [done|exact H3|]. intros st w4 _ H4.
    eapply ends_held; [done|exact H4|]. intros _ w5 _ H5. apply ends_ret. by destruct st. }
  intros [[lockpid now] mtime] w1 [E H1]. cbn in E. subst lockpid.
  eapply (ends_bind _ _ _ _ (fun r w' => r = (FRESHNESS_FRESH, true) /\
    held_at (t + d * ns_per_ms) w' /\ held_at t w')).
  - unfold check_pid. destruct (Z.ltb_spec 0 pid); [|lia].
    eapply ends_held; [done|exact H1|]. intros r w2 Hr H2. rewrite held_kill in Hr by apply H1.
    subst r. cbn [bool_decide orb decide decide_rel].
    eapply ends_bind; [by apply (wait_held d t)|]. intros ready w3 (-> & H3).
    by apply ends_ret.
  - intros r w2 [-> H2]. by apply ends_ret.
Qed.

Lemma lock_round_held t0 t st w :
  t0 < 2 ^ 31 -> wait_ok t0 st -> held_at (t - fst st * ns_per_ms) w ->
  ends (lock_round lock temp st) w (fun r w' => match r with
    | inl next => (wait_ok t0 next /\ held_at (t - fst next * ns_per_ms) w') /\ (rounds next < rounds st)%nat
    | inr b => b = Some false /\ held_at t w'
    end).
Proof.
  intros Ht0 Hst Hw. destruct st as [timeout d]. cbn [fst] in Hw. unfold lock_round.
  eapply ends_held; [done|exact Hw|]. intros r w1 Hr H1. rewrite held_link in Hr by apply Hw. subst r.
  destruct (held_lstat w1 (proj1 H1)) as (st & Hst' & Hdir).
  eapply ends_held; [done|exact H1|]. intros r w2 Hr H2. rewrite Hst' in Hr. subst r.
  cbv iota. rewrite Hdir.
  eapply ends_bind; [by apply freshness_held|]. intros r w3 (-> & H3 & H3').
  cbn [bool_decide decide decide_rel Freshness_eq_dec bind].
  destruct (Z.eqb_spec timeout 0) as [->|].
  { apply ends_ret. split; [done|]. by replace (t - 0 * ns_per_ms) with t in H3' by lia. }
  destruct (next_wait_ok t0 timeout d) as (next & -> & Hn & Hr & Hf); [done..|].
  rewrite andb_false_r. apply ends_ret. split; [|done]. split; [done|].
  rewrite Hf. by replace (t - (timeout - d) * ns_per_ms) with (t - timeout * ns_per_ms + d * ns_per_ms) by lia.
Qed.

Lemma held_ends timeout w :
  0 <= timeout < 2 ^ 31 -> held w ->
  ends (filelock_lock lock template timeout) w
    (fun r w' => r = Some false /\ held_at (clock w + timeout * ns_per_ms) w').
Proof.
  intros Ht Hw. set (t := clock w + timeout * ns_per_ms).
  assert (held_at (clock w) w) as H0 by (by split). unfold filelock_lock.
  destruct (held_setup w Hw) as [(fd & Hm) _].
  eapply ends_held; [done|exact H0|]. intros r w1 Hr H1. rewrite Hm in Hr. subst r. cbv iota.
  eapply ends_held; [done|exact H1|]. intros p w2 _ H2. cbv zeta.
  destruct (held_setup w2 (proj1 H2)) as (_ & Hwr & _). destruct (Hwr fd (pid_text p)) as [n En].
  eapply ends_held; [done|exact H2|]. intros r w3 Hr H3. rewrite En in Hr. subst r.
  eapply ends_held; [done|exact H3|]. intros [] w4 _ H4. cbv iota.
  destruct (held_setup w4 (proj1 H4)) as (_ & _ & [st Est]).
  eapply ends_held; [done|exact H4|]. intros r w5 Hr H5. rewrite Est in Hr. subst r. cbv iota.
  eapply (ends_bind _ _ _ _ (fun b w => b = Some false /\ held_at t w)).
  - apply (ends_loop _ (fun st w => wait_ok timeout st /\ held_at (t - fst st * ns_per_ms) w)
             (fun st _ => rounds st)).
    + intros st' w' [Hok Hh]. apply (lock_round_held timeout); [lia|done|done].
    + split; [split; [lia|]; exists 0; lia|]. cbn [fst]. unfold t.
      by replace (clock w + timeout * ns_per_ms - timeout * ns_per_ms) with (clock w) by lia.
  - intros b w6 [-> H6]. apply ends_call, ends_ret. split; [done|].
    apply held_at_call; [congruence|done].
Qed.

Lemma lock_round_negative timeout d w :
  - 2 ^ 31 <= timeout < 0 -> d = 0 \/ d = timeout -> held_at (clock w) w ->
  ends (lock_round lock temp (timeout, d)) w
    (fun r w' => exists st', r = inl st' /\ held w' /\ fst st' = timeout /\ (snd st' = 0 \/ snd st' = timeout)).
Proof.
  intros Ht Hd Hw. unfold lock_round.
  eapply ends_held; [done|exact Hw|]. intros r w1 Hr H1. rewrite held_link in Hr by apply Hw. subst r.
  destruct (held_lstat w1 (proj1 H1)) as (st & Hst' & Hdir).
  eapply ends_held; [done|exact H1|]. intros r w2 Hr H2. rewrite Hst' in Hr. subst r.
  cbv iota. rewrite Hdir.
  eapply ends_bind; [by apply freshness_held|]. intros r w3 (-> & _ & H3).
  cbn [bool_decide decide decide_rel Freshness_eq_dec bind].
  destruct (Z.eqb_spec timeout 0); [lia|].
  unfold next_wait, kSleepDurationMsIncrement. destruct (Z.ltb_spec 0 d); [lia|].
  rewrite int_add_ok by lia. cbn [andb]. apply ends_ret.
  eexists. split; [done|]. split; [apply H3|]. cbn. split; [done|right; lia].
Qed.

(** With a negative timeout an attempt on a held lock never ends. *)
Lemma held_negative timeout w r w' :
  - 2 ^ 31 <= timeout < 0 -> held w -> ~ runs (filelock_lock lock template timeout) w r w'.
Proof.
  intros Ht Hw Hr.
  assert (forall st w, (held w /\ fst st = timeout /\ (snd st = 0 \/ snd st = timeout)) ->
    forall b w', ~ runs (loop (lock_round lock temp) st) w b w') as Hloop.
  { intros st w0. apply (loop_diverges _ (fun st w => held w /\ fst st = timeout /\ (snd st = 0 \/ snd st = timeout))).
    intros [t d] w1 (Hh & Et & Hd). cbn in Et, Hd. subst t. by apply lock_round_negative. }
  unfold filelock_lock in Hr. destruct (held_setup w Hw) as [(fd & Hm) _].
  apply runs_call_inv in Hr. rewrite Hm in Hr. apply runs_call_inv, runs_call_inv in Hr.
  set (w2 := snd (sys Getpid _)) in Hr.
  assert (held w2) as H2 by (by do 2 (apply held_call; [done|])).
  destruct (held_setup w2 H2) as (_ & Hwr & _). set (p := fst (sys Getpid _)) in Hr.
  destruct (Hwr fd (pid_text p)) as [n En].
  apply runs_call_inv in Hr. rewrite En in Hr. apply runs_call_inv in Hr.
  set (w4 := snd (sys (Lstat _) _)) in Hr.
  assert (held (snd (sys (Close fd) (snd (sys (Write fd (pid_text p)) w2))))) as H3
    by (by do 2 (apply held_call; [done|])).
  destruct (held_setup _ H3) as (_ & _ & [st Est]). rewrite Est in Hr.
  apply runs_bind_inv in Hr as (b & w5 & Hr & _). eapply Hloop, Hr. cbn. split; [|by eauto].
  by apply held_call.
Qed.
End held.


(** The lock of a living process is respected: the attempt ends without the
    lock, the lock is still held then, and the whole timeout has passed. *)
Theorem filelock_lock_held {W} `{!System W, !Timed W} lock template temp pid
    `{!Held W lock template temp pid} timeout w :
  0 < pid < 10 ^ 7 -> temp <> lock -> 0 <= timeout < 2 ^ 31 -> held w ->
  exists w', runs (filelock_lock lock template timeout) w (Some false) w' /\
    held w' /\ clock w + timeout * ns_per_ms <= clock w'.
Proof.
  intros Hp Hl Ht Hw.
  destruct (held_ends lock template temp pid Hp Hl timeout w Ht Hw) as (r & w' & Hr & -> & Hh & Hc).
  eauto.
Qed.

(** ** A stale lock *)

(** The lock file of a process that is gone, and no lock file. *)
Class Stale (W : Type) `{!System W} (lock template temp : bytes) (pid : Z) := {
  gone : W -> Prop;
  free : W -> Prop;
  gone_call c w : c <> Unlink lock -> gone w -> gone (snd (sys c w));
  gone_unlink w : gone w -> free (snd (sys (Unlink lock) w));
  free_call c w : is_link c = false -> free w -> free (snd (sys c w));
  free_link w : free w -> fst (sys (Link temp lock) w) = true;
  gone_link w : gone w -> fst (sys (Link temp lock) w) = false;
  gone_lstat w : gone w -> exists st, fst (sys (Lstat lock) w) = Some st /\ S_ISDIR st = false;
  gone_read w : gone w -> exists fd, fst (sys (Open lock) w) = Some fd /\
    fst (sys (Read fd 15) (snd (sys (Open lock) w))) = Some (pid_text pid);
  gone_kill w : gone w -> fst (sys (Kill pid) w) = Some ESRCH;
  gone_setup w : gone w -> (exists fd, fst (sys (Mkstemp template) w) = (temp, Some fd)) /\
    (forall fd data, is_Some (fst (sys (Write fd data) w))) /\ is_Some (fst (sys (Lstat temp) w));
}.

Section stale.
Context {W : Type} `{!System W} (lock template temp : bytes) (pid : Z).
Context `{!Stale W lock template temp pid}.
Context (pid_ok : 0 < pid < 10 ^ 7) (temp_lock : temp <> lock).

Lemma ends_gone {A} c (k : ans c -> prog A) w Q :
  c <> Unlink lock -> gone w ->
  (forall a w', fst (sys c w) = a -> gone w' -> ends (k a) w' Q) -> ends (bind (call_ c) k) w Q.
Proof. intros Hc Hw Hk. apply ends_call. eapply Hk; [done|by apply gone_call]. Qed.

Lemma freshness_gone d w :
  gone w -> ends (freshness lock d) w (fun r w' => r = (FRESHNESS_STALE, false) /\ gone w').
Proof.
  intros Hw. unfold freshness.
  eapply (ends_bind _ _ _ _ (fun (r : Z * Z * Z) w => fst (fst r) = pid /\ gone w)).
  { unfold read_lock. eapply ends_gone; [done|exact Hw|]. intros now w1 _ H1. cbv zeta.
    destruct (gone_read w1 H1) as (fd & Ho & Hr). apply ends_call. rewrite Ho.
    assert (gone (snd (sys (Open lock) w1))) as H2 by by apply gone_call.
    eapply ends_gone; [done|exact H2|]. intros buf w3 Hbuf H3. rewrite Hr in Hbuf. subst buf.
    cbv zeta. cbn [from_option id]. rewrite atoi_pid_text by done.
    eapply ends_gone; [done|exact H3|]. intros st w4 _ H4.
    eapply ends_gone; [done|exact H4|]. intros _ w5 _ H5. apply ends_ret. by destruct st. }
  intros [[lockpid now] mtime] w1 [E H1]. cbn in E. subst lockpid.
  unfold check_pid. destruct (Z.ltb_spec 0 pid); [|lia].
  eapply (ends_bind _ _ _ _ (fun r w' => r = (FRESHNESS_STALE, false) /\ gone w')).
  - eapply ends_gone; [done|exact H1|]. intros r w2 Hr H2. rewrite gone_kill in Hr by done.
    subst r. by apply ends_ret.
  - intros r w2 [-> H2]. by apply ends_ret.
Qed.

Lemma stale_ends timeout w :
  - 2 ^ 31 <= timeout < 2 ^ 31 -> gone w ->
  ends (filelock_lock lock template timeout) w
    (fun r w' => if timeout =? 0 then r = Some false /\ free w' else r = Some true).
Proof.
  intros Ht Hw. unfold filelock_lock. destruct (gone_setup w Hw) as [(fd & Hm) _].
  eapply ends_gone; [done|exact Hw|]. intros r w1 Hr H1. rewrite Hm in Hr. subst r. cbv iota.
  eapply ends_gone; [done|exact H1|]. intros p w2 _ H2. cbv zeta.
  destruct (gone_setup w2 H2) as (_ & Hwr & _). destruct (Hwr fd (pid_text p)) as [n En].
  eapply ends_gone; [done|exact H2|]. intros r w3 Hr H3. rewrite En in Hr. subst r.
  eapply ends_gone; [done|exact H3|]. intros [] w4 _ H4. cbv iota.
  destruct (gone_setup w4 H4) as (_ & _ & [st Est]).
  eapply ends_gone; [done|exact H4|]. intros r w5 Hr H5. rewrite Est in Hr. subst r. cbv iota.
  eapply (ends_bind _ _ _ _ (fun b w => if timeout =? 0 then b = Some false /\ free w else b = Some true)).
  2: { intros b w6. destruct (Z.eqb_spec timeout 0) as [->|].
       - intros [-> H6]. apply ends_call, ends_ret. split; [done|]. by apply free_call.
       - intros ->. by apply ends_ret. }
  eapply (ends_round _ _ _ _ _ (fun r w => if timeout =? 0 then r = inr (Some false) /\ free w
                                            else exists st, r = inl st /\ free w)).
  - unfold lock_round. eapply ends_gone; [done|exact H5|]. intros r w6 Hr H6.
    rewrite gone_link in Hr by done. subst r. destruct (gone_lstat w6 H6) as (st' & Hst & Hdir).
    eapply ends_gone; [done|exact H6|]. intros r w7 Hr H7. rewrite Hst in Hr. subst r.
    cbv iota. rewrite Hdir. eapply ends_bind; [by apply freshness_gone|]. intros r w8 [-> H8].
    cbn [bool_decide decide decide_rel Freshness_eq_dec bind]. apply ends_call.
    pose proof (gone_unlink w8 H8) as H9. destruct (Z.eqb_spec timeout 0) as [->|Hne].
    + by apply ends_ret.
    + unfold next_wait, kSleepDurationMsIncrement. cbn [Z.ltb Z.compare andb]. rewrite int_add_ok by lia.
      apply ends_ret. by eexists.
  - intros r w6. destruct (Z.eqb_spec timeout 0) as [->|].
    + intros [-> H6]. by apply ends_ret.
    + intros ([t d] & -> & H6). eapply (ends_round _ _ _ _ _ (fun r _ => r = inr (Some true))).
      * unfold lock_round. apply ends_call. rewrite free_link by done. by apply ends_call, ends_ret.
      * intros r' w7 ->. by apply ends_ret.
Qed.
End stale.

(** The lock file of a process that is gone is taken over by an attempt with
    any timeout other than zero; with zero, which is what [filelock_create]
    passes, the stale file is removed but the attempt fails all the same. *)
Theorem filelock_lock_stale {W} `{!System W} lock template temp pid
    `{!Stale W lock template temp pid} timeout w :
  0 < pid < 10 ^ 7 -> temp <> lock -> - 2 ^ 31 <= timeout < 2 ^ 31 -> gone w ->
  exists w', if timeout =? 0 then runs (filelock_lock lock template timeout) w (Some false) w' /\ free w'
    else runs (filelock_lock lock template timeout) w (Some true) w'.
Proof.
  intros Hp Hl Ht Hw.
  destruct (stale_ends lock template temp pid Hp timeout w Ht Hw) as (r & w' & Hr & HQ).
  exists w'. destruct (timeout =? 0); [destruct HQ as [-> ?]|subst]; done.
Qed.

(** ** The locks of the process *)

(** The list has the living objects, each once. *)
Record locks_ok (l : Locks) : Prop := {
  ok_nodup : NoDup (all_filelocks l);
  ok_objects id : is_Some (objects l !! id) <-> id ∈ all_filelocks l;
  ok_next id : id ∈ all_filelocks l -> id < next_object l;
}.

(** The objects of a list that are locked, with their lock files. *)
Definition held_of (objs : gmap Z FileLock) (ids : list Z) : list (Z * bytes) :=
  omap (fun id => lock ← objs !! id; if locked lock then Some (id, fl_lock lock) else None) ids.

Definition calls (tr : list event) : list call := (fun e => projT1 e) <$> tr.

Section registry.
Context {W : Type} `{!System W}.

Lemma release_runs id (l : Locks) lock (s : traced W) :
  objects l !! id = Some lock ->
  exists l' s', runs (filelock_release id l) s (Some l') s' /\
    is_exiting l' = is_exiting l /\ all_filelocks l' = all_filelocks l /\ next_object l' = next_object l /\
    (exists f, objects l' = <[id := {| fl_file := fst f; fl_lock := snd f; locked := false |}]> (objects l)) /\
    calls (snd s') = (if locked lock then [Unlink (fl_lock lock)] else []) ++ calls (snd s).
Proof.
  intros Hid. unfold filelock_release. rewrite Hid. destruct (locked lock) eqn:E.
  - eexists _, _. split; [apply runs_call, runs_ret|].
    split_and!; [done|done|done|by exists ([], [])|]. destruct s as [w tr]; cbn. by destruct (sys (Unlink (fl_lock lock)) w).
  - eexists _, _. split; [apply runs_ret|]. split_and!; [done|done|done| |done].
    exists (fl_file lock, fl_lock lock). cbn. rewrite insert_id; [done|].
    rewrite Hid. by destruct lock; cbn in *; subst.
Qed.

Lemma held_of_frame objs objs' ids :
  (forall id, id ∈ ids -> objs !! id = objs' !! id) -> held_of objs ids = held_of objs' ids.
Proof.
  induction ids as [|id ids IH]; intros H; [done|]. unfold held_of in *. cbn.
  rewrite (H id) by set_solver. destruct (objs' !! id ≫= _); [f_equal|]; apply IH; set_solver.
Qed.

Lemma release_all_runs ids (l : Locks) (s : traced W) :
  NoDup ids -> (forall id, id ∈ ids -> is_Some (objects l !! id)) ->
  exists l' s', runs (release_all ids l) s (Some l') s' /\
    all_filelocks l' = all_filelocks l /\ next_object l' = next_object l /\
    (forall id, objects l' !! id = if bool_decide (id ∈ ids) then None else objects l !! id) /\
    calls (snd s') = rev ((fun h => Unlink (snd h)) <$> held_of (objects l) ids) ++ calls (snd s).
Proof.
  intros Hd. revert l s. induction Hd as [|id ids Hnin Hd IH]; intros l s Hl.
  { exists l, s. split_and!; [apply runs_ret|done|done|done|done]. }
  destruct (Hl id) as [lock Hid]; [set_solver|].
  destruct (release_runs id l lock s Hid) as (l1 & s1 & Hr & _ & Ha & Hn & (f & Ho) & Hc).
  destruct (IH (with_objects (delete id) l1) s1) as (l2 & s2 & Hr2 & Ha2 & Hn2 & Ho2 & Hc2).
  { intros id' Hid'. cbn. rewrite Ho, lookup_delete_ne, lookup_insert_ne by set_solver.
    apply Hl. set_solver. }
  exists l2, s2. split_and!.
  - cbn [release_all]. by eapply runs_bind.
  - by rewrite Ha2.
  - by rewrite Hn2.
  - intros id'. rewrite Ho2. cbn. rewrite Ho, delete_insert_eq.
    destruct (decide (id' = id)) as [->|Hne].
    + rewrite lookup_delete_eq, (bool_decide_eq_true_2 (id ∈ id :: ids)) by set_solver.
      by case_bool_decide.
    + rewrite lookup_delete_ne by done. do 2 case_bool_decide; set_solver.
  - rewrite Hc2, Hc. cbn [objects with_objects].
    rewrite (held_of_frame _ (objects l)).
    + unfold held_of. cbn. rewrite Hid. cbn. destruct (locked lock); cbn; [|done].
      by rewrite <- app_assoc.
    + intros id' Hid'. rewrite Ho, lookup_delete_ne, lookup_insert_ne; set_solver.
Qed.

Lemma held_of_cons objs id ids :
  held_of objs (id :: ids) =
  match objs !! id with
  | Some lock => if locked lock then (id, fl_lock lock) :: held_of objs ids else held_of objs ids
  | None => held_of objs ids
  end.
Proof. unfold held_of. cbn. destruct (objs !! id) as [lock|]; [|done]. cbn. by destruct (locked lock). Qed.

Lemma held_of_drop objs id f ids :
  NoDup ids ->
  held_of (<[id := {| fl_file := fst f; fl_lock := snd f; locked := false |}]> objs) ids =
  filter (fun h => fst h <> id) (held_of objs ids).
Proof.
  induction 1 as [|x ids Hx Hd IH]; [done|]. rewrite !held_of_cons, IH.
  destruct (decide (x = id)) as [->|Hne].
  - rewrite lookup_insert_eq. cbn [locked]. destruct (objs !! id) as [lock|]; [|done].
    destruct (locked lock); [|done]. by rewrite filter_cons_False by (cbn; naive_solver).
  - rewrite lookup_insert_ne by done. destruct (objs !! x) as [lock|]; [|done].
    destruct (locked lock); [|done]. by rewrite filter_cons_True by done.
Qed.

(** The state after a program has used locks: [h] has those it was given and
    has not released, the latest first. *)
Inductive history : list (Z * bytes) -> Locks -> Prop :=
  | history_new :
      history [] {| is_exiting := false; all_filelocks := []; objects := ∅; next_object := 0 |}
  | history_create h l file timeout (s s' : traced W) r l' :
      history h l -> runs (filelock_create_timeout file timeout l) s (Some (r, l')) s' ->
      history (match r with Some id => [(id, file ++ LOCK_NAME)] | None => [] end ++ h) l'
  | history_release h l id (s s' : traced W) l' :
      history h l -> runs (filelock_release id l) s (Some l') s' ->
      history (filter (fun h => fst h <> id) h) l'.

Lemma create_runs_inv file timeout l (s s' : traced W) r l' :
  runs (filelock_create_timeout file timeout l) s (Some (r, l')) s' ->
  objects l !! next_object l = None ->
  is_exiting l' = is_exiting l /\ next_object l' = next_object l + 1 /\
  match r with
  | None => objects l' = objects l /\ all_filelocks l' = all_filelocks l
  | Some id => is_exiting l = false /\ id = next_object l /\ all_filelocks l' = id :: all_filelocks l /\
      objects l' = <[id := {| fl_file := file; fl_lock := file ++ LOCK_NAME; locked := true |}]> (objects l)
  end.
Proof.
  intros H Hnew.
  unfold filelock_create_timeout in H. apply runs_bind_inv in H as ([[]|] & s1 & _ & H).
  - cbn [is_exiting with_objects] in H. destruct (is_exiting l) eqn:E.
    + apply runs_bind_inv in H as (l1 & s2 & Hr & H). unfold filelock_release in Hr.
      cbn [objects with_objects] in Hr. rewrite lookup_insert_eq in Hr. cbn [locked] in Hr.
      apply runs_bind_inv in Hr as (x & s3 & _ & Hr). apply runs_ret_inv in Hr as [<- _].
      apply runs_ret_inv in H as [H _]. cbn in H. injection H as <- <-. cbn. split_and!; [done|done| |done].
      by rewrite insert_insert_eq, delete_insert_id.
    + apply runs_ret_inv in H as [H _]. injection H as <- <-. by cbn.
  - apply runs_ret_inv in H as [H _]. injection H as <- <-. by cbn.
  - by apply runs_ret_inv in H as [? _].
Qed.

Lemma locks_ok_next l : locks_ok l -> objects l !! next_object l = None.
Proof.
  intros Hok. apply eq_None_not_Some. intros Hs. apply (ok_objects l Hok), (ok_next l Hok) in Hs. lia.
Qed.

Lemma history_inv h l : history h l ->
  locks_ok l /\ is_exiting l = false /\ held_of (objects l) (all_filelocks l) = h.
Proof.
  induction 1 as [|h l file timeout s s' r l' _ (Hok & He & Hh) Hr|h l id s s' l' _ (Hok & He & Hh) Hr].
  - split; [|done]. constructor; cbn; [constructor| |set_solver].
    intros id. rewrite lookup_empty. split; [by intros []|set_solver].
  - apply create_runs_inv in Hr as (He' & Hn & Hr); [|by apply locks_ok_next]. destruct Hok as [Hd Ho Hx].
    rewrite He', He. destruct r as [id|].
    + destruct Hr as (_ & -> & Ha & Ho'). set (id := next_object l) in *.
      assert (id ∉ all_filelocks l) as Hid by (intros F; apply Hx in F; unfold id in F; lia).
      split; [constructor|split; [done|]].
      * rewrite Ha. by constructor.
      * intros x. rewrite Ha, Ho', lookup_insert_is_Some', Ho. set_solver.
      * intros x. rewrite Ha, Hn. intros [->|Hin]%elem_of_cons; [unfold id; lia|].
        apply Hx in Hin. lia.
      * rewrite Ha, Ho', <- Hh, held_of_cons, lookup_insert_eq. cbn [locked fl_lock app]. f_equal.
        apply held_of_frame. intros x Hin. rewrite lookup_insert_ne; set_solver.
    + destruct Hr as [Ho' Ha]. split; [constructor|split; [done|]]; rewrite ?Ho', ?Ha, ?Hn; [done|done| |done].
      intros x Hin. apply Hx in Hin. lia.
  - destruct Hok as [Hd Ho Hx].
    destruct (objects l !! id) as [lock|] eqn:Hid.
    2: { unfold filelock_release in Hr. rewrite Hid in Hr. by apply runs_ret_inv in Hr as [? _]. }
    destruct (release_runs id l lock s Hid) as (l1 & s1 & Hr1 & He1 & Ha & Hn & (f & Ho') & _).
    destruct (runs_det _ _ _ _ _ _ Hr Hr1) as [[= ->] ->].
    split; [constructor|split; [congruence|]].
    + by rewrite Ha.
    + intros x. rewrite Ha, Ho', lookup_insert_is_Some', Ho.
      split; [|by right]. intros [<-|?]; [apply Ho; by exists lock|done].
    + intros x. rewrite Ha, Hn. apply Hx.
    + by rewrite Ha, Ho', held_of_drop, Hh.
Qed.
End registry.

(** When the process exits, whatever locks it took and released before, exactly
    the lock files it still holds are removed, the latest first and each once,
    every object is freed and no dead one used; and from then on no attempt
    gives a lock. *)
Theorem filelock_exit {W} `{!System W} h l (s : traced W) :
  history h l ->
  exists l' s', runs (filelock_atexit l) s (Some l') s' /\
    calls (snd s') = rev ((fun h => Unlink (snd h)) <$> h) ++ calls (snd s) /\
    objects l' = ∅ /\
    (exists s'', runs (filelock_atexit l') s' (Some l') s'' /\ calls (snd s'') = calls (snd s')) /\
    forall file timeout (s1 : traced W) r l2 s2,
      runs (filelock_create_timeout file timeout l') s1 (Some (r, l2)) s2 -> r = None /\ objects l2 = ∅.
Proof.
  intros (Hok & He & Hh)%history_inv.
  destruct (release_all_runs (all_filelocks l) l s) as (l1 & s1 & Hr & Ha & Hn & Ho & Hc).
  { apply Hok. }
  { intros id. apply (ok_objects l Hok). }
  set (l' := {| is_exiting := true; all_filelocks := all_filelocks l1; objects := objects l1;
                next_object := next_object l1 |}).
  assert (objects l' = ∅) as Hem.
  { apply map_empty. intros id. cbn. rewrite Ho. case_bool_decide as Hin; [done|].
    apply eq_None_not_Some. by rewrite (ok_objects l Hok). }
  exists l', s1. split_and!; [|by rewrite Hc, Hh|done| |].
  - unfold filelock_atexit. rewrite He. eapply runs_bind; [exact Hr|]. apply runs_ret.
  - exists s1. split; [|done]. unfold filelock_atexit. cbn. apply runs_ret.
  - intros file timeout s2 r l2 s3 H.
    destruct (create_runs_inv file timeout l' s2 s3 r l2 H) as (_ & _ & Hr'); [by rewrite Hem|].
    destruct r; [by destruct Hr'|]. destruct Hr' as [-> _]. by rewrite Hem.
Qed.

(** ** A system to try it on

    One data file [d] that another process, 1234, may have locked; the answer of
    [kill] says whether that process lives, is gone, or belongs to another
    user. *)

Record toy := { clk : Z; present : bool; signal : option errno }.

Definition toy_lock : bytes := str "d.lock".
Definition toy_temp : bytes := str "d.tmp-abc123".

Arguments toy_lock : simpl never.

Definition toy_present (b : bool) (w : toy) : toy := {| clk := clk w; present := b; signal := signal w |}.

#[export] Instance toy_system : System toy := fun c w =>
  match c return ans c * toy with
  | Mkstemp _ => ((toy_temp, Some 3), w)
  | Write _ data => (Some (zlen data), w)
  | Close _ => (tt, w)
  | Lstat _ | Fstat _ => (Some (Stat false 0 0), w)
  | Open _ => (Some 4, w)
  | Read _ _ => (Some (pid_text 1234), w)
  | Link _ p => if bytes_eqb p toy_lock then (negb (present w), toy_present true w) else (true, w)
  | Unlink p => (true, if bytes_eqb p toy_lock then toy_present false w else w)
  | Rmdir _ => (false, w)
  | Time => (0, w)
  | SystemClock => (clk w, w)
  | Getpid => (77, w)
  | Kill _ => (signal w, w)
  | Waitpid _ => (false, w)
  | SleepMs ms => (tt, {| clk := clk w + Z.max 0 ms * 1000000; present := present w; signal := signal w |})
  end.

#[export] Instance toy_timed : Timed toy.
Proof.
  refine {| clock := clk; lost := fun _ => O |}; try done.
  - intros [] w; cbn; try lia; by destruct (bytes_eqb _ _); cbn; try lia.
  - intros ms w. cbn. lia.
Defined.

Lemma toy_call c w : c <> Unlink toy_lock ->
  signal (snd (sys c w)) = signal w /\ (is_link c = false \/ present w = true -> present (snd (sys c w)) = present w).
Proof.
  intros Hc. destruct c as [| | | | | | |q p|p| | | | | | |]; try (by split); cbn.
  - destruct (bytes_eqb p toy_lock); [|by split]. cbn. split; [done|]. intros [?|E]; [done|by rewrite E].
  - destruct (bytes_eqb_spec p toy_lock); [congruence|by split].
Qed.

#[export] Instance toy_held : Held toy toy_lock (str "d.tmp-XXXXXX") toy_temp 1234.
Proof.
  refine {| held := fun w => present w = true /\ signal w = None |}.
  - intros c w Hc [H1 H2]. destruct (toy_call c w Hc) as [E1 E2]. rewrite E1, E2; auto.
  - intros t w [H _]. cbn. by rewrite H.
  - intros w _. by eexists.
  - intros w _. by eexists.
  - by intros w [_ H].
  - intros w _. split_and!; by eexists.
Defined.

#[export] Instance toy_stale : Stale toy toy_lock (str "d.tmp-XXXXXX") toy_temp 1234.
Proof.
  refine {| gone := fun w => present w = true /\ signal w = Some ESRCH; free := fun w => present w = false |}.
  - intros c w Hc [H1 H2]. destruct (toy_call c w Hc) as [E1 E2]. rewrite E1, E2; auto.
  - done.
  - intros c w Hc H. destruct c; try done. cbn. by destruct (bytes_eqb _ _).
  - intros w H. cbn. by rewrite H.
  - intros w [H _]. cbn. by rewrite H.
  - intros w _. by eexists.
  - intros w _. by eexists.
  - by intros w [_ H].
  - intros w _. split_and!; by eexists.
Defined.

Definition toy_at (b : bool) (e : option errno) : toy := {| clk := 0; present := b; signal := e |}.

Definition toy_run (timeout : Z) (w : toy) : option (option bool * toy) :=
  run 2000 (filelock_lock toy_lock (str "d.tmp-XXXXXX") timeout) w.

Example toy_held_run : toy_run 120 (toy_at true None) =
  Some (Some false, {| clk := 120000000; present := true; signal := None |}).
Proof. vm_compute. reflexivity. Qed.

(** A lock whose process lives but may not be signalled, as that of another user
    may not, is waited for in vain at first ([sleep_duration_ms] is zero), taken
    to be gone in the second round, and removed. *)
Theorem filelock_takes_foreign :
  toy_run 0 (toy_at true (Some EPERM)) = Some (Some false, toy_at true (Some EPERM)) /\
  toy_run 100 (toy_at true (Some EPERM)) = Some (Some true, toy_at true (Some EPERM)).
Proof. split; vm_compute; reflexivity. Qed.

Lemma filelock_lock_ends_witness :
  0 <= 100 < 2 ^ 31 /\ exists r tr w',
    runs (filelock_lock toy_lock (str "d.tmp-XXXXXX") 100) ((toy_at true None, []) : traced toy) (Some r) (w', tr) /\
    r = linked toy_lock tr /\
    unlinked_last (fst (fst (sys (Mkstemp (str "d.tmp-XXXXXX")) (toy_at true None)))) tr.
Proof. split; [lia|]. apply (filelock_lock_ends toy_lock (str "d.tmp-XXXXXX") 100). lia. Defined.

Lemma filelock_lock_held_witness :
  held (toy_at true None) /\ exists w',
    runs (filelock_lock toy_lock (str "d.tmp-XXXXXX") 100) (toy_at true None) (Some false) w' /\
    held w' /\ clock (toy_at true None) + 100 * ns_per_ms <= clock w'.
Proof.
  split; [done|]. apply (filelock_lock_held toy_lock (str "d.tmp-XXXXXX") toy_temp 1234 100);
    [lia|done|lia|done].
Defined.

Lemma filelock_lock_stale_witness :
  gone (toy_at true (Some ESRCH)) /\ exists w',
    runs (filelock_lock toy_lock (str "d.tmp-XXXXXX") 0) (toy_at true (Some ESRCH)) (Some false) w' /\ free w'.
Proof.
  split; [done|]. apply (filelock_lock_stale toy_lock (str "d.tmp-XXXXXX") toy_temp 1234 0 (toy_at true (Some ESRCH)));
    [lia|done|lia|done].
Defined.

Lemma filelock_paths_witness :
  zlen (repeat 7 24) = paths_len (str "d") /\ exists paths, make_paths (str "d") (repeat 7 24) = Some paths /\
    string_at 0 paths = str "d" /\ string_at (lock_off (str "d")) paths = str "d" ++ LOCK_NAME /\
    string_at (temp_off (str "d")) paths = str "d" ++ TEMP_NAME.
Proof.
  split; [reflexivity|]. apply filelock_paths; [repeat (constructor; [discriminate|]); constructor|vm_compute; reflexivity|reflexivity].
Defined.

Definition no_locks : Locks :=
  {| is_exiting := false; all_filelocks := []; objects := ∅; next_object := 0 |}.

(** A first lock is taken. *)
Definition one_lock : Locks :=
  {| is_exiting := false; all_filelocks := [0];
     objects := {[0 := {| fl_file := str "d"; fl_lock := str "d" ++ LOCK_NAME; locked := true |}]};
     next_object := 1 |}.

Lemma one_lock_history : history (W := toy) [(0, str "d" ++ LOCK_NAME)] one_lock.
Proof.
  eapply (history_create [] no_locks (str "d") 0 (toy_at false None, []) _ (Some 0) one_lock);
    [apply history_new|].
  eapply run_runs with (fuel := 100%nat). vm_compute. reflexivity.
Defined.

Lemma filelock_exit_witness :
  exists l' s', runs (filelock_atexit one_lock) ((toy_at true None, []) : traced toy) (Some l') s' /\
    calls (snd s') = rev ((fun h => Unlink (snd h)) <$> [(0, str "d" ++ LOCK_NAME)]) ++ calls [] /\
    objects l' = ∅ /\
    (exists s'', runs (filelock_atexit l') s' (Some l') s'' /\ calls (snd s'') = calls (snd s')) /\
    forall file timeout (s1 : traced toy) r l2 s2,
      runs (filelock_create_timeout file timeout l') s1 (Some (r, l2)) s2 -> r = None /\ objects l2 = ∅.
Proof. apply (filelock_exit [(0, str "d" ++ LOCK_NAME)] one_lock), one_lock_history. Defined.
