(* ===== verification/FilelockShared.v ===== *)
(** * Processes that share a lock file

    Several processes run the attempts of [Filelock] on one file, interleaved at
    their system calls, on a kernel with names, inodes and open files.  Attempts
    that do not overlap give the lock to one process at a time, whatever
    processes are killed, however releases are timed and whichever calls fail,
    except the ones that look at the lock of another process; when one of
    these fails, or when two attempts overlap, two processes can get it. *)

From S2P Require Import Prelude CText Posix Filelock.

(** ** The kernel *)

Inductive node := Dir | File (ino : Z).

Record inode := Inode { contents : bytes; owner_uid : Z; atime : Z; mtime : Z }.

Record kernel := {
  names : gmap bytes node;
  inodes : gmap Z inode;
  files : gmap Z Z;          (* open files: inodes *)
  fresh_id : Z;              (* the next inode or descriptor *)
  now_ns : Z;
  alive : gset Z;
  uid_of : Z -> Z;
}.

Definition with_names (f : gmap bytes node -> gmap bytes node) (k : kernel) : kernel :=
  {| names := f (names k); inodes := inodes k; files := files k; fresh_id := fresh_id k;
     now_ns := now_ns k; alive := alive k; uid_of := uid_of k |}.

Definition with_alive (f : gset Z -> gset Z) (k : kernel) : kernel :=
  {| names := names k; inodes := inodes k; files := files k; fresh_id := fresh_id k;
     now_ns := now_ns k; alive := f (alive k); uid_of := uid_of k |}.

Definition with_time (t : Z) (k : kernel) : kernel :=
  {| names := names k; inodes := inodes k; files := files k; fresh_id := fresh_id k;
     now_ns := t; alive := alive k; uid_of := uid_of k |}.

Definition stat_of (f : inode) : stat := Stat false (atime f) (mtime f).

(** What the environment decides about a call: whether it fails without need
    ([kill] with [EPERM]), and the name that [mkstemp] finds. *)
Record choice := { fails : bool; temp_name : bytes }.

(** [mkstemp] has replaced the six last characters of the template. *)
Definition name_ok (template name : bytes) (k : kernel) : bool :=
  bytes_eqb (take (length template - 6) name) (take (length template - 6) template) &&
  (zlen name =? zlen template) && bool_decide (names k !! name = None).

(** The files of [mkstemp] can be opened by their owner only. *)
Definition may_open (i : Z) (f : inode) (k : kernel) : bool :=
  (uid_of k i =? 0) || (uid_of k i =? owner_uid f).

Definition may_signal (i pid : Z) (k : kernel) : bool :=
  (uid_of k i =? 0) || (uid_of k i =? uid_of k pid).

(** The call [c] of the process [i]. *)
Definition kernel_call (i : Z) (ch : choice) (c : call) (k : kernel) : ans c * kernel :=
  match c return ans c * kernel with
  | Mkstemp t =>
      if fails ch || negb (name_ok t (temp_name ch) k) then ((t, None), k)
      else
        let n := fresh_id k in
        let sec := now_ns k / 1000000000 in
        ((temp_name ch, Some n),
         {| names := <[temp_name ch := File n]> (names k);
            inodes := <[n := Inode [] (uid_of k i) sec sec]> (inodes k);
            files := <[n := n]> (files k); fresh_id := n + 1;
            now_ns := now_ns k; alive := alive k; uid_of := uid_of k |})
  | Write fd data =>
      match (if fails ch then None else n ← files k !! fd; f ← inodes k !! n; Some (n, f)) with
      | Some (n, f) =>
          (Some (zlen data),
           {| names := names k;
              inodes := <[n := Inode (contents f ++ data) (owner_uid f) (atime f) (now_ns k / 1000000000)]> (inodes k);
              files := files k; fresh_id := fresh_id k; now_ns := now_ns k; alive := alive k;
              uid_of := uid_of k |})
      | None => (None, k)
      end
  | Close _ => (tt, k)
  | Lstat p =>
      (if fails ch then None
       else match names k !! p with
            | Some Dir => Some (Stat true 0 0)
            | Some (File n) => stat_of <$> inodes k !! n
            | None => None
            end, k)
  | Fstat fd => (if fails ch then None else n ← files k !! fd; stat_of <$> inodes k !! n, k)
  | Open p =>
      match (if fails ch then None else names k !! p) with
      | Some (File n) =>
          match inodes k !! n with
          | Some f =>
              if may_open i f k then
                (Some (fresh_id k),
                 {| names := names k; inodes := inodes k; files := <[fresh_id k := n]> (files k);
                    fresh_id := fresh_id k + 1; now_ns := now_ns k; alive := alive k; uid_of := uid_of k |})
              else (None, k)
          | None => (None, k)
          end
      | _ => (None, k)
      end
  | Read fd count =>
      (if fails ch then None
       else n ← files k !! fd; f ← inodes k !! n; Some (take (Z.to_nat count) (contents f)), k)
  | Link p q =>
      if fails ch then (false, k)
      else match names k !! p, names k !! q with
           | Some (File n), None => (true, with_names <[q := File n]> k)
           | _, _ => (false, k)
           end
  | Unlink p =>
      if fails ch then (false, k)
      else match names k !! p with
           | Some (File _) => (true, with_names (delete p) k)
           | _ => (false, k)
           end
  | Rmdir p =>
      if fails ch then (false, k)
      else match names k !! p with
           | Some Dir => (true, with_names (delete p) k)
           | _ => (false, k)
           end
  | Time => (now_ns k / 1000000000, k)
  | SystemClock => (now_ns k, k)
  | Getpid => (i, k)
  | Kill pid =>
      (if fails ch then Some EPERM
       else if bool_decide (pid ∈ alive k) then if may_signal i pid k then None else Some EPERM
       else Some ESRCH, k)
  | Waitpid _ => (false, k)
  | SleepMs ms => (tt, with_time (now_ns k + Z.max 0 ms * ns_per_ms) k)
  end.

(** ** Processes *)

Inductive phase :=
  | Idle
  | Attempting (m : prog (option bool))
  | Holding
  | Releasing (m : prog unit).

(** [owners] is a record of who has linked the lock file and has not begun to
    remove it; the processes do not see it. *)
Record world := { kern : kernel; procs : gmap Z phase; owners : gset Z }.

Inductive action :=
  | Spawn (i : Z)
  | Die (i : Z)
  | Start (i : Z) (timeout : Z)
  | Run (i : Z) (ch : choice)
  | Finish (i : Z)
  | Release (i : Z)
  | Tick (ns : Z).

Section world.
Context (file : bytes).

Definition lock_path : bytes := file ++ LOCK_NAME.
Definition template_path : bytes := file ++ TEMP_NAME.

Definition set_phase (i : Z) (p : phase) (w : world) : world :=
  {| kern := kern w; procs := <[i := p]> (procs w); owners := owners w |}.

(** Linking the lock file makes an owner. *)
Definition owners_after (i : Z) (c : call) (k : kernel) (k' : kernel) (o : gset Z) : gset Z :=
  match c with
  | Link _ q =>
      if bytes_eqb q lock_path && bool_decide (names k !! q = None) && bool_decide (is_Some (names k' !! q))
      then {[i]} ∪ o else o
  | _ => o
  end.

Definition do_action (a : action) (w : world) : option world :=
  match a with
  | Spawn i =>
      if bool_decide (procs w !! i = None) && (0 <? i) && (i <? 10 ^ 7) then
        Some {| kern := with_alive (union {[i]}) (kern w); procs := <[i := Idle]> (procs w); owners := owners w |}
      else None
  | Die i =>
      Some {| kern := with_alive (fun s => s ∖ {[i]}) (kern w); procs := delete i (procs w);
              owners := owners w ∖ {[i]} |}
  | Start i timeout =>
      match procs w !! i with
      | Some Idle => Some (set_phase i (Attempting (filelock_lock lock_path template_path timeout)) w)
      | _ => None
      end
  | Run i ch =>
      match procs w !! i with
      | Some (Attempting (Call c m)) =>
          let '(a, k) := kernel_call i ch c (kern w) in
          Some {| kern := k; procs := <[i := Attempting (m a)]> (procs w);
                  owners := owners_after i c (kern w) k (owners w) |}
      | Some (Attempting (Iter body s m)) => Some (set_phase i (Attempting (unfold_iter body s m)) w)
      | Some (Releasing (Call c m)) =>
          let '(a, k) := kernel_call i ch c (kern w) in
          Some {| kern := k; procs := <[i := Releasing (m a)]> (procs w); owners := owners w ∖ {[i]} |}
      | _ => None
      end
  | Finish i =>
      match procs w !! i with
      | Some (Attempting (Ret (Some true))) => Some (set_phase i Holding w)
      | Some (Attempting (Ret _)) => Some (set_phase i Idle w)
      | Some (Releasing (Ret _)) => Some (set_phase i Idle w)
      | _ => None
      end
  | Release i =>
      match procs w !! i with
      | Some Holding => Some (set_phase i (Releasing (bind (call_ (Unlink lock_path)) (fun _ => Ret tt))) w)
      | _ => None
      end
  | Tick ns => if 0 <=? ns then Some {| kern := with_time (now_ns (kern w) + ns) (kern w); procs := procs w; owners := owners w |} else None
  end.

Definition is_attempting (p : phase) : bool := match p with Attempting _ => true | _ => false end.

(** The calls with which a process looks at the lock of another. *)
Definition looks (c : call) : bool := match c with Open _ | Read _ _ | Kill _ => true | _ => false end.

(** The call a process is about to make. *)
Definition next_call (i : Z) (w : world) : option call :=
  match procs w !! i with
  | Some (Attempting (Call c _)) => Some c
  | Some (Releasing (Call c _)) => Some c
  | _ => None
  end.

(** The call is one that looks and fails without need. *)
Definition fails_to_look (i : Z) (ch : choice) (w : world) : bool :=
  match next_call i w with Some c => looks c && fails ch | None => false end.

(** No process is attempting. *)
Definition quiet (w : world) : Prop :=
  forall i p, procs w !! i = Some p -> is_attempting p = false.

(** A step in which attempts do not overlap and no look at a lock fails. *)
Definition serial_step (w w' : world) : Prop :=
  exists a, do_action a w = Some w' /\
    match a with Start _ _ => quiet w | Run i ch => fails_to_look i ch w = false | _ => True end.

Definition holds (w : world) (i : Z) : Prop := procs w !! i = Some Holding.
End world.

Arguments quiet w /.

(** ** The state of the lock file *)

(** What always holds of the kernel and the owners: at most one owner, alive,
    whose process id is the text of the lock file. *)
Record lock_inv (file : bytes) (g : kernel * gset Z) : Prop := {
  inv_owner i : i ∈ snd g -> i ∈ alive (fst g) /\ 0 < i < 10 ^ 7 /\
    exists n f, names (fst g) !! lock_path file = Some (File n) /\ inodes (fst g) !! n = Some f /\
      contents f = pid_text i /\ owner_uid f = uid_of (fst g) i;
  inv_unique i j : i ∈ snd g -> j ∈ snd g -> i = j;
  inv_names p n : names (fst g) !! p = Some (File n) -> n < fresh_id (fst g);
  inv_files fd n : files (fst g) !! fd = Some n -> fd < fresh_id (fst g);
  inv_user i j : uid_of (fst g) i = uid_of (fst g) j;
}.

Section shared.
Context (file : bytes) (i : Z) (pid_ok : 0 < i < 10 ^ 7).

Abbreviation G := (kernel * gset Z)%type.
Abbreviation L := (lock_path file).

Definition exec (c : call) (g : G) (a : ans c) (g' : G) : Prop :=
  exists ch, (looks c && fails ch = false /\ kernel_call i ch c (fst g) = (a, fst g')) /\
    snd g' = owners_after file i c (fst g) (fst g') (snd g).

(** What the other processes do while this one is the only one to attempt. *)
Record rely (g g' : G) : Prop := {
  rely_inv : lock_inv file g';
  rely_inodes : inodes (fst g') = inodes (fst g);
  rely_files fd n : files (fst g) !! fd = Some n -> files (fst g') !! fd = Some n;
  rely_uid : uid_of (fst g') = uid_of (fst g);
  rely_time : now_ns (fst g) <= now_ns (fst g');
  rely_owners : snd g' ⊆ snd g;
  rely_self : i ∈ snd g -> i ∈ snd g';
  rely_alive : i ∈ alive (fst g) -> i ∈ alive (fst g');
  rely_names : names (fst g') = names (fst g) \/ (names (fst g') = delete L (names (fst g)) /\ i ∉ snd g);
}.

Record guar (g g' : G) : Prop := {
  guar_inv : lock_inv file g';
  guar_others j : j <> i -> j ∈ snd g' <-> j ∈ snd g;
  guar_alive : alive (fst g') = alive (fst g);
}.

Abbreviation safe := (Gsafe exec rely guar).
Abbreviation stable := (stable rely).

(** This process is alive and not an owner. *)
Record waiting (g : G) : Prop := {
  w_inv : lock_inv file g;
  w_alive : i ∈ alive (fst g);
  w_self : i ∉ snd g;
}.

Lemma waiting_stable : stable waiting.
Proof.
  intros g g' [Hi Ha Hs] Hr. constructor; [by apply Hr|by apply (rely_alive _ _ Hr)|].
  intros H. by apply Hs, (rely_owners _ _ Hr).
Qed.

(** Calls that change neither names nor inodes. *)
Definition mild (c : call) : bool :=
  match c with
  | Mkstemp _ | Write _ _ | Link _ _ | Unlink _ | Rmdir _ => false
  | _ => true
  end.

Lemma mild_rely c g a g' :
  mild c = true -> lock_inv file g -> exec c g a g' -> rely g g' /\ guar g g' /\ snd g' = snd g.
Proof.
  intros Hc Hi (ch & [Hlook E] & Eo). destruct g as [k o], g' as [k' o']. cbn in E, Eo.
  assert (o' = o) as -> by (destruct c; done). clear Eo.
  assert (names k' = names k /\ inodes k' = inodes k /\ uid_of k' = uid_of k /\ alive k' = alive k /\
    now_ns k <= now_ns k' /\ fresh_id k <= fresh_id k' /\
    (forall fd n, files k !! fd = Some n -> files k' !! fd = Some n) /\
    (forall fd n, files k' !! fd = Some n -> fd < fresh_id k')) as (En & Ei & Eu & Ea & Et & Ef & Ed & Ed').
  { pose proof (inv_files _ _ Hi) as Hf. cbn in Hf.
    destruct c as [| | | | |path| | | | | | | | | |]; try done; cbn in E.
    4: { (* Open *)
      cbn in Hlook. rewrite Hlook in E. destruct (names k !! path) as [[|n]|]; [|destruct (inodes k !! n) as [f|];
        [destruct (may_open i f k)|]|]; simplify_eq; cbn; split_and!; try done; try lia.
      - intros fd n' H. rewrite lookup_insert_ne; [done|]. apply Hf in H. lia.
      - intros fd n'. destruct (decide (fd = fresh_id k)) as [->|]; [lia|].
        rewrite lookup_insert_ne by done. intros H. apply Hf in H. lia. }
    all: simplify_eq; cbn; split_and!; try done; try lia; unfold ns_per_ms; lia. }
  assert (lock_inv file (k', o)) as Hi'.
  { destruct Hi as [Ho Hu Hn _ Hs]. cbn in *. constructor; cbn; rewrite ?En, ?Ei, ?Eu, ?Ea; try done.
    intros p n H. apply Hn in H. lia. }
  split; [|split; [|done]]; constructor; cbn; try done; [by rewrite Ea|by left].
Qed.

Lemma safe_mild {A} c (m : ans c -> prog A) (P : G -> Prop) (Q : A -> G -> Prop) g :
  mild c = true -> stable P -> (forall g, P g -> lock_inv file g) -> P g ->
  (forall a g g', P g -> exec c g a g' -> P g' -> snd g' = snd g -> safe Q (m a) g') ->
  safe Q (bind (call_ c) m) g.
Proof.
  intros Hc Hs Hi HP Hm. apply (Gsafe_call _ _ _ P); [done|done|].
  intros g0 a g' H0 He. destruct (mild_rely c g0 a g' Hc (Hi _ H0) He) as (Hr & Hg & Ho).
  split; [done|]. eapply Hm; [exact H0|exact He|by eapply Hs|done].
Qed.

(** ** Judging the lock file *)

Lemma pid_text_short j : 0 < j < 10 ^ 7 -> take 15 (pid_text j) = pid_text j.
Proof.
  intros Hj. apply take_ge. unfold pid_text. rewrite length_app, length_take. cbn [length]. lia.
Qed.

Section judge.
Context (P : G -> Prop) (P_stable : stable P) (P_waiting : forall g, P g -> waiting g).

Lemma P_inv g : P g -> lock_inv file g.
Proof. intros H. by apply P_waiting. Qed.

(** [P] and every owner satisfies [R]. *)
Definition with_owner (R : Z -> Prop) (g : G) : Prop := P g /\ forall j, j ∈ snd g -> R j.

Lemma with_owner_stable R : stable (with_owner R).
Proof.
  intros g g' [HP HR] Hr. split; [by eapply P_stable|].
  intros j Hj. by apply HR, (rely_owners _ _ Hr).
Qed.

Abbreviation nobody := (with_owner (fun _ => False)).

Lemma safe_owner {A} c (m : ans c -> prog A) R (Q : A -> G -> Prop) g :
  mild c = true -> with_owner R g ->
  (forall a g g', with_owner R g -> exec c g a g' -> with_owner R g' -> snd g' = snd g -> safe Q (m a) g') ->
  safe Q (bind (call_ c) m) g.
Proof.
  intros Hc HP Hm. apply (safe_mild c m (with_owner R)); [done|apply with_owner_stable| |done|done].
  intros g0 [H _]. by apply P_inv.
Qed.

Lemma ret_owner {A} (a : A) (Q : A -> G -> Prop) R g :
  (forall g, with_owner R g -> Q a g) -> (forall g, Q a g -> with_owner R g) -> with_owner R g ->
  safe Q (Ret a) g.
Proof.
  intros H1 H2 HR. apply Gsafe_ret; [|by apply H1].
  intros g0 g' H Hr. eapply H1, with_owner_stable; [by apply H2|done].
Qed.

(** A process of the same user that owns the lock can be signalled. *)
Lemma kill_owner ch pid g a k : P g -> pid ∈ snd g -> fails ch = false -> kernel_call i ch (Kill pid) (fst g) = (a, k) -> a = None.
Proof.
  intros HP Hj Hch E. cbn in E. rewrite Hch in E. injection E as <- _.
  destruct (inv_owner _ _ (P_inv _ HP) pid Hj) as (Ha & _).
  rewrite bool_decide_eq_true_2 by done. unfold may_signal.
  by rewrite (inv_user _ _ (P_inv _ HP) i pid), Z.eqb_refl, orb_true_r.
Qed.

Lemma isAlive_safe pid exited g :
  with_owner (eq pid) g ->
  safe (fun (r : bool * bool) => with_owner (fun j => fst r = true /\ j = pid)) (isAlive pid exited) g.
Proof.
  intros H. unfold isAlive, getExitCode.
  assert (forall ex g, with_owner (eq pid) g ->
    safe (fun (r : bool * bool) => with_owner (fun j => fst r = true /\ j = pid))
      (bind (call_ (Kill pid)) (fun r => Ret (bool_decide (r = None), ex))) g) as Hkill.
  { intros ex g0 H0. apply (safe_owner _ _ (eq pid)); [done|done|].
    intros r g1 g2 [HP1 H1] (ch & [Hlook E] & _) H2 Ho. apply Gsafe_ret; [apply with_owner_stable|].
    cbn [fst]. split; [apply H2|]. intros j Hj. rewrite Ho in Hj. pose proof (H1 _ Hj) as <-.
    split; [|done]. apply bool_decide_eq_true. by eapply kill_owner; [exact HP1| |exact Hlook|exact E]. }
  destruct exited; [by apply Hkill|].
  apply (safe_owner _ _ (eq pid)); [done|done|]. intros ex g1 g2 _ _ H2 _. by apply Hkill.
Qed.

(** The deadline has passed or nobody owns the lock. *)
Definition waited (pid until : Z) (g : G) : Prop :=
  with_owner (eq pid) g /\ (until <= now_ns (fst g) \/ snd g = ∅).

Lemma waited_stable pid until : stable (waited pid until).
Proof.
  intros g g' [H Hw] Hr. split; [by eapply with_owner_stable|].
  pose proof (rely_time _ _ Hr). pose proof (rely_owners _ _ Hr).
  destruct Hw; [left; lia|right; set_solver].
Qed.

Lemma wait_round_safe pid until exited g :
  with_owner (eq pid) g ->
  safe (fun r g => match r with inl _ => with_owner (eq pid) g | inr _ => waited pid until g end)
    (wait_round pid until exited) g.
Proof.
  intros H. unfold wait_round. apply (safe_owner _ _ (eq pid)); [done|done|].
  intros now g0 g1 H0 (ch & [Hlook E] & _) H1 _. injection E as <- Ek.
  destruct (Z.ltb_spec (now_ns (fst g0)) until) as [Hlt|Hge].
  2: { apply Gsafe_ret; [apply waited_stable|]. split; [done|]. left. by rewrite <- Ek. }
  eapply Gsafe_bind; [by apply isAlive_safe|]. intros [[] ex] g2 H2; cbn [fst] in H2.
  - apply (safe_owner _ _ (eq pid)); [done| |].
    { destruct H2 as [HP H2]. split; [done|]. intros j Hj. by destruct (H2 j Hj). }
    intros _ g3 g4 _ _ H4 _. by apply Gsafe_ret; [apply with_owner_stable|].
  - apply Gsafe_ret; [apply waited_stable|]. destruct H2 as [HP H2].
    split; [split; [done|]; intros j Hj; by destruct (H2 j Hj)|].
    right. apply elem_of_equiv_empty_L. intros j Hj. by destruct (H2 j Hj).
Qed.

Lemma wait_for_kernel_safe pid d g :
  0 < pid -> with_owner (eq pid) g ->
  safe (fun ready => with_owner (fun j => ready = false /\ j = pid)) (wait_for_kernel pid d) g.
Proof.
  intros Hp H. unfold wait_for_kernel. destruct (Z.eqb_spec pid (-1)); [lia|].
  apply (safe_owner _ _ (eq pid)); [done|done|]. intros now g0 g1 _ _ H1 _. cbv zeta.
  eapply (Gsafe_bind _ _ _ (fun _ => waited pid (now + d * ns_per_ms))).
  - apply (Gsafe_loop _ _ _ (fun _ => with_owner (eq pid))); [|intros _; apply waited_stable| |done].
    + intros _. apply with_owner_stable.
    + intros ex g2 H2. by apply wait_round_safe.
  - intros _ g2 H2. apply (safe_mild _ _ (waited pid (now + d * ns_per_ms)));
      [done|apply waited_stable|intros ? [[? _] _]; by apply P_inv|done|].
    intros t g3 g4 [[HP Ho] Hw] (ch & [Hlook E] & _) [[HP4 Ho4] _] Eo. injection E as <- _.
    apply Gsafe_ret; [apply with_owner_stable|]. split; [done|]. intros j Hj. rewrite Eo in Hj.
    split; [|symmetry; by apply Ho]. destruct Hw as [Hw|Hw]; [by apply Z.ltb_ge|].
    rewrite Hw in Hj. set_solver.
Qed.

Lemma check_pid_safe pid d g :
  with_owner (eq pid) g ->
  safe (fun (r : Freshness * bool) => with_owner (fun _ => fst r = FRESHNESS_FRESH)) (check_pid pid d) g.
Proof.
  intros H. unfold check_pid. destruct (Z.ltb_spec 0 pid) as [Hp|Hp].
  2: { apply Gsafe_ret; [apply with_owner_stable|]. destruct H as [HP Ho]. split; [done|].
       intros j Hj. destruct (inv_owner _ _ (P_inv _ HP) j Hj) as (_ & ? & _). specialize (Ho _ Hj). lia. }
  apply (safe_owner _ _ (eq pid)); [done|done|]. intros r g0 g1 [HP Ho] (ch & [Hlook E] & _) H1 Eo.
  destruct (_ || _) eqn:Er.
  - eapply Gsafe_bind; [by apply wait_for_kernel_safe|]. intros ready g2 [HP2 H2].
    apply Gsafe_ret; [apply with_owner_stable|]. split; [done|]. intros j Hj.
    by destruct (H2 j Hj) as [-> _].
  - assert (forall q g, with_owner (eq pid) g -> snd g = snd g0 ->
      safe (fun (r : Freshness * bool) => with_owner (fun _ => fst r = FRESHNESS_FRESH)) (Ret q) g) as Hret.
    { intros q g2 [HP2 _] Eo2. apply Gsafe_ret; [apply with_owner_stable|]. split; [done|].
      intros j Hj. exfalso. rewrite Eo2 in Hj. pose proof (Ho _ Hj) as <-.
      by rewrite (kill_owner ch pid g0 r _ HP Hj Hlook E) in Er. }
    destruct (bool_decide (r = Some ESRCH)); by apply Hret.
Qed.

(** The open file has the process id of every owner. *)
Definition opened (fd : Z) (g : G) : Prop :=
  P g /\ forall j, j ∈ snd g -> exists n f,
    files (fst g) !! fd = Some n /\ inodes (fst g) !! n = Some f /\ contents f = pid_text j.

Lemma opened_stable fd : stable (opened fd).
Proof.
  intros g g' [HP Ho] Hr. split; [by eapply P_stable|]. intros j Hj.
  destruct (Ho j) as (n & f & Hn & Hf & Hc); [by apply (rely_owners _ _ Hr)|].
  exists n, f. rewrite (rely_inodes _ _ Hr). split_and!; [by apply (rely_files _ _ Hr)|done|done].
Qed.

Lemma read_lock_safe g :
  P g -> safe (fun (r : Z * Z * Z) => with_owner (eq (fst (fst r)))) (read_lock L) g.
Proof.
  intros H. unfold read_lock. apply (safe_mild _ _ P); [done|done|apply P_inv|done|].
  intros now g0 g1 _ _ H1 _. cbv zeta. apply (safe_mild _ _ P); [done|done|apply P_inv|done|].
  intros r g2 g3 H2 (ch & [Hlook E] & _) H3 Eo. cbn in Hlook. destruct r as [fd|].
  - apply (safe_mild _ _ (opened fd)); [done|apply opened_stable|intros ? [? _]; by apply P_inv| |].
    { split; [done|]. intros j Hj. rewrite Eo in Hj.
      destruct (inv_owner _ _ (P_inv _ H2) j Hj) as (_ & _ & n & f & En & Ei & Ec & _). cbn in E.
      rewrite Hlook, En, Ei in E. destruct (may_open i f (fst g2)); [|done]. injection E as <- Ek.
      exists n, f. rewrite <- Ek. cbn. by rewrite lookup_insert_eq. }
    intros buf g4 g5 [_ H4] (ch' & [Hlook' E'] & _) [H5 _] Eo'. cbv zeta. cbn in Hlook'.
    assert (with_owner (eq (atoi (c_str (default [] buf)))) g5) as H5'.
    { split; [done|]. intros j Hj. rewrite Eo' in Hj. destruct (H4 j Hj) as (n & f & En & Ei & Ec).
      destruct (inv_owner _ _ (P_inv _ H5) j) as (_ & ? & _); [by rewrite Eo'|].
      cbn in E'. rewrite Hlook', En in E'. cbn in E'. rewrite Ei in E'. cbn in E'. injection E' as <- _.
      cbn [from_option id]. by rewrite Ec, pid_text_short, atoi_pid_text by done. }
    eapply safe_owner; [reflexivity|exact H5'|]. intros st g6 g7 _ _ H7 _.
    eapply safe_owner; [reflexivity|exact H7|]. intros _ g8 g9 _ _ H9 _.
    apply Gsafe_ret; [apply with_owner_stable|]. by destruct st.
  - apply Gsafe_ret; [apply with_owner_stable|]. split; [done|]. intros j Hj. exfalso. rewrite Eo in Hj.
    destruct (inv_owner _ _ (P_inv _ H2) j Hj) as (_ & _ & n & f & En & Ei & _ & Eu). cbn in E.
    rewrite Hlook, En, Ei in E. unfold may_open in E.
    by rewrite Eu, (inv_user _ _ (P_inv _ H2) i j), Z.eqb_refl, orb_true_r in E.
Qed.

Lemma freshness_safe d g :
  P g -> safe (fun (r : Freshness * bool) => with_owner (fun _ => fst r = FRESHNESS_FRESH)) (freshness L d) g.
Proof.
  intros H. unfold freshness. eapply Gsafe_bind; [by apply read_lock_safe|].
  intros [[lockpid now] mtime] g1 H1. eapply Gsafe_bind; [by apply check_pid_safe|].
  intros [fresh slept] g2 [HP H2]. apply Gsafe_ret; [apply with_owner_stable|]. split; [done|].
  intros j Hj. cbn [fst] in *. by rewrite (H2 j Hj).
Qed.
End judge.

(** ** Taking the lock *)

Lemma inv_delete p k o :
  lock_inv file (k, o) -> p <> L \/ o = ∅ -> lock_inv file (with_names (delete p) k, o).
Proof.
  intros [Ho Hu Hn Hf Hs] Hp. constructor; cbn in *; [|done| |done|done].
  - intros j Hj. destruct (Ho j Hj) as (? & ? & n & f & ? & ? & ? & ?). split; [done|]. split; [done|].
    exists n, f. split_and!; try done. destruct Hp as [Hp|Hp]; [by rewrite lookup_delete_ne|set_solver].
  - intros q n H. apply lookup_delete_Some in H as [_ H]. by eapply Hn.
Qed.

(** Removing another name, or the lock file that nobody owns. *)
Lemma safe_remove {A} c p (m : ans c -> prog A) (P P' : G -> Prop) (Q : A -> G -> Prop) g :
  c = Unlink p \/ c = Rmdir p -> stable P ->
  (forall g, P g -> lock_inv file g /\ (p <> L \/ snd g = ∅)) -> P g ->
  (forall g, P g -> P' g) -> (forall k o, P (k, o) -> P' (with_names (delete p) k, o)) ->
  (forall a g, lock_inv file g -> P' g -> safe Q (m a) g) ->
  safe Q (bind (call_ c) m) g.
Proof.
  intros Hc Hs Hi HP H1 H2 Hm. apply (Gsafe_call _ _ _ P); [done|done|].
  intros [k o] a [k' o'] H0 (ch & [Hlook E] & Eo). destruct (Hi _ H0) as [Hinv Hp]. cbn in E, Eo.
  assert (o' = o /\ (k' = k \/ k' = with_names (delete p) k)) as [-> Hk].
  { destruct Hc as [->| ->]; cbn in E, Eo; (split; [done|]);
      destruct (fails ch), (names k !! p) as [[]|]; simplify_eq; auto. }
  assert (lock_inv file (k', o)) as Hinv' by (destruct Hk as [->| ->]; [done|by apply inv_delete]).
  split; [constructor; [done|done|by destruct Hk as [->| ->]]|].
  apply Hm; [done|]. destruct Hk as [->| ->]; auto.
Qed.

(** The outcome of an attempt. *)
Definition outcome (b : option bool) (g : G) : Prop :=
  lock_inv file g /\ match b with Some true => i ∈ snd g | _ => i ∉ snd g end.

Lemma outcome_stable b : stable (outcome b).
Proof.
  intros g g' [Hi Hb] Hr. split; [by apply Hr|].
  destruct b as [[]|]; [by apply (rely_self _ _ Hr)|..]; intros H; by apply Hb, (rely_owners _ _ Hr).
Qed.

Section attempt.
Context (temp : bytes) (temp_lock : temp <> L).

(** The temporary file has our process id. *)
Definition prepared (n : Z) (g : G) : Prop :=
  waiting g /\ names (fst g) !! temp = Some (File n) /\ names (fst g) !! L <> Some (File n) /\
  exists f, inodes (fst g) !! n = Some f /\ contents f = pid_text i /\ owner_uid f = uid_of (fst g) i.

Lemma prepared_stable n : stable (prepared n).
Proof.
  intros g g' (Hw & Ht & HL & f & Hf & Hc & Hu) Hr. split; [by eapply waiting_stable|].
  rewrite (rely_inodes _ _ Hr), (rely_uid _ _ Hr).
  destruct (rely_names _ _ Hr) as [->|[-> _]]; (split; [|split; [|by eauto]]); try done.
  - by rewrite lookup_delete_ne.
  - by rewrite lookup_delete_eq.
Qed.

Lemma prepared_waiting n g : prepared n g -> waiting g.
Proof. by intros [? _]. Qed.

Lemma lock_fail_safe g : waiting g -> safe outcome (lock_fail temp) g.
Proof.
  intros H. unfold lock_fail. apply (safe_remove _ temp _ waiting waiting); auto using waiting_stable.
  - intros g0 H0. split; [apply H0|by left].
  - intros k o H0. destruct H0 as [? Ha Hs]. constructor; [|done|done]. apply inv_delete; auto.
  - intros a g0 Hi H0. apply Gsafe_ret; [apply outcome_stable|]. split; [done|apply H0].
Qed.

(** Linking: the owner, if any, had the name. *)
Lemma link_exec n g a g' :
  prepared n g -> exec (Link temp L) g a g' ->
  guar g g' /\ if a : bool then i ∈ snd g' /\ lock_inv file g' else prepared n g'.
Proof.
  intros (Hw & Ht & HL & f & Hf & Hc & Hu) (ch & [Hlook E] & Eo). destruct g as [k o], g' as [k' o'].
  cbn in *. rewrite Ht in E.
  assert (forall j, j ∈ o -> is_Some (names k !! L)) as Hsome.
  { intros j Hj. destruct (inv_owner _ _ (w_inv _ Hw) j Hj) as (_ & _ & m & ? & Hm & _). by exists (File m). }
  destruct (names k !! L) as [x|] eqn:EL, (fails ch); injection E as <- <-.
  1,2,3: assert (o' = o) as ->
    by (rewrite Eo, EL; by rewrite ?andb_false_r).
  1,2,3: split; [by constructor; [apply Hw|..]|]; split; [done|]; cbn; rewrite ?EL; (split; [done|split; [done|by exists f]]).
  rewrite bytes_eqb_refl, ?EL in Eo. cbn in Eo. rewrite lookup_insert_eq in Eo. cbn in Eo. subst o'.
  assert (o = ∅) as -> by (apply elem_of_equiv_empty_L; intros j Hj; by destruct (Hsome j Hj)).
  assert (lock_inv file (with_names <[L := File n]> k, {[i]} ∪ ∅)) as Hinv.
  { destruct (w_inv _ Hw) as [Ho Hun Hn Hfd Hs]. constructor; cbn in *; [|set_solver| |done|done].
    - intros j Hj. assert (j = i) as -> by set_solver. split; [apply (w_alive _ Hw)|]. split; [done|].
      exists n, f. by rewrite lookup_insert_eq.
    - intros p m. destruct (decide (p = L)) as [->|]; [|rewrite lookup_insert_ne by done; apply Hn].
      rewrite lookup_insert_eq. intros [= <-]. by eapply Hn. }
  split; [constructor; [done|cbn; set_solver|done]|]. split; [cbn; set_solver|done].
Qed.

(** What a round leaves behind. *)
Definition round_safe (n : Z) (r : (Z * Z) + option bool) (g : G) : Prop :=
  match r with
  | inl _ => prepared n g
  | inr (Some true) => outcome (Some true) g
  | inr _ => waiting g
  end.

Lemma round_safe_stable n r : stable (round_safe n r).
Proof.
  destruct r as [st|[[]|]]; [apply prepared_stable|apply outcome_stable|apply waiting_stable..].
Qed.

Lemma safe_prepared {A} c (m : ans c -> prog A) n (Q : A -> G -> Prop) g :
  mild c = true -> prepared n g ->
  (forall a g g', prepared n g -> exec c g a g' -> prepared n g' -> snd g' = snd g -> safe Q (m a) g') ->
  safe Q (bind (call_ c) m) g.
Proof.
  intros Hc HP Hm. apply (safe_mild c m (prepared n)); [done|apply prepared_stable| |done|done].
  intros g0 [H _]. apply H.
Qed.

Lemma round_end_safe n timeout d slept g :
  prepared n g ->
  safe (round_safe n)
    (if timeout =? 0 then Ret (inr (Some false))
     else match next_wait timeout d with
          | Some next => bind (if (0 <? d) && negb slept then call_ (SleepMs d) else Ret tt)
                              (fun _ => Ret (inl next))
          | None => Ret (inr None)
          end) g.
Proof.
  intros H. assert (forall r g, prepared n g -> (forall o, r = inr o -> o <> Some true) ->
    safe (round_safe n) (Ret r) g) as Hret.
  { intros r g0 H0 Hr. apply Gsafe_ret; [apply round_safe_stable|].
    destruct r as [st|[[]|]]; try apply H0; try done. by destruct (Hr (Some true)). }
  destruct (timeout =? 0); [by apply Hret; [|intros ? [= <-]]|].
  destruct (next_wait timeout d); [|by apply Hret; [|intros ? [= <-]]].
  destruct (_ && _); [|by apply Hret]. eapply safe_prepared; [done|exact H|].
  intros. by apply Hret.
Qed.

Lemma lock_round_safe n st g : prepared n g -> safe (round_safe n) (lock_round L temp st) g.
Proof.
  intros H. destruct st as [timeout d]. unfold lock_round.
  apply (Gsafe_call _ _ _ (prepared n)); [apply prepared_stable|done|].
  intros g0 linked g1 H0 He. destruct (link_exec n g0 linked g1 H0 He) as [Hg H1]. split; [done|].
  clear g H g0 H0 He Hg. cbn beta. destruct linked.
  { apply (safe_remove _ temp _ (outcome (Some true)) (outcome (Some true)));
      [by left|apply outcome_stable|intros g [? _]; auto|by split; apply H1|done| |].
    - intros k o [Hi Ho]. split; [apply inv_delete; auto|done].
    - intros a g _ H. apply Gsafe_ret; [apply round_safe_stable|done]. }
  eapply safe_prepared; [done|exact H1|]. intros st g2 g3 H2 (ch & [Hlook E] & _) H3 Eo.
  destruct st as [st|]; [|by apply Gsafe_ret; [apply round_safe_stable|]].
  destruct (S_ISDIR st) eqn:Ed.
  { assert (snd g3 = ∅) as Hnone.
    { rewrite Eo. apply elem_of_equiv_empty_L. intros j Hj.
      destruct (inv_owner _ _ (w_inv _ (prepared_waiting _ _ H2)) j Hj) as (_ & _ & m & f & Em & Ef & _).
      cbn in E. rewrite Em, Ef in E. destruct (fails ch); [done|]. injection E as <- _. done. }
    set (P := fun g : G => waiting g /\ snd g = ∅).
    assert (stable P) as HP.
    { intros g g' [Hw Hn] Hr. split; [by eapply waiting_stable|]. pose proof (rely_owners _ _ Hr). set_solver. }
    assert (forall p k o, P (k, o) -> P (with_names (delete p) k, o)) as Hdel.
    { intros p k o [[Hi Ha Hs] Hn]. split; [|done]. constructor; [apply inv_delete; auto|done|done]. }
    assert (forall g, P g -> lock_inv file g /\ (L <> L \/ snd g = ∅)) as HPi
      by (intros g [Hw Hn]; split; [apply Hw|auto]).
    eapply (safe_remove _ _ _ P P); [by left|done| |by split; [apply H3|]|done|auto|].
    { intros g [Hw Hn]. split; [apply Hw|auto]. }
    intros a g4 _ H4. eapply (safe_remove _ _ _ P P); [by right|done|apply HPi|done|done|auto|].
    intros a' g5 _ [H5 _]. by apply Gsafe_ret; [apply round_safe_stable|]. }
  eapply Gsafe_bind; [by apply (freshness_safe (prepared n) (prepared_stable n) (prepared_waiting n))|].
  intros [fresh slept] g4 [H4 Ho4].
  case_bool_decide as Ef; [|by apply round_end_safe].
  set (P := fun g : G => prepared n g /\ snd g = ∅).
  eapply (safe_remove _ L _ P P).
  - by left.
  - intros g g' [Hp Hn] Hr. split; [by eapply prepared_stable|]. pose proof (rely_owners _ _ Hr). set_solver.
  - intros g [[Hw _] Hn]. split; [apply Hw|auto].
  - split; [done|]. apply elem_of_equiv_empty_L. intros j Hj. specialize (Ho4 j Hj). cbn in Ho4. congruence.
  - done.
  - intros k o [([Hi Ha Hs] & Ht & HL & Hf) Hn]. split; [|done].
    split; [constructor; [apply inv_delete; auto|done|done]|]. cbn.
    rewrite lookup_delete_ne by done. by rewrite lookup_delete_eq.
  - intros a g5 _ [H5 _]. by apply round_end_safe.
Qed.

(** The temporary file is empty and open. *)
Definition made (n : Z) (g : G) : Prop :=
  waiting g /\ names (fst g) !! temp = Some (File n) /\ names (fst g) !! L <> Some (File n) /\
  files (fst g) !! n = Some n /\
  exists f, inodes (fst g) !! n = Some f /\ contents f = [] /\ owner_uid f = uid_of (fst g) i.

Lemma made_stable n : stable (made n).
Proof.
  intros g g' (Hw & Ht & HL & Hfd & f & Hf & Hc & Hu) Hr. split; [by eapply waiting_stable|].
  rewrite (rely_inodes _ _ Hr), (rely_uid _ _ Hr), (rely_files _ _ Hr n n Hfd).
  destruct (rely_names _ _ Hr) as [->|[-> _]]; (split; [|split; [|by eauto]]); try done.
  - by rewrite lookup_delete_ne.
  - by rewrite lookup_delete_eq.
Qed.

Lemma write_exec n a g g' :
  made n g -> exec (Write n (pid_text i)) g a g' ->
  guar g g' /\ waiting g' /\ (is_Some a -> prepared n g').
Proof.
  intros (Hw & Ht & HL & Hfd & f & Hf & Hc & Hu) (ch & [Hlook E] & Eo). destruct g as [k o], g' as [k' o'].
  cbn in *. subst o'. destruct (fails ch).
  { injection E as <- <-. split; [by constructor; [apply Hw|..]|]. split; [done|by intros []]. }
  rewrite Hfd in E. cbn in E. rewrite Hf in E. cbn in E. injection E as <- <-.
  assert (lock_inv file ({| names := names k;
    inodes := <[n := Inode (contents f ++ pid_text i) (owner_uid f) (atime f) (now_ns k / 1000000000)]> (inodes k);
    files := files k; fresh_id := fresh_id k; now_ns := now_ns k; alive := alive k; uid_of := uid_of k |}, o)) as Hinv.
  { destruct (w_inv _ Hw) as [Ho Hun Hn Hfds Hs]. constructor; cbn in *; try done.
    intros j Hj. destruct (Ho j Hj) as (? & ? & m & f' & Hm & ? & ? & ?). split; [done|]. split; [done|].
    exists m, f'. rewrite lookup_insert_ne; [done|]. intros <-. by rewrite Hm in HL. }
  split; [by constructor|]. split; [constructor; [done|apply (w_alive _ Hw)|apply (w_self _ Hw)]|].
  intros _. split; [constructor; [done|apply (w_alive _ Hw)|apply (w_self _ Hw)]|]. cbn.
  split; [done|]. split; [done|]. eexists. rewrite lookup_insert_eq. split; [done|]. cbn. by rewrite Hc.
Qed.

Lemma attempt_safe n timeout g :
  made n g ->
  safe outcome
    (let! pid := call_ Getpid in
     let! written := call_ (Write n (pid_text pid)) in
     let! _ := call_ (Close n) in
     match written with
     | None => lock_fail temp
     | Some _ =>
         let! st := call_ (Lstat temp) in
         match st with
         | None => lock_fail temp
         | Some _ =>
             let! locked := loop (lock_round L temp) (timeout, 0) in
             match locked with
             | Some true => Ret (Some true)
             | Some false => lock_fail temp
             | None => Ret None
             end
         end
     end) g.
Proof.
  intros H. apply (safe_mild _ _ (made n)); [done|apply made_stable|intros ? [? _]; by apply w_inv|done|].
  intros pid g0 g1 _ (ch & [Hlook E] & _) H1 _. cbn in E. injection E as <- _.
  apply (Gsafe_call _ _ _ (made n)); [apply made_stable|done|].
  intros g2 written g3 H2 He. destruct (write_exec n written g2 g3 H2 He) as (Hg & Hw & Hp).
  split; [done|]. cbn [bind]. set (P := fun g => waiting g /\ (is_Some written -> prepared n g)).
  apply (safe_mild _ _ P); [done| |by intros ? [[? ? ?] _]|done|].
  { intros g' g'' [Hw' Hp'] Hr. split; [by eapply waiting_stable|].
    intros Hs. eapply prepared_stable; [by apply Hp'|done]. }
  intros _ g4 g5 _ _ [H5 Hp5] _. destruct written; [|by apply lock_fail_safe].
  eapply safe_prepared; [done|by apply Hp5|]. intros st g6 g7 _ _ H7 _.
  destruct st; [|apply lock_fail_safe; by apply H7].
  eapply (Gsafe_bind _ _ _ (fun b g => round_safe n (inr b) g)).
  - apply (Gsafe_loop _ _ _ (fun _ => prepared n)); [intros _; apply prepared_stable|..|done].
    + intros b. apply round_safe_stable.
    + intros st g8 H8. eapply Gsafe_mono; [by apply (lock_round_safe n)|]. by intros [|].
  - intros [[]|] g8 H8; cbn in H8.
    + by apply Gsafe_ret; [apply outcome_stable|].
    + by apply lock_fail_safe.
    + apply Gsafe_ret; [apply outcome_stable|]. split; [apply H8|apply (w_self _ H8)].
Qed.
End attempt.

Lemma template_lock name k : name_ok (template_path file) name k = true -> name <> L.
Proof.
  unfold name_ok, template_path, lock_path. intros H ->. apply andb_true_iff in H as [[H _]%andb_true_iff _].
  apply bytes_eqb_eq in H. rewrite length_app in H. change (length TEMP_NAME) with 11%nat in H.
  replace (length file + 11 - 6)%nat with (length file + 5)%nat in H by lia.
  rewrite !take_app_add' in H by done. by apply app_inv_head in H.
Qed.

Lemma mkstemp_exec temp fd g g' :
  waiting g -> exec (Mkstemp (template_path file)) g (temp, fd) g' ->
  guar g g' /\ temp <> L /\ waiting g' /\ (forall n, fd = Some n -> made temp n g').
Proof.
  intros Hw (ch & [Hlook E] & Eo). destruct g as [k o], g' as [k' o']. cbn in E, Eo. subst o'.
  destruct (fails ch || negb (name_ok (template_path file) (temp_name ch) k)) eqn:Ec.
  { injection E as <- <- <-. split; [by constructor; [apply Hw|..]|].
    split; [|done]. unfold template_path, lock_path. by intros ?%app_inv_head. }
  apply orb_false_iff in Ec as [_ Hn%negb_false_iff]. pose proof (template_lock _ _ Hn) as HtL.
  assert (names k !! temp_name ch = None) as Hnone.
  { unfold name_ok in Hn. apply andb_true_iff in Hn as [_ Hn]. by apply bool_decide_eq_true in Hn. }
  injection E as <- <- Ek. pose proof (w_inv _ Hw) as [Ho Hun Hnm Hfd Hs]. cbn in *.
  assert (forall n, names k !! L = Some (File n) -> n < fresh_id k) as HL by (intros; by eapply Hnm).
  assert (lock_inv file (k', o)) as Hinv.
  { subst k'. constructor; cbn; try done.
    - intros j Hj. destruct (Ho j Hj) as (? & ? & m & f & Hm & ? & ? & ?). split; [done|]. split; [done|].
      exists m, f. rewrite !lookup_insert_ne; [done|specialize (HL m Hm); lia|done].
    - intros p m. destruct (decide (p = temp_name ch)) as [->|Hp].
      + rewrite lookup_insert_eq. intros [= <-]. lia.
      + rewrite lookup_insert_ne by done. intros H%Hnm. lia.
    - intros fd m. destruct (decide (fd = fresh_id k)) as [->|]; [lia|].
      rewrite lookup_insert_ne by done. intros H%Hfd. lia. }
  assert (waiting (k', o)) as Hw'
    by (constructor; [done|subst k'; apply (w_alive _ Hw)|apply (w_self _ Hw)]).
  split; [by constructor; [..|subst k']|]. split; [done|]. split; [done|].
  intros n [= <-]. split; [done|]. subst k'. cbn. rewrite !lookup_insert_eq. split; [done|]. split; [|by eauto].
  rewrite lookup_insert_ne by done. intros H%HL. lia.
Qed.

Lemma filelock_lock_safe timeout g :
  waiting g -> safe outcome (filelock_lock L (template_path file) timeout) g.
Proof.
  intros H. unfold filelock_lock. apply (Gsafe_call _ _ _ waiting); [apply waiting_stable|done|].
  intros g0 [temp fd] g1 H0 He. destruct (mkstemp_exec _ _ _ _ H0 He) as (Hg & Ht & Hw & Hm).
  split; [done|]. cbn beta iota. destruct fd as [n|]; [by apply attempt_safe; auto|by apply lock_fail_safe].
Qed.
End shared.

(** ** All processes *)

(** What holds in every state in which attempts have not overlapped. *)
Record world_inv (file : bytes) (w : world) : Prop := {
  wi_lock : lock_inv file (kern w, owners w);
  wi_procs i p : procs w !! i = Some p -> i ∈ alive (kern w) /\ 0 < i < 10 ^ 7;
  wi_owner i : i ∈ owners w -> exists p, procs w !! i = Some p /\ p <> Idle;
  wi_holding i : procs w !! i = Some Holding -> i ∈ owners w;
  wi_releasing i m : procs w !! i = Some (Releasing m) ->
    (m = Call (Unlink (lock_path file)) (fun _ => Ret tt) /\ i ∈ owners w) \/ (m = Ret tt /\ i ∉ owners w);
  wi_attempting i m : procs w !! i = Some (Attempting m) ->
    Gsafe (exec file i) (rely file i) (guar file i) (outcome file i) m (kern w, owners w);
  wi_one i j p q : procs w !! i = Some p -> procs w !! j = Some q ->
    is_attempting p = true -> is_attempting q = true -> i = j;
}.

Section worlds.
Context (file : bytes).

Lemma wi_owner_not_idle w i : world_inv file w -> i ∈ owners w -> procs w !! i <> Some Idle.
Proof. intros H Hi E. destruct (wi_owner _ _ H i Hi) as (p & Ep & Hp). congruence. Qed.

(** A change of one process that leaves the kernel alone. *)
Lemma inv_set_phase i p w :
  world_inv file w -> i ∈ alive (kern w) /\ 0 < i < 10 ^ 7 ->
  (i ∈ owners w -> p <> Idle) -> (p = Holding -> i ∈ owners w) ->
  (forall m, p = Releasing m ->
    (m = Call (Unlink (lock_path file)) (fun _ => Ret tt) /\ i ∈ owners w) \/ (m = Ret tt /\ i ∉ owners w)) ->
  (forall m, p = Attempting m ->
    Gsafe (exec file i) (rely file i) (guar file i) (outcome file i) m (kern w, owners w)) ->
  (is_attempting p = true -> (exists q, procs w !! i = Some q /\ is_attempting q = true) \/ quiet w) ->
  world_inv file (set_phase i p w).
Proof.
  intros [Hl Hp Ho Hh Hr Ha H1] Hi Hidle Hhold Hrel Hatt Hone.
  assert (forall j q, <[i := p]> (procs w) !! j = Some q -> (j = i /\ q = p) \/ (j <> i /\ procs w !! j = Some q)) as Hins
    by (intros j q [[? ?]|[? ?]]%lookup_insert_Some; [left|right]; auto).
  constructor; cbn; [done|..].
  - intros j q [[-> ->]|[? Hq]]%Hins; [done|by eapply Hp].
  - intros j Hj. destruct (decide (j = i)) as [->|].
    + exists p. rewrite lookup_insert_eq. auto.
    + rewrite lookup_insert_ne by done. auto.
  - intros j [[-> E]|[? Hq]]%Hins; [by apply Hhold|by apply Hh].
  - intros j m [[-> E]|[? Hq]]%Hins; [by apply Hrel|by apply Hr].
  - intros j m [[-> E]|[? Hq]]%Hins; [by apply Hatt|by apply Ha].
  - intros j j' q q' Hq Hq' Aq Aq'. apply Hins in Hq as [[-> ->]|[? Hq]], Hq' as [[-> ->]|[? Hq']].
    + done.
    + destruct (Hone Aq) as [(q0 & Hq0 & A0)|Hquiet]; [by eapply H1|]. by rewrite (Hquiet _ _ Hq') in Aq'.
    + destruct (Hone Aq') as [(q0 & Hq0 & A0)|Hquiet]; [by eapply H1|]. by rewrite (Hquiet _ _ Hq) in Aq.
    + by eapply H1.
Qed.

(** A change of the kernel that every attempting process can rely on. *)
Lemma inv_kernel w k o :
  world_inv file w -> lock_inv file (k, o) ->
  (forall i p, procs w !! i = Some p -> i ∈ alive k) -> o = owners w ->
  (forall i, i ∈ alive k -> rely file i (kern w, owners w) (k, o)) ->
  world_inv file {| kern := k; procs := procs w; owners := o |}.
Proof.
  intros [Hl Hp Ho Hh Hr Ha H1] Hinv Halive -> Hrely. constructor; cbn; try done.
  - intros i p Hi. split; [by eapply Halive|by eapply Hp].
  - intros i m Hi. eapply Gsafe_rely; [by apply Ha|]. apply Hrely. by eapply Halive.
Qed.

Lemma inv_spawn i w w' : world_inv file w -> do_action file (Spawn i) w = Some w' -> world_inv file w'.
Proof.
  intros Hw E. cbn in E. destruct (_ && _) eqn:Ec; [|done]. injection E as <-.
  apply andb_true_iff in Ec as [[Hn%bool_decide_eq_true Hlo%Z.ltb_lt]%andb_true_iff Hhi%Z.ltb_lt].
  assert (i ∉ owners w) as Hio by (intros Hi; destruct (wi_owner _ _ Hw i Hi) as (? & ? & _); congruence).
  set (k := with_alive (union {[i]}) (kern w)).
  assert (lock_inv file (k, owners w)) as Hinv.
  { destruct (wi_lock _ _ Hw) as [Hio' Hu Hnm Hf Hs]. constructor; cbn in *; try done.
    intros j Hj. destruct (Hio' j Hj) as (? & ? & ?). split; [set_solver|done]. }
  assert (world_inv file {| kern := k; procs := procs w; owners := owners w |}) as H0.
  { apply inv_kernel; [done|done| |done|].
    - intros j p Hj. apply (wi_procs _ _ Hw) in Hj as [? _]. cbn. set_solver.
    - intros j Hj. constructor; cbn; first [done | by left | lia | set_solver]. }
  apply (inv_set_phase i Idle _ H0); try done. split; [cbn; set_solver|done].
Qed.

Lemma inv_tick ns w w' : world_inv file w -> do_action file (Tick ns) w = Some w' -> world_inv file w'.
Proof.
  intros Hw E. cbn in E. destruct (Z.leb_spec 0 ns); [|done]. injection E as <-.
  apply inv_kernel; [done| | |done|].
  - destruct (wi_lock _ _ Hw). by constructor.
  - intros j p Hj. by apply (wi_procs _ _ Hw) in Hj as [? _].
  - intros j Hj. constructor; cbn; try done; [|lia|by left]. destruct (wi_lock _ _ Hw). by constructor.
Qed.

Lemma inv_die i w w' : world_inv file w -> do_action file (Die i) w = Some w' -> world_inv file w'.
Proof.
  intros Hw E. cbn in E. injection E as <-. set (k := with_alive _ (kern w)).
  assert (lock_inv file (k, owners w ∖ {[i]})) as Hinv.
  { destruct (wi_lock _ _ Hw) as [Hio Hu Hnm Hf Hs]. constructor; cbn in *; try done.
    - intros j Hj. destruct (Hio j) as (? & ? & ?); [set_solver|]. split; [set_solver|done].
    - intros j j' Hj Hj'. apply Hu; set_solver. }
  assert (forall j p, delete i (procs w) !! j = Some p -> j <> i /\ procs w !! j = Some p) as Hd
    by (intros j p [? ?]%lookup_delete_Some; auto).
  destruct Hw as [Hl Hp Ho Hh Hr Ha H1]. constructor; cbn; [done|..].
  - intros j p [? Hj]%Hd. apply Hp in Hj as [? ?]. split; [set_solver|done].
  - intros j Hj. destruct (Ho j) as (p & ? & ?); [set_solver|]. exists p.
    rewrite lookup_delete_ne by set_solver. done.
  - intros j [? Hj]%Hd. apply Hh in Hj. set_solver.
  - intros j m [? Hj]%Hd. apply Hr in Hj as [[-> ?]|[-> ?]]; [left|right]; set_solver.
  - intros j m [Hne Hj]%Hd. pose proof (Hp _ _ Hj) as [Hja _]. eapply Gsafe_rely; [by apply Ha|].
    constructor; cbn; first [done | by left | lia | set_solver].
  - intros j j' q q' [_ Hq]%Hd [_ Hq']%Hd. by eapply H1.
Qed.

Lemma inv_start i timeout w w' :
  world_inv file w -> quiet w -> do_action file (Start i timeout) w = Some w' -> world_inv file w'.
Proof.
  intros Hw Hq E. cbn in E. destruct (procs w !! i) as [[]|] eqn:Ei; try done. injection E as <-.
  pose proof (wi_procs _ _ Hw _ _ Ei) as Hp.
  assert (i ∉ owners w) as Ho by (intros Hi; by apply (wi_owner_not_idle _ _ Hw Hi)).
  apply inv_set_phase; try done; [|by right]. intros m [= <-].
  apply filelock_lock_safe; [apply Hp|]. constructor; [apply Hw|apply Hp|done].
Qed.

Lemma inv_finish i w w' : world_inv file w -> do_action file (Finish i) w = Some w' -> world_inv file w'.
Proof.
  intros Hw E. cbn in E. destruct (procs w !! i) as [p|] eqn:Ei; [|done].
  pose proof (wi_procs _ _ Hw _ _ Ei) as Hp. destruct p as [|m| |m]; try done.
  - destruct m as [b|c k|T B body s k]; try done.
    pose proof (Gsafe_ret_inv _ _ _ _ _ _ (wi_attempting _ _ Hw _ _ Ei)) as [_ Hb].
    destruct b as [[]|]; injection E as <-; apply inv_set_phase; try done.
  - destruct m as [b|c k|T B body s k]; try done. injection E as <-.
    apply inv_set_phase; try done. destruct (wi_releasing _ _ Hw _ _ Ei) as [[? _]|[_ ?]]; done.
Qed.

Lemma inv_release i w w' : world_inv file w -> do_action file (Release i) w = Some w' -> world_inv file w'.
Proof.
  intros Hw E. cbn in E. destruct (procs w !! i) as [[]|] eqn:Ei; try done. injection E as <-.
  pose proof (wi_procs _ _ Hw _ _ Ei) as Hp. apply inv_set_phase; try done.
  intros m [= <-]. left. split; [done|]. by apply (wi_holding _ _ Hw).
Qed.

Lemma inv_run_attempt i ch c m w a k :
  world_inv file w -> procs w !! i = Some (Attempting (Call c m)) ->
  looks c && fails ch = false -> kernel_call i ch c (kern w) = (a, k) ->
  world_inv file {| kern := k; procs := <[i := Attempting (m a)]> (procs w);
                    owners := owners_after file i c (kern w) k (owners w) |}.
Proof.
  intros Hw Ei Hlook E. set (o := owners_after file i c (kern w) k (owners w)).
  destruct (Gsafe_call_inv _ _ _ _ _ _ _ a (k, o) (wi_attempting _ _ Hw _ _ Ei)) as [[Hinv Hoth Hal] Hsafe];
    [by exists ch|].
  cbn in *. destruct Hw as [Hl Hp Ho Hh Hr Ha H1].
  assert (forall j q, <[i := Attempting (m a)]> (procs w) !! j = Some q ->
    (j = i /\ q = Attempting (m a)) \/ (j <> i /\ procs w !! j = Some q)) as Hins
    by (intros j q [[? ?]|[? ?]]%lookup_insert_Some; [left|right]; auto).
  constructor; cbn; [done|..].
  - intros j q Hj. rewrite Hal. apply Hins in Hj as [[-> ->]|[? Hq]]; by eapply Hp.
  - intros j Hj. destruct (decide (j = i)) as [->|].
    + eexists. by rewrite lookup_insert_eq.
    + rewrite lookup_insert_ne by done. apply Ho. by apply Hoth.
  - intros j [[-> ?]|[? Hq]]%Hins; [done|]. apply Hoth; [done|by apply Hh].
  - intros j q [[-> ?]|[? Hq]]%Hins; [done|]. rewrite Hoth by done. by apply Hr.
  - intros j q [[-> [= ->]]|[Hne Hq]]%Hins; [done|]. by destruct (Hne (H1 _ _ _ _ Hq Ei eq_refl eq_refl)).
  - intros j j' q q' Hq Hq' Aq Aq'.
    apply Hins in Hq as [[-> ->]|[? Hq]], Hq' as [[-> ->]|[? Hq']]; [done|..].
    + by rewrite (H1 _ _ _ _ Hq' Ei Aq' eq_refl).
    + by rewrite (H1 _ _ _ _ Hq Ei Aq eq_refl).
    + by eapply H1.
Qed.

Lemma inv_run_release i ch w a k :
  world_inv file w -> procs w !! i = Some (Releasing (Call (Unlink (lock_path file)) (fun _ => Ret tt))) ->
  i ∈ owners w -> kernel_call i ch (Unlink (lock_path file)) (kern w) = (a, k) ->
  world_inv file {| kern := k; procs := <[i := Releasing (Ret tt)]> (procs w); owners := owners w ∖ {[i]} |}.
Proof.
  intros Hw Ei Hio E.
  assert (owners w ∖ {[i]} = ∅) as Hnone.
  { apply elem_of_equiv_empty_L. intros j [Hj Hne]%elem_of_difference.
    apply Hne, elem_of_singleton. by apply (inv_unique _ _ (wi_lock _ _ Hw) j i). }
  assert (k = kern w \/ k = with_names (delete (lock_path file)) (kern w)) as Hk.
  { cbn in E. destruct (fails ch), (names (kern w) !! lock_path file) as [[]|]; simplify_eq; auto. }
  assert (lock_inv file (kern w, ∅)) as Hinv0.
  { destruct (wi_lock _ _ Hw) as [_ _ Hnm Hf Hs]. constructor; cbn in *; try done; set_solver. }
  assert (lock_inv file (k, ∅)) as Hinv by (destruct Hk as [->| ->]; [done|apply (inv_delete file i); auto; by apply (wi_procs _ _ Hw _ _ Ei)]).
  rewrite Hnone. destruct Hw as [Hl Hp Ho Hh Hr Ha H1].
  assert (forall j q, <[i := Releasing (Ret tt)]> (procs w) !! j = Some q ->
    (j = i /\ q = Releasing (Ret tt)) \/ (j <> i /\ procs w !! j = Some q)) as Hins
    by (intros j q [[? ?]|[? ?]]%lookup_insert_Some; [left|right]; auto).
  assert (alive k = alive (kern w)) as Hal by (by destruct Hk as [->| ->]).
  constructor; cbn; [done|..].
  - intros j q Hj. rewrite Hal. apply Hins in Hj as [[-> ->]|[? Hq]]; by eapply Hp.
  - set_solver.
  - intros j [[-> ?]|[Hne Hq]]%Hins; [done|]. apply Hh in Hq. set_solver.
  - intros j q [[-> [= ->]]|[Hne Hq]]%Hins; [right; set_solver|].
    apply Hr in Hq as [[-> Hj]|[-> Hj]]; [set_solver|right; set_solver].
  - intros j q [[-> ?]|[Hne Hq]]%Hins; [done|]. eapply Gsafe_rely; [by apply Ha|].
    assert (j ∉ owners w) by set_solver.
    constructor; cbn; destruct Hk as [->| ->]; cbn; auto; try lia; set_solver.
  - intros j j' q q' Hq Hq' Aq Aq'.
    apply Hins in Hq as [[-> ->]|[? Hq]], Hq' as [[-> ->]|[? Hq']]; [done..|]. by eapply H1.
Qed.

Lemma inv_run i ch w w' :
  world_inv file w -> fails_to_look i ch w = false -> do_action file (Run i ch) w = Some w' -> world_inv file w'.
Proof.
  intros Hw Hl E. cbn in E. unfold fails_to_look, next_call in Hl. destruct (procs w !! i) as [p|] eqn:Ei; [|done].
  pose proof (wi_procs _ _ Hw _ _ Ei) as Hp. destruct p as [|m| |m]; try done.
  - destruct m as [b|c m|T B body s m]; [done| |].
    + destruct (kernel_call i ch c (kern w)) as [a k] eqn:Ek. injection E as <-.
      by eapply inv_run_attempt.
    + injection E as <-. apply inv_set_phase; try done.
      * intros m' [= <-]. apply Gsafe_iter_inv. by apply (wi_attempting _ _ Hw).
      * intros _. left. by eexists.
  - destruct (wi_releasing _ _ Hw _ _ Ei) as [[-> Hio]|[-> _]]; [|done].
    destruct (kernel_call i ch _ (kern w)) as [a k] eqn:Ek. injection E as <-.
    by eapply inv_run_release.
Qed.

Lemma inv_step w w' : world_inv file w -> serial_step file w w' -> world_inv file w'.
Proof.
  intros Hw (a & E & Hs). destruct a.
  - by eapply inv_spawn.
  - by eapply inv_die.
  - by eapply inv_start.
  - by eapply inv_run.
  - by eapply inv_finish.
  - by eapply inv_release.
  - by eapply inv_tick.
Qed.
End worlds.

(** A world without processes; any files may be there, a lock file too. *)
Record initial (w : world) : Prop := {
  init_procs : procs w = ∅;
  init_owners : owners w = ∅;
  init_names p n : names (kern w) !! p = Some (File n) -> n < fresh_id (kern w);
  init_files fd n : files (kern w) !! fd = Some n -> fd < fresh_id (kern w);
  init_user i j : uid_of (kern w) i = uid_of (kern w) j;
}.

Lemma initial_inv file w : initial w -> world_inv file w.
Proof.
  intros [Hp Ho Hn Hf Hu]. constructor; try (intros *; rewrite Hp, lookup_empty; done).
  - constructor; cbn; try done; rewrite Ho; set_solver.
  - intros i. rewrite Ho. set_solver.
Qed.

(** C23: Among processes of one user whose attempts do not overlap, at most one has
    the lock at a time, and as long as it has it the lock file is there with its
    process id, whatever processes are killed at any moment, however releases
    and the clock fall in between, and whichever calls fail, except the calls
    with which the lock file of another process is opened and read and that
    process is looked for (see [filelock_blind] for these). *)
Theorem filelock_exclusive file w w' :
  initial w -> rtc (serial_step file) w w' ->
  (forall i j, holds w' i -> holds w' j -> i = j) /\
  (forall i, holds w' i -> exists n f, names (kern w') !! lock_path file = Some (File n) /\
     inodes (kern w') !! n = Some f /\ atoi (c_str (contents f)) = i) /\
  (forall i r, procs w' !! i = Some (Attempting (Ret r)) -> r = Some true ->
     forall j, ~ holds w' j).
Proof.
  intros Hw Hr. assert (world_inv file w') as Hi.
  { apply (initial_inv file) in Hw. induction Hr as [w|w w1 w2 Hs _ IH]; [done|].
    apply IH. by eapply inv_step. }
  assert (forall i j, holds w' i -> j ∈ owners w' -> i = j) as Hone.
  { intros i j H1 H2. apply (inv_unique _ _ (wi_lock _ _ Hi)); [by apply (wi_holding _ _ Hi)|done]. }
  split_and!.
  - intros i j H1 H2. apply Hone; [done|by apply (wi_holding _ _ Hi)].
  - intros i H1. apply (wi_holding _ _ Hi) in H1.
    destruct (inv_owner _ _ (wi_lock _ _ Hi) i H1) as (_ & Hpid & n & f & Hn & Hf & Hc & _).
    exists n, f. rewrite Hc, atoi_pid_text by done. done.
  - intros i r Hr' -> j Hj. pose proof (Gsafe_ret_inv _ _ _ _ _ _ (wi_attempting _ _ Hi _ _ Hr')) as [_ Ho].
    pose proof (Hone _ _ Hj Ho) as ->. unfold holds in Hj. congruence.
Qed.

(** ** Runs *)

Definition quietb (w : world) : bool :=
  bool_decide (map_Forall (fun _ p => is_attempting p = false) (procs w)).

(** A sequence of actions; with [serial], attempts may not overlap. *)
Fixpoint run_actions (file : bytes) (serial : bool) (acts : list action) (w : world) : option world :=
  match acts with
  | [] => Some w
  | a :: acts =>
      if serial && (match a with Start _ _ => negb (quietb w) | Run i ch => fails_to_look i ch w | _ => false end) then None
      else w ← do_action file a w; run_actions file serial acts w
  end.

Lemma run_serial file acts w w' :
  run_actions file true acts w = Some w' -> rtc (serial_step file) w w'.
Proof.
  revert w. induction acts as [|a acts IH]; intros w E; [by injection E as <-|].
  cbn [run_actions] in E. destruct (_ && _) eqn:Eq; [done|].
  destruct (do_action file a w) as [w1|] eqn:Ea; [|done]. cbn in E.
  eapply rtc_l; [|by apply IH]. exists a. split; [done|].
  destruct a; try done. cbn in Eq. apply negb_false_iff, bool_decide_eq_true in Eq. exact Eq.
Qed.

Definition empty_kernel : kernel :=
  {| names := ∅; inodes := ∅; files := ∅; fresh_id := 1; now_ns := 0; alive := ∅; uid_of := fun _ => 1000 |}.

Definition empty_world : world := {| kern := empty_kernel; procs := ∅; owners := ∅ |}.

Lemma empty_initial : initial empty_world.
Proof. constructor; try done; cbn; set_solver. Qed.

(** The environment lets every call succeed; [mkstemp] finds the name [s]. *)
Definition ok (s : string) : choice := {| fails := false; temp_name := str "d.tmp-" ++ str s |}.
Definition runs_of (i : Z) (s : string) (n : nat) : list action := repeat (Run i (ok s)) n.

(** The process 100 takes the lock: the calls up to [link] and [unlink(temp)],
    with the beginning of the loop. *)
Definition take_lock (i : Z) (s : string) : list action :=
  [Start i 0] ++ runs_of i s 8 ++ [Finish i].

Definition release_lock (i : Z) : list action := [Release i; Run i (ok "rel000"); Finish i].

(** 200 finds the file locked and looks for its age; 100 releases, so that it
    cannot be opened, and locks it again; 200 judges it stale and removes it. *)
Definition overlap : list action :=
  [Spawn 100; Spawn 200] ++ take_lock 100 "aaaaaa" ++
  [Start 200 1000] ++ runs_of 200 "bbbbbb" 9 ++ release_lock 100 ++ runs_of 200 "bbbbbb" 1 ++
  take_lock 100 "cccccc" ++ runs_of 200 "bbbbbb" 4 ++ [Finish 200].

Definition holdsb (w : world) (i : Z) : bool :=
  match procs w !! i with Some Holding => true | _ => false end.

Lemma holdsb_holds w i : holdsb w i = true -> holds w i.
Proof. unfold holdsb, holds. by destruct (procs w !! i) as [[]|]. Qed.

(** A run that leaves the lock with all of [ids]. *)
Definition run_holds (file : bytes) (serial : bool) (acts : list action) (ids : list Z) : bool :=
  match run_actions file serial acts empty_world with
  | Some w => forallb (holdsb w) ids
  | None => false
  end.

Lemma run_holds_spec file serial acts ids :
  run_holds file serial acts ids = true ->
  exists w, run_actions file serial acts empty_world = Some w /\ Forall (holds w) ids.
Proof.
  unfold run_holds. destruct (run_actions _ _ _ _) as [w|]; [|done]. intros H. exists w. split; [done|].
  apply Forall_forall. intros i Hi. apply holdsb_holds. rewrite forallb_forall in H. apply H.
  by apply list_elem_of_In.
Qed.

(** Without a process dying or a call failing, two attempts that overlap can
    leave two processes with the lock. *)
Theorem filelock_overlap :
  exists w, run_actions (str "d") false overlap empty_world = Some w /\ Forall (holds w) [100; 200].
Proof. apply run_holds_spec. vm_compute. reflexivity. Qed.

(** Without overlapping attempts: the process 200 cannot open the lock file
    that 100 holds, judges it stale, removes it and takes the lock. *)
Definition cannot_look : choice := {| fails := true; temp_name := [] |}.
Definition blind (n : nat) : list action :=
  [Spawn 100; Spawn 200] ++ take_lock 100 "aaaaaa" ++
  [Start 200 1000] ++ runs_of 200 "bbbbbb" 9 ++ [Run 200 cannot_look] ++ runs_of 200 "bbbbbb" n ++ [Finish 200].

Example filelock_blind :
  exists w, run_actions (str "d") false (blind 4) empty_world = Some w /\ Forall (holds w) [100; 200].
Proof. apply run_holds_spec. vm_compute. reflexivity. Qed.

Definition one_holder : list action :=
  [Spawn 100; Spawn 200] ++ take_lock 100 "aaaaaa" ++ [Start 200 0] ++ runs_of 200 "bbbbbb" 10.

Lemma filelock_exclusive_witness :
  exists w, Forall (holds w) [100] /\
    (forall i j, holds w i -> holds w j -> i = j) /\
    (forall i, holds w i -> exists n f, names (kern w) !! lock_path (str "d") = Some (File n) /\
       inodes (kern w) !! n = Some f /\ atoi (c_str (contents f)) = i) /\
    (forall i r, procs w !! i = Some (Attempting (Ret r)) -> r = Some true -> forall j, ~ holds w j).
Proof.
  assert (run_holds (str "d") true one_holder [100] = true) as H by (vm_compute; reflexivity).
  destruct (run_holds_spec _ _ _ _ H) as (w & Hr & Hw). exists w. split; [exact Hw|].
  apply (filelock_exclusive (str "d") empty_world w); [exact empty_initial|exact (run_serial _ _ _ _ Hr)].
Defined.
