(* ===== verification/Connector.v ===== *)
(** * The connector: switching a socket to a device

    Models [emulator/devices/Connector.cpp] (the plug that reads a request
    [pipe:(qemud:)?<device>:<args>Z] and switches its socket to the device)
    and [emulator/devices/connector_registry.cpp] (the devices that can be
    asked for and the ones that are active). *)

From S2P Require Import Prelude.
From S2P Require Import Archive.
From S2P Require Import CText.

(** ** Names *)

(** The character at an index of a C string; its terminator is zero. *)
Definition char_at (s : bytes) (i : nat) : Z := nth i s 0.

Definition qnameEquals (q : Z) (name qname : bytes) : bool :=
  (q =? char_at qname 0) && strncmp_eq name (drop 1 qname) (length name)
  && (char_at qname (length name + 1) =? 0).

(** ** Devices and plugs

    [D] are the devices' states, [W] what they share.  A factory makes a
    device from the arguments; a device takes bytes and answers whether it
    wants more. *)

Class Devices (D W : Type) := {
  factory : Type;
  make : factory -> bytes -> W -> D * W;
  dev_onReceive : D -> bytes -> W -> bool * D * W;
}.

Record DeviceEntry {D W} `{Devices D W} := { qname : bytes; entry_factory : factory }.

(** What is plugged into the socket. *)
Inductive Plug (D : Type) :=
  | PConnector (mBuffer : bytes)
  | PError
  | PDevice (d : D).
Arguments PConnector {D} _.
Arguments PError {D}.
Arguments PDevice {D} _.

Section connector.
Context {D W : Type} `{Devices D W}.

(** [switchTo]; the result of the new plug's [onReceive] is dropped.  [None]
    stands for [{false, {}}]. *)
Fixpoint switchTo (mDevicesEntries : list DeviceEntry) (isQemud : bool) (device args : bytes)
    (unconsumed : bytes) (w : W) : option (D * W) :=
  match mDevicesEntries with
  | [] => None
  | de :: mDevicesEntries =>
      let q := if isQemud then 113 else 45 in
      if qnameEquals q device (qname de) then
        let '(d, w) := make (entry_factory de) args w in
        let '(_, d, w) := dev_onReceive d unconsumed w in
        Some (d, w)
      else switchTo mDevicesEntries isQemud device args unconsumed w
  end.

(** The parsing of [processRequest]. *)
Definition parseRequest (request : bytes) : option (bool * bytes * bytes) :=
  match strip_prefix (str "pipe:") request with
  | None => None
  | Some request =>
      let '(isQemud, request) :=
        match strip_prefix (str "qemud:") request with
        | Some rest => (true, rest)
        | None => (false, request)
        end in
      let '(device, args) :=
        match split_at 58 request with
        | Some (device, args) => (device, args)
        | None => (request, [])
        end in
      if zlen device =? 0 then None else Some (isQemud, device, args)
  end.

Definition processRequest (entries : list DeviceEntry) (request unconsumed : bytes) (w : W)
    : option (D * W) :=
  match parseRequest request with
  | None => None
  | Some (isQemud, device, args) => switchTo entries isQemud device args unconsumed w
  end.

(** [Connector::onReceive]: the answer and the plug in the socket after it. *)
Definition Connector_onReceive (entries : list DeviceEntry) (mBuffer data : bytes) (w : W)
    : bool * Plug D * W :=
  match split_at 0 data with
  | Some (before, after) =>
      let request := if zlen mBuffer =? 0 then before else mBuffer ++ before in
      match processRequest entries request after w with
      | Some (d, w) => (true, PDevice d, w)
      | None => (false, PError, w)
      end
  | None => (true, PConnector (mBuffer ++ data), w)
  end.

(** The socket manager hands the bytes to the current plug. *)
Definition plug_receive (entries : list DeviceEntry) (p : Plug D) (data : bytes) (w : W)
    : bool * Plug D * W :=
  match p with
  | PConnector mBuffer => Connector_onReceive entries mBuffer data w
  | PError => (false, PError, w)
  | PDevice d => let '(ok, d, w) := dev_onReceive d data w in (ok, PDevice d, w)
  end.

(** A sequence of deliveries; it ends when a plug asks to disconnect. *)
Fixpoint deliver_all (entries : list DeviceEntry) (p : Plug D) (chunks : list bytes) (w : W)
    : bool * Plug D * W :=
  match chunks with
  | [] => (true, p, w)
  | c :: chunks =>
      let '(ok, p, w) := plug_receive entries p c w in
      if ok then deliver_all entries p chunks w else (false, p, w)
  end.

(** Devices that take their bytes as a stream: they always want more, and two
    deliveries are as good as one. *)
Definition stream_devices : Prop :=
  (forall d w, dev_onReceive d [] w = (true, d, w)) /\
  (forall d a b w, exists d1 w1 d2 w2, dev_onReceive d a w = (true, d1, w1) /\
     dev_onReceive d1 b w1 = (true, d2, w2) /\ dev_onReceive d (a ++ b) w = (true, d2, w2)).

End connector.

Definition Connector_saveStateToSnapshot {T} `{IWriter T} (mBuffer : bytes) (writer : T) : bool * T :=
  (true, write (putUnsigned writer (zlen mBuffer)) mBuffer).

(** ** The registry *)

Section registry.
Context {F PlugRef : Type}.

Record ConnectorRegistry := {
  mAcceptingRegistries : bool;
  mEntries : gmap bytes F;
  mDevices : list (bytes * F);
  mActivePlugs : gmap bytes PlugRef;
  events : list bytes;
}.

Definition new_registry : ConnectorRegistry :=
  {| mAcceptingRegistries := true; mEntries := ∅; mDevices := []; mActivePlugs := ∅; events := [] |}.

Definition register_entry (key : bytes) (f : F) (r : ConnectorRegistry) : bool * ConnectorRegistry :=
  if mAcceptingRegistries r then
    (true, {| mAcceptingRegistries := true; mEntries := <[key := f]> (mEntries r);
              mDevices := mDevices r; mActivePlugs := mActivePlugs r; events := events r |})
  else (false, r).

Definition registerQemuDevice (name : bytes) (f : F) (r : ConnectorRegistry) : bool * ConnectorRegistry :=
  register_entry (113 :: name) f r.

Definition registerDevice (name : bytes) (f : F) (r : ConnectorRegistry) : bool * ConnectorRegistry :=
  register_entry (45 :: name) f r.

(** [listen]: the device table gets every entry, in the order of the map. *)
Definition registry_listen (r : ConnectorRegistry) : ConnectorRegistry :=
  {| mAcceptingRegistries := false; mEntries := mEntries r;
     mDevices := mDevices r ++ map_to_list (mEntries r);
     mActivePlugs := mActivePlugs r; events := events r |}.

Definition registerInternal (name : bytes) (p : PlugRef) (r : ConnectorRegistry) : ConnectorRegistry :=
  {| mAcceptingRegistries := mAcceptingRegistries r; mEntries := mEntries r;
     mDevices := mDevices r; mActivePlugs := <[name := p]> (mActivePlugs r);
     events := events r ++ [name] |}.

(** The wrapped factory [listen] installs, run for an entry: it makes the
    plug and registers it under the key without its first character. *)
Definition run_registerfn (mk : F -> bytes -> PlugRef) (e : bytes * F) (args : bytes)
    (r : ConnectorRegistry) : PlugRef * ConnectorRegistry :=
  let p := mk e.2 args in (p, registerInternal (drop 1 e.1) p r).

(** [activeDevice]: [alive] is [weak_ptr::lock], [cast] the dynamic cast. *)
Definition activeDevice (alive cast : PlugRef -> bool) (serviceName : bytes) (r : ConnectorRegistry)
    : option PlugRef * ConnectorRegistry :=
  match mActivePlugs r !! serviceName with
  | Some p =>
      if alive p then (if cast p then Some p else None, r)
      else (None, {| mAcceptingRegistries := mAcceptingRegistries r; mEntries := mEntries r;
                     mDevices := mDevices r; mActivePlugs := delete serviceName (mActivePlugs r);
                     events := events r |})
  | None => (None, r)
  end.

End registry.
Arguments ConnectorRegistry : clear implicits.

(** ** Specifications *)

(** The request the guest sends for a device. *)
Definition request_bytes (isQemud : bool) (device args : bytes) : bytes :=
  str "pipe:" ++ (if isQemud then str "qemud:" else []) ++ device ++ str ":" ++ args.

Definition device_key (isQemud : bool) (device : bytes) : bytes :=
  (if isQemud then 113 else 45) :: device.

(** A device name: not empty, without separator and terminator. *)
Definition device_name_ok (name : bytes) : Prop :=
  name <> [] /\ Forall (fun c => c <> 58) name /\ Forall (fun c => c <> 0) name.

Fixpoint find_entry {F} (key : bytes) (l : list (bytes * F)) : option F :=
  match l with
  | [] => None
  | (k, f) :: l => if bytes_eqb k key then Some f else find_entry key l
  end.

(** Registrations before the registry is closed: protocol, name, factory. *)
Fixpoint register_all {F PlugRef} (l : list (bool * bytes * F)) (r : ConnectorRegistry F PlugRef)
    : ConnectorRegistry F PlugRef :=
  match l with
  | [] => r
  | (isQemud, name, f) :: l =>
      register_all l (if isQemud then registerQemuDevice name f r else registerDevice name f r).2
  end.

(** The last registration of a key. *)
Fixpoint latest {F} (key : bytes) (l : list (bool * bytes * F)) (acc : option F) : option F :=
  match l with
  | [] => acc
  | (isQemud, name, f) :: l =>
      latest key l (if bytes_eqb (device_key isQemud name) key then Some f else acc)
  end.

(** ** Lemmas *)

Lemma char_at_c_string s i : c_string s -> char_at s i = 0 <-> (length s <= i)%nat.
Proof.
  intros Hs. unfold char_at. split.
  - intros E. destruct (Nat.le_gt_cases (length s) i); [done|].
    unfold c_string in Hs. rewrite Forall_forall in Hs.
    destruct (Hs (nth i s 0)); [|done]. apply list_elem_of_In, nth_In. lia.
  - intros. by apply nth_overflow.
Qed.

(** [qnameEquals] compares the prefix character and the whole name. *)
Lemma qnameEquals_spec (isQemud : bool) (name qname : bytes) :
  c_string name -> c_string qname ->
  qnameEquals (if isQemud then 113 else 45) name qname =
  bytes_eqb qname (device_key isQemud name).
Proof.
  intros Hn Hq. apply eq_true_iff_eq. rewrite bytes_eqb_eq. unfold qnameEquals, device_key.
  rewrite !andb_true_iff, !Z.eqb_eq, (char_at_c_string qname) by done.
  destruct qname as [|c qname].
  - split; [|done]. intros [[E _] _]. by destruct isQemud.
  - apply Forall_cons in Hq as [Hc Hq]. unfold char_at. change (drop 1 (c :: qname)) with qname.
    cbn [nth length]. rewrite strncmp_eq_spec by done. split.
    + intros [[<- [t ->]] Hl]. rewrite length_app in Hl. destruct t; cbn in Hl; [|lia].
      by rewrite app_nil_r.
    + intros [= -> ->]. split; [split; [done|exists []; by rewrite app_nil_r]|lia].
Qed.

Lemma parseRequest_request_bytes isQemud device args :
  device_name_ok device -> (isQemud = false -> device <> str "qemud") ->
  parseRequest (request_bytes isQemud device args) = Some (isQemud, device, args).
Proof.
  intros (Hne & Hcol & _) Hq. unfold parseRequest, request_bytes.
  rewrite strip_prefix_app.
  assert (match strip_prefix (str "qemud:") ((if isQemud then str "qemud:" else []) ++
            device ++ str ":" ++ args) with
          | Some rest => (true, rest)
          | None => (false, (if isQemud then str "qemud:" else []) ++ device ++ str ":" ++ args)
          end = (isQemud, device ++ str ":" ++ args)) as ->.
  { destruct isQemud; [by rewrite strip_prefix_app|]. cbn [app].
    destruct (strip_prefix _ _) as [rest|] eqn:E; [|done].
    apply strip_prefix_Some in E. destruct Hq; [done|].
    assert (split_at 58 (device ++ 58 :: args) = split_at 58 (str "qemud" ++ 58 :: rest)) as Es
      by (f_equal; exact E).
    rewrite (proj2 (split_at_Some 58 _ device args)) in Es by done.
    rewrite (proj2 (split_at_Some 58 _ (str "qemud") rest)) in Es; [congruence|].
    split; [done|]. by repeat constructor. }
  rewrite (proj2 (split_at_Some 58 _ device args)) by done.
  destruct device; [done|]. by rewrite zlen_cons, (proj2 (Z.eqb_neq _ _)) by (unfold zlen; lia).
Qed.

Section connector_facts.
Context {D W : Type} `{Devices D W}.

Lemma deliver_connector entries (chunks : list bytes) : forall buf (w : W),
  Forall (fun c => c <> 0) (concat chunks) ->
  deliver_all entries (PConnector buf) chunks w = (true, PConnector (buf ++ concat chunks), w).
Proof.
  induction chunks as [|c chunks IH]; intros buf w Hc; cbn; [by rewrite app_nil_r|].
  cbn in Hc. apply Forall_app in Hc as [Hc1 Hc2]. unfold Connector_onReceive.
  rewrite (proj2 (split_at_None 0 c) Hc1), IH by done. by rewrite app_assoc.
Qed.

Lemma deliver_all_app entries chunks1 : forall chunks2 p (w : W),
  deliver_all entries p (chunks1 ++ chunks2) w =
  let '(ok, p, w) := deliver_all entries p chunks1 w in
  if ok then deliver_all entries p chunks2 w else (false, p, w).
Proof.
  induction chunks1 as [|c chunks1 IH]; intros chunks2 p w; cbn; [done|].
  destruct (plug_receive entries p c w) as [[[|] p1] w1]; [apply IH|done].
Qed.

Lemma deliver_device entries (chunks : list bytes) : forall d (w : W), stream_devices ->
  deliver_all entries (PDevice d) chunks w =
  let '(ok, d, w) := dev_onReceive d (concat chunks) w in (ok, PDevice d, w).
Proof.
  induction chunks as [|c chunks IH]; intros d w Hs; cbn; pose proof Hs as [H0 H2]; [by rewrite H0|].
  destruct (H2 d c (concat chunks) w) as (d1 & w1 & d2 & w2 & E1 & E2 & ->).
  by rewrite E1, IH, E2.
Qed.

Lemma switchTo_app entries isQemud device args a b : forall (w : W), stream_devices ->
  switchTo entries isQemud device args (a ++ b) w =
  match switchTo entries isQemud device args a w with
  | Some (d, w) => let '(_, d, w) := dev_onReceive d b w in Some (d, w)
  | None => None
  end.
Proof.
  induction entries as [|de entries IH]; intros w Hs; cbn; [done|].
  destruct (qnameEquals _ _ _); [|by apply IH].
  destruct (make (entry_factory de) args w) as [d w'].
  destruct Hs as [_ H2]. by destruct (H2 d a b w') as (d1 & w1 & d2 & w2 & -> & -> & ->).
Qed.

Lemma processRequest_app entries request a b (w : W) : stream_devices ->
  processRequest entries request (a ++ b) w =
  match processRequest entries request a w with
  | Some (d, w) => let '(_, d, w) := dev_onReceive d b w in Some (d, w)
  | None => None
  end.
Proof.
  intros Hs. unfold processRequest. destruct (parseRequest request) as [[[q d] args]|]; [|done].
  by apply switchTo_app.
Qed.

(** What the deliveries come to when the devices take streams: it depends
    only on the bytes. *)
Lemma deliver_all_stream entries (chunks : list bytes) : forall buf (w : W),
  stream_devices -> Forall (fun c => c <> 0) buf ->
  deliver_all entries (PConnector buf) chunks w =
  match split_at 0 (concat chunks) with
  | None => (true, PConnector (buf ++ concat chunks), w)
  | Some (before, after) =>
      match processRequest entries (buf ++ before) after w with
      | Some (d, w) => (true, PDevice d, w)
      | None => (false, PError, w)
      end
  end.
Proof.
  induction chunks as [|c chunks IH]; intros buf w Hs Hb; cbn; [by rewrite app_nil_r|].
  unfold Connector_onReceive. destruct (split_at 0 c) as [[before after]|] eqn:Ec.
  - apply split_at_Some in Ec as [-> Hbefore]. rewrite <- app_assoc. cbn [app].
    rewrite split_at_app, processRequest_app by done.
    assert ((if zlen buf =? 0 then before else buf ++ before) = buf ++ before) as -> by (by destruct buf).
    destruct (processRequest entries (buf ++ before) after w) as [[d w1]|]; [|done].
    rewrite deliver_device by done. pose proof Hs as [_ H2].
    by destruct (H2 d (concat chunks) [] w1) as (d1 & w1' & d2 & w2 & -> & _).
  - rewrite IH by first [done|apply Forall_app; split; [done|by apply split_at_None]].
    assert (split_at 0 (c ++ concat chunks) =
      match split_at 0 (concat chunks) with Some (b, a) => Some (c ++ b, a) | None => None end) as ->.
    { apply split_at_None in Ec. destruct (split_at 0 (concat chunks)) as [[b a]|] eqn:Eb.
      - apply split_at_Some in Eb as [-> Hb']. rewrite app_assoc. apply split_at_app. by apply Forall_app.
      - apply split_at_None. apply Forall_app. split; [done|by apply split_at_None]. }
    destruct (split_at 0 (concat chunks)) as [[b a]|]; by rewrite app_assoc.
Qed.

Lemma switchTo_find entries isQemud device args unconsumed (w : W) :
  c_string device -> Forall (fun de => c_string (qname de)) entries ->
  switchTo entries isQemud device args unconsumed w =
  match find_entry (device_key isQemud device)
          (map (fun de => (qname de, entry_factory de)) entries) with
  | Some f =>
      let '(d, w) := make f args w in
      let '(_, d, w) := dev_onReceive d unconsumed w in Some (d, w)
  | None => None
  end.
Proof.
  intros Hd He. induction He as [|de entries Hde He IH]; cbn; [done|].
  rewrite qnameEquals_spec by done. by destruct (bytes_eqb _ _).
Qed.

End connector_facts.

Section registry_facts.
Context {F PlugRef : Type}.
Implicit Types r : ConnectorRegistry F PlugRef.

Lemma register_all_entries (l : list (bool * bytes * F)) : forall r key,
  mAcceptingRegistries r = true ->
  mEntries (register_all l r) !! key = latest key l (mEntries r !! key) /\
  mDevices (register_all l r) = mDevices r.
Proof.
  induction l as [|[[q name] f] l IH]; intros r key Hr; cbn [register_all latest]; [done|].
  set (r1 := (if q then _ else _).2).
  assert (r1 = {| mAcceptingRegistries := true; mEntries := <[device_key q name := f]> (mEntries r);
    mDevices := mDevices r; mActivePlugs := mActivePlugs r; events := events r |}) as Er1.
  { unfold r1, registerQemuDevice, registerDevice, register_entry. rewrite Hr. by destruct q. }
  destruct (IH r1 key) as [-> ->]; [by rewrite Er1|]. rewrite Er1.
  cbn [mEntries mDevices]. split; [|done].
  f_equal. destruct (bytes_eqb_spec (device_key q name) key) as [<-|Hne].
  - by rewrite lookup_insert_eq.
  - by rewrite lookup_insert_ne.
Qed.

Lemma find_entry_map_to_list (m : gmap bytes F) key :
  find_entry key (map_to_list m) = m !! key.
Proof.
  assert (forall l : list (bytes * F), NoDup l.*1 ->
    forall f, find_entry key l = Some f <-> (key, f) ∈ l) as Hf.
  { intros l Hl f. induction l as [|[k g] l IH]; cbn; [set_solver|].
    cbn in Hl. apply NoDup_cons in Hl as [Hk Hl]. rewrite elem_of_cons.
    destruct (bytes_eqb_spec k key) as [->|Hne].
    - split; [intros [= ->]; by left|]. intros [[= ->]|Hin]; [done|].
      destruct Hk. apply list_elem_of_fmap. by exists (key, f).
    - rewrite IH by done. split; [by right|]. intros [[= -> ->]|]; done. }
  apply option_eq. intros f. rewrite Hf by apply NoDup_fst_map_to_list.
  apply elem_of_map_to_list.
Qed.

End registry_facts.

(** ** Properties *)

(** C11: the request a connector answers is everything up to the first zero
    byte, over all deliveries; the bytes that follow it in the same delivery
    go to the new device as its first delivery, whose answer is dropped, and
    the later deliveries go to it unchanged; without a zero byte everything
    is kept and nothing is answered.  When the devices take their bytes as a
    stream and want more after each delivery, the outcome is the same however
    the same bytes are cut into deliveries (for other devices it is not, see
    [first_answer_is_dropped]). *)
Theorem Connector_chunks {D W} `{Devices D W} (entries : list DeviceEntry) (w : W) :
  (forall (chunks1 chunks2 : list bytes) (c before after : bytes),
   Forall (fun b => b <> 0) (concat chunks1) ->
   deliver_all entries (PConnector []) chunks1 w = (true, PConnector (concat chunks1), w) /\
   (split_at 0 c = Some (before, after) ->
    deliver_all entries (PConnector []) (chunks1 ++ c :: chunks2) w =
      match processRequest entries (concat chunks1 ++ before) after w with
      | Some (d, w) => deliver_all entries (PDevice d) chunks2 w
      | None => (false, PError, w)
      end)) /\
  (stream_devices -> forall chunks1 chunks2, concat chunks1 = concat chunks2 ->
   deliver_all entries (PConnector []) chunks1 w = deliver_all entries (PConnector []) chunks2 w).
Proof.
  split.
  - intros chunks1 chunks2 c before after Hc. rewrite (deliver_connector entries chunks1 [] w Hc). cbn [app].
    split; [done|]. intros Hs. rewrite deliver_all_app, deliver_connector by done. cbn [app].
    cbn [deliver_all plug_receive]. unfold Connector_onReceive. rewrite Hs.
    assert ((if zlen (concat chunks1) =? 0 then before else concat chunks1 ++ before) =
      concat chunks1 ++ before) as -> by (by destruct (concat chunks1)).
    by destruct (processRequest _ _ _ _) as [[d w1]|].
  - intros Hs chunks1 chunks2 E. rewrite !deliver_all_stream by done. by rewrite E.
Qed.

(** A device that counts the bytes it got, for the witnesses. *)
#[global] Instance CountingDevices : Devices Z (list bytes) := {
  factory := bytes;
  make f args w := (0, (f ++ args) :: w);
  dev_onReceive d data w := (true, d + zlen data, w);
}.

Definition demo_entries : list DeviceEntry :=
  [{| qname := str "-gps"; entry_factory := str "G" |};
   {| qname := str "qsensors"; entry_factory := str "S" |}].

Lemma CountingDevices_stream : stream_devices (D := Z) (W := list bytes).
Proof.
  split; [intros d w; cbn; by rewrite Z.add_0_r|].
  intros d a b w. cbn. eexists _, _, _, _. split_and!; [done..|]. rewrite zlen_app. by rewrite Z.add_assoc.
Qed.

Lemma Connector_chunks_witness :
  deliver_all demo_entries (PConnector [])
    [str "pipe:qem"; str "ud:sensors:7" ++ [0; 1; 2]; [3]] [] = (true, PDevice 3, [str "S7"]) /\
  deliver_all demo_entries (PConnector [])
    [str "pipe:qem"; str "ud:sensors:7" ++ [0; 1; 2]; [3]] [] =
  deliver_all demo_entries (PConnector []) [str "pipe:qemud:sensors:7"; [0]; [1; 2; 3]] [].
Proof.
  destruct (Connector_chunks demo_entries []) as [Hreq Hcut]. split.
  - destruct (Hreq [str "pipe:qem"] [[3]] (str "ud:sensors:7" ++ [0; 1; 2]) (str "ud:sensors:7") [1; 2]) as [_ E].
    + repeat constructor; discriminate.
    + cbn [app] in E. rewrite E; reflexivity.
  - apply Hcut; [apply CountingDevices_stream|reflexivity].
Defined.

(** A device that wants nothing after its first bytes: the answer is lost
    when these bytes come with the request, so the socket stays open. *)
Example first_answer_is_dropped :
  let devices := {| factory := bytes; make := fun _ _ w => (0, w); dev_onReceive := fun d data w => (false, d + zlen data, w) |} in
  let entries := [@Build_DeviceEntry Z unit devices (str "-gps") (str "G")] in
  deliver_all entries (PConnector []) [str "pipe:gps" ++ [0; 1]] tt = (true, PDevice 1, tt) /\
  deliver_all entries (PConnector []) [str "pipe:gps" ++ [0]; [1]] tt = (false, PDevice 1, tt).
Proof. split; reflexivity. Qed.

(** A well formed request for a device reaches the first entry whose
    qualified name is exactly the prefix character and the device name; the
    factory gets exactly the arguments and the new device the unconsumed
    bytes; when there is no such entry the request fails. *)
Theorem processRequest_dispatch {D W} `{Devices D W} (entries : list DeviceEntry) (isQemud : bool)
    (device args unconsumed : bytes) (w : W) :
  device_name_ok device -> (isQemud = false -> device <> str "qemud") ->
  Forall (fun de => c_string (qname de)) entries ->
  processRequest entries (request_bytes isQemud device args) unconsumed w =
  match find_entry (device_key isQemud device)
          (map (fun de => (qname de, entry_factory de)) entries) with
  | Some f =>
      let '(d, w) := make f args w in
      let '(_, d, w) := dev_onReceive d unconsumed w in Some (d, w)
  | None => None
  end.
Proof.
  intros Hd Hq He. unfold processRequest. rewrite parseRequest_request_bytes by done.
  apply switchTo_find; [apply Hd|done].
Qed.

Lemma processRequest_dispatch_witness :
  processRequest demo_entries (request_bytes false (str "gps") (str "a:b")) [9] [] =
    Some (1, [str "Ga:b"]).
Proof.
  rewrite (processRequest_dispatch demo_entries false (str "gps") (str "a:b") [9] []).
  - reflexivity.
  - split_and!; [discriminate|repeat constructor; discriminate..].
  - discriminate.
  - repeat constructor; discriminate.
Defined.

(** The registry serves the last registration: after any sequence of
    registrations and [listen], the device table holds for each qualified
    name exactly the factory registered last under it, whatever the order of
    the map, and every later registration is refused and changes nothing. *)
Theorem registry_serves_latest {F PlugRef} (l : list (bool * bytes * F)) (name : bytes) (f : F) :
  let r : ConnectorRegistry F PlugRef := registry_listen (register_all l new_registry) in
  (forall key, find_entry key (mDevices r) = latest key l None) /\
  registerQemuDevice name f r = (false, r) /\ registerDevice name f r = (false, r).
Proof.
  intros r. split; [|done]. intros key. unfold r. cbn [mDevices registry_listen].
  destruct (register_all_entries l (new_registry (PlugRef := PlugRef)) key eq_refl) as [E ->].
  cbn [mDevices new_registry app]. rewrite find_entry_map_to_list, E.
  cbn [mEntries new_registry]. by rewrite lookup_empty.
Qed.
