(* ===== verification/IniFile.v ===== *)
(** * Ini files

    Models [android/files/src/aemu/base/files/IniFile.cpp]: parsing and
    writing, the substitution of environment variables, typed values, and the
    replacement of the backing file.  Streams are byte lists; the environment
    and the file system are parameters. *)

From S2P Require Import Prelude.
From S2P Require Import CText.

(** ** Characters; the argument is a [char] converted to [unsigned] *)

Definition isSpaceChar (uc : Z) : bool := (uc =? 32) || (uc =? 13) || (uc =? 9).
Definition isValueChar (uc : Z) : bool := negb (uc =? 13) && negb (uc =? 10).
Definition isKeyStartChar (uc : Z) : bool :=
  (u32 (uc - 97) <? 26) || (u32 (uc - 65) <? 26) || (uc =? 95).
Definition isKeyChar (uc : Z) : bool :=
  isKeyStartChar uc || (u32 (uc - 48) <? 10) || (uc =? 46) || (uc =? 45).

(** ** The state *)

(** [mData] is an unordered map, [mOrderList] points to its elements in the
    order of insertion, so values are read through the map. *)
Record IniFile := {
  mData : gmap bytes bytes;
  mOrderList : list bytes;
  mComments : list (Z * bytes);
  mBackingFilePath : bytes;
  mDirty : bool;
}.

Definition new_IniFile (path : bytes) : IniFile :=
  {| mData := ∅; mOrderList := []; mComments := []; mBackingFilePath := path; mDirty := true |}.

Definition setBackingFile (path : bytes) (f : IniFile) : IniFile :=
  {| mData := mData f; mOrderList := mOrderList f; mComments := mComments f;
     mBackingFilePath := path; mDirty := true |}.

(** [mData.emplace(key, "")], then the value, then the order list. *)
Definition put_data (key value : bytes) (f : IniFile) : IniFile :=
  {| mData := <[key := value]> (mData f);
     mOrderList := match mData f !! key with
                   | Some _ => mOrderList f
                   | None => mOrderList f ++ [key]
                   end;
     mComments := mComments f; mBackingFilePath := mBackingFilePath f; mDirty := mDirty f |}.

Definition add_comment (lineno : Z) (line : bytes) (f : IniFile) : IniFile :=
  {| mData := mData f; mOrderList := mOrderList f; mComments := mComments f ++ [(lineno, line)];
     mBackingFilePath := mBackingFilePath f; mDirty := mDirty f |}.

(** ** Parsing *)

Definition eat (pred : Z -> bool) (s : bytes) : bytes := snd (span pred s).

(** What the body of the loop makes of one line. *)
Inductive parsed_line := Comment | Invalid | KeyValue (key value : bytes).

Definition trim_right (s : bytes) : bytes := rev (eat isSpaceChar (rev s)).

Definition parse_line (line : bytes) : parsed_line :=
  match eat isSpaceChar line with
  | [] => Comment
  | c :: rest =>
      if (c =? 35) || (c =? 59) then Comment
      else if negb (isKeyStartChar c) then Invalid
      else
        let '(key, rest) := span isKeyChar rest in
        match eat isSpaceChar rest with
        | e :: rest =>
            if negb (e =? 61) then Invalid
            else
              let '(value, rest) := span isValueChar (eat isSpaceChar rest) in
              match eat isSpaceChar rest with
              | [] => KeyValue (c :: key) (trim_right value)
              | _ :: _ => Invalid
              end
        | [] => Invalid
        end
  end.

Fixpoint parse_lines (lines : list bytes) (keepComments : bool) (outputLineno : Z) (f : IniFile)
    : IniFile :=
  match lines with
  | [] => f
  | line :: lines =>
      let outputLineno := outputLineno + 1 in
      match parse_line line with
      | Comment =>
          parse_lines lines keepComments outputLineno
            (if keepComments then add_comment outputLineno line f else f)
      | Invalid => parse_lines lines keepComments (outputLineno - 1) f
      | KeyValue key value => parse_lines lines keepComments outputLineno (put_data key value f)
      end
  end.

Definition parseStream (input : bytes) (keepComments : bool) (f : IniFile) : IniFile :=
  parse_lines (getlines [] input) keepComments 0 f.

Definition cleared (f : IniFile) : IniFile :=
  {| mData := ∅; mOrderList := []; mComments := []; mBackingFilePath := mBackingFilePath f;
     mDirty := false |}.

Definition readFromMemory (data : bytes) (f : IniFile) : bool * IniFile :=
  (true, parseStream data true (cleared f)).

(** ** Writing *)

(** The inner loop: the comments that are due. *)
Fixpoint write_comments (comments : list (Z * bytes)) (lineno : Z) (out : bytes)
    : list (Z * bytes) * Z * bytes :=
  match comments with
  | (n, text) :: rest =>
      if n <=? lineno then write_comments rest (lineno + 1) (out ++ text ++ [10])
      else (comments, lineno, out)
  | [] => ([], lineno, out)
  end.

Fixpoint write_entries (data : gmap bytes bytes) (discardEmpty : bool) (order : list bytes)
    (comments : list (Z * bytes)) (lineno : Z) (out : bytes) : bytes :=
  match order with
  | [] => out
  | key :: order =>
      let '(comments, lineno, out) := write_comments comments (lineno + 1) out in
      let value := default [] (data !! key) in
      if discardEmpty && (zlen value =? 0)
      then write_entries data discardEmpty order comments lineno out
      else write_entries data discardEmpty order comments lineno
             (out ++ key ++ [32; 61; 32] ++ value ++ [10])
  end.

(** The text [writeCommonImpl] writes. *)
Definition ini_text (discardEmpty : bool) (f : IniFile) : bytes :=
  write_entries (mData f) discardEmpty (mOrderList f) (mComments f) 0 [].

(** ** The file system

    [oracle] says which of the next operations fail for reasons of their
    own; [taken] how many bytes of each of the next files written reach the
    disk, all of them once it is used up. *)

Record FileSystem := { files : gmap bytes bytes; oracle : list bool; taken : list nat }.

Definition fs_fails (fs : FileSystem) : bool * FileSystem :=
  match oracle fs with
  | b :: rest => (b, {| files := files fs; oracle := rest; taken := taken fs |})
  | [] => (false, fs)
  end.

(** What the disk takes of the next file written: after the first error an
    [ofstream] writes nothing more, so it is a prefix. *)
Definition disk_takes (fs : FileSystem) (content : bytes) : bytes :=
  match taken fs with n :: _ => take n content | [] => content end.

(** Writing a file through an [ofstream] that is opened with [trunc] and
    closed by its destructor: the first result says whether it was opened,
    the second whether everything reached the disk, which is what the state
    of the stream would say when it is flushed and looked at. *)
Definition fs_write (path content : bytes) (fs : FileSystem) : bool * bool * FileSystem :=
  let '(fails, fs) := fs_fails fs in
  if fails then (false, false, fs)
  else
    let written := disk_takes fs content in
    (true, zlen written =? zlen content,
     {| files := <[path := written]> (files fs); oracle := oracle fs; taken := tail (taken fs) |}).

(** [move]: [std::rename]; a failure, for whatever reason, is false and
    changes nothing. *)
Definition fs_move (from to : bytes) (fs : FileSystem) : bool * FileSystem :=
  let '(fails, fs) := fs_fails fs in
  match files fs !! from with
  | Some content =>
      if fails then (false, fs)
      else (true, {| files := <[to := content]> (delete from (files fs)); oracle := oracle fs; taken := taken fs |})
  | None => (false, fs)
  end.

(** [std::filesystem::remove] throws when it fails: the first result is
    false. *)
Definition fs_remove (path : bytes) (fs : FileSystem) : bool * FileSystem :=
  let '(fails, fs) := fs_fails fs in
  if fails then (false, fs)
  else (true, {| files := delete path (files fs); oracle := oracle fs; taken := taken fs |}).

Definition clean (f : IniFile) : IniFile :=
  {| mData := mData f; mOrderList := mOrderList f; mComments := mComments f;
     mBackingFilePath := mBackingFilePath f; mDirty := false |}.

(** The stream is looked at after it was opened and not after it was
    written. *)
Definition writeCommonImpl (discardEmpty : bool) (filePath : bytes) (f : IniFile) (fs : FileSystem)
    : bool * IniFile * FileSystem :=
  let '(opened, _, fs) := fs_write filePath (ini_text discardEmpty f) fs in
  (opened, if opened then clean f else f, fs).

Definition iniFileNew (f : IniFile) : bytes := mBackingFilePath f ++ str ".new".
Definition iniFileOld (f : IniFile) : bytes := mBackingFilePath f ++ str ".old".

(** How a write ends: it returns, or an exception leaves it. *)
Inductive write_result := Returned (ok : bool) | Threw.

Definition writeCommon (discardEmpty : bool) (f : IniFile) (fs : FileSystem)
    : write_result * IniFile * FileSystem :=
  if zlen (mBackingFilePath f) =? 0 then (Returned false, f, fs)
  else
    let path := mBackingFilePath f in
    let '(ok, f, fs) := writeCommonImpl discardEmpty (iniFileNew f) f fs in
    if negb ok then (Returned false, f, fs)
    else
      let '(removed, fs) := fs_remove (iniFileOld f) fs in
      if negb removed then (Threw, f, fs)
      else
        let '(deleteOldConfig, fs) := fs_move path (iniFileOld f) fs in
        let '(ok, fs) := fs_move (iniFileNew f) path fs in
        if negb ok then
          let fs := if (deleteOldConfig : bool) then snd (fs_move (iniFileOld f) path fs) else fs in
          let '(removed, fs) := fs_remove (iniFileNew f) fs in
          (if removed then Returned false else Threw, f, fs)
        else if deleteOldConfig then
          let '(removed, fs) := fs_remove (iniFileOld f) fs in
          (if removed then Returned true else Threw, f, fs)
        else (Returned true, f, fs).

Definition write_ini (f : IniFile) (fs : FileSystem) := writeCommon false f fs.
Definition writeDiscardingEmpty (f : IniFile) (fs : FileSystem) := writeCommon true f fs.
Definition writeIfChanged (f : IniFile) (fs : FileSystem) : write_result * IniFile * FileSystem :=
  if negb (mDirty f) then (Returned true, f, fs) else writeCommon false f fs.

Definition kMaxIniFileSize : Z := 655360.

Definition read_ini (keepComments : bool) (f : IniFile) (fs : FileSystem)
    : bool * IniFile * FileSystem :=
  let f := cleared f in
  if zlen (mBackingFilePath f) =? 0 then (false, f, fs)
  else
    let '(fails, fs) := fs_fails fs in
    match files fs !! mBackingFilePath f with
    | Some content =>
        if (fails : bool) then (false, f, fs)
        else if kMaxIniFileSize <? zlen content then (false, f, fs)
        else (true, parseStream content keepComments f, fs)
    | None => (false, f, fs)
    end.

(** ** Values *)

Definition size (f : IniFile) : Z := zlen (mOrderList f).

Definition hasKey (key : bytes) (f : IniFile) : bool :=
  match mData f !! c_str key with Some _ => true | None => false end.

Definition hex_upper (d : Z) : Z := if d <? 10 then 48 + d else 65 + (d - 10).

(** [std::hex] of an [int]: eight digits for a negative [char]. *)
Definition key_escape (c : Z) : bytes :=
  46 :: (if c <? 128 then [] else [70; 70; 70; 70; 70; 70]) ++ [hex_upper (c / 16); hex_upper (c mod 16)].

Definition makeValidKey (s : bytes) : bytes :=
  95 :: flat_map (fun c => if isKeyChar c then [c] else key_escape c) s.

Fixpoint makeValidValue (s : bytes) : bytes :=
  match s with
  | [] => []
  | c :: s => if c =? 0 then [] else (if c =? 37 then [37; 37] else [c]) ++ makeValidValue s
  end.

Section getters.
(** [System::envGet]. *)
Context (envGet : bytes -> bytes).

(** The loop of [envSubst]; [var] is [None] while [curr] is [&res]. *)
Fixpoint envSubst_loop (fix_ : bytes) (res : bytes) (var : option bytes) : bytes :=
  match fix_ with
  | [] => match var with Some v => res ++ [37] ++ v | None => res end
  | ch :: rest =>
      if negb (ch =? 37) then
        match var with
        | Some v => envSubst_loop rest res (Some (v ++ [ch]))
        | None => envSubst_loop rest (res ++ [ch]) None
        end
      else
        match var with
        | Some v => envSubst_loop rest (res ++ envGet v) None
        | None =>
            match rest with
            | next :: rest' =>
                if next =? 37 then envSubst_loop rest' (res ++ [ch]) None
                else envSubst_loop rest res (Some [])
            | [] => envSubst_loop rest res (Some [])
            end
        end
  end.

Definition envSubst (fix_ : bytes) : bytes := envSubst_loop fix_ [] None.

Definition getString (key defaultValue : bytes) (f : IniFile) : bytes :=
  envSubst (default defaultValue (mData f !! key)).

Definition getInt (key : bytes) (defaultValue : Z) (f : IniFile) : Z :=
  match mData f !! key with
  | None => defaultValue
  | Some _ =>
      let '(result, errno, end_) := strtoll (c_str (getString key [] f)) in
      if errno || negb (head0 end_ =? 0) then defaultValue else s32 result
  end.

Definition getInt64 (key : bytes) (defaultValue : Z) (f : IniFile) : Z :=
  match mData f !! key with
  | None => defaultValue
  | Some _ =>
      let '(result, errno, end_) := strtoll (c_str (getString key [] f)) in
      if errno || negb (head0 end_ =? 0) then defaultValue else result
  end.

(** The comparisons are as long as the value, not as the literal. *)
Definition isBoolTrue (value : bytes) : bool :=
  strncasecmp_eq (str "yes") value (length value) ||
  strncasecmp_eq (str "true") value (length value) ||
  strncasecmp_eq (str "1") value (length value).

Definition isBoolFalse (value : bytes) : bool :=
  strncasecmp_eq (str "no") value (length value) ||
  strncasecmp_eq (str "false") value (length value) ||
  strncasecmp_eq (str "0") value (length value).

Definition getBool (key : bytes) (defaultValue : bool) (f : IniFile) : bool :=
  match mData f !! key with
  | None => defaultValue
  | Some _ =>
      let value := getString key [] f in
      if isBoolTrue value then true else if isBoolFalse value then false else defaultValue
  end.

(** [parseDiskSize]: the value and whether it was malformed. *)
Definition parseDiskSize (valueStr : bytes) (defaultValue : Z) : Z * bool :=
  let '(v, errno, end_) := strtoll (c_str valueStr) in
  let result := u64 v in
  if errno then (defaultValue, true)
  else
    let c := head0 end_ in
    if c =? 0 then (result, false)
    else if (c =? 107) || (c =? 75) then (u64 (result * 1024), false)
    else if (c =? 109) || (c =? 77) then (u64 (result * (1024 * 1024)), false)
    else if (c =? 103) || (c =? 71) then (u64 (result * (1024 * 1024 * 1024)), false)
    else (defaultValue, true).

Definition getDiskSize (key : bytes) (defaultValue : Z) (f : IniFile) : Z :=
  if negb (hasKey key f) then defaultValue
  else fst (parseDiskSize (getString key [] f) defaultValue).

End getters.

Definition updateData (key value : bytes) (f : IniFile) : IniFile :=
  let f := put_data key value f in
  {| mData := mData f; mOrderList := mOrderList f; mComments := mComments f;
     mBackingFilePath := mBackingFilePath f; mDirty := true |}.

(** The value is passed as a C string. *)
Definition setString (key value : bytes) (f : IniFile) : IniFile := updateData key (c_str value) f.
Definition setInt (key : bytes) (value : Z) (f : IniFile) : IniFile := updateData key (to_string value) f.
Definition setInt64 (key : bytes) (value : Z) (f : IniFile) : IniFile := updateData key (to_string value) f.
Definition setBool (key : bytes) (value : bool) (f : IniFile) : IniFile :=
  updateData key (if value then str "true" else str "false") f.

Definition diskSize_text (value : Z) : bytes :=
  let kKilo := 1024 in let kMega := 1024 * kKilo in let kGiga := 1024 * kMega in
  if (kGiga <=? value) && (value mod kGiga =? 0) then to_string (value / kGiga) ++ [103]
  else if (kMega <=? value) && (value mod kMega =? 0) then to_string (value / kMega) ++ [109]
  else if (kKilo <=? value) && (value mod kKilo =? 0) then to_string (value / kKilo) ++ [107]
  else to_string value.

Definition setDiskSize (key : bytes) (value : Z) (f : IniFile) : IniFile :=
  updateData key (diskSize_text value) f.

(** ** Specifications *)

(** Keys that [parse_line] reads back, and values it does not change. *)
Definition key_ok (key : bytes) : Prop :=
  match key with
  | c :: rest => isKeyStartChar c = true /\ Forall (fun c => isKeyChar c = true) rest
  | [] => False
  end.

Definition value_ok (v : bytes) : Prop :=
  Forall (fun c => isValueChar c = true) v /\
  match v with [] => True | c :: _ => isSpaceChar c = false end /\
  match rev v with [] => True | c :: _ => isSpaceChar c = false end.

(** The order list is the domain of the map, once each. *)
Definition ini_ok (f : IniFile) : Prop :=
  NoDup (mOrderList f) /\ (forall key, key ∈ mOrderList f <-> is_Some (mData f !! key)).

Definition ini_writable (f : IniFile) : Prop :=
  ini_ok f /\ Forall key_ok (mOrderList f) /\
  forall key v, mData f !! key = Some v -> value_ok v.

(** Canonical lines of an ini file. *)
Inductive ini_line := CommentLine (text : bytes) | KeyLine (key value : bytes).

Definition line_text (l : ini_line) : bytes :=
  match l with
  | CommentLine text => text
  | KeyLine key value => key ++ [32; 61; 32] ++ value
  end.

Definition line_ok (l : ini_line) : Prop :=
  match l with
  | CommentLine text => parse_line text = Comment /\ Forall (fun c => c <> 10) text
  | KeyLine key value => key_ok key /\ value_ok value
  end.

Definition file_text (ls : list ini_line) : bytes := concat (map (fun l => line_text l ++ [10]) ls).

Definition line_keys (ls : list ini_line) : list bytes :=
  flat_map (fun l => match l with KeyLine key _ => [key] | CommentLine _ => [] end) ls.

(** Comments numbered as [parseStream] numbers them. *)
Fixpoint numbered_comments (n : Z) (ls : list ini_line) : list (Z * bytes) :=
  match ls with
  | [] => []
  | CommentLine text :: ls => (n + 1, text) :: numbered_comments (n + 1) ls
  | KeyLine _ _ :: ls => numbered_comments (n + 1) ls
  end.

Definition line_data (ls : list ini_line) : gmap bytes bytes :=
  list_to_map (flat_map (fun l => match l with KeyLine k v => [(k, v)] | CommentLine _ => [] end) ls).

(** The lines a writer makes of the entries it keeps. *)
Definition kept_lines (data : gmap bytes bytes) (discardEmpty : bool) (order : list bytes)
    : list ini_line :=
  flat_map (fun key => let value := default [] (data !! key) in
              if discardEmpty && (zlen value =? 0) then [] else [KeyLine key value]) order.

(** The file ends with a key, so no comment is left behind. *)
Definition ends_with_key (ls : list ini_line) : Prop :=
  match last ls with Some (CommentLine _) => False | _ => True end.

(** A prefix of a literal, without regard to case. *)
Definition case_prefix (value literal : bytes) : Prop :=
  exists t, map tolower literal = map tolower value ++ t.

(** ** Lemmas: lines *)

Lemma eat_head pred c s : pred c = false -> eat pred (c :: s) = c :: s.
Proof. intros Hc. unfold eat. cbn. by rewrite Hc. Qed.

Lemma eat_cons pred c s : pred c = true -> eat pred (c :: s) = eat pred s.
Proof. intros Hc. unfold eat. cbn. rewrite Hc. by destruct (span pred s). Qed.

Lemma eat_nothing pred s :
  match s with [] => True | c :: _ => pred c = false end -> eat pred s = s.
Proof. destruct s; [done|]. apply eat_head. Qed.

(** A character with a property that the constant [k] does not have. *)
Lemma char_ne (pred : Z -> bool) c k : pred c = true -> pred k = false -> c <> k.
Proof. congruence. Qed.

Lemma trim_right_ok v :
  match rev v with [] => True | c :: _ => isSpaceChar c = false end -> trim_right v = v.
Proof. intros Hv. unfold trim_right. rewrite eat_nothing by done. apply rev_involutive. Qed.

Lemma parse_line_key key v :
  key_ok key -> value_ok v -> parse_line (key ++ [32; 61; 32] ++ v) = KeyValue key v.
Proof.
  destruct key as [|c key]; [done|]. intros [Hc Hk] (Hv & Hhead & Hlast).
  unfold parse_line. cbn [app].
  pose proof (fun k => char_ne isKeyStartChar c k Hc) as Hne.
  assert (isSpaceChar c = false) as Hsp.
  { unfold isSpaceChar. by rewrite !(proj2 (Z.eqb_neq _ _)) by (apply Hne; reflexivity). }
  rewrite eat_head by done.
  rewrite !(proj2 (Z.eqb_neq _ _)) by (apply Hne; reflexivity).
  rewrite Hc, (span_all isKeyChar key) by done. cbn [orb negb].
  change (eat isSpaceChar (32 :: 61 :: 32 :: v)) with (61 :: 32 :: v).
  change (negb (61 =? 61)) with false. cbv iota.
  rewrite eat_cons, eat_nothing by done.
  pose proof (span_all isValueChar v [] Hv I) as E. rewrite app_nil_r in E. rewrite E.
  change (eat isSpaceChar []) with (@nil Z). cbv iota. by rewrite trim_right_ok.
Qed.

Lemma line_text_no_newline l : line_ok l -> Forall (fun c => c <> 10) (line_text l).
Proof.
  destruct l as [text|[|c key] v]; cbn; [tauto|tauto|]. intros [[Hc Hk] [Hv _]].
  constructor; [by apply (char_ne isKeyStartChar)|]. apply Forall_app. split.
  - eapply Forall_impl; [exact Hk|]. intros x Hx. by apply (char_ne isKeyChar).
  - do 3 (constructor; [done|]). eapply Forall_impl; [exact Hv|].
    intros x Hx. by apply (char_ne isValueChar).
Qed.

Lemma parse_lines_canonical ls : forall n f,
  Forall line_ok ls -> NoDup (line_keys ls) ->
  (forall key, key ∈ line_keys ls -> mData f !! key = None) ->
  parse_lines (map line_text ls) true n f =
  {| mData := line_data ls ∪ mData f; mOrderList := mOrderList f ++ line_keys ls;
     mComments := mComments f ++ numbered_comments n ls;
     mBackingFilePath := mBackingFilePath f; mDirty := mDirty f |}.
Proof.
  induction ls as [|l ls IH]; intros n f Hls Hnd Hfresh; cbn [map parse_lines].
  { unfold line_data. cbn. rewrite !app_nil_r, map_empty_union. by destruct f. }
  apply Forall_cons in Hls as [Hl Hls]. destruct l as [text|key v]; cbn [line_text].
  - destruct Hl as [-> _]. rewrite IH by done. cbn. by rewrite <- app_assoc.
  - destruct Hl as [Hk Hv]. rewrite parse_line_key by done. cbn in Hnd.
    apply NoDup_cons in Hnd as [Hin Hnd].
    assert (mData f !! key = None) as Hnone by (apply Hfresh; cbn; set_solver).
    rewrite IH; [|done|done|].
    + cbn. rewrite Hnone, <- app_assoc. cbn. f_equal.
      unfold line_data. cbn. rewrite <- insert_union_r, insert_union_l; [done|].
      apply not_elem_of_list_to_map_1. intros Hk'. apply Hin.
      apply list_elem_of_fmap in Hk' as ([k w] & -> & Hkw). cbn.
      apply list_elem_of_In, in_flat_map in Hkw as (l & Hl & Hlk).
      apply list_elem_of_In, in_flat_map. exists l. split; [done|].
      destruct l; cbn in *; [done|]. destruct Hlk as [[= -> _]|[]]. by left.
    + intros k Hk'. cbn. rewrite lookup_insert_ne by set_solver. apply Hfresh. cbn. set_solver.
Qed.

Lemma parse_file_text ls f :
  Forall line_ok ls -> NoDup (line_keys ls) ->
  readFromMemory (file_text ls) f =
  (true, {| mData := line_data ls; mOrderList := line_keys ls;
            mComments := numbered_comments 0 ls;
            mBackingFilePath := mBackingFilePath f; mDirty := false |}).
Proof.
  intros Hls Hnd. unfold readFromMemory, parseStream, file_text.
  rewrite <- (map_map line_text (fun l => l ++ [10])), getlines_concat.
  - rewrite parse_lines_canonical by done. cbn. by rewrite map_union_empty.
  - apply Forall_map. eapply Forall_impl; [exact Hls|]. apply line_text_no_newline.
Qed.

(** ** Lemmas: writing *)

Lemma file_text_cons l ls : file_text (l :: ls) = line_text l ++ 10 :: file_text ls.
Proof. unfold file_text. cbn. by rewrite <- app_assoc. Qed.

Lemma write_entries_plain data d order : forall n out,
  write_entries data d order [] n out = out ++ file_text (kept_lines data d order).
Proof.
  induction order as [|key order IH]; intros n out; cbn [write_entries write_comments kept_lines flat_map].
  { by rewrite app_nil_r. }
  destruct (d && _); [apply IH|]. rewrite IH. cbn [app]. rewrite file_text_cons. cbn [line_text].
  rewrite <- !app_assoc. do 2 f_equal. cbn. by rewrite <- app_assoc.
Qed.

Lemma numbered_comments_later n ls k text rest :
  numbered_comments n ls = (k, text) :: rest -> n < k.
Proof.
  revert n. induction ls as [|[t|key v] ls IH]; intros n; cbn; [done|intros [= <- _ _]; lia|].
  intros E%IH. lia.
Qed.

Lemma write_comments_none n ls out :
  write_comments (numbered_comments n ls) n out = (numbered_comments n ls, n, out).
Proof.
  destruct (numbered_comments n ls) as [|[k text] rest] eqn:E; [done|]. cbn.
  apply numbered_comments_later in E. by rewrite (proj2 (Z.leb_gt _ _)).
Qed.

(** The writer puts the comments back where they were. *)
Lemma write_entries_canonical ls : forall data n out,
  ends_with_key ls ->
  (forall key v, KeyLine key v ∈ ls -> data !! key = Some v) ->
  write_entries data false (line_keys ls) (numbered_comments n ls) n out = out ++ file_text ls.
Proof.
  induction ls as [|l ls IH]; intros data n out Hend Hdata; [by cbn; rewrite app_nil_r|].
  rewrite file_text_cons. destruct l as [text|key v].
  - assert (ls <> []) as Hne by (intros ->; done).
    assert (ends_with_key ls) as Hend' by (by destruct ls).
    cbn [line_keys flat_map numbered_comments app line_text].
    change (flat_map _ ls) with (line_keys ls).
    transitivity (write_entries data false (line_keys ls) (numbered_comments (n + 1) ls) (n + 1)
      (out ++ text ++ [10])).
    + destruct (line_keys ls) as [|key order] eqn:Ek.
      { exfalso. clear -Hne Hend' Ek. unfold ends_with_key in Hend'.
        destruct ls as [|l ls] using rev_ind; [done|]. rewrite last_snoc in Hend'.
        unfold line_keys in Ek. rewrite flat_map_app in Ek. apply app_nil in Ek as [_ Ek].
        by destruct l. }
      cbn [write_entries write_comments]. by rewrite Z.leb_refl.
    + rewrite IH; [by rewrite <- !app_assoc|done|]. intros k v Hk. apply Hdata. set_solver.
  - cbn [line_keys flat_map numbered_comments app write_entries].
    change (flat_map _ ls) with (line_keys ls). rewrite write_comments_none.
    rewrite (Hdata key v) by set_solver. cbn [default andb].
    rewrite IH.
    + cbn. rewrite <- !app_assoc. cbn. by rewrite <- ?app_assoc.
    + unfold ends_with_key in *. destruct ls; [done|]. exact Hend.
    + intros k w Hk. apply Hdata. set_solver.
Qed.

(** ** Lemmas: values *)

Lemma envSubst_loop_plain envGet s res :
  Forall (fun c => c <> 37) s -> envSubst_loop envGet s res None = res ++ s.
Proof.
  intros Hs. revert res. induction Hs as [|c s Hc Hs IH]; intros res; cbn; [by rewrite app_nil_r|].
  rewrite (proj2 (Z.eqb_neq _ _) Hc). cbn [negb]. by rewrite IH, <- app_assoc.
Qed.

Lemma envSubst_plain envGet s : Forall (fun c => c <> 37) s -> envSubst envGet s = s.
Proof. apply envSubst_loop_plain. Qed.

Lemma envSubst_loop_valid envGet s res :
  envSubst_loop envGet (makeValidValue s) res None = res ++ c_str s.
Proof.
  revert res. induction s as [|c s IH]; intros res; cbn [makeValidValue]; [cbn; by rewrite app_nil_r|].
  unfold c_str. cbn [span]. destruct (Z.eqb_spec c 0) as [->|H0]; cbn [negb]; [cbn; by rewrite app_nil_r|].
  change (fst (let '(a, b) := span (fun c => negb (c =? 0)) s in (c :: a, b)))
    with (fst (let '(a, b) := span (fun c => negb (c =? 0)) s in (c :: a, b))).
  assert (fst (let '(a, b) := span (fun c => negb (c =? 0)) s in (c :: a, b)) = c :: c_str s) as ->
    by (unfold c_str; by destruct (span _ s)).
  destruct (Z.eqb_spec c 37) as [->|H37]; cbn [app envSubst_loop].
  - change (37 =? 37) with true. cbn [negb]. by rewrite IH, <- app_assoc.
  - rewrite (proj2 (Z.eqb_neq _ _) H37). cbn [negb]. by rewrite IH, <- app_assoc.
Qed.

(** A value just stored. *)
Lemma get_updateData key value f : mData (updateData key value f) !! key = Some value.
Proof. cbn. apply lookup_insert_eq. Qed.

Lemma digits_plain ds :
  Forall (fun c => is_digit c = true) ds ->
  Forall (fun c => c <> 37) ds /\ Forall (fun c => c <> 0) ds.
Proof.
  intros Hd. split; (eapply Forall_impl; [exact Hd|]); intros c Hc; by apply (char_ne is_digit).
Qed.

(** Number texts pass through the substitution and [c_str] unchanged. *)
Lemma to_string_plain n :
  Forall (fun c => c <> 37) (to_string n) /\ Forall (fun c => c <> 0) (to_string n).
Proof.
  destruct (Z.lt_ge_cases n 0) as [Hn|Hn].
  - assert (to_string n = 45 :: to_string (- n)) as ->.
    { unfold to_string. rewrite (proj2 (Z.ltb_lt n 0)), (proj2 (Z.ltb_ge (- n) 0)) by lia. done. }
    destruct (to_string_nonneg (- n) ltac:(lia)) as (Hd & _). apply digits_plain in Hd as [? ?].
    split; by constructor.
  - destruct (to_string_nonneg n Hn) as (Hd & _). by apply digits_plain.
Qed.

Lemma get_text envGet key text def f :
  Forall (fun c => c <> 37) text -> Forall (fun c => c <> 0) text ->
  c_str (getString envGet key def (updateData key text f)) = text.
Proof.
  intros H37 H0. unfold getString. rewrite get_updateData. cbn [default].
  by rewrite envSubst_plain, c_str_id.
Qed.

Lemma strtoll_to_string_s64 n : in_s 64 n -> strtoll (to_string n) = (n, false, []).
Proof.
  unfold in_s. change (64 - 1) with 63. intros Hn. destruct (Z.lt_ge_cases n 0).
  - apply strtoll_to_string_neg; lia.
  - pose proof (strtoll_to_string n [] ltac:(lia) I) as E. rewrite app_nil_r in E.
    by rewrite E, (proj2 (Z.ltb_lt _ _)) by lia.
Qed.

(** A number with a suffix. *)
Lemma parseDiskSize_suffix n def c mult :
  in_u 63 n -> (c, mult) ∈ [(107, 1024); (109, 1024 * 1024); (103, 1024 * 1024 * 1024)] ->
  parseDiskSize (to_string n ++ [c]) def = (u64 (n * mult), false).
Proof.
  unfold in_u. intros Hn Hc. unfold parseDiskSize.
  assert (is_digit c = false /\ c <> 0) as [Hdig H0].
  { rewrite !elem_of_cons in Hc. destruct Hc as [[= -> _]|[[= -> _]|[[= -> _]|Hc]]]; [done..|].
    by apply elem_of_nil in Hc. }
  destruct (to_string_plain n) as [_ Hz].
  rewrite c_str_id by (apply Forall_app; split; [done|by constructor]).
  rewrite strtoll_to_string, (proj2 (Z.ltb_lt n _)) by (try done; lia).
  rewrite (wrap_small 64 n) by (unfold in_u; lia). cbn [head0].
  rewrite !elem_of_cons in Hc. destruct Hc as [[= -> ->]|[[= -> ->]|[[= -> ->]|Hc]]]; [done..|].
  by apply elem_of_nil in Hc.
Qed.

Lemma parseDiskSize_plain n def :
  0 <= n -> parseDiskSize (to_string n) def = if n <? 2 ^ 63 then (u64 n, false) else (def, true).
Proof.
  intros Hn. unfold parseDiskSize. rewrite c_str_id by apply to_string_plain.
  pose proof (strtoll_to_string n [] Hn I) as E. rewrite app_nil_r in E. rewrite E.
  by destruct (n <? 2 ^ 63).
Qed.

(** The four cases of [setDiskSize] fold into one: a multiple of [mult]. *)
Lemma diskSize_scaled n mult c def :
  in_u 64 n -> n mod mult = 0 ->
  (c, mult) ∈ [(107, 1024); (109, 1024 * 1024); (103, 1024 * 1024 * 1024)] ->
  parseDiskSize (to_string (n / mult) ++ [c]) def = (n, false).
Proof.
  intros Hn Hm Hc.
  assert (1024 <= mult) as Hmult.
  { rewrite !elem_of_cons in Hc. destruct Hc as [[= _ ->]|[[= _ ->]|[[= _ ->]|Hc]]]; [lia..|].
    by apply elem_of_nil in Hc. }
  pose proof (Z.div_mod n mult ltac:(lia)) as Hdiv. unfold in_u in Hn.
  assert (0 <= n / mult < 2 ^ 63).
  { split; [apply Z.div_pos; lia|]. apply Z.div_lt_upper_bound; nia. }
  rewrite (parseDiskSize_suffix _ def c mult) by done.
  replace (n / mult * mult) with n by nia. by rewrite wrap_small.
Qed.

Lemma parseDiskSize_text n def :
  in_u 64 n ->
  parseDiskSize (diskSize_text n) def =
  if (n <? 2 ^ 63) || (n mod 1024 =? 0) then (n, false) else (def, true).
Proof.
  intros Hn. unfold diskSize_text. pose proof Hn as Hr. unfold in_u in Hr.
  assert (forall m, n mod (1024 * m) = 0 -> 0 < m -> n mod 1024 = 0) as Hdvd.
  { intros m Hm Hpos. apply Z.mod_divide; [lia|]. apply Z.mod_divide in Hm; [|lia].
    etransitivity; [|exact Hm]. apply Z.divide_factor_l. }
  destruct (_ && _) eqn:E1.
  { apply andb_true_iff in E1 as [_ E1%Z.eqb_eq].
    rewrite (Hdvd (1024 * 1024)) by (done || lia). rewrite orb_true_r.
    apply diskSize_scaled; [done|done|set_solver]. }
  destruct ((1024 * 1024 <=? n) && _) eqn:E2.
  { apply andb_true_iff in E2 as [_ E2%Z.eqb_eq].
    rewrite (Hdvd 1024) by (done || lia). rewrite orb_true_r.
    apply diskSize_scaled; [done|done|set_solver]. }
  destruct ((1024 <=? n) && _) eqn:E3.
  { apply andb_true_iff in E3 as [_ E3%Z.eqb_eq]. rewrite E3, orb_true_r.
    apply diskSize_scaled; [done|done|set_solver]. }
  rewrite parseDiskSize_plain by lia. rewrite (wrap_small 64 n) by done.
  destruct (Z.ltb_spec n (2 ^ 63)); [done|]. cbn [orb].
  rewrite (proj2 (Z.leb_le 1024 n)) in E3 by lia. cbn in E3. by rewrite E3.
Qed.

(** A comparison as long as the value is a prefix test. *)
Lemma strncasecmp_prefix lit v :
  c_string lit -> c_string v ->
  strncasecmp_eq lit v (length v) = true <-> case_prefix v lit.
Proof.
  unfold case_prefix, strncasecmp_eq. intros Hl Hv. revert lit Hl.
  induction Hv as [|y v Hy Hv IH]; intros lit Hl; cbn; [split; eauto|].
  destruct lit as [|x lit].
  - cbn. rewrite Z.eqb_eq. split; [done|]. by intros [t E].
  - apply Forall_cons in Hl as [Hx Hl]. cbn. rewrite andb_true_iff, orb_true_iff, (IH lit Hl), !Z.eqb_eq. split.
    + intros [-> [?|[t ->]]]; [done|]. by exists t.
    + intros [t [= -> ->]]. split; [done|]. right. by exists t.
Qed.

(** ** Lemmas: the file system *)

Lemma fs_fails_files fs : files (snd (fs_fails fs)) = files fs.
Proof. unfold fs_fails. by destruct (oracle fs). Qed.

Lemma fs_fails_taken fs : taken (snd (fs_fails fs)) = taken fs.
Proof. unfold fs_fails. by destruct (oracle fs). Qed.

Lemma disk_takes_prefix fs content : disk_takes fs content `prefix_of` content.
Proof. unfold disk_takes. destruct (taken fs) as [|n l]; [done|]. exists (drop n content). by rewrite take_drop. Qed.

Lemma disk_takes_all fs content : taken fs = [] -> disk_takes fs content = content.
Proof. unfold disk_takes. by intros ->. Qed.

Lemma fs_write_spec path content fs :
  exists ok all fs', fs_write path content fs = (ok, all, fs') /\
    files fs' = if ok then <[path := disk_takes fs content]> (files fs) else files fs.
Proof.
  unfold fs_write, disk_takes. pose proof (fs_fails_files fs) as E. pose proof (fs_fails_taken fs) as Et.
  destruct (fs_fails fs) as [b fs1]. cbn in E, Et.
  destruct b; eexists _, _, _; (split; [reflexivity|]); cbn; [done|]. unfold disk_takes. by rewrite E, Et.
Qed.

Lemma fs_remove_spec path fs :
  exists ok fs', fs_remove path fs = (ok, fs') /\
    files fs' = if ok then delete path (files fs) else files fs.
Proof.
  unfold fs_remove. pose proof (fs_fails_files fs) as E. destruct (fs_fails fs) as [b fs1].
  cbn in E. destruct b; eexists _, _; (split; [reflexivity|]); cbn; congruence.
Qed.

Lemma fs_move_spec from to fs :
  exists ok fs', fs_move from to fs = (ok, fs') /\
    if ok then exists c, files fs !! from = Some c /\ files fs' = <[to := c]> (delete from (files fs))
    else files fs' = files fs.
Proof.
  unfold fs_move. pose proof (fs_fails_files fs) as E. destruct (fs_fails fs) as [b fs1].
  cbn in E. rewrite E. destruct (files fs !! from) as [c|] eqn:Ef; [destruct b|];
    eexists _, _; (split; [reflexivity|]); cbn; try congruence.
  exists c. by rewrite <- E.
Qed.

Lemma path_names f :
  iniFileNew f <> mBackingFilePath f /\ iniFileOld f <> mBackingFilePath f /\
  iniFileNew f <> iniFileOld f.
Proof.
  unfold iniFileNew, iniFileOld. split_and!; intros E.
  - rewrite <- (app_nil_r (mBackingFilePath f)) in E at 2. by apply app_inv_head in E.
  - rewrite <- (app_nil_r (mBackingFilePath f)) in E at 2. by apply app_inv_head in E.
  - by apply app_inv_head in E.
Qed.

(** What a write may leave: the text as it was written, the old content, or
    the old content under the name [.old]. *)
Definition write_outcome (f : IniFile) (text : bytes) (before after : gmap bytes bytes) : Prop :=
  let path := mBackingFilePath f in
  after !! path = Some text \/ after !! path = before !! path \/
  (after !! path = None /\ after !! iniFileOld f = before !! path).

Definition untouched (f : IniFile) (before after : gmap bytes bytes) : Prop :=
  forall p, p <> mBackingFilePath f -> p <> iniFileNew f -> p <> iniFileOld f ->
    after !! p = before !! p.

(** Lookups in the maps the operations leave. *)
Ltac solve_files :=
  repeat match goal with H : files _ = _ |- _ => rewrite H in * end;
  repeat first [rewrite lookup_insert_eq in * | rewrite lookup_delete_eq in *
    | rewrite lookup_insert_ne in * by congruence | rewrite lookup_delete_ne in * by congruence];
  try congruence.

(** A goal about the files left: the three cases of [write_outcome], or one
    lookup. *)
Ltac finish_files :=
  split_and!; try done; intros;
  first [ left; solve_files; done | right; left; solve_files; done
        | right; right; split; solve_files; done | solve_files; done ].

Lemma writeCommon_spec d f fs :
  mBackingFilePath f <> [] ->
  let '(o, f', fs') := writeCommon d f fs in
  let written := disk_takes fs (ini_text d f) in
  write_outcome f written (files fs) (files fs') /\ untouched f (files fs) (files fs') /\
  (o = Returned true -> files fs' !! mBackingFilePath f = Some written) /\
  (mDirty f' = true -> mDirty f = true /\ files fs' = files fs).
Proof.
  intros Hp. destruct (path_names f) as (N1 & N2 & N3). unfold writeCommon, writeCommonImpl.
  rewrite (proj2 (Z.eqb_neq _ 0)).
  2:{ destruct (mBackingFilePath f); [done|]. rewrite zlen_cons. pose proof (zlen_nonneg l). lia. }
  destruct (fs_write_spec (iniFileNew f) (ini_text d f) fs) as (ok & all & fs1 & -> & E1).
  set (written := disk_takes fs _) in *. clearbody written.
  unfold write_outcome, untouched. destruct ok; cbn [negb].
  2:{ finish_files. }
  change (iniFileOld (clean f)) with (iniFileOld f). change (iniFileNew (clean f)) with (iniFileNew f).
  destruct (fs_remove_spec (iniFileOld f) fs1) as (ok & fs2 & -> & E2).
  destruct ok; cbn [negb]; rewrite E1 in E2.
  2:{ finish_files. }
  destruct (fs_move_spec (mBackingFilePath f) (iniFileOld f) fs2) as (moved & fs3 & -> & E3).
  destruct (fs_move_spec (iniFileNew f) (mBackingFilePath f) fs3) as (ok & fs4 & -> & E4).
  assert (fs_ok : files fs3 !! iniFileNew f = Some written).
  { destruct moved; [destruct E3 as (c & _ & E3)|]; solve_files. }
  destruct ok; cbn [negb].
  - destruct E4 as (c4 & Ec4 & E4). rewrite fs_ok in Ec4. injection Ec4 as <-.
    destruct moved; [destruct E3 as (c & Ec & E3)|].
    + destruct (fs_remove_spec (iniFileOld f) fs4) as (ok & fs5 & -> & E5).
      destruct ok; finish_files.
    + finish_files.
  - destruct moved; [destruct E3 as (c & Ec & E3)|].
    + destruct (fs_move_spec (iniFileOld f) (mBackingFilePath f) fs4) as (back & fs5 & -> & E5).
      cbn [snd]. destruct (fs_remove_spec (iniFileNew f) fs5) as (ok & fs6 & -> & E6).
      assert (Ec' : files fs !! mBackingFilePath f = Some c) by solve_files.
      destruct back; [destruct E5 as (c5 & Ec5 & E5)|]; destruct ok;
        finish_files.
    + destruct (fs_remove_spec (iniFileNew f) fs4) as (ok & fs6 & -> & E6).
      destruct ok; finish_files.
Qed.

(** What the kept lines say. *)
Definition dropped (data : gmap bytes bytes) (discardEmpty : bool) (key : bytes) : bool :=
  discardEmpty && (zlen (default [] (data !! key)) =? 0).

Lemma kept_lines_facts data d order :
  (forall n, numbered_comments n (kept_lines data d order) = []) /\
  line_keys (kept_lines data d order) = filter (fun key => dropped data d key = false) order /\
  forall key, line_data (kept_lines data d order) !! key =
    if decide (key ∈ order /\ dropped data d key = false)
    then Some (default [] (data !! key)) else None.
Proof.
  induction order as [|k order (IH1 & IH2 & IH3)].
  { split_and!; [done|done|]. intros key. rewrite decide_False by set_solver. apply lookup_empty. }
  change (kept_lines data d (k :: order)) with
    ((if dropped data d k then [] else [KeyLine k (default [] (data !! k))]) ++
     kept_lines data d order).
  rewrite filter_cons. destruct (dropped data d k) eqn:Ek; cbn [app].
  - split_and!; [done|done|]. intros key. rewrite IH3.
    destruct (decide (key ∈ order /\ _)) as [[]|Hn].
    + rewrite decide_True; [done|]. set_solver.
    + rewrite decide_False; [done|]. intros [[->|]%elem_of_cons ?]; [congruence|tauto].
  - split_and!; [intros n; apply IH1|cbn; by f_equal|]. intros key. unfold line_data. cbn.
    fold (line_data (kept_lines data d order)).
    destruct (decide (key = k)) as [->|Hne].
    + rewrite lookup_insert_eq, decide_True; [done|]. set_solver.
    + rewrite lookup_insert_ne by done. rewrite IH3.
      destruct (decide (key ∈ order /\ _)) as [[]|Hn].
      * rewrite decide_True; [done|]. set_solver.
      * rewrite decide_False; [done|]. intros [[->|]%elem_of_cons ?]; [done|tauto].
Qed.

Lemma read_written f g d :
  ini_writable f -> mComments f = [] ->
  exists data, readFromMemory (ini_text d f) g =
    (true, {| mData := data;
              mOrderList := filter (fun key => dropped (mData f) d key = false) (mOrderList f);
              mComments := []; mBackingFilePath := mBackingFilePath g; mDirty := false |}) /\
    forall key, data !! key = v ← mData f !! key; if dropped (mData f) d key then None else Some v.
Proof.
  intros [[Hnd Hdom] [Hkeys Hvals]] Hc.
  destruct (kept_lines_facts (mData f) d (mOrderList f)) as (H1 & H2 & H3).
  assert (Forall line_ok (kept_lines (mData f) d (mOrderList f))) as Hlines.
  { apply Forall_flat_map, Forall_forall. intros key Hin. cbn zeta.
    destruct (proj1 (Hdom key) Hin) as [v Hv]. rewrite Hv. cbn [default].
    destruct (d && _); [constructor|]. constructor; [|constructor].
    rewrite Forall_forall in Hkeys. split; [by apply Hkeys|by eapply Hvals]. }
  unfold ini_text. rewrite Hc, write_entries_plain. cbn [app].
  rewrite parse_file_text; [|done|rewrite H2; by apply NoDup_filter].
  rewrite H1, H2. eexists. split; [reflexivity|]. intros key. rewrite H3.
  destruct (mData f !! key) as [v|] eqn:Ev; cbn [mbind option_bind].
  - destruct (dropped (mData f) d key).
    + rewrite decide_False; [done|]. by intros [].
    + rewrite decide_True; [done|]. split; [|done]. apply Hdom. by exists v.
  - rewrite decide_False; [done|]. intros [Hin _]. apply Hdom in Hin as [w Hw]. congruence.
Qed.

(** A file for the witnesses. *)
Definition demo_ini : IniFile :=
  setDiskSize (str "disk.size") (2 ^ 31) (setString (str "skin") [] (setBool (str "gps") true
    (new_IniFile (str "config.ini")))).

Lemma demo_ini_writable : ini_writable demo_ini.
Proof.
  unfold ini_writable, ini_ok. split_and!.
  - apply (bool_decide_unpack _). by vm_compute.
  - intros key. split.
    + intros Hin. vm_compute in Hin.
      repeat (apply elem_of_cons in Hin as [->|Hin]; [by eexists|]). by apply elem_of_nil in Hin.
    + intros [v Hv]. unfold demo_ini, setDiskSize, setString, setBool, updateData, put_data in Hv.
      cbn [mData new_IniFile] in Hv. vm_compute mOrderList.
      repeat (apply lookup_insert_Some in Hv as [[<- _]|[_ Hv]];
        [rewrite ?elem_of_cons; tauto|]). by rewrite lookup_empty in Hv.
  - vm_compute mOrderList. repeat constructor.
  - intros key v Hv. unfold demo_ini, setDiskSize, setString, setBool, updateData, put_data in Hv.
    cbn [mData new_IniFile] in Hv.
    repeat (apply lookup_insert_Some in Hv as [[_ <-]|[_ Hv]]; [by repeat constructor|]).
    by rewrite lookup_empty in Hv.
Qed.

(** ** Properties *)

(** C12: what is written is read back: for a file whose keys and values the
    format can carry and that has no comments, reading the written text gives
    the same keys in the same order with the same values; writing with
    [discardEmpty] keeps exactly the entries with a value. *)
Theorem ini_write_read (f g : IniFile) :
  ini_writable f -> mComments f = [] ->
  readFromMemory (ini_text false f) g =
    (true, {| mData := mData f; mOrderList := mOrderList f; mComments := [];
              mBackingFilePath := mBackingFilePath g; mDirty := false |}) /\
  exists r, readFromMemory (ini_text true f) g = (true, r) /\
    forall key, mData r !! key = (v ← mData f !! key; if decide (v = []) then None else Some v).
Proof.
  intros Hf Hc. split.
  - destruct (read_written f g false Hf Hc) as (data & -> & Hdata). do 2 f_equal.
    + apply map_eq. intros key. rewrite Hdata. by destruct (mData f !! key).
    + by apply filter_true.
  - destruct (read_written f g true Hf Hc) as (data & E & Hdata). eexists. split; [exact E|].
    intros key. cbn [mData]. rewrite Hdata. unfold dropped.
    destruct (mData f !! key) as [v|]; [|done]. cbn.
    by destruct v; case_decide.
Qed.

Lemma ini_write_read_witness :
  ini_text false demo_ini = str "gps = true
skin = 
disk.size = 2g
" /\
  mData (readFromMemory (ini_text false demo_ini) (new_IniFile [])).2 = mData demo_ini.
Proof.
  split; [vm_compute; reflexivity|].
  destruct (ini_write_read demo_ini (new_IniFile []) demo_ini_writable eq_refl) as [E _].
  rewrite E. reflexivity.
Defined.

(** An ini file in canonical form, with comments and blank lines anywhere
    before its last key, is written back byte for byte after being read. *)
Theorem ini_read_write (ls : list ini_line) (g : IniFile) :
  Forall line_ok ls -> NoDup (line_keys ls) -> ends_with_key ls ->
  ini_text false (readFromMemory (file_text ls) g).2 = file_text ls.
Proof.
  intros Hls Hnd Hend. rewrite parse_file_text by done. unfold ini_text.
  cbn [snd mData mOrderList mComments].
  rewrite write_entries_canonical; [done|done|]. intros key v Hin. unfold line_data.
  apply elem_of_list_to_map_1.
  - clear Hls Hend Hin. unfold line_keys in Hnd.
    replace ((flat_map _ ls).*1) with (line_keys ls); [done|].
    induction ls as [|[t|k w] ls IH]; cbn in *; [done|by apply IH|].
    apply NoDup_cons in Hnd as [_ Hnd]. by rewrite <- IH.
  - apply list_elem_of_In, in_flat_map. exists (KeyLine key v).
    split; [by apply list_elem_of_In|by left].
Qed.

Lemma ini_read_write_witness :
  let text := str "# device
name = pixel

; end
abi.type=x86" in
  let ls := [CommentLine (str "# device"); KeyLine (str "name") (str "pixel"); CommentLine [];
             CommentLine (str "; end"); KeyLine (str "abi.type") (str "x86")] in
  ini_text false (readFromMemory (file_text ls) (new_IniFile [])).2 = file_text ls.
Proof.
  intros text ls. apply (ini_read_write ls (new_IniFile [])).
  - repeat constructor; discriminate.
  - apply (bool_decide_unpack _). by vm_compute.
  - exact I.
Defined.

(** [makeValidValue] escapes a string so that the substitution of
    environment variables gives it back, whatever the environment and
    whatever percent signs it has (up to its first zero byte). *)
Theorem envSubst_makeValidValue (envGet : bytes -> bytes) (s : bytes) :
  envSubst envGet (makeValidValue s) = c_str s.
Proof. apply envSubst_loop_valid. Qed.

(** A disk size stored with [setDiskSize] is read back exactly when it is
    below 2^63 or a multiple of 1024; the others of the 64-bit range are
    written as a number the reader rejects, and the default comes back. *)
Theorem diskSize_roundtrip (envGet : bytes -> bytes) (key : bytes) (value def : Z) (f : IniFile) :
  in_u 64 value -> c_string key ->
  getDiskSize envGet key def (setDiskSize key value f) =
  if (value <? 2 ^ 63) || (value mod 1024 =? 0) then value else def.
Proof.
  intros Hv Hk. unfold getDiskSize, hasKey, setDiskSize. rewrite c_str_id, get_updateData by done.
  cbn [negb]. unfold getString. rewrite get_updateData. cbn [default].
  assert (forall c, c = 37 \/ c = 0 -> Forall (fun x => x <> c) (diskSize_text value)) as Hplain.
  { intros c Hc.
    assert (forall n, Forall (fun x => x <> c) (to_string n)) as Hs
      by (intros n; destruct (to_string_plain n), Hc as [->| ->]; done).
    assert (forall x, x ∈ [103; 109; 107] -> x <> c) as Hx
      by (intros x; rewrite !elem_of_cons; intros [->|[->|[->|Hx%elem_of_nil]]]; lia).
    unfold diskSize_text.
    repeat case_match; try done; apply Forall_app; (split; [done|]); constructor;
      try constructor; apply Hx; set_solver. }
  rewrite envSubst_plain by auto. cbn [id]. rewrite parseDiskSize_text by done.
  by destruct (_ || _).
Qed.

Lemma diskSize_roundtrip_witness :
  getDiskSize (fun _ => []) (str "size") 7 (setDiskSize (str "size") (3 * 2 ^ 30) (new_IniFile [])) =
    3 * 2 ^ 30 /\
  getDiskSize (fun _ => []) (str "size") 7 (setDiskSize (str "size") (2 ^ 63 + 1) (new_IniFile [])) = 7.
Proof.
  split.
  - rewrite (diskSize_roundtrip (fun _ => []) (str "size") (3 * 2 ^ 30) 7);
      [reflexivity|by_compute|repeat constructor; discriminate].
  - rewrite (diskSize_roundtrip (fun _ => []) (str "size") (2 ^ 63 + 1) 7);
      [reflexivity|by_compute|repeat constructor; discriminate].
Defined.

(** A 64-bit integer stored with [setInt64] is read back by [getInt64];
    [getInt] of the same entry silently returns its low 32 bits, so it agrees
    exactly on the values of an [int]. *)
Theorem setInt64_getInt (envGet : bytes -> bytes) (key : bytes) (value def : Z) (f : IniFile) :
  in_s 64 value ->
  getInt64 envGet key def (setInt64 key value f) = value /\
  getInt envGet key def (setInt64 key value f) = s32 value /\
  (getInt envGet key def (setInt64 key value f) = value <-> in_s 32 value).
Proof.
  intros Hv. unfold getInt64, getInt, setInt64. rewrite get_updateData.
  destruct (to_string_plain value) as [H37 H0].
  rewrite get_text, strtoll_to_string_s64 by done. cbn [head0 orb].
  change (negb (0 =? 0)) with false. cbv iota. split_and!; [done|done|split].
  - intros <-. by apply swrap_range.
  - intros Hi. by apply swrap_small.
Qed.

Lemma setInt64_getInt_witness :
  getInt (fun _ => []) (str "n") 5 (setInt64 (str "n") (2 ^ 32 + 3) (new_IniFile [])) = 3.
Proof.
  destruct (setInt64_getInt (fun _ => []) (str "n") (2 ^ 32 + 3) 5 (new_IniFile [])) as (_ & -> & _);
    [by_compute|reflexivity].
Defined.

(** A boolean is read with comparisons as long as the stored value: every
    prefix of yes, true or 1 counts as true, the empty value included, every
    other prefix of no, false or 0 as false, and the default is used for the
    rest. *)
Theorem getBool_prefixes (envGet : bytes -> bytes) (key value : bytes) (def : bool) (f : IniFile) :
  c_string value -> Forall (fun c => c <> 37) value ->
  (case_prefix value (str "yes") \/ case_prefix value (str "true") \/ case_prefix value (str "1") ->
   getBool envGet key def (setString key value f) = true) /\
  (~ (case_prefix value (str "yes") \/ case_prefix value (str "true") \/ case_prefix value (str "1")) ->
   (case_prefix value (str "no") \/ case_prefix value (str "false") \/ case_prefix value (str "0") ->
    getBool envGet key def (setString key value f) = false) /\
   (~ (case_prefix value (str "no") \/ case_prefix value (str "false") \/ case_prefix value (str "0")) ->
    getBool envGet key def (setString key value f) = def)).
Proof.
  intros H0 H37. unfold getBool, setString. rewrite get_updateData. unfold getString.
  rewrite get_updateData. cbn [default id]. rewrite c_str_id, envSubst_plain by done. cbn [id].
  assert (isBoolTrue value = true <->
    case_prefix value (str "yes") \/ case_prefix value (str "true") \/ case_prefix value (str "1")) as Ht.
  { unfold isBoolTrue. rewrite !orb_true_iff, !strncasecmp_prefix by
      (done || (repeat constructor; discriminate)). tauto. }
  assert (isBoolFalse value = true <->
    case_prefix value (str "no") \/ case_prefix value (str "false") \/ case_prefix value (str "0")) as Hf.
  { unfold isBoolFalse. rewrite !orb_true_iff, !strncasecmp_prefix by
      (done || (repeat constructor; discriminate)). tauto. }
  split; [intros Hp; by rewrite (proj2 Ht Hp)|]. intros Hn.
  destruct (isBoolTrue value); [destruct Hn; by apply Ht|].
  split; [intros Hp; by rewrite (proj2 Hf Hp)|]. intros Hn2.
  destruct (isBoolFalse value); [destruct Hn2; by apply Hf|done].
Qed.

Lemma getBool_prefixes_witness :
  getBool (fun _ => []) (str "k") false (setString (str "k") [] (new_IniFile [])) = true.
Proof.
  destruct (getBool_prefixes (fun _ => []) (str "k") [] false (new_IniFile [])) as [Ht _];
    [constructor|constructor|]. apply Ht. left. by exists (str "yes").
Defined.

(** C13: what replacing the backing file leaves, whatever operation of the
    file system fails, also when an exception leaves the function and when
    the disk takes only a part of the text: the file holds what was written
    or its old content, or the old content is under the name with [.old]; no
    other file is touched; success means what was written is in place.  What
    was written is a prefix of the text, all of it when the disk takes it
    all: the code does not look, so a short write counts as a success (see
    [short_write_is_success]).  The entries count as unsaved still only when
    the file could not be opened, and then nothing changed. *)
Theorem writeCommon_safe (d : bool) (f : IniFile) (fs : FileSystem) :
  mBackingFilePath f <> [] ->
  let '(o, f', fs') := writeCommon d f fs in
  exists written, written `prefix_of` ini_text d f /\ (taken fs = [] -> written = ini_text d f) /\
    write_outcome f written (files fs) (files fs') /\ untouched f (files fs) (files fs') /\
    (o = Returned true -> files fs' !! mBackingFilePath f = Some written) /\
    (mDirty f' = true -> mDirty f = true /\ files fs' = files fs).
Proof.
  intros Hp. pose proof (writeCommon_spec d f fs Hp) as Hw. destruct (writeCommon d f fs) as [[o f'] fs'].
  exists (disk_takes fs (ini_text d f)). split; [apply disk_takes_prefix|]. split; [apply disk_takes_all|exact Hw].
Qed.

Lemma writeCommon_safe_witness :
  let fs := {| files := {[str "config.ini" := str "old"]}; oracle := [false; false; false; true]; taken := [] |} in
  let '(o, f', fs') := writeCommon false demo_ini fs in
  o = Returned false /\ mDirty f' = false /\
  untouched demo_ini (files fs) (files fs') /\ files fs' !! str "config.ini" = Some (str "old").
Proof.
  intros fs. pose proof (writeCommon_safe false demo_ini fs) as Hw.
  destruct (writeCommon false demo_ini fs) as [[o f'] fs'] eqn:E.
  destruct Hw as (written & _ & _ & _ & Hu & _); [discriminate|]. vm_compute in E. injection E as <- <- <-.
  split_and!; [reflexivity|reflexivity|exact Hu|vm_compute; reflexivity].
Defined.

(** A full disk: the write reports success and the old text is gone. *)
Example short_write_is_success :
  let fs := {| files := {[str "config.ini" := str "old"]}; oracle := []; taken := [3%nat] |} in
  let '(o, f', fs') := writeCommon false demo_ini fs in
  o = Returned true /\ mDirty f' = false /\
  files fs' !! str "config.ini" = Some (take 3 (ini_text false demo_ini)) /\
  files fs' !! str "config.ini.old" = None /\ 3 < zlen (ini_text false demo_ini).
Proof. vm_compute. split_and!; reflexivity. Qed.

