(* ===== verification/AvdConfig.v ===== *)
(** * The configuration of virtual devices

    Models [emulator/config]: where the emulator looks for its directories ([config_dirs.cpp]),
    what it reads of a virtual device ([avd.cpp], [image_list.h]) and the hardware it takes from
    there ([hardware_config.cpp]).  An exception that leaves a function and a failed assertion are
    [None]; statuses are values. *)

From stdpp Require Import sorting.
From S2P Require Import Prelude CText PathText PathFiles HostSystem IniFile StorageCapacity.

(** ** What is asked of the host *)

(** [System] as its users see it. *)
Class System := {
  sys_envGet : bytes -> bytes;
  sys_pathExists : bytes -> bool;
  sys_pathIsFile : bytes -> bool;
  sys_pathIsDir : bytes -> bool;
  sys_pathCanRead : bytes -> bool;
  sys_getHomeDirectory : bytes;
  sys_getLauncherDirectory : bytes;
}.

(** The host of [HostSystem], at one moment. *)
Definition host_services {W : Type} `{!Host W, !HostCalls W} (w : W) (s : HostSystem) : System := {|
  sys_envGet := envGet w;
  sys_pathExists := path_exists w;
  sys_pathIsFile := path_is_regular w;
  sys_pathIsDir := path_is_dir w;
  sys_pathCanRead := path_can_read w;
  sys_getHomeDirectory := fst (getHomeDirectory w s);
  sys_getLauncherDirectory := fst (getLauncherDirectory w s);
|}.

(** The calls of [std::filesystem], which throw ([None]), and the texts of the files. *)
Class Filesystem := {
  fs_is_directory : bytes -> option bool;
  fs_exists : bytes -> option bool;
  temp_directory_path : option bytes;
  directory_entries : bytes -> option (list bytes); (* the names, in the order of [directory_iterator] *)
  file_texts : gmap bytes bytes;
}.

(** [IniFile ini(path); ini.read()]. *)
Definition read_file `{!Filesystem} (path : bytes) : bool * IniFile :=
  fst (read_ini true (new_IniFile path) {| files := file_texts; oracle := []; taken := [] |}).

(** ** Paths *)

Definition parent_path (p : bytes) : bytes :=
  let q := take (back_while (fun c => negb (ispathsep c)) p (length p)) p in
  match take (back_while ispathsep q (length q)) q with
  | [] => match q with [] => [] | _ => if bytes_eqb p q then p else [47] end
  | r => r
  end.

Definition filename (p : bytes) : bytes := match last_sep p with Some (_, name) => name | None => p end.

(** The name without its last extension. *)
Definition stem (p : bytes) : bytes :=
  let name := filename p in
  if bytes_eqb name [46] || bytes_eqb name [46; 46] then name
  else match split_at 46 (rev name) with
       | Some (_, before) => match before with [] => name | _ => rev before end
       | None => name
       end.

Definition kAndroidSubDir : bytes := str ".android".
Definition kAvdSubDir : bytes := str "avd".

(** ** Directories *)

Section config_dirs.
Context `{!System, !Filesystem}.

Definition getUserDirectory : option bytes :=
  match sys_envGet (str "ANDROID_EMULATOR_HOME") with
  | (_ :: _) as home => Some home
  | [] =>
      match sys_envGet (str "ANDROID_PREFS_ROOT") with
      | (_ :: _) as home =>
          let homeNewWay := path_div home kAndroidSubDir in
          isdir ← fs_is_directory homeNewWay; Some (if isdir : bool then homeNewWay else home)
      | [] =>
          match sys_envGet (str "ANDROID_SDK_HOME") with
          | (_ :: _) as home =>
              let homeOldWay := path_div home kAndroidSubDir in
              Some (if sys_pathExists homeOldWay then homeOldWay else home)
          | [] =>
              match sys_getHomeDirectory with
              | [] => temp_directory_path
              | home => Some (path_div home kAndroidSubDir)
              end
          end
      end
  end.

Definition isValidAvdRoot (avdPath : bytes) : bool :=
  match avdPath with
  | [] => false
  | _ =>
      if negb (sys_pathIsDir avdPath) || negb (sys_pathCanRead avdPath) then false
      else
        let avdAvdPath := path_div avdPath (str "avd") in
        sys_pathIsDir avdAvdPath && sys_pathCanRead avdAvdPath
  end.

Definition getAvdRootDirectoryWithPrefsRoot (path : bytes) : bytes :=
  match path with
  | [] => []
  | _ =>
      if isValidAvdRoot path then path_div path kAvdSubDir
      else
        let avdRoot := path_div path kAndroidSubDir in
        if isValidAvdRoot avdRoot then path_div avdRoot kAvdSubDir else []
  end.

(** The three blocks for TEST_TMPDIR, USER_HOME and HOME, which are alike. *)
Definition avdRootBelow (varname : bytes) : option bytes :=
  match sys_envGet varname with
  | [] => None
  | avdRoot =>
      let avdRoot := path_div avdRoot kAndroidSubDir in
      if isValidAvdRoot avdRoot then Some (path_div avdRoot kAvdSubDir) else None
  end.

Definition getAvdRootDirectory : option bytes :=
  let avdRoot := sys_envGet (str "ANDROID_AVD_HOME") in
  if negb (bytes_eqb avdRoot []) && sys_pathIsDir avdRoot then Some avdRoot
  else
    match getAvdRootDirectoryWithPrefsRoot (sys_envGet (str "ANDROID_PREFS_ROOT")) with
    | (_ :: _) as avdRoot => Some avdRoot
    | [] =>
        match getAvdRootDirectoryWithPrefsRoot (sys_envGet (str "ANDROID_SDK_HOME")) with
        | (_ :: _) as avdRoot => Some avdRoot
        | [] =>
            match avdRootBelow (str "TEST_TMPDIR") with
            | Some d => Some d
            | None =>
                match avdRootBelow (str "USER_HOME") with
                | Some d => Some d
                | None =>
                    match avdRootBelow (str "HOME") with
                    | Some d => Some d
                    | None => user ← getUserDirectory; Some (path_div user kAvdSubDir)
                    end
                end
            end
        end
    end.

(** The second check is of the root again, not of its directory [platforms]. *)
Definition isValidSdkRoot (rootPath : bytes) : bool :=
  match rootPath with
  | [] => false
  | _ =>
      if negb (sys_pathIsDir rootPath) || negb (sys_pathCanRead rootPath) then false
      else if negb (sys_pathIsDir rootPath) || negb (sys_pathCanRead rootPath) then false
      else if negb (sys_pathIsDir (path_div rootPath (str "platform-tools"))) then false
      else true
  end.

(** The quotes are taken off; [None] when the closing one is missing. *)
Definition unquoted (sdkRoot : bytes) : option bytes :=
  match sdkRoot with
  | c :: rest =>
      if c =? 34 then
        match last sdkRoot, rest with
        | Some d, _ :: _ => if d =? 34 then Some (removelast rest) else None
        | _, _ => None
        end
      else Some sdkRoot
  | [] => Some []
  end.

Definition getSdkRootDirectoryByEnv : option bytes :=
  let sdkRoot := sys_envGet (str "ANDROID_HOME") in
  if negb (bytes_eqb sdkRoot []) && isValidSdkRoot sdkRoot then Some sdkRoot
  else
    match sys_envGet (str "ANDROID_SDK_ROOT") with
    | [] => Some []
    | sdkRoot => sdkRoot ← unquoted sdkRoot; Some (if isValidSdkRoot sdkRoot then sdkRoot else [])
    end.

Fixpoint sdkRootAbove (n : nat) (sdkRoot : bytes) : bytes :=
  match n with
  | O => []
  | S n => let sdkRoot := parent_path sdkRoot in if isValidSdkRoot sdkRoot then sdkRoot else sdkRootAbove n sdkRoot
  end.
Definition getSdkRootDirectoryByPath : bytes := sdkRootAbove 3 sys_getLauncherDirectory.

Definition getSdkRootDirectory : option bytes :=
  sdkRoot ← getSdkRootDirectoryByEnv;
  Some (match sdkRoot with [] => getSdkRootDirectoryByPath | _ => sdkRoot end).

(** *** The directory of the running emulators

    [dirs] are the directories that are there with their permissions. *)

Definition getAlternativeRoot (uid : Z) : option bytes :=
  let discovery := path_div (str "/run/user/") (to_string uid) in
  if sys_pathExists discovery then Some discovery else getUserDirectory.

(** A path and the directories above it, as [create_directories] makes them. *)
Fixpoint path_prefixes (before rest : bytes) : list bytes :=
  match rest with
  | [] => [before]
  | c :: rest => (if (c =? 47) && negb (bytes_eqb before []) then [before] else []) ++ path_prefixes (before ++ [c]) rest
  end.

Definition create_directories (umask : Z) (p : bytes) (dirs : gmap bytes Z) : gmap bytes Z :=
  foldl (fun dirs d => match dirs !! d with Some _ => dirs | None => <[d := Z.ldiff 511 umask]> dirs end) dirs (path_prefixes [] p).

Definition owner_all : Z := 448.

(** Making the directories may fail ([can_create]), which is logged; taking permissions from what is not there throws. *)
Definition getDiscoveryDirectory (uid umask : Z) (can_create : bool) (dirs : gmap bytes Z) : option (bytes * gmap bytes Z) :=
  root ← match sys_envGet (str "XDG_RUNTIME_DIR") with
         | [] => getAlternativeRoot uid
         | root => Some (path_div root [])
         end;
  let desired_directory := path_div (path_div root (str "avd")) (str "running") in
  match dirs !! desired_directory with
  | Some _ => Some (desired_directory, dirs)
  | None =>
      let dirs := if can_create then create_directories umask desired_directory dirs else dirs in
      perms ← dirs !! desired_directory;
      Some (desired_directory, <[desired_directory := Z.ldiff perms owner_all]> dirs)
  end.
End config_dirs.

(** ** Android versions *)

Record ApiLevelInfo := { dessertName : bytes; fullName : bytes }.
Definition api (level : Z) (dessert full : String.string) : Z * ApiLevelInfo := (level, {| dessertName := str dessert; fullName := str full |}).

Definition kApiLevelInfo : list (Z * ApiLevelInfo) := [
  api 10 "Gingerbread" "2.3.3 (Gingerbread) - API 10 (Rev 2)";
  api 14 "Ice Cream Sandwich" "4.0 (Ice Cream Sandwich) - API 14 (Rev 4)";
  api 15 "Ice Cream Sandwich" "4.0.3 (Ice Cream Sandwich) - API 15 (Rev 5)";
  api 16 "Jelly Bean" "4.1 (Jelly Bean) - API 16 (Rev 5)";
  api 17 "Jelly Bean" "4.2 (Jelly Bean) - API 17 (Rev 3)";
  api 18 "Jelly Bean" "4.3 (Jelly Bean) - API 18 (Rev 3)";
  api 19 "KitKat" "4.4 (KitKat) - API 19 (Rev 4)";
  api 20 "KitKat" "4.4 (KitKat Wear) - API 20 (Rev 2)";
  api 21 "Lollipop" "5.0 (Lollipop) - API 21 (Rev 2)";
  api 22 "Lollipop" "5.1 (Lollipop) - API 22 (Rev 2)";
  api 23 "Marshmallow" "6.0 (Marshmallow) - API 23 (Rev 1)";
  api 24 "Nougat" "7.0 (Nougat) - API 24";
  api 25 "Nougat" "7.1 (Nougat) - API 25";
  api 26 "Oreo" "8.0 (Oreo) - API 26";
  api 27 "Oreo" "8.1 (Oreo) - API 27";
  api 28 "Pie" "9.0 (Pie) - API 28";
  api 29 "Q" "10.0 (Q) - API 29";
  api 30 "R" "11.0 (R) - API 30";
  api 31 "S" "12.0 (S) - API 31";
  api 32 "Sv2" "12.0 (S) - API 32";
  api 33 "Tiramisu" "13.0 (T) - API 33";
  api 34 "UpsideDownCake" "14.0 (U) - API 34";
  api 35 "VanillaIceCream" "15.0 (V) - API 35"
].

Definition kUnknownApiLevel : Z := 1000.

Definition ascii_isalpha (c : Z) : bool := ((65 <=? c) && (c <=? 90)) || ((97 <=? c) && (c <=? 122)).
Definition ascii_toupper (c : Z) : Z := if (97 <=? c) && (c <=? 122) then c - 32 else c.

Definition getApiDessertName (apiLevel : Z) : bytes :=
  match List.find (fun e => fst e =? apiLevel) kApiLevelInfo with Some (_, info) => dessertName info | None => [] end.

Definition getFullApiName (apiLevel : Z) : bytes :=
  if (apiLevel <? 0) || (99 <? apiLevel) then str "Unknown API version"
  else match List.find (fun e => fst e =? apiLevel) kApiLevelInfo with
       | Some (_, info) => fullName info
       | None => str "API " ++ to_string apiLevel
       end.

Section api_level.
(** The order in which the hash map is gone over, and [absl::SimpleAtoi]. *)
Context (order : list (Z * ApiLevelInfo)) (SimpleAtoi : bytes -> option Z).

Definition first_level (f : ApiLevelInfo -> bool) : Z :=
  match List.find (fun e => f (snd e)) order with Some (level, _) => level | None => kUnknownApiLevel end.

Definition getApiLevelFromDessertName (name : bytes) : Z := first_level (fun info => bytes_eqb (dessertName info) name).
Definition getApiLevelFromLetter (letter : Z) : Z :=
  first_level (fun info => ascii_toupper (head0 (dessertName info)) =? ascii_toupper letter).

Definition getApiLevel (target : bytes) : Z :=
  match target with
  | [] => kUnknownApiLevel
  | _ =>
      let levelStr := match strip_prefix (str "android-") target with
                      | Some s => s
                      | None => match pieces 58 target with [_; _; s] => s | _ => [] end
                      end in
      match levelStr with
      | [] => kUnknownApiLevel
      | c :: rest =>
          if negb (is_digit c) then
            if ascii_isalpha c then
              match rest with [] => getApiLevelFromLetter c | _ => getApiLevelFromDessertName levelStr end
            else kUnknownApiLevel
          else match SimpleAtoi levelStr with Some level => Z.max level 3 | None => kUnknownApiLevel end
      end
  end.
End api_level.

(** ** Images *)

Inductive ImageType :=
  KERNEL | KERNELRANCHU | KERNELRANCHU64 | RAMDISK | USERRAMDISK | INITSYSTEM | INITVENDOR | INITDATA | INITZIP | USERSYSTEM
| USERVENDOR | USERDATA | CACHE | SDCARD | ENCRYPTIONKEY | SNAPSHOTS | VERIFIEDBOOTPARAMS | BUILDPROP.

Definition getImageFilename (imgType : ImageType) : bytes :=
  str match imgType with
      | KERNEL => "kernel-qemu" | KERNELRANCHU => "kernel-ranchu" | KERNELRANCHU64 => "kernel-ranchu-64"
      | RAMDISK => "ramdisk.img" | USERRAMDISK => "ramdisk-qemu.img" | INITSYSTEM => "system.img" | INITVENDOR => "vendor.img"
      | INITDATA => "userdata.img" | INITZIP => "data" | USERSYSTEM => "system-qemu.img" | USERVENDOR => "vendor-qemu.img"
      | USERDATA => "userdata-qemu.img" | CACHE => "cache.img" | SDCARD => "sdcard.img" | ENCRYPTIONKEY => "encryptionkey.img"
      | SNAPSHOTS => "snapshots.img" | VERIFIEDBOOTPARAMS => "VerifiedBootParams.textproto" | BUILDPROP => "build.prop"
      end.

Inductive DeviceType := kPhone | kTv | kWear | kAndroidAuto | kDesktop | kUnknownDevice.
Inductive CpuArchitecture := kX86 | kArm | kRiscV | kUnknownArchitecture.

(** [absl::StatusOr]. *)
Inductive status_or (A : Type) := Ok (a : A) | NotFound (message : bytes) | Internal (message : bytes).
Arguments Ok {A}. Arguments NotFound {A}. Arguments Internal {A}.

Definition value_or {A} (s : status_or A) (d : A) : A := match s with Ok a => a | _ => d end.

Definition SEARCH_PREFIX : bytes := str "image.sysdir.".
Definition MAX_SEARCH_PATHS : nat := 2.

Section images.
Context `{!System, !Filesystem}.
(** The parts of an AVD that its images depend on. *)
Context (mContentPath : bytes) (mConfig : IniFile) (mSysdirOverride : bytes).

Definition check_path (p : bytes) : bool := sys_pathExists p && sys_pathCanRead p.

(** The loop over the keys from number [n]; [path] and [key] are the last ones that were looked at. *)
Fixpoint search_sysdirs (rounds : nat) (n : Z) (sdk name path : bytes) : status_or bytes :=
  match rounds with
  | O => NotFound (str "Path " ++ path ++ str " specified in " ++ mBackingFilePath mConfig ++ str " does not exist (key=" ++
                   SEARCH_PREFIX ++ to_string (n - 1) ++ str ")")
  | S rounds =>
      let key := SEARCH_PREFIX ++ to_string n in
      if negb (hasKey key mConfig) then search_sysdirs rounds (n + 1) sdk name path
      else
        let path := path_div (path_div sdk (getString sys_envGet key (str "unused") mConfig)) name in
        if check_path path then Ok path else search_sysdirs rounds (n + 1) sdk name path
  end.

Definition getSystemImageFilePath (imgType : ImageType) : option (status_or bytes) :=
  let make_path p := path_div p (getImageFilename imgType) in
  match mSysdirOverride with
  | _ :: _ =>
      let p := make_path mSysdirOverride in
      Some (if check_path p then Ok p else NotFound (str "Path " ++ p ++ str " using sysdir override does not exist"))
  | [] => sdk ← getSdkRootDirectory; Some (search_sysdirs MAX_SEARCH_PATHS 0 sdk (getImageFilename imgType) (str "no-sysimg"))
  end.

Definition getImageFilePath (imgType : ImageType) : option (status_or bytes) :=
  let possible := path_div mContentPath (getImageFilename imgType) in
  if sys_pathIsFile possible && sys_pathCanRead possible then Some (Ok possible) else getSystemImageFilePath imgType.

Definition hasEncryptionKey : option bool :=
  img ← getImageFilePath ENCRYPTIONKEY; Some (match img with Ok _ => true | _ => false end).

(** *** The type of the device *)

Definition labelMap : list (bytes * DeviceType) :=
  [(str "phone", kPhone); (str "atv", kTv); (str "wear", kWear); (str "aw", kWear); (str "car", kAndroidAuto); (str "pc", kDesktop)].
Definition device_props : list bytes := [str "ro.product.name"; str "ro.product.system.name"; str "ro.build.flavor"].

(** [labels] are those of [labelMap], in the order in which the hash map is gone over. *)
Fixpoint device_of (labels : list (bytes * DeviceType)) (buildIni : IniFile) (props : list bytes) : DeviceType :=
  match props with
  | [] => kUnknownDevice
  | prop :: props =>
      if negb (hasKey prop buildIni) then device_of labels buildIni props
      else
        let build := getString sys_envGet prop (str "_unused") buildIni in
        match List.find (fun e => contains_at build (fst e)) labels with
        | Some (_, val) => val
        | None => device_of labels buildIni props
        end
  end.

Definition getDeviceType (labels : list (bytes * DeviceType)) : option DeviceType :=
  buildprop ← getSystemImageFilePath BUILDPROP;
  Some (match buildprop with
        | Ok p =>
            if negb (sys_pathExists p) || negb (sys_pathCanRead p) then kUnknownDevice
            else device_of labels (snd (read_file p)) device_props
        | _ => kUnknownDevice
        end).
End images.

(** ** The hardware *)

(** The fields of the configuration that the code names; the others only follow the table of the hardware properties. *)
Record HardwareConfig := {
  android_sdk_root : bytes; android_avd_home : bytes;
  disk_encryptionKeyPartition_path : bytes; hw_initialOrientation : bytes;
  hw_lcd_width : Z; hw_lcd_height : Z;
  disk_ramdisk_path : bytes; disk_dataPartition_path : bytes; disk_systemPartition_initPath : bytes;
  hw_sdCard : bool; hw_sdCard_path : bytes; hw_sdCard_size : capacity;
  disk_cachePartition_size : capacity; disk_cachePartition_path : bytes;
  hw_gltransport : bytes;
}.

(** The table [hw-config-defs.h]: the key and the default of each of these fields. *)
Record HwDefs := {
  sdk_root_def : bytes * bytes; avd_home_def : bytes * bytes; encryptionKey_def : bytes * bytes; orientation_def : bytes * bytes;
  lcd_width_def : bytes * Z; lcd_height_def : bytes * Z;
  ramdisk_def : bytes * bytes; dataPartition_def : bytes * bytes; systemInit_def : bytes * bytes;
  sdCard_path_def : bytes * bytes; cacheSize_def : bytes * Z; cachePath_def : bytes * bytes; gltransport_def : bytes * bytes;
}.

Definition new_HardwareConfig : HardwareConfig := {|
  android_sdk_root := []; android_avd_home := []; disk_encryptionKeyPartition_path := []; hw_initialOrientation := [];
  hw_lcd_width := 0; hw_lcd_height := 0; disk_ramdisk_path := []; disk_dataPartition_path := []; disk_systemPartition_initPath := [];
  hw_sdCard := false; hw_sdCard_path := []; hw_sdCard_size := StorageCapacity 512 MiB;
  disk_cachePartition_size := 0; disk_cachePartition_path := []; hw_gltransport := [] |}.

Section hardware.
Context `{!System, !Filesystem} (defs : HwDefs).

Definition load (ini : IniFile) (hw : HardwareConfig) : HardwareConfig :=
  let text d := getString sys_envGet (fst d) (snd d) ini in
  let number d := getInt sys_envGet (fst d) (snd d) ini in
  let sdcard d := getDiskSize sys_envGet (str "sdcard.size") d ini in {|
    android_sdk_root := text (sdk_root_def defs); android_avd_home := text (avd_home_def defs);
    disk_encryptionKeyPartition_path := text (encryptionKey_def defs); hw_initialOrientation := text (orientation_def defs);
    hw_lcd_width := number (lcd_width_def defs); hw_lcd_height := number (lcd_height_def defs);
    disk_ramdisk_path := text (ramdisk_def defs); disk_dataPartition_path := text (dataPartition_def defs);
    disk_systemPartition_initPath := text (systemInit_def defs);
    hw_sdCard := 0 <? sdcard 0; hw_sdCard_path := text (sdCard_path_def defs);
    hw_sdCard_size := sdcard (hw_sdCard_size hw);
    disk_cachePartition_size := getDiskSize sys_envGet (fst (cacheSize_def defs)) (snd (cacheSize_def defs)) ini;
    disk_cachePartition_path := text (cachePath_def defs); hw_gltransport := text (gltransport_def defs) |}.

Section of_avd.
Context (mContentPath : bytes) (mConfig : IniFile) (mSysdirOverride : bytes).
Abbreviation image := (getImageFilePath mContentPath mConfig mSysdirOverride).
Abbreviation system_image := (getSystemImageFilePath mConfig mSysdirOverride).

(** [value_or(fs::path()).string()] of the image. *)
Definition image_path (imgType : ImageType) : option bytes := p ← image imgType; Some (value_or p []).
Definition system_image_path (imgType : ImageType) : option bytes := p ← system_image imgType; Some (value_or p []).

(** A path that is empty is looked for. *)
Definition or_else (p : bytes) (other : option bytes) : option bytes := match p with [] => other | _ => Some p end.

Definition natural_orientation (hw : HardwareConfig) : bytes :=
  if bytes_eqb (hw_initialOrientation hw) (str "natural") then
    if hw_lcd_height hw <? hw_lcd_width hw then str "landscape" else str "portrait"
  else hw_initialOrientation hw.

(** The path of the system partition that is there before the emulator writes to it. *)
Definition init_system_path : option bytes :=
  path ← system_image_path USERSYSTEM;
  match path with
  | [] => system_image_path INITSYSTEM
  | _ => there ← fs_exists path; if there : bool then Some path else system_image_path INITSYSTEM
  end.

(** The first look for the encryption key only can throw: what it finds is replaced by the second. *)
Definition applyDefaults (hw : HardwareConfig) : option HardwareConfig :=
  sdk_root ← or_else (android_sdk_root hw) getSdkRootDirectory;
  avd_home ← or_else (android_avd_home hw) getAvdRootDirectory;
  _ ← image ENCRYPTIONKEY;
  user_ramdisk ← image_path USERRAMDISK;
  ramdisk ← or_else user_ramdisk (image_path RAMDISK);
  userdata ← image_path USERDATA;
  let data := match userdata with [] => path_div mContentPath (getImageFilename USERDATA) | _ => userdata end in
  system ← init_system_path;
  found_key ← image_path ENCRYPTIONKEY;
  let key := match found_key, data with
             | [], _ :: _ => path_div (parent_path data) (str "encryptionkey.img")
             | _, _ => found_key
             end in
  found_cache ← image_path CACHE;
  let cache := match found_cache with [] => path_div mContentPath (getImageFilename CACHE) | _ => found_cache end in
  Some {|
    android_sdk_root := sdk_root; android_avd_home := avd_home;
    disk_encryptionKeyPartition_path := key; hw_initialOrientation := natural_orientation hw;
    hw_lcd_width := hw_lcd_width hw; hw_lcd_height := hw_lcd_height hw;
    disk_ramdisk_path := ramdisk; disk_dataPartition_path := data; disk_systemPartition_initPath := system;
    hw_sdCard := hw_sdCard hw; hw_sdCard_path := path_div mContentPath (getImageFilename SDCARD); hw_sdCard_size := hw_sdCard_size hw;
    disk_cachePartition_size := StorageCapacity 66 MiB; disk_cachePartition_path := cache;
    hw_gltransport := str "virtio-gpu-pipe" |}.
End of_avd.
End hardware.

(** ** Virtual devices *)

Record FileBackedAvd := {
  mName : bytes;
  mContentPath : bytes;
  mTarget : IniFile;
  mConfig : IniFile;
  mHwCfg : HardwareConfig;
  mSysdirOverride : bytes;
}.

Section avd.
(** [CORE_HARDWARE_INI] and the table of the hardware. *)
Context `{!System, !Filesystem} (CORE_HARDWARE_INI : bytes) (defs : HwDefs).

Definition readable (p : bytes) : bool := sys_pathExists p && sys_pathCanRead p.

(** The hardware of the configuration, replaced by that of the file in the content directory if it can be read. *)
Definition hardware_of (content_path : bytes) (config : IniFile) : HardwareConfig :=
  let hw := load defs config new_HardwareConfig in
  let hw_path := path_div content_path CORE_HARDWARE_INI in
  if readable hw_path then
    let '(ok, hw_config) := read_file hw_path in
    if ok : bool then load defs hw_config hw else hw
  else hw.

Definition new_FileBackedAvd (content_path : bytes) (target config : IniFile) (name sysdir_override : bytes) : option FileBackedAvd :=
  hw ← applyDefaults content_path config sysdir_override (hardware_of content_path config);
  Some {| mName := name; mContentPath := content_path; mTarget := target; mConfig := config; mHwCfg := hw;
          mSysdirOverride := sysdir_override |}.

(** Where the content of a device is: the path of its file if it can be read, else one relative to the user's directory. *)
Definition content_path_of (ini : IniFile) : option bytes :=
  let content_path := getString sys_envGet (str "path") [] ini in
  if negb (sys_pathExists content_path) || negb (sys_pathCanRead content_path) then
    user ← getUserDirectory; Some (path_div user (getString sys_envGet (str "path.rel") [] ini))
  else Some content_path.

Definition avd_parse (ini_file sysdir_override : bytes) : option (status_or FileBackedAvd) :=
  if negb (sys_pathExists ini_file) || negb (sys_pathCanRead ini_file) then Some (NotFound (str "No access to: " ++ ini_file))
  else
    let '(ok, ini) := read_file ini_file in
    if negb ok then Some (Internal (str "Unable to parse ini file: " ++ ini_file))
    else
      let name := stem ini_file in
      content_path ← content_path_of ini;
      let cfg_ini := path_div content_path (str "config.ini") in
      if negb (sys_pathExists cfg_ini) || negb (sys_pathCanRead cfg_ini) then
        Some (NotFound (str "Unable to parse " ++ name ++ str ", no access to config: " ++ cfg_ini))
      else
        let '(ok, config) := read_file cfg_ini in
        if negb ok then Some (Internal (str "Unable to parse ini file: " ++ cfg_ini))
        else avd ← new_FileBackedAvd content_path ini config name sysdir_override; Some (Ok avd).

Definition name_char (c : Z) : bool := ascii_isalpha c || is_digit c || (c =? 95) || (c =? 46) || (c =? 45).
Definition _checkAvdName (name : bytes) : bool := zlen name =? zlen (fst (span name_char (c_str name))).

(** The regular expression ".*.ini": one dot is any character. *)
Definition matches_ini (name : bytes) : bool :=
  let n := (length name - 4)%nat in
  (4 <=? zlen name) && forallb (fun c => negb ((c =? 10) || (c =? 13))) (take (n + 1) name) && bytes_eqb (drop (n + 1) name) (str "ini").

Definition listed_name (filename : bytes) : option bytes :=
  if matches_ini filename then
    let name := take (length filename - 4) filename in
    if _checkAvdName name then Some name else None
  else None.

Definition avd_list : option (list bytes) :=
  directory_path ← getAvdRootDirectory;
  match directory_entries directory_path with Some entries => Some (omap listed_name entries) | None => None end.

Definition fromName (name sysdir_override : bytes) : option (status_or FileBackedAvd) :=
  directory_path ← getAvdRootDirectory;
  avd_parse (path_div directory_path (name ++ str ".ini")) sysdir_override.

(** *** What a device says of itself *)

Definition detectArchitecture (avd : FileBackedAvd) : CpuArchitecture :=
  let abi := getString sys_envGet (str "abi.type") (str "unknown") (mConfig avd) in
  if contains_at abi (str "x86") then kX86 else if contains_at abi (str "arm") then kArm else kUnknownArchitecture.

Definition display_name (avd : FileBackedAvd) : bytes := getString sys_envGet (str "avd.ini.displayname") (mName avd) (mConfig avd).

Section levels.
Context (order : list (Z * ApiLevelInfo)) (SimpleAtoi : bytes -> option Z).
Definition apiLevel (avd : FileBackedAvd) : Z := getApiLevel order SimpleAtoi (getString sys_envGet (str "target") [] (mConfig avd)).
Definition dessert (avd : FileBackedAvd) : bytes := getApiDessertName (apiLevel avd).
Definition apiDescription (avd : FileBackedAvd) : bytes := getFullApiName (apiLevel avd).
End levels.

Definition getIconForDeviceType (flavor : DeviceType) : bytes :=
  str match flavor with
      | kPhone => "📱" | kTv => "📺" | kWear => "⌚️" | kAndroidAuto => "🚗" | kDesktop => "🖥️" | kUnknownDevice => "🤷"
      end.

(** [%-45s] and [%4d]. *)
Definition pad_right (w : Z) (s : bytes) : bytes := s ++ replicate (Z.to_nat (w - zlen s)) 32.
Definition pad_left (w : Z) (s : bytes) : bytes := replicate (Z.to_nat (w - zlen s)) 32 ++ s.

Definition details (labels : list (bytes * DeviceType)) (verbose : bool) (avd : FileBackedAvd) : option bytes :=
  if verbose then
    flavor ← getDeviceType (mConfig avd) (mSysdirOverride avd) labels;
    Some (pad_right 45 (mName avd) ++ str "  - (" ++ pad_left 4 (to_string (hw_lcd_width (mHwCfg avd))) ++ str "x" ++
          pad_left 4 (to_string (hw_lcd_height (mHwCfg avd))) ++ str ") " ++ getIconForDeviceType flavor)
  else Some (mName avd).
End avd.

(** ** The directory of the devices *)

Section roots.
Context `{!System, !Filesystem}.

Definition android_dir (d : bytes) : bytes := path_div d kAndroidSubDir.
Definition prefs_places (d : bytes) : list bytes := match d with [] => [] | _ => [d; android_dir d] end.
Definition home_places (d : bytes) : list bytes := match d with [] => [] | _ => [android_dir d] end.

(** The directories that may have the directory [avd], in the order in which they are tried. *)
Definition avd_places : list bytes :=
  prefs_places (sys_envGet (str "ANDROID_PREFS_ROOT")) ++ prefs_places (sys_envGet (str "ANDROID_SDK_HOME")) ++
  home_places (sys_envGet (str "TEST_TMPDIR")) ++ home_places (sys_envGet (str "USER_HOME")) ++ home_places (sys_envGet (str "HOME")).

(** The directory [avd] in the first place that is valid. *)
Definition first_place (places : list bytes) (other : option bytes) : option bytes :=
  match List.find isValidAvdRoot places with Some p => Some (path_div p kAvdSubDir) | None => other end.

Lemma path_div_nonempty a n : n <> [] -> path_div a n <> [].
Proof.
  destruct n as [|c n]; [done|]. intros _. unfold path_div, fs_join. destruct (c =? 47); [done|]. destruct (last a) as [d|]; [|done].
  destruct (d =? 47); [|by destruct a]. by destruct a.
Qed.

Lemma first_place_app l l' other : first_place (l ++ l') other = first_place l (first_place l' other).
Proof. unfold first_place. induction l as [|x l IH]; cbn [app List.find]; [done|]. by destruct (isValidAvdRoot x). Qed.

Lemma prefs_root_first d other :
  match getAvdRootDirectoryWithPrefsRoot d with [] => other | (_ :: _) as avdRoot => Some avdRoot end = first_place (prefs_places d) other.
Proof.
  unfold getAvdRootDirectoryWithPrefsRoot, first_place, prefs_places, android_dir. destruct d as [|c d]; [done|]. cbn [List.find].
  assert (forall p, path_div p kAvdSubDir <> []) as Hne by (intros p; by apply path_div_nonempty).
  destruct (isValidAvdRoot (c :: d)); [specialize (Hne (c :: d))|destruct (isValidAvdRoot (path_div (c :: d) kAndroidSubDir));
    [specialize (Hne (path_div (c :: d) kAndroidSubDir))|done]]; by destruct (path_div _ kAvdSubDir) eqn:E.
Qed.

Lemma home_root_first var other :
  match avdRootBelow var with Some d => Some d | None => other end = first_place (home_places (sys_envGet var)) other.
Proof. unfold avdRootBelow, first_place, home_places, android_dir. destruct (sys_envGet var); [done|]. cbn [List.find]. by destruct (isValidAvdRoot _). Qed.

(** The directory is the one of ANDROID_AVD_HOME, else that in the first valid place, else the one of the user. *)
Theorem getAvdRootDirectory_ok :
  getAvdRootDirectory =
    let home := sys_envGet (str "ANDROID_AVD_HOME") in
    if negb (bytes_eqb home []) && sys_pathIsDir home then Some home
    else first_place avd_places (user ← getUserDirectory; Some (path_div user kAvdSubDir)).
Proof.
  unfold getAvdRootDirectory, avd_places. destruct (negb _ && _); [done|].
  by rewrite !first_place_app, !prefs_root_first, !home_root_first.
Qed.
End roots.

(** ** Images *)

Section found_images.
Context `{!System, !Filesystem} (mContentPath : bytes) (mConfig : IniFile).

(** Where an image is looked for: the directory of the device, then the directory that replaces the others, or
    those of the configuration.  The image in the directory of the device must be a regular file. *)
Definition sysdir_key (n : Z) : bytes := str "image.sysdir." ++ to_string n.
Definition sysdir_candidates (sdk name : bytes) (ns : list Z) : list bytes :=
  omap (fun n => if hasKey (sysdir_key n) mConfig
                 then Some (path_div (path_div sdk (getString sys_envGet (sysdir_key n) (str "unused") mConfig)) name) else None) ns.

Definition image_candidates (mSysdirOverride sdk name : bytes) : list (bool * bytes) :=
  (true, path_div mContentPath name) ::
  map (pair false) (match mSysdirOverride with [] => sysdir_candidates sdk name [0; 1] | dir => [path_div dir name] end).

Definition usable (c : bool * bytes) : bool :=
  (if fst c then sys_pathIsFile (snd c) else sys_pathExists (snd c)) && sys_pathCanRead (snd c).

Lemma search_sysdirs_ok rounds n sdk name path :
  exists message, search_sysdirs mConfig rounds n sdk name path =
    match List.find check_path (sysdir_candidates sdk name (map (fun i => n + Z.of_nat i) (seq 0 rounds))) with
    | Some p => Ok p
    | None => NotFound message
    end.
Proof.
  revert n path. induction rounds as [|rounds IH]; intros n path; [by eexists|]. cbn [search_sysdirs seq map].
  assert (map (fun i => n + Z.of_nat i) (seq 1 rounds) = map (fun i => n + 1 + Z.of_nat i) (seq 0 rounds)) as ->.
  { rewrite <- seq_shift, map_map. apply map_ext. intros i. lia. }
  rewrite Z.add_0_r. unfold sysdir_candidates. cbn [omap list_omap]. change (SEARCH_PREFIX ++ to_string n) with (sysdir_key n). fold (sysdir_candidates sdk name).
  destruct (hasKey (sysdir_key n) mConfig); cbn [negb]; [|by destruct (IH (n + 1) path) as (m & ->); exists m]. cbn [List.find].
  destruct (check_path _); [by exists []|]. by destruct (IH (n + 1) (path_div (path_div sdk (getString sys_envGet (sysdir_key n) (str "unused") mConfig)) name)) as (m & ->); exists m.
Qed.

(** C40: An image is the first of the files it is looked for that is there and can be read, and an error when none is:
    the one in the directory of the device, which must be a regular file, then the one in the directory that
    replaces the others if one is given, else those below the SDK in the directories that the keys [image.sysdir.0] and
    [image.sysdir.1] name.  These are the keys that the code reads; the documentation names [image.sysdir.1] and
    [image.sysdir.2], see [second_sysdir_not_searched]. *)
Theorem image_first_readable mSysdirOverride sdk imgType :
  getSdkRootDirectory = Some sdk ->
  exists message, getImageFilePath mContentPath mConfig mSysdirOverride imgType =
    Some match List.find usable (image_candidates mSysdirOverride sdk (getImageFilename imgType)) with
         | Some (_, p) => Ok p
         | None => NotFound message
         end.
Proof.
  intros Hsdk. unfold getImageFilePath, image_candidates. cbn [List.find]. unfold usable at 1. cbn [fst snd].
  destruct (_ && _); [by exists []|]. unfold getSystemImageFilePath.
  assert (forall l, List.find usable (map (pair false) l) = pair false <$> List.find check_path l) as Hfind.
  { induction l as [|p l IH]; cbn [map List.find]; [done|]. unfold usable at 1. cbn [fst snd]. fold (check_path p). by destruct (check_path p). }
  rewrite Hfind. destruct mSysdirOverride as [|c dir].
  - rewrite Hsdk. cbn [mbind option_bind]. destruct (search_sysdirs_ok MAX_SEARCH_PATHS 0 sdk (getImageFilename imgType) (str "no-sysimg")) as (m & ->).
    exists m. by destruct (List.find _ _).
  - cbn [List.find]. destruct (check_path _); [by exists []|by eexists].
Qed.

(** The key [image.sysdir.2], the second that the documentation names, is never looked at. *)
Theorem image_sysdir_2_ignored config' mSysdirOverride imgType :
  mBackingFilePath config' = mBackingFilePath mConfig ->
  (forall n, n = 0 \/ n = 1 -> hasKey (sysdir_key n) config' = hasKey (sysdir_key n) mConfig /\
     getString sys_envGet (sysdir_key n) (str "unused") config' = getString sys_envGet (sysdir_key n) (str "unused") mConfig) ->
  getImageFilePath mContentPath config' mSysdirOverride imgType = getImageFilePath mContentPath mConfig mSysdirOverride imgType.
Proof.
  intros Hb Hkeys. unfold getImageFilePath, getSystemImageFilePath. destruct (_ && _); [done|]. destruct mSysdirOverride; [|done].
  unfold MAX_SEARCH_PATHS. cbn [search_sysdirs]. rewrite Hb. destruct (Hkeys 0) as [Ha Ha']; [by left|]. destruct (Hkeys 1) as [Hc Hc']; [by right|].
  unfold sysdir_key in *. change (str "image.sysdir.") with SEARCH_PREFIX in *. replace (0 + 1) with 1 by done. by rewrite Ha, Ha', Hc, Hc'.
Qed.
End found_images.

(** ** Levels *)

Section found_levels.
Context (order : list (Z * ApiLevelInfo)) (Horder : Permutation order kApiLevelInfo) (SimpleAtoi : bytes -> option Z).

Lemma known_levels : Forall (fun e => List.find (fun e' => fst e' =? fst e) kApiLevelInfo = Some e) kApiLevelInfo.
Proof. repeat constructor. Qed.

(** Whatever the order of the table, a name is answered with a level of that name. *)
Lemma first_level_name f e :
  e ∈ kApiLevelInfo -> f (snd e) = true -> exists e', e' ∈ kApiLevelInfo /\ f (snd e') = true /\ first_level order f = fst e'.
Proof.
  intros He Hf. unfold first_level. rewrite <- Horder in He. destruct (List.find _ order) as [[level info]|] eqn:E.
  - apply find_some in E as [Hin Hi]. exists (level, info). rewrite <- Horder. by rewrite list_elem_of_In.
  - pose proof (List.find_none _ _ E e (proj1 (list_elem_of_In _ _) He)) as Hn. cbn in Hn. congruence.
Qed.

Lemma names_begin_with_letters : Forall (fun e => let c := head0 (dessertName (snd e)) in negb (is_digit c) && ascii_isalpha c = true) kApiLevelInfo.
Proof. repeat constructor. Qed.

(** The dessert of a target with a name of more than a letter is that name, although the level may be another one. *)
Theorem dessert_of_name level info :
  (level, info) ∈ kApiLevelInfo -> 1 < zlen (dessertName info) ->
  getApiDessertName (getApiLevel order SimpleAtoi (str "android-" ++ dessertName info)) = dessertName info.
Proof.
  intros Hin Hlen. unfold getApiLevel. pose proof (proj1 (Forall_forall _ _) names_begin_with_letters _ Hin) as Hc. cbn [snd] in Hc.
  change (str "android-" ++ dessertName info) with (97 :: str "ndroid-" ++ dessertName info).
  assert (strip_prefix (str "android-") (97 :: str "ndroid-" ++ dessertName info) = Some (dessertName info)) as -> by reflexivity.
  destruct (dessertName info) as [|c [|d rest]] eqn:E; [by cbn in Hlen..|]. cbn [head0] in Hc. apply andb_true_iff in Hc as [-> ->].
  unfold getApiLevelFromDessertName. rewrite <- E.
  destruct (first_level_name (fun info' => bytes_eqb (dessertName info') (dessertName info)) (level, info)) as ([level' info'] & Hin' & Hname & ->);
    [done|by apply bytes_eqb_refl|].
  unfold getApiDessertName. rewrite (proj1 (Forall_forall _ _) known_levels _ Hin'). by apply bytes_eqb_eq.
Qed.

(** A level that is written as a number is that level, but at least 3. *)
Theorem level_of_number n :
  0 <= n -> SimpleAtoi (to_string n) = Some n -> getApiLevel order SimpleAtoi (str "android-" ++ to_string n) = Z.max n 3.
Proof.
  intros Hn Ha. unfold getApiLevel. change (str "android-" ++ to_string n) with (97 :: str "ndroid-" ++ to_string n).
  assert (strip_prefix (str "android-") (97 :: str "ndroid-" ++ to_string n) = Some (to_string n)) as -> by reflexivity.
  destruct (to_string_nonneg n Hn) as (Hd & _ & Hne). rewrite Ha. destruct (to_string n) as [|c rest]; [done|].
  apply Forall_cons in Hd as [-> _]. done.
Qed.
End found_levels.

(** Which level the letter S stands for depends on the order of the table. *)
Example level_of_letter_S :
  getApiLevel kApiLevelInfo (fun _ => None) (str "android-S") = 31 /\ getApiLevel (rev kApiLevelInfo) (fun _ => None) (str "android-S") = 32.
Proof. split; reflexivity. Qed.

(** ** Devices that are listed can be opened *)

Lemma filename_div d n : n <> [] -> Forall (fun c => c <> 47) n -> filename (path_div d n) = n.
Proof.
  intros Hne Hn. assert (forall q, filename (q ++ 47 :: n) = n) as Hsep.
  { intros q. unfold filename, last_sep. rewrite rev_app_distr. cbn [rev]. rewrite <- app_assoc. cbn [app].
    rewrite split_at_app; [by rewrite rev_involutive|]. by apply Forall_rev. }
  assert (filename n = n) as Hself.
  { unfold filename, last_sep. rewrite (proj2 (split_at_None _ _)); [done|]. by apply Forall_rev. }
  destruct n as [|c n]; [done|]. unfold path_div. apply Forall_cons in Hn as Hc. destruct Hc as [Hc _]. rewrite (proj2 (Z.eqb_neq c 47)) by done.
  unfold fs_join. destruct (last d) as [x|] eqn:E; [|done]. destruct (Z.eqb_spec x 47) as [->|]; [|by apply Hsep].
  apply last_Some in E as (d' & ->). rewrite <- app_assoc. apply Hsep.
Qed.

Lemma stem_div d name : name <> [] -> Forall (fun c => c <> 47) name -> stem (path_div d (name ++ str ".ini")) = name.
Proof.
  intros Hne Hn. unfold stem. rewrite filename_div.
  - destruct name as [|c name]; [done|]. assert (forall l, bytes_eqb ((c :: name) ++ str ".ini") l = true -> (5 <= length l)%nat) as Hlen.
    { intros l Hl. apply bytes_eqb_eq in Hl as <-. rewrite length_app. cbn. lia. }
    destruct (bytes_eqb _ [46]) eqn:E1; [apply Hlen in E1; cbn in E1; lia|].
    destruct (bytes_eqb _ [46; 46]) eqn:E2; [apply Hlen in E2; cbn in E2; lia|]. cbn [orb].
    rewrite rev_app_distr. change (rev (str ".ini") ++ rev (c :: name)) with ([105; 110; 105] ++ 46 :: rev (c :: name)).
    rewrite split_at_app by (repeat constructor; done). destruct (rev (c :: name)) eqn:E; [by apply (f_equal (@length Z)) in E; rewrite length_rev in E|].
    by rewrite <- E, rev_involutive.
  - by destruct name.
  - apply Forall_app. split; [done|]. by repeat constructor.
Qed.

Lemma name_char_plain c : name_char c = true -> c <> 47 /\ c <> 0 /\ c <> 10 /\ c <> 13.
Proof. intros H. split_and!; intros ->; by vm_compute in H. Qed.

Lemma listed_name_ok name : Forall (fun c => name_char c = true) name -> listed_name (name ++ str ".ini") = Some name.
Proof.
  intros Hn. assert (Forall (fun c => c <> 47 /\ c <> 0 /\ c <> 10 /\ c <> 13) name) as Hp by (eapply Forall_impl; [exact Hn|exact name_char_plain]).
  unfold listed_name, matches_ini. rewrite length_app. change (length (str ".ini")) with 4%nat. replace (length name + 4 - 4)%nat with (length name) by lia.
  assert (name ++ str ".ini" = (name ++ [46]) ++ str "ini") as Hsplit by (by rewrite <- app_assoc).
  assert (length (name ++ [46]) = (length name + 1)%nat) as Hlen by (by rewrite length_app).
  rewrite Hsplit, <- Hlen, take_app_length, drop_app_length, <- Hsplit, take_app_length, bytes_eqb_refl, andb_true_r.
  rewrite (proj2 (Z.leb_le _ _)) by (unfold zlen; rewrite length_app; cbn; lia). cbn [andb].
  assert (forallb (fun c => negb ((c =? 10) || (c =? 13))) (name ++ [46]) = true) as ->.
  { rewrite forallb_app. apply andb_true_iff. split; [|done]. apply forallb_forall. intros c Hc. apply list_elem_of_In in Hc.
    rewrite Forall_forall in Hp. destruct (Hp c Hc) as (_ & _ & H10 & H13). by rewrite (proj2 (Z.eqb_neq c 10)), (proj2 (Z.eqb_neq c 13)) by done. }
  unfold _checkAvdName. rewrite c_str_id by (eapply Forall_impl; [exact Hp|]; by intros c (_ & ? & _)).
  pose proof (span_all name_char name []) as E. rewrite app_nil_r in E. rewrite E by done. cbn [fst]. by rewrite Z.eqb_refl.
Qed.

Section opening.
Context `{!System, !Filesystem} (CORE_HARDWARE_INI : bytes) (defs : HwDefs).

(** An image that is found has a path. *)
Definition found_path (r : status_or bytes) : Prop := match r with Ok p => p <> [] | _ => True end.

Lemma filename_nonempty imgType : getImageFilename imgType <> [].
Proof. by destruct imgType. Qed.

Lemma search_sysdirs_path config rounds n sdk name path : name <> [] -> found_path (search_sysdirs config rounds n sdk name path).
Proof.
  intros Hn. revert n path. induction rounds as [|rounds IH]; intros n path; cbn [search_sysdirs]; [done|].
  destruct (negb _); [done|]. destruct (check_path _); [|done]. by apply path_div_nonempty.
Qed.

Lemma system_image_total config ov imgType :
  getSdkRootDirectory <> None -> exists r, getSystemImageFilePath config ov imgType = Some r /\ found_path r.
Proof.
  intros Hsdk. unfold getSystemImageFilePath. destruct ov as [|c dir].
  - destruct getSdkRootDirectory as [sdk|]; [|done]. cbn [mbind option_bind]. eexists. split; [done|]. apply search_sysdirs_path, filename_nonempty.
  - eexists. split; [done|]. destruct (check_path _); [|done]. apply path_div_nonempty, filename_nonempty.
Qed.

Lemma image_total content config ov imgType :
  getSdkRootDirectory <> None -> exists r, getImageFilePath content config ov imgType = Some r /\ found_path r.
Proof.
  intros Hsdk. unfold getImageFilePath. destruct (_ && _); [|by apply system_image_total].
  eexists. split; [done|]. apply path_div_nonempty, filename_nonempty.
Qed.

Lemma found_path_or r d : found_path r -> match value_or r [] with [] => d | _ => value_or r [] end = value_or r d.
Proof. by destruct r as [[|]| |]. Qed.

(** What [applyDefaults] makes of the configuration: of the data, the cache and the key the images that are found, or
    where they will be made; of the RAM disk and the system partition the images that are found, the user's first,
    or none; the card where it will be made.  What the configuration says of these paths is not used; it is used
    for the roots, when it names them, and for the rest. *)
Record hardware_defaults (content : bytes) (config : IniFile) (ov : bytes) (hw hw' : HardwareConfig) : Prop := {
  hd_data : exists r, getImageFilePath content config ov USERDATA = Some r /\
    disk_dataPartition_path hw' = value_or r (path_div content (getImageFilename USERDATA));
  hd_cache : exists r, getImageFilePath content config ov CACHE = Some r /\
    disk_cachePartition_path hw' = value_or r (path_div content (getImageFilename CACHE));
  hd_key : exists r, getImageFilePath content config ov ENCRYPTIONKEY = Some r /\
    disk_encryptionKeyPartition_path hw' = value_or r (path_div (parent_path (disk_dataPartition_path hw')) (str "encryptionkey.img"));
  hd_ramdisk : exists u r, getImageFilePath content config ov USERRAMDISK = Some u /\ getImageFilePath content config ov RAMDISK = Some r /\
    disk_ramdisk_path hw' = value_or u (value_or r []);
  hd_system : exists u r, getSystemImageFilePath config ov USERSYSTEM = Some u /\ getSystemImageFilePath config ov INITSYSTEM = Some r /\
    disk_systemPartition_initPath hw' =
      match u with Ok p => if bool_decide (fs_exists p = Some true) then p else value_or r [] | _ => value_or r [] end;
  hd_card : hw_sdCard_path hw' = path_div content (getImageFilename SDCARD) /\
    hw_sdCard hw' = hw_sdCard hw /\ hw_sdCard_size hw' = hw_sdCard_size hw;
  hd_roots : exists sdk home, getSdkRootDirectory = Some sdk /\ getAvdRootDirectory = Some home /\
    android_sdk_root hw' = match android_sdk_root hw with [] => sdk | p => p end /\
    android_avd_home hw' = match android_avd_home hw with [] => home | p => p end;
  hd_fixed : disk_cachePartition_size hw' = 66 * 2 ^ 20 /\ hw_gltransport hw' = str "virtio-gpu-pipe";
  hd_orientation : hw_initialOrientation hw' = natural_orientation hw;
  hd_lcd : hw_lcd_width hw' = hw_lcd_width hw /\ hw_lcd_height hw' = hw_lcd_height hw;
}.

Lemma or_else_some p other x : other = Some x -> or_else p other = Some (match p with [] => x | _ => p end).
Proof. intros ->. by destruct p. Qed.

(** The user's system image counts when it is there. *)
Lemma init_system_ok config ov :
  getSdkRootDirectory <> None -> (forall p, fs_exists p <> None) ->
  exists u r, getSystemImageFilePath config ov USERSYSTEM = Some u /\ getSystemImageFilePath config ov INITSYSTEM = Some r /\
    init_system_path config ov =
      Some match u with Ok p => if bool_decide (fs_exists p = Some true) then p else value_or r [] | _ => value_or r [] end.
Proof.
  intros Hsdk Hex. unfold init_system_path, system_image_path.
  destruct (system_image_total config ov USERSYSTEM Hsdk) as (u & -> & Hu). destruct (system_image_total config ov INITSYSTEM Hsdk) as (r & -> & _).
  exists u, r. split_and!; [done|done|]. cbn [mbind option_bind]. destruct u as [[|c p]| |]; [done| |done|done]. cbn [value_or].
  specialize (Hex (c :: p)). destruct (fs_exists _) as [[]|]; done.
Qed.

Theorem applyDefaults_ok content config ov hw :
  getSdkRootDirectory <> None -> getAvdRootDirectory <> None -> (forall p, fs_exists p <> None) ->
  exists hw', applyDefaults content config ov hw = Some hw' /\ hardware_defaults content config ov hw hw'.
Proof.
  intros Hsdk Havd Hex. unfold applyDefaults, image_path. destruct (init_system_ok config ov Hsdk Hex) as (us & ini_s & Eus & Eis & Einit).
  destruct (image_total content config ov ENCRYPTIONKEY Hsdk) as (key & Ekey & Hkey). destruct (image_total content config ov USERRAMDISK Hsdk) as (u & Eu & Hu).
  destruct (image_total content config ov RAMDISK Hsdk) as (r & Er & _). destruct (image_total content config ov USERDATA Hsdk) as (d & Ed & Hd).
  destruct (image_total content config ov CACHE Hsdk) as (c & Ec & Hc). rewrite Ekey, Eu, Er, Ed, Ec.
  destruct getSdkRootDirectory as [sdk|] eqn:Esdk; [|done]. destruct getAvdRootDirectory as [home|] eqn:Ehome; [|done].
  rewrite (or_else_some (android_sdk_root hw) _ sdk), (or_else_some (android_avd_home hw) _ home) by done. cbn [mbind option_bind].
  assert (or_else (value_or u []) (Some (value_or r [])) = Some (value_or u (value_or r []))) as -> by (by destruct u as [[|]| |]).
  cbn [mbind option_bind]. rewrite Einit. cbn [mbind option_bind]. rewrite !found_path_or by done.
  eexists. split; [done|]. split; cbn; [by exists d|by exists c| |by exists u, r|by exists us, ini_s|done| |done|done|done].
  - exists key. split; [done|]. assert (value_or d (path_div content (getImageFilename USERDATA)) <> []) as Hne.
    { destruct d as [p| |]; [exact Hd|by apply path_div_nonempty..]. }
    destruct (value_or d _) as [|x data]; [done|]. by destruct key as [[|y p]| |].
  - exists sdk, home. split_and!; [done|done|..]; by destruct (android_sdk_root hw), (android_avd_home hw).
Qed.

(** The files of a device are there. *)
Record openable (root name content : bytes) (ini config : IniFile) : Prop := {
  op_root : getAvdRootDirectory = Some root;
  op_readable : readable (path_div root (name ++ str ".ini")) = true;
  op_ini : read_file (path_div root (name ++ str ".ini")) = (true, ini);
  op_content : content_path_of ini = Some content;
  op_config_readable : readable (path_div content (str "config.ini")) = true;
  op_config : read_file (path_div content (str "config.ini")) = (true, config);
}.

(** C39: A device whose files are there and whose name is valid (not empty, of letters, digits, [_], [.] and [-]) is listed,
    and its name opens it: with its content directory, its configuration, and the hardware of the configuration
    completed as [hardware_defaults] says, provided a root of the SDK is found and no lookup of a path fails with an error. *)
Theorem listed_avd_opens root name content ini config entries ov :
  openable root name content ini config -> directory_entries root = Some entries -> name ++ str ".ini" ∈ entries ->
  name <> [] -> Forall (fun c => name_char c = true) name ->
  getSdkRootDirectory <> None -> (forall p, fs_exists p <> None) ->
  exists names avd, avd_list = Some names /\ name ∈ names /\ fromName CORE_HARDWARE_INI defs name ov = Some (Ok avd) /\
    mName avd = name /\ mContentPath avd = content /\ mTarget avd = ini /\ mConfig avd = config /\
    hardware_defaults content config ov (hardware_of CORE_HARDWARE_INI defs content config) (mHwCfg avd).
Proof.
  intros [Hroot Hr Hini Hcontent Hcr Hconfig] Hentries Hin Hne Hname Hsdk Hex.
  destruct (applyDefaults_ok content config ov (hardware_of CORE_HARDWARE_INI defs content config) Hsdk) as (hw & Ehw & Hhw); [by rewrite Hroot|done|].
  exists (omap listed_name entries). eexists. split_and!.
  - unfold avd_list. rewrite Hroot. cbn [mbind option_bind]. by rewrite Hentries.
  - apply list_elem_of_omap. eexists. split; [exact Hin|]. by apply listed_name_ok.
  - unfold fromName. rewrite Hroot. cbn [mbind option_bind]. unfold avd_parse.
    apply andb_true_iff in Hr as [-> ->]. rewrite Hini, Hcontent. cbn [negb orb mbind option_bind]. apply andb_true_iff in Hcr as [-> ->].
    rewrite Hconfig. cbn [negb orb]. unfold new_FileBackedAvd. by rewrite Ehw.
  - cbn. apply stem_div; [done|]. eapply Forall_impl; [exact Hname|]. intros c Hc. by destruct (name_char_plain c Hc).
  - done.
  - done.
  - done.
  - done.
Qed.
End opening.

(** ** A device *)

Module Demo.
Definition file (p : String.string) : bytes * (kind * bool * Z) := (str p, (REG, false, 10)).
Definition dir (p : String.string) : bytes * (kind * bool * Z) := (str p, (DIR, false, 4096)).

(** The SDK has no directory [platforms]. *)
Definition host : small_host := {|
  things := [dir "/avd"; file "/avd/dev.ini"; dir "/avd/dev"; file "/avd/dev/config.ini"; file "/avd/dev/userdata-qemu.img";
             dir "/sdk"; dir "/sdk/platform-tools"; dir "/sdk/img"; file "/sdk/img/ramdisk.img"];
  env := list_to_map [(str "ANDROID_AVD_HOME", str "/avd"); (str "ANDROID_HOME", str "/sdk"); (str "XDG_RUNTIME_DIR", str "/run")];
  texts := ∅ |}.

Definition line (s : String.string) : bytes := str s ++ [10].
#[export] Instance services : System := host_services host {| mProgramDir := []; mLauncherDir := []; mHomeDir := [] |}.
#[export] Instance filesystem : Filesystem := {|
  fs_is_directory p := Some (path_is_dir host p); fs_exists p := Some (path_exists host p); temp_directory_path := Some (str "/tmp");
  directory_entries p := if path_is_dir host p then Some (readdir host p) else None;
  file_texts := list_to_map [(str "/avd/dev.ini", line "path=/avd/dev");
    (str "/avd/dev/config.ini", line "image.sysdir.1=img" ++ line "sdcard.size=512M" ++ line "target=android-34")] |}.

(** Some keys of the table of the hardware. *)
Definition defs : HwDefs := {|
  sdk_root_def := (str "android.sdk.root", []); avd_home_def := (str "android.avd.home", []); encryptionKey_def := (str "disk.encryptionKeyPartition.path", []);
  orientation_def := (str "hw.initialOrientation", str "natural"); lcd_width_def := (str "hw.lcd.width", 320); lcd_height_def := (str "hw.lcd.height", 640);
  ramdisk_def := (str "disk.ramdisk.path", []); dataPartition_def := (str "disk.dataPartition.path", []); systemInit_def := (str "disk.systemPartition.initPath", []);
  sdCard_path_def := (str "hw.sdCard.path", []); cacheSize_def := (str "disk.cachePartition.size", 0); cachePath_def := (str "disk.cachePartition.path", []);
  gltransport_def := (str "hw.gltransport", []) |}.

Definition ini : IniFile := snd (read_file (str "/avd/dev.ini")).
Definition config : IniFile := snd (read_file (str "/avd/dev/config.ini")).

Lemma opens : openable (str "/avd") (str "dev") (str "/avd/dev") ini config.
Proof. split; vm_compute; reflexivity. Qed.
End Demo.
Import Demo.

Lemma listed_avd_opens_witness :
  exists names avd, avd_list = Some names /\ str "dev" ∈ names /\ fromName (str "hardware.ini") defs (str "dev") [] = Some (Ok avd) /\
    mContentPath avd = str "/avd/dev" /\ hw_initialOrientation (mHwCfg avd) = str "portrait".
Proof.
  destruct (listed_avd_opens (str "hardware.ini") defs (str "/avd") (str "dev") (str "/avd/dev") ini config [str "dev.ini"; str "dev"] [])
    as (names & avd & Hl & Hin & Hn & _ & Hc & _ & _ & Hhw).
  - exact opens.
  - vm_compute. reflexivity.
  - left.
  - done.
  - by repeat constructor.
  - vm_compute. discriminate.
  - done.
  - exists names, avd. split_and!; [done..|]. rewrite (hd_orientation _ _ _ _ _ Hhw). vm_compute. reflexivity.
Defined.

Lemma image_first_readable_witness :
  getImageFilePath (str "/avd/dev") config [] USERDATA = Some (Ok (str "/avd/dev/userdata-qemu.img")) /\
  getImageFilePath (str "/avd/dev") config [] RAMDISK = Some (Ok (str "/sdk/img/ramdisk.img")).
Proof.
  split.
  - destruct (image_first_readable (str "/avd/dev") config [] (str "/sdk") USERDATA) as (m & ->); vm_compute; reflexivity.
  - destruct (image_first_readable (str "/avd/dev") config [] (str "/sdk") RAMDISK) as (m & ->); vm_compute; reflexivity.
Defined.

(** With the key of the second directory an image that is there is not found. *)
Example second_sysdir_not_searched :
  let config := setString (str "image.sysdir.2") (str "img") (new_IniFile []) in
  match getImageFilePath (str "/avd/dev") config [] RAMDISK with Some (NotFound _) => True | _ => False end.
Proof. vm_compute. exact I. Qed.

(** An SDK without [platforms] is taken for valid. *)
Example sdk_without_platforms : isValidSdkRoot (str "/sdk") = true /\ sys_pathIsDir (str "/sdk/platforms") = false.
Proof. split; vm_compute; reflexivity. Qed.

(** A directory that is made for the running emulators has no permissions for its owner. *)
Example discovery_without_owner :
  (snd <$> getDiscoveryDirectory 1000 18 true ∅) ≫= (fun dirs => dirs !! str "/run/avd/running") = Some 45.
Proof. vm_compute. reflexivity. Qed.

(** When it cannot be made the function throws. *)
Example discovery_throws : getDiscoveryDirectory 1000 18 false ∅ = None.
Proof. vm_compute. reflexivity. Qed.

(** The name of a file that is not an ini file is listed without four characters; a file of the extension alone gives the empty name. *)
Example listed_without_file : listed_name (str "phonexini") = Some (str "phone") /\ listed_name (str ".ini") = Some [].
Proof. split; vm_compute; reflexivity. Qed.

(** A quote that is not closed fails the assertion. *)
Example unclosed_quote : unquoted (34 :: str "/sdk") = None /\ unquoted (34 :: str "/sdk" ++ [34]) = Some (str "/sdk").
Proof. split; reflexivity. Qed.

(** A second configuration that does not name the SD card takes the card away and leaves its size. *)
Example card_without_card :
  let hw := load defs (new_IniFile []) (load defs config new_HardwareConfig) in
  hw_sdCard hw = false /\ hw_sdCard_size hw = 512 * 2 ^ 20.
Proof. split; vm_compute; reflexivity. Qed.
