(* ===== verification/Advertisement.v ===== *)
(** * The advertisement of running emulators

    Models [emulator_advertisement.cpp] of [emulator/config]: every emulator writes an
    ini file named after its process into a directory that all emulators of the user
    share; others find it there when its process is alive, and whoever ends deletes
    what the dead left behind.  The directory is given by the names in it. *)

From stdpp Require Import sorting.
From S2P Require Import Prelude CText IniFile.

(** ** The shared directory and the processes *)

Record shared := { ads : gmap bytes bytes; subdirs : gset bytes }.

Definition is_file (w : shared) (name : bytes) : bool := bool_decide (is_Some (ads w !! name)).
Definition is_dir (w : shared) (name : bytes) : bool := bool_decide (name ∈ subdirs w).

(** [scanDirEntries]: the names in order. *)
Definition entries (w : shared) : list bytes := merge_sort bytes_le (elements (dom (ads w) ∪ subdirs w)).

(** Reading an entry as an ini file, through [IniFile::read]. *)
Definition read_ad (w : shared) (name : bytes) : option IniFile :=
  let '(ok, ini, _) := read_ini true (new_IniFile name) {| files := ads w; oracle := []; taken := [] |} in
  if ok then Some ini else None.

Section processes.
(** This process, the executable of a process that is alive, and [System::envGet]. *)
Context (me : Z) (exe_of : Z -> option bytes) (envGet : bytes -> bytes).

(** ** Names *)

(** [std::to_string], and "pid_%d.ini". *)
Definition pid_dir (pid : Z) : bytes := to_string pid.
Definition location (pid : Z) : bytes := str "pid_" ++ to_string pid ++ str ".ini".

(** The conversion "%d" of [sscanf]; a number too large for [long] is cut like by [strtol]. *)
Definition scan_int (s : bytes) : option Z :=
  let '(v, _, rest) := strtoll s in if (length rest =? length s)%nat then None else Some (s32 v).

(** [sscanf(entry, "pid_%d.ini", &pid) == 1]: what comes after the number is not looked at. *)
Definition scan_location (entry : bytes) : option Z := strip_prefix (str "pid_") entry ≫= scan_int.

Definition isMe (discoveryFile : bytes) : bool :=
  match scan_location discoveryFile with Some pid => pid =? me | None => false end.

(** ** Liveness *)

(** [name.find(text) != npos]. *)
Fixpoint contains (text name : bytes) : bool :=
  starts_with text name || match name with [] => false | _ :: name => contains text name end.

Definition emulator_name (name : bytes) : bool := contains (str "emulator") name || contains (str "qemu-system-") name.

Definition alive_pid (pid : Z) : bool :=
  if me =? pid then true else match exe_of pid with None => false | Some name => emulator_name name end.

Definition PidChecker_isAlive (w : shared) (myFile discoveryFile : bytes) : bool :=
  let pid := Some 0 in
  let pid := if is_file w discoveryFile then scan_location discoveryFile else pid in
  match pid with
  | None => false
  | Some pid =>
      match (if is_dir w discoveryFile then scan_int discoveryFile else Some pid) with
      | None => false
      | Some pid => alive_pid pid
      end
  end.

Section ports.
(** Whether a connection to a loopback port is accepted, over IPv6 or IPv4. *)
Context (connects : Z -> bool).

Definition canConnectToPort (port : Z) : bool := if port =? 0 then false else connects port.

Fixpoint check_ports (ports : list bytes) (ini me_ : IniFile) : bool :=
  match ports with
  | [] => false
  | port :: ports =>
      let checkPort := getInt64 envGet port 0 ini in
      let myPort := getInt64 envGet port 0 me_ in
      if negb (myPort =? 0) && (myPort =? checkPort) then false
      else if negb (checkPort =? 0) && canConnectToPort checkPort then true
      else check_ports ports ini me_
  end.

Definition OpenPortChecker_isAlive (w : shared) (myFile discoveryFile : bytes) : bool :=
  if bytes_eqb myFile discoveryFile then true
  else
    match read_ad w discoveryFile with
    | None => false
    | Some ini => check_ports [str "grpc.port"; str "port.serial"; str "port.adb"] ini (default (new_IniFile myFile) (read_ad w myFile))
    end.
End ports.

(** ** The advertisement *)

(** Whether an entry can be deleted, a file or a directory. *)
Context (deletable : bytes -> bool).

Definition delete_file (name : bytes) (w : shared) : shared :=
  if deletable name then {| ads := delete name (ads w); subdirs := subdirs w |} else w.
Definition delete_dir (name : bytes) (w : shared) : shared :=
  if deletable name then {| ads := ads w; subdirs := subdirs w ∖ {[name]} |} else w.

Section strategy.
Context (isAlive : shared -> bytes -> bytes -> bool).

Fixpoint collect (names : list bytes) (w : shared) (collected : Z) : Z * shared :=
  match names with
  | [] => (collected, w)
  | entry :: names =>
      if negb (isAlive w (location me) entry) then
        let collected := collected + 1 in
        let w := if is_file w entry then delete_file entry w else w in
        let w := if is_dir w entry then delete_dir entry w else w in
        collect names w collected
      else collect names w collected
  end.

Definition garbageCollect (w : shared) : Z * shared := collect (entries w) w 0.

Definition discoverRunningEmulators (w : shared) : list bytes :=
  List.filter (fun entry => negb (bytes_eqb entry (location me)) && isAlive w (location me) entry) (entries w).

Definition matches (props : list (bytes * bytes)) (ini : IniFile) : bool :=
  forallb (fun '(key, val) => hasKey key ini && bytes_eqb (getString envGet key [] ini) val) props.

Fixpoint first_match (w : shared) (props : list (bytes * bytes)) (found : list bytes) : bytes :=
  match found with
  | [] => []
  | discoveryFile :: found =>
      match read_ad w discoveryFile with
      | None => first_match w props found
      | Some ini => if matches props ini then discoveryFile else first_match w props found
      end
  end.

Definition discoverEmulatorWithProperties (w : shared) (props : list (bytes * bytes)) : bytes :=
  first_match w props (discoverRunningEmulators w).
End strategy.

Definition remove (w : shared) : shared :=
  let w := delete_file (location me) w in
  if is_dir w (pid_dir me) then delete_dir (pid_dir me) w else w.

Definition exists_ (w : shared) (pid : Z) : bool := is_file w (location pid).

(** What becomes of the stream: it is not opened, it takes only so many bytes before the disk is full, or it is fine. *)
Inductive stream_fate := NotOpened | Short (n : nat) | Fine.

Definition ad_text (props : list (bytes * bytes)) : bytes := concat (map (fun '(key, val) => key ++ [61] ++ val ++ [10]) props).

(** [bad()] is about reading and writing only: a stream that was not opened is not bad. *)
Definition write_ad (fate : stream_fate) (props : list (bytes * bytes)) (w : shared) : bool * shared :=
  let put text := {| ads := <[location me := text]> (ads w); subdirs := subdirs w |} in
  match fate with
  | NotOpened => (true, w)
  | Short n => (negb (n <? length (ad_text props))%nat, put (take n (ad_text props)))
  | Fine => (true, put (ad_text props))
  end.
End processes.

(** ** Names and numbers *)

Definition pid_ok (pid : Z) : Prop := 0 <= pid < 2 ^ 31.

Lemma scan_int_to_string pid rest :
  pid_ok pid -> match rest with [] => True | c :: _ => is_digit c = false end -> scan_int (to_string pid ++ rest) = Some pid.
Proof.
  unfold pid_ok. intros Hp Hr. unfold scan_int. rewrite strtoll_to_string by (done || lia). rewrite (proj2 (Z.ltb_lt _ _)) by lia.
  destruct (to_string_nonneg pid ltac:(lia)) as (_ & _ & Hne). rewrite (proj2 (Nat.eqb_neq _ _)).
  - by rewrite swrap_small by (unfold in_s; lia).
  - rewrite length_app. destruct (to_string pid); [done|]. cbn. lia.
Qed.

Lemma scan_location_ok pid : pid_ok pid -> scan_location (location pid) = Some pid.
Proof.
  intros Hp. unfold scan_location, location. rewrite strip_prefix_app. cbn [mbind option_bind]. by apply scan_int_to_string.
Qed.

Lemma scan_dir_ok pid : pid_ok pid -> scan_int (pid_dir pid) = Some pid.
Proof. intros Hp. rewrite <- (app_nil_r (pid_dir pid)). by apply scan_int_to_string. Qed.

Lemma location_inj pid pid' : pid_ok pid -> pid_ok pid' -> location pid = location pid' -> pid = pid'.
Proof. intros H H' E. pose proof (scan_location_ok pid H) as S1. rewrite E, scan_location_ok in S1 by done. congruence. Qed.

(** ** Collecting *)

Section collecting.
Context (me : Z) (deletable : bytes -> bool).

(** The answer about an entry depends on that entry only. *)
Definition local_answer (isAlive : shared -> bytes -> bytes -> bool) : Prop :=
  forall w w' my name, ads w' !! name = ads w !! name -> (name ∈ subdirs w' <-> name ∈ subdirs w) -> isAlive w' my name = isAlive w my name.

Lemma pid_checker_local exe_of : local_answer (PidChecker_isAlive me exe_of).
Proof.
  intros w w' my name Hf Hd. unfold PidChecker_isAlive, is_file, is_dir. rewrite Hf. by rewrite (bool_decide_ext _ _ Hd).
Qed.

Context (isAlive : shared -> bytes -> bytes -> bool) (local : local_answer isAlive).

(** The entries that go: not alive in the world [w0], and deletable. *)
Definition goes (w0 : shared) (name : bytes) : bool := negb (isAlive w0 (location me) name) && deletable name.

Definition same_entry (w w' : shared) (n : bytes) : Prop := ads w' !! n = ads w !! n /\ (n ∈ subdirs w' <-> n ∈ subdirs w).
Definition gone (w' : shared) (n : bytes) : Prop := ads w' !! n = None /\ n ∉ subdirs w'.

Definition delete_entry (e : bytes) (w : shared) : shared :=
  let w := if is_file w e then delete_file deletable e w else w in if is_dir w e then delete_dir deletable e w else w.

Lemma delete_entry_deletable e w :
  deletable e = true -> delete_entry e w = {| ads := delete e (ads w); subdirs := subdirs w ∖ {[e]} |}.
Proof.
  intros Hd. unfold delete_entry, delete_file, delete_dir, is_file, is_dir. rewrite Hd. destruct w as [a s]. cbn [ads subdirs].
  case_bool_decide as Hf; cbn [ads subdirs]; case_bool_decide as Hs; f_equal; try (by rewrite delete_id by by apply eq_None_not_Some); set_solver.
Qed.

Lemma delete_entry_fixed e w : deletable e = false -> delete_entry e w = w.
Proof. intros Hd. unfold delete_entry, delete_file, delete_dir. rewrite Hd. by destruct (is_file w e), (is_dir w e). Qed.

Lemma delete_entry_other e w n : n <> e -> same_entry w (delete_entry e w) n.
Proof.
  intros Hn. destruct (deletable e) eqn:Hd; [|by rewrite delete_entry_fixed]. rewrite delete_entry_deletable by done.
  split; cbn; [by rewrite lookup_delete_ne|]. rewrite elem_of_difference, elem_of_singleton. tauto.
Qed.

Lemma delete_entry_this e w : if deletable e then gone (delete_entry e w) e else same_entry w (delete_entry e w) e.
Proof.
  destruct (deletable e) eqn:Hd; [|by rewrite delete_entry_fixed]. rewrite delete_entry_deletable by done.
  split; cbn; [by rewrite lookup_delete_eq|]. rewrite elem_of_difference, elem_of_singleton. tauto.
Qed.

Lemma collect_ok w0 names w c :
  NoDup names -> (forall n, n ∈ names -> same_entry w0 w n) ->
  let '(c', w') := collect me deletable isAlive names w c in
  c' = c + zlen (List.filter (fun n => negb (isAlive w0 (location me) n)) names) /\
  forall n, if bool_decide (n ∈ names) && goes w0 n then gone w' n else same_entry w w' n.
Proof.
  intros Hd. revert w c. induction Hd as [|e names He Hd IH]; intros w c Hw; cbn [collect List.filter].
  - split; [rewrite zlen_nil; lia|]. intros n. by rewrite bool_decide_eq_false_2 by set_solver.
  - destruct (Hw e ltac:(set_solver)) as [Hf Hs]. rewrite (local w0 w) by done.
    assert (forall n, bool_decide (n ∈ e :: names) = bool_decide (n = e) || bool_decide (n ∈ names)) as Hb.
    { intros n. rewrite <- bool_decide_or. apply bool_decide_ext, elem_of_cons. }
    destruct (isAlive w0 (location me) e) eqn:Ea; cbn [negb].
    + specialize (IH w c ltac:(intros; apply Hw; set_solver)). destruct (collect _ _ _ names w c) as [c' w']. destruct IH as [-> IH].
      split; [done|]. intros n. rewrite Hb. specialize (IH n). destruct (decide (n = e)) as [->|Hne]; [|by rewrite (bool_decide_eq_false_2 (n = e))].
      rewrite (bool_decide_eq_false_2 (e ∈ names)) in IH by done. unfold goes. by rewrite Ea, andb_false_r.
    + fold (delete_entry e w). pose proof (fun n => delete_entry_other e w n) as Ho. pose proof (delete_entry_this e w) as Ht.
      specialize (IH (delete_entry e w) (c + 1)). destruct (collect _ _ _ names _ (c + 1)) as [c' w']. destruct IH as [-> IH].
      { intros n Hn. destruct (Hw n ltac:(set_solver)) as [H1 H2]. destruct (Ho n) as [H3 H4]; [by intros ->|]. split; [congruence|by rewrite H4]. }
      split; [rewrite zlen_cons; lia|]. intros n. rewrite Hb. specialize (IH n). destruct (decide (n = e)) as [->|Hne].
      * rewrite (bool_decide_eq_false_2 (e ∈ names)) in IH by done. rewrite (bool_decide_eq_true_2 (e = e)) by done. unfold goes. rewrite Ea. cbn [negb andb orb] in *.
        destruct IH as [H1 H2]. destruct (deletable e); destruct Ht as [H3 H4]; split; try congruence; by rewrite H2.
      * rewrite (bool_decide_eq_false_2 (n = e)) by done. cbn [orb]. destruct (bool_decide (n ∈ names) && goes w0 n); [done|].
        destruct IH as [H1 H2], (Ho n Hne) as [H3 H4]. split; [congruence|by rewrite H2].
Qed.

Lemma entries_NoDup w : NoDup (entries w).
Proof. unfold entries. rewrite merge_sort_Permutation. apply NoDup_elements. Qed.

Lemma elem_of_entries w n : n ∈ entries w <-> is_Some (ads w !! n) \/ n ∈ subdirs w.
Proof. unfold entries. rewrite merge_sort_Permutation, elem_of_elements, elem_of_union, elem_of_dom. done. Qed.

(** Collecting deletes exactly the entries that are not alive, as far as they can be deleted, and counts those that
    are not alive. *)
Lemma garbageCollect_spec w :
  let '(count, w') := garbageCollect me deletable isAlive w in
  count = zlen (List.filter (fun n => negb (isAlive w (location me) n)) (entries w)) /\
  forall n, if bool_decide (n ∈ entries w) && goes w n then gone w' n else same_entry w w' n.
Proof. apply (collect_ok w (entries w) w 0 (entries_NoDup w)). done. Qed.
End collecting.

(** No name is that of a file and of a directory. *)
Definition names_differ (w : shared) : Prop := forall n, is_Some (ads w !! n) -> n ∉ subdirs w.

Lemma pid_checker_file me exe_of w my n :
  names_differ w -> is_Some (ads w !! n) ->
  PidChecker_isAlive me exe_of w my n = match scan_location n with Some pid => alive_pid me exe_of pid | None => false end.
Proof.
  intros Hw Hn. unfold PidChecker_isAlive, is_file, is_dir. rewrite bool_decide_eq_true_2, bool_decide_eq_false_2 by auto.
  by destruct (scan_location n).
Qed.

Lemma pid_checker_dir me exe_of w my n :
  names_differ w -> n ∈ subdirs w ->
  PidChecker_isAlive me exe_of w my n = match scan_int n with Some pid => alive_pid me exe_of pid | None => false end.
Proof.
  intros Hw Hn. unfold PidChecker_isAlive, is_file, is_dir. rewrite (bool_decide_eq_true_2 (n ∈ _)) by done.
  rewrite bool_decide_eq_false_2; [done|]. intros Hf. by apply (Hw n Hf).
Qed.

(** C34: The advertisement of a process that is alive, and its directory, stay; an entry that names no process that is an
    emulator goes. *)
Theorem garbageCollect_keeps_alive me exe_of deletable w :
  names_differ w ->
  let w' := snd (garbageCollect me deletable (PidChecker_isAlive me exe_of) w) in
  (forall pid, pid_ok pid -> alive_pid me exe_of pid = true ->
     ads w' !! location pid = ads w !! location pid /\ (pid_dir pid ∈ subdirs w' <-> pid_dir pid ∈ subdirs w)) /\
  (forall n, n ∈ entries w' -> deletable n = true ->
     exists pid, alive_pid me exe_of pid = true /\ (if is_file w n then scan_location n = Some pid else scan_int n = Some pid)) /\
  (forall n, is_Some (ads w' !! n) -> ads w' !! n = ads w !! n) /\ subdirs w' ⊆ subdirs w.
Proof.
  intros Hw w'. pose proof (garbageCollect_spec me deletable _ (pid_checker_local me exe_of) w) as HG. unfold w'.
  destruct (garbageCollect _ _ _ w) as [count w1]. clear w'. cbn [snd]. destruct HG as [_ HG].
  assert (forall n, PidChecker_isAlive me exe_of w (location me) n = true -> same_entry w w1 n) as Hkeep.
  { intros n Ha. specialize (HG n). unfold goes in HG. rewrite Ha in HG. cbn [negb andb] in HG. by rewrite andb_false_r in HG. }
  split_and!.
  - intros pid Hp Ha. split.
    + destruct (ads w !! location pid) as [t|] eqn:E.
      * destruct (Hkeep (location pid)) as [-> _]; [|done]. rewrite pid_checker_file by (done || by rewrite E). by rewrite scan_location_ok.
      * specialize (HG (location pid)). destruct (_ && _); [by destruct HG|]. destruct HG as [-> _]. done.
    + destruct (decide (pid_dir pid ∈ subdirs w)) as [Hin|Hnin].
      * destruct (Hkeep (pid_dir pid)) as [_ ->]; [|done]. rewrite pid_checker_dir by done. by rewrite scan_dir_ok.
      * specialize (HG (pid_dir pid)). destruct (_ && _); [destruct HG; tauto|]. by destruct HG as [_ ->].
  - intros n Hn Hdel. specialize (HG n). rewrite elem_of_entries in Hn. unfold goes in HG. rewrite Hdel, andb_true_r in HG.
    assert (same_entry w w1 n) as [Hf Hs].
    { destruct (_ && _); [|done]. destruct HG as [Hg1 Hg2]. rewrite Hg1 in Hn. destruct Hn as [[? Hn]|Hn]; [done|by apply Hg2 in Hn]. }
    rewrite Hf, Hs in Hn. assert (PidChecker_isAlive me exe_of w (location me) n = true) as Ha.
    { destruct (PidChecker_isAlive me exe_of w (location me) n); [done|]. rewrite bool_decide_eq_true_2 in HG by by apply elem_of_entries.
      destruct HG as [Hg1 Hg2]. rewrite Hf in Hg1. rewrite Hs in Hg2. rewrite Hg1 in Hn. by destruct Hn as [[? ?]|?]. }
    unfold is_file. destruct (decide (is_Some (ads w !! n))) as [Hfile|Hfile].
    + rewrite bool_decide_eq_true_2 by done. rewrite pid_checker_file in Ha by done. destruct (scan_location n) as [pid|]; [|done]. by exists pid.
    + rewrite bool_decide_eq_false_2 by done. destruct Hn as [?|Hn]; [done|]. rewrite pid_checker_dir in Ha by done. destruct (scan_int n) as [pid|]; [|done]. by exists pid.
  - intros n [t Ht]. specialize (HG n). destruct (_ && _); [destruct HG; congruence|]. by destruct HG.
  - intros n Hn. specialize (HG n). destruct (_ && _); [by destruct HG as [_ ?]|]. by apply HG.
Qed.

(** ** What is written is found *)

(** Properties that an ini file can hold as they are. *)
Definition prop_ok (p : bytes * bytes) : Prop :=
  key_ok (fst p) /\ c_string (fst p) /\ value_ok (snd p) /\ Forall (fun c => c <> 37) (snd p).
Definition props_ok (props : list (bytes * bytes)) : Prop :=
  Forall prop_ok props /\ NoDup (map fst props) /\ zlen (ad_text props) <= kMaxIniFileSize.

(** An equal sign without blanks means the same to the reader. *)
Lemma parse_line_tight key v : key_ok key -> value_ok v -> parse_line (key ++ [61] ++ v) = parse_line (key ++ [32; 61; 32] ++ v).
Proof.
  destruct key as [|c key]; [done|]. intros [Hc Hk] (Hv & Hhead & _).
  pose proof (fun k => char_ne isKeyStartChar c k Hc) as Hne.
  assert (isSpaceChar c = false) as Hsp by (unfold isSpaceChar; by rewrite !(proj2 (Z.eqb_neq _ _)) by (apply Hne; reflexivity)).
  unfold parse_line. cbn [app]. rewrite !eat_head by done.
  rewrite !(proj2 (Z.eqb_neq _ _)) by (apply Hne; reflexivity). rewrite Hc. cbn [orb negb].
  rewrite !(span_all isKeyChar key) by done.
  change (eat isSpaceChar (61 :: v)) with (61 :: v). change (eat isSpaceChar (32 :: 61 :: 32 :: v)) with (61 :: 32 :: v).
  change (negb (61 =? 61)) with false. cbv iota. by rewrite (eat_cons _ 32) by done.
Qed.

Definition key_lines (props : list (bytes * bytes)) : list ini_line := map (fun p => KeyLine (fst p) (snd p)) props.

Lemma parse_tight props : forall n f,
  Forall prop_ok props ->
  parse_lines (map (fun p => fst p ++ [61] ++ snd p) props) true n f = parse_lines (map line_text (key_lines props)) true n f.
Proof.
  induction props as [|p props IH]; intros n f Hp; [done|]. apply Forall_cons in Hp as [(Hk & _ & Hv & _) Hp].
  cbn [map key_lines parse_lines line_text]. rewrite parse_line_tight by done. rewrite parse_line_key by done. by apply IH.
Qed.

Lemma key_lines_data props : line_data (key_lines props) = list_to_map props.
Proof. unfold line_data, key_lines. f_equal. induction props as [|[k v] props IH]; [done|]. cbn. by rewrite IH. Qed.

Lemma key_lines_keys props : line_keys (key_lines props) = map fst props.
Proof. unfold line_keys, key_lines. induction props as [|[k v] props IH]; [done|]. cbn. by rewrite IH. Qed.

Lemma ad_text_lines props : ad_text props = concat (map (fun l => l ++ [10]) (map (fun p => fst p ++ [61] ++ snd p) props)).
Proof. unfold ad_text. rewrite map_map. f_equal. apply map_ext. intros [k v]. cbn. by rewrite <- !app_assoc. Qed.

Lemma read_ad_written w name props :
  props_ok props -> name <> [] -> ads w !! name = Some (ad_text props) ->
  exists ini, read_ad w name = Some ini /\ mData ini = list_to_map props.
Proof.
  intros (Hp & Hnd & Hsz) Hn Hf. unfold read_ad, read_ini. cbn [mBackingFilePath cleared new_IniFile files].
  rewrite (proj2 (Z.eqb_neq _ _)) by (destruct name; [done|]; rewrite zlen_cons; pose proof (zlen_nonneg name); lia).
  cbn [fs_fails oracle files]. rewrite Hf. rewrite (proj2 (Z.ltb_ge _ _)) by done. eexists. split; [done|].
  unfold parseStream. rewrite ad_text_lines, getlines_concat.
  - rewrite parse_tight by done. rewrite parse_lines_canonical.
    + cbn. by rewrite key_lines_data, map_union_empty.
    + unfold key_lines. apply Forall_map. eapply Forall_impl; [exact Hp|]. intros [k v] (? & _ & ? & _). done.
    + by rewrite key_lines_keys.
    + done.
  - apply Forall_map. eapply Forall_impl; [exact Hp|]. intros [k v] (Hk & _ & Hv & _). cbn [fst snd].
    pose proof (line_text_no_newline (KeyLine k v) (conj Hk Hv)) as Hl. cbn [line_text] in Hl.
    apply Forall_app in Hl as [Hl1 Hl2]. apply Forall_app. split; [done|]. apply Forall_app. split; [by repeat constructor|].
    apply Forall_app in Hl2 as [_ ?]. done.
Qed.

Lemma matches_written envGet props query ini :
  props_ok props -> mData ini = list_to_map props -> (forall p, p ∈ query -> p ∈ props) -> matches envGet query ini = true.
Proof.
  intros (Hp & Hnd & _) Hd Hq. unfold matches. apply forallb_forall. intros [k v] Hin. apply list_elem_of_In, Hq in Hin as Hin.
  rewrite Forall_forall in Hp. destruct (Hp _ Hin) as (Hk & Hc & Hv & H37). cbn [fst snd] in *.
  assert (mData ini !! k = Some v) as Hl by (rewrite Hd; by apply elem_of_list_to_map_1).
  unfold hasKey, getString. rewrite c_str_id by done. rewrite Hl. cbn [default andb]. rewrite envSubst_plain by done. apply bytes_eqb_refl.
Qed.

Lemma first_match_spec envGet w props found x :
  x ∈ found -> (exists ini, read_ad w x = Some ini /\ matches envGet props ini = true) ->
  let y := first_match envGet w props found in
  y ∈ found /\ exists ini, read_ad w y = Some ini /\ matches envGet props ini = true.
Proof.
  intros Hx (ini & Hr & Hm). induction found as [|z found IH]; [by apply not_elem_of_nil in Hx|]. cbn [first_match].
  apply elem_of_cons in Hx as [<-|Hx].
  - rewrite Hr, Hm. split; [apply list_elem_of_here|]. by exists ini.
  - specialize (IH Hx). destruct IH as (Hy & Hini).
    destruct (read_ad w z) as [ini'|] eqn:E; [|split; [by apply list_elem_of_further|done]].
    destruct (matches envGet props ini') eqn:Em; [split; [apply list_elem_of_here|by exists ini']|split; [by apply list_elem_of_further|done]].
Qed.

Lemma location_nonempty pid : location pid <> [].
Proof. done. Qed.

(** What a running emulator advertised is found by any other that looks for some of its properties, unless another
    running one that advertised them too is found instead; it never finds itself or one that has ended. *)
Theorem advertised_is_found me exe_of envGet w other props query :
  pid_ok me -> pid_ok other -> other <> me -> alive_pid me exe_of other = true -> props_ok props -> (forall p, p ∈ query -> p ∈ props) ->
  names_differ w -> location other ∉ subdirs w ->
  let '(ok, w') := write_ad other Fine props w in
  let x := discoverEmulatorWithProperties me envGet (PidChecker_isAlive me exe_of) w' query in
  ok = true /\ x <> location me /\ (exists ini, read_ad w' x = Some ini /\ matches envGet query ini = true) /\
  exists pid, alive_pid me exe_of pid = true /\ scan_location x = Some pid.
Proof.
  intros Hme Ho Hne Ha Hp Hq Hw Hnd. cbn [write_ad]. set (w' := {| ads := _; subdirs := _ |}). cbn zeta.
  assert (ads w' !! location other = Some (ad_text props)) as Hl by apply lookup_insert_eq.
  assert (names_differ w') as Hw'.
  { intros n Hn. cbn. destruct (decide (n = location other)) as [->|]; [done|]. apply Hw. cbn in Hn. by rewrite lookup_insert_ne in Hn. }
  assert (forall n, n ∈ discoverRunningEmulators me (PidChecker_isAlive me exe_of) w' <->
    n ∈ entries w' /\ n <> location me /\ PidChecker_isAlive me exe_of w' (location me) n = true) as Hdisc.
  { intros n. unfold discoverRunningEmulators. rewrite list_elem_of_In, filter_In, <- list_elem_of_In, andb_true_iff, negb_true_iff.
    destruct (bytes_eqb_spec n (location me)); intuition congruence. }
  assert (location other ∈ discoverRunningEmulators me (PidChecker_isAlive me exe_of) w') as Hin.
  { apply Hdisc. split_and!; [apply elem_of_entries; left; by eexists|intros E; by apply location_inj in E|].
    rewrite pid_checker_file by (done || by eexists). by rewrite scan_location_ok. }
  destruct (read_ad_written w' (location other) props Hp (location_nonempty _) Hl) as (ini & Hr & Hd).
  pose proof (matches_written envGet props query ini Hp Hd Hq) as Hm.
  destruct (first_match_spec envGet w' query _ _ Hin ltac:(by exists ini)) as (Hy & Hini).
  unfold discoverEmulatorWithProperties. set (x := first_match _ _ _ _) in *. apply Hdisc in Hy as (Hy1 & Hy2 & Hy3).
  split_and!; [done|done|done|]. destruct Hini as (ini' & Hr' & _).
  assert (is_Some (ads w' !! x)) as Hx.
  { unfold read_ad, read_ini in Hr'. cbn [mBackingFilePath cleared new_IniFile] in Hr'. destruct (zlen x =? 0); [done|].
    cbn [fs_fails oracle files] in Hr'. destruct (ads w' !! x); [by eexists|done]. }
  rewrite pid_checker_file in Hy3 by done. destruct (scan_location x) as [pid|]; [|done]. by exists pid.
Qed.

(** The check of a property, to evaluate. *)
Definition no_space (o : option Z) : bool := match o with Some c => negb (isSpaceChar c) | None => true end.
Definition prop_okb (p : bytes * bytes) : bool :=
  match fst p with c :: rest => isKeyStartChar c && forallb isKeyChar rest | [] => false end &&
  forallb (fun c => negb (c =? 0)) (fst p) && (forallb isValueChar (snd p) && no_space (head (snd p)) && no_space (head (rev (snd p)))) &&
  forallb (fun c => negb (c =? 37)) (snd p).

Lemma forallb_Forall {A} (f : A -> bool) (P : A -> Prop) l : (forall x, f x = true -> P x) -> forallb f l = true -> Forall P l.
Proof. intros H. induction l as [|x l IH]; cbn; [constructor|]. intros [? ?]%andb_true_iff. constructor; auto. Qed.

Lemma prop_okb_ok p : prop_okb p = true -> prop_ok p.
Proof.
  destruct p as [k v]. unfold prop_okb, prop_ok. cbn [fst snd]. rewrite !andb_true_iff. intros (((Hk & Hc) & ((Hv & Hh) & Hl)) & H37).
  split_and!.
  - destruct k as [|c k]; [done|]. apply andb_true_iff in Hk as [? ?]. split; [done|]. by eapply forallb_Forall; [|done].
  - eapply forallb_Forall; [|exact Hc]. intros x Hx. by apply negb_true_iff, Z.eqb_neq in Hx.
  - split_and!; [by eapply forallb_Forall; [|exact Hv]| |].
    + destruct v as [|c v]; [done|]. by apply negb_true_iff in Hh.
    + destruct (rev v) as [|c r]; [done|]. by apply negb_true_iff in Hl.
  - eapply forallb_Forall; [|exact H37]. intros x Hx. by apply negb_true_iff, Z.eqb_neq in Hx.
Qed.

Definition some_processes (pid : Z) : option bytes := if pid =? 12345 then Some (str "/sdk/emulator/qemu-system-x86_64") else None.
Definition some_shared : shared := {| ads := {[str "pid_99.ini" := str "avd.name=x"; str "notes" := str "mine"]}; subdirs := {[str "99"]} |}.

Lemma some_differ : names_differ some_shared.
Proof.
  intros n Hn Hs. cbn in Hn, Hs. apply elem_of_singleton in Hs as ->. rewrite !lookup_insert_ne, lookup_empty in Hn by (intros E; vm_compute in E; discriminate E).
  by destruct Hn.
Qed.

Lemma garbageCollect_keeps_alive_witness :
  let w' := snd (garbageCollect 7 (fun _ => true) (PidChecker_isAlive 7 some_processes) some_shared) in
  ads w' !! location 12345 = ads some_shared !! location 12345.
Proof.
  destruct (garbageCollect_keeps_alive 7 some_processes (fun _ => true) some_shared some_differ) as (H & _).
  apply (H 12345); [unfold pid_ok; lia|reflexivity].
Defined.

Lemma advertised_is_found_witness :
  let '(ok, w') := write_ad 12345 Fine [(str "port.adb", str "5555"); (str "avd.name", str "Pixel 9")] some_shared in
  let x := discoverEmulatorWithProperties 7 (fun _ => []) (PidChecker_isAlive 7 some_processes) w' [(str "avd.name", str "Pixel 9")] in
  ok = true /\ x <> location 7 /\ (exists ini, read_ad w' x = Some ini /\ matches (fun _ => []) [(str "avd.name", str "Pixel 9")] ini = true) /\
  exists pid, alive_pid 7 some_processes pid = true /\ scan_location x = Some pid.
Proof.
  apply advertised_is_found.
  - unfold pid_ok. lia.
  - unfold pid_ok. lia.
  - lia.
  - reflexivity.
  - split_and!.
    + repeat (apply Forall_cons; split; [apply prop_okb_ok; reflexivity|]). apply Forall_nil_2.
    + vm_compute. apply NoDup_cons. split; [|apply NoDup_singleton]. intros H. apply list_elem_of_singleton in H. discriminate H.
    + vm_compute. discriminate.
  - intros p Hp. apply list_elem_of_singleton in Hp as ->. apply list_elem_of_further, list_elem_of_here.
  - exact some_differ.
  - cbn. intros E. apply elem_of_singleton in E. vm_compute in E. discriminate E.
Defined.

(** The checker of ports reads every entry as an ini file, so that it finds nothing alive behind a directory: collecting
    with it deletes the directory of an emulator that runs, also that of the one that collects. *)
Theorem port_checker_deletes_directories connects :
  let w := {| ads := ∅; subdirs := {[pid_dir 7; pid_dir 12345]} |} in
  let '(count, w') := garbageCollect 7 (fun _ => true) (OpenPortChecker_isAlive (fun _ => []) connects) w in
  count = 2 /\ elements (subdirs w') = [].
Proof. vm_compute. split; reflexivity. Qed.

(** A stream that could not be opened counts as written. *)
Theorem write_ad_unopened me props w : write_ad me NotOpened props w = (true, w).
Proof. done. Qed.
