(* ===== verification/SocketWaiter.v ===== *)
(** * Waiting for sockets

    Models [SocketWaiter.cpp] of [android/sockets]: which descriptors are watched for
    what, the call of [select], and the enumeration of those that are ready.  The sets
    have room for [FD_SETSIZE] descriptors; an access outside of them is [None]. *)

From stdpp Require Import sorting.
From S2P Require Import Prelude.

Definition FD_SETSIZE : Z := 1024.
Abbreviation fd_set := (gset Z).

Definition in_set (fd : Z) : bool := (0 <=? fd) && (fd <? FD_SETSIZE).
Definition FD_ISSET (fd : Z) (s : fd_set) : option bool := if in_set fd then Some (bool_decide (fd ∈ s)) else None.
Definition FD_SET (fd : Z) (s : fd_set) : option fd_set := if in_set fd then Some ({[fd]} ∪ s) else None.
Definition FD_CLR (fd : Z) (s : fd_set) : option fd_set := if in_set fd then Some (s ∖ {[fd]}) else None.

Definition kEventRead : Z := 1.
Definition kEventWrite : Z := 2.

Record waiter := {
  mReads : fd_set;
  mWrites : fd_set;
  mReadsResult : fd_set;
  mWritesResult : fd_set;
  mMaxFd : Z;
  mMaxFdValid : bool;
  mPendingFd : Z;
}.

Definition reset : waiter :=
  {| mReads := ∅; mWrites := ∅; mReadsResult := ∅; mWritesResult := ∅; mMaxFd := -1; mMaxFdValid := true; mPendingFd := 0 |}.

Definition isValidFd (fd : Z) : bool := (0 <=? fd) && (fd <? FD_SETSIZE).

(** The events of a descriptor that is in range. *)
Definition events_in (fd : Z) (reads writes : fd_set) : option Z :=
  r ← FD_ISSET fd reads; w ← FD_ISSET fd writes;
  Some (Z.lor (if (r : bool) then kEventRead else 0) (if (w : bool) then kEventWrite else 0)).

Definition wantedEventsFor (w : waiter) (fd : Z) : option Z :=
  if negb (isValidFd fd) then Some 0 else events_in fd (mReads w) (mWrites w).
Definition pendingEventsFor (w : waiter) (fd : Z) : option Z :=
  if negb (isValidFd fd) then Some 0 else events_in fd (mReadsResult w) (mWritesResult w).

(** The loop over all descriptors. *)
Fixpoint last_set (n : nat) (fd : Z) (reads writes : fd_set) (maxFd : Z) : Z :=
  match n with
  | O => maxFd
  | S n => last_set n (fd + 1) reads writes (if bool_decide (fd ∈ reads) || bool_decide (fd ∈ writes) then fd else maxFd)
  end.

Definition with_max (m : Z) (valid : bool) (w : waiter) : waiter :=
  {| mReads := mReads w; mWrites := mWrites w; mReadsResult := mReadsResult w; mWritesResult := mWritesResult w;
     mMaxFd := m; mMaxFdValid := valid; mPendingFd := mPendingFd w |}.
Definition with_sets (r s : fd_set) (w : waiter) : waiter :=
  {| mReads := r; mWrites := s; mReadsResult := mReadsResult w; mWritesResult := mWritesResult w;
     mMaxFd := mMaxFd w; mMaxFdValid := mMaxFdValid w; mPendingFd := mPendingFd w |}.
Definition with_pending (r s : fd_set) (fd : Z) (w : waiter) : waiter :=
  {| mReads := mReads w; mWrites := mWrites w; mReadsResult := r; mWritesResult := s;
     mMaxFd := mMaxFd w; mMaxFdValid := mMaxFdValid w; mPendingFd := fd |}.

Definition getFdCount (w : waiter) : Z * waiter :=
  if mMaxFdValid w then (mMaxFd w + 1, w)
  else let maxFd := last_set (Z.to_nat FD_SETSIZE) 0 (mReads w) (mWrites w) (-1) in (maxFd + 1, with_max maxFd true w).

Definition hasFds (w : waiter) : bool * waiter := let '(count, w) := getFdCount w in (0 <? count, w).

Definition update_set (changed events event fd : Z) (s : fd_set) : option fd_set :=
  if negb (Z.land changed event =? 0) then if negb (Z.land events event =? 0) then FD_SET fd s else FD_CLR fd s else Some s.

Definition update (fd events : Z) (w : waiter) : option waiter :=
  oldEvents ← wantedEventsFor w fd;
  if events =? oldEvents then Some w
  else
    let changed := Z.lxor events oldEvents in
    r ← update_set changed events kEventRead fd (mReads w);
    s ← update_set changed events kEventWrite fd (mWrites w);
    let w := with_sets r s w in
    Some (if (oldEvents =? 0) && mMaxFdValid w && (mMaxFd w <? fd) then with_max fd (mMaxFdValid w) w
          else if (events =? 0) && mMaxFdValid w && (fd =? mMaxFd w) then with_max (mMaxFd w) false w
          else w).

(** ** Waiting *)

(** The [timeval]: seconds and microseconds; [None] waits for ever. *)
Definition timeout_of (timeout_ms : Z) : option (Z * Z) :=
  if (timeout_ms <? 0) || (timeout_ms =? 2 ^ 63 - 1) then None
  else let tv_sec := Z.quot timeout_ms 1000 in Some (tv_sec, (timeout_ms - 1000 * tv_sec) * 1000).

(** What [select] answers: the count of ready descriptors and their sets, or an error, [EINTR] or another.  An
    interrupted call leaves the time that is left in the [timeval]. *)
Inductive selected := Ready (ret : Z) (reads writes : fd_set) | Interrupted (left_tm : option (Z * Z)) | Failed.

Section select.
Context {W : Type} (select : Z -> fd_set -> fd_set -> option (Z * Z) -> W -> selected * W).

(** The result, whether it is a timeout, and the sets as the call left them. *)
Fixpoint select_loop (fuel : nat) (count : Z) (tm : option (Z * Z)) (w : waiter) (k : W) : option (Z * waiter * W) :=
  match fuel with
  | O => None
  | S fuel =>
      let '(answer, k) := select count (mReads w) (mWrites w) tm k in
      match answer with
      | Ready ret r s => Some (ret, with_pending r s (mPendingFd w) w, k)
      | Interrupted tm => select_loop fuel count tm w k
      | Failed => Some (-1, with_pending (mReads w) (mWrites w) (mPendingFd w) w, k)
      end
  end.

Definition wait (fuel : nat) (timeout_ms : Z) (w : waiter) (k : W) : option (Z * waiter * W) :=
  let '(count, w) := getFdCount w in
  let w := with_pending (mReadsResult w) (mWritesResult w) 0 w in
  if count <=? 0 then Some (0, w, k) else select_loop fuel count (timeout_of timeout_ms) w k.
End select.

(** The loop from [mPendingFd] on: the descriptor and its events, or -1. *)
Fixpoint next_pending (fuel : nat) (fd count : Z) (w : waiter) : option (Z * Z) :=
  match fuel with
  | O => None
  | S fuel =>
      if fd <? count then
        let fd := fd + 1 in
        events ← events_in fd (mReadsResult w) (mWritesResult w);
        if negb (events =? 0) then Some (fd, events) else next_pending fuel fd count w
      else Some (-1, 0)
  end.

Definition nextPendingFd (w : waiter) : option (Z * Z * waiter) :=
  let '(count, w) := getFdCount w in
  '(fd, events) ← next_pending (S (Z.to_nat count)) (mPendingFd w) count w;
  Some (fd, events, if fd =? -1 then w else with_pending (mReadsResult w) (mWritesResult w) fd w).

(** All of them, the way a looper asks. *)
Fixpoint all_pending (fuel : nat) (w : waiter) : option (list (Z * Z) * waiter) :=
  match fuel with
  | O => None
  | S fuel =>
      '(fd, events, w) ← nextPendingFd w;
      if fd <? 0 then Some ([], w) else '(l, w) ← all_pending fuel w; Some ((fd, events) :: l, w)
  end.

(** ** What is watched *)

Definition is_max (m : Z) (s : fd_set) : Prop := (m = -1 /\ s = ∅) \/ (m ∈ s /\ forall x, x ∈ s -> x <= m).

Record waiter_ok (w : waiter) : Prop := {
  ok_range : forall fd, fd ∈ mReads w ∪ mWrites w -> 0 <= fd < FD_SETSIZE;
  ok_max : mMaxFdValid w = true -> is_max (mMaxFd w) (mReads w ∪ mWrites w);
}.

Definition event_bits (r s : bool) : Z := Z.lor (if r then kEventRead else 0) (if s then kEventWrite else 0).

Lemma events_in_ok fd reads writes :
  0 <= fd < FD_SETSIZE -> events_in fd reads writes = Some (event_bits (bool_decide (fd ∈ reads)) (bool_decide (fd ∈ writes))).
Proof.
  intros H. unfold events_in, FD_ISSET, in_set. rewrite (proj2 (Z.leb_le _ _)), (proj2 (Z.ltb_lt _ _)) by lia. done.
Qed.

Lemma wanted_ok w fd :
  0 <= fd < FD_SETSIZE -> wantedEventsFor w fd = Some (event_bits (bool_decide (fd ∈ mReads w)) (bool_decide (fd ∈ mWrites w))).
Proof.
  intros H. unfold wantedEventsFor, isValidFd. rewrite (proj2 (Z.leb_le _ _)), (proj2 (Z.ltb_lt _ _)) by lia. by apply events_in_ok.
Qed.

(** A set after an update: the descriptor is in it when the event is wanted. *)
Definition put_bit (b : bool) (fd : Z) (s : fd_set) : fd_set := if b then {[fd]} ∪ s else s ∖ {[fd]}.

Lemma elem_of_put_bit b fd s x : x ∈ put_bit b fd s <-> (if decide (x = fd) then b = true else x ∈ s).
Proof. unfold put_bit. destruct b, (decide (x = fd)); set_solver. Qed.

Lemma bool_decide_put_bit b fd s x : bool_decide (x ∈ put_bit b fd s) = if decide (x = fd) then b else bool_decide (x ∈ s).
Proof.
  pose proof (elem_of_put_bit b fd s x) as H. destruct (decide (x = fd)).
  - destruct b; [by apply bool_decide_eq_true, H|]. apply bool_decide_eq_false. intros Hx. by apply H in Hx.
  - by apply bool_decide_ext.
Qed.

Lemma event_bits_tested er ew : (negb (Z.land (event_bits er ew) kEventRead =? 0)) = er /\ (negb (Z.land (event_bits er ew) kEventWrite =? 0)) = ew.
Proof. by destruct er, ew. Qed.

Lemma event_bits_changed r s er ew :
  negb (Z.land (Z.lxor (event_bits er ew) (event_bits r s)) kEventRead =? 0) = xorb er r /\
  negb (Z.land (Z.lxor (event_bits er ew) (event_bits r s)) kEventWrite =? 0) = xorb ew s.
Proof. by destruct er, ew, r, s. Qed.

Lemma event_bits_eqb r s er ew : (event_bits er ew =? event_bits r s) = eqb er r && eqb ew s.
Proof. by destruct er, ew, r, s. Qed.

Lemma update_set_ok fd s b old changed events event :
  0 <= fd < FD_SETSIZE -> old = bool_decide (fd ∈ s) -> negb (Z.land changed event =? 0) = xorb b old -> negb (Z.land events event =? 0) = b ->
  exists s', update_set changed events event fd s = Some s' /\ forall x, x ∈ s' <-> x ∈ put_bit b fd s.
Proof.
  intros Hf -> Hc He. unfold update_set. rewrite Hc, He. unfold FD_SET, FD_CLR, in_set, put_bit.
  rewrite (proj2 (Z.leb_le _ _)), (proj2 (Z.ltb_lt _ _)) by lia. cbn [andb].
  case_bool_decide as Hin; destruct b; cbn [xorb negb]; (eexists; split; [reflexivity|set_solver]).
Qed.

Lemma event_bits_zero r s : event_bits r s = 0 <-> r = false /\ s = false.
Proof. destruct r, s; split; intros H; try done; by destruct H. Qed.

(** When the maximum need not change. *)
Lemma max_kept m U U' fd (b : bool) :
  is_max m U -> 0 <= fd -> (forall x, x ∈ U' <-> (if decide (x = fd) then b = true else x ∈ U)) ->
  (fd ∈ U \/ fd <= m) -> (b = true \/ fd <> m) -> is_max m (U' : fd_set).
Proof.
  intros [[-> ->]|[Hm Hle]] Hf HU Hin Hne.
  - exfalso. destruct Hin as [Hin|]; [set_solver|lia].
  - right. split.
    + apply HU. destruct (decide (m = fd)) as [->|]; [|done]. by destruct Hne.
    + intros x Hx. apply HU in Hx. destruct (decide (x = fd)) as [->|]; [|by apply Hle]. destruct Hin as [Hin|]; [by apply Hle|done].
Qed.

(** Updating one descriptor. *)
Lemma waiter_update_ok w fd er ew :
  waiter_ok w -> 0 <= fd < FD_SETSIZE ->
  exists w', update fd (event_bits er ew) w = Some w' /\ waiter_ok w' /\
    (forall x, x ∈ mReads w' <-> x ∈ put_bit er fd (mReads w)) /\ (forall x, x ∈ mWrites w' <-> x ∈ put_bit ew fd (mWrites w)) /\
    mReadsResult w' = mReadsResult w /\ mWritesResult w' = mWritesResult w.
Proof.
  intros Hw Hf. unfold update. rewrite wanted_ok by done. cbn [mbind option_bind].
  set (r := bool_decide (fd ∈ mReads w)). set (s := bool_decide (fd ∈ mWrites w)). rewrite event_bits_eqb.
  destruct (eqb er r && eqb ew s) eqn:Eq.
  { apply andb_true_iff in Eq as [->%eqb_prop ->%eqb_prop]. exists w. split_and!; [done|done| | |done|done];
      intros x; rewrite elem_of_put_bit; destruct (decide (x = fd)) as [->|]; [|done| |done]; unfold r, s; by rewrite bool_decide_eq_true. }
  destruct (event_bits_changed r s er ew) as [Hcr Hcw]. destruct (event_bits_tested er ew) as [Her Hew].
  destruct (update_set_ok fd (mReads w) er r _ _ _ Hf eq_refl Hcr Her) as (s1 & -> & Hs1).
  destruct (update_set_ok fd (mWrites w) ew s _ _ _ Hf eq_refl Hcw Hew) as (s2 & -> & Hs2). cbn [mbind option_bind].
  assert (forall x, x ∈ s1 ∪ s2 <-> (if decide (x = fd) then er || ew = true else x ∈ mReads w ∪ mWrites w)) as HU.
  { intros x. rewrite elem_of_union, Hs1, Hs2, !elem_of_put_bit. destruct (decide (x = fd)); [|by rewrite elem_of_union].
    rewrite orb_true_iff. done. }
  eexists. split; [reflexivity|].
  set (w' := if _ && (mMaxFd (with_sets s1 s2 w) <? fd) then _ else _).
  assert (mReads w' = s1 /\ mWrites w' = s2 /\ mReadsResult w' = mReadsResult w /\ mWritesResult w' = mWritesResult w) as (E1 & E2 & E3 & E4)
    by (unfold w'; repeat case_match; done).
  split_and!; [|by rewrite E1|by rewrite E2|done|done].
  split; rewrite E1, E2.
  { intros x. rewrite HU. destruct (decide (x = fd)) as [->|]; [done|]. apply Hw. }
  assert (event_bits r s = 0 <-> fd ∉ mReads w ∪ mWrites w) as Hold.
  { rewrite elem_of_union, event_bits_zero. unfold r, s. rewrite !bool_decide_eq_false. tauto. }
  assert (event_bits er ew = 0 <-> er || ew = false) as Hnew by (destruct er, ew; cbn; split; done).
  pose proof (ok_max w Hw) as Hmax. unfold w'. clear w' E1 E2 E3 E4. cbn [with_sets mMaxFdValid mMaxFd].
  destruct (mMaxFdValid w) eqn:Ev; [|by rewrite !andb_false_r; cbn; rewrite Ev]. specialize (Hmax eq_refl). rewrite !andb_true_r.
  destruct (Z.eqb_spec (event_bits r s) 0) as [Eo|Eo]; cbn [andb].
  - destruct (Z.ltb_spec (mMaxFd w) fd) as [Hlt|Hge].
    + intros _. cbn. right. split.
      * apply HU. rewrite decide_True by done. apply not_false_iff_true. intros Ee. apply Hnew in Ee.
        rewrite <- event_bits_eqb, Eo, Ee in Eq. done.
      * intros x Hx. apply HU in Hx. destruct (decide (x = fd)) as [->|]; [lia|]. destruct Hmax as [[_ He]|[_ Hle]]; [by rewrite He in Hx|]. specialize (Hle x Hx). lia.
    + destruct (Z.eqb_spec (event_bits er ew) 0) as [En|En]; [rewrite <- event_bits_eqb, Eo, En in Eq; done|]. cbn [andb]. intros _.
      apply (max_kept _ _ _ fd (er || ew) Hmax ltac:(lia) HU); [by right|]. left. apply not_false_iff_true. intros Ee. by apply Hnew in Ee.
  - assert (fd ∈ mReads w ∪ mWrites w) as Hin by (destruct (decide (fd ∈ mReads w ∪ mWrites w)) as [|Hn]; [done|by apply Hold in Hn]).
    destruct (Z.eqb_spec (event_bits er ew) 0) as [En|En]; cbn [andb]; [destruct (Z.eqb_spec fd (mMaxFd w)) as [Hm|Hm]; [done|]|]; intros _;
      apply (max_kept _ _ _ fd (er || ew) Hmax ltac:(lia) HU); [by left|by right|by left|].
    left. apply not_false_iff_true. intros Ee. by apply Hnew in Ee.
Qed.

Lemma last_set_ok n fd reads writes m :
  (forall x, x ∈ reads ∪ writes -> x < fd + Z.of_nat n) ->
  (m = -1 /\ (forall x, x ∈ reads ∪ writes -> fd <= x)) \/ (m ∈ reads ∪ writes /\ forall x, x ∈ reads ∪ writes -> x <= m \/ fd <= x) ->
  is_max (last_set n fd reads writes m) (reads ∪ writes).
Proof.
  revert fd m. induction n as [|n IH]; intros fd m Hlt Hm; cbn [last_set].
  - destruct Hm as [[-> Hm]|[Hin Hm]].
    + left. split; [done|]. apply set_eq. intros x. split; [|set_solver]. intros Hx. pose proof (Hlt x Hx). pose proof (Hm x Hx). lia.
    + right. split; [done|]. intros x Hx. pose proof (Hlt x Hx). destruct (Hm x Hx); lia.
  - apply IH; [intros x Hx; pose proof (Hlt x Hx); lia|].
    destruct (bool_decide (fd ∈ reads) || bool_decide (fd ∈ writes)) eqn:E.
    + right. apply orb_true_iff in E. rewrite !bool_decide_eq_true in E. split; [set_solver|].
      intros x Hx. destruct (decide (x <= fd)); [by left|right; lia].
    + apply orb_false_iff in E. rewrite !bool_decide_eq_false in E.
      assert (forall x, x ∈ reads ∪ writes -> fd <= x -> fd + 1 <= x) as Hne.
      { intros x Hx Hle. destruct (decide (x = fd)) as [->|]; [set_solver|lia]. }
      destruct Hm as [[-> Hm]|[Hin Hm]]; [left|right]; (split; [done|]); intros x Hx.
      * apply Hne; auto.
      * destruct (Hm x Hx); [by left|right; auto].
Qed.

(** The count is one more than the highest descriptor that is watched. *)
Lemma getFdCount_ok w :
  waiter_ok w ->
  let '(count, w') := getFdCount w in
  waiter_ok w' /\ is_max (count - 1) (mReads w ∪ mWrites w) /\ mReads w' = mReads w /\ mWrites w' = mWrites w /\
  mReadsResult w' = mReadsResult w /\ mWritesResult w' = mWritesResult w /\ mPendingFd w' = mPendingFd w /\ mMaxFdValid w' = true /\ mMaxFd w' = count - 1.
Proof.
  intros Hw. unfold getFdCount. destruct (mMaxFdValid w) eqn:E.
  - split_and!; try done; [|lia]. replace (mMaxFd w + 1 - 1) with (mMaxFd w) by lia. by apply ok_max.
  - assert (is_max (last_set (Z.to_nat FD_SETSIZE) 0 (mReads w) (mWrites w) (-1)) (mReads w ∪ mWrites w)) as Hm.
    { apply last_set_ok; [intros x Hx; apply ok_range in Hx; [|done]; lia|]. left. split; [done|]. intros x Hx. apply ok_range in Hx; [lia|done]. }
    set (m := last_set _ _ _ _ _) in *. clearbody m. replace (m + 1 - 1) with m by lia. split_and!; try done. split; [apply Hw|done].
Qed.

(** ** What is reported *)

Definition ready (w : waiter) (fd : Z) : option (Z * Z) :=
  let e := event_bits (bool_decide (fd ∈ mReadsResult w)) (bool_decide (fd ∈ mWritesResult w)) in if e =? 0 then None else Some (fd, e).

(** The descriptors above [fd] and up to [count] that are ready, in order. *)
Definition ready_between (w : waiter) (fd count : Z) : list (Z * Z) := omap (ready w) (seqZ (fd + 1) (count - fd)).

Lemma ready_between_step w fd count : fd < count -> ready_between w fd count = omap (ready w) [fd + 1] ++ ready_between w (fd + 1) count.
Proof.
  intros H. unfold ready_between. rewrite seqZ_cons by lia. cbn [omap list_omap app].
  replace (Z.succ (fd + 1)) with (fd + 1 + 1) by lia. replace (Z.pred (count - fd)) with (count - (fd + 1)) by lia. by destruct (ready w (fd + 1)).
Qed.

Lemma next_pending_ok fuel fd count w :
  0 <= fd -> count < FD_SETSIZE -> (Z.to_nat (count - fd) < fuel)%nat ->
  match ready_between w fd count with
  | [] => next_pending fuel fd count w = Some (-1, 0)
  | (x, e) :: l => next_pending fuel fd count w = Some (x, e) /\ fd < x <= count /\ l = ready_between w x count
  end.
Proof.
  intros Hf Hc. revert fd Hf. induction fuel as [|fuel IH]; intros fd Hf Hn; [lia|]. cbn [next_pending].
  destruct (Z.ltb_spec fd count) as [Hlt|Hge].
  - rewrite ready_between_step by done. rewrite events_in_ok by lia. cbn [mbind option_bind omap list_omap]. unfold ready at 1.
    destruct (event_bits _ _ =? 0); cbn [negb app].
    + specialize (IH (fd + 1) ltac:(lia) ltac:(lia)). destruct (ready_between w (fd + 1) count) as [|[x e] l]; [done|].
      destruct IH as (E & Hx & El). split_and!; [done|lia..|done].
    + split_and!; [done|lia..|done].
  - unfold ready_between. rewrite seqZ_nil by lia. done.
Qed.

Lemma ready_between_app w fd mid count : fd <= mid <= count -> ready_between w fd count = ready_between w fd mid ++ ready_between w mid count.
Proof.
  intros H. unfold ready_between. replace (count - fd) with ((mid - fd) + (count - mid)) by lia. rewrite seqZ_app by lia.
  rewrite omap_app. by replace (fd + 1 + (mid - fd)) with (mid + 1) by lia.
Qed.

(** Asking until there is no more gives what is ready, in order; descriptor 0 is never reported. *)
Lemma all_pending_ok fuel w count :
  waiter_ok w -> mMaxFdValid w = true -> mMaxFd w = count - 1 -> count < FD_SETSIZE -> 0 <= mPendingFd w ->
  (Z.to_nat (count - mPendingFd w) < fuel)%nat ->
  exists w', all_pending fuel w = Some (ready_between w (mPendingFd w) count, w') /\ mReads w' = mReads w /\ mWrites w' = mWrites w /\
    waiter_ok w'.
Proof.
  intros Hw Hv Hm Hc Hp. revert w Hw Hv Hm Hp. induction fuel as [|fuel IH]; intros w Hw Hv Hm Hp Hf; [lia|]. cbn [all_pending]. unfold nextPendingFd, getFdCount.
  rewrite Hv, Hm. replace (count - 1 + 1) with count by lia.
  destruct (decide (0 <= count)) as [Hcnn|Hcneg].
  2: { cbn [next_pending]. rewrite (proj2 (Z.ltb_ge _ _)) by lia. cbn. exists w. unfold ready_between. rewrite seqZ_nil by lia. done. }
  pose proof (next_pending_ok (S (Z.to_nat count)) (mPendingFd w) count w Hp Hc ltac:(lia)) as Hn.
  destruct (ready_between w (mPendingFd w) count) as [|[x e] l]; [rewrite Hn; cbn; by exists w|].
  destruct Hn as (-> & Hx & ->). cbn [mbind option_bind]. rewrite (proj2 (Z.eqb_neq x (-1))), (proj2 (Z.ltb_ge x 0)) by lia.
  destruct (IH (with_pending (mReadsResult w) (mWritesResult w) x w)) as (w' & E & H1 & H2); [|done|done|cbn; lia|cbn; lia|].
  { split; [apply (ok_range w Hw)|apply (ok_max w Hw)]. }
  cbn [mPendingFd with_pending] in E. rewrite E. cbn [mbind option_bind]. by exists w'.
Qed.

(** ** A history of updates, a wait and its report *)

(** One update: the descriptor, and whether reading and writing are wanted. *)
Abbreviation request := (Z * bool * bool)%type.

Definition apply_updates (us : list request) (w : waiter) : option waiter :=
  foldl (fun o '(fd, er, ew) => o ≫= update fd (event_bits er ew)) (Some w) us.

(** What each descriptor is watched for: its last update, or what it was watched for before. *)
Definition wanted (f : Z -> Z) (us : list request) : Z -> Z :=
  foldl (fun f '(fd, er, ew) x => if decide (x = fd) then event_bits er ew else f x) f us.

Definition watches (w : waiter) (f : Z -> Z) : Prop :=
  forall x, event_bits (bool_decide (x ∈ mReads w)) (bool_decide (x ∈ mWrites w)) = f x.

Lemma watches_put w w' f fd er ew :
  watches w f -> (forall x, x ∈ mReads w' <-> x ∈ put_bit er fd (mReads w)) -> (forall x, x ∈ mWrites w' <-> x ∈ put_bit ew fd (mWrites w)) ->
  watches w' (fun x => if decide (x = fd) then event_bits er ew else f x).
Proof.
  intros Hf Hr Hs x. rewrite (bool_decide_ext _ _ (Hr x)), (bool_decide_ext _ _ (Hs x)), !bool_decide_put_bit.
  by destruct (decide (x = fd)).
Qed.

(** A waiter between two waits, which watches for [f]; the last report may be anything. *)
Record settled (w : waiter) (f : Z -> Z) : Prop := {
  settled_ok : waiter_ok w;
  settled_below : forall x, x ∈ mReads w ∪ mWrites w -> x < FD_SETSIZE - 1;
  settled_for : watches w f;
}.

Lemma reset_settled : settled reset (fun _ => 0).
Proof. split; [split; [set_solver|]|set_solver|done]. intros _. left. split; [done|set_solver]. Qed.

Lemma apply_updates_ok us w f :
  Forall (fun '(fd, _, _) => 0 <= fd < FD_SETSIZE - 1) us -> settled w f ->
  exists w', apply_updates us w = Some w' /\ settled w' (wanted f us).
Proof.
  unfold apply_updates, wanted. intros Hus. revert w f. induction Hus as [|[[fd er] ew] us Hfd Hus IH]; intros w f Hw; cbn [foldl]; [by exists w|].
  destruct (waiter_update_ok w fd er ew (settled_ok w f Hw) ltac:(lia)) as (w1 & E & Hok & Hr & Hs & Er & Es). cbn [mbind option_bind]. rewrite E.
  apply IH. split; [done| |by apply (watches_put w); [apply Hw|..]].
  intros x. rewrite elem_of_union, Hr, Hs, !elem_of_put_bit. destruct (decide (x = fd)) as [->|]; [lia|].
  rewrite <- elem_of_union. apply (settled_below w f Hw).
Qed.

Section waiting.
Context {W : Type} (select : Z -> fd_set -> fd_set -> option (Z * Z) -> W -> selected * W) (interrupts : W -> nat).

(** [select] answers with descriptors it was asked for, and the signals that interrupt it come to an end. *)
Definition select_ok : Prop := forall count r s tm k,
  match select count r s tm k with
  | (Ready ret r' s', _) => r' ⊆ r /\ s' ⊆ s
  | (Interrupted _, k') => (interrupts k' < interrupts k)%nat
  | (Failed, _) => True
  end.

(** The answer of the first call that no signal interrupts: all are asked about the same sets, with the time left. *)
Inductive answered (count : Z) (r s : fd_set) : option (Z * Z) -> W -> selected -> W -> Prop :=
  | answered_now tm k a k' :
      select count r s tm k = (a, k') -> (forall left_tm, a <> Interrupted left_tm) -> answered count r s tm k a k'
  | answered_again tm k left_tm k' a k'' :
      select count r s tm k = (Interrupted left_tm, k') -> answered count r s left_tm k' a k'' -> answered count r s tm k a k''.

(** What an answer leaves for the report; a failed call leaves the sets it was given. *)
Definition takes (w1 : waiter) (ret : Z) (a : selected) : Prop :=
  match a with
  | Ready n r s => ret = n /\ mReadsResult w1 = r /\ mWritesResult w1 = s /\ r ⊆ mReads w1 /\ s ⊆ mWrites w1
  | Failed => ret = -1 /\ mReadsResult w1 = mReads w1 /\ mWritesResult w1 = mWrites w1
  | Interrupted _ => False
  end.

Definition same_watch (w w1 : waiter) : Prop :=
  mReads w1 = mReads w /\ mWrites w1 = mWrites w /\ mMaxFd w1 = mMaxFd w /\ mMaxFdValid w1 = mMaxFdValid w /\ mPendingFd w1 = mPendingFd w.

Lemma select_loop_ok fuel count tm w k :
  select_ok -> (interrupts k < fuel)%nat ->
  exists ret w1 k1 a, select_loop select fuel count tm w k = Some (ret, w1, k1) /\
    answered count (mReads w) (mWrites w) tm k a k1 /\ takes w1 ret a /\ same_watch w w1.
Proof.
  intros Hs. revert tm k. induction fuel as [|fuel IH]; intros tm k Hk; [lia|]. cbn [select_loop].
  pose proof (Hs count (mReads w) (mWrites w) tm k) as H. destruct (select _ _ _ _ _) as [[ret r s|left_tm|] k'] eqn:E.
  - exists ret, (with_pending r s (mPendingFd w) w), k', (Ready ret r s). split; [reflexivity|]. split; [by apply answered_now|].
    split; [cbn in *; split_and!; tauto|by repeat split].
  - destruct (IH left_tm k') as (ret & w1 & k1 & a & E1 & Ha & Ht); [lia|]. exists ret, w1, k1, a.
    split; [exact E1|]. split; [by eapply answered_again|done].
  - exists (-1), (with_pending (mReads w) (mWrites w) (mPendingFd w) w), k', Failed. split; [reflexivity|]. split; [by apply answered_now|].
    split; [cbn in *; split_and!; tauto|by repeat split].
Qed.
End waiting.

Lemma settled_same w w1 f : settled w f -> same_watch w w1 -> settled w1 f.
Proof.
  intros [[H1 H2] H3 H4] (E1 & E2 & E3 & E4 & _). split; [split|..]; unfold watches in *; rewrite ?E1, ?E2, ?E3, ?E4; done.
Qed.

(** The wait: nothing is asked when nothing is watched, and otherwise about everything up to the highest descriptor. *)
Lemma wait_ok {W : Type} (select : Z -> fd_set -> fd_set -> option (Z * Z) -> W -> selected * W) (interrupts : W -> nat)
    fuel timeout_ms w f k :
  select_ok select interrupts -> (interrupts k < fuel)%nat -> settled w f ->
  exists ret w1 k1, wait select fuel timeout_ms w k = Some (ret, w1, k1) /\ settled w1 f /\
    mMaxFdValid w1 = true /\ mPendingFd w1 = 0 /\ mReads w1 = mReads w /\ mWrites w1 = mWrites w /\
    is_max (mMaxFd w1) (mReads w ∪ mWrites w) /\
    ((mMaxFd w1 < 0 /\ ret = 0 /\ k1 = k) \/
     (0 <= mMaxFd w1 /\ exists a,
       answered select (mMaxFd w1 + 1) (mReads w) (mWrites w) (timeout_of timeout_ms) k a k1 /\ takes w1 ret a)).
Proof.
  intros Hs Hk Hw. pose proof (getFdCount_ok w (settled_ok w f Hw)) as Hc. unfold wait. destruct (getFdCount w) as [count w'].
  destruct Hc as (Hok & Hmax & E1 & E2 & E3 & E4 & E5 & Hv & Hm). set (w0 := with_pending _ _ 0 w').
  assert (settled w0 f) as Hw0.
  { split; [split; cbn; [apply (ok_range w' Hok)|apply (ok_max w' Hok)]|cbn; rewrite E1, E2; apply Hw|].
    unfold watches. cbn. rewrite E1, E2. apply Hw. }
  assert (mReads w0 = mReads w /\ mWrites w0 = mWrites w /\ mMaxFd w0 = count - 1 /\ mMaxFdValid w0 = true /\ mPendingFd w0 = 0)
    as (R1 & R2 & R3 & R4 & R5) by (by split_and!).
  clearbody w0. destruct (Z.leb_spec count 0).
  - exists 0, w0, k. rewrite R3. split_and!; try done. left. split; [lia|done].
  - destruct (select_loop_ok select interrupts fuel count (timeout_of timeout_ms) w0 k Hs Hk) as (ret & w1 & k1 & a & E & Ha & Ht & Hf).
    pose proof Hf as (F1 & F2 & F3 & F4 & F5). rewrite R1, R2 in Ha.
    exists ret, w1, k1. rewrite F1, F2, F3, F4, F5, R3, R1, R2. split; [exact E|]. split; [by eapply settled_same|].
    split_and!; try done. right. split; [lia|]. exists a. replace (count - 1 + 1) with count by lia. done.
Qed.

Lemma elem_of_ready_between w fd count x e :
  (x, e) ∈ ready_between w fd count <-> fd < x <= count /\ e = event_bits (bool_decide (x ∈ mReadsResult w)) (bool_decide (x ∈ mWritesResult w)) /\ e <> 0.
Proof.
  unfold ready_between. rewrite list_elem_of_omap. setoid_rewrite elem_of_seqZ. unfold ready. split.
  - intros (y & Hy & E). destruct (Z.eqb_spec (event_bits (bool_decide (y ∈ mReadsResult w)) (bool_decide (y ∈ mWritesResult w))) 0); [done|].
    simplify_eq. split; [lia|done].
  - intros (H & -> & He). exists x. split; [lia|]. by rewrite (proj2 (Z.eqb_neq _ _) He).
Qed.

Lemma ready_between_sorted w fd count : StronglySorted Z.lt (ready_between w fd count).*1.
Proof.
  unfold ready_between. remember (Z.to_nat (count - fd)) as n eqn:En. revert fd En. induction n as [|n IH]; intros fd En.
  - rewrite seqZ_nil by lia. constructor.
  - specialize (IH (fd + 1) ltac:(lia)). rewrite seqZ_cons by lia. replace (Z.succ (fd + 1)) with (fd + 1 + 1) by lia.
    replace (Z.pred (count - fd)) with (count - (fd + 1)) by lia. cbn [omap list_omap]. destruct (ready w (fd + 1)) as [[x e]|] eqn:E; [|done].
    unfold ready in E. case_match; [done|]. simplify_eq. cbn. constructor; [done|]. apply Forall_forall. intros y ([y' e'] & -> & Hy)%list_elem_of_fmap.
    apply (elem_of_ready_between w (fd + 1) count) in Hy. cbn. lia.
Qed.

(** The enumeration after a wait, whatever it left. *)
Lemma report_ok w1 f :
  settled w1 f -> mMaxFdValid w1 = true -> mPendingFd w1 = 0 ->
  exists w2, all_pending (Z.to_nat FD_SETSIZE) w1 = Some (ready_between w1 0 (mMaxFd w1 + 1), w2) /\ settled w2 f.
Proof.
  intros Hw Hv Hp. pose proof (ok_max w1 (settled_ok w1 f Hw) Hv) as Hm.
  assert (-1 <= mMaxFd w1 < FD_SETSIZE - 1) as Hb.
  { destruct Hm as [[-> _]|[Hin _]]; [done|]. pose proof (ok_range w1 (settled_ok w1 f Hw) _ Hin). pose proof (settled_below w1 f Hw _ Hin). lia. }
  set (n := Z.to_nat FD_SETSIZE). assert (Z.of_nat n = FD_SETSIZE) as Hn by (unfold n; lia). clearbody n.
  destruct (all_pending_ok n w1 (mMaxFd w1 + 1)) as (w2 & Eall & E1 & E2 & Hok); [apply Hw|exact Hv|lia|lia|lia|rewrite Hp; lia|].
  rewrite Hp in Eall. exists w2. split; [exact Eall|]. split; [done|rewrite E1, E2; apply Hw|]. unfold watches. rewrite E1, E2. apply Hw.
Qed.

(** Within the descriptors that are watched nothing bounds the report. *)
Lemma elem_of_report w1 (r s : fd_set) m fd e :
  mReadsResult w1 = r -> mWritesResult w1 = s -> (forall x, x ∈ r ∪ s -> x <= m) ->
  (fd, e) ∈ ready_between w1 0 (m + 1) <-> 0 < fd /\ e = event_bits (bool_decide (fd ∈ r)) (bool_decide (fd ∈ s)) /\ e <> 0.
Proof.
  intros <- <- Hle. rewrite elem_of_ready_between. split; [intros (? & ? & ?); split_and!; done || lia|].
  intros (Hfd & -> & He). split; [|done]. split; [done|]. destruct (decide (fd ∈ mReadsResult w1 ∪ mWritesResult w1)) as [Hin|Hn].
  - specialize (Hle fd Hin). lia.
  - destruct He. apply event_bits_zero. rewrite !bool_decide_eq_false. set_solver.
Qed.

Lemma wanted_in w f fd : settled w f -> f fd <> 0 <-> fd ∈ mReads w ∪ mWrites w.
Proof.
  intros Hw. rewrite <- (settled_for w f Hw), event_bits_zero, !bool_decide_eq_false, elem_of_union.
  destruct (decide (fd ∈ mReads w)), (decide (fd ∈ mWrites w)); tauto.
Qed.

(** C35: Whatever a waiter watched for and reported before, after updates a descriptor is watched for what
    its last update says.  A wait asks [select] about exactly these descriptors, up to the highest,
    with the given timeout, again while it is interrupted, and about nothing when none is watched; and
    asking for the next pending descriptor until there is none gives, in increasing order, exactly the
    descriptors above 0 of the sets in that answer, each with the events it was found ready for, or,
    when [select] failed, every watched descriptor above 0 with all it is watched for. *)
Theorem waiter_reports {W : Type} (select : Z -> fd_set -> fd_set -> option (Z * Z) -> W -> selected * W) (interrupts : W -> nat)
    (w0 : waiter) (f0 : Z -> Z) (us : list request) (fuel : nat) (timeout_ms : Z) (k : W)
    (Hw0 : settled w0 f0) (Hselect : select_ok select interrupts) (Hfuel : (interrupts k < fuel)%nat)
    (Hus : Forall (fun '(fd, _, _) => 0 <= fd < FD_SETSIZE - 1) us) :
  exists w, apply_updates us w0 = Some w /\
    (forall fd, 0 <= fd < FD_SETSIZE -> wantedEventsFor w fd = Some (wanted f0 us fd)) /\
    exists ret w1 k1 l w2, wait select fuel timeout_ms w k = Some (ret, w1, k1) /\
      all_pending (Z.to_nat FD_SETSIZE) w1 = Some (l, w2) /\ settled w2 (wanted f0 us) /\ StronglySorted Z.lt l.*1 /\
      ((forall fd, wanted f0 us fd = 0) -> ret = 0 /\ k1 = k /\ l = []) /\
      (forall top, wanted f0 us top <> 0 -> (forall fd, wanted f0 us fd <> 0 -> fd <= top) ->
       exists a, answered select (top + 1) (mReads w) (mWrites w) (timeout_of timeout_ms) k a k1 /\
         match a with
         | Ready n r s => ret = n /\ forall fd e, (fd, e) ∈ l <->
             0 < fd /\ e = event_bits (bool_decide (fd ∈ r)) (bool_decide (fd ∈ s)) /\ e <> 0
         | Failed => ret = -1 /\ forall fd e, (fd, e) ∈ l <-> 0 < fd /\ e = wanted f0 us fd /\ e <> 0
         | Interrupted _ => False
         end).
Proof.
  destruct (apply_updates_ok us w0 f0 Hus Hw0) as (w & E & Hw). exists w. split; [done|].
  split; [intros fd Hfd; by rewrite wanted_ok, (settled_for w _ Hw)|].
  destruct (wait_ok select interrupts fuel timeout_ms w _ k Hselect Hfuel Hw)
    as (ret & w1 & k1 & Ewait & Hw1 & Hv & Hp & Er & Es & Hm & Hask).
  destruct (report_ok w1 _ Hw1 Hv Hp) as (w2 & Eall & Hw2).
  exists ret, w1, k1, (ready_between w1 0 (mMaxFd w1 + 1)), w2. split_and!; [done|done|done|apply ready_between_sorted|..].
  - intros Hnone. assert (mMaxFd w1 = -1) as E1.
    { destruct Hm as [[? _]|[Hin _]]; [done|]. apply (wanted_in w _ _ Hw) in Hin. by destruct Hin. }
    destruct Hask as [(_ & -> & ->)|[? _]]; [|lia]. split_and!; [done|done|]. rewrite E1. done.
  - intros top Htop Hle. apply (wanted_in w _ _ Hw) in Htop.
    assert (mMaxFd w1 = top) as E1.
    { destruct Hm as [[_ He]|[Hin Hmax]]; [rewrite He in Htop; by apply not_elem_of_empty in Htop|]. apply (wanted_in w _ _ Hw), Hle in Hin. specialize (Hmax top Htop). lia. }
    assert (0 <= top) as Hnn by (by apply (ok_range w (settled_ok w _ Hw))).
    destruct Hask as [[? _]|(_ & a & Ha & Ht)]; [lia|]. rewrite E1 in *. exists a. split; [exact Ha|].
    assert (forall x, x ∈ mReads w ∪ mWrites w -> x <= top) as Hb by (intros x Hx; by apply Hle, (wanted_in w _ _ Hw)).
    destruct a as [n r s|tm|]; [| |destruct Ht as (-> & R1 & R2)]; try done.
    + destruct Ht as (-> & R1 & R2 & S1 & S2). split; [done|]. intros fd e. apply elem_of_report; [done|done|].
      intros x Hx. apply Hb. rewrite <- Er, <- Es. clear -Hx S1 S2. set_solver.
    + split; [done|]. intros fd e. rewrite (elem_of_report w1 (mReads w) (mWrites w)); [|congruence|congruence|exact Hb].
      by rewrite (settled_for w _ Hw).
Qed.

(** Descriptors 5 and 7 are read, 7 is given up again; 5 and 9 are found ready after one interrupted call. *)
Example waiter_reports_witness :
  let select := fun (count : Z) (r s : fd_set) (tm : option (Z * Z)) (k : nat) =>
    match k with O => (Ready 2 r s, O) | S k => (Interrupted (Some (0, 50000)), k) end in
  exists w, apply_updates [(5, true, false); (7, true, true); (9, false, true); (7, false, false)] reset = Some w /\
    exists ret w1 k1 l w2 a, wait select 2 100 w 1%nat = Some (ret, w1, k1) /\
      all_pending (Z.to_nat FD_SETSIZE) w1 = Some (l, w2) /\ StronglySorted Z.lt l.*1 /\
      answered select 10 (mReads w) (mWrites w) (Some (0, 100000)) 1%nat a k1.
Proof.
  destruct (waiter_reports (fun count r s tm (k : nat) => match k with O => (Ready 2 r s, O) | S k => (Interrupted (Some (0, 50000)), k) end) (fun k => k)
    reset (fun _ => 0) [(5, true, false); (7, true, true); (9, false, true); (7, false, false)] 2 100 1%nat)
    as (w & E & _ & ret & w1 & k1 & l & w2 & Ew & El & _ & Hl & _ & Hask).
  - apply reset_settled.
  - intros count r s tm [|k]; [done|lia].
  - lia.
  - repeat constructor; lia.
  - exists w. split; [exact E|]. destruct (Hask 9) as (a & Ha & _); [done| |].
    + intros fd. unfold wanted. cbn. repeat case_decide; lia.
    + exists ret, w1, k1, l, w2, a. split_and!; [exact Ew|exact El|exact Hl|exact Ha].
Defined.

(** A descriptor outside of the sets is written outside of them: nothing checks it. *)
Lemma update_outside fd er ew w : ~ (0 <= fd < FD_SETSIZE) -> er || ew = true -> update fd (event_bits er ew) w = None.
Proof.
  intros Hf He. unfold update, wantedEventsFor, isValidFd. assert ((0 <=? fd) && (fd <? FD_SETSIZE) = false) as E.
  { apply andb_false_iff. destruct (Z.leb_spec 0 fd), (Z.ltb_spec fd FD_SETSIZE); lia || auto. }
  rewrite E. cbn [negb mbind option_bind]. unfold update_set, FD_SET, FD_CLR, in_set. rewrite E. by destruct er, ew.
Qed.

(** Descriptor 0 is watched and ready, and not reported. *)
Example zero_is_not_reported :
  (w ← update 0 kEventRead reset; '(ret, w, _) ← wait (fun _ r s _ (k : unit) => (Ready 1 r s, k)) 1 0 w tt;
   '(fd, _, _) ← nextPendingFd w; pending ← pendingEventsFor w 0; Some (ret, fd, pending)) = Some (1, -1, kEventRead).
Proof. vm_compute. reflexivity. Qed.

(** The highest descriptor there is room for makes the enumeration read past the sets. *)
Example last_reads_past :
  (w ← update 1023 kEventRead reset; '(_, w, _) ← wait (fun _ r s _ (k : unit) => (Ready 0 ∅ ∅, k)) 1 0 w tt; nextPendingFd w) = None.
Proof. vm_compute. reflexivity. Qed.
