(* ===== verification/Looper.v ===== *)
(** * The default looper

    Models [android/looper/src/android/base/async/DefaultLooper.cpp]: timers,
    file descriptor watches and tasks of an event loop, one iteration of the
    loop and its run.  Timers, watches and tasks are named by numbers.
    [None] is undefined behaviour of the code: an object that was destroyed,
    or an iterator erased from a list it is not in. *)

From S2P Require Import Prelude.

(** ** The outside of the loop *)

(** The calls a callback makes. *)
Inductive looper_call :=
  | CStartAbsolute (t : Z) (deadline : Z)
  | CStartRelative (t : Z) (delay : Z)
  | CStopTimer (t : Z)
  | CCreateTimer (t : Z)
  | CDeleteTimer (t : Z)
  | CAddEvents (w : Z) (events : Z)
  | CRemoveEvents (w : Z) (events : Z)
  | CCreateFdWatch (w : Z) (fd : Z)
  | CDeleteFdWatch (w : Z)
  | CSchedule (task : Z)
  | CCancel (task : Z)
  | CForceQuit.

(** The system clock and sleep ([System]), the poller ([SocketWaiter]) and
    the callbacks.  [waiter_wait] answers its result and what
    [nextPendingFd] then yields. *)
Class LooperEnv (W : Type) := {
  getUnixTimeUs : W -> Z;
  sleepMs : Z -> W -> W;
  waiter_update : Z -> Z -> W -> W;
  waiter_wait : Z -> W -> Z * list (Z * Z) * W;
  timer_callback : Z -> W -> list looper_call * W;
  fd_callback : Z -> Z -> Z -> W -> list looper_call * W;
  task_callback : Z -> W -> list looper_call * W;
  (** a task made by [scheduleCallback] *)
  mSelfDeleting : Z -> bool;
}.

(** ** The state *)

Record Timer := { mDeadline : Z; tPending : bool }.

Record FdWatch := { mFd : Z; mWantedEvents : Z; mLastEvents : Z; wPending : bool }.

Record Looper := {
  mTimers : gmap Z Timer;
  mActiveTimers : list Z;
  mPendingTimers : list Z;
  mWatches : gmap Z FdWatch;
  mFdWatches : list Z;              (* the keys, in the order of the map *)
  mPendingFdWatches : list Z;
  mScheduledTasks : list Z;
  mForcedExit : bool;
}.

Definition new_looper : Looper :=
  {| mTimers := ∅; mActiveTimers := []; mPendingTimers := []; mWatches := ∅; mFdWatches := [];
     mPendingFdWatches := []; mScheduledTasks := []; mForcedExit := false |}.

Definition with_timers (ts : gmap Z Timer) (active pending : list Z) (l : Looper) : Looper :=
  {| mTimers := ts; mActiveTimers := active; mPendingTimers := pending;
     mWatches := mWatches l; mFdWatches := mFdWatches l; mPendingFdWatches := mPendingFdWatches l;
     mScheduledTasks := mScheduledTasks l; mForcedExit := mForcedExit l |}.

Definition with_watches (ws : gmap Z FdWatch) (keys pending : list Z) (l : Looper) : Looper :=
  {| mTimers := mTimers l; mActiveTimers := mActiveTimers l; mPendingTimers := mPendingTimers l;
     mWatches := ws; mFdWatches := keys; mPendingFdWatches := pending;
     mScheduledTasks := mScheduledTasks l; mForcedExit := mForcedExit l |}.

Definition with_tasks (ts : list Z) (l : Looper) : Looper :=
  {| mTimers := mTimers l; mActiveTimers := mActiveTimers l; mPendingTimers := mPendingTimers l;
     mWatches := mWatches l; mFdWatches := mFdWatches l; mPendingFdWatches := mPendingFdWatches l;
     mScheduledTasks := ts; mForcedExit := mForcedExit l |}.

Definition with_exit (b : bool) (l : Looper) : Looper :=
  {| mTimers := mTimers l; mActiveTimers := mActiveTimers l; mPendingTimers := mPendingTimers l;
     mWatches := mWatches l; mFdWatches := mFdWatches l; mPendingFdWatches := mPendingFdWatches l;
     mScheduledTasks := mScheduledTasks l; mForcedExit := b |}.

(** [list::erase] of the iterator of an element; it must be in the list. *)
Fixpoint list_erase (x : Z) (l : list Z) : option (list Z) :=
  match l with
  | [] => None
  | y :: l => if y =? x then Some l else l ← list_erase x l; Some (y :: l)
  end.

Section looper.
(** [Looper::kDurationInfinite] and [Looper::FdWatch]'s [kEventRead] and
    [kEventWrite]; [kEventMask] is both. *)
Context (kDurationInfinite kEventRead kEventWrite : Z).
#[local] Abbreviation kEventMask := (Z.lor kEventRead kEventWrite).
Context {W : Type} `{LooperEnv W}.

Definition nowNs (w : W) : Z := u64 (getUnixTimeUs w * 1000).

Definition nowMs (w : W) : Z :=
  let nsTime := nowNs w in if nsTime =? 2 ^ 64 - 1 then -1 else nsTime / 1000000.

(** ** Timers *)

(** The deadlines of the listed timers are read through their pointers. *)
Fixpoint insert_active (ts : gmap Z Timer) (t deadline : Z) (active : list Z) : option (list Z) :=
  match active with
  | [] => Some [t]
  | x :: rest =>
      tm ← ts !! x;
      if deadline <? mDeadline tm then Some (t :: active)
      else rest ← insert_active ts t deadline rest; Some (x :: rest)
  end.

Definition startAbsolute (t deadlineMs : Z) (l : Looper) : option Looper :=
  tm ← mTimers l !! t;
  active ← (if negb (mDeadline tm =? kDurationInfinite) then list_erase t (mActiveTimers l)
            else Some (mActiveTimers l));
  let tm := {| mDeadline := deadlineMs; tPending := tPending tm |} in
  let ts := <[t := tm]> (mTimers l) in
  if negb (deadlineMs =? kDurationInfinite) then
    active ← insert_active ts t deadlineMs active;
    Some (with_timers ts active (mPendingTimers l) l)
  else Some (with_timers ts active (mPendingTimers l) l).

Definition startRelative (t deadlineMs : Z) (l : Looper) (w : W) : option Looper :=
  startAbsolute t
    (if negb (deadlineMs =? kDurationInfinite) then s64 (deadlineMs + nowMs w) else deadlineMs) l.

Definition stop (t : Z) (l : Looper) : option Looper := startAbsolute t kDurationInfinite l.

Definition Timer_setPending (t : Z) (l : Looper) : option Looper :=
  tm ← mTimers l !! t;
  Some (with_timers (<[t := {| mDeadline := mDeadline tm; tPending := true |}]> (mTimers l))
          (mActiveTimers l) (mPendingTimers l ++ [t]) l).

Definition Timer_clearPending (t : Z) (l : Looper) : option Looper :=
  tm ← mTimers l !! t;
  if tPending tm then
    pending ← list_erase t (mPendingTimers l);
    Some (with_timers (<[t := {| mDeadline := kDurationInfinite; tPending := false |}]> (mTimers l))
            (mActiveTimers l) pending l)
  else Some l.

Definition createTimer (t : Z) (l : Looper) : option Looper :=
  match mTimers l !! t with
  | Some _ => None
  | None =>
      Some (with_timers (<[t := {| mDeadline := kDurationInfinite; tPending := false |}]> (mTimers l))
              (mActiveTimers l) (mPendingTimers l) l)
  end.

(** [~Timer]: nothing takes the timer out of the active list. *)
Definition deleteTimer (t : Z) (l : Looper) : option Looper :=
  l ← Timer_clearPending t l;
  Some (with_timers (delete t (mTimers l)) (mActiveTimers l) (mPendingTimers l) l).

(** ** Watches *)

Definition FdWatch_setPending (i events : Z) (l : Looper) : option Looper :=
  f ← mWatches l !! i;
  Some (with_watches
    (<[i := {| mFd := mFd f; mWantedEvents := mWantedEvents f;
               mLastEvents := Z.land events kEventMask; wPending := true |}]> (mWatches l))
    (mFdWatches l) (mPendingFdWatches l ++ [i]) l).

Definition FdWatch_clearPending (i : Z) (l : Looper) : option Looper :=
  f ← mWatches l !! i;
  if wPending f then
    pending ← list_erase i (mPendingFdWatches l);
    Some (with_watches
      (<[i := {| mFd := mFd f; mWantedEvents := mWantedEvents f; mLastEvents := mLastEvents f;
                 wPending := false |}]> (mWatches l)) (mFdWatches l) pending l)
  else Some l.

Definition set_wanted (i newEvents : Z) (l : Looper) : option Looper :=
  f ← mWatches l !! i;
  Some (with_watches
    (<[i := {| mFd := mFd f; mWantedEvents := newEvents; mLastEvents := mLastEvents f;
               wPending := wPending f |}]> (mWatches l)) (mFdWatches l) (mPendingFdWatches l) l).

Definition set_last (i lastEvents : Z) (l : Looper) : option Looper :=
  f ← mWatches l !! i;
  Some (with_watches
    (<[i := {| mFd := mFd f; mWantedEvents := mWantedEvents f; mLastEvents := lastEvents;
               wPending := wPending f |}]> (mWatches l)) (mFdWatches l) (mPendingFdWatches l) l).

Definition addEvents (i events : Z) (l : Looper) (w : W) : option (Looper * W) :=
  f ← mWatches l !! i;
  let newEvents := Z.lor (mWantedEvents f) (Z.land events kEventMask) in
  if negb (newEvents =? mWantedEvents f) then
    l ← set_wanted i newEvents l; Some (l, waiter_update (mFd f) newEvents w)
  else Some (l, w).

Definition removeEvents (i events : Z) (l : Looper) (w : W) : option (Looper * W) :=
  f ← mWatches l !! i;
  let events := Z.land events kEventMask in
  let newEvents := Z.ldiff (mWantedEvents f) events in
  r ← (if negb (newEvents =? mWantedEvents f) then
         l ← set_wanted i newEvents l;
         let w := waiter_update (mFd f) newEvents w in
         l ← (if newEvents =? 0 then FdWatch_clearPending i l else Some l);
         Some (l, w)
       else Some (l, w));
  let '(l, w) := r in
  l ← set_last i (Z.ldiff (mLastEvents f) events) l;
  Some (l, w).

Definition createFdWatch (i fd : Z) (l : Looper) : option Looper :=
  match mWatches l !! i with
  | Some _ => None
  | None =>
      Some (with_watches
        (<[i := {| mFd := fd; mWantedEvents := 0; mLastEvents := 0; wPending := false |}]> (mWatches l))
        (mFdWatches l ++ [i]) (mPendingFdWatches l) l)
  end.

(** [~FdWatch]: [dontWantWrite] and [dontWantRead] first. *)
Definition deleteFdWatch (i : Z) (l : Looper) (w : W) : option (Looper * W) :=
  r ← removeEvents i kEventWrite l w;
  let '(l, w) := r in
  r ← removeEvents i kEventRead l w;
  let '(l, w) := r in
  l ← FdWatch_clearPending i l;
  keys ← list_erase i (mFdWatches l);
  Some (with_watches (delete i (mWatches l)) keys (mPendingFdWatches l) l, w).

(** ** Tasks: a set *)

Definition schedule (task : Z) (l : Looper) : Looper :=
  if existsb (Z.eqb task) (mScheduledTasks l) then l
  else with_tasks (mScheduledTasks l ++ [task]) l.

Definition cancel (task : Z) (l : Looper) : Looper :=
  with_tasks (List.filter (fun x => negb (x =? task)) (mScheduledTasks l)) l.

Definition forceQuit (l : Looper) : Looper := with_exit true l.

(** ** The calls of a callback *)

Definition do_call (c : looper_call) (l : Looper) (w : W) : option (Looper * W) :=
  match c with
  | CStartAbsolute t d => l ← startAbsolute t d l; Some (l, w)
  | CStartRelative t d => l ← startRelative t d l w; Some (l, w)
  | CStopTimer t => l ← stop t l; Some (l, w)
  | CCreateTimer t => l ← createTimer t l; Some (l, w)
  | CDeleteTimer t => l ← deleteTimer t l; Some (l, w)
  | CAddEvents i e => addEvents i e l w
  | CRemoveEvents i e => removeEvents i e l w
  | CCreateFdWatch i fd => l ← createFdWatch i fd l; Some (l, w)
  | CDeleteFdWatch i => deleteFdWatch i l w
  | CSchedule k => Some (schedule k l, w)
  | CCancel k => Some (cancel k l, w)
  | CForceQuit => Some (forceQuit l, w)
  end.

Fixpoint do_calls (cs : list looper_call) (l : Looper) (w : W) : option (Looper * W) :=
  match cs with
  | [] => Some (l, w)
  | c :: cs => r ← do_call c l w; let '(l, w) := r in do_calls cs l w
  end.

(** [Task::run]; a self-deleting task cancels itself in its destructor. *)
Definition run_task (k : Z) (l : Looper) (w : W) : option (Looper * W) :=
  let '(cs, w) := task_callback k w in
  r ← do_calls cs l w;
  let '(l, w) := r in
  Some (if mSelfDeleting k then cancel k l else l, w).

Fixpoint run_tasks (ks : list Z) (l : Looper) (w : W) : option (Looper * W) :=
  match ks with
  | [] => Some (l, w)
  | k :: ks => r ← run_task k l w; let '(l, w) := r in run_tasks ks l w
  end.

(** ** One iteration *)

(** The watch of a descriptor: the first one in the order of the map. *)
Fixpoint find_watch (fd : Z) (keys : list Z) (ws : gmap Z FdWatch) : option (option Z) :=
  match keys with
  | [] => Some None
  | i :: keys => f ← ws !! i; if mFd f =? fd then Some (Some i) else find_watch fd keys ws
  end.

(** The loop over [nextPendingFd], which ends at a negative descriptor. *)
Fixpoint queue_fds (events : list (Z * Z)) (l : Looper) : option Looper :=
  match events with
  | [] => Some l
  | (fd, ev) :: events =>
      if fd <? 0 then Some l
      else
        o ← find_watch fd (mFdWatches l) (mWatches l);
        l ← (match o with Some i => FdWatch_setPending i ev l | None => Some l end);
        queue_fds events l
  end.

(** The expired timers move from the active to the pending list; [active] is
    what is left of the list. *)
Fixpoint queue_timers (active : list Z) (kNow : Z) (l : Looper) : option Looper :=
  match active with
  | [] => Some (with_timers (mTimers l) [] (mPendingTimers l) l)
  | t :: rest =>
      tm ← mTimers l !! t;
      if mDeadline tm <=? kNow then l ← Timer_setPending t l; queue_timers rest kNow l
      else Some (with_timers (mTimers l) active (mPendingTimers l) l)
  end.

(** [while (!mPendingTimers.empty())]; also the timers that fired. *)
Fixpoint fire_timers (fuel : nat) (l : Looper) (w : W) : option (list Z * Looper * W) :=
  match mPendingTimers l with
  | [] => Some ([], l, w)
  | t :: _ =>
      match fuel with
      | O => None
      | S fuel =>
          l ← Timer_clearPending t l;
          let '(cs, w) := timer_callback t w in
          r ← do_calls cs l w;
          let '(l, w) := r in
          r ← fire_timers fuel l w;
          let '(fired, l, w) := r in Some (t :: fired, l, w)
      end
  end.

Definition fire_watch (i : Z) (l : Looper) (w : W) : option (Looper * W) :=
  f ← mWatches l !! i;
  l ← set_last i 0 l;
  let '(cs, w) := fd_callback i (mFd f) (mLastEvents f) w in
  do_calls cs l w.

Fixpoint fire_watches (fuel : nat) (l : Looper) (w : W) : option (Looper * W) :=
  match mPendingFdWatches l with
  | [] => Some (l, w)
  | i :: _ =>
      match fuel with
      | O => None
      | S fuel =>
          l ← FdWatch_clearPending i l;
          r ← fire_watch i l w;
          let '(l, w) := r in fire_watches fuel l w
      end
  end.

(** The deadline of the first active timer, or infinite. *)
Definition next_deadline (l : Looper) (deadlineMs : Z) : option Z :=
  first ← (match mActiveTimers l with
           | [] => Some kDurationInfinite
           | t :: _ => tm ← mTimers l !! t; Some (mDeadline tm)
           end);
  Some (Z.min first deadlineMs).

Definition compute_timeout (nextDeadline : Z) (w : W) : Z :=
  if nextDeadline <? kDurationInfinite then Z.max 0 (nextDeadline - nowMs w) else 2 ^ 63 - 1.

(** Queueing and firing of the expired timers; the first result lists the
    timers that fired. *)
Definition fire_due_timers (l : Looper) (w : W) : option (list Z * Looper * W) :=
  l ← queue_timers (mActiveTimers l) (nowMs w) l;
  fire_timers (length (mPendingTimers l)) l w.

(** The second half of the iteration. *)
Definition dispatch (l : Looper) (w : W) : option (list Z * Looper * W) :=
  r ← fire_due_timers l w;
  let '(fired, l, w) := r in
  r ← fire_watches (length (mPendingFdWatches l)) l w;
  let '(l, w) := r in Some (fired, l, w).

(** [runOneIterationWithDeadlineMs]: whether to go on. *)
Definition runOneIteration (deadlineMs : Z) (l : Looper) (w : W)
    : option (bool * list Z * Looper * W) :=
  nextDeadline ← next_deadline l deadlineMs;
  let tasks := mScheduledTasks l in
  let timeOut := match tasks with [] => compute_timeout nextDeadline w | _ => 0 end in
  r ← run_tasks tasks (with_tasks [] l) w;
  let '(l, w) := r in
  match mFdWatches l with
  | [] =>
      if timeOut =? 2 ^ 63 - 1 then Some (false, [], l, w)
      else
        r ← dispatch l (sleepMs timeOut w);
        let '(fired, l, w) := r in Some (true, fired, l, w)
  | _ :: _ =>
      let '(ret, events, w) := waiter_wait timeOut w in
      if ret <? 0 then Some (false, [], l, w)
      else
        l ← (if 0 <? ret then queue_fds events l else Some l);
        r ← dispatch l w;
        let '(fired, l, w) := r in Some (true, fired, l, w)
  end.

(** [runWithDeadlineMs] with at most [fuel] iterations: [None] when they are
    not enough or undefined behaviour was met. *)
Fixpoint run_loop (fuel : nat) (deadlineMs : Z) (l : Looper) (w : W)
    : option (Z * list Z * Looper * W) :=
  match fuel with
  | O => None
  | S fuel =>
      if mForcedExit l then Some (0, [], l, w)
      else
        match mFdWatches l, mActiveTimers l, mScheduledTasks l with
        | [], [], [] => Some (11, [], l, w)             (* EWOULDBLOCK *)
        | _, _, _ =>
            if deadlineMs <? nowMs w then Some (110, [], l, w)    (* ETIMEDOUT *)
            else
              r ← runOneIteration deadlineMs l w;
              let '(continue, fired, l, w) := r in
              if negb continue then Some (0, fired, l, w)
              else
                r ← run_loop fuel deadlineMs l w;
                let '(code, fired', l, w) := r in Some (code, fired ++ fired', l, w)
        end
  end.

Definition runWithDeadlineMs (fuel : nat) (deadlineMs : Z) (l : Looper) (w : W) :=
  run_loop fuel deadlineMs (with_exit false l) w.

End looper.

(** ** Specifications *)

(** The deadline a pointer in a list leads to. *)
Definition deadline_of (ts : gmap Z Timer) (t : Z) : Z :=
  match ts !! t with Some tm => mDeadline tm | None => 0 end.

Definition by_deadline (ts : gmap Z Timer) (l : list Z) : Prop :=
  StronglySorted (fun a b => deadline_of ts a <= deadline_of ts b) l.

(** The lists and the flags of the timers agree. *)
Record timers_ok (inf : Z) (ts : gmap Z Timer) (active pending : list Z) : Prop := {
  ok_active : forall t, t ∈ active ->
    exists tm, ts !! t = Some tm /\ tPending tm = false /\ mDeadline tm <> inf;
  ok_pending : forall t, t ∈ pending ->
    exists tm, ts !! t = Some tm /\ tPending tm = true /\ mDeadline tm <> inf;
  ok_timers : forall t tm, ts !! t = Some tm ->
    (tPending tm = true -> t ∈ pending) /\
    (tPending tm = false -> mDeadline tm <> inf -> t ∈ active);
  ok_active_nodup : NoDup active;
  ok_pending_nodup : NoDup pending;
  ok_order : by_deadline ts active;
}.

Definition LooperOk (inf : Z) (l : Looper) : Prop :=
  timers_ok inf (mTimers l) (mActiveTimers l) (mPendingTimers l).

(** The timers that are due, in the order of the active list. *)
Definition due (l : Looper) (now : Z) : list Z :=
  filter (fun t => deadline_of (mTimers l) t <= now) (mActiveTimers l).

(** Calls of a timer's callback that leave the other timers alone. *)
Definition self_call (t : Z) (c : looper_call) : Prop :=
  match c with
  | CStartAbsolute t' _ | CStartRelative t' _ | CStopTimer t' => t' = t
  | CSchedule _ | CCancel _ | CForceQuit => True
  | _ => False
  end.

Class SelfContainedTimers (W : Type) `{LooperEnv W} := {
  self_contained : forall t w, Forall (self_call t) (timer_callback t w).1;
}.

(** ** Lemmas *)

Lemma list_erase_spec x l :
  NoDup l -> x ∈ l -> list_erase x l = Some (filter (fun y => y <> x) l).
Proof.
  induction 1 as [|y l Hy Hnd IH]; intros Hx; [by apply elem_of_nil in Hx|].
  cbn [list_erase]. destruct (Z.eqb_spec y x) as [->|Hne].
  - rewrite filter_cons_False by tauto. f_equal. symmetry.
    clear IH Hx Hnd. induction l as [|z l IH]; [done|].
    rewrite filter_cons_True by set_solver. f_equal. apply IH. set_solver.
  - rewrite IH by set_solver. by rewrite filter_cons_True.
Qed.

Lemma list_erase_absent x l : x ∉ l -> list_erase x l = None.
Proof.
  induction l as [|y l IH]; [done|]. intros Hx. cbn.
  destruct (Z.eqb_spec y x) as [->|]; [set_solver|]. by rewrite IH by set_solver.
Qed.

Lemma by_deadline_ext ts1 ts2 l :
  (forall t, t ∈ l -> deadline_of ts1 t = deadline_of ts2 t) ->
  by_deadline ts1 l -> by_deadline ts2 l.
Proof.
  intros He Hs. induction Hs as [|t l Hs IH Hf]; constructor.
  - apply IH. intros x Hx. apply He. set_solver.
  - apply Forall_forall. intros x Hx. rewrite Forall_forall in Hf.
    rewrite <- !He by set_solver. by apply Hf.
Qed.

Lemma by_deadline_filter ts (P : Z -> Prop) `{!forall t, Decision (P t)} l :
  by_deadline ts l -> by_deadline ts (filter P l).
Proof.
  induction 1 as [|t l Hs IH Hf]; [constructor|]. rewrite filter_cons.
  destruct (decide (P t)); [|done]. constructor; [done|].
  apply Forall_forall. intros x [_ Hx]%list_elem_of_filter. rewrite Forall_forall in Hf. auto.
Qed.

Lemma deadline_of_insert_ne ts t tm x : x <> t -> deadline_of (<[t := tm]> ts) x = deadline_of ts x.
Proof. intros. unfold deadline_of. by rewrite lookup_insert_ne. Qed.

Lemma deadline_of_insert ts t tm : deadline_of (<[t := tm]> ts) t = mDeadline tm.
Proof. unfold deadline_of. by rewrite lookup_insert_eq. Qed.

(** A timer goes behind the timers with an earlier or equal deadline. *)
Lemma insert_active_spec ts t d active :
  (forall x, x ∈ active -> is_Some (ts !! x)) -> by_deadline ts active ->
  insert_active ts t d active =
    Some (filter (fun x => deadline_of ts x <= d) active ++
          t :: filter (fun x => ~ deadline_of ts x <= d) active).
Proof.
  intros Hs Hsort. induction Hsort as [|x active Hsort IH Hf]; [done|]. cbn [insert_active].
  destruct (Hs x) as [tm Htm]; [set_solver|]. rewrite Htm. cbn [mbind option_bind].
  assert (deadline_of ts x = mDeadline tm) as Ed by (unfold deadline_of; by rewrite Htm).
  destruct (Z.ltb_spec d (mDeadline tm)).
  - rewrite !filter_cons, decide_False, decide_True by lia.
    assert (forall y, y ∈ active -> ~ deadline_of ts y <= d) as Hy.
    { intros y Hin. rewrite Forall_forall in Hf. specialize (Hf y Hin). lia. }
    clear -Hy. do 2 f_equal.
    replace (filter (fun y => deadline_of ts y <= d) active) with (@nil Z).
    + cbn. do 2 f_equal. induction active as [|y active IH]; [done|].
      rewrite filter_cons_True by (apply Hy; set_solver). f_equal. apply IH.
      intros z Hz. apply Hy. set_solver.
    + induction active as [|y active IH]; [done|].
      rewrite filter_cons_False by (apply Hy; set_solver). apply IH. intros z Hz. apply Hy. set_solver.
  - rewrite IH by (intros y Hy; apply Hs; set_solver). cbn [mbind option_bind].
    rewrite !filter_cons, decide_True, decide_False by lia. done.
Qed.

Lemma insert_position_sorted ts t active :
  by_deadline ts active ->
  by_deadline ts (filter (fun x => deadline_of ts x <= deadline_of ts t) active ++
    t :: filter (fun x => ~ deadline_of ts x <= deadline_of ts t) active).
Proof.
  induction 1 as [|x active Hs IH Hf]; [by repeat constructor|].
  rewrite !filter_cons. destruct (decide (deadline_of ts x <= deadline_of ts t)) as [Hx|Hx].
  - rewrite decide_False by tauto. cbn. constructor; [done|].
    apply Forall_app. split; [|constructor; [done|]];
      apply Forall_forall; intros y [_ Hy]%list_elem_of_filter; rewrite Forall_forall in Hf; auto.
  - rewrite decide_True by done.
    replace (filter (fun y => deadline_of ts y <= deadline_of ts t) active) with (@nil Z).
    + cbn. constructor; [constructor|].
      * by apply by_deadline_filter.
      * apply Forall_forall. intros y [_ Hy]%list_elem_of_filter. rewrite Forall_forall in Hf. auto.
      * constructor; [lia|]. apply Forall_forall. intros y [Hd _]%list_elem_of_filter. lia.
    + symmetry. clear -Hf Hx. induction Hf as [|y active Hy Hf IH]; [done|].
      by rewrite filter_cons_False by lia.
Qed.

Lemma insert_position_perm ts t d active :
  filter (fun x => deadline_of ts x <= d) active ++
    t :: filter (fun x => ~ deadline_of ts x <= d) active ≡ₚ t :: active.
Proof.
  rewrite <- Permutation_middle. f_equiv. clear t.
  induction active as [|x active IH]; [done|]. rewrite !filter_cons.
  destruct (decide (deadline_of ts x <= d)).
  - rewrite decide_False by tauto. cbn. by rewrite IH.
  - rewrite decide_True by done. by rewrite <- Permutation_middle, IH.
Qed.

Section facts.
Context (inf rd wr : Z).
Context {W : Type} `{LooperEnv W}.

Lemma Timer_ok_active ts active pending t tm :
  timers_ok inf ts active pending -> ts !! t = Some tm -> tPending tm = false ->
  t ∈ active <-> mDeadline tm <> inf.
Proof.
  intros [] Ht Hp. split.
  - intros Hin. destruct (ok_active0 t Hin) as (tm' & E & _ & ?). congruence.
  - intros Hd. by apply (ok_timers0 t tm).
Qed.

(** Taking a timer that is not pending out of the active list. *)
Lemma timers_ok_disarm ts active pending t tm :
  timers_ok inf ts active pending -> ts !! t = Some tm -> tPending tm = false ->
  timers_ok inf (<[t := {| mDeadline := inf; tPending := false |}]> ts)
    (filter (fun x => x <> t) active) pending.
Proof.
  intros Hok Ht Hp. pose proof Hok as []. split.
  - intros x [Hne Hx]%list_elem_of_filter. rewrite lookup_insert_ne by done. by apply ok_active0.
  - intros x Hx. destruct (ok_pending0 x Hx) as (tm' & E & ? & ?).
    rewrite lookup_insert_ne by congruence. eauto.
  - intros x tmx. destruct (decide (x = t)) as [->|Hne].
    + rewrite lookup_insert_eq. intros [= <-]. done.
    + rewrite lookup_insert_ne by done. intros Hx. destruct (ok_timers0 x tmx Hx) as [H1 H2].
      split; [done|]. intros. apply list_elem_of_filter. auto.
  - by apply NoDup_filter.
  - done.
  - eapply by_deadline_ext; [|by apply by_deadline_filter].
    intros x [Hne _]%list_elem_of_filter. by rewrite deadline_of_insert_ne.
Qed.

(** Arming a timer that is not in the active list. *)
Lemma timers_ok_arm ts active pending t tm d :
  timers_ok inf ts active pending -> ts !! t = Some tm -> tPending tm = false ->
  mDeadline tm = inf -> d <> inf ->
  let ts' := <[t := {| mDeadline := d; tPending := false |}]> ts in
  exists active', insert_active ts' t d active = Some active' /\ active' ≡ₚ t :: active /\
    timers_ok inf ts' active' pending.
Proof.
  intros Hok Ht Hp Hinf Hd ts'. pose proof Hok as [].
  assert (t ∉ active) as Hnin.
  { rewrite (Timer_ok_active ts active pending t tm) by done. intros F. by apply F. }
  assert (by_deadline ts' active) as Hs.
  { eapply by_deadline_ext; [|done]. intros x Hx. symmetry. apply deadline_of_insert_ne. congruence. }
  assert (deadline_of ts' t = d) as Ed by apply deadline_of_insert.
  rewrite insert_active_spec; [|intros x Hx; unfold ts'; rewrite lookup_insert_ne by congruence;
    destruct (ok_active0 x Hx) as (? & -> & _); eauto|done].
  set (active' := filter _ active ++ _).
  assert (active' ≡ₚ t :: active) as Hperm by apply insert_position_perm.
  exists active'. split; [done|]. split; [done|]. split.
  - intros x. rewrite Hperm, elem_of_cons. intros [->|Hx].
    + unfold ts'. rewrite lookup_insert_eq. eexists. split; [done|]. done.
    + unfold ts'. rewrite lookup_insert_ne by congruence. auto.
  - intros x Hx. destruct (ok_pending0 x Hx) as (tm' & E & ? & ?).
    unfold ts'. rewrite lookup_insert_ne by congruence. eauto.
  - intros x tmx. rewrite Hperm, elem_of_cons. unfold ts'. destruct (decide (x = t)) as [->|Hne].
    + rewrite lookup_insert_eq. intros [= <-]. cbn. split; [done|auto].
    + rewrite lookup_insert_ne by done. intros Hx. destruct (ok_timers0 x tmx Hx). auto.
  - rewrite Hperm. by constructor.
  - done.
  - unfold active'. rewrite <- Ed. by apply insert_position_sorted.
Qed.

(** [startAbsolute] on a timer that is not waiting to fire. *)
Lemma startAbsolute_ok l t tm d :
  LooperOk inf l -> mTimers l !! t = Some tm -> tPending tm = false ->
  exists l', startAbsolute inf t d l = Some l' /\ LooperOk inf l' /\
    mPendingTimers l' = mPendingTimers l /\ mPendingFdWatches l' = mPendingFdWatches l /\
    mTimers l' = <[t := {| mDeadline := d; tPending := false |}]> (mTimers l).
Proof.
  intros Hok Ht Hp. unfold startAbsolute. rewrite Ht. cbn [mbind option_bind]. rewrite Hp.
  set (ts1 := <[t := {| mDeadline := inf; tPending := false |}]> (mTimers l)).
  set (ts' := <[t := {| mDeadline := d; tPending := false |}]> (mTimers l)).
  assert (exists active1, (if negb (mDeadline tm =? inf) then list_erase t (mActiveTimers l)
      else Some (mActiveTimers l)) = Some active1 /\
      timers_ok inf ts1 active1 (mPendingTimers l)) as (active1 & -> & Hok1).
  { pose proof (timers_ok_disarm _ _ _ t tm Hok Ht Hp) as Hdis. destruct (Z.eqb_spec (mDeadline tm) inf) as [E|E].
    - exists (mActiveTimers l). split; [done|]. rewrite filter_true_in in Hdis; [done|].
      intros x Hx ->. by apply (Timer_ok_active _ _ _ t tm Hok Ht Hp) in Hx.
    - eexists. split; [|exact Hdis]. cbn. apply list_erase_spec; [apply Hok|].
      by apply (Timer_ok_active _ _ _ t tm Hok Ht Hp). }
  cbn [mbind option_bind]. destruct (Z.eqb_spec d inf) as [->|Hd]; cbn [negb].
  - eexists. split; [done|]. done.
  - destruct (timers_ok_arm ts1 active1 (mPendingTimers l) t {| mDeadline := inf; tPending := false |} d)
      as (active' & E & _ & Hok'); [done|apply lookup_insert_eq|done..|].
    unfold ts1 in E, Hok'. rewrite insert_insert_eq in E, Hok'. fold ts' in E, Hok'. rewrite E.
    cbn [mbind option_bind]. eexists. split; [done|]. done.
Qed.

Lemma self_call_ok t c l w :
  LooperOk inf l -> (exists tm, mTimers l !! t = Some tm /\ tPending tm = false) -> self_call t c ->
  exists l' w', do_call inf rd wr c l w = Some (l', w') /\ LooperOk inf l' /\
    mPendingTimers l' = mPendingTimers l /\ mPendingFdWatches l' = mPendingFdWatches l /\
    (exists tm, mTimers l' !! t = Some tm /\ tPending tm = false).
Proof.
  intros Hok (tm & Ht & Hp) Hc. destruct c; cbn in Hc; try done; subst; cbn [do_call].
  1-3: unfold startRelative, stop; match goal with
    | Hok : LooperOk _ ?l, Ht : mTimers ?l !! _ = Some ?tm, Hp : tPending ?tm = false
        |- context [startAbsolute inf ?t ?d ?l] =>
      destruct (startAbsolute_ok l t tm d Hok Ht Hp) as (l' & -> & Hok' & E1 & E1' & E2)
    end; cbn [mbind option_bind]; eexists _, _; rewrite E2; split_and!; try done;
    eexists; split; [apply lookup_insert_eq|done].
  - exists (schedule task l), w. unfold schedule. destruct (existsb _ _); split_and!; eauto.
  - exists (cancel task l), w. split_and!; eauto.
  - exists (forceQuit l), w. split_and!; eauto.
Qed.

Lemma self_calls_ok t cs : forall l w,
  LooperOk inf l -> (exists tm, mTimers l !! t = Some tm /\ tPending tm = false) ->
  Forall (self_call t) cs ->
  exists l' w', do_calls inf rd wr cs l w = Some (l', w') /\ LooperOk inf l' /\
    mPendingTimers l' = mPendingTimers l /\ mPendingFdWatches l' = mPendingFdWatches l.
Proof.
  induction cs as [|c cs IH]; intros l w Hok Ht Hcs; [by exists l, w|].
  apply Forall_cons in Hcs as [Hc Hcs]. cbn [do_calls].
  destruct (self_call_ok t c l w Hok Ht Hc) as (l1 & w1 & -> & Hok1 & E1 & F1 & Ht1).
  cbn [mbind option_bind]. destruct (IH l1 w1 Hok1 Ht1 Hcs) as (l2 & w2 & -> & Hok2 & E2 & F2).
  exists l2, w2. split_and!; [done..|congruence|congruence].
Qed.

Lemma clearPending_ok l t rest :
  LooperOk inf l -> mPendingTimers l = t :: rest ->
  exists l', Timer_clearPending inf t l = Some l' /\ LooperOk inf l' /\ mPendingTimers l' = rest /\
    mPendingFdWatches l' = mPendingFdWatches l /\
    (exists tm, mTimers l' !! t = Some tm /\ tPending tm = false).
Proof.
  intros Hok E. pose proof Hok as []. rewrite E in *.
  destruct (ok_pending0 t) as (tm & Ht & Hp & Hd); [set_solver|].
  unfold Timer_clearPending. rewrite Ht. cbn [mbind option_bind]. rewrite Hp, E.
  cbn [list_erase]. rewrite Z.eqb_refl. cbn [mbind option_bind]. eexists. split; [done|].
  apply NoDup_cons in ok_pending_nodup0 as [Hnin Hnd].
  assert (t ∉ mActiveTimers l) as Hna.
  { intros Hin. destruct (ok_active0 t Hin) as (tm' & E' & ? & _). congruence. }
  split; [|split; [done|split; [done|]]].
  - split; cbn.
    + intros x Hx. rewrite lookup_insert_ne by congruence. auto.
    + intros x Hx. rewrite lookup_insert_ne by congruence. apply ok_pending0. set_solver.
    + intros x tmx. destruct (decide (x = t)) as [->|Hne].
      * rewrite lookup_insert_eq. by intros [= <-].
      * rewrite lookup_insert_ne by done. intros Hx. destruct (ok_timers0 x tmx Hx) as [H1 H2].
        split; [|done]. intros Hpx. specialize (H1 Hpx). set_solver.
    + done.
    + done.
    + eapply by_deadline_ext; [|done]. intros x Hx. symmetry. apply deadline_of_insert_ne. congruence.
  - cbn. rewrite lookup_insert_eq. eauto.
Qed.

(** The head of the active list becomes pending. *)
Lemma timers_ok_pend ts active pending t tm :
  timers_ok inf ts (t :: active) pending -> ts !! t = Some tm ->
  timers_ok inf (<[t := {| mDeadline := mDeadline tm; tPending := true |}]> ts)
    active (pending ++ [t]).
Proof.
  intros [] Ht. destruct (ok_active0 t) as (tm' & E & Hp & Hd); [set_solver|].
  assert (tm' = tm) as -> by congruence. apply NoDup_cons in ok_active_nodup0 as [Hnin Hnd].
  assert (t ∉ pending) as Hnp.
  { intros Hin. destruct (ok_pending0 t Hin) as (? & ? & ? & _). congruence. }
  split.
  - intros x Hx. rewrite lookup_insert_ne by congruence. apply ok_active0. set_solver.
  - intros x [Hx| ->%list_elem_of_singleton]%elem_of_app.
    + rewrite lookup_insert_ne by congruence. auto.
    + rewrite lookup_insert_eq. eexists. split; [done|]. done.
  - intros x tmx. destruct (decide (x = t)) as [->|Hne].
    + rewrite lookup_insert_eq. intros [= <-]. split; [set_solver|done].
    + rewrite lookup_insert_ne by done. intros Hx. destruct (ok_timers0 x tmx Hx). set_solver.
  - done.
  - apply NoDup_app. split_and!; [done|set_solver|apply NoDup_singleton].
  - eapply by_deadline_ext; [|by inversion ok_order0].
    intros x Hx. symmetry. apply deadline_of_insert_ne. congruence.
Qed.

Lemma queue_timers_ok now active : forall l,
  timers_ok inf (mTimers l) active (mPendingTimers l) ->
  exists l', queue_timers active now l = Some l' /\ LooperOk inf l' /\
    mPendingTimers l' = mPendingTimers l ++
      filter (fun t => deadline_of (mTimers l) t <= now) active /\
    mPendingFdWatches l' = mPendingFdWatches l.
Proof.
  induction active as [|t active IH]; intros l Hok; cbn [queue_timers].
  { eexists. split_and!; [done|exact Hok|cbn; by rewrite app_nil_r|done]. }
  pose proof Hok as []. destruct (ok_active0 t) as (tm & Ht & Hp & Hd); [set_solver|].
  rewrite Ht. cbn [mbind option_bind].
  assert (deadline_of (mTimers l) t = mDeadline tm) as Ed by (unfold deadline_of; by rewrite Ht).
  destruct (Z.leb_spec (mDeadline tm) now) as [Hle|Hlt].
  - unfold Timer_setPending. rewrite Ht. cbn [mbind option_bind].
    match goal with |- context [queue_timers active now ?l1] =>
      destruct (IH l1) as (l' & E & Hok' & Ep & Ef) end;
      [exact (timers_ok_pend _ _ _ t tm Hok Ht)|].
    exists l'. split_and!; [exact E|done| |exact Ef]. rewrite Ep. cbn [mPendingTimers mTimers with_timers].
    rewrite filter_cons_True by lia. rewrite <- app_assoc. cbn [app]. do 2 f_equal.
    apply list_filter_iff. intros x. destruct (decide (x = t)) as [->|Hne].
    + by rewrite deadline_of_insert, Ed.
    + by rewrite deadline_of_insert_ne.
  - eexists. split_and!; [done|exact Hok| |done]. cbn [mPendingTimers with_timers].
    rewrite filter_cons_False by lia. inversion ok_order0 as [|? ? _ Hf]; subst.
    rewrite <- (app_nil_r (mPendingTimers l)) at 1. f_equal. symmetry.
    clear -Hf Hlt Ed. induction Hf as [|x active Hx Hf IH]; [done|].
    by rewrite filter_cons_False by lia.
Qed.

Section self_contained.
Context `{!SelfContainedTimers W}.

Lemma fire_timers_ok ps : forall l w,
  LooperOk inf l -> mPendingTimers l = ps ->
  exists l' w', fire_timers inf rd wr (length ps) l w = Some (ps, l', w') /\ LooperOk inf l' /\
    mPendingTimers l' = [] /\ mPendingFdWatches l' = mPendingFdWatches l.
Proof.
  induction ps as [|t ps IH]; intros l w Hok E.
  { exists l, w. cbn. by rewrite E. }
  cbn [length fire_timers]. rewrite E.
  destruct (clearPending_ok l t ps Hok E) as (l1 & -> & Hok1 & E1 & F1 & Ht1). cbn [mbind option_bind].
  pose proof (self_contained t w) as Hc. destruct (timer_callback t w) as [cs w1]. cbn in Hc.
  destruct (self_calls_ok t cs l1 w1 Hok1 Ht1 Hc) as (l2 & w2 & -> & Hok2 & E2 & F2).
  cbn [mbind option_bind]. rewrite E1 in E2.
  destruct (IH l2 w2 Hok2 E2) as (l3 & w3 & -> & Hok3 & E3 & F3).
  cbn [mbind option_bind]. exists l3, w3. split_and!; [done..|congruence].
Qed.

Lemma fire_due_timers_ok l w :
  LooperOk inf l -> mPendingTimers l = [] ->
  exists l' w', fire_due_timers inf rd wr l w = Some (due l (nowMs w), l', w') /\ LooperOk inf l' /\
    mPendingTimers l' = [] /\ mPendingFdWatches l' = mPendingFdWatches l.
Proof.
  intros Hok Hp. unfold fire_due_timers.
  destruct (queue_timers_ok (nowMs w) (mActiveTimers l) l Hok) as (l1 & -> & Hok1 & E1 & F1).
  cbn [mbind option_bind]. rewrite Hp in E1. cbn in E1. rewrite E1.
  destruct (fire_timers_ok _ l1 w Hok1 E1) as (l2 & w2 & -> & Hok2 & E2 & F2).
  exists l2, w2. split_and!; [done..|congruence].
Qed.

End self_contained.

Lemma ok_armed l t tm :
  LooperOk inf l -> mPendingTimers l = [] -> mTimers l !! t = Some tm -> mDeadline tm <> inf ->
  tPending tm = false /\ t ∈ mActiveTimers l.
Proof.
  intros [] Hp E Hd. destruct (ok_timers0 t tm E) as [H1 H2].
  destruct (tPending tm); [|auto]. specialize (H1 eq_refl). rewrite Hp in H1. set_solver.
Qed.

Lemma due_spec l now t :
  LooperOk inf l -> mPendingTimers l = [] ->
  t ∈ due l now <->
  exists tm, mTimers l !! t = Some tm /\ mDeadline tm <> inf /\ mDeadline tm <= now.
Proof.
  intros Hok Hp. unfold due, deadline_of. rewrite list_elem_of_filter. split.
  - intros [Hd Hin]. destruct (ok_active inf _ _ _ Hok t Hin) as (tm & E & _ & ?).
    rewrite E in Hd. eauto.
  - intros (tm & E & Hne & Hle). rewrite E. split; [done|]. by eapply ok_armed.
Qed.

Lemma next_deadline_ok l deadlineMs :
  LooperOk inf l -> mPendingTimers l = [] ->
  exists first, next_deadline inf l deadlineMs = Some first /\ first <= deadlineMs /\
    forall t tm, mTimers l !! t = Some tm -> mDeadline tm <> inf -> first <= mDeadline tm.
Proof.
  intros Hok Hp. unfold next_deadline. destruct (mActiveTimers l) as [|h active] eqn:Ea.
  { eexists. split; [done|]. split; [lia|]. intros t tm Ht Hd.
    destruct (ok_armed l t tm Hok Hp Ht Hd) as [_ Hin]. rewrite Ea in Hin. set_solver. }
  destruct (ok_active inf _ _ _ Hok h) as (tmh & Eh & _); [rewrite Ea; set_solver|].
  rewrite Eh. cbn [mbind option_bind]. eexists. split; [done|]. split; [lia|]. intros t tm Ht Hd.
  destruct (ok_armed l t tm Hok Hp Ht Hd) as [_ Hin]. rewrite Ea in Hin.
  pose proof (ok_order inf _ _ _ Hok) as Hs. rewrite Ea in Hs.
  apply elem_of_cons in Hin as [->|Hin]; [replace tm with tmh by congruence; lia|].
  inversion Hs as [|? ? _ Hall]; subst. rewrite Forall_forall in Hall. specialize (Hall t Hin).
  unfold deadline_of in Hall. rewrite Eh, Ht in Hall. lia.
Qed.

Lemma startAbsolute_pending l t d :
  LooperOk inf l -> t ∈ mPendingTimers l -> startAbsolute inf t d l = None.
Proof.
  intros Hok Hin. destruct (ok_pending inf _ _ _ Hok t Hin) as (tm & E & Hp & Hd).
  unfold startAbsolute. rewrite E. cbn [mbind option_bind].
  rewrite (proj2 (Z.eqb_neq _ _) Hd). cbn [negb]. rewrite list_erase_absent; [done|].
  intros Ha. destruct (ok_active inf _ _ _ Hok t Ha) as (tm' & E' & Hp' & _). congruence.
Qed.

End facts.

(** ** Properties *)

(** C14: an iteration of a looper that has timers only: it sleeps until the
    earliest deadline, the caller's included, and not at all when that has
    passed (with nothing to wait for it gives up at once); then exactly the
    timers whose deadline has come fire, once each, in the order of their
    deadlines, and the lists and flags of the timers agree again.  The
    callbacks may start and stop their own timer, schedule tasks and quit. *)
Theorem looper_iteration {W} `{!LooperEnv W} `{!SelfContainedTimers W} inf rd wr deadlineMs l (w : W) :
  LooperOk inf l -> mPendingTimers l = [] -> mPendingFdWatches l = [] ->
  mFdWatches l = [] -> mScheduledTasks l = [] ->
  exists first, next_deadline inf l deadlineMs = Some first /\ first <= deadlineMs /\
    (forall t tm, mTimers l !! t = Some tm -> mDeadline tm <> inf -> first <= mDeadline tm) /\
    let timeOut := compute_timeout inf first w in
    if timeOut =? 2 ^ 63 - 1 then runOneIteration inf rd wr deadlineMs l w = Some (false, [], l, w)
    else exists fired l' w',
      runOneIteration inf rd wr deadlineMs l w = Some (true, fired, l', w') /\
      LooperOk inf l' /\ mPendingTimers l' = [] /\ NoDup fired /\ by_deadline (mTimers l) fired /\
      forall t, t ∈ fired <-> exists tm, mTimers l !! t = Some tm /\ mDeadline tm <> inf /\
        mDeadline tm <= nowMs (sleepMs timeOut w).
Proof.
  intros Hok Hp Hpf Hf Ht.
  assert (with_tasks [] l = l) as El by (destruct l; cbn in *; by subst).
  destruct (next_deadline_ok inf l deadlineMs Hok Hp) as (first & E & H1 & H2).
  exists first. split_and!; [done..|]. intros timeOut. unfold runOneIteration.
  rewrite E, Ht. cbn [mbind option_bind run_tasks]. rewrite El, Hf. fold timeOut.
  destruct (timeOut =? 2 ^ 63 - 1); [done|]. unfold dispatch.
  destruct (fire_due_timers_ok inf rd wr l (sleepMs timeOut w) Hok Hp) as (l' & w' & -> & Hok' & Ep & Ef).
  cbn [mbind option_bind]. rewrite Ef, Hpf. cbn [length fire_watches]. rewrite Ef, Hpf.
  eexists _, l', w'. split_and!; [done..| | |].
  - apply NoDup_filter, Hok.
  - apply by_deadline_filter, Hok.
  - intros t. by apply due_spec.
Qed.

(** A callback must not stop or restart a timer that is due in the same
    iteration and has not fired: its iterator is into the pending list, and
    it is erased from the active one. *)
Theorem looper_stop_due_timer {W} `{!LooperEnv W} inf rd wr l (w : W) t1 t2 d rest cs w' :
  LooperOk inf l -> mPendingTimers l = [] -> due l (nowMs w) = t1 :: t2 :: rest ->
  timer_callback t1 w = (CStartAbsolute t2 d :: cs, w') ->
  fire_due_timers inf rd wr l w = None.
Proof.
  intros Hok Hp Hdue Hcb. unfold fire_due_timers.
  destruct (queue_timers_ok inf (nowMs w) (mActiveTimers l) l Hok) as (l1 & -> & Hok1 & E1 & _).
  cbn [mbind option_bind]. rewrite Hp in E1. fold (due l (nowMs w)) in E1. rewrite Hdue in E1.
  cbn [app] in E1. rewrite E1. cbn [length fire_timers]. rewrite E1.
  destruct (clearPending_ok inf l1 t1 (t2 :: rest) Hok1 E1) as (l2 & -> & Hok2 & E2 & _).
  cbn [mbind option_bind]. rewrite Hcb. cbn [do_calls do_call].
  assert (startAbsolute inf t2 d l2 = None) as ->; [|done].
  apply startAbsolute_pending; [done|rewrite E2; set_solver].
Qed.

(** Destroying an armed timer leaves its pointer in the active list;
    when it was the first one, the next iteration reads it. *)
Theorem looper_delete_armed_timer {W} `{!LooperEnv W} inf rd wr l (w : W) t deadlineMs :
  LooperOk inf l -> t ∈ mActiveTimers l ->
  exists l', deleteTimer inf t l = Some l' /\ t ∈ mActiveTimers l' /\ mTimers l' !! t = None /\
    (head (mActiveTimers l) = Some t -> runOneIteration inf rd wr deadlineMs l' w = None).
Proof.
  intros Hok Hin. destruct (ok_active inf _ _ _ Hok t Hin) as (tm & Ht & Hp & _).
  unfold deleteTimer, Timer_clearPending. rewrite Ht. cbn [mbind option_bind]. rewrite Hp.
  cbn [mbind option_bind]. eexists. split_and!; [done|done|apply lookup_delete_eq|].
  intros Hh. unfold runOneIteration, next_deadline. cbn [mActiveTimers mTimers with_timers].
  destruct (mActiveTimers l) as [|t' active]; [done|]. injection Hh as ->.
  by rewrite lookup_delete_eq.
Qed.

(** ** Witnesses *)

(** A clock in milliseconds; timer 1 restarts itself. *)
#[local] Instance test_env : LooperEnv Z := {
  getUnixTimeUs w := w * 1000;
  sleepMs t w := w + t;
  waiter_update _ _ w := w;
  waiter_wait t w := (0, [], w + t);
  timer_callback t w :=
    (if t =? 1 then [CStartRelative 1 10] else [CStopTimer t; CSchedule 7], w);
  fd_callback _ _ _ w := ([], w);
  task_callback _ w := ([], w);
  mSelfDeleting _ := false;
}.

#[local] Instance test_self_contained : SelfContainedTimers Z.
Proof.
  split. intros t w. cbn. destruct (Z.eqb_spec t 1); repeat constructor; done.
Qed.

Definition test_looper : Looper :=
  {| mTimers := <[1 := {| mDeadline := 5; tPending := false |}]>
                  (<[2 := {| mDeadline := 5; tPending := false |}]>
                     (<[3 := {| mDeadline := 20; tPending := false |}]> ∅));
     mActiveTimers := [2; 1; 3]; mPendingTimers := []; mWatches := ∅; mFdWatches := [];
     mPendingFdWatches := []; mScheduledTasks := []; mForcedExit := false |}.

Lemma test_looper_ok : LooperOk 100 test_looper.
Proof.
  assert (forall t tm, mTimers test_looper !! t = Some tm -> tPending tm = false /\ t ∈ [2; 1; 3]) as Hall.
  { intros t tm. cbn [mTimers test_looper].
    rewrite !lookup_insert_Some, lookup_empty. intros H.
    destruct_or?; destruct_and?; subst; try done; split; set_solver. }
  split.
  - intros t Ht. cbn in Ht. repeat (apply elem_of_cons in Ht as [->|Ht]; [eexists; split; done|]).
    set_solver.
  - intros t Ht. cbn in Ht. set_solver.
  - intros t tm Ht. destruct (Hall t tm Ht) as [Hp Hin]. split; [congruence|done].
  - cbn. apply (bool_decide_unpack _). vm_compute. done.
  - constructor.
  - repeat constructor; by_compute.
Qed.

(** The same with a timer 2 that stops timer 1. *)
Definition test_env_stop : LooperEnv Z := {|
  getUnixTimeUs := @getUnixTimeUs Z test_env;
  sleepMs := @sleepMs Z test_env;
  waiter_update := @waiter_update Z test_env;
  waiter_wait := @waiter_wait Z test_env;
  timer_callback t w := (if t =? 2 then [CStartAbsolute 1 100] else [], w);
  fd_callback := @fd_callback Z test_env;
  task_callback := @task_callback Z test_env;
  mSelfDeleting := @mSelfDeleting Z test_env;
|}.

Lemma looper_iteration_witness :
  LooperOk 100 test_looper /\
  (exists first, next_deadline 100 test_looper 50 = Some first /\ first <= 50) /\
  (r ← runOneIteration 100 1 2 50 test_looper 0;
   let '(continue, fired, l, w) := r in
   Some (continue, fired, mActiveTimers l, mScheduledTasks l, w)) = Some (true, [2; 1], [1; 3], [7], 5).
Proof.
  split; [apply test_looper_ok|]. split; [|vm_compute; reflexivity].
  destruct (looper_iteration 100 1 2 50 test_looper 0) as (first & E & H & _);
    [apply test_looper_ok|reflexivity..|].
  exists first. split; assumption.
Defined.

Lemma looper_stop_due_timer_witness :
  due test_looper (@nowMs Z test_env_stop 6) = [2; 1] /\
  @fire_due_timers 100 1 2 Z test_env_stop test_looper 6 = None.
Proof.
  assert (due test_looper (@nowMs Z test_env_stop 6) = [2; 1]) as E by (vm_compute; reflexivity).
  split; [exact E|].
  apply (@looper_stop_due_timer Z test_env_stop 100 1 2 test_looper 6 2 1 100 [] [] 6);
    [apply test_looper_ok|reflexivity|exact E|reflexivity].
Defined.

Lemma looper_delete_armed_timer_witness :
  2 ∈ mActiveTimers test_looper /\
  exists l', deleteTimer 100 2 test_looper = Some l' /\ runOneIteration 100 1 2 50 l' 0 = None.
Proof.
  assert (2 ∈ mActiveTimers test_looper) as Hin by (apply elem_of_cons; left; reflexivity).
  split; [exact Hin|].
  destruct (looper_delete_armed_timer 100 1 2 test_looper 0 2 50 test_looper_ok Hin)
    as (l' & E & _ & _ & H).
  exists l'. split; [exact E|]. apply H. reflexivity.
Defined.
