(* ===== verification/HangDetector.v ===== *)
(** * The hang detector

    Models [HangDetector.cpp] of [emulator/crashreport]: the watcher of one looper, the
    detector with its pauses and predicates, and its worker thread, step by step.  The
    mutex of the detector is held by the worker except while it waits, so the calls of
    other threads are steps that happen then; a looper runs its task at any time.  Times
    are nanoseconds of a clock that is read once for each index. *)

From S2P Require Import Prelude.

Definition ms : Z := 1000000.
Definition kMaxHangCount : Z := 2.

(** ** The watcher of a looper *)

Record watcher := {
  mTask : option bool; (* whether it is scheduled, once created *)
  mIsTaskRunning : bool;
  mLastCheckTime : Z;
  mTimeout : Z;
  mhangCheckTimeout : Z;
  mHangCount : Z;
  mUnlockedTwice : nat; (* how often the mutex was released while it was free *)
}.

Definition LooperWatcher (hangTimeout hangCheckTimeout : Z) : watcher :=
  {| mTask := None; mIsTaskRunning := false; mLastCheckTime := 0; mTimeout := hangTimeout; mhangCheckTimeout := hangCheckTimeout;
     mHangCount := 0; mUnlockedTwice := 0 |}.

Definition with_task (t : option bool) (running : bool) (now : Z) (w : watcher) : watcher :=
  {| mTask := t; mIsTaskRunning := running; mLastCheckTime := now; mTimeout := mTimeout w; mhangCheckTimeout := mhangCheckTimeout w;
     mHangCount := mHangCount w; mUnlockedTwice := mUnlockedTwice w |}.
Definition with_count (c : Z) (u : nat) (w : watcher) : watcher :=
  {| mTask := mTask w; mIsTaskRunning := mIsTaskRunning w; mLastCheckTime := mLastCheckTime w; mTimeout := mTimeout w;
     mhangCheckTimeout := mhangCheckTimeout w; mHangCount := c; mUnlockedTwice := u |}.

(** Creating the task the first time and scheduling it. *)
Definition startHangCheckLocked (now : Z) (w : watcher) : watcher := with_task (Some true) true now w.
Definition startHangCheck (now : Z) (w : watcher) : watcher := startHangCheckLocked now w.

Definition cancelHangCheck (now : Z) (w : watcher) : watcher :=
  with_task (match mTask w with Some _ => Some false | None => None end) false now w.

(** The looper has run the task. *)
Definition taskComplete (w : watcher) : watcher :=
  with_task (match mTask w with Some _ => Some false | None => None end) false (mLastCheckTime w) w.

(** What the detector tells: a line of the log, or a call of the callback, with the milliseconds of the message. *)
Inductive output := Logged (timePassed : Z) (ignored : bool) | Called (timePassed : Z).

(** [raced]: the looper completed the task after the mutex was released in the middle;
    [now] and [later] are the two readings of the clock. *)
Definition process (callback debugger raced : bool) (now later : Z) (w : watcher) : watcher * list output :=
  if mIsTaskRunning w then
    let timeSystemLiveAndHanging := mLastCheckTime w + mTimeout w in
    let timeSystemSleepedPastHangTimeout := mLastCheckTime w + 2 * mTimeout w in
    if (timeSystemLiveAndHanging <? now) && (now <? timeSystemSleepedPastHangTimeout) then
      let timePassed := Z.quot (now - mLastCheckTime w) ms in
      let w := with_count (mHangCount w + 1) (S (mUnlockedTwice w)) w in
      let w := if raced then taskComplete w else w in
      if (kMaxHangCount <=? mHangCount w) && callback && negb debugger
      then (w, [Logged timePassed debugger; Called timePassed])
      else (startHangCheckLocked later w, [Logged timePassed debugger])
    else (w, [])
  else if mLastCheckTime w + mhangCheckTimeout w <? now then (startHangCheckLocked later (with_count 0 (mUnlockedTwice w) w), [])
  else (w, []).

(** ** The detector *)

(** Where the worker is: not started, about to test its loop's condition, waiting, or ended. *)
Inductive position := Unstarted | Testing (waitUntil : Z) | Waiting (waitUntil : Z) | Ended.

Record detector := {
  mHangCallback : bool;
  hangLoopIterationTimeout : Z;
  hangCheckTimeout : Z;
  mLoopers : list watcher;
  mPredicates : list (list Z);
  mRegistered : nat;
  mPaused : Z;
  mStopping : bool;
  worker : position;
  ticks : nat; (* readings of the clock so far *)
}.

Definition new_detector (callback : bool) (iteration check : Z) : detector :=
  {| mHangCallback := callback; hangLoopIterationTimeout := iteration; hangCheckTimeout := check; mLoopers := []; mPredicates := [];
     mRegistered := 0; mPaused := 0; mStopping := false; worker := Unstarted; ticks := 0 |}.

Definition with_loopers (ws : list watcher) (k : nat) (d : detector) : detector :=
  {| mHangCallback := mHangCallback d; hangLoopIterationTimeout := hangLoopIterationTimeout d; hangCheckTimeout := hangCheckTimeout d;
     mLoopers := ws; mPredicates := mPredicates d; mRegistered := mRegistered d; mPaused := mPaused d; mStopping := mStopping d;
     worker := worker d; ticks := k |}.
Definition with_worker (p : position) (k : nat) (d : detector) : detector :=
  {| mHangCallback := mHangCallback d; hangLoopIterationTimeout := hangLoopIterationTimeout d; hangCheckTimeout := hangCheckTimeout d;
     mLoopers := mLoopers d; mPredicates := mPredicates d; mRegistered := mRegistered d; mPaused := mPaused d; mStopping := mStopping d;
     worker := p; ticks := k |}.
Definition with_paused (n : Z) (stopping : bool) (d : detector) : detector :=
  {| mHangCallback := mHangCallback d; hangLoopIterationTimeout := hangLoopIterationTimeout d; hangCheckTimeout := hangCheckTimeout d;
     mLoopers := mLoopers d; mPredicates := mPredicates d; mRegistered := mRegistered d; mPaused := n; mStopping := stopping;
     worker := worker d; ticks := ticks d |}.
Definition with_predicates (ps : list (list Z)) (n : nat) (d : detector) : detector :=
  {| mHangCallback := mHangCallback d; hangLoopIterationTimeout := hangLoopIterationTimeout d; hangCheckTimeout := hangCheckTimeout d;
     mLoopers := mLoopers d; mPredicates := ps; mRegistered := n; mPaused := mPaused d; mStopping := mStopping d;
     worker := worker d; ticks := ticks d |}.

(** What the worker meets in one round: a debugger, loopers that complete in the middle, predicates that hold. *)
Record round := { debugger : bool; raced : nat -> bool; holds : nat -> bool }.

(** What is told about: a looper or a predicate. *)
Inductive told := Looper (i : nat) (o : output) | Predicate (message : list Z) (called : bool).

Section clock.
Context (clock : nat -> Z).

Definition addWatchedLooper (taskTimeout : Z) (d : detector) : detector :=
  let w := LooperWatcher taskTimeout (hangCheckTimeout d) in
  let w := if (mPaused d =? 0) && negb (mStopping d) then startHangCheck (clock (ticks d)) w else w in
  with_loopers (mLoopers d ++ [w]) (S (ticks d)) d.

(** Cancelling the check of each looper. *)
Fixpoint cancel_all (ws : list watcher) (k : nat) : list watcher * nat :=
  match ws with
  | [] => ([], k)
  | w :: ws => let '(ws, k') := cancel_all ws (S k) in (cancelHangCheck (clock k) w :: ws, k')
  end.

(** Only the first pause cancels; what a resume does is wake the worker. *)
Definition pause (paused : bool) (d : detector) : detector :=
  let d := with_paused (if paused then mPaused d + 1 else mPaused d - 1) (mStopping d) d in
  if paused && (mPaused d =? 1) then let '(ws, k) := cancel_all (mLoopers d) (ticks d) in with_loopers ws k d else d.

(** The call up to its wait for the worker. *)
Definition stop (d : detector) : detector :=
  let '(ws, k) := cancel_all (mLoopers d) (ticks d) in with_paused (mPaused d) true (with_loopers ws k d).

Definition addPredicateCheck (registered : bool) (message : list Z) (d : detector) : detector :=
  with_predicates (mPredicates d ++ [message]) (if registered then S (mRegistered d) else mRegistered d) d.

Fixpoint process_all (callback : bool) (r : round) (i : nat) (ws : list watcher) (k : nat) : list watcher * list told * nat :=
  match ws with
  | [] => ([], [], k)
  | w :: ws =>
      let '(w, o) := process callback (debugger r) (raced r i) (clock k) (clock (S k)) w in
      let '(ws, os, k) := process_all callback r (S i) ws (S (S k)) in
      (w :: ws, map (Looper i) o ++ os, k)
  end.

Fixpoint check_predicates (callback : bool) (r : round) (i : nat) (ps : list (list Z)) : list told :=
  match ps with
  | [] => []
  | p :: ps => (if holds r i then [Predicate p (callback && negb (debugger r))] else []) ++ check_predicates callback r (S i) ps
  end.

Definition nextDeadline (d : detector) : Z := clock (ticks d) + hangLoopIterationTimeout d.
Definition to_next_deadline (d : detector) : detector := with_worker (Testing (nextDeadline d)) (S (ticks d)) d.

(** One step of the worker thread: to its first deadline, from the test of its loop to the
    next wait or through a round of checks, or from the wait back to the test. *)
Definition workerThread (r : round) (d : detector) : detector * list told :=
  match worker d with
  | Unstarted => (to_next_deadline d, [])
  | Ended => (d, [])
  | Waiting waitUntil =>
      let nowUs := clock (ticks d) in
      let waitedTooLongUs := waitUntil + hangLoopIterationTimeout d in
      let d := with_worker (Testing waitUntil) (S (ticks d)) d in
      if negb (mPaused d =? 0) || (waitedTooLongUs <=? nowUs) then (to_next_deadline d, []) else (d, [])
  | Testing waitUntil =>
      let now := clock (ticks d) in
      let d := with_worker (Testing waitUntil) (S (ticks d)) d in
      if negb (mStopping d) && ((now <? waitUntil) || negb (mPaused d =? 0)) then (with_worker (Waiting waitUntil) (ticks d) d, [])
      else if mStopping d then (with_worker Ended (ticks d) d, [])
      else if negb (mPaused d =? 0) then (to_next_deadline d, [])
      else
        let '(ws, os, k) := process_all (mHangCallback d) r 0 (mLoopers d) (ticks d) in
        let d := with_loopers ws k d in
        (to_next_deadline d, os ++ check_predicates (mHangCallback d) r 0 (mPredicates d))
  end.

(** ** Histories *)

Inductive event :=
  | Add (taskTimeout : Z) | Pause (paused : bool) | Stop | AddPredicate (registered : bool) (message : list Z)
  | Complete (i : nat) | Worker (r : round).

(** The mutex of the detector is free unless the worker is testing. *)
Definition is_free (d : detector) : bool := match worker d with Testing _ => false | _ => true end.

Definition step (e : event) (d : detector) : option (detector * list told) :=
  match e with
  | Add t => if is_free d then Some (addWatchedLooper t d, []) else None
  | Pause b => if is_free d then Some (pause b d, []) else None
  | Stop => if is_free d then Some (stop d, []) else None
  | AddPredicate b m => if is_free d then Some (addPredicateCheck b m d, []) else None
  | Complete i => Some (with_loopers (alter taskComplete i (mLoopers d)) (ticks d) d, [])
  | Worker r => Some (workerThread r d)
  end.

Fixpoint run (es : list event) (d : detector) : option (detector * list told) :=
  match es with
  | [] => Some (d, [])
  | e :: es => '(d, os) ← step e d; '(d, os') ← run es d; Some (d, os ++ os')
  end.
End clock.

(** ** What one step does to a watcher *)

(** A watcher that still waits for an answer keeps what is known of the time it was asked. *)
Definition asked_before (w : watcher) (t0 : Z) : Prop := t0 + (if mHangCount w =? 0 then 0 else mTimeout w) <= mLastCheckTime w.

Definition still_asked (w w' : watcher) : Prop :=
  mIsTaskRunning w = true /\ mTimeout w' = mTimeout w /\ forall t0, asked_before w t0 -> asked_before w' t0.

Definition watcher_step (w w' : watcher) : Prop := mIsTaskRunning w' = false \/ mHangCount w' = 0 \/ still_asked w w'.

Lemma process_step callback dbg now later w : now <= later -> watcher_step w (process callback dbg false now later w).1.
Proof.
  intros Hle. unfold process, watcher_step, still_asked, asked_before. destruct (mIsTaskRunning w) eqn:E.
  - destruct (_ <? now) eqn:E1; [|by right; right]. destruct (now <? _) eqn:E2; [|by right; right]. apply Z.ltb_lt in E1, E2. cbn [andb].
    cbn [mHangCount with_count]. destruct (_ && negb dbg) eqn:E3; cbn.
    + right; right. split_and!; [done|done|]. rewrite !andb_true_iff, Z.leb_le in E3. unfold kMaxHangCount in E3.
      rewrite (proj2 (Z.eqb_neq (mHangCount w) 0)), (proj2 (Z.eqb_neq (mHangCount w + 1) 0)) by lia. done.
    + right; right. split_and!; [done|done|]. intros t0 H. destruct (mHangCount w =? 0), (mHangCount w + 1 =? 0); lia.
  - destruct (_ <? now); cbn; [by right; left|by left].
Qed.

(** The callback is called at a time more than two timeouts after the looper was asked. *)
Lemma process_called callback dbg r now later w m :
  Called m ∈ (process callback dbg r now later w).2 -> r = false ->
  mIsTaskRunning w = true /\ forall t0, asked_before w t0 -> t0 + 2 * mTimeout w < now.
Proof.
  unfold process, asked_before. destruct (mIsTaskRunning w); [|by case_match; intros ?%not_elem_of_nil].
  destruct (_ <? now) eqn:E1; [|by intros ?%not_elem_of_nil]. destruct (now <? _) eqn:E2; [|by intros ?%not_elem_of_nil]. apply Z.ltb_lt in E1, E2.
  cbn [andb mHangCount with_count]. intros H ->. cbn [mHangCount with_count] in H. destruct (_ && negb dbg) eqn:E3.
  - rewrite !andb_true_iff, Z.leb_le in E3. unfold kMaxHangCount in E3. split; [done|]. intros t0. rewrite (proj2 (Z.eqb_neq (mHangCount w) 0)) by lia. lia.
  - apply list_elem_of_singleton in H. done.
Qed.

Section facts.
Context (clock : nat -> Z) (Hclock : forall i j, (i <= j)%nat -> clock i <= clock j).

Lemma round_ok callback r j ws k ws' os k' :
  process_all clock callback r j ws k = (ws', os, k') ->
  (k <= k')%nat /\ length ws' = length ws /\
  (forall i w, ws !! i = Some w -> exists n, (k <= n < k')%nat /\
     ws' !! i = Some (process callback (debugger r) (raced r (j + i)%nat) (clock n) (clock (S n)) w).1 /\
     forall o, Looper (j + i) o ∈ os -> o ∈ (process callback (debugger r) (raced r (j + i)%nat) (clock n) (clock (S n)) w).2) /\
  (forall i o, Looper i o ∈ os -> (j <= i < j + length ws)%nat).
Proof.
  revert j k ws' os k'. induction ws as [|w ws IH]; intros j k ws' os k'; cbn [process_all].
  { intros [= <- <- <-]. split_and!; [lia|done|done|]. intros i o H. by apply not_elem_of_nil in H. }
  destruct (process _ _ _ _ _ w) as [w1 o1] eqn:Ep. destruct (process_all _ _ _ _ ws _) as [[ws1 os1] k1] eqn:E.
  intros [= <- <- <-]. apply IH in E as (Hk & Hl & Hi & Hr). split_and!; [lia|cbn; lia| |].
  - intros [|i] v; cbn.
    + intros [= ->]. exists k. rewrite Nat.add_0_r, Ep. split_and!; [lia|lia|done|]. intros o [Ho|Ho]%elem_of_app.
      * apply list_elem_of_fmap in Ho as (y & [= ->] & Hy). done.
      * apply Hr in Ho. lia.
    + intros Hv. destruct (Hi i v Hv) as (n & Hn & Hw & Ho). exists n. replace (j + S i)%nat with (S j + i)%nat by lia.
      split; [lia|]. split; [done|]. intros o [H|H]%elem_of_app; [|by apply Ho].
      apply list_elem_of_fmap in H as (y & [= H _] & Hy). lia.
  - intros i o [H|H]%elem_of_app; [apply list_elem_of_fmap in H as (y & [= -> _] & Hy)|apply Hr in H]; cbn; lia.
Qed.

(** The looper does not complete its task in the middle of a check of it; it may at any other time, and others may then. *)
Definition calm (i : nat) (e : event) : Prop := match e with Worker r => raced r i = false | _ => True end.

Lemma cancel_all_idle ws k i w : (cancel_all clock ws k).1 !! i = Some w -> mIsTaskRunning w = false.
Proof.
  revert k i. induction ws as [|v ws IH]; intros k i; cbn [cancel_all]; [done|]. destruct (cancel_all clock ws (S k)) as [ws1 k1] eqn:E.
  destruct i as [|i]; cbn; [intros [= <-]; by destruct v|]. intros H. apply (IH (S k) i). by rewrite E.
Qed.

Lemma still_refl w : mIsTaskRunning w = false \/ mHangCount w = 0 \/ still_asked w w.
Proof. unfold still_asked. destruct (mIsTaskRunning w); auto. Qed.

(** A step starts the watcher anew, ends its check, or goes on with it. *)
Definition goes_on (d : detector) (i : nat) (w' : watcher) : Prop :=
  mIsTaskRunning w' = false \/ mHangCount w' = 0 \/ exists w, mLoopers d !! i = Some w /\ still_asked w w'.

Lemma goes_on_same d i w : mLoopers d !! i = Some w -> goes_on d i w.
Proof. intros H. destruct (still_refl w) as [?|[?|?]]; [by left|by right; left|]. right; right. by exists w. Qed.

Lemma worker_goes_on r d i w' : raced r i = false -> mLoopers (workerThread clock r d).1 !! i = Some w' -> goes_on d i w'.
Proof.
  intros Hr. unfold workerThread. destruct (worker d); try apply goes_on_same.
  - destruct (_ && _); [apply goes_on_same|]. cbn [mStopping with_worker mPaused].
    destruct (mStopping d); [apply goes_on_same|]. destruct (negb _); [apply goes_on_same|].
    destruct (process_all _ _ _ _ _ _) as [[ws os] k] eqn:E. cbn. intros Hw. apply round_ok in E as (_ & Hl & Hi & _). cbn in *.
    destruct (lookup_lt_is_Some_2 (mLoopers d) i) as [w Hwi]; [rewrite <- Hl; by eapply lookup_lt_Some|].
    destruct (Hi i w Hwi) as (n & _ & E & _). rewrite E, Hr in Hw. simplify_eq.
    destruct (process_step (mHangCallback d) (debugger r) (clock n) (clock (S n)) w) as [?|[?|?]]; [apply Hclock; lia|by left|by right; left|].
    right; right. by exists w.
  - destruct (_ || _); apply goes_on_same.
Qed.

Lemma step_goes_on e d d' os i w' : step clock e d = Some (d', os) -> calm i e -> mLoopers d' !! i = Some w' -> goes_on d i w'.
Proof.
  destruct e as [t|b| |b m|j|r]; cbn [step calm].
  - case_match; [|done]. intros [= <- _] _. unfold addWatchedLooper. cbn. intros [Hw|[_ Hw]]%lookup_app_Some; [by apply goes_on_same|].
    apply list_lookup_singleton_Some in Hw as [_ <-]. right; left. by case_match.
  - case_match; [|done]. intros [= <- _] _. unfold pause. case_match; [|apply goes_on_same]. cbn [mLoopers with_paused ticks].
    destruct (cancel_all clock (mLoopers d) (ticks d)) as [ws k] eqn:E. cbn. intros Hw. left. apply (cancel_all_idle (mLoopers d) (ticks d) i). by rewrite E.
  - case_match; [|done]. intros [= <- _] _. unfold stop. destruct (cancel_all clock (mLoopers d) (ticks d)) as [ws k] eqn:E. cbn. intros Hw. left.
    apply (cancel_all_idle (mLoopers d) (ticks d) i). by rewrite E.
  - case_match; [|done]. intros [= <- _] _. apply goes_on_same.
  - intros [= <- _] _. cbn. destruct (decide (i = j)) as [->|Hne].
    + rewrite list_lookup_alter, decide_True by done. intros (v & Hv & ->)%fmap_Some. by left.
    + rewrite list_lookup_alter_ne by done. apply goes_on_same.
  - intros [= E] Hr Hw. apply (worker_goes_on r); [done|]. by rewrite E.
Qed.
End facts.

(** ** When a hang is reported *)

(** The history ends with a stretch, begun when the watcher had last been started at [t0],
    over the whole of which the watcher was waiting for the looper. *)
Definition unanswered (clock : nat -> Z) (d0 : detector) (i : nat) (t0 : Z) (es : list event) : Prop :=
  exists e1 e2, es = e1 ++ e2 /\ forall p s, e2 = p ++ s ->
    exists d os w, run clock (e1 ++ p) d0 = Some (d, os) /\ mLoopers d !! i = Some w /\ mIsTaskRunning w = true /\
      (p = [] -> mLastCheckTime w = t0).

Lemma run_app clock es1 es2 d :
  run clock (es1 ++ es2) d = '(d1, os1) ← run clock es1 d; '(d2, os2) ← run clock es2 d1; Some (d2, os1 ++ os2).
Proof.
  revert d. induction es1 as [|e es1 IH]; intros d; cbn [run app].
  - cbn. by destruct (run clock es2 d) as [[? ?]|].
  - destruct (step clock e d) as [[d1 o1]|]; [|done]. cbn. rewrite IH. destruct (run clock es1 d1) as [[d2 o2]|]; [|done]. cbn.
    destruct (run clock es2 d2) as [[d3 o3]|]; [|done]. cbn. by rewrite app_assoc.
Qed.

Lemma unanswered_now clock d0 i es d os w :
  run clock es d0 = Some (d, os) -> mLoopers d !! i = Some w -> mIsTaskRunning w = true -> unanswered clock d0 i (mLastCheckTime w) es.
Proof.
  intros E Hw Hr. exists es, []. rewrite app_nil_r. split; [done|]. intros p s Hp. symmetry in Hp. apply app_nil in Hp as [-> ->].
  rewrite app_nil_r. by exists d, os, w.
Qed.

Lemma unanswered_snoc clock d0 i t0 es e d os w :
  unanswered clock d0 i t0 es -> run clock (es ++ [e]) d0 = Some (d, os) -> mLoopers d !! i = Some w -> mIsTaskRunning w = true ->
  unanswered clock d0 i t0 (es ++ [e]).
Proof.
  intros (e1 & e2 & -> & H) E Hw Hr. exists e1, (e2 ++ [e]). rewrite app_assoc. split; [done|]. intros p s Hp.
  destruct s as [|x s _] using rev_ind.
  - rewrite app_nil_r in Hp. subst p. rewrite app_assoc. exists d, os, w. split_and!; [done|done|done|]. intros Hn. by destruct e2.
  - rewrite app_assoc in Hp. apply app_inj_tail in Hp as [-> ->]. destruct (H p s eq_refl) as (d1 & os1 & w1 & ? & ? & ? & Hz).
    by exists d1, os1, w1.
Qed.

Section reports.
Context (clock : nat -> Z) (Hclock : forall i j, (i <= j)%nat -> clock i <= clock j).
Context (callback : bool) (iteration check : Z).

(** In every state that is reached a looper that is waited for was asked at some time and has not answered since. *)
Lemma asked_unanswered es d os i w :
  Forall (calm i) es -> run clock es (new_detector callback iteration check) = Some (d, os) ->
  mLoopers d !! i = Some w -> mIsTaskRunning w = true ->
  exists t0, unanswered clock (new_detector callback iteration check) i t0 es /\ asked_before w t0.
Proof.
  revert d os i w. induction es as [|e es IH] using rev_ind; intros d os i w Hes E Hw Hr; [by simplify_eq/=|].
  apply Forall_app in Hes as [Hes [He _]%Forall_cons]. pose proof E as E0. rewrite run_app in E.
  destruct (run clock es _) as [[d1 os1]|] eqn:E1; [|done]. cbn in E. destruct (step clock e d1) as [[d2 os2]|] eqn:E2; [|done]. cbn in E. simplify_eq.
  destruct (step_goes_on clock Hclock e d1 d os2 i w E2 He Hw) as [?|[Hc|(v & Hv & Hvr & _ & Hgo)]]; [congruence| |].
  - exists (mLastCheckTime w). split; [by eapply unanswered_now|]. unfold asked_before. rewrite Hc. cbn. lia.
  - destruct (IH d1 os1 i v Hes eq_refl Hv Hvr) as (t0 & Hu & Ht). exists t0. split; [|by apply Hgo]. by eapply unanswered_snoc.
Qed.

Lemma predicates_tell_no_looper cb r j ps i o : Looper i o ∉ check_predicates cb r j ps.
Proof.
  revert j. induction ps as [|p ps IH]; intros j; cbn [check_predicates]; [apply not_elem_of_nil|]. rewrite not_elem_of_app. split; [|apply IH].
  destruct (holds r j); [|apply not_elem_of_nil]. by intros ?%list_elem_of_singleton.
Qed.

(** C36: The callback is called about a looper only when the looper was asked for an answer more than
    twice its timeout ago and was waited for without interruption ever since: it neither completed
    the task nor was the detector paused or stopped in between.  This holds for a looper that never
    completes its task in the very middle of a check of it, between the two readings of the clock;
    [race_is_reported] shows that one that does is reported although it has answered. *)
Theorem hang_reported_unanswered es r d os d' os' i m :
  Forall (calm i) es -> calm i (Worker r) ->
  run clock es (new_detector callback iteration check) = Some (d, os) -> step clock (Worker r) d = Some (d', os') ->
  Looper i (Called m) ∈ os' ->
  exists w t0 n, mLoopers d !! i = Some w /\ unanswered clock (new_detector callback iteration check) i t0 es /\
    (ticks d <= n < ticks d')%nat /\ t0 + 2 * mTimeout w < clock n.
Proof.
  intros Hes Hr E. cbn [step calm] in *. intros [= Es] Hm. unfold workerThread in Es.
  destruct (worker d); [by simplify_eq; apply not_elem_of_nil in Hm| | |by simplify_eq; apply not_elem_of_nil in Hm].
  2: { by case_match; simplify_eq; apply not_elem_of_nil in Hm. }
  do 3 (case_match; [by simplify_eq; apply not_elem_of_nil in Hm|]). cbn in Es.
  destruct (process_all _ _ _ _ _ _) as [[ws os1] k] eqn:Ep. simplify_eq. apply round_ok in Ep as (Hk & _ & Hi & Hlt).
  apply elem_of_app in Hm as [Hm|Hm]; [|by apply predicates_tell_no_looper in Hm].
  apply Hlt in Hm as Hj. destruct (lookup_lt_is_Some_2 (mLoopers d) i) as [w Hw]; [lia|].
  destruct (Hi i w Hw) as (n & Hn & _ & Ho). apply Ho in Hm. rewrite Nat.add_0_l, Hr in Hm.
  eapply process_called in Hm as (Hrun & Hlong); [|done].
  destruct (asked_unanswered es d os i w Hes E Hw Hrun) as (t0 & Hu & Ht). exists w, t0, n. split_and!; [done|done|lia|cbn; lia|by apply Hlong].
Qed.
End reports.

(** A looper watched with a timeout of 2 does not answer; the third round of the worker calls back. *)
Example hang_reported_unanswered_witness :
  let r := {| debugger := false; raced := fun _ => false; holds := fun _ => false |} in
  let es := [Add 2; Worker r; Worker r] in
  exists d os d' os', run Z.of_nat es (new_detector true 1 10) = Some (d, os) /\ step Z.of_nat (Worker r) d = Some (d', os') /\
    os' = [Looper 0 (Logged 0 false); Looper 0 (Called 0)] /\ exists t0, unanswered Z.of_nat (new_detector true 1 10) 0 t0 es.
Proof.
  intros r es. do 4 eexists. split; [reflexivity|]. split; [reflexivity|]. split; [reflexivity|].
  edestruct (hang_reported_unanswered Z.of_nat ltac:(intros; lia) true 1 10 es r) as (w & t0 & n & _ & H & _);
    [by repeat constructor|done|reflexivity|reflexivity|right; left|]. by exists t0.
Defined.

(** ** A looper that hangs is reported *)

Fixpoint process_many (times : list (Z * Z)) (w : watcher) : watcher * list output :=
  match times with
  | [] => (w, [])
  | (now, later) :: times =>
      let '(w, o) := process true false false now later w in
      let '(w, os) := process_many times w in (w, o ++ os)
  end.

(** The checks come in the order of time, each less than [T] after the one before. *)
Fixpoint paced (T previous later0 : Z) (times : list (Z * Z)) : Prop :=
  match times with
  | [] => True
  | (now, later) :: times => later0 <= now < previous + T /\ now <= later /\ paced T now later times
  end.

Lemma process_many_cons now later times w o w1 :
  process true false false now later w = (w1, o) ->
  (exists m, Called m ∈ o) \/ (exists m, Called m ∈ (process_many times w1).2) -> exists m, Called m ∈ (process_many ((now, later) :: times) w).2.
Proof.
  intros E H. cbn [process_many]. rewrite E. destruct (process_many times w1) as [w2 os]. cbn in *. setoid_rewrite elem_of_app.
  destruct H as [[m ?]|[m ?]]; eauto.
Qed.

Lemma second_hang_called times w p q :
  paced (mTimeout w) p q times -> mIsTaskRunning w = true -> 1 <= mHangCount w -> p <= mLastCheckTime w + mTimeout w ->
  Exists (fun x => mLastCheckTime w + mTimeout w < x.1) times -> exists m, Called m ∈ (process_many times w).2.
Proof.
  revert p q. induction times as [|[now later] times IH]; intros p q Hp Hr Hc Hl Hx; [by inversion Hx|]. destruct Hp as (Hn & Hle & Hp).
  destruct (Z.ltb_spec (mLastCheckTime w + mTimeout w) now) as [Hlt|Hge].
  - eapply process_many_cons.
    + unfold process. rewrite Hr, (proj2 (Z.ltb_lt _ now)), (proj2 (Z.ltb_lt now _)) by lia. cbn [andb mHangCount with_count].
      rewrite (proj2 (Z.leb_le _ _)) by (unfold kMaxHangCount; lia). reflexivity.
    + left. eexists. right. left.
  - eapply process_many_cons.
    + unfold process. rewrite Hr, (proj2 (Z.ltb_ge _ now)) by lia. reflexivity.
    + right. apply (IH now later); try done. inversion Hx; subst; [cbn in *; lia|done].
Qed.

(** A looper that does not answer is reported by the first check later than four timeouts
    after it was asked, when the checks come faster than the timeout. *)
Theorem hang_is_reported times w :
  mIsTaskRunning w = true -> 0 <= mHangCount w -> 0 < mTimeout w ->
  paced (mTimeout w) (mLastCheckTime w) (mLastCheckTime w) times ->
  Exists (fun x => mLastCheckTime w + 4 * mTimeout w < x.1) times ->
  exists m, Called m ∈ (process_many times w).2.
Proof.
  intros Hr Hc HT. assert (mLastCheckTime w <= mLastCheckTime w + mTimeout w) as Hl by lia. revert Hl.
  generalize (mLastCheckTime w) at 1 3 as p. generalize (mLastCheckTime w) at 2 as q.
  induction times as [|[now later] times IH]; intros q p Hl Hp Hx; [by inversion Hx|]. destruct Hp as (Hn & Hle & Hp).
  destruct (Z.ltb_spec (mLastCheckTime w + mTimeout w) now) as [Hlt|Hge].
  2: { eapply process_many_cons; [unfold process; rewrite Hr, (proj2 (Z.ltb_ge _ now)) by lia; reflexivity|]. right.
       apply (IH later now); [lia|done|]. inversion Hx; subst; [cbn in *; lia|done]. }
  destruct (kMaxHangCount <=? mHangCount w + 1) eqn:E; unfold kMaxHangCount in E.
  { apply Z.leb_le in E. apply (second_hang_called _ _ p q); [by cbn; split_and!; [lia|lia|lia|]|done|lia|done|]. eapply Exists_impl; [exact Hx|]. cbn. intros x. lia. }
  eapply process_many_cons.
  { unfold process. rewrite Hr, (proj2 (Z.ltb_lt _ now)), (proj2 (Z.ltb_lt now _)) by lia. cbn [andb mHangCount with_count]. unfold kMaxHangCount. rewrite E. reflexivity. }
  right. apply Z.leb_gt in E.
  assert (Exists (fun x => mLastCheckTime w + 4 * mTimeout w < x.1) times) as Hx' by (inversion Hx; subst; [cbn in *; lia|done]).
  apply (second_hang_called _ _ now later); cbn; [done|done|lia|lia|].
  destruct times as [|[now2 later2] times]; [by inversion Hx'|]. destruct Hp as (Hn2 & _). eapply Exists_impl; [exact Hx'|]. cbn. intros x. lia.
Qed.

(** A looper that never answers, checked every 6 units with a timeout of 10. *)
Example hang_is_reported_witness :
  let w := startHangCheck 0 (LooperWatcher 10 15) in
  0 <= mHangCount w /\ exists m, Called m ∈ (process_many [(6, 6); (12, 12); (18, 19); (24, 24); (30, 31); (36, 36); (42, 42)] w).2.
Proof.
  split; [done|]. apply (hang_is_reported [(6, 6); (12, 12); (18, 19); (24, 24); (30, 31); (36, 36); (42, 42)] (startHangCheck 0 (LooperWatcher 10 15)));
    cbn; [done|lia|lia|lia|].
  repeat first [left; cbn; lia | right].
Defined.

(** Once no check has come within two timeouts a hang is never reported: nothing restarts the check. *)
Lemma missed_hang_is_never_reported times w :
  mIsTaskRunning w = true -> Forall (fun x => mLastCheckTime w + 2 * mTimeout w <= x.1) times -> process_many times w = (w, []).
Proof.
  intros Hr. induction 1 as [|[now later] times Hn _ IH]; [done|]. cbn [process_many]. unfold process.
  rewrite Hr, (proj2 (Z.ltb_ge now _)) by (cbn in Hn; lia). rewrite andb_false_r, IH. done.
Qed.

(** Each hang that is noticed releases the mutex twice: by hand, and at the end of the scope. *)
Lemma hang_unlocks_twice callback dbg now later w m ignored :
  Logged m ignored ∈ (process callback dbg false now later w).2 ->
  mUnlockedTwice (process callback dbg false now later w).1 = S (mUnlockedTwice w).
Proof. unfold process. repeat (case_match; try by intros ?%not_elem_of_nil); done. Qed.

(** A looper that answers between the two releases is asked again with its hang still counted: silent for one
    timeout only, it is reported. *)
Example race_is_reported :
  let w := startHangCheck 0 (LooperWatcher 10 15) in
  let '(w, _) := process true false true 12 13 w in
  (process true false false 24 25 w).2 = [Logged 0 false; Called 0].
Proof. reflexivity. Qed.
