(* ===== verification/Ramdisk.v ===== *)
(** * Files of a ramdisk image

    Models [android/filesystems/src/android/filesystems/ramdisk_extractor.cpp]:
    the gzip input stream on top of zlib, the hexadecimal fields of a cpio
    header and the search for a file in the archive.  zlib is an interface;
    [GzLaws] states how its reads and seeks see the decompressed bytes. *)

From S2P Require Import Prelude CText.

(** ** zlib *)

(** A [gzFile] that is open for reading.  [gzread n] answers its return value,
    the bytes put in the buffer and the file. *)
Class GzFile (S : Type) := {
  gzread : Z -> S -> Z * bytes * S;
  gzeof : S -> bool;
  gzerror : S -> Z;
  gzseek : Z -> S -> Z * S;
}.

(** Reading and seeking forward, in a file whose decompressed bytes from the
    current position on are [gz_rest]. *)
Class GzLaws (S : Type) `{GzFile S} (gz_rest : S -> bytes) := {
  gzread_law : forall n s, 0 < n < 2 ^ 31 ->
    exists b s', gzread n s = (zlen b, b, s') /\ gz_rest s = b ++ gz_rest s' /\ zlen b <= n /\
      (b = [] -> gz_rest s = [] /\ gzeof s' = true);
  gzseek_law : forall n s, 0 <= n <= zlen (gz_rest s) ->
    exists s', (gzseek n s).2 = s' /\ 0 <= (gzseek n s).1 /\ gz_rest s' = drop (Z.to_nat n) (gz_rest s);
}.

(** ** The input stream *)

Record GZipInputStream (S : Type) := { mFile : S; mError : Z }.
Arguments mFile {S}. Arguments mError {S}. Arguments Build_GZipInputStream {S}.

Definition INT_MAX : Z := 2 ^ 31 - 1.
Definition EIO : Z := 5.
Definition EINVAL : Z := 22.

Section ramdisk.
Context {S : Type} `{GzFile S}.
Implicit Types i : GZipInputStream S.

(** The loop of [tryRead]: the bytes read; [None] when the fuel is out. *)
Fixpoint tryRead_loop (fuel : nat) (len : Z) i : option (bytes * GZipInputStream S) :=
  if negb (0 <? len) then Some ([], i)
  else
    match fuel with
    | O => None
    | Datatypes.S fuel =>
        let avail := if INT_MAX <? len then INT_MAX else len in
        let '(ret, b, s) := gzread avail (mFile i) in
        if ret <? 0 then Some ([], {| mFile := s; mError := gzerror s |})
        else if ret =? 0 then
          if gzeof s then Some ([], {| mFile := s; mError := mError i |})
          else Some ([], {| mFile := s; mError := gzerror s |})
        else
          r ← tryRead_loop fuel (len - ret) {| mFile := s; mError := mError i |};
          let '(bs, i) := r in Some (b ++ bs, i)
    end.

(** Whether it succeeded and the bytes read.  An iteration reads at least one
    byte, so [len] of them are enough. *)
Definition tryRead (len : Z) i : option (bool * bytes * GZipInputStream S) :=
  if negb (mError i =? 0) then Some (false, [], i)
  else if len =? 0 then Some (true, [], i)
  else
    r ← tryRead_loop (Z.to_nat len) len i;
    let '(bs, i) := r in Some ((mError i =? 0) && (0 <? zlen bs), bs, i).

Definition doRead (len : Z) i : option (bool * bytes * GZipInputStream S) :=
  r ← tryRead len i;
  let '(ok, bs, i) := r in
  if negb ok then Some (false, bs, i)
  else if zlen bs <? len then Some (false, bs, {| mFile := mFile i; mError := EIO |})
  else Some (true, bs, i).

Definition doSkip (len : Z) i : bool * GZipInputStream S :=
  if negb (mError i =? 0) then (false, i)
  else
    let '(ret, s) := gzseek len (mFile i) in
    if ret <? 0 then (false, {| mFile := s; mError := gzerror s |})
    else (true, {| mFile := s; mError := mError i |}).

(** ** The fields of a header *)

Definition hex_value (b : Z) : option Z :=
  let c := as_char b in
  let d := u32 (c - 48) in
  if 10 <=? d then
    let d := u32 (c - 97) in
    if 6 <=? d then
      let d := u32 (c - 65) in
      if 6 <=? d then None else Some (d + 10)
    else Some (d + 10)
  else Some d.

Fixpoint parse_hex_loop (n : nat) (input : bytes) (result : Z) : option Z :=
  match n, input with
  | O, _ => Some result
  | Datatypes.S n, b :: input =>
      d ← hex_value b; parse_hex_loop n input (Z.lor (u32 (Z.shiftl result 4)) d)
  | Datatypes.S _, [] => None
  end.

Definition parse_hex8 (input : bytes) : option Z := parse_hex_loop 8 input 0.

(** [struct cpio_newc_header]: the magic and 13 fields of 8 characters. *)
Definition sizeof_header : Z := 110.

Definition field (k : nat) (header : bytes) : bytes := take 8 (drop (6 + 8 * k) header).
Definition c_filesize (header : bytes) : bytes := field 6 header.
Definition c_namesize (header : bytes) : bytes := field 11 header.

(** ** The search *)

(** The outcome: the result, the buffer in [*out] (the bytes read into it),
    [*outSize] and the value given to [errno]. *)
Record extracted := { ex_ok : bool; ex_out : option bytes; ex_size : Z; ex_errno : option Z }.

Definition not_extracted (e : option Z) : extracted :=
  {| ex_ok := false; ex_out := None; ex_size := 0; ex_errno := e |}.

Definition kTrailer : bytes := str "TRAILER!!!".
Definition kTrailerSize : Z := zlen kTrailer.

(** What an entry asks for, given its sizes. *)
Definition skip_name (nameSize : Z) : Z := u64 (Z.land (sizeof_header + nameSize + 3) (-4) - sizeof_header).
Definition skip_file (entrySize : Z) : Z := Z.land (u32 (entrySize + 3)) (-4).

Fixpoint extract_loop (fuel : nat) (fileName : bytes) i : option extracted :=
  match fuel with
  | O => None
  | Datatypes.S fuel =>
      r ← doRead sizeof_header i;
      let '(ok, header, i) := r in
      if negb ok then Some (not_extracted None)
      else if negb (starts_with (str "070701") header) then Some (not_extracted (Some EINVAL))
      else
        match parse_hex8 (c_namesize header), parse_hex8 (c_filesize header) with
        | Some nameSize, Some entrySize =>
            let skipName := skip_name nameSize in
            let skipCount := u64 (skipName + skip_file entrySize) in
            if ((entrySize =? 0) || negb (nameSize =? zlen fileName + 1))
               && negb (nameSize =? kTrailerSize + 1) then
              let '(ok, i) := doSkip skipCount i in
              if ok then extract_loop fuel fileName i else Some (not_extracted (Some (mError i)))
            else
              let nameSize := u32 (nameSize - 1) in
              r ← doRead nameSize i;
              let '(ok, entryName, i) := r in
              if negb ok then Some (not_extracted (Some (mError i)))
              else
                let skipCount := u64 (skipCount - nameSize) in
                if (nameSize =? kTrailerSize) && bytes_eqb (c_str entryName) kTrailer then
                  Some (not_extracted None)
                else if bytes_eqb (c_str entryName) fileName then
                  let '(ok, i) := doSkip (u64 (skipName - nameSize)) i in
                  if negb ok then Some (not_extracted (Some (mError i)))
                  else
                    r ← doRead entrySize i;
                    let '(ok, data, i) := r in
                    Some {| ex_ok := ok; ex_out := Some data; ex_size := entrySize; ex_errno := None |}
                else
                  let '(ok, i) := doSkip skipCount i in
                  if ok then extract_loop fuel fileName i else Some (not_extracted (Some (mError i)))
        | _, _ => Some (not_extracted (Some (mError i)))
        end
  end.

(** The image as [gzopen] gives it: a file, or an error. *)
Definition android_extractRamdiskFile (fuel : nat) (image : Z + S) (fileName : bytes) : option extracted :=
  match image with
  | inl e => Some (not_extracted (Some e))
  | inr s => extract_loop fuel fileName {| mFile := s; mError := 0 |}
  end.

End ramdisk.

(** ** A reference writer of archives *)

Definition hex_digit (d : Z) : Z := if d <? 10 then 48 + d else 55 + d.

Fixpoint hex_digits (k : nat) (n : Z) : bytes :=
  match k with
  | O => []
  | S k => hex_digit (n / 16 ^ Z.of_nat k mod 16) :: hex_digits k n
  end.

Definition hex8 : Z -> bytes := hex_digits 8.

(** A member, with the fields of its header the search does not look at: the
    six before the size, the four between the sizes and the checksum. *)
Record member := {
  e_before : list Z; e_between : list Z; e_check : Z; e_name : bytes; e_data : bytes;
}.

Definition pad4 (n : Z) : bytes := repeat 0 (Z.to_nat ((- n) mod 4)).

Definition header_of (e : member) : bytes :=
  str "070701" ++ flat_map hex8 (e_before e) ++ hex8 (zlen (e_data e)) ++
  flat_map hex8 (e_between e) ++ hex8 (zlen (e_name e) + 1) ++ hex8 (e_check e).

Definition name_part (e : member) : bytes := 0 :: pad4 (sizeof_header + zlen (e_name e) + 1).

Definition member_bytes (e : member) : bytes :=
  header_of e ++ e_name e ++ name_part e ++ e_data e ++ pad4 (zlen (e_data e)).

Record member_ok (e : member) : Prop := {
  mo_before : length (e_before e) = 6%nat;
  mo_between : length (e_between e) = 4%nat;
  mo_name : c_string (e_name e);
  mo_name_size : zlen (e_name e) < 2 ^ 32 - 1;
  mo_data_size : zlen (e_data e) <= 2 ^ 32 - 4;
}.

(** The members a search for a name stops at: those with data, and the empty
    ones too when the name is as long as that of the trailer. *)
Definition found_at (fileName : bytes) (e : member) : bool :=
  bytes_eqb (e_name e) fileName && (negb (zlen (e_data e) =? 0) || (zlen fileName =? kTrailerSize)).

Fixpoint find_member (fileName : bytes) (es : list member) : option bytes :=
  match es with
  | [] => None
  | e :: es => if found_at fileName e then Some (e_data e) else find_member fileName es
  end.

(** ** Lemmas on headers *)

Lemma hex_digit_value d : 0 <= d < 16 -> hex_value (hex_digit d) = Some d.
Proof.
  intros Hd. assert (d ∈ [0;1;2;3;4;5;6;7;8;9;10;11;12;13;14;15]) as Hin.
  { rewrite !elem_of_cons. lia. }
  repeat (apply elem_of_cons in Hin as [->|Hin]; [reflexivity|]). set_solver.
Qed.

Lemma parse_hex_step r d : 0 <= d < 16 -> in_u 28 r ->
  Z.lor (u32 (Z.shiftl r 4)) d = r * 16 + d.
Proof.
  unfold in_u. intros Hd Hr. rewrite wrap_small by (unfold in_u; rewrite Z.shiftl_mul_pow2; lia).
  rewrite Z.lor_comm, lor_shiftl_add by lia. lia.
Qed.

Lemma parse_hex_loop_spec k : forall n r rest,
  0 <= r -> 0 <= n -> (r + 1) * 16 ^ Z.of_nat k <= 2 ^ 32 ->
  parse_hex_loop k (hex_digits k n ++ rest) r = Some (r * 16 ^ Z.of_nat k + n mod 16 ^ Z.of_nat k).
Proof.
  induction k as [|k IH]; intros n r rest Hr Hn Hb.
  { cbn. f_equal. rewrite Z.mod_1_r. lia. }
  rewrite Nat2Z.inj_succ, Z.pow_succ_r in * by lia.
  cbn [parse_hex_loop hex_digits app]. set (P := 16 ^ Z.of_nat k) in *.
  assert (0 < P) as HP by (apply Z.pow_pos_nonneg; lia). pose proof (Z.mod_pos_bound (n / P) 16 ltac:(lia)) as Hd.
  rewrite hex_digit_value by lia. cbn [mbind option_bind].
  rewrite parse_hex_step by (unfold in_u; nia).
  rewrite IH by nia. f_equal. rewrite (Z.mul_comm 16 P), Z.rem_mul_r by lia. ring.
Qed.

Lemma parse_hex8_hex8 n rest : in_u 32 n -> parse_hex8 (hex8 n ++ rest) = Some n.
Proof.
  intros Hn. unfold parse_hex8, hex8. rewrite parse_hex_loop_spec by (unfold in_u in *; cbn; lia).
  f_equal. rewrite Z.mod_small by (unfold in_u in *; cbn; lia). done.
Qed.

Lemma hex_digits_length k n : length (hex_digits k n) = k.
Proof. induction k as [|k IH]; [done|]. cbn. by rewrite IH. Qed.

Lemma flat_map_hex8_length ns : length (flat_map hex8 ns) = (8 * length ns)%nat.
Proof.
  induction ns as [|n ns IH]; [done|]. cbn [flat_map length]. rewrite length_app, IH.
  unfold hex8. rewrite hex_digits_length. lia.
Qed.

Lemma header_length e : member_ok e -> length (header_of e) = 110%nat.
Proof.
  intros []. unfold header_of. rewrite !length_app, !flat_map_hex8_length, mo_before0, mo_between0.
  unfold hex8. by rewrite !hex_digits_length.
Qed.

Lemma field_app k (p q r : bytes) :
  length p = (6 + 8 * k)%nat -> length q = 8%nat -> field k (p ++ q ++ r) = q.
Proof. intros Hp Hq. unfold field. by rewrite drop_app_length', take_app_length'. Qed.

Lemma header_filesize e : member_ok e -> c_filesize (header_of e) = hex8 (zlen (e_data e)).
Proof.
  intros []. unfold c_filesize, header_of. rewrite app_assoc. apply field_app.
  - rewrite length_app, flat_map_hex8_length, mo_before0. done.
  - apply hex_digits_length.
Qed.

Lemma header_namesize e : member_ok e -> c_namesize (header_of e) = hex8 (zlen (e_name e) + 1).
Proof.
  intros []. unfold c_namesize, header_of. rewrite !app_assoc, <- (app_assoc _ (hex8 (_ + 1))).
  apply field_app.
  - rewrite !length_app, !flat_map_hex8_length, mo_before0, mo_between0.
    unfold hex8. by rewrite hex_digits_length.
  - apply hex_digits_length.
Qed.

Lemma land_m4 x : Z.land x (-4) = x - x mod 4.
Proof.
  change (-4) with (Z.lnot (Z.ones 2)). rewrite <- Z.ldiff_land, Z.ldiff_ones_r by lia.
  rewrite Z.shiftl_mul_pow2, Z.shiftr_div_pow2 by lia. change (2 ^ 2) with 4.
  Z.to_euclidean_division_equations. lia.
Qed.

Lemma pad4_length n : zlen (pad4 n) = (- n) mod 4.
Proof.
  unfold pad4, zlen. rewrite repeat_length, Z2Nat.id; [done|].
  pose proof (Z.mod_pos_bound (- n) 4). lia.
Qed.

Lemma round4 n : n + 3 - (n + 3) mod 4 = n + (- n) mod 4.
Proof. Z.to_euclidean_division_equations. lia. Qed.

Lemma skip_name_spec e : member_ok e ->
  skip_name (zlen (e_name e) + 1) = zlen (e_name e) + zlen (name_part e).
Proof.
  intros []. pose proof (zlen_nonneg (e_name e)). unfold skip_name, name_part.
  rewrite land_m4, zlen_cons, pad4_length, Z.add_assoc, round4.
  set (m := (- _) mod 4). assert (0 <= m < 4) by (apply Z.mod_pos_bound; lia).
  unfold sizeof_header in *. rewrite wrap_small by (unfold in_u; lia). lia.
Qed.

Lemma skip_file_spec e : member_ok e ->
  skip_file (zlen (e_data e)) = zlen (e_data e) + zlen (pad4 (zlen (e_data e))).
Proof.
  intros []. pose proof (zlen_nonneg (e_data e)). unfold skip_file.
  rewrite wrap_small by (unfold in_u; lia). by rewrite land_m4, round4, pad4_length.
Qed.

(** ** Lemmas on the stream *)

Section stream.
Context {S : Type} `{GzFile S} (gz_rest : S -> bytes) `{!GzLaws S gz_rest}.
Implicit Types i : GZipInputStream S.

(** A stream without error, and what is left in it. *)
Definition has (i : GZipInputStream S) (bs : bytes) : Prop := mError i = 0 /\ gz_rest (mFile i) = bs.

Lemma tryRead_loop_ok fuel : forall bs tail i,
  (length bs <= fuel)%nat -> has i (bs ++ tail) ->
  exists i', tryRead_loop fuel (zlen bs) i = Some (bs, i') /\ has i' tail.
Proof.
  induction fuel as [|fuel IH]; intros bs tail i Hf [He Hr].
  { destruct bs; [|cbn in Hf; lia]. exists i. done. }
  cbn [tryRead_loop]. destruct (Z.ltb_spec 0 (zlen bs)) as [Hpos|Hz]; cbn [negb].
  2:{ destruct bs; [|rewrite zlen_cons in Hz; pose proof (zlen_nonneg bs); lia]. by exists i. }
  set (avail := if INT_MAX <? zlen bs then INT_MAX else zlen bs).
  assert (0 < avail < 2 ^ 31 /\ avail <= zlen bs) as [Ha Hb].
  { unfold avail, INT_MAX. case_cmp; lia. }
  destruct (gzread_law avail (mFile i) Ha) as (b & s' & -> & Eb & Hle & Hnil). cbn.
  rewrite Hr in Eb, Hnil. rewrite (proj2 (Z.ltb_ge _ _)) by apply zlen_nonneg.
  destruct (Z.eqb_spec (zlen b) 0) as [E|E].
  { destruct b; [|rewrite zlen_cons in E; pose proof (zlen_nonneg b); lia].
    destruct (Hnil eq_refl) as [F _]. apply app_eq_nil in F as [-> _]. done. }
  assert (exists bs', bs = b ++ bs' /\ gz_rest s' = bs' ++ tail) as (bs' & -> & Hr').
  { exists (drop (length b) bs). unfold zlen in *.
    pose proof (f_equal (take (length b)) Eb) as E1. rewrite take_app_length in E1.
    pose proof (f_equal (drop (length b)) Eb) as E2. rewrite drop_app_length in E2.
    rewrite take_app_le in E1 by lia. rewrite drop_app_le in E2 by lia.
    split; [|done]. rewrite <- E1 at 1. by rewrite take_drop. }
  rewrite zlen_app. replace (zlen b + zlen bs' - zlen b) with (zlen bs') by lia.
  destruct (IH bs' tail {| mFile := s'; mError := mError i |}) as (i' & -> & Hi').
  { rewrite length_app in Hf. unfold zlen in E. lia. }
  { done. }
  by exists i'.
Qed.

Lemma doRead_ok bs tail i n :
  n = zlen bs -> has i (bs ++ tail) ->
  exists i', doRead n i = Some (true, bs, i') /\ has i' tail.
Proof.
  intros -> Hi. pose proof Hi as [He Hr]. unfold doRead, tryRead. rewrite He.
  cbn [Z.eqb negb]. destruct (Z.eqb_spec (zlen bs) 0) as [E|E].
  - destruct bs; [|rewrite zlen_cons in E; pose proof (zlen_nonneg bs); lia]. by exists i.
  - destruct (tryRead_loop_ok (Z.to_nat (zlen bs)) bs tail i) as (i' & -> & Hi'); [unfold zlen; lia|done|].
    cbn [mbind option_bind]. destruct Hi' as [He' Hr']. rewrite He'. cbn.
    pose proof (zlen_nonneg bs). rewrite (proj2 (Z.ltb_lt 0 _)) by lia. cbn.
    rewrite Z.ltb_irrefl. by exists i'.
Qed.

Lemma doSkip_ok bs tail i n :
  n = zlen bs -> has i (bs ++ tail) ->
  exists i', doSkip n i = (true, i') /\ has i' tail.
Proof.
  intros -> [He Hr]. unfold doSkip. rewrite He. cbn [Z.eqb negb].
  destruct (gzseek_law (zlen bs) (mFile i)) as (s' & E1 & E2 & E3).
  { rewrite Hr, zlen_app. pose proof (zlen_nonneg bs). pose proof (zlen_nonneg tail). lia. }
  destruct (gzseek _ _) as [ret s]. cbn in E1, E2. subst s'.
  rewrite (proj2 (Z.ltb_ge _ _)) by done. eexists. split; [done|]. split; [done|].
  cbn. rewrite E3, Hr. unfold zlen. by rewrite Nat2Z.id, drop_app_length.
Qed.

(** The search up to the member's name. *)
Lemma extract_header fuel fileName e tail i :
  member_ok e -> has i (header_of e ++ tail) ->
  exists i1, has i1 tail /\
  extract_loop (Datatypes.S fuel) fileName i =
    let nameSize := zlen (e_name e) + 1 in
    let entrySize := zlen (e_data e) in
    let skipName := zlen (e_name e) + zlen (name_part e) in
    let skipCount := skipName + (entrySize + zlen (pad4 entrySize)) in
    if ((entrySize =? 0) || negb (nameSize =? zlen fileName + 1))
       && negb (nameSize =? kTrailerSize + 1) then
      let '(ok, i) := doSkip skipCount i1 in
      if ok then extract_loop fuel fileName i else Some (not_extracted (Some (mError i)))
    else
      r ← doRead (zlen (e_name e)) i1;
      let '(ok, entryName, i) := r in
      if negb ok then Some (not_extracted (Some (mError i)))
      else
        let skipCount := u64 (skipCount - zlen (e_name e)) in
        if (zlen (e_name e) =? kTrailerSize) && bytes_eqb (c_str entryName) kTrailer then
          Some (not_extracted None)
        else if bytes_eqb (c_str entryName) fileName then
          let '(ok, i) := doSkip (u64 (skipName - zlen (e_name e))) i in
          if negb ok then Some (not_extracted (Some (mError i)))
          else
            r ← doRead entrySize i;
            let '(ok, data, i) := r in
            Some {| ex_ok := ok; ex_out := Some data; ex_size := entrySize; ex_errno := None |}
        else
          let '(ok, i) := doSkip skipCount i in
          if ok then extract_loop fuel fileName i else Some (not_extracted (Some (mError i))).
Proof.
  intros He Hi. destruct (doRead_ok (header_of e) tail i sizeof_header) as (i1 & E & Hi1); [|done|].
  { unfold zlen. by rewrite header_length. }
  exists i1. split; [done|]. cbn [extract_loop]. rewrite E. cbn [mbind option_bind negb].
  replace (starts_with (str "070701") (header_of e)) with true
    by (unfold starts_with, header_of; by rewrite strip_prefix_app).
  pose proof (zlen_nonneg (e_name e)). pose proof (zlen_nonneg (e_data e)).
  rewrite header_namesize, header_filesize by done.
  rewrite <- (app_nil_r (hex8 (zlen (e_name e) + 1))), <- (app_nil_r (hex8 (zlen (e_data e)))).
  pose proof He as [].
  rewrite !parse_hex8_hex8 by (unfold in_u; lia). cbn [negb].
  rewrite skip_name_spec, skip_file_spec by done.
  assert (0 <= zlen (name_part e) < 5) as Hnp.
  { unfold name_part. rewrite zlen_cons, pad4_length.
    pose proof (Z.mod_pos_bound (- (sizeof_header + zlen (e_name e) + 1)) 4). lia. }
  assert (0 <= zlen (pad4 (zlen (e_data e))) < 4) as Hdp.
  { rewrite pad4_length. apply Z.mod_pos_bound. lia. }
  rewrite (wrap_small 64) by (unfold in_u; lia).
  replace (zlen (e_name e) + 1 - 1) with (zlen (e_name e)) by lia.
  rewrite (wrap_small 32) by (unfold in_u; lia). done.
Qed.

Lemma zlen_bytes_bound e : member_ok e ->
  0 <= zlen (e_name e) < 2 ^ 32 - 1 /\ 0 <= zlen (e_data e) <= 2 ^ 32 - 4 /\
  0 <= zlen (name_part e) < 5 /\ 0 <= zlen (pad4 (zlen (e_data e))) < 4.
Proof.
  intros []. unfold name_part. rewrite zlen_cons, !pad4_length.
  pose proof (Z.mod_pos_bound (- (sizeof_header + zlen (e_name e) + 1)) 4 ltac:(lia)).
  pose proof (Z.mod_pos_bound (- zlen (e_data e)) 4 ltac:(lia)).
  pose proof (zlen_nonneg (e_name e)). pose proof (zlen_nonneg (e_data e)). lia.
Qed.

(** A member that is found, or passed over. *)
Lemma extract_member fuel fileName e tail i :
  member_ok e -> e_name e <> kTrailer -> c_string fileName -> has i (member_bytes e ++ tail) ->
  if found_at fileName e then
    extract_loop (Datatypes.S fuel) fileName i =
      Some {| ex_ok := true; ex_out := Some (e_data e); ex_size := zlen (e_data e); ex_errno := None |}
  else exists i', has i' tail /\ extract_loop (Datatypes.S fuel) fileName i = extract_loop fuel fileName i'.
Proof.
  intros He Hnt Hfn Hi. unfold member_bytes in Hi. rewrite <- !app_assoc in Hi.
  destruct (extract_header fuel fileName e _ i He Hi) as (i1 & Hi1 & ->). cbn zeta.
  pose proof (zlen_bytes_bound e He) as (Hn & Hd & Hnp & Hdp).
  set (nl := zlen (e_name e)) in *. set (dl := zlen (e_data e)) in *.
  set (np := name_part e) in *. set (dp := pad4 dl) in *.
  destruct (((dl =? 0) || negb (nl + 1 =? zlen fileName + 1)) && negb (nl + 1 =? kTrailerSize + 1)) eqn:Eskip.
  - assert (found_at fileName e = false) as ->.
    { unfold found_at. destruct (bytes_eqb_spec (e_name e) fileName) as [<-|]; [|done]. cbn.
      fold nl dl. destruct (Z.eqb_spec dl 0), (Z.eqb_spec nl kTrailerSize) as [E|]; try done; cbn in Eskip.
      - rewrite E, Z.eqb_refl in Eskip. done.
      - fold nl in Eskip. rewrite Z.eqb_refl in Eskip. done.
      - fold nl in Eskip. rewrite Z.eqb_refl in Eskip. done. }
    destruct (doSkip_ok (e_name e ++ np ++ e_data e ++ dp) tail i1 (nl + zlen np + (dl + zlen dp)))
      as (i2 & -> & Hi2).
    { rewrite !zlen_app. unfold nl, dl. lia. }
    { by rewrite <- !app_assoc. }
    by exists i2.
  - destruct (doRead_ok (e_name e) (np ++ e_data e ++ dp ++ tail) i1 nl) as (i2 & -> & Hi2); [done|done|].
    cbn [mbind option_bind negb]. pose proof He as []. rewrite c_str_id by done.
    replace ((nl =? kTrailerSize) && bytes_eqb (e_name e) kTrailer) with false.
    2:{ destruct (bytes_eqb_spec (e_name e) kTrailer); [done|]. by rewrite andb_false_r. }
    destruct (bytes_eqb_spec (e_name e) fileName) as [E|E].
    + assert (found_at fileName e = true) as ->.
      { unfold found_at. rewrite E, bytes_eqb_refl. cbn. fold dl.
        destruct (Z.eqb_spec dl 0), (Z.eqb_spec (zlen fileName) kTrailerSize) as [|F]; try done.
        exfalso. unfold nl in Eskip. rewrite E in Eskip. cbn [orb] in Eskip.
        apply negb_false_iff, Z.eqb_eq in Eskip. lia. }
      rewrite (wrap_small 64) by (unfold in_u; lia).
      destruct (doSkip_ok np (e_data e ++ dp ++ tail) i2 (nl + zlen np - nl)) as (i3 & -> & Hi3); [lia|done|].
      cbn [negb]. destruct (doRead_ok (e_data e) (dp ++ tail) i3 dl) as (i4 & -> & Hi4); [done|done|].
      done.
    + assert (found_at fileName e = false) as ->.
      { unfold found_at. destruct (bytes_eqb_spec (e_name e) fileName); done. }
      rewrite (wrap_small 64) by (unfold in_u; lia).
      destruct (doSkip_ok (np ++ e_data e ++ dp) tail i2 (nl + zlen np + (dl + zlen dp) - nl)) as (i3 & -> & Hi3).
      { rewrite !zlen_app. fold dl. lia. }
      { by rewrite <- !app_assoc. }
      by exists i3.
Qed.

Lemma extract_trailer fuel fileName e tail i :
  member_ok e -> e_name e = kTrailer -> has i (member_bytes e ++ tail) ->
  extract_loop (Datatypes.S fuel) fileName i = Some (not_extracted None).
Proof.
  intros He Et Hi. unfold member_bytes in Hi. rewrite <- !app_assoc in Hi.
  destruct (extract_header fuel fileName e _ i He Hi) as (i1 & Hi1 & ->). cbn zeta.
  rewrite Et in *. fold kTrailerSize. rewrite Z.eqb_refl, andb_false_r.
  destruct (doRead_ok kTrailer _ i1 kTrailerSize eq_refl Hi1) as (i2 & -> & _).
  cbn [mbind option_bind negb]. reflexivity.
Qed.

Lemma extract_members fileName es : forall fuel trailer tail i,
  Forall (fun e => member_ok e /\ e_name e <> kTrailer) es ->
  member_ok trailer -> e_name trailer = kTrailer -> c_string fileName ->
  has i (flat_map member_bytes es ++ member_bytes trailer ++ tail) ->
  (length es < fuel)%nat ->
  extract_loop fuel fileName i =
    Some match find_member fileName es with
         | Some d => {| ex_ok := true; ex_out := Some d; ex_size := zlen d; ex_errno := None |}
         | None => not_extracted None
         end.
Proof.
  induction es as [|e es IH]; intros fuel trailer tail i Hes Ht Et Hfn Hi Hf;
    (destruct fuel as [|fuel]; [cbn in Hf; lia|]).
  - cbn [find_member]. cbn [flat_map app] in Hi. by eapply extract_trailer.
  - apply Forall_cons in Hes as [[He Hne] Hes]. cbn [flat_map] in Hi. rewrite <- app_assoc in Hi.
    pose proof (extract_member fuel fileName e _ i He Hne Hfn Hi) as Hm. cbn [find_member].
    destruct (found_at fileName e); [done|]. destruct Hm as (i' & Hi' & ->).
    eapply IH; eauto. cbn in Hf. lia.
Qed.

End stream.

(** ** Properties *)

(** C15: searching an archive written in the cpio format answers the data of
    the first member of that name that holds data, whatever its other header
    fields, how zlib cuts its reads and what follows the trailer; without such
    a member the search fails and leaves [errno] alone.  (An empty member is
    found as well when its name has ten characters.)  One unit of fuel for
    each member and one for the trailer are enough. *)
Theorem extract_written {S} `{!GzFile S} (gz_rest : S -> bytes) `{!GzLaws S gz_rest}
    fuel fileName es trailer tail (s : S) :
  Forall (fun e => member_ok e /\ e_name e <> kTrailer) es ->
  member_ok trailer -> e_name trailer = kTrailer -> c_string fileName ->
  gz_rest s = flat_map member_bytes es ++ member_bytes trailer ++ tail ->
  (length es < fuel)%nat ->
  android_extractRamdiskFile fuel (inr s) fileName =
    Some match find_member fileName es with
         | Some d => {| ex_ok := true; ex_out := Some d; ex_size := zlen d; ex_errno := None |}
         | None => not_extracted None
         end.
Proof. intros. unfold android_extractRamdiskFile. by eapply (extract_members gz_rest). Qed.

(** ** Witnesses *)

(** A file in memory, read at most three bytes at a time. *)
#[local] Instance test_gz : GzFile bytes := {
  gzread n s := let b := take (Z.to_nat (Z.min n 3)) s in (zlen b, b, drop (Z.to_nat (Z.min n 3)) s);
  gzeof s := match s with [] => true | _ => false end;
  gzerror s := 0;
  gzseek n s := (0, drop (Z.to_nat n) s);
}.

#[local] Instance test_gz_laws : GzLaws bytes id.
Proof.
  split.
  - intros n s Hn. cbn [gzread gzeof test_gz]. eexists _, _. split; [done|]. unfold id.
    rewrite take_drop. split; [done|]. split.
    + unfold zlen. rewrite length_take. lia.
    + destruct (Z.to_nat (Z.min n 3)) eqn:E; [lia|]. by destruct s.
  - intros n s Hn. by eexists.
Qed.

Definition test_member (name data : bytes) : member :=
  {| e_before := [1; 33188; 0; 0; 1; 0]; e_between := [0; 0; 0; 0]; e_check := 0;
     e_name := name; e_data := data |}.

Definition test_archive : list member :=
  [test_member (str "init") (str "#!"); test_member (str "fstab") []; test_member (str "fstab") (str "/data ext4")].

Lemma extract_written_witness :
  android_extractRamdiskFile 4
    (inr (flat_map member_bytes test_archive ++ member_bytes (test_member kTrailer []) ++ [1; 2]))
    (str "fstab") =
  Some {| ex_ok := true; ex_out := Some (str "/data ext4"); ex_size := 10; ex_errno := None |}.
Proof.
  rewrite (extract_written id 4 (str "fstab") test_archive (test_member kTrailer []) [1; 2]);
    [reflexivity| | |reflexivity| |reflexivity|].
  - repeat constructor; try done; cbn; lia.
  - split; try done; repeat constructor; done.
  - repeat constructor; done.
  - cbn. lia.
Defined.
