(* ===== verification/Fstab.v ===== *)
(** * The fstab of the ramdisk

    Models [android/filesystems/src/android/filesystems/fstab_parser.cpp]: the
    format of a partition is looked up in an fstab file by its mount point.
    The file is a C++ string: a zero follows its bytes. *)

From S2P Require Import Prelude CText.

(** ** The parser *)

Definition skipWhitespace (p : bytes) : bytes := snd (span is_space p).

Definition not_space (c : Z) : bool := negb (is_space c).

Definition skipNonWhitespace (p : bytes) : bytes := snd (span not_space p).

Definition skipExpectedToken (p : bytes) : option bytes :=
  let p := skipWhitespace p in
  match p with [] => None | _ => Some (skipNonWhitespace p) end.

Definition getTokenLen (p : bytes) : Z := zlen p - zlen (skipNonWhitespace p).

(** [strchr(p, '\n')]: the line and what follows it; a zero ends the search. *)
Definition find_newline (p : bytes) : option (bytes * bytes) :=
  match split_at 10 (c_str p) with
  | Some (line, _) => Some (line, drop (S (length line)) p)
  | None => None
  end.

(** What a line decides: to go on, failure, or the format. *)
Inductive line_result := Continue | Malformed | Format (f : bytes).

Definition parse_line (partitionName line : bytes) : line_result :=
  let line := skipWhitespace line in
  if (zlen line =? 0) || (head0 line =? 35) then Continue
  else
    match skipExpectedToken line with
    | None => Continue
    | Some line =>
        let line := skipWhitespace line in
        let tokenLen := getTokenLen line in
        if negb (tokenLen =? zlen partitionName)
           || negb (bytes_eqb (take (Z.to_nat tokenLen) line) partitionName) then Continue
        else
          let line := skipWhitespace (drop (Z.to_nat tokenLen) line) in
          let formatLen := getTokenLen line in
          if formatLen =? 0 then Malformed else Format (take (Z.to_nat formatLen) line)
    end.

(** The loop over the lines; each takes at least one byte. *)
Fixpoint parse_loop (fuel : nat) (partitionName p : bytes) : option bytes :=
  match fuel, p with
  | _, [] => None
  | O, _ => None
  | S fuel, _ =>
      let '(line, p) := match find_newline p with Some r => r | None => (p, []) end in
      match parse_line partitionName line with
      | Continue => parse_loop fuel partitionName p
      | Malformed => None
      | Format f => Some f
      end
  end.

Definition android_parseFstabPartitionFormat (fstabData partitionName : bytes) : option bytes :=
  parse_loop (length fstabData) partitionName fstabData.

(** ** Specification: lines of words *)

Fixpoint words_go (fuel : nat) (s : bytes) : list bytes :=
  match fuel with
  | O => []
  | S fuel =>
      let '(w, r) := span not_space (snd (span is_space s)) in
      match w with [] => [] | _ => w :: words_go fuel r end
  end.

(** The words of a line; a line of [n] bytes has at most [n] of them. *)
Definition words (s : bytes) : list bytes := words_go (length s) s.

Definition is_comment (w : bytes) : bool := head0 w =? 35.

(** The first line that mounts something at the name decides. *)
Fixpoint lookup_mount (name : bytes) (ls : list bytes) : option bytes :=
  match ls with
  | [] => None
  | l :: ls =>
      match words l with
      | dev :: mount :: rest =>
          if negb (is_comment dev) && bytes_eqb mount name then head rest else lookup_mount name ls
      | _ => lookup_mount name ls
      end
  end.

(** ** Lemmas *)

Lemma getTokenLen_spec p : getTokenLen p = zlen (span not_space p).1.
Proof. unfold getTokenLen, skipNonWhitespace. rewrite <- (span_app not_space p) at 1. rewrite zlen_app. lia. Qed.

Lemma take_token p : take (Z.to_nat (getTokenLen p)) p = (span not_space p).1.
Proof.
  rewrite getTokenLen_spec. unfold zlen. rewrite Nat2Z.id. rewrite <- (span_app not_space p) at 2.
  apply take_app_length.
Qed.

Lemma drop_token p : drop (Z.to_nat (getTokenLen p)) p = skipNonWhitespace p.
Proof.
  rewrite getTokenLen_spec. unfold zlen. rewrite Nat2Z.id. rewrite <- (span_app not_space p) at 2.
  apply drop_app_length.
Qed.

(** More fuel does not change the words. *)
Lemma words_go_fuel n : forall m s, (length s <= n)%nat -> (length s <= m)%nat ->
  words_go n s = words_go m s.
Proof.
  induction n as [|n IH]; intros m s Hn Hm.
  - destruct s; [|cbn in Hn; lia]. by destruct m.
  - destruct m as [|m]; [destruct s; [done|cbn in Hm; lia]|]. cbn [words_go].
    pose proof (span_app not_space (span is_space s).2) as E.
    pose proof (span_snd_length is_space s) as Hs.
    destruct (span not_space (span is_space s).2) as [w r]. cbn in E.
    destruct w as [|c w]; [done|]. f_equal.
    apply (f_equal length) in E. cbn in E. rewrite length_app in E. apply IH; lia.
Qed.

Lemma words_unfold s :
  words s = let w := (span not_space (skipWhitespace s)).1 in
            match w with [] => [] | _ => w :: words (skipNonWhitespace (skipWhitespace s)) end.
Proof.
  unfold words, skipWhitespace, skipNonWhitespace. destruct s as [|c s]; [done|].
  change (length (c :: s)) with (S (length s)). cbn [words_go].
  pose proof (span_app not_space (span is_space (c :: s)).2) as E.
  pose proof (span_snd_length is_space (c :: s)) as Hs.
  destruct (span not_space (span is_space (c :: s)).2) as [w r]. cbn [fst snd] in *.
  destruct w as [|x w]; [done|]. f_equal. apply words_go_fuel; [|done].
  apply (f_equal length) in E. cbn in E, Hs. rewrite length_app in E. lia.
Qed.

(** What the parser makes of a line, by its words. *)
Lemma parse_line_words name line :
  name <> [] ->
  parse_line name line =
    match words line with
    | dev :: mount :: rest =>
        if negb (is_comment dev) && bytes_eqb mount name then
          match rest with [] => Malformed | f :: _ => Format f end
        else Continue
    | _ => Continue
    end.
Proof.
  intros Hname. rewrite words_unfold. unfold parse_line, skipExpectedToken.
  assert (forall p, skipWhitespace (skipWhitespace p) = skipWhitespace p) as Hidem.
  { intros p. unfold skipWhitespace. pose proof (span_snd_head is_space p) as Hh.
    destruct (span is_space p).2 as [|x q]; [done|]. cbn. by rewrite Hh. }
  rewrite Hidem. pose proof (span_snd_head is_space line) as Hh. fold (skipWhitespace line) in Hh.
  destruct (skipWhitespace line) as [|c p]; [done|]. cbn [zlen]. rewrite zlen_cons.
  pose proof (zlen_nonneg p). rewrite (proj2 (Z.eqb_neq _ _)) by lia. cbn [orb head0].
  assert (exists w, (span not_space (c :: p)).1 = c :: w) as [w Ew].
  { cbn. unfold not_space at 1. rewrite Hh. cbn. destruct (span not_space p). eauto. }
  rewrite Ew. cbv beta iota zeta. set (q := skipNonWhitespace (c :: p)).
  rewrite (words_unfold q), take_token, drop_token, !getTokenLen_spec. cbn zeta.
  unfold is_comment. cbn [head0]. set (q1 := skipWhitespace q).
  assert (forall t : bytes, negb (zlen t =? zlen name) || negb (bytes_eqb t name) = negb (bytes_eqb t name))
    as Hcmp.
  { intros t. destruct (bytes_eqb_spec t name) as [->|]; [by rewrite Z.eqb_refl|]. apply orb_true_r. }
  rewrite Hcmp. destruct (span not_space q1).1 as [|d w1] eqn:E1.
  { destruct (bytes_eqb_spec [] name); [by subst|]. by destruct (c =? 35). }
  destruct (c =? 35); cbn [negb andb]; [done|].
  destruct (bytes_eqb (d :: w1) name); cbn [negb]; [|done].
  rewrite (words_unfold (skipNonWhitespace q1)). cbn zeta.
  rewrite <- getTokenLen_spec, take_token, getTokenLen_spec.
  destruct (span not_space (skipWhitespace (skipNonWhitespace q1))).1 as [|x f]; [done|].
  rewrite zlen_cons. pose proof (zlen_nonneg f). by rewrite (proj2 (Z.eqb_neq _ _)) by lia.
Qed.

(** The lines of a text: as [getline] cuts it, the last one may be empty. *)
Fixpoint lines_go (fuel : nat) (s : bytes) : list bytes :=
  match fuel with
  | O => [s]
  | S fuel => match split_at 10 s with Some (l, s) => l :: lines_go fuel s | None => [s] end
  end.

Definition lines (s : bytes) : list bytes := lines_go (length s) s.

Lemma find_newline_split p : c_string p -> find_newline p = split_at 10 p.
Proof.
  intros Hp. unfold find_newline. rewrite c_str_id by done.
  destruct (split_at 10 p) as [[line rest]|] eqn:E; [|done].
  apply split_at_Some in E as [-> _]. f_equal. f_equal.
  change (line ++ 10 :: rest) with (line ++ [10] ++ rest). rewrite app_assoc.
  apply drop_app_length'. rewrite length_app. cbn. lia.
Qed.

Lemma lookup_mount_cons name l ls :
  name <> [] ->
  lookup_mount name (l :: ls) =
    match parse_line name l with
    | Continue => lookup_mount name ls
    | Malformed => None
    | Format f => Some f
    end.
Proof.
  intros Hn. rewrite parse_line_words by done. cbn [lookup_mount].
  destruct (words l) as [|dev [|mount rest]]; [done..|].
  destruct (negb (is_comment dev) && bytes_eqb mount name); [|done]. by destruct rest.
Qed.

Lemma parse_loop_lookup name fuel : forall p, name <> [] -> c_string p -> (length p <= fuel)%nat ->
  parse_loop fuel name p = lookup_mount name (lines_go fuel p).
Proof.
  induction fuel as [|fuel IH]; intros p Hn Hp Hf.
  { by destruct p; [|cbn in Hf; lia]. }
  destruct p as [|c p]; [done|]. cbn [parse_loop lines_go]. rewrite find_newline_split by done.
  destruct (split_at 10 (c :: p)) as [[line rest]|] eqn:E; rewrite lookup_mount_cons by done.
  - apply split_at_Some in E as [E _]. rewrite E in Hp. apply Forall_app in Hp as [_ Hp].
    apply Forall_cons in Hp as [_ Hp]. apply (f_equal length) in E. rewrite length_app in E. cbn in E, Hf.
    rewrite IH by (try done; lia). done.
  - destruct (parse_line name (c :: p)); try done. by destruct fuel.
Qed.

(** ** Properties *)

(** The parser finds what the table of the file's lines says: the first
    line that is not a comment and whose second word is the mount point
    decides, by its third word; it fails when the line has none or no line
    is of that mount point. *)
Theorem fstab_lookup fstab name :
  name <> [] -> c_string fstab ->
  android_parseFstabPartitionFormat fstab name = lookup_mount name (lines fstab).
Proof. intros. by apply parse_loop_lookup. Qed.

(** ** Witnesses *)

Definition test_fstab : bytes :=
  str "# <src> /data ext3" ++ [10] ++ str "mtd@system /system yaffs2 ro" ++ [10; 10] ++
  str " /dev/vdc /data  ext4 noatime" ++ [10].

Lemma fstab_lookup_witness :
  android_parseFstabPartitionFormat test_fstab (str "/data") = Some (str "ext4") /\
  android_parseFstabPartitionFormat test_fstab (str "/data") =
    lookup_mount (str "/data") (lines test_fstab).
Proof.
  split; [reflexivity|]. apply (fstab_lookup test_fstab (str "/data")).
  - discriminate.
  - repeat constructor; discriminate.
Defined.
