(* ===== verification/Partition.v ===== *)
(** * Partition images

    Models [android/filesystems/src/android/filesystems/partition_config.cpp],
    [partition_types.cpp] and the default backend of
    [internal/PartitionConfigBackend.cpp]: how the image files of an emulated
    device are checked, created, wiped or replaced by temporary files before
    they are handed to the emulator.

    The operations on host files are an interface ([Backend]), as in the
    source.  A computation answers an error or a value, with the operations it
    made, in order, and the world it leaves. *)

From S2P Require Import Prelude CText Fstab.

(** ** Partition types *)

Inductive AndroidPartitionType :=
  | ANDROID_PARTITION_TYPE_UNKNOWN
  | ANDROID_PARTITION_TYPE_YAFFS2
  | ANDROID_PARTITION_TYPE_EXT4.

#[export] Instance AndroidPartitionType_eq_dec : EqDecision AndroidPartitionType.
Proof. solve_decision. Defined.

Definition kPartitionTypeMap : list (bytes * AndroidPartitionType) :=
  [(str "unknown", ANDROID_PARTITION_TYPE_UNKNOWN);
   (str "yaffs2", ANDROID_PARTITION_TYPE_YAFFS2);
   (str "ext4", ANDROID_PARTITION_TYPE_EXT4)].

Definition androidPartitionType_toString (t : AndroidPartitionType) : bytes :=
  match List.find (fun n => bool_decide (n.2 = t)) kPartitionTypeMap with
  | Some n => n.1
  | None => str "unknown"
  end.

Definition androidPartitionType_fromString (s : bytes) : AndroidPartitionType :=
  match List.find (fun n => bytes_eqb n.1 s) kPartitionTypeMap with
  | Some n => n.2
  | None => ANDROID_PARTITION_TYPE_UNKNOWN
  end.

Inductive AndroidPartitionOpenMode := MUST_EXIST | CREATE_IF_NEEDED | MUST_WIPE.

#[export] Instance AndroidPartitionOpenMode_eq_dec : EqDecision AndroidPartitionOpenMode.
Proof. solve_decision. Defined.

(** ** The host *)

(** A path is [None] where the source has a null pointer. *)
Class Backend (W : Type) := {
  pathExists : option bytes -> W -> bool;
  pathEmptyFile : bytes -> W -> bool * W;
  pathCopyFile : bytes -> bytes -> W -> bool * W;
  pathLockFile : bytes -> W -> bool * W;
  pathCreateTempFile : W -> option bytes * W;
  probePartitionFileType : bytes -> W -> AndroidPartitionType;
  extractRamdiskFile : bytes -> bytes -> W -> option bytes;
  parsePartitionFormat : bytes -> bytes -> option bytes;
  makeEmptyPartition : AndroidPartitionType -> Z -> bytes -> W -> bool * W;
  resizeExt4Partition : option bytes -> Z -> W -> W;
  (** [System] *)
  pathFileSize : option bytes -> W -> option Z;
  pathIsQcow2 : option bytes -> W -> bool;
}.

(** The operations that are recorded. *)
Inductive op :=
  | OpLock (path : bytes) (ok : bool)
  | OpEmpty (path : bytes)
  | OpTemp (path : bytes)
  | OpCopy (dest src : bytes)
  | OpMakeEmpty (t : AndroidPartitionType) (size : Z) (path : bytes) (ok : bool)
  | OpResize (path : option bytes) (size : Z)
  | OpSetup (name : bytes) (size : Z) (path : option bytes) (t : AndroidPartitionType) (readonly : bool).

(** The messages of [partition_config_error]. *)
Inductive part_error :=
  | InvalidSize (name : bytes) (size : Z)
  | MissingInitial (name path : bytes)
  | NoImageFiles (name : bytes)
  | CannotDetermine (name path : bytes)
  | InvalidType (name : bytes) (image expected : AndroidPartitionType)
  | MissingReadOnly (name : bytes) (path : option bytes)
  | MissingImage (name path : bytes)
  | CannotCreate (name path : bytes)
  | NoTempFile (name : bytes)
  | CannotCopy (name : bytes).

(** ** Computations *)

Section monad.
Context {W : Type}.

Definition M (A : Type) : Type := W -> (part_error + A) * list op * W.

Definition ret {A} (x : A) : M A := fun w => (inr x, [], w).
Definition partition_config_error {A} (e : part_error) : M A := fun w => (inl e, [], w).
Definition ask {A} (f : W -> A) : M A := fun w => (inr (f w), [], w).
Definition perform {A} (f : W -> A * W) (o : A -> list op) : M A :=
  fun w => let '(x, w) := f w in (inr x, o x, w).

Definition bind {A B} (m : M A) (k : A -> M B) : M B := fun w =>
  let '(r, ops, w) := m w in
  match r with
  | inl e => (inl e, ops, w)
  | inr x => let '(r, ops', w) := k x w in (r, ops ++ ops', w)
  end.

End monad.

Declare Scope part_scope.
Delimit Scope part_scope with part.
Notation "'do' x <- m ; k" := (bind m (fun x => k))
  (at level 10, x name, m at level 100, k at level 200) : part_scope.
Notation "'do' ' p <- m ; k" := (bind m (fun x => let p := x in k))
  (at level 10, p strict pattern, m at level 100, k at level 200) : part_scope.
#[local] Open Scope part_scope.

(** ** One partition image *)

Section partition.
Context {W : Type} `{Backend W}.

Definition nonempty (p : option bytes) : option bytes :=
  match p with Some [] => None | _ => p end.

(** The probing of the partition type: the type and the mode to go on with. *)
Definition resolve_type (part_name : bytes) (part_type : AndroidPartitionType)
    (part_mode : AndroidPartitionOpenMode) (part_file part_init_file : option bytes)
    : @M W (AndroidPartitionType * AndroidPartitionOpenMode) :=
  do exists_ <- ask (fun w => match part_file with Some _ => pathExists part_file w | None => false end);
  let image_file := if exists_ then part_file else part_init_file in
  match image_file with
  | None =>
      if bool_decide (part_type = ANDROID_PARTITION_TYPE_UNKNOWN)
      then partition_config_error (NoImageFiles part_name)
      else ret (part_type, part_mode)
  | Some image_file =>
      do image_type <- ask (probePartitionFileType image_file);
      if bool_decide (part_type = ANDROID_PARTITION_TYPE_UNKNOWN) then ret (image_type, part_mode)
      else if bool_decide (image_type = ANDROID_PARTITION_TYPE_UNKNOWN)
      then partition_config_error (CannotDetermine part_name image_file)
      else if bool_decide (image_type = part_type) then ret (part_type, part_mode)
      else if bool_decide (part_mode = MUST_EXIST)
      then partition_config_error (InvalidType part_name image_type part_type)
      else ret (part_type, MUST_WIPE)
  end.

(** The lock of the image and, where it is missing, its creation: whether a
    temporary image is needed and whether it must be made empty. *)
Definition lock_image (part_name : bytes) (part_mode : AndroidPartitionOpenMode)
    (part_file : option bytes) (need_make_empty : bool) : @M W (bool * bool) :=
  match part_file with
  | None => ret (true, need_make_empty)
  | Some file =>
      do locked <- perform (pathLockFile file) (fun ok => [OpLock file ok]);
      if negb locked then ret (true, need_make_empty)
      else
        do exists_ <- ask (pathExists part_file);
        if exists_ then ret (false, need_make_empty)
        else if bool_decide (part_mode = MUST_EXIST)
        then partition_config_error (MissingImage part_name file)
        else
          do created <- perform (pathEmptyFile file) (fun _ => [OpEmpty file]);
          if created : bool then ret (false, true)
          else partition_config_error (CannotCreate part_name file)
  end.

Definition temp_image (part_name : bytes) : @M W bytes :=
  do t <- perform pathCreateTempFile (fun t => match t with Some p => [OpTemp p] | None => [] end);
  match t with
  | Some p => ret p
  | None => partition_config_error (NoTempFile part_name)
  end.

(** The file that will back the partition and whether it must be made empty. *)
Definition choose_image (part_name : bytes) (part_mode : AndroidPartitionOpenMode)
    (part_file : option bytes) (need_make_empty : bool) : @M W (bytes * bool) :=
  do '(need_temp, need_make_empty) <- lock_image part_name part_mode part_file need_make_empty;
  match need_temp, part_file with
  | false, Some file => ret (file, need_make_empty)
  | _, _ => do p <- temp_image part_name; ret (p, true)
  end.

(** The image of a partition that is not read-only, after the copy of the
    initial one. *)
Definition prepare_writable (part_name : bytes) (part_mode : AndroidPartitionOpenMode)
    (part_file part_init_file : option bytes) : @M W (bytes * bool) :=
  let need_make_empty := bool_decide (part_mode = MUST_WIPE) in
  let need_make_empty := match part_init_file with Some _ => true | None => need_make_empty end in
  do '(file, need_make_empty) <- choose_image part_name part_mode part_file need_make_empty;
  match part_init_file with
  | None => ret (file, need_make_empty)
  | Some init =>
      do copied <- perform (pathCopyFile file init) (fun _ => [OpCopy file init]);
      if copied : bool then ret (file, false)
      else partition_config_error (CannotCopy part_name)
  end.

(** [makeEmptyPartition] answers a [bool], which the source converts to [int]
    and compares with 0. *)
Definition make_empty (part_name : bytes) (part_type : AndroidPartitionType) (part_size : Z) (file : bytes) : @M W unit :=
  do ok <- perform (makeEmptyPartition part_type part_size file)
             (fun ok => [OpMakeEmpty part_type part_size file ok]);
  let ret_ := if ok : bool then 1 else 0 in
  if ret_ <? 0 then partition_config_error (CannotCreate part_name file) else ret tt.

Definition setup_func (name : bytes) (size : Z) (path : option bytes) (t : AndroidPartitionType)
    (readonly : bool) : @M W unit :=
  perform (fun w => (tt, w)) (fun _ => [OpSetup name size path t readonly]).

(** The files [addNandImage] works with, after its special cases. *)
Definition image_files (part_file part_init_file : option bytes) (readonly : bool)
    : option bytes * option bytes :=
  let part_file := nonempty part_file in
  let part_init_file := nonempty part_init_file in
  let '(part_file, part_init_file) :=
    match readonly, part_file, part_init_file with
    | true, None, Some _ => (part_init_file, None)
    | _, _, _ => (part_file, part_init_file)
    end in
  (match part_file with
   | Some f => if bytes_eqb f (str "<temp>") then None else part_file
   | None => None
   end, part_init_file).

(** The image once its type is known. *)
Definition finish_image (part_name : bytes) (part_type : AndroidPartitionType)
    (part_mode : AndroidPartitionOpenMode) (part_size : Z) (part_file part_init_file : option bytes)
    (readonly : bool) : @M W unit :=
  if readonly then
    do exists_ <- ask (pathExists part_file);
    if exists_ : bool then setup_func part_name part_size part_file part_type true
    else partition_config_error (MissingReadOnly part_name part_file)
  else
    do '(file, need_make_empty) <- prepare_writable part_name part_mode part_file part_init_file;
    do _ <- (if need_make_empty : bool then make_empty part_name part_type part_size file else ret tt);
    setup_func part_name part_size (Some file) part_type false.

Definition addNandImage (part_name : bytes) (part_type : AndroidPartitionType)
    (part_mode : AndroidPartitionOpenMode) (part_size : Z) (part_file part_init_file : option bytes)
    (readonly : bool) : @M W unit :=
  if part_size =? 0 then partition_config_error (InvalidSize part_name part_size)
  else
    do init_ok <- ask (fun w => match nonempty part_init_file with
                                | Some init => pathExists (Some init) w
                                | None => true
                                end);
    match init_ok, nonempty part_init_file with
    | false, Some init => partition_config_error (MissingInitial part_name init)
    | _, _ =>
        let '(part_file, part_init_file) := image_files part_file part_init_file readonly in
        do '(part_type, part_mode) <-
          resolve_type part_name part_type part_mode part_file part_init_file;
        finish_image part_name part_type part_mode part_size part_file part_init_file readonly
    end.

(** ** All the partitions *)

Record AndroidPartitionInfo := { size : Z; path : option bytes; init_path : option bytes }.

Record AndroidPartitionConfiguration := {
  ramdisk_path : bytes;
  fstab_name : bytes;
  system_partition : AndroidPartitionInfo;
  vendor_partition : AndroidPartitionInfo;
  data_partition : AndroidPartitionInfo;
  cache_partition : AndroidPartitionInfo;
  kernel_supports_yaffs2 : bool;
  wipe_data : bool;
  writable_system : bool;
}.

(** The type the fstab names; unknown when it does not. *)
Definition extractPartitionFormat (fstab partitionPath : bytes) : AndroidPartitionType :=
  match parsePartitionFormat fstab partitionPath with
  | Some partFormat => androidPartitionType_fromString (c_str partFormat)
  | None => ANDROID_PARTITION_TYPE_UNKNOWN
  end.

Definition fstab_type (fstab : option bytes) (partitionPath : bytes) : AndroidPartitionType :=
  match fstab with
  | Some fstab => extractPartitionFormat fstab partitionPath
  | None => ANDROID_PARTITION_TYPE_UNKNOWN
  end.

Definition given (p : option bytes) : bool := match p with Some _ => true | None => false end.

Definition wipe_mode (config : AndroidPartitionConfiguration) : AndroidPartitionOpenMode :=
  if wipe_data config then MUST_WIPE else CREATE_IF_NEEDED.

(** Growing the data image to the size of the configuration. *)
Definition resize_data (config : AndroidPartitionConfiguration) (t : AndroidPartitionType) : @M W unit :=
  let info := data_partition config in
  do current <- ask (fun w => match pathFileSize (path info) w with Some n => n | None => size info end);
  do qcow2 <- ask (pathIsQcow2 (path info));
  if (wipe_data config || (current <? size info)) && negb qcow2
     && bool_decide (t = ANDROID_PARTITION_TYPE_EXT4) then
    perform (fun w => (tt, resizeExt4Partition (path info) (size info) w))
      (fun _ => [OpResize (path info) (size info)])
  else ret tt.

Definition add_cache (config : AndroidPartitionConfiguration) (t : AndroidPartitionType) : @M W unit :=
  let info := cache_partition config in
  if given (path info) then
    let t := if bool_decide (t = ANDROID_PARTITION_TYPE_UNKNOWN) then
               if kernel_supports_yaffs2 config then ANDROID_PARTITION_TYPE_YAFFS2
               else ANDROID_PARTITION_TYPE_EXT4
             else t in
    addNandImage (str "cache") t (wipe_mode config) (size info) (path info) None false
  else ret tt.

Definition android_partition_configuration_setup (config : AndroidPartitionConfiguration) : @M W unit :=
  do fstab <- ask (extractRamdiskFile (ramdisk_path config) (fstab_name config));
  let sys := system_partition config in
  do _ <- addNandImage (str "system") (fstab_type fstab (str "/system")) MUST_EXIST
            (size sys) (path sys) (init_path sys) (negb (writable_system config));
  let vendor := vendor_partition config in
  do _ <- (if given (path vendor) || given (init_path vendor) then
             addNandImage (str "vendor") (fstab_type fstab (str "/vendor")) MUST_EXIST
               (size vendor) (path vendor) (init_path vendor) (negb (writable_system config))
           else ret tt);
  let data := data_partition config in
  do _ <- addNandImage (str "userdata") (fstab_type fstab (str "/data")) (wipe_mode config)
            (size data) (path data) (init_path data) false;
  do _ <- resize_data config (fstab_type fstab (str "/data"));
  add_cache config (fstab_type fstab (str "/cache")).

End partition.

(** ** The default backend *)

(** [androidPartitionType_probeFile] and [androidPartitionType_makeEmptyFile]
    over the host's files and the ext4 tools. *)
Class HostFiles (W : Type) := {
  path_exists : bytes -> W -> bool;
  path_empty_file : bytes -> W -> Z * W;
  pathIsExt4PartitionImage : bytes -> W -> bool;
  createEmptyExt4Image : bytes -> Z -> W -> Z * W;
  host_errno : W -> Z;
}.

Section host.
Context {W : Type} `{HostFiles W}.

Definition androidPartitionType_probeFile (image_file : bytes) (w : W) : AndroidPartitionType :=
  if negb (path_exists image_file w) then ANDROID_PARTITION_TYPE_UNKNOWN
  else if pathIsExt4PartitionImage image_file w then ANDROID_PARTITION_TYPE_EXT4
  else ANDROID_PARTITION_TYPE_YAFFS2.

Definition androidPartitionType_makeEmptyFile (part_type : AndroidPartitionType) (part_size : Z)
    (part_file : bytes) (w : W) : Z * W :=
  match part_type with
  | ANDROID_PARTITION_TYPE_YAFFS2 =>
      let '(r, w) := path_empty_file part_file w in
      if r <? 0 then (- host_errno w, w) else (0, w)
  | ANDROID_PARTITION_TYPE_EXT4 => createEmptyExt4Image part_file part_size w
  | ANDROID_PARTITION_TYPE_UNKNOWN => (-22, w)
  end.

Definition default_makeEmptyPartition (t : AndroidPartitionType) (part_size : Z) (file : bytes) (w : W)
    : bool * W :=
  let '(r, w) := androidPartitionType_makeEmptyFile t part_size file w in (negb (r <? 0), w).

Definition default_parsePartitionFormat (fstab mountPath : bytes) : option bytes :=
  f ← android_parseFstabPartitionFormat fstab mountPath; Some (c_str f).

End host.

(** ** Lemmas *)

(** The image file an operation writes. *)
Definition writes (o : op) : option bytes :=
  match o with
  | OpEmpty p | OpCopy p _ | OpMakeEmpty _ _ p _ => Some p
  | _ => None
  end.

Definition is_setup (o : op) : bool := match o with OpSetup _ _ _ _ _ => true | _ => false end.
Definition is_make_empty (o : op) : bool := match o with OpMakeEmpty _ _ _ _ => true | _ => false end.
Definition is_resize (o : op) : bool := match o with OpResize _ _ => true | _ => false end.

(** What has been handed to the emulator: names and whether read-only. *)
Definition setups (ops : list op) : list (bytes * bool) :=
  omap (fun o => match o with OpSetup n _ _ _ ro => Some (n, ro) | _ => None end) ops.

Section facts.
Context {W : Type} `{Backend W}.

(** When the image [p] of a partition may be written. *)
Definition write_allowed (t : AndroidPartitionType) (mode : AndroidPartitionOpenMode)
    (img ini : option bytes) (w : W) (p : bytes) : Prop :=
  img = Some p /\ (pathLockFile p w).1 = true /\
  (is_Some ini \/ mode = MUST_WIPE \/
   (mode <> MUST_EXIST /\ pathExists (Some p) (pathLockFile p w).2 = false) \/
   (mode <> MUST_EXIST /\ t <> ANDROID_PARTITION_TYPE_UNKNOWN /\ probePartitionFileType p w <> t)).

Lemma resolve_type_spec name t mode img ini w :
  exists r, resolve_type name t mode img ini w = (r, [], w) /\
    forall t' mode', r = inr (t', mode') ->
      (t <> ANDROID_PARTITION_TYPE_UNKNOWN -> t' = t) /\
      (mode' = mode \/
       (mode' = MUST_WIPE /\ mode <> MUST_EXIST /\
        (is_Some ini \/ exists p, img = Some p /\ t <> ANDROID_PARTITION_TYPE_UNKNOWN /\
           probePartitionFileType p w <> t))).
Proof.
  unfold resolve_type, bind, ask, ret, partition_config_error.
  repeat (case_bool_decide || case_match); simplify_eq/=; eexists; (split; [reflexivity|]);
    naive_solver.
Qed.

(** Locking: no image is emptied unless it was locked and missing. *)
Lemma lock_image_spec name mode img ne w :
  let '(r, ops, w') := lock_image name mode img ne w in
  Forall (fun o => is_setup o = false /\ is_make_empty o = false /\ is_resize o = false) ops /\
  (forall o p, o ∈ ops -> writes o = Some p ->
     img = Some p /\ (pathLockFile p w).1 = true /\ mode <> MUST_EXIST /\
     pathExists (Some p) (pathLockFile p w).2 = false) /\
  (forall temp ne', r = inr (temp, ne') ->
     (temp = true /\ ne' = ne) \/
     exists p, temp = false /\ img = Some p /\ (pathLockFile p w).1 = true /\
       (ne' = ne \/ (mode <> MUST_EXIST /\ pathExists (Some p) (pathLockFile p w).2 = false))).
Proof.
  unfold lock_image, bind, ask, ret, perform, partition_config_error.
  destruct img as [f|]; [|split_and!; [by constructor|set_solver|naive_solver]].
  destruct (pathLockFile f w) as [ok w1] eqn:El. destruct ok; cbn -[bool_decide];
    [|split_and!; [repeat constructor|set_solver|naive_solver]].
  destruct (pathExists (Some f) w1) eqn:Ee; cbn -[bool_decide].
  { split_and!; [repeat constructor|set_solver|]. intros ? ? [= <- <-]. right. exists f. rewrite El. naive_solver. }
  case_bool_decide as Hm; cbn; [split_and!; [repeat constructor|set_solver|naive_solver]|].
  assert (forall o p, o ∈ [OpLock f true; OpEmpty f] -> writes o = Some p ->
     Some f = Some p /\ (pathLockFile p w).1 = true /\ mode <> MUST_EXIST /\
     pathExists (Some p) (pathLockFile p w).2 = false) as Hw.
  { intros o p Hin Hwr. rewrite !elem_of_cons in Hin. destruct Hin as [->|[->|Hin]]; [done| |set_solver].
    injection Hwr as <-. by rewrite El. }
  destruct (pathEmptyFile f w1) as [[] w2]; cbn;
    (split_and!; [repeat constructor|exact Hw|]); [|naive_solver].
  intros ? ? [= <- <-]. right. exists f. rewrite El. naive_solver.
Qed.

Lemma temp_image_spec name w :
  let '(r, ops, w') := temp_image name w in
  match r with inr p => ops = [OpTemp p] | inl _ => ops = [] end.
Proof.
  unfold temp_image, bind, perform, ret, partition_config_error.
  destruct (pathCreateTempFile w) as [[p|] w1]; done.
Qed.

(** The operations other than the final ones. *)
Definition plain (o : op) : Prop := is_setup o = false /\ is_make_empty o = false /\ is_resize o = false.

(** The image of the partition, temporary or locked. *)
Lemma choose_image_spec name mode img ne w :
  let '(r, ops, w') := choose_image name mode img ne w in
  Forall plain ops /\
  (forall o p, o ∈ ops -> writes o = Some p ->
     img = Some p /\ (pathLockFile p w).1 = true /\ mode <> MUST_EXIST /\
     pathExists (Some p) (pathLockFile p w).2 = false) /\
  (forall f ne', r = inr (f, ne') ->
     OpTemp f ∈ ops \/
     (img = Some f /\ (pathLockFile f w).1 = true /\
      (ne' = ne \/ (mode <> MUST_EXIST /\ pathExists (Some f) (pathLockFile f w).2 = false)))).
Proof.
  pose proof (lock_image_spec name mode img ne w) as Hl. unfold choose_image, bind at 1.
  destruct (lock_image name mode img ne w) as [[r1 ops1] w1]. destruct Hl as (Hp & Hw & Hr).
  destruct r1 as [e|[temp ne1]]; [split_and!; [done|done|done]|].
  destruct (Hr temp ne1 eq_refl) as [[-> ->]|(p & -> & -> & Hlock & Hne)].
  - pose proof (temp_image_spec name w1) as Ht. unfold bind.
    destruct (temp_image name w1) as [[[e|f] ops2] w2]; subst ops2; cbn.
    + rewrite app_nil_r. split_and!; [done|done|done].
    + split_and!.
      * apply Forall_app. split; [done|repeat constructor].
      * intros o q [Hin|Hin]%elem_of_app; [by apply Hw|]. apply list_elem_of_singleton in Hin as ->. done.
      * intros f' ne' [= <- <-]. left. set_solver.
  - cbn. rewrite app_nil_r. split_and!; [done|done|]. intros f ne' [= <- <-]. right. done.
Qed.

Lemma prepare_writable_spec name mode img ini w :
  let '(r, ops, w') := prepare_writable name mode img ini w in
  Forall plain ops /\
  (forall o p, o ∈ ops -> writes o = Some p ->
     OpTemp p ∈ ops \/
     (img = Some p /\ (pathLockFile p w).1 = true /\
      (is_Some ini \/ (mode <> MUST_EXIST /\ pathExists (Some p) (pathLockFile p w).2 = false)))) /\
  (forall f ne, r = inr (f, ne) ->
     OpTemp f ∈ ops \/
     (img = Some f /\ (pathLockFile f w).1 = true /\
      (ne = true -> mode = MUST_WIPE \/
         (mode <> MUST_EXIST /\ pathExists (Some f) (pathLockFile f w).2 = false)))).
Proof.
  unfold prepare_writable. set (ne0 := match ini with Some _ => true | None => _ end).
  pose proof (choose_image_spec name mode img ne0 w) as Hc.
  unfold bind at 1. destruct (choose_image name mode img ne0 w) as [[r1 ops1] w1]. destruct Hc as (Hp & Hw & Hr).
  destruct r1 as [e|[f ne1]]; [split_and!; [done|naive_solver|done]|].
  specialize (Hr f ne1 eq_refl). destruct ini as [init|].
  - unfold bind, perform. destruct (pathCopyFile f init w1) as [ok w2].
    assert (Forall plain (ops1 ++ [OpCopy f init])) as Hp'
      by (apply Forall_app; split; [done|repeat constructor]).
    assert (forall o p, o ∈ ops1 ++ [OpCopy f init] -> writes o = Some p ->
      OpTemp p ∈ ops1 ++ [OpCopy f init] \/
      (img = Some p /\ (pathLockFile p w).1 = true /\
       (is_Some (Some init) \/ (mode <> MUST_EXIST /\ pathExists (Some p) (pathLockFile p w).2 = false)))) as Hw'.
    { intros o p [Hin|Hin]%elem_of_app Ho; [naive_solver|].
      apply list_elem_of_singleton in Hin as ->. injection Ho as <-.
      destruct Hr as [Ht|(-> & ? & _)]; [left; set_solver|right; eauto]. }
    destruct ok; cbn; (split_and!; [done|exact Hw'|]); [|done].
    intros f' ne [= <- <-]. destruct Hr as [Ht|(? & ? & _)]; [left; set_solver|right; done].
  - cbn. rewrite app_nil_r. split_and!; [done|naive_solver|]. intros f' ne [= <- <-].
    destruct Hr as [Ht|(? & ? & Hne)]; [by left|right; split_and!; [done..|]].
    intros ->. destruct Hne as [Hne|Hne]; [left|by right]. unfold ne0 in Hne.
    symmetry in Hne. by apply bool_decide_eq_true in Hne.
Qed.

(** The part after the probing. *)
Lemma finish_image_spec name t mode sz img ini ro w :
  let '(r, ops, w') := finish_image name t mode sz img ini ro w in
  match r with
  | inr _ => exists pre p, ops = pre ++ [OpSetup name sz p t ro] /\
      Forall (fun o => is_setup o = false /\ is_resize o = false) pre
  | inl _ => Forall plain ops
  end /\
  (forall o p, o ∈ ops -> writes o = Some p ->
     ro = false /\
     (OpTemp p ∈ ops \/
      (img = Some p /\ (pathLockFile p w).1 = true /\
       (is_Some ini \/ mode = MUST_WIPE \/
        (mode <> MUST_EXIST /\ pathExists (Some p) (pathLockFile p w).2 = false))))).
Proof.
  unfold finish_image. destruct ro.
  { unfold bind, ask, setup_func, perform, partition_config_error. destruct (pathExists img w); cbn.
    - split; [|intros o p ->%list_elem_of_singleton; done].
      exists [], img. split; [done|constructor].
    - split; [constructor|set_solver]. }
  unfold bind at 1. pose proof (prepare_writable_spec name mode img ini w) as Hpw.
  destruct (prepare_writable name mode img ini w) as [[r1 ops1] w1]. destruct Hpw as (Hp & Hw & Hr).
  destruct r1 as [e|[f ne]].
  { split; [done|]. intros o p Hin Ho. split; [done|]. naive_solver. }
  specialize (Hr f ne eq_refl).
  assert (Forall (fun o => is_setup o = false /\ is_resize o = false) ops1) as Hp'
    by (eapply Forall_impl; [exact Hp|]; intros o (? & ? & ?); done).
  destruct ne; cbn.
  - unfold bind, make_empty, bind, perform, ret, setup_func, perform.
    destruct (makeEmptyPartition t sz f w1) as [ok w2].
    replace ((if ok then 1 else 0) <? 0) with false by (by destruct ok).
    cbn. split.
    + exists (ops1 ++ [OpMakeEmpty t sz f ok]), (Some f). split; [by rewrite <- app_assoc|].
      apply Forall_app. split; [done|repeat constructor].
    + intros o p Hin Ho. split; [done|]. apply elem_of_app in Hin as [Hin|Hin].
      { destruct (Hw o p Hin Ho) as [?|?]; [left; set_solver|naive_solver]. }
      rewrite !elem_of_cons in Hin. destruct Hin as [->|[->|Hin]]; [|done|set_solver].
      injection Ho as <-. destruct Hr as [?|(? & ? & Hm)]; [left; set_solver|].
      right. specialize (Hm eq_refl). naive_solver.
  - split; [by exists ops1, (Some f)|]. intros o p Hin Ho. split; [done|].
    apply elem_of_app in Hin as [Hin|Hin].
    + destruct (Hw o p Hin Ho) as [?|?]; [left; set_solver|naive_solver].
    + apply list_elem_of_singleton in Hin as ->. done.
Qed.

(** A whole image. *)
Lemma addNandImage_spec name t mode sz file init ro w :
  let '(r, ops, w') := addNandImage name t mode sz file init ro w in
  let '(img, ini) := image_files file init ro in
  match r with
  | inr _ => exists pre p t', ops = pre ++ [OpSetup name sz p t' ro] /\
      Forall (fun o => is_setup o = false /\ is_resize o = false) pre /\
      (t <> ANDROID_PARTITION_TYPE_UNKNOWN -> t' = t)
  | inl _ => Forall plain ops
  end /\
  (forall o p, o ∈ ops -> writes o = Some p ->
     ro = false /\ (OpTemp p ∈ ops \/ write_allowed t mode img ini w p)).
Proof.
  unfold addNandImage. destruct (Z.eqb_spec sz 0).
  { cbn. destruct (image_files file init ro). split; [constructor|set_solver]. }
  unfold bind at 1. unfold ask at 1.
  destruct (match nonempty init with Some _ => _ | None => _ end) as [] eqn:Ei; destruct (nonempty init) eqn:En; try done.
  all: destruct (image_files file init ro) as [img ini]; try (cbn; split; [constructor|set_solver]).
  all: match goal with |- context [bind (resolve_type ?a ?b ?c ?d ?e) ?k ?w] =>
         destruct (resolve_type_spec a b c d e w) as (r & E & Hr); unfold bind at 1; rewrite E; clear E end.
  all: destruct r as [e|[t' mode']]; [cbn; split; [constructor|set_solver]|].
  all: destruct (Hr t' mode' eq_refl) as [Ht Hmode]; clear Hr.
  all: cbn [app]; pose proof (finish_image_spec name t' mode' sz img ini ro w) as Hf.
  all: destruct (finish_image name t' mode' sz img ini ro w) as [[r2 ops2] w2]; destruct Hf as [Hf1 Hf2].
  all: split; [destruct r2; naive_solver|].
  all: intros o p Hin Ho; destruct (Hf2 o p Hin Ho) as [-> [Hx|(-> & Hl & Hx)]]; (split; [done|]); [by left|].
  all: right; split; [done|split; [done|naive_solver]].
Qed.

Definition no_resize (ops : list op) : Prop := Forall (fun o => is_resize o = false) ops.

Lemma setups_app a b : setups (a ++ b) = setups a ++ setups b.
Proof. apply omap_app. Qed.

Lemma setups_none ops : Forall (fun o => is_setup o = false) ops -> setups ops = [].
Proof. induction 1 as [|o ops Ho _ IH]; [done|]. by destruct o. Qed.

Lemma addNandImage_setups name t mode sz file init ro w :
  let '(r, ops, w') := addNandImage name t mode sz file init ro w in
  setups ops = match r with inr _ => [(name, ro)] | inl _ => [] end /\ no_resize ops.
Proof.
  pose proof (addNandImage_spec name t mode sz file init ro w) as Hs.
  destruct (addNandImage name t mode sz file init ro w) as [[r ops] w'].
  destruct (image_files file init ro) as [img ini]. destruct Hs as [Hs _]. destruct r as [e|u].
  - split; [apply setups_none|]; (eapply Forall_impl; [exact Hs|]; intros o (? & ? & ?); done).
  - destruct Hs as (pre & p & t' & -> & Hpre & _). unfold no_resize.
    rewrite setups_app, setups_none, Forall_app.
    + split; [done|]. split; [|repeat constructor].
      eapply Forall_impl; [exact Hpre|]. intros o (? & ?). done.
    + eapply Forall_impl; [exact Hpre|]. intros o (? & ?). done.
Qed.

(** A computation that hands over the given partitions, or the first of them
    when it fails. *)
Definition hands_over {A} (all : list (bytes * bool)) (m : @M W A) : Prop :=
  forall w, let '(r, ops, w') := m w in
  match r with
  | inr _ => setups ops = all
  | inl _ => exists rest, rest <> [] /\ all = setups ops ++ rest
  end.

Lemma hands_over_bind {A B} l1 l2 (m : @M W A) (k : A -> @M W B) :
  hands_over l1 m -> (forall x, hands_over l2 (k x)) -> hands_over (l1 ++ l2) (bind m k).
Proof.
  intros Hm Hk w. specialize (Hm w). unfold bind. destruct (m w) as [[[e|x] ops] w1].
  - destruct Hm as (rest & Hne & ->). exists (rest ++ l2). rewrite app_assoc. split; [|done].
    by destruct rest.
  - specialize (Hk x w1). destruct (k x w1) as [[[e|y] ops'] w2]; rewrite setups_app, Hm.
    + destruct Hk as (rest & ? & ->). exists rest. by rewrite app_assoc.
    + by rewrite Hk.
Qed.

Lemma hands_over_image name t mode sz file init ro :
  hands_over [(name, ro)] (addNandImage name t mode sz file init ro).
Proof.
  intros w. pose proof (addNandImage_setups name t mode sz file init ro w) as Hs.
  destruct (addNandImage name t mode sz file init ro w) as [[[e|u] ops] w']; destruct Hs as [Hs _].
  - exists [(name, ro)]. by rewrite Hs.
  - done.
Qed.

Lemma hands_over_ret {A} (x : A) : hands_over [] (ret x).
Proof. by intros w. Qed.

Lemma hands_over_ask {A} (f : W -> A) : hands_over [] (ask f).
Proof. by intros w. Qed.

Lemma hands_over_if (b : bool) {A} l (m1 : @M W A) (x : A) :
  hands_over l m1 -> hands_over (if b then l else []) (if b then m1 else ret x).
Proof. intros Hm. destruct b; [done|apply hands_over_ret]. Qed.

Lemma resize_data_ops config t w :
  exists r ops w', resize_data config t w = (inr r, ops, w') /\ setups ops = [] /\
    (forall p n, OpResize p n ∈ ops -> p = path (data_partition config) /\
       n = size (data_partition config) /\ t = ANDROID_PARTITION_TYPE_EXT4) /\
    (wipe_data config = true -> t = ANDROID_PARTITION_TYPE_EXT4 ->
       pathIsQcow2 (path (data_partition config)) w = false ->
       OpResize (path (data_partition config)) (size (data_partition config)) ∈ ops).
Proof.
  unfold resize_data, bind, ask, perform, ret.
  set (c := (wipe_data config || _) && _ && _). destruct c eqn:E; subst c.
  - eexists _, _, _. split_and!; [done|done| |set_solver].
    apply andb_true_iff in E as [_ E]. apply bool_decide_eq_true in E.
    intros p n Hin. cbn in Hin. apply list_elem_of_singleton in Hin as [= -> ->]. done.
  - eexists _, _, _. split_and!; [done|done|set_solver|]. intros Hw Ht Hq.
    rewrite Hw, Hq, bool_decide_eq_true_2 in E by done. done.
Qed.

Lemma hands_over_resize config t : hands_over [] (resize_data config t).
Proof. intros w. destruct (resize_data_ops config t w) as (r & ops & w' & -> & -> & _). done. Qed.

(** Every operation of a computation satisfies [P]. *)
Definition all_ops {A} (P : op -> Prop) (m : @M W A) : Prop := forall w, Forall P (m w).1.2.

Lemma all_ops_bind {A B} P (m : @M W A) (k : A -> @M W B) :
  all_ops P m -> (forall x, all_ops P (k x)) -> all_ops P (bind m k).
Proof.
  intros Hm Hk w. specialize (Hm w). unfold bind. destruct (m w) as [[[e|x] ops] w1]; [done|].
  specialize (Hk x w1). destruct (k x w1) as [[r ops'] w2]. cbn in *. by apply Forall_app.
Qed.

Lemma all_ops_if (b : bool) {A} P (m : @M W A) (x : A) :
  all_ops P m -> all_ops P (if b then m else ret x).
Proof. intros Hm. destruct b; [done|constructor]. Qed.

Lemma all_ops_image P name t mode sz file init ro :
  (forall o, is_resize o = false -> P o) -> all_ops P (addNandImage name t mode sz file init ro).
Proof.
  intros HP w. pose proof (addNandImage_setups name t mode sz file init ro w) as Hs.
  destruct (addNandImage name t mode sz file init ro w) as [[r ops] w']. destruct Hs as [_ Hs].
  eapply Forall_impl; [exact Hs|]. exact HP.
Qed.

Lemma bind_success {A B} (m : @M W A) (k : A -> @M W B) w y ops w' :
  bind m k w = (inr y, ops, w') ->
  exists x ops1 w1 ops2, m w = (inr x, ops1, w1) /\ k x w1 = (inr y, ops2, w') /\ ops = ops1 ++ ops2.
Proof.
  unfold bind. destruct (m w) as [[[e|x] ops1] w1]; [done|].
  destruct (k x w1) as [[r ops2] w2] eqn:E. intros [= -> <- <-].
  exists x, ops1, w1, ops2. done.
Qed.

End facts.

(** ** Properties *)

(** C16: whatever the host answers, an image file is written only if it is a
    fresh temporary file, or it is the image of the partition, not read-only,
    locked, and an initial image is given, a wipe was asked for, or, unless
    the image must exist, it is missing or not of the expected type.  The
    partition is handed to the emulator once and last on success, with the
    type of the fstab if that is known, and not at all on failure.  A failure
    to make an image empty is not noticed. *)
Theorem addNandImage_safe {W} `{!Backend W} name t mode sz file init ro (w : W) :
  let '(r, ops, w') := addNandImage name t mode sz file init ro w in
  let '(img, ini) := image_files file init ro in
  (forall o p, o ∈ ops -> writes o = Some p ->
     OpTemp p ∈ ops \/
     (ro = false /\ img = Some p /\ (pathLockFile p w).1 = true /\
      (is_Some ini \/ mode = MUST_WIPE \/
       (mode <> MUST_EXIST /\
        (pathExists (Some p) (pathLockFile p w).2 = false \/
         (t <> ANDROID_PARTITION_TYPE_UNKNOWN /\ probePartitionFileType p w <> t)))))) /\
  (ro = true -> Forall (fun o => writes o = None) ops) /\
  match r with
  | inr _ => exists pre p t', ops = pre ++ [OpSetup name sz p t' ro] /\ setups pre = [] /\
      (t <> ANDROID_PARTITION_TYPE_UNKNOWN -> t' = t)
  | inl _ => setups ops = [] /\ Forall (fun o => is_make_empty o = false) ops
  end.
Proof.
  pose proof (addNandImage_spec name t mode sz file init ro w) as Hs.
  destruct (addNandImage name t mode sz file init ro w) as [[r ops] w'].
  destruct (image_files file init ro) as [img ini]. destruct Hs as [Hs Hw]. split_and!.
  - intros o p Hin Ho. destruct (Hw o p Hin Ho) as [-> [?|(? & ? & ?)]]; [by left|right]. naive_solver.
  - intros ->. apply Forall_forall. intros o Hin. destruct (writes o) as [p|] eqn:Ho; [|done].
    by destruct (Hw o p Hin Ho).
  - destruct r as [e|u].
    + split; [apply setups_none|]; (eapply Forall_impl; [exact Hs|]; intros o (? & ? & ?); done).
    + destruct Hs as (pre & p & t' & -> & Hpre & Ht). exists pre, p, t'. split_and!; [done| |done].
      apply setups_none. eapply Forall_impl; [exact Hpre|]. intros o (? & ?). done.
Qed.

(** The partitions are handed over in the order system, vendor, userdata,
    cache, the optional ones if they are configured, the first two read-only
    unless the system is writable; an error stops before the failing one.
    The data image alone is resized, to its configured size and only if the
    fstab says ext4; with a wipe it always is, unless it is a qcow2 image,
    even when it could not be locked and a temporary image took its place. *)
Theorem setup_partitions {W} `{!Backend W} config (w : W) :
  let '(r, ops, w') := android_partition_configuration_setup config w in
  let data := data_partition config in
  let fstab := extractRamdiskFile (ramdisk_path config) (fstab_name config) w in
  let ro := negb (writable_system config) in
  let vendor := vendor_partition config in
  let all := [(str "system", ro)] ++
             (if given (path vendor) || given (init_path vendor) then [(str "vendor", ro)] else []) ++
             [(str "userdata", false)] ++
             (if given (path (cache_partition config)) then [(str "cache", false)] else []) in
  match r with
  | inr _ => setups ops = all
  | inl _ => exists rest, rest <> [] /\ all = setups ops ++ rest
  end /\
  (forall p n, OpResize p n ∈ ops ->
     p = path data /\ n = size data /\ fstab_type fstab (str "/data") = ANDROID_PARTITION_TYPE_EXT4) /\
  (r = inr tt -> wipe_data config = true ->
   fstab_type fstab (str "/data") = ANDROID_PARTITION_TYPE_EXT4 ->
   (forall w, pathIsQcow2 (path data) w = false) -> OpResize (path data) (size data) ∈ ops).
Proof.
  unfold android_partition_configuration_setup. cbn zeta. unfold bind at 1, ask at 1.
  set (fstab := extractRamdiskFile _ _ w). set (t := fstab_type fstab (str "/data")).
  match goal with |- context [bind ?m0 ?k0 w] => set (m := m0); set (k := k0) end.
  match goal with |- context [setups _ = ?l] => set (all := l) end.
  assert (hands_over all (bind m k)) as Hall.
  { subst m k all. apply hands_over_bind; [apply hands_over_image|intros _].
    apply hands_over_bind; [apply hands_over_if, hands_over_image|intros _].
    apply hands_over_bind; [apply hands_over_image|intros _].
    apply (hands_over_bind []); [apply hands_over_resize|intros _].
    apply hands_over_if, hands_over_image. }
  assert (all_ops (fun o => forall p n, o = OpResize p n -> p = path (data_partition config) /\
    n = size (data_partition config) /\ t = ANDROID_PARTITION_TYPE_EXT4) (bind m k)) as Hres.
  { assert (forall o, is_resize o = false -> forall p n, o = OpResize p n ->
      p = path (data_partition config) /\ n = size (data_partition config) /\
      t = ANDROID_PARTITION_TYPE_EXT4) as Hno by (intros o Ho p n ->; done).
    subst m k. repeat (apply all_ops_bind; [|intros _]); try (by apply all_ops_image);
      try (by apply all_ops_if, all_ops_image).
    intros w0. destruct (resize_data_ops config t w0) as (r & ops & w' & -> & _ & Hr & _). cbn.
    apply Forall_forall. intros o Hin p n ->. by apply Hr. }
  specialize (Hall w). specialize (Hres w).
  destruct (bind m k w) as [[r ops] w'] eqn:E. cbn in Hres. cbn [app]. split_and!; [exact Hall| |].
  - intros p n Hin. rewrite Forall_forall in Hres. by apply (Hres _ Hin).
  - intros -> Hwipe Ht Hq. subst m k.
    repeat (apply bind_success in E as (? & ? & ? & ? & ? & E & ->)).
    match goal with Hd : resize_data _ _ ?w1 = _ |- _ =>
      destruct (resize_data_ops config t w1) as (? & ? & ? & Hd' & _ & _ & Hin);
      fold t in Hd; rewrite Hd in Hd' end. simplify_eq. set_solver.
Qed.

(** ** Examples *)

(** A host in memory: the images that exist, with their types; the image
    "locked" is in use elsewhere and no empty partition can be made. *)
Definition test_host : Type := list (bytes * AndroidPartitionType).

Definition test_find (p : bytes) (w : test_host) : option AndroidPartitionType :=
  snd <$> List.find (fun f => bytes_eqb f.1 p) w.

#[local] Instance test_backend : Backend test_host := {
  pathExists p w := match p with Some p => bool_decide (is_Some (test_find p w)) | None => false end;
  pathEmptyFile p w := (true, (p, ANDROID_PARTITION_TYPE_YAFFS2) :: w);
  pathCopyFile d s w := (true, w);
  pathLockFile p w := (negb (bytes_eqb p (str "locked")), w);
  pathCreateTempFile w := (Some (str "temp"), w);
  probePartitionFileType p w := default ANDROID_PARTITION_TYPE_UNKNOWN (test_find p w);
  extractRamdiskFile _ _ _ := Some (str "/dev/vdc /data ext4");
  parsePartitionFormat := default_parsePartitionFormat;
  makeEmptyPartition _ _ _ w := (false, w);
  resizeExt4Partition _ _ w := w;
  pathFileSize _ _ := None;
  pathIsQcow2 _ _ := false;
}.

Definition test_config : AndroidPartitionConfiguration :=
  {| ramdisk_path := str "ramdisk.img"; fstab_name := str "fstab.ranchu";
     system_partition := {| size := 10; path := None; init_path := Some (str "system.img") |};
     vendor_partition := {| size := 0; path := None; init_path := None |};
     data_partition := {| size := 20; path := Some (str "locked"); init_path := None |};
     cache_partition := {| size := 0; path := None; init_path := None |};
     kernel_supports_yaffs2 := false; wipe_data := true; writable_system := false |}.

Definition test_world : test_host :=
  [(str "system.img", ANDROID_PARTITION_TYPE_EXT4); (str "locked", ANDROID_PARTITION_TYPE_EXT4)].

(** The failure to format the temporary image goes unnoticed, and the image
    in use elsewhere is resized. *)
Example setup_example :
  (android_partition_configuration_setup test_config test_world).1 =
  (inr tt,
   [OpSetup (str "system") 10 (Some (str "system.img")) ANDROID_PARTITION_TYPE_EXT4 true;
    OpLock (str "locked") false; OpTemp (str "temp");
    OpMakeEmpty ANDROID_PARTITION_TYPE_EXT4 20 (str "temp") false;
    OpSetup (str "userdata") 20 (Some (str "temp")) ANDROID_PARTITION_TYPE_EXT4 false;
    OpResize (Some (str "locked")) 20]).
Proof. vm_compute. reflexivity. Qed.
