(* ===== verification/Touch.v ===== *)
(** * Touch and pen input

    Models [emulator/android-grpc/services/emulator-controller/input]: the
    registry of multi-touch slots ([SlotRegistry.cpp]) and the translation of
    touches and pens to evdev events ([PointerEventDispatcher.cpp]).  The codes
    of Linux are kept as names; the clock is an interface. *)

From S2P Require Import Prelude.

(** ** Events *)

Inductive evtype := EV_SYN | EV_KEY | EV_ABS.

Inductive evcode :=
  | ABS_MT_SLOT | ABS_MT_TOUCH_MAJOR | ABS_MT_TOUCH_MINOR | ABS_MT_ORIENTATION
  | ABS_MT_POSITION_X | ABS_MT_POSITION_Y | ABS_MT_TOOL_TYPE | ABS_MT_TRACKING_ID
  | ABS_MT_PRESSURE | BTN_STYLUS | BTN_TOOL_RUBBER | SYN_REPORT.

#[export] Instance evcode_eq_dec : EqDecision evcode.
Proof. solve_decision. Defined.

Record EvDevEvent := Ev { type : evtype; code : evcode; value : Z }.

(** [absl::Now]. *)
Class Clock (W : Type) := { Now : W -> Z * W }.

(** ** The slot registry *)

Definition MTS_POINTERS_NUM : Z := 10.
Definition MTS_POINTER_UP : Z := u32 (-1).

(** The maps are keyed by [int]. *)
Record SlotRegistry := {
  mUsedSlots : gset Z;
  mIdMap : gmap Z Z;
  mIdLastUsedEpoch : gmap Z Z;
  mSlotExpiration : Z;
}.

Definition kTOUCH_EXPIRE_AFTER_120S : Z := 120000000000.

Definition new_registry : SlotRegistry :=
  {| mUsedSlots := ∅; mIdMap := ∅; mIdLastUsedEpoch := ∅; mSlotExpiration := kTOUCH_EXPIRE_AFTER_120S |}.

Definition findNextFreeSlot (r : SlotRegistry) : Z :=
  match List.find (fun i => negb (bool_decide (i ∈ mUsedSlots r))) (seqZ 0 MTS_POINTERS_NUM) with
  | Some i => i
  | None => -1
  end.

Section registry.
Context {W : Type} `{Clock W}.

Definition acquireSlot (identifier : Z) (r : SlotRegistry) (w : W) : Z * SlotRegistry * W :=
  let id := s32 identifier in
  match mIdMap r !! id with
  | None =>
      let slot := findNextFreeSlot r in
      if slot <? 0 then (slot, r, w)
      else
        let '(now, w) := Now w in
        (slot,
         {| mUsedSlots := {[slot]} ∪ mUsedSlots r;
            mIdMap := <[id := slot]> (mIdMap r);
            mIdLastUsedEpoch := <[id := now + mSlotExpiration r]> (mIdLastUsedEpoch r);
            mSlotExpiration := mSlotExpiration r |}, w)
  | Some slot => (slot, r, w)
  end.

Definition isIdentifierRegistered (identifier : Z) (r : SlotRegistry) : bool :=
  bool_decide (is_Some (mIdMap r !! s32 identifier)).

(** Nothing in the dispatcher calls it. *)
Definition updateSlotExpiration (identifier : Z) (r : SlotRegistry) (w : W) : SlotRegistry * W :=
  let '(now, w) := Now w in
  ({| mUsedSlots := mUsedSlots r; mIdMap := mIdMap r;
      mIdLastUsedEpoch := <[s32 identifier := now + mSlotExpiration r]> (mIdLastUsedEpoch r);
      mSlotExpiration := mSlotExpiration r |}, w).

Definition drop_id (id slot : Z) (r : SlotRegistry) : SlotRegistry :=
  {| mUsedSlots := mUsedSlots r ∖ {[slot]}; mIdMap := delete id (mIdMap r);
     mIdLastUsedEpoch := delete id (mIdLastUsedEpoch r); mSlotExpiration := mSlotExpiration r |}.

Definition releaseSlot (identifier : Z) (r : SlotRegistry) : SlotRegistry :=
  let id := s32 identifier in
  match mIdMap r !! id with
  | None => r
  | Some slot => drop_id id slot r
  end.

Definition setSlotExpiration (d : Z) (r : SlotRegistry) : SlotRegistry :=
  {| mUsedSlots := mUsedSlots r; mIdMap := mIdMap r; mIdLastUsedEpoch := mIdLastUsedEpoch r;
     mSlotExpiration := d |}.

(** The loop over the deadlines; [operator[]] makes a missing slot 0.  The
    order of a hash map is unspecified: here it is that of [map_to_list]. *)
Fixpoint expire_loop (now : Z) (ids : list (Z * Z)) (r : SlotRegistry) : list EvDevEvent * SlotRegistry :=
  match ids with
  | [] => ([], r)
  | (id, deadline) :: ids =>
      if deadline <? now then
        let removeSlot := default 0 (mIdMap r !! id) in
        let '(evs, r) := expire_loop now ids (drop_id id removeSlot r) in
        (Ev EV_ABS ABS_MT_SLOT removeSlot :: Ev EV_ABS ABS_MT_TRACKING_ID MTS_POINTER_UP :: evs, r)
      else expire_loop now ids r
  end.

Definition expireOldSlots (r : SlotRegistry) (w : W) : list EvDevEvent * SlotRegistry * W :=
  let '(now, w) := Now w in
  let '(evs, r) := expire_loop now (map_to_list (mIdLastUsedEpoch r)) r in (evs, r, w).

(** ** Touches and pens *)

Record Touch := {
  x : Z; y : Z; identifier : Z; pressure : Z; touch_major : Z; touch_minor : Z; orientation : Z;
}.

Record Pen := { touch : Touch; button_pressed : bool; rubber_pointer : bool }.

Definition scaleAxis (v min_in max_in : Z) : Z :=
  let min_out := 0 in
  let range_out := 32767 in
  let range_in := u32 (u32 max_in - min_in) in
  if range_in <? 1 then min_out + range_out / 2
  else u32 (u32 (u32 (u32 v - min_in) * range_out) / range_in + min_out).

Definition opt_event (c : evcode) (v : Z) : list EvDevEvent := if 0 <? v then [Ev EV_ABS c v] else [].

(** [slot] is a [uint32_t]. *)
Definition Touch_toEvDevEvents (width height : Z) (t : Touch) (r : SlotRegistry) (w : W)
    : list EvDevEvent * SlotRegistry * W :=
  let isRegistered := isIdentifierRegistered (identifier t) r in
  if (pressure t =? 0) && negb isRegistered then ([], r, w)
  else
    let '(slot, r, w) := acquireSlot (identifier t) r w in
    let slot := u32 slot in
    if slot <? 0 then ([], r, w)
    else
      let dx := scaleAxis (s32 (x t)) 0 width in
      let dy := scaleAxis (s32 (y t)) 0 height in
      let events :=
        (if negb isRegistered then [Ev EV_ABS ABS_MT_TRACKING_ID slot] else []) ++
        [Ev EV_ABS ABS_MT_SLOT slot] ++
        opt_event ABS_MT_TOUCH_MAJOR (touch_major t) ++ opt_event ABS_MT_TOUCH_MINOR (touch_minor t) ++
        opt_event ABS_MT_ORIENTATION (orientation t) ++
        [Ev EV_ABS ABS_MT_PRESSURE (pressure t); Ev EV_ABS ABS_MT_POSITION_X dx;
         Ev EV_ABS ABS_MT_POSITION_Y dy] in
      if pressure t =? 0 then
        (events ++ [Ev EV_ABS ABS_MT_TRACKING_ID MTS_POINTER_UP; Ev EV_ABS ABS_MT_ORIENTATION 0],
         releaseSlot (identifier t) r, w)
      else (events, r, w).

(** [MT_TOOL_PEN] and [MT_TOOL_MAX] of Linux. *)
Context (MT_TOOL_PEN MT_TOOL_MAX : Z).

Definition Pen_toEvDevEvents (width height : Z) (p : Pen) (r : SlotRegistry) (w : W)
    : list EvDevEvent * SlotRegistry * W :=
  let ev_dev_pressed := if button_pressed p then 1 else 0 in
  let events :=
    (if rubber_pointer p then
       [Ev EV_ABS ABS_MT_TOOL_TYPE MT_TOOL_MAX; Ev EV_KEY BTN_TOOL_RUBBER ev_dev_pressed]
     else [Ev EV_ABS ABS_MT_TOOL_TYPE MT_TOOL_PEN]) ++ [Ev EV_KEY BTN_STYLUS ev_dev_pressed] in
  let '(touches, r, w) := Touch_toEvDevEvents width height (touch p) r w in
  (events ++ touches, r, w).

(** The messages of the protocol, and their translation. *)
Record proto_touch := {
  pt_x : Z; pt_y : Z; pt_identifier : Z; pt_pressure : Z; pt_major : Z; pt_minor : Z; pt_orientation : Z;
}.

Definition touch_fromProto (p : proto_touch) : Touch :=
  {| x := u32 (pt_x p); y := u32 (pt_y p); identifier := u32 (pt_identifier p);
     pressure := u32 (pt_pressure p); touch_major := u32 (pt_major p);
     touch_minor := u32 (pt_minor p); orientation := u32 (pt_orientation p) |}.

Definition penid : Z := 10.

Definition pen_fromProto (p : proto_touch * bool * bool) : Pen :=
  let '(loc, pressed, rubber) := p in
  let t := touch_fromProto loc in
  {| touch := {| x := x t; y := y t; identifier := penid; pressure := pressure t;
                 touch_major := touch_major t; touch_minor := touch_minor t;
                 orientation := orientation t |};
     button_pressed := pressed; rubber_pointer := rubber |}.

(** ** The dispatcher *)

Inductive pointer_event :=
  | MultiTouchEvent (touches : list Touch)
  | PenTouchEvent (pens : list Pen).

Fixpoint send_each {A} (f : A -> SlotRegistry -> W -> list EvDevEvent * SlotRegistry * W) (l : list A)
    (r : SlotRegistry) (w : W) : list EvDevEvent * SlotRegistry * W :=
  match l with
  | [] => ([], r, w)
  | a :: l =>
      let '(evs, r, w) := f a r w in
      let '(evs', r, w) := send_each f l r w in (evs ++ evs', r, w)
  end.

(** What goes to the display, of the given size. *)
Definition sendEvents (width height : Z) (e : pointer_event) (r : SlotRegistry) (w : W)
    : list EvDevEvent * SlotRegistry * W :=
  let '(evs, r, w) :=
    match e with
    | MultiTouchEvent ts => send_each (Touch_toEvDevEvents width height) ts r w
    | PenTouchEvent ps => send_each (Pen_toEvDevEvents width height) ps r w
    end in
  let '(expired, r, w) := expireOldSlots r w in
  (evs ++ expired ++ [Ev EV_SYN SYN_REPORT 0], r, w).

End registry.

(** ** Specifications *)

(** Identifiers and used slots correspond one to one, and exactly the
    identifiers with a slot have a deadline. *)
Record RegOk (r : SlotRegistry) : Prop := {
  ok_inj : forall a b s, mIdMap r !! a = Some s -> mIdMap r !! b = Some s -> a = b;
  ok_used : forall s, s ∈ mUsedSlots r <-> exists a, mIdMap r !! a = Some s;
  ok_range : forall a s, mIdMap r !! a = Some s -> 0 <= s < MTS_POINTERS_NUM;
  ok_deadlines : forall a, is_Some (mIdMap r !! a) <-> is_Some (mIdLastUsedEpoch r !! a);
}.

(** The receiver of Linux's multi-touch protocol B: a slot is selected, and
    tracking ids, where -1 lifts the contact, go to the selected slot. *)
Record Guest := { g_slot : Z; g_tracking : gmap Z Z }.

Definition guest_step (g : Guest) (e : EvDevEvent) : Guest :=
  match code e with
  | ABS_MT_SLOT =>
      if (0 <=? value e) && (value e <? MTS_POINTERS_NUM)
      then {| g_slot := value e; g_tracking := g_tracking g |} else g
  | ABS_MT_TRACKING_ID =>
      {| g_slot := g_slot g;
         g_tracking := if value e =? MTS_POINTER_UP then delete (g_slot g) (g_tracking g)
                       else <[g_slot g := value e]> (g_tracking g) |}
  | _ => g
  end.

Definition guest_run (g : Guest) (es : list EvDevEvent) : Guest := fold_left guest_step es g.

(** ** Lemmas *)

Lemma findNextFreeSlot_spec r :
  (findNextFreeSlot r = -1 /\ forall s, 0 <= s < MTS_POINTERS_NUM -> s ∈ mUsedSlots r) \/
  (0 <= findNextFreeSlot r < MTS_POINTERS_NUM /\ findNextFreeSlot r ∉ mUsedSlots r).
Proof.
  unfold findNextFreeSlot. destruct (List.find _ _) as [i|] eqn:E.
  - right. apply List.find_some in E as [Hin Hf]. apply list_elem_of_In, elem_of_seqZ in Hin.
    apply negb_true_iff, bool_decide_eq_false in Hf. split; [lia|done].
  - left. split; [done|]. intros s Hs. pose proof (List.find_none _ _ E s) as Hf.
    assert (negb (bool_decide (s ∈ mUsedSlots r)) = false) as Hn
      by (apply Hf, list_elem_of_In, elem_of_seqZ; lia).
    by apply negb_false_iff, bool_decide_eq_true in Hn.
Qed.

Lemma new_registry_ok : RegOk new_registry.
Proof.
  split; cbn.
  - intros a b s Ha. by rewrite lookup_empty in Ha.
  - intros s. split; [set_solver|]. intros [a Ha]. by rewrite lookup_empty in Ha.
  - intros a s Ha. by rewrite lookup_empty in Ha.
  - intros a. by rewrite !lookup_empty.
Qed.

Lemma RegOk_size r : RegOk r -> (size (mIdMap r) <= 10)%nat.
Proof.
  intros []. pose (l := (map_to_list (mIdMap r)).*2).
  assert (NoDup l) as Hnd.
  { apply NoDup_fmap_2_strong; [|apply NoDup_map_to_list].
    intros [a s] [b s'] Ha Hb E. cbn in E. subst s'.
    apply elem_of_map_to_list in Ha, Hb. by rewrite (ok_inj0 a b s). }
  assert (length l = size (mIdMap r)) as <-.
  { unfold l. rewrite length_fmap. apply length_map_to_list. }
  change 10%nat with (length (seqZ 0 MTS_POINTERS_NUM)). apply submseteq_length, NoDup_submseteq; [done|].
  intros s Hin. apply list_elem_of_fmap in Hin as ([a s'] & -> & Hin).
  apply elem_of_map_to_list in Hin. apply elem_of_seqZ. cbn. apply ok_range0 in Hin. lia.
Qed.

Lemma drop_id_ok id slot r : RegOk r -> mIdMap r !! id = Some slot -> RegOk (drop_id id slot r).
Proof.
  intros [] Hid. split; cbn.
  - intros a b s. rewrite !lookup_delete_Some. intros [_ Ha] [_ Hb]. eauto.
  - intros s. rewrite elem_of_difference, not_elem_of_singleton, ok_used0. split.
    + intros [[a Ha] Hne]. exists a. rewrite lookup_delete_Some. split; [|done]. intros <-. congruence.
    + intros [a [Hne Ha]%lookup_delete_Some]. split; [eauto|]. intros ->. by apply Hne, (ok_inj0 _ _ slot).
  - intros a s [_ Ha]%lookup_delete_Some. eauto.
  - intros a. destruct (decide (a = id)) as [->|Hne].
    + rewrite !lookup_delete_eq. done.
    + rewrite !lookup_delete_ne by done. done.
Qed.

Lemma add_id_ok id slot d r :
  RegOk r -> mIdMap r !! id = None -> 0 <= slot < MTS_POINTERS_NUM -> slot ∉ mUsedSlots r ->
  RegOk {| mUsedSlots := {[slot]} ∪ mUsedSlots r; mIdMap := <[id := slot]> (mIdMap r);
           mIdLastUsedEpoch := <[id := d]> (mIdLastUsedEpoch r); mSlotExpiration := mSlotExpiration r |}.
Proof.
  intros [] Hid Hs Hfree. assert (forall a, mIdMap r !! a <> Some slot) as Hno by (intros a Ha; apply Hfree, ok_used0; eauto).
  split; cbn.
  - intros a b s. rewrite !lookup_insert_Some. naive_solver.
  - intros s. rewrite elem_of_union, elem_of_singleton, ok_used0. split.
    + intros [->|[a Ha]]; [exists id; apply lookup_insert_eq|].
      exists a. rewrite lookup_insert_ne by congruence. done.
    + intros [a Ha]. rewrite lookup_insert_Some in Ha. naive_solver.
  - intros a s. rewrite lookup_insert_Some. naive_solver.
  - intros a. rewrite !lookup_insert_is_Some, ok_deadlines0. done.
Qed.

Lemma expire_loop_ok now ids : forall r,
  RegOk r -> NoDup ids.*1 -> (forall id d, (id, d) ∈ ids -> is_Some (mIdMap r !! id)) ->
  RegOk (expire_loop now ids r).2.
Proof.
  induction ids as [|[id d] ids IH]; intros r Hok Hnd Hin; [done|]. cbn [expire_loop].
  cbn in Hnd. apply NoDup_cons in Hnd as [Hnin Hnd]. destruct (d <? now).
  - destruct (Hin id d) as [slot Hs]; [set_solver|]. rewrite Hs. cbn [default].
    assert (RegOk (expire_loop now ids (drop_id id slot r)).2) as Hr.
    { apply IH; [by apply drop_id_ok|done|]. intros id' d' Hid. cbn.
      rewrite lookup_delete_ne; [apply (Hin id' d'); set_solver|].
      intros <-. apply Hnin, list_elem_of_fmap. by exists (id, d'). }
    cbn. by destruct (expire_loop now ids (drop_id id slot r)).
  - apply IH; [done|done|]. intros id' d' Hid. apply (Hin id' d'). set_solver.
Qed.

Section facts.
Context {W : Type} `{Clock W}.

Lemma expireOldSlots_ok r w : RegOk r -> RegOk (expireOldSlots r w).1.2.
Proof.
  intros Hok. unfold expireOldSlots. destruct (Now w) as [now w1].
  pose proof (expire_loop_ok now (map_to_list (mIdLastUsedEpoch r)) r Hok) as Hr.
  destruct (expire_loop _ _ _) as [evs r1]. apply Hr; [apply NoDup_fst_map_to_list|].
  intros id d Hin. apply elem_of_map_to_list in Hin. apply (ok_deadlines r Hok). eauto.
Qed.

Lemma acquireSlot_spec i r (w : W) :
  RegOk r ->
  let '(slot, r', w') := acquireSlot i r w in
  RegOk r' /\
  match mIdMap r !! s32 i with
  | Some s => slot = s /\ r' = r
  | None =>
      (slot = -1 /\ r' = r /\ (forall s, 0 <= s < MTS_POINTERS_NUM -> s ∈ mUsedSlots r)) \/
      (0 <= slot < MTS_POINTERS_NUM /\ (slot ∉ mUsedSlots r) /\ mIdMap r' = <[s32 i := slot]> (mIdMap r))
  end.
Proof.
  intros Hok. unfold acquireSlot. destruct (mIdMap r !! s32 i) as [s|] eqn:E; [done|].
  destruct (findNextFreeSlot_spec r) as [[-> Hall]|[Hs Hfree]].
  - split; [done|]. left. done.
  - rewrite (proj2 (Z.ltb_ge _ _)) by lia. destruct (Now w) as [now w1].
    split; [by apply add_id_ok|]. right. done.
Qed.

Lemma releaseSlot_ok i r : RegOk r -> RegOk (releaseSlot i r).
Proof.
  intros Hok. unfold releaseSlot. destruct (mIdMap r !! s32 i) eqn:E; [by apply drop_id_ok|done].
Qed.

Lemma releaseSlot_ids i r : mIdMap (releaseSlot i r) = delete (s32 i) (mIdMap r).
Proof.
  unfold releaseSlot. destruct (mIdMap r !! s32 i) eqn:E; [done|]. symmetry. by apply delete_id.
Qed.

(** One touch. *)
Lemma touch_spec width height t r (w : W) :
  RegOk r ->
  let r' := (Touch_toEvDevEvents width height t r w).1.2 in
  let id := s32 (identifier t) in
  RegOk r' /\ (forall a, a <> id -> mIdMap r' !! a = mIdMap r !! a) /\
  (pressure t = 0 -> mIdMap r' !! id = None) /\
  (pressure t <> 0 ->
   match mIdMap r !! id with
   | Some s => mIdMap r' !! id = Some s
   | None => (mIdMap r' !! id = None /\ forall s, 0 <= s < MTS_POINTERS_NUM -> s ∈ mUsedSlots r) \/
             exists s, mIdMap r' !! id = Some s /\ s ∉ mUsedSlots r
   end).
Proof.
  intros Hok. cbn zeta. unfold Touch_toEvDevEvents, isIdentifierRegistered.
  case_bool_decide as Hreg; [|destruct (Z.eqb_spec (pressure t) 0) as [Ep|Ep]; cbn [negb andb]].
  2:{ cbn. apply eq_None_not_Some in Hreg. done. }
  all: rewrite ?andb_false_r; pose proof (acquireSlot_spec (identifier t) r w Hok) as Ha;
    destruct (acquireSlot (identifier t) r w) as [[slot r1] w1]; destruct Ha as [Hok1 Ha].
  all: rewrite (proj2 (Z.ltb_ge (u32 slot) 0)) by (apply Z.mod_pos_bound; lia).
  - destruct Hreg as [s Es]. rewrite Es in Ha |- *. destruct Ha as [-> ->].
    destruct (Z.eqb_spec (pressure t) 0); cbn [fst snd].
    + split_and!; [by apply releaseSlot_ok| | |done].
      * intros a Hne. rewrite releaseSlot_ids, lookup_delete_ne by done. done.
      * intros _. rewrite releaseSlot_ids. apply lookup_delete_eq.
    + done.
  - apply eq_None_not_Some in Hreg. rewrite Hreg in Ha |- *.
    cbn [fst snd]. split; [done|]. destruct Ha as [(-> & -> & Hall)|(Hs & Hf & ->)].
    + split_and!; [done|done|]. intros _. left. done.
    + split_and!; [|done|].
      * intros a Hne. by rewrite lookup_insert_ne.
      * intros _. right. exists slot. by rewrite lookup_insert_eq.
Qed.

Context (PEN MAX : Z).

Lemma pen_ok width height p r (w : W) : RegOk r -> RegOk (Pen_toEvDevEvents PEN MAX width height p r w).1.2.
Proof.
  intros Hok. unfold Pen_toEvDevEvents.
  pose proof (touch_spec width height (touch p) r w Hok) as [Ht _].
  by destruct (Touch_toEvDevEvents width height (touch p) r w) as [[evs r1] w1].
Qed.

Lemma send_each_ok {A} (f : A -> SlotRegistry -> W -> list EvDevEvent * SlotRegistry * W) l :
  (forall a r w, RegOk r -> RegOk (f a r w).1.2) ->
  forall r w, RegOk r -> RegOk (send_each f l r w).1.2.
Proof.
  intros Hf. induction l as [|a l IH]; intros r w Hok; [done|]. cbn [send_each].
  specialize (Hf a r w Hok). destruct (f a r w) as [[evs r1] w1].
  specialize (IH r1 w1 Hf). by destruct (send_each f l r1 w1) as [[evs' r2] w2].
Qed.

Lemma sendEvents_ok width height e r (w : W) :
  RegOk r -> RegOk (sendEvents PEN MAX width height e r w).1.2.
Proof.
  intros Hok. unfold sendEvents.
  set (p := match e with MultiTouchEvent _ => _ | PenTouchEvent _ => _ end).
  assert (RegOk p.1.2) as Hp.
  { subst p. destruct e as [ts|ps]; apply send_each_ok; try done; intros a r0 w0 H0.
    - by apply touch_spec.
    - by apply pen_ok. }
  destruct p as [[evs r1] w1]. pose proof (expireOldSlots_ok r1 w1 Hp) as He.
  by destruct (expireOldSlots r1 w1) as [[evs' r2] w2].
Qed.

(** A new dispatcher after a sequence of events. *)
Definition dispatch_all (width height : Z) (es : list pointer_event) (w : W) :=
  send_each (sendEvents PEN MAX width height) es new_registry w.

End facts.

(** ** Properties *)

(** C17: whatever touches and pens are dispatched, at whatever times, the
    registry keeps identifiers and used slots in one-to-one correspondence,
    with slots below ten, at most ten of them and a deadline for each.  A
    touch changes its own identifier only: lifted, it is forgotten; pressed,
    it keeps its slot, or gets a free one if there is any. *)
Theorem touch_registry {W} `{!Clock W} PEN MAX width height es (w : W) :
  let r := (dispatch_all PEN MAX width height es w).1.2 in
  RegOk r /\ (size (mIdMap r) <= 10)%nat /\
  forall t w', let r' := (Touch_toEvDevEvents width height t r w').1.2 in
    let id := s32 (identifier t) in
    (forall a, a <> id -> mIdMap r' !! a = mIdMap r !! a) /\
    (pressure t = 0 -> mIdMap r' !! id = None) /\
    (pressure t <> 0 ->
     match mIdMap r !! id with
     | Some s => mIdMap r' !! id = Some s
     | None => (mIdMap r' !! id = None /\ forall s, 0 <= s < MTS_POINTERS_NUM -> s ∈ mUsedSlots r) \/
               exists s, mIdMap r' !! id = Some s /\ s ∉ mUsedSlots r
     end).
Proof.
  intros r. assert (RegOk r) as Hok.
  { apply send_each_ok; [intros; by apply sendEvents_ok|apply new_registry_ok]. }
  split; [done|]. split; [by apply RegOk_size|]. intros t w'. by apply touch_spec.
Qed.

(** The tracking id of a new contact is sent before its slot is selected:
    to a receiver of the protocol it goes to the slot selected so far, whose
    contact it replaces.  With all slots in use the slot -1 is sent, as the
    comparison of an unsigned slot with 0 never holds: the contact of the
    selected slot is lifted. *)
Theorem touch_new_contact {W} `{!Clock W} width height t r (w : W) g :
  RegOk r -> mIdMap r !! s32 (identifier t) = None -> pressure t <> 0 ->
  let '(events, r', w') := Touch_toEvDevEvents width height t r w in
  guest_run g events =
    match mIdMap r' !! s32 (identifier t) with
    | Some slot => {| g_slot := slot; g_tracking := <[g_slot g := slot]> (g_tracking g) |}
    | None => {| g_slot := g_slot g; g_tracking := delete (g_slot g) (g_tracking g) |}
    end.
Proof.
  intros Hok Hnew Hp. unfold Touch_toEvDevEvents, isIdentifierRegistered.
  rewrite bool_decide_eq_false_2 by (rewrite Hnew; by intros [? ?]).
  rewrite (proj2 (Z.eqb_neq _ _) Hp). cbn [andb negb].
  pose proof (acquireSlot_spec (identifier t) r w Hok) as Ha.
  destruct (acquireSlot (identifier t) r w) as [[slot r1] w1]. destruct Ha as [Hok1 Ha].
  rewrite (proj2 (Z.ltb_ge (u32 slot) 0)) by (apply Z.mod_pos_bound; lia).
  unfold guest_run. rewrite !fold_left_app. cbn [fold_left guest_step code value].
  assert (forall c v g0, c <> ABS_MT_SLOT -> c <> ABS_MT_TRACKING_ID ->
    fold_left guest_step (opt_event c v) g0 = g0) as Hopt.
  { intros c v g0 H1 H2. unfold opt_event. destruct (0 <? v); [|done]. by destruct c. }
  rewrite !Hopt by done. rewrite Hnew in Ha. destruct Ha as [(-> & -> & _)|(Hs & _ & ->)].
  - rewrite Hnew. reflexivity.
  - rewrite lookup_insert_eq. unfold MTS_POINTERS_NUM in *.
    rewrite wrap_small by (unfold in_u; lia).
    rewrite (proj2 (Z.leb_le 0 slot)), (proj2 (Z.ltb_lt slot 10)) by lia. cbn [andb g_slot g_tracking].
    rewrite (proj2 (Z.eqb_neq slot MTS_POINTER_UP)); [done|].
    change MTS_POINTER_UP with 4294967295. lia.
Qed.

(** ** Witnesses *)

#[local] Instance test_clock : Clock Z := { Now w := (w, w + 1) }.

Definition test_touch (i : Z) : Touch :=
  {| x := 100; y := 200; identifier := i; pressure := 50; touch_major := 10; touch_minor := 5;
     orientation := 45 |}.

(** The registry after the first finger. *)
Definition test_registry : SlotRegistry := (Touch_toEvDevEvents 1024 768 (test_touch 1) new_registry 0).1.2.

(** The second finger takes the slot of the first. *)
Lemma touch_new_contact_witness :
  guest_run {| g_slot := 0; g_tracking := {[0 := 0]} |}
    (Touch_toEvDevEvents 1024 768 (test_touch 2) test_registry 1).1.1 =
  {| g_slot := 1; g_tracking := {[0 := 1]} |}.
Proof.
  assert (RegOk test_registry) as Hok by (apply add_id_ok; [apply new_registry_ok|reflexivity|by_compute|set_solver]).
  exact (touch_new_contact 1024 768 (test_touch 2) test_registry 1
    {| g_slot := 0; g_tracking := {[0 := 0]} |} Hok eq_refl ltac:(discriminate)).
Defined.
