(* ===== verification/VirtioInput.v ===== *)
(** * The virtio input device

    Models [emulator/plugin/virtio-input-android/src/virtio-input-android.c]: the
    translation of QEMU's input events to events of the multi-touch protocol,
    and the configuration the device shows to the guest.  QEMU's numbering of
    buttons is an argument.  The guest's side of the protocol (type B of the
    Linux kernel's documentation) is written down as the specification: what
    the guest decodes is what the mouse does. *)

From S2P Require Import Prelude CText Touch.

(** ** Input events of QEMU *)

Inductive InputAxis := INPUT_AXIS_X | INPUT_AXIS_Y.

(** Values are QAPI integers of 64 bits. *)
Inductive InputEvent :=
  | KindKey
  | KindBtn (button : Z) (down : bool)
  | KindRel
  | KindAbs (axis : InputAxis) (value : Z)
  | KindMttData (axis : InputAxis) (value : Z)
  | KindMtt (slot tracking_id : Z).

(** QEMU's buttons that the source names, and their number. *)
Class QemuButtons := {
  INPUT_BUTTON_LEFT : Z; INPUT_BUTTON_RIGHT : Z; INPUT_BUTTON_MIDDLE : Z;
  INPUT_BUTTON_WHEEL_UP : Z; INPUT_BUTTON_WHEEL_DOWN : Z; INPUT_BUTTON_SIDE : Z;
  INPUT_BUTTON_EXTRA : Z; INPUT_BUTTON_TOUCH : Z;
  INPUT_BUTTON__MAX : Z;
  button_range : Forall (fun b => 0 <= b < INPUT_BUTTON__MAX)
    [INPUT_BUTTON_LEFT; INPUT_BUTTON_RIGHT; INPUT_BUTTON_MIDDLE; INPUT_BUTTON_WHEEL_UP;
     INPUT_BUTTON_WHEEL_DOWN; INPUT_BUTTON_SIDE; INPUT_BUTTON_EXTRA; INPUT_BUTTON_TOUCH];
  button_max : INPUT_BUTTON__MAX < 2 ^ 31;
}.

Definition MTS_PRESSURE_RANGE_MAX : Z := 0x400.
Definition MTS_TOUCH_AXIS_DEFAULT : Z := 0x500.
Definition MTS_POINTER_UP : Z := -1.
Definition MT_TOOL_FINGER : Z := 0.

(** ** The state of the device *)

Record MTSPointerState := Pointer { tracking_id : Z; x : Z; y : Z; pressure : Z }.

(** The arrays are indexed by button; every entry is initialised. *)
Record VirtIOInputAndroidHID := {
  current_slot : Z;
  keymap_button_down : gset Z;
  tracked_pointers : Z -> MTSPointerState;
  wheel_axis : bool;
}.

Definition with_slot (s : Z) (d : VirtIOInputAndroidHID) : VirtIOInputAndroidHID :=
  {| current_slot := s; keymap_button_down := keymap_button_down d;
     tracked_pointers := tracked_pointers d; wheel_axis := wheel_axis d |}.
Definition with_down (f : gset Z -> gset Z) (d : VirtIOInputAndroidHID) : VirtIOInputAndroidHID :=
  {| current_slot := current_slot d; keymap_button_down := f (keymap_button_down d);
     tracked_pointers := tracked_pointers d; wheel_axis := wheel_axis d |}.
Definition with_pointer (i : Z) (p : MTSPointerState) (d : VirtIOInputAndroidHID) : VirtIOInputAndroidHID :=
  {| current_slot := current_slot d; keymap_button_down := keymap_button_down d;
     tracked_pointers := fun j => if j =? i then p else tracked_pointers d j; wheel_axis := wheel_axis d |}.

(** [virtio_android_init]. *)
Definition new_hid (wheel : bool) : VirtIOInputAndroidHID :=
  {| current_slot := 0; keymap_button_down := ∅; tracked_pointers := fun _ => Pointer 0 0 0 0;
     wheel_axis := wheel |}.

Definition send_event (type : evtype) (code : evcode) (value : Z) : EvDevEvent :=
  {| Touch.type := type; Touch.code := code; Touch.value := u32 value |}.

Abbreviation sends := (list EvDevEvent).

Section device.
Context `{!QemuButtons}.

(** A non-zero code of [keymap_button]. *)
Definition keymap_button (b : Z) : bool :=
  existsb (Z.eqb b)
    [INPUT_BUTTON_LEFT; INPUT_BUTTON_RIGHT; INPUT_BUTTON_MIDDLE; INPUT_BUTTON_WHEEL_UP;
     INPUT_BUTTON_WHEEL_DOWN; INPUT_BUTTON_SIDE; INPUT_BUTTON_EXTRA; INPUT_BUTTON_TOUCH].

Definition axismap_tch (a : InputAxis) : evcode :=
  match a with INPUT_AXIS_X => ABS_MT_POSITION_X | INPUT_AXIS_Y => ABS_MT_POSITION_Y end.

(** Selecting a slot when another one is selected. *)
Definition select_slot (slot_index : Z) (d : VirtIOInputAndroidHID) : sends :=
  if slot_index =? current_slot d then [] else [send_event EV_ABS ABS_MT_SLOT slot_index].

Definition mts_pointer_down (id px py press : Z) (d : VirtIOInputAndroidHID) : VirtIOInputAndroidHID * sends :=
  let slot_index := id in
  if 0 <=? slot_index then
    (with_slot slot_index (with_pointer slot_index (Pointer id px py press) d),
     select_slot slot_index d ++
     [send_event EV_ABS ABS_MT_TRACKING_ID slot_index;
      send_event EV_ABS ABS_MT_POSITION_X px;
      send_event EV_ABS ABS_MT_POSITION_Y py;
      send_event EV_ABS ABS_MT_TOOL_TYPE MT_TOOL_FINGER;
      send_event EV_ABS ABS_MT_PRESSURE press;
      send_event EV_ABS ABS_MT_ORIENTATION 0;
      send_event EV_ABS ABS_MT_TOUCH_MAJOR MTS_TOUCH_AXIS_DEFAULT;
      send_event EV_ABS ABS_MT_TOUCH_MINOR MTS_TOUCH_AXIS_DEFAULT])
  else (d, []).

Definition mts_pointer_up (slot_index : Z) (d : VirtIOInputAndroidHID) : VirtIOInputAndroidHID * sends :=
  let p := tracked_pointers d slot_index in
  (with_slot (-1) (with_pointer slot_index (Pointer MTS_POINTER_UP (x p) (y p) 0) d),
   select_slot slot_index d ++
   [send_event EV_ABS ABS_MT_PRESSURE 0; send_event EV_ABS ABS_MT_TRACKING_ID MTS_POINTER_UP]).

Definition mts_pointer_move (slot_index px py press : Z) (d : VirtIOInputAndroidHID) :
    VirtIOInputAndroidHID * sends :=
  let p := tracked_pointers d slot_index in
  if (x p =? px) && (y p =? py) then (d, [])
  else
    (with_slot slot_index (with_pointer slot_index (Pointer (tracking_id p) px py press) d),
     select_slot slot_index d ++
     (if x p =? px then [] else [send_event EV_ABS ABS_MT_POSITION_X px]) ++
     (if y p =? py then [] else [send_event EV_ABS ABS_MT_POSITION_Y py]) ++
     (if pressure p =? press then [] else [send_event EV_ABS ABS_MT_PRESSURE press])).

(** The coordinates of a pointer after a move of one axis. *)
Definition move_axis (axis : InputAxis) (value : Z) (p : MTSPointerState) : Z * Z :=
  match axis with INPUT_AXIS_X => (value, y p) | INPUT_AXIS_Y => (x p, value) end.

(** One turn of the loop over the buttons. *)
Definition move_button (axis : InputAxis) (value i : Z) (d : VirtIOInputAndroidHID) : VirtIOInputAndroidHID * sends :=
  let '(px, py) := move_axis axis value (tracked_pointers d i) in
  let '(d, out) := if bool_decide (i ∈ keymap_button_down d)
                   then mts_pointer_move i px py MTS_PRESSURE_RANGE_MAX d else (d, []) in
  let p := tracked_pointers d i in
  (with_pointer i (Pointer (tracking_id p) (fst (move_axis axis value p)) (snd (move_axis axis value p)) (pressure p)) d,
   out).

Fixpoint move_buttons (axis : InputAxis) (value : Z) (is_ : list Z) (d : VirtIOInputAndroidHID) :
    VirtIOInputAndroidHID * sends :=
  match is_ with
  | [] => (d, [])
  | i :: is_ =>
      let '(d, out) := move_button axis value i d in
      let '(d, out') := move_buttons axis value is_ d in
      (d, out ++ out')
  end.

Definition virtio_input_handle_event (evt : InputEvent) (d : VirtIOInputAndroidHID) : VirtIOInputAndroidHID * sends :=
  match evt with
  | KindKey | KindRel => (d, [])
  | KindBtn button down =>
      if wheel_axis d && ((button =? INPUT_BUTTON_WHEEL_UP) || (button =? INPUT_BUTTON_WHEEL_DOWN)) && down then (d, [])
      else if keymap_button button then
        let p := tracked_pointers d button in
        if down then
          mts_pointer_down button (x p) (y p) MTS_PRESSURE_RANGE_MAX (with_down (union {[button]}) d)
        else mts_pointer_up button (with_down (fun s => s ∖ {[button]}) d)
      else (d, [])
  | KindAbs axis value => move_buttons axis (s32 value) (seqZ 0 INPUT_BUTTON__MAX) d
  | KindMttData axis value => (d, [send_event EV_ABS (axismap_tch axis) value])
  | KindMtt slot id => (d, [send_event EV_ABS ABS_MT_SLOT slot; send_event EV_ABS ABS_MT_TRACKING_ID id])
  end.

Definition virtio_input_handle_sync : sends := [send_event EV_SYN SYN_REPORT 0].

(** A sequence of input events, each followed by its sync. *)
Fixpoint handle_events (evts : list InputEvent) (d : VirtIOInputAndroidHID) : VirtIOInputAndroidHID * sends :=
  match evts with
  | [] => (d, [])
  | e :: evts =>
      let '(d, out) := virtio_input_handle_event e d in
      let '(d, out') := handle_events evts d in
      (d, out ++ virtio_input_handle_sync ++ out')
  end.
End device.

(** ** The guest's side of the protocol

    A slot has a tracking id, negative when nothing touches there, and the last
    values reported for it. *)

Record contact := Contact { c_id : Z; c_x : Z; c_y : Z; c_pressure : Z }.
Record guest := { g_selected : Z; g_slots : Z -> contact }.

Definition guest0 : guest := {| g_selected := 0; g_slots := fun _ => Contact (-1) 0 0 0 |}.

Definition set_contact (i : Z) (c : contact) (g : guest) : guest :=
  {| g_selected := g_selected g; g_slots := fun j => if j =? i then c else g_slots g j |}.

Definition guest_step (g : guest) (e : EvDevEvent) : guest :=
  let v := s32 (Touch.value e) in
  let i := g_selected g in
  let c := g_slots g i in
  match Touch.type e, Touch.code e with
  | EV_ABS, ABS_MT_SLOT => {| g_selected := v; g_slots := g_slots g |}
  | EV_ABS, ABS_MT_TRACKING_ID => set_contact i (Contact v (c_x c) (c_y c) (c_pressure c)) g
  | EV_ABS, ABS_MT_POSITION_X => set_contact i (Contact (c_id c) v (c_y c) (c_pressure c)) g
  | EV_ABS, ABS_MT_POSITION_Y => set_contact i (Contact (c_id c) (c_x c) v (c_pressure c)) g
  | EV_ABS, ABS_MT_PRESSURE => set_contact i (Contact (c_id c) (c_x c) (c_y c) v) g
  | _, _ => g
  end.

Definition guest_run (g : guest) (es : list EvDevEvent) : guest := fold_left guest_step es g.

(** ** The specification: a mouse with buttons *)

Record mouse := { m_x : Z; m_y : Z; m_held : gset Z }.

Definition mouse0 : mouse := {| m_x := 0; m_y := 0; m_held := ∅ |}.

Section spec.
Context `{!QemuButtons} (wheel : bool).

(** A wheel turn, which the device ignores when it has a wheel. *)
Definition ignored_wheel (button : Z) (down : bool) : bool :=
  wheel && ((button =? INPUT_BUTTON_WHEEL_UP) || (button =? INPUT_BUTTON_WHEEL_DOWN)) && down.

Definition mouse_step (m : mouse) (e : InputEvent) : mouse :=
  match e with
  | KindBtn b down =>
      if ignored_wheel b down || negb (keymap_button b) then m
      else {| m_x := m_x m; m_y := m_y m;
              m_held := if down : bool then {[b]} ∪ m_held m else m_held m ∖ {[b]} |}
  | KindAbs INPUT_AXIS_X v => {| m_x := s32 v; m_y := m_y m; m_held := m_held m |}
  | KindAbs INPUT_AXIS_Y v => {| m_x := m_x m; m_y := s32 v; m_held := m_held m |}
  | _ => m
  end.

Definition mouse_run (m : mouse) (es : list InputEvent) : mouse := fold_left mouse_step es m.

Definition not_mtt (e : InputEvent) : Prop :=
  match e with KindMtt _ _ | KindMttData _ _ => False | _ => True end.

(** ** The device implements it *)

Lemma u32_s32 v : in_s 32 v -> s32 (u32 v) = v.
Proof.
  intros Hv. unfold swrap, wrap, in_s in *.
  change (2 ^ (32 - 1)) with 2147483648 in *. change (2 ^ 32) with 4294967296.
  rewrite Zplus_mod_idemp_l. rewrite Z.mod_small by lia. lia.
Qed.

(** The touch of the button [i] at [(px, py)]. *)
Record button_ok (d : VirtIOInputAndroidHID) (g : guest) (px py i : Z) : Prop := {
  bo_x : x (tracked_pointers d i) = px;
  bo_y : y (tracked_pointers d i) = py;
  bo_down : i ∈ keymap_button_down d ->
    pressure (tracked_pointers d i) = MTS_PRESSURE_RANGE_MAX /\
    g_slots g i = Contact i px py MTS_PRESSURE_RANGE_MAX;
  bo_up : i ∉ keymap_button_down d -> c_id (g_slots g i) < 0;
}.

Definition slot_ok (d : VirtIOInputAndroidHID) (g : guest) : Prop :=
  current_slot d = g_selected g \/ current_slot d = -1.

Record hid_inv (d : VirtIOInputAndroidHID) (g : guest) (m : mouse) : Prop := {
  hi_wheel : wheel_axis d = wheel;
  hi_slot : slot_ok d g;
  hi_held : keymap_button_down d = m_held m;
  hi_range : in_s 32 (m_x m) /\ in_s 32 (m_y m);
  hi_buttons i : 0 <= i < INPUT_BUTTON__MAX -> button_ok d g (m_x m) (m_y m) i;
}.

Lemma guest_app g es es' : guest_run g (es ++ es') = guest_run (guest_run g es) es'.
Proof. apply fold_left_app. Qed.

Lemma select_ok i d g :
  0 <= i < INPUT_BUTTON__MAX -> slot_ok d g ->
  guest_run g (select_slot i d) = {| g_selected := i; g_slots := g_slots g |}.
Proof.
  intros Hi Hs. pose proof button_max. unfold select_slot. destruct (Z.eqb_spec i (current_slot d)) as [E|].
  - destruct Hs as [Hs|Hs]; [|lia]. rewrite E, Hs. by destruct g.
  - cbn. by rewrite u32_s32 by (unfold in_s; lia).
Qed.

Lemma keymap_range b : keymap_button b = true -> 0 <= b < INPUT_BUTTON__MAX.
Proof.
  unfold keymap_button. intros (c & Hc & ->%Z.eqb_eq)%existsb_exists.
  pose proof button_range as Hr. rewrite Forall_forall in Hr. apply Hr. by apply list_elem_of_In.
Qed.

(** A pointer event of the button [i] leaves the other slots alone. *)
Lemma down_guest i px py d g :
  0 <= i < INPUT_BUTTON__MAX -> slot_ok d g -> in_s 32 px -> in_s 32 py ->
  let g' := guest_run g (snd (mts_pointer_down i px py MTS_PRESSURE_RANGE_MAX d)) in
  g_selected g' = i /\ g_slots g' i = Contact i px py MTS_PRESSURE_RANGE_MAX /\
  forall j, j <> i -> g_slots g' j = g_slots g j.
Proof.
  intros Hi Hs Hx Hy. pose proof button_max. unfold mts_pointer_down.
  destruct (Z.leb_spec 0 i); [|lia]. cbn [snd]. rewrite guest_app, select_ok by done. cbn.
  rewrite !Z.eqb_refl, !u32_s32 by (done || unfold in_s; lia). split_and!; [done|done|].
  intros j Hj. by rewrite (proj2 (Z.eqb_neq j i)) by done.
Qed.

Lemma up_guest i d g :
  0 <= i < INPUT_BUTTON__MAX -> slot_ok d g ->
  let g' := guest_run g (snd (mts_pointer_up i d)) in
  c_id (g_slots g' i) = -1 /\ forall j, j <> i -> g_slots g' j = g_slots g j.
Proof.
  intros Hi Hs. unfold mts_pointer_up. cbn [snd]. rewrite guest_app, select_ok by done. cbn.
  rewrite !Z.eqb_refl. split; [done|]. intros j Hj. by rewrite (proj2 (Z.eqb_neq j i)) by done.
Qed.

Lemma move_guest i px py d g :
  0 <= i < INPUT_BUTTON__MAX -> slot_ok d g -> in_s 32 px -> in_s 32 py ->
  pressure (tracked_pointers d i) = MTS_PRESSURE_RANGE_MAX ->
  g_slots g i = Contact i (x (tracked_pointers d i)) (y (tracked_pointers d i)) MTS_PRESSURE_RANGE_MAX ->
  let '(d', out) := mts_pointer_move i px py MTS_PRESSURE_RANGE_MAX d in
  let g' := guest_run g out in
  slot_ok d' g' /\ g_slots g' i = Contact i px py MTS_PRESSURE_RANGE_MAX /\
  (forall j, j <> i -> g_slots g' j = g_slots g j) /\
  keymap_button_down d' = keymap_button_down d /\ wheel_axis d' = wheel_axis d /\
  tracked_pointers d' i = Pointer (tracking_id (tracked_pointers d i)) px py MTS_PRESSURE_RANGE_MAX /\
  (forall j, j <> i -> tracked_pointers d' j = tracked_pointers d j).
Proof.
  intros Hi Hs Hx Hy Hp Hg. unfold mts_pointer_move. rewrite Hp, Z.eqb_refl.
  destruct (Z.eqb_spec (x (tracked_pointers d i)) px) as [Ex|], (Z.eqb_spec (y (tracked_pointers d i)) py) as [Ey|];
    cbn [andb];
    [subst; split_and!; try done; rewrite <- Hp; by destruct (tracked_pointers d i)|..]; cbn [app];
    rewrite ?app_nil_r, guest_app, select_ok by done; cbn; rewrite ?Z.eqb_refl, Hg; cbn;
    rewrite !u32_s32 by done;
    (split; [by left|split; [congruence|split; [|split; [done|split; [done|split; [done|]]]]]]);
    intros j Hj; by rewrite (proj2 (Z.eqb_neq j i)).
Qed.

Definition axis_pos (axis : InputAxis) (v : Z) (m : mouse) : Z * Z :=
  match axis with INPUT_AXIS_X => (v, m_y m) | INPUT_AXIS_Y => (m_x m, v) end.

(** One turn of the loop takes the button to the new position and leaves the
    others where they are. *)
Lemma move_button_ok axis v i d g (m : mouse) :
  0 <= i < INPUT_BUTTON__MAX -> slot_ok d g -> in_s 32 v -> in_s 32 (m_x m) -> in_s 32 (m_y m) ->
  button_ok d g (m_x m) (m_y m) i ->
  let '(d', out) := move_button axis v i d in
  let g' := guest_run g out in
  slot_ok d' g' /\ keymap_button_down d' = keymap_button_down d /\ wheel_axis d' = wheel_axis d /\
  button_ok d' g' (fst (axis_pos axis v m)) (snd (axis_pos axis v m)) i /\
  (forall j px py, j <> i -> button_ok d g px py j -> button_ok d' g' px py j).
Proof.
  intros Hi Hs Hv Hmx Hmy [Hx Hy Hd Hu]. unfold move_button.
  assert (move_axis axis v (tracked_pointers d i) = axis_pos axis v m) as ->
    by (destruct axis; cbn; by rewrite ?Hx, ?Hy).
  assert (in_s 32 (fst (axis_pos axis v m)) /\ in_s 32 (snd (axis_pos axis v m))) as [Hpx Hpy]
    by (destruct axis; done).
  destruct (axis_pos axis v m) as [px py] eqn:Ep. cbn [fst snd] in *.
  case_bool_decide as Hin.
  - destruct (Hd Hin) as [Hp Hg]. rewrite <- Hx, <- Hy in Hg.
    pose proof (move_guest i px py d g Hi Hs Hpx Hpy Hp Hg) as Hmv.
    destruct (mts_pointer_move i px py MTS_PRESSURE_RANGE_MAX d) as [d1 out].
    destruct Hmv as (Hs1 & Hg1 & Hgo & Hk & Hw & Hp1 & Hto). rewrite Hp1. cbn [tracking_id x y pressure].
    split; [done|]. split; [done|]. split; [done|]. split.
    + constructor; cbn; rewrite ?Z.eqb_refl, ?Hk; cbn; try done; by destruct axis; injection Ep as <- <-.
    + intros j qx qy Hj [Jx Jy Jd Ju]. constructor; cbn; rewrite ?(proj2 (Z.eqb_neq j i)), ?Hto, ?Hgo by done;
        try done; by rewrite Hk.
  - split; [done|]. split; [done|]. split; [done|]. split.
    + constructor; cbn; rewrite ?Z.eqb_refl; cbn; try done; destruct axis; injection Ep as <- <-; done.
    + intros j qx qy Hj [Jx Jy Jd Ju]. constructor; cbn; by rewrite ?(proj2 (Z.eqb_neq j i)) by done.
Qed.

Lemma move_buttons_ok axis v l d g (m : mouse) :
  NoDup l -> (forall i, i ∈ l -> 0 <= i < INPUT_BUTTON__MAX) ->
  slot_ok d g -> in_s 32 v -> in_s 32 (m_x m) -> in_s 32 (m_y m) ->
  (forall i, i ∈ l -> button_ok d g (m_x m) (m_y m) i) ->
  let '(d', out) := move_buttons axis v l d in
  let g' := guest_run g out in
  slot_ok d' g' /\ keymap_button_down d' = keymap_button_down d /\ wheel_axis d' = wheel_axis d /\
  (forall i, i ∈ l -> button_ok d' g' (fst (axis_pos axis v m)) (snd (axis_pos axis v m)) i) /\
  (forall j px py, j ∉ l -> button_ok d g px py j -> button_ok d' g' px py j).
Proof.
  intros Hd. revert d g. induction Hd as [|i l Hi Hd IH]; intros d g Hr Hs Hv Hx Hy Hb; cbn [move_buttons].
  { split_and!; try done. set_solver. }
  pose proof (move_button_ok axis v i d g m ltac:(apply Hr; set_solver) Hs Hv Hx Hy ltac:(apply Hb; set_solver)) as H1.
  destruct (move_button axis v i d) as [d1 out1]. destruct H1 as (Hs1 & Hk1 & Hw1 & Hi1 & Ho1).
  specialize (IH d1 (guest_run g out1)). destruct (move_buttons axis v l d1) as [d2 out2].
  destruct IH as (Hs2 & Hk2 & Hw2 & Hi2 & Ho2); try done.
  { intros j Hj. apply Hr. set_solver. }
  { intros j Hj. apply Ho1; [set_solver|]. apply Hb. set_solver. }
  rewrite guest_app. split_and!; [done|congruence|congruence| |].
  - intros j [->|Hj]%elem_of_cons; [by apply Ho2|by apply Hi2].
  - intros j px py Hj Hok. apply Ho2; [set_solver|]. apply Ho1; [set_solver|done].
Qed.

Lemma handle_event_ok e d g m :
  not_mtt e -> hid_inv d g m ->
  hid_inv (fst (virtio_input_handle_event e d)) (guest_run g (snd (virtio_input_handle_event e d))) (mouse_step m e).
Proof.
  intros He [Hw Hs Hh [Hrx Hry] Hb]. destruct e as [|b down| |axis v|axis v|s id]; try done; cbn [virtio_input_handle_event mouse_step].
  - unfold ignored_wheel. rewrite Hw. destruct (wheel && _ && down); [by constructor|]. cbn [orb].
    destruct (keymap_button b) eqn:Ek; [|by constructor]. cbn [negb].
    pose proof (keymap_range b Ek) as Hbr. destruct (Hb b Hbr) as [Ex Ey _ _].
    destruct down; rewrite ?Ex, ?Ey.
    + pose proof (down_guest b (m_x m) (m_y m) (with_down (union {[b]}) d) g Hbr Hs Hrx Hry) as (Hsel & Hgb & Hgo).
      unfold mts_pointer_down in *. destruct (Z.leb_spec 0 b); [|lia]. cbn [fst snd] in *.
      constructor; cbn; [done|by left|by rewrite Hh|done|].
      intros i Hi. destruct (Hb i Hi) as [Jx Jy Jd Ju]. destruct (decide (i = b)) as [->|Hne].
      * constructor; cbn; rewrite ?Z.eqb_refl; cbn; try done. set_solver.
      * constructor; cbn; rewrite ?(proj2 (Z.eqb_neq i b)), ?Hgo by done; try done; intros Hin; [apply Jd|apply Ju]; set_solver.
    + pose proof (up_guest b (with_down (fun s => s ∖ {[b]}) d) g Hbr Hs) as (Hgb & Hgo).
      constructor; cbn; [done|by right|by rewrite Hh|done|].
      intros i Hi. destruct (Hb i Hi) as [Jx Jy Jd Ju]. destruct (decide (i = b)) as [->|Hne].
      * constructor; cbn; rewrite ?Z.eqb_refl; cbn; try done; [set_solver|]. intros _. cbn in Hgb. rewrite Hgb. lia.
      * cbn in Hgo. constructor; cbn; rewrite ?(proj2 (Z.eqb_neq i b)), ?Hgo by done; try done; intros Hin; [apply Jd|apply Ju]; set_solver.
  - assert (in_s 32 (s32 v)) as Hv by (apply swrap_range; lia).
    pose proof (move_buttons_ok axis (s32 v) (seqZ 0 INPUT_BUTTON__MAX) d g m (NoDup_seqZ _ _)
      ltac:(intros i Hi; apply elem_of_seqZ in Hi; lia) Hs Hv Hrx Hry
      ltac:(intros i Hi; apply elem_of_seqZ in Hi; apply Hb; lia)) as H1.
    destruct (move_buttons axis (s32 v) _ d) as [d' out]. destruct H1 as (Hs1 & Hk1 & Hw1 & Hi1 & _).
    assert (forall i, 0 <= i < INPUT_BUTTON__MAX -> i ∈ seqZ 0 INPUT_BUTTON__MAX) as Hin
      by (intros i Hi; apply elem_of_seqZ; lia).
    destruct axis; constructor; cbn; try congruence; try done; intros i Hi; by apply (Hi1 i (Hin i Hi)).
Qed.

Lemma guest_sync g es : guest_run g (virtio_input_handle_sync ++ es) = guest_run g es.
Proof. done. Qed.

Lemma handle_events_ok es d g m :
  Forall not_mtt es -> hid_inv d g m ->
  hid_inv (fst (handle_events es d)) (guest_run g (snd (handle_events es d))) (mouse_run m es).
Proof.
  intros He. revert d g m. induction He as [|e es He _ IH]; intros d g m Hi; [done|].
  pose proof (handle_event_ok e d g m He Hi) as H1. cbn [handle_events].
  destruct (virtio_input_handle_event e d) as [d1 out1]. specialize (IH _ _ _ H1).
  destruct (handle_events es d1) as [d2 out2] eqn:E2. cbn [fst snd] in *. rewrite E2 in IH.
  rewrite guest_app. exact IH.
Qed.

Lemma new_hid_inv : hid_inv (new_hid wheel) guest0 mouse0.
Proof.
  constructor; cbn; [done|by left|done|unfold in_s; lia|].
  intros i Hi. by constructor; cbn.
Qed.

(** C27: Whatever buttons and movements come, the guest sees a touch for exactly the
    buttons that are held, each at the place of the mouse, with its own tracking
    id and full pressure. *)
Theorem virtio_mouse_touches es :
  Forall not_mtt es ->
  let g := guest_run guest0 (snd (handle_events es (new_hid wheel))) in
  let m := mouse_run mouse0 es in
  forall i, 0 <= i < INPUT_BUTTON__MAX ->
    (0 <= c_id (g_slots g i) <-> i ∈ m_held m) /\
    (i ∈ m_held m -> g_slots g i = Contact i (m_x m) (m_y m) MTS_PRESSURE_RANGE_MAX).
Proof.
  intros He g m i Hi. destruct (handle_events_ok es _ _ _ He new_hid_inv) as [_ _ Hh _ Hb].
  destruct (Hb i Hi) as [_ _ Jd Ju]. rewrite Hh in Jd, Ju. fold m g in Jd, Ju. split; [split|].
  - intros Hc. destruct (decide (i ∈ m_held m)) as [|Hn]; [done|]. specialize (Ju Hn). lia.
  - intros Hin. destruct (Jd Hin) as [_ ->]. cbn. lia.
  - intros Hin. by destruct (Jd Hin) as [_ ->].
Qed.
End spec.

(** QEMU's numbering at the version the code is built with. *)
#[export] Program Instance qemu_buttons : QemuButtons := {
  INPUT_BUTTON_LEFT := 0; INPUT_BUTTON_MIDDLE := 1; INPUT_BUTTON_RIGHT := 2;
  INPUT_BUTTON_WHEEL_UP := 3; INPUT_BUTTON_WHEEL_DOWN := 4; INPUT_BUTTON_SIDE := 5;
  INPUT_BUTTON_EXTRA := 6; INPUT_BUTTON_TOUCH := 9; INPUT_BUTTON__MAX := 10;
}.
Next Obligation. repeat constructor; lia. Qed.
Next Obligation. lia. Qed.

Definition drag : list InputEvent :=
  [KindAbs INPUT_AXIS_X 100; KindBtn 0 true; KindAbs INPUT_AXIS_Y 7; KindBtn 2 true; KindAbs INPUT_AXIS_X 50; KindBtn 0 false].

Example drag_guest :
  g_slots (guest_run guest0 (snd (handle_events drag (new_hid true)))) 2 = Contact 2 50 7 MTS_PRESSURE_RANGE_MAX /\
  c_id (g_slots (guest_run guest0 (snd (handle_events drag (new_hid true)))) 0) = -1.
Proof. split; vm_compute; reflexivity. Qed.

Lemma virtio_mouse_touches_witness :
  Forall not_mtt drag /\
  forall i, 0 <= i < 10 ->
    (0 <= c_id (g_slots (guest_run guest0 (snd (handle_events drag (new_hid true)))) i) <->
       i ∈ m_held (mouse_run true mouse0 drag)) /\
    (i ∈ m_held (mouse_run true mouse0 drag) ->
       g_slots (guest_run guest0 (snd (handle_events drag (new_hid true)))) i =
       Contact i (m_x (mouse_run true mouse0 drag)) (m_y (mouse_run true mouse0 drag)) MTS_PRESSURE_RANGE_MAX).
Proof.
  assert (Forall not_mtt drag) as H by (repeat constructor).
  split; [exact H|]. exact (virtio_mouse_touches true drag H).
Defined.

(** A touch sent as multi-touch events selects a slot behind the device's back:
    the press of a button is then reported for the slot of that touch. *)
Theorem virtio_mtt_confuses_mouse :
  let es := [KindMtt 5 5; KindBtn 0 true] in
  let g := guest_run guest0 (snd (handle_events es (new_hid true))) in
  c_id (g_slots g 5) = 0 /\ c_id (g_slots g 0) = -1.
Proof. split; vm_compute; reflexivity. Qed.

(** ** The configuration shown to the guest

    The codes of Linux's input interface, and the entries as QEMU takes them. *)

Definition ABS_X : Z := 0x00.
Definition ABS_Y : Z := 0x01.
Definition ABS_Z : Z := 0x02.
Definition code_number (c : evcode) : Z :=
  match c with
  | ABS_MT_SLOT => 0x2f | ABS_MT_TOUCH_MAJOR => 0x30 | ABS_MT_TOUCH_MINOR => 0x31
  | ABS_MT_ORIENTATION => 0x34 | ABS_MT_POSITION_X => 0x35 | ABS_MT_POSITION_Y => 0x36
  | ABS_MT_TOOL_TYPE => 0x37 | ABS_MT_TRACKING_ID => 0x39 | ABS_MT_PRESSURE => 0x3a
  | BTN_STYLUS => 0x14b | BTN_TOOL_RUBBER => 0x141 | SYN_REPORT => 0
  end.

Inductive config_payload := String_ (s : bytes) | Devids (bustype vendor product version : Z)
  | Abs_ (min max : Z) | Bitmap (b : bytes).

Inductive config_select := CFG_ID_NAME | CFG_ID_DEVIDS | CFG_ABS_INFO | CFG_EV_BITS.

Record virtio_input_config := Config { select : config_select; subsel : Z; size : Z; u : config_payload }.

(** Setting the bit of a code in the bitmap of 128 bytes; [None] outside it. *)
Definition set_bit (code : Z) (bitmap : bytes) : option bytes :=
  byte ← bitmap !! Z.to_nat (code / 8);
  Some (<[Z.to_nat (code / 8) := Z.lor byte (Z.shiftl 1 (code mod 8))]> bitmap).

Fixpoint extend_loop (map : list Z) (bmax : Z) (bitmap : bytes) : option (Z * bytes) :=
  match map with
  | [] => Some (bmax, bitmap)
  | bit :: map =>
      if bit =? 0 then extend_loop map bmax bitmap
      else
        bitmap ← set_bit bit bitmap;
        extend_loop map (if bmax <? bit / 8 + 1 then bit / 8 + 1 else bmax) bitmap
  end.

Definition virtio_input_extend_config (map : list Z) (sel : config_select) (sub : Z) : option virtio_input_config :=
  '(bmax, bitmap) ← extend_loop map 0 (repeat 0 128);
  Some (Config sel sub bmax (Bitmap bitmap)).

Definition EV_KEY_ : Z := 1.
Definition EV_ABS_ : Z := 3.
Definition EV_SW : Z := 5.
Definition VIRTIO_ID_NAME_ANDROID : bytes := str "virtio_input_multi_touch_".
Definition VIRTIO_INPUT_MAX_NUM : Z := 11.
Definition MTS_TOUCH_AXIS_RANGE_MAX : Z := 0x7fffffff.
Definition MTS_ORIENTATION_RANGE_MAX : Z := 90.

Definition ev_key_codes : list Z := code_number <$> [BTN_TOOL_RUBBER; BTN_STYLUS].

Definition ev_abs_codes : list Z :=
  [ABS_X; ABS_Y; ABS_Z] ++
  (code_number <$> [ABS_MT_SLOT; ABS_MT_TOUCH_MAJOR; ABS_MT_TOUCH_MINOR; ABS_MT_ORIENTATION; ABS_MT_POSITION_X;
     ABS_MT_POSITION_Y; ABS_MT_TOOL_TYPE; ABS_MT_TRACKING_ID; ABS_MT_PRESSURE]).

Section config.
Context `{!QemuButtons} (INPUT_EVENT_ABS_MIN INPUT_EVENT_ABS_MAX MT_TOOL_MAX BUS_VIRTUAL : Z).
(** The sizes of QEMU's [virtio_input_absinfo] and [virtio_input_devids]. *)
Context (absinfo_size devids_size : Z).

Definition abs_entry (axis min max : Z) : virtio_input_config :=
  Config CFG_ABS_INFO axis absinfo_size (Abs_ min max).

Definition virtio_android_config : list virtio_input_config :=
  [abs_entry ABS_X INPUT_EVENT_ABS_MIN INPUT_EVENT_ABS_MAX;
   abs_entry ABS_Y INPUT_EVENT_ABS_MIN INPUT_EVENT_ABS_MAX;
   abs_entry ABS_Z INPUT_EVENT_ABS_MIN 1;
   abs_entry (code_number ABS_MT_SLOT) 0 INPUT_BUTTON__MAX;
   abs_entry (code_number ABS_MT_TOUCH_MAJOR) 0 MTS_TOUCH_AXIS_RANGE_MAX;
   abs_entry (code_number ABS_MT_TOUCH_MINOR) 0 MTS_TOUCH_AXIS_RANGE_MAX;
   abs_entry (code_number ABS_MT_ORIENTATION) 0 MTS_ORIENTATION_RANGE_MAX;
   abs_entry (code_number ABS_MT_POSITION_X) 0 INPUT_EVENT_ABS_MAX;
   abs_entry (code_number ABS_MT_POSITION_Y) 0 INPUT_EVENT_ABS_MAX;
   abs_entry (code_number ABS_MT_TOOL_TYPE) 0 MT_TOOL_MAX;
   abs_entry (code_number ABS_MT_TRACKING_ID) 0 (INPUT_BUTTON__MAX + 1);
   abs_entry (code_number ABS_MT_PRESSURE) 0 MTS_PRESSURE_RANGE_MAX;
   Config CFG_EV_BITS EV_SW 1 (Bitmap (1 :: repeat 0 127))].

Definition device_name (device_id : Z) : bytes := VIRTIO_ID_NAME_ANDROID ++ to_string device_id.

(** [virtio_android_init]: the number and the name of the next device, and the
    configuration QEMU is given, in order. *)
Definition virtio_android_init (device_id : Z) (wheel : bool) :
    option (Z * VirtIOInputAndroidHID * list virtio_input_config) :=
  let device_id := device_id + 1 in
  let name := device_name device_id in
  keys ← virtio_input_extend_config ev_key_codes CFG_EV_BITS EV_KEY_;
  abs ← virtio_input_extend_config ev_abs_codes CFG_EV_BITS EV_ABS_;
  Some (device_id, new_hid wheel,
    [Config CFG_ID_NAME 0 (zlen name) (String_ (take 127 name ++ [0]));
     Config CFG_ID_DEVIDS 0 devids_size (Devids BUS_VIRTUAL 0 0 0); keys; abs] ++ virtio_android_config).
End config.

(** The bit of a code. *)
Definition code_set (bitmap : bytes) (code : Z) : bool :=
  match bitmap !! Z.to_nat (code / 8) with Some byte => Z.testbit byte (code mod 8) | None => false end.

Lemma set_bit_spec code bitmap :
  0 <= code < 8 * zlen bitmap ->
  exists bitmap', set_bit code bitmap = Some bitmap' /\ zlen bitmap' = zlen bitmap /\
    forall c, 0 <= c -> code_set bitmap' c = (c =? code) || code_set bitmap c.
Proof.
  intros Hc. unfold set_bit.
  assert (0 <= code / 8 < zlen bitmap) as Hq
    by (split; [apply Z.div_pos; lia|apply Z.div_lt_upper_bound; lia]).
  destruct (lookup_lt_is_Some_2 bitmap (Z.to_nat (code / 8))) as [byte Hb]; [unfold zlen in Hq; lia|].
  rewrite Hb. cbn. eexists. split; [done|]. split; [unfold zlen; by rewrite length_insert|].
  intros c Hc0. unfold code_set. pose proof (Z.div_mod c 8). pose proof (Z.div_mod code 8).
  pose proof (Z.mod_pos_bound c 8). pose proof (Z.mod_pos_bound code 8).
  assert (0 <= c / 8) by (apply Z.div_pos; lia).
  destruct (decide (c / 8 = code / 8)) as [E|Hne].
  - rewrite E, list_lookup_insert_eq, Hb by (unfold zlen in Hq; lia).
    rewrite Z.lor_spec, Z.shiftl_1_l, Z.pow2_bits_eqb by lia. rewrite orb_comm. f_equal.
    destruct (Z.eqb_spec (code mod 8) (c mod 8)), (Z.eqb_spec c code); lia || done.
  - rewrite list_lookup_insert_ne by lia. destruct (Z.eqb_spec c code) as [->|]; [done|]. done.
Qed.

Lemma extend_loop_spec map bmax bitmap :
  Forall (fun c => 0 <= c < 8 * zlen bitmap) map ->
  exists bmax' bitmap', extend_loop map bmax bitmap = Some (bmax', bitmap') /\ zlen bitmap' = zlen bitmap /\
    bmax <= bmax' /\ (forall c, c ∈ map -> c <> 0 -> c / 8 < bmax') /\
    (bmax <= zlen bitmap -> bmax' <= zlen bitmap) /\
    forall c, 0 <= c -> code_set bitmap' c = (bool_decide (c ∈ map) && negb (c =? 0)) || code_set bitmap c.
Proof.
  revert bmax bitmap. induction map as [|bit map IH]; intros bmax bitmap Hm; cbn [extend_loop].
  { exists bmax, bitmap. split_and!; try done; try lia; set_solver. }
  apply Forall_cons in Hm as [Hbit Hm]. destruct (Z.eqb_spec bit 0) as [->|Hnz].
  - destruct (IH bmax bitmap Hm) as (m & b & -> & Hl & H1 & H2 & H3 & H4). exists m, b.
    split_and!; try done.
    + intros c [->|Hc]%elem_of_cons ?; [done|by apply H2].
    + intros c Hc. rewrite H4 by done. f_equal. destruct (Z.eqb_spec c 0) as [->|]; [by rewrite !andb_false_r|].
      rewrite !andb_true_r. apply bool_decide_ext. set_solver.
  - destruct (set_bit_spec bit bitmap Hbit) as (b1 & -> & Hl1 & Hb1). cbn [mbind option_bind].
    set (bmax1 := if bmax <? bit / 8 + 1 then bit / 8 + 1 else bmax).
    assert (bmax <= bmax1 /\ bit / 8 < bmax1) as [Hm1 Hm2] by (unfold bmax1; case_cmp; lia).
    assert (bit / 8 < zlen bitmap) by (apply Z.div_lt_upper_bound; lia).
    destruct (IH bmax1 b1) as (m & b & -> & Hl & H1 & H2 & H3 & H4); [by rewrite Hl1|].
    exists m, b. split_and!; [done|congruence|lia| | |].
    + intros c [->|Hc]%elem_of_cons ?; [lia|by apply H2].
    + intros Hle. rewrite Hl1 in H3. apply H3. unfold bmax1. case_cmp; lia.
    + intros c Hc. rewrite H4, Hb1 by done. destruct (Z.eqb_spec c bit) as [->|Hne].
      * rewrite (bool_decide_eq_true_2 (bit ∈ bit :: map)) by set_solver.
        rewrite (proj2 (Z.eqb_neq bit 0)) by done. cbn. apply orb_true_r.
      * cbn [orb]. f_equal. f_equal. apply bool_decide_ext. set_solver.
Qed.

(** The bitmap has exactly the bits of the codes of the map other than zero,
    and the size covers them. *)
Theorem extend_config_bits map sel sub :
  Forall (fun c => 0 <= c < 1024) map ->
  exists size bitmap, virtio_input_extend_config map sel sub = Some (Config sel sub size (Bitmap bitmap)) /\
    size <= 128 /\ (forall c, c ∈ map -> c <> 0 -> c / 8 < size) /\
    forall c, 0 <= c -> code_set bitmap c = bool_decide (c ∈ map) && negb (c =? 0).
Proof.
  intros Hm. unfold virtio_input_extend_config.
  destruct (extend_loop_spec map 0 (repeat 0 128)) as (m & b & -> & Hl & _ & H2 & H3 & H4); [exact Hm|].
  exists m, b. split; [done|]. split; [by apply H3|]. split; [done|].
  intros c Hc. rewrite H4 by done. unfold code_set.
  destruct (repeat 0 128 !! Z.to_nat (c / 8)) as [byte|] eqn:E; [|by rewrite orb_false_r].
  change (repeat 0 128) with (replicate 128 0) in E. apply lookup_replicate in E as [-> _].
  by rewrite Z.testbit_0_l, orb_false_r.
Qed.

Lemma extend_config_bits_witness :
  exists size bitmap, virtio_input_extend_config ev_abs_codes CFG_EV_BITS EV_ABS_ =
      Some (Config CFG_EV_BITS EV_ABS_ size (Bitmap bitmap)) /\
    size <= 128 /\ (forall c, c ∈ ev_abs_codes -> c <> 0 -> c / 8 < size) /\
    forall c, 0 <= c -> code_set bitmap c = bool_decide (c ∈ ev_abs_codes) && negb (c =? 0).
Proof.
  apply (extend_config_bits ev_abs_codes CFG_EV_BITS EV_ABS_). repeat (constructor; [vm_compute; split; [discriminate|reflexivity]|]). constructor.
Defined.

(** Each device has its own name: the first one is called 1. *)
Example first_device_name : device_name 1 = str "virtio_input_multi_touch_1".
Proof. reflexivity. Qed.
