(* ===== verification/KeyTables.v ===== *)
(** * The tables of the keyboard

    The data of
    [emulator/android-grpc/services/emulator-controller/keyboard/src]: the
    characters of the keys ([KeyConversion.cpp]), the key codes of the
    platforms ([keycode_converter_data.inc]), the names of the DOM keys
    ([dom_key_data.inc]) and the keys without a character
    ([KeyEventSender.cpp]).  A DOM code is its USB code and a DOM key its
    encoding, as in the source; the codes of QEMU are their names. *)

From S2P Require Import Prelude.

(** [SkinKeyEntry]; the code is the name after [Q_KEY_CODE_]. *)
Record SkinKeyEntry := Skin {
  code : string; base : Z; caps : Z; fn : Z; caps_fn : Z; number : Z;
}.

Definition cmap : list SkinKeyEntry := [
  Skin "A" 97 65 225 193 97;
  Skin "B" 98 66 98 66 98;
  Skin "C" 99 67 169 162 99;
  Skin "D" 100 68 240 208 39;
  Skin "E" 101 69 233 201 34;
  Skin "F" 102 70 91 91 91;
  Skin "G" 103 71 93 93 93;
  Skin "H" 104 72 60 60 60;
  Skin "I" 105 73 237 205 45;
  Skin "J" 106 74 62 62 62;
  Skin "K" 107 75 59 75 59;
  Skin "L" 108 76 248 216 58;
  Skin "M" 109 77 181 77 37;
  Skin "N" 110 78 241 209 110;
  Skin "O" 111 79 243 211 43;
  Skin "P" 112 80 246 214 61;
  Skin "Q" 113 81 228 196 124;
  Skin "R" 114 82 174 82 96;
  Skin "S" 115 83 223 167 92;
  Skin "T" 116 84 254 222 125;
  Skin "U" 117 85 250 218 95;
  Skin "V" 118 86 118 86 118;
  Skin "W" 119 87 229 197 126;
  Skin "X" 120 88 120 88 120;
  Skin "Y" 121 89 252 220 125;
  Skin "Z" 122 90 230 198 122;
  Skin "COMMA" 44 60 231 199 44;
  Skin "DOT" 46 62 46 8230 46;
  Skin "SLASH" 47 63 191 63 47;
  Skin "SPC" 32 32 9 9 32;
  Skin "LF" 10 10 10 10 10;
  Skin "0" 48 41 700 41 48;
  Skin "1" 49 33 161 185 49;
  Skin "2" 50 64 178 64 50;
  Skin "3" 51 35 179 35 51;
  Skin "4" 52 36 164 163 52;
  Skin "5" 53 37 8364 37 53;
  Skin "6" 54 94 188 770 54;
  Skin "7" 55 38 189 38 55;
  Skin "8" 56 42 190 42 56;
  Skin "9" 57 40 699 40 57;
  Skin "TAB" 9 9 9 9 9;
  Skin "GRAVE_ACCENT" 96 126 768 771 96;
  Skin "MINUS" 45 95 165 95 45;
  Skin "EQUAL" 61 43 215 247 61;
  Skin "BRACKET_LEFT" 91 123 171 123 91;
  Skin "BRACKET_RIGHT" 93 125 187 125 93;
  Skin "BACKSLASH" 92 124 172 166 92;
  Skin "SEMICOLON" 59 58 182 176 59;
  Skin "APOSTROPHE" 39 34 769 776 39
].

(** [KeycodeMapEntry], without the name. *)
Record KeycodeMapEntry := Keycode { usb : Z; evdev : Z; xkb : Z; win : Z; mac : Z }.

Definition usb_keycode_map : list KeycodeMapEntry := [
  Keycode 0 0 0 0 65535;
  Keycode 16 0 0 0 65535;
  Keycode 17 0 0 0 65535;
  Keycode 18 0 0 0 65535;
  Keycode 19 0 0 0 65535;
  Keycode 20 0 0 0 65535;
  Keycode 21 0 0 0 65535;
  Keycode 22 0 0 0 65535;
  Keycode 65666 142 150 57439 65535;
  Keycode 65667 143 151 57443 65535;
  Keycode 65717 227 235 0 65535;
  Keycode 458752 0 0 0 65535;
  Keycode 458753 0 0 255 65535;
  Keycode 458754 0 0 252 65535;
  Keycode 458755 0 0 0 65535;
  Keycode 458756 30 38 30 0;
  Keycode 458757 48 56 48 11;
  Keycode 458758 46 54 46 8;
  Keycode 458759 32 40 32 2;
  Keycode 458760 18 26 18 14;
  Keycode 458761 33 41 33 3;
  Keycode 458762 34 42 34 5;
  Keycode 458763 35 43 35 4;
  Keycode 458764 23 31 23 34;
  Keycode 458765 36 44 36 38;
  Keycode 458766 37 45 37 40;
  Keycode 458767 38 46 38 37;
  Keycode 458768 50 58 50 46;
  Keycode 458769 49 57 49 45;
  Keycode 458770 24 32 24 31;
  Keycode 458771 25 33 25 35;
  Keycode 458772 16 24 16 12;
  Keycode 458773 19 27 19 15;
  Keycode 458774 31 39 31 1;
  Keycode 458775 20 28 20 17;
  Keycode 458776 22 30 22 32;
  Keycode 458777 47 55 47 9;
  Keycode 458778 17 25 17 13;
  Keycode 458779 45 53 45 7;
  Keycode 458780 21 29 21 16;
  Keycode 458781 44 52 44 6;
  Keycode 458782 2 10 2 18;
  Keycode 458783 3 11 3 19;
  Keycode 458784 4 12 4 20;
  Keycode 458785 5 13 5 21;
  Keycode 458786 6 14 6 23;
  Keycode 458787 7 15 7 22;
  Keycode 458788 8 16 8 26;
  Keycode 458789 9 17 9 28;
  Keycode 458790 10 18 10 25;
  Keycode 458791 11 19 11 29;
  Keycode 458792 28 36 28 36;
  Keycode 458793 1 9 1 53;
  Keycode 458794 14 22 14 51;
  Keycode 458795 15 23 15 48;
  Keycode 458796 57 65 57 49;
  Keycode 458797 12 20 12 27;
  Keycode 458798 13 21 13 24;
  Keycode 458799 26 34 26 33;
  Keycode 458800 27 35 27 30;
  Keycode 458801 43 51 43 42;
  Keycode 458802 0 0 0 65535;
  Keycode 458803 39 47 39 41;
  Keycode 458804 40 48 40 39;
  Keycode 458805 41 49 41 50;
  Keycode 458806 51 59 51 43;
  Keycode 458807 52 60 52 47;
  Keycode 458808 53 61 53 44;
  Keycode 458809 58 66 58 57;
  Keycode 458810 59 67 59 122;
  Keycode 458811 60 68 60 120;
  Keycode 458812 61 69 61 99;
  Keycode 458813 62 70 62 118;
  Keycode 458814 63 71 63 96;
  Keycode 458815 64 72 64 97;
  Keycode 458816 65 73 65 98;
  Keycode 458817 66 74 66 100;
  Keycode 458818 67 75 67 101;
  Keycode 458819 68 76 68 109;
  Keycode 458820 87 95 87 103;
  Keycode 458821 88 96 88 111;
  Keycode 458822 99 107 57399 65535;
  Keycode 458823 70 78 70 65535;
  Keycode 458824 119 127 69 65535;
  Keycode 458825 110 118 57426 114;
  Keycode 458826 452 110 57415 115;
  Keycode 458827 104 112 57417 116;
  Keycode 458828 111 119 57427 117;
  Keycode 458829 453 115 57423 119;
  Keycode 458830 109 117 57425 121;
  Keycode 458831 106 114 57421 124;
  Keycode 458832 105 113 57419 123;
  Keycode 458833 108 116 57424 125;
  Keycode 458834 103 111 57416 126;
  Keycode 458835 69 77 57413 71;
  Keycode 458836 98 106 57397 75;
  Keycode 458837 55 63 55 67;
  Keycode 458838 74 82 74 78;
  Keycode 458839 78 86 78 69;
  Keycode 458840 96 104 57372 76;
  Keycode 458841 79 87 79 83;
  Keycode 458842 80 88 80 84;
  Keycode 458843 81 89 81 85;
  Keycode 458844 75 83 75 86;
  Keycode 458845 76 84 76 87;
  Keycode 458846 77 85 77 88;
  Keycode 458847 71 79 71 89;
  Keycode 458848 72 80 72 91;
  Keycode 458849 73 81 73 92;
  Keycode 458850 82 90 82 82;
  Keycode 458851 83 91 83 65;
  Keycode 458852 86 94 86 10;
  Keycode 458853 127 135 57437 110;
  Keycode 458854 116 124 57438 65535;
  Keycode 458855 117 125 89 81;
  Keycode 458856 183 191 100 105;
  Keycode 458857 184 192 101 107;
  Keycode 458858 185 193 102 113;
  Keycode 458859 186 194 103 106;
  Keycode 458860 187 195 104 64;
  Keycode 458861 188 196 105 79;
  Keycode 458862 189 197 106 80;
  Keycode 458863 190 198 107 90;
  Keycode 458864 191 199 108 65535;
  Keycode 458865 192 200 109 65535;
  Keycode 458866 193 201 110 65535;
  Keycode 458867 194 202 118 65535;
  Keycode 458868 134 142 0 65535;
  Keycode 458869 138 146 57403 65535;
  Keycode 458871 132 140 0 65535;
  Keycode 458873 129 137 0 65535;
  Keycode 458874 131 139 57352 65535;
  Keycode 458875 137 145 57367 65535;
  Keycode 458876 133 141 57368 65535;
  Keycode 458877 135 143 57354 65535;
  Keycode 458878 136 144 0 65535;
  Keycode 458879 113 121 57376 74;
  Keycode 458880 115 123 57392 72;
  Keycode 458881 114 122 57390 73;
  Keycode 458885 121 129 126 95;
  Keycode 458887 89 97 115 94;
  Keycode 458888 93 101 112 104;
  Keycode 458889 124 132 125 93;
  Keycode 458890 92 100 121 65535;
  Keycode 458891 94 102 123 65535;
  Keycode 458896 122 130 114 65535;
  Keycode 458897 123 131 113 65535;
  Keycode 458898 90 98 120 65535;
  Keycode 458899 91 99 119 65535;
  Keycode 458900 85 93 0 65535;
  Keycode 458907 0 0 0 65535;
  Keycode 458915 0 0 0 65535;
  Keycode 458934 179 187 0 65535;
  Keycode 458935 180 188 0 65535;
  Keycode 458939 0 0 0 65535;
  Keycode 458960 0 0 0 65535;
  Keycode 458961 0 0 0 65535;
  Keycode 458962 0 0 0 65535;
  Keycode 458963 0 0 0 65535;
  Keycode 458964 0 0 0 65535;
  Keycode 458967 118 126 0 65535;
  Keycode 458968 0 0 0 65535;
  Keycode 458969 0 0 0 65535;
  Keycode 458976 29 37 29 59;
  Keycode 458977 42 50 42 56;
  Keycode 458978 56 64 56 58;
  Keycode 458979 125 133 57435 55;
  Keycode 458980 97 105 57373 62;
  Keycode 458981 54 62 54 60;
  Keycode 458982 100 108 57400 61;
  Keycode 458983 126 134 57436 54;
  Keycode 786528 358 366 0 65535;
  Keycode 786529 370 378 0 65535;
  Keycode 786543 225 233 0 65535;
  Keycode 786544 224 232 0 65535;
  Keycode 786546 431 439 0 65535;
  Keycode 786547 592 600 0 65535;
  Keycode 786548 593 601 0 65535;
  Keycode 786549 244 252 0 65535;
  Keycode 786563 405 413 0 65535;
  Keycode 786572 169 177 0 65535;
  Keycode 786573 362 370 0 65535;
  Keycode 786580 174 182 0 65535;
  Keycode 786588 410 418 0 65535;
  Keycode 786589 411 419 0 65535;
  Keycode 786608 207 215 0 65535;
  Keycode 786610 167 175 0 65535;
  Keycode 786611 208 216 0 65535;
  Keycode 786612 168 176 0 65535;
  Keycode 786613 163 171 57369 65535;
  Keycode 786614 165 173 57360 65535;
  Keycode 786615 166 174 57380 65535;
  Keycode 786616 161 169 57388 65535;
  Keycode 786637 164 172 57378 65535;
  Keycode 786639 582 590 0 65535;
  Keycode 786661 209 217 0 65535;
  Keycode 786819 171 179 57453 65535;
  Keycode 786820 421 429 0 65535;
  Keycode 786822 423 431 0 65535;
  Keycode 786826 155 163 57452 65535;
  Keycode 786829 429 437 0 65535;
  Keycode 786830 397 405 0 65535;
  Keycode 786834 140 148 57377 65535;
  Keycode 786836 144 152 57451 65535;
  Keycode 786838 150 158 0 65535;
  Keycode 786844 433 441 0 65535;
  Keycode 786846 152 160 0 65535;
  Keycode 786847 579 587 0 65535;
  Keycode 786850 580 588 0 65535;
  Keycode 786855 235 243 0 65535;
  Keycode 786859 432 440 0 65535;
  Keycode 786862 374 382 0 65535;
  Keycode 786865 581 589 0 65535;
  Keycode 786891 583 591 0 65535;
  Keycode 786871 392 400 0 65535;
  Keycode 786945 181 189 0 65535;
  Keycode 786947 206 214 0 65535;
  Keycode 786951 234 242 0 65535;
  Keycode 786952 210 218 0 65535;
  Keycode 786977 217 225 57445 65535;
  Keycode 786979 172 180 57394 65535;
  Keycode 786980 158 166 57450 65535;
  Keycode 786981 159 167 57449 65535;
  Keycode 786982 128 136 57448 65535;
  Keycode 786983 173 181 57447 65535;
  Keycode 786986 156 164 57446 65535;
  Keycode 786989 418 426 0 65535;
  Keycode 786990 419 427 0 65535;
  Keycode 786994 372 380 0 65535;
  Keycode 787065 182 190 0 65535;
  Keycode 787081 232 240 0 65535;
  Keycode 787083 233 241 0 65535;
  Keycode 787084 231 239 0 65535;
  Keycode 787103 120 128 0 65535;
  Keycode 786980 158 0 0 65535;
  Keycode 786858 102 110 57415 115;
  Keycode 786850 580 588 0 65535
].

(** The names of the DOM keys and their encodings; the second number of a
    pair is [TYPE_UNICODE] or [TYPE_NON_UNICODE] with the value. *)
Definition TYPE_UNICODE : Z := 4194304.
Definition TYPE_NON_UNICODE : Z := 2097152.

Definition dom_key_map : list (string * Z) := [
  ("Backspace"%string, TYPE_UNICODE + 8);
  ("Tab"%string, TYPE_UNICODE + 9);
  ("Enter"%string, TYPE_UNICODE + 13);
  ("Escape"%string, TYPE_UNICODE + 27);
  ("Delete"%string, TYPE_UNICODE + 127);
  ("Unidentified"%string, TYPE_NON_UNICODE + 1);
  ("Accel"%string, TYPE_NON_UNICODE + 257);
  ("Alt"%string, TYPE_NON_UNICODE + 258);
  ("AltGraph"%string, TYPE_NON_UNICODE + 259);
  ("CapsLock"%string, TYPE_NON_UNICODE + 260);
  ("Control"%string, TYPE_NON_UNICODE + 261);
  ("Fn"%string, TYPE_NON_UNICODE + 262);
  ("FnLock"%string, TYPE_NON_UNICODE + 263);
  ("Hyper"%string, TYPE_NON_UNICODE + 264);
  ("Meta"%string, TYPE_NON_UNICODE + 265);
  ("NumLock"%string, TYPE_NON_UNICODE + 266);
  ("ScrollLock"%string, TYPE_NON_UNICODE + 268);
  ("Shift"%string, TYPE_NON_UNICODE + 269);
  ("Super"%string, TYPE_NON_UNICODE + 270);
  ("Symbol"%string, TYPE_NON_UNICODE + 271);
  ("SymbolLock"%string, TYPE_NON_UNICODE + 272);
  ("ShiftLevel5"%string, TYPE_NON_UNICODE + 273);
  (".AltGraphLatch"%string, TYPE_NON_UNICODE + 274);
  ("ArrowDown"%string, TYPE_NON_UNICODE + 769);
  ("ArrowLeft"%string, TYPE_NON_UNICODE + 770);
  ("ArrowRight"%string, TYPE_NON_UNICODE + 771);
  ("ArrowUp"%string, TYPE_NON_UNICODE + 772);
  ("End"%string, TYPE_NON_UNICODE + 773);
  ("Home"%string, TYPE_NON_UNICODE + 774);
  ("PageDown"%string, TYPE_NON_UNICODE + 775);
  ("PageUp"%string, TYPE_NON_UNICODE + 776);
  ("Clear"%string, TYPE_NON_UNICODE + 1025);
  ("Copy"%string, TYPE_NON_UNICODE + 1026);
  ("CrSel"%string, TYPE_NON_UNICODE + 1027);
  ("Cut"%string, TYPE_NON_UNICODE + 1028);
  ("EraseEof"%string, TYPE_NON_UNICODE + 1029);
  ("ExSel"%string, TYPE_NON_UNICODE + 1030);
  ("Insert"%string, TYPE_NON_UNICODE + 1031);
  ("Paste"%string, TYPE_NON_UNICODE + 1032);
  ("Redo"%string, TYPE_NON_UNICODE + 1033);
  ("Undo"%string, TYPE_NON_UNICODE + 1034);
  ("Accept"%string, TYPE_NON_UNICODE + 1281);
  ("Again"%string, TYPE_NON_UNICODE + 1282);
  ("Attn"%string, TYPE_NON_UNICODE + 1283);
  ("Cancel"%string, TYPE_NON_UNICODE + 1284);
  ("ContextMenu"%string, TYPE_NON_UNICODE + 1285);
  ("Execute"%string, TYPE_NON_UNICODE + 1286);
  ("Find"%string, TYPE_NON_UNICODE + 1287);
  ("Help"%string, TYPE_NON_UNICODE + 1288);
  ("Pause"%string, TYPE_NON_UNICODE + 1289);
  ("Play"%string, TYPE_NON_UNICODE + 1290);
  ("Props"%string, TYPE_NON_UNICODE + 1291);
  ("Select"%string, TYPE_NON_UNICODE + 1292);
  ("ZoomIn"%string, TYPE_NON_UNICODE + 1293);
  ("ZoomOut"%string, TYPE_NON_UNICODE + 1294);
  ("BrightnessDown"%string, TYPE_NON_UNICODE + 1537);
  ("BrightnessUp"%string, TYPE_NON_UNICODE + 1538);
  ("Eject"%string, TYPE_NON_UNICODE + 1540);
  ("LogOff"%string, TYPE_NON_UNICODE + 1541);
  ("Power"%string, TYPE_NON_UNICODE + 1542);
  ("PowerOff"%string, TYPE_NON_UNICODE + 1543);
  ("PrintScreen"%string, TYPE_NON_UNICODE + 1544);
  ("Hibernate"%string, TYPE_NON_UNICODE + 1545);
  ("Standby"%string, TYPE_NON_UNICODE + 1546);
  ("WakeUp"%string, TYPE_NON_UNICODE + 1547);
  ("AllCandidates"%string, TYPE_NON_UNICODE + 1793);
  ("Alphanumeric"%string, TYPE_NON_UNICODE + 1794);
  ("CodeInput"%string, TYPE_NON_UNICODE + 1795);
  ("Compose"%string, TYPE_NON_UNICODE + 1796);
  ("Convert"%string, TYPE_NON_UNICODE + 1797);
  ("FinalMode"%string, TYPE_NON_UNICODE + 1798);
  ("GroupFirst"%string, TYPE_NON_UNICODE + 1799);
  ("GroupLast"%string, TYPE_NON_UNICODE + 1800);
  ("GroupNext"%string, TYPE_NON_UNICODE + 1801);
  ("GroupPrevious"%string, TYPE_NON_UNICODE + 1802);
  ("ModeChange"%string, TYPE_NON_UNICODE + 1803);
  ("NextCandidate"%string, TYPE_NON_UNICODE + 1804);
  ("NonConvert"%string, TYPE_NON_UNICODE + 1805);
  ("PreviousCandidate"%string, TYPE_NON_UNICODE + 1806);
  ("Process"%string, TYPE_NON_UNICODE + 1807);
  ("SingleCandidate"%string, TYPE_NON_UNICODE + 1808);
  ("HangulMode"%string, TYPE_NON_UNICODE + 1809);
  ("HanjaMode"%string, TYPE_NON_UNICODE + 1810);
  ("JunjaMode"%string, TYPE_NON_UNICODE + 1811);
  ("Eisu"%string, TYPE_NON_UNICODE + 1812);
  ("Hankaku"%string, TYPE_NON_UNICODE + 1813);
  ("Hiragana"%string, TYPE_NON_UNICODE + 1814);
  ("HiraganaKatakana"%string, TYPE_NON_UNICODE + 1815);
  ("KanaMode"%string, TYPE_NON_UNICODE + 1816);
  ("KanjiMode"%string, TYPE_NON_UNICODE + 1817);
  ("Katakana"%string, TYPE_NON_UNICODE + 1818);
  ("Romaji"%string, TYPE_NON_UNICODE + 1819);
  ("Zenkaku"%string, TYPE_NON_UNICODE + 1820);
  ("ZenkakuHankaku"%string, TYPE_NON_UNICODE + 1821);
  ("F1"%string, TYPE_NON_UNICODE + 2049);
  ("F2"%string, TYPE_NON_UNICODE + 2050);
  ("F3"%string, TYPE_NON_UNICODE + 2051);
  ("F4"%string, TYPE_NON_UNICODE + 2052);
  ("F5"%string, TYPE_NON_UNICODE + 2053);
  ("F6"%string, TYPE_NON_UNICODE + 2054);
  ("F7"%string, TYPE_NON_UNICODE + 2055);
  ("F8"%string, TYPE_NON_UNICODE + 2056);
  ("F9"%string, TYPE_NON_UNICODE + 2057);
  ("F10"%string, TYPE_NON_UNICODE + 2058);
  ("F11"%string, TYPE_NON_UNICODE + 2059);
  ("F12"%string, TYPE_NON_UNICODE + 2060);
  ("F13"%string, TYPE_NON_UNICODE + 2061);
  ("F14"%string, TYPE_NON_UNICODE + 2062);
  ("F15"%string, TYPE_NON_UNICODE + 2063);
  ("F16"%string, TYPE_NON_UNICODE + 2064);
  ("F17"%string, TYPE_NON_UNICODE + 2065);
  ("F18"%string, TYPE_NON_UNICODE + 2066);
  ("F19"%string, TYPE_NON_UNICODE + 2067);
  ("F20"%string, TYPE_NON_UNICODE + 2068);
  ("F21"%string, TYPE_NON_UNICODE + 2069);
  ("F22"%string, TYPE_NON_UNICODE + 2070);
  ("F23"%string, TYPE_NON_UNICODE + 2071);
  ("F24"%string, TYPE_NON_UNICODE + 2072);
  ("Soft1"%string, TYPE_NON_UNICODE + 2305);
  ("Soft2"%string, TYPE_NON_UNICODE + 2306);
  ("Soft3"%string, TYPE_NON_UNICODE + 2307);
  ("Soft4"%string, TYPE_NON_UNICODE + 2308);
  ("Soft5"%string, TYPE_NON_UNICODE + 2309);
  ("Soft6"%string, TYPE_NON_UNICODE + 2310);
  ("Soft7"%string, TYPE_NON_UNICODE + 2311);
  ("Soft8"%string, TYPE_NON_UNICODE + 2312);
  ("ChannelDown"%string, TYPE_NON_UNICODE + 3338);
  ("ChannelUp"%string, TYPE_NON_UNICODE + 3339);
  ("Close"%string, TYPE_NON_UNICODE + 2561);
  ("MailForward"%string, TYPE_NON_UNICODE + 2562);
  ("MailReply"%string, TYPE_NON_UNICODE + 2563);
  ("MailSend"%string, TYPE_NON_UNICODE + 2564);
  ("MediaClose"%string, TYPE_NON_UNICODE + 3419);
  ("MediaFastForward"%string, TYPE_NON_UNICODE + 3372);
  ("MediaPause"%string, TYPE_NON_UNICODE + 3374);
  ("MediaPlay"%string, TYPE_NON_UNICODE + 3375);
  ("MediaPlayPause"%string, TYPE_NON_UNICODE + 2565);
  ("MediaRecord"%string, TYPE_NON_UNICODE + 3376);
  ("MediaRewind"%string, TYPE_NON_UNICODE + 3377);
  ("MediaStop"%string, TYPE_NON_UNICODE + 2567);
  ("MediaTrackNext"%string, TYPE_NON_UNICODE + 2568);
  ("MediaTrackPrevious"%string, TYPE_NON_UNICODE + 2569);
  ("New"%string, TYPE_NON_UNICODE + 2570);
  ("Open"%string, TYPE_NON_UNICODE + 2571);
  ("Print"%string, TYPE_NON_UNICODE + 2572);
  ("Save"%string, TYPE_NON_UNICODE + 2573);
  ("SpellCheck"%string, TYPE_NON_UNICODE + 2574);
  ("Key11"%string, TYPE_NON_UNICODE + 4609);
  ("Key12"%string, TYPE_NON_UNICODE + 4610);
  ("AudioBalanceLeft"%string, TYPE_NON_UNICODE + 3329);
  ("AudioBalanceRight"%string, TYPE_NON_UNICODE + 3330);
  ("AudioBassBoostDown"%string, TYPE_NON_UNICODE + 3331);
  ("AudioBassBoostToggle"%string, TYPE_NON_UNICODE + 3586);
  ("AudioBassBoostUp"%string, TYPE_NON_UNICODE + 3332);
  ("AudioFaderFront"%string, TYPE_NON_UNICODE + 3333);
  ("AudioFaderRear"%string, TYPE_NON_UNICODE + 3334);
  ("AudioSurroundModeNext"%string, TYPE_NON_UNICODE + 3335);
  ("AudioTrebleDown"%string, TYPE_NON_UNICODE + 3588);
  ("AudioTrebleUp"%string, TYPE_NON_UNICODE + 3589);
  ("AudioVolumeDown"%string, TYPE_NON_UNICODE + 2575);
  ("AudioVolumeUp"%string, TYPE_NON_UNICODE + 2576);
  ("AudioVolumeMute"%string, TYPE_NON_UNICODE + 2577);
  ("MicrophoneToggle"%string, TYPE_NON_UNICODE + 3590);
  ("MicrophoneVolumeDown"%string, TYPE_NON_UNICODE + 3591);
  ("MicrophoneVolumeUp"%string, TYPE_NON_UNICODE + 3592);
  ("MicrophoneVolumeMute"%string, TYPE_NON_UNICODE + 3593);
  ("SpeechCorrectionList"%string, TYPE_NON_UNICODE + 3841);
  ("SpeechInputToggle"%string, TYPE_NON_UNICODE + 3842);
  ("LaunchApplication1"%string, TYPE_NON_UNICODE + 2822);
  ("LaunchApplication2"%string, TYPE_NON_UNICODE + 2817);
  ("LaunchCalendar"%string, TYPE_NON_UNICODE + 2818);
  ("LaunchContacts"%string, TYPE_NON_UNICODE + 2828);
  ("LaunchMail"%string, TYPE_NON_UNICODE + 2819);
  ("LaunchMediaPlayer"%string, TYPE_NON_UNICODE + 2820);
  ("LaunchMusicPlayer"%string, TYPE_NON_UNICODE + 2821);
  ("LaunchPhone"%string, TYPE_NON_UNICODE + 2829);
  ("LaunchScreenSaver"%string, TYPE_NON_UNICODE + 2823);
  ("LaunchSpreadsheet"%string, TYPE_NON_UNICODE + 2824);
  ("LaunchWebBrowser"%string, TYPE_NON_UNICODE + 2825);
  ("LaunchWebCam"%string, TYPE_NON_UNICODE + 2826);
  ("LaunchWordProcessor"%string, TYPE_NON_UNICODE + 2827);
  ("LaunchAssistant"%string, TYPE_NON_UNICODE + 2830);
  ("LaunchControlPanel"%string, TYPE_NON_UNICODE + 2831);
  ("BrowserBack"%string, TYPE_NON_UNICODE + 3073);
  ("BrowserFavorites"%string, TYPE_NON_UNICODE + 3074);
  ("BrowserForward"%string, TYPE_NON_UNICODE + 3075);
  ("BrowserHome"%string, TYPE_NON_UNICODE + 3076);
  ("BrowserRefresh"%string, TYPE_NON_UNICODE + 3077);
  ("BrowserSearch"%string, TYPE_NON_UNICODE + 3078);
  ("BrowserStop"%string, TYPE_NON_UNICODE + 3079);
  ("AppSwitch"%string, TYPE_NON_UNICODE + 4097);
  ("Call"%string, TYPE_NON_UNICODE + 4098);
  ("Camera"%string, TYPE_NON_UNICODE + 1539);
  ("CameraFocus"%string, TYPE_NON_UNICODE + 4099);
  ("EndCall"%string, TYPE_NON_UNICODE + 4100);
  ("GoBack"%string, TYPE_NON_UNICODE + 4101);
  ("GoHome"%string, TYPE_NON_UNICODE + 4102);
  ("HeadsetHook"%string, TYPE_NON_UNICODE + 4103);
  ("LastNumberRedial"%string, TYPE_NON_UNICODE + 4104);
  ("Notification"%string, TYPE_NON_UNICODE + 4105);
  ("MannerMode"%string, TYPE_NON_UNICODE + 4106);
  ("VoiceDial"%string, TYPE_NON_UNICODE + 4107);
  ("TV"%string, TYPE_NON_UNICODE + 3401);
  ("TV3DMode"%string, TYPE_NON_UNICODE + 4353);
  ("TVAntennaCable"%string, TYPE_NON_UNICODE + 4354);
  ("TVAudioDescription"%string, TYPE_NON_UNICODE + 4355);
  ("TVAudioDescriptionMixDown"%string, TYPE_NON_UNICODE + 4356);
  ("TVAudioDescriptionMixUp"%string, TYPE_NON_UNICODE + 4357);
  ("TVContentsMenu"%string, TYPE_NON_UNICODE + 4358);
  ("TVDataService"%string, TYPE_NON_UNICODE + 4359);
  ("TVInput"%string, TYPE_NON_UNICODE + 3402);
  ("TVInputComponent1"%string, TYPE_NON_UNICODE + 4360);
  ("TVInputComponent2"%string, TYPE_NON_UNICODE + 4361);
  ("TVInputComposite1"%string, TYPE_NON_UNICODE + 4362);
  ("TVInputComposite2"%string, TYPE_NON_UNICODE + 4363);
  ("TVInputHDMI1"%string, TYPE_NON_UNICODE + 4364);
  ("TVInputHDMI2"%string, TYPE_NON_UNICODE + 4365);
  ("TVInputHDMI3"%string, TYPE_NON_UNICODE + 4366);
  ("TVInputHDMI4"%string, TYPE_NON_UNICODE + 4367);
  ("TVInputVGA1"%string, TYPE_NON_UNICODE + 4368);
  ("TVMediaContext"%string, TYPE_NON_UNICODE + 4369);
  ("TVNetwork"%string, TYPE_NON_UNICODE + 4370);
  ("TVNumberEntry"%string, TYPE_NON_UNICODE + 4371);
  ("TVPower"%string, TYPE_NON_UNICODE + 3403);
  ("TVRadioService"%string, TYPE_NON_UNICODE + 4372);
  ("TVSatellite"%string, TYPE_NON_UNICODE + 4373);
  ("TVSatelliteBS"%string, TYPE_NON_UNICODE + 4374);
  ("TVSatelliteCS"%string, TYPE_NON_UNICODE + 4375);
  ("TVSatelliteToggle"%string, TYPE_NON_UNICODE + 4376);
  ("TVTerrestrialAnalog"%string, TYPE_NON_UNICODE + 4377);
  ("TVTerrestrialDigital"%string, TYPE_NON_UNICODE + 4378);
  ("TVTimer"%string, TYPE_NON_UNICODE + 4379);
  ("AVRInput"%string, TYPE_NON_UNICODE + 3336);
  ("AVRPower"%string, TYPE_NON_UNICODE + 3337);
  ("ColorF0Red"%string, TYPE_NON_UNICODE + 3340);
  ("ColorF1Green"%string, TYPE_NON_UNICODE + 3341);
  ("ColorF2Yellow"%string, TYPE_NON_UNICODE + 3342);
  ("ColorF3Blue"%string, TYPE_NON_UNICODE + 3343);
  ("ColorF4Grey"%string, TYPE_NON_UNICODE + 3344);
  ("ColorF5Brown"%string, TYPE_NON_UNICODE + 3345);
  ("ClosedCaptionToggle"%string, TYPE_NON_UNICODE + 3346);
  ("Dimmer"%string, TYPE_NON_UNICODE + 3347);
  ("DisplaySwap"%string, TYPE_NON_UNICODE + 3348);
  ("DVR"%string, TYPE_NON_UNICODE + 3407);
  ("Exit"%string, TYPE_NON_UNICODE + 3349);
  ("FavoriteClear0"%string, TYPE_NON_UNICODE + 3350);
  ("FavoriteClear1"%string, TYPE_NON_UNICODE + 3351);
  ("FavoriteClear2"%string, TYPE_NON_UNICODE + 3352);
  ("FavoriteClear3"%string, TYPE_NON_UNICODE + 3353);
  ("FavoriteRecall0"%string, TYPE_NON_UNICODE + 3354);
  ("FavoriteRecall1"%string, TYPE_NON_UNICODE + 3355);
  ("FavoriteRecall2"%string, TYPE_NON_UNICODE + 3356);
  ("FavoriteRecall3"%string, TYPE_NON_UNICODE + 3357);
  ("FavoriteStore0"%string, TYPE_NON_UNICODE + 3358);
  ("FavoriteStore1"%string, TYPE_NON_UNICODE + 3359);
  ("FavoriteStore2"%string, TYPE_NON_UNICODE + 3360);
  ("FavoriteStore3"%string, TYPE_NON_UNICODE + 3361);
  ("Guide"%string, TYPE_NON_UNICODE + 3362);
  ("GuideNextDay"%string, TYPE_NON_UNICODE + 3363);
  ("GuidePreviousDay"%string, TYPE_NON_UNICODE + 3364);
  ("Info"%string, TYPE_NON_UNICODE + 3365);
  ("InstantReplay"%string, TYPE_NON_UNICODE + 3366);
  ("Link"%string, TYPE_NON_UNICODE + 3367);
  ("ListProgram"%string, TYPE_NON_UNICODE + 3368);
  ("LiveContent"%string, TYPE_NON_UNICODE + 3369);
  ("Lock"%string, TYPE_NON_UNICODE + 3370);
  ("MediaApps"%string, TYPE_NON_UNICODE + 3371);
  ("MediaAudioTrack"%string, TYPE_NON_UNICODE + 3408);
  ("MediaLast"%string, TYPE_NON_UNICODE + 3373);
  ("MediaSkipBackward"%string, TYPE_NON_UNICODE + 3409);
  ("MediaSkipForward"%string, TYPE_NON_UNICODE + 3410);
  ("MediaSkip"%string, TYPE_NON_UNICODE + 3378);
  ("MediaStepBackward"%string, TYPE_NON_UNICODE + 3411);
  ("MediaStepForward"%string, TYPE_NON_UNICODE + 3412);
  ("MediaTopMenu"%string, TYPE_NON_UNICODE + 3413);
  ("NavigateIn"%string, TYPE_NON_UNICODE + 3414);
  ("NavigateNext"%string, TYPE_NON_UNICODE + 3415);
  ("NavigateOut"%string, TYPE_NON_UNICODE + 3416);
  ("NavigatePrevious"%string, TYPE_NON_UNICODE + 3417);
  ("NextFavoriteChannel"%string, TYPE_NON_UNICODE + 3379);
  ("NextUserProfile"%string, TYPE_NON_UNICODE + 3380);
  ("OnDemand"%string, TYPE_NON_UNICODE + 3381);
  ("Pairing"%string, TYPE_NON_UNICODE + 3418);
  ("PinPDown"%string, TYPE_NON_UNICODE + 3382);
  ("PinPMove"%string, TYPE_NON_UNICODE + 3383);
  ("PinPToggle"%string, TYPE_NON_UNICODE + 3384);
  ("PinPUp"%string, TYPE_NON_UNICODE + 3385);
  ("PlaySpeedDown"%string, TYPE_NON_UNICODE + 3386);
  ("PlaySpeedReset"%string, TYPE_NON_UNICODE + 3387);
  ("PlaySpeedUp"%string, TYPE_NON_UNICODE + 3388);
  ("RandomToggle"%string, TYPE_NON_UNICODE + 3389);
  ("RcLowBattery"%string, TYPE_NON_UNICODE + 3390);
  ("RecordSpeedNext"%string, TYPE_NON_UNICODE + 3391);
  ("RfBypass"%string, TYPE_NON_UNICODE + 3392);
  ("ScanChannelsToggle"%string, TYPE_NON_UNICODE + 3393);
  ("ScreenModeNext"%string, TYPE_NON_UNICODE + 3394);
  ("Settings"%string, TYPE_NON_UNICODE + 3395);
  ("SplitScreenToggle"%string, TYPE_NON_UNICODE + 3396);
  ("STBInput"%string, TYPE_NON_UNICODE + 3397);
  ("STBPower"%string, TYPE_NON_UNICODE + 3398);
  ("Subtitle"%string, TYPE_NON_UNICODE + 3399);
  ("Teletext"%string, TYPE_NON_UNICODE + 3400);
  ("VideoModeNext"%string, TYPE_NON_UNICODE + 3404);
  ("Wink"%string, TYPE_NON_UNICODE + 3405);
  ("ZoomToggle"%string, TYPE_NON_UNICODE + 3406)
].

(** DOM codes and DOM keys of the keys that print nothing. *)
Definition kNonPrintableCodeMap : list (Z * Z) := [
  (458907, 2098436);
  (458873, 2098434);
  (458978, 2097410);
  (458982, 2097410);
  (458833, 2097921);
  (458832, 2097922);
  (458831, 2097923);
  (458834, 2097924);
  (458794, 4194312);
  (786661, 2100738);
  (786544, 2098689);
  (786543, 2098690);
  (786980, 2100225);
  (786986, 2100226);
  (786981, 2100227);
  (786979, 2100228);
  (786983, 2100229);
  (786977, 2100230);
  (786982, 2100231);
  (458809, 2097412);
  (786589, 2100490);
  (786588, 2100491);
  (786947, 2099713);
  (786529, 2100498);
  (458853, 2098437);
  (458976, 2097413);
  (458980, 2097413);
  (458890, 2098949);
  (458876, 2098178);
  (458875, 2098180);
  (458828, 4194431);
  (786616, 2098692);
  (458829, 2097925);
  (458792, 4194317);
  (458793, 4194331);
  (786580, 2100501);
  (458810, 2099201);
  (458811, 2099202);
  (458812, 2099203);
  (458813, 2099204);
  (458814, 2099205);
  (458815, 2099206);
  (458816, 2099207);
  (458817, 2099208);
  (458818, 2099209);
  (458819, 2099210);
  (458820, 2099211);
  (458821, 2099212);
  (458856, 2099213);
  (458857, 2099214);
  (458858, 2099215);
  (458859, 2099216);
  (458860, 2099217);
  (458861, 2099218);
  (458862, 2099219);
  (458863, 2099220);
  (458864, 2099221);
  (458865, 2099222);
  (458866, 2099223);
  (458867, 2099224);
  (458878, 2098439);
  (18, 2097414);
  (19, 2097415);
  (458869, 2098440);
  (458826, 2097926);
  (16, 2097416);
  (786528, 2100517);
  (458825, 2098183);
  (458888, 2098968);
  (458896, 2098961);
  (458897, 2098962);
  (458898, 2098970);
  (458899, 2098966);
  (458900, 2098973);
  (786836, 2099974);
  (786834, 2099969);
  (786891, 2099982);
  (786871, 2099973);
  (786830, 2099970);
  (786829, 2099980);
  (786847, 2100547);
  (786838, 2099977);
  (786826, 2099971);
  (786572, 2099981);
  (786865, 2099975);
  (786822, 2099976);
  (786846, 2099975);
  (786844, 2098693);
  (787083, 2099714);
  (787081, 2099715);
  (787084, 2099716);
  (786611, 2100524);
  (786563, 2100525);
  (786608, 2100527);
  (786637, 2099717);
  (786610, 2100528);
  (786612, 2100529);
  (786819, 2099972);
  (786615, 2099719);
  (786613, 2099720);
  (786614, 2099721);
  (786945, 2099722);
  (458891, 2098957);
  (458835, 2097418);
  (458939, 4194312);
  (458968, 2098177);
  (458840, 4194317);
  (458868, 2099723);
  (458979, 2097417);
  (458983, 2097417);
  (458830, 2097927);
  (458827, 2097928);
  (458877, 2098184);
  (458824, 2098441);
  (458854, 2098694);
  (786952, 2099724);
  (458822, 2098696);
  (786573, 2100514);
  (458915, 2098443);
  (787065, 2098185);
  (786951, 2099725);
  (458823, 2097420);
  (458871, 2098444);
  (786850, 2101249);
  (458977, 2097421);
  (458981, 2097421);
  (786639, 2100994);
  (786859, 2099726);
  (17, 2097422);
  (458795, 4194313);
  (458874, 2098186);
  (458881, 2099727);
  (458879, 2099729);
  (458880, 2099728);
  (65667, 2098699);
  (786989, 2098445);
  (786990, 2098446);
  (786994, 2100558);
  (786980, 2101253);
  (786858, 2101254);
  (786850, 2101249);
  (65666, 2098698)
].
