(* ===== verification/Keys.v ===== *)
(** * Keyboard input

    Models [emulator/android-grpc/services/emulator-controller/keyboard/src]:
    the encoding of DOM keys ([dom_key.h]), the conversions between key codes
    and from characters to keys ([KeyConversion.cpp]) and the sender of
    keyboard requests ([KeyEventSender.cpp]).  QEMU's numbering of the keys and
    its table from evdev codes are parameters.  [None] is a read outside an
    array or a failed assertion. *)

From S2P Require Import Prelude CText KeyTables.

(** ** DOM keys *)

Definition VALUE_MASK : Z := 2 ^ 21 - 1.
Definition TYPE_MASK : Z := Z.lor TYPE_UNICODE TYPE_NON_UNICODE.
Definition DOM_NONE : Z := 0.

Definition IsValid (k : Z) : bool := negb (Z.land k TYPE_MASK =? 0).
Definition IsCharacter (k : Z) : bool := Z.land k TYPE_MASK =? TYPE_UNICODE.
Definition IsDeadKey (k : Z) : bool := Z.land k TYPE_MASK =? TYPE_MASK.
Definition ToCharacter (k : Z) : Z := Z.land k VALUE_MASK.

(** A continuation byte of the bits from [n] on. *)
Definition continuation (c n : Z) : Z := Z.lor 128 (Z.land (Z.shiftr c n) 63).

Definition ToUtf8 (k : Z) : bytes :=
  let codepoint := ToCharacter k in
  if codepoint <=? 127 then [codepoint]
  else if codepoint <=? 2047 then
    [u8 (Z.lor 192 (Z.shiftr codepoint 6)); continuation codepoint 0]
  else if codepoint <=? 65535 then
    [u8 (Z.lor 224 (Z.shiftr codepoint 12)); continuation codepoint 6; continuation codepoint 0]
  else
    [u8 (Z.lor 240 (Z.shiftr codepoint 18)); continuation codepoint 12; continuation codepoint 6;
     continuation codepoint 0].

Definition FromCodepoint (character : Z) : Z := Z.lor TYPE_UNICODE character.

(** The continuation bytes, [uint32_t] arithmetic. *)
Fixpoint add_continuations (codepoint : Z) (bs : bytes) : Z :=
  match bs with
  | [] => FromCodepoint codepoint
  | b :: bs =>
      if negb (Z.land b 192 =? 128) then DOM_NONE
      else add_continuations (Z.lor (u32 (Z.shiftl codepoint 6)) (Z.land b 63)) bs
  end.

(** The number of continuation bytes and the bits of a first byte. *)
Definition first_byte (b : Z) : option (Z * Z) :=
  if b <? 128 then Some (0, b)
  else if Z.land b 224 =? 192 then Some (1, Z.land b 31)
  else if Z.land b 240 =? 224 then Some (2, Z.land b 15)
  else if Z.land b 248 =? 240 then Some (3, Z.land b 7)
  else if Z.land b 252 =? 248 then Some (4, Z.land b 3)
  else if Z.land b 254 =? 252 then Some (5, Z.land b 1)
  else None.

Definition FromCharacter (ch : bytes) : Z :=
  match ch with
  | [] => DOM_NONE
  | b :: rest =>
      match first_byte b with
      | None => DOM_NONE
      | Some (n, codepoint) =>
          if negb (zlen ch =? n + 1) then DOM_NONE else add_continuations codepoint rest
      end
  end.

Definition DeadKeyFromCombiningCharacter (c : Z) : Z := Z.lor TYPE_MASK c.

(** ** Key codes *)

Inductive KeyCodeType := KC_usb | KC_evdev | KC_xkb | KC_win | KC_mac.

Definition code_of (source : KeyCodeType) (e : KeycodeMapEntry) : Z :=
  match source with
  | KC_usb => usb e | KC_evdev => evdev e | KC_xkb => xkb e | KC_win => win e | KC_mac => mac e
  end.

Definition keycode_to_evdev (from : Z) (source : KeyCodeType) : Z :=
  match List.find (fun e => code_of source e =? from) usb_keycode_map with
  | Some e => evdev e
  | None => 0
  end.

Definition dom_to_evdev (key : Z) : Z :=
  match List.find (fun e => usb e =? key) usb_keycode_map with
  | Some e => evdev e
  | None => 0
  end.

Record QemuKeyEvent := Key { qcode : Z; down : bool }.

(** [n < sizeof(cmap)]: the number of bytes of the array, entries of 16. *)
Definition sizeof_cmap : nat := 16 * length cmap.

Fixpoint search (col : SkinKeyEntry -> Z) (unicode : Z) (n : nat) (l : list SkinKeyEntry)
    : option (option SkinKeyEntry) :=
  match n, l with
  | O, _ => Some None
  | S _, [] => None
  | S n, e :: l => if col e =? unicode then Some (Some e) else search col unicode n l
  end.

Section keys.
(** [Q_KEY_CODE_*] by name and [qemu_input_map_linux_to_qcode]. *)
Context (Q_KEY_CODE : string -> Z) (linux_to_qcode : list Z).

Definition evdev_to_qcode (evdev : Z) : Z :=
  if zlen linux_to_qcode <=? evdev then 0
  else match linux_to_qcode !! Z.to_nat evdev with Some q => q | None => 0 end.

Definition dom_to_qcode (key : Z) : Z := evdev_to_qcode (dom_to_evdev key).

Definition keycode_to_qcode (from : Z) (source : KeyCodeType) : Z :=
  evdev_to_qcode (keycode_to_evdev from source).

(** The keys held for a character, pressed in order and released in reverse. *)
Definition chord (keys : list string) (d : bool) : list QemuKeyEvent :=
  map (fun k => Key (Q_KEY_CODE k) d) (if d then keys else rev keys).

Definition ascii_to_qcode (unicode : Z) (d : bool) : option (list QemuKeyEvent) :=
  o ← search base unicode sizeof_cmap cmap;
  match o with
  | Some e => Some (chord [code e] d)
  | None =>
      o ← search caps unicode sizeof_cmap cmap;
      match o with
      | Some e => Some (chord ["SHIFT"%string; code e] d)
      | None =>
          o ← search fn unicode sizeof_cmap cmap;
          match o with
          | Some e => Some (chord ["ALT"%string; code e] d)
          | None =>
              o ← search caps_fn unicode sizeof_cmap cmap;
              match o with
              | Some e => Some (chord ["SHIFT"%string; "ALT"%string; code e] d)
              | None => Some []
              end
          end
      end
  end.

(** ** The sender *)

Inductive KeyEventType := keydown | keyup | keypress.

Record KeyboardEvent := {
  key : bytes; text : bytes; keycode : Z; codetype : KeyCodeType; eventtype : KeyEventType;
}.

Definition presses (t : KeyEventType) : bool := match t with keyup => false | _ => true end.
Definition releases (t : KeyEventType) : bool := match t with keydown => false | _ => true end.

Definition sendKeyCode (c : Z) (t : KeyCodeType) (e : KeyEventType) : list QemuKeyEvent :=
  let q := keycode_to_qcode (u32 c) t in
  (if presses e then [Key q true] else []) ++ (if releases e then [Key q false] else []).

Definition domKeyAsNonPrintableDomCode (k : Z) : Z :=
  match List.find (fun e => e.2 =? k) kNonPrintableCodeMap with
  | Some e => e.1
  | None => 0
  end.

Definition browserKeyToDomKey (k : bytes) : Z :=
  match k with
  | [] => DOM_NONE
  | _ =>
      match List.find (fun e => bytes_eqb k (str e.1)) dom_key_map with
      | Some e => e.2
      | None =>
          if bytes_eqb k (str "Dead") then DeadKeyFromCombiningCharacter 65535
          else if zlen k =? 1 then FromCharacter k else DOM_NONE
      end
  end.

(** The characters [sendUtf8String] hands to [ascii_to_qcode]: [pending] is
    what lies between [start] and [end]. *)
Fixpoint utf8_chars (pending : bytes) (s : bytes) : option bytes :=
  match s with
  | [] => Some []
  | ch :: s =>
      let pending := pending ++ [ch] in
      if negb (Z.land ch 192 =? 128) then
        if negb (zlen pending <=? 4) then None
        else cs ← utf8_chars [] s; Some (head0 pending :: cs)
      else utf8_chars pending s
  end.

(** Pressing and releasing each; a [char] becomes an [unsigned short]. *)
Fixpoint send_chars (cs : bytes) : option (list QemuKeyEvent) :=
  match cs with
  | [] => Some []
  | c :: cs =>
      press ← ascii_to_qcode (u16 (as_char c)) true;
      release ← ascii_to_qcode (u16 (as_char c)) false;
      rest ← send_chars cs; Some (press ++ release ++ rest)
  end.

Definition sendUtf8String (utf8 : bytes) : option (list QemuKeyEvent) :=
  cs ← utf8_chars [] (c_str utf8); send_chars cs.

(** The request's key; [Some None] when the handler returns there. *)
Definition send_key (k : bytes) (e : KeyEventType) : option (option (list QemuKeyEvent)) :=
  let domkey := browserKeyToDomKey k in
  if domkey =? DOM_NONE then Some (Some [])
  else
    let c := domKeyAsNonPrintableDomCode domkey in
    if c =? 0 then
      let character := ToCharacter domkey in
      if 255 <? character then Some None
      else
        press ← (if presses e then ascii_to_qcode character true else Some []);
        release ← (if releases e then ascii_to_qcode character false else Some []);
        Some (Some (press ++ release))
    else Some (Some (sendKeyCode (dom_to_evdev c) KC_evdev e)).

Definition doSend (r : KeyboardEvent) : option (list QemuKeyEvent) :=
  o ← (if 0 <? zlen (key r) then send_key (key r) (eventtype r) else Some (Some []));
  match o with
  | None => Some []
  | Some k =>
      t ← (if 0 <? zlen (text r) then sendUtf8String (text r) else Some []);
      Some (k ++ t ++
            (if 0 <? keycode r then sendKeyCode (keycode r) (codetype r) (eventtype r) else []))
  end.

End keys.

(** ** Specifications *)

(** A character some key types without a modifier, and the key. *)
Definition base_key (c : Z) : option SkinKeyEntry := List.find (fun e => base e =? c) cmap.

(** The keys held after some events: a held key pressed again stays once. *)
Definition hold (held : gset Z) (e : QemuKeyEvent) : gset Z :=
  if down e then {[qcode e]} ∪ held else held ∖ {[qcode e]}.

Definition held_after (es : list QemuKeyEvent) (held : gset Z) : gset Z := foldl hold held es.

(** ** Lemmas *)

(** A property of the integers below a bound, by computation. *)
Lemma check_range (P : Z -> bool) n x :
  forallb P (seqZ 0 n) = true -> 0 <= x < n -> P x = true.
Proof.
  intros H Hx. rewrite forallb_forall in H. apply H, list_elem_of_In, elem_of_seqZ. lia.
Qed.

Lemma check_eq {A} `{EqDecision A} (f g : Z -> A) n x :
  forallb (fun x => bool_decide (f x = g x)) (seqZ 0 n) = true -> 0 <= x < n -> f x = g x.
Proof.
  intros H Hx. pose proof (check_range (fun x => bool_decide (f x = g x)) n x H Hx) as E. cbn in E.
  by apply bool_decide_eq_true_1 in E.
Qed.

Lemma first_byte_2 x : 0 <= x < 32 -> first_byte (u8 (Z.lor 192 x)) = Some (1, x).
Proof. by apply (check_eq (fun x => first_byte (u8 (Z.lor 192 x))) (fun x => Some (1, x)) 32). Qed.

Lemma first_byte_3 x : 0 <= x < 16 -> first_byte (u8 (Z.lor 224 x)) = Some (2, x).
Proof. by apply (check_eq (fun x => first_byte (u8 (Z.lor 224 x))) (fun x => Some (2, x)) 16). Qed.

Lemma first_byte_4 x : 0 <= x < 8 -> first_byte (u8 (Z.lor 240 x)) = Some (3, x).
Proof. by apply (check_eq (fun x => first_byte (u8 (Z.lor 240 x))) (fun x => Some (3, x)) 8). Qed.

Lemma continuation_bits y : 0 <= y < 64 -> Z.land (Z.lor 128 y) 192 = 128 /\ Z.land (Z.lor 128 y) 63 = y.
Proof.
  intros Hy. split.
  - by apply (check_eq (fun y => Z.land (Z.lor 128 y) 192) (fun _ => 128) 64).
  - by apply (check_eq (fun y => Z.land (Z.lor 128 y) 63) id 64).
Qed.

Lemma add_continuation cp c n bs :
  0 <= cp < 2 ^ 26 -> 0 <= n ->
  add_continuations cp (continuation c n :: bs) = add_continuations (cp * 64 + c / 2 ^ n mod 64) bs.
Proof.
  intros Hcp Hn. unfold continuation. change 63 with (2 ^ 6 - 1).
  rewrite land_ones_mod, Z.shiftr_div_pow2 by lia. change (2 ^ 6) with 64.
  pose proof (Z.mod_pos_bound (c / 2 ^ n) 64 ltac:(lia)) as Hy.
  cbn [add_continuations]. change (64 - 1) with 63.
  destruct (continuation_bits _ Hy) as [-> ->]. cbn [Z.eqb negb Pos.eqb].
  f_equal. rewrite wrap_small by (unfold in_u; rewrite Z.shiftl_mul_pow2; lia).
  rewrite Z.lor_comm, lor_shiftl_add by lia. lia.
Qed.

Lemma FromCodepoint_add c : 0 <= c < 2 ^ 22 -> FromCodepoint c = 2 ^ 22 + c.
Proof.
  intros Hc. unfold FromCodepoint. change TYPE_UNICODE with (Z.shiftl 1 22).
  rewrite Z.lor_comm, lor_shiftl_add by lia. lia.
Qed.

Lemma ToCharacter_FromCodepoint c : 0 <= c < 2 ^ 21 -> ToCharacter (FromCodepoint c) = c.
Proof.
  intros Hc. unfold ToCharacter, VALUE_MASK. rewrite FromCodepoint_add, land_ones_mod by lia.
  replace (2 ^ 22 + c) with (c + 2 * 2 ^ 21) by lia. rewrite Z.mod_add by lia.
  apply Z.mod_small. lia.
Qed.

Lemma IsCharacter_FromCodepoint c : 0 <= c < 2 ^ 21 -> IsCharacter (FromCodepoint c) = true.
Proof.
  intros Hc. unfold IsCharacter. apply Z.eqb_eq, Z.bits_inj'. intros n Hn.
  unfold FromCodepoint. rewrite Z.land_spec, Z.lor_spec.
  destruct (Z.lt_ge_cases n 21) as [Hlt|Hge].
  - replace (Z.testbit TYPE_MASK n) with false; [|symmetry].
    + rewrite andb_false_r. symmetry. change TYPE_UNICODE with (2 ^ 22). apply Z.pow2_bits_false. lia.
    + change TYPE_MASK with (Z.lor (2 ^ 22) (2 ^ 21)).
      rewrite Z.lor_spec, !Z.pow2_bits_false by lia. done.
  - rewrite (in_u_testbit 21 c) by (unfold in_u; lia). rewrite orb_false_r.
    change TYPE_UNICODE with (2 ^ 22). change TYPE_MASK with (Z.lor (2 ^ 22) (2 ^ 21)).
    rewrite Z.lor_spec, !Z.pow2_bits_eqb by lia. by destruct (Z.eqb_spec 22 n).
Qed.

Lemma search_spec col u l : forall n, (length l < n)%nat ->
  search col u n l = Some <$> List.find (fun e => col e =? u) l.
Proof.
  induction l as [|e l IH]; intros n Hn; (destruct n as [|n]; [cbn in Hn; lia|]); [done|].
  cbn [search List.find]. destruct (col e =? u); [done|]. apply IH. cbn in Hn. lia.
Qed.

Section facts.
Context (Q : string -> Z).

(** The searches past the first one never get to an answer. *)
Lemma ascii_to_qcode_base u d :
  ascii_to_qcode Q u d = (fun e => chord Q [code e] d) <$> base_key u.
Proof.
  unfold ascii_to_qcode, base_key. rewrite (search_spec base) by (unfold sizeof_cmap; cbn; lia).
  destruct (List.find (fun e => base e =? u) cmap) as [e|];
    cbn [fmap option_fmap option_map mbind option_bind]; reflexivity.
Qed.

Lemma utf8_chars_ascii s : Forall (fun c => 0 < c < 128) s -> utf8_chars [] s = Some s.
Proof.
  induction 1 as [|c s Hc Hs IH]; [done|]. cbn [utf8_chars app].
  assert ((Z.land c 192 =? 128) = false) as ->.
  { apply negb_true_iff. apply (check_range (fun c => negb (Z.land c 192 =? 128)) 128); [by vm_compute|lia]. }
  cbn [negb head0]. change (zlen [c] <=? 4) with true. cbn [negb]. by rewrite IH.
Qed.

Lemma u16_as_char_ascii c : 0 < c < 128 -> u16 (as_char c) = c.
Proof.
  intros Hc. unfold as_char. rewrite (proj2 (Z.ltb_lt _ _)) by lia.
  apply wrap_small. unfold in_u. lia.
Qed.

Lemma held_after_app es1 es2 held : held_after (es1 ++ es2) held = held_after es2 (held_after es1 held).
Proof. apply foldl_app. Qed.

Definition typed (c : Z) : list QemuKeyEvent :=
  match base_key c with Some e => [Key (Q (code e)) true; Key (Q (code e)) false] | None => [] end.

Lemma held_after_typed cs : held_after (flat_map typed cs) ∅ = ∅.
Proof.
  induction cs as [|c cs IH]; [done|]. cbn [flat_map]. rewrite held_after_app.
  replace (held_after (typed c) ∅) with (∅ : gset Z); [done|]. unfold typed.
  destruct (base_key c); [|done]. unfold held_after, hold. cbn. set_solver.
Qed.

Lemma send_chars_base cs :
  Forall (fun c => 0 < c < 128 /\ is_Some (base_key c)) cs -> send_chars Q cs = Some (flat_map typed cs).
Proof.
  induction 1 as [|c cs [Hc [e He]] Hs IH]; [done|]. cbn [send_chars].
  rewrite u16_as_char_ascii, !ascii_to_qcode_base, He, IH by done. cbn.
  unfold typed at 2. by rewrite He.
Qed.

End facts.

(** ** Properties *)

(** The UTF-8 text of a character key is decoded to the same key, for
    every code point of Unicode. *)
Theorem FromCharacter_ToUtf8 c :
  0 <= c <= 1114111 ->
  let k := FromCodepoint c in
  IsCharacter k = true /\ ToCharacter k = c /\ FromCharacter (ToUtf8 k) = k.
Proof.
  intros Hc k. split; [apply IsCharacter_FromCodepoint; lia|].
  assert (ToCharacter k = c) as Hk by (apply ToCharacter_FromCodepoint; lia). split; [done|].
  unfold ToUtf8. rewrite Hk, !Z.shiftr_div_pow2 by lia.
  destruct (Z.leb_spec c 127); [|destruct (Z.leb_spec c 2047); [|destruct (Z.leb_spec c 65535)]];
    unfold FromCharacter.
  - unfold first_byte. rewrite (proj2 (Z.ltb_lt _ _)) by lia. done.
  - rewrite first_byte_2 by (Z.to_euclidean_division_equations; lia). cbn [negb zlen length Z.eqb].
    rewrite add_continuation by (Z.to_euclidean_division_equations; lia). cbn [add_continuations].
    change (zlen _ =? 1 + 1) with true. cbn [negb]. unfold k. f_equal.
    Z.to_euclidean_division_equations. lia.
  - rewrite first_byte_3 by (Z.to_euclidean_division_equations; lia). change (zlen _ =? 2 + 1) with true.
    cbn [negb]. rewrite !add_continuation by (Z.to_euclidean_division_equations; lia).
    cbn [add_continuations]. unfold k. f_equal. Z.to_euclidean_division_equations. lia.
  - rewrite first_byte_4 by (Z.to_euclidean_division_equations; lia). change (zlen _ =? 3 + 1) with true.
    cbn [negb]. rewrite !add_continuation by (Z.to_euclidean_division_equations; lia).
    cbn [add_continuations]. unfold k. f_equal. Z.to_euclidean_division_equations. lia.
Qed.

(** A text of characters that keys type without a modifier is typed
    character by character, each key pressed and released, and no key stays
    held.  For any other character, the capital letters among them, the
    search runs past the end of the table: its bound is the size of the table
    in bytes. *)
Theorem sendUtf8String_types Q s :
  Forall (fun c => 0 < c < 128 /\ is_Some (base_key c)) s ->
  sendUtf8String Q s = Some (flat_map (typed Q) s) /\ held_after (flat_map (typed Q) s) ∅ = ∅ /\
  (forall u d, base_key u = None -> ascii_to_qcode Q u d = None) /\
  (forall u, 65 <= u <= 90 -> base_key u = None).
Proof.
  intros Hs. assert (Forall (fun c => 0 < c < 128) s) as Ha by (eapply Forall_impl; [exact Hs|]; by intros c [? _]).
  split_and!.
  - unfold sendUtf8String.
    rewrite c_str_id by (eapply Forall_impl; [exact Ha|]; intros c Hc; cbn in Hc |- *; lia).
    rewrite utf8_chars_ascii by done.
    by apply send_chars_base.
  - apply held_after_typed.
  - intros u d Hu. by rewrite ascii_to_qcode_base, Hu.
  - intros u Hu. replace u with ((u - 65) + 65) by lia.
    pose proof (check_range (fun u => negb (bool_decide (is_Some (base_key (u + 65))))) 26 (u - 65)
      ltac:(by vm_compute) ltac:(lia)) as E. cbn beta in E.
    apply negb_true_iff in E. by apply eq_None_not_Some, (bool_decide_eq_false_1 _ E).
Qed.

(** After a character of several bytes the next character is not typed:
    of every character but the first the sender takes the byte behind the
    lead byte of the one before. *)
Theorem utf8_next_char_lost lead c1 conts c rest :
  192 <= lead < 256 -> 128 <= c1 < 192 -> Forall (fun b => 128 <= b < 192) conts ->
  (length conts <= 2)%nat -> 0 < c < 128 ->
  utf8_chars [] (lead :: c1 :: conts ++ c :: rest) =
    cs ← utf8_chars [] rest; Some (lead :: c1 :: cs).
Proof.
  intros Hl Hc1 Hconts Hlen Hc.
  assert (forall b, 128 <= b < 192 -> (Z.land b 192 =? 128) = true) as Hcont.
  { intros b Hb. replace b with ((b - 128) + 128) by lia.
    apply (check_range (fun b => Z.land (b + 128) 192 =? 128) 64); [by vm_compute|lia]. }
  assert ((Z.land lead 192 =? 128) = false) as El.
  { apply negb_true_iff. replace lead with ((lead - 192) + 192) by lia.
    apply (check_range (fun b => negb (Z.land (b + 192) 192 =? 128)) 64); [by vm_compute|lia]. }
  assert ((Z.land c 192 =? 128) = false) as Ec.
  { apply negb_true_iff. apply (check_range (fun c => negb (Z.land c 192 =? 128)) 128); [by vm_compute|lia]. }
  assert (forall pending, pending <> [] -> zlen pending + zlen conts <= 3 ->
    utf8_chars pending (conts ++ c :: rest) = cs ← utf8_chars [] rest; Some (head0 pending :: cs)) as Hgo.
  { clear -Hcont Hconts Ec. induction Hconts as [|b conts Hb _ IH]; intros p Hp Hn; cbn [app utf8_chars].
    - rewrite Ec. cbn [negb]. rewrite zlen_app, zlen_cons, zlen_nil in *.
      rewrite (proj2 (Z.leb_le _ _)) by lia. cbn [negb]. by destruct p.
    - rewrite Hcont by done. cbn [negb]. rewrite IH; [by destruct p|by destruct p|].
      rewrite zlen_app, !zlen_cons, zlen_nil in *. lia. }
  cbn [utf8_chars app]. rewrite El. cbn [negb head0]. change (zlen [lead] <=? 4) with true. cbn [negb].
  rewrite Hcont by done. cbn [negb]. rewrite Hgo; [|done|unfold zlen; cbn; lia].
  by destruct (utf8_chars [] rest).
Qed.

(** ** Witnesses *)

Lemma FromCharacter_ToUtf8_witness :
  FromCharacter (ToUtf8 (FromCodepoint 8364)) = FromCodepoint 8364 /\
  ToUtf8 (FromCodepoint 8364) = [226; 130; 172].
Proof. split; [apply (FromCharacter_ToUtf8 8364); lia|reflexivity]. Defined.

Lemma sendUtf8String_types_witness :
  sendUtf8String (fun k => zlen (str k)) (str "a;") =
    Some [Key 1 true; Key 1 false; Key 9 true; Key 9 false].
Proof.
  destruct (sendUtf8String_types (fun k => zlen (str k)) (str "a;")) as [E _].
  - repeat constructor; eexists; reflexivity.
  - exact E.
Defined.

Lemma utf8_next_char_lost_witness : utf8_chars [] [195; 169; 97; 98] = Some [195; 169; 98].
Proof.
  apply (utf8_next_char_lost 195 169 [] 97 [98]); [lia|lia|constructor|cbn; lia|lia].
Defined.
