(* ===== verification/Battery.v ===== *)
(** * The battery

    Models [emulator/plugin/battery/src]: the device [goldfish_battery.c] (its
    registers, the interrupt, the properties the emulator sets and reads and
    the fields of its snapshot) and the class [Battery] of [battery.cpp].  The
    interrupt line is the level last given to [qemu_set_irq]. *)

From S2P Require Import Prelude.

(** ** The device *)

(** Registers ([BATTERY_*]) and interrupt bits. *)
Definition BATTERY_INT_STATUS : Z := 0.
Definition BATTERY_INT_ENABLE : Z := 4.
Definition BATTERY_STATUS_CHANGED : Z := 1.
Definition AC_STATUS_CHANGED : Z := 2.

(** [power_supply_property], the ones the device knows. *)
Inductive power_supply_property :=
  | STATUS | HAS_BATTERY | HEALTH | PRESENT | ONLINE | CYCLE_COUNT | VOLTAGE_MAX | VOLTAGE_NOW
  | CURRENT_MAX | CURRENT_NOW | CURRENT_AVG | CHARGE_FULL | CHARGE_COUNTER | CAPACITY | TEMP
  | OTHER_PROPERTY.

Record goldfish_battery_state := Batt {
  irq : Z; int_status : Z; int_enable : Z; ac_online : Z; status : Z; health : Z;
  present : Z; capacity : Z; hw_has_battery : Z; voltage : Z; temp : Z; charge_counter : Z;
  voltage_max : Z; current_max : Z; current_now : Z; current_avg : Z; charge_full_uah : Z; cycle_count : Z;
}.

Definition with_irq (v : Z) (x : goldfish_battery_state) : goldfish_battery_state :=
  let '(Batt _ b c d e f g h i j k l m n o p q r) := x in
  Batt v b c d e f g h i j k l m n o p q r.

Definition with_int_status (v : Z) (x : goldfish_battery_state) : goldfish_battery_state :=
  let '(Batt a _ c d e f g h i j k l m n o p q r) := x in
  Batt a v c d e f g h i j k l m n o p q r.

Definition with_int_enable (v : Z) (x : goldfish_battery_state) : goldfish_battery_state :=
  let '(Batt a b _ d e f g h i j k l m n o p q r) := x in
  Batt a b v d e f g h i j k l m n o p q r.

Definition with_ac_online (v : Z) (x : goldfish_battery_state) : goldfish_battery_state :=
  let '(Batt a b c _ e f g h i j k l m n o p q r) := x in
  Batt a b c v e f g h i j k l m n o p q r.

Definition with_status (v : Z) (x : goldfish_battery_state) : goldfish_battery_state :=
  let '(Batt a b c d _ f g h i j k l m n o p q r) := x in
  Batt a b c d v f g h i j k l m n o p q r.

Definition with_health (v : Z) (x : goldfish_battery_state) : goldfish_battery_state :=
  let '(Batt a b c d e _ g h i j k l m n o p q r) := x in
  Batt a b c d e v g h i j k l m n o p q r.

Definition with_present (v : Z) (x : goldfish_battery_state) : goldfish_battery_state :=
  let '(Batt a b c d e f _ h i j k l m n o p q r) := x in
  Batt a b c d e f v h i j k l m n o p q r.

Definition with_capacity (v : Z) (x : goldfish_battery_state) : goldfish_battery_state :=
  let '(Batt a b c d e f g _ i j k l m n o p q r) := x in
  Batt a b c d e f g v i j k l m n o p q r.

Definition with_current_now (v : Z) (x : goldfish_battery_state) : goldfish_battery_state :=
  let '(Batt a b c d e f g h i j k l m n _ p q r) := x in
  Batt a b c d e f g h i j k l m n v p q r.

Definition with_current_avg (v : Z) (x : goldfish_battery_state) : goldfish_battery_state :=
  let '(Batt a b c d e f g h i j k l m n o _ q r) := x in
  Batt a b c d e f g h i j k l m n o v q r.

Definition with_charge_full_uah (v : Z) (x : goldfish_battery_state) : goldfish_battery_state :=
  let '(Batt a b c d e f g h i j k l m n o p _ r) := x in
  Batt a b c d e f g h i j k l m n o p v r.

Definition with_cycle_count (v : Z) (x : goldfish_battery_state) : goldfish_battery_state :=
  let '(Batt a b c d e f g h i j k l m n o p q _) := x in
  Batt a b c d e f g h i j k l m n o p q v.

(** The device in the machine and the two flags of the file; the device is
    found by its id, which it has from its realization on. *)
Record machine := Machine {
  device : option goldfish_battery_state; sBatteryIsRealized : bool; sDeviceHasBattery : Z;
}.

Definition machine0 : machine := Machine None false 0.

Definition with_device (s : goldfish_battery_state) (m : machine) : machine :=
  Machine (Some s) (sBatteryIsRealized m) (sDeviceHasBattery m).

Definition b2z (b : bool) : Z := if b then 1 else 0.

(** The object is zeroed by its allocation. *)
Definition goldfish_battery_realize (m : machine) : machine :=
  let has := negb (sDeviceHasBattery m =? 0) in
  Machine
    (Some {| irq := 0; int_status := 0; int_enable := 0; ac_online := 1;
             status := b2z has (* CHARGING or UNKNOWN *);
             health := b2z has (* GOOD or UNKNOWN *);
             present := b2z has; capacity := if has then 100 else 0;
             hw_has_battery := b2z has; voltage := 5000000; temp := 250;
             charge_counter := if has then 10000 else 0;
             voltage_max := 5000000; current_max := 5000000; current_now := 900000;
             current_avg := 900000; charge_full_uah := 3000000; cycle_count := 10 |})
    true (sDeviceHasBattery m).

Definition read_prop (p : power_supply_property) (s : goldfish_battery_state) : Z :=
  match p with
  | ONLINE => ac_online s | STATUS => status s | HEALTH => health s
  | HAS_BATTERY => hw_has_battery s | PRESENT => present s | CAPACITY => capacity s
  | VOLTAGE_NOW => voltage s | TEMP => temp s | CHARGE_COUNTER => charge_counter s
  | VOLTAGE_MAX => voltage_max s | CURRENT_MAX => current_max s | CURRENT_NOW => current_now s
  | CURRENT_AVG => current_avg s | CHARGE_FULL => charge_full_uah s | CYCLE_COUNT => cycle_count s
  | OTHER_PROPERTY => 0
  end.

(** A [uint32_t] register as an [int]. *)
Definition goldfish_battery_read_prop (p : power_supply_property) (m : machine) : Z :=
  match device m with Some s => s32 (read_prop p s) | None => 0 end.

Definition store_prop (ac : bool) (p : power_supply_property) (value : Z)
    : goldfish_battery_state -> goldfish_battery_state :=
  if ac then match p with ONLINE => with_ac_online value | _ => id end
  else match p with
       | STATUS => with_status value | HEALTH => with_health value
       | PRESENT => with_present value | CAPACITY => with_capacity value
       | CURRENT_NOW => with_current_now value | CURRENT_AVG => with_current_avg value
       | CHARGE_FULL => with_charge_full_uah value | CYCLE_COUNT => with_cycle_count value
       | _ => id
       end.

(** The change bit and the interrupt. *)
Definition raise_changed (ac : bool) (s : goldfish_battery_state) : goldfish_battery_state :=
  let new_status := if ac then AC_STATUS_CHANGED else BATTERY_STATUS_CHANGED in
  if new_status =? int_status s then s
  else
    let s := with_int_status (Z.lor (int_status s) new_status) s in
    with_irq (Z.land (int_status s) (int_enable s)) s.

Definition goldfish_battery_set_prop (ac : bool) (p : power_supply_property) (value : Z)
    (m : machine) : machine :=
  if negb (sBatteryIsRealized m) then
    match p with
    | HAS_BATTERY => Machine (device m) false value
    | _ => m
    end
  else
    match device m with
    | None => m
    | Some s =>
        if hw_has_battery s =? 0 then m
        else with_device (raise_changed ac (store_prop ac p (u32 value) s)) m
    end.

Definition register (offset : Z) (s : goldfish_battery_state) : Z :=
  match offset with
  | 4 => int_enable s | 8 => ac_online s | 12 => status s | 16 => health s | 20 => present s
  | 24 => capacity s | 28 => voltage s | 32 => temp s | 36 => charge_counter s
  | 40 => voltage_max s | 44 => current_max s | 48 => current_now s | 52 => current_avg s
  | 56 => charge_full_uah s | 64 => cycle_count s | _ => 0
  end.

Definition goldfish_battery_read (offset : Z) (s : goldfish_battery_state)
    : Z * goldfish_battery_state :=
  if offset =? BATTERY_INT_STATUS then
    let ret := Z.land (int_status s) (int_enable s) in
    (ret, if ret =? 0 then s else with_int_status 0 (with_irq 0 s))
  else (register offset s, s).

Definition goldfish_battery_write (offset val : Z) (s : goldfish_battery_state)
    : goldfish_battery_state :=
  if offset =? BATTERY_INT_ENABLE then
    let s := with_int_enable (u32 val) s in
    let now_active := Z.land (int_enable s) (int_status s) in
    if now_active =? 0 then s else with_irq now_active s
  else s.

(** [goldfish_battery_vmsd]: the fields of a snapshot, in their order. *)
Definition vmsd_save (s : goldfish_battery_state) : list Z :=
  [int_status s; int_enable s; ac_online s; status s; health s; present s; capacity s;
   hw_has_battery s].

Definition vmsd_load (fields : list Z) (x : goldfish_battery_state)
    : option goldfish_battery_state :=
  match fields with
  | [ints; ie; ac; st; he; pr; ca; hw] =>
      let '(Batt q _ _ _ _ _ _ _ _ vo te cc vm cm cn cv cf cy) := x in
      Some (Batt q ints ie ac st he pr ca hw vo te cc vm cm cn cv cf cy)
  | _ => None
  end.

(** ** The interface of the emulator *)

Inductive ChargerType := CHARGER_NONE | AC | USB | WIRELESS | CHARGER_ENTRIES.
Inductive Health :=
  | GOOD | FAILED | DEAD | OVERVOLTAGE | OVERHEATED | HEALTH_UNKNOWN | HEALTH_ENTRIES.
Inductive Status :=
  | STATUS_UNKNOWN | CHARGING | DISCHARGING | NOT_CHARGING | FULL | STATUS_ENTRIES.

Definition health_value (h : Health) : Z :=
  match h with
  | GOOD => 1 | FAILED => 5 | DEAD => 3 | OVERVOLTAGE => 4 | OVERHEATED => 2
  | HEALTH_UNKNOWN => 0 | HEALTH_ENTRIES => 0
  end.

Definition health_of (v : Z) : Health :=
  match v with
  | 1 => GOOD | 5 => FAILED | 3 => DEAD | 4 => OVERVOLTAGE | 2 => OVERHEATED
  | _ => HEALTH_UNKNOWN
  end.

Definition status_value (s : Status) : Z :=
  match s with
  | STATUS_UNKNOWN => 0 | CHARGING => 1 | DISCHARGING => 2 | NOT_CHARGING => 3 | FULL => 4
  | STATUS_ENTRIES => 0
  end.

Definition status_of (v : Z) : Status :=
  match v with
  | 1 => CHARGING | 2 => DISCHARGING | 3 => NOT_CHARGING | 4 => FULL | _ => STATUS_UNKNOWN
  end.

Definition setHasBattery (b : bool) := goldfish_battery_set_prop false HAS_BATTERY (b2z b).
Definition hasBattery (m : machine) : bool := negb (goldfish_battery_read_prop HAS_BATTERY m =? 0).
Definition setPresent (b : bool) := goldfish_battery_set_prop false PRESENT (b2z b).
Definition isPresent (m : machine) : bool := negb (goldfish_battery_read_prop PRESENT m =? 0).
Definition setCharging (b : bool) := goldfish_battery_set_prop true ONLINE (b2z b).
Definition isCharging (m : machine) : bool := negb (goldfish_battery_read_prop ONLINE m =? 0).

Definition setChargerType (c : ChargerType) : machine -> machine :=
  setCharging (match c with CHARGER_NONE => false | _ => true end).
Definition getChargerType (m : machine) : ChargerType := if isCharging m then AC else CHARGER_NONE.

Definition setChargeLevel (percentFull : Z) (m : machine) : machine :=
  if (percentFull <? 0) || (100 <? percentFull) then m
  else goldfish_battery_set_prop false CAPACITY percentFull m.
Definition getChargeLevel (m : machine) : Z := goldfish_battery_read_prop CAPACITY m.

Definition setHealth (h : Health) := goldfish_battery_set_prop false HEALTH (health_value h).
Definition getHealth (m : machine) : Health := health_of (goldfish_battery_read_prop HEALTH m).
Definition setStatus (s : Status) := goldfish_battery_set_prop false STATUS (status_value s).
Definition getStatus (m : machine) : Status := status_of (goldfish_battery_read_prop STATUS m).

(** ** Steps of the machine *)

Inductive call :=
  | SetHasBattery (b : bool) | SetPresent (b : bool) | SetCharging (b : bool)
  | SetChargerType (c : ChargerType) | SetChargeLevel (n : Z) | SetHealth (h : Health)
  | SetStatus (s : Status).

Definition run_call (c : call) : machine -> machine :=
  match c with
  | SetHasBattery b => setHasBattery b | SetPresent b => setPresent b
  | SetCharging b => setCharging b | SetChargerType c => setChargerType c
  | SetChargeLevel n => setChargeLevel n | SetHealth h => setHealth h | SetStatus s => setStatus s
  end.

(** What happens to the machine: realization, calls of the emulator, accesses
    of the guest, taking a snapshot and loading the [n]th one taken. *)
Inductive event :=
  | Realize | Call (c : call) | SetProp (ac : bool) (p : power_supply_property) (value : Z)
  | Read (offset : Z) | Write (offset val : Z) | Save | Load (n : nat).

(** The machine with the snapshots taken: the device's fields, and the level
    of its line, which the interrupt controller saves. *)
Definition world : Type := machine * list (list Z * Z).

Section events.
(** The level of the line after a snapshot is loaded, from the one saved and
    the one before: the part of the interrupt controller. *)
Context (irq_restore : Z -> Z -> Z).

(** [None]: the event cannot happen, there is no such device or snapshot. *)
Definition run_event (e : event) (w : world) : option world :=
  let '(m, snaps) := w in
  match e with
  | Realize => match device m with None => Some (goldfish_battery_realize m, snaps) | Some _ => None end
  | Call c => Some (run_call c m, snaps)
  | SetProp ac p v => Some (goldfish_battery_set_prop ac p v m, snaps)
  | Read o => s ← device m; Some (with_device (goldfish_battery_read o s).2 m, snaps)
  | Write o v => s ← device m; Some (with_device (goldfish_battery_write o v s) m, snaps)
  | Save => s ← device m; Some (m, snaps ++ [(vmsd_save s, irq s)])
  | Load n =>
      s ← device m; snap ← snaps !! n; s' ← vmsd_load snap.1 s;
      Some (with_device (with_irq (irq_restore snap.2 (irq s)) s') m, snaps)
  end.

Fixpoint run_events (es : list event) (w : world) : option world :=
  match es with
  | [] => Some w
  | e :: es => w ← run_event e w; run_events es w
  end.

Definition reachable (w : world) : Prop := exists es, run_events es (machine0, []) = Some w.

End events.

(** ** Specifications *)

(** What the emulator sees of a battery. *)
Record view := View {
  v_present : bool; v_charging : bool; v_level : Z; v_health : Health; v_status : Status;
}.

Definition view_of (m : machine) : view :=
  View (isPresent m) (isCharging m) (getChargeLevel m) (getHealth m) (getStatus m).

Definition known_health (h : Health) : Health :=
  match h with HEALTH_ENTRIES => HEALTH_UNKNOWN | _ => h end.
Definition known_status (s : Status) : Status :=
  match s with STATUS_ENTRIES => STATUS_UNKNOWN | _ => s end.

(** What each call means. *)
Definition spec_call (c : call) (v : view) : view :=
  let '(View p ch l h s) := v in
  match c with
  | SetHasBattery _ => v
  | SetPresent b => View b ch l h s
  | SetCharging b => View p b l h s
  | SetChargerType c => View p (match c with CHARGER_NONE => false | _ => true end) l h s
  | SetChargeLevel n => if (0 <=? n) && (n <=? 100) then View p ch n h s else v
  | SetHealth h => View p ch l (known_health h) s
  | SetStatus s => View p ch l h (known_status s)
  end.

(** The interrupt controller brings a raised line back raised. *)
Definition line_restored (irq_restore : Z -> Z -> Z) : Prop :=
  forall saved before, saved <> 0 -> irq_restore saved before <> 0.

(** The change of the battery or of the power supply is waiting to be read. *)
Definition change_bit (ac : bool) : Z := if ac then AC_STATUS_CHANGED else BATTERY_STATUS_CHANGED.
Definition change_pending (bit : Z) (s : goldfish_battery_state) : Prop := Z.land (int_status s) bit = bit.

(** The events that read no pending change: not the ones that read the status
    register or replace the state. *)
Definition reads_no_change (e : event) : Prop :=
  match e with Read o => o <> BATTERY_INT_STATUS | Load _ => False | _ => True end.

(** The interrupt is raised while an enabled change is pending. *)
Definition irq_ok (m : machine) : Prop :=
  match device m with
  | None => sBatteryIsRealized m = false
  | Some s =>
      sBatteryIsRealized m = true /\ 0 <= int_status s <= 3 /\
      (Z.land (int_status s) (int_enable s) <> 0 -> irq s <> 0)
  end.

(** ** Lemmas *)

Lemma lor_range a b : 0 <= a <= 3 -> 0 <= b <= 3 -> 0 <= Z.lor a b <= 3.
Proof.
  intros Ha Hb. assert (in_u 2 (Z.lor a b)) as [??].
  - apply lor_in_u; unfold in_u; lia.
  - lia.
Qed.

Lemma raise_changed_ok ac s :
  0 <= int_status s <= 3 -> (Z.land (int_status s) (int_enable s) <> 0 -> irq s <> 0) ->
  let s' := raise_changed ac s in
  0 <= int_status s' <= 3 /\ (Z.land (int_status s') (int_enable s') <> 0 -> irq s' <> 0).
Proof.
  intros Hr Hi. unfold raise_changed. destruct (Z.eqb_spec (if ac then AC_STATUS_CHANGED else BATTERY_STATUS_CHANGED) (int_status s)); [done|].
  destruct s. cbn in *. split; [|done].
  apply lor_range; [done|]. destruct ac; unfold AC_STATUS_CHANGED, BATTERY_STATUS_CHANGED; lia.
Qed.

Lemma store_prop_frame ac p v s :
  let s' := store_prop ac p v s in
  int_status s' = int_status s /\ int_enable s' = int_enable s /\ irq s' = irq s /\
  hw_has_battery s' = hw_has_battery s.
Proof. by destruct ac, p, s. Qed.

Lemma set_prop_ok ac p v m : irq_ok m -> irq_ok (goldfish_battery_set_prop ac p v m).
Proof.
  unfold goldfish_battery_set_prop. intros H.
  destruct (sBatteryIsRealized m) eqn:E; cbn [negb].
  - destruct (device m) as [s|] eqn:D; [|done]. destruct (_ =? 0); [done|].
    unfold irq_ok in H |- *. rewrite D in H. destruct H as (_ & Hr & Hi). cbn. rewrite E.
    destruct (store_prop_frame ac p (u32 v) s) as (E1 & E2 & E3 & _).
    split; [done|]. apply raise_changed_ok; [by rewrite E1|by rewrite E1, E2, E3].
  - unfold irq_ok in *. destruct p; cbn; try done.
    destruct (device m); [|done]. destruct H as [H _]. congruence.
Qed.

Lemma run_call_set_prop c m :
  run_call c m = m \/ exists ac p v, run_call c m = goldfish_battery_set_prop ac p v m.
Proof.
  destruct c; cbn [run_call]; try (right; eexists _, _, _; reflexivity).
  unfold setChargeLevel. destruct (_ || _); [by left|]. right. eexists _, _, _. reflexivity.
Qed.

(** The saved bits and line of a snapshot. *)
Definition snap_ok (snap : list Z * Z) : Prop :=
  exists s, snap.1 = vmsd_save s /\ 0 <= int_status s <= 3 /\ (Z.land (int_status s) (int_enable s) <> 0 -> snap.2 <> 0).

Definition world_ok (w : world) : Prop := irq_ok w.1 /\ Forall snap_ok w.2.

Lemma read_ok o s m : device m = Some s -> irq_ok m -> irq_ok (with_device (goldfish_battery_read o s).2 m).
Proof.
  intros D H. unfold irq_ok in *. rewrite D in H. destruct H as (Hz & Hr & Hi).
  unfold goldfish_battery_read. cbn. destruct (o =? _); [|done]. cbn.
  destruct (Z.eqb_spec (Z.land (int_status s) (int_enable s)) 0); [done|].
  destruct s; cbn in *. split_and!; try done; lia.
Qed.

Lemma guest_write_ok o v s m : device m = Some s -> irq_ok m -> irq_ok (with_device (goldfish_battery_write o v s) m).
Proof.
  intros D H. unfold irq_ok in *. rewrite D in H. destruct H as (Hz & Hr & Hi).
  unfold goldfish_battery_write. cbn. destruct (o =? _); [|done].
  destruct s; cbn in *. destruct (Z.eqb_spec (Z.land (u32 v) int_status0) 0) as [E|E]; cbn; [|done].
  rewrite Z.land_comm in E. done.
Qed.

Lemma run_call_ok c m : irq_ok m -> irq_ok (run_call c m).
Proof. destruct (run_call_set_prop c m) as [->|(ac & p & v & ->)]; [done|apply set_prop_ok]. Qed.

Lemma run_event_ok restore e w w' :
  line_restored restore -> run_event restore e w = Some w' -> world_ok w -> world_ok w'.
Proof.
  intros Hl. destruct w as [m snaps]. intros E [H Hs]. cbn in H, Hs.
  destruct e as [|c|ac p v|o|o v| |n]; cbn in E.
  - destruct (device m); [done|]. injection E as <-. split; [|done]. split_and!; cbn; [done|lia|lia|done].
  - injection E as <-. split; [by apply run_call_ok|done].
  - injection E as <-. split; [by apply set_prop_ok|done].
  - destruct (device m) as [s|] eqn:D; [|done]. injection E as <-. split; [by apply read_ok|done].
  - destruct (device m) as [s|] eqn:D; [|done]. injection E as <-. split; [by apply guest_write_ok|done].
  - destruct (device m) as [s|] eqn:D; [|done]. injection E as <-. split; [done|].
    apply Forall_app. split; [done|]. apply Forall_singleton. exists s. unfold irq_ok in H. rewrite D in H.
    by destruct H as (_ & ? & ?).
  - destruct (device m) as [s|] eqn:D; [|done]. cbn in E. destruct (snaps !! n) as [[fs l]|] eqn:En; [|done].
    destruct (Forall_lookup_1 _ _ _ _ Hs En) as (s0 & Ef & Hr & Hi). cbn in E, Ef, Hi. subst fs.
    unfold irq_ok in H. rewrite D in H. destruct H as (Hz & _). destruct s, s0. cbn in E.
    injection E as <-. split; [|done]. split_and!; cbn in *; [done|lia|lia|]. intros Hne. by apply Hl, Hi.
Qed.

Lemma run_events_ok restore es w w' :
  line_restored restore -> run_events restore es w = Some w' -> world_ok w -> world_ok w'.
Proof.
  intros Hl. revert w. induction es as [|e es IH]; intros w; cbn; [by intros [= ->]|].
  intros E H. destruct (run_event restore e w) as [w1|] eqn:E1; [|done].
  by eapply IH, run_event_ok.
Qed.

Lemma reachable_irq_ok restore m snaps :
  line_restored restore -> reachable restore (m, snaps) -> irq_ok m.
Proof. intros Hl [es E]. by eapply run_events_ok in E as [? _]. Qed.

(** ** Pending changes *)

Lemma raise_changed_pending ac s : change_pending (change_bit ac) (raise_changed ac s).
Proof.
  unfold change_pending, raise_changed. fold (change_bit ac).
  destruct (Z.eqb_spec (change_bit ac) (int_status s)) as [E|E]; [rewrite <- E; apply Z.land_diag|].
  destruct s. cbn. apply Z.bits_inj'. intros n Hn. rewrite Z.land_spec, Z.lor_spec.
  destruct (Z.testbit (change_bit ac) n); [by rewrite orb_true_r|by rewrite andb_false_r].
Qed.

Lemma raise_changed_keeps bit ac s : change_pending bit s -> change_pending bit (raise_changed ac s).
Proof.
  unfold change_pending, raise_changed. destruct (_ =? _); [done|]. destruct s. cbn. intros H.
  apply Z.bits_inj'. intros n Hn. apply (f_equal (fun x => Z.testbit x n)) in H. rewrite Z.land_spec in H.
  rewrite Z.land_spec, Z.lor_spec. destruct (Z.testbit bit n); [|apply andb_false_r].
  rewrite andb_true_r in *. by rewrite H.
Qed.

Lemma set_prop_keeps bit ac p v m s :
  device m = Some s -> change_pending bit s ->
  exists s', device (goldfish_battery_set_prop ac p v m) = Some s' /\ change_pending bit s'.
Proof.
  intros D H. unfold goldfish_battery_set_prop. destruct (sBatteryIsRealized m); cbn [negb];
    [|destruct p; by exists s].
  rewrite D. destruct (_ =? _); [by exists s|]. eexists. split; [done|]. apply raise_changed_keeps.
  unfold change_pending. by destruct (store_prop_frame ac p (u32 v) s) as (-> & _).
Qed.

Lemma run_event_keeps restore bit e m snaps s m' snaps' :
  reads_no_change e -> run_event restore e (m, snaps) = Some (m', snaps') ->
  device m = Some s -> change_pending bit s -> exists s', device m' = Some s' /\ change_pending bit s'.
Proof.
  intros He E D H. destruct e as [|c|ac p v|o|o v| |n]; cbn in E, He; rewrite ?D in E; try done;
    injection E as <- <-.
  - destruct (run_call_set_prop c m) as [->|(ac & p & v & ->)]; [by exists s|by eapply set_prop_keeps].
  - by eapply set_prop_keeps.
  - exists s. unfold goldfish_battery_read. by rewrite (proj2 (Z.eqb_neq _ _) He).
  - eexists. split; [done|]. unfold goldfish_battery_write, change_pending in *.
    destruct (o =? _); [|done]. destruct s. cbn in *. by destruct (Z.eqb _ 0).
  - by exists s.
Qed.

Lemma run_events_keep restore bit es m snaps s m' snaps' :
  Forall reads_no_change es -> run_events restore es (m, snaps) = Some (m', snaps') ->
  device m = Some s -> change_pending bit s -> exists s', device m' = Some s' /\ change_pending bit s'.
Proof.
  intros He. revert m snaps s. induction He as [|e es He _ IH]; intros m snaps s E D H; cbn [run_events] in E.
  { injection E as <- <-. cbn in *; by exists s. }
  destruct (run_event restore e (m, snaps)) as [[m1 snaps1]|] eqn:E1; [|done].
  destruct (run_event_keeps _ bit _ _ _ _ _ _ He E1 D H) as (s1 & D1 & H1). by eapply IH.
Qed.

Definition has_battery (m : machine) : Prop :=
  exists s, device m = Some s /\ sBatteryIsRealized m = true /\ hw_has_battery s <> 0.

(** Setting a property of a machine with a battery. *)
Lemma set_prop_device ac p v m s :
  device m = Some s -> sBatteryIsRealized m = true -> hw_has_battery s <> 0 ->
  device (goldfish_battery_set_prop ac p v m) = Some (raise_changed ac (store_prop ac p (u32 v) s)).
Proof.
  intros D R B. unfold goldfish_battery_set_prop. rewrite R, D. cbn [negb].
  destruct (Z.eqb_spec (hw_has_battery s) 0); done.
Qed.

Lemma read_raise_changed p ac s : read_prop p (raise_changed ac s) = read_prop p s.
Proof. unfold raise_changed. destruct (_ =? _); [done|]. by destruct s, p. Qed.

Lemma raise_changed_has_battery ac s : hw_has_battery (raise_changed ac s) = hw_has_battery s.
Proof. unfold raise_changed. destruct (_ =? _); [done|]. by destruct s. Qed.

Lemma s32_u32_small v : 0 <= v < 128 -> s32 (u32 v) = v.
Proof. intros H. rewrite wrap_small by (unfold in_u; lia). apply swrap_small; unfold in_s; lia. Qed.

(** Reading a property after a set. *)
Lemma read_set_prop q ac p v m s :
  device m = Some s -> sBatteryIsRealized m = true -> hw_has_battery s <> 0 ->
  goldfish_battery_read_prop q (goldfish_battery_set_prop ac p v m) =
    s32 (read_prop q (store_prop ac p (u32 v) s)).
Proof.
  intros D R B. unfold goldfish_battery_read_prop. rewrite (set_prop_device _ _ _ _ s) by done.
  by rewrite read_raise_changed.
Qed.

Lemma run_call_has_battery c m : has_battery m -> has_battery (run_call c m).
Proof.
  intros (s & D & R & B). destruct (run_call_set_prop c m) as [->|(ac & p & v & ->)]; [by exists s|].
  eexists. split; [by apply set_prop_device|]. unfold goldfish_battery_set_prop.
  rewrite R, D. cbn [negb]. destruct (Z.eqb_spec (hw_has_battery s) 0); [done|]. split; [done|].
  rewrite raise_changed_has_battery.
  by destruct (store_prop_frame ac p (u32 v) s) as (_ & _ & _ & ->).
Qed.

Lemma s32_b2z b : negb (s32 (u32 (b2z b)) =? 0) = b.
Proof. by destruct b. Qed.

(** Reading the status register while an enabled change is pending. *)
Lemma read_clears ac s :
  change_pending (change_bit ac) s -> Z.land (change_bit ac) (int_enable s) = change_bit ac ->
  (Z.land (int_status s) (int_enable s) <> 0 -> irq s <> 0) ->
  irq s <> 0 /\
  let '(r, s') := goldfish_battery_read BATTERY_INT_STATUS s in
  Z.land r (change_bit ac) = change_bit ac /\ int_status s' = 0 /\ irq s' = 0.
Proof.
  unfold change_pending. intros Hp He Hi.
  assert (Z.land (Z.land (int_status s) (int_enable s)) (change_bit ac) = change_bit ac) as Hret.
  { by rewrite <- Z.land_assoc, (Z.land_comm (int_enable s)), He. }
  assert (Z.land (int_status s) (int_enable s) <> 0) as Hne.
  { intros E. rewrite E, Z.land_0_l in Hret. by destruct ac. }
  split; [by apply Hi|]. unfold goldfish_battery_read. cbn [Z.eqb BATTERY_INT_STATUS].
  destruct (Z.eqb_spec (Z.land (int_status s) (int_enable s)) 0); [done|].
  split; [done|]. by destruct s.
Qed.

(** What is seen of a device, in its registers. *)
Definition registers_view (s : goldfish_battery_state) : view :=
  View (negb (s32 (present s) =? 0)) (negb (s32 (ac_online s) =? 0)) (s32 (capacity s))
    (health_of (s32 (health s))) (status_of (s32 (status s))).

Lemma view_of_device m s : device m = Some s -> view_of m = registers_view s.
Proof.
  intros D. unfold view_of, isPresent, isCharging, getChargeLevel, getHealth, getStatus,
    goldfish_battery_read_prop. by rewrite D.
Qed.

Lemma registers_view_raise_changed ac s : registers_view (raise_changed ac s) = registers_view s.
Proof. unfold raise_changed. destruct (_ =? _); [done|]. by destruct s. Qed.

Lemma run_call_view c m : has_battery m -> view_of (run_call c m) = spec_call c (view_of m).
Proof.
  intros (s & D & R & B). rewrite (view_of_device m s D).
  assert (forall ac p v, view_of (goldfish_battery_set_prop ac p v m) =
    registers_view (store_prop ac p (u32 v) s)) as Hset.
  { intros ac p v. rewrite (view_of_device _ _ (set_prop_device ac p v m s D R B)).
    apply registers_view_raise_changed. }
  destruct c as [b|b|b|c|n|h|t]; cbn [run_call spec_call];
    unfold setHasBattery, setPresent, setCharging, setChargerType, setCharging, setHealth, setStatus;
    rewrite ?Hset; unfold registers_view.
  - by destruct s.
  - destruct s. cbn -[wrap swrap]. by rewrite s32_b2z.
  - destruct s. cbn -[wrap swrap]. by rewrite s32_b2z.
  - destruct s. cbn -[wrap swrap]. rewrite s32_b2z. by destruct c.
  - unfold setChargeLevel.
    destruct (Z.leb_spec 0 n), (Z.leb_spec n 100), (Z.ltb_spec n 0), (Z.ltb_spec 100 n); try lia;
      cbn [orb]; rewrite ?Hset, ?(view_of_device m s D); unfold registers_view, spec_call;
      rewrite ?(proj2 (Z.leb_le _ _)), ?(proj2 (Z.leb_gt 0 n)), ?(proj2 (Z.leb_gt n 100)) by lia;
      cbn [andb]; try done.
    destruct s. cbn -[wrap swrap]. by rewrite s32_u32_small by lia.
  - destruct s. by destruct h.
  - destruct s. by destruct t.
Qed.

Lemma guest_step_view o v m s :
  device m = Some s ->
  view_of (with_device (goldfish_battery_read o s).2 m) = view_of m /\
  view_of (with_device (goldfish_battery_write o v s) m) = view_of m.
Proof.
  intros D. rewrite (view_of_device m s D), !(view_of_device (with_device _ m) _ eq_refl).
  unfold goldfish_battery_read, goldfish_battery_write. destruct s.
  split; destruct (o =? _); cbn; try done; by destruct (Z.eqb _ 0).
Qed.

(** ** Properties *)

(** C18: In every state reached by realizing the device, calls of the emulator,
    accesses of the guest, and taking and loading snapshots, an enabled change
    that is pending keeps the interrupt raised, as long as the interrupt
    controller restores a raised line with the snapshot.  A change made on a
    device with a battery is pending from then on, whatever else happens and
    whatever other changes there are, until the guest reads the status
    register or a snapshot is loaded: a guest that enables it meanwhile has
    the interrupt and finds the change in the register, and reading clears
    both. *)
Theorem battery_interrupt (irq_restore : Z -> Z -> Z) m snaps :
  line_restored irq_restore -> reachable irq_restore (m, snaps) ->
  irq_ok m /\
  (forall ac p v s es m2 snaps2, device m = Some s -> hw_has_battery s <> 0 ->
   Forall reads_no_change es ->
   run_events irq_restore es (goldfish_battery_set_prop ac p v m, snaps) = Some (m2, snaps2) ->
   exists s2, device m2 = Some s2 /\
     let bit := change_bit ac in
     Z.land (int_status s2) bit = bit /\
     (Z.land bit (int_enable s2) = bit ->
      irq s2 <> 0 /\
      let '(r, s3) := goldfish_battery_read BATTERY_INT_STATUS s2 in
      Z.land r bit = bit /\ int_status s3 = 0 /\ irq s3 = 0)).
Proof.
  intros Hl Hr. pose proof (reachable_irq_ok _ m snaps Hl Hr) as H. split; [done|].
  intros ac p v s es m2 snaps2 D B He E.
  pose proof H as R. unfold irq_ok in R. rewrite D in R. destruct R as (R & _).
  destruct (run_events_keep _ (change_bit ac) _ _ _ _ _ _ He E (set_prop_device ac p v m s D R B))
    as (s2 & D2 & Hp); [apply raise_changed_pending|].
  exists s2. split; [done|]. cbv zeta. split; [exact Hp|]. intros Hen.
  assert (irq_ok m2) as H2.
  { destruct Hr as [es0 E0]. apply (run_events_ok _ _ _ _ Hl) in E0 as [_ Hs]; [|by split].
    apply (run_events_ok _ _ _ _ Hl) in E as [? _]; [done|]. split; [by apply set_prop_ok|done]. }
  unfold irq_ok in H2. rewrite D2 in H2. destruct H2 as (_ & _ & Hirq).
  by apply read_clears.
Qed.

(** The emulator's interface refines its meaning: on a device with a
    battery each call changes exactly the value it names, whatever the guest
    reads and writes in between; on a realized device without one no call
    changes anything that can be seen. *)
Theorem battery_refines_view (irq_restore : Z -> Z -> Z) m snaps s :
  line_restored irq_restore -> reachable irq_restore (m, snaps) -> device m = Some s ->
  (forall c, view_of (run_call c m) =
     if hw_has_battery s =? 0 then view_of m else spec_call c (view_of m)) /\
  (forall c s', device (run_call c m) = Some s' -> hw_has_battery s' = hw_has_battery s) /\
  (forall o v, view_of (with_device (goldfish_battery_read o s).2 m) = view_of m /\
    view_of (with_device (goldfish_battery_write o v s) m) = view_of m).
Proof.
  intros Hl Hr D. pose proof (reachable_irq_ok _ m snaps Hl Hr) as H. unfold irq_ok in H. rewrite D in H. destruct H as (R & _).
  split_and!; [| |intros; by apply guest_step_view].
  - intros c. destruct (Z.eqb_spec (hw_has_battery s) 0) as [E|E].
    + destruct (run_call_set_prop c m) as [->|(ac & p & v & ->)]; [done|].
      unfold goldfish_battery_set_prop. by rewrite R, D, E.
    + apply run_call_view. by exists s.
  - intros c s'. destruct (run_call_set_prop c m) as [->|(ac & p & v & ->)]; [congruence|].
    unfold goldfish_battery_set_prop. rewrite R, D. cbn [negb].
    destruct (Z.eqb_spec (hw_has_battery s) 0); [congruence|]. cbn. intros [= <-].
    rewrite raise_changed_has_battery. apply store_prop_frame.
Qed.

(** A snapshot restores the interrupt bits and the state of the battery but
    not its voltage, temperature, currents and charges, nor the interrupt
    line: these stay those of the device it is loaded into. *)
Theorem battery_save_load s x :
  exists s', vmsd_load (vmsd_save s) x = Some s' /\ vmsd_save s' = vmsd_save s /\
  registers_view s' = registers_view s /\ irq s' = irq x /\
  (forall o, register o s' = if (28 <=? o) && (o <=? 64) then register o x else register o s).
Proof.
  destruct s, x. eexists. split; [reflexivity|]. split; [reflexivity|]. split; [reflexivity|].
  split; [reflexivity|]. intros o.
  destruct (Z.leb_spec 28 o), (Z.leb_spec o 64); cbn [andb]; unfold register.
  - assert (o ∈ seqZ 28 37) as Ho by (apply elem_of_seqZ; lia).
    vm_compute in Ho. repeat (apply elem_of_cons in Ho; destruct Ho as [->|Ho]; [reflexivity|]).
    by apply elem_of_nil in Ho.
  - destruct o as [|o|o]; [done| |done]. repeat (destruct o as [o|o|]; try lia; try reflexivity).
  - destruct o as [|o|o]; [done| |done]. repeat (destruct o as [o|o|]; try lia; try reflexivity).
  - destruct o as [|o|o]; try lia.
Qed.

(** ** Witnesses *)

Definition example : machine := goldfish_battery_realize (setHasBattery true machine0).

(** An interrupt controller that restores the line as it was. *)
Definition saved_line (saved before : Z) : Z := saved.
Lemma saved_line_restored : line_restored saved_line.
Proof. by intros saved before H. Qed.

Lemma example_reachable : reachable saved_line (example, []).
Proof. by exists [Call (SetHasBattery true); Realize]. Qed.

(** The charger is unplugged, a snapshot is taken, the level falls, and only
    then the guest enables the interrupts: it finds both changes. *)
Lemma battery_interrupt_witness :
  exists s, device example = Some s /\ exists m2 snaps2 s2,
    run_events saved_line [Save; Call (SetChargeLevel 99); Write BATTERY_INT_ENABLE 3]
      (goldfish_battery_set_prop true ONLINE 0 example, []) = Some (m2, snaps2) /\
    device m2 = Some s2 /\ Z.land (int_status s2) AC_STATUS_CHANGED = AC_STATUS_CHANGED /\ irq s2 <> 0.
Proof.
  destruct (battery_interrupt saved_line example [] saved_line_restored example_reachable) as [_ H].
  destruct (device example) as [s|] eqn:D; [|done]. exists s. split; [done|].
  destruct (run_events saved_line [Save; Call (SetChargeLevel 99); Write BATTERY_INT_ENABLE 3]
      (goldfish_battery_set_prop true ONLINE 0 example, [])) as [[m2 snaps2]|] eqn:E; [|done].
  exists m2, snaps2.
  destruct (H true ONLINE 0 s [Save; Call (SetChargeLevel 99); Write BATTERY_INT_ENABLE 3] m2 snaps2 eq_refl ltac:(vm_compute in D; by injection D as <-) ltac:(repeat constructor; discriminate) E)
    as (s2 & D2 & Hp & Hi).
  exists s2. split_and!; [done|done|exact Hp|]. apply Hi.
  vm_compute in E. injection E as <- <-. vm_compute in D2. injection D2 as <-. reflexivity.
Defined.

Lemma battery_refines_view_witness :
  view_of (setChargeLevel 42 example) = View true true 42 GOOD CHARGING.
Proof.
  destruct (battery_refines_view saved_line example [] _ saved_line_restored example_reachable eq_refl) as [E _].
  exact (E (SetChargeLevel 42)).
Defined.
