(* ===== verification/PortForward.v ===== *)
(** * Forwarding a port of the host to the guest

    Models [emulator/plugin/vsock_goldfish/vsock_port_fwd.cpp] (the class
    [HostToGuestConnection], whose callbacks come from the looper and from the
    vsock device, as a step relation at the accesses of its shared fields; and
    the setters of the ports) and [emulator/devices/connection_awaiter.cpp].
    Sockets of the host are the sequence of what is sent and disposed;
    [None] is a dereferenced null pointer. *)

From S2P Require Import Prelude.

(** ** The connection, callback by callback *)

Record conn := Conn {
  mConnected : bool; mPreConnectedBuffer : bytes; mGuestSocket : bool; mDisposing : bool;
  (* what was given to the guest socket, and how often each side was let go *)
  sent : bytes; disposes : nat; unplugs : nat;
}.

(** After [connectToGuest]. *)
Definition conn0 : conn := Conn false [] true false [] 0 0.

Definition with_sent (x : bytes) (c : conn) : conn :=
  Conn (mConnected c) (mPreConnectedBuffer c) (mGuestSocket c) (mDisposing c) x (disposes c) (unplugs c).
Definition with_buffer (x : bytes) (c : conn) : conn :=
  Conn (mConnected c) x (mGuestSocket c) (mDisposing c) (sent c) (disposes c) (unplugs c).
Definition with_connected (c : conn) : conn :=
  Conn true (mPreConnectedBuffer c) (mGuestSocket c) (mDisposing c) (sent c) (disposes c) (unplugs c).

(** The bytes behind the test of [mConnected]. *)
Definition forward (b : bytes) (c : conn) : conn :=
  if mGuestSocket c then with_sent (sent c ++ b) c else c.

Definition receiveHost (b : bytes) (c : conn) : conn :=
  if negb (mConnected c) then with_buffer (mPreConnectedBuffer c ++ b) c else forward b c.

Definition onConnect (c : conn) : option conn :=
  let c := with_connected c in
  match mPreConnectedBuffer c with
  | [] => Some c
  | b => if mGuestSocket c then Some (with_buffer [] (with_sent (sent c ++ b) c)) else None
  end.

(** [ISocket::unplug] dereferences the socket. *)
Definition closeHost (c : conn) : option conn :=
  if mDisposing c then Some c
  else if mGuestSocket c then
    Some (Conn (mConnected c) (mPreConnectedBuffer c) false true (sent c) (S (disposes c)) (S (unplugs c)))
  else None.

(** The socket is returned to the device; the flag says if there was one. *)
Definition onUnplug (c : conn) : bool * conn :=
  (mGuestSocket c,
   Conn (mConnected c) (mPreConnectedBuffer c) false true (sent c)
     (if mDisposing c then disposes c else S (disposes c)) (unplugs c)).

Definition closed (c : conn) : Prop :=
  mDisposing c = true /\ mGuestSocket c = false /\ disposes c = 1%nat.

(** ** Its two threads

    The looper runs [receiveHost] and [closeHost], the device [onConnect] and
    [onUnplug].  Their locks are [mConnectedMutex], the recursive [mClosing]
    and the device's [mStateMutex], which the device holds while it calls a
    plug and which [sendAsync] and [unplug] take; nobody else takes part. *)

(** Where the looper is.  In [receiveHost]: before the test of [mConnected],
    waiting for [mConnectedMutex], holding it before the second test, before
    the test of [mGuestSocket], before it follows the pointer, waiting for
    the device.  In [closeHost]: waiting for [mClosing], holding it before the
    test of [mDisposing], before it moves [mGuestSocket], waiting for the
    device.  [HCrash]: it followed a null pointer or used a stream that was
    erased. *)
Inductive host_pc :=
  | HIdle | HTest (b : bytes) | HWait (b : bytes) | HCrit (b : bytes) | HForward (b : bytes)
  | HSend (b : bytes) | HWaitDevice (b : bytes)
  | CWait | CTest | CMove | CWaitDevice | HCrash.

(** Where the device is.  In [onConnect]: waiting for [mConnectedMutex],
    holding it before the assignment, before the test of the buffer, before
    sending it, before clearing it.  In [onUnplug]: waiting for [mClosing],
    holding it; and before it erases the stream. *)
Inductive guest_pc := GIdle | GWait | GCrit | GTest | GSend | GClear | UWait | UCrit | UErase | GCrash.

(** [open]: the stream is in the device's set. *)
Record threads := Threads {
  conn_of : conn; hpc : host_pc; gpc : guest_pc; received : bytes; open : bool;
}.

Definition guest_holds_connected (g : guest_pc) : bool :=
  match g with GCrit | GTest | GSend | GClear => true | _ => false end.
Definition host_holds_connected (h : host_pc) : bool := match h with HCrit _ => true | _ => false end.
Definition guest_holds_closing (g : guest_pc) : bool := match g with UCrit => true | _ => false end.
Definition host_holds_closing (h : host_pc) : bool :=
  match h with CTest | CMove | CWaitDevice => true | _ => false end.
Definition guest_holds_device (g : guest_pc) : bool := match g with GIdle => false | _ => true end.

Definition host_at (h : host_pc) (t : threads) : threads := Threads (conn_of t) h (gpc t) (received t) (open t).
Definition guest_at (g : guest_pc) (t : threads) : threads := Threads (conn_of t) (hpc t) g (received t) (open t).
Definition with_conn (c : conn) (t : threads) : threads := Threads c (hpc t) (gpc t) (received t) (open t).
Definition erased (t : threads) : threads := Threads (conn_of t) (hpc t) (gpc t) (received t) false.

Definition disposed (c : conn) : conn :=
  Conn (mConnected c) (mPreConnectedBuffer c) (mGuestSocket c) true (sent c) (S (disposes c)) (unplugs c).
Definition moved (c : conn) : conn :=
  Conn (mConnected c) (mPreConnectedBuffer c) false (mDisposing c) (sent c) (disposes c) (unplugs c).
Definition unplugged (c : conn) : conn :=
  Conn (mConnected c) (mPreConnectedBuffer c) (mGuestSocket c) (mDisposing c) (sent c) (disposes c) (S (unplugs c)).

(** The next step of the looper, [None] when it has none: it is idle, waits
    or has crashed. *)
Definition host_run (t : threads) : option threads :=
  let c := conn_of t in
  match hpc t with
  | HIdle | HCrash => None
  | HTest b => Some (host_at (if mConnected c then HForward b else HWait b) t)
  | HWait b => if guest_holds_connected (gpc t) then None else Some (host_at (HCrit b) t)
  | HCrit b =>
      Some (if mConnected c then host_at (HForward b) t
            else host_at HIdle (with_conn (with_buffer (mPreConnectedBuffer c ++ b) c) t))
  | HForward b => Some (host_at (if mGuestSocket c then HSend b else HIdle) t)
  | HSend b => Some (host_at (if mGuestSocket c then HWaitDevice b else HCrash) t)
  | HWaitDevice b =>
      if guest_holds_device (gpc t) then None
      else Some (if open t then host_at HIdle (with_conn (with_sent (sent c ++ b) c) t) else host_at HCrash t)
  | CWait => if guest_holds_closing (gpc t) then None else Some (host_at CTest t)
  | CTest => Some (if mDisposing c then host_at HIdle t else host_at CMove (with_conn (disposed c) t))
  | CMove => Some (if mGuestSocket c then host_at CWaitDevice (with_conn (moved c) t) else host_at HCrash t)
  | CWaitDevice =>
      if guest_holds_device (gpc t) then None
      else Some (if open t then host_at HIdle (with_conn (unplugged c) (erased t)) else host_at HCrash t)
  end.

(** The next step of the device. *)
Definition guest_run (t : threads) : option threads :=
  let c := conn_of t in
  match gpc t with
  | GIdle | GCrash => None
  | GWait => if host_holds_connected (hpc t) then None else Some (guest_at GCrit t)
  | GCrit => Some (guest_at GTest (with_conn (with_connected c) t))
  | GTest => Some (guest_at (match mPreConnectedBuffer c with [] => GIdle | _ => GSend end) t)
  | GSend =>
      Some (if mGuestSocket c then guest_at GClear (with_conn (with_sent (sent c ++ mPreConnectedBuffer c) c) t)
            else guest_at GCrash t)
  | GClear => Some (guest_at GIdle (with_conn (with_buffer [] c) t))
  | UWait => if host_holds_closing (hpc t) then None else Some (guest_at UCrit t)
  | UCrit => Some (guest_at UErase (with_conn (moved (if mDisposing c then c else disposed c)) t))
  | UErase => Some (guest_at GIdle (erased t))
  end.

(** A step of the code. *)
Definition fwd_run (t t' : threads) : Prop := host_run t = Some t' \/ guest_run t = Some t'.

(** The calls: bytes or the end of the host's connection; the guest's answer
    or end of the stream. *)
Inductive fwd_call : threads -> threads -> Prop :=
  | h_receive b c g r o : fwd_call (Threads c HIdle g r o) (Threads c (HTest b) g (r ++ b) o)
  | h_close c g r o : fwd_call (Threads c HIdle g r o) (Threads c CWait g r o)
  | g_response c h r : fwd_call (Threads c h GIdle r true) (Threads c h GWait r true)
  | g_reset c h r : fwd_call (Threads c h GIdle r true) (Threads c h UWait r true).

Definition fwd_step (t t' : threads) : Prop := fwd_run t t' \/ fwd_call t t'.

(** After [connectToGuest]. *)
Definition threads0 : threads := Threads conn0 HIdle GIdle [] true.

(** Both threads are done with their calls. *)
Definition idle (t : threads) : Prop := hpc t = HIdle /\ gpc t = GIdle.
Definition crashed (t : threads) : Prop := hpc t = HCrash \/ gpc t = GCrash.
(** The looper closes: it holds [mClosing] and waits for the device, which
    waits for [mClosing]. *)
Definition deadlocked (t : threads) : Prop := hpc t = CWaitDevice /\ gpc t = UWait.

(** The steps the calls under way still have to do at most. *)
Definition host_work (h : host_pc) : nat :=
  match h with
  | HIdle | HCrash => 0 | HTest _ => 6 | HWait _ => 5 | HCrit _ => 4 | HForward _ => 3 | HSend _ => 2
  | HWaitDevice _ => 1 | CWait => 4 | CTest => 3 | CMove => 2 | CWaitDevice => 1
  end.
Definition guest_work (g : guest_pc) : nat :=
  match g with
  | GIdle | GCrash => 0 | GWait => 5 | GCrit => 4 | GTest => 3 | GSend => 2 | GClear => 1
  | UWait => 3 | UCrit => 2 | UErase => 1
  end.
Definition work (t : threads) : nat := host_work (hpc t) + guest_work (gpc t).

(** The bytes the looper has on its way. *)
Definition in_flight (h : host_pc) : bytes :=
  match h with
  | HTest b | HWait b | HCrit b | HForward b | HSend b | HWaitDevice b => b
  | _ => []
  end.

(** The looper found the connection connected. *)
Definition forwarding (h : host_pc) : bool :=
  match h with HForward _ | HSend _ | HWaitDevice _ => true | _ => false end.
(** The device has set [mConnected]. *)
Definition announced (g : guest_pc) : bool :=
  match g with GTest | GSend | GClear => true | _ => false end.

(** Where the bytes are while nobody closes: in order, those given to the
    guest, the buffer unless it has just been sent, those on their way; and
    once the device has announced the connection nothing is held back. *)
Definition held_back (t : threads) : bytes :=
  match gpc t with GClear => [] | _ => mPreConnectedBuffer (conn_of t) end.

Definition data_inv (t : threads) : Prop :=
  let c := conn_of t in
  received t = sent c ++ held_back t ++ in_flight (hpc t) /\
  (mConnected c = true -> announced (gpc t) = false -> mPreConnectedBuffer c = []) /\
  (forwarding (hpc t) = true -> mConnected c = true) /\
  (announced (gpc t) = true -> mConnected c = true) /\
  (mConnected c = false -> sent c = []).

(** The pointer [socket], the flag [disposing] and the stream [open], for
    every place of the two threads: a stream the pointer leads to is there,
    and until one side closes the pointer is set; [closeHost] does not meet a
    pointer or a stream that is gone; each lock has one holder; and only a
    connection that is being closed crashes. *)
Definition flags_ok (h : host_pc) (g : guest_pc) (socket disposing open : bool) : bool :=
  (negb socket || open) && (disposing || socket) && (negb (guest_holds_device g) || open) &&
  match h with
  | CMove => disposing && socket && match g with UErase => false | _ => true end
  | CWaitDevice => disposing && negb socket && open && match g with UErase => false | _ => true end
  | HCrash => disposing
  | _ => true
  end &&
  match g with UErase => disposing && negb socket | GCrash => disposing | _ => true end &&
  negb (guest_holds_connected g && host_holds_connected h) &&
  negb (guest_holds_closing g && host_holds_closing h).

Definition close_inv (t : threads) : Prop :=
  let c := conn_of t in
  flags_ok (hpc t) (gpc t) (mGuestSocket c) (mDisposing c) (open t) = true /\
  disposes c = (if mDisposing c then 1 else 0)%nat.

Definition fwd_inv (t : threads) : Prop :=
  close_inv t /\ (mDisposing (conn_of t) = false -> data_inv t).

(** ** Waiting for the guest *)

(** The awaiter, the streams the device has for it, and the sockets its
    callback got; the callback of the proxy starts the server and drops its
    socket, which closes the stream, as an assignment to [mSocket] does. *)
Record awaiter := Awaiter {
  mIsConnected : bool; mSocket : option nat; running : bool;
  live : gset nat; next_stream : nat; callbacks : list (option nat);
}.

Definition drop (o : option nat) (l : gset nat) : gset nat :=
  match o with Some i => l ∖ {[i]} | None => l end.

Definition awaiter0 : awaiter := Awaiter false None true ∅ 0 [].

(** The task repeats while [attemptConnection] returns [true]. *)
Definition attemptConnection (a : awaiter) : awaiter :=
  if mIsConnected a then Awaiter true (mSocket a) false (live a) (next_stream a) (callbacks a)
  else
    Awaiter false (Some (next_stream a)) (running a)
      ({[next_stream a]} ∪ drop (mSocket a) (live a)) (S (next_stream a)) (callbacks a).

Definition awaiter_onConnect (a : awaiter) : awaiter :=
  Awaiter true None false (drop (mSocket a) (live a)) (next_stream a) (callbacks a ++ [mSocket a]).

(** The device keeps the returned socket and erases the stream. *)
Definition awaiter_onUnplug (i : nat) (a : awaiter) : awaiter :=
  Awaiter (mIsConnected a) None (running a) (live a ∖ {[i]}) (next_stream a) (callbacks a).

(** A period of the task, an answer of the guest to a stream, a refusal. *)
Inductive awaiter_step : awaiter -> awaiter -> Prop :=
  | aw_tick a : running a = true -> awaiter_step a (attemptConnection a)
  | aw_response i a : i ∈ live a -> awaiter_step a (awaiter_onConnect a)
  | aw_reset i a : i ∈ live a -> awaiter_step a (awaiter_onUnplug i a).

Definition awaiter_ok (a : awaiter) : Prop :=
  live a = match mSocket a with Some i => {[i]} | None => ∅ end /\
  (if mIsConnected a then running a = false /\ mSocket a = None /\ (exists i, callbacks a = [Some i])
   else running a = true /\ callbacks a = []).

(** ** The properties of the device *)

Record VSockFwdDev := FwdDev { host_port : Z; guest_port : Z }.

(** [visit_type_uint32] gives a value or fails; the flag is the error. *)
Definition vsock_fwd_set_host_port (v : option Z) (d : VSockFwdDev) : bool * VSockFwdDev :=
  match v with
  | None => (false, d)
  | Some value =>
      if (value <? 0) || (65535 <? value) then (false, d) else (true, FwdDev value (guest_port d))
  end.

Definition vsock_fwd_set_guest_port (v : option Z) (d : VSockFwdDev) : bool * VSockFwdDev :=
  match v with
  | None => (false, d)
  | Some value =>
      if (value <? 0) || (65535 <? value) then (false, d) else (true, FwdDev (host_port d) value)
  end.

(** ** Callbacks one after the other *)

Inductive callback := CReceive (b : bytes) | CConnect | CClose | CUnplug.

(** [returned] counts the sockets [onUnplug] gave back. *)
Definition run_callback (x : callback) (s : nat * conn) : option (nat * conn) :=
  let '(returned, c) := s in
  match x with
  | CReceive b => Some (returned, receiveHost b c)
  | CConnect => c ← onConnect c; Some (returned, c)
  | CClose => c ← closeHost c; Some (returned, c)
  | CUnplug => let '(r, c) := onUnplug c in Some ((if r then S returned else returned), c)
  end.

Fixpoint run_callbacks (l : list callback) (s : nat * conn) : option (nat * conn) :=
  match l with
  | [] => Some s
  | x :: l => s ← run_callback x s; run_callbacks l s
  end.

Definition received_by (l : list callback) : bytes :=
  concat (map (fun x => match x with CReceive b => b | _ => [] end) l).

Definition closes (x : callback) : bool := match x with CClose | CUnplug => true | _ => false end.

(** ** Lemmas *)

(** The cases of a step: the places of the threads and the flags. *)
Ltac flag_cases Hs t h g gs md o :=
  destruct t as [[mc pb gs md se di un] h g r o];
  destruct h, g, gs, md, o; cbn in *; try discriminate; injection Hs as <-.

Lemma host_run_close t t' : host_run t = Some t' -> close_inv t -> close_inv t'.
Proof.
  unfold close_inv. intros Hs [Hf Hd]. flag_cases Hs t h g gs md o; cbn in *;
    try destruct mc; cbn in *; subst; done.
Qed.

Lemma guest_run_close t t' : guest_run t = Some t' -> close_inv t -> close_inv t'.
Proof.
  unfold close_inv. intros Hs [Hf Hd]. flag_cases Hs t h g gs md o; cbn in *;
    try destruct pb; cbn in *; subst; done.
Qed.

Lemma fwd_call_close t t' : fwd_call t t' -> close_inv t -> close_inv t'.
Proof.
  unfold close_inv. intros Hs [Hf Hd]. destruct Hs as [b c g r o|c g r o|c h r|c h r]; cbn in *;
    (split; [|done]); [destruct g|destruct g|destruct h|destruct h]; destruct (mGuestSocket c), (mDisposing c);
    try destruct o; done.
Qed.

Lemma host_run_data t t' :
  host_run t = Some t' -> close_inv t -> mDisposing (conn_of t') = false -> data_inv t -> data_inv t'.
Proof.
  intros Hs [Hf _] Hd (Hr & Hb & Hfw & Ha & Hn). destruct t as [c h g r o]. unfold data_inv, held_back in *.
  assert (mDisposing c = false -> mGuestSocket c = true /\ o = true) as Hsock.
  { intros E. cbn in Hf. rewrite E in Hf. destruct (mGuestSocket c), o; cbn in Hf; done. }
  destruct h as [|b|b|b|b|b|b| | | | |]; cbn in *; try discriminate Hs.
  - injection Hs as <-. destruct (mConnected c) eqn:Ec; cbn; rewrite Ec; split_and!; auto.
  - destruct (guest_holds_connected g); [done|]. by injection Hs as <-.
  - injection Hs as <-. destruct (mConnected c) eqn:Ec; cbn; rewrite Ec; [split_and!; auto|].
    assert (g <> GClear) by (intros ->; discriminate (Ha eq_refl)).
    split_and!; try done; destruct g; try done; rewrite Hr, app_nil_r; done.
  - injection Hs as <-. destruct (Hsock Hd) as [-> _]. by cbn.
  - injection Hs as <-. destruct (Hsock Hd) as [-> _]. by cbn.
  - destruct g; try discriminate Hs. cbn in *. injection Hs as <-.
    destruct (Hsock ltac:(by destruct o)) as [_ ->]. cbn in *.
    specialize (Hfw eq_refl). specialize (Hb Hfw eq_refl). rewrite Hb in *. cbn in *.
    rewrite app_nil_r. split_and!; auto. congruence.
  - destruct (guest_holds_closing g); [done|]. by injection Hs as <-.
  - injection Hs as <-. destruct (mDisposing c) eqn:Ed; cbn in Hd; [congruence|]. done.
  - exfalso. injection Hs as <-. destruct (mGuestSocket c); cbn in Hd; rewrite Hd in Hf; by destruct g, o.
  - exfalso. destruct (guest_holds_device g); [done|]. injection Hs as <-. destruct o; cbn in Hd; rewrite Hd in Hf;
      by destruct g, (mGuestSocket c).
Qed.

Lemma guest_run_data t t' :
  guest_run t = Some t' -> close_inv t -> mDisposing (conn_of t') = false -> data_inv t -> data_inv t'.
Proof.
  intros Hs [Hf _] Hd (Hr & Hb & Hfw & Ha & Hn). destruct t as [c h g r o]. unfold data_inv, held_back in *.
  destruct g; cbn in *; try discriminate Hs.
  - destruct (host_holds_connected h); [done|]. by injection Hs as <-.
  - injection Hs as <-. cbn. split_and!; auto; done.
  - injection Hs as <-. destruct (mPreConnectedBuffer c) eqn:Eb; cbn; rewrite ?Eb; split_and!; auto; done.
  - assert (mGuestSocket c = true) as Eg.
    { destruct (mGuestSocket c) eqn:E; [done|]. injection Hs as <-. cbn in Hd. by rewrite Hd in Hf. }
    rewrite Eg in Hs. injection Hs as <-. cbn. rewrite <- app_assoc. specialize (Ha eq_refl).
    split_and!; auto; congruence.
  - injection Hs as <-. cbn. split_and!; auto.
  - destruct (host_holds_closing h); [done|]. by injection Hs as <-.
  - injection Hs as <-. cbn in Hd. destruct (mDisposing c) eqn:Ed; cbn in Hd; congruence.
  - injection Hs as <-. cbn in Hd. rewrite Hd in Hf. by destruct h, (mGuestSocket c), o.
Qed.

Lemma fwd_call_data t t' : fwd_call t t' -> data_inv t -> data_inv t'.
Proof.
  intros Hs (Hr & Hb & Hfw & Ha & Hn). unfold data_inv, held_back in *.
  destruct Hs as [b c g r o|c g r o|c h r|c h r]; cbn in *; split_and!; auto.
  rewrite app_nil_r in Hr. rewrite Hr. by rewrite <- app_assoc.
Qed.

Lemma mDisposing_stays t t' :
  fwd_step t t' -> mDisposing (conn_of t') = false -> mDisposing (conn_of t) = false.
Proof.
  intros [[Hs|Hs]|Hs] Hd; [| |by destruct Hs]; destruct t as [c h g r o].
  - destruct h; cbn in Hs; repeat case_match; simplify_eq; done.
  - destruct g; cbn in Hs; repeat case_match; simplify_eq; done.
Qed.

Lemma fwd_step_inv t t' : fwd_step t t' -> fwd_inv t -> fwd_inv t'.
Proof.
  intros Hs [Hc Hd]. split.
  - destruct Hs as [[Hs|Hs]|Hs]; [by eapply host_run_close|by eapply guest_run_close|by eapply fwd_call_close].
  - intros E. pose proof (mDisposing_stays _ _ Hs E) as E0.
    destruct Hs as [[Hs|Hs]|Hs]; [eapply host_run_data|eapply guest_run_data|eapply fwd_call_data]; eauto.
Qed.


(** The calls under way finish, crash or lock each other out. *)
Lemma fwd_run_work t t' : fwd_run t t' -> (work t' < work t)%nat.
Proof.
  unfold work. intros [Hs|Hs]; destruct t as [c h g r o]; [destruct h|destruct g]; cbn in Hs;
    repeat case_match; simplify_eq; cbn; try lia; by repeat case_match; lia.
Qed.

Lemma fwd_progress t :
  close_inv t -> idle t \/ crashed t \/ deadlocked t \/ exists t', fwd_run t t'.
Proof.
  intros [Hf _]. destruct t as [c h g r o]. unfold idle, crashed, deadlocked, fwd_run. cbn in *.
  destruct h, g; try (left; done); try (right; left; by auto); try (right; right; left; done);
    (right; right; right; cbn; first [eexists; left; reflexivity|eexists; right; reflexivity|idtac]).
  all: try by destruct (mGuestSocket c), (mDisposing c), o.
Qed.


Lemma fwd_run_end n : forall t, (work t <= n)%nat -> fwd_inv t ->
  exists t', rtc fwd_run t t' /\ (idle t' \/ crashed t' \/ deadlocked t').
Proof.
  induction n as [|n IH]; intros t Hn H.
  - destruct (fwd_progress t (proj1 H)) as [?|[?|[?|[t' Hr]]]]; [exists t; split; [done|auto]..|].
    apply fwd_run_work in Hr. lia.
  - destruct (fwd_progress t (proj1 H)) as [?|[?|[?|[t' Hr]]]]; [exists t; split; [done|auto]..|].
    destruct (IH t') as (t2 & H2 & He); [apply fwd_run_work in Hr; lia|apply (fwd_step_inv t); [by left|done]|].
    exists t2. split; [by eapply rtc_l|done].
Qed.

Lemma awaiter_step_ok a a' : awaiter_step a a' -> awaiter_ok a -> awaiter_ok a'.
Proof.
  intros Hs [Hl Hc]. destruct Hs as [a Hr|i a Hi|i a Hi]; destruct a as [c s r l n k]; cbn in *; subst.
  - destruct c; [by destruct Hc|]. split; [|done]. cbn. destruct s; cbn; set_solver.
  - destruct s as [j|]; [|set_solver]. destruct c; [by destruct Hc as (_ & ? & _)|].
    destruct Hc as [_ ->]. unfold awaiter_ok. cbn. split; [set_solver|]. split_and!; try done. by exists j.
  - destruct s as [j|]; [|set_solver]. destruct c; [by destruct Hc as (_ & ? & _)|].
    split; [|done]. cbn. set_solver.
Qed.

Lemma reachable_awaiter_ok a : rtc awaiter_step awaiter0 a -> awaiter_ok a.
Proof.
  intros H. assert (awaiter_ok awaiter0) as H0 by done.
  revert H0. induction H as [|t1 t2 t3 Hs _ IH]; [done|]. intros H1. by apply IH, (awaiter_step_ok t1).
Qed.

Lemma run_open l : forall n c,
  mGuestSocket c = true -> (mConnected c = true -> mPreConnectedBuffer c = []) ->
  Forall (fun x => closes x = false) l ->
  exists c', run_callbacks l (n, c) = Some (n, c') /\ mGuestSocket c' = true /\
    (mConnected c' = true -> mPreConnectedBuffer c' = []) /\ mDisposing c' = mDisposing c /\
    disposes c' = disposes c /\ unplugs c' = unplugs c /\
    sent c' ++ mPreConnectedBuffer c' = sent c ++ mPreConnectedBuffer c ++ received_by l /\
    mConnected c' = mConnected c || existsb (fun x => match x with CConnect => true | _ => false end) l.
Proof.
  induction l as [|x l IH]; intros n c Hg Hb Hl; cbn [run_callbacks].
  { exists c. rewrite orb_false_r, app_nil_r. done. }
  inversion Hl as [|? ? Hx Hl']; subst. destruct x as [b| | |]; try done; cbn [run_callback].
  - unfold receiveHost, forward. rewrite Hg. destruct (mConnected c) eqn:Ec; cbn [negb].
    + destruct (IH n (with_sent (sent c ++ b) c)) as (c' & E & ? & ? & ? & ? & ? & Es & Ec'); [done|by auto|done|].
      exists c'. split; [exact E|]. cbn in *. rewrite Ec in Ec'. rewrite Hb in * by done. split_and!; try done. rewrite Es.
      unfold received_by. cbn. by rewrite <- app_assoc.
    + destruct (IH n (with_buffer (mPreConnectedBuffer c ++ b) c)) as (c' & E & ? & ? & ? & ? & ? & Es & Ec');
        [done|cbn; congruence|done|].
      exists c'. split; [exact E|]. cbn in *. rewrite Ec in Ec'. split_and!; try done.
      rewrite Es. unfold received_by. cbn. by rewrite <- !app_assoc.
  - assert (exists c1, onConnect c = Some c1 /\ mGuestSocket c1 = true /\ mConnected c1 = true /\
      mPreConnectedBuffer c1 = [] /\ sent c1 = sent c ++ mPreConnectedBuffer c /\
      mDisposing c1 = mDisposing c /\ disposes c1 = disposes c /\ unplugs c1 = unplugs c)
      as (c1 & E1 & G1 & C1 & B1 & S1 & D1 & P1 & U1).
    { unfold onConnect. cbn. destruct (mPreConnectedBuffer c) eqn:Eb.
      - exists (with_connected c). cbn. by rewrite Eb, app_nil_r.
      - rewrite Hg. eexists. split; [reflexivity|]. cbn. done. }
    destruct (IH n c1) as (c' & E & ? & ? & ? & ? & ? & Es & Ec'); [done|done|done|].
    exists c'. rewrite E1. cbn [mbind option_bind]. split; [exact E|].
    split_and!; try done; try congruence.
    + rewrite Es, S1, B1, <- app_assoc. done.
    + rewrite Ec', C1. cbn [existsb orb]. by rewrite orb_true_r.
Qed.

Lemma run_closed l : forall n c,
  closed c -> Forall (fun x => match x with CConnect => False | _ => True end) l ->
  exists c', run_callbacks l (n, c) = Some (n, c') /\ closed c' /\ sent c' = sent c /\
    unplugs c' = unplugs c.
Proof.
  induction l as [|x l IH]; intros n c Hc Hl; cbn [run_callbacks].
  { exists c. done. }
  inversion Hl as [|? ? Hx Hl']; subst. pose proof Hc as (Hd & Hg & Hn).
  destruct x as [b| | |]; try done; cbn [run_callback].
  - unfold receiveHost, forward. rewrite Hg. destruct (negb (mConnected c)).
    + apply (IH n (with_buffer _ c)); [by unfold closed; cbn|done].
    + by apply IH.
  - unfold closeHost. rewrite Hd. by apply IH.
  - unfold onUnplug. rewrite Hg, Hd. apply (IH n (Conn _ _ false true _ _ _)); [|done].
    by unfold closed; cbn.
Qed.

(** ** Properties *)


(** A step of each thread, and calls, in the runs below. *)
Ltac looper_step := eapply rtc_l; [left; left; reflexivity|].
Ltac device_step := eapply rtc_l; [left; right; reflexivity|].
Ltac new_call c := eapply rtc_l; [right; apply c|].

(** The two locks taken in another order: the looper closes the connection
    while the guest resets it. *)
Example portfwd_deadlock : exists t, rtc fwd_step threads0 t /\ deadlocked t.
Proof.
  eexists. split; [|split].
  - new_call h_close. looper_step. looper_step. looper_step. new_call g_reset. apply rtc_refl.
  - reflexivity.
  - reflexivity.
Qed.

(** The host closes while the guest answers: [closeHost] has taken the
    pointer that [onConnect] follows to send what was held back. *)
Example portfwd_connect_crash : exists t, rtc fwd_step threads0 t /\ gpc t = GCrash.
Proof.
  eexists. split.
  - new_call (h_receive [1]). looper_step. looper_step. looper_step. new_call h_close. looper_step. looper_step.
    new_call g_response. device_step. device_step. device_step. looper_step. device_step. apply rtc_refl.
  - reflexivity.
Qed.

(** The guest resets the stream while the looper sends on it: the stream is
    erased while [sendAsync] waits for the device. *)
Example portfwd_send_crash : exists t, rtc fwd_step threads0 t /\ hpc t = HCrash.
Proof.
  eexists. split.
  - new_call g_response. device_step. device_step. device_step.
    new_call (h_receive [1]). looper_step. looper_step. looper_step. new_call g_reset. device_step. device_step.
    device_step. looper_step. apply rtc_refl.
  - reflexivity.
Qed.

(** Callbacks that run one after the other deliver in order: what was
    received before the connection and after it is sent once and in order;
    closing from either side disposes the host's socket once and gives the
    guest's socket back once, and what the host sends later is dropped. *)
Theorem portfwd_sequential l1 x l2 :
  Forall (fun x => closes x = false) l1 -> closes x = true ->
  Forall (fun x => match x with CConnect => False | _ => True end) l2 ->
  exists c returned c',
    run_callbacks l1 (0%nat, conn0) = Some (0%nat, c) /\
    sent c ++ mPreConnectedBuffer c = received_by l1 /\
    (CConnect ∈ l1 -> sent c = received_by l1) /\
    run_callbacks (l1 ++ x :: l2) (0%nat, conn0) = Some (returned, c') /\
    closed c' /\ sent c' = sent c /\ (unplugs c' + returned = 1)%nat.
Proof.
  intros H1 Hx H2.
  destruct (run_open l1 0 conn0) as (c & E & Hg & Hb & Hd & Hn & Hu & Hs & Hc); [done|done|done|].
  cbn in Hd, Hn, Hu, Hs, Hc.
  assert (forall k s s1, run_callbacks l1 s = Some s1 ->
    run_callbacks (l1 ++ k) s = run_callbacks k s1) as Happ.
  { clear. induction l1 as [|y l1 IH]; intros k s s1; cbn; [by intros [= ->]|].
    destruct (run_callback y s) as [s'|]; [|done]. apply IH. }
  exists c. assert (exists r c1, run_callback x (0%nat, c) = Some (r, c1) /\ closed c1 /\ sent c1 = sent c /\
    (unplugs c1 + r = 1)%nat) as (r & c1 & Ex & Hc1 & Es & Er).
  { destruct x; try done; cbn; unfold closeHost, onUnplug; rewrite ?Hd, Hg, Hn, Hu;
      eexists _, _; (split; [reflexivity|]); cbn; unfold closed; cbn; split_and!; done. }
  destruct (run_closed l2 r c1 Hc1 H2) as (c' & E' & ? & Es' & Eu').
  exists r, c'. split_and!; try done.
  - intros Hin. assert (mConnected c = true) as Ec.
    { rewrite Hc. apply existsb_exists. exists CConnect. split; [by apply list_elem_of_In|done]. }
    rewrite Hb, app_nil_r in Hs by done. done.
  - rewrite (Happ _ _ _ E). cbn [run_callbacks]. by rewrite Ex.
  - congruence.
  - by rewrite Eu'.
Qed.

(** C20: The awaiter asks the device again and again but never has more than one
    stream; its callback runs at most once, with the socket of the stream that
    answered, after which it asks no more; and as long as it has not connected
    an answer after its next attempt connects it. *)
Theorem awaiter_connects a :
  rtc awaiter_step awaiter0 a ->
  awaiter_ok a /\
  (forall i, i ∈ live a -> mSocket a = Some i /\ callbacks (awaiter_onConnect a) = [Some i]) /\
  (mIsConnected a = true -> forall a', ~ awaiter_step a a') /\
  (mIsConnected a = false ->
   exists a1 a2, awaiter_step a a1 /\ awaiter_step a1 a2 /\ mIsConnected a2 = true).
Proof.
  intros Hr. pose proof (reachable_awaiter_ok a Hr) as H. split; [done|]. destruct H as [Hl Hc].
  split_and!.
  - intros i Hi. rewrite Hl in Hi. destruct (mSocket a) as [j|] eqn:E; [|set_solver].
    apply elem_of_singleton in Hi as ->. split; [done|]. unfold awaiter_onConnect. rewrite E.
    destruct (mIsConnected a); [destruct Hc as (_ & ? & _); congruence|]. by destruct Hc as [_ ->].
  - intros E a' Hs. rewrite E in Hc. destruct Hc as (Er & Em & _). rewrite Em in Hl.
    destruct Hs as [a Hrun|i a Hi|i a Hi]; [congruence|rewrite Hl in Hi; set_solver..].
  - intros E. rewrite E in Hc. destruct Hc as [Er _].
    exists (attemptConnection a), (awaiter_onConnect (attemptConnection a)).
    split; [by apply aw_tick|]. split; [|done].
    apply (aw_response (next_stream a)). unfold attemptConnection. rewrite E. cbn. set_solver.
Qed.

(** ** Witnesses *)


Lemma portfwd_sequential_witness :
  exists c returned c',
    run_callbacks [CReceive [1]; CConnect; CReceive [2]] (0%nat, conn0) = Some (0%nat, c) /\
    sent c ++ mPreConnectedBuffer c = [1; 2] /\
    (CConnect ∈ [CReceive [1]; CConnect; CReceive [2]] -> sent c = [1; 2]) /\
    run_callbacks ([CReceive [1]; CConnect; CReceive [2]] ++ CClose :: [CUnplug; CReceive [3]]) (0%nat, conn0)
      = Some (returned, c') /\
    closed c' /\ sent c' = sent c /\ (unplugs c' + returned = 1)%nat.
Proof.
  apply (portfwd_sequential [CReceive [1]; CConnect; CReceive [2]] CClose [CUnplug; CReceive [3]]);
    [by repeat constructor|done|by repeat constructor].
Defined.

Lemma awaiter_connects_witness :
  exists a1 a2, awaiter_step (attemptConnection awaiter0) a1 /\ awaiter_step a1 a2 /\ mIsConnected a2 = true.
Proof.
  apply (awaiter_connects (attemptConnection awaiter0)); [|done].
  eapply rtc_l; [by apply aw_tick|]. apply rtc_refl.
Defined.
