(* ===== verification/Events.v ===== *)
(** * Events: listeners and callbacks

    Models [android/event-support/include/android/emulation/control/utils]:
    the set of listeners of [EventChangeSupport] ([EventSupport.h]) and the
    callbacks that [WithCallbacks] adds to it ([CallbackEventSupport.h])
    through an internal listener of its own.  A delivery is the receiver with
    the event; the order of the deliveries is that of the hash tables, here
    that of [elements].  The mutexes of two threads are a step relation of
    their own. *)

From S2P Require Import Prelude.

(** A listener of a client or the internal one. *)
Inductive listener := External (l : Z) | Internal.

#[export] Instance listener_eq_dec : EqDecision listener.
Proof. solve_decision. Defined.

#[export] Instance listener_countable : Countable listener.
Proof.
  refine (inj_countable' (fun l => match l with External z => Some z | Internal => None end)
            (fun o => match o with Some z => External z | None => Internal end) _).
  by intros [].
Qed.

(** Who an event is delivered to. *)
Inductive receiver := Listener (l : Z) | Callback (id : Z).

Record events := Events {
  mListeners : gset listener;
  mCallbacks : gset Z;   (* the ids of the map *)
  mNextId : Z;
  mInternalListener : bool;
}.

Definition events0 : events := Events ∅ ∅ 0 false.

(** ** [EventChangeSupport] *)

Definition addListener (l : listener) (e : events) : events :=
  Events ({[l]} ∪ mListeners e) (mCallbacks e) (mNextId e) (mInternalListener e).

Definition removeListener (l : listener) (e : events) : events :=
  Events (mListeners e ∖ {[l]}) (mCallbacks e) (mNextId e) (mInternalListener e).

(** ** [WithCallbacks] *)

Definition addCallback (e : events) : Z * events :=
  let id := mNextId e in
  let e := Events (mListeners e) ({[id]} ∪ mCallbacks e) (u64 (id + 1)) (mInternalListener e) in
  (id,
   if (size (mCallbacks e) =? 1)%nat then
     addListener Internal (Events (mListeners e) (mCallbacks e) (mNextId e) true)
   else e).

Definition removeCallback (id : Z) (e : events) : events :=
  let e := Events (mListeners e) (mCallbacks e ∖ {[id]}) (mNextId e) (mInternalListener e) in
  if (size (mCallbacks e) =? 0)%nat && mInternalListener e then removeListener Internal e else e.

Definition callbackCount (e : events) : nat := size (mCallbacks e).

Definition notifyCallbacks {T} (event : T) (e : events) : list (receiver * T) :=
  (fun id => (Callback id, event)) <$> elements (mCallbacks e).

Definition eventArrived {T} (event : T) (e : events) (l : listener) : list (receiver * T) :=
  match l with
  | External z => [(Listener z, event)]
  | Internal => notifyCallbacks event e
  end.

Definition fireEvent {T} (event : T) (e : events) : list (receiver * T) :=
  flat_map (eventArrived event e) (elements (mListeners e)).

(** ** Histories *)

Inductive event_op := AddListener (l : Z) | RemoveListener (l : Z) | AddCallback | RemoveCallback (id : Z).

Definition run_op (e : events) (o : event_op) : events :=
  match o with
  | AddListener l => addListener (External l) e
  | RemoveListener l => removeListener (External l) e
  | AddCallback => (addCallback e).2
  | RemoveCallback id => removeCallback id e
  end.

Definition history (ops : list event_op) : events := fold_left run_op ops events0.

(** The callbacks a client holds after a history: the identifiers it was
    given, in order, less the ones it gave back since. *)
Definition held_op (h : gset Z * Z) (o : event_op) : gset Z * Z :=
  match o with
  | AddCallback => ({[h.2]} ∪ h.1, h.2 + 1)
  | RemoveCallback id => (h.1 ∖ {[id]}, h.2)
  | _ => h
  end.
Definition held (ops : list event_op) : gset Z * Z := fold_left held_op ops (∅, 0).

Definition listening_op (s : gset Z) (o : event_op) : gset Z :=
  match o with AddListener l => {[l]} ∪ s | RemoveListener l => s ∖ {[l]} | _ => s end.
Definition listening (ops : list event_op) : gset Z := fold_left listening_op ops ∅.

(** ** Locks

    One thread fires an event, the other adds the first callback or removes
    the last one; each holds its first mutex when it asks for the second. *)

(** Before [mListenerLock], holding it before [mCallbackLock], holding both,
    done. *)
Inductive fire_pc := F0 | F1 | F2 | F3.
(** Before [mCallbackLock], holding it before [mListenerLock], holding both,
    done. *)
Inductive callback_pc := C0 | C1 | C2 | C3.

Definition fire_has_listener (f : fire_pc) := match f with F1 | F2 => true | _ => false end.
Definition fire_has_callback (f : fire_pc) := match f with F2 => true | _ => false end.
Definition callback_has_callback (c : callback_pc) := match c with C1 | C2 => true | _ => false end.
Definition callback_has_listener (c : callback_pc) := match c with C2 => true | _ => false end.

Inductive lock_step : fire_pc * callback_pc -> fire_pc * callback_pc -> Prop :=
  | l_fire c : callback_has_listener c = false -> lock_step (F0, c) (F1, c)
  | l_notify c : callback_has_callback c = false -> lock_step (F1, c) (F2, c)
  | l_fired c : lock_step (F2, c) (F3, c)
  | l_change f : fire_has_callback f = false -> lock_step (f, C0) (f, C1)
  | l_register f : fire_has_listener f = false -> lock_step (f, C1) (f, C2)
  | l_changed f : lock_step (f, C2) (f, C3).

(** ** Lemmas *)

Definition events_ok (ops : list event_op) (e : events) : Prop :=
  mCallbacks e = (held ops).1 /\ mNextId e = (held ops).2 /\
  0 <= (held ops).2 <= Z.of_nat (length ops) /\
  (forall id, id ∈ (held ops).1 -> 0 <= id < (held ops).2) /\
  (Internal ∈ mListeners e <-> mCallbacks e <> ∅) /\
  (Internal ∈ mListeners e -> mInternalListener e = true) /\
  (forall l, External l ∈ mListeners e <-> l ∈ listening ops).

Lemma held_snoc ops o : held (ops ++ [o]) = held_op (held ops) o.
Proof. unfold held. by rewrite fold_left_app. Qed.

Lemma listening_snoc ops o : listening (ops ++ [o]) = listening_op (listening ops) o.
Proof. unfold listening. by rewrite fold_left_app. Qed.

Lemma size_singleton_union (X : gset Z) i : i ∉ X -> size ({[i]} ∪ X) = S (size X).
Proof. intros H. rewrite size_union by set_solver. by rewrite size_singleton. Qed.

Lemma run_op_ok ops o e :
  Z.of_nat (length ops) < 2 ^ 64 - 1 -> events_ok ops e -> events_ok (ops ++ [o]) (run_op e o).
Proof.
  intros Hlen (Hc & Hn & Hr & Hid & Hi & Hb & Hl).
  unfold events_ok. rewrite held_snoc, listening_snoc, length_app. cbn [length].
  destruct o as [l|l| |id]; cbn [run_op held_op listening_op fst snd].
  - cbn. split_and!; [done..|lia|lia|done| | |].
    + rewrite <- Hi. set_solver.
    + intros H. apply Hb. set_solver.
    + intros j. specialize (Hl j). set_solver.
  - cbn. split_and!; [done..|lia|lia|done| | |].
    + rewrite <- Hi. set_solver.
    + intros H. apply Hb. set_solver.
    + intros j. specialize (Hl j). set_solver.
  - assert (mNextId e ∉ mCallbacks e) as Hfresh.
    { rewrite Hc, Hn. intros Hin. apply Hid in Hin. lia. }
    assert (forall j, j ∈ {[(held ops).2]} ∪ (held ops).1 -> 0 <= j < (held ops).2 + 1) as Hid'.
    { intros j Hj. apply elem_of_union in Hj as [Hj%elem_of_singleton|Hj]; [lia|apply Hid in Hj; lia]. }
    unfold addCallback. cbn [mCallbacks snd].
    rewrite size_singleton_union by done. cbn [Nat.eqb].
    assert (wrap 64 (mNextId e + 1) = (held ops).2 + 1) as E
      by (rewrite Hn; apply wrap_small; unfold in_u; lia).
    assert ({[mNextId e]} ∪ mCallbacks e <> ∅) as Hne by set_solver.
    destruct (Nat.eqb_spec (size (mCallbacks e)) 0) as [Es|Es];
      cbn [mListeners mCallbacks mNextId mInternalListener addListener fst snd];
      (split; [by rewrite Hc, Hn|]); (split; [exact E|]); (split; [lia|]); (split; [done|]); split_and!.
    + split; [done|set_solver].
    + done.
    + intros j. specialize (Hl j). set_solver.
    + split; [done|]. intros _. apply Hi. intros X. rewrite X in Es. by rewrite size_empty in Es.
    + done.
    + done.
  - assert (forall j, j ∈ (held ops).1 ∖ {[id]} -> 0 <= j < (held ops).2) as Hid'.
    { intros j Hj. apply Hid. set_solver. }
    unfold removeCallback. cbn [mCallbacks mInternalListener].
    destruct (Nat.eqb_spec (size (mCallbacks e ∖ {[id]})) 0) as [Es|Es]; cbn [andb].
    + apply size_empty_inv in Es. unfold_leibniz.
      destruct (mInternalListener e) eqn:Ei; cbn [mListeners mCallbacks mNextId mInternalListener removeListener];
        (split; [by rewrite Hc|]); (split; [done|]); (split; [lia|]); (split; [done|]); split_and!.
      * split; [set_solver|done].
      * done.
      * intros j. specialize (Hl j). set_solver.
      * split; [|done]. intros X. apply Hb in X. congruence.
      * intros X. apply Hb in X. congruence.
      * done.
    + assert (mCallbacks e ∖ {[id]} <> ∅) as Hne by (intros X; rewrite X in Es; by rewrite size_empty in Es).
      cbn [mListeners mCallbacks mNextId mInternalListener].
      (split; [by rewrite Hc|]); (split; [done|]); (split; [lia|]); (split; [done|]); split_and!; try done.
      split; [done|]. intros _. apply Hi. set_solver.
Qed.

Lemma history_ok ops : Z.of_nat (length ops) < 2 ^ 64 -> events_ok ops (history ops).
Proof.
  unfold history. induction ops as [|o ops IH] using rev_ind; intros Hlen.
  - split_and!; try done; cbn; set_solver.
  - rewrite length_app in Hlen. cbn in Hlen. rewrite fold_left_app. cbn [fold_left].
    apply run_op_ok; [lia|]. apply IH. lia.
Qed.

Section fire.
Context {T : Type} (event : T).

Lemma elem_of_fire e r ev :
  (r, ev) ∈ fireEvent event e <->
  ev = event /\ match r with
                | Listener l => External l ∈ mListeners e
                | Callback id => Internal ∈ mListeners e /\ id ∈ mCallbacks e
                end.
Proof.
  unfold fireEvent. rewrite list_elem_of_In, in_flat_map. split.
  - intros (l & Hl & H). rewrite <- list_elem_of_In, elem_of_elements in Hl. destruct l as [z|]; cbn in H.
    + by destruct H as [[= <- <-]|[]].
    + apply list_elem_of_In, list_elem_of_fmap in H as (id & [= -> ->] & Hid).
      by rewrite elem_of_elements in Hid.
  - intros [-> H]. destruct r as [l|id].
    + exists (External l). rewrite <- list_elem_of_In, elem_of_elements. split; [done|]. by left.
    + destruct H as [Hi Hid]. exists Internal. rewrite <- list_elem_of_In, elem_of_elements. split; [done|].
      cbn. apply list_elem_of_In, list_elem_of_fmap. exists id. by rewrite elem_of_elements.
Qed.

Lemma fire_NoDup_of e ls : NoDup ls -> NoDup (flat_map (eventArrived event e) ls).
Proof.
  induction 1 as [|l ls Hl _ IH]; [constructor|]. cbn. apply NoDup_app. split_and!; [|intros [r ev] Hx Hy|done].
  - destruct l; cbn; [apply NoDup_singleton|].
    apply NoDup_fmap_2; [by intros ?? [=]|apply NoDup_elements].
  - rewrite list_elem_of_In, in_flat_map in Hy. destruct Hy as (l' & Hl' & Hy).
    apply list_elem_of_In in Hl'. assert (l <> l') as Hne by (by intros ->). destruct l as [z|], l' as [z'|]; cbn in Hx, Hy; try done.
    + apply list_elem_of_singleton in Hx. destruct Hy as [Hy|[]]. congruence.
    + apply list_elem_of_singleton in Hx. apply list_elem_of_In, list_elem_of_fmap in Hy as (? & ? & ?). congruence.
    + destruct Hy as [Hy|[]]. apply list_elem_of_fmap in Hx as (? & ? & ?). congruence.
Qed.

End fire.

(** ** Properties *)

(** After any history of adding and removing, an event is delivered exactly
    once to every listener that is registered and to every callback that was
    added and not removed, and to nobody else; the identifiers of the callbacks
    in use differ, and the internal listener is registered exactly while there
    are callbacks. *)
Theorem events_delivered {T} (event : T) ops :
  Z.of_nat (length ops) < 2 ^ 64 ->
  let e := history ops in
  NoDup (fireEvent event e) /\
  (forall r ev, (r, ev) ∈ fireEvent event e <->
     ev = event /\ match r with Listener l => l ∈ listening ops | Callback id => id ∈ (held ops).1 end) /\
  ((addCallback e).1 ∉ (held ops).1) /\
  (Internal ∈ mListeners e <-> callbackCount e <> 0%nat).
Proof.
  intros Hlen e. pose proof (history_ok ops Hlen) as (Hc & Hn & Hr & Hid & Hi & Hb & Hl).
  fold e in Hc, Hn, Hi, Hb, Hl.
  split_and!.
  - apply fire_NoDup_of, NoDup_elements.
  - intros r ev. rewrite elem_of_fire. destruct r as [l|id]; [by rewrite Hl|].
    rewrite Hi, Hc. split; [by intros (? & ? & ?)|]. intros (? & H). split; [done|]. split; [|done]. set_solver.
  - cbn. rewrite Hn. intros Hin. apply Hid in Hin. lia.
  - rewrite Hi. unfold callbackCount. split; intros H X; apply H.
    + apply size_empty_inv in X. by unfold_leibniz.
    + rewrite X. apply size_empty.
Qed.

(** Firing an event while another thread adds the first callback or removes
    the last one can deadlock: firing takes the listeners' mutex first and the
    callbacks' second, the change takes them in the other order. *)
Theorem events_can_deadlock :
  exists s, rtc lock_step (F0, C0) s /\ s = (F1, C1) /\ forall s', ~ lock_step s s'.
Proof.
  exists (F1, C1). split_and!; [|done|].
  - eapply rtc_l; [by apply l_fire|]. eapply rtc_l; [by apply l_change|]. apply rtc_refl.
  - intros s' H. inversion H; subst; done.
Qed.

(** ** Witnesses *)

Lemma events_delivered_witness :
  (Callback 1, 5) ∈ fireEvent 5 (history [AddCallback; AddListener 7; AddCallback; RemoveCallback 0]).
Proof.
  apply (events_delivered 5 [AddCallback; AddListener 7; AddCallback; RemoveCallback 0]); [cbn; lia|].
  split; [done|]. by vm_compute.
Defined.
