(* ===== verification/Hal.v ===== *)
(** * Devices of the hardware abstraction layer

    Models the devices of [emulator/hal] that serve the guest through the
    connector: the clipboard ([clipboard/src/clipboard/ClipboardDevice.cpp]),
    the guest's status ([guest-status/src/misc/GuestStatusDevice.cpp]), the boot
    properties ([bootproperties], with the checked strings of
    [BootPropertyString.h]) and the fingerprint sensor.  Replies go through
    [qemud::sendAsync] of the qemud model; events are listed in the order they
    are fired.  [None] is a write outside an object. *)

From S2P Require Import Prelude CText Archive Qemud.

(** ** The clipboard *)

Module Clipboard.

(** [hdr] are the bytes of [dataSize], which the guest writes. *)
Record ReadWriteState := ReadWrite {
  buffer : bytes; hdr : bytes; processedBytes : Z; dataSizeTransferred : bool;
}.

Definition dataSize (s : ReadWriteState) : Z := le_value (hdr s).

Definition reset : ReadWriteState := ReadWrite [] (replicate 4 0) 0 false.

(** What [data] points into. *)
Definition target (s : ReadWriteState) : bytes := if dataSizeTransferred s then buffer s else hdr s.

Definition rw_size (s : ReadWriteState) : Z :=
  s32 (u32 (zlen (target s) - processedBytes s)).

Definition isFinished (s : ReadWriteState) : bool :=
  dataSizeTransferred s && (processedBytes s =? dataSize s).

Record device := Device {
  mGuestReadState : ReadWriteState; mClipboardData : bytes; mEnabled : bool; mSocket : bool;
}.

Definition device0 : device := Device reset [] true true.

(** The buffer's memory once the header is complete. *)
Definition start_data (s : ReadWriteState) : ReadWriteState :=
  if (rw_size s =? 0) && negb (dataSizeTransferred s) then
    ReadWrite (replicate (Z.to_nat (dataSize s)) 0) (hdr s) 0 true
  else s.

Definition copy_in (data : bytes) (s : ReadWriteState) : option ReadWriteState :=
  t ← write_at (processedBytes s) data (target s);
  Some (if dataSizeTransferred s then
          ReadWrite t (hdr s) (u32 (processedBytes s + zlen data)) true
        else ReadWrite (buffer s) t (u32 (processedBytes s + zlen data)) false).

(** The events fired and the device; the answer is always [true]. *)
Definition onReceive (data : bytes) (d : device) : option (list bytes * device) :=
  s ← copy_in data (start_data (mGuestReadState d));
  if isFinished s then Some ([buffer s], Device reset (buffer s) (mEnabled d) (mSocket d))
  else Some ([], Device s (mClipboardData d) (mEnabled d) (mSocket d)).

Fixpoint onReceive_all (chunks : list bytes) (d : device) : option (list bytes * device) :=
  match chunks with
  | [] => Some ([], d)
  | c :: chunks =>
      r ← onReceive c d;
      rs ← onReceive_all chunks r.2;
      Some (r.1 ++ rs.1, rs.2)
  end.

Definition enable (b : bool) (d : device) : device :=
  Device (mGuestReadState d) (mClipboardData d) b (mSocket d).

Definition onUnplug (d : device) : device :=
  Device (mGuestReadState d) (mClipboardData d) (mEnabled d) false.

(** What is given to [sendAsync]; [None] without a socket. *)
Definition setContents (contents : bytes) (d : device) : option (list bytes) :=
  if negb (mEnabled d) then Some []
  else if negb (mSocket d) then None
  else
    let size := u32 (zlen contents) in
    Some [le_bytes 4 size; take (Z.to_nat size) contents].

Definition getContents (d : device) : bytes := mClipboardData d.

End Clipboard.

(** ** The status of the guest *)

Module GuestStatus.

Inductive AndroidGuestStatus := BootCompleted (ms : Z) | ResetEvent | Heartbeat (n : Z).

Record device := Device { mHeartbeat : Z; mBootTime : Z; mResetTimestampMs : Z }.

Definition device0 : device := Device 0 0 0.

Definition bootTime (d : device) : option Z := if mBootTime d =? 0 then None else Some (mBootTime d).
Definition hasBooted (d : device) : bool := match bootTime d with Some _ => true | None => false end.

(** [uptime] is the time of the call; the pieces sent are the reply. *)
Definition onReceive (message : bytes) (uptime : Z) (d : device)
    : list AndroidGuestStatus * list bytes * device :=
  if starts_with (str "heartbeat") message then
    let heartbeat := u64 (mHeartbeat d + 1) in
    ([Heartbeat heartbeat], qemud_sendAsync (str "KO"),
     Device heartbeat (mBootTime d) (mResetTimestampMs d))
  else if starts_with (str "bootcomplete") message then
    let t := uptime - mResetTimestampMs d in
    ([BootCompleted t], qemud_sendAsync (str "KO"), Device (mHeartbeat d) t (mResetTimestampMs d))
  else ([], qemud_sendAsync (str "KO"), d).

Definition handleResetEvent (uptime : Z) (d : device) : list AndroidGuestStatus * device :=
  ([ResetEvent], Device (mHeartbeat d) 0 uptime).

(** Deliveries of the guest and resets of the machine, with their times. *)
Inductive input := Message (m : bytes) (t : Z) | Reset (t : Z).

Definition step (i : input) (d : device) : list AndroidGuestStatus * list bytes * device :=
  match i with
  | Message m t => onReceive m t d
  | Reset t => let '(es, d) := handleResetEvent t d in (es, [], d)
  end.

Definition run (is_ : list input) : list bytes * device :=
  fold_left (fun s i => let '(_, out, d) := step i s.2 in (s.1 ++ out, d)) is_ ([], device0).

(** ** Specification: from the history alone *)

Definition is_heartbeat (i : input) : bool :=
  match i with Message m _ => starts_with (str "heartbeat") m | _ => false end.

Definition boot_time_of (i : input) : option Z :=
  match i with
  | Message m t =>
      if negb (starts_with (str "heartbeat") m) && starts_with (str "bootcomplete") m then Some t
      else None
  | _ => None
  end.

(** The last reset (the start of the emulator before the first) and the last
    completed boot since. *)
Definition boot_step (s : Z * option Z) (i : input) : Z * option Z :=
  match i with
  | Reset t => (t, None)
  | Message _ _ => (s.1, match boot_time_of i with Some t => Some t | None => s.2 end)
  end.
Definition boots (is_ : list input) : Z * option Z := fold_left boot_step is_ (0, None).

Definition count_heartbeats (is_ : list input) : Z := zlen (List.filter is_heartbeat is_).
Definition count_messages (is_ : list input) : nat :=
  length (List.filter (fun i => match i with Message _ _ => true | _ => false end) is_).

End GuestStatus.

(** ** Boot properties *)

Module BootProperties.

(** [LimitedString::set] and [BootPropertyString::set]; [None] is the
    exception. *)
Definition PROPERTY_MAX_NAME : Z := 32.
Definition PROPERTY_MAX_VALUE : Z := 92.

Definition LimitedString_set (size : Z) (s : bytes) : option bytes :=
  if size <? zlen s then None else Some s.

(** Space, equals, dollar, star, question mark and the two quotes. *)
Definition rejected : bytes := [32; 61; 36; 42; 63; 39; 34].

Definition BootPropertyString_set (size : Z) (s : bytes) : option bytes :=
  if existsb (fun c => existsb (Z.eqb c) rejected) s then None else LimitedString_set size s.

(** The properties in the order of the map's iteration. *)
Record device := Device { mProperties : list (bytes * bytes); mDataPartitionMounted : bool }.

(** The event is the flag it carries. *)
Definition onReceive (cmd : bytes) (d : device) : list bytes * list bool * device :=
  if bytes_eqb cmd (str "list") then
    (concat (map (fun p => qemud_sendAsync (p.1 ++ str "=" ++ p.2)) (mProperties d)), [true],
     Device (mProperties d) true)
  else ([], [], d).

Definition handleResetEvent (d : device) : list bool * device :=
  ([false], Device (mProperties d) false).

(** A property whose name and value the string classes accepted. *)
Definition valid_property (p : bytes * bytes) : Prop :=
  BootPropertyString_set PROPERTY_MAX_NAME p.1 = Some p.1 /\
  LimitedString_set PROPERTY_MAX_VALUE p.2 = Some p.2 /\ is_bytes p.1 /\ is_bytes p.2.

End BootProperties.

(** ** The fingerprint sensor *)

Module Fingerprint.

Definition touch (id : Z) : list bytes := qemud_sendAsync (str "on:" ++ to_string id).
Definition release : list bytes := qemud_sendAsync (str "off").

End Fingerprint.

(** ** Lemmas on the clipboard *)

Section clipboard.
Import Clipboard.

(** The header written up to [p]. *)
Definition in_header (p : bytes) (s : ReadWriteState) : Prop :=
  dataSizeTransferred s = false /\ zlen (hdr s) = 4 /\ take (length p) (hdr s) = p /\
  processedBytes s = zlen p /\ zlen p <= 4 /\ buffer s = [].

(** The data of the message [m] written up to [q]. *)
Definition in_data (m q : bytes) (s : ReadWriteState) : Prop :=
  dataSizeTransferred s = true /\ dataSize s = zlen m /\ zlen (buffer s) = zlen m /\
  take (length q) (buffer s) = q /\ processedBytes s = zlen q.

Lemma take_all (p l : bytes) : take (length p) l = p -> zlen p = zlen l -> l = p.
Proof. unfold zlen. intros H E. rewrite <- H. symmetry. apply take_ge. lia. Qed.

Lemma in_header_size p s : in_header p s -> rw_size s = 4 - zlen p.
Proof.
  intros (Ht & Hl & _ & Hp & Hle & _). unfold rw_size, target. rewrite Ht, Hl, Hp.
  pose proof (zlen_nonneg p). rewrite wrap_small by (unfold in_u; lia).
  apply swrap_small; unfold in_s; lia.
Qed.

Lemma in_header_start p s : in_header p s -> zlen p < 4 -> start_data s = s.
Proof.
  intros H Hlt. unfold start_data. rewrite (in_header_size p) by done.
  by rewrite (proj2 (Z.eqb_neq _ _)) by lia.
Qed.

Lemma in_header_chunk p c d :
  in_header p (mGuestReadState d) -> zlen p < 4 -> zlen (p ++ c) <= 4 ->
  exists s, onReceive c d = Some ([], Device s (mClipboardData d) (mEnabled d) (mSocket d)) /\
    in_header (p ++ c) s.
Proof.
  intros H Hlt Hle. unfold onReceive. rewrite (in_header_start p) by done.
  destruct H as (Ht & Hl & Hw & Hp & _ & Hb). unfold copy_in, target. rewrite Ht, Hp.
  destruct (write_at_append p c (hdr (mGuestReadState d))) as (l & -> & Hw' & Hl'); [lia|done|].
  cbn [mbind option_bind]. unfold isFinished. cbn [dataSizeTransferred andb].
  eexists. split; [reflexivity|]. split_and!; cbn; try done; [lia|].
  rewrite zlen_app in *. pose proof (zlen_nonneg p). pose proof (zlen_nonneg c).
  apply wrap_small. unfold in_u. lia.
Qed.

(** The header is complete and announces [m]: the data begins. *)
Lemma in_header_complete m s :
  in_header (le_bytes 4 (zlen m)) s -> zlen m < 2 ^ 32 -> in_data m [] (start_data s).
Proof.
  intros H Hm. pose proof (zlen_nonneg m). pose proof (in_header_size _ _ H) as Hs.
  assert (zlen (le_bytes 4 (zlen m)) = 4) as H4 by (unfold zlen; by rewrite le_bytes_length).
  destruct H as (Ht & Hl & Hw & _). apply take_all in Hw; [|lia].
  unfold start_data. rewrite Hs, H4, Ht. cbn [Z.sub Z.eqb negb andb].
  change (4 - 4 =? 0) with true. cbn [andb].
  assert (dataSize s = zlen m) as Hd by (unfold dataSize; rewrite Hw; apply le_value_bytes; lia).
  split_and!; try done; unfold dataSize; cbn [hdr buffer processedBytes].
  fold (dataSize s). rewrite Hd, zlen_replicate. lia.
Qed.

Lemma in_data_start m q s : in_data m q s -> start_data s = s.
Proof. intros (Ht & _). unfold start_data. by rewrite Ht, andb_false_r. Qed.

Lemma in_data_chunk m q c r d :
  in_data m q (start_data (mGuestReadState d)) -> m = q ++ c ++ r -> zlen m < 2 ^ 32 ->
  (r = [] /\ onReceive c d = Some ([m], Device reset m (mEnabled d) (mSocket d))) \/
  (r <> [] /\ exists s,
     onReceive c d = Some ([], Device s (mClipboardData d) (mEnabled d) (mSocket d)) /\
     in_data m (q ++ c) (start_data s)).
Proof.
  intros (Ht & Hd & Hl & Hw & Hp) Hm Hlt. unfold onReceive, copy_in.
  set (s := start_data (mGuestReadState d)) in *. unfold target. rewrite Ht, Hp.
  assert (zlen m = zlen q + zlen c + zlen r) as Hz by (rewrite Hm, !zlen_app; lia).
  pose proof (zlen_nonneg q). pose proof (zlen_nonneg c). pose proof (zlen_nonneg r).
  destruct (write_at_append q c (buffer s)) as (l & -> & Hw' & Hl'); [rewrite zlen_app; lia|done|].
  cbn [mbind option_bind]. rewrite wrap_small by (unfold in_u; lia).
  unfold isFinished. cbn [dataSizeTransferred processedBytes andb].
  unfold dataSize in *. cbn [hdr]. rewrite Hd, Hz.
  destruct (Z.eqb_spec (zlen q + zlen c) (zlen q + zlen c + zlen r)).
  - left. assert (r = []) as -> by (destruct r; [done|rewrite zlen_cons in *; pose proof (zlen_nonneg r); lia]).
    split; [done|]. rewrite app_nil_r in Hm. cbn [buffer].
    apply take_all in Hw'; [by subst|]. rewrite zlen_app. lia.
  - right. split; [intros ->; rewrite zlen_nil in *; lia|]. eexists. split; [reflexivity|].
    unfold start_data. rewrite andb_false_r. split_and!; cbn; try done; [lia|by rewrite zlen_app].
Qed.

Lemma onReceive_all_app cs1 : forall cs2 d,
  onReceive_all (cs1 ++ cs2) d =
    r1 ← onReceive_all cs1 d; r2 ← onReceive_all cs2 r1.2; Some (r1.1 ++ r2.1, r2.2).
Proof.
  induction cs1 as [|c cs1 IH]; intros cs2 d; cbn [app onReceive_all].
  - cbn [mbind option_bind fst snd app]. by destruct (onReceive_all cs2 d) as [[]|].
  - destruct (onReceive c d) as [[es d1]|]; [|done]. cbn [mbind option_bind fst snd]. rewrite IH.
    destruct (onReceive_all cs1 d1) as [[es1 d2]|]; [|done]. cbn [mbind option_bind fst snd].
    destruct (onReceive_all cs2 d2) as [[es2 d3]|]; [|done]. cbn [mbind option_bind fst snd].
    by rewrite app_assoc.
Qed.

Lemma in_header_chunks hs : forall p d,
  in_header p (mGuestReadState d) -> zlen p < 4 -> Forall (fun c => c <> []) hs ->
  zlen (p ++ concat hs) = 4 ->
  exists s, onReceive_all hs d = Some ([], Device s (mClipboardData d) (mEnabled d) (mSocket d)) /\
    in_header (p ++ concat hs) s.
Proof.
  induction hs as [|c hs IH]; intros p d Hh Hlt Hne Hz; cbn [concat] in *.
  { rewrite app_nil_r in Hz. lia. }
  inversion Hne as [|? ? Hc Hne']; subst. rewrite app_assoc in Hz |- *.
  pose proof (zlen_nonneg (concat hs)).
  destruct (in_header_chunk p c d Hh Hlt) as (s & E & Hs).
  { rewrite zlen_app in Hz. lia. }
  cbn [onReceive_all]. rewrite E. cbn [mbind option_bind fst snd].
  destruct hs as [|c' hs].
  - cbn. eexists. split; [reflexivity|]. by rewrite app_nil_r.
  - destruct (IH (p ++ c) (Device s (mClipboardData d) (mEnabled d) (mSocket d)) Hs) as (s' & E' & Hs'); try done.
    { inversion Hne'; subst. cbn [concat] in Hz. rewrite !zlen_app in Hz. rewrite zlen_app.
      destruct c' as [|x c']; [done|]. rewrite zlen_cons in Hz.
      pose proof (zlen_nonneg c'). pose proof (zlen_nonneg (concat hs)). lia. }
    rewrite E'. cbn [mbind option_bind fst snd app mClipboardData mEnabled mSocket]. by exists s'.
Qed.

Lemma in_data_chunks m ds : forall q d,
  in_data m q (start_data (mGuestReadState d)) -> q ++ concat ds = m -> zlen m < 2 ^ 32 ->
  ds <> [] -> Forall (fun c => c <> []) ds ->
  onReceive_all ds d = Some ([m], Device reset m (mEnabled d) (mSocket d)).
Proof.
  induction ds as [|c ds IH]; intros q d Hd Hq Hm Hne Hf; [done|]. inversion Hf as [|? ? Hc Hf']; subst.
  destruct (in_data_chunk (q ++ concat (c :: ds)) q c (concat ds) d Hd) as [[Er E]|(Er & s & E & Hs)]; [done|done| |];
    cbn [onReceive_all]; rewrite E; cbn [mbind option_bind fst snd].
  - destruct ds as [|c' ds]; [done|]. inversion Hf'; subst. by destruct c'.
  - rewrite (IH (q ++ c) (Device s (mClipboardData d) (mEnabled d) (mSocket d))); try done.
    + cbn. by rewrite <- app_assoc.
    + intros ->. done.
Qed.

Lemma in_header_reset d : mGuestReadState d = reset -> in_header [] (mGuestReadState d).
Proof. intros ->. by repeat split. Qed.

(** A message of the guest: the pieces of its header and of its data. *)
Definition clip_message (x : list bytes * list bytes) : Prop :=
  Forall (fun c => c <> []) x.1 /\ Forall (fun c => c <> []) x.2 /\
  concat x.1 = le_bytes 4 (zlen (concat x.2)) /\ 0 < zlen (concat x.2) < 2 ^ 32.

Lemma clip_message_received x d :
  clip_message x -> mGuestReadState d = reset ->
  onReceive_all (x.1 ++ x.2) d =
    Some ([concat x.2], Device reset (concat x.2) (mEnabled d) (mSocket d)).
Proof.
  intros (H1 & H2 & Hh & Hz) Hd. rewrite onReceive_all_app.
  destruct (in_header_chunks x.1 [] d (in_header_reset d Hd)) as (s & E & Hs); [done|done| |].
  { cbn [app]. rewrite Hh. unfold zlen. by rewrite le_bytes_length. }
  rewrite E. cbn [mbind option_bind fst snd app].
  cbn [app] in Hs. rewrite Hh in Hs.
  rewrite (in_data_chunks (concat x.2) x.2 [] (Device s (mClipboardData d) (mEnabled d) (mSocket d))
    (in_header_complete _ s Hs (proj2 Hz)) eq_refl (proj2 Hz)); [done| |done].
  intros E0. rewrite E0 in Hz. change (zlen (concat [])) with 0 in Hz. lia.
Qed.

Lemma last_default {A} (x : A) l d d' : List.last (x :: l) d = List.last (x :: l) d'.
Proof. revert x. induction l as [|y l IH]; intros x; [done|]. apply (IH y). Qed.

Lemma clip_messages_received xs : forall d,
  Forall clip_message xs -> mGuestReadState d = reset ->
  onReceive_all (flat_map (fun x => x.1 ++ x.2) xs) d =
    Some (map (fun x => concat x.2) xs,
          Device reset (List.last (map (fun x => concat x.2) xs) (mClipboardData d)) (mEnabled d) (mSocket d)).
Proof.
  induction xs as [|x xs IH]; intros d Hxs Hd; cbn [flat_map map].
  { cbn. rewrite <- Hd. by destruct d. }
  inversion Hxs; subst. rewrite onReceive_all_app, clip_message_received by done.
  cbn [mbind option_bind fst snd]. rewrite IH by done. cbn [mbind option_bind fst snd mClipboardData mEnabled mSocket app].
  do 3 f_equal. destruct xs as [|x' xs]; [done|]. cbn [map].
  by rewrite (last_default (concat x'.2) _ (concat x.2) (mClipboardData d)).
Qed.

End clipboard.

(** ** Lemmas on the other devices *)

Lemma existsb_false {A} (f : A -> bool) l : existsb f l = false <-> Forall (fun x => f x = false) l.
Proof.
  induction l as [|x l IH]; cbn; [by split|]. rewrite orb_false_iff, IH. split.
  - intros [??]. by constructor.
  - by inversion 1.
Qed.

(** The first equals sign ends the name. *)
Lemma valid_property_facts p :
  BootProperties.valid_property p ->
  split_at 61 (p.1 ++ str "=" ++ p.2) = Some p /\ sendable (p.1 ++ str "=" ++ p.2).
Proof.
  intros (H1 & H2 & Hb1 & Hb2). unfold BootProperties.BootPropertyString_set, BootProperties.LimitedString_set,
    BootProperties.PROPERTY_MAX_NAME, BootProperties.PROPERTY_MAX_VALUE in *.
  destruct (existsb _ p.1) eqn:E; [done|]. apply existsb_false in E.
  destruct (Z.ltb_spec 32 (zlen p.1)); [done|]. destruct (Z.ltb_spec 92 (zlen p.2)); [done|].
  split.
  - change (str "=" ++ p.2) with (61 :: p.2). rewrite split_at_app; [by destruct p|].
    eapply Forall_impl; [exact E|]. intros c Hc ->. done.
  - split.
    + apply Forall_app_2; [done|]. constructor; [unfold is_byte; cbn; lia|done].
    + rewrite !zlen_app. change (zlen (str "=")) with 1. pose proof (zlen_nonneg p.1). pose proof (zlen_nonneg p.2). lia.
Qed.

Lemma concat_sends {A} (f : A -> bytes) l :
  concat (concat (map (fun x => qemud_sendAsync (f x)) l)) = sent_stream (map f l).
Proof.
  by rewrite <- sent_stream_concat, map_map.
Qed.

Section guest_status.
Import GuestStatus.

Definition run_ok (is_ : list input) (s : list bytes * device) : Prop :=
  concat s.1 = sent_stream (replicate (count_messages is_) (str "KO")) /\
  mHeartbeat s.2 = u64 (count_heartbeats is_) /\
  mResetTimestampMs s.2 = (boots is_).1 /\
  mBootTime s.2 = match (boots is_).2 with Some t => t - (boots is_).1 | None => 0 end.

Lemma sent_stream_replicate n m : sent_stream (replicate (S n) m) = sent_stream (replicate n m) ++ concat (qemud_sendAsync m).
Proof.
  replace (S n) with (n + 1)%nat by lia. rewrite replicate_add. unfold sent_stream.
  rewrite !map_app, concat_app. f_equal. cbn. by rewrite app_nil_r.
Qed.

Lemma run_snoc is_ i : run (is_ ++ [i]) = let '(_, out, d) := step i (run is_).2 in ((run is_).1 ++ out, d).
Proof. unfold run. by rewrite fold_left_app. Qed.

Lemma run_satisfies is_ : run_ok is_ (run is_).
Proof.
  induction is_ as [|i is_ IH] using rev_ind; [done|]. destruct IH as (Ho & Hh & Hr & Hb).
  unfold run_ok. rewrite run_snoc. destruct (run is_) as [out d]. cbn [fst snd] in *.
  assert (boots (is_ ++ [i]) = boot_step (boots is_) i) as -> by (unfold boots; by rewrite fold_left_app).
  assert (count_heartbeats (is_ ++ [i]) = count_heartbeats is_ + (if is_heartbeat i then 1 else 0)) as ->.
  { unfold count_heartbeats. rewrite List.filter_app, zlen_app. cbn. by destruct (is_heartbeat i). }
  assert (count_messages (is_ ++ [i]) = match i with Message _ _ => S (count_messages is_) | _ => count_messages is_ end) as ->.
  { unfold count_messages. rewrite List.filter_app, length_app. destruct i; cbn; lia. }
  destruct i as [m t|t]; cbn [step is_heartbeat boot_step].
  - unfold onReceive, boot_time_of. rewrite sent_stream_replicate, <- Ho.
    destruct (starts_with (str "heartbeat") m); cbn [negb andb].
    + cbn [fst snd mHeartbeat mBootTime mResetTimestampMs].
      rewrite concat_app. split; [done|]. split; [|done]. by rewrite Hh, wrap_add_l.
    + destruct (starts_with (str "bootcomplete") m); cbn [fst snd mHeartbeat mBootTime mResetTimestampMs].
      * rewrite concat_app. split; [done|]. rewrite Hh, Hr, Z.add_0_r. done.
      * rewrite concat_app. split; [done|]. rewrite Hh, Z.add_0_r. done.
  - cbn. rewrite app_nil_r, Z.add_0_r. done.
Qed.

End guest_status.

(** ** Properties *)

(** The clipboard receives every message exactly, however its header and
    its data are cut into pieces of their own: each text is announced once, in order,
    and the last one is kept; and what the host sends with [setContents] is such
    a message. *)
Theorem clipboard_roundtrip xs d :
  Forall clip_message xs -> Clipboard.mGuestReadState d = Clipboard.reset ->
  exists d', Clipboard.onReceive_all (flat_map (fun x => x.1 ++ x.2) xs) d =
               Some (map (fun x => concat x.2) xs, d') /\
    Clipboard.mGuestReadState d' = Clipboard.reset /\
    (forall x xs', xs = xs' ++ [x] -> Clipboard.getContents d' = concat x.2) /\
    (forall host text, Clipboard.mEnabled host = true -> Clipboard.mSocket host = true ->
       0 < zlen text < 2 ^ 32 ->
       exists h b, Clipboard.setContents text host = Some [h; b] /\ clip_message ([h], [b]) /\ b = text).
Proof.
  intros Hxs Hd. rewrite clip_messages_received by done. eexists. split; [reflexivity|]. split; [done|]. split.
  - intros x xs' ->. unfold Clipboard.getContents. cbn. rewrite map_app. apply last_last.
  - intros host text He Hs Hz. unfold Clipboard.setContents. rewrite He, Hs. cbn [negb].
    rewrite wrap_small by (unfold in_u; lia). eexists _, _. split; [reflexivity|].
    assert (take (Z.to_nat (zlen text)) text = text) as -> by (apply take_ge; unfold zlen; lia).
    split; [|done]. unfold clip_message. cbn [fst snd concat]. rewrite !app_nil_r.
    split_and!; try done.
    + constructor; [|done]. intros E. by apply (f_equal (@length Z)) in E.
    + constructor; [|done]. intros ->. change (zlen []) with 0 in Hz. lia.
    + lia.
    + lia.
Qed.

(** A delivery that runs past the end of the header is written over what
    follows the size, and so is anything that follows an empty message: the
    sizes are not checked. *)
Theorem clipboard_overruns p c d :
  Clipboard.mGuestReadState d = Clipboard.reset -> p <> [] -> zlen p < 4 ->
  (4 < zlen c -> Clipboard.onReceive c d = None) /\
  (4 < zlen p + zlen c -> Clipboard.onReceive_all [p; c] d = None) /\
  (c <> [] -> Clipboard.onReceive_all [le_bytes 4 0; c] d = None).
Proof.
  intros Hd Hp Hlt. pose proof (in_header_reset d Hd) as H0.
  assert (forall q c0 d0, in_header q (Clipboard.mGuestReadState d0) -> zlen q < 4 ->
    4 < zlen q + zlen c0 -> Clipboard.onReceive c0 d0 = None) as Hover.
  { intros q c0 d0 Hq Hq4 Hbig. unfold Clipboard.onReceive. rewrite (in_header_start q) by done.
    destruct Hq as (Ht & Hl & _ & Hpr & _). unfold Clipboard.copy_in, Clipboard.target, write_at.
    rewrite Ht, Hl, Hpr. by rewrite (proj2 (Z.leb_gt _ _)). }
  split_and!.
  - intros Hc. apply (Hover [] c d H0); [done|]. rewrite zlen_nil. lia.
  - intros Hc. cbn [Clipboard.onReceive_all].
    destruct (in_header_chunk [] p d H0) as (s & -> & Hs); [done|cbn [app]; lia|].
    cbn [mbind option_bind fst snd]. by rewrite (Hover p c (Clipboard.Device s _ _ _) Hs).
  - intros Hc. cbn [Clipboard.onReceive_all].
    destruct (in_header_chunk [] (le_bytes 4 0) d H0) as (s & -> & Hs); [done|by vm_compute|].
    cbn [mbind option_bind fst snd]. unfold Clipboard.onReceive. cbn [Clipboard.mGuestReadState].
    destruct (in_header_complete [] s Hs) as (Ht & _ & Hl & _ & Hpr); [by vm_compute|].
    unfold Clipboard.copy_in, Clipboard.target, write_at. rewrite Ht, Hl, Hpr.
    destruct c as [|x c]; [done|]. rewrite zlen_cons. pose proof (zlen_nonneg c).
    by rewrite (proj2 (Z.leb_gt _ _)) by (rewrite ?zlen_nil; lia).
Qed.

(** The status of the guest is what its history says: the heartbeats it
    sent, and the time of its last completed boot after the last reset; and the
    guest's reader finds one reply to every message. *)
Theorem guest_status_history is_ :
  let '(out, d) := GuestStatus.run is_ in
  GuestStatus.mHeartbeat d = u64 (GuestStatus.count_heartbeats is_) /\
  GuestStatus.bootTime d =
    match (GuestStatus.boots is_).2 with
    | Some t => if t =? (GuestStatus.boots is_).1 then None else Some (t - (GuestStatus.boots is_).1)
    | None => None
    end /\
  packets (concat out) = (replicate (GuestStatus.count_messages is_) (str "KO"), []).
Proof.
  pose proof (run_satisfies is_) as H. destruct (GuestStatus.run is_) as [out d].
  destruct H as (Ho & Hh & _ & Hb). cbn [fst snd] in *. split; [done|]. split.
  - unfold GuestStatus.bootTime. rewrite Hb. destruct (GuestStatus.boots is_).2 as [t|]; [|done].
    destruct (Z.eqb_spec t (GuestStatus.boots is_).1) as [->|Hne]; [by rewrite Z.sub_diag|].
    by rewrite (proj2 (Z.eqb_neq _ _)) by lia.
  - rewrite Ho. apply packets_sent_stream, Forall_replicate. split; [|by vm_compute].
    repeat constructor; unfold is_byte; cbn; lia.
Qed.

(** The guest's reader recovers every boot property from the answer to
    [list]: each packet split at its first equals sign gives back the name and
    the value; the touches of the fingerprint sensor reach it with their
    number. *)
Theorem boot_properties_roundtrip d id :
  Forall BootProperties.valid_property (BootProperties.mProperties d) -> in_s 32 id ->
  (let '(out, es, d') := BootProperties.onReceive (str "list") d in
   exists ps, packets (concat out) = (ps, []) /\
     map (split_at 61) ps = map Some (BootProperties.mProperties d) /\
     es = [true] /\ BootProperties.mDataPartitionMounted d' = true) /\
  (exists p, packets (concat (Fingerprint.touch id)) = ([p], []) /\
     strip_prefix (str "on:") p = Some (to_string id) /\ strtoll (to_string id) = (id, false, [])).
Proof.
  intros Hv Hid. split.
  - unfold BootProperties.onReceive. rewrite bytes_eqb_refl.
    rewrite (concat_sends (fun p => p.1 ++ str "=" ++ p.2)).
    eexists. split; [apply packets_sent_stream|].
    + apply Forall_map. eapply Forall_impl; [exact Hv|]. intros p Hp. by apply valid_property_facts.
    + split; [|done]. rewrite map_map. apply map_ext_Forall. eapply Forall_impl; [exact Hv|].
      intros p Hp. by apply valid_property_facts.
  - unfold in_s in Hid. exists (str "on:" ++ to_string id).
    assert (zlen (to_string id) <= 34) as Hlen by (apply (to_string_length id 32); lia).
    split; [|split].
    + replace (concat (Fingerprint.touch id)) with (sent_stream [str "on:" ++ to_string id])
        by (unfold sent_stream, Fingerprint.touch; cbn [map concat]; by rewrite app_nil_r).
      apply packets_sent_stream. constructor; [|done].
      split; [|rewrite zlen_app; change (zlen (str "on:")) with 3; pose proof (zlen_nonneg (to_string id)); lia].
      apply Forall_app_2; [|apply to_string_bytes]. repeat constructor; unfold is_byte; cbn; lia.
    + apply strip_prefix_app.
    + destruct (Z.lt_ge_cases id 0).
      * apply strtoll_to_string_neg; lia.
      * pose proof (strtoll_to_string id [] ltac:(done) I) as E. rewrite app_nil_r in E. rewrite E.
        by rewrite (proj2 (Z.ltb_lt _ _)) by lia.
Qed.

(** ** Witnesses *)

Lemma clipboard_roundtrip_witness :
  exists d', Clipboard.onReceive_all [[5; 0]; [0; 0]; [104; 101]; [108; 108; 111]] Clipboard.device0 =
    Some ([str "hello"], d') /\ Clipboard.getContents d' = str "hello".
Proof.
  destruct (clipboard_roundtrip [([[5; 0]; [0; 0]], [[104; 101]; [108; 108; 111]])] Clipboard.device0)
    as (d' & E & _ & Hl & _).
  - constructor; [|done]. split_and!; [by repeat (apply Forall_cons_2; [done|])..|done|by vm_compute|by vm_compute].
  - done.
  - exists d'. split; [exact E|]. exact (Hl _ [] eq_refl).
Defined.

Lemma clipboard_overruns_witness :
  Clipboard.onReceive [3; 0; 0; 0; 97; 98; 99] Clipboard.device0 = None.
Proof. apply (clipboard_overruns [3] [3; 0; 0; 0; 97; 98; 99] Clipboard.device0); done. Defined.

Lemma boot_properties_roundtrip_witness :
  exists p, packets (concat (Fingerprint.touch 7)) = ([p], []) /\
    strip_prefix (str "on:") p = Some (to_string 7) /\ strtoll (to_string 7) = (7, false, []).
Proof.
  apply (boot_properties_roundtrip
    (BootProperties.Device [(str "qemu.sf.lcd_density", str "420=x")] false) 7).
  - constructor; [|done]. split_and!; [done|done|..];
      repeat (apply Forall_cons_2; [unfold is_byte; cbn; lia|]); apply Forall_nil_2.
  - unfold in_s. lia.
Defined.
