(* ===== verification/Physics.v ===== *)
(** * The physical model behind the sensors

    Models [emulator/hal/sensors]: the values of [Sensors.h], the ambient
    environment and the body ([AmbientEnvironment.cpp], [BodyModel.cpp]) and
    the physical model ([PhysicalModel.h], [PhysicalModel.cpp]) with its
    overrides and the measurement ids by which the sensor device knows whether
    a value is new.  Floating point numbers are a type with literals; the
    motion of the device ([InertialModel.cpp], and the vector algebra of glm) is
    an interface whose laws say what being stable means; the angles of hinges
    are fixed, as their setters do nothing. *)

From Stdlib Require Import QArith.
From stdpp Require Import functions.
From S2P Require Import Prelude.

#[local] Open Scope Z_scope.

(** ** Values *)

Class Floats (F : Type) := flt : Q -> F.

(** [float], [vec3] and [vec4]. *)
Inductive value (F : Type) :=
  | Float (x : F)
  | Vec3 (x y z : F)
  | Vec4 (x y z w : F).
Arguments Float {F} _.
Arguments Vec3 {F} _ _ _.
Arguments Vec4 {F} _ _ _ _.

Inductive vtype := TFloat | TVec3 | TVec4.

Definition type_of {F} (v : value F) : vtype :=
  match v with Float _ => TFloat | Vec3 _ _ _ => TVec3 | Vec4 _ _ _ _ => TVec4 end.

(** The first component, the whole of a [float]. *)
Definition vx {F} (v : value F) : F :=
  match v with Float x | Vec3 x _ _ | Vec4 x _ _ _ => x end.

Inductive AndroidSensor :=
  | ACCELERATION | GYROSCOPE | MAGNETIC_FIELD | ORIENTATION | TEMPERATURE | PROXIMITY | LIGHT
  | PRESSURE | HUMIDITY | MAGNETIC_FIELD_UNCALIBRATED | GYROSCOPE_UNCALIBRATED | HINGE_ANGLE0
  | HINGE_ANGLE1 | HINGE_ANGLE2 | HEART_RATE | RGBC_LIGHT | WRIST_TILT | ACCELERATION_UNCALIBRATED.

#[export] Instance AndroidSensor_eq_dec : EqDecision AndroidSensor.
Proof. solve_decision. Defined.

(** In the order of [SENSORS_LIST]. *)
Definition all_sensors : list AndroidSensor :=
  [ACCELERATION; GYROSCOPE; MAGNETIC_FIELD; ORIENTATION; TEMPERATURE; PROXIMITY; LIGHT; PRESSURE;
   HUMIDITY; MAGNETIC_FIELD_UNCALIBRATED; GYROSCOPE_UNCALIBRATED; HINGE_ANGLE0; HINGE_ANGLE1;
   HINGE_ANGLE2; HEART_RATE; RGBC_LIGHT; WRIST_TILT; ACCELERATION_UNCALIBRATED].

Definition sensor_type (s : AndroidSensor) : vtype :=
  match s with
  | ACCELERATION | GYROSCOPE | MAGNETIC_FIELD | ORIENTATION | MAGNETIC_FIELD_UNCALIBRATED
  | GYROSCOPE_UNCALIBRATED | ACCELERATION_UNCALIBRATED => TVec3
  | RGBC_LIGHT => TVec4
  | _ => TFloat
  end.

(** [PHYSICAL_PARAMETERS_LIST]. *)
Inductive PhysicalParameter :=
  | P_POSITION | P_ROTATION | P_MAGNETIC_FIELD | P_TEMPERATURE | P_PROXIMITY | P_LIGHT | P_PRESSURE
  | P_HUMIDITY | P_VELOCITY | P_AMBIENT_MOTION | P_HINGE_ANGLE0 | P_HINGE_ANGLE1 | P_HINGE_ANGLE2
  | P_ROLLABLE0 | P_ROLLABLE1 | P_ROLLABLE2 | P_POSTURE | P_HEART_RATE | P_RGBC_LIGHT | P_WRIST_TILT
  | P_ROTATION_UNCALIBRATED.

Definition parameter_type (p : PhysicalParameter) : vtype :=
  match p with
  | P_POSITION | P_ROTATION | P_MAGNETIC_FIELD | P_VELOCITY | P_ROTATION_UNCALIBRATED => TVec3
  | P_RGBC_LIGHT => TVec4
  | _ => TFloat
  end.

Inductive interpolation := SMOOTH | STEP.

Inductive ParameterValueType := TARGET | CURRENT | CURRENT_NO_AMBIENT_MOTION | DEFAULT.

(** ** The environment *)

Record AmbientEnvironment (F : Type) := Ambient {
  mMagneticField : value F; mGravity : value F; mTemperature : F; mProximity : F; mLight : F;
  mPressure : F; mHumidity : F; mRgbcLight : value F;
}.
Arguments Ambient {F} _ _ _ _ _ _ _ _.
Arguments mMagneticField {F} _.
Arguments mGravity {F} _.
Arguments mTemperature {F} _.
Arguments mProximity {F} _.
Arguments mLight {F} _.
Arguments mPressure {F} _.
Arguments mHumidity {F} _.
Arguments mRgbcLight {F} _.

(** The motion of the device.  [in_setCurrentTime] answers whether it is
    stable; what the sensors see of it are the [in_] functions, with the
    gravity or the magnetic field where they need it. *)
Class Inertial (I F : Type) := {
  in_setCurrentTime : Z -> I -> bool * I;
  in_setTarget : PhysicalParameter -> value F -> interpolation -> I -> I;
  in_now : I -> Z;
  in_accelerometer : I -> value F -> value F;
  in_gyroscope : I -> value F;
  in_magnetometer : I -> value F -> value F;
  in_orientation : I -> value F;
  in_wristTilt : I -> F;
  in_getParameter : ParameterValueType -> PhysicalParameter -> I -> value F;
  in_quiet : I -> Prop;
  in_settled : I -> Prop;
}.

(** A device is quiet as long as no ambient motion is asked for.  Once a
    quiet device is reported stable it stays stable and nothing seen of it
    changes, as long as time does not run backwards and no target is set. *)
Class InertialLaws (I F : Type) `{Inertial I F} := {
  in_clock i : in_quiet i -> 0 <= in_now i;
  in_quiet_time t i : 0 <= t < 2 ^ 64 -> in_quiet i -> in_quiet (snd (in_setCurrentTime t i));
  in_quiet_target p v m i : p <> P_AMBIENT_MOTION -> in_quiet i -> in_quiet (in_setTarget p v m i);
  in_stable t i :
    in_quiet i -> fst (in_setCurrentTime t i) = true -> in_settled (snd (in_setCurrentTime t i));
  in_time t i : 0 <= t < 2 ^ 64 -> in_now (snd (in_setCurrentTime t i)) = t;
  in_target_now p v m i : in_now (in_setTarget p v m i) = in_now i;
  in_stays t i :
    in_quiet i -> in_settled i -> in_now i <= t < 2 ^ 64 ->
    let i' := snd (in_setCurrentTime t i) in
    fst (in_setCurrentTime t i) = true /\
    (forall g, in_accelerometer i' g = in_accelerometer i g) /\ in_gyroscope i' = in_gyroscope i /\
    (forall f, in_magnetometer i' f = in_magnetometer i f) /\ in_orientation i' = in_orientation i /\
    in_wristTilt i' = in_wristTilt i;
  in_types i g f :
    type_of (in_accelerometer i g) = TVec3 /\ type_of (in_gyroscope i) = TVec3 /\
    type_of (in_magnetometer i f) = TVec3 /\ type_of (in_orientation i) = TVec3;
}.

Section physics.
Context {I F : Type} `{Floats F} `{Inertial I F}.
(** The angles of the hinges, whose setters are not implemented. *)
Context (hinge : nat -> F).

Definition Ambient0 : AmbientEnvironment F :=
  Ambient (Vec3 (flt 0) (flt (59 # 10)) (flt (- 484 # 10))) (Vec3 (flt 0) (flt (- 981 # 100)) (flt 0))
    (flt 0) (flt 1) (flt 0) (flt 0) (flt 0) (Vec4 (flt 0) (flt 0) (flt 0) (flt 0)).

Definition set_ambient (p : PhysicalParameter) (v : value F) (a : AmbientEnvironment F)
    : AmbientEnvironment F :=
  let '(Ambient m g t x l pr h r) := a in
  match p with
  | P_MAGNETIC_FIELD => Ambient v g t x l pr h r
  | P_TEMPERATURE => Ambient m g (vx v) x l pr h r
  | P_PROXIMITY => Ambient m g t (vx v) l pr h r
  | P_LIGHT => Ambient m g t x (vx v) pr h r
  | P_PRESSURE => Ambient m g t x l (vx v) h r
  | P_HUMIDITY => Ambient m g t x l pr (vx v) r
  | P_RGBC_LIGHT => Ambient m g t x l pr h v
  | _ => a
  end.

(** [AmbientEnvironment::setGravity]. *)
Definition set_gravity (v : value F) (a : AmbientEnvironment F) : AmbientEnvironment F :=
  let '(Ambient m _ t x l pr h r) := a in Ambient m v t x l pr h r.

(** ** The model *)

Record PhysicalModel := Model {
  mInertialModel : I; mAmbientEnvironment : AmbientEnvironment F; mHeartRate : F;
  mIsPhysicalStateChanging : bool;
  mUseOverride : AndroidSensor -> bool;
  mMeasurementId : AndroidSensor -> Z;
  mOverride : AndroidSensor -> value F;
}.

Definition PhysicalModel0 (i : I) : PhysicalModel :=
  Model i Ambient0 (flt 0) false (fun _ => false) (fun _ => 0)
    (fun s => match sensor_type s with
              | TFloat => Float (flt 0)
              | TVec3 => Vec3 (flt 0) (flt 0) (flt 0)
              | TVec4 => Vec4 (flt 0) (flt 0) (flt 0) (flt 0)
              end).

(** The events of the model. *)
Inductive change := TargetStateChanged | PhysicalStateChanging | PhysicalStateStabilized.

Definition physicalStateChanging (m : PhysicalModel) : list change * PhysicalModel :=
  ([PhysicalStateChanging],
   Model (mInertialModel m) (mAmbientEnvironment m) (mHeartRate m) true (mUseOverride m)
     (mMeasurementId m) (mOverride m)).

Definition physicalStateStabilized (m : PhysicalModel) : list change * PhysicalModel :=
  ([PhysicalStateStabilized],
   Model (mInertialModel m) (mAmbientEnvironment m) (mHeartRate m) false (mUseOverride m)
     (fun s => mMeasurementId m s + 1) (mOverride m)).

Definition targetStateChanged (m : PhysicalModel) : list change * PhysicalModel :=
  ([TargetStateChanged],
   Model (mInertialModel m) (mAmbientEnvironment m) (mHeartRate m) (mIsPhysicalStateChanging m)
     (fun _ => false) (mMeasurementId m) (mOverride m)).

(** The ambient environment and the body are always stable. *)
Definition setCurrentTime (time_ns : Z) (m : PhysicalModel) : list change * PhysicalModel :=
  let '(stable, i) := in_setCurrentTime time_ns (mInertialModel m) in
  let m' := Model i (mAmbientEnvironment m) (mHeartRate m) (mIsPhysicalStateChanging m)
              (mUseOverride m) (mMeasurementId m) (mOverride m) in
  if stable && mIsPhysicalStateChanging m then physicalStateStabilized m' else ([], m').

Definition setGravity (v : value F) (m : PhysicalModel) : PhysicalModel :=
  Model (mInertialModel m) (set_gravity v (mAmbientEnvironment m)) (mHeartRate m)
    (mIsPhysicalStateChanging m) (mUseOverride m) (mMeasurementId m) (mOverride m).

(** What the setter of a parameter does between the two notifications. *)
Definition set_parameter (p : PhysicalParameter) (v : value F) (mode : interpolation)
    (m : PhysicalModel) : PhysicalModel :=
  let with_inertial i :=
    Model i (mAmbientEnvironment m) (mHeartRate m) (mIsPhysicalStateChanging m) (mUseOverride m)
      (mMeasurementId m) (mOverride m) in
  match p with
  | P_POSITION | P_ROTATION | P_VELOCITY | P_AMBIENT_MOTION | P_WRIST_TILT =>
      with_inertial (in_setTarget p v mode (mInertialModel m))
  | P_HEART_RATE =>
      Model (mInertialModel m) (mAmbientEnvironment m) (vx v) (mIsPhysicalStateChanging m)
        (mUseOverride m) (mMeasurementId m) (mOverride m)
  | P_HINGE_ANGLE0 | P_HINGE_ANGLE1 | P_HINGE_ANGLE2 | P_ROLLABLE0 | P_ROLLABLE1 | P_ROLLABLE2
  | P_POSTURE | P_ROTATION_UNCALIBRATED => m
  | _ =>
      Model (mInertialModel m) (set_ambient p v (mAmbientEnvironment m)) (mHeartRate m)
        (mIsPhysicalStateChanging m) (mUseOverride m) (mMeasurementId m) (mOverride m)
  end.

Definition setTarget (p : PhysicalParameter) (v : value F) (mode : interpolation)
    (m : PhysicalModel) : list change * PhysicalModel :=
  let '(es1, m) := physicalStateChanging m in
  let '(es2, m) := targetStateChanged (set_parameter p v mode m) in
  (es1 ++ es2, m).

Definition setOverride (s : AndroidSensor) (v : value F) (m : PhysicalModel)
    : list change * PhysicalModel :=
  let '(es, m) := physicalStateChanging m in
  (es, Model (mInertialModel m) (mAmbientEnvironment m) (mHeartRate m) (mIsPhysicalStateChanging m)
         (<[s := true]> (mUseOverride m)) (<[s := mMeasurementId m s + 1]> (mMeasurementId m))
         (<[s := v]> (mOverride m))).

(** The value of a sensor that is not overridden. *)
Definition getPhysical (s : AndroidSensor) (m : PhysicalModel) : value F :=
  let i := mInertialModel m in
  let a := mAmbientEnvironment m in
  match s with
  | ACCELERATION | ACCELERATION_UNCALIBRATED => in_accelerometer i (mGravity a)
  | GYROSCOPE | GYROSCOPE_UNCALIBRATED => in_gyroscope i
  | MAGNETIC_FIELD | MAGNETIC_FIELD_UNCALIBRATED => in_magnetometer i (mMagneticField a)
  | ORIENTATION => in_orientation i
  | TEMPERATURE => Float (mTemperature a)
  | PROXIMITY => Float (mProximity a)
  | LIGHT => Float (mLight a)
  | PRESSURE => Float (mPressure a)
  | HUMIDITY => Float (mHumidity a)
  | HINGE_ANGLE0 => Float (hinge 0)
  | HINGE_ANGLE1 => Float (hinge 1)
  | HINGE_ANGLE2 => Float (hinge 2)
  | HEART_RATE => Float (mHeartRate m)
  | RGBC_LIGHT => mRgbcLight a
  | WRIST_TILT => Float (in_wristTilt i)
  end.

(** The measurement id, the value and the model. *)
Definition getSensorValue (s : AndroidSensor) (m : PhysicalModel) : Z * value F * PhysicalModel :=
  if mUseOverride m s then (mMeasurementId m s, mOverride m s, m)
  else
    let m :=
      if mIsPhysicalStateChanging m then
        Model (mInertialModel m) (mAmbientEnvironment m) (mHeartRate m) true (mUseOverride m)
          (<[s := mMeasurementId m s + 1]> (mMeasurementId m)) (mOverride m)
      else m in
    (mMeasurementId m s, getPhysical s m, m).

(** What the model says of a parameter, with the state of the foldable
    display as an argument. *)
Definition getParameter (folded : ParameterValueType -> PhysicalParameter -> F)
    (vt : ParameterValueType) (p : PhysicalParameter) (m : PhysicalModel) : value F :=
  let a := match vt with DEFAULT => Ambient0 | _ => mAmbientEnvironment m end in
  match p with
  | P_POSITION | P_ROTATION | P_VELOCITY | P_AMBIENT_MOTION | P_WRIST_TILT =>
      in_getParameter vt p (mInertialModel m)
  | P_ROTATION_UNCALIBRATED => in_getParameter CURRENT p (mInertialModel m)
  | P_MAGNETIC_FIELD => mMagneticField a
  | P_TEMPERATURE => Float (mTemperature a)
  | P_PROXIMITY => Float (mProximity a)
  | P_LIGHT => Float (mLight a)
  | P_PRESSURE => Float (mPressure a)
  | P_HUMIDITY => Float (mHumidity a)
  | P_RGBC_LIGHT => mRgbcLight a
  | P_HEART_RATE => Float (match vt with DEFAULT => flt 0 | _ => mHeartRate m end)
  | P_HINGE_ANGLE0 | P_HINGE_ANGLE1 | P_HINGE_ANGLE2 | P_ROLLABLE0 | P_ROLLABLE1 | P_ROLLABLE2
  | P_POSTURE => Float (folded vt p)
  end.

(** ** Histories *)

Inductive physics_op :=
  | SetTime (t : Z)
  | SetTarget (p : PhysicalParameter) (v : value F) (mode : interpolation)
  | SetGravity (v : value F)
  | Override (s : AndroidSensor) (v : value F)
  | Get (s : AndroidSensor).

(** What a read gave. *)
Definition reading : Type := AndroidSensor * Z * value F.

Definition physics_step (s : list reading * PhysicalModel) (o : physics_op)
    : list reading * PhysicalModel :=
  let '(log, m) := s in
  match o with
  | SetTime t => (log, (setCurrentTime t m).2)
  | SetTarget p v mode => (log, (setTarget p v mode m).2)
  | SetGravity v => (log, setGravity v m)
  | Override k v => (log, (setOverride k v m).2)
  | Get k => let '(id, v, m) := getSensorValue k m in (log ++ [(k, id, v)], m)
  end.

Definition physics_run (i : I) (ops : list physics_op) : list reading * PhysicalModel :=
  fold_left physics_step ops ([], PhysicalModel0 i).

(** Typed arguments and times that do not run backwards. *)
Fixpoint legal_from (now : Z) (ops : list physics_op) : Prop :=
  match ops with
  | [] => True
  | SetTime t :: ops => now <= t < 2 ^ 64 /\ legal_from t ops
  | SetTarget p v _ :: ops => type_of v = parameter_type p /\ legal_from now ops
  | SetGravity v :: ops => type_of v = TVec3 /\ legal_from now ops
  | Override s v :: ops => type_of v = sensor_type s /\ legal_from now ops
  | Get _ :: ops => legal_from now ops
  end.

(** The two operations after which a value can change under its id. *)
Definition sets_ambient_motion (o : physics_op) : bool :=
  match o with SetTarget P_AMBIENT_MOTION _ _ => true | _ => false end.
Definition sets_gravity (o : physics_op) : bool := match o with SetGravity _ => true | _ => false end.

(** The sensors that show the motion of the device, and those that show
    gravity. *)
Definition shows_motion (s : AndroidSensor) : bool :=
  match s with
  | ACCELERATION | ACCELERATION_UNCALIBRATED | GYROSCOPE | GYROSCOPE_UNCALIBRATED | MAGNETIC_FIELD
  | MAGNETIC_FIELD_UNCALIBRATED | ORIENTATION | WRIST_TILT => true
  | _ => false
  end.
Definition shows_gravity (s : AndroidSensor) : bool :=
  match s with ACCELERATION | ACCELERATION_UNCALIBRATED => true | _ => false end.

(** The sensors these operations, if there are some, do not touch. *)
Definition steady (ambient gravity : bool) (s : AndroidSensor) : bool :=
  negb (ambient && shows_motion s) && negb (gravity && shows_gravity s).

(** What a read gives as long as nothing happens, unless it is a new
    measurement. *)
Definition standing (s : AndroidSensor) (m : PhysicalModel) : option (value F) :=
  if mUseOverride m s then Some (mOverride m s)
  else if mIsPhysicalStateChanging m then None
  else Some (getPhysical s m).

(** [ambient] and [gravity]: the history may hold such operations. *)
Record model_ok (ambient gravity : bool) (log : list reading) (m : PhysicalModel) : Prop := {
  ok_clock : 0 <= in_now (mInertialModel m);
  ok_quiet : ambient = false -> in_quiet (mInertialModel m);
  ok_settled : ambient = false -> mIsPhysicalStateChanging m = false -> in_settled (mInertialModel m);
  ok_ids s : 0 <= mMeasurementId m s;
  ok_override s : type_of (mOverride m s) = sensor_type s;
  ok_ambient : type_of (mMagneticField (mAmbientEnvironment m)) = TVec3 /\
               type_of (mRgbcLight (mAmbientEnvironment m)) = TVec4;
  ok_log s id v : (s, id, v) ∈ log -> id <= mMeasurementId m s;
  ok_same s v : steady ambient gravity s = true -> (s, mMeasurementId m s, v) ∈ log ->
    standing s m = Some v \/ standing s m = None;
  ok_unique s id v v' : steady ambient gravity s = true -> (s, id, v) ∈ log -> (s, id, v') ∈ log -> v = v';
  ok_type s id v : (s, id, v) ∈ log -> type_of v = sensor_type s;
}.

End physics.

(** ** Lemmas *)

Section lemmas.
Context {I F : Type} `{Floats F} `{Inertial I F} `{!InertialLaws I F}.
Context (hinge : nat -> F) (ambient gravity : bool).
Implicit Types (m : PhysicalModel (I := I) (F := F)).

Lemma setCurrentTime_cases t m :
  let m' := (setCurrentTime t m).2 in
  mUseOverride m' = mUseOverride m /\ mOverride m' = mOverride m /\
  mAmbientEnvironment m' = mAmbientEnvironment m /\ mHeartRate m' = mHeartRate m /\
  mInertialModel m' = snd (in_setCurrentTime t (mInertialModel m)) /\
  (if fst (in_setCurrentTime t (mInertialModel m)) && mIsPhysicalStateChanging m then
     mIsPhysicalStateChanging m' = false /\ forall s, mMeasurementId m' s = mMeasurementId m s + 1
   else mIsPhysicalStateChanging m' = mIsPhysicalStateChanging m /\
        mMeasurementId m' = mMeasurementId m).
Proof.
  unfold setCurrentTime. destruct (in_setCurrentTime t (mInertialModel m)) as [b i]. cbn [fst snd].
  by destruct (b && mIsPhysicalStateChanging m).
Qed.

(** A settled device shows the same values at later times; what is not its
    motion does not change with time. *)
Lemma getPhysical_settled t m m' s :
  (shows_motion s = true -> in_quiet (mInertialModel m) /\ in_settled (mInertialModel m)) ->
  in_now (mInertialModel m) <= t < 2 ^ 64 ->
  mAmbientEnvironment m' = mAmbientEnvironment m -> mHeartRate m' = mHeartRate m ->
  mInertialModel m' = snd (in_setCurrentTime t (mInertialModel m)) ->
  getPhysical hinge s m' = getPhysical hinge s m.
Proof.
  intros Hs Ht Ea Eh Ei. unfold getPhysical. rewrite Ea, Eh, Ei. destruct (shows_motion s) eqn:Em.
  - destruct (Hs eq_refl) as [Hq Hst]. destruct (in_stays t _ Hq Hst Ht) as (_ & Eacc & Egy & Emag & Eor & Ew).
    destruct s; rewrite ?Eacc, ?Egy, ?Emag, ?Eor, ?Ew; reflexivity.
  - by destruct s.
Qed.

Lemma steady_motion s : steady ambient gravity s = true -> shows_motion s = true -> ambient = false.
Proof. unfold steady. intros Hst Em. rewrite Em in Hst. by destruct ambient. Qed.

Lemma steady_gravity s : steady ambient gravity s = true -> gravity = true -> shows_gravity s = false.
Proof. unfold steady. intros Hst Eg. rewrite Eg in Hst. by destruct (shows_gravity s); rewrite ?andb_false_r in Hst. Qed.

Lemma getPhysical_type log m s : model_ok hinge ambient gravity log m -> type_of (getPhysical hinge s m) = sensor_type s.
Proof.
  intros Hm. destruct (ok_ambient _ _ _ _ _ Hm) as [Hmf Hrgb].
  destruct (in_types (mInertialModel m) (mGravity (mAmbientEnvironment m))
    (mMagneticField (mAmbientEnvironment m))) as (H1 & H2 & H3 & H4).
  destruct s; cbn; assumption || reflexivity.
Qed.

Lemma standing_frame m m' s :
  mUseOverride m' s = mUseOverride m s -> mOverride m' s = mOverride m s ->
  mIsPhysicalStateChanging m' = mIsPhysicalStateChanging m ->
  (mIsPhysicalStateChanging m = false -> getPhysical hinge s m' = getPhysical hinge s m) ->
  standing hinge s m' = standing hinge s m.
Proof.
  intros E1 E2 E3 E4. unfold standing. rewrite E1, E2, E3.
  destruct (mUseOverride m s); [done|]. destruct (mIsPhysicalStateChanging m); [done|]. by rewrite E4.
Qed.

Lemma time_ok log t m :
  model_ok hinge ambient gravity log m -> in_now (mInertialModel m) <= t < 2 ^ 64 ->
  model_ok hinge ambient gravity log (setCurrentTime t m).2.
Proof.
  intros Hm Ht. pose proof (ok_clock _ _ _ _ _ Hm) as Hnow.
  assert (ambient = false -> in_quiet (snd (in_setCurrentTime t (mInertialModel m)))) as Hq
    by (intros; apply in_quiet_time; [lia|by apply Hm]).
  assert (0 <= in_now (snd (in_setCurrentTime t (mInertialModel m)))) as Hck by (rewrite in_time; lia).
  destruct (setCurrentTime_cases t m) as (Eu & Eo & Ea & Eh & Ei & Hc).
  set (m' := (setCurrentTime t m).2) in *.
  destruct (fst (in_setCurrentTime t (mInertialModel m)) && mIsPhysicalStateChanging m) eqn:E.
  - destruct Hc as [Ec Eid]. apply andb_true_iff in E as [Est Ech]. split.
    + by rewrite Ei.
    + by rewrite Ei.
    + intros Hamb _. rewrite Ei. apply in_stable; [by apply Hm|done].
    + intros s. rewrite Eid. pose proof (ok_ids _ _ _ _ _ Hm s). lia.
    + intros s. rewrite Eo. apply Hm.
    + rewrite Ea. apply Hm.
    + intros s id v Hl. rewrite Eid. pose proof (ok_log _ _ _ _ _ Hm _ _ _ Hl). lia.
    + intros s v _ Hl. rewrite Eid in Hl. pose proof (ok_log _ _ _ _ _ Hm _ _ _ Hl). lia.
    + apply Hm.
    + apply Hm.
  - destruct Hc as [Ec Eid]. split.
    + by rewrite Ei.
    + by rewrite Ei.
    + rewrite Ec. intros Hamb Hch. rewrite Ei. apply in_stable, in_stays; by apply Hm || done.
    + intros s. rewrite Eid. apply Hm.
    + intros s. rewrite Eo. apply Hm.
    + rewrite Ea. apply Hm.
    + intros s id v Hl. rewrite Eid. by eapply ok_log.
    + intros s v Hst Hl. rewrite Eid in Hl. rewrite (standing_frame m m'); [by apply Hm|by rewrite Eu|by rewrite Eo|done|].
      intros Hch. eapply getPhysical_settled; eauto. intros Hmo.
      pose proof (steady_motion s Hst Hmo). split; by apply Hm.
    + apply Hm.
    + apply Hm.
Qed.

Lemma target_fields p v mode m :
  let m' := (setTarget p v mode m).2 in
  mIsPhysicalStateChanging m' = true /\ mMeasurementId m' = mMeasurementId m /\
  mOverride m' = mOverride m /\ (forall s, mUseOverride m' s = false) /\
  (mAmbientEnvironment m' = mAmbientEnvironment m \/
   mAmbientEnvironment m' = set_ambient p v (mAmbientEnvironment m)) /\
  (mInertialModel m' = mInertialModel m \/
   mInertialModel m' = in_setTarget p v mode (mInertialModel m)).
Proof. unfold setTarget. cbn. destruct p; cbn; split_and!; auto. Qed.

Lemma set_ambient_type p v (a : AmbientEnvironment F) :
  type_of v = parameter_type p -> type_of (mMagneticField a) = TVec3 /\ type_of (mRgbcLight a) = TVec4 ->
  type_of (mMagneticField (set_ambient p v a)) = TVec3 /\ type_of (mRgbcLight (set_ambient p v a)) = TVec4.
Proof. intros Hv [H1 H2]. destruct a, p; cbn in *; auto. Qed.

Lemma target_ok log p v mode m :
  model_ok hinge ambient gravity log m -> (p = P_AMBIENT_MOTION -> ambient = true) -> type_of v = parameter_type p ->
  model_ok hinge ambient gravity log (setTarget p v mode m).2.
Proof.
  intros Hm Hp Hv. destruct (target_fields p v mode m) as (Ec & Eid & Eo & Eu & Ea & Ei).
  set (m' := (setTarget p v mode m).2) in *. split.
  - destruct Ei as [->| ->]; [apply Hm|]. rewrite in_target_now. apply Hm.
  - intros Hamb. destruct Ei as [->| ->]; [by apply Hm|]. apply in_quiet_target; [intros E|by apply Hm].
    specialize (Hp E). congruence.
  - congruence.
  - intros s. rewrite Eid. apply Hm.
  - intros s. rewrite Eo. apply Hm.
  - destruct Ea as [->| ->]; [apply Hm|]. apply set_ambient_type; [done|apply Hm].
  - intros s id w Hl. rewrite Eid. by eapply ok_log.
  - intros s w _ Hl. right. unfold standing. by rewrite Eu, Ec.
  - apply Hm.
  - apply Hm.
Qed.

Lemma gravity_ok log v m :
  model_ok hinge ambient gravity log m -> gravity = true -> model_ok hinge ambient gravity log (setGravity v m).
Proof.
  intros Hm Hg. split; cbn; try apply Hm.
  - destruct (mAmbientEnvironment m) eqn:E. cbn. pose proof (ok_ambient _ _ _ _ _ Hm) as Ha. by rewrite E in Ha.
  - intros s w Hst Hl. rewrite (standing_frame m); [by apply Hm|done..|]. intros _.
    pose proof (steady_gravity s Hst Hg). unfold getPhysical, setGravity. cbn.
    destruct (mAmbientEnvironment m). by destruct s.
Qed.

Lemma override_ok log k v m :
  model_ok hinge ambient gravity log m -> type_of v = sensor_type k -> model_ok hinge ambient gravity log (setOverride k v m).2.
Proof.
  intros Hm Hv. split; cbn.
  - apply Hm.
  - apply Hm.
  - done.
  - intros s. destruct (decide (k = s)) as [->|Hne].
    + rewrite fn_lookup_insert. pose proof (ok_ids _ _ _ _ _ Hm s). lia.
    + rewrite fn_lookup_insert_ne by done. apply Hm.
  - intros s. destruct (decide (k = s)) as [->|Hne].
    + by rewrite fn_lookup_insert.
    + rewrite fn_lookup_insert_ne by done. apply Hm.
  - apply Hm.
  - intros s id w Hl. pose proof (ok_log _ _ _ _ _ Hm _ _ _ Hl). destruct (decide (k = s)) as [->|Hne].
    + rewrite fn_lookup_insert. lia.
    + by rewrite fn_lookup_insert_ne.
  - intros s w Hst Hl. destruct (decide (k = s)) as [->|Hne].
    + rewrite fn_lookup_insert in Hl. pose proof (ok_log _ _ _ _ _ Hm _ _ _ Hl). lia.
    + rewrite fn_lookup_insert_ne in Hl by done. unfold standing. cbn.
      rewrite !fn_lookup_insert_ne by done.
      destruct (ok_same _ _ _ _ _ Hm s w Hst Hl) as [Hs|Hs]; unfold standing in Hs;
        destruct (mUseOverride m s); auto.
  - apply Hm.
  - apply Hm.
Qed.

Lemma getSensorValue_cases k m :
  let '(id, v, m') := getSensorValue hinge k m in
  standing hinge k m = Some v /\ id = mMeasurementId m k /\ m' = m \/
  standing hinge k m = None /\ standing hinge k m' = None /\ v = getPhysical hinge k m /\
  id = mMeasurementId m k + 1 /\ mMeasurementId m' = <[k := id]> (mMeasurementId m) /\
  mInertialModel m' = mInertialModel m /\ mAmbientEnvironment m' = mAmbientEnvironment m /\
  mHeartRate m' = mHeartRate m /\ mIsPhysicalStateChanging m' = true /\
  mIsPhysicalStateChanging m = true /\
  mUseOverride m' = mUseOverride m /\ mOverride m' = mOverride m.
Proof.
  unfold getSensorValue, standing. destruct (mUseOverride m k) eqn:Eu; [by left|].
  destruct (mIsPhysicalStateChanging m) eqn:Ec; cbn; [right|by left].
  rewrite Eu, fn_lookup_insert. by destruct k.
Qed.

Lemma reading_ok log k m :
  model_ok hinge ambient gravity log m ->
  let '(id, v, m') := getSensorValue hinge k m in model_ok hinge ambient gravity (log ++ [(k, id, v)]) m'.
Proof.
  intros Hm. pose proof (getSensorValue_cases k m) as Hc.
  destruct (getSensorValue hinge k m) as [[id v] m'].
  destruct Hc as [(Es & -> & ->)|(Es & Es' & -> & -> & Eid & Ei & Ea & Eh & Ec' & Ec & Eu & Eo)].
  - assert (forall w, steady ambient gravity k = true -> (k, mMeasurementId m k, w) ∈ log -> w = v) as Hold.
    { intros w Hk Hw. destruct (ok_same _ _ _ _ _ Hm k w Hk Hw); congruence. }
    split; try apply Hm.
    + intros s i w [Hl|Hx%list_elem_of_singleton]%elem_of_app; [by eapply ok_log|by simplify_eq].
    + intros s w Hst [Hl|Hl%list_elem_of_singleton]%elem_of_app; [by apply Hm|by left; simplify_eq].
    + intros s i w w' Hst [Hl|Hx%list_elem_of_singleton]%elem_of_app
        [Hl'|Hx'%list_elem_of_singleton]%elem_of_app; simplify_eq;
        [by eapply ok_unique|by apply Hold|symmetry; by apply Hold|done].
    + intros s i w [Hl|Hx%list_elem_of_singleton]%elem_of_app; [by eapply ok_type|simplify_eq].
      unfold standing in Es. destruct (mUseOverride m k).
      * injection Es as <-. apply Hm.
      * destruct (mIsPhysicalStateChanging m); [done|]. injection Es as <-. by eapply getPhysical_type.
  - assert (forall s w, (s, mMeasurementId m' s, w) ∈ log -> s <> k) as Hne.
    { intros s w Hl ->. rewrite Eid, fn_lookup_insert in Hl. pose proof (ok_log _ _ _ _ _ Hm _ _ _ Hl). lia. }
    split.
    + rewrite Ei. apply Hm.
    + rewrite Ei. apply Hm.
    + congruence.
    + intros s. rewrite Eid. destruct (decide (k = s)) as [->|]; [rewrite fn_lookup_insert; pose proof (ok_ids _ _ _ _ _ Hm s); lia|].
      rewrite fn_lookup_insert_ne by done. apply Hm.
    + intros s. rewrite Eo. apply Hm.
    + rewrite Ea. apply Hm.
    + intros s i w [Hl|Hx%list_elem_of_singleton]%elem_of_app.
      * pose proof (ok_log _ _ _ _ _ Hm _ _ _ Hl). rewrite Eid.
        destruct (decide (k = s)) as [->|]; [rewrite fn_lookup_insert; lia|by rewrite fn_lookup_insert_ne].
      * simplify_eq. rewrite Eid, fn_lookup_insert. lia.
    + intros s w Hst [Hl|Hl%list_elem_of_singleton]%elem_of_app; [|by right; simplify_eq].
      pose proof (Hne s w Hl) as Hsk. rewrite Eid, fn_lookup_insert_ne in Hl by congruence.
      destruct (ok_same _ _ _ _ _ Hm s w Hst Hl) as [Hs|Hs]; [left|right]; rewrite <- Hs;
        apply standing_frame; try congruence; by rewrite ?Eu, ?Eo, ?Ec.
    + assert (forall w, (k, mMeasurementId m k + 1, w) ∈ log -> False) as Hnew.
      { intros w Hl. pose proof (ok_log _ _ _ _ _ Hm _ _ _ Hl). lia. }
      intros s i w w' Hst [Hl|Hx%list_elem_of_singleton]%elem_of_app
        [Hl'|Hx'%list_elem_of_singleton]%elem_of_app; simplify_eq;
        [by eapply ok_unique|by destruct (Hnew w)|by destruct (Hnew w')|done].
    + intros s i w [Hl|Hx%list_elem_of_singleton]%elem_of_app; [by eapply ok_type|simplify_eq].
      by eapply getPhysical_type.
Qed.

(** The operation is one the history may hold. *)
Definition may_hold (o : physics_op (F := F)) : Prop :=
  (sets_ambient_motion o = true -> ambient = true) /\ (sets_gravity o = true -> gravity = true).

Lemma physics_step_ok o log m :
  model_ok hinge ambient gravity log m -> legal_from (in_now (mInertialModel m)) [o] -> may_hold o ->
  model_ok hinge ambient gravity (physics_step hinge (log, m) o).1 (physics_step hinge (log, m) o).2.
Proof.
  intros Hm Hl [Hma Hmg]. destruct o as [t|p v mode|v|k v|k]; cbn in *.
  - apply time_ok; tauto.
  - apply target_ok; [done| |tauto]. intros ->. by apply Hma.
  - apply gravity_ok; auto.
  - apply override_ok; tauto.
  - pose proof (reading_ok log k m Hm) as Hg. by destruct (getSensorValue hinge k m) as [[id v] m'].
Qed.

Lemma physics_step_now o log m :
  model_ok hinge ambient gravity log m -> legal_from (in_now (mInertialModel m)) [o] ->
  in_now (mInertialModel (physics_step hinge (log, m) o).2) =
  match o with SetTime t => t | _ => in_now (mInertialModel m) end.
Proof.
  intros Hm Hl. destruct o as [t|p v mode|v|k v|k]; cbn in *.
  - destruct (setCurrentTime_cases t m) as (_ & _ & _ & _ & -> & _). apply in_time.
    pose proof (ok_clock _ _ _ _ _ Hm). lia.
  - destruct p; cbn; try done; apply in_target_now.
  - done.
  - done.
  - pose proof (getSensorValue_cases k m) as Hc. destruct (getSensorValue hinge k m) as [[id v] m']. cbn.
    by destruct Hc as [(_ & _ & ->)|(_ & _ & _ & _ & _ & -> & _)].
Qed.

Lemma physics_run_ok ops : forall log m,
  model_ok hinge ambient gravity log m -> legal_from (in_now (mInertialModel m)) ops -> Forall may_hold ops ->
  let s := fold_left (physics_step hinge) ops (log, m) in model_ok hinge ambient gravity s.1 s.2.
Proof.
  induction ops as [|o ops IH]; intros log m Hm Hl Hh; [done|]. cbn [fold_left]. apply Forall_cons in Hh as [Hho Hh].
  assert (legal_from (in_now (mInertialModel m)) [o]) as Hl1 by (destruct o; cbn in *; tauto).
  pose proof (physics_step_ok o log m Hm Hl1 Hho) as Ho. pose proof (physics_step_now o log m Hm Hl1) as Hn.
  destruct (physics_step hinge (log, m) o) as [log' m']. cbn [fst snd] in *.
  apply IH; [exact Ho| |done]. rewrite Hn. destruct o; cbn in *; tauto.
Qed.

Lemma PhysicalModel0_ok i :
  in_quiet i -> in_settled i -> model_ok hinge ambient gravity [] (PhysicalModel0 i).
Proof.
  intros Hq Hi. split; cbn; try done.
  - by apply in_clock.
  - intros s. by destruct s.
  - intros s id v Hl. by apply elem_of_nil in Hl.
  - intros s v _ Hl. by apply elem_of_nil in Hl.
  - intros s id v v' _ Hl. by apply elem_of_nil in Hl.
  - intros s id v Hl. by apply elem_of_nil in Hl.
Qed.

(** The sensor that shows a parameter directly. *)
Definition shown_by (p : PhysicalParameter) : option AndroidSensor :=
  match p with
  | P_TEMPERATURE => Some TEMPERATURE | P_PROXIMITY => Some PROXIMITY | P_LIGHT => Some LIGHT
  | P_PRESSURE => Some PRESSURE | P_HUMIDITY => Some HUMIDITY | P_HEART_RATE => Some HEART_RATE
  | P_RGBC_LIGHT => Some RGBC_LIGHT | _ => None
  end.

Lemma Float_vx (v : value F) : type_of v = TFloat -> Float (vx v) = v.
Proof. by destruct v. Qed.

End lemmas.

Lemma run_may_hold {F} (ops : list (physics_op (F := F))) :
  Forall (may_hold (existsb sets_ambient_motion ops) (existsb sets_gravity ops)) ops.
Proof.
  apply Forall_forall. intros o Ho. split; intros E; apply existsb_exists; exists o;
    (split; [by apply list_elem_of_In|done]).
Qed.

(** ** Properties *)

(** C21: A measurement id stands for one value: in every history of times, set
    parameters, gravity, overrides and reads, two reads of a sensor with the
    same id give the same value, so a reader that keeps the text of the last
    id never shows an old value; except for the sensors of the device's
    motion in a history that sets the ambient motion, and for the
    accelerometers in one that sets the gravity, whose ids are not renewed.
    Every value has the type of its sensor and ids only grow. *)
Theorem measurement_ids {I F} `{Floats F} `{Inertial I F} `{!InertialLaws I F} (hinge : nat -> F) i ops :
  in_quiet i -> in_settled i -> legal_from (in_now i) ops ->
  let steady := steady (existsb sets_ambient_motion ops) (existsb sets_gravity ops) in
  let '(log, m) := physics_run hinge i ops in
  (forall s id v v', steady s = true -> (s, id, v) ∈ log -> (s, id, v') ∈ log -> v = v') /\
  (forall s id v, (s, id, v) ∈ log -> type_of v = sensor_type s /\ id <= mMeasurementId m s) /\
  (forall s, let '(id, v, _) := getSensorValue hinge s m in
     type_of v = sensor_type s /\ (steady s = true -> forall v', (s, id, v') ∈ log -> v' = v)).
Proof.
  intros Hq Hi Hl steady.
  pose proof (physics_run_ok hinge _ _ ops [] (PhysicalModel0 i) (PhysicalModel0_ok hinge _ _ i Hq Hi) Hl (run_may_hold ops)) as Hok.
  cbv zeta in Hok. unfold physics_run. destruct (fold_left _ ops _) as [log m]. cbn [fst snd] in Hok.
  split_and!.
  - apply Hok.
  - intros s id v Hv. split; [by eapply ok_type|by eapply ok_log].
  - intros s. pose proof (reading_ok hinge _ _ log s m Hok) as Hg.
    destruct (getSensorValue hinge s m) as [[id v] m'].
    assert ((s, id, v) ∈ log ++ [(s, id, v)]) as Hin by (apply elem_of_app; right; by apply list_elem_of_singleton).
    split; [by eapply ok_type|]. intros Hst v' Hv'. eapply ok_unique; [exact Hg|exact Hst| |exact Hin].
    apply elem_of_app. by left.
Qed.

(** A parameter of the environment that is set is what its sensor and the
    parameter itself show, all overrides gone; an override is what its sensor shows, with a new id,
    until the next parameter is set; setting the angle of a hinge shows nothing
    but ends all overrides. *)
Theorem physics_set_read {I F} `{Floats F} `{Inertial I F} (hinge : nat -> F) folded (m : PhysicalModel) p v mode s :
  (shown_by p = Some s -> type_of v = parameter_type p ->
   (getSensorValue hinge s (setTarget p v mode m).2).1.2 = v /\
   forall vt, vt <> DEFAULT -> getParameter folded vt p (setTarget p v mode m).2 = v) /\
  (let '(id, w, _) := getSensorValue hinge s (setOverride s v m).2 in
   w = v /\ id = mMeasurementId m s + 1) /\
  (forall k, mUseOverride (setTarget p v mode m).2 k = false) /\
  (p = P_HINGE_ANGLE0 \/ p = P_HINGE_ANGLE1 \/ p = P_HINGE_ANGLE2 ->
   forall k, getPhysical hinge k (setTarget p v mode m).2 = getPhysical hinge k m).
Proof.
  split_and!.
  - intros Hs Hv. assert ((getSensorValue hinge s (setTarget p v mode m).2).1.2 =
      getPhysical hinge s (setTarget p v mode m).2) as ->.
    { unfold getSensorValue, setTarget, targetStateChanged, physicalStateChanging. cbn.
      destruct (mIsPhysicalStateChanging _); by destruct s. }
    destruct p; cbn in Hs; try done; injection Hs as <-;
      cbn [parameter_type] in Hv; unfold setTarget, set_parameter, getParameter; cbn;
      destruct (mAmbientEnvironment m); cbn; (split; [by rewrite ?Float_vx|]);
      intros [] Hvt; cbn; first [by destruct Hvt | by rewrite ?Float_vx].
  - unfold getSensorValue, setOverride. cbn. rewrite !fn_lookup_insert. cbn. done.
  - intros k. by destruct p.
  - intros Hp k. by destruct Hp as [->|[->| ->]].
Qed.

(** ** Witnesses *)

(** Numbers that are rationals and a device that never moves. *)
Module Example.

#[export] Instance rational : Floats Q := fun q => q.

#[export] Instance still : Inertial Z Q := {
  in_setCurrentTime t _ := (true, t);
  in_setTarget _ _ _ i := i;
  in_now i := i;
  in_accelerometer _ _ := Vec3 0%Q 1%Q 0%Q;
  in_gyroscope _ := Vec3 0%Q 0%Q 0%Q;
  in_magnetometer _ _ := Vec3 0%Q 0%Q 0%Q;
  in_orientation _ := Vec3 0%Q 0%Q 0%Q;
  in_wristTilt _ := 0%Q;
  in_getParameter _ _ _ := Float 0%Q;
  in_quiet i := 0 <= i;
  in_settled _ := True;
}.

#[export] Instance still_laws : InertialLaws Z Q.
Proof. split; cbn; intros; split_and?; first [lia | done | by split_and!]. Qed.

End Example.

Import Example.

Definition example_ops : list (physics_op (F := Q)) :=
  [SetTarget P_LIGHT (Float 5%Q) SMOOTH; Get LIGHT; SetTime 3; Get LIGHT; SetGravity (Vec3 0%Q 2%Q 0%Q); Get LIGHT].

Lemma measurement_ids_witness :
  let log := (physics_run (fun _ => 0%Q) 0 example_ops).1 in
  log = [(LIGHT, 1, Float 5%Q); (LIGHT, 2, Float 5%Q); (LIGHT, 2, Float 5%Q)] /\
  forall id v v', (LIGHT, id, v) ∈ log -> (LIGHT, id, v') ∈ log -> v = v'.
Proof.
  split; [reflexivity|].
  pose proof (measurement_ids (I := Z) (F := Q) (fun _ => 0%Q) 0 example_ops (Z.le_refl 0) I
                ltac:(cbn; split_and!; done)) as M.
  destruct (physics_run (fun _ => 0%Q) 0 example_ops) as [log m]. intros id v v'. exact (proj1 M LIGHT id v v' eq_refl).
Defined.

Lemma physics_set_read_witness :
  (getSensorValue (fun _ => 0%Q) LIGHT
     (setTarget P_LIGHT (Float 7%Q) STEP (PhysicalModel0 (I := Z) (F := Q) 0)).2).1.2 = Float 7%Q.
Proof.
  apply (physics_set_read (fun _ => 0%Q) (fun _ _ => 0%Q) (PhysicalModel0 (I := Z) (F := Q) 0)
           P_LIGHT (Float 7%Q) STEP LIGHT); reflexivity.
Defined.
