(* ===== verification/Inertia.v ===== *)
(** * The motion of the device

    Models [emulator/hal/sensors/src/physics/InertialModel.cpp] and the parts of
    [GlmHelpers.h] and [PhysicalModel.cpp] that read it: position and
    rotation move to their targets along polynomials whose coefficients are
    chosen when a target is set, and the ambient motion is a bounded
    oscillation.  The arithmetic of [float] and the functions of glm are
    classes, so that the definitions run on any numbers; [Motion.v] and
    [Stable.v] are about exact real numbers. *)

From Stdlib Require Import QArith.
From S2P Require Import Prelude Physics.

#[local] Open Scope Z_scope.

(** ** Numbers and vectors *)

(** [fsin] and [fcos] take a frequency and a time in nanoseconds; [fsinf] is
    the sine in single precision. *)
Class Arith (F : Type) := {
  fadd : F -> F -> F; fsub : F -> F -> F; fmul : F -> F -> F; fdiv : F -> F -> F;
  fneg : F -> F; fsqrt : F -> F;
  fltb : F -> F -> bool; fleb : F -> F -> bool; feqb : F -> F -> bool;
  fsin : F -> Z -> F; fsinf : F -> Z -> F; fcos : F -> Z -> F;
  secondsToNs : F -> Z; nsToSeconds : Z -> F;
}.

Record vec2 (F : Type) := V2 { x2 : F; y2 : F }.
Record vec3 (F : Type) := V3 { x3 : F; y3 : F; z3 : F }.
Record vec4 (F : Type) := V4 { x4 : F; y4 : F; z4 : F; w4 : F }.
Record quat (F : Type) := Quat { qw : F; qx : F; qy : F; qz : F }.
Arguments V2 {F} _ _.
Arguments V3 {F} _ _ _.
Arguments V4 {F} _ _ _ _.
Arguments Quat {F} _ _ _ _.
Arguments x2 {F} _. Arguments y2 {F} _.
Arguments x3 {F} _. Arguments y3 {F} _. Arguments z3 {F} _.
Arguments x4 {F} _. Arguments y4 {F} _. Arguments z4 {F} _. Arguments w4 {F} _.
Arguments qw {F} _. Arguments qx {F} _. Arguments qy {F} _. Arguments qz {F} _.

(** Matrices by columns: four or two of them. *)
Record mat4 (V : Type) := M4 { c0 : V; c1 : V; c2 : V; c3 : V }.
Record mat2 (V : Type) := M2 { d0 : V; d1 : V }.
Arguments M4 {V} _ _ _ _.
Arguments M2 {V} _ _.
Arguments c0 {V} _. Arguments c1 {V} _. Arguments c2 {V} _. Arguments c3 {V} _.
Arguments d0 {V} _. Arguments d1 {V} _.

(** The vector operators, for [float] itself too. *)
Class Vector (F V : Type) := {
  vadd : V -> V -> V; vsub : V -> V -> V; vscale : F -> V -> V; vneg : V -> V;
}.

(** The functions of glm the code calls. *)
Class Glm (F : Type) := {
  glm_vec3 : Vector F (vec3 F);
  glm_vec4 : Vector F (vec4 F);
  mul3 : vec3 F -> vec3 F -> vec3 F;
  mul43 : mat4 (vec3 F) -> vec4 F -> vec3 F;
  mul44 : mat4 (vec4 F) -> vec4 F -> vec4 F;
  mul24 : mat2 (vec4 F) -> vec2 F -> vec4 F;
  dot2 : vec2 F -> vec2 F -> F; dot4 : vec4 F -> vec4 F -> F;
  length3 : vec3 F -> F; length4 : vec4 F -> F;
  distance3 : vec3 F -> vec3 F -> F; distance4 : vec4 F -> vec4 F -> F;
  normalize : quat F -> quat F; conjugate : quat F -> quat F;
  quat_new : quat F; qmul : quat F -> quat F -> quat F; qscale : F -> quat F -> quat F;
  rotate : quat F -> vec3 F -> vec3 F; angleAxis : F -> vec3 F -> quat F;
  radians : vec3 F -> vec3 F; degrees : vec3 F -> vec3 F;
  atan : F -> F -> F; asin : F -> F; clamp : F -> F -> F -> F;
}.
#[export] Existing Instance glm_vec3.
#[export] Existing Instance glm_vec4.

#[export] Instance float_vector {F} `{Arith F} : Vector F F :=
  { vadd := fadd; vsub := fsub; vscale := fmul; vneg := fneg }.

Declare Scope motion_scope.
Notation "a + b" := (vadd a b) : motion_scope.
Notation "a - b" := (vsub a b) : motion_scope.
Notation "s * a" := (vscale s a) : motion_scope.
Notation "a / b" := (fdiv a b) : motion_scope.
Notation "§ q" := (flt q%Q) (at level 1, format "§ q") : motion_scope.

(** ** The model *)

Section inertia.
Context {F : Type} `{Floats F} `{Arith F} `{Glm F}.

Definition zero3 : vec3 F := V3 (flt 0) (flt 0) (flt 0).
Definition zero4 : vec4 F := V4 (flt 0) (flt 0) (flt 0) (flt 0).
Definition zero43 : mat4 (vec3 F) := M4 zero3 zero3 zero3 zero3.
Definition zero44 : mat4 (vec4 F) := M4 zero4 zero4 zero4 zero4.
Definition zero24 : mat2 (vec4 F) := M2 zero4 zero4.

Record position := Position {
  mPositionChangeStartTime : Z;
  mPositionHeptic : mat4 (vec3 F); mPositionCubic : mat4 (vec3 F);
  mVelocityHeptic : mat4 (vec3 F); mVelocityCubic : mat4 (vec3 F);
  mAccelerationHeptic : mat4 (vec3 F); mAccelerationCubic : mat4 (vec3 F);
  mJerkHeptic : mat4 (vec3 F); mJerkCubic : mat4 (vec3 F);
  mPositionChangeEndTime : Z; mZeroVelocityAfterEndTime : bool;
  mPositionAfterEndCubic : mat4 (vec3 F); mVelocityAfterEndCubic : mat4 (vec3 F);
}.

Record rotation := Rotation {
  mRotationChangeStartTime : Z;
  mRotationQuintic : mat2 (vec4 F); mRotationCubic : mat4 (vec4 F);
  mRotationAfterEndCubic : mat4 (vec4 F);
  mRotationalVelocityQuintic : mat2 (vec4 F); mRotationalVelocityCubic : mat4 (vec4 F);
  mRotationalAccelerationQuintic : mat2 (vec4 F); mRotationalAccelerationCubic : mat4 (vec4 F);
  mRotationChangeEndTime : Z;
}.

Record ambient_motion := AmbientMotion {
  mAmbientMotionChangeStartTime : Z; mAmbientMotionEndValue : F;
  mAmbientMotionValueQuintic : vec2 F; mAmbientMotionValueCubic : vec4 F;
  mAmbientMotionFirstDerivQuintic : vec2 F; mAmbientMotionFirstDerivCubic : vec4 F;
  mAmbientMotionSecondDerivQuintic : vec2 F; mAmbientMotionSecondDerivCubic : vec4 F;
  mAmbientMotionChangeEndTime : Z;
}.

Record InertialModel := Inertia {
  pos : position; rot : rotation; amb : ambient_motion; mWristTilt : F; mModelTimeNs : Z;
}.

Definition unit44 (r : vec4 F) : mat4 (vec4 F) := M4 zero4 zero4 zero4 r.

Definition InertialModel0 : InertialModel :=
  let one := unit44 (V4 (flt 0) (flt 0) (flt 0) (flt 1)) in
  Inertia
    (Position 0 zero43 zero43 zero43 zero43 zero43 zero43 zero43 zero43 0 true zero43 zero43)
    (Rotation 0 zero24 one one zero24 zero44 zero24 zero44 0)
    (AmbientMotion 0 (flt 0) (V2 (flt 0) (flt 0)) zero4 (V2 (flt 0) (flt 0)) zero4
       (V2 (flt 0) (flt 0)) zero4 0)
    (flt 0) 0.

#[local] Open Scope motion_scope.

Definition kMaxStateChangeTimeSeconds : F := §(1 # 2).
Definition kMinStateChangeTimeSeconds : F := §(1 # 20).
Definition kEpsilon : F := §(1 # 10000000000).

Definition fmin (a b : F) : F := if fltb b a then b else a.

(** The state of a polynomial motion: coefficients and times. *)
Definition calculateInertialState (heptic cubic afterEnd : mat4 (vec3 F)) (vt : ParameterValueType)
    (i : InertialModel) : vec3 F :=
  let requestedTimeNs :=
    match vt with TARGET => mPositionChangeEndTime (pos i) | _ => mModelTimeNs i end in
  let time1 := nsToSeconds (u64 (requestedTimeNs - mPositionChangeStartTime (pos i))%Z) in
  let time2 := time1 * time1 in
  let time3 := time2 * time1 in
  let cubicTimeVec := V4 time3 time2 time1 §1 in
  if (requestedTimeNs <? mPositionChangeEndTime (pos i))%Z then
    let time4 := time2 * time2 in
    let time5 := time2 * time3 in
    let time6 := time3 * time3 in
    let time7 := time3 * time4 in
    mul43 cubic cubicTimeVec + mul43 heptic (V4 time7 time6 time5 time4)
  else mul43 afterEnd cubicTimeVec.

Definition calculateRotationalState (quintic : mat2 (vec4 F)) (cubic afterEnd : mat4 (vec4 F))
    (vt : ParameterValueType) (i : InertialModel) : vec4 F :=
  let requestedTimeNs :=
    match vt with TARGET => mRotationChangeEndTime (rot i) | _ => mModelTimeNs i end in
  let time1 := nsToSeconds (u64 (requestedTimeNs - mRotationChangeStartTime (rot i))%Z) in
  let time2 := time1 * time1 in
  let time3 := time2 * time1 in
  let cubicTimeVec := V4 time3 time2 time1 §1 in
  if (requestedTimeNs <? mRotationChangeEndTime (rot i))%Z then
    let time4 := time2 * time2 in
    let time5 := time3 * time2 in
    mul24 quintic (V2 time5 time4) + mul44 cubic cubicTimeVec
  else mul44 afterEnd cubicTimeVec.

(** The three readings of the bound of the ambient motion. *)
Definition ambient_bounds (quintic : vec2 F) (cubic : vec4 F) (after : F)
    (vt : ParameterValueType) (i : InertialModel) : F :=
  if negb (match vt with TARGET => true | _ => false end) &&
     (mModelTimeNs i <? mAmbientMotionChangeEndTime (amb i))%Z then
    let time1 := nsToSeconds (u64 (mModelTimeNs i - mAmbientMotionChangeStartTime (amb i))%Z) in
    let time2 := time1 * time1 in
    let time3 := time2 * time1 in
    let time4 := time2 * time2 in
    let time5 := time3 * time2 in
    dot2 quintic (V2 time5 time4) + dot4 cubic (V4 time3 time2 time1 §1)
  else after.

Definition getAmbientMotionBoundsValue (vt : ParameterValueType) (i : InertialModel) : F :=
  match vt with
  | DEFAULT => §0
  | _ => ambient_bounds (mAmbientMotionValueQuintic (amb i)) (mAmbientMotionValueCubic (amb i))
           (mAmbientMotionEndValue (amb i)) vt i
  end.

Definition getAmbientMotionBoundsDeriv (vt : ParameterValueType) (i : InertialModel) : F :=
  ambient_bounds (mAmbientMotionFirstDerivQuintic (amb i)) (mAmbientMotionFirstDerivCubic (amb i))
    §0 vt i.

Definition getAmbientMotionBoundsSecondDeriv (vt : ParameterValueType) (i : InertialModel) : F :=
  ambient_bounds (mAmbientMotionSecondDerivQuintic (amb i)) (mAmbientMotionSecondDerivCubic (amb i))
    §0 vt i.

Definition kAmbientFrequencyVec : vec3 F :=
  let k := §(1 # 2) in
  §(314159265 # 100000000) * (§2 * (k * V3 §1 (§1 / fsqrt §2) (§1 / fsqrt §3))).

Definition sines (time : Z) : vec3 F :=
  let k := kAmbientFrequencyVec in V3 (fsin (x3 k) time) (fsin (y3 k) time) (fsin (z3 k) time).
Definition cosines (time : Z) : vec3 F :=
  let k := kAmbientFrequencyVec in V3 (fcos (x3 k) time) (fcos (y3 k) time) (fcos (z3 k) time).
Definition ones : vec3 F := V3 §1 §1 §1.

Definition getPosition (vt : ParameterValueType) (i : InertialModel) : vec3 F :=
  let position :=
    calculateInertialState (mPositionHeptic (pos i)) (mPositionCubic (pos i))
      (mPositionAfterEndCubic (pos i)) vt i in
  match vt with
  | DEFAULT => zero3
  | CURRENT =>
      let f := sines (mModelTimeNs i) in
      let g := getAmbientMotionBoundsValue CURRENT i * ones in
      position + mul3 f g
  | _ => position
  end.

Definition getVelocity (vt : ParameterValueType) (i : InertialModel) : vec3 F :=
  let velocity :=
    calculateInertialState (mVelocityHeptic (pos i)) (mVelocityCubic (pos i))
      (if mZeroVelocityAfterEndTime (pos i) then zero43 else mVelocityAfterEndCubic (pos i)) vt i in
  match vt with
  | DEFAULT => zero3
  | CURRENT =>
      let time := mModelTimeNs i in
      let f := sines time in
      let df := mul3 (cosines time) kAmbientFrequencyVec in
      let g := getAmbientMotionBoundsValue CURRENT i * ones in
      let dg := getAmbientMotionBoundsDeriv CURRENT i * ones in
      velocity + (mul3 f dg + mul3 df g)
  | _ => velocity
  end.

Definition getAcceleration (vt : ParameterValueType) (i : InertialModel) : vec3 F :=
  let acceleration :=
    calculateInertialState (mAccelerationHeptic (pos i)) (mAccelerationCubic (pos i)) zero43 vt i in
  match vt with
  | DEFAULT => zero3
  | CURRENT =>
      let time := mModelTimeNs i in
      let f := sines time in
      let df := mul3 (cosines time) kAmbientFrequencyVec in
      let d2f :=
        mul3 (mul3 (V3 (fneg (fsinf (x3 kAmbientFrequencyVec) time)) (fneg (y3 f)) (fneg (z3 f)))
                kAmbientFrequencyVec)
          kAmbientFrequencyVec in
      let g := getAmbientMotionBoundsValue CURRENT i * ones in
      let dg := getAmbientMotionBoundsDeriv CURRENT i * ones in
      let d2g := getAmbientMotionBoundsSecondDeriv CURRENT i * ones in
      acceleration + ((mul3 f d2g + mul3 (§2 * df) dg) + mul3 d2f g)
  | _ => acceleration
  end.

Definition getJerk (vt : ParameterValueType) (i : InertialModel) : vec3 F :=
  match vt with
  | DEFAULT => zero3
  | _ => calculateInertialState (mJerkHeptic (pos i)) (mJerkCubic (pos i)) zero43 vt i
  end.

Definition getRotation (vt : ParameterValueType) (i : InertialModel) : quat F :=
  match vt with
  | DEFAULT => quat_new
  | _ =>
      let r := calculateRotationalState (mRotationQuintic (rot i)) (mRotationCubic (rot i))
                 (mRotationAfterEndCubic (rot i)) vt i in
      normalize (Quat (w4 r) (x4 r) (y4 r) (z4 r))
  end.

Definition getRotationalVelocity (vt : ParameterValueType) (i : InertialModel) : vec3 F :=
  match vt with
  | DEFAULT => zero3
  | _ =>
      let rotationVec :=
        calculateRotationalState (mRotationQuintic (rot i)) (mRotationCubic (rot i))
          (mRotationAfterEndCubic (rot i)) vt i in
      let rotationVecLength := length4 rotationVec in
      if feqb rotationVecLength §0 then zero3
      else
        let r := (§1 / rotationVecLength) * rotationVec in
        let rotation := Quat (w4 r) (x4 r) (y4 r) (z4 r) in
        let scaledDerivative :=
          (§1 / rotationVecLength) *
          calculateRotationalState (mRotationalVelocityQuintic (rot i))
            (mRotationalVelocityCubic (rot i)) zero44 vt i in
        let d := scaledDerivative - dot4 scaledDerivative r * r in
        let rotationDerivativeQuat := Quat (w4 d) (x4 d) (y4 d) (z4 d) in
        let angularVelocity := qscale §2 (qmul rotationDerivativeQuat (conjugate rotation)) in
        V3 (qx angularVelocity) (qy angularVelocity) (qz angularVelocity)
  end.

(** ** Targets *)

Definition hepticTimes (stateChangeTime1 : F) : vec4 F :=
  let stateChangeTime2 := stateChangeTime1 * stateChangeTime1 in
  let stateChangeTime3 := stateChangeTime1 * stateChangeTime2 in
  let stateChangeTime4 := stateChangeTime2 * stateChangeTime2 in
  V4 (stateChangeTime3 * stateChangeTime4) (stateChangeTime3 * stateChangeTime3)
     (stateChangeTime2 * stateChangeTime3) stateChangeTime4.

Definition cubicTimes (stateChangeTime1 : F) : vec4 F :=
  let stateChangeTime2 := stateChangeTime1 * stateChangeTime1 in
  V4 (stateChangeTime1 * stateChangeTime2) stateChangeTime2 stateChangeTime1 §1.

Definition setInertialTransforms (heptic hexic quintic quartic cubic quadratic linear constant : vec3 F)
    (hepticTimeVec cubicTimeVec : vec4 F) (start end_ : Z) (zeroVelocity : bool) : position :=
  let ph := M4 heptic hexic quintic quartic in
  let pc := M4 cubic quadratic linear constant in
  let vh := M4 zero3 (§7 * heptic) (§6 * hexic) (§5 * quintic) in
  let vc := M4 (§4 * quartic) (§3 * cubic) (§2 * quadratic) linear in
  let ah := M4 zero3 zero3 (§42 * heptic) (§30 * hexic) in
  let ac := M4 (§20 * quintic) (§12 * quartic) (§6 * cubic) (§2 * quadratic) in
  let jh := M4 zero3 zero3 zero3 (§210 * heptic) in
  let jc := M4 (§120 * hexic) (§60 * quintic) (§24 * quartic) (§6 * cubic) in
  let endPosition := mul43 pc cubicTimeVec + mul43 ph hepticTimeVec in
  let endVelocity := mul43 vc cubicTimeVec + mul43 vh hepticTimeVec in
  Position start ph pc vh vc ah ac jh jc end_ zeroVelocity
    (M4 zero3 zero3 endVelocity (endPosition - z4 cubicTimeVec * endVelocity))
    (M4 zero3 zero3 zero3 endVelocity).

Definition with_position (p : position) (i : InertialModel) : InertialModel :=
  Inertia p (rot i) (amb i) (mWristTilt i) (mModelTimeNs i).
Definition with_rotation (r : rotation) (i : InertialModel) : InertialModel :=
  Inertia (pos i) r (amb i) (mWristTilt i) (mModelTimeNs i).

(** Between the shortest and the longest time, by the distance. *)
Definition transition_time (timeScale maxTimeScale : F) : F :=
  kMinStateChangeTimeSeconds +
  (fmin timeScale maxTimeScale / maxTimeScale) *
  (kMaxStateChangeTimeSeconds - kMinStateChangeTimeSeconds).

Definition setTargetPosition (x : vec3 F) (mode : interpolation) (i : InertialModel) : InertialModel :=
  let now := mModelTimeNs i in
  match mode with
  | STEP =>
      with_position
        (setInertialTransforms zero3 zero3 zero3 zero3 zero3 zero3 zero3 x (hepticTimes §0)
           (cubicTimes §0) now (u64 (now + secondsToNs §0)%Z) true) i
  | SMOOTH =>
      let x_init := getPosition CURRENT_NO_AMBIENT_MOTION i in
      let v_init := getVelocity CURRENT_NO_AMBIENT_MOTION i in
      let a_init := getAcceleration CURRENT_NO_AMBIENT_MOTION i in
      let j_init := getJerk CURRENT_NO_AMBIENT_MOTION i in
      let x_target := x in
      let transitionTime := transition_time (fsqrt (distance3 x_target x_init)) (fsqrt §(1 # 10)) in
      let t1 := transitionTime in
      let t2 := t1 * t1 in
      let t3 := t1 * t2 in
      let t4 := t2 * t2 in
      let t5 := t2 * t3 in
      let t6 := t3 * t3 in
      let t7 := t3 * t4 in
      let hepticTerm :=
        (§1 / (§6 * t7)) *
        ((§1 * t3) * j_init + (§12 * t2) * a_init + (§60 * t1) * v_init + §120 * x_init +
         §(-120) * x_target) in
      let hexicTerm :=
        (§1 / (§6 * t6)) *
        ((§(-4) * t3) * j_init + (§(-45) * t2) * a_init + (§(-216) * t1) * v_init +
         §(-420) * x_init + §420 * x_target) in
      let quinticTerm :=
        (§1 / (§1 * t5)) *
        ((§1 * t3) * j_init + (§10 * t2) * a_init + (§45 * t1) * v_init + §84 * x_init +
         §(-84) * x_target) in
      let quarticTerm :=
        (§1 / (§3 * t4)) *
        ((§(-2) * t3) * j_init + (§(-15) * t2) * a_init + (§(-60) * t1) * v_init +
         §(-105) * x_init + §105 * x_target) in
      with_position
        (setInertialTransforms hepticTerm hexicTerm quinticTerm quarticTerm ((§1 / §6) * j_init)
           ((§1 / §2) * a_init) v_init x_init (hepticTimes t1) (cubicTimes t1)
           now (u64 (now + secondsToNs transitionTime)%Z) true) i
  end.

Definition setTargetVelocity (v : vec3 F) (mode : interpolation) (i : InertialModel) : InertialModel :=
  let now := mModelTimeNs i in
  let x_init := getPosition CURRENT_NO_AMBIENT_MOTION i in
  let zero_after := fleb (length3 v) kEpsilon in
  match mode with
  | STEP =>
      with_position
        (setInertialTransforms zero3 zero3 zero3 zero3 zero3 zero3 v x_init (hepticTimes §0)
           (cubicTimes §0) now (u64 (now + secondsToNs §0)%Z) zero_after) i
  | SMOOTH =>
      let v_init := getVelocity CURRENT_NO_AMBIENT_MOTION i in
      let a_init := getAcceleration CURRENT_NO_AMBIENT_MOTION i in
      let j_init := getJerk CURRENT_NO_AMBIENT_MOTION i in
      let v_target := v in
      let transitionTime := transition_time (distance3 v_init v_target) §1 in
      let t1 := transitionTime in
      let t2 := t1 * t1 in
      let t3 := t1 * t2 in
      let t4 := t2 * t2 in
      let t5 := t2 * t3 in
      let hexicTerm :=
        (§1 / (§12 * t5)) *
        ((§(-1) * t2) * j_init + (§(-6) * t1) * a_init + §(-12) * v_init + §12 * v_target) in
      let quinticTerm :=
        (§1 / (§10 * t4)) *
        ((§3 * t2) * j_init + (§16 * t1) * a_init + §30 * v_init + §(-30) * v_target) in
      let quarticTerm :=
        (§1 / (§8 * t3)) *
        ((§(-3) * t2) * j_init + (§(-12) * t1) * a_init + §(-20) * v_init + §20 * v_target) in
      with_position
        (setInertialTransforms zero3 hexicTerm quinticTerm quarticTerm ((§1 / §6) * j_init)
           ((§1 / §2) * a_init) v_init x_init (hepticTimes t1) (cubicTimes t1)
           now (u64 (now + secondsToNs transitionTime)%Z) zero_after) i
  end.

(** The quintic that leaves [x] with velocity [v] and acceleration [a] and
    comes to rest at [y] after the time [t1]: its highest three terms. *)
Definition quintic_terms {V} `{Vector F V} (t1 : F) (x v a y : V) : V * V * V :=
  let t2 := t1 * t1 in
  let t3 := t1 * t2 in
  let t4 := t2 * t2 in
  let t5 := t2 * t3 in
  ((§1 / (§2 * t5)) * ((§(-1) * t2) * a + (§(-6) * t1) * v + §(-12) * x + §12 * y),
   (§1 / (§2 * t4)) * ((§3 * t2) * a + (§16 * t1) * v + §30 * x + §(-30) * y),
   (§1 / (§2 * t3)) * ((§(-3) * t2) * a + (§(-12) * t1) * v + §(-20) * x + §20 * y)).

Definition still_rotation (x : vec4 F) (start end_ : Z) : rotation :=
  Rotation start zero24 (unit44 x) (unit44 x) zero24 zero44 zero24 zero44 end_.

Definition setTargetRotation (q : quat F) (mode : interpolation) (i : InertialModel) : InertialModel :=
  let now := mModelTimeNs i in
  let r := rot i in
  let x_target := V4 (qx q) (qy q) (qz q) (qw q) in
  match mode with
  | STEP => with_rotation (still_rotation x_target now (u64 (now + secondsToNs §0)%Z)) i
  | SMOOTH =>
      let currentRotation :=
        calculateRotationalState (mRotationQuintic r) (mRotationCubic r) (mRotationAfterEndCubic r)
          CURRENT_NO_AMBIENT_MOTION i in
      let currentRotationalVelocity :=
        calculateRotationalState (mRotationalVelocityQuintic r) (mRotationalVelocityCubic r) zero44
          CURRENT_NO_AMBIENT_MOTION i in
      let currentRotationalAcceleration :=
        calculateRotationalState (mRotationalAccelerationQuintic r) (mRotationalAccelerationCubic r)
          zero44 CURRENT_NO_AMBIENT_MOTION i in
      let rotationLength := length4 currentRotation in
      if feqb rotationLength §0 then
        with_rotation
          (still_rotation x_target (mRotationChangeStartTime r) (mRotationChangeEndTime r)) i
      else
        let x_init := (§1 / rotationLength) * currentRotation in
        let scaledRotationalVelocity := (§1 / rotationLength) * currentRotationalVelocity in
        let v_init := scaledRotationalVelocity - dot4 scaledRotationalVelocity x_init * x_init in
        let scaledRotationalAcceleration := (§1 / rotationLength) * currentRotationalAcceleration in
        let a_init :=
          scaledRotationalAcceleration - dot4 scaledRotationalAcceleration x_init * x_init in
        let '(x_init, v_init) :=
          if fltb (distance4 (vneg x_init) x_target) (distance4 x_init x_target)
          then (vneg x_init, vneg v_init) else (x_init, v_init) in
        let transitionTime := transition_time (fsqrt (distance4 x_init x_target)) (fsqrt §2) in
        let '(quinticTerm, quarticTerm, cubicTerm) :=
          quintic_terms transitionTime x_init v_init a_init x_target in
        let quadraticTerm := (§1 / §2) * a_init in
        with_rotation
          (Rotation now
             (M2 quinticTerm quarticTerm) (M4 cubicTerm quadraticTerm v_init x_init)
             (unit44 x_target)
             (M2 zero4 (§5 * quinticTerm))
             (M4 (§4 * quarticTerm) (§3 * cubicTerm) (§2 * quadraticTerm) v_init)
             (M2 zero4 zero4)
             (M4 (§20 * quinticTerm) (§12 * quarticTerm) (§6 * cubicTerm) (§2 * quadraticTerm))
             (u64 (now + secondsToNs transitionTime)%Z)) i
  end.

(** A step leaves the value after the change as it was. *)
Definition setTargetAmbientMotion (bounds : F) (mode : interpolation) (i : InertialModel)
    : InertialModel :=
  let now := mModelTimeNs i in
  let with_ambient a := Inertia (pos i) (rot i) a (mWristTilt i) now in
  match mode with
  | STEP =>
      with_ambient
        (AmbientMotion now (mAmbientMotionEndValue (amb i)) (V2 §0 §0) (V4 §0 §0 §0 bounds)
           (V2 §0 §0) zero4 (V2 §0 §0) zero4 now)
  | SMOOTH =>
      let x_init := getAmbientMotionBoundsValue CURRENT i in
      let v_init := getAmbientMotionBoundsDeriv CURRENT i in
      let a_init := getAmbientMotionBoundsSecondDeriv CURRENT i in
      let t := kMaxStateChangeTimeSeconds in
      let '(quinticTerm, quarticTerm, cubicTerm) := quintic_terms t x_init v_init a_init bounds in
      let quadraticTerm := (§1 / §2) * a_init in
      with_ambient
        (AmbientMotion now bounds (V2 quinticTerm quarticTerm)
           (V4 cubicTerm quadraticTerm v_init x_init) (V2 §0 (§5 * quinticTerm))
           (V4 (§4 * quarticTerm) (§3 * cubicTerm) (§2 * quadraticTerm) v_init) (V2 §0 §0)
           (V4 (§20 * quinticTerm) (§12 * quarticTerm) (§6 * cubicTerm) (§2 * quadraticTerm))
           (u64 (now + secondsToNs t)%Z))
  end.

Definition setWristTilt (v : F) (i : InertialModel) : InertialModel :=
  Inertia (pos i) (rot i) (amb i) v (mModelTimeNs i).

(** Whether it is stable; backwards in time it jumps to its targets. *)
Definition setCurrentTime (time_ns : Z) (i : InertialModel) : bool * InertialModel :=
  let at_time j := Inertia (pos j) (rot j) (amb j) (mWristTilt j) time_ns in
  let i :=
    if (time_ns <? mModelTimeNs i)%Z then
      let targetPosition := getPosition TARGET i in
      let targetRotation := getRotation TARGET i in
      setTargetRotation targetRotation STEP (setTargetPosition targetPosition STEP (at_time i))
    else at_time i in
  (mZeroVelocityAfterEndTime (pos i) &&
   (mPositionChangeEndTime (pos i) <=? mModelTimeNs i)%Z &&
   (mRotationChangeEndTime (rot i) <=? mModelTimeNs i)%Z &&
   fltb (getAmbientMotionBoundsValue CURRENT i) kEpsilon, i).

(** ** What the physical model sees *)

Definition toGlm (v : value F) : vec3 F :=
  match v with Vec3 x y z | Vec4 x y z _ => V3 x y z | Float x => V3 x §0 §0 end.
Definition fromGlm (v : vec3 F) : value F := Vec3 (x3 v) (y3 v) (z3 v).

Definition toEulerAnglesXYZ (q : quat F) : vec3 F :=
  let '(Quat w x y z) := q in
  let '(Quat sw sx sy sz) := Quat (w * w) (x * x) (y * y) (z * z) in
  V3 (atan (§2 * (x * w - y * z)) (sw - sx - sy + sz))
     (asin (clamp (§2 * (x * z + y * w)) §(-1) §1))
     (atan (§2 * (z * w - x * y)) (sw + sx - sy - sz)).

Definition fromEulerAnglesXYZ (euler : vec3 F) : quat F :=
  let X := angleAxis (x3 euler) (V3 §1 §0 §0) in
  let Y := angleAxis (y3 euler) (V3 §0 §1 §0) in
  let Z := angleAxis (z3 euler) (V3 §0 §0 §1) in
  qmul (qmul X Y) Z.

(** A target of the physical model that is one of the motion. *)
Definition set_target (p : PhysicalParameter) (v : value F) (mode : interpolation)
    (i : InertialModel) : InertialModel :=
  match p with
  | P_POSITION => setTargetPosition (toGlm v) mode i
  | P_VELOCITY => setTargetVelocity (toGlm v) mode i
  | P_ROTATION => setTargetRotation (fromEulerAnglesXYZ (radians (toGlm v))) mode i
  | P_AMBIENT_MOTION => setTargetAmbientMotion (vx v) mode i
  | P_WRIST_TILT => setWristTilt (vx v) i
  | _ => i
  end.

Definition get_parameter (vt : ParameterValueType) (p : PhysicalParameter) (i : InertialModel)
    : value F :=
  match p with
  | P_POSITION => fromGlm (getPosition vt i)
  | P_VELOCITY => fromGlm (getVelocity vt i)
  | P_ROTATION => fromGlm (degrees (toEulerAnglesXYZ (getRotation vt i)))
  | P_AMBIENT_MOTION => Float (getAmbientMotionBoundsValue vt i)
  | P_WRIST_TILT => Float (mWristTilt i)
  | _ => fromGlm (getAcceleration vt i)
  end.

Definition getPhysicalAccelerometer (i : InertialModel) (gravity : value F) : value F :=
  fromGlm (rotate (conjugate (getRotation CURRENT i)) (getAcceleration CURRENT i - toGlm gravity)).
Definition getPhysicalGyroscope (i : InertialModel) : value F :=
  fromGlm (rotate (conjugate (getRotation CURRENT i)) (getRotationalVelocity CURRENT i)).
Definition getPhysicalMagnetometer (i : InertialModel) (field : value F) : value F :=
  fromGlm (rotate (conjugate (getRotation CURRENT i)) (toGlm field)).
Definition getPhysicalOrientation (i : InertialModel) : value F :=
  fromGlm (toEulerAnglesXYZ (getRotation CURRENT i)).

(** No ambient motion was ever asked for, and a finished rotation does not
    depend on the time. *)
Definition quiet (i : InertialModel) : Prop :=
  (0 <= mModelTimeNs i < 2 ^ 64)%Z /\ amb i = amb InertialModel0 /\
  (exists r, mRotationAfterEndCubic (rot i) = unit44 r).

Definition settled (i : InertialModel) : Prop :=
  mZeroVelocityAfterEndTime (pos i) = true /\
  (mPositionChangeEndTime (pos i) <= mModelTimeNs i)%Z /\
  (mRotationChangeEndTime (rot i) <= mModelTimeNs i)%Z.

#[export] Instance device_inertial : Inertial InertialModel F := {
  in_setCurrentTime t := setCurrentTime (u64 t);
  in_setTarget := set_target;
  in_now := mModelTimeNs;
  in_accelerometer := getPhysicalAccelerometer;
  in_gyroscope := getPhysicalGyroscope;
  in_magnetometer := getPhysicalMagnetometer;
  in_orientation := getPhysicalOrientation;
  in_wristTilt := mWristTilt;
  in_getParameter := get_parameter;
  in_quiet := quiet;
  in_settled := settled;
}.

End inertia.
