(* ===== verification/Motion.v ===== *)
(** * The curves of the motion

    The definitions of [Inertia.v] on exact real numbers, where a curve can be
    said to meet its conditions: instances of the arithmetic, what glm says of
    its operators, the curves by their coordinates and their derivatives, and
    the theorems about a change of position or of velocity. *)

From Stdlib Require Import Reals QArith Lra.
From S2P Require Import Prelude Physics Inertia.

#[local] Open Scope Z_scope.

(** ** Exact arithmetic *)

#[export] Instance exact_floats : Floats R := Q2R.

#[export] Instance exact_arith : Arith R := {
  fadd := Rplus; fsub := Rminus; fmul := Rmult; fdiv := Rdiv; fneg := Ropp; fsqrt := sqrt;
  fltb a b := if Rlt_dec a b then true else false;
  fleb a b := if Rle_dec a b then true else false;
  feqb a b := if Req_dec_T a b then true else false;
  fsin k t := sin (k * (IZR t / 1000000000)); fsinf k t := sin (k * (IZR t / 1000000000));
  fcos k t := cos (k * (IZR t / 1000000000));
  secondsToNs s := Int_part (s * 1000000000);
  nsToSeconds n := (IZR n / 1000000000)%R;
}.

Inductive axis := AX | AY | AZ | AW.

Definition at3 (k : axis) (v : vec3 R) : R :=
  match k with AX => x3 v | AY => y3 v | AZ => z3 v | AW => 0%R end.
Definition at4 (k : axis) (v : vec4 R) : R :=
  match k with AX => x4 v | AY => y4 v | AZ => z4 v | AW => w4 v end.

(** What glm says of its operators: they act on the components, a matrix
    times a vector combines its columns, and distances are not negative. *)
Class GlmLaws `{Glm R} := {
  at3_add k a b : at3 k (vadd a b) = (at3 k a + at3 k b)%R;
  at3_sub k a b : at3 k (vsub a b) = (at3 k a - at3 k b)%R;
  at3_scale k s a : at3 k (vscale s a) = (s * at3 k a)%R;
  at3_mul k a b : at3 k (mul3 a b) = (at3 k a * at3 k b)%R;
  at4_add k a b : at4 k (vadd a b) = (at4 k a + at4 k b)%R;
  at4_sub k a b : at4 k (vsub a b) = (at4 k a - at4 k b)%R;
  at4_scale k s a : at4 k (vscale s a) = (s * at4 k a)%R;
  at4_neg k a : at4 k (vneg a) = (- at4 k a)%R;
  at3_mul43 k m v :
    at3 k (mul43 m v) =
    (at3 k (c0 m) * x4 v + at3 k (c1 m) * y4 v + at3 k (c2 m) * z4 v + at3 k (c3 m) * w4 v)%R;
  at4_mul44 k m v :
    at4 k (mul44 m v) =
    (at4 k (c0 m) * x4 v + at4 k (c1 m) * y4 v + at4 k (c2 m) * z4 v + at4 k (c3 m) * w4 v)%R;
  at4_mul24 k m v : at4 k (mul24 m v) = (at4 k (d0 m) * x2 v + at4 k (d1 m) * y2 v)%R;
  dot2_spec a b : dot2 a b = (x2 a * x2 b + y2 a * y2 b)%R;
  dot4_spec a b : dot4 a b = (x4 a * x4 b + y4 a * y4 b + z4 a * z4 b + w4 a * w4 b)%R;
  distance3_nonneg a b : (0 <= distance3 a b)%R;
  distance4_nonneg a b : (0 <= distance4 a b)%R;
  length3_zero : length3 (V3 0 0 0)%R = 0%R;
  qmul_zero q : qmul (Quat 0 0 0 0)%R q = (Quat 0 0 0 0)%R;
  qscale_zero s : qscale s (Quat 0 0 0 0)%R = (Quat 0 0 0 0)%R;
}.

Create Rewrite HintDb glm.
#[export] Hint Rewrite @at3_add @at3_sub @at3_scale @at3_mul @at4_add @at4_sub @at4_scale @at4_neg
  @at3_mul43 @at4_mul44 @at4_mul24 @dot2_spec @dot4_spec using typeclasses eauto : glm.

Lemma at3_ext a b : (forall k, at3 k a = at3 k b) -> a = b.
Proof.
  intros E. pose proof (E AX). pose proof (E AY). pose proof (E AZ).
  destruct a, b; cbn in *. by subst.
Qed.

Lemma at4_ext a b : (forall k, at4 k a = at4 k b) -> a = b.
Proof.
  intros E. pose proof (E AX). pose proof (E AY). pose proof (E AZ). pose proof (E AW).
  destruct a, b; cbn in *. by subst.
Qed.

Lemma flt_exact q : flt q = (IZR (Qnum q) / IZR (Zpos (Qden q)))%R.
Proof. reflexivity. Qed.

Lemma at3_zero k : at3 k zero3 = 0%R.
Proof. destruct k; cbn; rewrite ?flt_exact; cbn; lra. Qed.

Lemma at4_zero k : at4 k zero4 = 0%R.
Proof. destruct k; cbn; rewrite flt_exact; cbn; lra. Qed.

#[export] Hint Rewrite at3_zero at4_zero : glm.

(** Down to real numbers. *)
Ltac coordinates :=
  repeat progress
    (autorewrite with glm;
     cbn [c0 c1 c2 c3 d0 d1 x4 y4 z4 w4 x2 y2 vadd vsub vscale vneg float_vector
          fadd fsub fmul fdiv fneg exact_arith]);
  rewrite ?flt_exact; cbn [Qnum Qden].

Section exact.
Context `{Glm R} `{!GlmLaws}.

#[local] Open Scope R_scope.
Implicit Types (i j : InertialModel (F := R)).

(** The curve of coefficients, as it is evaluated. *)
Definition curve (heptic cubic : mat4 (vec3 R)) (t : R) : vec3 R :=
  vadd (mul43 cubic (cubicTimes t)) (mul43 heptic (hepticTimes t)).

Lemma at3_curve k h c t :
  at3 k (curve h c t) =
  at3 k (c0 h) * t ^ 7 + at3 k (c1 h) * t ^ 6 + at3 k (c2 h) * t ^ 5 + at3 k (c3 h) * t ^ 4 +
  at3 k (c0 c) * t ^ 3 + at3 k (c1 c) * t ^ 2 + at3 k (c2 c) * t + at3 k (c3 c).
Proof. unfold curve, cubicTimes, hepticTimes. coordinates. field. Qed.

Definition seconds (d : Z) : R := IZR d / 1000000000.

Lemma calculateInertialState_during h c a vt i d :
  let req := match vt with TARGET => mPositionChangeEndTime (pos i) | _ => mModelTimeNs i end in
  (req - mPositionChangeStartTime (pos i) = d)%Z -> in_u 64 d ->
  (req < mPositionChangeEndTime (pos i))%Z ->
  calculateInertialState h c a vt i = curve h c (seconds d).
Proof.
  intros req Ed Hd He. unfold calculateInertialState. fold req.
  rewrite (proj2 (Z.ltb_lt _ _) He). rewrite Ed, wrap_small by done.
  apply at3_ext. intros k. rewrite at3_curve. change (nsToSeconds d) with (seconds d).
  coordinates. field.
Qed.

Lemma calculateInertialState_after h c a vt i d :
  let req := match vt with TARGET => mPositionChangeEndTime (pos i) | _ => mModelTimeNs i end in
  (req - mPositionChangeStartTime (pos i) = d)%Z -> in_u 64 d ->
  (mPositionChangeEndTime (pos i) <= req)%Z ->
  calculateInertialState h c a vt i = curve zero43 a (seconds d).
Proof.
  intros req Ed Hd He. unfold calculateInertialState. fold req.
  rewrite (proj2 (Z.ltb_ge _ _) He). rewrite Ed, wrap_small by done.
  apply at3_ext. intros k. rewrite at3_curve. change (nsToSeconds d) with (seconds d).
  unfold zero43. coordinates. field.
Qed.

Lemma seconds_0 : seconds 0 = 0.
Proof. unfold seconds. lra. Qed.


(** ** Curves and their derivatives *)

Definition transforms (heptic hexic quintic quartic cubic quadratic linear constant : vec3 R) (T : R)
    (start end_ : Z) (z : bool) : position :=
  setInertialTransforms heptic hexic quintic quartic cubic quadratic linear constant
    (hepticTimes T) (cubicTimes T) start end_ z.

Definition position_at (p : position) : R -> vec3 R := curve (mPositionHeptic p) (mPositionCubic p).
Definition velocity_at (p : position) : R -> vec3 R := curve (mVelocityHeptic p) (mVelocityCubic p).
Definition acceleration_at (p : position) : R -> vec3 R :=
  curve (mAccelerationHeptic p) (mAccelerationCubic p).
Definition jerk_at (p : position) : R -> vec3 R := curve (mJerkHeptic p) (mJerkCubic p).

(** Each curve is the derivative of the one before. *)
Definition derivatives (p : position) : Prop :=
  forall k t,
    derivable_pt_lim (fun t => at3 k (position_at p t)) t (at3 k (velocity_at p t)) /\
    derivable_pt_lim (fun t => at3 k (velocity_at p t)) t (at3 k (acceleration_at p t)) /\
    derivable_pt_lim (fun t => at3 k (acceleration_at p t)) t (at3 k (jerk_at p t)).

Lemma derivable_pt_lim_eq f g t a b :
  (forall t, f t = g t) -> a = b -> derivable_pt_lim g t b -> derivable_pt_lim f t a.
Proof.
  intros E -> Hg eps He. destruct (Hg eps He) as [delta Hd]. exists delta. intros h Hh Hlt.
  rewrite !E. by apply Hd.
Qed.

Lemma derivable_monomial a n t :
  derivable_pt_lim (fun t => a * t ^ n) t (a * (INR n * t ^ pred n)).
Proof. apply (derivable_pt_lim_scal (fun t => t ^ n)), derivable_pt_lim_pow. Qed.

(** The derivative of a polynomial by its list of coefficients. *)
Fixpoint polynomial (cs : list R) (n : nat) (t : R) : R :=
  match cs with [] => 0 | c :: cs => c * t ^ n + polynomial cs (S n) t end.
Fixpoint polynomial' (cs : list R) (n : nat) (t : R) : R :=
  match cs with [] => 0 | c :: cs => c * (INR n * t ^ pred n) + polynomial' cs (S n) t end.

Lemma derivable_polynomial cs t : forall n, derivable_pt_lim (polynomial cs n) t (polynomial' cs n t).
Proof.
  induction cs as [|c cs IH]; intros n; cbn [polynomial polynomial'].
  - apply derivable_pt_lim_const.
  - exact (derivable_pt_lim_plus (fun t => c * t ^ n) (polynomial cs (S n)) t _ _
             (derivable_monomial c n t) (IH (S n))).
Qed.

Lemma derivable_curve k h c h' c' t :
  at3 k (c0 h') = 0 -> at3 k (c1 h') = 7 * at3 k (c0 h) -> at3 k (c2 h') = 6 * at3 k (c1 h) ->
  at3 k (c3 h') = 5 * at3 k (c2 h) -> at3 k (c0 c') = 4 * at3 k (c3 h) ->
  at3 k (c1 c') = 3 * at3 k (c0 c) -> at3 k (c2 c') = 2 * at3 k (c1 c) -> at3 k (c3 c') = at3 k (c2 c) ->
  derivable_pt_lim (fun t => at3 k (curve h c t)) t (at3 k (curve h' c' t)).
Proof.
  intros E0 E1 E2 E3 E4 E5 E6 E7.
  set (cs := [at3 k (c3 c); at3 k (c2 c); at3 k (c1 c); at3 k (c0 c); at3 k (c3 h); at3 k (c2 h);
              at3 k (c1 h); at3 k (c0 h)]).
  apply (derivable_pt_lim_eq _ (polynomial cs 0) t _ (polynomial' cs 0 t)).
  - intros u. rewrite at3_curve. unfold cs. cbn [polynomial]. ring.
  - rewrite at3_curve, E0, E1, E2, E3, E4, E5, E6, E7. unfold cs. cbn [polynomial' pred].
    cbn [INR]. ring.
  - apply derivable_polynomial.
Qed.

Lemma transforms_derivatives h1 h2 h3 h4 h5 h6 h7 h8 T s e z :
  derivatives (transforms h1 h2 h3 h4 h5 h6 h7 h8 T s e z).
Proof.
  intros k t. split; [|split]; apply derivable_curve;
    cbn [transforms setInertialTransforms mPositionHeptic mPositionCubic mVelocityHeptic mVelocityCubic
         mAccelerationHeptic mAccelerationCubic mJerkHeptic mJerkCubic c0 c1 c2 c3];
    coordinates; field.
Qed.

(** The projections of a set of transforms. *)
Ltac transforms_fields :=
  cbn [transforms setInertialTransforms mPositionHeptic mPositionCubic mVelocityHeptic mVelocityCubic
       mAccelerationHeptic mAccelerationCubic mJerkHeptic mJerkCubic mPositionAfterEndCubic
       mVelocityAfterEndCubic c0 c1 c2 c3].

Lemma transforms_start h1 h2 h3 h4 h5 h6 h7 h8 T s e z k :
  let p := transforms h1 h2 h3 h4 h5 h6 h7 h8 T s e z in
  at3 k (position_at p 0) = at3 k h8 /\ at3 k (velocity_at p 0) = at3 k h7 /\
  at3 k (acceleration_at p 0) = 2 * at3 k h6 /\ at3 k (jerk_at p 0) = 6 * at3 k h5.
Proof.
  intros p. unfold p, position_at, velocity_at, acceleration_at, jerk_at. rewrite !at3_curve.
  transforms_fields. coordinates. split; [|split; [|split]]; field.
Qed.

(** After its end a curve goes on in a straight line. *)
Lemma transforms_after h1 h2 h3 h4 h5 h6 h7 h8 T s e z k t :
  let p := transforms h1 h2 h3 h4 h5 h6 h7 h8 T s e z in
  at3 k (curve zero43 (mPositionAfterEndCubic p) t) =
    at3 k (position_at p T) + (t - T) * at3 k (velocity_at p T) /\
  at3 k (curve zero43 (mVelocityAfterEndCubic p) t) = at3 k (velocity_at p T).
Proof.
  intros p. unfold p, position_at, velocity_at. rewrite !at3_curve. transforms_fields.
  unfold zero43, hepticTimes, cubicTimes. coordinates. split; field.
Qed.

Lemma curve_zero t : curve zero43 zero43 t = zero3.
Proof. apply at3_ext. intros k. rewrite at3_curve. unfold zero43. coordinates. field. Qed.

Lemma fmin_exact a b : fmin a b = Rmin a b.
Proof.
  unfold fmin. cbn. unfold Rmin. destruct (Rlt_dec b a), (Rle_dec a b); try reflexivity; lra.
Qed.

Lemma transition_time_range ts mx : 0 <= ts -> 0 < mx -> 1 / 20 <= transition_time ts mx <= 1 / 2.
Proof.
  intros Hts Hmx. unfold transition_time, kMinStateChangeTimeSeconds, kMaxStateChangeTimeSeconds.
  rewrite fmin_exact. coordinates. assert (0 <= Rmin ts mx / mx <= 1) as Hq.
  { split.
    - apply Rmult_le_pos; [apply Rmin_glb; lra|]. by apply Rlt_le, Rinv_0_lt_compat.
    - apply (Rmult_le_reg_r mx); [done|]. replace (Rmin ts mx / mx * mx) with (Rmin ts mx) by (field; lra).
      pose proof (Rmin_r ts mx). lra. }
  set (q := Rmin ts mx / mx) in *. lra.
Qed.

(** A time between 50 and 500 milliseconds, in whole nanoseconds. *)
Lemma secondsToNs_range T : 1 / 20 <= T <= 1 / 2 -> (50000000 <= secondsToNs T <= 500000000)%Z.
Proof.
  intros HT. cbn. destruct (base_Int_part (T * 1000000000)) as [H1 H2].
  set (n := Int_part (T * 1000000000)) in *. split.
  - assert (49999999 < n)%Z by (apply lt_IZR; lra). lia.
  - apply le_IZR. lra.
Qed.

Lemma secondsToNs_0 : secondsToNs (flt 0) = 0%Z.
Proof.
  rewrite flt_exact. cbn. replace (0 / 1 * 1000000000) with 0 by field.
  pose proof (base_Int_part 0) as [H1 H2]. assert (-1 < Int_part 0)%Z by (apply lt_IZR; lra).
  apply le_IZR in H1. lia.
Qed.

(** ** Setting a position *)

Definition position_time (x : vec3 R) (i : InertialModel) : R :=
  transition_time (fsqrt (distance3 x (getPosition CURRENT_NO_AMBIENT_MOTION i))) (fsqrt (flt (1 # 10))).

Lemma position_time_range x i : 1 / 20 <= position_time x i <= 1 / 2.
Proof.
  apply transition_time_range; [apply sqrt_pos|]. cbn. apply sqrt_lt_R0. rewrite flt_exact. cbn. lra.
Qed.

(** The transforms of a smooth change of position, by what they do. *)
Lemma setTargetPosition_curve x i :
  let now := mModelTimeNs i in
  let T := position_time x i in
  let p := pos (setTargetPosition x SMOOTH i) in
  (exists h1 h2 h3 h4 h5 h6 h7 h8,
     p = transforms h1 h2 h3 h4 h5 h6 h7 h8 T now (u64 (now + secondsToNs T)) true) /\
  (position_at p 0 = getPosition CURRENT_NO_AMBIENT_MOTION i /\
   velocity_at p 0 = getVelocity CURRENT_NO_AMBIENT_MOTION i /\
   acceleration_at p 0 = getAcceleration CURRENT_NO_AMBIENT_MOTION i /\
   jerk_at p 0 = getJerk CURRENT_NO_AMBIENT_MOTION i) /\
  (position_at p T = x /\ velocity_at p T = zero3 /\ acceleration_at p T = zero3 /\ jerk_at p T = zero3).
Proof.
  intros now T p. pose proof (position_time_range x i) as HT. fold T in HT.
  split; [by repeat eexists|]. unfold p, setTargetPosition.
  fold (position_time x i). fold T. cbn zeta. cbn [pos with_position].
  set (x0 := getPosition _ i). set (v0 := getVelocity _ i). set (a0 := getAcceleration _ i).
  set (j0 := getJerk _ i).
  unfold position_at, velocity_at, acceleration_at, jerk_at. split.
  - split_and!; apply at3_ext; intros k; rewrite at3_curve; transforms_fields; coordinates; field; lra.
  - split_and!; apply at3_ext; intros k; rewrite at3_curve; transforms_fields; coordinates; field; lra.
Qed.

(** A later time only moves the clock. *)
Lemma setCurrentTime_later t i :
  (mModelTimeNs i <= t)%Z ->
  (setCurrentTime t i).2 = Inertia (pos i) (rot i) (amb i) (mWristTilt i) t.
Proof. intros Ht. unfold setCurrentTime. by rewrite (proj2 (Z.ltb_ge _ _) Ht). Qed.

Lemma getPosition_no_ambient i :
  getPosition CURRENT_NO_AMBIENT_MOTION i =
    calculateInertialState (mPositionHeptic (pos i)) (mPositionCubic (pos i))
      (mPositionAfterEndCubic (pos i)) CURRENT_NO_AMBIENT_MOTION i.
Proof. reflexivity. Qed.

(** What is read of a motion with given transforms while it lasts and after
    its end. *)
Lemma transforms_read i j h1 h2 h3 h4 h5 h6 h7 h8 T n z :
  let p := transforms h1 h2 h3 h4 h5 h6 h7 h8 T (mModelTimeNs i) (mModelTimeNs i + n) z in
  let now := mModelTimeNs i in
  pos j = p -> (0 <= now <= mModelTimeNs j)%Z -> in_u 64 (mModelTimeNs j) ->
  let s := seconds (mModelTimeNs j - now) in
  if (mModelTimeNs j <? now + n)%Z then
    getPosition CURRENT_NO_AMBIENT_MOTION j = position_at p s /\
    getVelocity CURRENT_NO_AMBIENT_MOTION j = velocity_at p s /\
    getAcceleration CURRENT_NO_AMBIENT_MOTION j = acceleration_at p s /\
    getJerk CURRENT_NO_AMBIENT_MOTION j = jerk_at p s
  else
    getPosition CURRENT_NO_AMBIENT_MOTION j = vadd (position_at p T) (vscale (s - T) (velocity_at p T)) /\
    getVelocity CURRENT_NO_AMBIENT_MOTION j = (if z then zero3 else velocity_at p T) /\
    getAcceleration CURRENT_NO_AMBIENT_MOTION j = zero3 /\
    getJerk CURRENT_NO_AMBIENT_MOTION j = zero3.
Proof.
  intros p now Hp Hnow Hj s. unfold getPosition, getVelocity, getAcceleration, getJerk. rewrite Hp.
  assert (in_u 64 (mModelTimeNs j - now)) as Hd by (unfold in_u in *; lia).
  destruct (Z.ltb_spec (mModelTimeNs j) (now + n)).
  - split_and!; by rewrite (calculateInertialState_during _ _ _ CURRENT_NO_AMBIENT_MOTION j
      (mModelTimeNs j - now)); try done; rewrite ?Hp.
  - split_and!; rewrite (calculateInertialState_after _ _ _ CURRENT_NO_AMBIENT_MOTION j
      (mModelTimeNs j - now)); try done; rewrite ?Hp; try done; fold s.
    + apply at3_ext. intros k. coordinates.
      exact (proj1 (transforms_after h1 h2 h3 h4 h5 h6 h7 h8 T now (now + n) z k s)).
    + change (mZeroVelocityAfterEndTime p) with z. destruct z; [apply curve_zero|].
      apply at3_ext. intros k.
      exact (proj2 (transforms_after h1 h2 h3 h4 h5 h6 h7 h8 T now (now + n) false k s)).
    + apply curve_zero.
    + apply curve_zero.
Qed.

(** The same for the target and for the velocity. *)
Definition velocity_time (v : vec3 R) i : R :=
  transition_time (distance3 (getVelocity CURRENT_NO_AMBIENT_MOTION i) v) (flt 1).

Lemma velocity_time_range v i : 1 / 20 <= velocity_time v i <= 1 / 2.
Proof. apply transition_time_range; [apply distance3_nonneg|]. rewrite flt_exact. cbn. lra. Qed.

Lemma setTargetVelocity_curve v i :
  let now := mModelTimeNs i in
  let T := velocity_time v i in
  let p := pos (setTargetVelocity v SMOOTH i) in
  (exists h1 h2 h3 h4 h5 h6 h7 h8,
     p = transforms h1 h2 h3 h4 h5 h6 h7 h8 T now (u64 (now + secondsToNs T)) (fleb (length3 v) kEpsilon)) /\
  (position_at p 0 = getPosition CURRENT_NO_AMBIENT_MOTION i /\
   velocity_at p 0 = getVelocity CURRENT_NO_AMBIENT_MOTION i /\
   acceleration_at p 0 = getAcceleration CURRENT_NO_AMBIENT_MOTION i /\
   jerk_at p 0 = getJerk CURRENT_NO_AMBIENT_MOTION i) /\
  (velocity_at p T = v /\ acceleration_at p T = zero3 /\ jerk_at p T = zero3).
Proof.
  intros now T p. pose proof (velocity_time_range v i) as HT. fold T in HT.
  split; [by repeat eexists|]. unfold p, setTargetVelocity.
  fold (velocity_time v i). fold T. cbn zeta. cbn [pos with_position].
  set (x0 := getPosition _ i). set (v0 := getVelocity _ i). set (a0 := getAcceleration _ i).
  set (j0 := getJerk _ i).
  unfold position_at, velocity_at, acceleration_at, jerk_at. split.
  - split_and!; apply at3_ext; intros k; rewrite at3_curve; transforms_fields; coordinates; field; lra.
  - split_and!; apply at3_ext; intros k; rewrite at3_curve; transforms_fields; coordinates; field; lra.
Qed.

(** Times small enough that no end of a motion overflows. *)
Definition clock_ok i : Prop := (0 <= mModelTimeNs i < 2 ^ 64 - 500000000)%Z.

Lemma end_small i T :
  clock_ok i -> 1 / 20 <= T <= 1 / 2 ->
  (u64 (mModelTimeNs i + secondsToNs T) = mModelTimeNs i + secondsToNs T)%Z.
Proof.
  intros Hi HT. pose proof (secondsToNs_range T HT). apply wrap_small.
  unfold clock_ok, in_u in *. lia.
Qed.

(** What is read at the time [t] after a target was set in [i]. *)
Definition read_motion (j : InertialModel (F := R)) : vec3 R * vec3 R * vec3 R * vec3 R :=
  (getPosition CURRENT_NO_AMBIENT_MOTION j, getVelocity CURRENT_NO_AMBIENT_MOTION j,
   getAcceleration CURRENT_NO_AMBIENT_MOTION j, getJerk CURRENT_NO_AMBIENT_MOTION j).

Definition motion_at (p : position) (s : R) : vec3 R * vec3 R * vec3 R * vec3 R :=
  (position_at p s, velocity_at p s, acceleration_at p s, jerk_at p s).

Lemma pos_later t i : (mModelTimeNs i <= t)%Z -> pos (setCurrentTime t i).2 = pos i.
Proof. intros Ht. by rewrite setCurrentTime_later. Qed.

Lemma now_later t i : (mModelTimeNs i <= t)%Z -> mModelTimeNs (setCurrentTime t i).2 = t.
Proof. intros Ht. by rewrite setCurrentTime_later. Qed.

Lemma getPosition_target i h1 h2 h3 h4 h5 h6 h7 h8 T n z :
  pos i = transforms h1 h2 h3 h4 h5 h6 h7 h8 T (mModelTimeNs i) (mModelTimeNs i + n) z -> in_u 64 n ->
  getPosition TARGET i =
    vadd (position_at (pos i) T) (vscale (seconds n - T) (velocity_at (pos i) T)).
Proof.
  intros Hp Hn. unfold getPosition.
  rewrite (calculateInertialState_after _ _ _ TARGET i n);
    [|rewrite Hp; transforms_fields; cbn; lia|done|lia].
  apply at3_ext. intros k. coordinates. rewrite Hp.
  exact (proj1 (transforms_after h1 h2 h3 h4 h5 h6 h7 h8 T _ _ z k (seconds n))).
Qed.

Lemma smooth_read i (i' : InertialModel) h1 h2 h3 h4 h5 h6 h7 h8 T n z :
  let now := mModelTimeNs i in
  let p := pos i' in
  p = transforms h1 h2 h3 h4 h5 h6 h7 h8 T now (now + n) z -> mModelTimeNs i' = now ->
  (0 <= now)%Z -> (0 <= n)%Z ->
  (forall t, (now <= t < now + n)%Z -> (t < 2 ^ 64)%Z ->
     read_motion (setCurrentTime t i').2 = motion_at p (seconds (t - now))) /\
  (forall t, (now + n <= t < 2 ^ 64)%Z ->
     read_motion (setCurrentTime t i').2 =
       (vadd (position_at p T) (vscale (seconds (t - now) - T) (velocity_at p T)),
        if z then zero3 else velocity_at p T, zero3, zero3)).
Proof.
  intros now p Hp Hnow H0' Hn.
  assert (forall t, (now <= t < 2 ^ 64)%Z -> let j := (setCurrentTime t i').2 in
    pos j = transforms h1 h2 h3 h4 h5 h6 h7 h8 T now (now + n) z /\
    (0 <= now <= mModelTimeNs j)%Z /\ in_u 64 (mModelTimeNs j) /\ mModelTimeNs j = t) as Hj.
  { intros t Ht j. unfold j. rewrite pos_later, now_later by (rewrite Hnow; lia).
    split; [exact Hp|]. unfold in_u. lia. }
  split; intros t Ht; [intros Ht'|]; destruct (Hj t ltac:(lia)) as (Hpj & H1 & H2 & H3);
    pose proof (transforms_read i _ h1 h2 h3 h4 h5 h6 h7 h8 T _ z Hpj H1 H2) as Hr; cbv zeta in Hr;
    rewrite H3 in Hr; fold now in Hr.
  - rewrite (proj2 (Z.ltb_lt _ _)), <- Hp in Hr by lia. destruct Hr as (R1 & R2 & R3 & R4).
    unfold read_motion, motion_at. by rewrite R1, R2, R3, R4.
  - rewrite (proj2 (Z.ltb_ge _ _)), <- Hp in Hr by lia. destruct Hr as (R1 & R2 & R3 & R4).
    unfold read_motion. by rewrite R1, R2, R3, R4.
Qed.

End exact.

(** ** Properties *)

(** A smooth change of position, in exact arithmetic: it takes between 50 and
    500 milliseconds; position, velocity, acceleration and jerk go on from what
    they were, each the derivative of the one before; at the end the device is
    at the target with no velocity, acceleration or jerk, and from then on it
    stays there; the target position is the one that was set. *)
Theorem position_reaches `{Glm R} `{!GlmLaws} (x : vec3 R) (i : InertialModel) :
  clock_ok i ->
  let i' := setTargetPosition x SMOOTH i in
  let now := mModelTimeNs i in
  let e := mPositionChangeEndTime (pos i') in
  let T := position_time x i in
  (now + 50000000 <= e <= now + 500000000)%Z /\ e = (now + secondsToNs T)%Z /\
  derivatives (pos i') /\
  motion_at (pos i') 0 = read_motion i /\ motion_at (pos i') T = (x, zero3, zero3, zero3) /\
  (forall t, (now <= t < e)%Z ->
     read_motion (setCurrentTime t i').2 = motion_at (pos i') (seconds (t - now))) /\
  (forall t, (e <= t < 2 ^ 64)%Z -> read_motion (setCurrentTime t i').2 = (x, zero3, zero3, zero3)) /\
  getPosition TARGET i' = x.
Proof.
  intros Hi i' now e T. pose proof (position_time_range x i) as HT. fold T in HT.
  pose proof (secondsToNs_range T HT) as Hn. pose proof (end_small i T Hi HT) as He.
  destruct (setTargetPosition_curve x i) as ((h1 & h2 & h3 & h4 & h5 & h6 & h7 & h8 & Hp) &
    (S1 & S2 & S3 & S4) & E1 & E2 & E3 & E4).
  fold i' T in Hp, S1, S2, S3, S4, E1, E2, E3, E4. rewrite He in Hp. unfold clock_ok in Hi. fold now in Hi, Hp.
  assert (e = (now + secondsToNs T)%Z) as Ee by (unfold e; by rewrite Hp).
  assert (forall s, vadd (position_at (pos i') T) (vscale s (velocity_at (pos i') T)) = x) as Hx.
  { intros s. rewrite E1, E2. apply at3_ext. intros k. coordinates. ring. }
  destruct (smooth_read i i' _ _ _ _ _ _ _ _ T _ true Hp eq_refl ltac:(lia) ltac:(lia)) as [Hduring Hafter].
  fold now in Hduring, Hafter. rewrite <- Ee in Hduring, Hafter.
  split; [lia|]. split; [done|]. split; [rewrite Hp; apply transforms_derivatives|].
  split; [unfold motion_at, read_motion; by rewrite S1, S2, S3, S4|].
  split; [unfold motion_at; by rewrite E1, E2, E3, E4|]. split; [|split].
  - intros t Ht. apply Hduring; lia.
  - intros t Ht. by rewrite Hafter, Hx.
  - rewrite (getPosition_target i' _ _ _ _ _ _ _ _ T _ true Hp); [apply Hx|]. unfold in_u. lia.
Qed.

(** A smooth change of velocity, in exact arithmetic: it too takes between 50
    and 500 milliseconds and goes on from the present motion, each curve the
    derivative of the one before; at the end the device has the velocity that
    was set and no acceleration or jerk, and from then on it moves in a straight
    line at that velocity; a velocity that counts as none is read as zero. *)
Theorem velocity_reaches `{Glm R} `{!GlmLaws} (v : vec3 R) (i : InertialModel) :
  clock_ok i ->
  let i' := setTargetVelocity v SMOOTH i in
  let now := mModelTimeNs i in
  let e := mPositionChangeEndTime (pos i') in
  let T := velocity_time v i in
  (now + 50000000 <= e <= now + 500000000)%Z /\ e = (now + secondsToNs T)%Z /\
  derivatives (pos i') /\
  motion_at (pos i') 0 = read_motion i /\
  motion_at (pos i') T = (position_at (pos i') T, v, zero3, zero3) /\
  (forall t, (now <= t < e)%Z ->
     read_motion (setCurrentTime t i').2 = motion_at (pos i') (seconds (t - now))) /\
  (forall t, (e <= t < 2 ^ 64)%Z ->
     read_motion (setCurrentTime t i').2 =
       (vadd (position_at (pos i') T) (vscale (seconds (t - now) - T)%R v),
        if fleb (length3 v) kEpsilon then zero3 else v, zero3, zero3)).
Proof.
  intros Hi i' now e T. pose proof (velocity_time_range v i) as HT. fold T in HT.
  pose proof (secondsToNs_range T HT) as Hn. pose proof (end_small i T Hi HT) as He.
  destruct (setTargetVelocity_curve v i) as ((h1 & h2 & h3 & h4 & h5 & h6 & h7 & h8 & Hp) &
    (S1 & S2 & S3 & S4) & E2 & E3 & E4).
  fold i' T in Hp, S1, S2, S3, S4, E2, E3, E4. rewrite He in Hp. unfold clock_ok in Hi. fold now in Hi, Hp.
  assert (e = (now + secondsToNs T)%Z) as Ee by (unfold e; by rewrite Hp).
  destruct (smooth_read i i' _ _ _ _ _ _ _ _ T _ _ Hp eq_refl ltac:(lia) ltac:(lia)) as [Hduring Hafter].
  fold now in Hduring, Hafter. rewrite <- Ee in Hduring, Hafter.
  split; [lia|]. split; [done|]. split; [rewrite Hp; apply transforms_derivatives|].
  split; [unfold motion_at, read_motion; by rewrite S1, S2, S3, S4|].
  split; [unfold motion_at; by rewrite E2, E3, E4|]. split.
  - intros t Ht. apply Hduring; lia.
  - intros t Ht. by rewrite Hafter, E2.
Qed.
