(* ===== verification/Stable.v ===== *)
(** * Rotation, rest and the laws of the motion

    The rotation of [Inertia.v] on exact real numbers, the ambient motion, and
    when the device is at rest: the model is an instance of the interface the
    physical model and the sensors are proved against, and after any history
    without a standing velocity it is reported stable half a second after the
    last target. *)

From Stdlib Require Import Reals QArith Lra.
From stdpp Require Import functions.
From S2P Require Import Prelude Physics Inertia Motion.

#[local] Open Scope Z_scope.

Section rotation.
Context `{Glm R} `{!GlmLaws}.

#[local] Open Scope R_scope.
Implicit Types (i j : InertialModel (F := R)).

Definition curve4 (quintic : mat2 (vec4 R)) (cubic : mat4 (vec4 R)) (t : R) : vec4 R :=
  vadd (mul24 quintic (V2 (t ^ 5) (t ^ 4))) (mul44 cubic (V4 (t ^ 3) (t ^ 2) t 1)).

Lemma at4_curve4 k q c t :
  at4 k (curve4 q c t) =
  at4 k (d0 q) * t ^ 5 + at4 k (d1 q) * t ^ 4 +
  at4 k (c0 c) * t ^ 3 + at4 k (c1 c) * t ^ 2 + at4 k (c2 c) * t + at4 k (c3 c).
Proof. unfold curve4. coordinates. field. Qed.

Lemma calculateRotationalState_during q c a vt i d :
  let req := match vt with TARGET => mRotationChangeEndTime (rot i) | _ => mModelTimeNs i end in
  (req - mRotationChangeStartTime (rot i) = d)%Z -> in_u 64 d ->
  (req < mRotationChangeEndTime (rot i))%Z ->
  calculateRotationalState q c a vt i = curve4 q c (seconds d).
Proof.
  intros req Ed Hd He. unfold calculateRotationalState. fold req.
  rewrite (proj2 (Z.ltb_lt _ _) He), Ed, wrap_small by done.
  apply at4_ext. intros k. rewrite at4_curve4. change (nsToSeconds d) with (seconds d).
  coordinates. field.
Qed.

(** At rest the rotation is the last column, whatever the time. *)
Lemma calculateRotationalState_rest q c r vt i :
  (mRotationChangeEndTime (rot i) <=
   match vt with TARGET => mRotationChangeEndTime (rot i) | _ => mModelTimeNs i end)%Z ->
  calculateRotationalState q c (unit44 r) vt i = r.
Proof.
  intros He. unfold calculateRotationalState. rewrite (proj2 (Z.ltb_ge _ _) He).
  apply at4_ext. intros k. unfold unit44. coordinates. field.
Qed.

Lemma zero44_unit : zero44 = unit44 (F := R) zero4.
Proof. reflexivity. Qed.

Lemma derivable_curve4 k q c q' c' t :
  at4 k (d0 q') = 0 -> at4 k (d1 q') = 5 * at4 k (d0 q) -> at4 k (c0 c') = 4 * at4 k (d1 q) ->
  at4 k (c1 c') = 3 * at4 k (c0 c) -> at4 k (c2 c') = 2 * at4 k (c1 c) -> at4 k (c3 c') = at4 k (c2 c) ->
  derivable_pt_lim (fun t => at4 k (curve4 q c t)) t (at4 k (curve4 q' c' t)).
Proof.
  intros E0 E1 E2 E3 E4 E5.
  set (cs := [at4 k (c3 c); at4 k (c2 c); at4 k (c1 c); at4 k (c0 c); at4 k (d1 q); at4 k (d0 q)]).
  apply (derivable_pt_lim_eq _ (polynomial cs 0) t _ (polynomial' cs 0 t)).
  - intros u. rewrite at4_curve4. unfold cs. cbn [polynomial]. ring.
  - rewrite at4_curve4, E0, E1, E2, E3, E4, E5. unfold cs. cbn [polynomial' pred INR]. ring.
  - apply derivable_polynomial.
Qed.

(** The turning of a rotation, as it is kept. *)
Definition turning_at (r : rotation) (s : R) : vec4 R * vec4 R * vec4 R :=
  (curve4 (mRotationQuintic r) (mRotationCubic r) s,
   curve4 (mRotationalVelocityQuintic r) (mRotationalVelocityCubic r) s,
   curve4 (mRotationalAccelerationQuintic r) (mRotationalAccelerationCubic r) s).

Definition read_turning (j : InertialModel (F := R)) : vec4 R * vec4 R * vec4 R :=
  (calculateRotationalState (mRotationQuintic (rot j)) (mRotationCubic (rot j))
     (mRotationAfterEndCubic (rot j)) CURRENT_NO_AMBIENT_MOTION j,
   calculateRotationalState (mRotationalVelocityQuintic (rot j)) (mRotationalVelocityCubic (rot j))
     zero44 CURRENT_NO_AMBIENT_MOTION j,
   calculateRotationalState (mRotationalAccelerationQuintic (rot j))
     (mRotationalAccelerationCubic (rot j)) zero44 CURRENT_NO_AMBIENT_MOTION j).

Definition turning_derivatives (r : rotation) : Prop :=
  forall k t,
    derivable_pt_lim (fun t => at4 k (turning_at r t).1.1) t (at4 k (turning_at r t).1.2) /\
    derivable_pt_lim (fun t => at4 k (turning_at r t).1.2) t (at4 k (turning_at r t).2).

(** The part of [a] at right angles to [x]. *)
Definition orthogonal (a x : vec4 R) : vec4 R := vsub a (vscale (dot4 a x) x).

Definition as_vec4 (q : quat R) : vec4 R := V4 (qx q) (qy q) (qz q) (qw q).

(** The rotation that leaves [x] with the derivatives [v] and [a] and comes
    to rest at [y]. *)
Definition turning (x v a y : vec4 R) (T : R) (start end_ : Z) : rotation :=
  let '(q5, q4, q3) := quintic_terms T x v a y in
  let q2 := vscale (flt 1 / flt 2) a in
  Rotation start (M2 q5 q4) (M4 q3 q2 v x) (unit44 y)
    (M2 zero4 (vscale (flt 5) q5)) (M4 (vscale (flt 4) q4) (vscale (flt 3) q3) (vscale (flt 2) q2) v)
    (M2 zero4 zero4)
    (M4 (vscale (flt 20) q5) (vscale (flt 12) q4) (vscale (flt 6) q3) (vscale (flt 2) q2)) end_.

Ltac turning_fields :=
  unfold turning_at, turning, quintic_terms;
  cbn [mRotationQuintic mRotationCubic mRotationAfterEndCubic mRotationalVelocityQuintic
       mRotationalVelocityCubic mRotationalAccelerationQuintic mRotationalAccelerationCubic
       mRotationChangeStartTime mRotationChangeEndTime c0 c1 c2 c3 d0 d1 fst snd].

Lemma turning_derivatives_ok x v a y T s e : turning_derivatives (turning x v a y T s e).
Proof.
  intros k t. turning_fields. split; apply derivable_curve4; cbn [c0 c1 c2 c3 d0 d1]; coordinates; lra.
Qed.

Lemma turning_ends x v a y T s e :
  T <> 0 ->
  turning_at (turning x v a y T s e) 0 = (x, v, a) /\
  turning_at (turning x v a y T s e) T = (y, zero4, zero4).
Proof.
  intros HT. turning_fields.
  split; (f_equal; [f_equal|]); apply at4_ext; intros k; rewrite at4_curve4; cbn [c0 c1 c2 c3 d0 d1];
    coordinates; field; done.
Qed.

Definition rotation_time (x y : vec4 R) : R :=
  transition_time (fsqrt (distance4 x y)) (fsqrt (flt 2)).

Lemma rotation_time_range x y : 1 / 20 <= rotation_time x y <= 1 / 2.
Proof.
  apply transition_time_range; [apply sqrt_pos|]. cbn. apply sqrt_lt_R0. rewrite flt_exact. cbn. lra.
Qed.

(** A smooth change from a rotation that is not degenerate. *)
Lemma setTargetRotation_turning q i :
  let '(cur, vel, acc) := read_turning i in
  length4 cur <> 0 ->
  let x := vscale (1 / length4 cur) cur in
  let v := orthogonal (vscale (1 / length4 cur) vel) x in
  let a := orthogonal (vscale (1 / length4 cur) acc) x in
  exists x' v', (x' = x /\ v' = v \/ x' = vneg x /\ v' = vneg v) /\
  let T := rotation_time x' (as_vec4 q) in
  rot (setTargetRotation q SMOOTH i) =
    turning x' v' a (as_vec4 q) T (mModelTimeNs i) (u64 (mModelTimeNs i + secondsToNs T)).
Proof.
  destruct (read_turning i) as [[cur vel] acc] eqn:Er. intros Hlen x v a.
  unfold read_turning in Er. injection Er as Ecur Evel Eacc.
  unfold setTargetRotation. rewrite Ecur, Evel, Eacc. cbn zeta.
  assert (feqb (length4 cur) (flt 0) = false) as ->.
  { cbn. destruct (Req_dec_T _ _) as [E|]; [|done]. exfalso. apply Hlen. rewrite E, flt_exact. cbn. lra. }
  assert (fdiv (flt 1) (length4 cur) = 1 / length4 cur) as ->.
  { cbn. rewrite flt_exact. cbn. by field. }
  fold x. fold (orthogonal (vscale (1 / length4 cur) vel) x) (orthogonal (vscale (1 / length4 cur) acc) x).
  fold v a. fold (as_vec4 q).
  destruct (fltb (distance4 (vneg x) (as_vec4 q)) (distance4 x (as_vec4 q))).
  - exists (vneg x), (vneg v). split; [by right|]. reflexivity.
  - exists x, v. split; [by left|]. reflexivity.
Qed.

(** At rest nothing turns. *)
Definition at_rest (vt : ParameterValueType) i : Prop :=
  (exists r, mRotationAfterEndCubic (rot i) = unit44 r) /\
  (mRotationChangeEndTime (rot i) <=
   match vt with TARGET => mRotationChangeEndTime (rot i) | _ => mModelTimeNs i end)%Z.

Lemma getRotationalVelocity_rest vt i :
  at_rest vt i -> getRotationalVelocity vt i = zero3.
Proof.
  intros [[r Hr] He].
  assert (forall len : R, vscale len (zero4 (F := R)) = zero4) as Hs.
  { intros len. apply at4_ext. intros k. coordinates. field. }
  assert (forall x : vec4 R, vsub zero4 (vscale (dot4 zero4 x) x) = zero4) as Hd.
  { intros x. apply at4_ext. intros k. coordinates. unfold zero4. cbn [x4 y4 z4 w4].
    rewrite flt_exact. cbn [Qnum Qden]. field. }
  unfold getRotationalVelocity. rewrite Hr, zero44_unit, !calculateRotationalState_rest by done.
  assert (Quat (w4 (zero4 (F := R))) (x4 zero4) (y4 zero4) (z4 zero4) = Quat 0 0 0 0) as E0.
  { unfold zero4. cbn [x4 y4 z4 w4]. rewrite flt_exact. cbn [Qnum Qden].
    replace (0 / 1) with 0 by field. reflexivity. }
  assert (V3 0 0 0 = zero3 (F := R)) as E1.
  { unfold zero3. rewrite flt_exact. cbn [Qnum Qden]. by replace (0 / 1) with 0 by field. }
  destruct vt; try reflexivity; (destruct (feqb _ _); [reflexivity|]);
    rewrite Hs, Hd, E0, qmul_zero, qscale_zero; exact E1.
Qed.

Lemma getRotation_rest vt i r :
  vt <> DEFAULT -> mRotationAfterEndCubic (rot i) = unit44 r ->
  (mRotationChangeEndTime (rot i) <=
   match vt with TARGET => mRotationChangeEndTime (rot i) | _ => mModelTimeNs i end)%Z ->
  getRotation vt i = normalize (Quat (w4 r) (x4 r) (y4 r) (z4 r)).
Proof.
  intros Hv Hr He. unfold getRotation. rewrite Hr, calculateRotationalState_rest by done. by destruct vt.
Qed.

Lemma rot_later t i : (mModelTimeNs i <= t)%Z -> rot (setCurrentTime t i).2 = rot i.
Proof. intros Ht. by rewrite setCurrentTime_later. Qed.

Lemma read_turning_during i (i' : InertialModel) t :
  mRotationChangeStartTime (rot i') = mModelTimeNs i -> mModelTimeNs i' = mModelTimeNs i ->
  (0 <= mModelTimeNs i <= t)%Z -> (t < mRotationChangeEndTime (rot i'))%Z -> (t < 2 ^ 64)%Z ->
  read_turning (setCurrentTime t i').2 = turning_at (rot i') (seconds (t - mModelTimeNs i)).
Proof.
  intros Hs Hn Ht He H64. unfold read_turning, turning_at.
  rewrite rot_later by lia.
  rewrite !(calculateRotationalState_during _ _ _ CURRENT_NO_AMBIENT_MOTION _ (t - mModelTimeNs i));
    try reflexivity; rewrite ?rot_later, ?now_later by lia; unfold in_u; lia.
Qed.

(** ** The laws of the interface *)

Lemma ambient_quiet i :
  quiet i ->
  getAmbientMotionBoundsValue CURRENT i = 0 /\ getAmbientMotionBoundsDeriv CURRENT i = 0 /\
  getAmbientMotionBoundsSecondDeriv CURRENT i = 0.
Proof.
  intros (Hn & Ha & _). unfold getAmbientMotionBoundsValue, getAmbientMotionBoundsDeriv,
    getAmbientMotionBoundsSecondDeriv, ambient_bounds. rewrite Ha. cbn [amb InertialModel0
    mAmbientMotionChangeEndTime mAmbientMotionEndValue].
  rewrite (proj2 (Z.ltb_ge _ _)) by lia. rewrite andb_false_r, flt_exact. cbn. lra.
Qed.

Lemma acceleration_settled i : quiet i -> settled i -> getAcceleration CURRENT i = zero3.
Proof.
  intros Hq (_ & Hp & _). destruct (ambient_quiet i Hq) as (E1 & E2 & E3).
  unfold getAcceleration, calculateInertialState. rewrite (proj2 (Z.ltb_ge _ _)) by done.
  rewrite E1, E2, E3. apply at3_ext. intros k. unfold zero43. coordinates. field.
Qed.

Lemma quiet_rest i : quiet i -> settled i -> at_rest CURRENT i.
Proof. intros (_ & _ & Hr) (_ & _ & He). by split. Qed.

Lemma quiet_set_target p v mode i :
  p <> P_AMBIENT_MOTION -> quiet i -> quiet (set_target p v mode i).
Proof.
  intros Hp (Hn & Ha & Hr).
  destruct p; try done; unfold set_target; destruct mode; try by (split; [|split]).
  - unfold setTargetRotation. destruct (feqb _ _); [split; [done|]; split; [done|]; by eexists|].
    destruct (fltb _ _); (split; [done|]; split; [done|]; by eexists).
  - split; [done|]. split; [done|]. by eexists.
Qed.

Lemma quiet_setCurrentTime t i : (0 <= t < 2 ^ 64)%Z -> quiet i -> quiet (setCurrentTime t i).2.
Proof.
  intros Ht (Hn & Ha & Hr). unfold setCurrentTime.
  destruct (t <? mModelTimeNs i)%Z; cbn [snd]; (split; [done|]); (split; [done|]); [by eexists|done].
Qed.

Lemma fltb_epsilon : fltb 0 kEpsilon = true.
Proof. unfold kEpsilon. rewrite flt_exact. cbn. destruct (Rlt_dec _ _); [done|]. exfalso. lra. Qed.

#[export] Instance device_laws : InertialLaws (InertialModel (F := R)) R.
Proof.
  split; cbn -[setCurrentTime].
  - intros i [? _]. lia.
  - intros t i Ht Hq. rewrite wrap_small by done. by apply quiet_setCurrentTime.
  - intros p v m i. apply quiet_set_target.
  - intros t i _. generalize (u64 t). clear t. intros t. unfold setCurrentTime. cbn [fst snd].
    intros [[[H1 H2%Z.leb_le]%andb_true_iff H3%Z.leb_le]%andb_true_iff _]%andb_true_iff. done.
  - intros t i Ht. rewrite wrap_small by done. unfold setCurrentTime.
    by destruct (t <? mModelTimeNs i)%Z.
  - intros p v m i. destruct p, m; try reflexivity. unfold set_target, setTargetRotation.
    destruct (feqb _ _); [reflexivity|]. by destruct (fltb _ _).
  - intros t i Hq Hs Ht. pose proof Hq as (Hn & Ha & r & Hr). pose proof Hs as (Hz & Hp & He).
    rewrite wrap_small by (unfold in_u; lia). set (i' := (setCurrentTime t i).2).
    assert (quiet i') as Hq' by (apply quiet_setCurrentTime; [lia|done]).
    assert (i' = Inertia (pos i) (rot i) (amb i) (mWristTilt i) t) as Ei by (apply setCurrentTime_later; lia).
    assert (settled i') as Hs' by (rewrite Ei; split; [done|cbn; lia]).
    assert (getRotation CURRENT i' = getRotation CURRENT i) as Er.
    { rewrite (getRotation_rest CURRENT i' r), (getRotation_rest CURRENT i r); try done.
      - by rewrite Ei.
      - rewrite Ei. cbn. lia. }
    split; [|split; [|split; [|split; [|split]]]].
    + unfold setCurrentTime. rewrite (proj2 (Z.ltb_ge _ _)) by lia. cbn [fst].
      cbn [pos rot mModelTimeNs]. rewrite Hz, !(proj2 (Z.leb_le _ _)) by lia.
      rewrite Ei in Hq'. destruct (ambient_quiet _ Hq') as (-> & _). apply fltb_epsilon.
    + intros g. unfold getPhysicalAccelerometer. by rewrite Er, !acceleration_settled.
    + unfold getPhysicalGyroscope. by rewrite Er, !getRotationalVelocity_rest by by apply quiet_rest.
    + intros f. unfold getPhysicalMagnetometer. by rewrite Er.
    + unfold getPhysicalOrientation. by rewrite Er.
    + by rewrite Ei.
  - done.
Qed.

(** ** Coming to rest *)

(** All motion ends within half a second of the clock. *)
Definition due i : Prop :=
  quiet i /\ mZeroVelocityAfterEndTime (pos i) = true /\
  (mPositionChangeEndTime (pos i) <= mModelTimeNs i + 500000000)%Z /\
  (mRotationChangeEndTime (rot i) <= mModelTimeNs i + 500000000)%Z.

Lemma due_settles t i :
  due i -> (mModelTimeNs i + 500000000 <= t)%Z -> (setCurrentTime t i).1 = true.
Proof.
  intros (Hq & Hz & Hp & Hr) Ht. unfold setCurrentTime. rewrite (proj2 (Z.ltb_ge _ _)) by lia.
  cbn [fst pos rot mModelTimeNs]. rewrite Hz, !(proj2 (Z.leb_le _ _)) by lia. cbn [andb].
  unfold getAmbientMotionBoundsValue, ambient_bounds. destruct Hq as (Hn & Ha & _).
  cbn [amb mModelTimeNs]. rewrite Ha. cbn [InertialModel0 amb mAmbientMotionChangeEndTime mAmbientMotionEndValue].
  rewrite (proj2 (Z.ltb_ge _ _)) by lia. rewrite andb_false_r.
  replace (flt 0) with 0%R by (rewrite flt_exact; cbn; lra). apply fltb_epsilon.
Qed.

Lemma due_later t i : due i -> (mModelTimeNs i <= t < 2 ^ 64)%Z -> due (setCurrentTime t i).2.
Proof.
  intros (Hq & Hz & Hp & Hr) Ht. rewrite setCurrentTime_later by lia. destruct Hq as (Hn & Hq). split; [|split; [done|]].
  - split; [cbn; lia|exact Hq].
  - cbn. lia.
Qed.

(** A velocity that is set counts as none. *)
Definition no_velocity (p : PhysicalParameter) (v : value R) : Prop :=
  p = P_VELOCITY -> fleb (length3 (toGlm v)) kEpsilon = true.

Lemma end_step i : clock_ok i -> (u64 (mModelTimeNs i + secondsToNs (flt 0)) = mModelTimeNs i)%Z.
Proof. intros Hi. rewrite secondsToNs_0, Z.add_0_r. apply wrap_small. unfold clock_ok, in_u in *. lia. Qed.

Lemma due_set_target p v mode i :
  p <> P_AMBIENT_MOTION -> no_velocity p v -> clock_ok i -> due i -> due (set_target p v mode i).
Proof.
  intros Hp Hv Hi (Hq & Hz & He & Hr).
  assert (forall T, 1 / 20 <= T <= 1 / 2 ->
    (u64 (mModelTimeNs i + secondsToNs T) <= mModelTimeNs i + 500000000)%Z) as Hend.
  { intros T HT. rewrite end_small by done. pose proof (secondsToNs_range T HT). lia. }
  split; [by apply quiet_set_target|].
  destruct p; try done; try (by split); unfold set_target.
  - destruct mode; (split; [done|]); (split; [|exact Hr]).
    + apply (Hend (position_time (toGlm v) i)), position_time_range.
    + change (u64 (mModelTimeNs i + secondsToNs (flt 0)) <= mModelTimeNs i + 500000000)%Z.
      rewrite end_step by done. lia.
  - destruct mode.
    + unfold setTargetRotation. destruct (feqb _ _); [by split|].
      destruct (fltb _ _); (split; [done|]); (split; [done|]); apply (Hend (rotation_time _ _)), rotation_time_range.
    + split; [done|]. split; [done|].
      change (u64 (mModelTimeNs i + secondsToNs (flt 0)) <= mModelTimeNs i + 500000000)%Z.
      rewrite end_step by done. lia.
  - destruct mode; (split; [by apply Hv|]); (split; [|exact Hr]).
    + apply (Hend (velocity_time (toGlm v) i)), velocity_time_range.
    + change (u64 (mModelTimeNs i + secondsToNs (flt 0)) <= mModelTimeNs i + 500000000)%Z.
      rewrite end_step by done. lia.
Qed.

Lemma due_new : due InertialModel0.
Proof. split; [|done]. split; [done|]. split; [done|]. by eexists. Qed.

(** Times that leave room for a motion, no ambient motion and no standing
    velocity. *)
Fixpoint calm (ops : list (physics_op (F := R))) : Prop :=
  match ops with
  | [] => True
  | SetTime t :: ops => (t < 2 ^ 64 - 500000000)%Z /\ calm ops
  | SetTarget p v _ :: ops => p <> P_AMBIENT_MOTION /\ no_velocity p v /\ calm ops
  | _ :: ops => calm ops
  end.

Lemma physics_step_due hinge o log (m : PhysicalModel (I := InertialModel) (F := R)) :
  due (mInertialModel m) -> clock_ok (mInertialModel m) ->
  legal_from (mModelTimeNs (mInertialModel m)) [o] -> calm [o] ->
  let m' := (physics_step hinge (log, m) o).2 in
  due (mInertialModel m') /\ clock_ok (mInertialModel m').
Proof.
  intros Hd Hc Hl Hcalm m'. unfold m'. destruct o as [t|p v mode|v|k v|k]; cbn [physics_step legal_from calm fst snd] in *.
  - destruct Hl as [Ht _], Hcalm as [Ht' _].
    destruct (setCurrentTime_cases t m) as (_ & _ & _ & _ & -> & _).
    cbn [in_setCurrentTime device_inertial]. rewrite wrap_small by (unfold clock_ok, in_u in *; lia).
    split; [by apply due_later|]. rewrite setCurrentTime_later by lia. unfold clock_ok in *. cbn. lia.
  - destruct Hcalm as (Hp & Hv & _).
    destruct (target_fields p v mode m) as (_ & _ & _ & _ & _ & Ei).
    destruct Ei as [->| ->]; [done|]. split; [by apply due_set_target|].
    unfold clock_ok. pose proof (in_target_now (I := InertialModel) (F := R) p v mode (mInertialModel m)) as En.
    cbn [in_now in_setTarget device_inertial] in En |- *. by rewrite En.
  - done.
  - done.
  - pose proof (getSensorValue_cases hinge k m) as Hs.
    destruct (getSensorValue hinge k m) as [[id v] m1]. cbn.
    destruct Hs as [(_ & _ & ->)|(_ & _ & _ & _ & _ & -> & _)]; done.
Qed.

Lemma physics_run_due hinge ops : forall log (m : PhysicalModel (I := InertialModel) (F := R)),
  model_ok hinge false true log m ->
  due (mInertialModel m) -> clock_ok (mInertialModel m) ->
  legal_from (mModelTimeNs (mInertialModel m)) ops -> calm ops ->
  let m' := (fold_left (physics_step hinge) ops (log, m)).2 in
  due (mInertialModel m') /\ clock_ok (mInertialModel m').
Proof.
  induction ops as [|o ops IH]; intros log m Hm Hd Hc Hl Hcalm; [done|]. cbn [fold_left].
  assert (legal_from (mModelTimeNs (mInertialModel m)) [o]) as Hl1 by (destruct o; cbn in *; tauto).
  assert (calm [o]) as Hcalm1 by (destruct o; cbn in *; tauto).
  destruct (physics_step_due hinge o log m Hd Hc Hl1 Hcalm1) as [Hd' Hc'].
  assert (may_hold false true o) as Hh by (split; [|done]; destruct o as [t|p v mode|v|k v|k]; try done; destruct p; try done; cbn in *; tauto).
  pose proof (physics_step_ok hinge _ _ o log m Hm Hl1 Hh) as Hm'.
  pose proof (physics_step_now hinge _ _ o log m Hm Hl1) as Hn. cbn [in_now device_inertial] in Hn.
  destruct (physics_step hinge (log, m) o) as [log' m']. cbn [fst snd] in *.
  apply IH; try done; [rewrite Hn|]; destruct o; cbn in *; tauto.
Qed.

(** ** The ambient motion *)

(** The three readings of the ambient motion. *)
Definition read_ambient vt i : R * R * R :=
  (getAmbientMotionBoundsValue vt i, getAmbientMotionBoundsDeriv vt i,
   getAmbientMotionBoundsSecondDeriv vt i).

Lemma secondsToNs_half : secondsToNs kMaxStateChangeTimeSeconds = 500000000%Z.
Proof.
  unfold kMaxStateChangeTimeSeconds. rewrite flt_exact. cbn.
  replace (1 / 2 * 1000000000) with (IZR 500000000) by lra.
  pose proof (base_Int_part (IZR 500000000)) as [H1 H2].
  apply le_IZR in H1. assert (500000000 - 1 < Int_part (IZR 500000000))%Z; [|lia].
  apply lt_IZR. rewrite minus_IZR. lra.
Qed.

Lemma ambient_after i t :
  (mAmbientMotionChangeEndTime (amb i) <= t)%Z -> (mModelTimeNs i <= t)%Z ->
  read_ambient CURRENT (setCurrentTime t i).2 = (mAmbientMotionEndValue (amb i), 0, 0).
Proof.
  intros He Ht. rewrite setCurrentTime_later by done. unfold read_ambient, getAmbientMotionBoundsValue,
    getAmbientMotionBoundsDeriv, getAmbientMotionBoundsSecondDeriv, ambient_bounds.
  cbn [amb mModelTimeNs]. rewrite (proj2 (Z.ltb_ge _ _)) by done. rewrite andb_false_r.
  f_equal; [f_equal|]; rewrite flt_exact; cbn; lra.
Qed.

(** The bound and its derivatives along a change. *)
Definition line (q : vec2 R) (c : vec4 R) (s : R) : R :=
  x2 q * s ^ 5 + y2 q * s ^ 4 + x4 c * s ^ 3 + y4 c * s ^ 2 + z4 c * s + w4 c.

Definition ambient_at (a : ambient_motion (F := R)) (s : R) : R * R * R :=
  (line (mAmbientMotionValueQuintic a) (mAmbientMotionValueCubic a) s,
   line (mAmbientMotionFirstDerivQuintic a) (mAmbientMotionFirstDerivCubic a) s,
   line (mAmbientMotionSecondDerivQuintic a) (mAmbientMotionSecondDerivCubic a) s).

Definition ambient_derivatives (a : ambient_motion (F := R)) : Prop :=
  forall t,
    derivable_pt_lim (fun t => (ambient_at a t).1.1) t (ambient_at a t).1.2 /\
    derivable_pt_lim (fun t => (ambient_at a t).1.2) t (ambient_at a t).2.

Lemma derivable_line q c q' c' t :
  x2 q' = 0 -> y2 q' = 5 * x2 q -> x4 c' = 4 * y2 q -> y4 c' = 3 * x4 c -> z4 c' = 2 * y4 c ->
  w4 c' = z4 c -> derivable_pt_lim (line q c) t (line q' c' t).
Proof.
  intros E0 E1 E2 E3 E4 E5. set (cs := [w4 c; z4 c; y4 c; x4 c; y2 q; x2 q]).
  apply (derivable_pt_lim_eq _ (polynomial cs 0) t _ (polynomial' cs 0 t)).
  - intros u. unfold line, cs. cbn [polynomial]. ring.
  - unfold line. rewrite E0, E1, E2, E3, E4, E5. unfold cs. cbn [polynomial' pred INR]. ring.
  - apply derivable_polynomial.
Qed.

Lemma ambient_bounds_during q c b i d :
  (mModelTimeNs i - mAmbientMotionChangeStartTime (amb i) = d)%Z -> in_u 64 d ->
  (mModelTimeNs i < mAmbientMotionChangeEndTime (amb i))%Z ->
  ambient_bounds q c b CURRENT i = line q c (seconds d).
Proof.
  intros Ed Hd He. unfold ambient_bounds, line. rewrite (proj2 (Z.ltb_lt _ _) He), Ed, wrap_small by done.
  cbn [negb andb]. change (nsToSeconds d) with (seconds d). coordinates. field.
Qed.

Lemma ambient_during i t :
  (mAmbientMotionChangeStartTime (amb i) <= t)%Z -> (mModelTimeNs i <= t)%Z ->
  (0 <= mAmbientMotionChangeStartTime (amb i))%Z -> (t < mAmbientMotionChangeEndTime (amb i))%Z ->
  (t < 2 ^ 64)%Z ->
  read_ambient CURRENT (setCurrentTime t i).2 =
    ambient_at (amb i) (seconds (t - mAmbientMotionChangeStartTime (amb i))).
Proof.
  intros Hs Hn H0' He H64. rewrite setCurrentTime_later by done.
  unfold read_ambient, getAmbientMotionBoundsValue, getAmbientMotionBoundsDeriv,
    getAmbientMotionBoundsSecondDeriv, ambient_at.
  rewrite !(ambient_bounds_during _ _ _ _ (t - mAmbientMotionChangeStartTime (amb i)));
    try reflexivity; unfold in_u; cbn [amb mModelTimeNs]; lia.
Qed.

(** The change a smooth target starts. *)
Lemma setTargetAmbientMotion_change b i :
  clock_ok i ->
  let now := mModelTimeNs i in
  let i' := setTargetAmbientMotion b SMOOTH i in
  mModelTimeNs i' = now /\ pos i' = pos i /\ rot i' = rot i /\
  mAmbientMotionChangeStartTime (amb i') = now /\
  mAmbientMotionChangeEndTime (amb i') = (now + 500000000)%Z /\ mAmbientMotionEndValue (amb i') = b /\
  ambient_derivatives (amb i') /\
  ambient_at (amb i') 0 = read_ambient CURRENT i /\ ambient_at (amb i') (1 / 2) = (b, 0, 0).
Proof.
  intros Hi now i'. unfold i', read_ambient, setTargetAmbientMotion.
  generalize (getAmbientMotionBoundsValue CURRENT i) (getAmbientMotionBoundsDeriv CURRENT i)
    (getAmbientMotionBoundsSecondDeriv CURRENT i). intros x v a.
  destruct (quintic_terms _ _ _ _ _) as [[q5 q4] q3] eqn:Eq.
  unfold ambient_derivatives, ambient_at, line.
  cbn [mModelTimeNs pos rot amb mAmbientMotionChangeStartTime mAmbientMotionChangeEndTime
       mAmbientMotionEndValue mAmbientMotionValueQuintic mAmbientMotionValueCubic
       mAmbientMotionFirstDerivQuintic mAmbientMotionFirstDerivCubic mAmbientMotionSecondDerivQuintic
       mAmbientMotionSecondDerivCubic x2 y2 x4 y4 z4 w4 fst snd].
  do 4 (split; [reflexivity|]).
  split; [rewrite secondsToNs_half; apply wrap_small; unfold clock_ok, in_u in *; lia|].
  split; [reflexivity|]. split; [|split].
  - intros t. split.
    + apply (derivable_line (V2 q5 q4) (V4 q3 _ v x) (V2 _ _) (V4 _ _ _ v)); cbn [x2 y2 x4 y4 z4 w4];
        coordinates; field.
    + apply (derivable_line (V2 _ _) (V4 _ _ _ v) (V2 _ _) (V4 _ _ _ _)); cbn [x2 y2 x4 y4 z4 w4];
        coordinates; field.
  - f_equal; [f_equal|]; coordinates; field.
  - revert Eq. unfold quintic_terms, kMaxStateChangeTimeSeconds. coordinates. intros [= <- <- <-].
    f_equal; [f_equal|]; field.
Qed.

End rotation.

(** ** Properties *)

(** A change of rotation, in exact arithmetic.  A smooth one from a rotation
    that is not degenerate takes between 50 and 500 milliseconds: it goes on from
    the present rotation as a unit quaternion or its negation, with the part of
    the derivative at right angles to it, the kept curves are derivatives of
    each other, and at its end it is the target and turns no more (the second
    derivative keeps its sign when the other two are negated).  From the end on,
    and at once after a step, the rotation is the target's and the rotational
    velocity zero. *)
Theorem rotation_reaches `{Glm R} `{!GlmLaws} (q : quat R) (i : InertialModel) :
  clock_ok i ->
  let i' := setTargetRotation q SMOOTH i in
  let now := mModelTimeNs i in
  let e := mRotationChangeEndTime (rot i') in
  (let '(cur, vel, acc) := read_turning i in
   length4 cur <> 0%R ->
   (now + 50000000 <= e <= now + 500000000)%Z /\ turning_derivatives (rot i') /\
   (exists sign T, (sign = 1 \/ sign = -1)%R /\
     let x := vscale (1 / length4 cur)%R cur in
     turning_at (rot i') 0 =
       (vscale sign x, vscale sign (orthogonal (vscale (1 / length4 cur)%R vel) x),
        orthogonal (vscale (1 / length4 cur)%R acc) x) /\
     turning_at (rot i') T = (as_vec4 q, zero4, zero4) /\ e = (now + secondsToNs T)%Z) /\
   (forall t, (now <= t < e)%Z ->
      read_turning (setCurrentTime t i').2 = turning_at (rot i') (seconds (t - now)))) /\
  (forall t, (now <= t < 2 ^ 64)%Z -> (e <= t)%Z ->
     getRotation CURRENT (setCurrentTime t i').2 = normalize q /\
     getRotationalVelocity CURRENT (setCurrentTime t i').2 = zero3) /\
  getRotation TARGET i' = normalize q /\
  getRotation CURRENT (setTargetRotation q STEP i) = normalize q /\
  getRotationalVelocity CURRENT (setTargetRotation q STEP i) = zero3.
Proof.
  intros Hi i' now e.
  assert (mRotationAfterEndCubic (rot i') = unit44 (as_vec4 q)) as Hafter.
  { unfold i', setTargetRotation. destruct (feqb _ _); [done|]. by destruct (fltb _ _). }
  assert (mModelTimeNs i' = now) as Hnow.
  { unfold i', setTargetRotation. destruct (feqb _ _); [done|]. by destruct (fltb _ _). }
  assert (forall j vt, vt <> DEFAULT -> mRotationAfterEndCubic (rot j) = unit44 (as_vec4 q) ->
    (mRotationChangeEndTime (rot j) <=
     match vt with TARGET => mRotationChangeEndTime (rot j) | _ => mModelTimeNs j end)%Z ->
    getRotation vt j = normalize q /\ getRotationalVelocity vt j = zero3) as Hrest.
  { intros j vt Hvt Hj Hend. split; [|apply getRotationalVelocity_rest; by split; [eexists|]].
    rewrite (getRotation_rest vt j (as_vec4 q)) by done. by destruct q. }
  split; [|split; [|split]].
  - pose proof (setTargetRotation_turning q i) as Ht. destruct (read_turning i) as [[cur vel] acc].
    intros Hlen. destruct (Ht Hlen) as (x' & v' & Hsign & Hrot). clear Ht.
    pose proof (rotation_time_range x' (as_vec4 q)) as HT. set (T := rotation_time x' (as_vec4 q)) in *.
    cbv zeta in Hrot. fold i' in Hrot. rewrite end_small in Hrot by done.
    pose proof (secondsToNs_range T HT) as Hn.
    assert (e = (now + secondsToNs T)%Z) as Ee by (unfold e; by rewrite Hrot).
    destruct (turning_ends x' v' (orthogonal (vscale (1 / length4 cur)%R acc) (vscale (1 / length4 cur)%R cur))
                (as_vec4 q) T now (now + secondsToNs T) ltac:(lra)) as [H0' HT'].
    split; [lia|]. split; [rewrite Hrot; apply turning_derivatives_ok|]. split.
    + assert (exists sign : R, (sign = 1 \/ sign = -1)%R /\
        x' = vscale sign (vscale (1 / length4 cur)%R cur) /\
        v' = vscale sign (orthogonal (vscale (1 / length4 cur)%R vel) (vscale (1 / length4 cur)%R cur)))
        as (sign & Hs & Ex & Ev).
      { destruct Hsign as [[-> ->]|[-> ->]]; [exists 1%R|exists (-1)%R]; (split; [tauto|]);
          split; apply at4_ext; intros k; coordinates; ring. }
      exists sign, T. split; [done|]. rewrite Hrot. rewrite Ex, Ev in H0'. by rewrite <- Ex, <- Ev in H0' at 1.
    + intros t Hte. apply read_turning_during; unfold clock_ok in Hi; try (fold now; lia).
      by rewrite Hrot.
  - intros t Ht He. apply Hrest; [done| |]; rewrite rot_later by (rewrite Hnow; lia); [done|].
    rewrite now_later by (rewrite Hnow; lia). exact He.
  - apply Hrest; [done|done|]. lia.
  - apply (Hrest _ CURRENT); [done|done|].
    change (u64 (mModelTimeNs i + secondsToNs (flt 0)) <= mModelTimeNs i)%Z. rewrite end_step by done. lia.
Qed.

(** Every motion ends: after any history of times, targets, overrides and
    reads in which the ambient motion is left alone and every velocity that is
    set counts as none, half a second after the last time the physical model
    is no longer changing, has said so if it was, and from then on reads keep
    their measurement ids and change nothing. *)
Theorem motion_settles `{Glm R} `{!GlmLaws} (hinge : nat -> R) (ops : list (physics_op (F := R))) (t : Z) :
  legal_from 0 ops -> calm ops ->
  let m := (physics_run hinge InertialModel0 ops).2 in
  (mModelTimeNs (mInertialModel m) + 500000000 <= t < 2 ^ 64)%Z ->
  let '(events, m') := Physics.setCurrentTime t m in
  events = (if mIsPhysicalStateChanging m then [PhysicalStateStabilized] else []) /\
  mIsPhysicalStateChanging m' = false /\
  forall s, getSensorValue hinge s m' =
    (mMeasurementId m' s, if mUseOverride m' s then mOverride m' s else getPhysical hinge s m', m').
Proof.
  intros Hl Hc m Ht.
  assert (model_ok hinge false true [] (PhysicalModel0 (I := InertialModel) (F := R) InertialModel0)) as Hok.
  { apply (PhysicalModel0_ok (I := InertialModel) hinge false true); [apply due_new|by split]. }
  destruct (physics_run_due hinge ops [] (PhysicalModel0 InertialModel0) Hok due_new ltac:(by split) Hl Hc)
    as [Hdue Hclock].
  change (fold_left _ ops _) with (physics_run hinge InertialModel0 ops) in Hdue, Hclock. fold m in Hdue, Hclock.
  unfold Physics.setCurrentTime. cbn [in_setCurrentTime device_inertial].
  unfold clock_ok in Hclock. rewrite wrap_small by (unfold in_u; lia).
  pose proof (due_settles t _ Hdue ltac:(lia)) as Hstable.
  destruct (setCurrentTime t (mInertialModel m)) as [b j]. cbn [fst] in Hstable. subst b. cbn [andb].
  destruct (mIsPhysicalStateChanging m) eqn:Em; (split; [done|]); (split; [done|]); intros s;
    unfold getSensorValue; cbn [physicalStateStabilized mUseOverride mOverride mMeasurementId
      mIsPhysicalStateChanging snd]; by destruct (mUseOverride m s).
Qed.

(** The ambient motion, in exact arithmetic.  A smooth change of its bound goes
    on from the present bound and its derivatives along a curve, each kept
    polynomial the derivative of the one before, and is at the target, with no
    derivatives, half a second later; since a change starts at the old bound,
    a device that is stable is still reported stable at the time of the change.
    A step does not set the bound at all: it ends every change at once, and
    the bound is that of the last smooth one. *)
Theorem ambient_motion_changes `{Glm R} `{!GlmLaws} (b : R) (i : InertialModel) :
  clock_ok i ->
  let now := mModelTimeNs i in
  let i' := setTargetAmbientMotion b SMOOTH i in
  ambient_derivatives (amb i') /\
  ambient_at (amb i') 0%R = read_ambient CURRENT i /\
  ambient_at (amb i') (1 / 2)%R = (b, 0%R, 0%R) /\
  (forall t, (now <= t < now + 500000000)%Z ->
     read_ambient CURRENT (setCurrentTime t i').2 = ambient_at (amb i') (seconds (t - now))) /\
  (forall t, (now + 500000000 <= t < 2 ^ 64)%Z ->
     read_ambient CURRENT (setCurrentTime t i').2 = (b, 0%R, 0%R)) /\
  (setCurrentTime now i').1 = (setCurrentTime now i).1 /\
  (forall t, (now <= t)%Z ->
     read_ambient CURRENT (setCurrentTime t (setTargetAmbientMotion b STEP i)).2 =
       (mAmbientMotionEndValue (amb i), 0%R, 0%R)).
Proof.
  intros Hi now i'.
  destruct (setTargetAmbientMotion_change b i Hi) as (En & Ep & Er & Es & Ee & Eb & Hd & H0' & H1').
  fold i' now in En, Ep, Er, Es, Ee, Eb, Hd, H0', H1'. unfold clock_ok in Hi. fold now in Hi.
  assert (forall t, (now <= t < now + 500000000)%Z ->
     read_ambient CURRENT (setCurrentTime t i').2 = ambient_at (amb i') (seconds (t - now))) as Hduring.
  { intros t Ht. rewrite ambient_during by lia. by rewrite Es. }
  do 3 (split; [done|]). split; [exact Hduring|]. split; [|split].
  - intros t Ht. rewrite ambient_after by lia. by rewrite Eb.
  - pose proof (Hduring now ltac:(lia)) as Hnow. rewrite Z.sub_diag, seconds_0, H0' in Hnow.
    rewrite setCurrentTime_later in Hnow by lia. 
    pose proof (f_equal (fun r => r.1.1) Hnow) as Hvalue. unfold read_ambient in Hvalue. cbn [fst] in Hvalue.
    unfold setCurrentTime. rewrite En. fold now. rewrite Z.ltb_irrefl. cbn [fst pos rot mModelTimeNs].
    rewrite Hvalue, Ep, Er. reflexivity.
  - intros t Ht. exact (ambient_after (setTargetAmbientMotion b STEP i) t Ht Ht).
Qed.

(** ** Examples *)

(** The functions of glm on real numbers, as its documentation describes
    them. *)
Module Example.

#[local] Open Scope R_scope.

Definition dot3_ (a b : vec3 R) : R := x3 a * x3 b + y3 a * y3 b + z3 a * z3 b.
Definition dot4_ (a b : vec4 R) : R := x4 a * x4 b + y4 a * y4 b + z4 a * z4 b + w4 a * w4 b.
Definition map3 (f : R -> R -> R) (a b : vec3 R) : vec3 R :=
  V3 (f (x3 a) (x3 b)) (f (y3 a) (y3 b)) (f (z3 a) (z3 b)).
Definition map4 (f : R -> R -> R) (a b : vec4 R) : vec4 R :=
  V4 (f (x4 a) (x4 b)) (f (y4 a) (y4 b)) (f (z4 a) (z4 b)) (f (w4 a) (w4 b)).
Definition each3 (f : R -> R) (a : vec3 R) : vec3 R := map3 (fun x _ => f x) a a.
Definition each4 (f : R -> R) (a : vec4 R) : vec4 R := map4 (fun x _ => f x) a a.
Definition cross (a b : vec3 R) : vec3 R :=
  V3 (y3 a * z3 b - z3 a * y3 b) (z3 a * x3 b - x3 a * z3 b) (x3 a * y3 b - y3 a * x3 b).

Definition qmul_ (p q : quat R) : quat R :=
  Quat (qw p * qw q - qx p * qx q - qy p * qy q - qz p * qz q)
       (qw p * qx q + qx p * qw q + qy p * qz q - qz p * qy q)
       (qw p * qy q + qy p * qw q + qz p * qx q - qx p * qz q)
       (qw p * qz q + qz p * qw q + qx p * qy q - qy p * qx q).
Definition qscale_ (s : R) (q : quat R) : quat R := Quat (s * qw q) (s * qx q) (s * qy q) (s * qz q).
Definition conjugate_ (q : quat R) : quat R := Quat (qw q) (- qx q) (- qy q) (- qz q).
Definition rotate_ (q : quat R) (v : vec3 R) : vec3 R :=
  let r := qmul_ (qmul_ q (Quat 0 (x3 v) (y3 v) (z3 v))) (conjugate_ q) in V3 (qx r) (qy r) (qz r).
Definition length3_ (v : vec3 R) : R := sqrt (dot3_ v v).
Definition length4_ (v : vec4 R) : R := sqrt (dot4_ v v).
Definition normalize_ (q : quat R) : quat R := qscale_ (/ length4_ (V4 (qx q) (qy q) (qz q) (qw q))) q.

#[export] Instance exact_glm : Glm R := {
  glm_vec3 := {| vadd := map3 Rplus; vsub := map3 Rminus; vscale s := each3 (Rmult s);
                 vneg := each3 Ropp |};
  glm_vec4 := {| vadd := map4 Rplus; vsub := map4 Rminus; vscale s := each4 (Rmult s);
                 vneg := each4 Ropp |};
  mul3 := map3 Rmult;
  mul43 m v := map3 Rplus (map3 Rplus (each3 (Rmult (x4 v)) (c0 m)) (each3 (Rmult (y4 v)) (c1 m)))
                 (map3 Rplus (each3 (Rmult (z4 v)) (c2 m)) (each3 (Rmult (w4 v)) (c3 m)));
  mul44 m v := map4 Rplus (map4 Rplus (each4 (Rmult (x4 v)) (c0 m)) (each4 (Rmult (y4 v)) (c1 m)))
                 (map4 Rplus (each4 (Rmult (z4 v)) (c2 m)) (each4 (Rmult (w4 v)) (c3 m)));
  mul24 m v := map4 Rplus (each4 (Rmult (x2 v)) (d0 m)) (each4 (Rmult (y2 v)) (d1 m));
  dot2 a b := x2 a * x2 b + y2 a * y2 b; dot4 := dot4_;
  length3 := length3_; length4 := length4_;
  distance3 a b := length3_ (map3 Rminus a b); distance4 a b := length4_ (map4 Rminus a b);
  normalize := normalize_; conjugate := conjugate_;
  quat_new := Quat 1 0 0 0; qmul := qmul_; qscale := qscale_; rotate := rotate_;
  angleAxis a v := Quat (cos (a / 2)) (x3 v * sin (a / 2)) (y3 v * sin (a / 2)) (z3 v * sin (a / 2));
  radians := each3 (fun x => x * PI / 180); degrees := each3 (fun x => x * 180 / PI);
  atan y x := Ratan.atan (y / x); asin := Ratan.asin; clamp x a b := Rmin (Rmax x a) b;
}.

#[export] Instance exact_glm_laws : GlmLaws.
Proof.
  split; try (intros []; intros; cbn; ring); try done; try (intros; apply sqrt_pos).
  - unfold length3. cbn. unfold length3_, dot3_. cbn. rewrite Rmult_0_l, !Rplus_0_l. apply sqrt_0.
  - intros q. cbn. unfold qmul_. cbn. f_equal; ring.
  - intros s. cbn. unfold qscale_. cbn. f_equal; ring.
Qed.

End Example.

Import Example.

Lemma clock_ok_new : clock_ok (InertialModel0 (F := R)).
Proof. unfold clock_ok. cbn. lia. Qed.

Lemma position_reaches_witness :
  read_motion (setCurrentTime 500000000 (setTargetPosition (V3 1 2 3)%R SMOOTH InertialModel0)).2 =
  (V3 1 2 3, zero3, zero3, zero3)%R.
Proof.
  destruct (position_reaches (V3 1 2 3)%R InertialModel0 clock_ok_new) as (He & _ & _ & _ & _ & _ & Hafter & _).
  apply Hafter. split; [exact (proj2 He)|lia].
Defined.

Lemma velocity_reaches_witness :
  (read_motion (setCurrentTime 500000000 (setTargetVelocity (V3 1 0 0)%R SMOOTH InertialModel0)).2).2 = zero3.
Proof.
  destruct (velocity_reaches (V3 1 0 0)%R InertialModel0 clock_ok_new) as (He & _ & _ & _ & _ & _ & Hafter).
  rewrite (Hafter 500000000); [reflexivity|]. split; [exact (proj2 He)|lia].
Defined.

Lemma rotation_reaches_witness :
  getRotation CURRENT (setTargetRotation (Quat 0 1 0 0)%R STEP InertialModel0) = normalize (Quat 0 1 0 0)%R.
Proof.
  destruct (rotation_reaches (Quat 0 1 0 0)%R InertialModel0 clock_ok_new) as (_ & _ & _ & Hstep & _).
  exact Hstep.
Defined.

Lemma motion_settles_witness :
  let m := (physics_run (fun _ => 0%R) InertialModel0
              [SetTarget P_POSITION (Vec3 1 2 3)%R SMOOTH; Get ACCELERATION]).2 in
  (Physics.setCurrentTime 500000000 m).1 = [PhysicalStateStabilized].
Proof.
  intros m.
  pose proof (motion_settles (fun _ => 0%R)
    [SetTarget P_POSITION (Vec3 1 2 3)%R SMOOTH; Get ACCELERATION] 500000000) as Hm.
  cbv zeta in Hm. fold m in Hm. destruct (Physics.setCurrentTime 500000000 m) as [events m'] eqn:Em.
  destruct Hm as [-> _].
  - cbn. split_and!; done || lia.
  - cbn. by split.
  - split; [|lia]. change (mModelTimeNs (mInertialModel m)) with 0. lia.
  - reflexivity.
Defined.

Lemma ambient_motion_changes_witness :
  read_ambient CURRENT (setCurrentTime 9 (setTargetAmbientMotion 5%R STEP InertialModel0)).2 =
  (flt 0, 0, 0)%R.
Proof.
  destruct (ambient_motion_changes 5%R InertialModel0 clock_ok_new) as (_ & _ & _ & _ & _ & _ & Hstep).
  apply Hstep. cbn. lia.
Defined.
