(* ===== verification/Sensors.v ===== *)
(** * The sensor device

    Models [emulator/hal/sensors/src/physics/SensorDevice.cpp]: the sensors of
    the configuration, the commands of the guest's sensor library, the report
    of every tick with its cache of formatted measurements, and the interface
    by which the emulator reads and overrides sensors.  It stands on the model
    of the physics and sends through the qemud framing.  The printing of a
    floating point number with [%g] and [absl::SimpleAtoi] are parameters; a
    call of the latter gives its answer and what it leaves in its result.
    [None] is a failed assertion or an overflow of a signed integer. *)

From Stdlib Require Import QArith.
From stdpp Require Import functions.
From S2P Require Import Prelude CText Archive Qemud Physics.

#[local] Open Scope Z_scope.

(** ** Tables *)

(** The names of [SENSORS_LIST]. *)
Definition sensor_name (s : AndroidSensor) : bytes :=
  str match s with
      | ACCELERATION => "acceleration" | GYROSCOPE => "gyroscope" | MAGNETIC_FIELD => "magnetic-field"
      | ORIENTATION => "orientation" | TEMPERATURE => "temperature" | PROXIMITY => "proximity"
      | LIGHT => "light" | PRESSURE => "pressure" | HUMIDITY => "humidity"
      | MAGNETIC_FIELD_UNCALIBRATED => "magnetic-field-uncalibrated"
      | GYROSCOPE_UNCALIBRATED => "gyroscope-uncalibrated" | HINGE_ANGLE0 => "hinge-angle0"
      | HINGE_ANGLE1 => "hinge-angle1" | HINGE_ANGLE2 => "hinge-angle2" | HEART_RATE => "heart-rate"
      | RGBC_LIGHT => "rgbc-light" | WRIST_TILT => "wrist-tilt"
      | ACCELERATION_UNCALIBRATED => "acceleration-uncalibrated"
      end%string.

(** What their formats start with. *)
Definition format_name (s : AndroidSensor) : bytes :=
  match s with
  | MAGNETIC_FIELD => str "magnetic"
  | MAGNETIC_FIELD_UNCALIBRATED => str "magnetic-uncalibrated"
  | _ => sensor_name s
  end.

(** The number of a sensor in the enumeration, and back. *)
Definition sensor_id (s : AndroidSensor) : Z :=
  match s with
  | ACCELERATION => 0 | GYROSCOPE => 1 | MAGNETIC_FIELD => 2 | ORIENTATION => 3 | TEMPERATURE => 4
  | PROXIMITY => 5 | LIGHT => 6 | PRESSURE => 7 | HUMIDITY => 8 | MAGNETIC_FIELD_UNCALIBRATED => 9
  | GYROSCOPE_UNCALIBRATED => 10 | HINGE_ANGLE0 => 11 | HINGE_ANGLE1 => 12 | HINGE_ANGLE2 => 13
  | HEART_RATE => 14 | RGBC_LIGHT => 15 | WRIST_TILT => 16 | ACCELERATION_UNCALIBRATED => 17
  end.

Definition sensor_of_id (n : Z) : option AndroidSensor :=
  if n <? 0 then None else all_sensors !! Z.to_nat n.

Definition sensorIdFromName (name : bytes) : option AndroidSensor :=
  List.find (fun s => bytes_eqb (sensor_name s) name) all_sensors.

(** ** Text *)

(** [absl::StrSplit] at a character. *)
Fixpoint str_split (c : Z) (s : bytes) : list bytes :=
  match s with
  | [] => [[]]
  | x :: s =>
      if x =? c then [] :: str_split c s
      else match str_split c s with
           | p :: ps => (x :: p) :: ps
           | [] => [[x]]
           end
  end.

(** Commas become points, up to the terminator. *)
Fixpoint sanitizeSensorString (string : bytes) : bytes :=
  match string with
  | [] => []
  | c :: s => if c =? 0 then c :: s else (if c =? 44 then 46 else c) :: sanitizeSensorString s
  end.

(** A signed 64-bit result; [None] on overflow. *)
Definition int64 (z : Z) : option Z :=
  if (- 2 ^ 63 <=? z) && (z <? 2 ^ 63) then Some z else None.

(** The hardware the configuration describes. *)
Record hardware := Hardware {
  hw_accelerometer : bool; hw_accelerometer_uncalibrated : bool; hw_gyroscope : bool;
  hw_sensors_proximity : bool; hw_sensors_magnetic_field : bool;
  hw_sensors_magnetic_field_uncalibrated : bool; hw_sensors_gyroscope_uncalibrated : bool;
  hw_sensors_orientation : bool; hw_sensors_temperature : bool; hw_sensors_light : bool;
  hw_sensors_pressure : bool; hw_sensors_humidity : bool; hw_sensors_rgbclight : bool;
  hw_sensor_hinge : bool; hw_sensor_hinge_count : Z; hw_sensors_heart_rate : bool;
  hw_sensors_wrist_tilt : bool; kWear : bool; apiLevel : Z;
}.

Definition modernWearDevice (hw : hardware) : bool := kWear hw && (28 <=? apiLevel hw).

Definition configured (hw : hardware) (s : AndroidSensor) : bool :=
  match s with
  | ACCELERATION => hw_accelerometer hw
  | ACCELERATION_UNCALIBRATED => hw_accelerometer_uncalibrated hw
  | GYROSCOPE => hw_gyroscope hw
  | PROXIMITY => hw_sensors_proximity hw
  | MAGNETIC_FIELD => hw_sensors_magnetic_field hw
  | MAGNETIC_FIELD_UNCALIBRATED => hw_sensors_magnetic_field_uncalibrated hw
  | GYROSCOPE_UNCALIBRATED => hw_sensors_gyroscope_uncalibrated hw
  | ORIENTATION => hw_sensors_orientation hw
  | TEMPERATURE => hw_sensors_temperature hw
  | LIGHT => hw_sensors_light hw
  | PRESSURE => hw_sensors_pressure hw
  | HUMIDITY => hw_sensors_humidity hw
  | RGBC_LIGHT => hw_sensors_rgbclight hw
  | HINGE_ANGLE0 => hw_sensor_hinge hw
  | HINGE_ANGLE1 => hw_sensor_hinge hw && ((hw_sensor_hinge_count hw =? 2) || (hw_sensor_hinge_count hw =? 3))
  | HINGE_ANGLE2 => hw_sensor_hinge hw && (hw_sensor_hinge_count hw =? 3)
  | HEART_RATE => hw_sensors_heart_rate hw || modernWearDevice hw
  | WRIST_TILT => hw_sensors_wrist_tilt hw || modernWearDevice hw
  end.

Section sensors.
Context {I F : Type} `{Floats F} `{Inertial I F}.
Context (hinge : nat -> F) (fmt_g : F -> bytes).
Context (SimpleAtoi32 SimpleAtoi64 : bytes -> bool * Z).

(** ** Values *)

Definition components (v : value F) : list F :=
  match v with Float x => [x] | Vec3 x y z => [x; y; z] | Vec4 x y z w => [x; y; z; w] end.

(** [getfloatValue], [getvec3Value], [getvec4Value]: what is missing is zero. *)
Definition get_value (t : vtype) (vals : list F) : value F :=
  let at_ i := nth i vals (flt 0) in
  match t with
  | TFloat => Float (at_ 0%nat)
  | TVec3 => Vec3 (at_ 0%nat) (at_ 1%nat) (at_ 2%nat)
  | TVec4 => Vec4 (at_ 0%nat) (at_ 1%nat) (at_ 2%nat) (at_ 3%nat)
  end.

(** The format of the sensor with [:%ld] for the measurement. *)
Definition measurement_text (s : AndroidSensor) (v : value F) (id : Z) : bytes :=
  format_name s ++ flat_map (fun x => str ":" ++ fmt_g x) (components v) ++ str ":" ++ to_string id.

(** ** The device *)

(** [mSensors] are the configured sensors and the last measurement of each,
    its id and its text; [timer] is the delay the timer was started with. *)
Record SensorDevice := Device {
  mSensors : AndroidSensor -> bool;
  serialized : AndroidSensor -> Z * bytes;
  mPhysicalModel : PhysicalModel (I := I) (F := F);
  mTimeOffsetNs : Z; mEnabledMask : Z; mDelayMs : Z; timer : option Z;
}.

Definition with_serialized (s : AndroidSensor) (x : Z * bytes) (d : SensorDevice) : SensorDevice :=
  Device (mSensors d) (<[s := x]> (serialized d)) (mPhysicalModel d) (mTimeOffsetNs d)
    (mEnabledMask d) (mDelayMs d) (timer d).
Definition with_model (m : PhysicalModel) (d : SensorDevice) : SensorDevice :=
  Device (mSensors d) (serialized d) m (mTimeOffsetNs d) (mEnabledMask d) (mDelayMs d) (timer d).
Definition with_mask (x : Z) (d : SensorDevice) : SensorDevice :=
  Device (mSensors d) (serialized d) (mPhysicalModel d) (mTimeOffsetNs d) x (mDelayMs d) (timer d).
Definition with_delay (x : Z) (d : SensorDevice) : SensorDevice :=
  Device (mSensors d) (serialized d) (mPhysicalModel d) (mTimeOffsetNs d) (mEnabledMask d) x (timer d).
Definition with_offset (x : Z) (d : SensorDevice) : SensorDevice :=
  Device (mSensors d) (serialized d) (mPhysicalModel d) x (mEnabledMask d) (mDelayMs d) (timer d).
Definition with_timer (x : option Z) (d : SensorDevice) : SensorDevice :=
  Device (mSensors d) (serialized d) (mPhysicalModel d) (mTimeOffsetNs d) (mEnabledMask d) (mDelayMs d) x.

Definition bit (s : AndroidSensor) : Z := Z.shiftl 1 (sensor_id s).

(** The time offset is whatever the memory held. *)
Definition SensorDevice_new (hw : hardware) (i : I) (offset : Z) : SensorDevice :=
  let m := (setTarget P_PRESSURE (Float (flt (101325 # 100))) SMOOTH (PhysicalModel0 i)).2 in
  let m := (setTarget P_PROXIMITY (Float (flt 1)) STEP m).2 in
  let mask := fold_left (fun mask s => if configured hw s then Z.lor mask (bit s) else mask) all_sensors 0 in
  Device (configured hw) (fun _ => (0, [])) m offset mask 800 None.

Definition enabled (s : AndroidSensor) (d : SensorDevice) : bool :=
  negb (Z.land (mEnabledMask d) (bit s) =? 0).

(** [serializeSensorValue]: a text of a new measurement is formatted and
    sanitized, the length asserted. *)
Definition serializeSensorValue (s : AndroidSensor) (d : SensorDevice) : option SensorDevice :=
  let '(id, v, m) := getSensorValue hinge s (mPhysicalModel d) in
  let d := with_model m d in
  if id =? (serialized d s).1 then Some d
  else
    let text := measurement_text s v id in
    if zlen text <? 128 then Some (with_serialized s (id, sanitizeSensorString text) d) else None.

(** The loop over the sensors: what is sent, in order. *)
Fixpoint report (ss : list AndroidSensor) (d : SensorDevice) : option (list bytes * SensorDevice) :=
  match ss with
  | [] => Some ([], d)
  | s :: ss =>
      if enabled s d then
        d ← serializeSensorValue s d;
        r ← report ss d;
        Some ((serialized d s).2 :: r.1, r.2)
      else report ss d
  end.

Definition clamp_delay (ms : Z) : Z :=
  if ms <? 10 then 10 else if 60 * 60 * 1000 <? ms then 60 * 60 * 1000 else ms.

Definition tick (now_ns : Z) (d : SensorDevice) : option (list bytes * SensorDevice) :=
  let d := with_model (setCurrentTime now_ns (mPhysicalModel d)).2 d in
  r ← report all_sensors d;
  sync ← int64 (now_ns + mTimeOffsetNs d);
  let lines := [str "guest-sync:" ++ to_string sync; str "sync:" ++ to_string (Z.quot now_ns 1000)] in
  let out := r.1 ++ lines in
  let d := r.2 in
  if existsb (fun line => 64 <=? zlen line) lines then None
  else if mEnabledMask d =? 0 then Some (out, d)
  else let ms := clamp_delay (mDelayMs d) in Some (out, with_timer (Some ms) (with_delay ms d)).

(** The timer is armed once. *)
Definition on_timer (now_ns : Z) (d : SensorDevice) : option (list bytes * SensorDevice) :=
  tick now_ns (with_timer None d).

(** The messages sent, in order. *)
Definition onReceive (msg : bytes) (now_ns : Z) (d : SensorDevice) : option (list bytes * SensorDevice) :=
  if bytes_eqb msg (str "list-sensors") then Some ([to_string (mEnabledMask d)], d)
  else if bytes_eqb msg (str "wake") then Some ([str "wake"], d)
  else
    match strip_prefix (str "set-delay:") msg with
    | Some msg =>
        let '(ok, ms) := SimpleAtoi32 msg in
        let d := with_delay ms d in
        if ok && negb (mEnabledMask d =? 0) then tick now_ns d else Some ([], d)
    | None =>
        match strip_prefix (str "set:") msg with
        | Some msg =>
            match str_split 58 msg with
            | [name; flag] =>
                match sensorIdFromName name with
                | Some s =>
                    if mSensors d s then
                      let mask :=
                        if bytes_eqb flag (str "1") then Z.lor (mEnabledMask d) (bit s)
                        else Z.ldiff (mEnabledMask d) (bit s) in
                      tick now_ns (with_mask mask d)
                    else Some ([], d)
                | None => Some ([], d)
                end
            | _ => Some ([], d)
            end
        | None =>
            match strip_prefix (str "time:") msg with
            | Some msg =>
                let '(ok, guest_time_ns) := SimpleAtoi64 msg in
                if ok then offset ← int64 (guest_time_ns - now_ns); Some ([], with_offset offset d)
                else Some ([], d)
            | None => Some ([], d)
            end
        end
    end.

(** ** The interface of the emulator *)

Inductive status := Ok | InvalidArgument | Unavailable.

(** The status, the events fired and the device. *)
Definition overrideSensor (n : Z) (data : list F) (d : SensorDevice)
    : status * list AndroidSensor * SensorDevice :=
  match sensor_of_id n with
  | None => (InvalidArgument, [], d)
  | Some s =>
      if negb (mSensors d s) then (Unavailable, [], d)
      else
        let target p := (setTarget p (get_value TFloat data) SMOOTH (mPhysicalModel d)).2 in
        let m :=
          match s with
          | HINGE_ANGLE0 => target P_HINGE_ANGLE0
          | HINGE_ANGLE1 => target P_HINGE_ANGLE1
          | HINGE_ANGLE2 => target P_HINGE_ANGLE2
          | _ => (setOverride s (get_value (sensor_type s) data) (mPhysicalModel d)).2
          end in
        (Ok, [s], with_model m d)
  end.

Definition getSensorData (n : Z) (d : SensorDevice) : (status + list F) * SensorDevice :=
  match sensor_of_id n with
  | None => (inl InvalidArgument, d)
  | Some s =>
      if negb (mSensors d s) then (inl Unavailable, d)
      else
        let '(_, v, m) := getSensorValue hinge s (mPhysicalModel d) in
        (inr (components v), with_model m d)
  end.

Definition isSensorEnabled (n : Z) (d : SensorDevice) : bool :=
  match sensor_of_id n with Some s => mSensors d s | None => false end.

(** The offset in nanoseconds given out as microseconds. *)
Definition getSensorTimeOffset (d : SensorDevice) : Z := mTimeOffsetNs d.
Definition getSensorDelayMs (d : SensorDevice) : Z := mDelayMs d.

(** ** Steps *)

Definition device_now (d : SensorDevice) : Z := in_now (mInertialModel (mPhysicalModel d)).

Inductive sensor_step : SensorDevice -> SensorDevice -> Prop :=
  | step_message msg now out d d' :
      device_now d <= now < 2 ^ 63 -> onReceive msg now d = Some (out, d') -> sensor_step d d'
  | step_timer ms now out d d' :
      timer d = Some ms -> device_now d <= now < 2 ^ 63 -> on_timer now d = Some (out, d') -> sensor_step d d'
  | step_override n data d : sensor_step d (overrideSensor n data d).2
  | step_read n d : sensor_step d (getSensorData n d).2.

(** ** Specification: a report without the cache *)

Fixpoint fresh (ss : list AndroidSensor) (mask : Z) (m : PhysicalModel) : list bytes * PhysicalModel :=
  match ss with
  | [] => ([], m)
  | s :: ss =>
      if negb (Z.land mask (bit s) =? 0) then
        let '(id, v, m) := getSensorValue hinge s m in
        let '(out, m) := fresh ss mask m in
        (sanitizeSensorString (measurement_text s v id) :: out, m)
      else fresh ss mask m
  end.

End sensors.

(** ** Lemmas *)

Lemma sensor_of_id_id s : sensor_of_id (sensor_id s) = Some s.
Proof. by destruct s. Qed.

Lemma sensor_id_inj s k : sensor_id s = sensor_id k -> s = k.
Proof. intros E. pose proof (sensor_of_id_id s) as H. rewrite E, sensor_of_id_id in H. congruence. Qed.

Lemma sensor_id_range s : 0 <= sensor_id s < 18.
Proof. destruct s; cbn; lia. Qed.

Lemma elem_of_all_sensors s : s ∈ all_sensors.
Proof. destruct s; unfold all_sensors; repeat (apply list_elem_of_here || apply list_elem_of_further). Qed.

Lemma sanitize_length s : zlen (sanitizeSensorString s) = zlen s.
Proof.
  induction s as [|c s IH]; [done|]. cbn [sanitizeSensorString]. destruct (c =? 0); [done|].
  by rewrite !zlen_cons, IH.
Qed.

Lemma sanitize_bytes s : is_bytes s -> is_bytes (sanitizeSensorString s).
Proof.
  induction 1 as [|c s Hc Hs IH]; [constructor|]. cbn [sanitizeSensorString].
  destruct (c =? 0); [by constructor|]. constructor; [|done]. destruct (c =? 44); [unfold is_byte; lia|done].
Qed.

Section lemmas.
Context {I F : Type} `{Floats F} `{Inertial I F} `{!InertialLaws I F}.
Context (hinge : nat -> F) (fmt_g : F -> bytes).
Context (SimpleAtoi32 SimpleAtoi64 : bytes -> bool * Z).

Implicit Types (d : SensorDevice (I := I) (F := F)).
#[local] Opaque all_sensors.

Abbreviation text := (measurement_text fmt_g).

(** The reader of a sensor never sees the id zero, which an empty cache
    has. *)
Definition ids_begun (m : PhysicalModel (I := I) (F := F)) : Prop :=
  forall s, (mUseOverride m s = true -> 1 <= mMeasurementId m s) /\
            (mIsPhysicalStateChanging m = false -> 1 <= mMeasurementId m s).

Definition cached (log : list (reading (F := F))) (s : AndroidSensor) (x : Z * bytes) : Prop :=
  x = (0, []) \/
  exists v, (s, x.1, v) ∈ log /\ x.2 = sanitizeSensorString (text s v x.1).

Definition mask_ok (d : SensorDevice (I := I) (F := F)) : Prop :=
  0 <= mEnabledMask d /\
  forall n, Z.testbit (mEnabledMask d) n = true -> exists s, sensor_id s = n /\ mSensors d s = true.

Definition dev_ok (d : SensorDevice (I := I) (F := F)) : Prop :=
  exists log, model_ok hinge false false log (mPhysicalModel d) /\ ids_begun (mPhysicalModel d) /\
    (forall s, cached log s (serialized d s)) /\ mask_ok d /\
    (forall ms, timer d = Some ms -> 10 <= ms <= 3600000).

Lemma ids_begun_time t m :
  (forall s, 0 <= mMeasurementId m s) -> ids_begun m -> ids_begun (setCurrentTime t m).2.
Proof.
  intros Hz Hm s. destruct (setCurrentTime_cases t m) as (Eu & _ & _ & _ & _ & Hc).
  rewrite Eu. destruct (Hm s) as [Hu Hn]. specialize (Hz s).
  destruct (fst (in_setCurrentTime t (mInertialModel m)) && mIsPhysicalStateChanging m).
  - destruct Hc as [_ Eid]. rewrite Eid. split; lia.
  - destruct Hc as [Ec Eid]. by rewrite Ec, Eid.
Qed.

Lemma ids_begun_target p v mode m : ids_begun (setTarget p v mode m).2.
Proof.
  intros s. destruct (target_fields p v mode m) as (Ec & _ & _ & Eu & _).
  by rewrite Ec, Eu.
Qed.

Lemma ids_begun_override k v m :
  (forall s, 0 <= mMeasurementId m s) -> ids_begun m -> ids_begun (setOverride k v m).2.
Proof.
  intros Hz Hm s. cbn. destruct (decide (k = s)) as [->|Hne].
  - rewrite !fn_lookup_insert. split; [specialize (Hz s); lia|done].
  - rewrite !fn_lookup_insert_ne by done. split; [apply (proj1 (Hm s))|done].
Qed.

Lemma ids_begun_get k m :
  (forall s, 0 <= mMeasurementId m s) -> ids_begun m ->
  let '(id, v, m') := getSensorValue hinge k m in 1 <= id /\ ids_begun m'.
Proof.
  intros Hz Hm. unfold getSensorValue. destruct (mUseOverride m k) eqn:Eu.
  - split; [by apply (proj1 (Hm k))|done].
  - destruct (mIsPhysicalStateChanging m) eqn:Ec.
    + cbn. rewrite fn_lookup_insert. specialize (Hz k) as Hk. split; [lia|].
      intros s. cbn. destruct (decide (k = s)) as [->|Hne].
      * rewrite fn_lookup_insert. split; [lia|done].
      * rewrite fn_lookup_insert_ne by done. split; [apply (proj1 (Hm s))|done].
    + split; [by apply (proj2 (Hm k))|done].
Qed.

Lemma cached_app log log' s x : cached log s x -> cached (log ++ log') s x.
Proof. intros [->|(v & Hin & E)]; [by left|]. right. exists v. split; [apply elem_of_app; by left|done]. Qed.

(** What a formatting step leaves alone. *)
Definition same_but_reading (d d' : SensorDevice (I := I) (F := F)) : Prop :=
  mSensors d' = mSensors d /\ mTimeOffsetNs d' = mTimeOffsetNs d /\
  mEnabledMask d' = mEnabledMask d /\ mDelayMs d' = mDelayMs d /\ timer d' = timer d /\
  device_now d' = device_now d.

Lemma mask_ok_frame d d' :
  mSensors d' = mSensors d -> mEnabledMask d' = mEnabledMask d -> mask_ok d -> mask_ok d'.
Proof. intros E1 E2. unfold mask_ok. by rewrite E1, E2. Qed.

(** Formatting with the cache is formatting afresh. *)
Lemma serialize_fresh s d d' :
  dev_ok d -> serializeSensorValue hinge fmt_g s d = Some d' ->
  let '(id, v, m) := getSensorValue hinge s (mPhysicalModel d) in
  (serialized d' s).2 = sanitizeSensorString (text s v id) /\ mPhysicalModel d' = m /\
  same_but_reading d d' /\ dev_ok d'.
Proof.
  intros (log & Hm & Hb & Hs & Hmask & Htimer) E. unfold serializeSensorValue in E.
  pose proof (reading_ok hinge false false log s _ Hm) as Hg.
  pose proof (ids_begun_get s _ (ok_ids _ _ _ _ _ Hm) Hb) as Hb'.
  pose proof (physics_step_now hinge false false (Get s) log (mPhysicalModel d) Hm Logic.I) as Hnow. cbn in Hnow.
  destruct (getSensorValue hinge s (mPhysicalModel d)) as [[id v] m]. destruct Hb' as [Hid Hb']. cbn in Hnow.
  assert ((s, id, v) ∈ log ++ [(s, id, v)]) as Hin by (apply elem_of_app; right; by apply list_elem_of_singleton).
  cbn [with_model serialized] in E. destruct (Z.eqb_spec id (serialized d s).1) as [Eid|Eid].
  - injection E as <-. cbn. split_and!; try done.
    + destruct (Hs s) as [E0|(w & Hw & ->)].
      * rewrite E0 in Eid. cbn in Eid. lia.
      * rewrite <- Eid in Hw |- *. replace w with v; [done|].
        eapply ok_unique; [exact Hg|done|exact Hin|]. apply elem_of_app. by left.
    + exists (log ++ [(s, id, v)]). split_and!; try done. intros k. by apply cached_app.
  - destruct (zlen (text s v id) <? 128); [|done]. injection E as <-. cbn.
    rewrite fn_lookup_insert. split_and!; try done.
    exists (log ++ [(s, id, v)]). split_and!; try done. intros k. cbn.
    destruct (decide (s = k)) as [->|Hne].
    + rewrite fn_lookup_insert. right. by exists v.
    + rewrite fn_lookup_insert_ne by done. by apply cached_app.
Qed.

Lemma report_fresh ss : forall d out d',
  dev_ok d -> report hinge fmt_g ss d = Some (out, d') ->
  fresh hinge fmt_g ss (mEnabledMask d) (mPhysicalModel d) = (out, mPhysicalModel d') /\
  same_but_reading d d' /\ dev_ok d'.
Proof.
  induction ss as [|s ss IH]; intros d out d' Hd E; cbn [report fresh] in *.
  { injection E as <- <-. split_and!; done. }
  unfold enabled in E. destruct (negb (Z.land (mEnabledMask d) (bit s) =? 0)); [|by apply IH].
  destruct (serializeSensorValue hinge fmt_g s d) as [d1|] eqn:E1; [|done]. cbn [mbind option_bind] in E.
  destruct (report hinge fmt_g ss d1) as [[out1 d2]|] eqn:E2; [|done]. cbn [mbind option_bind fst snd] in E.
  injection E as <- <-. pose proof (serialize_fresh s d d1 Hd E1) as Hf.
  destruct (getSensorValue hinge s (mPhysicalModel d)) as [[id v] m].
  destruct Hf as (-> & <- & Hsame & Hd1). destruct (IH d1 _ _ Hd1 E2) as (Hfr & Hsame2 & Hd2).
  destruct Hsame as (?&?&Em&?&?&?). rewrite Em in Hfr. rewrite Hfr. split_and!; try done.
  unfold same_but_reading in *. destruct Hsame2 as (?&?&?&?&?&?). split_and!; congruence.
Qed.

Lemma clamp_delay_range ms : 10 <= clamp_delay ms <= 3600000.
Proof. unfold clamp_delay. destruct (Z.ltb_spec ms 10); [lia|]. destruct (Z.ltb_spec (60 * 60 * 1000) ms); lia. Qed.

Lemma tick_spec now d out d' :
  dev_ok d -> device_now d <= now < 2 ^ 63 -> tick hinge fmt_g now d = Some (out, d') ->
  out = (fresh hinge fmt_g all_sensors (mEnabledMask d) (setCurrentTime now (mPhysicalModel d)).2).1 ++
        [str "guest-sync:" ++ to_string (now + mTimeOffsetNs d); str "sync:" ++ to_string (Z.quot now 1000)] /\
  mEnabledMask d' = mEnabledMask d /\ mSensors d' = mSensors d /\ mTimeOffsetNs d' = mTimeOffsetNs d /\
  (if mEnabledMask d =? 0 then timer d' = timer d /\ mDelayMs d' = mDelayMs d
   else timer d' = Some (clamp_delay (mDelayMs d)) /\ mDelayMs d' = clamp_delay (mDelayMs d)) /\
  device_now d' = now /\ dev_ok d'.
Proof.
  intros Hd Hnow E. unfold tick in E. set (d0 := with_model (setCurrentTime now (mPhysicalModel d)).2 d) in *.
  assert (dev_ok d0 /\ device_now d0 = now) as [Hd0 Hn0].
  { destruct Hd as (log & Hm & Hb & Hs & Hmask & Ht). split.
    - exists log. cbn. split_and!; try done.
      + apply time_ok; [done|]. unfold device_now in Hnow. lia.
      + apply ids_begun_time; [apply Hm|done].
    - apply (physics_step_now hinge false false (SetTime now) log (mPhysicalModel d) Hm).
      unfold device_now in Hnow. cbn. split; [lia|done]. }
  destruct (report hinge fmt_g all_sensors d0) as [[out1 d1]|] eqn:E1; [|done]. cbn [mbind option_bind fst snd] in E.
  destruct (report_fresh _ _ _ _ Hd0 E1) as (Hf & (E2 & E3 & E4 & E5 & E6 & E7) & Hd1).
  cbn [d0 with_model mEnabledMask mSensors mTimeOffsetNs mDelayMs timer mPhysicalModel] in E2, E3, E4, E5, E6, Hf.
  rewrite E4, E5 in E. change (mTimeOffsetNs d0) with (mTimeOffsetNs d) in E. unfold int64 in E. destruct (_ && _); [|done]. cbn [mbind option_bind] in E.
  destruct (existsb _ _); [done|].
  rewrite Hf. cbn [fst].
  destruct Hd1 as (log & Hm & Hb & Hs & Hmask & Ht).
  destruct (mEnabledMask d =? 0); injection E as <- <-; (split; [reflexivity|]);
    (split; [exact E4|]); (split; [exact E2|]); (split; [exact E3|]).
  - split; [split; [exact E6|exact E5]|]. split; [by rewrite E7|]. by exists log.
  - split; [split; reflexivity|]. split; [by rewrite <- Hn0, <- E7|]. exists log.
    split; [exact Hm|]. split; [exact Hb|]. split; [exact Hs|]. split; [exact Hmask|].
    intros ms [= <-]. apply clamp_delay_range.
Qed.

Lemma tick_ok now d out d' :
  dev_ok d -> device_now d <= now < 2 ^ 63 -> tick hinge fmt_g now d = Some (out, d') -> dev_ok d'.
Proof. intros Hd Hn E. by destruct (tick_spec now d out d' Hd Hn E) as (_ & _ & _ & _ & _ & _ & Hok). Qed.

Lemma bit_spec s n : 0 <= n -> Z.testbit (bit s) n = (n =? sensor_id s).
Proof.
  intros Hn. unfold bit. pose proof (sensor_id_range s). rewrite Z.shiftl_1_l, Z.pow2_bits_eqb by lia.
  apply Z.eqb_sym.
Qed.

Lemma enabled_spec s d : enabled s d = Z.testbit (mEnabledMask d) (sensor_id s).
Proof. unfold enabled, bit. apply land_bit. pose proof (sensor_id_range s). lia. Qed.

Lemma lor_mask_ok d s : mask_ok d -> mSensors d s = true -> mask_ok (with_mask (Z.lor (mEnabledMask d) (bit s)) d).
Proof.
  intros [Hz Hm] Hs. split; cbn.
  - apply Z.lor_nonneg. split; [done|]. unfold bit. apply Z.shiftl_nonneg. lia.
  - intros n. rewrite Z.lor_spec. intros [Hn|Hn]%orb_true_iff; [by apply Hm|].
    destruct (Z.lt_ge_cases n 0); [by rewrite Z.testbit_neg_r in Hn|].
    rewrite bit_spec in Hn by done. apply Z.eqb_eq in Hn as ->. by exists s.
Qed.

Lemma ldiff_mask_ok d s : mask_ok d -> mask_ok (with_mask (Z.ldiff (mEnabledMask d) (bit s)) d).
Proof.
  intros [Hz Hm]. split; cbn.
  - apply Z.ldiff_nonneg. by left.
  - intros n. rewrite Z.ldiff_spec. intros [Hn _]%andb_true_iff. by apply Hm.
Qed.

(** The parts of a device its invariant is about. *)
Lemma dev_ok_frame d d' :
  mSensors d' = mSensors d -> serialized d' = serialized d -> mPhysicalModel d' = mPhysicalModel d ->
  mask_ok d' -> (timer d' = timer d \/ timer d' = None) -> dev_ok d -> dev_ok d'.
Proof.
  intros E1 E2 E3 Hm E4 (log & H1 & H2 & H3 & H4 & H5). exists log. rewrite E2, E3. split_and!; try done.
  intros ms Hms. destruct E4; [apply H5|]; congruence.
Qed.

Lemma dev_ok_mask_ok d : dev_ok d -> mask_ok d.
Proof. intros (log & H1 & H2 & H3 & H4 & H5). exact H4. Qed.

Lemma onReceive_ok msg now d out d' :
  dev_ok d -> device_now d <= now < 2 ^ 63 ->
  onReceive hinge fmt_g SimpleAtoi32 SimpleAtoi64 msg now d = Some (out, d') -> dev_ok d'.
Proof.
  intros Hd Hnow E. pose proof (dev_ok_mask_ok d Hd) as Hmask. unfold onReceive in E.
  destruct (bytes_eqb msg (str "list-sensors")); [by injection E as <- <-|].
  destruct (bytes_eqb msg (str "wake")); [by injection E as <- <-|].
  destruct (strip_prefix (str "set-delay:") msg) as [rest|].
  { destruct (SimpleAtoi32 rest) as [ok ms].
    assert (dev_ok (with_delay ms d)) as Hd' by (eapply dev_ok_frame; eauto; exact Hmask).
    destruct (ok && _); [|by injection E as <- <-].
    by eapply tick_ok in E. }
  destruct (strip_prefix (str "set:") msg) as [rest|].
  { destruct (str_split 58 rest) as [|name [|flag [|]]]; try by injection E as <- <-.
    destruct (sensorIdFromName name) as [s|]; [|by injection E as <- <-].
    destruct (mSensors d s) eqn:Es; [|by injection E as <- <-].
    assert (forall mask, mask_ok (with_mask mask d) -> dev_ok (with_mask mask d)) as Hm.
    { intros mask Hok. eapply dev_ok_frame; [..|exact Hok| |exact Hd]; auto. }
    revert E. apply tick_ok; [|exact Hnow]. apply Hm.
    destruct (bytes_eqb flag (str "1")); [by apply lor_mask_ok|by apply ldiff_mask_ok]. }
  destruct (strip_prefix (str "time:") msg) as [rest|]; [|by injection E as <- <-].
  destruct (SimpleAtoi64 rest) as [ok t]. destruct ok; [|by injection E as <- <-].
  destruct (int64 (t - now)); [|done]. injection E as <- <-.
  eapply dev_ok_frame; [..|exact Hd]; cbn; auto.
Qed.

Lemma override_dev_ok n data d : dev_ok d -> dev_ok (overrideSensor n data d).2.
Proof.
  intros Hd. unfold overrideSensor. destruct (sensor_of_id n) as [s|]; [|done].
  destruct (mSensors d s); cbn [negb snd]; [|done].
  destruct Hd as (log & H1 & H2 & H3 & H4 & H5). exists log. cbn [with_model mPhysicalModel serialized timer].
  assert (type_of (get_value TFloat data) = TFloat) by done.
  split; [|split; [|done]].
  - destruct s; first [by apply target_ok|by apply override_ok].
  - destruct s; first [by apply ids_begun_target|apply ids_begun_override; [apply H1|done]].
Qed.

Lemma read_dev_ok n d : dev_ok d -> dev_ok (getSensorData hinge n d).2.
Proof.
  intros Hd. unfold getSensorData. destruct (sensor_of_id n) as [s|]; [|done].
  destruct (mSensors d s); cbn [negb snd]; [|done].
  destruct Hd as (log & H1 & H2 & H3 & H4 & H5).
  pose proof (reading_ok hinge false false log s _ H1) as Hg. pose proof (ids_begun_get s _ (ok_ids _ _ _ _ _ H1) H2) as Hb.
  destruct (getSensorValue hinge s (mPhysicalModel d)) as [[id v] m]. cbn.
  exists (log ++ [(s, id, v)]). cbn. split_and!; try done; [tauto|]. intros k. by apply cached_app.
Qed.

Lemma sensor_step_ok d d' :
  sensor_step hinge fmt_g SimpleAtoi32 SimpleAtoi64 d d' -> dev_ok d -> dev_ok d'.
Proof.
  intros Hs Hd. destruct Hs as [msg now out d d' Hn E|ms now out d d' Ht Hn E|n data d|n d].
  - by eapply onReceive_ok.
  - revert E. apply tick_ok; [|exact Hn]. apply (dev_ok_frame d);
      [done|done|done|exact (dev_ok_mask_ok d Hd)|by right|done].
  - by apply override_dev_ok.
  - by apply read_dev_ok.
Qed.

Lemma new_mask hw ss : forall mask n, 0 <= n ->
  Z.testbit (fold_left (fun mask s => if configured hw s then Z.lor mask (bit s) else mask) ss mask) n =
  Z.testbit mask n || existsb (fun s => configured hw s && (n =? sensor_id s)) ss.
Proof.
  induction ss as [|s ss IH]; intros mask n Hn; cbn [fold_left existsb]; [by rewrite orb_false_r|].
  rewrite IH by done. destruct (configured hw s); cbn [andb orb]; [|done].
  by rewrite Z.lor_spec, bit_spec, orb_assoc.
Qed.

Lemma new_mask_nonneg hw ss : forall mask, 0 <= mask ->
  0 <= fold_left (fun mask s => if configured hw s then Z.lor mask (bit s) else mask) ss mask.
Proof.
  induction ss as [|s ss IH]; intros mask Hz; cbn [fold_left]; [done|]. apply IH.
  destruct (configured hw s); [|done]. apply Z.lor_nonneg. split; [done|].
  unfold bit. apply Z.shiftl_nonneg. lia.
Qed.

Lemma new_ok hw i offset : in_quiet i -> in_settled i -> dev_ok (SensorDevice_new hw i offset).
Proof.
  intros Hq Hi. exists []. split_and!.
  - unfold SensorDevice_new. cbn [mPhysicalModel].
    apply target_ok; [|done|done]. apply target_ok; [|done|done]. by apply PhysicalModel0_ok.
  - apply ids_begun_target.
  - intros s. by left.
  - split.
    + by apply new_mask_nonneg.
    + intros n Hn. destruct (Z.lt_ge_cases n 0); [by rewrite Z.testbit_neg_r in Hn|].
      cbn [SensorDevice_new mEnabledMask mSensors] in Hn |- *. rewrite new_mask in Hn by done.
      rewrite Z.testbit_0_l in Hn. cbn [orb] in Hn. apply existsb_exists in Hn as (s & _ & Hs).
      apply andb_true_iff in Hs as [Hc ->%Z.eqb_eq]. by exists s.
  - done.
Qed.

Definition reachable (d : SensorDevice (I := I) (F := F)) : Prop :=
  exists hw i offset, in_quiet i /\ in_settled i /\
    rtc (sensor_step hinge fmt_g SimpleAtoi32 SimpleAtoi64) (SensorDevice_new hw i offset) d.

Lemma dev_ok_now d : dev_ok d -> 0 <= device_now d.
Proof. intros (log & Hm & _). apply Hm. Qed.

Lemma reachable_dev_ok d : reachable d -> dev_ok d.
Proof.
  intros (hw & i & offset & Hq & Hi & Hs). pose proof (new_ok hw i offset Hq Hi) as Hnew.
  induction Hs as [|d1 d2 d3 Hs _ IH]; [done|]. by apply IH, (sensor_step_ok d1).
Qed.

End lemmas.

(** ** Totality *)

Section total.
Context {I F : Type} `{Floats F} `{Inertial I F} `{!InertialLaws I F}.
Context (hinge : nat -> F) (fmt_g : F -> bytes).
Context (SimpleAtoi32 SimpleAtoi64 : bytes -> bool * Z).
Implicit Types (d : SensorDevice (I := I) (F := F)).
#[local] Opaque all_sensors.

(** [%g] prints at most 13 characters of a number. *)
Hypothesis fmt_short : forall x, is_bytes (fmt_g x) /\ zlen (fmt_g x) <= 16.

Definition ids_below (b : Z) (m : PhysicalModel (I := I) (F := F)) : Prop :=
  forall s, 0 <= mMeasurementId m s < b.

Lemma str_bytes s : is_bytes (str s).
Proof.
  unfold str. apply Forall_fmap, Forall_forall. intros c _. unfold is_byte. cbn.
  pose proof (Ascii.N_ascii_bounded c). lia.
Qed.

Lemma components_length v : zlen (components (F := F) v) <= 4.
Proof. destruct v; unfold zlen; cbn; lia. Qed.

Lemma texts_length (l : list F) : zlen (flat_map (fun x => str ":" ++ fmt_g x) l) <= 17 * zlen l.
Proof.
  induction l as [|x l IH]; [done|]. cbn [flat_map]. rewrite !zlen_app, zlen_cons.
  change (zlen (str ":")) with 1. destruct (fmt_short x). lia.
Qed.

Lemma texts_bytes (l : list F) : is_bytes (flat_map (fun x => str ":" ++ fmt_g x) l).
Proof.
  induction l as [|x l IH]; [constructor|]. cbn [flat_map]. repeat apply Forall_app_2;
    [apply str_bytes|apply fmt_short|done].
Qed.

Lemma format_name_length s : zlen (format_name s) <= 25.
Proof. destruct s; by vm_compute. Qed.

Lemma format_name_bytes s : is_bytes (format_name s).
Proof. destruct s; apply str_bytes. Qed.

Lemma measurement_text_length s v id :
  0 <= id < 10 ^ 18 -> 1 <= zlen (measurement_text fmt_g s v id) < 128.
Proof.
  intros Hid. unfold measurement_text. rewrite !zlen_app. change (zlen (str ":")) with 1.
  pose proof (format_name_length s). pose proof (texts_length (components v)).
  pose proof (components_length v). pose proof (to_string_digits id 18 Hid).
  pose proof (zlen_nonneg (format_name s)). pose proof (zlen_nonneg (to_string id)).
  pose proof (zlen_nonneg (flat_map (fun x => str ":" ++ fmt_g x) (components v))). lia.
Qed.

Lemma measurement_text_bytes s v id : is_bytes (measurement_text fmt_g s v id).
Proof.
  unfold measurement_text. repeat apply Forall_app_2;
    [apply format_name_bytes|apply texts_bytes|apply str_bytes|apply to_string_bytes].
Qed.

Lemma ids_below_get b s m :
  ids_below b m -> let '(id, _, m') := getSensorValue hinge s m in 0 <= id < b + 1 /\ ids_below (b + 1) m'.
Proof.
  intros Hb. pose proof (getSensorValue_cases hinge s m) as Hc.
  destruct (getSensorValue hinge s m) as [[id v] m'].
  destruct Hc as [(_ & -> & ->)|(_ & _ & _ & -> & Eid & _)].
  - split; [specialize (Hb s); lia|]. intros k. specialize (Hb k). lia.
  - split; [specialize (Hb s); lia|]. intros k. rewrite Eid. destruct (decide (s = k)) as [->|].
    + rewrite fn_lookup_insert. specialize (Hb k). lia.
    + rewrite fn_lookup_insert_ne by done. specialize (Hb k). lia.
Qed.

Lemma ids_below_time b t m : ids_below b m -> ids_below (b + 1) (setCurrentTime t m).2.
Proof.
  intros Hb s. destruct (setCurrentTime_cases t m) as (_ & _ & _ & _ & _ & Hc). specialize (Hb s).
  destruct (_ && _); [destruct Hc as [_ ->]|destruct Hc as [_ ->]]; lia.
Qed.

Lemma report_total ss : forall d,
  ids_below (10 ^ 18 - zlen ss) (mPhysicalModel d) -> is_Some (report hinge fmt_g ss d).
Proof.
  induction ss as [|s ss IH]; intros d Hb; cbn [report]; [by eexists|]. rewrite zlen_cons in Hb.
  destruct (enabled s d); [|apply IH; intros k; specialize (Hb k); pose proof (zlen_nonneg ss); lia].
  unfold serializeSensorValue. pose proof (ids_below_get _ s _ Hb) as Hg.
  destruct (getSensorValue hinge s (mPhysicalModel d)) as [[id v] m]. destruct Hg as [Hid Hm].
  assert (forall d1, mPhysicalModel d1 = m -> is_Some (report hinge fmt_g ss d1)) as Hrest.
  { intros d1 E. apply IH. rewrite E. intros k. specialize (Hm k). lia. }
  assert (forall d1, mPhysicalModel d1 = m ->
    is_Some (r ← report hinge fmt_g ss d1; Some ((serialized d1 s).2 :: r.1, r.2))) as Hgo.
  { intros d1 E. destruct (Hrest d1 E) as [r ->]. by eexists. }
  destruct (id =? (serialized (with_model m d) s).1); [by apply Hgo|].
  pose proof (zlen_nonneg ss). rewrite (proj2 (Z.ltb_lt _ _)); [by apply Hgo|].
  apply measurement_text_length. lia.
Qed.

Lemma fresh_sendable ss mask : forall m,
  ids_below (10 ^ 18 - zlen ss) m -> Forall sendable (fresh hinge fmt_g ss mask m).1.
Proof.
  induction ss as [|s ss IH]; intros m Hb; cbn [fresh]; [constructor|]. rewrite zlen_cons in Hb.
  pose proof (zlen_nonneg ss).
  destruct (negb _); [|apply IH; intros k; specialize (Hb k); lia].
  pose proof (ids_below_get _ s _ Hb) as Hg.
  destruct (getSensorValue hinge s m) as [[id v] m']. destruct Hg as [Hid Hm].
  assert (Forall sendable (fresh hinge fmt_g ss mask m').1) as Hr.
  { apply IH. intros k. specialize (Hm k). lia. }
  destruct (fresh hinge fmt_g ss mask m') as [out m'']. constructor; [|exact Hr].
  pose proof (measurement_text_length s v id ltac:(lia)). split.
  - apply sanitize_bytes, measurement_text_bytes.
  - rewrite sanitize_length. lia.
Qed.

Lemma quot_range n : 0 <= n < 2 ^ 63 -> - 2 ^ 63 <= Z.quot n 1000 < 2 ^ 63.
Proof. intros Hn. rewrite Z.quot_div_nonneg by lia. Z.to_euclidean_division_equations. lia. Qed.

Lemma line_length name n :
  zlen name <= 11 -> - 2 ^ 63 <= n < 2 ^ 63 -> zlen (name ++ to_string n) < 64.
Proof. intros Hn Hz. rewrite zlen_app. pose proof (to_string_int64 n Hz). lia. Qed.

Lemma line_sendable name n :
  0 < zlen (str name) <= 11 -> - 2 ^ 63 <= n < 2 ^ 63 -> sendable (str name ++ to_string n).
Proof.
  intros Hn Hz. pose proof (line_length (str name) n (proj2 Hn) Hz). split.
  - apply Forall_app_2; [apply str_bytes|apply to_string_bytes].
  - rewrite zlen_app in *. pose proof (zlen_nonneg (to_string n)). lia.
Qed.

Lemma tick_total now d :
  ids_below (10 ^ 18 - 20) (mPhysicalModel d) -> 0 <= now < 2 ^ 63 ->
  - 2 ^ 63 <= now + mTimeOffsetNs d < 2 ^ 63 -> is_Some (tick hinge fmt_g now d).
Proof.
  intros Hb Hnow Hs. unfold tick.
  set (d0 := with_model (setCurrentTime now (mPhysicalModel d)).2 d).
  assert (ids_below (10 ^ 18 - zlen all_sensors) (mPhysicalModel d0)) as Hb0.
  { intros k. pose proof (ids_below_time _ now _ Hb k) as Hk. cbn. change (zlen all_sensors) with 18. lia. }
  destruct (report_total _ _ Hb0) as [[out d1] ->]. cbn [mbind option_bind fst snd].
  change (mTimeOffsetNs d0) with (mTimeOffsetNs d). unfold int64.
  rewrite (proj2 (Z.leb_le _ _)), (proj2 (Z.ltb_lt (now + _) _)) by lia. cbn [andb mbind option_bind].
  cbn [existsb]. rewrite !(proj2 (Z.leb_gt 64 _)).
  - cbn [orb]. destruct (mEnabledMask d1 =? 0); by eexists.
  - apply line_length; [done|]. by apply quot_range.
  - by apply line_length.
Qed.

End total.

(** ** Properties *)

Section properties.
Context {I F : Type} `{Floats F} `{Inertial I F} `{!InertialLaws I F}.
Context (hinge : nat -> F) (fmt_g : F -> bytes).
Context (SimpleAtoi32 SimpleAtoi64 : bytes -> bool * Z).
Implicit Types (d : SensorDevice (I := I) (F := F)).
#[local] Opaque all_sensors.

Lemma tick_mask now d out d' k :
  dev_ok hinge fmt_g d -> device_now d <= now < 2 ^ 63 -> tick hinge fmt_g now d = Some (out, d') ->
  enabled k d' = enabled k d.
Proof.
  intros Hd Hn E. destruct (tick_spec hinge fmt_g now d out d' Hd Hn E) as (_ & Em & _).
  unfold enabled. by rewrite Em.
Qed.

Lemma set_message s flag now d :
  (forall c, c ∈ flag -> c <> 58) ->
  onReceive hinge fmt_g SimpleAtoi32 SimpleAtoi64 (str "set:" ++ sensor_name s ++ 58 :: flag) now d =
  if mSensors d s then
    tick hinge fmt_g now
      (with_mask (if bytes_eqb flag (str "1") then Z.lor (mEnabledMask d) (bit s)
                  else Z.ldiff (mEnabledMask d) (bit s)) d)
  else Some ([], d).
Proof.
  intros Hf.
  assert (forall p, str_split 58 (p ++ 58 :: flag) = str_split 58 p ++ [flag]) as Hsplit.
  { assert (str_split 58 flag = [flag]) as Hflag.
    { clear -Hf. induction flag as [|c flag IH]; [done|]. cbn [str_split].
      rewrite (proj2 (Z.eqb_neq _ _)) by (apply Hf; left). rewrite IH; [done|].
      intros x Hx. apply Hf. by right. }
    induction p as [|c p IH]; cbn [app str_split].
    - by rewrite Z.eqb_refl, Hflag.
    - rewrite IH. destruct (c =? 58); [done|].
      destruct (str_split 58 p) eqn:Ep; [|done]. exfalso. clear -Ep. destruct p as [|x p]; [done|].
      cbn in Ep. destruct (x =? 58); [done|]. by destruct (str_split 58 p). }
  assert (str_split 58 (sensor_name s) = [sensor_name s]) as Hname by (by destruct s).
  assert (sensorIdFromName (sensor_name s) = Some s) as Hid by (by destruct s).
  unfold onReceive.
  assert (forall w, w ∈ [str "list-sensors"; str "wake"] ->
    bytes_eqb (str "set:" ++ sensor_name s ++ 58 :: flag) w = false) as Hne.
  { intros w Hw. repeat (apply elem_of_cons in Hw; destruct Hw as [->|Hw]; [done|]). by apply elem_of_nil in Hw. }
  rewrite !Hne by set_solver.
  change (strip_prefix (str "set-delay:") (str "set:" ++ sensor_name s ++ 58 :: flag)) with (@None bytes).
  rewrite strip_prefix_app, Hsplit, Hname. cbn [app]. by rewrite Hid.
Qed.

(** C22: The report of a tick is what it would be without the cache of formatted
    measurements: in every reachable state it consists of the present values of
    the enabled sensors in their order and the two lines of time, the guest's
    reader gets exactly these lines as packets, and as long as a sensor is
    enabled the timer is started again, with a delay between ten milliseconds
    and an hour.  No assertion about the length of a line fails while the
    measurement ids have at most 17 digits. *)
Theorem sensor_report now d :
  (forall x, is_bytes (fmt_g x) /\ zlen (fmt_g x) <= 16) ->
  reachable hinge fmt_g SimpleAtoi32 SimpleAtoi64 d -> device_now d <= now < 2 ^ 63 ->
  ids_below (10 ^ 18 - 20) (mPhysicalModel d) -> - 2 ^ 63 <= now + mTimeOffsetNs d < 2 ^ 63 ->
  let out :=
    (fresh hinge fmt_g all_sensors (mEnabledMask d) (setCurrentTime now (mPhysicalModel d)).2).1 ++
    [str "guest-sync:" ++ to_string (now + mTimeOffsetNs d); str "sync:" ++ to_string (Z.quot now 1000)] in
  exists d', tick hinge fmt_g now d = Some (out, d') /\
    packets (concat (flat_map qemud_sendAsync out)) = (out, []) /\
    mEnabledMask d' = mEnabledMask d /\
    (mEnabledMask d <> 0 -> exists ms, timer d' = Some ms /\ mDelayMs d' = ms /\ 10 <= ms <= 3600000).
Proof.
  intros Hfmt Hr Hn Hb Hs out. pose proof (reachable_dev_ok _ _ _ _ d Hr) as Hd.
  assert (0 <= now < 2 ^ 63) as Hnow by (pose proof (dev_ok_now _ _ d Hd); lia).
  destruct (tick_total hinge fmt_g Hfmt now d Hb Hnow Hs) as [[out1 d'] E].
  destruct (tick_spec hinge fmt_g now d out1 d' Hd Hn E) as (-> & Em & _ & _ & Ht & _).
  exists d'. split; [exact E|]. split; [|split; [exact Em|]].
  - assert (Forall sendable out) as Hsend.
    { apply Forall_app_2.
      - apply fresh_sendable; [exact Hfmt|]. intros k. pose proof (ids_below_time _ now _ Hb k).
        change (zlen all_sensors) with 18. lia.
      - apply Forall_cons_2; [|apply Forall_cons_2; [|apply Forall_nil_2]]; (apply line_sendable; [split; by vm_compute|]).
        + done.
        + by apply quot_range. }
    rewrite flat_map_concat_map, sent_stream_concat. by apply packets_sent_stream.
  - intros Hne. rewrite (proj2 (Z.eqb_neq _ _) Hne) in Ht. destruct Ht as [Ht Hdelay].
    exists (clamp_delay (mDelayMs d)). split; [done|]. split; [done|]. apply clamp_delay_range.
Qed.

(** The commands of the guest: the answer to [list-sensors] is the number
    whose bits are the sensors enabled at that moment, all of them in the
    configuration; [set] turns exactly its sensor on or off and reports; for a
    sensor that is not configured it does nothing. *)
Theorem sensor_commands now d s :
  reachable hinge fmt_g SimpleAtoi32 SimpleAtoi64 d -> device_now d <= now < 2 ^ 63 ->
  let recv m := onReceive hinge fmt_g SimpleAtoi32 SimpleAtoi64 m now d in
  (exists t, recv (str "list-sensors") = Some ([t], d) /\ strtoll t = (mEnabledMask d, false, [])) /\
  (forall k, enabled k d = true -> mSensors d k = true) /\
  (forall out d', recv (str "set:" ++ sensor_name s ++ str ":1") = Some (out, d') ->
   forall k, enabled k d' = enabled k d || (bool_decide (k = s) && mSensors d s)) /\
  (forall out d', recv (str "set:" ++ sensor_name s ++ str ":0") = Some (out, d') ->
   forall k, enabled k d' = enabled k d && negb (bool_decide (k = s) && mSensors d s)) /\
  (mSensors d s = false -> forall flag, (forall c, c ∈ flag -> c <> 58) ->
   recv (str "set:" ++ sensor_name s ++ 58 :: flag) = Some ([], d)).
Proof.
  intros Hr Hn. pose proof (reachable_dev_ok _ _ _ _ d Hr) as Hd. pose proof (dev_ok_mask_ok _ _ d Hd) as [Hz Hm].
  cbv zeta.
  assert (forall mask, mask_ok (with_mask mask d) -> dev_ok hinge fmt_g (with_mask mask d)) as Hmask.
  { intros mask Hok. eapply dev_ok_frame; [..|exact Hok| |exact Hd]; auto. }
  split_and!.
  - eexists. split; [reflexivity|]. assert (mEnabledMask d < 2 ^ 18) as Hlt.
    { assert (in_u 18 (mEnabledMask d)) as [_ ?]; [|done]. apply in_u_of_bits; [lia|done|].
      intros n Hn18. apply not_true_iff_false. intros Hb. apply Hm in Hb as (k & <- & _).
      pose proof (sensor_id_range k). lia. }
    pose proof (strtoll_to_string (mEnabledMask d) [] Hz Logic.I) as E. rewrite app_nil_r in E. rewrite E.
    by rewrite (proj2 (Z.ltb_lt _ _)) by lia.
  - intros k. rewrite enabled_spec. intros (k' & E%sensor_id_inj & Hk)%Hm. by subst.
  - intros out d' E k. change (str ":1") with (58 :: str "1") in E. rewrite set_message in E by set_solver.
    destruct (mSensors d s) eqn:Es.
    + rewrite bytes_eqb_refl in E. eapply tick_mask in E; [|by apply Hmask, lor_mask_ok|exact Hn].
      rewrite E, !enabled_spec, andb_true_r. cbn [with_mask mEnabledMask].
      rewrite Z.lor_spec, bit_spec by (pose proof (sensor_id_range k); lia). f_equal.
      destruct (Z.eqb_spec (sensor_id k) (sensor_id s)) as [Ek|Ek]; case_bool_decide; try done.
      * by apply sensor_id_inj in Ek.
      * by subst.
    + injection E as _ <-. by rewrite andb_false_r, orb_false_r.
  - intros out d' E k. change (str ":0") with (58 :: str "0") in E. rewrite set_message in E by set_solver.
    destruct (mSensors d s) eqn:Es.
    + change (bytes_eqb (str "0") (str "1")) with false in E. cbv iota in E.
      eapply tick_mask in E; [|by apply Hmask, ldiff_mask_ok|exact Hn].
      rewrite E, !enabled_spec, andb_true_r. cbn [with_mask mEnabledMask].
      rewrite Z.ldiff_spec, bit_spec by (pose proof (sensor_id_range k); lia). do 2 f_equal.
      destruct (Z.eqb_spec (sensor_id k) (sensor_id s)) as [Ek|Ek]; case_bool_decide; try done.
      * by apply sensor_id_inj in Ek.
      * by subst.
    + injection E as _ <-. by rewrite andb_false_r, andb_true_r.
  - intros Es flag Hf. rewrite set_message by done. by rewrite Es.
Qed.

(** Reading and overriding through the emulator's interface: a number that
    is no sensor and a sensor that is not configured are errors that change
    nothing; an overridden sensor is read back as it was set, with zeros for
    what the data lack; the angle of a hinge is accepted but not set. *)
Theorem sensor_override n data d :
  match sensor_of_id n with
  | None =>
      overrideSensor n data d = (InvalidArgument, [], d) /\
      getSensorData hinge n d = (inl InvalidArgument, d) /\ isSensorEnabled n d = false
  | Some s =>
      if mSensors d s then
        let '(st, es, d') := overrideSensor n data d in
        st = Ok /\ es = [s] /\ isSensorEnabled n d = true /\
        (getSensorData hinge n d').1 =
          inr match s with
              | HINGE_ANGLE0 => [hinge 0]
              | HINGE_ANGLE1 => [hinge 1]
              | HINGE_ANGLE2 => [hinge 2]
              | _ => take (length (components (get_value (sensor_type s) data))) (data ++ replicate 4 (flt 0%Q))
              end
      else
        overrideSensor n data d = (Unavailable, [], d) /\
        getSensorData hinge n d = (inl Unavailable, d) /\ isSensorEnabled n d = false
  end.
Proof.
  unfold overrideSensor, getSensorData, isSensorEnabled.
  destruct (sensor_of_id n) as [s|] eqn:En; [|done].
  destruct (mSensors d s) eqn:Es; cbn [negb]; [|done]. split; [done|]. split; [done|]. split; [done|].
  cbn [mSensors with_model]. rewrite Es. cbn [negb mPhysicalModel].
  assert (forall t, components (get_value t data) =
    take (length (components (get_value t data))) (data ++ replicate 4 (flt 0%Q))) as Hpad.
  { intros t. destruct t, data as [|x1 [|x2 [|x3 [|x4 data]]]]; reflexivity. }
  assert (forall v m D,
    (let '(_, w, m') := getSensorValue hinge s (setOverride s v m).2 in
     (@inr status _ (components w), with_model m' D)).1 = inr (components v)) as Hread.
  { intros v m D. unfold getSensorValue, setOverride. cbn. by rewrite !fn_lookup_insert. }
  destruct s; first [etransitivity; [apply Hread | f_equal; apply Hpad] | reflexivity].
Qed.

End properties.

(** ** Examples *)

Import Physics.Example.

Definition example_hardware : hardware :=
  Hardware true false false false false false false false false true false false false
    true 1 false false false 33.

Definition example_device : SensorDevice (I := Z) (F := Q) := SensorDevice_new example_hardware 0 0.

Definition example_format (q : Q) : bytes := to_string (Qnum q).
Definition example_atoi (s : bytes) : bool * Z := (false, 0).

Lemma sensor_report_witness :
  exists d', tick (fun _ => 0%Q) (fun _ => str "0,5") 3000000 example_device =
    Some ([str "acceleration:0.5:0.5:0.5:1"; str "light:0.5:1"; str "hinge-angle0:0.5:1";
           str "guest-sync:3000000"; str "sync:3000"], d') /\
    exists ms, timer d' = Some ms /\ mDelayMs d' = ms /\ 10 <= ms <= 3600000.
Proof.
  destruct (sensor_report (I := Z) (F := Q) (fun _ => 0%Q) (fun _ => str "0,5") example_atoi example_atoi
              3000000 example_device) as (d' & E & _ & _ & Ht).
  - intros x. split; [apply str_bytes|by vm_compute].
  - exists example_hardware, 0, 0. split; [exact (Z.le_refl 0)|split; [exact Logic.I|apply rtc_refl]].
  - split; by vm_compute.
  - intros s. by destruct s.
  - by vm_compute.
  - exists d'. split; [rewrite E; vm_compute; reflexivity|]. apply Ht. by vm_compute.
Defined.

Lemma sensor_commands_witness :
  exists t, onReceive (fun _ => 0%Q) example_format example_atoi example_atoi (str "list-sensors") 5 example_device
    = Some ([t], example_device) /\ strtoll t = (2113, false, []).
Proof.
  destruct (sensor_commands (I := Z) (F := Q) (fun _ => 0%Q) example_format example_atoi example_atoi 5
              example_device LIGHT) as ((t & E & Et) & _).
  - exists example_hardware, 0, 0. split; [exact (Z.le_refl 0)|split; [exact Logic.I|apply rtc_refl]].
  - split; by vm_compute.
  - exists t. split; [exact E|]. rewrite Et. by vm_compute.
Defined.
